(* ===== verification/_CoqProject ===== *)
-Q . S2P
Prelude.v
Memory.v
Layout.v
Cstring.v
Spinlock.v
Kalloc.v
Vm.v
VmSpec.v
Uvm.v
UvmSpec.v
Proc.v
ProcSpec.v
ProcSys.v
ProcSmp.v
Sched.v
Pipe.v
Block.v
Bio.v
Ide.v
Bootmain.v
IdeSpec.v
Log.v
Fs.v
FsTx.v
FsBlock.v
FsFile.v
FsRw.v
FsIno.v
FsSpec.v
FsDir.v
Mkfs.v
MkfsFile.v
MkfsSpec.v
File.v
Kern.v
KernRun.v
KernArg.v
Fork.v
Load.v
Exec.v
KernRefs.v
Ulib.v
Printf.v
Dev.v
X86.v
Trapasm.v
AsmRun.v
TrapasmSpec.v
Newproc.v
Mp.v
Kbd.v
Console.v
ConsoleSpec.v
Entry.v
EntrySpec.v
Sh.v
ShLex.v
ShParse.v
ShHeap.v
ShSpec.v
ShRun.v
Grep.v
User.v
Uprogs.v
UprogSpec.v
Usertests.v
Usys.v
UsysSpec.v
Umalloc.v
UmallocSpec.v
