(* ===== verification/Prelude.v ===== *)
(** * Verification of the xv6 kernel

    This library models xv6-public (the sources under src/xv6-public/) as
    executable definitions and proves what makes its parts correct.  xv6 is a
    small Unix kernel for x86 multiprocessors: spin locks and a process table
    with a scheduler per CPU, page tables and a page allocator, a disk behind a
    buffer cache, a write-ahead log on top of it, a file system on top of the
    log, pipes and open files, and the system calls that tie these together.

    ** How code is modelled

    A C function that changes state is a function in the monad [M S] of this
    file: it maps a state to an [outcome], which is a result with a new state,
    a call of [panic], a wait on a sleep channel, or an access the hardware
    would not allow.  A machine integer is a [Z], wrapped ([u8], [u16], [u32],
    [s32]) exactly where C wraps it.  Pointers into tables (processes, buffers,
    inodes, files) are indices; pointers into memory are addresses, and memory
    is the map of Memory.v.  Loops whose bound is not in the code take fuel; the
    theorems about them show that the fuel given is enough, so [NoFuel] does not
    occur.  A definition has the name of the function it models.

    User programs are interaction trees over the system calls (User.v), except
    the shell's parser, grep's matcher and malloc, which run on their own memory
    in the same monad or as plain functions.  Assembly is a list of instructions
    run by the processor of X86.v.

    ** Files

    Foundations
    - Prelude: outcomes, the monad, Hoare triples, machine integers, lists.
    - Memory: bytes in memory, little-endian words.  Layout: the constants of
      param.h, fs.h, mmu.h, memlayout.h and the structures of fs.h.
    - Cstring: string.c (Module [Mem] on memory, Module [Str] on strings).
    - Spinlock: spinlock.c.  [Cli] is pushcli/popcli, [Lock] is acquire and
      release on one CPU, [Smp] interleaves their memory accesses on any number
      of CPUs, [Seq] is the view the other components take of a lock.

    Memory and processes
    - Kalloc: kalloc.c, the free list kept in the free pages themselves.
    - Vm: vm.c on page tables in memory; Module [Seg] is the segment and page
      table registers.  VmSpec: what mappages does to the address space.  Uvm:
      the invariant of a whole address space and its pages.  UvmSpec: allocuvm,
      copyuvm, copyout and the rest, on every branch.
    - Proc: the process table of proc.c, each function cut at the switch to and
      from the scheduler.  ProcSpec: kill and getpcount.  ProcSys: the
      invariant of the table and its preservation by fork, exit, wait and
      wakeup.  ProcSmp: what each table operation computes.  Sched: all of them
      interleaved on any number of CPUs.
    - Pipe: pipe.c.

    Disk and file system
    - Block: the contract of a block device with a cache, as a class and as an
      abstract machine.  Bio: bio.c over memide.c, which implements it.
    - Ide: ide.c and the boot loader's disk routines on the ports of the disk.
      IdeSpec: its request queue.  Bootmain: bootmain.c.
    - Log: log.c over any block device of the contract.
    - Fs: fs.c over the log.  FsTx, FsBlock, FsFile, FsRw and FsIno build the
      invariants (blocks and bitmap, the block map of a file, its contents,
      inodes on disk and in the cache); FsSpec states what the operations do;
      FsDir does so for directories.
    - Mkfs: mkfs.c.  MkfsFile: files under construction.  MkfsSpec: the image is
      one that the theorems of FsSpec apply to.

    The kernel
    - File: file.c and pipealloc.  Kern: the whole kernel state, sysproc.c,
      sysfile.c, syscall.c, exec.c, trap.c and the rest of proc.c.  KernRun:
      how an operation of a component runs on it.
    - KernArg: the arguments of system calls.  Fork: fork.  Load: the
      loading of a program by exec.  Exec: the stack and the change of image of
      exec.  KernRefs: the reference counts of open files under every trap,
      and where a call waits.
    - Dev: picirq.c, ioapic.c, timer.c, uart.c and lapic.c over the class
      [Machine] of devices.  Mp: mp.c.  Kbd: kbd.c.  Console: console.c;
      ConsoleSpec: its line discipline.

    Assembly
    - X86: registers, memory, descriptor tables and instructions.
    - Trapasm: vectors.S, trapasm.S, swtch.S and the descriptor table of trap.c.
      AsmRun: runs of such code, and swtch.  TrapasmSpec: interrupts.  Newproc:
      the first run of a forked child, which composes Fork with both.
    - Entry: bootasm.S, entry.S, entryother.S and main.c.  EntrySpec: the boot
      page table and the start of the other processors.

    User space
    - Ulib: ulib.c.  Printf: printf.c and the text of cprintf.  Umalloc:
      umalloc.c; UmallocSpec: its correctness.
    - Sh: sh.c.  ShLex, ShParse and ShHeap: its parser against a grammar.
      ShSpec and ShRun: what it accepts and what it runs.
    - Grep: grep.c.  User: programs over the system calls, with a program logic.
      Uprogs: the small programs; UprogSpec: cat and wc.  Usertests:
      usertests.c.
    - Usys: usys.S, and programs run on the kernel of Kern.v.  UsysSpec: what
      holds of every program, and runs of usertests.c on the kernel.

    ** Interfaces

    Log, Fs, File and Kern use the disk only through the class [BlockDev] of
    Block.v; the theorems about the log hold of every device with the contract
    [BlockSpec], and the refinement theorem of Bio.v discharges it for the
    buffer cache.  Drivers reach hardware through the class [Machine] of Dev.v.
    Locks inside the other components are [Seq] locks, which Spinlock.v relates
    to the real ones.  The C functions that assembly calls are an argument of
    the processor's run; the addresses of symbols are the linker's and
    arguments too.

    ** What the theorems show

    - Disk: the buffer cache refines the block contract for every sequence of
      calls; commit is atomic under a crash at any disk write, recovery can
      itself be interrupted; begin_op, log_write and end_op keep the log within
      bounds, with one gap: three admitted calls can log a block too many; the
      IDE driver serves its queue in order and wakes each request once; the boot
      loader loads the kernel's segments.
    - File system: block allocation and release, reading and writing of file
      contents (frame conditions included), write-then-read, the inode codec
      and its two copies, the inode cache, directory entries; the image of mkfs
      satisfies the hypotheses of these theorems and holds its files, but for a
      hole at the end of a root directory that fills its last block.
    - Processes: under every interleaving the process table is a tree of live
      parents under init with unique pids, each CPU runs its own process, no
      wakeup of wait is lost, and none of the panics of proc.c happens.
    - System calls: fork gives the child a copy of the parent; exec builds
      the image its file describes, and passes the arguments to the new program
      or leaves the process alone; argument
      fetching stays inside of the process; every trap keeps the reference
      counts of open files, up to one reference where it waits; kill(0) marks a
      free slot.  The model is run on tests of usertests.c as a check.
    - Traps: the descriptor table admits user code through system calls only;
      an interrupt hands [trap] a frame with every register and its return
      loads them back; swtch resumes what it saved; a child's first switch
      enters user mode with the registers of its parent and 0 in %eax; the other
      processors reach [mpenter] on their own stacks.
    - Locks: mutual exclusion under every interleaving of single memory
      accesses, matched interrupt nesting, the one-CPU protocol.
    - Memory: the free list is a stack of distinct pages; kinit frees all of
      memory once; mappages, copyuvm, copyout, allocuvm; the string routines.
    - Pipes: first in first out under every interleaving, progress, and each
      operation on every branch.
    - Devices: the console delivers finished lines in order; the keyboard stays
      within its tables; mpinit on tables of known entries.
    - User programs: the shell's parser decides its grammar and runs the tree;
      grep's matcher decides its language; cat copies; malloc and free keep the
      free memory.

    ** Bounds

    Fuel is used for walks over the buffer list (NBUF + 1 steps), freerange
    (one step per page), loops over bytes, pages and blocks bounded by their
    count argument, the shell's parser (bounded by the length of the line), and
    runs of assembly: an interrupt path has at most 24 instructions on either
    side of [trap], and the start of a processor at most 40; none of that code
    has a loop that the theorems run.  The reference count of a page, pid
    counters and interrupt nesting are machine integers: theorems that need
    them not to wrap say so.

    ** Ideal environments

    Some theorems are about code over an environment that is stated, not
    derived from the kernel: the disk of IdeSpec and Bootmain never reports an
    error ([AtaSpec]; Ide.v has what a failed read does); the kernel under cat
    and wc ([osys]) reads and writes without failing but in pieces of any size;
    the kernel under the shell ([run] of ShRun) never fails to fork and runs a
    child to its end first; the shell's memory does not run out ([new] of Sh);
    grep reads its file in full buffers ([from_file]); malloc runs over any
    kernel that grows the process or refuses ([grow]).

    ** Not modelled

    A call of Kern.v that waits in the file system, the log or a pipe ends
    there with [Sleep]; it is not resumed, and other processes do not run on
    the same state meanwhile, except in the components whose interleavings are
    modelled (locks, the process table, pipes, the disk queue, the console).
    The interleaving of kernel code inside the file system: its operations are
    sequential here, and the locks they take are checked on the CPU that takes
    them.  Instruction-level interleaving is modelled for spin locks only; the
    memory order of the hardware, the TLB and caches are not.  Of the task state
    segment only ss0 and esp0 are used, so only they are modelled.  [main] is
    defined but not run from the reset of the machine, and a processor that
    [startothers] starts runs while the boot processor waits for it.  The
    prototypes of defs.h and user.h have no content to model.  PROJECT.json
    lists every part with its status. *)

From Stdlib Require Export ZArith Lia.
From stdpp Require Export base numbers functions strings gmap list.
From stdpp Require Import tactics.

Declare Scope xv6_scope.
Delimit Scope xv6_scope with xv6.
#[global] Open Scope Z_scope.

(** ** Machine integers: an N-bit value is a [Z], wrapped where C wraps. *)

Definition u8 (x : Z) : Z := x mod 2 ^ 8.
Definition u16 (x : Z) : Z := x mod 2 ^ 16.
Definition u32 (x : Z) : Z := x mod 2 ^ 32.

(** Reinterpretation of a 32-bit pattern as a C [int]. *)
Definition s32 (x : Z) : Z :=
  if u32 x <? 2 ^ 31 then u32 x else u32 x - 2 ^ 32.

Definition s16 (x : Z) : Z :=
  if u16 x <? 2 ^ 15 then u16 x else u16 x - 2 ^ 16.

(** A C condition [if(x)] on an integer. *)
Definition truthy (x : Z) : bool := negb (x =? 0).

Infix ".&" := Z.land (at level 40, left associativity) : xv6_scope.
Infix ".|" := Z.lor (at level 50, left associativity) : xv6_scope.
#[global] Open Scope xv6_scope.

Lemma u32_range x : 0 <= u32 x < 2 ^ 32.
Proof. unfold u32. apply Z.mod_pos_bound. lia. Qed.

Lemma u32_small x : 0 <= x < 2 ^ 32 -> u32 x = x.
Proof. intros. unfold u32. by apply Z.mod_small. Qed.

Lemma u32_idemp x : u32 (u32 x) = u32 x.
Proof. apply u32_small, u32_range. Qed.

Lemma u8_range x : 0 <= u8 x < 256.
Proof. unfold u8. apply Z.mod_pos_bound. lia. Qed.

Lemma u8_small x : 0 <= x < 256 -> u8 x = x.
Proof. intros. unfold u8. by apply Z.mod_small. Qed.

Lemma s32_small x : 0 <= x < 2 ^ 31 -> s32 x = x.
Proof.
  intros. unfold s32. rewrite u32_small by lia.
  destruct (Z.ltb_spec x (2 ^ 31)); lia.
Qed.

Lemma s32_range x : - 2 ^ 31 <= s32 x < 2 ^ 31.
Proof.
  pose proof (u32_range x). unfold s32.
  destruct (Z.ltb_spec (u32 x) (2 ^ 31)); lia.
Qed.

(** ** Outcomes of kernel code

    Kernel code either returns, calls [panic] (and the machine stops), blocks
    in [sleep] on a channel, or dereferences a pointer it must not (a null
    pointer or memory outside the object).  [NoFuel] is the model's own: a
    loop bound ran out, which the theorems about that loop exclude. *)

(** The addresses kernel code sleeps on. *)
Inductive chan :=
| ChLog
| ChBuf (i : nat)
| ChInode (i : nat)
| ChPipeRead (p : Z)
| ChPipeWrite (p : Z)
| ChProc (i : nat)
| ChTicks
| ChInput.

#[global] Instance chan_eq_dec : EqDecision chan.
Proof. solve_decision. Defined.

Inductive outcome (S A : Type) : Type :=
| Ok (a : A) (s : S)
| Panic (msg : string)
| Sleep (c : chan) (s : S)
| Fault
| NoFuel.
Arguments Ok {S A} a s.
Arguments Panic {S A} msg.
Arguments Sleep {S A} c s.
Arguments Fault {S A}.
Arguments NoFuel {S A}.

Definition M (S A : Type) : Type := S -> outcome S A.

#[global] Instance M_ret S : MRet (M S) := fun A a s => Ok a s.
#[global] Instance M_bind S : MBind (M S) := fun A B f m s =>
  match m s with
  | Ok a s' => f a s'
  | Panic msg => Panic msg
  | Sleep c s' => Sleep c s'
  | Fault => Fault
  | NoFuel => NoFuel
  end.

Definition get {S} : M S S := fun s => Ok s s.
Definition put {S} (s : S) : M S unit := fun _ => Ok tt s.
Definition gets {S A} (f : S -> A) : M S A := fun s => Ok (f s) s.
Definition modify {S} (f : S -> S) : M S unit := fun s => Ok tt (f s).
Definition panic {S A} (msg : string) : M S A := fun _ => Panic msg.
Definition sleepon {S A} (c : chan) : M S A := fun s => Sleep c s.
Definition fault {S A} : M S A := fun _ => Fault.
Definition nofuel {S A} : M S A := fun _ => NoFuel.

(** Run an operation of a component on the part of the state it owns. *)
Definition zoom {S T A} (get : S -> T) (set : T -> S -> S) (m : M T A) : M S A := fun s =>
  match m (get s) with
  | Ok a t => Ok a (set t s)
  | Panic msg => Panic msg
  | Sleep c t => Sleep c (set t s)
  | Fault => Fault
  | NoFuel => NoFuel
  end.

Lemma zoom_bind {S T A B} (get : S -> T) (set : T -> S -> S) (m : M T A) (f : A -> M T B) s :
  (forall t s, get (set t s) = t) -> (forall t u s, set t (set u s) = set t s) ->
  zoom get set (m ≫= f) s = (zoom get set m ≫= fun a => zoom get set (f a)) s.
Proof.
  intros H1 H2. unfold zoom, mbind, M_bind. destruct (m (get s)); try done. rewrite H1.
  destruct (f a s0); try done; by rewrite H2.
Qed.

(** [when b m]: the C statement [if(b) m;]. *)
Definition when {S} (b : bool) (m : M S unit) : M S unit :=
  if b then m else mret tt.

(** Inversion of a successful bind, the workhorse of every proof about the
    monadic code. *)
Lemma bind_ok {S A B} (m : M S A) (f : A -> M S B) s b s' :
  (m ≫= f) s = Ok b s' <-> exists a s1, m s = Ok a s1 /\ f a s1 = Ok b s'.
Proof.
  unfold mbind, M_bind. destruct (m s); split; intros H; try done.
  - eauto.
  - destruct H as (? & ? & ? & ?). by simplify_eq.
  - by destruct H as (? & ? & ? & ?).
  - by destruct H as (? & ? & ? & ?).
  - by destruct H as (? & ? & ? & ?).
  - by destruct H as (? & ? & ? & ?).
Qed.

Lemma bind_ok_l {S A B} (m : M S A) (f : A -> M S B) s a s1 :
  m s = Ok a s1 -> (m ≫= f) s = f a s1.
Proof. intros H. unfold mbind, M_bind. by rewrite H. Qed.

Lemma bind_assoc {S A B C} (m : M S A) (f : A -> M S B) (g : B -> M S C) s :
  ((m ≫= f) ≫= g) s = (m ≫= (fun a => f a ≫= g)) s.
Proof. unfold mbind, M_bind. by destruct (m s). Qed.

Lemma bind_ext {S A B} (m m' : M S A) (f g : A -> M S B) s :
  m s = m' s -> (forall a s', f a s' = g a s') -> (m ≫= f) s = (m' ≫= g) s.
Proof. intros E H. unfold mbind, M_bind. rewrite E. by destruct (m' s). Qed.

(** Decompose a hypothesis [m s = Ok a s'] of monadic code. *)
Ltac run_inv :=
  repeat match goal with
  | H : (_ ≫= _) _ = Ok _ _ |- _ =>
      apply bind_ok in H; destruct H as (? & ? & ? & H)
  | H : Ok _ _ = Ok _ _ |- _ => injection H as ? ?; subst
  | H : Panic _ = Ok _ _ |- _ => discriminate H
  | H : Sleep _ _ = Ok _ _ |- _ => discriminate H
  | H : Fault = Ok _ _ |- _ => discriminate H
  | H : NoFuel = Ok _ _ |- _ => discriminate H
  | H : mret _ _ = Ok _ _ |- _ => injection H as ? ?; subst
  | H : gets _ _ = Ok _ _ |- _ => injection H as ? ?; subst
  | H : get _ = Ok _ _ |- _ => injection H as ? ?; subst
  | H : put _ _ = Ok _ _ |- _ => injection H as ? ?; subst
  | H : modify _ _ = Ok _ _ |- _ => injection H as ? ?; subst
  | H : panic _ _ = Ok _ _ |- _ => discriminate H
  | H : sleepon _ _ = Ok _ _ |- _ => discriminate H
  | H : fault _ = Ok _ _ |- _ => discriminate H
  | H : nofuel _ = Ok _ _ |- _ => discriminate H
  end.

(** ** Total correctness *)

(** From every state that satisfies [P] the code returns, in a state and with
    a result that satisfy [Q]. *)
Definition triple {S A} (P : S -> Prop) (m : M S A) (Q : A -> S -> Prop) : Prop :=
  forall s, P s -> exists a s', m s = Ok a s' /\ Q a s'.

Lemma triple_bind {S A B} (P : S -> Prop) (m : M S A) (Q : A -> S -> Prop) (f : A -> M S B) R :
  triple P m Q -> (forall a, triple (Q a) (f a) R) -> triple P (m ≫= f) R.
Proof.
  intros H Hf s Hs. destruct (H s Hs) as (a & s1 & E & HQ). destruct (Hf a s1 HQ) as (b & s2 & E2 & HR).
  exists b, s2. split; [|done]. unfold mbind, M_bind. by rewrite E.
Qed.

Lemma triple_ret {S A} (P : S -> Prop) (a : A) (Q : A -> S -> Prop) :
  (forall s, P s -> Q a s) -> triple P (mret a) Q.
Proof. intros H s Hs. exists a, s. eauto. Qed.

Lemma triple_weaken {S A} (P P' : S -> Prop) (m : M S A) (Q Q' : A -> S -> Prop) :
  triple P m Q -> (forall s, P' s -> P s) -> (forall a s, Q a s -> Q' a s) -> triple P' m Q'.
Proof. intros H HP HQ s Hs. destruct (H s (HP s Hs)) as (a & s' & E & Ha). eauto. Qed.

Lemma triple_post {S A} (P : S -> Prop) (m : M S A) (Q Q' : A -> S -> Prop) :
  triple P m Q -> (forall a s, Q a s -> Q' a s) -> triple P m Q'.
Proof. intros H HQ. by eapply triple_weaken. Qed.

Lemma triple_and {S A} (X : Prop) (P : S -> Prop) (m : M S A) Q :
  (X -> triple P m Q) -> triple (fun s => X /\ P s) m Q.
Proof. intros H s [HX Hs]. exact (H HX s Hs). Qed.

(** A pure fact of the precondition. *)
Lemma triple_pure {S A} (X : Prop) (P : S -> Prop) (m : M S A) Q :
  (forall s, P s -> X) -> (X -> triple P m Q) -> triple P m Q.
Proof. intros HX H s Hs. exact (H (HX s Hs) s Hs). Qed.

(** From every state that satisfies [P] the code panics with [msg]. *)
Definition panics {S A} (P : S -> Prop) (m : M S A) (msg : string) : Prop :=
  forall s, P s -> m s = Panic msg.

Lemma panics_bind {S A B} (P : S -> Prop) (m : M S A) (Q : A -> S -> Prop) (f : A -> M S B) msg :
  triple P m Q -> (forall a, panics (Q a) (f a) msg) -> panics P (m ≫= f) msg.
Proof.
  intros H Hf s Hs. destruct (H s Hs) as (a & s1 & E & HQ). unfold mbind, M_bind. rewrite E. by apply Hf.
Qed.

Lemma panics_and {S A} (X : Prop) (P : S -> Prop) (m : M S A) msg :
  (X -> panics P m msg) -> panics (fun s => X /\ P s) m msg.
Proof. intros H s [HX Hs]. exact (H HX s Hs). Qed.

(** Case analysis on the innermost boolean test of the goal or a hypothesis. *)
Ltac split_if :=
  match goal with
  | |- context [if ?b then _ else _] => destruct b eqn:?
  | H : context [if ?b then _ else _] |- _ => destruct b eqn:?
  end.

Ltac boolify :=
  repeat match goal with
  | H : (_ && _)%bool = true |- _ => apply andb_true_iff in H; destruct H
  | H : (_ || _)%bool = false |- _ => apply orb_false_iff in H; destruct H
  | H : negb _ = true |- _ => apply negb_true_iff in H
  | H : negb _ = false |- _ => apply negb_false_iff in H
  | H : (_ =? _) = true |- _ => apply Z.eqb_eq in H
  | H : (_ =? _) = false |- _ => apply Z.eqb_neq in H
  | H : (_ <? _) = true |- _ => apply Z.ltb_lt in H
  | H : (_ <? _) = false |- _ => apply Z.ltb_ge in H
  | H : (_ <=? _) = true |- _ => apply Z.leb_le in H
  | H : (_ <=? _) = false |- _ => apply Z.leb_gt in H
  | H : bool_decide _ = true |- _ => apply bool_decide_eq_true in H
  | H : bool_decide _ = false |- _ => apply bool_decide_eq_false in H
  end.

(** ** Lists *)

Lemma filter_all {A} (P : A -> Prop) `{!forall x, Decision (P x)} (l : list A) :
  (forall x, x ∈ l -> P x) -> filter P l = l.
Proof.
  induction l as [|x l IH]; intros HP; [done|].
  rewrite filter_cons_True by (apply HP; set_solver). f_equal. apply IH. set_solver.
Qed.

Lemma filter_ext_in {A} (P Q : A -> Prop) `{!forall x, Decision (P x)} `{!forall x, Decision (Q x)} (l : list A) :
  (forall x, x ∈ l -> P x <-> Q x) -> filter P l = filter Q l.
Proof.
  induction l as [|x l IH]; intros HPQ; [done|]. rewrite !filter_cons.
  assert (P x <-> Q x) by (apply HPQ; set_solver).
  destruct (decide (P x)), (decide (Q x)); try tauto; [f_equal|]; apply IH; set_solver.
Qed.

Section filter_length.
Context {A : Type} (P Q : A -> Prop) `{!forall x, Decision (P x)} `{!forall x, Decision (Q x)}.

Lemma filter_length_le l : (forall x, x ∈ l -> P x -> Q x) -> (length (filter P l) <= length (filter Q l))%nat.
Proof.
  induction l as [|y l IH]; intros HPQ; [done|]. rewrite !filter_cons.
  assert (length (filter P l) <= length (filter Q l))%nat by (apply IH; set_solver).
  destruct (decide (P y)) as [Hy|Hy]; [|case_decide; simpl; lia].
  rewrite decide_True by (apply HPQ; [set_solver|done]). simpl. lia.
Qed.

Lemma filter_length_lt l x : (forall x, x ∈ l -> P x -> Q x) -> x ∈ l -> Q x -> ~ P x ->
  (length (filter P l) < length (filter Q l))%nat.
Proof.
  intros HPQ Hx HQ HP. apply list_elem_of_split in Hx as (l1 & l2 & ->).
  rewrite !list_basics.list.filter_app, !filter_cons, !length_app. rewrite decide_False, decide_True by done. simpl.
  assert (length (filter P l1) <= length (filter Q l1))%nat by (apply filter_length_le; set_solver).
  assert (length (filter P l2) <= length (filter Q l2))%nat by (apply filter_length_le; set_solver). lia.
Qed.
End filter_length.

(** ** Length automation *)

Create Rewrite HintDb len.
#[export] Hint Rewrite @length_app @length_take @length_drop @length_insert
  @length_replicate @length_fmap @length_seqZ : len.
Ltac len := autorewrite with len; try lia.
