(* ===== verification/Memory.v ===== *)
(** * Byte-addressed memory and byte buffers

    Two views of C memory used by the rest of the development: the flat kernel
    memory [mem] (a byte per 32-bit address, as the kernel's direct map of
    physical memory), with the little-endian 32-bit accesses the x86 performs,
    and the byte buffers ([list Z]) that hold disk blocks and C objects. *)

From S2P Require Import Prelude.

(** ** Flat memory *)

Abbreviation mem := (gmap Z Z).

(** A byte load. *)
Definition rd8 (m : mem) (a : Z) : Z := default 0 (m !! a).
(** A byte store. *)
Definition wr8 (m : mem) (a v : Z) : mem := <[a := u8 v]> m.

(** A 32-bit load: the bytes at [a..a+3] in little-endian order. *)
Definition rd32 (m : mem) (a : Z) : Z :=
  rd8 m a + 2 ^ 8 * rd8 m (a + 1) + 2 ^ 16 * rd8 m (a + 2) + 2 ^ 24 * rd8 m (a + 3).
(** A 32-bit store. *)
Definition wr32 (m : mem) (a v : Z) : mem :=
  wr8 (wr8 (wr8 (wr8 m a v) (a + 1) (v / 2 ^ 8)) (a + 2) (v / 2 ^ 16)) (a + 3) (v / 2 ^ 24).

(** Every stored byte is a byte. *)
Definition mem_wf (m : mem) : Prop := forall a v, m !! a = Some v -> 0 <= v < 256.

Lemma rd8_wr8_eq m a v : rd8 (wr8 m a v) a = u8 v.
Proof. unfold rd8, wr8. by rewrite lookup_insert_eq. Qed.

Lemma rd8_wr8_ne m a b v : a <> b -> rd8 (wr8 m a v) b = rd8 m b.
Proof. intros. unfold rd8, wr8. by rewrite lookup_insert_ne. Qed.

Lemma rd8_wr8 m a b v : rd8 (wr8 m a v) b = if decide (a = b) then u8 v else rd8 m b.
Proof. case_decide; subst; [apply rd8_wr8_eq | by apply rd8_wr8_ne]. Qed.

Lemma rd8_range m a : mem_wf m -> 0 <= rd8 m a < 256.
Proof. intros H. unfold rd8. destruct (m !! a) eqn:E; simpl; [eauto | lia]. Qed.

Lemma mem_wf_wr8 m a v : mem_wf m -> mem_wf (wr8 m a v).
Proof.
  intros H b w. unfold wr8. rewrite lookup_insert. case_decide; intros E.
  - simplify_eq. apply u8_range.
  - eauto.
Qed.

Lemma mem_wf_wr32 m a v : mem_wf m -> mem_wf (wr32 m a v).
Proof. intros. unfold wr32. by repeat apply mem_wf_wr8. Qed.

Lemma mem_wf_empty : mem_wf ∅.
Proof. intros a v. by rewrite lookup_empty. Qed.

(** Bytes of a word recombine. *)
Lemma word_bytes v : 0 <= v < 2 ^ 32 ->
  u8 v + 2 ^ 8 * u8 (v / 2 ^ 8) + 2 ^ 16 * u8 (v / 2 ^ 16) + 2 ^ 24 * u8 (v / 2 ^ 24) = v.
Proof.
  intros. unfold u8.
  replace (v / 2 ^ 24) with (v / 2 ^ 8 / 2 ^ 8 / 2 ^ 8) by (rewrite !Z.div_div by lia; done).
  replace (v / 2 ^ 16) with (v / 2 ^ 8 / 2 ^ 8) by (rewrite !Z.div_div by lia; done).
  pose proof (Z.div_mod v (2 ^ 8)).
  pose proof (Z.div_mod (v / 2 ^ 8) (2 ^ 8)).
  pose proof (Z.div_mod (v / 2 ^ 8 / 2 ^ 8) (2 ^ 8)).
  assert (v / 2 ^ 8 / 2 ^ 8 / 2 ^ 8 < 2 ^ 8).
  { rewrite !Z.div_div by lia. apply Z.div_lt_upper_bound; lia. }
  assert (0 <= v / 2 ^ 8 / 2 ^ 8 / 2 ^ 8).
  { rewrite !Z.div_div by lia. apply Z.div_pos; lia. }
  rewrite (Z.mod_small (v / 2 ^ 8 / 2 ^ 8 / 2 ^ 8)) by lia. lia.
Qed.

Lemma rd32_wr32_eq m a v : 0 <= v < 2 ^ 32 -> rd32 (wr32 m a v) a = v.
Proof.
  intros. unfold rd32, wr32. rewrite !rd8_wr8.
  repeat (case_decide; try lia). by apply word_bytes.
Qed.

Lemma rd32_ext m m' a :
  (forall b, a <= b < a + 4 -> rd8 m b = rd8 m' b) -> rd32 m a = rd32 m' a.
Proof. intros H. unfold rd32. rewrite !H by lia. done. Qed.

Lemma rd8_wr32_ne m a v b : b < a \/ a + 4 <= b -> rd8 (wr32 m a v) b = rd8 m b.
Proof. intros. unfold wr32. rewrite !rd8_wr8_ne by lia. done. Qed.

Lemma rd32_wr32_ne m a v b : b + 4 <= a \/ a + 4 <= b -> rd32 (wr32 m a v) b = rd32 m b.
Proof. intros. apply rd32_ext. intros. apply rd8_wr32_ne. lia. Qed.

Lemma rd32_range m a : mem_wf m -> 0 <= rd32 m a < 2 ^ 32.
Proof.
  intros H. unfold rd32.
  pose proof (rd8_range m a H). pose proof (rd8_range m (a + 1) H).
  pose proof (rd8_range m (a + 2) H). pose proof (rd8_range m (a + 3) H). lia.
Qed.

(** ** Byte buffers *)

Abbreviation bytes := (list Z).

(** [sub off n l]: the [n] bytes of [l] from [off]. *)
Definition sub (off n : nat) (l : bytes) : bytes := take n (drop off l).

(** [splice off new l]: [memmove(l + off, new, length new)] on a buffer that
    has room for [new]. *)
Definition splice (off : nat) (new l : bytes) : bytes :=
  take off l ++ new ++ drop (off + length new) l.

(** The little-endian value of a byte string, and its encoding. *)
Fixpoint le_val (l : bytes) : Z :=
  match l with
  | [] => 0
  | b :: l' => b + 2 ^ 8 * le_val l'
  end.

Fixpoint le_enc (n : nat) (v : Z) : bytes :=
  match n with
  | O => []
  | S n' => u8 v :: le_enc n' (v / 2 ^ 8)
  end.

Definition bytes_wf (l : bytes) : Prop := Forall (fun b => 0 <= b < 256) l.

Lemma length_sub off n l : (off + n <= length l)%nat -> length (sub off n l) = n.
Proof. intros. unfold sub. len. Qed.

Lemma length_splice off new l :
  (off + length new <= length l)%nat -> length (splice off new l) = length l.
Proof. intros. unfold splice. len. Qed.

Lemma length_le_enc n v : length (le_enc n v) = n.
Proof. revert v. induction n; intros; simpl; [done | by f_equal]. Qed.
#[export] Hint Rewrite length_le_enc : len.

Lemma le_enc_wf n v : bytes_wf (le_enc n v).
Proof. revert v. induction n; intros; constructor; [apply u8_range | apply IHn]. Qed.

Lemma le_val_enc n v : le_val (le_enc n v) = v mod 2 ^ (8 * Z.of_nat n).
Proof.
  revert v. induction n as [|n IH]; intros v.
  - simpl. by rewrite Z.mod_1_r.
  - cbn [le_enc le_val]. rewrite IH. unfold u8.
    replace (8 * Z.of_nat (S n)) with (8 + 8 * Z.of_nat n) by lia.
    rewrite Z.pow_add_r by lia. rewrite Z.rem_mul_r by lia. lia.
Qed.

Lemma le_val_enc_small n v : 0 <= v < 2 ^ (8 * Z.of_nat n) -> le_val (le_enc n v) = v.
Proof. intros. rewrite le_val_enc. by apply Z.mod_small. Qed.

Lemma le_val_range l : bytes_wf l -> 0 <= le_val l < 2 ^ (8 * Z.of_nat (length l)).
Proof.
  induction 1 as [|b l Hb Hl IH]; [simpl; lia|].
  cbn [le_val length].
  replace (8 * Z.of_nat (S (length l))) with (8 + 8 * Z.of_nat (length l)) by lia.
  rewrite Z.pow_add_r by lia. lia.
Qed.

Lemma le_enc_val l : bytes_wf l -> le_enc (length l) (le_val l) = l.
Proof.
  induction 1 as [|b l Hb Hl IH]; [done|]. cbn [length le_enc le_val].
  replace (u8 (b + 2 ^ 8 * le_val l)) with b.
  - replace ((b + 2 ^ 8 * le_val l) / 2 ^ 8) with (le_val l); [by rewrite IH|].
    rewrite Z.mul_comm, Z.div_add by lia. rewrite Z.div_small by lia. lia.
  - unfold u8. rewrite Z.mul_comm, Z.mod_add by lia. by rewrite Z.mod_small by lia.
Qed.

Lemma sub_splice_eq off new l :
  (off + length new <= length l)%nat -> sub off (length new) (splice off new l) = new.
Proof.
  intros. unfold sub, splice.
  rewrite drop_app_length' by len. rewrite take_app_length. done.
Qed.

Lemma lookup_splice off new l i :
  (off + length new <= length l)%nat ->
  splice off new l !! i =
    if decide (off <= i < off + length new)%nat then new !! (i - off)%nat else l !! i.
Proof.
  intros. unfold splice. case_decide.
  - rewrite lookup_app_r by len. rewrite length_take, Nat.min_l by lia.
    rewrite lookup_app_l by lia. done.
  - destruct (decide (i < off)%nat).
    + rewrite lookup_app_l by len. by rewrite lookup_take_lt by lia.
    + rewrite lookup_app_r by len. rewrite length_take, Nat.min_l by lia.
      rewrite lookup_app_r by lia. rewrite lookup_drop. f_equal. lia.
Qed.

Lemma lookup_sub off n l i :
  sub off n l !! i = if decide (i < n)%nat then l !! (off + i)%nat else None.
Proof.
  unfold sub. case_decide.
  - rewrite lookup_take_lt by lia. by rewrite lookup_drop.
  - by rewrite lookup_take_ge by lia.
Qed.

Lemma sub_splice_ne off new l o n :
  (off + length new <= length l)%nat ->
  (o + n <= off \/ off + length new <= o)%nat ->
  sub o n (splice off new l) = sub o n l.
Proof.
  intros. apply list_eq. intros i. rewrite !lookup_sub.
  case_decide; [|done]. rewrite lookup_splice by done.
  case_decide; [lia | done].
Qed.

Lemma sub_cons off n l b bl :
  sub off (S n) l = b :: bl -> l !! off = Some b /\ sub (off + 1) n l = bl.
Proof.
  unfold sub. rewrite <- drop_drop. intros H. rewrite <- (Nat.add_0_r off) at 1.
  rewrite <- lookup_drop. by destruct (drop off l); simplify_eq/=.
Qed.

Lemma sub_S off n l b : l !! off = Some b -> sub off (S n) l = b :: sub (off + 1) n l.
Proof. intros H. unfold sub. rewrite Nat.add_1_r, (drop_S _ _ _ H). done. Qed.

Lemma bytes_wf_splice off new l :
  bytes_wf new -> bytes_wf l -> bytes_wf (splice off new l).
Proof.
  intros. unfold splice, bytes_wf.
  rewrite !Forall_app. eauto using Forall_take, Forall_drop.
Qed.

Lemma bytes_wf_sub off n l : bytes_wf l -> bytes_wf (sub off n l).
Proof. intros. unfold sub, bytes_wf. eauto using Forall_take, Forall_drop. Qed.

Create HintDb bytes.
(** Storing a run of bytes. *)
Fixpoint store_bytes (m : mem) (a : Z) (b : bytes) : mem :=
  match b with
  | [] => m
  | c :: b' => store_bytes (wr8 m a c) (a + 1) b'
  end.

Lemma rd8_store_bytes m a b x : bytes_wf b ->
  rd8 (store_bytes m a b) x = if decide (a <= x < a + Z.of_nat (length b)) then nth (Z.to_nat (x - a)) b 0 else rd8 m x.
Proof.
  revert m a. induction b as [|c b IH]; intros m a Hb; cbn [store_bytes length]; [by rewrite decide_False by lia|]. inversion Hb; subst.
  rewrite IH by done. destruct (decide (x = a)) as [->|Hne].
  - rewrite decide_False, decide_True, rd8_wr8_eq, Z.sub_diag by lia. cbn. unfold u8. by rewrite Z.mod_small.
  - rewrite rd8_wr8_ne by lia. destruct (decide (a + 1 <= x < a + 1 + Z.of_nat (length b))) as [Hx|Hx].
    + rewrite decide_True by lia. replace (Z.to_nat (x - a)) with (S (Z.to_nat (x - (a + 1)))) by lia. done.
    + by rewrite decide_False by lia.
Qed.

Lemma mem_wf_store_bytes m a b : mem_wf m -> mem_wf (store_bytes m a b).
Proof. revert m a. induction b as [|c b IH]; intros m a Hm; cbn [store_bytes]; [done|]. by apply IH, mem_wf_wr8. Qed.

#[export] Hint Resolve le_enc_wf bytes_wf_splice bytes_wf_sub mem_wf_wr8 mem_wf_wr32
  mem_wf_empty : bytes.
