(* ===== verification/Layout.v ===== *)
(** * param.h, traps.h, fcntl.h, memlayout.h and mmu.h: the kernel's constants and address arithmetic *)

From S2P Require Import Prelude.

(** param.h *)
Definition NPROC : nat := 64.
Definition KSTACKSIZE : Z := 4096.
Definition NOFILE : nat := 16.
Definition NFILE : nat := 100.
Definition NINODE : nat := 50.
Definition NDEV : Z := 10.
Definition ROOTDEV : Z := 1.
Definition MAXARG : nat := 32.
Definition MAXOPBLOCKS : Z := 10.
Definition LOGSIZE : Z := MAXOPBLOCKS * 3.
Definition NBUF : nat := 30.
Definition FSSIZE : Z := 1000.

(** traps.h: the interrupt vectors. *)
Definition T_IRQ0 : Z := 32.
Definition IRQ_TIMER : Z := 0.
Definition IRQ_KBD : Z := 1.
Definition IRQ_COM1 : Z := 4.
Definition IRQ_IDE : Z := 14.
Definition IRQ_ERROR : Z := 19.
Definition IRQ_SPURIOUS : Z := 31.

(** fcntl.h *)
Definition O_RDONLY : Z := 0.
Definition O_WRONLY : Z := 1.
Definition O_RDWR : Z := 2.
Definition O_CREATE : Z := 0x200.

(** memlayout.h *)
Definition EXTMEM : Z := 0x100000.
Definition PHYSTOP : Z := 0xE000000.
Definition DEVSPACE : Z := 0xFE000000.
Definition KERNBASE : Z := 0x80000000.
Definition KERNLINK : Z := KERNBASE + EXTMEM.

Definition v2p (a : Z) : Z := u32 (a - KERNBASE).
Definition p2v (a : Z) : Z := u32 (a + KERNBASE).

(** mmu.h: pages and page table indices *)
Definition PGSIZE : Z := 4096.
Definition NPDENTRIES : Z := 1024.
Definition NPTENTRIES : Z := 1024.
Definition PTXSHIFT : Z := 12.
Definition PDXSHIFT : Z := 22.

Definition PDX (va : Z) : Z := (va ≫ PDXSHIFT) .& 0x3FF.
Definition PTX (va : Z) : Z := (va ≫ PTXSHIFT) .& 0x3FF.
Definition PGADDR (d t o : Z) : Z := u32 ((d ≪ PDXSHIFT) .| (t ≪ PTXSHIFT) .| o).

Definition PGROUNDUP (sz : Z) : Z := u32 (sz + PGSIZE - 1) .& 0xFFFFF000.
Definition PGROUNDDOWN (a : Z) : Z := a .& 0xFFFFF000.

Definition PTE_P : Z := 0x001.
Definition PTE_W : Z := 0x002.
Definition PTE_U : Z := 0x004.
Definition PTE_ADDR (pte : Z) : Z := pte .& 0xFFFFF000.
Definition PTE_FLAGS (pte : Z) : Z := pte .& 0xFFF.

(** ** Arithmetic facts *)

Lemma land_page_mask x : 0 <= x < 2 ^ 32 -> x .& 0xFFFFF000 = PGSIZE * (x / PGSIZE).
Proof.
  intros Hx. change 0xFFFFF000 with (Z.shiftl (Z.ones 20) 12).
  assert (x .& Z.shiftl (Z.ones 20) 12 = Z.shiftl (Z.land (Z.shiftr x 12) (Z.ones 20)) 12) as ->.
  { apply Z.bits_inj'. intros n Hn. rewrite Z.land_spec.
    destruct (Z.ltb_spec n 12).
    - rewrite !Z.shiftl_spec_low by lia. by rewrite andb_false_r.
    - rewrite !Z.shiftl_spec by lia. rewrite Z.land_spec, Z.shiftr_spec by lia.
      by replace (n - 12 + 12) with n by lia. }
  rewrite Z.land_ones by lia. rewrite Z.shiftr_div_pow2, Z.shiftl_mul_pow2 by lia.
  change PGSIZE with (2 ^ 12). rewrite Z.mod_small; [lia|].
  split; [apply Z.div_pos; lia | apply Z.div_lt_upper_bound; lia].
Qed.

Lemma PGROUNDDOWN_spec a : 0 <= a < 2 ^ 32 -> PGROUNDDOWN a = PGSIZE * (a / PGSIZE).
Proof. apply land_page_mask. Qed.

Lemma PGROUNDUP_spec sz :
  0 <= sz <= 2 ^ 32 - PGSIZE -> PGROUNDUP sz = PGSIZE * ((sz + PGSIZE - 1) / PGSIZE).
Proof.
  intros. unfold PGROUNDUP, PGSIZE in *. rewrite u32_small by lia.
  apply land_page_mask. lia.
Qed.

Lemma PGROUNDUP_bounds sz :
  0 <= sz <= 2 ^ 32 - PGSIZE ->
  sz <= PGROUNDUP sz < sz + PGSIZE /\ PGROUNDUP sz mod PGSIZE = 0.
Proof.
  intros. rewrite PGROUNDUP_spec by done. unfold PGSIZE in *.
  pose proof (Z.div_mod (sz + 4096 - 1) 4096). pose proof (Z.mod_pos_bound (sz + 4096 - 1) 4096).
  split; [lia|]. rewrite Z.mul_comm. apply Z.mod_mul. lia.
Qed.

Lemma PGROUNDUP_aligned sz : sz mod PGSIZE = 0 -> 0 <= sz <= 2 ^ 32 - PGSIZE -> PGROUNDUP sz = sz.
Proof.
  intros Ha Hb. rewrite PGROUNDUP_spec by done. unfold PGSIZE in *.
  apply Z.mod_divide in Ha as [k ->]; [|lia].
  replace (k * 4096 + 4096 - 1) with (4095 + k * 4096) by lia.
  rewrite Z.div_add by lia. change (4095 / 4096) with 0. lia.
Qed.

Lemma PGROUNDDOWN_bounds a :
  0 <= a < 2 ^ 32 -> PGROUNDDOWN a <= a < PGROUNDDOWN a + PGSIZE /\ PGROUNDDOWN a mod PGSIZE = 0.
Proof.
  intros. rewrite PGROUNDDOWN_spec by done. unfold PGSIZE in *.
  pose proof (Z.div_mod a 4096). pose proof (Z.mod_pos_bound a 4096).
  split; [lia|]. rewrite Z.mul_comm. apply Z.mod_mul. lia.
Qed.

Lemma PTX_spec va : PTX va = (va / 2 ^ 12) mod 2 ^ 10.
Proof.
  unfold PTX, PTXSHIFT. change 0x3FF with (Z.ones 10).
  by rewrite Z.land_ones, Z.shiftr_div_pow2 by lia.
Qed.

Lemma PDX_spec va : 0 <= va < 2 ^ 32 -> PDX va = va / 2 ^ 22.
Proof.
  intros. unfold PDX, PDXSHIFT. change 0x3FF with (Z.ones 10).
  rewrite Z.land_ones, Z.shiftr_div_pow2 by lia. apply Z.mod_small.
  split; [apply Z.div_pos; lia | apply Z.div_lt_upper_bound; lia].
Qed.

Lemma PTX_range va : 0 <= PTX va < 1024.
Proof. rewrite PTX_spec. apply Z.mod_pos_bound. lia. Qed.

Lemma PDX_range va : 0 <= va < 2 ^ 32 -> 0 <= PDX va < 1024.
Proof.
  intros. rewrite PDX_spec by done.
  split; [apply Z.div_pos; lia | apply Z.div_lt_upper_bound; lia].
Qed.

(** A page-aligned address is its directory and table index. *)
Lemma page_index va :
  0 <= va < 2 ^ 32 -> va mod PGSIZE = 0 -> va = PDX va * 2 ^ 22 + PTX va * 2 ^ 12.
Proof.
  intros Hva Ha. rewrite PDX_spec, PTX_spec by done. unfold PGSIZE in *.
  apply Z.mod_divide in Ha as [k ->]; [|lia].
  change 4096 with (2 ^ 12). rewrite Z.div_mul by lia.
  replace (k * 2 ^ 12 / 2 ^ 22) with (k / 2 ^ 10).
  - pose proof (Z.div_mod k (2 ^ 10)). lia.
  - change (2 ^ 22) with (2 ^ 12 * 2 ^ 10). rewrite <- Z.div_div by lia.
    by rewrite Z.div_mul by lia.
Qed.

Lemma page_index_inj va vb :
  0 <= va < 2 ^ 32 -> 0 <= vb < 2 ^ 32 -> va mod PGSIZE = 0 -> vb mod PGSIZE = 0 ->
  PDX va = PDX vb -> PTX va = PTX vb -> va = vb.
Proof.
  intros Ha Hb Aa Ab Hd Ht.
  rewrite (page_index va), (page_index vb), Hd, Ht by done. done.
Qed.

Lemma p2v_v2p a : 0 <= a < 2 ^ 32 -> p2v (v2p a) = a.
Proof.
  intros. unfold p2v, v2p, u32. rewrite Z.add_mod_idemp_l by lia.
  replace (a - KERNBASE + KERNBASE) with a by lia. by apply Z.mod_small.
Qed.

Lemma v2p_p2v a : 0 <= a < 2 ^ 32 -> v2p (p2v a) = a.
Proof.
  intros. unfold p2v, v2p, u32. rewrite Zminus_mod_idemp_l.
  replace (a + KERNBASE - KERNBASE) with a by lia. by apply Z.mod_small.
Qed.
