(* ===== verification/Cstring.v ===== *)
(** * string.c: the kernel's memory and string routines

    The [mem*] routines run on the flat memory of [Memory]; the [str*]
    routines take a [char*] as the bytes from that address to the end of its
    object and return [None] when they would read or write outside it. *)

From S2P Require Import Prelude Memory.

Module Mem.

(** x86.h: [rep stosb] and [rep stosl] store [cnt] bytes or words upwards. *)
Fixpoint stosb (m : mem) (addr data : Z) (cnt : nat) : mem :=
  match cnt with
  | O => m
  | S k => stosb (wr8 m addr data) (u32 (addr + 1)) data k
  end.

Fixpoint stosl (m : mem) (addr data : Z) (cnt : nat) : mem :=
  match cnt with
  | O => m
  | S k => stosl (wr32 m addr data) (u32 (addr + 4)) data k
  end.

Definition memset (m : mem) (dst c n : Z) : mem :=
  if (Z.rem (s32 dst) 4 =? 0) && (n mod 4 =? 0) then
    let c := c .& 255 in
    stosl m dst ((c ≪ 24) .| (c ≪ 16) .| (c ≪ 8) .| c) (Z.to_nat (n / 4))
  else stosb m dst c (Z.to_nat n).

Fixpoint memcmp_loop (m : mem) (s1 s2 : Z) (n : nat) : Z :=
  match n with
  | O => 0
  | S k =>
      if negb (rd8 m s1 =? rd8 m s2) then rd8 m s1 - rd8 m s2
      else memcmp_loop m (u32 (s1 + 1)) (u32 (s2 + 1)) k
  end.

Definition memcmp (m : mem) (v1 v2 n : Z) : Z := memcmp_loop m v1 v2 (Z.to_nat n).

Fixpoint copy_down (m : mem) (d s : Z) (n : nat) : mem :=
  match n with
  | O => m
  | S k =>
      let d := u32 (d - 1) in
      let s := u32 (s - 1) in
      copy_down (wr8 m d (rd8 m s)) d s k
  end.

Fixpoint copy_up (m : mem) (d s : Z) (n : nat) : mem :=
  match n with
  | O => m
  | S k => copy_up (wr8 m d (rd8 m s)) (u32 (d + 1)) (u32 (s + 1)) k
  end.

Definition memmove (m : mem) (dst src n : Z) : mem :=
  let s := src in
  let d := dst in
  if (s <? d) && (d <? u32 (s + n)) then copy_down m (u32 (d + n)) (u32 (s + n)) (Z.to_nat n)
  else copy_up m d s (Z.to_nat n).

Definition memcpy (m : mem) (dst src n : Z) : mem := memmove m dst src n.

(** ** Lemmas *)

Lemma stosb_spec m addr data cnt a :
  0 <= addr -> addr + Z.of_nat cnt <= 2 ^ 32 ->
  rd8 (stosb m addr data cnt) a =
    if decide (addr <= a < addr + Z.of_nat cnt) then u8 data else rd8 m a.
Proof.
  revert m addr. induction cnt as [|k IH]; intros m addr Ha Hb; simpl.
  - case_decide; [lia | done].
  - destruct k as [|k'].
    + simpl. rewrite rd8_wr8. repeat case_decide; (done || lia).
    + rewrite u32_small by lia. rewrite IH by lia. rewrite rd8_wr8.
      repeat case_decide; (done || lia).
Qed.

Definition splat_ok (c : Z) : bool :=
  let w := (c ≪ 24) .| (c ≪ 16) .| (c ≪ 8) .| c in
  (u8 w =? c) && (u8 (w / 2 ^ 8) =? c) && (u8 (w / 2 ^ 16) =? c) && (u8 (w / 2 ^ 24) =? c).

Lemma splat_byte c : 0 <= c < 256 ->
  let w := (c ≪ 24) .| (c ≪ 16) .| (c ≪ 8) .| c in
  u8 w = c /\ u8 (w / 2 ^ 8) = c /\ u8 (w / 2 ^ 16) = c /\ u8 (w / 2 ^ 24) = c.
Proof.
  intros Hc.
  assert (forallb splat_ok (seqZ 0 256) = true) as F by (vm_compute; reflexivity).
  rewrite forallb_forall in F. specialize (F c).
  rewrite <- list_elem_of_In, elem_of_seqZ in F. specialize (F ltac:(lia)).
  unfold splat_ok in F. cbv zeta in *. boolify. auto.
Qed.

Lemma rd8_splat m addr c a : 0 <= c < 256 ->
  rd8 (wr32 m addr ((c ≪ 24) .| (c ≪ 16) .| (c ≪ 8) .| c)) a =
    if decide (addr <= a < addr + 4) then c else rd8 m a.
Proof.
  intros Hc. destruct (splat_byte c Hc) as (H0 & H1 & H2 & H3). cbv zeta in *.
  unfold wr32. rewrite !rd8_wr8, H0, H1, H2, H3.
  repeat case_decide; (done || lia).
Qed.

Lemma stosl_splat m addr c cnt a :
  0 <= c < 256 -> 0 <= addr -> addr + 4 * Z.of_nat cnt <= 2 ^ 32 ->
  rd8 (stosl m addr ((c ≪ 24) .| (c ≪ 16) .| (c ≪ 8) .| c) cnt) a =
    if decide (addr <= a < addr + 4 * Z.of_nat cnt) then c else rd8 m a.
Proof.
  intros Hc. revert m addr. induction cnt as [|k IH]; intros m addr Ha Hb.
  - simpl. case_decide; [lia | done].
  - cbn [stosl]. destruct k as [|k'].
    + simpl. rewrite rd8_splat by done. repeat case_decide; (done || lia).
    + rewrite u32_small by lia. rewrite IH by lia. rewrite rd8_splat by done.
      repeat case_decide; (done || lia).
Qed.

Lemma mem_wf_stosb m a d n : mem_wf m -> mem_wf (stosb m a d n).
Proof. revert m a. induction n; simpl; auto with bytes. Qed.

Lemma mem_wf_stosl m a d n : mem_wf m -> mem_wf (stosl m a d n).
Proof. revert m a. induction n; simpl; auto with bytes. Qed.

Lemma mem_wf_memset m d c n : mem_wf m -> mem_wf (memset m d c n).
Proof. intros. unfold memset. case_match; auto using mem_wf_stosb, mem_wf_stosl. Qed.

Lemma copy_up_spec m d s n a :
  mem_wf m -> 0 <= s -> 0 <= d -> s + Z.of_nat n <= 2 ^ 32 -> d + Z.of_nat n <= 2 ^ 32 ->
  (d <= s \/ s + Z.of_nat n <= d) ->
  rd8 (copy_up m d s n) a =
    if decide (d <= a < d + Z.of_nat n) then rd8 m (s + (a - d)) else rd8 m a.
Proof.
  revert m d s. induction n as [|k IH]; intros m d s Hm Hs Hd Hbs Hbd Hord; simpl.
  - case_decide; [lia | done].
  - assert (u8 (rd8 m s) = rd8 m s) as Hu by (apply u8_small, rd8_range, Hm).
    destruct k as [|k'].
    + simpl. rewrite rd8_wr8, Hu.
      repeat case_decide; try done; try lia. subst. f_equal. lia.
    + rewrite !u32_small by lia. rewrite IH; try lia; [|by apply mem_wf_wr8].
      rewrite !rd8_wr8, Hu. repeat case_decide; try lia; try done; subst; f_equal; lia.
Qed.

Lemma copy_down_spec m d s n a :
  mem_wf m -> 0 <= s - Z.of_nat n -> s <= d -> d < 2 ^ 32 ->
  rd8 (copy_down m d s n) a =
    if decide (d - Z.of_nat n <= a < d) then rd8 m (s - (d - a)) else rd8 m a.
Proof.
  revert m d s. induction n as [|k IH]; intros m d s Hm Hs Hord Hd; simpl.
  - case_decide; [lia | done].
  - rewrite !u32_small by lia.
    rewrite IH by (try lia; by apply mem_wf_wr8).
    assert (u8 (rd8 m (s - 1)) = rd8 m (s - 1)) as Hu by (apply u8_small, rd8_range, Hm).
    rewrite !rd8_wr8, Hu.
    repeat case_decide; try lia; try done; subst; f_equal; lia.
Qed.

Lemma mem_wf_copy_up m d s n : mem_wf m -> mem_wf (copy_up m d s n).
Proof. revert m d s. induction n; simpl; auto with bytes. Qed.

Lemma mem_wf_copy_down m d s n : mem_wf m -> mem_wf (copy_down m d s n).
Proof. revert m d s. induction n; simpl; auto with bytes. Qed.

Lemma mem_wf_memmove m d s n : mem_wf m -> mem_wf (memmove m d s n).
Proof. intros. unfold memmove. case_match; auto using mem_wf_copy_up, mem_wf_copy_down. Qed.

(** Functional behaviour of [memset], whichever of its two paths runs. *)
Lemma memset_spec m dst c n a :
  0 <= dst -> 0 <= n -> dst + n <= 2 ^ 32 ->
  rd8 (memset m dst c n) a = if decide (dst <= a < dst + n) then u8 c else rd8 m a.
Proof.
  intros. unfold memset. destruct (_ && _) eqn:E.
  - boolify.
    assert (c .& 255 = u8 c) as ->.
    { unfold u8. change 255 with (Z.ones 8). by rewrite Z.land_ones by lia. }
    cbv zeta. rewrite stosl_splat; [| apply u8_range | lia | ].
    + rewrite Z2Nat.id by (apply Z.div_pos; lia).
      assert (4 * (n / 4) = n) as -> by (apply Z_div_exact_full_2 in H3; lia). done.
    + rewrite Z2Nat.id by (apply Z.div_pos; lia).
      assert (4 * (n / 4) <= n) by (apply Z.mul_div_le; lia). lia.
  - rewrite stosb_spec by lia. rewrite Z2Nat.id by lia. done.
Qed.

Lemma memmove_spec m dst src n a :
  mem_wf m -> 0 <= src -> 0 <= dst -> 0 <= n -> src + n < 2 ^ 32 -> dst + n < 2 ^ 32 ->
  rd8 (memmove m dst src n) a =
    if decide (dst <= a < dst + n) then rd8 m (src + (a - dst)) else rd8 m a.
Proof.
  intros. unfold memmove. rewrite !u32_small by lia.
  destruct (_ && _) eqn:E.
  - boolify. rewrite copy_down_spec by (done || lia). rewrite !Z2Nat.id by lia.
    repeat case_decide; try lia; try done; subst; f_equal; lia.
  - rewrite copy_up_spec; rewrite ?Z2Nat.id; try done; try lia.
Qed.

(** Agreement of two memory areas, and where they first differ. *)
Lemma memcmp_loop_spec m s1 s2 n :
  0 <= s1 -> 0 <= s2 -> s1 + Z.of_nat n <= 2 ^ 32 -> s2 + Z.of_nat n <= 2 ^ 32 ->
  (memcmp_loop m s1 s2 n = 0 /\
     forall i, 0 <= i < Z.of_nat n -> rd8 m (s1 + i) = rd8 m (s2 + i)) \/
  (exists i, 0 <= i < Z.of_nat n /\
     (forall j, 0 <= j < i -> rd8 m (s1 + j) = rd8 m (s2 + j)) /\
     rd8 m (s1 + i) <> rd8 m (s2 + i) /\
     memcmp_loop m s1 s2 n = rd8 m (s1 + i) - rd8 m (s2 + i)).
Proof.
  revert s1 s2. induction n as [|k IH]; intros s1 s2 H1 H2 B1 B2.
  - left. split; [done | intros; lia].
  - cbn [memcmp_loop]. destruct (negb _) eqn:E; boolify.
    + right. exists 0. rewrite !Z.add_0_r. repeat split; try lia; done.
    + assert (rd8 m (s1 + 0) = rd8 m (s2 + 0)) by (by rewrite !Z.add_0_r).
      destruct k as [|k'].
      { left. split; [done|]. intros i Hi. by replace i with 0 by lia. }
      rewrite !u32_small by lia.
      destruct (IH (s1 + 1) (s2 + 1)) as [[-> Hi]|(i & Hi & Hj & Hne & ->)]; try lia.
      * left. split; [done|]. intros i Hii. destruct (decide (i = 0)) as [->|]; [done|].
        specialize (Hi (i - 1) ltac:(lia)).
        by replace (s1 + i) with (s1 + 1 + (i - 1)) by lia;
           replace (s2 + i) with (s2 + 1 + (i - 1)) by lia.
      * right. exists (i + 1).
        replace (s1 + (i + 1)) with (s1 + 1 + i) by lia.
        replace (s2 + (i + 1)) with (s2 + 1 + i) by lia.
        repeat split; try lia; try done.
        intros j Hjj. destruct (decide (j = 0)) as [->|]; [done|].
        specialize (Hj (j - 1) ltac:(lia)).
        by replace (s1 + j) with (s1 + 1 + (j - 1)) by lia;
           replace (s2 + j) with (s2 + 1 + (j - 1)) by lia.
Qed.

End Mem.

Module Str.

(** [strncmp(p, q, n)] *)
Fixpoint strncmp (p q : bytes) (n : nat) {struct n} : option Z :=
  match n with
  | O => Some 0
  | S k =>
      match p, q with
      | a :: p', b :: q' =>
          if truthy a && (a =? b) then strncmp p' q' k else Some (a - b)
      | _, _ => None
      end
  end.

(** The second loop of [strncpy]: pad with NULs. *)
Fixpoint zfill (s : bytes) (n : nat) {struct n} : option bytes :=
  match n, s with
  | O, _ => Some s
  | S k, _ :: s' => cons 0 <$> zfill s' k
  | S _, [] => None
  end.

(** [strncpy(s, t, n)]: the new contents of the buffer [s]. *)
Fixpoint strncpy (s t : bytes) (n : nat) {struct n} : option bytes :=
  match n with
  | O => Some s
  | S k =>
      match s, t with
      | _ :: s', c :: t' =>
          cons c <$> (if truthy c then strncpy s' t' k else zfill s' k)
      | _, _ => None
      end
  end.

(** The final [*s = 0] of [safestrcpy]. *)
Definition store_nul (s : bytes) : option bytes :=
  match s with
  | _ :: s' => Some (0 :: s')
  | [] => None
  end.

(** The loop of [safestrcpy], with [k] the value of [--n]. *)
Fixpoint safestrcpy_loop (s t : bytes) (k : nat) {struct k} : option bytes :=
  match k with
  | O => store_nul s
  | S k' =>
      match s, t with
      | _ :: s', c :: t' =>
          cons c <$> (if truthy c then safestrcpy_loop s' t' k' else store_nul s')
      | _, _ => None
      end
  end.

(** [safestrcpy(s, t, n)]: the new contents of the buffer [s]. *)
Definition safestrcpy (s t : bytes) (n : Z) : option bytes :=
  if n <=? 0 then Some s else safestrcpy_loop s t (Z.to_nat (n - 1)).

(** [strlen(s)] *)
Fixpoint strlen (s : bytes) : option Z :=
  match s with
  | [] => None
  | c :: s' => if truthy c then Z.succ <$> strlen s' else Some 0
  end.

(** ** The string a C buffer holds: the bytes before the first NUL. *)
Fixpoint cstr (s : bytes) : bytes :=
  match s with
  | [] => []
  | c :: s' => if truthy c then c :: cstr s' else []
  end.

Lemma truthy_true c : truthy c = true <-> c <> 0.
Proof. unfold truthy. rewrite negb_true_iff. apply Z.eqb_neq. Qed.

Lemma truthy_false c : truthy c = false <-> c = 0.
Proof. unfold truthy. rewrite negb_false_iff. apply Z.eqb_eq. Qed.

Lemma cstr_nonzero s : Forall (fun c => c <> 0) (cstr s).
Proof.
  induction s as [|c s IH]; simpl; [done|].
  destruct (truthy c) eqn:E; [constructor; [by apply truthy_true | done] | done].
Qed.

Lemma cstr_of_nonzero s : Forall (fun c => c <> 0) s -> cstr s = s.
Proof.
  induction 1 as [|c s Hc Hs IH]; simpl; [done|].
  apply truthy_true in Hc. rewrite Hc. by f_equal.
Qed.

Lemma cstr_app_nul s t : Forall (fun c => c <> 0) s -> cstr (s ++ 0 :: t) = s.
Proof.
  induction 1 as [|c s Hc Hs IH]; simpl; [done|].
  apply truthy_true in Hc. rewrite Hc. by f_equal.
Qed.

Lemma length_cstr s : (length (cstr s) <= length s)%nat.
Proof. induction s as [|c s IH]; simpl; [lia|]. destruct (truthy c); simpl; lia. Qed.

(** A buffer that holds a NUL is its string, a NUL, and the rest. *)
Lemma cstr_split s : 0 ∈ s -> exists rest, s = cstr s ++ 0 :: rest.
Proof.
  induction s as [|c s IH]; [by intros ?%elem_of_nil|].
  intros Hin. simpl. destruct (truthy c) eqn:E.
  - apply truthy_true in E. apply elem_of_cons in Hin as [?|Hin]; [congruence|].
    destruct (IH Hin) as [rest Hr]. exists rest. simpl. by rewrite <- Hr.
  - apply truthy_false in E. subst. by exists s.
Qed.

Lemma strncmp_safe p q n :
  (n <= length p)%nat -> (n <= length q)%nat -> is_Some (strncmp p q n).
Proof.
  revert p q. induction n as [|k IH]; intros p q Hp Hq; [by eexists|].
  destruct p as [|a p], q as [|b q]; simpl in *; try lia.
  case_match; [apply IH; lia | by eexists].
Qed.

(** [strncmp] decides equality of the strings of its arguments, each cut at
    [n] bytes, and otherwise gives the sign of the first difference. *)
Lemma strncmp_eq p q n r :
  strncmp p q n = Some r -> (r = 0 <-> cstr (take n p) = cstr (take n q)).
Proof.
  revert p q. induction n as [|k IH]; intros p q H; [simpl in H; by simplify_eq|].
  destruct p as [|a p], q as [|b q]; simpl in *; try done.
  destruct (truthy a) eqn:Ea; simpl in H.
  - destruct (Z.eqb_spec a b) as [->|Hne].
    + rewrite Ea. rewrite (IH _ _ H). split; intros Hc; [by rewrite Hc | by simplify_eq].
    + simplify_eq. split; [lia|]. intros Hc. destruct (truthy b) eqn:Eb; by simplify_eq.
  - simplify_eq. apply truthy_false in Ea. subst. destruct (truthy b) eqn:Eb.
    + apply truthy_true in Eb. split; [lia | done].
    + apply truthy_false in Eb. split; [done | lia].
Qed.

Lemma zfill_spec s n : (n <= length s)%nat -> zfill s n = Some (replicate n 0 ++ drop n s).
Proof.
  revert s. induction n as [|k IH]; intros [|c s] H; simpl in *; try lia; try done.
  by rewrite IH by lia.
Qed.

(** [strncpy] writes exactly [n] bytes: the string cut at [n], NUL padded. *)
Lemma strncpy_spec s t n :
  (n <= length s)%nat -> (n <= length t)%nat \/ 0 ∈ t ->
  strncpy s t n = Some (take n (cstr t) ++ replicate (n - length (cstr t)) 0 ++ drop n s).
Proof.
  revert s t. induction n as [|k IH]; intros s t Hs Ht; [by rewrite take_0|].
  destruct s as [|a s]; simpl in *; [lia|].
  destruct t as [|c t]; [destruct Ht as [?|?%elem_of_nil]; simpl in *; [lia|done]|].
  simpl. destruct (truthy c) eqn:Ec.
  - rewrite IH; [done | lia |].
    apply truthy_true in Ec. destruct Ht as [Ht|Ht]; [left; simpl in Ht; lia|].
    right. by apply elem_of_cons in Ht as [?|?].
  - apply truthy_false in Ec. subst. rewrite zfill_spec by lia. simpl. done.
Qed.

(** [safestrcpy] fits in [n] bytes, always NUL-terminates, and leaves the rest
    of the buffer alone. *)
Lemma safestrcpy_loop_spec s t k :
  (k < length s)%nat -> (k <= length t)%nat \/ 0 ∈ t ->
  exists s', safestrcpy_loop s t k = Some s' /\ length s' = length s /\
    cstr s' = take k (cstr t) /\ 0 ∈ take (S k) s' /\ drop (S k) s' = drop (S k) s.
Proof.
  revert s t. induction k as [|k IH]; intros s t Hs Ht;
    (destruct s as [|a s]; simpl in Hs; [lia|]).
  - simpl. eexists; split; [done|]. simpl. rewrite drop_0, !take_0.
    split; [done|]. split; [done|]. split; [set_solver | done].
  - destruct t as [|c t]; [destruct Ht as [?|?%elem_of_nil]; simpl in *; [lia|done]|].
    cbn [safestrcpy_loop]. destruct (truthy c) eqn:Ec.
    + destruct (IH s t) as (s' & Hl & Hlen & Hc & Hz & Hd); [simpl; lia | |].
      { apply truthy_true in Ec. destruct Ht as [Ht|Ht]; [left; simpl in Ht; lia|].
        right. by apply elem_of_cons in Ht as [?|?]. }
      rewrite Hl. cbn [fmap option_fmap option_map]. eexists; split; [done|].
      cbn [length cstr take drop]. rewrite Hlen, Ec, Hc.
      split; [done|]. split; [done|]. split; [|done].
      apply elem_of_cons; right. done.
    + apply truthy_false in Ec. subst. destruct s as [|b s]; [simpl in *; lia|].
      eexists; split; [done|]. simpl. split; [done|]. split; [done|]. split; [set_solver|done].
Qed.

Lemma strlen_spec s : 0 ∈ s -> strlen s = Some (Z.of_nat (length (cstr s))).
Proof.
  induction s as [|c s IH]; [by intros ?%elem_of_nil|].
  intros Hin. simpl. destruct (truthy c) eqn:E; [|done].
  apply truthy_true in E. apply elem_of_cons in Hin as [?|Hin]; [congruence|].
  rewrite IH by done. simpl. f_equal. lia.
Qed.

End Str.

(** ** Properties *)

(** memmove (and memcpy) copies as if through a temporary buffer: every
    destination byte is the byte the source held before the call, overlapping
    or not, and no other byte changes. *)
Theorem memmove_correct m dst src n :
  mem_wf m -> 0 <= src -> 0 <= dst -> 0 <= n -> src + n < 2 ^ 32 -> dst + n < 2 ^ 32 ->
  (forall i, 0 <= i < n -> rd8 (Mem.memmove m dst src n) (dst + i) = rd8 m (src + i)) /\
  (forall a, a < dst \/ dst + n <= a -> rd8 (Mem.memmove m dst src n) a = rd8 m a) /\
  Mem.memcpy m dst src n = Mem.memmove m dst src n.
Proof.
  intros. split_and!; [| |done]; intros; rewrite Mem.memmove_spec by lia || done;
    case_decide; try lia; try done.
  f_equal. lia.
Qed.

(** An overlapping upward move, which the forward loop alone would corrupt. *)
Lemma memmove_correct_witness :
  rd8 (Mem.memmove (wr8 (wr8 (wr8 ∅ 100 1) 101 2) 102 3) 101 100 3) (101 + 2) = 3.
Proof.
  rewrite (proj1 (memmove_correct (wr8 (wr8 (wr8 ∅ 100 1) 101 2) 102 3) 101 100 3
    ltac:(auto with bytes) ltac:(lia) ltac:(lia) ltac:(lia) ltac:(lia) ltac:(lia)) 2 ltac:(lia)).
  vm_compute. reflexivity.
Defined.

(** memset fills exactly [n] bytes with the low byte of [c], whether it
    takes the word-at-a-time path or the byte path. *)
Theorem memset_correct m dst c n :
  0 <= dst -> 0 <= n -> dst + n <= 2 ^ 32 ->
  (forall a, dst <= a < dst + n -> rd8 (Mem.memset m dst c n) a = u8 c) /\
  (forall a, a < dst \/ dst + n <= a -> rd8 (Mem.memset m dst c n) a = rd8 m a).
Proof.
  intros. split; intros; rewrite Mem.memset_spec by lia; case_decide; try lia; done.
Qed.

Lemma memset_correct_witness :
  rd8 (Mem.memset ∅ 4096 0x1AB 8) 4103 = 0xAB /\ rd8 (Mem.memset ∅ 4097 0x1AB 7) 4103 = 0xAB.
Proof.
  split.
  - apply (proj1 (memset_correct ∅ 4096 0x1AB 8 ltac:(lia) ltac:(lia) ltac:(lia)) 4103 ltac:(lia)).
  - apply (proj1 (memset_correct ∅ 4097 0x1AB 7 ltac:(lia) ltac:(lia) ltac:(lia)) 4103 ltac:(lia)).
Defined.

(** memcmp returns 0 exactly when the two areas agree, and otherwise the
    difference of the first pair of bytes that differ. *)
Theorem memcmp_correct m v1 v2 n :
  0 <= v1 -> 0 <= v2 -> 0 <= n -> v1 + n <= 2 ^ 32 -> v2 + n <= 2 ^ 32 ->
  (Mem.memcmp m v1 v2 n = 0 <-> forall i, 0 <= i < n -> rd8 m (v1 + i) = rd8 m (v2 + i)) /\
  (Mem.memcmp m v1 v2 n <> 0 -> exists i, 0 <= i < n /\
     (forall j, 0 <= j < i -> rd8 m (v1 + j) = rd8 m (v2 + j)) /\
     Mem.memcmp m v1 v2 n = rd8 m (v1 + i) - rd8 m (v2 + i)).
Proof.
  intros. unfold Mem.memcmp.
  destruct (Mem.memcmp_loop_spec m v1 v2 (Z.to_nat n)) as [[-> Hi]|(i & Hi & Hj & Hne & ->)];
    try lia; rewrite Z2Nat.id in * by lia.
  - split; [done | lia].
  - split; [split; [lia | intros Hall; by specialize (Hall i Hi)] | eauto].
Qed.

Lemma memcmp_correct_witness : Mem.memcmp (wr8 (wr8 ∅ 10 5) 20 3) 10 20 4 <> 0.
Proof.
  intros H.
  pose proof (proj1 (proj1 (memcmp_correct (wr8 (wr8 ∅ 10 5) 20 3) 10 20 4 ltac:(lia) ltac:(lia)
    ltac:(lia) ltac:(lia) ltac:(lia))) H 0 ltac:(lia)) as H0.
  vm_compute in H0. discriminate H0.
Defined.

(** the kernel's bounded string routines stay inside their buffers:
    strncmp compares at most [n] bytes and decides equality of the two
    truncated strings; strncpy writes exactly [n] bytes, NUL padded;
    safestrcpy writes at most [n] bytes, always leaves a NUL among them, and
    stores the string cut to [n - 1] bytes. *)
Theorem bounded_strings s t n :
  (0 < n <= length s)%nat -> (n <= length t)%nat ->
  (exists r, Str.strncmp s t n = Some r /\
     (r = 0 <-> Str.cstr (take n s) = Str.cstr (take n t))) /\
  (exists s', Str.strncpy s t n = Some s' /\ length s' = length s /\
     drop n s' = drop n s /\ Str.cstr (take n s') = take n (Str.cstr t)) /\
  (exists s', Str.safestrcpy s t (Z.of_nat n) = Some s' /\ length s' = length s /\
     drop n s' = drop n s /\ 0 ∈ take n s' /\ Str.cstr s' = take (n - 1) (Str.cstr t)).
Proof.
  intros Hs Ht. split_and!.
  - destruct (Str.strncmp_safe s t n) as [r Hr]; [lia | lia|].
    exists r. split; [done | by apply Str.strncmp_eq].
  - eexists. rewrite Str.strncpy_spec by (lia || auto). split; [done|].
    assert (length (take n (Str.cstr t) ++ replicate (n - length (Str.cstr t)) 0) = n) as Hl
      by len.
    rewrite app_assoc. split; [len|]. split; [by rewrite drop_app_length' by done|].
    rewrite take_app_length' by done.
    assert (Forall (fun c => c <> 0) (take n (Str.cstr t))) as Hnz
      by (apply Forall_take, Str.cstr_nonzero).
    destruct (n - length (Str.cstr t))%nat as [|k]; simpl.
    + rewrite app_nil_r. by apply Str.cstr_of_nonzero.
    + by apply Str.cstr_app_nul.
  - unfold Str.safestrcpy. destruct (Z.leb_spec (Z.of_nat n) 0); [lia|].
    destruct (Str.safestrcpy_loop_spec s t (n - 1)) as (s' & H1 & H2 & H3 & H4 & H5); [lia | lia |].
    replace (S (n - 1)) with n in * by lia.
    exists s'. replace (Z.to_nat (Z.of_nat n - 1)) with (n - 1)%nat by lia. auto.
Qed.

Lemma bounded_strings_witness :
  exists s', Str.safestrcpy [9; 9; 9] [97; 98; 99] 3 = Some s' /\ 0 ∈ take 3 s'.
Proof.
  destruct (bounded_strings [9; 9; 9] [97; 98; 99] 3 ltac:(simpl; lia) ltac:(simpl; lia))
    as (_ & _ & s' & H1 & _ & _ & H2 & _).
  exists s'. split; assumption.
Defined.
