(* ===== verification/Spinlock.v ===== *)
(** * spinlock.c: interrupt nesting and spin locks

    [Cli] models [pushcli]/[popcli] on one CPU.  [Lock] models [initlock],
    [acquire], [release], [holding] and [getcallerpcs] on one CPU.  [Smp]
    interleaves the individual memory accesses of [acquire] and [release] on
    any number of CPUs.  [Seq] is the view the other kernel components take of
    a lock: what its calls do on the CPU that runs them. *)

From S2P Require Import Prelude Memory Layout.

Module Cli.

(** The fields of [struct cpu] the nesting uses, and the interrupt flag
    [FL_IF] of the CPU's eflags register. *)
Record cpu := MkCpu { ncli : Z; intena : bool; fl_if : bool }.

Definition cli (c : cpu) : cpu := MkCpu (ncli c) (intena c) false.
Definition sti (c : cpu) : cpu := MkCpu (ncli c) (intena c) true.

Definition pushcli (c0 : cpu) : cpu :=
  let eflags := fl_if c0 in
  let c := cli c0 in
  let n := ncli c in
  MkCpu (s32 (n + 1)) (if n =? 0 then eflags else intena c) (fl_if c).

Definition popcli : M cpu unit := fun c =>
  if fl_if c then Panic "popcli - interruptible"
  else
    let c := MkCpu (s32 (ncli c - 1)) (intena c) (fl_if c) in
    if ncli c <? 0 then Panic "popcli"
    else Ok tt (if (ncli c =? 0) && intena c then sti c else c).

(** Interrupts are off whenever a [pushcli] is outstanding. *)
Definition cpu_wf (c : cpu) : Prop :=
  0 <= ncli c < 2 ^ 31 /\ (0 < ncli c -> fl_if c = false).

(** A run of [pushcli] ([true]) and [popcli] ([false]) calls. *)
Fixpoint run (l : list bool) : M cpu unit :=
  match l with
  | [] => mret tt
  | true :: l' => modify pushcli;; run l'
  | false :: l' => popcli;; run l'
  end.

(** Matched sequences, as calls nest. *)
Inductive balanced : list bool -> Prop :=
| bal_nil : balanced []
| bal_nest l1 l2 : balanced l1 -> balanced l2 -> balanced (true :: l1 ++ false :: l2).

(** The deepest nesting of a sequence. *)
Fixpoint depth (d : Z) (l : list bool) : Z :=
  match l with
  | [] => d
  | true :: l' => Z.max d (depth (d + 1) l')
  | false :: l' => Z.max d (depth (d - 1) l')
  end.

Lemma depth_ge d l : d <= depth d l.
Proof. destruct l as [|[] l]; simpl; lia. Qed.

Lemma run_app l1 l2 c : run (l1 ++ l2) c = (run l1;; run l2) c.
Proof.
  revert c. induction l1 as [|b l1 IH]; intros c; [done|].
  destruct b; simpl; unfold mbind, M_bind in *; simpl.
  - apply IH.
  - destruct (popcli c); auto.
Qed.

Lemma depth_app d l1 l2 : balanced l1 -> depth d (l1 ++ l2) = Z.max (depth d l1) (depth d l2).
Proof.
  intros B. revert d l2. induction B as [|a b Ba IHa Bb IHb]; intros d l2; simpl.
  - pose proof (depth_ge d l2). lia.
  - rewrite <- app_assoc. simpl. rewrite !IHa. simpl.
    replace (d + 1 - 1) with d by lia. rewrite IHb. lia.
Qed.

(** Between matched calls the CPU comes back exactly as it was. *)
Lemma balanced_restores l c :
  balanced l -> cpu_wf c -> depth (ncli c) l < 2 ^ 31 -> 0 < ncli c ->
  run l c = Ok tt c.
Proof.
  intros B. revert c. induction B as [|a b Ba IHa Bb IHb]; intros c [Hn Hi] Hd Hpos; [done|].
  cbn [run]. change ((modify pushcli;; run (a ++ false :: b)) c)
    with (run (a ++ false :: b) (pushcli c)).
  rewrite run_app. simpl in Hd. rewrite depth_app in Hd by done. simpl in Hd.
  replace (ncli c + 1 - 1) with (ncli c) in Hd by lia.
  pose proof (depth_ge (ncli c + 1) a).
  assert (pushcli c = MkCpu (ncli c + 1) (intena c) false) as Hp.
  { unfold pushcli, cli. simpl. destruct (Z.eqb_spec (ncli c) 0); [lia|].
    by rewrite s32_small by lia. }
  rewrite Hp. rewrite (bind_ok_l _ _ _ tt (MkCpu (ncli c + 1) (intena c) false)).
  2: { apply IHa; simpl; [split; simpl; [lia | done] | lia | lia]. }
  cbn [run]. erewrite bind_ok_l; [apply IHb; [by split | lia | lia] |].
  unfold popcli. simpl. replace (ncli c + 1 - 1) with (ncli c) by lia.
  rewrite s32_small by lia.
  destruct (Z.ltb_spec (ncli c) 0); [lia|]. destruct (Z.eqb_spec (ncli c) 0); [lia|].
  simpl. specialize (Hi Hpos). destruct c; simpl in *; subst. done.
Qed.

(** pushcli/popcli are matched: from depth zero, any properly nested
    sequence of calls runs without a panic, keeps interrupts disabled while
    any call is outstanding, and leaves depth zero with the interrupt flag it
    found. *)
Theorem pushcli_popcli_matched l1 c :
  balanced l1 -> ncli c = 0 -> depth 1 l1 < 2 ^ 31 ->
  run (true :: l1) c = Ok tt (MkCpu 1 (fl_if c) false) /\
  run (true :: l1 ++ [false]) c = Ok tt (MkCpu 0 (fl_if c) (fl_if c)).
Proof.
  intros B1 Hn Hd.
  assert (pushcli c = MkCpu 1 (fl_if c) false) as Hp.
  { unfold pushcli, cli. simpl. by rewrite Hn. }
  assert (run l1 (MkCpu 1 (fl_if c) false) = Ok tt (MkCpu 1 (fl_if c) false)) as H1.
  { apply balanced_restores; simpl; [done | split; simpl; [lia|done] | lia | lia]. }
  cbn [run]. unfold modify, mbind, M_bind. rewrite Hp. split; [done|].
  rewrite run_app. rewrite (bind_ok_l _ _ _ _ _ H1).
  simpl. unfold mbind, M_bind, popcli. simpl. by destruct (fl_if c).
Qed.

Lemma pushcli_popcli_matched_witness :
  run [true; true; false; false] (MkCpu 0 false true) = Ok tt (MkCpu 0 true true).
Proof.
  exact (proj2 (pushcli_popcli_matched [true; false] (MkCpu 0 false true)
    (bal_nest [] [] bal_nil bal_nil) eq_refl eq_refl)).
Defined.

End Cli.

Module Lock.

(** [struct spinlock] *)
Record spinlock := MkLock {
  locked : Z;
  name : string;
  lcpu : option nat;   (* the cpu pointer: index into cpus[] or null *)
  pcs : list Z
}.

Definition initlock (lk : spinlock) (nm : string) : spinlock :=
  MkLock 0 nm None (pcs lk).

(** The first loop of [getcallerpcs]: follow at most [n] frames. *)
Fixpoint follow_ebp (m : mem) (ebp : Z) (n : nat) : list Z :=
  match n with
  | O => []
  | S k =>
      if (ebp =? 0) || (ebp <? KERNBASE) || (ebp =? 0xffffffff) then []
      else rd32 m (u32 (ebp + 4)) :: follow_ebp m (rd32 m ebp) k
  end.

Definition getcallerpcs (m : mem) (v : Z) : list Z :=
  let l := follow_ebp m (u32 (v - 8)) 10 in
  l ++ replicate (10 - length l) 0.

Definition holding (self : nat) (lk : spinlock) : bool :=
  truthy (locked lk) && bool_decide (lcpu lk = Some self).

(** The state one CPU works on: its own [struct cpu] and the lock. *)
Record st := MkSt { cpu : Cli.cpu; lk : spinlock }.

(** [acquire(lk)] on CPU [self], whose argument [lk] lives at address [v] of
    the stack in [m].  [None]: the CPU spins, because another CPU has the
    lock. *)
Definition acquire (self : nat) (m : mem) (v : Z) (s : st) : option (outcome st unit) :=
  let c := Cli.pushcli (cpu s) in
  if holding self (lk s) then Some (Panic "acquire")
  else if truthy (locked (lk s)) then None
  else Some (Ok tt (MkSt c (MkLock 1 (name (lk s)) (Some self) (getcallerpcs m v)))).

Definition release (self : nat) (s : st) : outcome st unit :=
  if negb (holding self (lk s)) then Panic "release"
  else
    let l := MkLock 0 (name (lk s)) None (<[0%nat := 0]> (pcs (lk s))) in
    match Cli.popcli (cpu s) with
    | Ok _ c => Ok tt (MkSt c l)
    | Panic msg => Panic msg
    | _ => Fault
    end.

Lemma length_follow_ebp m e n : (length (follow_ebp m e n) <= n)%nat.
Proof. revert e. induction n; intros e; simpl; [lia|]. split_if; simpl; [lia|]. specialize (IHn (rd32 m e)). lia. Qed.

(** [getcallerpcs] fills all ten entries of [pcs], whatever the frames hold. *)
Lemma length_getcallerpcs m v : length (getcallerpcs m v) = 10%nat.
Proof.
  unfold getcallerpcs. rewrite length_app, length_replicate.
  pose proof (length_follow_ebp m (u32 (v - 8)) 10). lia.
Qed.

(** A lock taken and given back on one CPU: a free lock is acquired with
    interrupts off, a second acquire by the same CPU panics, another CPU
    spins and cannot release it, and the release frees the lock and restores
    the interrupt state. *)
Theorem acquire_release_protocol self other m v s :
  locked (lk s) = 0 -> Cli.ncli (cpu s) = 0 -> other <> self ->
  exists s1, acquire self m v s = Some (Ok tt s1) /\
    holding self (lk s1) = true /\ Cli.fl_if (cpu s1) = false /\
    length (pcs (lk s1)) = 10%nat /\
    acquire self m v s1 = Some (Panic "acquire") /\
    (forall c, acquire other m v (MkSt c (lk s1)) = None) /\
    (forall c, release other (MkSt c (lk s1)) = Panic "release") /\
    exists s2, release self s1 = Ok tt s2 /\ locked (lk s2) = 0 /\
      Cli.ncli (cpu s2) = 0 /\ Cli.fl_if (cpu s2) = Cli.fl_if (cpu s).
Proof.
  intros Hl Hn Ho. destruct s as [[n ie fi] [l nm lc ps]]. simpl in *. subst.
  eexists. split; [done|]. cbn -[getcallerpcs].
  unfold holding. rewrite !bool_decide_true by done.
  split; [done|]. split; [done|]. split; [apply length_getcallerpcs|].
  split; [unfold acquire, holding; simpl; by rewrite bool_decide_true by done|].
  split; [intros; unfold acquire, holding; simpl; by rewrite bool_decide_false by congruence|].
  split; [intros; unfold release, holding; simpl; by rewrite bool_decide_false by congruence|].
  unfold release, holding. simpl. rewrite bool_decide_true by done. simpl.
  eexists; split; [done|]. by destruct fi.
Qed.

Lemma acquire_release_protocol_witness :
  exists s1, acquire 0 ∅ 0x80100000 (MkSt (Cli.MkCpu 0 false true)
    (initlock (MkLock 7 "" None []) "kmem")) = Some (Ok tt s1) /\ holding 0 (lk s1) = true.
Proof.
  destruct (acquire_release_protocol 0 1 ∅ 0x80100000
    (MkSt (Cli.MkCpu 0 false true) (initlock (MkLock 7 "" None []) "kmem"))
    eq_refl eq_refl ltac:(done)) as (s1 & H1 & H2 & _).
  exists s1. split; assumption.
Defined.

End Lock.

Module Smp.

(** Where a CPU is in [acquire] or [release]: one constructor per access to
    the shared lock.  [ACheckCpu] and [RCheckCpu] are reached when the first
    operand of the [&&] in [holding] was true. *)
Inductive pcpoint :=
| Idle         (* outside any lock code *)
| ACheck       (* acquire: pushcli done, about to read lk->locked *)
| ACheckCpu    (* acquire: about to read lk->cpu *)
| ASpin        (* acquire: about to run the xchg *)
| ASetCpu      (* acquire: xchg returned 0, about to store lk->cpu *)
| Critical     (* acquire returned *)
| RCheck       (* release: about to read lk->locked *)
| RCheckCpu    (* release: about to read lk->cpu *)
| RClearCpu    (* release: about to store lk->cpu = 0 *)
| RXchg        (* release: about to run the xchg *)
| Panicked.

Record sys := MkSys { locked : bool; owner : option nat; pc : nat -> pcpoint }.

Definition init : sys := MkSys false None (fun _ => Idle).

Definition goto (c : nat) (p : pcpoint) (s : sys) : sys :=
  MkSys (locked s) (owner s) (<[c := p]> (pc s)).

(** One shared-memory access by CPU [c]. *)
Inductive step : sys -> sys -> Prop :=
| st_start s c : pc s c = Idle -> step s (goto c ACheck s)
| st_check_free s c : pc s c = ACheck -> locked s = false -> step s (goto c ASpin s)
| st_check_held s c : pc s c = ACheck -> locked s = true -> step s (goto c ACheckCpu s)
| st_check_mine s c : pc s c = ACheckCpu -> owner s = Some c -> step s (goto c Panicked s)
| st_check_other s c : pc s c = ACheckCpu -> owner s <> Some c -> step s (goto c ASpin s)
| st_xchg_busy s c : pc s c = ASpin -> locked s = true -> step s s
| st_xchg_got s c : pc s c = ASpin -> locked s = false ->
    step s (MkSys true (owner s) (<[c := ASetCpu]> (pc s)))
| st_set_cpu s c : pc s c = ASetCpu ->
    step s (MkSys (locked s) (Some c) (<[c := Critical]> (pc s)))
| st_release s c : pc s c = Critical -> step s (goto c RCheck s)
| st_rcheck s c : pc s c = RCheck -> locked s = true -> step s (goto c RCheckCpu s)
| st_rcheck_free s c : pc s c = RCheck -> locked s = false -> step s (goto c Panicked s)
| st_rcpu s c : pc s c = RCheckCpu -> owner s = Some c -> step s (goto c RClearCpu s)
| st_rcpu_bad s c : pc s c = RCheckCpu -> owner s <> Some c -> step s (goto c Panicked s)
| st_clear s c : pc s c = RClearCpu ->
    step s (MkSys (locked s) None (<[c := RXchg]> (pc s)))
| st_unlock s c : pc s c = RXchg ->
    step s (MkSys false (owner s) (<[c := Idle]> (pc s))).

Inductive reachable : sys -> Prop :=
| r_init : reachable init
| r_step s s' : reachable s -> step s s' -> reachable s'.

(** The CPU has won the xchg and has not yet undone it. *)
Definition owns (p : pcpoint) : bool :=
  match p with
  | ASetCpu | Critical | RCheck | RCheckCpu | RClearCpu | RXchg => true
  | _ => false
  end.

(** [lk->cpu] names the CPU. *)
Definition recorded (p : pcpoint) : bool :=
  match p with
  | Critical | RCheck | RCheckCpu | RClearCpu => true
  | _ => false
  end.

Record inv (s : sys) : Prop := MkInv {
  inv_locked : forall c, owns (pc s c) = true -> locked s = true;
  inv_excl : forall c d, owns (pc s c) = true -> owns (pc s d) = true -> c = d;
  inv_owner : forall c, recorded (pc s c) = true <-> owner s = Some c;
  inv_free : locked s = true -> exists c, owns (pc s c) = true;
  inv_nopanic : forall c, pc s c <> Panicked
}.

Lemma recorded_owns p : recorded p = true -> owns p = true.
Proof. by destruct p. Qed.

Lemma goto_pc c p (f : nat -> pcpoint) d :
  (<[c := p]> f) d = if decide (d = c) then p else f d.
Proof.
  case_decide; [subst; apply fn_lookup_insert | by apply fn_lookup_insert_ne].
Qed.

Ltac smp_cases :=
  repeat match goal with
  | H : context [ (<[_ := _]> _) _ ] |- _ => rewrite goto_pc in H
  | |- context [ (<[_ := _]> _) _ ] => rewrite goto_pc
  | H : context [ decide (?a = ?b) ] |- _ => destruct (decide (a = b)); subst
  | |- context [ decide (?a = ?b) ] => destruct (decide (a = b)); subst
  end.

(** A step that changes neither the lock word nor the ownership classes. *)
Lemma goto_inv s c p :
  inv s -> owns p = owns (pc s c) -> recorded p = recorded (pc s c) -> p <> Panicked ->
  inv (goto c p s).
Proof.
  intros [I1 I2 I3 I4 I5] Ho Hr Hp. split; unfold goto; simpl.
  - intros d. smp_cases; [rewrite Ho|]; apply I1.
  - intros d e. smp_cases; rewrite ?Ho; auto.
  - intros d. smp_cases; rewrite ?Hr; apply I3.
  - intros [d Hd]%I4. exists d. smp_cases; congruence.
  - intros d. smp_cases; auto.
Qed.

Lemma step_inv s s' : inv s -> step s s' -> inv s'.
Proof.
  intros I St. pose proof I as [I1 I2 I3 I4 I5].
  inversion St as [? c H|? c H L|? c H L|? c H L|? c H L|? c H L|? c H L|? c H|? c H
    |? c H L|? c H L|? c H L|? c H L|? c H|? c H]; subst;
    try (apply goto_inv; [done | by rewrite H | by rewrite H | done]).
  - (* a CPU that is not an owner is never recorded *)
    exfalso. apply I3 in L. by rewrite H in L.
  - done.
  - (* xchg wins *)
    assert (forall d, owns (pc s d) = false) as Hno.
    { intros d. destruct (owns (pc s d)) eqn:E; [|done]. apply I1 in E. congruence. }
    split; simpl.
    + done.
    + intros d e. smp_cases; rewrite ?Hno; done.
    + intros d. smp_cases; [|apply I3]. rewrite <- I3, H. done.
    + intros _. exists c. smp_cases; done.
    + intros d. smp_cases; auto.
  - (* lk->cpu = cpu *)
    split; simpl.
    + intros d. smp_cases; [intros _; eapply I1; by rewrite H | apply I1].
    + intros d e. smp_cases; intros; try done; eapply I2; rewrite ?H; done.
    + intros d. smp_cases; [done|]. split; [|congruence]. intros Hd%recorded_owns.
      exfalso. apply n. eapply I2; [done | by rewrite H].
    + intros [d Hd]%I4. exists c. smp_cases; done.
    + intros d. smp_cases; auto.
  - (* release finds the lock free: impossible *)
    exfalso. assert (locked s = true) by (eapply I1; by rewrite H). congruence.
  - (* release finds another owner: impossible *)
    exfalso. apply L. apply I3. by rewrite H.
  - (* lk->cpu = 0 *)
    split; simpl.
    + intros d. smp_cases; [intros _; eapply I1; by rewrite H | apply I1].
    + intros d e. smp_cases; intros; try done; eapply I2; rewrite ?H; done.
    + intros d. smp_cases; [done|]. split; [|done]. intros Hd%recorded_owns.
      exfalso. apply n. eapply I2; [done | by rewrite H].
    + intros [d Hd]%I4. exists c. smp_cases; done.
    + intros d. smp_cases; auto.
  - (* xchg(0) *)
    assert (forall d, d <> c -> owns (pc s d) = false) as Hno.
    { intros d Hd. destruct (owns (pc s d)) eqn:E; [|done]. exfalso. apply Hd.
      eapply I2; [done | by rewrite H]. }
    split; simpl.
    + intros d. smp_cases; [done|]. by rewrite Hno.
    + intros d e. smp_cases; rewrite ?Hno; done.
    + intros d. smp_cases; [|apply I3]. rewrite <- I3, H. done.
    + done.
    + intros d. smp_cases; auto.
Qed.

Lemma reachable_inv s : reachable s -> inv s.
Proof.
  induction 1 as [|s s' _ IH St]; [|by eapply step_inv].
  split; simpl; done.
Qed.

(** C4: mutual exclusion: however the memory accesses of any number of CPUs
    interleave, at most one is inside the critical section of a lock, the
    lock records exactly that CPU, and neither acquire nor release panics. *)
Theorem mutual_exclusion s c d :
  reachable s ->
  (pc s c = Critical -> pc s d = Critical -> c = d) /\
  (pc s c = Critical -> locked s = true /\ owner s = Some c) /\
  pc s c <> Panicked.
Proof.
  intros [I1 I2 I3 I4 I5]%reachable_inv. split; [|split]; [| |apply I5].
  - intros Hc Hd. apply I2; [by rewrite Hc | by rewrite Hd].
  - intros Hc. split; [apply (I1 c) | apply I3]; by rewrite Hc.
Qed.

(** CPU 0 inside the critical section while CPU 1 spins. *)
Lemma mutual_exclusion_witness :
  exists s, reachable s /\ pc s 0%nat = Critical /\ pc s 1%nat = ASpin /\
    owner s = Some 0%nat /\ pc s 0%nat <> Panicked.
Proof.
  assert (exists s, reachable s /\ pc s 0%nat = Critical /\ pc s 1%nat = ASpin)
    as (s & R & H0 & H1).
  { pose proof r_init as R.
    eapply r_step in R; [|apply (st_start _ 0%nat); done].
    eapply r_step in R; [|apply (st_check_free _ 0%nat); done].
    eapply r_step in R; [|apply (st_xchg_got _ 0%nat); done].
    eapply r_step in R; [|apply (st_set_cpu _ 0%nat); done].
    eapply r_step in R; [|apply (st_start _ 1%nat); done].
    eapply r_step in R; [|apply (st_check_held _ 1%nat); done].
    eapply r_step in R; [|apply (st_check_other _ 1%nat); done].
    eexists. split; [exact R | split; reflexivity]. }
  exists s. pose proof (mutual_exclusion s 0%nat 1%nat R) as (_ & Ho & Hp).
  exact (conj R (conj H0 (conj H1 (conj (proj2 (Ho H0)) Hp)))).
Defined.

End Smp.

(** The view of the other components: the code under verification runs on one
    CPU, and a lock of its own is free ([false]) or held by that CPU
    ([true]). *)
Module Seq.

Definition acquire {S} (held : S -> bool) (set : bool -> S -> S) : M S unit := fun s =>
  if held s then Panic "acquire" else Ok tt (set true s).

Definition release {S} (held : S -> bool) (set : bool -> S -> S) : M S unit := fun s =>
  if held s then Ok tt (set false s) else Panic "release".

(** [Seq] is what [Lock] does to a lock that no other CPU holds. *)
Lemma acquire_seq self m v s :
  (truthy (Lock.locked (Lock.lk s)) = true -> Lock.lcpu (Lock.lk s) = Some self) ->
  match acquire (fun b => b) (fun b _ => b) (Lock.holding self (Lock.lk s)) with
  | Ok _ b => exists s', Lock.acquire self m v s = Some (Ok tt s') /\
                Lock.holding self (Lock.lk s') = b
  | Panic msg => Lock.acquire self m v s = Some (Panic msg)
  | _ => False
  end.
Proof.
  intros Hown. unfold acquire, Lock.acquire, Lock.holding.
  destruct (truthy _) eqn:E; simpl.
  - rewrite bool_decide_true by auto. done.
  - eexists; split; [done|]. simpl. by rewrite bool_decide_true.
Qed.

End Seq.
