(* ===== verification/Kalloc.v ===== *)
(** * kalloc.c: the physical page allocator

    The free list is the one in memory: [kmem.freelist] points at a free page
    whose first word is the next pointer.  [Kalloc.rep] relates it to a list of
    page addresses, and the theorems show the allocator implements a stack of
    distinct, page-aligned pages above the kernel image. *)

From S2P Require Import Prelude Memory Layout Cstring Spinlock.

Module Kalloc.

(** [kmem], and the kernel memory the free pages live in. *)
Record kst := MkKst {
  use_lock : bool;
  klock : bool;
  freelist : Z;
  kmem_mem : mem
}.

Definition set_klock (b : bool) (s : kst) : kst := MkKst (use_lock s) b (freelist s) (kmem_mem s).
Definition set_freelist (p : Z) (s : kst) : kst := MkKst (use_lock s) (klock s) p (kmem_mem s).
Definition set_mem (m : mem) (s : kst) : kst := MkKst (use_lock s) (klock s) (freelist s) m.
Definition set_use_lock (b : bool) (s : kst) : kst := MkKst b (klock s) (freelist s) (kmem_mem s).

Section kalloc.
(** [end]: the first address after the kernel image, chosen by the linker. *)
Context (kend : Z).

Definition kfree (v : Z) : M kst unit :=
  if truthy (v mod PGSIZE) || (v <? kend) || (PHYSTOP <=? v2p v) then panic "kfree"
  else
    modify (fun s => set_mem (Mem.memset (kmem_mem s) v 1 PGSIZE) s);;
    ul ← gets use_lock;
    when ul (Seq.acquire klock set_klock);;
    let r := v in
    modify (fun s => set_mem (wr32 (kmem_mem s) r (freelist s)) s);;
    modify (set_freelist r);;
    when ul (Seq.release klock set_klock).

Definition kalloc : M kst Z :=
  ul ← gets use_lock;
  when ul (Seq.acquire klock set_klock);;
  r ← gets freelist;
  when (truthy r) (modify (fun s => set_freelist (rd32 (kmem_mem s) r) s));;
  when ul (Seq.release klock set_klock);;
  mret r.

(** The loop of [freerange]; [fuel] bounds the iterations. *)
Fixpoint freerange_loop (fuel : nat) (p vend : Z) : M kst unit :=
  match fuel with
  | O => nofuel
  | S k =>
      if u32 (p + PGSIZE) <=? vend then
        kfree p;; freerange_loop k (u32 (p + PGSIZE)) vend
      else mret tt
  end.

Definition freerange (vstart vend : Z) : M kst unit :=
  freerange_loop (Z.to_nat (vend / PGSIZE) + 1) (PGROUNDUP vstart) vend.

Definition kinit1 (vstart vend : Z) : M kst unit :=
  modify (set_klock false);;
  modify (set_use_lock false);;
  freerange vstart vend.

Definition kinit2 (vstart vend : Z) : M kst unit :=
  freerange vstart vend;;
  modify (set_use_lock true).

(** ** The free list as a list of pages *)

(** A page [kfree] accepts. *)
Definition page_ok (a : Z) : Prop :=
  a mod PGSIZE = 0 /\ kend <= a /\ KERNBASE <= a < KERNBASE + PHYSTOP.

Fixpoint chain (m : mem) (p : Z) (l : list Z) : Prop :=
  match l with
  | [] => p = 0
  | a :: l' => p = a /\ page_ok a /\ chain m (rd32 m a) l'
  end.

(** The allocator state holds exactly the free pages [l], first one first. *)
Definition rep (s : kst) (l : list Z) : Prop :=
  chain (kmem_mem s) (freelist s) l /\ NoDup l /\ mem_wf (kmem_mem s) /\ klock s = false.

Lemma page_ok_range a : page_ok a -> 0 < a /\ a + PGSIZE <= 2 ^ 32.
Proof. unfold page_ok, KERNBASE, PHYSTOP, PGSIZE. lia. Qed.

Lemma page_ok_disjoint a b :
  page_ok a -> page_ok b -> a <> b -> a + PGSIZE <= b \/ b + PGSIZE <= a.
Proof.
  intros (Ha & _) (Hb & _) Hne. unfold PGSIZE in *.
  apply Z.mod_divide in Ha as [x ->]; [|lia]. apply Z.mod_divide in Hb as [y ->]; [|lia]. lia.
Qed.

Lemma chain_ext m m' p l :
  (forall a, a ∈ l -> rd32 m' a = rd32 m a) -> chain m p l -> chain m' p l.
Proof.
  revert p. induction l as [|a l IH]; intros p He H; [done|].
  destruct H as (-> & Ha & Hc). split; [done|]. split; [done|].
  rewrite He by set_solver. apply IH; [set_solver | done].
Qed.

Lemma chain_page_ok m p l : chain m p l -> Forall page_ok l.
Proof.
  revert p. induction l as [|a l IH]; intros p H; [done|].
  destruct H as (-> & Ha & Hc). constructor; eauto.
Qed.

Lemma chain_head_range m p l : chain m p l -> 0 <= p < 2 ^ 32.
Proof.
  destruct l as [|a l]; simpl; [lia|]. intros (-> & Ha & _).
  apply page_ok_range in Ha. unfold PGSIZE in Ha. lia.
Qed.

Lemma kfree_guard v :
  page_ok v -> truthy (v mod PGSIZE) || (v <? kend) || (PHYSTOP <=? v2p v) = false.
Proof.
  intros (Ha & He & Hk). rewrite Ha. unfold v2p. rewrite u32_small by (unfold KERNBASE, PHYSTOP in *; lia).
  unfold truthy. simpl. apply orb_false_iff. split; [apply Z.ltb_ge | apply Z.leb_gt]; lia.
Qed.

(** The memory of a page after [kfree]: junk, then the next pointer. *)
Definition freed_mem (m : mem) (v next : Z) : mem := wr32 (Mem.memset m v 1 PGSIZE) v next.

Lemma freed_mem_outside m v next a :
  page_ok v -> a < v \/ v + PGSIZE <= a -> rd8 (freed_mem m v next) a = rd8 m a.
Proof.
  intros Hv Ha. pose proof (page_ok_range v Hv). unfold freed_mem, PGSIZE in *.
  rewrite rd8_wr32_ne by lia. rewrite Mem.memset_spec by lia.
  case_decide; [lia | done].
Qed.

Lemma freed_mem_outside32 m v next a :
  page_ok v -> a + 4 <= v \/ v + PGSIZE <= a -> rd32 (freed_mem m v next) a = rd32 m a.
Proof. intros Hv Ha. apply rd32_ext. intros. apply freed_mem_outside; [done | lia]. Qed.

(** [kfree] of a valid page that is not free pushes it. *)
Lemma kfree_rep s l v :
  rep s l -> page_ok v -> v ∉ l ->
  exists s', kfree v s = Ok tt s' /\ rep s' (v :: l) /\ use_lock s' = use_lock s /\
    kmem_mem s' = freed_mem (kmem_mem s) v (freelist s).
Proof.
  intros (Hc & Hnd & Hwf & Hlk) Hv Hnin.
  exists (MkKst (use_lock s) false v (freed_mem (kmem_mem s) v (freelist s))).
  split; [|split; [|done]].
  - unfold kfree. rewrite kfree_guard by done. unfold mbind, M_bind, gets, modify, when, freed_mem.
    destruct s as [ul lk fl m]. simpl in *. subst lk. by destruct ul.
  - split; [|split; [|split]]; simpl; [| by constructor | | done].
    + split; [done|]. split; [done|].
      assert (rd32 (freed_mem (kmem_mem s) v (freelist s)) v = freelist s) as ->.
      { apply rd32_wr32_eq. by eapply chain_head_range. }
      apply chain_ext with (kmem_mem s); [|done].
      intros a Ha. apply freed_mem_outside32; [done|].
      pose proof (chain_page_ok _ _ _ Hc) as Hall. rewrite Forall_forall in Hall.
      destruct (page_ok_disjoint a v); [by apply Hall | done | congruence | |];
        unfold PGSIZE in *; lia.
    + unfold freed_mem. apply mem_wf_wr32. by apply Mem.mem_wf_memset.
Qed.

(** [kalloc] pops the head of the free list, or returns 0. *)
Lemma kalloc_rep s l :
  rep s l ->
  exists s', kalloc s = Ok (hd 0 l) s' /\ rep s' (tl l) /\ use_lock s' = use_lock s /\
    kmem_mem s' = kmem_mem s.
Proof.
  intros (Hc & Hnd & Hwf & Hlk). destruct s as [ul lk fl m]. simpl in *. subst lk.
  exists (MkKst ul false (if truthy fl then rd32 m fl else fl) m).
  split.
  - unfold kalloc, mbind, M_bind, gets, when. simpl.
    assert (fl = hd 0 l) as Hfl by (destruct l; [done | by destruct Hc]).
    rewrite <- Hfl. unfold set_klock, set_freelist, Seq.acquire, Seq.release, modify, mret, M_ret.
    destruct ul; simpl; destruct (truthy fl); done.
  - split; [|done]. destruct l as [|a l]; simpl in *.
    + subst. unfold rep; simpl. by split_and!.
    + destruct Hc as (-> & Ha & Hc). pose proof (page_ok_range a Ha).
      assert (truthy a = true) as -> by (unfold truthy; destruct (Z.eqb_spec a 0); lia || done).
      apply NoDup_cons in Hnd as [Hnin Hnd]. unfold rep; simpl. by split_and!.
Qed.

(** The pages [freerange] frees, in the order it frees them. *)
Definition range_pages (p vend : Z) : list Z :=
  (fun i => p + i * PGSIZE) <$> seqZ 0 ((vend - p) / PGSIZE).

Lemma range_pages_step p vend :
  p + PGSIZE <= vend -> range_pages p vend = p :: range_pages (p + PGSIZE) vend.
Proof.
  intros Hle. unfold range_pages, PGSIZE in *.
  assert (1 <= (vend - p) / 4096) by (apply Z.div_le_lower_bound; lia).
  rewrite seqZ_cons by lia. rewrite fmap_cons. f_equal; [lia|].
  replace ((vend - (p + 4096)) / 4096) with (Z.pred ((vend - p) / 4096)).
  - change (Z.succ 0) with (1 + 0). rewrite <- (fmap_add_seqZ 1 0), <- list_fmap_compose.
    apply list_fmap_ext. intros i x _. simpl. lia.
  - replace (vend - (p + 4096)) with (vend - p + (-1) * 4096) by lia.
    rewrite Z.div_add by lia. lia.
Qed.

Lemma range_pages_stop p vend : vend < p + PGSIZE -> range_pages p vend = [].
Proof.
  intros. unfold range_pages, PGSIZE in *. rewrite seqZ_nil; [done|].
  enough ((vend - p) / 4096 < 1) by lia. apply Z.div_lt_upper_bound; lia.
Qed.

Lemma freerange_loop_rep fuel s l p vend :
  rep s l -> p mod PGSIZE = 0 -> kend <= p -> KERNBASE <= p <= KERNBASE + PHYSTOP ->
  vend <= KERNBASE + PHYSTOP -> Z.max 0 ((vend - p) / PGSIZE) < Z.of_nat fuel ->
  (forall a, a ∈ l -> a < p \/ vend <= a) ->
  exists s', freerange_loop fuel p vend s = Ok tt s' /\
    rep s' (rev (range_pages p vend) ++ l) /\ use_lock s' = use_lock s.
Proof.
  revert s l p. induction fuel as [|k IH]; intros s l p Hr Ha Hk Hkb Hv Hf Hl; [lia|].
  cbn [freerange_loop].
  rewrite u32_small by (unfold KERNBASE, PHYSTOP, PGSIZE in *; lia).
  destruct (Z.leb_spec (p + PGSIZE) vend) as [Hle|Hgt].
  - rewrite range_pages_step by done. simpl. rewrite <- app_assoc.
    destruct (kfree_rep s l p) as (s1 & H1 & R1 & U1 & _); [done | | |].
    { repeat split; unfold PGSIZE in *; lia. }
    { intros Hin. destruct (Hl p Hin); unfold PGSIZE in *; lia. }
    rewrite (bind_ok_l _ _ _ _ _ H1).
    destruct (IH s1 (p :: l) (p + PGSIZE)) as (s2 & H2 & R2 & U2).
    + done.
    + unfold PGSIZE in *. replace (p + 4096) with (p + 1 * 4096) by lia.
      by rewrite Z.mod_add by lia.
    + unfold PGSIZE. lia.
    + unfold PGSIZE in *. lia.
    + done.
    + unfold PGSIZE in *. replace (vend - (p + 4096)) with (vend - p + (-1) * 4096) by lia.
      rewrite Z.div_add by lia.
      assert (1 <= (vend - p) / 4096) by (apply Z.div_le_lower_bound; lia). lia.
    + intros a [->|Hin]%elem_of_cons; [left; unfold PGSIZE; lia|].
      destruct (Hl a Hin); unfold PGSIZE in *; lia.
    + exists s2. split; [done|]. split; [done | congruence].
  - rewrite range_pages_stop by lia. exists s. done.
Qed.

Lemma elem_of_rev {A} (x : A) l : x ∈ rev l <-> x ∈ l.
Proof. rewrite !list_elem_of_In. symmetry. apply in_rev. Qed.

Lemma elem_of_range_pages a p vend :
  p mod PGSIZE = 0 -> p <= vend ->
  a ∈ range_pages p vend <-> a mod PGSIZE = 0 /\ p <= a /\ a + PGSIZE <= vend.
Proof.
  intros Hp Hle. unfold range_pages, PGSIZE in *. rewrite list_elem_of_fmap.
  setoid_rewrite elem_of_seqZ. apply Z.mod_divide in Hp as [k ->]; [|lia].
  split.
  - intros (i & -> & Hi).
    pose proof (Z.mul_div_le (vend - k * 4096) 4096).
    split; [|lia]. replace (k * 4096 + i * 4096) with ((k + i) * 4096) by lia.
    apply Z.mod_mul. lia.
  - intros (Ha & H1 & H2). apply Z.mod_divide in Ha as [j ->]; [|lia].
    exists (j - k). split; [lia|]. split; [lia|].
    enough (j - k + 1 <= (vend - k * 4096) / 4096) by lia.
    apply Z.div_le_lower_bound; lia.
Qed.

Lemma freerange_rep s l vstart vend :
  rep s l -> kend <= vstart -> KERNBASE <= vstart <= vend -> vend <= KERNBASE + PHYSTOP ->
  vend mod PGSIZE = 0 -> (forall a, a ∈ l -> a < vstart \/ vend <= a) ->
  exists s', freerange vstart vend s = Ok tt s' /\
    rep s' (rev (range_pages (PGROUNDUP vstart) vend) ++ l) /\ use_lock s' = use_lock s.
Proof.
  intros Hr Hk Hs Hv Ha Hl. unfold freerange.
  destruct (PGROUNDUP_bounds vstart) as [Hb Hal]; [unfold KERNBASE, PHYSTOP, PGSIZE in *; lia|].
  assert (PGROUNDUP vstart <= vend) as Hle.
  { unfold PGSIZE in *. apply Z.mod_divide in Hal as [i Hi]; [|lia].
    apply Z.mod_divide in Ha as [j Hj]; [|lia]. lia. }
  apply freerange_loop_rep; try done; try lia.
  - enough ((vend - PGROUNDUP vstart) / PGSIZE <= vend / PGSIZE /\ 0 <= vend / PGSIZE).
    { lia. }
    unfold KERNBASE, PGSIZE in *.
    split; [apply Z.div_le_mono; lia | apply Z.div_pos; lia].
  - intros a Hin. destruct (Hl a Hin); lia.
Qed.

(** A page lies below or above an aligned boundary. *)
Lemma page_partition a bound top lo :
  bound mod PGSIZE = 0 -> top mod PGSIZE = 0 -> KERNBASE <= lo -> bound <= top ->
  lo <= PGROUNDUP lo < lo + PGSIZE -> PGROUNDUP lo mod PGSIZE = 0 -> PGROUNDUP lo <= bound ->
  (a mod PGSIZE = 0 /\ bound <= a /\ a + PGSIZE <= top) \/
  (a mod PGSIZE = 0 /\ PGROUNDUP lo <= a /\ a + PGSIZE <= bound) <->
  a mod PGSIZE = 0 /\ lo <= a /\ KERNBASE <= a < top.
Proof.
  unfold PGSIZE. generalize (PGROUNDUP lo) as r. intros r Hb Ht Hlo Hbt Hr Hra Hrb.
  apply Z.mod_divide in Hb as [i ->]; [|lia]. apply Z.mod_divide in Ht as [j ->]; [|lia].
  apply Z.mod_divide in Hra as [k ->]; [|lia].
  split.
  - intros [(? & ? & ?)|(? & ? & ?)]; lia.
  - intros (Ha & ? & ?). pose proof Ha as Ha'. apply Z.mod_divide in Ha' as [n ->]; [|lia].
    destruct (Z.lt_ge_cases n i); [right | left]; split_and!; (done || lia).
Qed.

(** C11: the allocator is a stack of distinct free pages: freeing a valid page
    that is not free always succeeds and makes it the next page allocated;
    allocation returns 0 exactly when no page is free, and otherwise a valid
    page that is not on the remaining free list. *)
Theorem kalloc_kfree_stack s l :
  rep s l ->
  (forall v, page_ok v -> v ∉ l ->
     exists s1 s2, kfree v s = Ok tt s1 /\ rep s1 (v :: l) /\
       kalloc s1 = Ok v s2 /\ rep s2 l) /\
  exists s', kalloc s = Ok (hd 0 l) s' /\ rep s' (tl l) /\
    kmem_mem s' = kmem_mem s /\ (hd 0 l = 0 <-> l = []) /\
    (l <> [] -> page_ok (hd 0 l) /\ hd 0 l ∉ tl l).
Proof.
  intros Hr. split.
  - intros v Hv Hn. destruct (kfree_rep s l v Hr Hv Hn) as (s1 & H1 & R1 & _).
    destruct (kalloc_rep s1 _ R1) as (s2 & H2 & R2 & _). eauto 10.
  - destruct (kalloc_rep s l Hr) as (s' & H' & R' & _ & Hm). exists s'.
    split_and!; try done.
    + destruct l as [|a l]; [done|]. split; [|done]. simpl. intros ->.
      destruct Hr as ((_ & Ha & _) & _). apply page_ok_range in Ha. lia.
    + destruct Hr as (Hc & Hnd & _). destruct l as [|a l]; [done|]. intros _.
      apply NoDup_cons in Hnd as [Hn _]. split; [apply Hc | done].
Qed.

(** kfree accepts exactly the page-aligned addresses from the end of the
    kernel image to the top of physical memory, and panics on any other. *)
Theorem kfree_panics_iff v s :
  KERNBASE <= kend -> 0 <= v < 2 ^ 32 ->
  kfree v s = Panic "kfree" <-> ~ page_ok v.
Proof.
  intros Hk Hv. unfold kfree.
  destruct (_ || _) eqn:E.
  - split; [|done]. intros _ Hok. rewrite kfree_guard in E; done.
  - boolify. unfold v2p in *. unfold truthy in *. boolify.
    split.
    + intros H2. exfalso. revert H2. unfold mbind, M_bind, modify, gets, when. simpl.
      destruct (use_lock s); simpl; [|done]. unfold Seq.acquire. simpl.
      by destruct (klock s).
    + intros Hn. exfalso. apply Hn. unfold page_ok, KERNBASE in *. rewrite u32_small in H0 by lia.
      split_and!; lia.
Qed.

(** booting: kinit1 on the first 4 MB and kinit2 on the rest put every
    page between the kernel image and the top of physical memory on the free
    list, exactly once, and turn locking on. *)
Theorem kinit_frees_all s :
  let four_mb := KERNBASE + 4 * 1024 * 1024 in
  KERNBASE <= kend <= four_mb -> mem_wf (kmem_mem s) -> freelist s = 0 ->
  exists s' l, (kinit1 kend four_mb;; kinit2 four_mb (KERNBASE + PHYSTOP)) s = Ok tt s' /\
    rep s' l /\ use_lock s' = true /\ forall a, a ∈ l <-> page_ok a.
Proof.
  intros four_mb Hk Hwf Hfl.
  destruct (freerange_rep (MkKst false false (freelist s) (kmem_mem s)) [] kend four_mb)
    as (s1 & H1 & R1 & U1); try done; try (unfold four_mb, PHYSTOP, KERNBASE in *; lia).
  { unfold rep; simpl. split_and!; (done || by apply NoDup_nil_2). }
  { intros a Ha. by apply elem_of_nil in Ha. }
  destruct (PGROUNDUP_bounds kend) as [Hb1 Ha1]; [unfold four_mb, KERNBASE, PGSIZE in *; lia|].
  assert (PGROUNDUP four_mb = four_mb) as Hfm by (vm_compute; reflexivity).
  assert (PGROUNDUP kend <= four_mb) as Hle.
  { assert (four_mb mod PGSIZE = 0) as Hm by (vm_compute; reflexivity). unfold PGSIZE in *.
    apply Z.mod_divide in Hm as [i Hi]; [|lia]. apply Z.mod_divide in Ha1 as [j Hj]; [|lia]. lia. }
  rewrite app_nil_r in R1.
  destruct (freerange_rep s1 (rev (range_pages (PGROUNDUP kend) four_mb)) four_mb (KERNBASE + PHYSTOP))
    as (s2 & H2 & R2 & U2); try done; try (unfold four_mb, PHYSTOP, KERNBASE in *; lia).
  { intros a. rewrite elem_of_rev, elem_of_range_pages by done.
    unfold PGSIZE. lia. }
  exists (set_use_lock true s2). eexists. split; [|split; [exact R2 | split; [done|]]].
  - unfold kinit1, kinit2. unfold mbind, M_bind, modify. simpl.
    change (set_use_lock false (set_klock false s)) with (MkKst false false (freelist s) (kmem_mem s)).
    rewrite H1, H2. done.
  - intros a. rewrite elem_of_app, !elem_of_rev, !elem_of_range_pages, Hfm by
      (done || (unfold four_mb, PHYSTOP, KERNBASE in *; lia)).
    unfold page_ok. apply page_partition; (done || lia).
Qed.

End kalloc.
End Kalloc.

(** A small allocator state: one free page. *)
Definition one_page : Kalloc.kst := Kalloc.MkKst true false 0x80110000 ∅.

Lemma one_page_rep : Kalloc.rep 0x80110000 one_page [0x80110000].
Proof.
  unfold Kalloc.rep, Kalloc.chain, Kalloc.page_ok. simpl.
  split_and!; try done; try apply NoDup_singleton; auto with bytes.
Qed.

Lemma kalloc_kfree_stack_witness :
  exists s', Kalloc.kalloc one_page = Ok 0x80110000 s' /\ Kalloc.rep 0x80110000 s' [].
Proof.
  destruct (proj2 (Kalloc.kalloc_kfree_stack 0x80110000 one_page _ one_page_rep))
    as (s' & H1 & H2 & _).
  exists s'. split; assumption.
Defined.

Lemma kfree_panics_iff_witness : Kalloc.kfree 0x80110000 0x80110004 one_page = Panic "kfree".
Proof.
  apply (proj2 (Kalloc.kfree_panics_iff 0x80110000 0x80110004 one_page ltac:(done) ltac:(lia))).
  intros [H _]. vm_compute in H. discriminate H.
Defined.

Lemma kinit_frees_all_witness :
  exists s' l, (Kalloc.kinit1 0x80110000 0x80110000 (KERNBASE + 4 * 1024 * 1024);;
    Kalloc.kinit2 0x80110000 (KERNBASE + 4 * 1024 * 1024) (KERNBASE + PHYSTOP))
    (Kalloc.MkKst false false 0 ∅) = Ok tt s' /\ Kalloc.rep 0x80110000 s' l.
Proof.
  destruct (Kalloc.kinit_frees_all 0x80110000 (Kalloc.MkKst false false 0 ∅)
    ltac:(unfold KERNBASE; lia) mem_wf_empty eq_refl) as (s' & l & H1 & H2 & _).
  exists s', l. split; assumption.
Defined.
