(* ===== verification/Vm.v ===== *)
(** * vm.c: page tables and user memory

    Page directories and page tables are the ones in memory: words of pages
    that [kalloc] gave out.  The state is that of the page allocator, memory
    included; [Seg] has the segment registers and the page table register of a
    CPU. *)

From S2P Require Import Prelude Memory Layout Cstring Spinlock Kalloc.

Module Vm.
Import Kalloc.

Section vm.
(** [end] and [data]: addresses the linker chooses. *)
Context (kend kdata : Z).

Definition ld32 (a : Z) : M kst Z := gets (fun s => rd32 (kmem_mem s) a).
Definition st32 (a v : Z) : M kst unit := modify (fun s => set_mem (wr32 (kmem_mem s) a v) s).
Definition memset (a c n : Z) : M kst unit := modify (fun s => set_mem (Mem.memset (kmem_mem s) a c n) s).
Definition memmove (d a n : Z) : M kst unit := modify (fun s => set_mem (Mem.memmove (kmem_mem s) d a n) s).

(** A null pointer is 0. *)
Definition walkpgdir (pgdir va : Z) (alloc : bool) : M kst Z :=
  let pde := pgdir + 4 * PDX va in
  e ← ld32 pde;
  if truthy (e .& PTE_P) then mret (p2v (PTE_ADDR e) + 4 * PTX va)
  else if negb alloc then mret 0
  else
    pgtab ← kalloc;
    if pgtab =? 0 then mret 0
    else
      memset pgtab 0 PGSIZE;;
      st32 pde (v2p pgtab .| PTE_P .| PTE_W .| PTE_U);;
      mret (pgtab + 4 * PTX va).

(** The loop of [mappages] from page [a] to page [last]; [fuel] bounds the
    iterations. *)
Fixpoint mappages_loop (fuel : nat) (pgdir a last pa perm : Z) : M kst Z :=
  match fuel with
  | O => nofuel
  | S k =>
      pte ← walkpgdir pgdir a true;
      if pte =? 0 then mret (-1)
      else
        e ← ld32 pte;
        if truthy (e .& PTE_P) then panic "remap"
        else
          st32 pte (pa .| perm .| PTE_P);;
          if a =? last then mret 0
          else mappages_loop k pgdir (u32 (a + PGSIZE)) last (u32 (pa + PGSIZE)) perm
  end.

(** From page [a] round the address space to page [last]. *)
Definition npages (a last : Z) : nat := Z.to_nat (u32 (last - a) / PGSIZE + 1).

Definition mappages (pgdir va size pa perm : Z) : M kst Z :=
  let a := PGROUNDDOWN va in
  let last := PGROUNDDOWN (u32 (va + size - 1)) in
  mappages_loop (npages a last) pgdir a last pa perm.

(** [struct kmap] *)
Record kmap_entry := MkKmap { virt : Z; phys_start : Z; phys_end : Z; kperm : Z }.

Definition kmap : list kmap_entry :=
  [ MkKmap KERNBASE 0 EXTMEM PTE_W;
    MkKmap KERNLINK (v2p KERNLINK) (v2p kdata) 0;
    MkKmap kdata (v2p kdata) PHYSTOP PTE_W;
    MkKmap DEVSPACE DEVSPACE 0 PTE_W ].

Fixpoint setupkvm_loop (pgdir : Z) (ks : list kmap_entry) : M kst Z :=
  match ks with
  | [] => mret pgdir
  | k :: ks' =>
      r ← mappages pgdir (virt k) (u32 (phys_end k - phys_start k)) (phys_start k) (kperm k);
      if r <? 0 then mret 0 else setupkvm_loop pgdir ks'
  end.

Definition setupkvm : M kst Z :=
  pgdir ← kalloc;
  if pgdir =? 0 then mret 0
  else
    memset pgdir 0 PGSIZE;;
    if DEVSPACE <? p2v PHYSTOP then panic "PHYSTOP too high"
    else setupkvm_loop pgdir kmap.

(** A page that [kalloc] did not give is written to all the same. *)
Definition inituvm (pgdir init sz : Z) : M kst unit :=
  if PGSIZE <=? sz then panic "inituvm: more than a page"
  else
    mem ← kalloc;
    if mem =? 0 then fault
    else
      memset mem 0 PGSIZE;;
      mappages pgdir 0 PGSIZE (v2p mem) (PTE_W .| PTE_U);;
      memmove mem init sz.

(** The loop of [deallocuvm]. *)
Fixpoint deallocuvm_loop (fuel : nat) (pgdir a oldsz : Z) : M kst unit :=
  if a <? oldsz then
    match fuel with
    | O => nofuel
    | S k =>
        pte ← walkpgdir pgdir a false;
        a ← (if pte =? 0 then mret (u32 (a + (NPTENTRIES - 1) * PGSIZE))
             else
               e ← ld32 pte;
               when (truthy (e .& PTE_P)) (
                 let pa := PTE_ADDR e in
                 if pa =? 0 then panic "kfree"
                 else
                   kfree kend (p2v pa);;
                   st32 pte 0);;
               mret a);
        deallocuvm_loop k pgdir (u32 (a + PGSIZE)) oldsz
    end
  else mret tt.

Definition deallocuvm (pgdir oldsz newsz : Z) : M kst Z :=
  if oldsz <=? newsz then mret oldsz
  else
    deallocuvm_loop (Z.to_nat (oldsz / PGSIZE) + 1) pgdir (PGROUNDUP newsz) oldsz;;
    mret newsz.

(** The message on the console is left out. *)
Fixpoint allocuvm_loop (fuel : nat) (pgdir a oldsz newsz : Z) : M kst Z :=
  if a <? newsz then
    match fuel with
    | O => nofuel
    | S k =>
        mem ← kalloc;
        if mem =? 0 then
          deallocuvm pgdir newsz oldsz;;
          mret 0
        else
          memset mem 0 PGSIZE;;
          mappages pgdir a PGSIZE (v2p mem) (PTE_W .| PTE_U);;
          allocuvm_loop k pgdir (u32 (a + PGSIZE)) oldsz newsz
    end
  else mret newsz.

Definition allocuvm (pgdir oldsz newsz : Z) : M kst Z :=
  if KERNBASE <=? newsz then mret 0
  else if newsz <? oldsz then mret oldsz
  else allocuvm_loop (Z.to_nat (newsz / PGSIZE) + 1) pgdir (PGROUNDUP oldsz) oldsz newsz.

Fixpoint freevm_loop (pgdir i : Z) (n : nat) : M kst unit :=
  match n with
  | O => mret tt
  | S k =>
      e ← ld32 (pgdir + 4 * i);
      when (truthy (e .& PTE_P)) (kfree kend (p2v (PTE_ADDR e)));;
      freevm_loop pgdir (i + 1) k
  end.

Definition freevm (pgdir : Z) : M kst unit :=
  if pgdir =? 0 then panic "freevm: no pgdir"
  else
    deallocuvm pgdir KERNBASE 0;;
    freevm_loop pgdir 0 (Z.to_nat NPDENTRIES);;
    kfree kend pgdir.

Definition clearpteu (pgdir uva : Z) : M kst unit :=
  pte ← walkpgdir pgdir uva false;
  if pte =? 0 then panic "clearpteu"
  else
    e ← ld32 pte;
    st32 pte (e .& Z.lnot PTE_U).

(** The loop of [copyuvm]; [false] when it goes to [bad]. *)
Fixpoint copyuvm_loop (fuel : nat) (pgdir d i sz : Z) : M kst bool :=
  if i <? sz then
    match fuel with
    | O => nofuel
    | S k =>
        pte ← walkpgdir pgdir i false;
        if pte =? 0 then panic "copyuvm: pte should exist"
        else
          e ← ld32 pte;
          if negb (truthy (e .& PTE_P)) then panic "copyuvm: page not present"
          else
            let pa := PTE_ADDR e in
            let flags := PTE_FLAGS e in
            mem ← kalloc;
            if mem =? 0 then mret false
            else
              memmove mem (p2v pa) PGSIZE;;
              r ← mappages d i PGSIZE (v2p mem) flags;
              if r <? 0 then mret false
              else copyuvm_loop k pgdir d (u32 (i + PGSIZE)) sz
    end
  else mret true.

Definition copyuvm (pgdir sz : Z) : M kst Z :=
  d ← setupkvm;
  if d =? 0 then mret 0
  else
    ok ← copyuvm_loop (Z.to_nat (sz / PGSIZE) + 1) pgdir d 0 sz;
    if (ok : bool) then mret d
    else
      freevm d;;
      mret 0.

(** The null pointer [walkpgdir] may return is dereferenced. *)
Definition uva2ka (pgdir uva : Z) : M kst Z :=
  pte ← walkpgdir pgdir uva false;
  if pte =? 0 then fault
  else
    e ← ld32 pte;
    if negb (truthy (e .& PTE_P)) then mret 0
    else if negb (truthy (e .& PTE_U)) then mret 0
    else mret (p2v (PTE_ADDR e)).

(** [memmove] from a buffer whose bytes are [b]. *)
Definition memmove_in (d : Z) (b : bytes) : M kst unit :=
  modify (fun s => set_mem (store_bytes (kmem_mem s) d b) s).

(** [buf] holds the bytes still to copy. *)
Fixpoint copyout_loop (fuel : nat) (pgdir va : Z) (buf : bytes) (len : Z) : M kst Z :=
  if 0 <? len then
    match fuel with
    | O => nofuel
    | S k =>
        let va0 := PGROUNDDOWN va in
        pa0 ← uva2ka pgdir va0;
        if pa0 =? 0 then mret (-1)
        else
          let n := PGSIZE - (va - va0) in
          let n := if len <? n then len else n in
          memmove_in (pa0 + (va - va0)) (take (Z.to_nat n) buf);;
          copyout_loop k pgdir (u32 (va0 + PGSIZE)) (drop (Z.to_nat n) buf) (len - n)
    end
  else mret 0.

Definition copyout (pgdir va : Z) (p : bytes) (len : Z) : M kst Z :=
  copyout_loop (Z.to_nat len) pgdir va p len.

End vm.

(** [loaduvm], over the state [S] of the memory and of the file system that
    [readi ip dst off n] works on. *)
Section loaduvm.
Context {S : Type} (getk : S -> kst) (setk : kst -> S -> S).
Context (readi : Z -> Z -> Z -> M S Z).

Fixpoint loaduvm_loop (fuel : nat) (pgdir addr offset i sz : Z) : M S Z :=
  if i <? sz then
    match fuel with
    | O => nofuel
    | Datatypes.S k =>
        pte ← zoom getk setk (walkpgdir pgdir (u32 (addr + i)) false);
        if pte =? 0 then panic "loaduvm: address should exist"
        else
          e ← zoom getk setk (ld32 pte);
          let pa := PTE_ADDR e in
          let n := if sz - i <? PGSIZE then sz - i else PGSIZE in
          r ← readi (p2v pa) (u32 (offset + i)) n;
          if negb (r =? n) then mret (-1)
          else loaduvm_loop k pgdir addr offset (u32 (i + PGSIZE)) sz
    end
  else mret 0.

Definition loaduvm (pgdir addr offset sz : Z) : M S Z :=
  if truthy (addr mod PGSIZE) then panic "loaduvm: addr must be page aligned"
  else loaduvm_loop (Z.to_nat (sz / PGSIZE) + 1) pgdir addr offset 0 sz.

End loaduvm.

End Vm.

(** ** Segments and the page table register *)

Module Seg.

Definition SEG_KCODE : nat := 1.
Definition SEG_KDATA : nat := 2.
Definition SEG_KCPU : nat := 3.
Definition SEG_UCODE : nat := 4.
Definition SEG_UDATA : nat := 5.
Definition SEG_TSS : nat := 6.
Definition NSEGS : nat := 7.
Definition STA_X : Z := 8.
Definition STA_W : Z := 2.
Definition STA_R : Z := 2.
Definition STS_T32A : Z := 9.
Definition DPL_USER : Z := 3.

Record segdesc := MkSegdesc {
  lim_15_0 : Z; base_15_0 : Z; base_23_16 : Z; stype : Z; s_app : Z; dpl : Z; present : Z;
  lim_19_16 : Z; avl : Z; rsv1 : Z; db : Z; gran : Z; base_31_24 : Z
}.

Definition SEG (type base lim dpl : Z) : segdesc :=
  MkSegdesc ((lim ≫ 12) .& 0xffff) (u32 base .& 0xffff) ((u32 base ≫ 16) .& 0xff) type 1 dpl 1
    (u32 lim ≫ 28) 0 0 1 1 (u32 base ≫ 24).

Definition SEG16 (type base lim dpl : Z) : segdesc :=
  MkSegdesc (lim .& 0xffff) (u32 base .& 0xffff) ((u32 base ≫ 16) .& 0xff) type 1 dpl 1
    (u32 lim ≫ 16) 0 0 1 0 (u32 base ≫ 24).

Definition set_s (x : Z) (d : segdesc) : segdesc :=
  MkSegdesc (lim_15_0 d) (base_15_0 d) (base_23_16 d) (stype d) x (dpl d) (present d)
    (lim_19_16 d) (avl d) (rsv1 d) (db d) (gran d) (base_31_24 d).

(** A CPU: its descriptor table, task state, and the registers [lgdt],
    [loadgs], [ltr] and [lcr3] load; [kpgdir] is the kernel page table. *)
Record cpust := MkCpust {
  c_cli : Cli.cpu;
  gdt : list segdesc;
  ts_ss0 : Z;
  ts_esp0 : Z;
  gdtr : Z * Z;
  gs : Z;
  tr : Z;
  cr3 : Z;
  kpgdir : Z;
  cur : option nat
}.

Section seg.
(** The addresses of the fields [gdt], [cpu] and [ts] of this CPU. *)
Context (a_gdt a_cpu a_ts : Z).

Definition sizeof_gdt : Z := 8 * Z.of_nat NSEGS.
Definition sizeof_ts : Z := 104.

Definition seginit (c : cpust) : cpust :=
  let g := <[SEG_KCODE := SEG (STA_X .| STA_R) 0 0xffffffff 0]> (gdt c) in
  let g := <[SEG_KDATA := SEG STA_W 0 0xffffffff 0]> g in
  let g := <[SEG_UCODE := SEG (STA_X .| STA_R) 0 0xffffffff DPL_USER]> g in
  let g := <[SEG_UDATA := SEG STA_W 0 0xffffffff DPL_USER]> g in
  let g := <[SEG_KCPU := SEG STA_W a_cpu 8 0]> g in
  MkCpust (c_cli c) g (ts_ss0 c) (ts_esp0 c) (a_gdt, sizeof_gdt) (Z.of_nat SEG_KCPU ≪ 3) (tr c) (cr3 c) (kpgdir c) None.

Definition switchkvm (c : cpust) : cpust :=
  MkCpust (c_cli c) (gdt c) (ts_ss0 c) (ts_esp0 c) (gdtr c) (gs c) (tr c) (v2p (kpgdir c)) (kpgdir c) (cur c).

(** [kvmalloc] after [setupkvm] returned [pgdir]. *)
Definition set_kpgdir (pgdir : Z) (c : cpust) : cpust :=
  MkCpust (c_cli c) (gdt c) (ts_ss0 c) (ts_esp0 c) (gdtr c) (gs c) (tr c) (cr3 c) pgdir (cur c).

Definition kvmalloc (pgdir : Z) (c : cpust) : cpust := switchkvm (set_kpgdir pgdir c).

Definition on_cli (m : M Cli.cpu unit) : M cpust unit :=
  zoom c_cli (fun x c => MkCpust x (gdt c) (ts_ss0 c) (ts_esp0 c) (gdtr c) (gs c) (tr c) (cr3 c) (kpgdir c) (cur c)) m.

(** [switchuvm(p)]: [kstack] is that of the current process, [pgdir] that of [p]. *)
Definition switchuvm (kstack pgdir : Z) : M cpust unit :=
  on_cli (modify Cli.pushcli);;
  modify (fun c =>
    MkCpust (c_cli c) (<[SEG_TSS := set_s 0 (SEG16 STS_T32A a_ts (sizeof_ts - 1) 0)]> (gdt c))
      (Z.of_nat SEG_KDATA ≪ 3) (u32 (kstack + KSTACKSIZE)) (gdtr c) (gs c) (Z.of_nat SEG_TSS ≪ 3) (cr3 c) (kpgdir c) (cur c));;
  if pgdir =? 0 then panic "switchuvm: no pgdir"
  else
    modify (fun c => MkCpust (c_cli c) (gdt c) (ts_ss0 c) (ts_esp0 c) (gdtr c) (gs c) (tr c) (v2p pgdir) (kpgdir c) (cur c));;
    on_cli Cli.popcli.

End seg.
End Seg.
