(* ===== verification/VmSpec.v ===== *)
(** * What the page table routines do

    A page table as the map from virtual addresses to page table entries it
    encodes: [walkpgdir] and [mappages] extend it, never changing another
    entry, and take their pages from the allocator. *)

From S2P Require Import Prelude Memory Layout Cstring Spinlock Kalloc Vm.

(** ** Page table entries *)

Lemma land_page_flags k f : 0 <= f < 4096 -> (4096 * k) .& f = 0.
Proof.
  intros Hf. apply Z.bits_inj'. intros n Hn. rewrite Z.land_spec, Z.bits_0. destruct (Z.ltb_spec n 12).
  - change 4096 with (2 ^ 12). rewrite Z.mul_comm, Z.mul_pow2_bits_low by lia. done.
  - rewrite <- (Z.mod_small f (2 ^ 12)) by (change (2 ^ 12) with 4096; lia).
    rewrite Z.mod_pow2_bits_high by lia. apply andb_false_r.
Qed.

Lemma lor_flags a f : a mod PGSIZE = 0 -> 0 <= f < PGSIZE -> a .| f = a + f.
Proof.
  unfold PGSIZE. intros Ha Hf. pose proof (Z.div_mod a 4096) as E. rewrite Ha, Z.add_0_r in E.
  assert (a .& f = 0) as H0 by (rewrite E by lia; by apply land_page_flags).
  rewrite <- Z.lxor_lor, <- Z.add_nocarry_lxor by done. done.
Qed.

Lemma PTE_ADDR_add a f : a mod PGSIZE = 0 -> 0 <= a < 2 ^ 32 -> 0 <= f < PGSIZE -> PTE_ADDR (a + f) = a.
Proof.
  unfold PGSIZE. intros Ha Hr Hf. pose proof (Z.div_mod a 4096) as E. rewrite Ha, Z.add_0_r in E.
  unfold PTE_ADDR. rewrite land_page_mask by lia. unfold PGSIZE.
  assert ((a + f) / 4096 = a / 4096) as ->; [|lia]. symmetry. apply (Z.div_unique _ _ _ f); lia.
Qed.

Lemma PTE_FLAGS_add a f : a mod PGSIZE = 0 -> 0 <= f < PGSIZE -> PTE_FLAGS (a + f) = f.
Proof.
  unfold PGSIZE. intros Ha Hf. unfold PTE_FLAGS. change 0xFFF with (Z.ones 12). rewrite Z.land_ones by lia.
  change (2 ^ 12) with 4096. rewrite <- Z.add_mod_idemp_l, Ha by lia. by apply Z.mod_small.
Qed.

(** The bits below 12 of an entry are its flags. *)
Lemma land_add_flags a f b : a mod PGSIZE = 0 -> 0 <= f < PGSIZE -> 0 <= b < PGSIZE -> (a + f) .& b = f .& b.
Proof.
  intros Ha Hf Hb. rewrite <- lor_flags by done. rewrite Z.land_lor_distr_l.
  unfold PGSIZE in *. pose proof (Z.div_mod a 4096) as E. rewrite Ha, Z.add_0_r in E.
  rewrite E, land_page_flags by lia. done.
Qed.

Section spec.
Context (kend : Z).
#[local] Abbreviation page_ok := (Kalloc.page_ok kend).
#[local] Abbreviation rep := (Kalloc.rep kend).

Lemma v2p_page p : page_ok p -> v2p p = p - KERNBASE /\ v2p p mod PGSIZE = 0 /\ 0 <= v2p p < PHYSTOP /\ p2v (v2p p) = p.
Proof.
  intros (Ha & _ & Hr). unfold v2p at 1 2 3 4. rewrite u32_small by (unfold KERNBASE, PHYSTOP in *; lia).
  split; [done|]. split; [|split; [lia|apply p2v_v2p; unfold KERNBASE, PHYSTOP in *; lia]].
  unfold PGSIZE, KERNBASE in *. rewrite Zminus_mod, Ha. done.
Qed.

(** ** The shape of a page table *)

(** [pgdir] is a page directory whose tables are [tabs], by directory index. *)
Record pt_ok (m : mem) (pgdir : Z) (tabs : gmap Z Z) : Prop := MkPtOk {
  pt_dir : page_ok pgdir;
  pt_some : forall i t, tabs !! i = Some t -> 0 <= i < 1024 /\ page_ok t /\ t <> pgdir /\
    PTE_ADDR (rd32 m (pgdir + 4 * i)) = v2p t /\ truthy (rd32 m (pgdir + 4 * i) .& PTE_P) = true;
  pt_none : forall i, 0 <= i < 1024 -> tabs !! i = None -> truthy (rd32 m (pgdir + 4 * i) .& PTE_P) = false;
  pt_inj : forall i j t, tabs !! i = Some t -> tabs !! j = Some t -> i = j
}.

(** The entry of a virtual address; 0 without a table. *)
Definition pte_of (m : mem) (tabs : gmap Z Z) (va : Z) : Z :=
  match tabs !! PDX va with
  | Some t => rd32 m (t + 4 * PTX va)
  | None => 0
  end.

(** The pages of a page table. *)
Definition pt_pages (pgdir : Z) (tabs : gmap Z Z) (p : Z) : Prop := p = pgdir \/ exists i, tabs !! i = Some p.

Definition apart (pgdir : Z) (tabs : gmap Z Z) (l : list Z) : Prop := forall p, p ∈ l -> ~ pt_pages pgdir tabs p.

(** A page of memory is the same in both memories. *)
Definition same_page (m m' : mem) (p : Z) : Prop := forall a, p <= a < p + PGSIZE -> rd8 m' a = rd8 m a.

Lemma same_page_rd32 m m' p a : same_page m m' p -> p <= a -> a + 4 <= p + PGSIZE -> rd32 m' a = rd32 m a.
Proof. intros H H1 H2. apply rd32_ext. intros. apply H. lia. Qed.

Lemma pt_ok_same m m' pgdir tabs : pt_ok m pgdir tabs ->
  (forall p, pt_pages pgdir tabs p -> same_page m m' p) -> pt_ok m' pgdir tabs.
Proof.
  intros [H1 H2 H3 H4] Hs. assert (forall i, 0 <= i < 1024 -> rd32 m' (pgdir + 4 * i) = rd32 m (pgdir + 4 * i)) as E.
  { intros i Hi. apply (same_page_rd32 _ _ pgdir); [apply Hs; by left|lia|unfold PGSIZE; lia]. }
  split; [done| | |done].
  - intros i t Hi. destruct (H2 i t Hi) as (Hr & ? & ? & ? & ?). rewrite E by done. done.
  - intros i Hi Hn. rewrite E by done. by apply H3.
Qed.

Lemma pte_of_same m m' pgdir tabs va :
  (forall p, pt_pages pgdir tabs p -> same_page m m' p) -> pte_of m' tabs va = pte_of m tabs va.
Proof.
  intros Hs. unfold pte_of. destruct (tabs !! PDX va) as [t|] eqn:E; [|done].
  pose proof (PTX_range va). apply (same_page_rd32 _ _ t); [apply Hs; right; eauto|lia|unfold PGSIZE; lia].
Qed.

Lemma rep_same s s' l : rep s l -> Kalloc.freelist s' = Kalloc.freelist s -> Kalloc.klock s' = false ->
  mem_wf (Kalloc.kmem_mem s') -> (forall p, p ∈ l -> same_page (Kalloc.kmem_mem s) (Kalloc.kmem_mem s') p) -> rep s' l.
Proof.
  intros (Hc & Hnd & Hwf & Hlk) Hf Hk Hwf' Hs. split; [|done]. rewrite Hf.
  apply (Kalloc.chain_ext kend (Kalloc.kmem_mem s)); [|done].
  intros a Ha. apply (same_page_rd32 _ _ a); [by apply Hs|lia|unfold PGSIZE; lia].
Qed.

(** Only the pages of [P] change. *)
Definition outside (m m' : mem) (P : Z -> Prop) : Prop :=
  forall a, (forall p, P p -> a < p \/ p + PGSIZE <= a) -> rd8 m' a = rd8 m a.

Lemma outside_same m m' (P : Z -> Prop) p : outside m m' P -> page_ok p ->
  (forall q, P q -> page_ok q /\ q <> p) -> same_page m m' p.
Proof.
  intros Ho Hp Hq a Ha. apply Ho. intros q HPq. destruct (Hq q HPq) as [Hqo Hne].
  destruct (Kalloc.page_ok_disjoint kend p q) as [|]; [done|done|congruence|left|right]; lia.
Qed.

Lemma outside_trans m1 m2 m3 (P : Z -> Prop) : outside m1 m2 P -> outside m2 m3 P -> outside m1 m3 P.
Proof. intros H1 H2 a Ha. by rewrite H2, H1. Qed.

Lemma outside_weaken m1 m2 (P Q : Z -> Prop) : outside m1 m2 P -> (forall p, P p -> Q p) -> outside m1 m2 Q.
Proof. intros H HPQ a Ha. apply H. auto. Qed.

Lemma outside_wr32 m p off v : 0 <= off -> off + 4 <= PGSIZE -> outside m (wr32 m (p + off) v) (fun q => q = p).
Proof. intros H1 H2 a Ha. destruct (Ha p eq_refl); apply rd8_wr32_ne; lia. Qed.

Lemma outside_memset m p c : page_ok p -> outside m (Mem.memset m p c PGSIZE) (fun q => q = p).
Proof.
  intros Hp a Ha. pose proof (Kalloc.page_ok_range kend p Hp). rewrite Mem.memset_spec by (unfold PGSIZE in *; lia).
  case_decide; [destruct (Ha p eq_refl); lia|done].
Qed.

(** ** walkpgdir *)

Section walk.
Context (s : Kalloc.kst) (pgdir : Z) (tabs : gmap Z Z) (va : Z).
#[local] Abbreviation m := (Kalloc.kmem_mem s).
Context (Hpt : pt_ok m pgdir tabs) (Hva : 0 <= va < 2 ^ 32).

Lemma walk_found t alloc : tabs !! PDX va = Some t -> Vm.walkpgdir pgdir va alloc s = Ok (t + 4 * PTX va) s.
Proof.
  intros Ht. destruct (pt_some _ _ _ Hpt _ _ Ht) as (_ & Hp & _ & Ha & HP).
  unfold Vm.walkpgdir. erewrite bind_ok_l by done. rewrite HP, Ha.
  destruct (v2p_page t Hp) as (_ & _ & _ & ->). done.
Qed.

Lemma walk_none : tabs !! PDX va = None -> Vm.walkpgdir pgdir va false s = Ok 0 s.
Proof.
  intros Ht. unfold Vm.walkpgdir. erewrite bind_ok_l by done.
  rewrite (pt_none _ _ _ Hpt) by (done || by apply PDX_range). done.
Qed.

Lemma walk_oom : tabs !! PDX va = None -> rep s [] ->
  exists s', Vm.walkpgdir pgdir va true s = Ok 0 s' /\ rep s' [] /\ Kalloc.kmem_mem s' = m.
Proof.
  intros Ht Hr. destruct (Kalloc.kalloc_rep kend s [] Hr) as (s' & Ek & Hr' & _ & Em). exists s'. split; [|done].
  unfold Vm.walkpgdir. erewrite bind_ok_l by done.
  rewrite (pt_none _ _ _ Hpt) by (done || by apply PDX_range). cbn [negb]. by erewrite bind_ok_l by exact Ek.
Qed.

(** The memory after a page table page is added. *)
Definition new_table (t : Z) : mem := wr32 (Mem.memset m t 0 PGSIZE) (pgdir + 4 * PDX va) (v2p t + 7).

Lemma walk_alloc t l : tabs !! PDX va = None -> rep s (t :: l) ->
  exists s', Vm.walkpgdir pgdir va true s = Ok (t + 4 * PTX va) s' /\ Kalloc.kmem_mem s' = new_table t /\
    Kalloc.klock s' = false /\ Kalloc.chain kend m (Kalloc.freelist s') l.
Proof.
  intros Ht Hr. pose proof Hr as ((_ & Hp & _) & _). destruct (Kalloc.kalloc_rep kend s _ Hr) as (s1 & Ek & Hr' & _ & Em).
  destruct (v2p_page t Hp) as (_ & Hmod & Hrg & _). pose proof (Kalloc.page_ok_range kend t Hp).
  eexists. split; [|split; [|split]].
  - unfold Vm.walkpgdir. erewrite bind_ok_l by done.
    rewrite (pt_none _ _ _ Hpt) by (done || by apply PDX_range). cbn [negb]. erewrite bind_ok_l by exact Ek. cbn [hd]. cbv beta.
    rewrite (proj2 (Z.eqb_neq t 0)) by lia. done.
  - cbn. rewrite Em. unfold new_table. do 2 f_equal.
    change (v2p t .| PTE_P .| PTE_W .| PTE_U) with (((v2p t .| 1) .| 2) .| 4). rewrite <- !Z.lor_assoc.
    by apply lor_flags.
  - apply Hr'.
  - destruct Hr' as (Hc & _). by rewrite Em in Hc.
Qed.

End walk.

(** A page table and the free pages, apart from each other. *)
Record vok (s : Kalloc.kst) (pgdir : Z) (tabs : gmap Z Z) (l : list Z) : Prop := MkVok {
  v_rep : rep s l;
  v_pt : pt_ok (Kalloc.kmem_mem s) pgdir tabs;
  v_apart : apart pgdir tabs l
}.

Lemma pt_pages_ok m pgdir tabs p : pt_ok m pgdir tabs -> pt_pages pgdir tabs p -> page_ok p.
Proof. intros H [->|[i Hi]]; [apply H|]. by apply (pt_some _ _ _ H) in Hi as (_ & ? & _). Qed.

Lemma rep_page_ok s l p : rep s l -> p ∈ l -> page_ok p.
Proof.
  intros (Hc & _) Hp. pose proof (Kalloc.chain_page_ok kend _ _ _ Hc) as Hf. rewrite Forall_forall in Hf. auto.
Qed.

(** The page table grows to [tabs'] without changing an entry, with pages of
    the free list that is now [l']; only its own pages are written. *)
Record grows (s : Kalloc.kst) (pgdir : Z) (tabs : gmap Z Z) (l : list Z)
    (s' : Kalloc.kst) (tabs' : gmap Z Z) (l' : list Z) : Prop := MkGrows {
  gw_ok : vok s' pgdir tabs' l';
  gw_sub : tabs ⊆ tabs';
  gw_pages : forall p, pt_pages pgdir tabs' p -> pt_pages pgdir tabs p \/ p ∈ l;
  gw_free : exists used, l = used ++ l';
  gw_used : forall p, p ∈ l -> p ∈ l' \/ pt_pages pgdir tabs' p;
  gw_out : outside (Kalloc.kmem_mem s) (Kalloc.kmem_mem s') (pt_pages pgdir tabs')
}.

Lemma grows_refl s pgdir tabs l : vok s pgdir tabs l -> grows s pgdir tabs l s tabs l.
Proof. intros H. split; try done; [auto|by exists []|auto]. Qed.

Lemma rd32_zero_page m t off : page_ok t -> 0 <= off -> off + 4 <= PGSIZE ->
  rd32 (Mem.memset m t 0 PGSIZE) (t + off) = 0.
Proof.
  intros Hp H1 H2. pose proof (Kalloc.page_ok_range kend t Hp). unfold rd32.
  rewrite !Mem.memset_spec by (unfold PGSIZE in *; lia). rewrite !decide_True by lia. done.
Qed.

Lemma rd32_new_table s pgdir va t a : page_ok t -> page_ok pgdir -> t <> pgdir -> 0 <= va < 2 ^ 32 ->
  a + 4 <= pgdir + 4 * PDX va \/ pgdir + 4 * PDX va + 4 <= a -> a + 4 <= t \/ t + PGSIZE <= a ->
  rd32 (new_table s pgdir va t) a = rd32 (Kalloc.kmem_mem s) a.
Proof.
  intros Ht Hd Hne Hva H1 H2. unfold new_table. rewrite rd32_wr32_ne by lia. apply rd32_ext. intros i Hi.
  apply outside_memset; [done|]. intros p ->. lia.
Qed.

Lemma outside_new_table s pgdir va t : page_ok t -> 0 <= va < 2 ^ 32 ->
  outside (Kalloc.kmem_mem s) (new_table s pgdir va t) (fun p => p = pgdir \/ p = t).
Proof.
  intros Ht Hva. pose proof (PDX_range va Hva). unfold new_table. eapply outside_trans.
  - eapply outside_weaken; [by apply outside_memset|auto].
  - eapply outside_weaken; [apply outside_wr32; unfold PGSIZE; lia|auto].
Qed.

(** Directory entries of a table before and after a new table. *)
Lemma new_table_dir s pgdir va t i : page_ok t -> page_ok pgdir -> t <> pgdir -> 0 <= va < 2 ^ 32 -> 0 <= i < 1024 ->
  rd32 (new_table s pgdir va t) (pgdir + 4 * i) = if decide (i = PDX va) then v2p t + 7 else rd32 (Kalloc.kmem_mem s) (pgdir + 4 * i).
Proof.
  intros Ht Hd Hne Hva Hi. pose proof (PDX_range va Hva). destruct (v2p_page t Ht) as (_ & _ & Hr & _).
  case_decide as E.
  - subst. apply rd32_wr32_eq. unfold PHYSTOP in *. lia.
  - destruct (Kalloc.page_ok_disjoint kend t pgdir Ht Hd Hne); apply rd32_new_table; try done; unfold PGSIZE in *; lia.
Qed.

Lemma walk_new_ok s pgdir tabs va t l s' :
  vok s pgdir tabs (t :: l) -> 0 <= va < 2 ^ 32 -> tabs !! PDX va = None ->
  Kalloc.kmem_mem s' = new_table s pgdir va t -> Kalloc.klock s' = false ->
  Kalloc.chain kend (Kalloc.kmem_mem s) (Kalloc.freelist s') l ->
  grows s pgdir tabs (t :: l) s' (<[PDX va := t]> tabs) l.
Proof.
  intros [Hr Hpt Hap] Hva Hn Em Hlk Hch. pose proof (PDX_range va Hva) as Hpd.
  assert (page_ok t) as Ht by (apply (rep_page_ok s (t :: l)); [done|apply list_elem_of_here]).
  assert (t <> pgdir) as Hne by (intros ->; apply (Hap pgdir); [apply list_elem_of_here|by left]).
  pose proof (pt_dir _ _ _ Hpt) as Hd. destruct (v2p_page t Ht) as (_ & Hmod & Hrg & _).
  pose proof (outside_new_table s pgdir va t Ht Hva) as Hout.
  assert (forall i u, tabs !! i = Some u -> u <> t) as Hut.
  { intros i u Hi ->. apply (Hap t); [apply list_elem_of_here|right; eauto]. }
  assert (forall p, pt_pages pgdir (<[PDX va := t]> tabs) p -> pt_pages pgdir tabs p \/ p = t) as Hpages.
  { intros p [->|[i Hi]]; [left; by left|]. apply lookup_insert_Some in Hi as [[_ <-]|[_ Hi]]; [by right|left; right; eauto]. }
  split.
  - split.
    + assert (forall p, p ∈ l -> same_page (Kalloc.kmem_mem s) (Kalloc.kmem_mem s') p) as Hsame.
      { intros p Hp. rewrite Em. apply (outside_same _ _ _ _ Hout); [apply (rep_page_ok s (t :: l)); [done|by apply list_elem_of_further]|].
        intros q [->| ->]; (split; [done|]); intros ->.
        - apply (Hap p); [by apply list_elem_of_further|by left].
        - destruct Hr as (_ & Hnd & _). by apply NoDup_cons in Hnd as [? _]. }
      destruct Hr as (_ & Hnd & Hwf & _). split.
      * apply (Kalloc.chain_ext kend (Kalloc.kmem_mem s)); [|done]. intros a Ha.
        apply (same_page_rd32 _ _ a); [by apply Hsame|lia|unfold PGSIZE; lia].
      * split; [by apply NoDup_cons in Hnd as [_ ?]|]. split; [|done]. rewrite Em. unfold new_table.
        apply mem_wf_wr32. by apply Mem.mem_wf_memset.
    + split; [done| | |].
      * intros i u Hi. apply lookup_insert_Some in Hi as [[<- <-]|[Hi0 Hi]].
        -- rewrite Em, new_table_dir, decide_True by done. split; [done|]. split; [done|]. split; [done|].
           rewrite PTE_ADDR_add by (unfold PGSIZE, PHYSTOP in *; lia). split; [done|].
           by rewrite land_add_flags by (unfold PTE_P, PGSIZE in *; lia).
        -- destruct (pt_some _ _ _ Hpt _ _ Hi) as (H1 & H2 & H3 & H4 & H5).
           rewrite Em, new_table_dir, decide_False by (done || congruence). done.
      * intros i Hi Hnn. apply lookup_insert_None in Hnn as [Hnn Hii].
        rewrite Em, new_table_dir, decide_False by (done || congruence). by apply (pt_none _ _ _ Hpt).
      * intros i j u Hi Hj. apply lookup_insert_Some in Hi as [[Ei Eu]|[Hi0 Hi]], Hj as [[Ej Eu']|[Hj0 Hj]].
        -- congruence.
        -- by destruct (Hut _ _ Hj).
        -- by destruct (Hut _ _ Hi).
        -- by apply (pt_inj _ _ _ Hpt i j u).
    + intros p Hp [Hpp| ->]%Hpages; [apply (Hap p); [by apply list_elem_of_further|done]|].
      destruct Hr as (_ & Hnd & _). by apply NoDup_cons in Hnd as [? _].
  - by apply insert_subseteq.
  - intros p [Hpp| ->]%Hpages; [by left|right; apply list_elem_of_here].
  - by exists [t].
  - intros p [->|Hp]%elem_of_cons; [right; right; exists (PDX va); by rewrite lookup_insert_eq|by left].
  - rewrite Em. eapply outside_weaken; [exact Hout|]. intros p [->| ->]; [by left|right].
    exists (PDX va). by rewrite lookup_insert_eq.
Qed.

Lemma new_table_pte s pgdir tabs va t l va' :
  vok s pgdir tabs (t :: l) -> 0 <= va < 2 ^ 32 -> tabs !! PDX va = None ->
  pte_of (new_table s pgdir va t) (<[PDX va := t]> tabs) va' = pte_of (Kalloc.kmem_mem s) tabs va'.
Proof.
  intros [Hr Hpt Hap] Hva Hn. pose proof (PTX_range va') as Hx. pose proof (PDX_range va Hva) as Hpd.
  assert (page_ok t) as Ht by (apply (rep_page_ok s (t :: l)); [done|apply list_elem_of_here]).
  assert (t <> pgdir) as Hne by (intros ->; apply (Hap pgdir); [apply list_elem_of_here|by left]).
  pose proof (pt_dir _ _ _ Hpt) as Hd. unfold pte_of. destruct (decide (PDX va' = PDX va)) as [E|E].
  - rewrite E, lookup_insert_eq, Hn. unfold new_table.
    destruct (Kalloc.page_ok_disjoint kend t pgdir Ht Hd Hne); rewrite rd32_wr32_ne by (unfold PGSIZE in *; lia).
    all: apply rd32_zero_page; unfold PGSIZE; done || lia.
  - rewrite lookup_insert_ne by done. destruct (tabs !! PDX va') as [u|] eqn:Eu; [|done].
    destruct (pt_some _ _ _ Hpt _ _ Eu) as (_ & Hu & Hud & _).
    assert (u <> t) as Hut by (intros ->; apply (Hap t); [apply list_elem_of_here|right; eauto]).
    destruct (Kalloc.page_ok_disjoint kend u pgdir Hu Hd Hud), (Kalloc.page_ok_disjoint kend u t Hu Ht Hut);
      apply rd32_new_table; try done; unfold PGSIZE in *; lia.
Qed.

Lemma walk_true s pgdir tabs l va : vok s pgdir tabs l -> 0 <= va < 2 ^ 32 ->
  (exists t s' tabs' l', Vm.walkpgdir pgdir va true s = Ok (t + 4 * PTX va) s' /\ grows s pgdir tabs l s' tabs' l' /\
     tabs' !! PDX va = Some t /\ (length l <= length l' + 1)%nat /\
     forall va', pte_of (Kalloc.kmem_mem s') tabs' va' = pte_of (Kalloc.kmem_mem s) tabs va') \/
  (l = [] /\ exists s', Vm.walkpgdir pgdir va true s = Ok 0 s' /\ grows s pgdir tabs [] s' tabs [] /\
     Kalloc.kmem_mem s' = Kalloc.kmem_mem s).
Proof.
  intros Hok Hva. pose proof Hok as [Hr Hpt Hap]. destruct (tabs !! PDX va) as [t|] eqn:Et.
  - left. exists t, s, tabs, l. split; [by apply (walk_found s pgdir tabs va Hpt)|].
    split; [by apply grows_refl|]. split; [done|]. split; [lia|done].
  - destruct l as [|t l]; [right; split; [done|]|left].
    + destruct (walk_oom s pgdir tabs va Hpt Hva Et Hr) as (s' & E & Hr' & Em). exists s'. split; [done|]. split; [|done].
      split; try done; [|auto|by exists []|auto|by rewrite Em]. split; [done|by rewrite Em|done].
    + destruct (walk_alloc s pgdir tabs va Hpt Hva t l Et Hr) as (s' & E & Em & Hlk & Hch).
      exists t, s', (<[PDX va := t]> tabs), l. split; [done|]. split; [by apply walk_new_ok|].
      split; [apply lookup_insert_eq|]. split; [simpl; lia|]. intros va'. rewrite Em. by eapply new_table_pte.
Qed.

(** Storing the entry of [va]. *)
Lemma set_pte s pgdir tabs l va t v : vok s pgdir tabs l -> tabs !! PDX va = Some t -> 0 <= v < 2 ^ 32 ->
  exists s', Vm.st32 (t + 4 * PTX va) v s = Ok tt s' /\ grows s pgdir tabs l s' tabs l /\
    forall va', pte_of (Kalloc.kmem_mem s') tabs va' =
      if decide (PDX va' = PDX va /\ PTX va' = PTX va) then v else pte_of (Kalloc.kmem_mem s) tabs va'.
Proof.
  intros [Hr Hpt Hap] Et Hv. pose proof (PTX_range va) as Hx. destruct (pt_some _ _ _ Hpt _ _ Et) as (_ & Ht & Htd & _).
  set (m' := wr32 (Kalloc.kmem_mem s) (t + 4 * PTX va) v).
  assert (outside (Kalloc.kmem_mem s) m' (fun p => p = t)) as Hout by (apply outside_wr32; unfold PGSIZE; lia).
  exists (Kalloc.set_mem m' s). split; [done|]. split.
  - split; try done.
    + split; [| |done].
      * apply (rep_same s); try done; [apply Hr|apply mem_wf_wr32, Hr|]. intros p Hp.
        apply (outside_same _ _ _ _ Hout); [by eapply rep_page_ok|]. intros q ->. split; [done|].
        intros ->. apply (Hap p Hp). right. eauto.
      * split; [apply Hpt| | |apply Hpt].
        -- intros i u Hi. cbn [Kalloc.kmem_mem Kalloc.set_mem].
           destruct (pt_some _ _ _ Hpt _ _ Hi) as (H1 & H2 & H3 & H4 & H5).
           rewrite (same_page_rd32 _ m' pgdir) by (lia || unfold PGSIZE; lia || (apply (outside_same _ _ _ _ Hout);
             [apply Hpt|intros q ->; done])). done.
        -- intros i Hi Hn. cbn [Kalloc.kmem_mem Kalloc.set_mem].
           rewrite (same_page_rd32 _ m' pgdir) by (lia || unfold PGSIZE; lia || (apply (outside_same _ _ _ _ Hout);
             [apply Hpt|intros q ->; done])). by apply (pt_none _ _ _ Hpt).
    + auto.
    + by exists [].
    + auto.
    + eapply outside_weaken; [exact Hout|]. intros p ->. right. eauto.
  - intros va'. unfold pte_of. cbn [Kalloc.kmem_mem Kalloc.set_mem]. pose proof (PTX_range va') as Hx'.
    destruct (tabs !! PDX va') as [u|] eqn:Eu.
    + case_decide as E.
      * destruct E as [E1 E2]. rewrite E1 in Eu. assert (u = t) as -> by congruence. rewrite E2. by apply rd32_wr32_eq.
      * destruct (decide (u = t)) as [->|Hne].
        -- assert (PDX va' = PDX va) as Ed by (by apply (pt_inj _ _ _ Hpt _ _ t)). apply rd32_wr32_ne.
           assert (PTX va' <> PTX va) by tauto. lia.
        -- apply (same_page_rd32 _ m' u); [|lia|unfold PGSIZE; lia]. destruct (pt_some _ _ _ Hpt _ _ Eu) as (_ & Hu & _).
           apply (outside_same _ _ _ _ Hout); [done|]. intros q ->. split; [done|congruence].
    + rewrite decide_False; [done|]. intros [E1 _]. congruence.
Qed.

(** ** mappages *)

Lemma grows_trans s pgdir tabs l s1 tabs1 l1 s2 tabs2 l2 :
  grows s pgdir tabs l s1 tabs1 l1 -> grows s1 pgdir tabs1 l1 s2 tabs2 l2 -> grows s pgdir tabs l s2 tabs2 l2.
Proof.
  intros [A1 A2 A3 [u1 A4] A6 A5] [B1 B2 B3 [u2 B4] B6 B5]. split.
  - done.
  - by transitivity tabs1.
  - intros p Hp. destruct (B3 p Hp) as [Hp1|Hp1]; [by apply A3|]. right. rewrite A4. apply elem_of_app. by right.
  - exists (u1 ++ u2). by rewrite A4, B4, app_assoc.
  - intros p Hp. destruct (A6 p Hp) as [Hp1|[->|[i Hi]]]; [by apply B6|right; by left|right; right; exists i; by eapply lookup_weaken].
  - eapply outside_trans; [|exact B5]. eapply outside_weaken; [exact A5|].
    intros p [->|[i Hi]]; [by left|right]. exists i. by eapply lookup_weaken.
Qed.

Lemma aligned_same va vb : 0 <= va < 2 ^ 32 -> 0 <= vb < 2 ^ 32 -> va mod PGSIZE = 0 -> vb mod PGSIZE = 0 ->
  (PDX va = PDX vb /\ PTX va = PTX vb) <-> va = vb.
Proof. intros H1 H2 H3 H4. split; [intros [? ?]; by apply page_index_inj|by intros ->]. Qed.

(** Entries for [k] pages at [a] map to the pages at [pa]. *)
Definition mapped (m : mem) (tabs : gmap Z Z) (m' : mem) (tabs' : gmap Z Z) (a pa perm : Z) (k : nat) : Prop :=
  forall va, 0 <= va < 2 ^ 32 -> va mod PGSIZE = 0 ->
    pte_of m' tabs' va = if decide (a <= va < a + Z.of_nat k * PGSIZE) then pa + (va - a) + (perm .| PTE_P) else pte_of m tabs va.

Lemma aligned_add a k : a mod PGSIZE = 0 -> (a + k * PGSIZE) mod PGSIZE = 0.
Proof. intros H. unfold PGSIZE in *. by rewrite Z.mod_add. Qed.

Lemma perm_range perm : 0 <= perm < PGSIZE -> 0 <= perm .| PTE_P < PGSIZE.
Proof.
  intros Hp. assert (0 <= perm .| PTE_P) as H0 by (apply Z.lor_nonneg; unfold PTE_P; lia). split; [done|].
  change PGSIZE with (2 ^ 12) in *. destruct (decide (perm .| PTE_P = 0)) as [->|Hz]; [lia|].
  apply Z.log2_lt_pow2; [lia|]. rewrite Z.log2_lor by (unfold PTE_P; lia).
  apply Z.max_lub_lt; [|done]. destruct (decide (perm = 0)) as [->|]; [done|]. apply Z.log2_lt_pow2; lia.
Qed.

Lemma mapped_step m tabs m1 tabs1 m2 tabs2 a pa perm k :
  a mod PGSIZE = 0 ->
  (forall va, 0 <= va < 2 ^ 32 -> va mod PGSIZE = 0 ->
     pte_of m1 tabs1 va = if decide (va = a) then pa + (perm .| PTE_P) else pte_of m tabs va) ->
  mapped m1 tabs1 m2 tabs2 (a + PGSIZE) (pa + PGSIZE) perm k -> mapped m tabs m2 tabs2 a pa perm (S k).
Proof.
  intros Ha H1 H2 va Hva Hal. rewrite H2, H1 by done.
  assert (va < a \/ va = a \/ a + PGSIZE <= va) as Hc.
  { unfold PGSIZE in *. apply Z.mod_divide in Ha as [x ->]; [|lia]. apply Z.mod_divide in Hal as [y ->]; [|lia]. lia. }
  unfold PGSIZE in *. repeat case_decide; try lia; try done.
Qed.

(** One page of [mappages]. *)
Lemma map_one s pgdir tabs l a pa perm (k : M Kalloc.kst Z) :
  vok s pgdir tabs l -> 0 <= a < 2 ^ 32 -> a mod PGSIZE = 0 -> pa mod PGSIZE = 0 -> 0 <= pa < 2 ^ 32 ->
  0 <= perm < PGSIZE -> truthy (pte_of (Kalloc.kmem_mem s) tabs a .& PTE_P) = false ->
  let step := (pte ← Vm.walkpgdir pgdir a true;
    if pte =? 0 then mret (-1)
    else e ← Vm.ld32 pte;
      if truthy (e .& PTE_P) then panic "remap" else Vm.st32 pte (pa .| perm .| PTE_P);; k) in
  (exists s' tabs' l', step s = k s' /\ grows s pgdir tabs l s' tabs' l' /\ (length l <= length l' + 1)%nat /\
     forall va, 0 <= va < 2 ^ 32 -> va mod PGSIZE = 0 ->
       pte_of (Kalloc.kmem_mem s') tabs' va = if decide (va = a) then pa + (perm .| PTE_P) else pte_of (Kalloc.kmem_mem s) tabs va) \/
  (l = [] /\ exists s', step s = Ok (-1) s' /\ grows s pgdir tabs [] s' tabs [] /\
     forall va, pte_of (Kalloc.kmem_mem s') tabs va = pte_of (Kalloc.kmem_mem s) tabs va).
Proof.
  intros Hok Ha Hal Hpal Hpa Hp Hnp step. destruct (walk_true s pgdir tabs l a Hok Ha)
    as [(t & s1 & tabs1 & l1 & E & Hg & Ht & Hl & Hpte)|(-> & s1 & E & Hg & Em)].
  - left. pose proof (gw_ok _ _ _ _ _ _ _ Hg) as Hok1. destruct (pt_some _ _ _ (v_pt _ _ _ _ Hok1) _ _ Ht) as (_ & Htok & _).
    pose proof (Kalloc.page_ok_range kend t Htok). pose proof (PTX_range a). pose proof (perm_range perm Hp) as Hpr.
    assert (pa .| perm .| PTE_P = pa + (perm .| PTE_P)) as Elor.
    { rewrite <- Z.lor_assoc. by apply lor_flags. }
    destruct (set_pte s1 pgdir tabs1 l1 a t (pa + (perm .| PTE_P)) Hok1 Ht) as (s2 & E2 & Hg2 & Hpte2).
    { unfold PGSIZE in *. apply Z.mod_divide in Hpal as [x ->]; lia. }
    exists s2, tabs1, l1. split; [|split; [by eapply grows_trans|split; [done|]]].
    + unfold step. erewrite bind_ok_l by exact E. rewrite (proj2 (Z.eqb_neq _ 0)) by lia.
      unfold Vm.ld32 at 1. unfold gets at 1. erewrite bind_ok_l by done.
      assert (rd32 (Kalloc.kmem_mem s1) (t + 4 * PTX a) = pte_of (Kalloc.kmem_mem s1) tabs1 a) as ->
        by (unfold pte_of; by rewrite Ht).
      rewrite Hpte, Hnp, Elor. by erewrite bind_ok_l by exact E2.
    + intros va Hva Hval. rewrite Hpte2, Hpte. pose proof (aligned_same va a Hva Ha Hval Hal) as Hs.
      repeat case_decide; tauto.
  - right. split; [done|]. exists s1. split; [|split; [done|]].
    + unfold step. erewrite bind_ok_l by exact E. done.
    + intros va. by rewrite Em.
Qed.

(** [mappages] of [n] pages that are not mapped yet maps them all, or returns
    -1 once the allocator is empty. *)
Lemma mappages_loop_spec pgdir perm n : forall s tabs l a pa,
  vok s pgdir tabs l -> a mod PGSIZE = 0 -> pa mod PGSIZE = 0 -> 0 <= a -> 0 <= pa ->
  a + Z.of_nat n * PGSIZE <= 2 ^ 32 -> pa + Z.of_nat n * PGSIZE <= 2 ^ 32 -> 0 <= perm < PGSIZE -> (0 < n)%nat ->
  (forall va, va mod PGSIZE = 0 -> a <= va < a + Z.of_nat n * PGSIZE ->
     truthy (pte_of (Kalloc.kmem_mem s) tabs va .& PTE_P) = false) ->
  exists r s' tabs' l' k, Vm.mappages_loop n pgdir a (a + (Z.of_nat n - 1) * PGSIZE) pa perm s = Ok r s' /\
    grows s pgdir tabs l s' tabs' l' /\ mapped (Kalloc.kmem_mem s) tabs (Kalloc.kmem_mem s') tabs' a pa perm k /\
    (length l <= length l' + k)%nat /\ ((r = 0 /\ k = n) \/ (r = -1 /\ (k < n)%nat /\ l' = [])).
Proof.
  induction n as [|n IH]; intros s tabs l a pa Hok Hal Hpal Ha Hpa Hae Hpae Hp Hn Hnp; [lia|].
  assert (PGSIZE <= (Z.of_nat (S n)) * PGSIZE) as Hpg by (unfold PGSIZE; lia).
  cbn [Vm.mappages_loop]. set (last := a + (Z.of_nat (S n) - 1) * PGSIZE).
  destruct (map_one s pgdir tabs l a pa perm
    (if a =? last then mret 0 else Vm.mappages_loop n pgdir (u32 (a + PGSIZE)) last (u32 (pa + PGSIZE)) perm))
    as [(s1 & tabs1 & l1 & E & Hg & Hl & Hpte)|(-> & s1 & E & Hg & Hpte)]; try done; try (unfold PGSIZE in *; lia).
  { apply Hnp; [done|unfold PGSIZE in *; lia]. }
  - destruct (decide (n = 0%nat)) as [->|Hn0].
    + assert (last = a) as El by (unfold last; lia). rewrite El, Z.eqb_refl in E. exists 0, s1, tabs1, l1, 1%nat.
      rewrite El, Z.eqb_refl. split; [exact E|]. split; [done|]. split; [|split; [done|by left]].
      apply (mapped_step _ _ (Kalloc.kmem_mem s1) tabs1); [done|done|]. intros va Hva Hval.
      rewrite decide_False by lia. done.
    + assert (a <> last) as Hne by (unfold last, PGSIZE in *; lia). rewrite (proj2 (Z.eqb_neq _ _) Hne) in E |- *.
      rewrite !u32_small in E by (unfold PGSIZE in *; lia). rewrite !u32_small by (unfold PGSIZE in *; lia).
      destruct (IH s1 tabs1 l1 (a + PGSIZE) (pa + PGSIZE)) as (r & s2 & tabs2 & l2 & k & E2 & Hg2 & Hm2 & Hl2 & Hr);
        try (unfold PGSIZE in *; lia); [by apply Hg| | | |].
      * rewrite <- (Z.mul_1_l PGSIZE) at 1. by apply aligned_add.
      * rewrite <- (Z.mul_1_l PGSIZE) at 1. by apply aligned_add.
      * intros va Hval Hva. rewrite Hpte by (done || unfold PGSIZE in *; lia).
        rewrite decide_False by (unfold PGSIZE in *; lia). apply Hnp; [done|unfold PGSIZE in *; lia].
      * exists r, s2, tabs2, l2, (S k). split; [|split; [by eapply grows_trans|split; [by eapply mapped_step|split; [lia|]]]].
        -- rewrite E. rewrite <- E2. f_equal. unfold last. lia.
        -- destruct Hr as [[-> ->]|(-> & ? & ->)]; [by left|right; split; [done|]; split; [lia|done]].
  - exists (-1), s1, tabs, [], 0%nat. split; [exact E|]. split; [done|]. split; [|split; [simpl; lia|right; split; [done|split; [lia|done]]]].
    intros va Hva Hval. rewrite decide_False by lia. apply Hpte.
Qed.

(** [mappages] of a range none of whose pages is mapped gives each of them
    an entry for the corresponding physical page with the permissions asked
    for, makes the page tables it needs out of free pages, and changes no other
    entry; it returns -1 only when the free pages run out, with the pages
    before mapped. *)
Lemma mappages_spec s pgdir tabs l va size pa perm :
  let a := PGROUNDDOWN va in let n := Vm.npages a (PGROUNDDOWN (u32 (va + size - 1))) in
  vok s pgdir tabs l -> 0 <= va -> 0 < size -> va + size <= 2 ^ 32 ->
  pa mod PGSIZE = 0 -> 0 <= pa -> pa + Z.of_nat n * PGSIZE <= 2 ^ 32 -> 0 <= perm < PGSIZE ->
  (forall x, x mod PGSIZE = 0 -> a <= x < va + size -> truthy (pte_of (Kalloc.kmem_mem s) tabs x .& PTE_P) = false) ->
  exists r s' tabs' l' k, Vm.mappages pgdir va size pa perm s = Ok r s' /\
    grows s pgdir tabs l s' tabs' l' /\ mapped (Kalloc.kmem_mem s) tabs (Kalloc.kmem_mem s') tabs' a pa perm k /\
    (length l <= length l' + k)%nat /\
    ((r = 0 /\ k = n /\ va + size <= a + Z.of_nat n * PGSIZE) \/ (r = -1 /\ (k < n)%nat /\ l' = [])).
Proof.
  intros a n Hok Hva Hsz Hend Hpal Hpa Hpe Hp Hnp.
  destruct (PGROUNDDOWN_bounds va) as [Hb Hal]; [lia|]. fold a in Hb, Hal.
  unfold Vm.mappages. set (last := PGROUNDDOWN (u32 (va + size - 1))) in *. fold a.
  assert (u32 (va + size - 1) = va + size - 1) as Eu by (apply u32_small; lia).
  destruct (PGROUNDDOWN_bounds (va + size - 1)) as [Hbl Hall]; [lia|]. rewrite <- Eu in Hbl, Hall. fold last in Hbl, Hall.
  rewrite Eu in Hbl.
  assert (last = a + (Z.of_nat n - 1) * PGSIZE /\ (0 < n)%nat) as [El Hn].
  { unfold n, Vm.npages. unfold PGSIZE in *. apply Z.mod_divide in Hal as [x Ex]; [|lia].
    apply Z.mod_divide in Hall as [y Ey]; [|lia]. rewrite Ex, Ey in *. rewrite u32_small by lia.
    replace (y * 4096 - x * 4096) with ((y - x) * 4096) by lia. rewrite Z.div_mul by lia. lia. }
  assert (a + Z.of_nat n * PGSIZE <= 2 ^ 32) as Hae.
  { assert ((last + PGSIZE) mod PGSIZE = 0) as Hm by (rewrite <- (Z.mul_1_l PGSIZE) at 1; by apply aligned_add).
    unfold PGSIZE in *. apply Z.mod_divide in Hm as [z Ez]; lia. }
  destruct (mappages_loop_spec pgdir perm n s tabs l a pa) as (r & s' & tabs' & l' & k & E & Hg & Hm & Hl & Hr); try done.
  - unfold a. rewrite PGROUNDDOWN_spec by lia. pose proof (Z.div_pos va PGSIZE). unfold PGSIZE in *. lia.
  - intros x Hx Hxr. apply Hnp; [done|]. unfold PGSIZE in *. apply Z.mod_divide in Hx as [y ->]; [|lia].
    apply Z.mod_divide in Hall as [z Ez]; [|lia]. lia.
  - exists r, s', tabs', l', k. rewrite <- El in E. split; [exact E|]. split; [done|]. split; [done|]. split; [done|].
    destruct Hr as [[-> ->]|Hr]; [left|by right]. split; [done|]. split; [done|lia].
Qed.

End spec.
