(* ===== verification/Uvm.v ===== *)
(** * User address spaces

    A user address space as the finite map from page addresses to physical pages
    it is: what [setupkvm], [mappages], [allocuvm], [deallocuvm], [copyuvm],
    [freevm] and [copyout] do to it, and where the pages go. *)

From S2P Require Import Prelude Memory Layout Cstring Spinlock Kalloc Vm VmSpec.

#[local] Abbreviation kmem := Kalloc.kmem_mem.

(** The user pages of an address space: page address to kernel address of the
    physical page and flags. *)
Abbreviation pages := (gmap Z (Z * Z)).

Section uvm.
Context (kend kdata : Z).
(** The kernel is linked above [KERNLINK]: its image ends above it, and its data
    start on a page of their own. *)
Context (Hkend : KERNLINK < kend) (Hkdata : kdata mod PGSIZE = 0 /\ KERNLINK < kdata < KERNBASE + PHYSTOP).
#[local] Abbreviation page_ok := (Kalloc.page_ok kend).
#[local] Abbreviation rep := (Kalloc.rep kend).
#[local] Abbreviation vok := (vok kend).
#[local] Abbreviation pt_ok := (pt_ok kend).

(** ** Address spaces *)

(** The virtual addresses of an entry of [kmap], and a table of entries that
    [mappages] can map. *)
Definition ksize (k : Vm.kmap_entry) : Z := u32 (Vm.phys_end k - Vm.phys_start k).
Definition krange (k : Vm.kmap_entry) (va : Z) : Prop := Vm.virt k <= va < Vm.virt k + ksize k.

Record kmap_wf (k : Vm.kmap_entry) : Prop := MkKmapWf {
  kw_virt : 0 <= Vm.virt k /\ Vm.virt k mod PGSIZE = 0;
  kw_size : 0 < ksize k /\ ksize k mod PGSIZE = 0 /\ Vm.virt k + ksize k <= 2 ^ 32;
  kw_phys : 0 <= Vm.phys_start k /\ Vm.phys_start k mod PGSIZE = 0 /\ Vm.phys_start k + ksize k <= 2 ^ 32;
  kw_perm : 0 <= Vm.kperm k < PGSIZE
}.

(** The entry of [va] once the table [ks] is mapped, [e] without it. *)
Fixpoint kpte (ks : list Vm.kmap_entry) (va e : Z) : Z :=
  match ks with
  | [] => e
  | k :: ks' =>
      if bool_decide (krange k va) then Vm.phys_start k + (va - Vm.virt k) + (Vm.kperm k .| PTE_P)
      else kpte ks' va e
  end.

(** The pages of memory an address space is made of. *)
Definition foot (pgdir : Z) (tabs : gmap Z Z) (pgs : pages) (p : Z) : Prop :=
  pt_pages pgdir tabs p \/ exists va f, pgs !! va = Some (p, f).

(** The tables at [pgdir] map exactly [pgs] in the user part, and the kernel as
    [kmap] has it above. *)
Record asp (m : mem) (pgdir : Z) (tabs : gmap Z Z) (pgs : pages) : Prop := MkAsp {
  as_pt : pt_ok m pgdir tabs;
  as_some : forall va p f, pgs !! va = Some (p, f) -> 0 <= va < KERNBASE /\ va mod PGSIZE = 0 /\ page_ok p /\
    0 <= f < PGSIZE /\ truthy (f .& PTE_P) = true /\ pte_of m tabs va = v2p p + f /\ ~ pt_pages pgdir tabs p;
  as_none : forall va, 0 <= va < KERNBASE -> va mod PGSIZE = 0 -> pgs !! va = None -> truthy (pte_of m tabs va .& PTE_P) = false;
  as_kern : forall va, KERNBASE <= va < 2 ^ 32 -> va mod PGSIZE = 0 -> pte_of m tabs va = kpte (Vm.kmap kdata) va 0;
  as_inj : forall a b p f f', pgs !! a = Some (p, f) -> pgs !! b = Some (p, f') -> a = b
}.

(** An address space beside the free pages [l]. *)
Record uvm (s : Kalloc.kst) (pgdir : Z) (tabs : gmap Z Z) (pgs : pages) (l : list Z) : Prop := MkUvm {
  u_rep : rep s l;
  u_asp : asp (kmem s) pgdir tabs pgs;
  u_apart : forall p, p ∈ l -> ~ foot pgdir tabs pgs p
}.

(** User byte [va]. *)
Definition ubyte (m : mem) (pgs : pages) (va : Z) : option Z :=
  (fun pf => rd8 m (pf.1 + va mod PGSIZE)) <$> pgs !! (va - va mod PGSIZE).

(** The pages are those below [sz]. *)
Definition sized (pgs : pages) (sz : Z) : Prop := forall va, va mod PGSIZE = 0 -> is_Some (pgs !! va) <-> 0 <= va < sz.

Lemma foot_ok m pgdir tabs pgs p : asp m pgdir tabs pgs -> foot pgdir tabs pgs p -> page_ok p.
Proof. intros [H1 H2 _ _ _] [H|(va & f & H)]; [by eapply pt_pages_ok|]. by apply H2 in H as (_ & _ & ? & _). Qed.

Lemma uvm_vok s pgdir tabs pgs l : uvm s pgdir tabs pgs l -> vok s pgdir tabs l.
Proof. intros [H1 [H2 _ _ _ _] H3]. split; [done|done|]. intros p Hp Hpt. apply (H3 p Hp). by left. Qed.

Lemma asp_same m m' pgdir tabs pgs : asp m pgdir tabs pgs -> (forall p, pt_pages pgdir tabs p -> same_page m m' p) -> asp m' pgdir tabs pgs.
Proof.
  intros [H1 H2 H3 H5 H4] Hs. assert (forall va, pte_of m' tabs va = pte_of m tabs va) as E by (intros va; by apply (pte_of_same _ _ pgdir)).
  split; [by eapply pt_ok_same| | | |done]; intros *; rewrite E; [apply H2|apply H3|apply H5].
Qed.

Lemma ubyte_same m m' pgs va : (forall b p f, pgs !! b = Some (p, f) -> same_page m m' p) -> ubyte m' pgs va = ubyte m pgs va.
Proof.
  intros Hs. unfold ubyte. destruct (pgs !! _) as [[p f]|] eqn:E; [|done]. cbn. f_equal. apply (Hs _ _ _ E). unfold PGSIZE.
  pose proof (Z.mod_pos_bound va 4096). lia.
Qed.

(** Memory that changes only outside of an address space leaves it alone. *)
Lemma outside_foot m m' pgdir tabs pgs P : asp m pgdir tabs pgs -> outside m m' P -> (forall q, P q -> page_ok q /\ ~ foot pgdir tabs pgs q) ->
  asp m' pgdir tabs pgs /\ forall p, foot pgdir tabs pgs p -> same_page m m' p.
Proof.
  intros Ha Ho HP. assert (forall p, foot pgdir tabs pgs p -> same_page m m' p) as Hs.
  { intros p Hp. apply (outside_same kend m m' P p Ho); [by eapply foot_ok|]. intros q Hq. destruct (HP q Hq) as [? Hn]. split; [done|]. by intros ->. }
  split; [|done]. apply (asp_same m); [done|]. intros p Hp. apply Hs. by left.
Qed.

Lemma rep_out s s' l P : rep s l -> Kalloc.freelist s' = Kalloc.freelist s -> Kalloc.klock s' = Kalloc.klock s ->
  mem_wf (kmem s') -> outside (kmem s) (kmem s') P -> (forall q, P q -> page_ok q /\ q ∉ l) -> rep s' l.
Proof.
  intros Hr Hf Hk Hw Ho HP. apply (rep_same kend s); try done; [rewrite Hk; apply Hr|]. intros p Hp.
  apply (outside_same kend _ _ P p Ho); [by eapply rep_page_ok|]. intros q Hq. destruct (HP q Hq) as [? Hn]. split; [done|]. by intros ->.
Qed.

Lemma aligned_page va : 0 <= va < 2 ^ 32 -> va mod PGSIZE = 0 -> PGROUNDDOWN va = va.
Proof. intros H1 H2. rewrite PGROUNDDOWN_spec by done. unfold PGSIZE in *. apply Z.mod_divide in H2 as [x ->]; [|lia]. rewrite Z.div_mul; lia. Qed.

Lemma npages_one va : 0 <= va -> va + PGSIZE <= 2 ^ 32 -> va mod PGSIZE = 0 ->
  Vm.npages (PGROUNDDOWN va) (PGROUNDDOWN (u32 (va + PGSIZE - 1))) = 1%nat.
Proof.
  intros H0 H1 H2. rewrite aligned_page, u32_small, PGROUNDDOWN_spec by (done || unfold PGSIZE in *; lia). unfold Vm.npages, PGSIZE in *.
  apply Z.mod_divide in H2 as [x ->]; [|lia]. replace ((x * 4096 + 4096 - 1) / 4096) with x by (apply (Z.div_unique _ _ _ 4095); lia).
  replace (4096 * x - x * 4096) with 0 by lia. done.
Qed.

Lemma lor_has_P f : 0 <= f -> truthy ((f .| PTE_P) .& PTE_P) = true.
Proof.
  intros Hf. rewrite Z.land_lor_distr_l. change (PTE_P .& PTE_P) with 1. unfold truthy. rewrite negb_true_iff. apply Z.eqb_neq. intros E.
  apply Z.lor_eq_0_iff in E. lia.
Qed.

Lemma lor_P_id f : truthy (f .& PTE_P) = true -> f .| PTE_P = f.
Proof.
  intros H. apply Z.bits_inj'. intros n Hn. rewrite Z.lor_spec. change PTE_P with (2 ^ 0) in *. rewrite Z.pow2_bits_eqb by lia.
  destruct (Z.eqb_spec 0 n) as [<-|]; [|apply orb_false_r]. rewrite orb_true_r. symmetry. unfold truthy in H. apply negb_true_iff, Z.eqb_neq in H.
  destruct (Z.testbit f 0) eqn:E; [done|]. exfalso. apply H. apply Z.bits_inj'. intros k Hk. rewrite Z.land_spec, Z.pow2_bits_eqb, Z.bits_0 by lia.
  destruct (Z.eqb_spec 0 k) as [<-|]; [by rewrite E|apply andb_false_r].
Qed.

(** The part of an address space that grows: its tables take pages of [l], and
    only pages it owned or took are written. *)
Record extends (s : Kalloc.kst) (pgdir : Z) (tabs : gmap Z Z) (l : list Z) (s' : Kalloc.kst) (tabs' : gmap Z Z) (l' : list Z) : Prop := MkExt {
  ex_sub : tabs ⊆ tabs';
  ex_pages : forall p, pt_pages pgdir tabs' p -> pt_pages pgdir tabs p \/ p ∈ l;
  ex_free : l' ⊆ l;
  ex_used : forall p, p ∈ l -> p ∈ l' \/ pt_pages pgdir tabs' p;
  ex_out : outside (kmem s) (kmem s') (pt_pages pgdir tabs')
}.

(** New entries in the tables: none of a user page, or one. *)
Lemma asp_grow m m' pgdir tabs tabs' pgs : asp m pgdir tabs pgs -> pt_ok m' pgdir tabs' ->
  (forall va, 0 <= va < 2 ^ 32 -> va mod PGSIZE = 0 -> pte_of m' tabs' va = pte_of m tabs va) ->
  (forall va p f, pgs !! va = Some (p, f) -> ~ pt_pages pgdir tabs' p) -> asp m' pgdir tabs' pgs.
Proof.
  intros [A1 A2 A3 A5 A4] Hpt Hpte Hnt. split; [done| | | |done].
  - intros va p f H. destruct (A2 va p f H) as (B1 & B2 & B3 & B4 & B5 & B6 & _). rewrite Hpte by (done || unfold KERNBASE in *; lia). split_and!; try done; try lia. by eapply Hnt.
  - intros va H1 H2 H3. rewrite Hpte by (done || unfold KERNBASE in *; lia). by apply A3.
  - intros va H1 H2. rewrite Hpte by (done || unfold KERNBASE in *; lia). by apply A5.
Qed.

Lemma asp_insert m m' pgdir tabs tabs' pgs va p f : asp m pgdir tabs pgs -> pt_ok m' pgdir tabs' ->
  0 <= va < KERNBASE -> va mod PGSIZE = 0 -> page_ok p -> 0 <= f < PGSIZE -> truthy (f .& PTE_P) = true -> ~ foot pgdir tabs pgs p -> ~ pt_pages pgdir tabs' p ->
  (forall va', 0 <= va' < 2 ^ 32 -> va' mod PGSIZE = 0 -> pte_of m' tabs' va' = if decide (va' = va) then v2p p + f else pte_of m tabs va') ->
  (forall va p f, pgs !! va = Some (p, f) -> ~ pt_pages pgdir tabs' p) -> asp m' pgdir tabs' (<[va := (p, f)]> pgs).
Proof.
  intros [A1 A2 A3 A5 A4] Hpt Hva Hal Hp Hf HP Hpf Hpt' Hpte Hnt. split; [done| | | |].
  - intros va' p' f' [[<- [= <- <-]]|[Hne H]]%lookup_insert_Some; [rewrite Hpte, decide_True by (done || unfold KERNBASE in *; lia); split_and!; try done; lia|].
    destruct (A2 va' p' f' H) as (B1 & B2 & B3 & B4 & B5 & B6 & _). rewrite Hpte, decide_False by (done || unfold KERNBASE in *; lia). split_and!; try done; try lia. by eapply Hnt.
  - intros va' H1 H2 [H3 H4]%lookup_insert_None. rewrite Hpte, decide_False by (done || unfold KERNBASE in *; lia). by apply A3.
  - intros va' H1 H2. rewrite Hpte, decide_False by (done || unfold KERNBASE in *; lia). by apply A5.
  - intros a b q g g' [[<- [= <- <-]]|[Hna Ha]]%lookup_insert_Some [[<- Eb]|[Hnb Hb]]%lookup_insert_Some; [done| | |by eapply A4].
    + exfalso. apply Hpf. right. eauto.
    + injection Eb as <- <-. exfalso. apply Hpf. right. eauto.
Qed.

(** [mappages] of one user page [p] of [pgdir] that nothing uses. *)
Lemma map_user s pgdir tabs pgs l va p perm : uvm s pgdir tabs pgs l -> page_ok p -> p ∉ l -> ~ foot pgdir tabs pgs p ->
  0 <= va < KERNBASE -> va mod PGSIZE = 0 -> pgs !! va = None -> 0 <= perm < PGSIZE ->
  exists r s' tabs' l', Vm.mappages pgdir va PGSIZE (v2p p) perm s = Ok r s' /\ extends s pgdir tabs l s' tabs' l' /\
    (r = 0 /\ (length l <= length l' + 1)%nat /\ uvm s' pgdir tabs' (<[va := (p, perm .| PTE_P)]> pgs) l' \/
     r = -1 /\ l = [] /\ l' = [] /\ uvm s' pgdir tabs' pgs []).
Proof.
  intros Hu Hp Hpl Hpf Hva Hal Hn Hperm. pose proof (uvm_vok _ _ _ _ _ Hu) as Hok. destruct (v2p_page kend p Hp) as (_ & Hpm & Hpr & _).
  assert (0 <= va /\ va + PGSIZE <= 2 ^ 32) as [Hv0 Hv1] by (unfold KERNBASE, PGSIZE in *; apply Z.mod_divide in Hal as [x ->]; lia).
  assert (forall x, 0 <= x < 2 ^ 32 -> x mod PGSIZE = 0 -> va <= x < va + PGSIZE <-> x = va) as Hone.
  { intros x _ Hx. unfold PGSIZE in *. apply Z.mod_divide in Hx as [x' ->]; [|lia]. apply Z.mod_divide in Hal as [v' ->]; lia. }
  pose proof (npages_one va Hv0 Hv1 Hal) as Hnp. pose proof (aligned_page va ltac:(unfold KERNBASE in *; lia) Hal) as Ev.
  destruct (mappages_spec kend s pgdir tabs l va PGSIZE (v2p p) perm Hok) as (r & s' & tabs' & l' & k & E & Hg & Hm & Hl & Hr); try done; try lia.
  { rewrite Hnp. unfold PGSIZE, PHYSTOP in *. lia. }
  { intros x Hx Hxr. rewrite Ev in Hxr. assert (x = va) as -> by (unfold PGSIZE in *; apply Z.mod_divide in Hx as [x' ->]; [|lia]; apply Z.mod_divide in Hal as [v' ->]; lia).
    by apply (as_none _ _ _ _ (u_asp _ _ _ _ _ Hu)). }
  rewrite Hnp in Hr. rewrite Ev in Hm. exists r, s', tabs', l'. split; [done|]. destruct Hg as [Gok Gsub Gpg [used Gfree] Gused Gout].
  split; [split; try done; rewrite Gfree; set_solver|]. destruct Hu as [Hrep Hasp Hap].
  assert (forall va' p' f', pgs !! va' = Some (p', f') -> ~ pt_pages pgdir tabs' p') as Hnt.
  { intros va' p' f' H [Hx|Hx]%Gpg; [by destruct (as_some _ _ _ _ Hasp va' p' f' H) as (_ & _ & _ & _ & _ & _ & ?)|]. apply (Hap p' Hx). right. eauto. }
  destruct Hr as [(-> & -> & _)|(-> & Hk & ->)]; [left|right]; (split; [done|]).
  - split; [lia|]. split; [apply Gok| |].
    + apply (asp_insert (kmem s) (kmem s') pgdir tabs tabs'); try done; [apply Gok|by apply perm_range|apply lor_has_P; lia|intros [Hx|Hx]%Gpg; [apply Hpf; by left|done]|].
      intros x H1 H2. rewrite (Hm x H1 H2), Z.mul_1_l. pose proof (Hone x H1 H2). repeat case_decide; try tauto. subst. lia.
    + intros q Hq [Hx|(va' & f' & [[_ [= <- _]]|[_ Hx]]%lookup_insert_Some)]; [by apply (v_apart _ _ _ _ _ Gok q Hq)|apply Hpl; rewrite Gfree; set_solver|].
      apply (Hap q); [rewrite Gfree; set_solver|right; eauto].
  - assert (k = 0%nat) as -> by lia. split; [destruct l; [done|cbn in Hl; lia]|]. split; [done|]. split; [apply Gok| |by intros q Hq%elem_of_nil].
    apply (asp_grow (kmem s) (kmem s') pgdir tabs tabs'); try done; [apply Gok|]. intros x H1 H2. rewrite (Hm x H1 H2), decide_False by lia. done.
Qed.

(** ** Giving pages back *)

Lemma kfree_out s l v : rep s l -> page_ok v -> v ∉ l ->
  exists s', Kalloc.kfree kend v s = Ok tt s' /\ rep s' (v :: l) /\ outside (kmem s) (kmem s') (fun q => q = v).
Proof.
  intros Hr Hv Hn. destruct (Kalloc.kfree_rep kend s l v Hr Hv Hn) as (s' & E & Hr' & _ & Em). exists s'. split; [done|]. split; [done|].
  intros a Ha. rewrite Em. by apply (Kalloc.freed_mem_outside kend), (Ha v).
Qed.

Lemma page_pa p f : page_ok p -> 0 <= f < PGSIZE -> PTE_ADDR (v2p p + f) = v2p p /\ v2p p <> 0 /\ p2v (v2p p) = p.
Proof.
  intros Hp Hf. destruct (v2p_page kend p Hp) as (E & Hm & Hr & Hv). rewrite PTE_ADDR_add by (done || unfold PHYSTOP in *; lia). split_and!; try done.
  rewrite E. destruct Hp as (_ & ? & _). unfold KERNLINK, KERNBASE, EXTMEM in *. lia.
Qed.

Lemma asp_delete m m' pgdir tabs pgs va : asp m pgdir tabs pgs -> pt_ok m' pgdir tabs -> 0 <= va < KERNBASE ->
  (forall va', 0 <= va' < 2 ^ 32 -> va' mod PGSIZE = 0 -> pte_of m' tabs va' = if decide (va' = va) then 0 else pte_of m tabs va') ->
  asp m' pgdir tabs (delete va pgs).
Proof.
  intros [A1 A2 A3 A5 A4] Hpt Hva Hpte. split; [done| | | |].
  - intros va' p f [Hne H]%lookup_delete_Some. destruct (A2 va' p f H) as (B1 & B2 & B). rewrite Hpte, decide_False by (done || unfold KERNBASE in *; lia). done.
  - intros va' H1 H2 Hn. rewrite Hpte by (done || unfold KERNBASE in *; lia). case_decide; [done|]. rewrite lookup_delete_ne in Hn by done. by apply A3.
  - intros va' H1 H2. rewrite Hpte, decide_False by (done || unfold KERNBASE in *; lia). by apply A5.
  - intros a b p f f' [_ Ha]%lookup_delete_Some [_ Hb]%lookup_delete_Some. by eapply A4.
Qed.

(** The table and entry of a mapped page, and what an unmapped page has. *)
Lemma walk_user s pgdir tabs pgs va p f : asp (kmem s) pgdir tabs pgs -> pgs !! va = Some (p, f) ->
  exists t, tabs !! PDX va = Some t /\ Vm.walkpgdir pgdir va false s = Ok (t + 4 * PTX va) s /\ t + 4 * PTX va <> 0 /\
    rd32 (kmem s) (t + 4 * PTX va) = v2p p + f.
Proof.
  intros Ha H. destruct (as_some _ _ _ _ Ha va p f H) as (B1 & B2 & B3 & B4 & B5 & B6 & _). pose proof (as_pt _ _ _ _ Ha) as Hpt.
  unfold pte_of in B6. destruct (tabs !! PDX va) as [t|] eqn:Et.
  - exists t. split; [done|]. split; [by apply (walk_found kend s pgdir tabs va Hpt)|]. split; [|done].
    destruct (pt_some _ _ _ _ Hpt _ _ Et) as (_ & Ht & _). pose proof (Kalloc.page_ok_range kend t Ht). pose proof (PTX_range va). lia.
  - destruct (page_pa p f B3 B4) as (_ & Hz & _). destruct (v2p_page kend p B3) as (_ & _ & Hr & _). lia.
Qed.

Lemma walk_unmapped s pgdir tabs pgs va : asp (kmem s) pgdir tabs pgs -> 0 <= va < KERNBASE -> va mod PGSIZE = 0 -> pgs !! va = None ->
  exists pte, Vm.walkpgdir pgdir va false s = Ok pte s /\ (pte <> 0 -> truthy (rd32 (kmem s) pte .& PTE_P) = false).
Proof.
  intros Ha Hva Hal H. pose proof (as_none _ _ _ _ Ha va Hva Hal H) as Hn. pose proof (as_pt _ _ _ _ Ha) as Hpt. assert (0 <= va < 2 ^ 32) by (unfold KERNBASE in *; lia).
  unfold pte_of in Hn. destruct (tabs !! PDX va) as [t|] eqn:Et.
  - exists (t + 4 * PTX va). split; [by apply (walk_found kend s pgdir tabs va Hpt)|done].
  - exists 0. split; [by apply (walk_none kend s pgdir tabs va Hpt)|done].
Qed.

(** The body of the loop of [deallocuvm] on a mapped page. *)
Lemma free_page s pgdir tabs pgs l va p f : uvm s pgdir tabs pgs l -> pgs !! va = Some (p, f) ->
  exists t s1 s', tabs !! PDX va = Some t /\ Kalloc.kfree kend p s = Ok tt s1 /\ Vm.st32 (t + 4 * PTX va) 0 s1 = Ok tt s' /\
    uvm s' pgdir tabs (delete va pgs) (p :: l) /\ outside (kmem s) (kmem s') (fun q => q = p \/ pt_pages pgdir tabs q).
Proof.
  intros Hu H. destruct (walk_user _ _ _ _ _ _ _ (u_asp _ _ _ _ _ Hu) H) as (t & Et & _). destruct Hu as [Hr Ha Hap]. pose proof (as_some _ _ _ _ Ha va p f H) as (B1 & B2 & B3 & B4 & B5 & B6 & B7).
  assert (p ∉ l) as Hpl by (intros Hx; apply (Hap p Hx); right; eauto).
  destruct (kfree_out s l p Hr B3 Hpl) as (s1 & E1 & Hr1 & Ho1). exists t, s1.
  assert (forall q, pt_pages pgdir tabs q -> same_page (kmem s) (kmem s1) q) as Hsame.
  { intros q Hq. apply (outside_same kend _ _ (fun q => q = p)); [done|by eapply pt_pages_ok; [apply Ha|]|]. intros ? ->. split; [done|]. by intros ->. }
  assert (vok s1 pgdir tabs (p :: l)) as Hok1.
  { split; [done|eapply pt_ok_same; [apply Ha|done]|]. intros q [->|Hq]%elem_of_cons; [done|]. intros Hx. apply (Hap q Hq). by left. }
  destruct (set_pte kend s1 pgdir tabs (p :: l) va t 0 Hok1 Et ltac:(lia)) as (s' & E2 & Hg & Hpte). exists s'. split; [done|]. split; [done|]. split; [done|].
  destruct Hg as [Gok _ _ _ _ Gout]. split.
  - split; [apply Gok| |].
    + apply (asp_delete (kmem s)); [done|apply Gok|done|]. intros va' H1 H2. rewrite Hpte, (pte_of_same _ _ pgdir) by done.
      pose proof (aligned_same va' va H1 ltac:(unfold KERNBASE in *; lia) H2 B2). repeat case_decide; tauto.
    + intros q [->|Hq]%elem_of_cons [Hx|(b & g & [Hne Hx]%lookup_delete_Some)]; [done| |apply (Hap q Hq); by left|apply (Hap q Hq); right; eauto].
      apply Hne. by eapply (as_inj _ _ _ _ Ha).
  - eapply outside_trans; [eapply outside_weaken; [exact Ho1|auto]|eapply outside_weaken; [exact Gout|auto]].
Qed.

(** The pages outside of a range. *)
Definition cut (a b : Z) (pgs : pages) : pages := filter (fun kv => ~ (a <= kv.1 < b)) pgs.

(** Page [p] is mapped in the range. *)
Definition within (a b : Z) (pgs : pages) (p : Z) : Prop := exists va f, a <= va < b /\ pgs !! va = Some (p, f).

(** From [a] on there are no holes below a mapped page. *)
Definition convex (a : Z) (pgs : pages) : Prop :=
  forall x y, x mod PGSIZE = 0 -> a <= x <= y -> is_Some (pgs !! y) -> is_Some (pgs !! x).

Lemma lookup_cut a b pgs va : cut a b pgs !! va = if decide (a <= va < b) then None else pgs !! va.
Proof.
  unfold cut. destruct (pgs !! va) as [pf|] eqn:E; case_decide as H.
  - apply map_lookup_filter_None. right. intros ? ?. cbn. tauto.
  - by apply map_lookup_filter_Some.
  - apply map_lookup_filter_None. by left.
  - apply map_lookup_filter_None. by left.
Qed.

Lemma cut_step a b pgs : a < b -> a mod PGSIZE = 0 -> (forall va, is_Some (pgs !! va) -> va mod PGSIZE = 0) -> cut (a + PGSIZE) b (delete a pgs) = cut a b pgs.
Proof.
  intros Hab Hal Hall. apply map_eq. intros va. rewrite !lookup_cut. destruct (decide (va = a)) as [->|Hne].
  - rewrite lookup_delete_eq, (decide_True (P := a <= a < b)) by lia. by case_decide.
  - rewrite lookup_delete_ne by done. destruct (pgs !! va) as [pf|] eqn:E; [|repeat case_decide; done].
    assert (va mod PGSIZE = 0) as Hm by (apply Hall; rewrite E; done). unfold PGSIZE in *.
    apply Z.mod_divide in Hm as [x ->]; [|lia]. apply Z.mod_divide in Hal as [y ->]; [|lia]. repeat case_decide; (done || lia).
Qed.

(** Nothing is mapped from an unmapped page on. *)
Lemma convex_end a pgs : convex a pgs -> a mod PGSIZE = 0 -> pgs !! a = None -> forall va, a <= va -> pgs !! va = None.
Proof. intros Hc Hal Hn va Hva. destruct (pgs !! va) as [pf|] eqn:E; [|done]. destruct (Hc a va) as [x Hx]; [done|lia|by rewrite E|congruence]. Qed.

Lemma asp_aligned m pgdir tabs pgs va : asp m pgdir tabs pgs -> is_Some (pgs !! va) -> va mod PGSIZE = 0 /\ 0 <= va < KERNBASE.
Proof. intros Ha [[p f] H]. destruct (as_some _ _ _ _ Ha va p f H) as (? & ? & _). done. Qed.

Lemma aligned_next a : a mod PGSIZE = 0 -> (a + PGSIZE) mod PGSIZE = 0.
Proof. intros H. rewrite <- (Z.mul_1_l PGSIZE) at 1. by apply aligned_add. Qed.

(** One turn of the loop of [deallocuvm] on a mapped page, and on a page that is
    not mapped. *)
Lemma dealloc_mapped s pgdir tabs pgs l a p f oldsz fuel : uvm s pgdir tabs pgs l -> pgs !! a = Some (p, f) -> a < oldsz ->
  exists s', Vm.deallocuvm_loop kend (S fuel) pgdir a oldsz s = Vm.deallocuvm_loop kend fuel pgdir (a + PGSIZE) oldsz s' /\
    uvm s' pgdir tabs (delete a pgs) (p :: l) /\ outside (kmem s) (kmem s') (fun q => q = p \/ pt_pages pgdir tabs q).
Proof.
  intros Hu Ea Hlt. destruct (walk_user _ _ _ _ _ _ _ (u_asp _ _ _ _ _ Hu) Ea) as (t & Et & Ew & Hz & Er). destruct (free_page _ _ _ _ _ _ _ _ Hu Ea) as (t' & s1 & s2 & Et' & E1 & E2 & Hu2 & Ho2).
  assert (t' = t) as -> by congruence. pose proof (as_some _ _ _ _ (u_asp _ _ _ _ _ Hu) a p f Ea) as (B1 & _ & B3 & B4 & B5 & _). destruct (page_pa p f B3 B4) as (P1 & P2 & P3).
  destruct (v2p_page kend p B3) as (_ & Hpm & Hpr & _). exists s2. split; [|done]. cbn [Vm.deallocuvm_loop].
  rewrite (proj2 (Z.ltb_lt _ _) Hlt), (bind_ok_l _ _ _ _ _ Ew), (proj2 (Z.eqb_neq _ _) Hz).
  erewrite bind_ok_l; cycle 1.
  - erewrite bind_ok_l by done. cbv beta. rewrite Er, land_add_flags, B5 by (done || unfold PTE_P, PGSIZE; lia). cbn [when]. rewrite P1, (proj2 (Z.eqb_neq _ _) P2), P3.
    erewrite bind_ok_l; [done|]. by rewrite (bind_ok_l _ _ _ _ _ E1).
  - by rewrite u32_small by (unfold PGSIZE, KERNBASE in *; lia).
Qed.

Lemma dealloc_unmapped s pgdir tabs pgs l a oldsz fuel : uvm s pgdir tabs pgs l -> pgs !! a = None -> 0 <= a < KERNBASE -> a mod PGSIZE = 0 -> a < oldsz ->
  exists a', a + PGSIZE <= a' <= a + PGSIZE * NPTENTRIES /\ a' mod PGSIZE = 0 /\
    Vm.deallocuvm_loop kend (S fuel) pgdir a oldsz s = Vm.deallocuvm_loop kend fuel pgdir a' oldsz s.
Proof.
  intros Hu Ea Hak Hal Hlt. destruct (walk_unmapped _ _ _ _ _ (u_asp _ _ _ _ _ Hu) Hak Hal Ea) as (pte & Ew & Hp). cbn [Vm.deallocuvm_loop].
  rewrite (proj2 (Z.ltb_lt _ _) Hlt), (bind_ok_l _ _ _ _ _ Ew). destruct (Z.eqb_spec pte 0) as [->|Hz].
  - exists (a + PGSIZE * NPTENTRIES). split; [unfold PGSIZE, NPTENTRIES; lia|]. split; [rewrite Z.mul_comm; by apply aligned_add|].
    erewrite bind_ok_l by done. rewrite (u32_small (a + _)) by (unfold PGSIZE, NPTENTRIES, KERNBASE in *; lia). rewrite u32_small by (unfold PGSIZE, NPTENTRIES, KERNBASE in *; lia).
    f_equal. unfold PGSIZE, NPTENTRIES. lia.
  - exists (a + PGSIZE). split; [unfold PGSIZE, NPTENTRIES; lia|]. split; [by apply aligned_next|].
    erewrite bind_ok_l; [|erewrite bind_ok_l by done; cbv beta; by rewrite (Hp Hz)]. rewrite u32_small by (unfold PGSIZE, KERNBASE in *; lia). done.
Qed.

Lemma within_step m pgdir tabs pgs a b p f q : asp m pgdir tabs pgs -> pgs !! a = Some (p, f) -> a < b ->
  within a b pgs q <-> within (a + PGSIZE) b (delete a pgs) q \/ q = p.
Proof.
  intros Hasp Ea Hab. split; [|intros [(va & g & Hva & [Hne H]%lookup_delete_Some)| ->]; [exists va, g; split; [unfold PGSIZE in *; lia|done]|exists a, f; split; [lia|done]]].
  intros (va & g & Hva & H). destruct (decide (va = a)) as [->|Hne]; [right; congruence|left]. exists va, g. split; [|by apply lookup_delete_Some].
  destruct (asp_aligned _ _ _ _ va Hasp) as [Hm _]; [by eexists|]. destruct (asp_aligned _ _ _ _ a Hasp) as [Hal _]; [by eexists|].
  unfold PGSIZE in *. apply Z.mod_divide in Hm as [x ->]; [|lia]. apply Z.mod_divide in Hal as [y ->]; lia.
Qed.

Lemma convex_step a pgs : convex a pgs -> convex (a + PGSIZE) (delete a pgs).
Proof.
  intros Hc x y Hx Hxy [pf [_ Hy]%lookup_delete_Some]. destruct (Hc x y) as [pf' Hpf]; [done|unfold PGSIZE in *; lia|by eexists|].
  exists pf'. apply lookup_delete_Some. split; [unfold PGSIZE in *; lia|done].
Qed.

Lemma dealloc_loop pgdir tabs oldsz fuel : oldsz <= KERNBASE -> forall s pgs l a, uvm s pgdir tabs pgs l -> 0 <= a <= KERNBASE + PGSIZE * NPTENTRIES -> a mod PGSIZE = 0 ->
  convex a pgs -> oldsz - a <= Z.of_nat fuel * PGSIZE ->
  exists s' l', Vm.deallocuvm_loop kend fuel pgdir a oldsz s = Ok tt s' /\ uvm s' pgdir tabs (cut a oldsz pgs) l' /\
    (forall p, p ∈ l' <-> p ∈ l \/ within a oldsz pgs p) /\ outside (kmem s) (kmem s') (fun q => pt_pages pgdir tabs q \/ within a oldsz pgs q).
Proof.
  intros Hold. induction fuel as [|fuel IH]; intros s pgs l a Hu Ha Hal Hc Hf.
  all: destruct (Z.ltb_spec a oldsz) as [Hlt|Hge]; [|exists s, l; assert (cut a oldsz pgs = pgs) as -> by (apply map_eq; intros va; rewrite lookup_cut; case_decide; [lia|done]);
    cbn [Vm.deallocuvm_loop]; rewrite (proj2 (Z.ltb_ge _ _) Hge); split; [done|]; split; [done|]; split; [intros p; split; [by left|intros [?|(va & f & ? & _)]; [done|lia]]|done]].
  { exfalso. lia. }
  assert (0 <= a < KERNBASE) as Hak by (unfold KERNBASE in *; lia). destruct (pgs !! a) as [[p f]|] eqn:Ea.
  - destruct (dealloc_mapped s pgdir tabs pgs l a p f oldsz fuel Hu Ea Hlt) as (s1 & -> & Hu1 & Ho1).
    destruct (IH s1 (delete a pgs) (p :: l) (a + PGSIZE) Hu1) as (s' & l' & E & Hu' & Hl' & Ho'); [unfold PGSIZE, KERNBASE, NPTENTRIES in *; lia|by apply aligned_next|by apply convex_step|unfold PGSIZE in *; lia|].
    pose proof (fun q => within_step _ _ _ _ a oldsz p f q (u_asp _ _ _ _ _ Hu) Ea Hlt) as Hw. exists s', l'. split; [done|]. split; [|split].
    + rewrite cut_step in Hu'; [done|done|done|]. intros va Hva. by eapply asp_aligned; [apply Hu|].
    + intros q. rewrite Hl', elem_of_cons, Hw. tauto.
    + eapply outside_trans; [eapply outside_weaken; [exact Ho1|]|eapply outside_weaken; [exact Ho'|]]; intros q; rewrite Hw; tauto.
  - destruct (dealloc_unmapped s pgdir tabs pgs l a oldsz fuel Hu Ea Hak Hal Hlt) as (a' & Ha' & Hal' & ->). pose proof (convex_end a pgs Hc Hal Ea) as Hend. unfold PGSIZE, NPTENTRIES in Ha'.
    destruct (IH s pgs l a' Hu) as (s' & l' & E & Hu' & Hl' & Ho'); [unfold PGSIZE, NPTENTRIES, KERNBASE in *; lia|done|intros x y ? ? ?; apply (Hc x y); [done|lia|done]|unfold PGSIZE in *; lia|].
    assert (forall q b, a <= b -> ~ within b oldsz pgs q) as Hw by (intros q b Hb (va & g & Hva & H); rewrite Hend in H; [done|lia]).
    exists s', l'. split; [exact E|]. split; [|split].
    + assert (cut a oldsz pgs = cut a' oldsz pgs) as ->; [|done]. apply map_eq. intros va. rewrite !lookup_cut. repeat case_decide; try done; try lia; by rewrite Hend by lia.
    + intros q. rewrite Hl'. pose proof (Hw q a ltac:(lia)). pose proof (Hw q a' ltac:(lia)). tauto.
    + eapply outside_weaken; [exact Ho'|]. intros q [?|Hx]; [by left|]. by destruct (Hw q a' ltac:(lia)).
Qed.

(** [deallocuvm] of an address space without holes. *)
Lemma dealloc_spec s pgdir tabs pgs l oldsz newsz : uvm s pgdir tabs pgs l -> 0 <= newsz < oldsz -> oldsz <= KERNBASE -> convex (PGROUNDUP newsz) pgs ->
  exists s' l', Vm.deallocuvm kend pgdir oldsz newsz s = Ok newsz s' /\ uvm s' pgdir tabs (cut (PGROUNDUP newsz) oldsz pgs) l' /\
    (forall p, p ∈ l' <-> p ∈ l \/ within (PGROUNDUP newsz) oldsz pgs p) /\
    outside (kmem s) (kmem s') (fun q => pt_pages pgdir tabs q \/ within (PGROUNDUP newsz) oldsz pgs q).
Proof.
  intros Hu Hn Ho Hc. destruct (PGROUNDUP_bounds newsz) as [Hb Hal]; [unfold KERNBASE, PGSIZE in *; lia|].
  destruct (dealloc_loop pgdir tabs oldsz (Z.to_nat (oldsz / PGSIZE) + 1) Ho s pgs l (PGROUNDUP newsz) Hu) as (s' & l' & E & H);
    [unfold KERNBASE, PGSIZE, NPTENTRIES in *; lia|done|done|pose proof (Z.div_mod oldsz PGSIZE); pose proof (Z.mod_pos_bound oldsz PGSIZE); unfold PGSIZE in *; lia|].
  exists s', l'. split; [|done]. unfold Vm.deallocuvm. rewrite (proj2 (Z.leb_gt _ _)) by lia. by rewrite (bind_ok_l _ _ _ _ _ E).
Qed.

(** ** freevm *)

Lemma pt_ok_dir m m' pgdir tabs : pt_ok m pgdir tabs -> same_page m m' pgdir -> pt_ok m' pgdir tabs.
Proof.
  intros [H1 H2 H3 H4] Hs. assert (forall i, 0 <= i < 1024 -> rd32 m' (pgdir + 4 * i) = rd32 m (pgdir + 4 * i)) as E.
  { intros i Hi. apply (same_page_rd32 _ _ pgdir); [done|lia|unfold PGSIZE; lia]. }
  split; [done| | |done]; [intros i t Hi; destruct (H2 i t Hi) as (Hr & ? & ? & ? & ?)|intros i Hi Hn]; rewrite E by done; [done|by apply H3].
Qed.

(** The directory entries from [i] on. *)
Definition tab_from (i : Z) (tabs : gmap Z Z) (p : Z) : Prop := exists j, i <= j /\ tabs !! j = Some p.

Lemma free_tables pgdir tabs n : forall s l i, 0 <= i -> i + Z.of_nat n = 1024 -> rep s l -> pt_ok (kmem s) pgdir tabs -> (forall t, tab_from i tabs t -> t ∉ l) -> pgdir ∉ l ->
  exists s' l', Vm.freevm_loop kend pgdir i n s = Ok tt s' /\ rep s' l' /\ (forall p, p ∈ l' <-> p ∈ l \/ tab_from i tabs p) /\
    outside (kmem s) (kmem s') (tab_from i tabs).
Proof.
  induction n as [|n IH]; intros s l i Hi Hn Hr Hpt Hl Hd; cbn [Vm.freevm_loop].
  { exists s, l. split; [done|]. split; [done|]. split; [|done]. intros p. split; [by left|]. intros [?|(j & Hj & H)]; [done|]. destruct (pt_some _ _ _ _ Hpt _ _ H) as (? & _). lia. }
  erewrite bind_ok_l by done. cbv beta. destruct (tabs !! i) as [t|] eqn:Et.
  - destruct (pt_some _ _ _ _ Hpt _ _ Et) as (_ & Ht & Hne & Ha & HP). destruct (kfree_out s l t Hr Ht) as (s1 & E1 & Hr1 & Ho1); [apply Hl; by exists i|].
    assert (forall p, tab_from i tabs p <-> p = t \/ tab_from (i + 1) tabs p) as Htf.
    { intros p. split; [intros (j & Hj & H); destruct (decide (j = i)) as [->|]; [left; congruence|right; exists j; split; [lia|done]]|].
      intros [->|(j & Hj & H)]; [by exists i|exists j; split; [lia|done]]. }
    rewrite HP. cbn [when]. destruct (v2p_page kend t Ht) as (_ & _ & _ & Ev). rewrite Ha, Ev, (bind_ok_l _ _ _ _ _ E1).
    destruct (IH s1 (t :: l) (i + 1)) as (s' & l' & E & Hr' & Hl' & Ho'); [lia|lia|done| | | |].
    + eapply pt_ok_dir; [done|]. apply (outside_same kend _ _ (fun q => q = t)); [done|apply Hpt|by intros q ->].
    + intros t' Ht' [->|Hx]%elem_of_cons; [|apply (Hl t'); [apply Htf; by right|done]]. destruct Ht' as (j & Hj & H). pose proof (pt_inj _ _ _ _ Hpt i j t Et H). lia.
    + intros [->|Hx]%elem_of_cons; done.
    + exists s', l'. split; [done|]. split; [done|]. split; [intros p; rewrite Hl', elem_of_cons, Htf; tauto|].
      eapply outside_trans; eapply outside_weaken; [exact Ho1| |exact Ho'|]; intros q; rewrite Htf; tauto.
  - rewrite (pt_none _ _ _ _ Hpt i) by (done || lia). cbn [when]. erewrite bind_ok_l by done.
    assert (forall p, tab_from i tabs p <-> tab_from (i + 1) tabs p) as Htf.
    { intros p. split; intros (j & Hj & H); exists j; (split; [|done]); [|lia]. destruct (decide (j = i)) as [->|]; [congruence|lia]. }
    destruct (IH s l (i + 1)) as (s' & l' & E & Hr' & Hl' & Ho'); [lia|lia|done|done|intros t' Ht'; by apply Hl, Htf|done|].
    exists s', l'. split; [done|]. split; [done|]. split; [intros p; by rewrite Hl', Htf|]. eapply outside_weaken; [exact Ho'|]. intros q. by rewrite Htf.
Qed.

(** [freevm] gives back every page of the address space and touches no other. *)
Lemma freevm_spec s pgdir tabs pgs l : uvm s pgdir tabs pgs l -> convex 0 pgs ->
  exists s' l', Vm.freevm kend pgdir s = Ok tt s' /\ rep s' l' /\ (forall p, p ∈ l' <-> p ∈ l \/ foot pgdir tabs pgs p) /\
    outside (kmem s) (kmem s') (foot pgdir tabs pgs).
Proof.
  intros Hu Hc. pose proof (u_asp _ _ _ _ _ Hu) as Ha. pose proof (pt_dir _ _ _ _ (as_pt _ _ _ _ Ha)) as Hd. pose proof (Kalloc.page_ok_range kend _ Hd) as Hdr.
  destruct (dealloc_spec s pgdir tabs pgs l KERNBASE 0 Hu) as (s1 & l1 & E1 & Hu1 & Hl1 & Ho1); [unfold KERNBASE; lia|lia|done|]. change (PGROUNDUP 0) with 0 in *.
  assert (forall p, within 0 KERNBASE pgs p <-> exists va f, pgs !! va = Some (p, f)) as Hw.
  { intros p. split; [intros (va & f & _ & H); eauto|]. intros (va & f & H). exists va, f. split; [|done]. by eapply asp_aligned; [exact Ha|eexists]. }
  assert (forall p, tab_from 0 tabs p <-> exists i, tabs !! i = Some p) as Htf.
  { intros p. split; [intros (j & _ & H); eauto|]. intros (j & H). exists j. split; [|done]. destruct (pt_some _ _ _ _ (as_pt _ _ _ _ Ha) _ _ H) as [? _]. lia. }
  pose proof (uvm_vok _ _ _ _ _ Hu1) as [Hr1 Hpt1 Hap1].
  destruct (free_tables pgdir tabs (Z.to_nat NPDENTRIES) s1 l1 0) as (s2 & l2 & E2 & Hr2 & Hl2 & Ho2); [lia|done|done|done| | |].
  { intros t Ht Hx. apply (Hap1 t Hx). right. by apply Htf. }
  { intros Hx. apply (Hap1 pgdir Hx). by left. }
  destruct (kfree_out s2 l2 pgdir Hr2 Hd) as (s3 & E3 & Hr3 & Ho3).
  { rewrite Hl2. intros [Hx|Hx]; [apply (Hap1 pgdir Hx); by left|]. destruct Hx as (j & _ & Hj). by destruct (pt_some _ _ _ _ Hpt1 _ _ Hj) as (_ & _ & ? & _). }
  exists s3, (pgdir :: l2). split; [|split; [done|split]].
  - unfold Vm.freevm. rewrite (proj2 (Z.eqb_neq _ _)) by lia. rewrite (bind_ok_l _ _ _ _ _ E1), (bind_ok_l _ _ _ _ _ E2). exact E3.
  - intros p. rewrite elem_of_cons, Hl2, Hl1, Hw, Htf. unfold foot, pt_pages. tauto.
  - eapply outside_trans; [eapply outside_trans|]; eapply outside_weaken; [exact Ho1| |exact Ho2| |exact Ho3|]; intros q; cbv beta; rewrite ?Hw, ?Htf; unfold foot, pt_pages; tauto.
Qed.

(** ** How many pages an address space has *)

Lemma tabs_size m pgdir tabs : pt_ok m pgdir tabs -> (size tabs <= 1024)%nat.
Proof.
  intros Hpt. rewrite <- size_dom. change 1024%nat with (length (seqZ 0 1024)). rewrite <- (size_list_to_set (C := gset Z) (seqZ 0 1024)) by apply NoDup_seqZ.
  apply subseteq_size. intros i [t Hi]%elem_of_dom. apply elem_of_list_to_set, elem_of_seqZ. by destruct (pt_some _ _ _ _ Hpt _ _ Hi) as [? _].
Qed.

Definition foot_list (pgdir : Z) (tabs : gmap Z Z) (pgs : pages) : list Z := pgdir :: (map_to_list tabs).*2 ++ ((map_to_list pgs).*2).*1.

Lemma elem_foot_list pgdir tabs pgs p : foot pgdir tabs pgs p -> p ∈ foot_list pgdir tabs pgs.
Proof.
  unfold foot_list. intros [[->|[i Hi]]|(va & f & H)]; [left| |]; right; apply elem_of_app.
  - left. apply list_elem_of_fmap. exists (i, p). split; [done|]. by apply elem_of_map_to_list.
  - right. apply list_elem_of_fmap. exists (p, f). split; [done|]. apply list_elem_of_fmap. exists (va, (p, f)). split; [done|]. by apply elem_of_map_to_list.
Qed.

Lemma foot_bound m pgdir tabs pgs l k : pt_ok m pgdir tabs -> NoDup l -> (forall p, p ∈ l -> foot pgdir tabs pgs p \/ p ∈ k) ->
  (length l <= 1025 + size pgs + length k)%nat.
Proof.
  intros Hpt Hnd Hl. pose proof (tabs_size _ _ _ Hpt) as Ht. assert (l ⊆+ foot_list pgdir tabs pgs ++ k) as Hs.
  { apply NoDup_submseteq; [done|]. intros p Hp. apply elem_of_app. destruct (Hl p Hp); [left; by apply elem_foot_list|by right]. }
  apply submseteq_length in Hs. unfold foot_list in Hs. rewrite length_app in Hs. cbn [length] in Hs. rewrite !length_app, !length_fmap, !length_map_to_list in Hs. lia.
Qed.

Lemma sized_size (pgs : pages) n : (forall va, is_Some (pgs !! va) -> va mod PGSIZE = 0 /\ 0 <= va < Z.of_nat n * PGSIZE) -> (size pgs <= n)%nat.
Proof.
  intros H. assert ((map_to_list pgs).*1 ⊆+ (fun k => k * PGSIZE) <$> seqZ 0 (Z.of_nat n)) as Hs.
  { apply NoDup_submseteq; [apply NoDup_fst_map_to_list|]. intros va ([a pf] & -> & Hx%elem_of_map_to_list)%list_elem_of_fmap. destruct (H a) as [Hm Hr]; [by eexists|].
    unfold PGSIZE in *. apply Z.mod_divide in Hm as [k Hk]; [|lia]. apply list_elem_of_fmap. exists k. split; [done|]. apply elem_of_seqZ. lia. }
  apply submseteq_length in Hs. rewrite !length_fmap, length_map_to_list, length_seqZ in Hs. lia.
Qed.

(** ** setupkvm *)

Lemma npages_aligned va size : 0 <= va -> 0 < size -> va + size <= 2 ^ 32 -> va mod PGSIZE = 0 -> size mod PGSIZE = 0 ->
  Z.of_nat (Vm.npages (PGROUNDDOWN va) (PGROUNDDOWN (u32 (va + size - 1)))) * PGSIZE = size.
Proof.
  intros H0 Hs H1 H2 H3. rewrite aligned_page, u32_small, PGROUNDDOWN_spec by (done || unfold PGSIZE in *; lia). unfold Vm.npages, PGSIZE in *.
  apply Z.mod_divide in H2 as [x ->]; [|lia]. apply Z.mod_divide in H3 as [y ->]; [|lia].
  replace ((x * 4096 + y * 4096 - 1) / 4096) with (x + y - 1) by (apply (Z.div_unique _ _ _ 4095); lia).
  rewrite u32_small by lia. replace (4096 * (x + y - 1) - x * 4096) with ((y - 1) * 4096) by lia. rewrite Z.div_mul by lia. lia.
Qed.

Lemma kpte_skip ks va e : (forall k, k ∈ ks -> ~ krange k va) -> kpte ks va e = e.
Proof.
  induction ks as [|k ks IH]; intros H; cbn [kpte]; [done|]. rewrite bool_decide_eq_false_2 by (apply H; left). apply IH. intros k' Hk'. apply H. by right.
Qed.

Lemma setup_loop pgdir ks : forall s tabs l, vok s pgdir tabs l -> Forall kmap_wf ks ->
  (forall i j k k' va, ks !! i = Some k -> ks !! j = Some k' -> krange k va -> krange k' va -> i = j) ->
  (forall k va, k ∈ ks -> va mod PGSIZE = 0 -> krange k va -> truthy (pte_of (kmem s) tabs va .& PTE_P) = false) ->
  exists r s' tabs' l', Vm.setupkvm_loop pgdir ks s = Ok r s' /\ grows kend s pgdir tabs l s' tabs' l' /\
    (r = pgdir /\ (forall va, 0 <= va < 2 ^ 32 -> va mod PGSIZE = 0 -> pte_of (kmem s') tabs' va = kpte ks va (pte_of (kmem s) tabs va)) \/ r = 0 /\ l' = []).
Proof.
  induction ks as [|k ks IH]; intros s tabs l Hok Hwf Hdis Hnp; cbn [Vm.setupkvm_loop kpte].
  { exists pgdir, s, tabs, l. split; [done|]. split; [by apply grows_refl|]. by left. }
  apply Forall_cons in Hwf as [[[V0 Va] (S0 & Sa & Se) (P0 & Pa & Pe) Hp] Hwf]. fold (ksize k).
  pose proof (npages_aligned (Vm.virt k) (ksize k) V0 S0 Se Va Sa) as Hn. pose proof (aligned_page (Vm.virt k) ltac:(lia) Va) as Ev.
  destruct (mappages_spec kend s pgdir tabs l (Vm.virt k) (ksize k) (Vm.phys_start k) (Vm.kperm k) Hok) as (r & s1 & tabs1 & l1 & n & E & Hg & Hm & _ & Hr); try done; [lia| |].
  { intros x Hx Hxr. apply (Hnp k x); [left|done|]. unfold krange. rewrite Ev in Hxr. lia. }
  rewrite (bind_ok_l _ _ _ _ _ E). destruct Hr as [(-> & -> & _)|(-> & _ & ->)]; cbn [Z.ltb Z.compare]; [|exists 0, s1, tabs1, []; split; [done|]; split; [done|]; by right].
  rewrite Ev in Hm. unfold mapped in Hm. rewrite Ev in Hn. rewrite Hn in Hm.
  destruct (IH s1 tabs1 l1) as (r & s2 & tabs2 & l2 & E2 & Hg2 & Hr); [by apply Hg|done| | |].
  - intros i j k1 k2 va H1 H2 Hk1 Hk2. pose proof (Hdis (S i) (S j) k1 k2 va H1 H2 Hk1 Hk2). lia.
  - intros k' va Hk' Hva Hrg. apply list_elem_of_lookup in Hk' as [j Hj]. pose proof (Forall_lookup_1 _ _ _ _ Hwf Hj) as [[V0' _] (S0' & _ & Se') _ _].
    rewrite Hm by (done || unfold krange in *; lia). case_decide as Hc; [|apply (Hnp k'); [right; by eapply list_elem_of_lookup_2|done|done]].
    pose proof (Hdis 0%nat (S j) k k' va eq_refl Hj Hc Hrg). lia.
  - exists r, s2, tabs2, l2. split; [done|]. split; [by eapply grows_trans|]. destruct Hr as [[-> Hpte]|Hr]; [left|by right]. split; [done|].
    intros va Hva Hal. rewrite Hpte, Hm by done. unfold krange. destruct (bool_decide_reflect (Vm.virt k <= va < Vm.virt k + ksize k)) as [Hin|Hin]; [rewrite decide_True by done|by rewrite decide_False by done].
    rewrite kpte_skip; [lia|]. intros k' [j Hj]%list_elem_of_lookup Hx. pose proof (Hdis 0%nat (S j) k k' va eq_refl Hj Hin Hx). lia.
Qed.

Lemma aligned_sub a b : a mod PGSIZE = 0 -> b mod PGSIZE = 0 -> (a - b) mod PGSIZE = 0.
Proof. unfold PGSIZE. intros Ha Hb. rewrite Zminus_mod, Ha, Hb. done. Qed.

Lemma kmap_ranges : Forall2 (fun k r => kmap_wf k /\ Vm.virt k = r.1 /\ ksize k = r.2 - r.1) (Vm.kmap kdata)
  [(KERNBASE, KERNLINK); (KERNLINK, kdata); (kdata, KERNBASE + PHYSTOP); (DEVSPACE, 2 ^ 32)].
Proof.
  destruct Hkdata as [Ha Hr]. assert (v2p kdata = kdata - KERNBASE) as Ev by (unfold v2p; rewrite u32_small; [done|unfold KERNLINK, KERNBASE, EXTMEM, PHYSTOP in *; lia]).
  assert ((kdata - KERNLINK) mod PGSIZE = 0 /\ (kdata - KERNBASE) mod PGSIZE = 0 /\ (KERNBASE + PHYSTOP - kdata) mod PGSIZE = 0) as (Hm1 & Hm2 & Hm3).
  { split_and!; by apply aligned_sub. }
  repeat (apply Forall2_cons; split); [| | | |apply Forall2_nil_2].
  all: match goal with |- kmap_wf ?k /\ _ = ?b /\ _ = ?n => assert (ksize k = n) as En; [unfold ksize; cbn [Vm.phys_end Vm.phys_start fst snd]; rewrite ?Ev|] end.
  all: try (change (v2p KERNLINK) with EXTMEM; rewrite u32_small; unfold KERNLINK, KERNBASE, EXTMEM, PHYSTOP in *; lia).
  all: try done.
  all: (split; [|done]); split; rewrite ?En; cbn [Vm.virt Vm.phys_start Vm.kperm fst snd]; try done.
  all: unfold KERNLINK, KERNBASE, EXTMEM, PHYSTOP, PGSIZE, PTE_W in *; rewrite ?Ev; try (split_and!; (done || lia)).
  change (v2p (2147483648 + 1048576)) with 1048576. split_and!; (done || lia).
Qed.

Lemma kmap_disjoint i j k k' va : Vm.kmap kdata !! i = Some k -> Vm.kmap kdata !! j = Some k' -> krange k va -> krange k' va -> i = j.
Proof.
  intros Hi Hj Hk Hk'. destruct (Forall2_lookup_l _ _ _ _ _ kmap_ranges Hi) as (r & Hr & _ & E1 & E2). destruct (Forall2_lookup_l _ _ _ _ _ kmap_ranges Hj) as (r' & Hr' & _ & E1' & E2').
  unfold krange in *. rewrite E1, E2 in Hk. rewrite E1', E2' in Hk'. clear - Hr Hr' Hk Hk' Hkdata.
  destruct i as [|[|[|[|i]]]], j as [|[|[|[|j]]]]; simpl in Hr, Hr'; simplify_eq; try done; cbn [fst snd] in *; unfold KERNLINK, KERNBASE, EXTMEM, PHYSTOP, DEVSPACE in *; lia.
Qed.

(** A fresh page filled with zeroes. *)
Lemma kalloc_zero s p l : rep s (p :: l) -> exists s1, Kalloc.kalloc s = Ok p s1 /\ kmem s1 = kmem s /\ rep s1 l /\ page_ok p /\ (p ∉ l) /\ p <> 0 /\
  rep (Kalloc.set_mem (Mem.memset (kmem s) p 0 PGSIZE) s1) l /\ outside (kmem s) (Mem.memset (kmem s) p 0 PGSIZE) (fun q => q = p).
Proof.
  intros Hr. destruct (Kalloc.kalloc_rep kend s _ Hr) as (s1 & E & Hr1 & _ & Em). cbn [hd tl] in *. exists s1.
  assert (page_ok p) as Hp by (eapply rep_page_ok; [exact Hr|left]). pose proof (Kalloc.page_ok_range kend p Hp).
  assert (p ∉ l) as Hn by (destruct Hr as (_ & Hnd & _); by apply NoDup_cons in Hnd as [? _]). pose proof (outside_memset kend (kmem s) p 0 Hp) as Ho.
  split_and!; try done; [lia|]. apply (rep_out s1 _ l (fun q => q = p)); try done; [cbn; apply Mem.mem_wf_memset; rewrite <- Em; apply Hr1|cbn; by rewrite Em|by intros q ->].
Qed.

Lemma fresh_dir m d : page_ok d -> pt_ok (Mem.memset m d 0 PGSIZE) d ∅.
Proof.
  intros Hd. split; [done| | |]; intros *; rewrite ?lookup_empty; try done. intros Hi _. by rewrite (rd32_zero_page kend) by (done || unfold PGSIZE; lia).
Qed.

(** The pages that were taken from [l], [l'] being left. *)
Definition took (l l' : list Z) (p : Z) : Prop := p ∈ l /\ p ∉ l'.

(** [setupkvm] makes an address space without user pages whose kernel part is
    that of [kmap]; when it runs out of pages it returns 0, and the pages it had
    taken are lost. *)
Lemma setupkvm_spec s l : rep s l ->
  exists r s' l', Vm.setupkvm kdata s = Ok r s' /\ rep s' l' /\ l' ⊆ l /\ outside (kmem s) (kmem s') (took l l') /\
    (r = 0 /\ l' = [] /\ (length l <= 1025)%nat \/
     exists tabs, r <> 0 /\ uvm s' r tabs ∅ l' /\ forall p, pt_pages r tabs p <-> took l l' p).
Proof.
  intros Hr. unfold Vm.setupkvm. destruct l as [|d l].
  { destruct (Kalloc.kalloc_rep kend s [] Hr) as (s' & E & Hr' & _ & Em). exists 0, s', []. rewrite (bind_ok_l _ _ _ _ _ E). rewrite Em. split_and!; try done. left. split_and!; (done || cbn; lia). }
  destruct (kalloc_zero s d l Hr) as (s1 & E & Em & Hr1 & Hd & Hn & Hz & Hr2 & Ho). rewrite (bind_ok_l _ _ _ _ _ E), (proj2 (Z.eqb_neq _ _) Hz).
  set (s2 := Kalloc.set_mem _ s1) in *. erewrite bind_ok_l; [|unfold Vm.memset, modify; rewrite Em; fold s2; reflexivity]. change (DEVSPACE <? p2v PHYSTOP) with false. cbv iota.
  assert (vok s2 d ∅ l) as Hok by (split; [done|by apply fresh_dir|intros p Hp [->|[i Hi]]; done]).
  pose proof kmap_ranges as Hkr. pose proof (pt_none _ _ _ _ (v_pt _ _ _ _ _ Hok)) as Hno.
  destruct (setup_loop d (Vm.kmap kdata) s2 ∅ l Hok) as (r & s' & tabs & l' & E' & Hg & Hres).
  - apply Forall_forall. intros k [i Hi]%list_elem_of_lookup. by destruct (Forall2_lookup_l _ _ _ _ _ Hkr Hi) as (? & _ & ? & _).
  - apply kmap_disjoint.
  - done.
  - destruct Hg as [Gok Gsub Gpg [used Gfree] Gused Gout]. assert (forall p, pt_pages d tabs p <-> took (d :: l) l' p) as Hp.
    { intros p. unfold took. rewrite elem_of_cons. split.
      - intros Hp. split; [|intros Hx; by apply (v_apart _ _ _ _ _ Gok p Hx)]. destruct (Gpg p Hp) as [[->|[i Hi]]|?]; [by left|done|by right].
      - intros [[->|Hp] Hx]; [by left|]. by destruct (Gused p Hp). }
    exists r, s', l'. split; [done|]. split; [apply Gok|]. split; [rewrite Gfree; intros q Hq; right; apply elem_of_app; by right|]. split.
    { eapply outside_trans; eapply outside_weaken; [exact Ho| |exact Gout|]; intros q Hq; apply Hp; [subst; by left|done]. }
    destruct Hres as [[-> Hpte]|[-> ->]]; [right|left; split; [done|]; split; [done|]].
    2: { pose proof (foot_bound (kmem s') d tabs ∅ (d :: l) [] (v_pt _ _ _ _ _ Gok)) as Hb. rewrite map_size_empty in Hb. change (length []) with 0%nat in Hb.
      enough ((length (d :: l) <= 1025 + 0 + 0)%nat) by lia. apply Hb; [by destruct Hr as (_ & ? & _)|]. intros p Hx. left. left. apply Hp. split; [done|apply not_elem_of_nil]. }
    exists tabs. split; [done|]. split; [|done].
    split; [apply Gok| |intros p Hx [Hy|(va & f & Hy)]; [by apply (v_apart _ _ _ _ _ Gok p Hx)|done]].
    split; [apply Gok|done| |intros va Hva Hal; apply Hpte; [unfold KERNBASE in *; lia|done]|done]. intros va Hva Hal _. rewrite Hpte by (done || unfold KERNBASE in *; lia). rewrite kpte_skip; [done|].
    intros k [i Hi]%list_elem_of_lookup. destruct (Forall2_lookup_l _ _ _ _ _ Hkr Hi) as (rg & Hrg & _ & E1 & E2). unfold krange. rewrite E1, E2. clear - Hrg Hva Hkdata.
    destruct i as [|[|[|[|i]]]]; simpl in Hrg; simplify_eq; cbn [fst snd]; unfold KERNLINK, KERNBASE, EXTMEM, PHYSTOP, DEVSPACE in *; lia.
Qed.

(** ** copyuvm *)

(** [pgsd] has copies of the pages of [pgs] below [i], with their flags. *)
Definition copied (m : mem) (pgs pgsd : pages) (i : Z) : Prop := forall va,
  match pgsd !! va with
  | Some (q, f) => va < i /\ exists p, pgs !! va = Some (p, f) /\ forall o, 0 <= o < PGSIZE -> rd8 m (q + o) = rd8 m (p + o)
  | None => va < i -> pgs !! va = None
  end.

(** A copy in the making: the parent's pages are no one else's, and everything
    taken of the free pages [l0] is the child's. *)
Record copying (s0 : Kalloc.kst) (l0 : list Z) (pd : Z) (tabs : gmap Z Z) (pgs : pages) (d : Z)
    (s : Kalloc.kst) (tabsd : gmap Z Z) (pgsd : pages) (l : list Z) (i : Z) : Prop := MkCopying {
  cp_parent : asp (kmem s) pd tabs pgs;
  cp_child : uvm s d tabsd pgsd l;
  cp_apart : forall p, foot pd tabs pgs p -> p ∉ l0;
  cp_took : forall p, foot d tabsd pgsd p <-> took l0 l p;
  cp_free : l ⊆ l0;
  cp_out : outside (kmem s0) (kmem s) (took l0 l);
  cp_copied : copied (kmem s) pgs pgsd i
}.

Lemma memmove_page m q p : mem_wf m -> page_ok p -> page_ok q -> p <> q ->
  outside m (Mem.memmove m q p PGSIZE) (fun x => x = q) /\ (forall o, 0 <= o < PGSIZE -> rd8 (Mem.memmove m q p PGSIZE) (q + o) = rd8 m (p + o)) /\
  mem_wf (Mem.memmove m q p PGSIZE).
Proof.
  intros Hw Hp Hq Hne. assert (forall x, page_ok x -> 0 <= x /\ x + PGSIZE < 2 ^ 32) as Hrg by (intros x (_ & _ & Hx); unfold KERNBASE, PHYSTOP, PGSIZE in *; lia).
  pose proof (Hrg p Hp). pose proof (Hrg q Hq). split; [|split].
  - intros a Ha. rewrite Mem.memmove_spec by (done || unfold PGSIZE in *; lia). destruct (Ha q eq_refl); rewrite decide_False by lia; done.
  - intros o Ho. rewrite Mem.memmove_spec by (done || unfold PGSIZE in *; lia). rewrite decide_True by lia. f_equal. lia.
  - by apply Mem.mem_wf_memmove.
Qed.

Lemma uvm_mem s s' pgdir tabs pgs l l' : uvm s pgdir tabs pgs l -> rep s' l' -> kmem s' = kmem s -> l' ⊆ l -> uvm s' pgdir tabs pgs l'.
Proof. intros [_ Ha Hap] Hr Em Hl. split; [done|by rewrite Em|]. intros p Hp. apply Hap. by apply Hl. Qed.

(** A page [q] of the free list is filled and mapped. *)
Section copy_step.
Context (s0 : Kalloc.kst) (l0 : list Z) (pd : Z) (tabs : gmap Z Z) (pgs : pages) (d : Z) (s : Kalloc.kst) (tabsd : gmap Z Z) (pgsd : pages).
Context (q : Z) (l1 : list Z) (i p f : Z) (s2 s3 : Kalloc.kst) (tabs' : gmap Z Z) (l3 : list Z).
Context (Hc : copying s0 l0 pd tabs pgs d s tabsd pgsd (q :: l1) i) (Hi : pgs !! i = Some (p, f)).
Context (Hu3 : uvm s3 d tabs' (<[i := (q, f)]> pgsd) l3) (Hx : extends s2 d tabsd l1 s3 tabs' l3) (Hq : page_ok q).
Context (Hs2 : outside (kmem s) (kmem s2) (fun x => x = q)) (Hcopy : forall o, 0 <= o < PGSIZE -> rd8 (kmem s2) (q + o) = rd8 (kmem s) (p + o)).

Lemma step_l0 x : foot d tabs' (<[i := (q, f)]> pgsd) x -> x ∈ l0.
Proof.
  destruct Hc as [_ _ _ Ht Hfr _ _]. assert (forall y, foot d tabsd pgsd y -> y ∈ l0) as Hold by (intros y [? _]%Ht; done). intros [Hp|(va & g & H)].
  - destruct (ex_pages _ _ _ _ _ _ _ Hx x Hp) as [Hp'|Hp']; [apply Hold; by left|apply Hfr; by right].
  - apply lookup_insert_Some in H as [[_ [= <- _]]|[_ H]]; [apply Hfr; left|apply Hold; right; eauto].
Qed.

Lemma step_took x : foot d tabs' (<[i := (q, f)]> pgsd) x <-> took l0 l3 x.
Proof.
  destruct Hc as [_ Hch _ Ht Hfr _ Hcp]. split; [intros Hf; split; [by apply step_l0|]; intros Hl; by apply (u_apart _ _ _ _ _ Hu3 x Hl)|].
  intros [Hx0 Hx3]. destruct (decide (x ∈ q :: l1)) as [[->|Hl]%elem_of_cons|Hn].
  - right. exists i, f. apply lookup_insert_eq.
  - destruct (ex_used _ _ _ _ _ _ _ Hx x Hl); [done|by left].
  - destruct (proj2 (Ht x)) as [[->|[j Hj]]|(va & g & H)]; [by split|left; by left| |].
    + left. right. exists j. by eapply lookup_weaken; [|apply (ex_sub _ _ _ _ _ _ _ Hx)].
    + right. exists va, g. apply lookup_insert_Some. right. split; [|done]. intros <-. specialize (Hcp i). rewrite H in Hcp. lia.
Qed.

Lemma step_out : outside (kmem s) (kmem s3) (fun x => x = q \/ pt_pages d tabs' x).
Proof. eapply outside_trans; eapply outside_weaken; [exact Hs2|auto|apply (ex_out _ _ _ _ _ _ _ Hx)|auto]. Qed.

Lemma step_same x : page_ok x -> x <> q -> ~ pt_pages d tabs' x -> same_page (kmem s) (kmem s3) x.
Proof.
  intros Hok Hne Hnt. apply (outside_same kend _ _ _ x step_out Hok). intros y [->|Hy]; [done|]. split; [|by intros ->].
  eapply pt_pages_ok; [apply (u_asp _ _ _ _ _ Hu3)|done].
Qed.

Lemma step_copied : copied (kmem s3) pgs (<[i := (q, f)]> pgsd) (i + PGSIZE).
Proof.
  destruct Hc as [Hpar Hch Hap Ht Hfr _ Hcp]. pose proof (u_asp _ _ _ _ _ Hu3) as Ha3.
  assert (forall va p' g, pgs !! va = Some (p', g) -> same_page (kmem s) (kmem s3) p') as Hps.
  { intros va p' g H. assert (p' ∉ l0) as Hn by (apply Hap; right; eauto). apply step_same; [by apply (as_some _ _ _ _ Hpar) in H as (_ & _ & ? & _)|intros ->; apply Hn, Hfr; left|].
    intros Hy. apply Hn, step_l0. by left. }
  intros va. destruct (decide (va = i)) as [->|Hne].
  - rewrite lookup_insert_eq. split; [unfold PGSIZE; lia|]. exists p. split; [done|]. intros o Ho. rewrite (Hps i p f Hi (p + o)) by lia.
    assert (same_page (kmem s2) (kmem s3) q) as Hsq; [|rewrite (Hsq (q + o)) by lia; by apply Hcopy].
    apply (outside_same kend _ _ _ q (ex_out _ _ _ _ _ _ _ Hx) Hq). intros y Hy. split; [by eapply pt_pages_ok; [apply Ha3|]|]. intros ->.
    destruct (as_some _ _ _ _ Ha3 i q f) as (_ & _ & _ & _ & _ & _ & Hn); [apply lookup_insert_eq|done].
  - rewrite lookup_insert_ne by done. specialize (Hcp va). destruct (pgsd !! va) as [[q' g]|] eqn:E.
    + destruct Hcp as (Hlt & p' & Hp' & Heq). split; [unfold PGSIZE; lia|]. exists p'. split; [done|]. intros o Ho. rewrite (Hps va p' g Hp' (p' + o)) by lia.
      assert (<[i := (q, f)]> pgsd !! va = Some (q', g)) as E' by (by rewrite lookup_insert_ne). destruct (as_some _ _ _ _ Ha3 va q' g E') as (_ & _ & Hok' & _ & _ & _ & Hn).
      rewrite (step_same q' Hok') by (done || lia || (intros ->; apply Hne; eapply (as_inj _ _ _ _ Ha3); [exact E'|apply lookup_insert_eq])).
      by apply Heq.
    + intros Hlt. destruct (decide (va < i)); [by apply Hcp|]. destruct (pgs !! va) as [pf|] eqn:Ep; [|done]. exfalso.
      destruct (asp_aligned _ _ _ _ va Hpar) as [Hm _]; [by rewrite Ep|]. destruct (asp_aligned _ _ _ _ i Hpar) as [Hal _]; [by rewrite Hi|].
      unfold PGSIZE in *. apply Z.mod_divide in Hm as [x ->]; [|lia]. apply Z.mod_divide in Hal as [y ->]; lia.
Qed.

Lemma copying_step : copying s0 l0 pd tabs pgs d s3 tabs' (<[i := (q, f)]> pgsd) l3 (i + PGSIZE).
Proof.
  pose proof Hc as [Hpar Hch Hap Ht Hfr Ho _]. pose proof step_took as Htk. split; [|done|done|done| | |exact step_copied].
  - destruct (outside_foot (kmem s) (kmem s3) pd tabs pgs _ Hpar step_out) as [H _]; [|done]. intros y Hy. split; [destruct Hy as [->|Hy]; [done|]; by eapply pt_pages_ok; [apply (u_asp _ _ _ _ _ Hu3)|]|].
    intros Hf. apply (Hap y Hf). destruct Hy as [->|Hy]; [apply Hfr; left|apply step_l0; by left].
  - intros y Hy. apply Hfr. right. by apply (ex_free _ _ _ _ _ _ _ Hx).
  - eapply outside_trans; eapply outside_weaken; [exact Ho| |exact step_out|]; intros y Hy.
    + destruct Hy as [Hy0 Hy]. split; [done|]. intros H3. apply Hy. right. by apply (ex_free _ _ _ _ _ _ _ Hx).
    + apply Htk. destruct Hy as [->|Hy]; [right; exists i, f; apply lookup_insert_eq|by left].
Qed.
End copy_step.

(** A copy that failed: no page is free, and the child has all pages that were
    but perhaps one. *)
Definition copy_failed (s0 : Kalloc.kst) (l0 : list Z) (d sz : Z) (s : Kalloc.kst) : Prop :=
  exists tabsd pgsd x, uvm s d tabsd pgsd [] /\ convex 0 pgsd /\ (forall va, is_Some (pgsd !! va) -> va < sz) /\ outside (kmem s0) (kmem s) (fun p => p ∈ l0) /\
    forall p, p ∈ l0 <-> foot d tabsd pgsd p \/ p = x /\ p ∈ l0.

Lemma copied_convex m pgs pgsd i sz : copied m pgs pgsd i -> sized pgs sz -> i < sz + PGSIZE -> i mod PGSIZE = 0 -> convex 0 pgsd.
Proof.
  intros Hc Hs Hi Hal x y Hx Hxy [[q f] Hy]. pose proof (Hc y) as Hcy. rewrite Hy in Hcy. destruct Hcy as (Hlt & p & Hp & _). specialize (Hc x). destruct (pgsd !! x); [done|].
  exfalso. specialize (Hc ltac:(lia)). destruct (proj2 (Hs x Hx)) as [pf Hpf]; [|congruence].
  unfold PGSIZE in *. apply Z.mod_divide in Hx as [a ->]; [|lia]. apply Z.mod_divide in Hal as [b ->]; lia.
Qed.

Lemma copy_rest s0 l0 pd tabs pgs d s tabsd pgsd q l1 i s2 s3 tabs' x : copying s0 l0 pd tabs pgs d s tabsd pgsd (q :: l1) i ->
  extends s2 d tabsd l1 s3 tabs' [] -> x ∈ l0 <-> foot d tabs' pgsd x \/ x = q /\ x ∈ l0.
Proof.
  intros [_ _ _ Ht Hfr _ _] Hx. split.
  - intros H0. destruct (decide (x ∈ q :: l1)) as [[->|Hl]%elem_of_cons|Hn]; [by right|left; left; destruct (ex_used _ _ _ _ _ _ _ Hx x Hl) as [?%elem_of_nil|]; done|left].
    destruct (proj2 (Ht x)) as [[->|[j Hj]]|H]; [by split|left; by left|left; right; exists j; by eapply lookup_weaken; [|apply (ex_sub _ _ _ _ _ _ _ Hx)]|by right].
  - intros [[Hp|Hp]|[_ ?]]; [|apply Ht; by right|done]. destruct (ex_pages _ _ _ _ _ _ _ Hx x Hp); [apply Ht; by left|apply Hfr; by right].
Qed.

Lemma copy_page s0 l0 pd tabs pgs d s tabsd pgsd l i sz p f fuel : copying s0 l0 pd tabs pgs d s tabsd pgsd l i -> sized pgs sz ->
  pgs !! i = Some (p, f) -> i < sz ->
  (exists s' tabsd' l' q, Vm.copyuvm_loop (S fuel) pd d i sz s = Vm.copyuvm_loop fuel pd d (i + PGSIZE) sz s' /\
     copying s0 l0 pd tabs pgs d s' tabsd' (<[i := (q, f)]> pgsd) l' (i + PGSIZE)) \/
  (exists s', Vm.copyuvm_loop (S fuel) pd d i sz s = Ok false s' /\ copy_failed s0 l0 d sz s').
Proof.
  intros Hc Hsz Hi Hlt. pose proof Hc as [Hpar Hch Hap Ht Hfr Ho Hcp]. destruct (walk_user s pd tabs pgs i p f Hpar Hi) as (t & Et & Ew & Hz & Er).
  destruct (as_some _ _ _ _ Hpar i p f Hi) as (B1 & B2 & B3 & B4 & B5 & _). destruct (page_pa p f B3 B4) as (P1 & P2 & P3). destruct (v2p_page kend p B3) as (_ & Hpm & Hpr & _).
  assert (forall va, is_Some (pgsd !! va) -> va < sz) as Hbd by (intros va [[? ?] Hv]; specialize (Hcp va); rewrite Hv in Hcp; lia).
  assert (convex 0 pgsd) as Hcv by (eapply copied_convex; [done|done|unfold PGSIZE; lia|done]).
  cbn [Vm.copyuvm_loop]. rewrite (proj2 (Z.ltb_lt _ _) Hlt), (bind_ok_l _ _ _ _ _ Ew), (proj2 (Z.eqb_neq _ _) Hz). erewrite bind_ok_l by done. cbv beta.
  rewrite Er, land_add_flags, B5, P1, P3, PTE_FLAGS_add by (done || unfold PTE_P, PGSIZE; lia). cbn [negb]. destruct l as [|q l1].
  { right. destruct (Kalloc.kalloc_rep kend s [] (u_rep _ _ _ _ _ Hch)) as (s1 & E1 & Hr1 & _ & Em1). cbn [hd tl] in *. exists s1. rewrite (bind_ok_l _ _ _ _ _ E1). split; [done|].
    exists tabsd, pgsd, 0. split; [by eapply uvm_mem|]. split; [done|]. split; [done|]. rewrite Em1. split; [eapply outside_weaken; [exact Ho|intros ? [? _]; done]|]. intros x. rewrite Ht. unfold took.
    split; [intros ?; left; split; [done|apply not_elem_of_nil]|tauto]. }
  destruct (Kalloc.kalloc_rep kend s _ (u_rep _ _ _ _ _ Hch)) as (s1 & E1 & Hr1 & _ & Em1). cbn [hd tl] in *.
  assert (page_ok q) as Hq by (eapply rep_page_ok; [apply Hch|left]). pose proof (Kalloc.page_ok_range kend q Hq).
  assert (q ∉ l1) as Hq1 by (destruct (u_rep _ _ _ _ _ Hch) as (_ & Hnd & _); by apply NoDup_cons in Hnd as [? _]).
  assert (~ foot d tabsd pgsd q) as Hqf by (apply (u_apart _ _ _ _ _ Hch); left). assert (p <> q) as Hpq by (intros ->; apply (Hap q); [right; eauto|apply Hfr; left]).
  destruct (memmove_page (kmem s) q p) as (Hm1 & Hm2 & Hm3); try done; [by destruct (u_rep _ _ _ _ _ Hch) as (_ & _ & ? & _)|].
  rewrite (bind_ok_l _ _ _ _ _ E1). cbv beta. rewrite (proj2 (Z.eqb_neq q 0)) by lia. set (s2 := Kalloc.set_mem (Mem.memmove (kmem s) q p PGSIZE) s1).
  erewrite bind_ok_l; [|unfold Vm.memmove, modify; rewrite Em1; fold s2; reflexivity].
  assert (uvm s2 d tabsd pgsd l1) as Hu2.
  { split; [|apply (outside_foot _ _ _ _ _ _ (u_asp _ _ _ _ _ Hch) Hm1); by intros ? ->|intros x Hx; apply (u_apart _ _ _ _ _ Hch); by right].
    apply (rep_out s1 s2 l1 (fun x => x = q)); try done; [by cbn; rewrite Em1|by intros ? ->]. }
  assert (pgsd !! i = None) as Hni by (specialize (Hcp i); destruct (pgsd !! i) as [[? ?]|]; [lia|done]).
  destruct (map_user s2 d tabsd pgsd l1 i q f Hu2 Hq Hq1 Hqf B1 B2 Hni B4) as (r & s3 & tabs' & l3 & E3 & Hx & [(-> & _ & Hu3)|(-> & -> & -> & Hu3)]); rewrite (bind_ok_l _ _ _ _ _ E3); cbn [Z.ltb Z.compare].
  - left. rewrite lor_P_id in Hu3 by done. exists s3, tabs', l3, q. rewrite u32_small by (unfold PGSIZE, KERNBASE in *; lia). split; [done|]. by eapply copying_step.
  - right. exists s3. split; [done|]. exists tabs', pgsd, q. split; [done|]. split; [done|]. split; [done|]. split.
    + eapply outside_trans; [eapply outside_trans|]; eapply outside_weaken; [exact Ho|intros ? [? _]; done|exact Hm1|intros ? ->; apply Hfr; left|apply (ex_out _ _ _ _ _ _ _ Hx)|].
      intros x [Hy|Hy]%(ex_pages _ _ _ _ _ _ _ Hx); [apply Ht; by left|apply Hfr; by right].
    + intros x. eapply copy_rest; [exact Hc|exact Hx].
Qed.

Lemma copy_loop s0 l0 pd tabs pgs d sz fuel : sized pgs sz -> sz <= KERNBASE -> forall s tabsd pgsd l i, copying s0 l0 pd tabs pgs d s tabsd pgsd l i -> 0 <= i -> i mod PGSIZE = 0 ->
  i < sz + PGSIZE -> sz - i <= Z.of_nat fuel * PGSIZE ->
  (exists s' tabsd' pgsd' l' j, Vm.copyuvm_loop fuel pd d i sz s = Ok true s' /\ copying s0 l0 pd tabs pgs d s' tabsd' pgsd' l' j /\ sz <= j < sz + PGSIZE /\ j mod PGSIZE = 0) \/
  (exists s', Vm.copyuvm_loop fuel pd d i sz s = Ok false s' /\ copy_failed s0 l0 d sz s').
Proof.
  intros Hsz Hk. induction fuel as [|fuel IH]; intros s tabsd pgsd l i Hc Hi Hal His Hf.
  all: destruct (Z.ltb_spec i sz) as [Hlt|Hge]; [|left; exists s, tabsd, pgsd, l, i; cbn [Vm.copyuvm_loop]; rewrite (proj2 (Z.ltb_ge _ _) Hge); split_and!; (done || lia)].
  { lia. }
  destruct (proj2 (Hsz i Hal) ltac:(lia)) as [[p f] Hp].
  destruct (copy_page s0 l0 pd tabs pgs d s tabsd pgsd l i sz p f fuel Hc Hsz Hp Hlt) as [(s' & tabsd' & l' & q & -> & Hc')|(s' & E & Hfail)]; [|right; by exists s'].
  apply (IH s' tabsd' (<[i := (q, f)]> pgsd) l' (i + PGSIZE) Hc'); [unfold PGSIZE; lia|by apply aligned_next|lia|unfold PGSIZE in *; lia].
Qed.

(** A child's memory is the parent's. *)
Lemma copied_bytes m pgs pgsd i sz : copied m pgs pgsd i -> sized pgs sz -> (forall va, is_Some (pgs !! va) -> va mod PGSIZE = 0) -> sz <= i ->
  sized pgsd sz /\ (forall va, ubyte m pgsd va = ubyte m pgs va) /\ forall va, snd <$> pgsd !! va = snd <$> pgs !! va.
Proof.
  intros Hc Hs Hall Hi. assert (forall va, pgsd !! va = None <-> pgs !! va = None) as Hn.
  { intros va. specialize (Hc va). destruct (pgsd !! va) as [[q f]|]; [destruct Hc as (_ & p & -> & _); split; discriminate|]. split; [intros _|done].
    destruct (decide (va < i)); [by apply Hc|]. destruct (pgs !! va) as [pf|] eqn:E; [|done]. exfalso. assert (0 <= va < sz); [|lia].
    apply Hs; [apply Hall|]; rewrite E; done. }
  split; [|split].
  - intros va Hva. rewrite <- (Hs va Hva). rewrite <- !not_eq_None_Some. by rewrite Hn.
  - intros va. unfold ubyte. pose proof (Hn (va - va mod PGSIZE)) as Hv. specialize (Hc (va - va mod PGSIZE)). pose proof (Z.mod_pos_bound va PGSIZE ltac:(done)).
    destruct (pgsd !! _) as [[q f]|]; [destruct Hc as (_ & p & -> & Heq); cbn; by rewrite Heq|]. by rewrite (proj1 Hv).
  - intros va. pose proof (Hn va) as Hv. specialize (Hc va). destruct (pgsd !! va) as [[q f]|]; [by destruct Hc as (_ & p & -> & _)|]. by rewrite (proj1 Hv).
Qed.

(** Pages that were not free keep their contents. *)
Lemma frame s s' l pgdir tabs pgs : rep s l -> asp (kmem s) pgdir tabs pgs -> (forall p, foot pgdir tabs pgs p -> p ∉ l) ->
  outside (kmem s) (kmem s') (fun p => p ∈ l) -> asp (kmem s') pgdir tabs pgs /\ forall va, ubyte (kmem s') pgs va = ubyte (kmem s) pgs va.
Proof.
  intros Hr Ha Hap Ho. destruct (outside_foot _ _ _ _ _ _ Ha Ho) as [Ha' Hs]; [intros q Hq; split; [by eapply rep_page_ok|intros Hf; by apply (Hap q)]|].
  split; [done|]. intros va. apply ubyte_same. intros b p f H. apply Hs. right. eauto.
Qed.

Lemma copy_bound s d tabs pgs x l sz : uvm s d tabs pgs [] -> (forall va, is_Some (pgs !! va) -> va < sz) -> 0 <= sz <= KERNBASE -> NoDup l ->
  (forall p, p ∈ l <-> foot d tabs pgs p \/ p = x /\ p ∈ l) -> Z.of_nat (length l) <= 1026 + PGROUNDUP sz / PGSIZE.
Proof.
  intros Hu Hb Hk Hnd Hl. pose proof (u_asp _ _ _ _ _ Hu) as Ha. destruct (PGROUNDUP_bounds sz) as [Hr Hal]; [unfold KERNBASE, PGSIZE in *; lia|].
  pose proof (foot_bound _ _ _ pgs l [x] (as_pt _ _ _ _ Ha) Hnd) as Hf. assert ((length l <= 1025 + size pgs + 1)%nat) as Hn.
  { apply Hf. intros p Hp. apply Hl in Hp as [?|[-> _]]; [by left|right; left]. }
  assert (size pgs <= Z.to_nat (PGROUNDUP sz / PGSIZE))%nat as Hs; [|pose proof (Z.div_pos (PGROUNDUP sz) PGSIZE ltac:(lia) ltac:(done)); lia].
  apply sized_size. intros va Hva. destruct (asp_aligned _ _ _ _ va Ha Hva) as [Hm Hv]. split; [done|]. specialize (Hb va Hva).
  rewrite Z2Nat.id by (apply Z.div_pos; [lia|done]). unfold PGSIZE in *. apply Z.mod_divide in Hal as [k Ek]; [|lia]. rewrite Ek in *. rewrite Z.div_mul by lia. lia.
Qed.

Lemma copyuvm_spec s l pd tabs pgs sz : rep s l -> asp (kmem s) pd tabs pgs -> (forall p, foot pd tabs pgs p -> p ∉ l) -> sized pgs sz -> 0 <= sz <= KERNBASE ->
  exists r s' l', Vm.copyuvm kend kdata pd sz s = Ok r s' /\ rep s' l' /\ l' ⊆ l /\ outside (kmem s) (kmem s') (fun p => p ∈ l) /\
    (r = 0 /\ Z.of_nat (length l) <= 1026 + PGROUNDUP sz / PGSIZE /\ (l' = [] \/ exists x, forall p, p ∈ l -> p ∈ l' \/ p = x) \/
     exists tabsd pgsd, r <> 0 /\ uvm s' r tabsd pgsd l' /\ (forall p, foot r tabsd pgsd p <-> took l l' p) /\ sized pgsd sz /\
       (forall va, ubyte (kmem s') pgsd va = ubyte (kmem s) pgs va) /\ forall va, snd <$> pgsd !! va = snd <$> pgs !! va).
Proof.
  intros Hr Hpar Hap Hsz Hk. unfold Vm.copyuvm. destruct (setupkvm_spec s l Hr) as (d & s1 & l1 & E1 & Hr1 & Hl1 & Ho1 & Hd). rewrite (bind_ok_l _ _ _ _ _ E1).
  assert (forall P : Z -> Prop, (forall q, P q -> q ∈ l) -> outside (kmem s) (kmem s1) P -> asp (kmem s1) pd tabs pgs) as Hpar1.
  { intros P HP Ho. apply (frame s s1 l); try done. by eapply outside_weaken. }
  destruct Hd as [(-> & -> & Hlen)|(tabsd & Hd & Hu & Hpt)].
  { exists 0, s1, []. split; [done|]. split; [done|]. split; [done|]. split; [eapply outside_weaken; [exact Ho1|by intros ? [? _]]|]. left. split; [done|]. split; [|by left].
    destruct (PGROUNDUP_bounds sz) as [Hb _]; [unfold KERNBASE, PGSIZE in *; lia|]. pose proof (Z.div_pos (PGROUNDUP sz) PGSIZE ltac:(lia) ltac:(done)). lia. }
  rewrite (proj2 (Z.eqb_neq _ _) Hd). assert (copying s l pd tabs pgs d s1 tabsd ∅ l1 0) as Hc.
  { split; try done; [apply (Hpar1 (took l l1)); [by intros ? [? _]|done]| |].
    - intros p. rewrite <- Hpt. unfold foot. split; [intros [?|(? & ? & ?)]; done|by left].
    - intros va. rewrite lookup_empty. intros Hva. destruct (pgs !! va) as [pf|] eqn:E; [|done]. destruct (asp_aligned _ _ _ _ va Hpar) as [_ ?]; [by rewrite E|lia]. }
  destruct (copy_loop s l pd tabs pgs d sz (Z.to_nat (sz / PGSIZE) + 1) Hsz ltac:(lia) s1 tabsd ∅ l1 0 Hc) as [(s2 & tabs2 & pgs2 & l2 & j & E2 & Hc2 & Hj & Hjal)|(s2 & E2 & Hfail)];
    [lia|done|unfold PGSIZE; lia|pose proof (Z.div_mod sz PGSIZE); pose proof (Z.mod_pos_bound sz PGSIZE); unfold PGSIZE in *; lia| |]; rewrite (bind_ok_l _ _ _ _ _ E2); cbv iota.
  - destruct Hc2 as [C1 C2 C3 C4 C5 C6 C7]. exists d, s2, l2. split; [done|]. split; [apply C2|]. split; [done|]. assert (outside (kmem s) (kmem s2) (fun p => p ∈ l)) as Ho by (eapply outside_weaken; [exact C6|by intros ? [? _]]).
    split; [done|]. right. exists tabs2, pgs2. split; [done|]. split; [done|]. split; [done|].
    destruct (copied_bytes _ _ _ _ sz C7 Hsz) as (K1 & K2 & K3); [intros va Hva; by apply (asp_aligned _ _ _ _ va Hpar)|lia|]. split; [done|]. split; [|done].
    intros va. rewrite K2. by apply (frame s s2 l pd tabs pgs).
  - destruct Hfail as (tabs2 & pgs2 & x & Hu2 & Hcv & Hb2 & Ho2 & Hl2). destruct (freevm_spec s2 d tabs2 pgs2 [] Hu2 Hcv) as (s3 & l3 & E3 & Hr3 & Hl3 & Ho3).
    rewrite (bind_ok_l _ _ _ _ _ E3). exists 0, s3, l3. split; [done|]. split; [done|]. assert (forall p, foot d tabs2 pgs2 p -> p ∈ l) as Hfl by (intros p Hp; apply Hl2; by left).
    split; [intros p Hp; apply Hl3 in Hp as [?%elem_of_nil|Hp]; [done|by apply Hfl]|]. split; [eapply outside_trans; [exact Ho2|eapply outside_weaken; [exact Ho3|done]]|].
    left. split; [done|]. split; [by eapply copy_bound; try apply Hr|]. right. exists x. intros p Hp. rewrite Hl3. apply Hl2 in Hp as [?|[? _]]; [left; by right|by right].
Qed.

(** ** allocuvm *)

Definition UFLAGS : Z := PTE_W .| PTE_U .| PTE_P.

(** User pages from [a] to [b] are added to an address space, zeroed and
    writable; what was there is unchanged. *)
Record grown_to (s : Kalloc.kst) (pgdir : Z) (tabs : gmap Z Z) (pgs : pages) (l : list Z)
    (s' : Kalloc.kst) (tabs' : gmap Z Z) (pgs' : pages) (l' : list Z) (a b : Z) : Prop := MkGrown {
  gt_uvm : uvm s' pgdir tabs' pgs' l';
  gt_old : forall va, va < a \/ b <= va -> pgs' !! va = pgs !! va;
  gt_new : forall va, a <= va < b -> va mod PGSIZE = 0 -> exists p, pgs' !! va = Some (p, UFLAGS) /\ forall o, 0 <= o < PGSIZE -> rd8 (kmem s') (p + o) = 0;
  gt_same : forall va p f, pgs !! va = Some (p, f) -> same_page (kmem s) (kmem s') p;
  gt_took : forall x, foot pgdir tabs' pgs' x <-> foot pgdir tabs pgs x \/ took l l' x;
  gt_pt : forall x, pt_pages pgdir tabs' x -> pt_pages pgdir tabs x \/ x ∈ l;
  gt_free : l' ⊆ l;
  gt_out : outside (kmem s) (kmem s') (fun x => pt_pages pgdir tabs x \/ x ∈ l)
}.

Lemma alloc_took s2 s' pgdir tabs pgs l tabs' l' a p f x : extends s2 pgdir tabs l s' tabs' l' -> uvm s' pgdir tabs' (<[a := (p, f)]> pgs) l' -> pgs !! a = None ->
  foot pgdir tabs' (<[a := (p, f)]> pgs) x <-> foot pgdir tabs pgs x \/ took (p :: l) l' x.
Proof.
  intros Hx Hu Hn. split.
  - intros Hf. assert (x ∉ l') as Hx' by (intros H; by apply (u_apart _ _ _ _ _ Hu x H)).
    destruct Hf as [Hp|(b & g & [[_ [= <- _]]|[_ H]]%lookup_insert_Some)]; [|right; split; [left|done]|left; right; eauto].
    destruct (ex_pages _ _ _ _ _ _ _ Hx x Hp); [left; by left|right; split; [by right|done]].
  - intros [[[->|[j Hj]]|(b & g & H)]|[[->|Hl]%elem_of_cons Hx']].
    + left. by left.
    + left. right. exists j. by eapply lookup_weaken; [|apply (ex_sub _ _ _ _ _ _ _ Hx)].
    + right. exists b, g. rewrite lookup_insert_ne; [done|congruence].
    + right. exists a, f. apply lookup_insert_eq.
    + destruct (ex_used _ _ _ _ _ _ _ Hx x Hl); [done|by left].
Qed.

Lemma alloc_page s pgdir tabs pgs l a : uvm s pgdir tabs pgs l -> pgs !! a = None -> 0 <= a < KERNBASE -> a mod PGSIZE = 0 -> (2 <= length l)%nat ->
  exists s1 s2 s' mem tabs' pgs' l', Kalloc.kalloc s = Ok mem s1 /\ mem <> 0 /\ Vm.memset mem 0 PGSIZE s1 = Ok tt s2 /\
    Vm.mappages pgdir a PGSIZE (v2p mem) (PTE_W .| PTE_U) s2 = Ok 0 s' /\
    grown_to s pgdir tabs pgs l s' tabs' pgs' l' a (a + PGSIZE) /\ (length l <= length l' + 2)%nat.
Proof.
  intros Hu Hn Ha Hal Hl. destruct l as [|p l]; [cbn in Hl; lia|]. pose proof Hu as [Hr Hasp Hap].
  destruct (kalloc_zero s p l Hr) as (s1 & E1 & Em & Hr1 & Hp & Hpl & Hz & Hr2 & Ho). set (s2 := Kalloc.set_mem (Mem.memset (kmem s) p 0 PGSIZE) s1) in *.
  assert (~ foot pgdir tabs pgs p) as Hpf by (apply Hap; left).
  destruct (outside_foot _ (kmem s2) _ _ _ _ Hasp Ho) as [Ha2 Hs2]; [by intros q ->|].
  assert (uvm s2 pgdir tabs pgs l) as Hu2 by (split; [done|done|intros q Hq; apply Hap; by right]).
  destruct (map_user s2 pgdir tabs pgs l a p (PTE_W .| PTE_U) Hu2 Hp Hpl Hpf Ha Hal Hn ltac:(done)) as (r & s' & tabs' & l' & E3 & Hx & Hres).
  destruct Hres as [(-> & Hlen & Hu')|(_ & -> & _)]; [|cbn in Hl; lia].
  exists s1, s2, s', p, tabs', (<[a := (p, UFLAGS)]> pgs), l'. split; [done|]. split; [done|]. split; [unfold Vm.memset, modify; by rewrite Em|]. split; [done|]. split; [|cbn; lia].
  pose proof (u_asp _ _ _ _ _ Hu') as Ha'. assert (forall b q f, <[a := (p, UFLAGS)]> pgs !! b = Some (q, f) -> same_page (kmem s2) (kmem s') q) as Hq.
  { intros b q f H. destruct (as_some _ _ _ _ Ha' b q f H) as (_ & _ & Hqo & _ & _ & _ & Hnt). apply (outside_same kend _ _ _ q (ex_out _ _ _ _ _ _ _ Hx) Hqo).
    intros y Hy. split; [by eapply pt_pages_ok; [apply Ha'|]|]. by intros ->. }
  split; [done| | | | | | |].
  - intros va Hva. rewrite lookup_insert_ne; [done|]. unfold PGSIZE in *. lia.
  - intros va Hva Hvm. assert (va = a) as -> by (unfold PGSIZE in *; apply Z.mod_divide in Hvm as [x ->]; [|lia]; apply Z.mod_divide in Hal as [y ->]; lia).
    exists p. rewrite lookup_insert_eq. split; [done|]. intros o Hoo. rewrite (Hq a p UFLAGS (lookup_insert_eq _ _ _) (p + o)) by lia. cbn. pose proof (Kalloc.page_ok_range kend p Hp).
    rewrite Mem.memset_spec by (unfold PGSIZE in *; lia). by rewrite decide_True by lia.
  - intros va q f H x Hxr. assert (va <> a) by congruence. rewrite (Hq va q f) by (done || by rewrite lookup_insert_ne). apply (Hs2 q); [right; eauto|done].
  - intros x. by apply (alloc_took s2 s').
  - intros x Hxp. destruct (ex_pages _ _ _ _ _ _ _ Hx x Hxp); [by left|right; by right].
  - intros x Hxl. right. by apply (ex_free _ _ _ _ _ _ _ Hx).
  - eapply outside_trans; eapply outside_weaken; [exact Ho|intros ? ->; right; left|apply (ex_out _ _ _ _ _ _ _ Hx)|]. intros x [?|?]%(ex_pages _ _ _ _ _ _ _ Hx); [by left|right; by right].
Qed.

Lemma grown_to_refl s pgdir tabs pgs l a : uvm s pgdir tabs pgs l -> grown_to s pgdir tabs pgs l s tabs pgs l a a.
Proof. intros Hu. split; try done; try lia; [intros x; unfold took; tauto|by left]. Qed.

Lemma grown_to_trans s pgdir tabs pgs l s1 tabs1 pgs1 l1 s2 tabs2 pgs2 l2 a b c : a <= b <= c -> b mod PGSIZE = 0 -> (forall va, a <= va -> pgs !! va = None) ->
  grown_to s pgdir tabs pgs l s1 tabs1 pgs1 l1 a b -> grown_to s1 pgdir tabs1 pgs1 l1 s2 tabs2 pgs2 l2 b c -> grown_to s pgdir tabs pgs l s2 tabs2 pgs2 l2 a c.
Proof.
  intros Habc Hb Hno [A1 A2 A3 A4 A5 A8 A6 A7] [B1 B2 B3 B4 B5 B8 B6 B7]. assert (forall va pf, pgs !! va = Some pf -> pgs1 !! va = Some pf) as Hsub.
  { intros va pf H. destruct (decide (a <= va)) as [Hle|]; [rewrite Hno in H; done|]. rewrite A2 by lia. done. }
  split; [done| | | | | | |].
  - intros va Hva. rewrite B2, A2 by lia. done.
  - intros va Hva Hal. destruct (decide (va < b)); [|apply B3; [lia|done]]. destruct (A3 va) as (p & Hp & Hz); [lia|done|]. exists p. rewrite B2 by lia. split; [done|].
    intros o Ho. rewrite (B4 va p UFLAGS) by (done || lia). by apply Hz.
  - intros va p f H x Hx. rewrite (B4 va p f) by (done || by apply Hsub). by apply (A4 va p f).
  - intros x. rewrite B5, A5. unfold took. pose proof (A6 x). pose proof (B6 x). destruct (decide (x ∈ l1)); tauto.
  - intros x Hx. destruct (B8 x Hx) as [Hx1|Hx1]; [by apply A8|right; by apply A6].
  - by transitivity l1.
  - eapply outside_trans; [exact A7|eapply outside_weaken; [exact B7|]]. intros x [Hx|Hx]; [by apply A8|right; by apply A6].
Qed.

Lemma alloc_loop pgdir oldsz newsz fuel : 0 <= newsz < KERNBASE -> forall k s tabs pgs l a, uvm s pgdir tabs pgs l -> 0 <= a -> a mod PGSIZE = 0 ->
  (forall va, a <= va -> pgs !! va = None) -> PGROUNDUP newsz = a + Z.of_nat k * PGSIZE -> (k <= fuel)%nat -> (2 * k <= length l)%nat ->
  exists s' tabs' pgs' l', Vm.allocuvm_loop kend fuel pgdir a oldsz newsz s = Ok newsz s' /\ grown_to s pgdir tabs pgs l s' tabs' pgs' l' a (PGROUNDUP newsz) /\ (length l <= length l' + 2 * k)%nat.
Proof.
  intros Hk. destruct (PGROUNDUP_bounds newsz) as [Hb _]; [unfold KERNBASE, PGSIZE in *; lia|]. unfold PGSIZE in Hb.
  induction fuel as [|fuel IH]; intros k s tabs pgs l a Hu Ha Hal Hno Hd Hf Hl.
  all: destruct k as [|k]; [exists s, tabs, pgs, l; assert (PGROUNDUP newsz = a) as Ea by lia; rewrite Ea; cbn [Vm.allocuvm_loop]; rewrite (proj2 (Z.ltb_ge _ _)) by lia; split; [done|]; split; [by apply grown_to_refl|lia]|].
  { lia. }
  assert (a < newsz) as Hlt by (unfold PGSIZE in *; lia). destruct (alloc_page s pgdir tabs pgs l a Hu) as (s1 & s2 & s3 & m & tabs3 & pgs3 & l3 & E1 & Hm & E2 & E3 & Hg & Hl3); [apply Hno; lia|lia|done|lia|].
  destruct (IH k s3 tabs3 pgs3 l3 (a + PGSIZE)) as (s' & tabs' & pgs' & l' & E & Hg' & Hl'); [apply Hg|unfold PGSIZE; lia|by apply aligned_next| |unfold PGSIZE in *; lia|lia|lia|].
  { intros va Hva. rewrite (gt_old _ _ _ _ _ _ _ _ _ _ _ Hg) by lia. apply Hno. unfold PGSIZE in *. lia. }
  exists s', tabs', pgs', l'. split; [|split; [|lia]].
  - cbn [Vm.allocuvm_loop]. rewrite (proj2 (Z.ltb_lt _ _) Hlt), (bind_ok_l _ _ _ _ _ E1), (proj2 (Z.eqb_neq _ _) Hm), (bind_ok_l _ _ _ _ _ E2), (bind_ok_l _ _ _ _ _ E3).
    rewrite u32_small by (unfold KERNBASE, PGSIZE in *; lia). exact E.
  - eapply grown_to_trans; [|by apply aligned_next|exact Hno|exact Hg|exact Hg']. unfold PGSIZE in *. lia.
Qed.

(** ** copyout *)

(** User memory from [va] on is [b], and otherwise as before. *)
Definition upd_bytes (f : Z -> option Z) (va : Z) (b : bytes) (x : Z) : option Z :=
  if decide (va <= x < va + Z.of_nat (length b)) then Some (nth (Z.to_nat (x - va)) b 0) else f x.

(** The pages of user memory. *)
Definition upages (pgs : pages) (q : Z) : Prop := exists a f, pgs !! a = Some (q, f).

(** The user may use the pages of [va .. va + n). *)
Definition user_range (pgs : pages) (va n : Z) : Prop := forall x, va <= x < va + n -> exists p f, pgs !! (x - x mod PGSIZE) = Some (p, f) /\ truthy (f .& PTE_U) = true.

Lemma uva2ka_user s pgdir tabs pgs va p f : asp (kmem s) pgdir tabs pgs -> pgs !! va = Some (p, f) -> truthy (f .& PTE_U) = true ->
  Vm.uva2ka pgdir va s = Ok p s.
Proof.
  intros Ha H HU. destruct (walk_user s pgdir tabs pgs va p f Ha H) as (t & _ & Ew & Hz & Er). destruct (as_some _ _ _ _ Ha va p f H) as (_ & _ & B3 & B4 & B5 & _).
  destruct (page_pa p f B3 B4) as (P1 & _ & P3). destruct (v2p_page kend p B3) as (_ & Hpm & Hpr & _).
  unfold Vm.uva2ka. rewrite (bind_ok_l _ _ _ _ _ Ew), (proj2 (Z.eqb_neq _ _) Hz). erewrite bind_ok_l by done. cbv beta.
  rewrite Er, !land_add_flags, B5, HU, P1, P3 by (done || unfold PTE_P, PTE_U, PGSIZE; lia). done.
Qed.

(** Bytes stored in a user page. *)
Lemma store_user s pgdir tabs pgs l a p f off b : uvm s pgdir tabs pgs l -> pgs !! a = Some (p, f) -> 0 <= off -> off + Z.of_nat (length b) <= PGSIZE -> bytes_wf b ->
  let s' := Kalloc.set_mem (store_bytes (kmem s) (p + off) b) s in
  uvm s' pgdir tabs pgs l /\ outside (kmem s) (kmem s') (upages pgs) /\ forall x, ubyte (kmem s') pgs x = upd_bytes (ubyte (kmem s) pgs) (a + off) b x.
Proof.
  intros [Hr Ha Hap] H Hoff Hlen Hb s'. destruct (as_some _ _ _ _ Ha a p f H) as (B1 & B2 & B3 & B4 & B5 & _ & B7).
  assert (outside (kmem s) (kmem s') (fun q => q = p)) as Ho.
  { intros x Hx. cbn. rewrite rd8_store_bytes by done. case_decide; [|done]. destruct (Hx p eq_refl); unfold PGSIZE in *; lia. }
  split_and!.
  - split; [|apply (asp_same (kmem s)); [done|]; intros q Hq; apply (outside_same kend _ _ _ q Ho); [by eapply pt_pages_ok; [apply Ha|]|by intros ? ->; split; [|intros ->]]|done].
    apply (rep_out s s' l (fun q => q = p)); try done; [|intros ? ->; split; [done|intros Hx; apply (Hap p Hx); right; eauto]]. cbn. apply mem_wf_store_bytes, Hr.
  - eapply outside_weaken; [exact Ho|]. intros ? ->. by exists a, f.
  - intros x. unfold ubyte, upd_bytes. pose proof (Z.mod_pos_bound x PGSIZE ltac:(done)) as Hm. assert (a + off <= x < a + off + Z.of_nat (length b) -> x - x mod PGSIZE = a) as Hin.
    { intros Hx. unfold PGSIZE in *. apply Z.mod_divide in B2 as [k ->]; [|lia]. rewrite (Z.mod_eq x 4096) by lia. replace (x / 4096) with k by (apply (Z.div_unique _ _ _ (x - k * 4096)); lia). lia. }
    destruct (decide (x - x mod PGSIZE = a)) as [Ea|Ea].
    + rewrite Ea, H. cbn [fmap option_fmap option_map fst]. cbn. rewrite rd8_store_bytes by done. replace (p + x mod PGSIZE - (p + off)) with (x - (a + off)) by lia.
      repeat case_decide; (done || lia).
    + rewrite decide_False by tauto. destruct (pgs !! (x - x mod PGSIZE)) as [[q g]|] eqn:E; [|done]. cbn [fmap option_fmap option_map fst]. f_equal.
      assert (same_page (kmem s) (kmem s') q) as Hq; [|apply Hq; lia]. apply (outside_same kend _ _ _ q Ho); [by apply (as_some _ _ _ _ Ha) in E as (_ & _ & ? & _)|].
      intros ? ->. split; [done|]. intros ->. apply Ea. by eapply (as_inj _ _ _ _ Ha).
Qed.

Lemma upd_split f va b n x : (n <= length b)%nat ->
  upd_bytes (upd_bytes f va (take n b)) (va + Z.of_nat n) (drop n b) x = upd_bytes f va b x.
Proof.
  intros Hn. unfold upd_bytes. rewrite length_drop, length_take, Nat.min_l by lia. repeat case_decide; try lia; try done; f_equal.
  - rewrite nth_skipn. f_equal. lia.
  - rewrite <- (take_drop n b) at 2. rewrite app_nth1; [done|]. rewrite length_take. lia.
Qed.

Lemma upd_ext f g va b x : f x = g x -> upd_bytes f va b x = upd_bytes g va b x.
Proof. intros H. unfold upd_bytes. by case_decide. Qed.

Lemma upd_nil f va x : upd_bytes f va [] x = f x.
Proof. unfold upd_bytes. rewrite decide_False; [done|cbn; lia]. Qed.

Lemma copyout_loop_spec pgdir tabs pgs l fuel : forall s va b, uvm s pgdir tabs pgs l -> 0 <= va -> va + Z.of_nat (length b) <= KERNBASE -> bytes_wf b ->
  user_range pgs va (Z.of_nat (length b)) -> (length b <= fuel)%nat ->
  exists s', Vm.copyout_loop fuel pgdir va b (Z.of_nat (length b)) s = Ok 0 s' /\ uvm s' pgdir tabs pgs l /\
    outside (kmem s) (kmem s') (upages pgs) /\ forall x, ubyte (kmem s') pgs x = upd_bytes (ubyte (kmem s) pgs) va b x.
Proof.
  induction fuel as [|fuel IH]; intros s va b Hu Hva Hend Hb Hur Hf; (destruct b as [|c b]; [exists s; split; [done|]; split; [done|]; split; [done|]; intros x; unfold upd_bytes; by rewrite decide_False by (cbn; lia)|]).
  { cbn in Hf. lia. }
  set (bb := c :: b) in *. assert (0 < Z.of_nat (length bb)) as Hpos by (cbn; lia). cbn [Vm.copyout_loop]. rewrite (proj2 (Z.ltb_lt _ _) Hpos).
  destruct (PGROUNDDOWN_bounds va) as [Hbd Hal]; [unfold KERNBASE in *; lia|]. set (va0 := PGROUNDDOWN va) in *.
  assert (va - va mod PGSIZE = va0) as Ev by (unfold va0; rewrite PGROUNDDOWN_spec, Z.mod_eq by (done || unfold KERNBASE in *; lia); lia).
  destruct (Hur va ltac:(lia)) as (p & f & Hp & HU). rewrite Ev in Hp. destruct (as_some _ _ _ _ (u_asp _ _ _ _ _ Hu) va0 p f Hp) as (B1 & _ & B3 & _). pose proof (Kalloc.page_ok_range kend p B3).
  rewrite (bind_ok_l _ _ _ _ _ (uva2ka_user s pgdir tabs pgs va0 p f (u_asp _ _ _ _ _ Hu) Hp HU)), (proj2 (Z.eqb_neq p 0)) by lia.
  set (n := if Z.of_nat (length bb) <? PGSIZE - (va - va0) then Z.of_nat (length bb) else PGSIZE - (va - va0)).
  assert (0 < n <= Z.of_nat (length bb) /\ n <= PGSIZE - (va - va0) /\ (n = Z.of_nat (length bb) \/ n = PGSIZE - (va - va0))) as (Hn1 & Hn2 & Hn3) by (unfold n; destruct (Z.ltb_spec (Z.of_nat (length bb)) (PGSIZE - (va - va0))); lia).
  clearbody n. assert (length (take (Z.to_nat n) bb) = Z.to_nat n) as Elen by (rewrite length_take; lia).
  assert (bytes_wf (take (Z.to_nat n) bb)) as Hbt by (by apply Forall_take).
  destruct (store_user s pgdir tabs pgs l va0 p f (va - va0) (take (Z.to_nat n) bb) Hu Hp) as (Hu1 & Ho1 & Hx1); [lia|rewrite Elen; lia|done|].
  set (s1 := Kalloc.set_mem _ s) in *. erewrite bind_ok_l by done. fold s1.
  assert (Z.of_nat (length (drop (Z.to_nat n) bb)) = Z.of_nat (length bb) - n) as Edr by (rewrite length_drop; lia). rewrite <- Edr.
  replace (va0 + (va - va0)) with va in Hx1 by lia. rewrite u32_small by (unfold KERNBASE, PGSIZE in *; lia).
  pose proof (fun x => upd_split (ubyte (kmem s) pgs) va bb (Z.to_nat n) x ltac:(lia)) as Hsp. rewrite Z2Nat.id in Hsp by lia. destruct Hn3 as [Hn3|Hn3].
  - assert (drop (Z.to_nat n) bb = []) as E0 by (apply nil_length_inv; lia). rewrite E0 in *. exists s1. split; [by destruct fuel|]. split; [done|]. split; [done|].
    intros x. by rewrite Hx1, <- Hsp, upd_nil.
  - assert (va0 + PGSIZE = va + n) as -> by lia. destruct (IH s1 (va + n) (drop (Z.to_nat n) bb) Hu1) as (s' & E & Hu' & Ho' & Hx'); [lia|lia|by apply Forall_drop|intros x Hx; apply Hur; lia|lia|].
    exists s'. split; [done|]. split; [done|]. split; [by eapply outside_trans|]. intros x. rewrite Hx', <- Hsp. by apply upd_ext.
Qed.

(** ** Sizes *)

Lemma sized_convex pgs sz : sized pgs sz -> (forall va, is_Some (pgs !! va) -> va mod PGSIZE = 0) -> convex 0 pgs.
Proof. intros Hs Ha x y Hx Hxy Hy. apply (Hs x Hx). pose proof (proj1 (Hs y (Ha y Hy)) Hy). lia. Qed.

Lemma round_pages a b : 0 <= a <= b -> b < KERNBASE -> exists k, PGROUNDUP b = PGROUNDUP a + Z.of_nat k * PGSIZE /\ PGROUNDUP a mod PGSIZE = 0 /\
  (k <= Z.to_nat (b / PGSIZE) + 1)%nat /\ a <= PGROUNDUP a < a + PGSIZE /\ b <= PGROUNDUP b < b + PGSIZE.
Proof.
  intros Hab Hb. destruct (PGROUNDUP_bounds a) as [Ha Hal]; [unfold KERNBASE, PGSIZE in *; lia|]. destruct (PGROUNDUP_bounds b) as [Hb' Hbl]; [unfold KERNBASE, PGSIZE in *; lia|].
  pose proof (Z.div_mod b PGSIZE ltac:(done)) as Ed. pose proof (Z.mod_pos_bound b PGSIZE ltac:(done)).
  unfold PGSIZE in *. apply Z.mod_divide in Hal as [x Ex]; [|lia]. apply Z.mod_divide in Hbl as [y Ey]; [|lia]. exists (Z.to_nat (y - x)).
  rewrite Ex, Ey in *. split; [lia|]. split; [apply Z.mod_mul; lia|]. split; [lia|]. split; lia.
Qed.

Lemma page_of x : (x - x mod PGSIZE) mod PGSIZE = 0 /\ x - x mod PGSIZE <= x < x - x mod PGSIZE + PGSIZE.
Proof.
  pose proof (Z.mod_pos_bound x PGSIZE ltac:(done)). split; [|lia]. unfold PGSIZE in *. rewrite Zminus_mod_idemp_r, Z.sub_diag. done.
Qed.

Lemma grown_sized s pgdir tabs pgs l s' tabs' pgs' l' oldsz newsz : grown_to s pgdir tabs pgs l s' tabs' pgs' l' (PGROUNDUP oldsz) (PGROUNDUP newsz) ->
  sized pgs oldsz -> oldsz <= newsz -> 0 <= oldsz -> oldsz <= PGROUNDUP oldsz < oldsz + PGSIZE -> newsz <= PGROUNDUP newsz < newsz + PGSIZE ->
  PGROUNDUP oldsz mod PGSIZE = 0 -> PGROUNDUP newsz mod PGSIZE = 0 -> sized pgs' newsz.
Proof.
  intros Hg Hs Hle H0 Ho Hn Hol Hnl va Hva. destruct (decide (PGROUNDUP oldsz <= va < PGROUNDUP newsz)) as [Hin|Hout].
  - destruct (gt_new _ _ _ _ _ _ _ _ _ _ _ Hg va Hin Hva) as (p & -> & _). split; [intros _|done].
    unfold PGSIZE in *. apply Z.mod_divide in Hva as [x ->]; [|lia]. apply Z.mod_divide in Hnl as [y Ey]; lia.
  - rewrite (gt_old _ _ _ _ _ _ _ _ _ _ _ Hg va) by lia. rewrite (Hs va Hva).
    unfold PGSIZE in *. apply Z.mod_divide in Hva as [x ->]; [|lia]. apply Z.mod_divide in Hol as [y Ey]; [|lia]. apply Z.mod_divide in Hnl as [z Ez]; lia.
Qed.

Lemma grown_bytes s pgdir tabs pgs l s' tabs' pgs' l' a b : grown_to s pgdir tabs pgs l s' tabs' pgs' l' a b -> a mod PGSIZE = 0 -> b mod PGSIZE = 0 ->
  (forall va, va < a -> ubyte (kmem s') pgs' va = ubyte (kmem s) pgs va) /\ forall va, a <= va < b -> ubyte (kmem s') pgs' va = Some 0.
Proof.
  intros Hg Ha Hb. split; intros va Hva; unfold ubyte; destruct (page_of va) as [Hm Hr]; pose proof (Z.mod_pos_bound va PGSIZE ltac:(done)).
  - rewrite (gt_old _ _ _ _ _ _ _ _ _ _ _ Hg) by lia. destruct (pgs !! _) as [[p f]|] eqn:E; [|done]. cbn. f_equal. apply (gt_same _ _ _ _ _ _ _ _ _ _ _ Hg _ p f E). lia.
  - destruct (gt_new _ _ _ _ _ _ _ _ _ _ _ Hg (va - va mod PGSIZE)) as (p & -> & Hz); [|done|cbn; by rewrite Hz].
    unfold PGSIZE in *. apply Z.mod_divide in Hm as [x Ex]; [|lia]. apply Z.mod_divide in Ha as [y ->]; [|lia]. apply Z.mod_divide in Hb as [z ->]; lia.
Qed.

(** [allocuvm] with two free pages for each page it adds. *)
Lemma allocuvm_grown s pgdir tabs pgs l oldsz newsz : uvm s pgdir tabs pgs l -> sized pgs oldsz -> 0 <= oldsz <= newsz -> newsz < KERNBASE ->
  2 * (PGROUNDUP newsz - PGROUNDUP oldsz) <= Z.of_nat (length l) * PGSIZE ->
  exists s' tabs' pgs' l', Vm.allocuvm kend pgdir oldsz newsz s = Ok newsz s' /\ grown_to s pgdir tabs pgs l s' tabs' pgs' l' (PGROUNDUP oldsz) (PGROUNDUP newsz) /\ sized pgs' newsz /\
    Z.of_nat (length l) * PGSIZE <= Z.of_nat (length l') * PGSIZE + 2 * (PGROUNDUP newsz - PGROUNDUP oldsz).
Proof.
  intros Hu Hs Ho Hn Hl. unfold Vm.allocuvm. rewrite (proj2 (Z.leb_gt _ _)), (proj2 (Z.ltb_ge _ _)) by lia. destruct (round_pages oldsz newsz) as (k & Hk & Hal & Hfuel & Hbo & Hbn); [lia|lia|].
  destruct (alloc_loop pgdir oldsz newsz (Z.to_nat (newsz / PGSIZE) + 1) ltac:(lia) k s tabs pgs l (PGROUNDUP oldsz) Hu) as (s' & tabs' & pgs' & l' & E & Hg & Hl');
    [lia|done| |done|done|unfold PGSIZE in *; lia|].
  { intros va Hva. destruct (pgs !! va) as [pf|] eqn:Ev; [|done]. destruct (asp_aligned _ _ _ _ va (u_asp _ _ _ _ _ Hu)) as [Hm _]; [by rewrite Ev|].
    assert (0 <= va < oldsz); [apply Hs; [done|by rewrite Ev]|lia]. }
  assert (PGROUNDUP newsz mod PGSIZE = 0) as Hnl by (rewrite Hk; by apply aligned_add). exists s', tabs', pgs', l'. split; [done|]. split; [done|].
  split; [eapply grown_sized; (done || lia)|]. unfold PGSIZE in *. lia.
Qed.

(** ** A page out of reach of the user *)

Definition no_user (f : Z) : Z := f .& Z.lnot PTE_U.

Lemma no_user_page a f : a mod PGSIZE = 0 -> 0 <= f < PGSIZE -> (a + f) .& Z.lnot PTE_U = a + no_user f /\ 0 <= no_user f < PGSIZE /\
  (truthy (f .& PTE_P) = true -> truthy (no_user f .& PTE_P) = true) /\ truthy (no_user f .& PTE_U) = false.
Proof.
  intros Ha Hf. assert (0 <= no_user f < PGSIZE) as Hn.
  { unfold no_user. rewrite <- (Z.mod_small f (2 ^ 12)), <- (Z.land_ones f 12), <- Z.land_assoc, (Z.land_comm (Z.ones 12)), Z.land_assoc, Z.land_ones by (done || unfold PGSIZE in *; lia). by apply Z.mod_pos_bound. }
  split; [|split; [done|]].
  - rewrite <- !lor_flags by done. unfold no_user. rewrite Z.land_lor_distr_l. f_equal. unfold PGSIZE in Ha. apply Z.mod_divide in Ha as [k ->]; [|lia].
    change PTE_U with (2 ^ 2). apply Z.bits_inj'. intros n Hn'. rewrite Z.land_spec, Z.lnot_spec, Z.pow2_bits_eqb by lia. destruct (Z.eqb_spec 2 n) as [<-|]; [|by rewrite andb_true_r].
    change 4096 with (2 ^ 12). by rewrite Z.mul_pow2_bits_low by lia.
  - unfold no_user, truthy. split.
    + intros HP. rewrite <- Z.land_assoc. by change (Z.lnot PTE_U .& PTE_P) with PTE_P.
    + rewrite <- Z.land_assoc. change (Z.lnot PTE_U .& PTE_U) with 0. by rewrite Z.land_0_r.
Qed.

(** New flags for a page. *)
Lemma asp_flags m m' pgdir tabs pgs va p f g : asp m pgdir tabs pgs -> pt_ok m' pgdir tabs -> pgs !! va = Some (p, f) -> 0 <= g < PGSIZE -> truthy (g .& PTE_P) = true ->
  (forall va', 0 <= va' < 2 ^ 32 -> va' mod PGSIZE = 0 -> pte_of m' tabs va' = if decide (va' = va) then v2p p + g else pte_of m tabs va') ->
  asp m' pgdir tabs (<[va := (p, g)]> pgs).
Proof.
  intros Ha Hpt H Hg HP Hpte. pose proof (as_some _ _ _ _ Ha va p f H) as (B1 & B2 & B3 & B4 & B5 & B6 & B7).
  destruct Ha as [A1 A2 A3 A5 A4]. split; [done| | | |].
  - intros va' p' f' [[<- [= <- <-]]|[Hne H']]%lookup_insert_Some; [rewrite Hpte, decide_True by (done || unfold KERNBASE in *; lia); split_and!; try done; lia|].
    destruct (A2 va' p' f' H') as (C1 & C2 & C). rewrite Hpte, decide_False by (done || unfold KERNBASE in *; lia). done.
  - intros va' H1 H2 [H3 H4]%lookup_insert_None. rewrite Hpte, decide_False by (done || unfold KERNBASE in *; lia). by apply A3.
  - intros va' H1 H2. rewrite Hpte, decide_False by (done || unfold KERNBASE in *; lia). by apply A5.
  - intros a b q h h' Hx Hy. assert (exists h1, pgs !! a = Some (q, h1)) as [h1 Hx1].
    { apply lookup_insert_Some in Hx as [[<- [= <- <-]]|[_ ?]]; eauto. }
    assert (exists h2, pgs !! b = Some (q, h2)) as [h2 Hy2] by (apply lookup_insert_Some in Hy as [[<- [= <- <-]]|[_ ?]]; eauto). by eapply A4.
Qed.

Lemma clear_page s pgdir tabs pgs l va p f : uvm s pgdir tabs pgs l -> pgs !! va = Some (p, f) ->
  exists s', Vm.clearpteu pgdir va s = Ok tt s' /\ uvm s' pgdir tabs (<[va := (p, no_user f)]> pgs) l /\ outside (kmem s) (kmem s') (pt_pages pgdir tabs) /\
    (forall x, ubyte (kmem s') (<[va := (p, no_user f)]> pgs) x = ubyte (kmem s) pgs x) /\
    forall x, foot pgdir tabs (<[va := (p, no_user f)]> pgs) x <-> foot pgdir tabs pgs x.
Proof.
  intros Hu H. destruct (walk_user _ _ _ _ _ _ _ (u_asp _ _ _ _ _ Hu) H) as (t & Et & Ew & Hz & Er). pose proof Hu as [Hr Ha Hap]. pose proof (as_some _ _ _ _ Ha va p f H) as (B1 & B2 & B3 & B4 & B5 & B6 & B7).
  destruct (v2p_page kend p B3) as (_ & Hpm & Hpr & _). destruct (no_user_page (v2p p) f Hpm B4) as (En & Hn & HnP & _).
  destruct (set_pte kend s pgdir tabs l va t (v2p p + no_user f) (uvm_vok _ _ _ _ _ Hu) Et ltac:(unfold PHYSTOP, PGSIZE in *; lia)) as (s' & E2 & [Gok _ _ _ _ Gout] & Hpte).
  assert (forall x, foot pgdir tabs (<[va := (p, no_user f)]> pgs) x <-> foot pgdir tabs pgs x) as Hft.
  { intros x. unfold foot. split; (intros [Hx|(b & g & Hx)]; [by left|right]).
    - apply lookup_insert_Some in Hx as [[<- [= <- <-]]|[_ ?]]; eauto.
    - destruct (decide (b = va)) as [->|]; [rewrite H in Hx; injection Hx as <- <-; exists va, (no_user f); apply lookup_insert_eq|exists b, g; by rewrite lookup_insert_ne]. }
  assert (asp (kmem s') pgdir tabs (<[va := (p, no_user f)]> pgs)) as Ha'.
  { apply (asp_flags (kmem s) _ _ _ _ va p f); [done|apply Gok|done|done|by apply HnP|]. intros va' H1 H2. rewrite Hpte.
    pose proof (aligned_same va' va H1 ltac:(unfold KERNBASE in *; lia) H2 B2). repeat case_decide; tauto. }
  exists s'. split; [|split; [split; [apply Gok|done|intros q Hq Hx; by apply (Hap q Hq), Hft]|]; split; [done|]; split; [|done]].
  - unfold Vm.clearpteu. rewrite (bind_ok_l _ _ _ _ _ Ew), (proj2 (Z.eqb_neq _ _) Hz). erewrite bind_ok_l by done. cbv beta. by rewrite Er, En.
  - intros x. transitivity (ubyte (kmem s') pgs x).
    + unfold ubyte. destruct (decide (x - x mod PGSIZE = va)) as [->|]; [rewrite lookup_insert_eq, H; done|by rewrite lookup_insert_ne].
    + apply ubyte_same. intros b q g Hq. destruct (as_some _ _ _ _ Ha b q g Hq) as (_ & _ & Hqo & _ & _ & _ & Hnt). apply (outside_same kend _ _ _ q Gout Hqo).
      intros y Hy. split; [by eapply pt_pages_ok; [apply Ha|]|by intros ->].
Qed.

(** [copyout] to a page out of reach does nothing and fails. *)
Lemma copyout_guard s pgdir tabs pgs va b p f : asp (kmem s) pgdir tabs pgs -> 0 <= va < KERNBASE -> b <> [] -> pgs !! (va - va mod PGSIZE) = Some (p, f) -> truthy (f .& PTE_U) = false ->
  Vm.copyout pgdir va b (Z.of_nat (length b)) s = Ok (-1) s.
Proof.
  intros Ha Hva Hb H HU. unfold Vm.copyout. rewrite Nat2Z.id. destruct b as [|c b]; [done|]. cbn [length Vm.copyout_loop]. rewrite (proj2 (Z.ltb_lt _ _)) by lia.
  assert (PGROUNDDOWN va = va - va mod PGSIZE) as -> by (rewrite PGROUNDDOWN_spec, Z.mod_eq by (done || unfold KERNBASE in *; lia); lia).
  destruct (walk_user s pgdir tabs pgs _ p f Ha H) as (t & _ & Ew & Hz & Er). destruct (as_some _ _ _ _ Ha _ p f H) as (_ & _ & B3 & B4 & B5 & _).
  destruct (v2p_page kend p B3) as (_ & Hpm & Hpr & _). erewrite bind_ok_l; cycle 1.
  - unfold Vm.uva2ka. rewrite (bind_ok_l _ _ _ _ _ Ew), (proj2 (Z.eqb_neq _ _) Hz). erewrite bind_ok_l by done. cbv beta.
    rewrite Er, !land_add_flags, B5, HU by (done || unfold PTE_P, PTE_U, PGSIZE; lia). reflexivity.
  - done.
Qed.
End uvm.
