(* ===== verification/UvmSpec.v ===== *)
(** * What user processes see of their memory

    The theorems on address spaces: copying for [fork], giving back for [wait],
    growing for [sbrk], and writing for [exec]. *)

From S2P Require Import Prelude Memory Layout Cstring Spinlock Kalloc Vm VmSpec Uvm.

#[local] Abbreviation kmem := Kalloc.kmem_mem.

Section spec.
Context (kend kdata : Z).
Context (Hkend : KERNLINK < kend) (Hkdata : kdata mod PGSIZE = 0 /\ KERNLINK < kdata < KERNBASE + PHYSTOP).
#[local] Abbreviation rep := (Kalloc.rep kend).
#[local] Abbreviation asp := (asp kend kdata).
#[local] Abbreviation uvm := (uvm kend kdata).

(** C17: [copyuvm] never panics on the memory of a process: it returns a new page
    directory whose kernel part is that of [kmap] and whose user part has the
    same size, the same bytes and the same flags, in pages that were free, or 0
    when the free pages do not suffice; the memory of the parent stays the same.
    More than 1026 free pages beside the size of the process suffice.  When it
    fails after [setupkvm] at most one page is lost, when it fails in [setupkvm]
    all free pages are. *)
Theorem copyuvm_correct s l pd tabs pgs sz : rep s l -> asp (kmem s) pd tabs pgs -> (forall p, foot pd tabs pgs p -> p ∉ l) ->
  sized pgs sz -> 0 <= sz <= KERNBASE ->
  exists r s' l', Vm.copyuvm kend kdata pd sz s = Ok r s' /\ rep s' l' /\
    asp (kmem s') pd tabs pgs /\ (forall va, ubyte (kmem s') pgs va = ubyte (kmem s) pgs va) /\
    (1026 + PGROUNDUP sz / PGSIZE < Z.of_nat (length l) -> r <> 0) /\
    (r = 0 -> l' = [] \/ exists x, forall p, p ∈ l -> p ∈ l' \/ p = x) /\
    (r <> 0 -> exists tabsd pgsd, uvm s' r tabsd pgsd l' /\ (forall p, foot r tabsd pgsd p <-> took l l' p) /\ sized pgsd sz /\
       (forall va, ubyte (kmem s') pgsd va = ubyte (kmem s) pgs va) /\ forall va, snd <$> pgsd !! va = snd <$> pgs !! va).
Proof.
  intros Hr Ha Hap Hs Hk. destruct (copyuvm_spec kend kdata Hkend Hkdata s l pd tabs pgs sz Hr Ha Hap Hs Hk) as (r & s' & l' & E & Hr' & _ & Ho & Hres).
  exists r, s', l'. split; [done|]. split; [done|]. destruct (frame kend kdata s s' l pd tabs pgs Hr Ha Hap Ho) as [Ha' Hb']. split; [done|]. split; [done|].
  destruct Hres as [(-> & Hlen & Hl)|(tabsd & pgsd & Hne & Hchild)]; split_and!; try done; try lia. intros _. by exists tabsd, pgsd.
Qed.

(** The memory of a child is given back in full: [copyuvm] with enough free
    pages followed by [freevm] of the copy leaves exactly the pages free that
    were free before, and the memory of the parent as it was. *)
Theorem copyuvm_freevm s l pd tabs pgs sz : rep s l -> asp (kmem s) pd tabs pgs -> (forall p, foot pd tabs pgs p -> p ∉ l) ->
  sized pgs sz -> 0 <= sz <= KERNBASE -> 1026 + PGROUNDUP sz / PGSIZE < Z.of_nat (length l) ->
  exists s' l', (d ← Vm.copyuvm kend kdata pd sz; Vm.freevm kend d) s = Ok tt s' /\ rep s' l' /\ l' ≡ₚ l /\
    asp (kmem s') pd tabs pgs /\ forall va, ubyte (kmem s') pgs va = ubyte (kmem s) pgs va.
Proof.
  intros Hr Ha Hap Hs Hk Hlen. destruct (copyuvm_spec kend kdata Hkend Hkdata s l pd tabs pgs sz Hr Ha Hap Hs Hk) as (r & s1 & l1 & E & Hr1 & Hl1 & Ho & Hres).
  destruct Hres as [(_ & ? & _)|(tabsd & pgsd & Hne & Hu & Ht & Hsd & _)]; [lia|]. rewrite (bind_ok_l _ _ _ _ _ E).
  destruct (freevm_spec kend kdata Hkend Hkdata s1 r tabsd pgsd l1 Hu) as (s2 & l2 & E2 & Hr2 & Hl2 & Ho2); [eapply sized_convex; [done|]; intros va; apply (asp_aligned kend kdata _ _ _ _ va (u_asp _ _ _ _ _ _ _ Hu))|].
  exists s2, l2. split; [done|]. split; [done|]. split.
  - apply NoDup_Permutation; [apply Hr2|apply Hr|]. intros p. rewrite Hl2, Ht. unfold took. pose proof (Hl1 p). destruct (decide (p ∈ l1)); tauto.
  - apply (frame kend kdata s s2 l); try done. eapply outside_trans; [exact Ho|eapply outside_weaken; [exact Ho2|]]. by intros q [? _]%Ht.
Qed.

(** [allocuvm] refuses sizes that reach the kernel and does not shrink; with
    two free pages for each page asked for it returns the new size, with the old
    pages as they were and the new ones zeroed and writable. *)
Theorem allocuvm_correct s pgdir tabs pgs l oldsz newsz : uvm s pgdir tabs pgs l -> sized pgs oldsz -> 0 <= oldsz -> 0 <= newsz ->
  (KERNBASE <= newsz -> Vm.allocuvm kend pgdir oldsz newsz s = Ok 0 s) /\
  (newsz < oldsz -> newsz < KERNBASE -> Vm.allocuvm kend pgdir oldsz newsz s = Ok oldsz s) /\
  (oldsz <= newsz < KERNBASE -> 2 * (PGROUNDUP newsz - PGROUNDUP oldsz) <= Z.of_nat (length l) * PGSIZE ->
   exists s' tabs' pgs' l', Vm.allocuvm kend pgdir oldsz newsz s = Ok newsz s' /\ uvm s' pgdir tabs' pgs' l' /\ sized pgs' newsz /\
     (forall va, va < PGROUNDUP oldsz -> ubyte (kmem s') pgs' va = ubyte (kmem s) pgs va) /\
     (forall va, PGROUNDUP oldsz <= va < PGROUNDUP newsz -> ubyte (kmem s') pgs' va = Some 0) /\
     forall x, foot pgdir tabs' pgs' x <-> foot pgdir tabs pgs x \/ took l l' x).
Proof.
  intros Hu Hs Ho Hn. split_and!.
  - intros Hk. unfold Vm.allocuvm. by rewrite (proj2 (Z.leb_le _ _) Hk).
  - intros Hlt Hk. unfold Vm.allocuvm. by rewrite (proj2 (Z.leb_gt _ _) Hk), (proj2 (Z.ltb_lt _ _) Hlt).
  - intros Hr Hl. destruct (allocuvm_grown kend kdata Hkend Hkdata s pgdir tabs pgs l oldsz newsz Hu Hs) as (s' & tabs' & pgs' & l' & E & Hg & Hs' & _); [lia|lia|done|].
    destruct (round_pages oldsz newsz) as (k & Hk & Hal & _); [lia|lia|]. assert (PGROUNDUP newsz mod PGSIZE = 0) as Hnl by (rewrite Hk; by apply aligned_add).
    exists s', tabs', pgs', l'. split; [done|]. split; [apply Hg|]. split; [done|]. destruct (grown_bytes _ _ _ _ _ _ _ _ _ _ _ _ _ Hg) as [H1 H2]; [done|done|].
    split; [done|]. split; [done|]. apply Hg.
Qed.

End spec.

(** ** An example: the memory of a first process *)

Module UvmEx.
Definition kend : Z := 0x80110000.
Definition kdata : Z := 0x80108000.
Definition s0 : Kalloc.kst := Kalloc.MkKst false false 0 ∅.

Lemma uhkend : KERNLINK < kend.
Proof. reflexivity. Qed.

Lemma uhkdata : kdata mod PGSIZE = 0 /\ KERNLINK < kdata < KERNBASE + PHYSTOP.
Proof. repeat split. Qed.

(** Memory after [kinit], a page directory, and one page of user memory. *)
Lemma first_space : exists s l d tabs pgs, Uvm.uvm kend kdata s d tabs pgs l /\ sized pgs PGSIZE /\ 3000 <= Z.of_nat (length l) /\ ubyte (kmem s) pgs 7 = Some 0 /\
  user_range pgs 0 PGSIZE /\ (forall p, p ∈ l -> 0x80400000 <= p) /\ forall p, foot d tabs pgs p -> 0x80400000 <= p.
Proof.
  destruct (Kalloc.freerange_rep kend s0 [] 0x80400000 0x81400000) as (s1 & _ & Hr1 & _).
  { split; [done|]. split; [constructor|]. split; [apply mem_wf_empty|done]. }
  { unfold kend. lia. }
  { unfold KERNBASE. lia. }
  { unfold KERNBASE, PHYSTOP. lia. }
  { reflexivity. }
  { intros a Ha%elem_of_nil. done. }
  rewrite app_nil_r in Hr1. set (l1 := rev _) in Hr1. assert (forall p, p ∈ l1 -> 0x80400000 <= p) as Hlo.
  { intros p Hp. apply list_elem_of_In, in_rev, list_elem_of_In, Kalloc.elem_of_range_pages in Hp as (_ & Hp & _); done. }
  assert (Z.of_nat (length l1) = 4096) as Hl1 by (vm_compute; done). clearbody l1.
  destruct (setupkvm_spec kend kdata uhkdata s1 l1 Hr1) as (d & s2 & l2 & _ & Hr2 & Hs2 & _ & [(_ & _ & ?)|(tabs & _ & Hu & Ht)]); [lia|].
  assert (length l1 <= 1025 + 0 + length l2)%nat as Hl2.
  { change 0%nat with (size (∅ : pages)). apply (foot_bound kend (kmem s2) d tabs ∅); [apply Hu|apply Hr1|]. intros p Hp.
    destruct (decide (p ∈ l2)); [by right|left; left]. apply Ht. by split. }
  destruct (alloc_page kend kdata uhkend uhkdata s2 d tabs ∅ l2 0 Hu) as (s3 & s4 & s5 & m & tabs5 & pgs5 & l5 & _ & _ & _ & _ & Hg & Hl5); [done|done|done|lia|].
  exists s5, l5, d, tabs5, pgs5. split; [apply Hg|]. destruct (grown_bytes _ _ _ _ _ _ _ _ _ _ _ _ _ Hg) as [_ Hz]; [done|done|].
  assert (forall va, va mod PGSIZE = 0 -> is_Some (pgs5 !! va) <-> 0 <= va < PGSIZE) as Hs.
  { intros va Hva. destruct (decide (0 <= va < PGSIZE)) as [Hin|Hout].
    - destruct (gt_new _ _ _ _ _ _ _ _ _ _ _ _ _ Hg va Hin Hva) as (p & -> & _). done.
    - rewrite (gt_old _ _ _ _ _ _ _ _ _ _ _ _ _ Hg va) by lia. rewrite lookup_empty. split; [by intros [? ?]|lia]. }
  split; [done|]. split; [lia|]. split; [apply Hz; done|]. split.
  - intros x Hx. rewrite Z.mod_small by lia. rewrite Z.sub_diag.
    destruct (gt_new _ _ _ _ _ _ _ _ _ _ _ _ _ Hg 0) as (p & -> & _); [done|done|]. by exists p, UFLAGS.
  - split; intros p Hp; [apply Hlo, Hs2; by apply (gt_free _ _ _ _ _ _ _ _ _ _ _ _ _ Hg)|].
    apply (gt_took _ _ _ _ _ _ _ _ _ _ _ _ _ Hg) in Hp as [[Hp|(va & f & Hp)]|[Hp _]]; [by apply Hlo, Ht|by rewrite lookup_empty in Hp|by apply Hlo, Hs2].
Qed.
End UvmEx.

Lemma copyuvm_correct_witness : exists s d r s', Vm.copyuvm UvmEx.kend UvmEx.kdata d PGSIZE s = Ok r s' /\ r <> 0.
Proof.
  destruct UvmEx.first_space as (s & l & d & tabs & pgs & [Hr Ha Hap] & Hs & Hl & Hb & _).
  destruct (copyuvm_correct UvmEx.kend UvmEx.kdata UvmEx.uhkend UvmEx.uhkdata s l d tabs pgs PGSIZE Hr Ha) as (r & s' & l' & E & _ & _ & _ & Hne & _).
  - intros p Hp Hx. exact (Hap p Hx Hp).
  - exact Hs.
  - unfold PGSIZE, KERNBASE. lia.
  - exists s, d, r, s'. split; [exact E|]. apply Hne. change (PGROUNDUP PGSIZE / PGSIZE) with 1. lia.
Defined.

Lemma copyuvm_freevm_witness : exists s d s', (c ← Vm.copyuvm UvmEx.kend UvmEx.kdata d PGSIZE; Vm.freevm UvmEx.kend c) s = Ok tt s'.
Proof.
  destruct UvmEx.first_space as (s & l & d & tabs & pgs & [Hr Ha Hap] & Hs & Hl & Hb & _).
  destruct (copyuvm_freevm UvmEx.kend UvmEx.kdata UvmEx.uhkend UvmEx.uhkdata s l d tabs pgs PGSIZE Hr Ha) as (s' & l' & E & _).
  - intros p Hp Hx. exact (Hap p Hx Hp).
  - exact Hs.
  - unfold PGSIZE, KERNBASE. lia.
  - change (PGROUNDUP PGSIZE / PGSIZE) with 1. lia.
  - exists s, d, s'. exact E.
Defined.

Lemma allocuvm_correct_witness : exists s d s', Vm.allocuvm UvmEx.kend d PGSIZE (PGSIZE + 1) s = Ok (PGSIZE + 1) s' /\ Vm.allocuvm UvmEx.kend d PGSIZE KERNBASE s = Ok 0 s.
Proof.
  destruct UvmEx.first_space as (s & l & d & tabs & pgs & Hu & Hs & Hl & Hb & _).
  destruct (allocuvm_correct UvmEx.kend UvmEx.kdata UvmEx.uhkend UvmEx.uhkdata s d tabs pgs l PGSIZE (PGSIZE + 1) Hu Hs) as (_ & _ & H); [discriminate|discriminate|].
  destruct (allocuvm_correct UvmEx.kend UvmEx.kdata UvmEx.uhkend UvmEx.uhkdata s d tabs pgs l PGSIZE KERNBASE Hu Hs) as (Hk & _ & _); [discriminate|discriminate|].
  destruct H as (s' & tabs' & pgs' & l' & E & _); [unfold PGSIZE, KERNBASE; lia|change (PGROUNDUP (PGSIZE + 1)) with 8192; change (PGROUNDUP PGSIZE) with 4096; unfold PGSIZE; lia|].
  exists s, d, s'. split; [exact E|]. apply Hk. lia.
Defined.

