(* ===== verification/Proc.v ===== *)
(** * proc.c: the process table

    The process table and the CPU's view of it: allocation of slots, sleep and
    wakeup, the scheduler, kill, and the parts of exit and wait that work on
    the table, each as it runs with ptable.lock held.  Kern.v adds the calls
    into memory, files and the file system that fork, exit and wait make. *)

From S2P Require Import Prelude Memory Layout Cstring Spinlock.

(** [enum procstate] *)
Inductive procstate := UNUSED | EMBRYO | SLEEPING | RUNNABLE | RUNNING | ZOMBIE.

#[global] Instance procstate_eq_dec : EqDecision procstate.
Proof. solve_decision. Defined.

(** [struct proc]; pointers to processes, files and inodes are table indices,
    [tf] and [context] addresses in the kernel stack. *)
Record proc := MkProc {
  sz : Z;
  pgdir : Z;
  kstack : Z;
  state : procstate;
  pid : Z;
  parent : option nat;
  tf : Z;
  context : Z;
  pchan : option chan;
  killed : bool;
  ofile : list (option nat);
  cwd : option nat;
  name : bytes
}.

Definition set_sz (x : Z) (p : proc) : proc :=
  MkProc x (pgdir p) (kstack p) (state p) (pid p) (parent p) (tf p) (context p) (pchan p) (killed p) (ofile p) (cwd p) (name p).
Definition set_pgdir (x : Z) (p : proc) : proc :=
  MkProc (sz p) x (kstack p) (state p) (pid p) (parent p) (tf p) (context p) (pchan p) (killed p) (ofile p) (cwd p) (name p).
Definition set_kstack (x : Z) (p : proc) : proc :=
  MkProc (sz p) (pgdir p) x (state p) (pid p) (parent p) (tf p) (context p) (pchan p) (killed p) (ofile p) (cwd p) (name p).
Definition set_state (x : procstate) (p : proc) : proc :=
  MkProc (sz p) (pgdir p) (kstack p) x (pid p) (parent p) (tf p) (context p) (pchan p) (killed p) (ofile p) (cwd p) (name p).
Definition set_pid (x : Z) (p : proc) : proc :=
  MkProc (sz p) (pgdir p) (kstack p) (state p) x (parent p) (tf p) (context p) (pchan p) (killed p) (ofile p) (cwd p) (name p).
Definition set_parent (x : option nat) (p : proc) : proc :=
  MkProc (sz p) (pgdir p) (kstack p) (state p) (pid p) x (tf p) (context p) (pchan p) (killed p) (ofile p) (cwd p) (name p).
Definition set_tf (x : Z) (p : proc) : proc :=
  MkProc (sz p) (pgdir p) (kstack p) (state p) (pid p) (parent p) x (context p) (pchan p) (killed p) (ofile p) (cwd p) (name p).
Definition set_context (x : Z) (p : proc) : proc :=
  MkProc (sz p) (pgdir p) (kstack p) (state p) (pid p) (parent p) (tf p) x (pchan p) (killed p) (ofile p) (cwd p) (name p).
Definition set_pchan (x : option chan) (p : proc) : proc :=
  MkProc (sz p) (pgdir p) (kstack p) (state p) (pid p) (parent p) (tf p) (context p) x (killed p) (ofile p) (cwd p) (name p).
Definition set_killed (x : bool) (p : proc) : proc :=
  MkProc (sz p) (pgdir p) (kstack p) (state p) (pid p) (parent p) (tf p) (context p) (pchan p) x (ofile p) (cwd p) (name p).
Definition set_ofile (x : list (option nat)) (p : proc) : proc :=
  MkProc (sz p) (pgdir p) (kstack p) (state p) (pid p) (parent p) (tf p) (context p) (pchan p) (killed p) x (cwd p) (name p).
Definition set_cwd (x : option nat) (p : proc) : proc :=
  MkProc (sz p) (pgdir p) (kstack p) (state p) (pid p) (parent p) (tf p) (context p) (pchan p) (killed p) (ofile p) x (name p).
Definition set_name (x : bytes) (p : proc) : proc :=
  MkProc (sz p) (pgdir p) (kstack p) (state p) (pid p) (parent p) (tf p) (context p) (pchan p) (killed p) (ofile p) (cwd p) x.

(** A slot of the table at boot. *)
Definition proc0 : proc :=
  MkProc 0 0 0 UNUSED 0 None 0 0 None false (replicate NOFILE None) None (replicate 16 0).

#[global] Instance proc_inhabited : Inhabited proc := populate proc0.

Module Proc.

(** [ptable], [nextpid], [initproc], and the CPU the code runs on: its
    interrupt nesting and the variable [proc]. *)
Record ptable := MkPt {
  procs : list proc;
  plock : bool;
  nextpid : Z;
  initproc : option nat;
  pcpu : Cli.cpu;
  curproc : option nat
}.

Definition set_procs (x : list proc) (s : ptable) : ptable :=
  MkPt x (plock s) (nextpid s) (initproc s) (pcpu s) (curproc s).
Definition set_plock (x : bool) (s : ptable) : ptable :=
  MkPt (procs s) x (nextpid s) (initproc s) (pcpu s) (curproc s).
Definition set_nextpid (x : Z) (s : ptable) : ptable :=
  MkPt (procs s) (plock s) x (initproc s) (pcpu s) (curproc s).
Definition set_initproc (x : option nat) (s : ptable) : ptable :=
  MkPt (procs s) (plock s) (nextpid s) x (pcpu s) (curproc s).
Definition set_pcpu (x : Cli.cpu) (s : ptable) : ptable :=
  MkPt (procs s) (plock s) (nextpid s) (initproc s) x (curproc s).
Definition set_curproc (x : option nat) (s : ptable) : ptable :=
  MkPt (procs s) (plock s) (nextpid s) (initproc s) (pcpu s) x.

Definition pat (i : nat) : M ptable proc := gets (fun s => procs s !!! i).
Definition pupd (i : nat) (f : proc -> proc) : M ptable unit :=
  modify (fun s => set_procs (alter f i (procs s)) s).

(** The current process; it is an error to use it when there is none. *)
Definition cur : M ptable nat :=
  c ← gets curproc;
  match c with Some i => mret i | None => fault end.

(** [acquire(&ptable.lock)] and [release(&ptable.lock)] *)
Definition acquire : M ptable unit :=
  modify (fun s => set_pcpu (Cli.pushcli (pcpu s)) s);;
  Seq.acquire plock set_plock.
Definition release : M ptable unit :=
  Seq.release plock set_plock;;
  zoom pcpu set_pcpu Cli.popcli.

Definition pinit : M ptable unit := modify (set_plock false).

(** The first process of the table that satisfies [f]. *)
Fixpoint find_proc (f : proc -> bool) (i : nat) (l : list proc) : option nat :=
  match l with
  | [] => None
  | p :: l' => if f p then Some i else find_proc f (S i) l'
  end.

(** [allocproc] until it lets go of the table. *)
Definition alloc_slot : M ptable (option nat) :=
  acquire;;
  ps ← gets procs;
  match find_proc (fun p => bool_decide (state p = UNUSED)) 0 ps with
  | None => release;; mret None
  | Some i =>
      n ← gets nextpid;
      pupd i (fun p => set_pid n (set_state EMBRYO p));;
      modify (set_nextpid (s32 (n + 1)));;
      release;;
      mret (Some i)
  end.

(** [wakeup1] *)
Definition wake (c : chan) (p : proc) : proc :=
  if bool_decide (state p = SLEEPING) && bool_decide (pchan p = Some c) then set_state RUNNABLE p else p.
Definition wakeup1 (c : chan) : M ptable unit := modify (fun s => set_procs (wake c <$> procs s) s).

Definition wakeup (c : chan) : M ptable unit :=
  acquire;;
  wakeup1 c;;
  release.

Definition kill (n : Z) : M ptable Z :=
  acquire;;
  ps ← gets procs;
  match find_proc (fun p => pid p =? n) 0 ps with
  | Some i =>
      pupd i (fun p => let p := set_killed true p in
                       if bool_decide (state p = SLEEPING) then set_state RUNNABLE p else p);;
      release;;
      mret 0
  | None => release;; mret (-1)
  end.

(** [sched] up to the call of [swtch], giving the value of [intena] it saves. *)
Definition sched_out : M ptable bool :=
  s ← get;
  i ← cur;
  p ← pat i;
  if negb (plock s) then panic "sched ptable.lock"
  else if negb (Cli.ncli (pcpu s) =? 1) then panic "sched locks"
  else if bool_decide (state p = RUNNING) then panic "sched running"
  else if Cli.fl_if (pcpu s) then panic "sched interruptible"
  else mret (Cli.intena (pcpu s)).

(** [sched] from the return of [swtch]. *)
Definition sched_in (intena : bool) : M ptable unit :=
  modify (fun s => set_pcpu (Cli.MkCpu (Cli.ncli (pcpu s)) intena (Cli.fl_if (pcpu s))) s).

(** [yield] until it switches to the scheduler, and after. *)
Definition yield_out : M ptable bool :=
  acquire;;
  i ← cur;
  pupd i (set_state RUNNABLE);;
  sched_out.
Definition yield_in (intena : bool) : M ptable unit :=
  sched_in intena;;
  release.

(** [sleep(chan, lk)] until it switches to the scheduler, and after.  [lk] is
    how to release and acquire the caller's lock, [None] when that lock is
    ptable.lock itself. *)
Definition sleep_out (c : chan) (lk : option (M ptable unit * M ptable unit)) : M ptable bool :=
  x ← gets curproc;
  match x with
  | None => panic "sleep"
  | Some i =>
      match lk with Some (rel, _) => acquire;; rel | None => mret tt end;;
      pupd i (set_pchan (Some c));;
      pupd i (set_state SLEEPING);;
      sched_out
  end.
Definition sleep_in (lk : option (M ptable unit * M ptable unit)) (intena : bool) : M ptable unit :=
  sched_in intena;;
  i ← cur;
  pupd i (set_pchan None);;
  match lk with Some (_, acq) => release;; acq | None => mret tt end.

(** One pass of [scheduler] from index [i] finds the next process to run and
    switches to it; [switchuvm] is in Vm.v. *)
Definition next_runnable (i : nat) : M ptable (option nat) :=
  ps ← gets procs;
  mret (find_proc (fun p => bool_decide (state p = RUNNABLE)) i (drop i ps)).

Definition schedule (i : nat) : M ptable (option nat) :=
  r ← next_runnable i;
  match r with
  | None => mret None
  | Some j =>
      modify (set_curproc (Some j));;
      pupd j (set_state RUNNING);;
      mret (Some j)
  end.

(** Back in [scheduler]: no process is running here. *)
Definition schedule_back : M ptable unit := modify (set_curproc None).

(** The part of [exit] that runs with ptable.lock held, until [sched]. *)
Fixpoint pass_children (i n : nat) (self init : nat) : M ptable unit :=
  match n with
  | O => mret tt
  | S k =>
      p ← pat i;
      when (bool_decide (parent p = Some self)) (
        pupd i (set_parent (Some init));;
        when (bool_decide (state p = ZOMBIE)) (wakeup1 (ChProc init)));;
      pass_children (S i) k self init
  end.

Definition exit_table : M ptable bool :=
  acquire;;
  i ← cur;
  p ← pat i;
  match parent p with Some q => wakeup1 (ChProc q) | None => mret tt end;;
  s ← get;
  match initproc s with
  | None => fault
  | Some ini => pass_children 0 NPROC i ini
  end;;
  pupd i (set_state ZOMBIE);;
  sched_out.

(** What the scan of [wait] finds: a zombie child, none but other children, or
    no child. *)
Inductive scan_result := ZombieChild (i : nat) | HaveKids | NoKids.

Fixpoint wait_scan (self : nat) (i : nat) (havekids : bool) (l : list proc) : scan_result :=
  match l with
  | [] => if havekids then HaveKids else NoKids
  | p :: l' =>
      if negb (bool_decide (parent p = Some self)) then wait_scan self (S i) havekids l'
      else if bool_decide (state p = ZOMBIE) then ZombieChild i
      else wait_scan self (S i) true l'
  end.

(** The fields [wait] clears, after it freed the stack and the memory. *)
Definition reap (p : proc) : proc :=
  set_killed false (set_name (<[0%nat := 0]> (name p)) (set_parent None (set_pid 0 (set_state UNUSED p)))).

(** What [wait] does to the table: it takes a zombie child, finds that it need
    not wait, or goes to sleep (the lock is held until the scheduler gives it
    back).  [wait_body] is a round of its loop, with the lock held. *)
Inductive wait_result := WaitPid (i : nat) (pid : Z) | WaitNone | WaitSleep (intena : bool).

Definition wait_body : M ptable wait_result :=
  j ← cur;
  ps ← gets procs;
  me ← pat j;
  match wait_scan j 0 false ps with
  | ZombieChild i =>
      p ← pat i;
      pupd i reap;;
      release;;
      mret (WaitPid i (pid p))
  | NoKids => release;; mret WaitNone
  | HaveKids =>
      if killed me then release;; mret WaitNone
      else
        b ← sleep_out (ChProc j) None;
        mret (WaitSleep b)
  end.

Definition wait_table : M ptable wait_result :=
  acquire;;
  wait_body.

(** sysproc.c: [sys_getpcount] *)
Fixpoint count_procs (l : list proc) (count : Z) : Z :=
  match l with
  | [] => count
  | p :: l' =>
      count_procs l'
        (match state p with
         | EMBRYO => count + 1
         | SLEEPING => count + 1
         | RUNNABLE => count + 1
         | RUNNING => count + 1
         | ZOMBIE => count + 1
         | UNUSED => count
         end)
  end.

Definition sys_getpcount : M ptable Z :=
  acquire;;
  ps ← gets procs;
  let count := count_procs ps 0 in
  release;;
  mret count.

Definition sys_getpid : M ptable Z :=
  i ← cur;
  p ← pat i;
  mret (pid p).

End Proc.
