(* ===== verification/ProcSpec.v ===== *)
(** * The process table

    What the operations on the process table compute. *)

From S2P Require Import Prelude Memory Layout Cstring Spinlock Proc.
Import Proc.

(** ** What the operations do *)

(** The state of the table after an operation, up to the interrupt nesting. *)
Record eff (s s' : ptable) (ps : list proc) (lk : bool) (np : Z) : Prop := MkEff {
  ef_procs : procs s' = ps;
  ef_lock : plock s' = lk;
  ef_pid : nextpid s' = np;
  ef_init : initproc s' = initproc s;
  ef_cur : curproc s' = curproc s
}.

Lemma acquire_table s s1 : acquire s = Ok tt s1 ->
  plock s = false /\ s1 = set_plock true (set_pcpu (Cli.pushcli (pcpu s)) s).
Proof.
  unfold acquire, Seq.acquire, mbind, M_bind, modify. cbn. destruct (plock s) eqn:E; [done|]. intros [= <-]. done.
Qed.

Lemma release_table s s1 : release s = Ok tt s1 -> plock s = true /\ exists cp, s1 = set_pcpu cp (set_plock false s).
Proof.
  unfold release, Seq.release, mbind, M_bind, zoom. destruct (plock s) eqn:E; [|done].
  destruct (Cli.popcli _) as [[] cp| | | |] eqn:Ep; try done. intros [= <-]. eauto.
Qed.

Lemma cur_inv s i s1 : cur s = Ok i s1 -> curproc s = Some i /\ s1 = s.
Proof.
  unfold cur, mbind, M_bind, gets. destruct (curproc s); [|done]. intros [= <- <-]. done.
Qed.

Lemma sched_out_inv s b s1 : sched_out s = Ok b s1 -> s1 = s /\ plock s = true.
Proof.
  unfold sched_out. intros H. apply bind_ok in H as (s0 & s2 & [= <- <-] & H).
  apply bind_ok in H as (i & s3 & Hc & H). apply cur_inv in Hc as [_ ->].
  apply bind_ok in H as (p & s4 & [= <- <-] & H).
  destruct (plock s); [|done]. cbn in H. repeat case_match; try done. injection H as <- <-. done.
Qed.

(** Inversion of a run of table operations. *)
Ltac step_inv H :=
  apply bind_ok in H; let a := fresh "a" in let s := fresh "s" in let E := fresh "E" in
  destruct H as (a & s & E & H).

Ltac table_inv :=
  repeat match goal with
  | H : (_ ≫= _) _ = Ok _ _ |- _ => step_inv H
  | H : acquire _ = Ok ?a _ |- _ => destruct a; apply acquire_table in H as [? ->]
  | H : release _ = Ok ?a _ |- _ => destruct a; apply release_table in H as (? & ? & ->)
  | H : cur _ = Ok _ _ |- _ => apply cur_inv in H as [? ->]
  | H : sched_out _ = Ok _ _ |- _ => apply sched_out_inv in H as [-> ?]
  | H : gets _ _ = Ok _ _ |- _ => injection H as <- <-
  | H : get _ = Ok _ _ |- _ => injection H as <- <-
  | H : pat _ _ = Ok _ _ |- _ => injection H as <- <-
  | H : modify _ _ = Ok _ _ |- _ => injection H as <- <-
  | H : pupd _ _ _ = Ok _ _ |- _ => injection H as <- <-
  | H : wakeup1 _ _ = Ok _ _ |- _ => injection H as <- <-
  | H : mret _ _ = Ok _ _ |- _ => injection H as <- <-
  end.

Lemma find_proc_spec f l : forall i,
  match find_proc f i l with
  | Some j => exists p, (i <= j)%nat /\ l !! (j - i)%nat = Some p /\ f p = true /\
      forall k q, (k < j - i)%nat -> l !! k = Some q -> f q = false
  | None => forall k q, l !! k = Some q -> f q = false
  end.
Proof.
  induction l as [|p l IH]; intros i; simpl; [done|]. destruct (f p) eqn:E.
  - exists p. rewrite Nat.sub_diag. split; [done|]. split; [done|]. split; [done|lia].
  - specialize (IH (S i)). destruct (find_proc f (S i) l) as [j|].
    + destruct IH as (q & Hle & Hq & Hf & Hb). exists q. split; [lia|].
      replace (j - i)%nat with (S (j - S i)) by lia. split; [done|]. split; [done|].
      intros [|k] r Hk Hr; simpl in Hr; [by simplify_eq|]. eapply Hb; [|exact Hr]. lia.
    + intros [|k] q Hq; simpl in Hq; [by simplify_eq|]. by eapply IH.
Qed.

Lemma alloc_slot_eff s r s' : alloc_slot s = Ok r s' ->
  match r with
  | Some i => exists p, procs s !! i = Some p /\ state p = UNUSED /\
      eff s s' (alter (fun p => set_pid (nextpid s) (set_state EMBRYO p)) i (procs s)) false (s32 (nextpid s + 1))
  | None => eff s s' (procs s) false (nextpid s)
  end.
Proof.
  unfold alloc_slot. intros H. table_inv. cbn in *.
  pose proof (find_proc_spec (fun p => bool_decide (state p = UNUSED)) (procs s) 0) as Hf.
  destruct (find_proc _ 0 (procs s)) as [i|]; table_inv; cbn.
  - destruct Hf as (p & _ & Hp & Hu & _). rewrite Nat.sub_0_r in Hp. apply bool_decide_eq_true in Hu.
    exists p. split; [done|]. split; [done|]. by split.
  - by split.
Qed.

(** ** getpcount and kill *)

Lemma alter_insert {A} (f : A -> A) (l : list A) i x : l !! i = Some x -> alter f i l = <[i := f x]> l.
Proof.
  intros Hx. apply list_eq. intros j. destruct (decide (i = j)) as [<-|].
  - rewrite list_lookup_alter_eq, Hx, list_lookup_insert_eq; [done|]. by eapply lookup_lt_Some.
  - by rewrite list_lookup_alter_ne, list_lookup_insert_ne.
Qed.

(** A lock round leaves the CPU as it was, up to [intena], which means nothing
    outside a lock. *)
Definition unlocked (c : Cli.cpu) : Cli.cpu :=
  Cli.MkCpu (Cli.ncli c) (if Cli.ncli c =? 0 then Cli.fl_if c else Cli.intena c) (Cli.fl_if c).

Lemma acquire_run s : plock s = false -> acquire s = Ok tt (set_plock true (set_pcpu (Cli.pushcli (pcpu s)) s)).
Proof. intros H. unfold acquire, Seq.acquire, mbind, M_bind, modify. cbn. by rewrite H. Qed.

Lemma release_run s ps : plock s = false -> Cli.cpu_wf (pcpu s) -> Cli.ncli (pcpu s) < 2 ^ 31 - 1 ->
  release (set_procs ps (set_plock true (set_pcpu (Cli.pushcli (pcpu s)) s))) = Ok tt (set_procs ps (set_pcpu (unlocked (pcpu s)) s)).
Proof.
  intros Hl [Hn Hi] Hm. destruct s as [x lk np ini [n ie fi] c]. cbn in *. subst lk.
  unfold release, Seq.release, mbind, M_bind, zoom, Cli.popcli. cbn. rewrite (s32_small (n + 1)) by lia.
  replace (n + 1 - 1) with n by lia. rewrite (s32_small n) by lia. rewrite (proj2 (Z.ltb_ge n 0)) by lia.
  destruct (Z.eqb_spec n 0) as [->|Hz]; cbn.
  - unfold unlocked. cbn. by destruct fi.
  - unfold unlocked. cbn. rewrite (proj2 (Z.eqb_neq n 0)), Hi by lia. done.
Qed.

Lemma count_procs_spec l n : count_procs l n = n + Z.of_nat (length (filter (fun p => state p <> UNUSED) l)).
Proof.
  revert n. induction l as [|p l IH]; intros n; cbn [count_procs]; [simpl; lia|]. rewrite filter_cons.
  destruct (state p); rewrite IH; case_decide; simpl length; (done || lia).
Qed.

(** C27: [sys_getpcount] returns the number of processes in the table that are
    not UNUSED, at most NPROC, and leaves the table, the lock and the
    interrupt state as they were. *)
Theorem sys_getpcount_correct s :
  plock s = false -> Cli.cpu_wf (pcpu s) -> Cli.ncli (pcpu s) < 2 ^ 31 - 1 ->
  exists n, sys_getpcount s = Ok n (set_pcpu (unlocked (pcpu s)) s) /\ n = Z.of_nat (length (filter (fun p => state p <> UNUSED) (procs s))) /\
    0 <= n <= Z.of_nat (length (procs s)).
Proof.
  intros Hl Hc Hn. eexists. split; [|split; [reflexivity|]].
  - unfold sys_getpcount. erewrite bind_ok_l by by apply acquire_run. erewrite bind_ok_l by done.
    cbv zeta. erewrite bind_ok_l.
    + cbn. rewrite count_procs_spec. f_equal.
    + pose proof (release_run s (procs s) Hl Hc Hn) as H. destruct s; cbn in *. exact H.
  - pose proof (length_filter (fun p => state p <> UNUSED) (procs s)). lia.
Qed.

(** A table with two processes. *)
Definition table2 : ptable :=
  MkPt (set_state RUNNING (set_pid 1 proc0) :: set_pchan (Some ChTicks) (set_state SLEEPING (set_pid 2 proc0)) :: replicate 62 proc0)
    false 3 (Some 0%nat) (Cli.MkCpu 0 true true) (Some 0%nat).

Lemma sys_getpcount_correct_witness : sys_getpcount table2 = Ok 2 table2.
Proof.
  destruct (sys_getpcount_correct table2) as (n & E & -> & _).
  - reflexivity.
  - split; simpl; [lia|intros H; lia].
  - simpl. lia.
  - exact E.
Defined.

(** [kill] marks the first process of the table with that pid and makes it
    RUNNABLE if it sleeps, and fails when there is none; no other process and
    no other field changes. *)
Theorem kill_correct s n :
  plock s = false -> Cli.cpu_wf (pcpu s) -> Cli.ncli (pcpu s) < 2 ^ 31 - 1 ->
  (exists i p, procs s !! i = Some p /\ pid p = n /\ (forall j q, (j < i)%nat -> procs s !! j = Some q -> pid q <> n) /\
     kill n s = Ok 0 (set_procs (<[i := set_state (if decide (state p = SLEEPING) then RUNNABLE else state p)
                                          (set_killed true p)]> (procs s)) (set_pcpu (unlocked (pcpu s)) s))) \/
  ((forall j q, procs s !! j = Some q -> pid q <> n) /\ kill n s = Ok (-1) (set_pcpu (unlocked (pcpu s)) s)).
Proof.
  intros Hl Hc Hn. pose proof (find_proc_spec (fun p => pid p =? n) (procs s) 0) as Hf.
  unfold kill. erewrite bind_ok_l by by apply acquire_run. erewrite bind_ok_l by done.
  cbn [procs set_plock set_pcpu]. destruct (find_proc _ 0 (procs s)) as [i|].
  - left. destruct Hf as (p & _ & Hp & Hpid & Hb). rewrite Nat.sub_0_r in *. apply Z.eqb_eq in Hpid.
    exists i, p. split; [done|]. split; [done|]. split; [intros j q Hj Hq; apply Z.eqb_neq; by eapply Hb|].
    erewrite bind_ok_l by done. cbn [procs set_plock set_pcpu set_procs]. rewrite (alter_insert _ _ _ _ Hp).
    erewrite bind_ok_l by (match goal with |- release (set_procs ?x _) = _ =>
      pose proof (release_run s x Hl Hc Hn) as H; exact H end).
    cbn. case_bool_decide; [by rewrite decide_True|rewrite decide_False by done]. destruct p; done.
  - right. split; [intros j q Hq; apply Z.eqb_neq; by eapply Hf|].
    erewrite bind_ok_l; [done|]. pose proof (release_run s (procs s) Hl Hc Hn) as H. destruct s; cbn in *. exact H.
Qed.

Lemma kill_correct_witness : exists i p, procs table2 !! i = Some p /\ pid p = 2 /\
  kill 2 table2 = Ok 0 (set_procs (<[i := set_state RUNNABLE (set_killed true p)]> (procs table2)) table2).
Proof.
  destruct (kill_correct table2 2) as [(i & p & Hi & Hp & Hb & E)|[H _]].
  - reflexivity.
  - split; simpl; [lia|intros H; lia].
  - simpl. lia.
  - assert (i = 1%nat) as ->.
    { destruct i as [|[|i]]; [injection Hi as <-; discriminate Hp|reflexivity|].
      exfalso. apply (Hb 1%nat _ ltac:(lia) eq_refl). reflexivity. }
    exists 1%nat, p. injection Hi as <-. split; [reflexivity|]. split; [reflexivity|]. exact E.
  - exfalso. apply (H 1%nat _ eq_refl). reflexivity.
Defined.

Lemma find_proc_first f l p : forall i k, l !! i = Some p -> f p = true -> (forall j q, (j < i)%nat -> l !! j = Some q -> f q = false) ->
  find_proc f k l = Some (k + i)%nat.
Proof.
  induction l as [|q l IH]; intros [|i] k Hi Hp Hb; [done..| |]; cbn [find_proc].
  - injection Hi as ->. rewrite Hp. by rewrite Nat.add_0_r.
  - rewrite (Hb 0%nat q ltac:(lia) eq_refl). rewrite (IH i (S k) Hi Hp); [f_equal; lia|]. intros j r Hj. apply (Hb (S j)). lia.
Qed.

Lemma unlocked_cpu_wf c : Cli.cpu_wf c -> Cli.cpu_wf (unlocked c).
Proof. intros [Hn Hi]. split; [done|]. cbn. intros. by apply Hi. Qed.

(** [alloc_slot] takes the first UNUSED slot, keeping its [killed]. *)
Lemma alloc_slot_first s i p : plock s = false -> Cli.cpu_wf (pcpu s) -> Cli.ncli (pcpu s) < 2 ^ 31 - 1 ->
  procs s !! i = Some p -> state p = UNUSED -> (forall j q, (j < i)%nat -> procs s !! j = Some q -> state q <> UNUSED) ->
  exists s', alloc_slot s = Ok (Some i) s' /\ procs s' !! i = Some (set_pid (nextpid s) (set_state EMBRYO p)).
Proof.
  intros Hl Hc Hn Hi Hu Hb. eexists. unfold alloc_slot. split.
  - erewrite bind_ok_l by by apply acquire_run. erewrite bind_ok_l by done. cbn [procs set_plock set_pcpu].
    rewrite (find_proc_first _ _ p i 0 Hi); [|by apply bool_decide_true|intros j q Hj Hq; apply bool_decide_false; by eapply Hb].
    do 3 (erewrite bind_ok_l by done). erewrite bind_ok_l; [done|].
    exact (release_run (set_nextpid (s32 (nextpid s + 1)) s) (alter (fun p => set_pid (nextpid s) (set_state EMBRYO p)) i (procs s)) Hl Hc Hn).
  - cbn. by rewrite list_lookup_alter_eq, Hi.
Qed.

(** C28: [kill 0] succeeds without a process: on every table whose first UNUSED
    slot [i] has pid 0, as slots never used or reaped have, and no used slot
    before it has, [kill 0] returns 0 having set [killed] in that free slot;
    and the next [allocproc] takes the slot with its new pid and [killed] still
    set, so that the new process is born killed. *)
Theorem kill_zero_unused s i p :
  plock s = false -> Cli.cpu_wf (pcpu s) -> Cli.ncli (pcpu s) < 2 ^ 31 - 1 ->
  procs s !! i = Some p -> state p = UNUSED -> pid p = 0 ->
  (forall j q, (j < i)%nat -> procs s !! j = Some q -> state q <> UNUSED /\ pid q <> 0) ->
  exists s', kill 0 s = Ok 0 s' /\ procs s' = <[i := set_killed true p]> (procs s) /\
    exists s'', alloc_slot s' = Ok (Some i) s'' /\ procs s'' !! i = Some (set_pid (nextpid s) (set_state EMBRYO (set_killed true p))).
Proof.
  intros Hl Hc Hn Hi Hu Hz Hb. destruct (kill_correct s 0 Hl Hc Hn) as [(k & x & Hk & Hx & Hkb & E)|[Hno _]]; [|by destruct (Hno i p)].
  assert (k = i) as ->.
  { destruct (lt_eq_lt_dec k i) as [[Hlt| ->]|Hgt]; [|done|]; [by destruct (Hb k x Hlt Hk)|by destruct (Hkb i p)]. }
  assert (x = p) as -> by congruence. rewrite decide_False in E by by rewrite Hu.
  eexists. split; [exact E|]. split; [by destruct p|]. cbn. replace (set_state (state p) (set_killed true p)) with (set_killed true p) by by destruct p.
  apply (alloc_slot_first (set_procs _ (set_pcpu (unlocked (pcpu s)) s))); cbn; [done|by apply unlocked_cpu_wf|done| |done|].
  - apply list_lookup_insert_eq. by eapply lookup_lt_Some.
  - intros j q Hj Hq. rewrite list_lookup_insert_ne in Hq by lia. by destruct (Hb j q Hj Hq).
Qed.

Lemma kill_zero_unused_witness : exists s', kill 0 table2 = Ok 0 s' /\ exists s'', alloc_slot s' = Ok (Some 2%nat) s''.
Proof.
  destruct (kill_zero_unused table2 2 proc0) as (s' & E & _ & s'' & E' & _).
  - reflexivity.
  - split; simpl; [lia|intros H; lia].
  - simpl. lia.
  - reflexivity.
  - reflexivity.
  - reflexivity.
  - intros [|[|j]] q Hj Hq; [injection Hq as <-; split; discriminate|injection Hq as <-; split; discriminate|lia].
  - exists s'. split; [exact E|]. exists s''. exact E'.
Defined.
