(* ===== verification/ProcSys.v ===== *)
(** * The process table under every schedule

    Any number of CPUs, each in its scheduler or in a process, run the
    operations of Proc.v with ptable.lock between them.  In every reachable
    state, whatever the interleaving, the process table is a tree of live
    parents under init, pids are unique, each CPU runs its own process, the
    checks of [sched] never fail, and no process sleeps in [wait] while a child
    of it is a zombie. *)

From S2P Require Import Prelude Memory Layout Cstring Spinlock Proc ProcSpec.
Import Proc.

(** ** The invariant of the table *)

(** A process that can be the parent of another. *)
Definition alive (p : proc) : Prop := state p = SLEEPING \/ state p = RUNNABLE \/ state p = RUNNING.

(** Not (or no longer) a running program. *)
Definition inert (p : proc) : Prop := state p = UNUSED \/ state p = EMBRYO \/ state p = ZOMBIE.

Record tinv (tb : list proc) (ini : nat) (np : Z) : Prop := MkTinv {
  ti_len : length tb = NPROC;
  ti_init : exists p, tb !! ini = Some p /\ alive p /\ parent p = None /\ pid p = 1;
  ti_parent : forall i p q, tb !! i = Some p -> parent p = Some q ->
    state p <> UNUSED /\ exists pq, tb !! q = Some pq /\ alive pq /\ pid pq < pid p;
  ti_orphan : forall i p, tb !! i = Some p -> i <> ini -> parent p = None -> state p = UNUSED \/ state p = EMBRYO;
  ti_pid : forall i p, tb !! i = Some p -> state p <> UNUSED -> 1 <= pid p < np;
  ti_uniq : forall i j p q, tb !! i = Some p -> tb !! j = Some q -> state p <> UNUSED -> state q <> UNUSED ->
    pid p = pid q -> i = j;
  ti_sleep : forall i p, tb !! i = Some p -> state p = SLEEPING -> pchan p <> None;
  ti_inert : forall i p, tb !! i = Some p -> inert p -> pchan p = None;
  ti_self : forall i p k, tb !! i = Some p -> pchan p = Some (ChProc k) -> k = i;
  ti_wait : forall i p k, tb !! i = Some p -> state p = SLEEPING -> pchan p = Some (ChProc k) ->
    forall c pc, tb !! c = Some pc -> parent pc = Some k -> state pc <> ZOMBIE
}.

(** A process is woken or marked killed; nothing else changes. *)
Record soft (p p' : proc) : Prop := MkSoft {
  so_parent : parent p' = parent p;
  so_pid : pid p' = pid p;
  so_chan : pchan p' = pchan p;
  so_state : state p' = state p \/ (state p = SLEEPING /\ state p' = RUNNABLE)
}.

Lemma soft_refl p : soft p p.
Proof. split; auto. Qed.

Lemma soft_trans p q r : soft p q -> soft q r -> soft p r.
Proof.
  intros [A1 A2 A3 A4] [B1 B2 B3 B4]. split; try congruence.
  destruct A4 as [A4|[A4 A4']], B4 as [B4|[B4 B4']]; rewrite ?A4, ?A4' in *; auto; congruence.
Qed.

Lemma soft_wake c p : soft p (wake c p).
Proof. unfold wake. repeat case_bool_decide; simpl; split; simpl; auto. Qed.

(** Two tables, entry by entry. *)
Definition tsoft (tb tb' : list proc) : Prop := Forall2 soft tb tb'.

Lemma tsoft_lookup tb tb' i p' : tsoft tb tb' -> tb' !! i = Some p' -> exists p, tb !! i = Some p /\ soft p p'.
Proof. intros H Hi. apply (Forall2_lookup_r _ _ _ _ _ H Hi). Qed.

Lemma tsoft_lookup_l tb tb' i p : tsoft tb tb' -> tb !! i = Some p -> exists p', tb' !! i = Some p' /\ soft p p'.
Proof. intros H Hi. apply (Forall2_lookup_l _ _ _ _ _ H Hi). Qed.

Lemma tsoft_refl tb : tsoft tb tb.
Proof. induction tb; constructor; auto using soft_refl. Qed.

Lemma tsoft_wake c tb : tsoft tb (wake c <$> tb).
Proof. induction tb; constructor; auto using soft_wake. Qed.

Lemma tsoft_trans tb1 tb2 tb3 : tsoft tb1 tb2 -> tsoft tb2 tb3 -> tsoft tb1 tb3.
Proof. apply Forall2_trans. eauto using soft_trans. Qed.

Lemma soft_alive p p' : soft p p' -> alive p -> alive p'.
Proof. unfold alive. intros [_ _ _ H]. destruct H as [->|[_ ->]]; auto. Qed.

Lemma soft_state p p' x : soft p p' -> state p' = x -> x <> RUNNABLE -> state p = x.
Proof. intros [_ _ _ [H|[_ H]]] E Hx; congruence. Qed.

Lemma tinv_soft tb tb' ini np : tsoft tb tb' -> tinv tb ini np -> tinv tb' ini np.
Proof.
  intros Hs [H1 H2 H3 H4 H5 H6 H7 H8 H9 H10].
  assert (forall p p', soft p p' -> state p' <> UNUSED -> state p <> UNUSED) as Hun.
  { intros p p' [_ _ _ [E|[E _]]] Hn; congruence. }
  split.
  - rewrite <- H1. symmetry. by eapply Forall2_length.
  - destruct H2 as (p & Hp & Ha & Hpar & Hpid). destruct (tsoft_lookup_l _ _ _ _ Hs Hp) as (p' & Hp' & So).
    exists p'. rewrite (so_parent _ _ So), (so_pid _ _ So). eauto using soft_alive.
  - intros i p' q Hi Hq. destruct (tsoft_lookup _ _ _ _ Hs Hi) as (p & Hp & So).
    rewrite (so_parent _ _ So) in Hq. destruct (H3 i p q Hp Hq) as (Hn & pq & Hpq & Ha & Hlt).
    destruct (tsoft_lookup_l _ _ _ _ Hs Hpq) as (pq' & Hpq' & Soq).
    rewrite (so_pid _ _ So). split; [|exists pq'; rewrite (so_pid _ _ Soq); eauto using soft_alive].
    intros E. apply Hn. by eapply soft_state.
  - intros i p' Hi Hne Hn. destruct (tsoft_lookup _ _ _ _ Hs Hi) as (p & Hp & So). rewrite (so_parent _ _ So) in Hn.
    destruct (so_state _ _ So) as [->|[E _]]; [by eapply H4|]. destruct (H4 i p Hp Hne Hn); congruence.
  - intros i p' Hi Hn. destruct (tsoft_lookup _ _ _ _ Hs Hi) as (p & Hp & So). rewrite (so_pid _ _ So). eauto.
  - intros i j p' q' Hi Hj Hpn Hqn E. destruct (tsoft_lookup _ _ _ _ Hs Hi) as (p & Hp & So).
    destruct (tsoft_lookup _ _ _ _ Hs Hj) as (q & Hq & Soq). rewrite (so_pid _ _ So), (so_pid _ _ Soq) in E.
    eapply H6; eauto.
  - intros i p' Hi Hn. destruct (tsoft_lookup _ _ _ _ Hs Hi) as (p & Hp & So). rewrite (so_chan _ _ So).
    apply (H7 i p Hp). by eapply soft_state.
  - intros i p' Hi Hn. destruct (tsoft_lookup _ _ _ _ Hs Hi) as (p & Hp & So). rewrite (so_chan _ _ So).
    apply (H8 i p Hp). unfold inert in *. destruct Hn as [Hn|[Hn|Hn]]; rewrite (soft_state _ _ _ So Hn) by done; auto.
  - intros i p' k Hi. destruct (tsoft_lookup _ _ _ _ Hs Hi) as (p & Hp & So). rewrite (so_chan _ _ So). eauto.
  - intros i p' k Hi Hsl. destruct (tsoft_lookup _ _ _ _ Hs Hi) as (p & Hp & So). rewrite (so_chan _ _ So).
    intros Hk c pc' Hc. destruct (tsoft_lookup _ _ _ _ Hs Hc) as (pc & Hpc & Soc). rewrite (so_parent _ _ Soc). intros Hpar Hz.
    apply (H10 i p k Hp (soft_state _ _ _ So Hsl ltac:(done)) Hk c pc Hpc Hpar). by eapply soft_state.
Qed.

(** ** Changes of one slot *)

Lemma insert_case (tb : list proc) i x j q : <[i := x]> tb !! j = Some q -> (j = i /\ q = x) \/ (j <> i /\ tb !! j = Some q).
Proof.
  destruct (decide (i = j)) as [<-|]; [|rewrite list_lookup_insert_ne by done; auto].
  intros H. left. split; [done|]. pose proof (lookup_lt_Some _ _ _ H) as Hl. rewrite length_insert in Hl.
  rewrite list_lookup_insert_eq in H by done. by simplify_eq.
Qed.

Lemma insert_here (tb : list proc) i x p : tb !! i = Some p -> <[i := x]> tb !! i = Some x.
Proof. intros H. apply list_lookup_insert_eq. by eapply lookup_lt_Some. Qed.

Lemma insert_self (tb : list proc) i x q : <[i := x]> tb !! i = Some q -> q = x.
Proof. intros H. by apply insert_case in H as [[_ ->]|[? _]]. Qed.

Ltac slots :=
  repeat match goal with
  | H : <[?i := _]> _ !! ?i = Some _ |- _ => apply insert_self in H as ->
  | H : <[_ := _]> _ !! _ = Some _ |- _ => apply insert_case in H as [[-> ->]|[? ?]]
  end.

Ltac procstates :=
  unfold alive, inert in *; intros;
  repeat match goal with H : state _ = _ \/ _ |- _ => destruct H end; congruence.

(** A live process goes on: it is scheduled, gives up the CPU or goes to sleep. *)
Lemma tinv_live tb ini np i p p' : tinv tb ini np -> tb !! i = Some p -> alive p -> alive p' ->
  parent p' = parent p -> pid p' = pid p ->
  (state p' = SLEEPING -> pchan p' <> None) -> (forall k, pchan p' = Some (ChProc k) -> k = i) ->
  (state p' = SLEEPING -> pchan p' = Some (ChProc i) ->
    forall c pc, tb !! c = Some pc -> parent pc = Some i -> state pc <> ZOMBIE) ->
  tinv (<[i := p']> tb) ini np.
Proof.
  intros [H1 H2 H3 H4 H5 H6 H7 H8 H9 H10] Hp Ha Ha' Epar Epid S1 S2 S3.
  assert (state p <> UNUSED) as Hu by procstates.
  assert (forall q pq, tb !! q = Some pq -> alive pq ->
    exists pq', <[i := p']> tb !! q = Some pq' /\ alive pq' /\ pid pq' = pid pq /\ parent pq' = parent pq) as Hal.
  { intros q pq Hq Haq. destruct (decide (q = i)) as [->|].
    - exists p'. rewrite (insert_here _ _ _ _ Hp). by simplify_eq.
    - exists pq. by rewrite list_lookup_insert_ne. }
  split.
  - by rewrite length_insert.
  - destruct H2 as (pi & Hpi & Hai & Hpar & Hpid). destruct (Hal _ _ Hpi Hai) as (x & Hx & Hax & E1 & E2). exists x. by rewrite E1, E2.
  - intros j pj q Hj Hq. assert (exists pj0, tb !! j = Some pj0 /\ parent pj0 = Some q /\ pid pj0 = pid pj /\ (state pj0 <> UNUSED -> state pj <> UNUSED)) as (pj0 & Hj0 & Hq0 & Ej & Es).
    { slots; [exists p; rewrite <- Epar, Epid; split_and!; [done..|procstates]|eauto]. }
    destruct (H3 _ _ _ Hj0 Hq0) as (Hn & pq & Hpq & Hapq & Hlt). destruct (Hal _ _ Hpq Hapq) as (x & Hx & Hax & E1 & _).
    split; [auto|]. exists x. by rewrite E1, <- Ej.
  - intros j pj Hj Hne Hn. slots; [|eauto]. rewrite Epar in Hn. destruct (H4 _ _ Hp Hne Hn); procstates.
  - intros j pj Hj Hn. slots; [rewrite Epid|]; eauto.
  - intros j k pj pk Hj Hk Hnj Hnk E. slots; rewrite ?Epid in E; try done; [eapply (H6 j i pj p)|eapply (H6 i k p pk)|eapply (H6 j k pj pk)]; eauto.
  - intros j pj Hj Hsl. slots; eauto.
  - intros j pj Hj Hi. slots; [procstates|eauto].
  - intros j pj k Hj. slots; eauto.
  - intros j pj k Hj Hsl Hk c pc Hc Hpc. slots; [procstates|procstates| |].
    + pose proof (S2 _ Hk); subst. eauto.
    + eauto.
Qed.

(** A slot that no live process uses is taken, filled in, started or given
    back. *)
Lemma tinv_slot tb ini np np' i p p' : tinv tb ini np -> tb !! i = Some p -> inert p -> np <= np' ->
  state p' = UNUSED \/ state p' = EMBRYO \/ state p' = RUNNABLE -> pchan p' = None ->
  (forall q, parent p' = Some q -> state p' <> UNUSED /\ exists pq, tb !! q = Some pq /\ alive pq /\ pid pq < pid p') ->
  (parent p' = None -> state p' <> RUNNABLE) ->
  (state p' <> UNUSED -> 1 <= pid p' < np' /\ forall j q, j <> i -> tb !! j = Some q -> state q <> UNUSED -> pid q <> pid p') ->
  tinv (<[i := p']> tb) ini np'.
Proof.
  intros [H1 H2 H3 H4 H5 H6 H7 H8 H9 H10] Hp Hi Hnp Hst Hch S1 S2 S3.
  assert (forall q pq, tb !! q = Some pq -> alive pq -> <[i := p']> tb !! q = Some pq /\ q <> i) as Hal.
  { intros q pq Hq Haq. destruct (decide (q = i)) as [->|]; [simplify_eq; procstates|]. by rewrite list_lookup_insert_ne. }
  split.
  - by rewrite length_insert.
  - destruct H2 as (pi & Hpi & Hai & R). destruct (Hal _ _ Hpi Hai). eauto.
  - intros j pj q Hj Hq. slots.
    + destruct (S1 _ Hq) as (Hn & pq & Hpq & Hapq & Hlt). split; [done|]. destruct (Hal _ _ Hpq Hapq). eauto.
    + destruct (H3 _ _ _ H0 Hq) as (Hn & pq & Hpq & Hapq & Hlt). split; [done|]. destruct (Hal _ _ Hpq Hapq). eauto.
  - intros j pj Hj Hne Hn. slots; [|eauto]. specialize (S2 Hn). tauto.
  - intros j pj Hj Hn. slots; [by apply S3|]. specialize (H5 _ _ H0 Hn). lia.
  - intros j k pj pk Hj Hk Hnj Hnk E. slots; try done.
    + destruct (S3 Hnk) as [_ S]. exfalso. by eapply (S j pj).
    + destruct (S3 Hnj) as [_ S]. exfalso. by eapply (S k pk).
    + by eapply (H6 j k).
  - intros j pj Hj Hsl. slots; [|eauto]. destruct Hst as [E|[E|E]]; congruence.
  - intros j pj Hj Hij. slots; [done|eauto].
  - intros j pj k Hj Hk. slots; [congruence|eauto].
  - intros j pj k Hj Hsl Hk c pc Hc Hpc. slots; try congruence.
    + destruct Hst as [E|[E|E]]; congruence.
    + eauto.
Qed.

(** ** exit *)

Definition pass (self ini : nat) (p : proc) : proc :=
  if bool_decide (parent p = Some self) then set_parent (Some ini) p else p.

(** Process [j] has passed its children to init and woken whoever may wait for
    it or for them; it becomes a zombie. *)
Record exiting (tb tb1 : list proc) (ini j q : nat) : Prop := MkExiting {
  ex_soft : tsoft (pass j ini <$> tb) tb1;
  ex_parent : forall m pm, tb1 !! m = Some pm -> state pm = SLEEPING -> pchan pm <> Some (ChProc q);
  ex_init : forall z pz, tb !! z = Some pz -> parent pz = Some j -> state pz = ZOMBIE ->
    forall m pm, tb1 !! m = Some pm -> state pm = SLEEPING -> pchan pm <> Some (ChProc ini)
}.

Lemma pass_fields j ini p :
  state (pass j ini p) = state p /\ pid (pass j ini p) = pid p /\ pchan (pass j ini p) = pchan p /\
  parent (pass j ini p) = (if bool_decide (parent p = Some j) then Some ini else parent p).
Proof. unfold pass. by case_bool_decide. Qed.

Lemma exiting_lookup tb tb1 ini j q k p1 : exiting tb tb1 ini j q -> tb1 !! k = Some p1 ->
  exists p, tb !! k = Some p /\ parent p1 = (if bool_decide (parent p = Some j) then Some ini else parent p) /\
    pid p1 = pid p /\ pchan p1 = pchan p /\ (state p1 = state p \/ (state p = SLEEPING /\ state p1 = RUNNABLE)).
Proof.
  intros E Hk. destruct (tsoft_lookup _ _ _ _ (ex_soft _ _ _ _ _ E) Hk) as (p' & Hp' & [A1 A2 A3 A4]).
  apply list_lookup_fmap_Some in Hp' as (p & -> & Hp). destruct (pass_fields j ini p) as (B1 & B2 & B3 & B4).
  exists p. rewrite A1, A2, A3, B2, B3, B4. rewrite B1 in A4. done.
Qed.

Lemma exiting_lookup_l tb tb1 ini j q k p : exiting tb tb1 ini j q -> tb !! k = Some p ->
  exists p1, tb1 !! k = Some p1 /\ parent p1 = (if bool_decide (parent p = Some j) then Some ini else parent p) /\
    pid p1 = pid p /\ (alive p -> alive p1).
Proof.
  intros E Hk. destruct (tsoft_lookup_l (pass j ini <$> tb) tb1 k (pass j ini p)) as (p1 & Hp1 & So).
  { apply (ex_soft _ _ _ _ _ E). } { by rewrite list_lookup_fmap, Hk. }
  destruct (pass_fields j ini p) as (B1 & B2 & B3 & B4). exists p1. split; [done|].
  rewrite (so_parent _ _ So), (so_pid _ _ So), B2, B4. split_and!; [done..|].
  intros Ha. eapply soft_alive; [done|]. unfold alive. by rewrite B1.
Qed.

Section exit.
Context (tb tb1 : list proc) (ini j q : nat) (np : Z) (pj p1 : proc).
Hypothesis (T : tinv tb ini np) (E : exiting tb tb1 ini j q).
Hypothesis (Hj : tb !! j = Some pj) (Hrun : state pj = RUNNING) (Hch : pchan pj = None) (Hne : j <> ini) (Hq : parent pj = Some q).
Hypothesis (H1 : tb1 !! j = Some p1).

Local Abbreviation tb' := (<[j := set_state ZOMBIE p1]> tb1).

(** What is known of a slot after the exit, from the slot before it. *)
Lemma exit_slot k p' : tb' !! k = Some p' -> exists p, tb !! k = Some p /\
  parent p' = (if bool_decide (parent p = Some j) then Some ini else parent p) /\ pid p' = pid p /\ pchan p' = pchan p /\
  (k = j /\ state p' = ZOMBIE \/ k <> j /\ tb1 !! k = Some p' /\ (state p' = state p \/ (state p = SLEEPING /\ state p' = RUNNABLE))).
Proof.
  intros Hk. slots.
  - destruct (exiting_lookup _ _ _ _ _ _ _ E H1) as (p & Hp & A1 & A2 & A3 & A4). exists p. simpl. eauto 10.
  - destruct (exiting_lookup _ _ _ _ _ _ _ E H0) as (p & Hp & A1 & A2 & A3 & A4). exists p. simpl. eauto 10.
Qed.

Lemma exit_live k p : tb !! k = Some p -> alive p -> k <> j -> exists p', tb' !! k = Some p' /\ alive p' /\ pid p' = pid p /\
  parent p' = (if bool_decide (parent p = Some j) then Some ini else parent p).
Proof.
  intros Hk Ha Hn. destruct (exiting_lookup_l _ _ _ _ _ _ _ E Hk) as (x & Hx & A1 & A2 & A3).
  exists x. rewrite list_lookup_insert_ne by done. auto.
Qed.

Lemma exit_parent k p' q' : tb' !! k = Some p' -> parent p' = Some q' ->
  state p' <> UNUSED /\ exists pq, tb' !! q' = Some pq /\ alive pq /\ pid pq < pid p'.
Proof.
  intros Hk Hp'. destruct (exit_slot _ _ Hk) as (p & Hp & A1 & A2 & A3 & A4). rewrite A1 in Hp'.
  destruct (ti_init _ _ _ T) as (pi & Hpi & Hai & Hpi0 & Hpid).
  assert (exists r, parent p = Some r) as [r Hr] by (case_bool_decide; eauto).
  destruct (ti_parent _ _ _ T _ _ _ Hp Hr) as (Hu & pr & Hpr & Har & Hlt).
  split. { destruct A4 as [[_ ->]|(_ & _ & [->|[_ ->]])]; done. }
  rewrite A2. case_bool_decide as Hc.
  - injection Hp' as <-. destruct (exit_live _ _ Hpi Hai) as (x & Hx & Hax & Ex & _); [done|]. exists x. split_and!; [done..|]. rewrite Ex, Hpid.
    assert (1 <= pid p) by (by apply (ti_pid _ _ _ T k p)). assert (pid p <> 1); [|lia]. intros Ep.
    assert (k = ini) as -> by (eapply (ti_uniq _ _ _ T k ini p pi); [done..|procstates|congruence]). congruence.
  - assert (r = q') by congruence. subst r. assert (q' <> j) by congruence. destruct (exit_live _ _ Hpr Har) as (x & Hx & Hax & Ex & _); [done|].
    exists x. by rewrite Ex.
Qed.

Lemma exit_wait k p' i : tb' !! k = Some p' -> state p' = SLEEPING -> pchan p' = Some (ChProc i) ->
  forall c pc, tb' !! c = Some pc -> parent pc = Some i -> state pc <> ZOMBIE.
Proof.
  intros Hk Hsl Hi c pc Hc Hpc Hz. destruct (exit_slot _ _ Hk) as (p & Hp & _ & _ & A3 & [[-> A4]|(Hkj & Hk1 & A4)]); [congruence|].
  assert (state p = SLEEPING) as Hsp by (destruct A4 as [A4|[A4 A4']]; congruence).
  destruct (exit_slot _ _ Hc) as (x & Hx & B1 & _ & _ & [[-> B4]|(Hcj & Hc1 & B4)]).
  - assert (x = pj) as -> by congruence. rewrite bool_decide_false in B1.
    + assert (i = q) as -> by congruence. by apply (ex_parent _ _ _ _ _ E k p' Hk1 Hsl).
    + intros Hjj. destruct (ti_parent _ _ _ T _ _ _ Hj Hjj) as (_ & pq & Hpq & _ & Hlt). assert (pq = pj) by congruence. subst pq. lia.
  - assert (state x = ZOMBIE) as Hzx by (destruct B4 as [B4|[B4 B4']]; congruence). rewrite Hpc in B1.
    case_bool_decide as Hcj'.
    + assert (i = ini) as -> by congruence. by apply (ex_init _ _ _ _ _ E c x Hx Hcj' Hzx k p' Hk1 Hsl).
    + apply (ti_wait _ _ _ T k p i Hp Hsp ltac:(congruence) c x Hx); [congruence|done].
Qed.

Lemma tinv_exit : tinv tb' ini np.
Proof.
  assert (forall p p' k, k = j /\ state p' = ZOMBIE \/ k <> j /\ tb1 !! k = Some p' /\ (state p' = state p \/ (state p = SLEEPING /\ state p' = RUNNABLE)) ->
    tb !! k = Some p -> state p' <> UNUSED -> state p <> UNUSED) as Hun.
  { intros p p' k [[-> Hz]|(_ & _ & [Hs|[Hs _]])] Hk Hn; congruence. }
  split.
  - rewrite length_insert. rewrite <- (Forall2_length _ _ _ (ex_soft _ _ _ _ _ E)), length_fmap. apply T.
  - destruct (ti_init _ _ _ T) as (pi & Hpi & Hai & Hpi0 & Hpid).
    destruct (exit_live _ _ Hpi Hai) as (x & Hx & Hax & Ex & Hpar); [done|]. exists x. rewrite Ex, Hpar, bool_decide_false by congruence. done.
  - exact exit_parent.
  - intros k p' Hk Hki Hn. destruct (exit_slot _ _ Hk) as (p & Hp & A1 & A2 & A3 & A4). rewrite A1 in Hn.
    case_bool_decide; [done|]. pose proof (ti_orphan _ _ _ T k p Hp Hki Hn). destruct A4 as [[-> A4]|(Hkj & Hk1 & [->|[A4 _]])]; [assert (p = pj) by congruence; procstates|done|procstates].
  - intros k p' Hk Hn. destruct (exit_slot _ _ Hk) as (p & Hp & A1 & A2 & A3 & A4). rewrite A2. eapply (ti_pid _ _ _ T); eauto.
  - intros k l p' q' Hk Hl Hpn Hqn Hpq. destruct (exit_slot _ _ Hk) as (p & Hp & A1 & A2 & A3 & A4).
    destruct (exit_slot _ _ Hl) as (x & Hx & B1 & B2 & B3 & B4). rewrite A2, B2 in Hpq. eapply (ti_uniq _ _ _ T k l p x); eauto.
  - intros k p' Hk Hn. destruct (exit_slot _ _ Hk) as (p & Hp & A1 & A2 & A3 & A4). rewrite A3. eapply (ti_sleep _ _ _ T); [done|].
    destruct A4 as [[-> A4]|(Hkj & Hk1 & [A4|[A4 A5]])]; congruence.
  - intros k p' Hk Hn. destruct (exit_slot _ _ Hk) as (p & Hp & A1 & A2 & A3 & A4). rewrite A3.
    destruct A4 as [[-> A4]|(Hkj & Hk1 & [A4|[A4 A5]])]; [congruence| |procstates]. apply (ti_inert _ _ _ T k p Hp). unfold inert in *. by rewrite <- A4.
  - intros k p' i Hk Hi. destruct (exit_slot _ _ Hk) as (p & Hp & A1 & A2 & A3 & A4). rewrite A3 in Hi. by eapply (ti_self _ _ _ T).
  - exact exit_wait.
Qed.
End exit.
