(* ===== verification/ProcSmp.v ===== *)
(** * The process table on many CPUs

    Each CPU is in its scheduler or runs a process; between two points of its
    code where it takes or gives back ptable.lock (or touches a process it is
    building) it runs one of the operations of Proc.v.  [step] interleaves
    these on any number of CPUs.  In every reachable state the table satisfies
    [tinv] of ProcSys.v and the CPUs agree with it ([ctl]); no operation of a
    reachable state panics. *)

From S2P Require Import Prelude Memory Layout Cstring Spinlock Proc ProcSpec ProcSys.
Import Proc.

(** ** Runs of the table operations *)

Lemma release_any tb np ini cp cur : Cli.cpu_wf cp -> Cli.ncli cp < 2 ^ 31 - 1 ->
  release (MkPt tb true np ini (Cli.pushcli cp) cur) = Ok tt (MkPt tb false np ini (unlocked cp) cur).
Proof. intros Hw Hn. exact (release_run (MkPt tb false np ini cp cur) tb eq_refl Hw Hn). Qed.

Lemma release_one tb np ini cp cur : Cli.ncli cp = 1 -> Cli.fl_if cp = false ->
  release (MkPt tb true np ini cp cur) = Ok tt (MkPt tb false np ini (Cli.MkCpu 0 (Cli.intena cp) (Cli.intena cp)) cur).
Proof.
  destruct cp as [n ie fi]. cbn. intros -> ->. unfold release, Seq.release, mbind, M_bind, zoom, Cli.popcli. cbn. by destruct ie.
Qed.

Lemma acquire_mk tb np ini cp cur :
  acquire (MkPt tb false np ini cp cur) = Ok tt (MkPt tb true np ini (Cli.pushcli cp) cur).
Proof. done. Qed.

Lemma pupd_mk tb lk np ini cp cur i f p : tb !! i = Some p ->
  pupd i f (MkPt tb lk np ini cp cur) = Ok tt (MkPt (<[i := f p]> tb) lk np ini cp cur).
Proof. intros Hp. unfold pupd, modify, set_procs. cbn. by rewrite (alter_insert _ _ _ _ Hp). Qed.

Lemma pat_mk tb lk np ini cp cur i p : tb !! i = Some p ->
  pat i (MkPt tb lk np ini cp cur) = Ok p (MkPt tb lk np ini cp cur).
Proof. intros Hp. unfold pat, gets. cbn. by rewrite (list_lookup_total_correct _ _ _ Hp). Qed.

(** Symbolic execution of the operations on explicit states. *)
Ltac unfold_setters :=
  cbv beta delta [set_nextpid set_pcpu set_procs set_curproc set_plock];
  cbn [procs plock nextpid initproc pcpu curproc].

Ltac run1 :=
  lazymatch goal with
  | |- (acquire ≫= _) _ = _ => rewrite (bind_ok_l _ _ _ _ _ (acquire_mk _ _ _ _ _)); cbv beta
  | |- (release ≫= _) _ = _ => erewrite bind_ok_l by (apply release_any || apply release_one; done); cbv beta
  | |- (pupd _ _ ≫= _) _ = _ => erewrite bind_ok_l by (apply pupd_mk; eassumption); cbv beta
  | |- (pat _ ≫= _) _ = _ => erewrite bind_ok_l by (apply pat_mk; eassumption); cbv beta
  | |- (mret _ ≫= _) _ = _ => erewrite bind_ok_l by reflexivity; cbv beta
  | |- (gets _ ≫= _) _ = _ => erewrite bind_ok_l by reflexivity; unfold_setters
  | |- (get ≫= _) _ = _ => erewrite bind_ok_l by reflexivity; unfold_setters
  | |- (cur ≫= _) _ = _ => erewrite bind_ok_l by reflexivity; cbv beta
  | |- (modify _ ≫= _) _ = _ => erewrite bind_ok_l by reflexivity; unfold_setters
  | |- (wakeup1 _ ≫= _) _ = _ => erewrite bind_ok_l by reflexivity; unfold_setters
  | |- ((_ ≫= _) ≫= _) _ = _ => rewrite bind_assoc
  end.

Lemma run_sched_out tb np ini cp j p : tb !! j = Some p -> state p <> RUNNING -> Cli.ncli cp = 1 -> Cli.fl_if cp = false ->
  sched_out (MkPt tb true np ini cp (Some j)) = Ok (Cli.intena cp) (MkPt tb true np ini cp (Some j)).
Proof.
  intros Hp Hs Hn Hf. unfold sched_out. run1. run1. run1. rewrite Hn, Hf, bool_decide_false by done. done.
Qed.

Section runs.
Context (tb : list proc) (np : Z) (ini : option nat) (cp : Cli.cpu).

Lemma run_wakeup c cur : Cli.cpu_wf cp -> Cli.ncli cp < 2 ^ 31 - 1 ->
  wakeup c (MkPt tb false np ini cp cur) = Ok tt (MkPt (wake c <$> tb) false np ini (unlocked cp) cur).
Proof. intros Hw Hn. unfold wakeup. run1. run1. by apply release_any. Qed.

Lemma run_kill n cur : Cli.cpu_wf cp -> Cli.ncli cp < 2 ^ 31 - 1 -> exists r tb',
  kill n (MkPt tb false np ini cp cur) = Ok r (MkPt tb' false np ini (unlocked cp) cur) /\ tsoft tb tb'.
Proof.
  intros Hw Hn. unfold kill.
  pose proof (find_proc_spec (fun p => pid p =? n) tb 0) as Hf.
  destruct (find_proc (fun p => pid p =? n) 0 tb) as [i|] eqn:Ef.
  - destruct Hf as (p & _ & Hp & _). rewrite Nat.sub_0_r in Hp. do 2 eexists. split.
    + run1. run1. rewrite Ef. run1. erewrite bind_ok_l by (by apply release_any). reflexivity.
    + cbv zeta. apply Forall2_same_length_lookup. rewrite length_insert. split; [done|]. intros k x y Hx Hy.
      apply insert_case in Hy as [[-> ->]|[_ Hy]]; simplify_eq; [|apply soft_refl].
      case_bool_decide; split; cbn in *; auto.
  - exists (-1), tb. split; [|apply tsoft_refl].
    run1. run1. rewrite Ef. erewrite bind_ok_l by (by apply release_any). reflexivity.
Qed.

Lemma run_alloc cur : Cli.cpu_wf cp -> Cli.ncli cp < 2 ^ 31 - 1 ->
  (alloc_slot (MkPt tb false np ini cp cur) = Ok None (MkPt tb false np ini (unlocked cp) cur) /\ forall k q, tb !! k = Some q -> state q <> UNUSED) \/
  exists i p, tb !! i = Some p /\ state p = UNUSED /\
    alloc_slot (MkPt tb false np ini cp cur) =
      Ok (Some i) (MkPt (<[i := set_pid np (set_state EMBRYO p)]> tb) false (s32 (np + 1)) ini (unlocked cp) cur).
Proof.
  intros Hw Hn. unfold alloc_slot.
  pose proof (find_proc_spec (fun p => bool_decide (state p = UNUSED)) tb 0) as Hf.
  destruct (find_proc (fun p => bool_decide (state p = UNUSED)) 0 tb) as [i|] eqn:Ef.
  - right. destruct Hf as (p & _ & Hp & Hu & _). rewrite Nat.sub_0_r in Hp. apply bool_decide_eq_true in Hu.
    exists i, p. split_and!; [done..|]. run1. run1. rewrite Ef. run1. run1. run1. erewrite bind_ok_l by (by apply release_any). done.
  - left. split; [run1; run1; rewrite Ef; erewrite bind_ok_l by (by apply release_any); done|]. intros k q Hk. by eapply bool_decide_eq_false, Hf.
Qed.

Lemma run_yield j p : tb !! j = Some p -> Cli.ncli cp = 0 ->
  yield_out (MkPt tb false np ini cp (Some j)) =
    Ok (Cli.fl_if cp) (MkPt (<[j := set_state RUNNABLE p]> tb) true np ini (Cli.pushcli cp) (Some j)).
Proof.
  intros Hp Hn. unfold yield_out. run1. run1. run1. destruct cp as [n ie fi]. cbn in Hn. subst n.
  unfold sched_out. run1. run1. erewrite bind_ok_l by (apply pat_mk, (insert_here _ _ _ _ Hp)). cbv beta. cbn. done.
Qed.

(** The lock the caller of [sleep] holds, as far as the CPU sees it. *)
Definition caller_lock : M ptable unit * M ptable unit :=
  (zoom pcpu set_pcpu Cli.popcli, modify (fun s => set_pcpu (Cli.pushcli (pcpu s)) s)).

Lemma run_sleep j p c : tb !! j = Some p -> Cli.ncli cp = 1 -> Cli.fl_if cp = false -> exists ie,
  sleep_out c (Some caller_lock) (MkPt tb false np ini cp (Some j)) =
    Ok ie (MkPt (<[j := set_state SLEEPING (set_pchan (Some c) p)]> tb) true np ini (Cli.MkCpu 1 ie false) (Some j)).
Proof.
  intros Hp Hn Hf. destruct cp as [n ie fi]. cbn in Hn, Hf. subst n fi. exists ie. unfold sleep_out, caller_lock.
  run1. cbv iota. run1. run1.
  rewrite (bind_ok_l _ _ _ tt (MkPt tb true np ini (Cli.MkCpu 1 ie false) (Some j))) by reflexivity. cbv beta. run1.
  erewrite bind_ok_l by (apply pupd_mk, (insert_here _ _ _ _ Hp)). cbv beta. rewrite list_insert_insert_eq.
  rewrite (run_sched_out _ _ _ _ j (set_state SLEEPING (set_pchan (Some c) p))); [done|by apply (insert_here _ _ _ _ Hp)|done..].
Qed.

Lemma wait_scan_spec self l : forall i b,
  match wait_scan self i b l with
  | ZombieChild k => exists p, (i <= k)%nat /\ l !! (k - i)%nat = Some p /\ parent p = Some self /\ state p = ZOMBIE
  | HaveKids | NoKids => forall k p, l !! k = Some p -> parent p = Some self -> state p <> ZOMBIE
  end.
Proof.
  induction l as [|p l IH]; intros i b; cbn [wait_scan]; [by destruct b|].
  assert (forall b', (parent p = Some self -> state p <> ZOMBIE) ->
    match wait_scan self (S i) b' l with
    | ZombieChild k => exists p0, (i <= k)%nat /\ (p :: l) !! (k - i)%nat = Some p0 /\ parent p0 = Some self /\ state p0 = ZOMBIE
    | HaveKids | NoKids => forall k p0, (p :: l) !! k = Some p0 -> parent p0 = Some self -> state p0 <> ZOMBIE
    end) as Hstep.
  { intros b' Hp. specialize (IH (S i) b'). destruct (wait_scan self (S i) b' l) as [k| |].
    - destruct IH as (x & Hle & Hx & R). exists x. replace (k - i)%nat with (S (k - S i)) by lia. split; [lia|done].
    - intros [|k] x Hx; cbn in Hx; [by simplify_eq|eauto].
    - intros [|k] x Hx; cbn in Hx; [by simplify_eq|eauto]. }
  repeat case_bool_decide; cbn [negb]; try (apply Hstep; congruence).
  exists p. rewrite Nat.sub_diag. by split.
Qed.

(** A round of [wait] by process [j], which holds the lock. *)
Lemma run_wait_body j p : tb !! j = Some p -> Cli.ncli cp = 1 -> Cli.fl_if cp = false ->
  let un := Cli.MkCpu 0 (Cli.intena cp) (Cli.intena cp) in
  let s := MkPt tb true np ini cp (Some j) in
  wait_body s = Ok WaitNone (MkPt tb false np ini un (Some j)) \/
  (exists i pi, tb !! i = Some pi /\ parent pi = Some j /\ state pi = ZOMBIE /\
    wait_body s = Ok (WaitPid i (pid pi)) (MkPt (<[i := reap pi]> tb) false np ini un (Some j))) \/
  ((forall c pc, tb !! c = Some pc -> parent pc = Some j -> state pc <> ZOMBIE) /\
    wait_body s = Ok (WaitSleep (Cli.intena cp))
      (MkPt (<[j := set_state SLEEPING (set_pchan (Some (ChProc j)) p)]> tb) true np ini cp (Some j))).
Proof.
  intros Hp Hn Hf un s. unfold s, wait_body. pose proof (wait_scan_spec j tb 0 false) as Hs.
  destruct (wait_scan j 0 false tb) as [i| |] eqn:Es.
  - right; left. destruct Hs as (pi & _ & Hpi & Hpar & Hz). rewrite Nat.sub_0_r in Hpi. exists i, pi. split_and!; [done..|].
    run1. run1. run1. rewrite Es. run1. run1. erewrite bind_ok_l by (by apply release_one). done.
  - destruct (killed p) eqn:Ek.
    + left. run1. run1. run1. rewrite Es, Ek. erewrite bind_ok_l by (by apply release_one). done.
    + right; right. split; [done|]. run1. run1. run1. rewrite Es, Ek. unfold sleep_out. run1. run1. cbv iota. repeat run1.
      erewrite bind_ok_l by (apply pupd_mk, (insert_here _ _ _ _ Hp)). cbv beta. rewrite list_insert_insert_eq.
      erewrite bind_ok_l by (eapply run_sched_out; [apply (insert_here _ _ _ _ Hp)|done..]). done.
  - left. run1. run1. run1. rewrite Es. erewrite bind_ok_l by (by apply release_one). done.
Qed.

Lemma run_schedule i : Cli.ncli cp = 1 -> Cli.fl_if cp = false ->
  let s := MkPt tb true np ini cp None in
  (schedule i s = Ok None s) \/
  (exists j p, tb !! j = Some p /\ state p = RUNNABLE /\
    schedule i s = Ok (Some j) (MkPt (<[j := set_state RUNNING p]> tb) true np ini cp (Some j))).
Proof.
  intros Hn Hf s. unfold s, schedule, next_runnable.
  pose proof (find_proc_spec (fun p => bool_decide (state p = RUNNABLE)) (drop i tb) i) as Hs.
  destruct (find_proc (fun p => bool_decide (state p = RUNNABLE)) i (drop i tb)) as [j|] eqn:Ef.
  - right. destruct Hs as (p & Hle & Hp & Hr & _). rewrite lookup_drop in Hp. replace (i + (j - i))%nat with j in Hp by lia.
    apply bool_decide_eq_true in Hr. exists j, p. split_and!; [done..|]. run1. run1. run1. rewrite Ef. run1. run1. done.
  - left. run1. run1. run1. by rewrite Ef.
Qed.
End runs.

(** *** exit *)

Definition zombie_child (self : nat) (p : proc) : bool :=
  bool_decide (parent p = Some self) && bool_decide (state p = ZOMBIE).

Lemma wake_fields c p : parent (wake c p) = parent p /\ pchan (wake c p) = pchan p /\ pid (wake c p) = pid p /\
  (state (wake c p) = if bool_decide (state p = SLEEPING) && bool_decide (pchan p = Some c) then RUNNABLE else state p).
Proof. unfold wake. by case_match. Qed.

Lemma wake_pass c j ini p : wake c (pass j ini p) = pass j ini (wake c p).
Proof.
  destruct (wake_fields c p) as (E1 & _). unfold pass. rewrite E1. case_bool_decide; [|done].
  unfold wake. cbn. by case_match.
Qed.

Lemma wake_idemp c p : wake c (wake c p) = wake c p.
Proof.
  unfold wake at 2. destruct (bool_decide (state p = SLEEPING) && bool_decide (pchan p = Some c)) eqn:E.
  - unfold wake. by rewrite E.
  - unfold wake. by rewrite E.
Qed.

Lemma zombie_wake c self p : zombie_child self (wake c p) = zombie_child self p.
Proof.
  destruct (wake_fields c p) as (E1 & _ & _ & E4). unfold zombie_child. rewrite E1. f_equal. apply bool_decide_ext. rewrite E4.
  case_match; boolify; [|done]. split; congruence.
Qed.

(** The loop of [exit] passes the children on, and wakes init if one of them
    was a zombie. *)
Definition pass_woken (self ini : nat) (l : list proc) : proc -> proc :=
  if existsb (zombie_child self) l then wake (ChProc ini) else id.

Lemma pass_woken_wake self ini0 l (x : list proc) : pass_woken self ini0 l <$> (wake (ChProc ini0) <$> x) = wake (ChProc ini0) <$> x.
Proof.
  unfold pass_woken. destruct (existsb _ l); [|apply list_fmap_id].
  rewrite <- list_fmap_compose. apply list_fmap_ext. intros i y _. apply wake_idemp.
Qed.

Lemma pass_children_run self ini0 n : forall l1 l2 lk np ini cp cur, length l2 = n ->
  pass_children (length l1) n self ini0 (MkPt (l1 ++ l2) lk np ini cp cur) =
    Ok tt (MkPt (pass_woken self ini0 l2 <$> (l1 ++ (pass self ini0 <$> l2))) lk np ini cp cur).
Proof.
  induction n as [|n IH]; intros l1 [|p l2] lk np ini cp cur Hn; try done; [|injection Hn as Hn]; cbn [pass_children].
  - cbn. unfold pass_woken. cbn. by rewrite list_fmap_id.
  - assert ((l1 ++ p :: l2) !! length l1 = Some p) as Hp by by apply list_lookup_middle.
    assert (forall (x : proc) (l1' : list proc), length l1' = length l1 -> S (length l1) = length (l1' ++ [x])) as Hl by (intros; len; cbn; lia).
    run1. unfold when at 1. case_bool_decide as Hpar; cycle 1.
    { run1. rewrite (Hl p l1 eq_refl), (cons_middle p l1 l2), (app_assoc l1 [p] l2), IH by done. unfold pass_woken. cbn [existsb fmap list_fmap].
      replace (zombie_child self p) with false by (unfold zombie_child; by rewrite bool_decide_false).
      replace (pass self ini0 p) with p by (unfold pass; by rewrite bool_decide_false). cbn [orb]. by rewrite <- app_assoc. }
    assert (pass self ini0 p = set_parent (Some ini0) p) as Ep by (unfold pass; by rewrite bool_decide_true).
    run1. run1. rewrite insert_app_r_alt, Nat.sub_diag by lia. cbn [insert list_insert]. rewrite <- Ep. unfold when. case_bool_decide as Hz.
    + run1. rewrite fmap_app. cbn [fmap list_fmap].
      rewrite (cons_middle (wake _ _)), (app_assoc _ [wake _ _]), (Hl (wake (ChProc ini0) (pass self ini0 p)) (wake (ChProc ini0) <$> l1)) by apply length_fmap.
      rewrite IH by (by rewrite length_fmap). do 2 f_equal. rewrite <- app_assoc. cbn [app].
      rewrite <- list_fmap_compose.
      rewrite (list_fmap_ext (pass self ini0 ∘ wake (ChProc ini0)) (wake (ChProc ini0) ∘ pass self ini0) l2) by (intros; symmetry; apply wake_pass).
      rewrite list_fmap_compose, <- (fmap_cons (wake (ChProc ini0))), <- fmap_app, pass_woken_wake.
      unfold pass_woken, zombie_child. cbn [existsb]. by rewrite !bool_decide_true.
    + run1. rewrite (cons_middle (pass _ _ _)), (app_assoc _ [_]), (Hl (pass self ini0 p) l1 eq_refl), IH by done.
      do 2 f_equal. rewrite <- app_assoc. unfold pass_woken, zombie_child. cbn [existsb]. by rewrite (bool_decide_false (state p = ZOMBIE)), andb_false_r.
Qed.

Lemma wake_sleeping c p : state (wake c p) = SLEEPING -> state p = SLEEPING /\ pchan p <> Some c.
Proof. unfold wake. repeat case_bool_decide; cbn; intros; by split. Qed.

Lemma exit_wakes tb ini j q :
  exiting tb (pass_woken j ini (wake (ChProc q) <$> tb) <$> (pass j ini <$> (wake (ChProc q) <$> tb))) ini j q.
Proof.
  set (W := pass_woken j ini (wake (ChProc q) <$> tb)).
  assert (forall p, soft p (W p)) as HW.
  { intros p. unfold W, pass_woken. case_match; [apply soft_wake|apply soft_refl]. }
  assert (forall m pm, (W <$> (pass j ini <$> (wake (ChProc q) <$> tb))) !! m = Some pm -> state pm = SLEEPING ->
    exists p, tb !! m = Some p /\ pm = W (pass j ini (wake (ChProc q) p)) /\ state (wake (ChProc q) p) = SLEEPING /\ pchan pm = pchan p) as Hm.
  { intros m pm Hm Hs. rewrite !list_lookup_fmap in Hm. destruct (tb !! m) as [p|]; [|done]. injection Hm as <-.
    destruct (pass_fields j ini (wake (ChProc q) p)) as (E1 & _ & E3 & _). destruct (wake_fields (ChProc q) p) as (_ & F2 & _).
    exists p. split_and!; [done..| |by rewrite (so_chan _ _ (HW _)), E3, F2].
    rewrite <- E1. by apply (soft_state _ _ _ (HW _) Hs). }
  split.
  - rewrite <- list_fmap_compose. apply Forall2_fmap_2, Forall2_fmap_r. apply Forall_Forall2_diag, Forall_forall. intros p _. cbn.
    eapply soft_trans; [|apply HW]. rewrite <- wake_pass. apply soft_wake.
  - intros m pm Hp Hs. destruct (Hm _ _ Hp Hs) as (p & _ & _ & Hw & ->). by apply wake_sleeping in Hw as [_ ?].
  - intros z pz Hz Hpar Hst m pm Hp Hs. destruct (Hm _ _ Hp Hs) as (p & _ & -> & Hw & ->).
    assert (W = wake (ChProc ini)) as EW.
    { unfold W, pass_woken. rewrite (proj2 (existsb_exists _ _)); [done|]. exists (wake (ChProc q) pz).
      split; [apply list_elem_of_In, list_elem_of_fmap_2; by eapply list_elem_of_lookup_2|].
      rewrite zombie_wake. unfold zombie_child. by rewrite !bool_decide_true. }
    rewrite EW in Hs. apply wake_sleeping in Hs as [_ Hs]. destruct (pass_fields j ini (wake (ChProc q) p)) as (_ & _ & E3 & _).
    by rewrite E3, (proj1 (proj2 (wake_fields _ _))) in Hs.
Qed.

Lemma run_exit tb np cp ini j p q : length tb = NPROC -> tb !! j = Some p -> parent p = Some q -> Cli.ncli cp = 0 ->
  exists tb1 p1, exiting tb tb1 ini j q /\ tb1 !! j = Some p1 /\
    exit_table (MkPt tb false np (Some ini) cp (Some j)) =
      Ok (Cli.fl_if cp) (MkPt (<[j := set_state ZOMBIE p1]> tb1) true np (Some ini) (Cli.pushcli cp) (Some j)).
Proof.
  intros Hlen Hp Hq Hn. pose proof (exit_wakes tb ini j q) as Hex. eexists _, _. split; [exact Hex|].
  split; [by rewrite !list_lookup_fmap, Hp|]. unfold exit_table. run1. run1. run1. rewrite Hq. run1. run1. cbv iota.
  pose proof (pass_children_run j ini NPROC [] (wake (ChProc q) <$> tb) true np (Some ini) (Cli.pushcli cp) (Some j)
    ltac:(by rewrite length_fmap)) as Hpc. cbn [length app] in Hpc. rewrite (bind_ok_l _ _ _ _ _ Hpc). cbv beta.
  erewrite bind_ok_l by (apply pupd_mk; by rewrite !list_lookup_fmap, Hp). cbv beta.
  destruct cp as [n ie fi]. cbn in Hn. subst n.
  apply (run_sched_out _ np (Some ini) (Cli.MkCpu 1 fi false) j (set_state ZOMBIE (pass_woken j ini (wake (ChProc q) <$> tb) (pass j ini (wake (ChProc q) p))))); [|done..].
  apply list_lookup_insert_eq. len. by eapply lookup_lt_Some.
Qed.
