(* ===== verification/Sched.v ===== *)
(** * The scheduler on many CPUs

    [step] runs the operations of Proc.v on any number of CPUs in any order:
    each CPU is in [scheduler] or runs a process, which forks, exits, waits,
    sleeps, yields, wakes and kills others.  The theorems say that every
    reachable state has a well-formed process table and CPUs that agree with
    it, and that none of the panics of proc.c happens. *)

From S2P Require Import Prelude Memory Layout Cstring Spinlock Proc ProcSpec ProcSys ProcSmp.
Import Proc.

(** ** The system *)

(** Where a CPU is: in [scheduler] outside the lock, in the loop of
    [scheduler] at index [i] with the lock held, just switched to process [j]
    (which still holds the lock for it), or running process [j]. *)
Inductive cpoint := Idle | Sched (i : nat) | In (j : nat) | Run (j : nat).

(** The process table, the CPUs, and for each process the slot its [fork] is
    building, with whether that slot has its parent yet. *)
Record sys := MkSys {
  tb : list proc;
  lk : bool;
  npid : Z;
  ini : nat;
  pt : nat -> cpoint;
  cp : nat -> Cli.cpu;
  cproc : nat -> option nat;
  emb : nat -> option (nat * bool)
}.

(** CPU [c] runs code of Proc.v on the shared table and its own variables. *)
Definition load (G : sys) (c : nat) : ptable := MkPt (tb G) (lk G) (npid G) (Some (ini G)) (cp G c) (cproc G c).

Definition result : Type := cpoint * (nat -> option (nat * bool)).

Definition store (G : sys) (c : nat) (r : result) (s : ptable) : sys :=
  MkSys (procs s) (plock s) (nextpid s) (ini G) (<[c := r.1]> (pt G)) (<[c := pcpu s]> (cp G)) (<[c := curproc s]> (cproc G)) r.2.

(** A process that switches to its CPU's scheduler leaves it after its slot. *)
Definition to_sched {A} (j : nat) (e : nat -> option (nat * bool)) (m : M ptable A) : M ptable result :=
  m;; schedule_back;; mret (Sched (S j), e).

Definition wait_round (j : nat) (e : nat -> option (nat * bool)) (m : M ptable wait_result) : M ptable result :=
  r ← m;
  match r with
  | WaitSleep _ => schedule_back;; mret (Sched (S j), e)
  | _ => mret (Run j, e)
  end.

(** The code a CPU may run next.  A process that has been switched to returns
    from the [sched] it called, in [yield], in [wait] or in another [sleep],
    or it is new and starts in [forkret]; the value of [intena] on its stack is
    not tracked. *)
Inductive code (G : sys) (c : nat) : cpoint -> M ptable result -> Prop :=
| k_loop : code G c Idle (modify (fun s => set_pcpu (Cli.sti (pcpu s)) s);; acquire;; mret (Sched 0, emb G))
| k_intr ch : code G c Idle (wakeup ch;; mret (Idle, emb G))
| k_sched i : code G c (Sched i)
    (r ← schedule i; match r with Some j => mret (In j, emb G) | None => release;; mret (Idle, emb G) end)
| k_yield_in j p b : tb G !! j = Some p -> pchan p = None -> code G c (In j) (yield_in b;; mret (Run j, emb G))
| k_forkret j p : tb G !! j = Some p -> pchan p = None -> code G c (In j) (release;; mret (Run j, emb G))
| k_sleep_in j p ch b : tb G !! j = Some p -> pchan p = Some ch -> (forall k, ch <> ChProc k) ->
    code G c (In j) (sleep_in (Some caller_lock) b;; mret (Run j, emb G))
| k_wait_in j p k b : tb G !! j = Some p -> pchan p = Some (ChProc k) ->
    code G c (In j) (wait_round j (emb G) (sleep_in None b;; wait_body))
| k_alloc j : emb G j = None -> npid G < 2 ^ 31 - 1 ->
    code G c (Run j) (r ← alloc_slot; mret (Run j, <[j := (fun i => (i, false)) <$> r]> (emb G)))
| k_fail j i : emb G j = Some (i, false) ->
    code G c (Run j) (pupd i (set_state UNUSED);; mret (Run j, <[j := None]> (emb G)))
| k_parent j i : emb G j = Some (i, false) ->
    code G c (Run j) (pupd i (set_parent (Some j));; mret (Run j, <[j := Some (i, true)]> (emb G)))
| k_start j i : emb G j = Some (i, true) ->
    code G c (Run j) (acquire;; pupd i (set_state RUNNABLE);; release;; mret (Run j, <[j := None]> (emb G)))
| k_wakeup j ch : code G c (Run j) (wakeup ch;; mret (Run j, emb G))
| k_kill j n : code G c (Run j) (kill n;; mret (Run j, emb G))
| k_push j : Cli.ncli (cp G c) < 2 ^ 31 - 2 ->
    code G c (Run j) (modify (fun s => set_pcpu (Cli.pushcli (pcpu s)) s);; mret (Run j, emb G))
| k_pop j : 0 < Cli.ncli (cp G c) -> code G c (Run j) (zoom pcpu set_pcpu Cli.popcli;; mret (Run j, emb G))
| k_yield j : Cli.ncli (cp G c) = 0 -> code G c (Run j) (to_sched j (emb G) yield_out)
| k_sleep j ch : Cli.ncli (cp G c) = 1 -> emb G j = None -> (forall k, ch <> ChProc k) ->
    code G c (Run j) (to_sched j (emb G) (sleep_out ch (Some caller_lock)))
| k_exit j : Cli.ncli (cp G c) = 0 -> emb G j = None -> j <> ini G -> code G c (Run j) (to_sched j (emb G) exit_table)
| k_wait j : Cli.ncli (cp G c) = 0 -> emb G j = None -> code G c (Run j) (wait_round j (emb G) wait_table).

Inductive step (G : sys) : sys -> Prop :=
| do_step c m r s : code G c (pt G c) m -> m (load G c) = Ok r s -> step G (store G c r s).

(** ** The control invariant *)

Definition proc_of (x : cpoint) : option nat := match x with In j | Run j => Some j | _ => None end.
Definition holds (x : cpoint) : bool := match x with Sched _ | In _ => true | _ => false end.

Definition cpu_at (x : cpoint) (k : Cli.cpu) : Prop :=
  match x with
  | Idle => Cli.ncli k = 0
  | Sched _ | In _ => Cli.ncli k = 1 /\ Cli.fl_if k = false
  | Run _ => Cli.cpu_wf k /\ Cli.ncli k < 2 ^ 31 - 1
  end.

(** The lock is taken exactly when one CPU is at a point that holds it. *)
Record lock_ok (pt : nat -> cpoint) (lk : bool) : Prop := MkLockOk {
  lo_held : lk = true <-> exists c, holds (pt c) = true;
  lo_one : forall c c', holds (pt c) = true -> holds (pt c') = true -> c = c'
}.

Definition cpu_ok (pt : nat -> cpoint) (cp : nat -> Cli.cpu) (cproc : nat -> option nat) : Prop :=
  forall c, cpu_at (pt c) (cp c) /\ cproc c = proc_of (pt c).

(** The RUNNING processes are those on the CPUs, each on one. *)
Record on_ok (pt : nat -> cpoint) (tb : list proc) : Prop := MkOnOk {
  oo_one : forall c c' j, proc_of (pt c) = Some j -> proc_of (pt c') = Some j -> c = c';
  oo_in : forall c j, proc_of (pt c) = Some j -> is_Some (tb !! j);
  oo_running : forall j p, tb !! j = Some p -> state p = RUNNING <-> exists c, proc_of (pt c) = Some j;
  oo_chan : forall c j p, pt c = Run j -> tb !! j = Some p -> pchan p = None
}.

(** A process that is being built belongs to one process that can run. *)
Record emb_ok (emb : nat -> option (nat * bool)) (tb : list proc) : Prop := MkEmbOk {
  eo_ok : forall k i b, emb k = Some (i, b) -> exists pk p, tb !! k = Some pk /\ tb !! i = Some p /\
    (state pk = RUNNING \/ state pk = RUNNABLE) /\ pchan pk = None /\
    state p = EMBRYO /\ parent p = (if b then Some k else None) /\ pid pk < pid p;
  eo_one : forall k k' i b b', emb k = Some (i, b) -> emb k' = Some (i, b') -> k = k';
  eo_all : forall i p, tb !! i = Some p -> state p = EMBRYO -> exists k b, emb k = Some (i, b)
}.

Record inv (G : sys) : Prop := MkInv {
  in_tb : tinv (tb G) (ini G) (npid G);
  in_np : npid G < 2 ^ 31;
  in_lock : lock_ok (pt G) (lk G);
  in_cpu : cpu_ok (pt G) (cp G) (cproc G);
  in_on : on_ok (pt G) (tb G);
  in_emb : emb_ok (emb G) (tb G)
}.

(** ** How the parts of the invariant change *)

Lemma upd_eq {A} (f : nat -> A) c x : <[c := x]> f c = x.
Proof. apply fn_lookup_insert. Qed.

Lemma upd_ne {A} (f : nat -> A) c c' x : c' <> c -> <[c := x]> f c' = f c'.
Proof. intros. by rewrite fn_lookup_insert_ne. Qed.

(** Split on whether an index is the one updated. *)
Ltac upd :=
  repeat match goal with
  | H : context [<[?c := _]> _ ?c] |- _ => rewrite upd_eq in H
  | |- context [<[?c := _]> _ ?c] => rewrite upd_eq
  | H : context [<[?c := _]> _ ?c'] |- _ =>
      destruct (decide (c' = c)) as [->|?]; [rewrite upd_eq in H|rewrite upd_ne in H by done]
  | |- context [<[?c := _]> _ ?c'] =>
      destruct (decide (c' = c)) as [->|?]; [rewrite upd_eq|rewrite upd_ne by done]
  end.

(** The CPU takes, keeps or gives back the lock. *)
Lemma lock_step pt lk c x lk' : lock_ok pt lk ->
  (lk' = lk /\ holds x = holds (pt c)) \/ ((lk = false \/ holds (pt c) = true) /\ lk' = holds x) ->
  lock_ok (<[c := x]> pt) lk'.
Proof.
  intros [H1 H2] [[-> Hh]|[Hc ->]].
  - assert (forall c', holds (<[c := x]> pt c') = holds (pt c')) as E by (intros c'; by upd).
    split; [|intros c1 c2; rewrite !E; apply H2]. rewrite H1. by setoid_rewrite E.
  - assert (forall c', c' <> c -> holds (pt c') = false) as Hn.
    { intros c' Hne. destruct (holds (pt c')) eqn:E; [|done]. destruct Hc as [->|Hc].
      - assert (false = true); [|done]. apply H1. eauto.
      - by destruct Hne; apply H2. }
    split.
    + split; [intros Hx; exists c; by upd|]. intros [c' Hc']. upd; [done|]. by rewrite Hn in Hc'.
    + intros c1 c2 E1 E2. upd; try done; rewrite Hn in * by done; done.
Qed.

Lemma cpu_step pt cp cproc c x k j : cpu_ok pt cp cproc -> cpu_at x k -> j = proc_of x ->
  cpu_ok (<[c := x]> pt) (<[c := k]> cp) (<[c := j]> cproc).
Proof. intros H Hk -> c'. specialize (H c'). by upd. Qed.

(** The table changes slot by slot. *)
Definition keeps (R : nat -> proc -> proc -> Prop) (tb tb' : list proc) : Prop :=
  length tb' = length tb /\ forall j p', tb' !! j = Some p' -> exists p, tb !! j = Some p /\ R j p p'.

Lemma keeps_l R tb tb' j p : keeps R tb tb' -> tb !! j = Some p -> exists p', tb' !! j = Some p' /\ R j p p'.
Proof.
  intros [Hl H] Hp. destruct (tb' !! j) as [p'|] eqn:E.
  - destruct (H _ _ E) as (x & Hx & HR). simplify_eq. eauto.
  - apply lookup_ge_None in E. apply lookup_lt_Some in Hp. lia.
Qed.

Lemma keeps_refl (R : nat -> proc -> proc -> Prop) tb : (forall j p, R j p p) -> keeps R tb tb.
Proof. intros HR. split; eauto. Qed.

Lemma keeps_insert (R : nat -> proc -> proc -> Prop) tb i p x : tb !! i = Some p -> (forall j q, j <> i -> tb !! j = Some q -> R j q q) -> R i p x ->
  keeps R tb (<[i := x]> tb).
Proof. intros Hp HR Hx. split; [by len|]. intros j p' Hj. slots; eauto. Qed.

Lemma keeps_soft (R : nat -> proc -> proc -> Prop) tb tb' : tsoft tb tb' -> (forall j p p', soft p p' -> R j p p') -> keeps R tb tb'.
Proof.
  intros Hs HR. split; [symmetry; by eapply Forall2_length|]. intros j p' Hj.
  destruct (tsoft_lookup _ _ _ _ Hs Hj) as (p & Hp & So). eauto.
Qed.

(** A change that leaves who is RUNNING as it is. *)
Definition quiet (_ : nat) (p p' : proc) : Prop :=
  (state p' = RUNNING <-> state p = RUNNING) /\ (state p = RUNNING -> pchan p = None -> pchan p' = None).

Lemma quiet_refl j p : quiet j p p.
Proof. by split. Qed.

Lemma quiet_soft j p p' : soft p p' -> quiet j p p'.
Proof. intros [_ _ E3 E4]. split; [destruct E4 as [->|[-> ->]]; done|congruence]. Qed.
#[export] Hint Resolve quiet_refl quiet_soft : core.

Lemma on_same pt tb tb' c x : on_ok pt tb -> proc_of x = proc_of (pt c) -> keeps quiet tb tb' ->
  (forall j p', x = Run j -> tb' !! j = Some p' -> pchan p' = None) -> on_ok (<[c := x]> pt) tb'.
Proof.
  intros [H1 H2 H3 H4] Hx K Hc.
  assert (forall c', proc_of (<[c := x]> pt c') = proc_of (pt c')) as E by (intros c'; by upd).
  split.
  - intros c1 c2 j. rewrite !E. apply H1.
  - intros c1 j. rewrite E. intros Hj. destruct (H2 _ _ Hj) as [p Hp]. destruct (keeps_l _ _ _ _ _ K Hp) as (p' & -> & _). eauto.
  - intros j p' Hj. destruct (proj2 K _ _ Hj) as (p & Hp & [-> _]). rewrite (H3 _ _ Hp). by setoid_rewrite E.
  - intros c' j p' Hr Hj. upd; [eauto|]. destruct (proj2 K _ _ Hj) as (p & Hp & [_ HR]). apply HR; [|eauto].
    apply (H3 _ _ Hp). exists c'. by rewrite Hr.
Qed.

Lemma on_quiet pt tb tb' : on_ok pt tb -> keeps quiet tb tb' -> on_ok pt tb'.
Proof.
  intros [H1 H2 H3 H4] K. split; [done|..].
  - intros c1 j Hj. destruct (H2 _ _ Hj) as [p Hp]. destruct (keeps_l _ _ _ _ _ K Hp) as (p' & -> & _). eauto.
  - intros j p' Hj. destruct (proj2 K _ _ Hj) as (p & Hp & [-> _]). by apply H3.
  - intros c' j p' Hr Hj. destruct (proj2 K _ _ Hj) as (p & Hp & [_ HR]). apply HR; [|eauto].
    apply (H3 _ _ Hp). exists c'. by rewrite Hr.
Qed.

Lemma on_gain pt tb c j p : on_ok pt tb -> proc_of (pt c) = None -> tb !! j = Some p -> state p <> RUNNING ->
  on_ok (<[c := In j]> pt) (<[j := set_state RUNNING p]> tb).
Proof.
  intros [H1 H2 H3 H4] Hc Hp Hr.
  assert (forall c', proc_of (pt c') <> Some j) as Hn by (intros c' E; apply Hr, (H3 _ _ Hp); eauto).
  split.
  - intros c1 c2 k E1 E2. upd; try done; cbn in *; try (simplify_eq; by edestruct Hn). eauto.
  - intros c1 k E1. apply lookup_lt_is_Some. len. apply lookup_lt_is_Some. upd; cbn in *; simplify_eq; eauto.
  - intros k q Hk. slots.
    + cbn. split; [|done]. intros _. exists c. by upd.
    + rewrite (H3 _ _ H0). split; intros [c' E]; exists c'; upd; cbn in *; congruence.
  - intros c' k q E Hk. upd; [done|]. slots; [|eauto]. destruct (Hn c'). by rewrite E.
Qed.

Lemma on_lose pt tb tb' c j x : on_ok pt tb -> proc_of (pt c) = Some j -> proc_of x = None ->
  keeps (fun k p p' => if decide (k = j) then state p' <> RUNNING else quiet k p p') tb tb' -> on_ok (<[c := x]> pt) tb'.
Proof.
  intros [H1 H2 H3 H4] Hc Hx K.
  assert (forall c' k, proc_of (<[c := x]> pt c') = Some k <-> proc_of (pt c') = Some k /\ k <> j) as E.
  { intros c' k. upd; [rewrite Hx, Hc; split; [done|intros [? ?]; congruence]|]. split; [|tauto].
    intros Hk. split; [done|]. intros ->. by eauto. }
  split.
  - intros c1 c2 k. rewrite !E. intros [? _] [? _]. eauto.
  - intros c1 k. rewrite E. intros [Hk _]. destruct (H2 _ _ Hk) as [p Hp]. destruct (keeps_l _ _ _ _ _ K Hp) as (p' & -> & _). eauto.
  - intros k p' Hk. setoid_rewrite E. destruct (proj2 K _ _ Hk) as (p & Hp & HR). case_decide as Hd.
    + split; [done|]. intros (? & _ & ?). done.
    + rewrite (proj1 HR), (H3 _ _ Hp). naive_solver.
  - intros c' k p' Hr Hk. assert (pt c' = Run k) as Hr' by (upd; [by rewrite Hr in Hx|done]).
    destruct (proj2 K _ _ Hk) as (p & Hp & HR). rewrite decide_False in HR.
    + apply HR; [|eauto]. apply (H3 _ _ Hp). exists c'. by rewrite Hr'.
    + intros ->. assert (c' = c) as -> by (eapply H1; [by rewrite Hr'|done]). rewrite upd_eq in Hr. by rewrite Hr in Hx.
Qed.

(** A change that leaves the processes being built, and who builds them. *)
Definition calm (emb : nat -> option (nat * bool)) (k : nat) (p p' : proc) : Prop :=
  (state p' = EMBRYO -> state p = EMBRYO) /\
  (state p = EMBRYO -> state p' = EMBRYO /\ parent p' = parent p /\ pid p' = pid p) /\
  (emb k <> None -> (state p = RUNNING \/ state p = RUNNABLE -> state p' = RUNNING \/ state p' = RUNNABLE) /\
    (pchan p = None -> pchan p' = None) /\ pid p' = pid p).

Lemma calm_refl emb k p : calm emb k p p.
Proof. by unfold calm. Qed.

Lemma calm_soft emb k p p' : soft p p' -> calm emb k p p'.
Proof. intros [E1 E2 E3 E4]. unfold calm. rewrite E1, E2, E3. destruct E4 as [->|[-> ->]]; naive_solver. Qed.
#[export] Hint Resolve calm_refl calm_soft : core.

Lemma emb_same emb tb tb' : emb_ok emb tb -> keeps (calm emb) tb tb' -> emb_ok emb tb'.
Proof.
  intros [H1 H2 H3] K. split; [|done|].
  - intros k i b Hk. destruct (H1 _ _ _ Hk) as (pk & p & Hpk & Hp & A1 & A2 & A3 & A4 & A5).
    destruct (keeps_l _ _ _ _ _ K Hpk) as (pk' & Hpk' & _ & _ & B). destruct (keeps_l _ _ _ _ _ K Hp) as (p' & Hp' & _ & C & _).
    destruct B as (B1 & B2 & B3); [congruence|]. destruct C as (C1 & C2 & C3); [done|].
    exists pk', p'. rewrite B3, C2, C3. split_and!; auto.
  - intros i p' Hi Hs. destruct (proj2 K _ _ Hi) as (p & Hp & A & _). eauto.
Qed.

Lemma emb_new emb tb j i pj p np : emb_ok emb tb -> emb j = None -> tb !! j = Some pj -> state pj = RUNNING -> pchan pj = None ->
  tb !! i = Some p -> state p = UNUSED -> parent p = None -> pid pj < np ->
  emb_ok (<[j := Some (i, false)]> emb) (<[i := set_pid np (set_state EMBRYO p)]> tb).
Proof.
  intros [H1 H2 H3] Hj Hpj Hr Hc Hp Hu Hpar Hlt. assert (j <> i) by congruence.
  assert (forall k b, emb k <> Some (i, b)) as Hn.
  { intros k b E. destruct (H1 _ _ _ E) as (? & ? & _ & ? & _ & _ & ? & _). congruence. }
  split.
  - intros k x b Hk. upd.
    + injection Hk as <- <-. exists pj, (set_pid np (set_state EMBRYO p)). rewrite (insert_here _ _ _ _ Hp), list_lookup_insert_ne by done. split_and!; auto.
    + destruct (H1 _ _ _ Hk) as (pk & px & Hpk & Hpx & R). exists pk, px.
      assert (x <> i) by (intros ->; by eapply Hn). assert (k <> i) by (intros ->; simplify_eq; destruct R as ([?|?] & _); congruence).
      by rewrite !list_lookup_insert_ne.
  - intros k k' x b b' Hk Hk'. upd; simplify_eq; try done; try (by edestruct Hn). eauto.
  - intros x px Hx Hs. slots; [exists j, false; by upd|]. destruct (H3 _ _ H4 Hs) as (k & b & Hk). exists k, b. upd; congruence.
Qed.

Lemma emb_drop emb tb j i b p p' : emb_ok emb tb -> emb j = Some (i, b) -> tb !! i = Some p -> state p' <> EMBRYO ->
  emb_ok (<[j := None]> emb) (<[i := p']> tb).
Proof.
  intros [H1 H2 H3] Hj Hp Hne. destruct (H1 _ _ _ Hj) as (pj & p0 & Hpj & Hp0 & Hrj & _ & He & _). simplify_eq.
  split.
  - intros k x b' Hk. upd; [done|]. destruct (H1 _ _ _ Hk) as (pk & px & Hpk & Hpx & R). exists pk, px.
    assert (x <> i) by (intros ->; eauto). assert (k <> i) by (intros ->; simplify_eq; destruct R as ([?|?] & _); congruence).
    by rewrite !list_lookup_insert_ne.
  - intros k k' x b1 b2 Hk Hk'. upd; try done. eauto.
  - intros x px Hx Hs. slots; [done|]. destruct (H3 _ _ H0 Hs) as (k & b' & Hk). exists k, b'. upd; congruence.
Qed.

Lemma emb_parent emb tb j i p : emb_ok emb tb -> emb j = Some (i, false) -> tb !! i = Some p ->
  emb_ok (<[j := Some (i, true)]> emb) (<[i := set_parent (Some j) p]> tb).
Proof.
  intros [H1 H2 H3] Hj Hp. destruct (H1 _ _ _ Hj) as (pj & p0 & Hpj & Hp0 & Hrj & Hcj & He & Hpar & Hlt). simplify_eq.
  assert (j <> i) by (intros ->; simplify_eq; destruct Hrj; congruence).
  split.
  - intros k x b' Hk. upd.
    + injection Hk as <- <-. exists pj, (set_parent (Some j) p). rewrite (insert_here _ _ _ _ Hp), list_lookup_insert_ne by done. split_and!; auto.
    + destruct (H1 _ _ _ Hk) as (pk & px & Hpk & Hpx & R). exists pk, px.
      assert (x <> i) by (intros ->; eauto). assert (k <> i) by (intros ->; simplify_eq; destruct R as ([?|?] & _); congruence).
      by rewrite !list_lookup_insert_ne.
  - intros k k' x b1 b2 Hk Hk'. upd; simplify_eq; try done; eauto.
  - intros x px Hx Hs. slots; [exists j, true; by upd|]. destruct (H3 _ _ H4 Hs) as (k & b' & Hk). destruct (decide (k = j)) as [->|]; [exists j, true; upd; congruence|exists k, b'; by upd].
Qed.

(** ** Every step keeps the invariant and does not panic *)

Lemma unlocked_ok k : Cli.cpu_wf k -> Cli.cpu_wf (unlocked k).
Proof. by destruct k. Qed.

Section steps.
Context (G : sys) (c : nat).
Hypothesis I : inv G.

(** The code runs to a state that satisfies the invariant. *)
Definition goes (m : M ptable result) : Prop := exists r s, m (load G c) = Ok r s /\ inv (store G c r s).

Lemma inv_store x e tb' lk' np' i0 k j : tinv tb' (ini G) np' -> np' < 2 ^ 31 ->
  (lk' = lk G /\ holds x = holds (pt G c)) \/ ((lk G = false \/ holds (pt G c) = true) /\ lk' = holds x) ->
  cpu_at x k -> j = proc_of x -> on_ok (<[c := x]> (pt G)) tb' -> emb_ok e tb' ->
  inv (store G c (x, e) (MkPt tb' lk' np' i0 k j)).
Proof. intros. destruct I. split; cbn; eauto using lock_step, cpu_step. Qed.

(** The CPU and its process, at a known point. *)
Lemma at_point x : pt G c = x ->
  cpu_at x (cp G c) /\ load G c = MkPt (tb G) (lk G) (npid G) (Some (ini G)) (cp G c) (proc_of x) /\ (holds x = true -> lk G = true).
Proof.
  intros Hx. destruct (in_cpu _ I c) as [H1 H2]. rewrite Hx in H1, H2. split; [done|]. split; [unfold load; by rewrite H2|].
  intros Hh. apply (lo_held _ _ (in_lock _ I)). exists c. by rewrite Hx.
Qed.

Lemma at_proc j : proc_of (pt G c) = Some j -> exists p, tb G !! j = Some p /\ state p = RUNNING /\ (pt G c = Run j -> pchan p = None).
Proof.
  intros Hj. destruct (oo_in _ _ (in_on _ I) _ _ Hj) as [p Hp]. exists p. split; [done|]. split.
  - apply (oo_running _ _ (in_on _ I) _ _ Hp). eauto.
  - intros Hr. by eapply (oo_chan _ _ (in_on _ I)).
Qed.

(** A change of the table that only wakes and marks processes. *)
Lemma inv_soft x tb' lk' i0 k j : tsoft (tb G) tb' -> x = pt G c ->
  (lk' = lk G /\ holds x = holds (pt G c)) \/ ((lk G = false \/ holds (pt G c) = true) /\ lk' = holds x) ->
  cpu_at x k -> j = proc_of x -> inv (store G c (x, emb G) (MkPt tb' lk' (npid G) i0 k j)).
Proof.
  intros Hs Hx Hl Hk Hj. apply inv_store; try done.
  - eapply tinv_soft; [done|apply I].
  - apply I.
  - apply (on_same _ (tb G)); [apply I|by rewrite Hx|by apply (keeps_soft _ _ _ Hs); auto|].
    intros i p' -> Hi. destruct (tsoft_lookup _ _ _ _ Hs Hi) as (p & Hp & So). rewrite (so_chan _ _ So). by eapply (oo_chan _ _ (in_on _ I)).
  - apply (emb_same _ (tb G)); [apply I|by apply (keeps_soft _ _ _ Hs); auto].
Qed.

Lemma go_loop : pt G c = Idle -> lk G = false ->
  goes (modify (fun s => set_pcpu (Cli.sti (pcpu s)) s);; acquire;; mret (Sched 0, emb G)).
Proof.
  intros Hx Hl. destruct (at_point _ Hx) as (Hc & Eload & _). rewrite Hl in Eload. unfold goes. rewrite Eload. eexists _, _. split.
  - run1. rewrite (bind_ok_l _ _ _ _ _ (acquire_mk _ _ _ _ _)). reflexivity.
  - destruct (cp G c) as [n ie fi]. cbn in Hc. subst n. apply inv_store; try done.
    + apply I.
    + apply I.
    + rewrite Hl. by right; split; [left|].
    + apply (on_same _ (tb G)); [apply I|by rewrite Hx|apply keeps_refl; auto|done].
    + apply I.
Qed.

Lemma go_wakeup x ch : pt G c = x -> x = Idle \/ (exists j, x = Run j) -> lk G = false -> goes (wakeup ch;; mret (x, emb G)).
Proof.
  intros Hx Hor Hl. destruct (at_point _ Hx) as (Hc & Eload & _). rewrite Hl in Eload. unfold goes. rewrite Eload.
  assert (Cli.cpu_wf (cp G c) /\ Cli.ncli (cp G c) < 2 ^ 31 - 1 /\ cpu_at x (unlocked (cp G c))) as (Hw & Hn & Hu).
  { destruct Hor as [->|[j ->]]; cbn in Hc.
    - unfold Cli.cpu_wf. cbn. rewrite Hc. split_and!; (lia || done).
    - destruct Hc. split_and!; [done..|]. cbn. split; [by apply unlocked_ok|done]. }
  eexists _, _. split; [rewrite (bind_ok_l _ _ _ _ _ (run_wakeup _ _ _ _ ch _ Hw Hn)); reflexivity|].
  apply inv_soft; try done; [apply tsoft_wake|left; by rewrite Hl, Hx].
Qed.

Lemma go_kill j n : pt G c = Run j -> lk G = false -> goes (kill n;; mret (Run j, emb G)).
Proof.
  intros Hx Hl. destruct (at_point _ Hx) as ([Hw Hn] & Eload & _). rewrite Hl in Eload. unfold goes. rewrite Eload.
  destruct (run_kill (tb G) (npid G) (Some (ini G)) (cp G c) n (Some j) Hw Hn) as (r & tb' & E & Hs).
  eexists _, _. split; [rewrite (bind_ok_l _ _ _ _ _ E); reflexivity|].
  apply inv_soft; try done. left. by rewrite Hl, Hx.
Qed.

(** *** The scheduler, and a process that has been switched to *)

Lemma go_sched i : pt G c = Sched i ->
  goes (r ← schedule i; match r with Some j => mret (In j, emb G) | None => release;; mret (Idle, emb G) end).
Proof.
  intros Hx. destruct (at_point _ Hx) as ([Hn Hf] & Eload & Hh). specialize (Hh eq_refl). unfold goes. rewrite Eload, Hh.
  destruct (run_schedule (tb G) (npid G) (Some (ini G)) (cp G c) i Hn Hf) as [E|(j & p & Hp & Hr & E)].
  - eexists _, _. split; [rewrite (bind_ok_l _ _ _ _ _ E); erewrite bind_ok_l by (by apply release_one); reflexivity|].
    apply inv_store; try done; try apply I.
    + right. split; [|done]. right. by rewrite Hx.
    + apply (on_same _ (tb G)); [apply I|by rewrite Hx|apply keeps_refl; auto|done].
  - eexists _, _. split; [rewrite (bind_ok_l _ _ _ _ _ E); reflexivity|].
    apply inv_store; try done; try apply I.
    + pose proof (in_tb _ I) as T. apply (tinv_live _ _ _ j p); try done; unfold alive; cbn; auto.
      by intros k; apply (ti_self _ _ _ T).
    + left. by rewrite Hh, Hx.
    + apply on_gain; [apply I|by rewrite Hx|done|congruence].
    + apply (emb_same _ (tb G)); [apply I|]. apply (keeps_insert _ _ _ p); auto. unfold calm. cbn. rewrite Hr. naive_solver.
Qed.

(** A process returns from the scheduler: it gives back the lock and runs. *)
Section resume.
Context (j : nat) (p : proc).
Hypothesis (Hx : proc_of (pt G c) = Some j) (Hp : tb G !! j = Some p).
Local Abbreviation tb1 := (<[j := set_pchan None p]> (tb G)).

Lemma resumed : tinv tb1 (ini G) (npid G) /\ on_ok (<[c := Run j]> (pt G)) tb1 /\ emb_ok (emb G) tb1.
Proof.
  destruct (at_proc j Hx) as (p0 & Hp0 & Hr & _). simplify_eq. pose proof (in_tb _ I) as T. split_and!.
  - apply (tinv_live _ _ _ j p); try done; unfold alive; cbn; auto; congruence.
  - apply (on_same _ (tb G)); [apply I|by rewrite Hx|by apply (keeps_insert _ _ _ p); auto|].
    intros i p' [= <-] Hi. by slots.
  - apply (emb_same _ (tb G)); [apply I|]. apply (keeps_insert _ _ _ p); auto. unfold calm. cbn. naive_solver.
Qed.

Lemma inv_resume tb' k : lk G = false \/ holds (pt G c) = true -> tb' = tb1 -> Cli.ncli k <= 1 -> Cli.cpu_wf k ->
  inv (store G c (Run j, emb G) (MkPt tb' false (npid G) (Some (ini G)) k (Some j))).
Proof.
  intros Hl -> Hk Hw. destruct resumed as (R1 & R2 & R3). apply inv_store; try done; [apply I|auto|].
  cbn. split; [done|lia].
Qed.
End resume.

Lemma set_pchan_same p : pchan p = None -> set_pchan None p = p.
Proof. destruct p. cbn. by intros ->. Qed.

Lemma go_yield_in j p b : pt G c = In j -> tb G !! j = Some p -> pchan p = None -> goes (yield_in b;; mret (Run j, emb G)).
Proof.
  intros Hx Hp Hch. destruct (at_point _ Hx) as ([Hn Hf] & Eload & Hh). specialize (Hh eq_refl). unfold goes. rewrite Eload, Hh.
  eexists _, _. split.
  - unfold yield_in, sched_in. run1. run1. erewrite bind_ok_l by (by apply release_one). reflexivity.
  - apply (inv_resume j p); rewrite ?Hx; try done; [by right|]. by rewrite set_pchan_same, list_insert_id.
Qed.

Lemma go_forkret j p : pt G c = In j -> tb G !! j = Some p -> pchan p = None -> goes (release;; mret (Run j, emb G)).
Proof.
  intros Hx Hp Hch. destruct (at_point _ Hx) as ([Hn Hf] & Eload & Hh). specialize (Hh eq_refl). unfold goes. rewrite Eload, Hh.
  eexists _, _. split; [erewrite bind_ok_l by (by apply release_one); reflexivity|].
  apply (inv_resume j p); rewrite ?Hx; try done; [by right|]. by rewrite set_pchan_same, list_insert_id.
Qed.

Lemma go_sleep_in j p b : pt G c = In j -> tb G !! j = Some p -> goes (sleep_in (Some caller_lock) b;; mret (Run j, emb G)).
Proof.
  intros Hx Hp. destruct (at_point _ Hx) as ([Hn Hf] & Eload & Hh). specialize (Hh eq_refl). unfold goes. rewrite Eload, Hh.
  eexists _, _. split.
  - unfold sleep_in, sched_in, caller_lock. run1. run1. run1. run1. run1. run1. run1. erewrite bind_ok_l by (by apply release_one). cbv beta. run1. reflexivity.
  - apply (inv_resume j p); rewrite ?Hx; try done. by right.
Qed.

(** *** wait *)

(** Process [j] leaves its CPU to the scheduler. *)
Lemma inv_leave j p p' k : proc_of (pt G c) = Some j -> tb G !! j = Some p -> lk G = false \/ holds (pt G c) = true ->
  tinv (<[j := p']> (tb G)) (ini G) (npid G) -> state p' <> RUNNING -> state p' <> EMBRYO ->
  (emb G j <> None -> state p' = RUNNABLE /\ pchan p' = pchan p /\ pid p' = pid p) -> Cli.ncli k = 1 -> Cli.fl_if k = false ->
  inv (store G c (Sched (S j), emb G) (MkPt (<[j := p']> (tb G)) true (npid G) (Some (ini G)) k None)).
Proof.
  intros Hx Hp Hl T Hr He Hem Hn Hf. destruct (at_proc j Hx) as (p0 & Hp0 & Hrun & _). simplify_eq.
  apply inv_store; try done; [apply I|by right| |].
  - apply (on_lose _ (tb G) _ _ j); [apply I|done..|]. apply (keeps_insert _ _ _ p); [done| |by rewrite decide_True].
    intros i q Hi _. by rewrite decide_False.
  - apply (emb_same _ (tb G)); [apply I|]. apply (keeps_insert _ _ _ p); auto. split_and!; [done|congruence|].
    intros Hj. destruct (Hem Hj) as (-> & -> & ->). auto.
Qed.

Lemma wait_goes j p k : proc_of (pt G c) = Some j -> tb G !! j = Some p -> lk G = false \/ holds (pt G c) = true ->
  emb G j = None -> Cli.ncli k = 1 -> Cli.fl_if k = false ->
  exists r s, wait_round j (emb G) wait_body (MkPt (<[j := set_pchan None p]> (tb G)) true (npid G) (Some (ini G)) k (Some j)) = Ok r s /\
    inv (store G c r s).
Proof.
  intros Hx Hp Hl He Hn Hf. destruct (at_proc j Hx) as (p0 & Hp0 & Hr & _). simplify_eq.
  destruct (resumed j p Hx Hp) as (R1 & R2 & R3).
  pose proof (insert_here (tb G) j (set_pchan None p) p Hp) as Hp1.
  destruct (run_wait_body _ (npid G) (Some (ini G)) k j _ Hp1 Hn Hf) as [E|[(i & pi & Hi & Hpar & Hz & E)|[Hnz E]]].
  - eexists _, _. split; [unfold wait_round; rewrite (bind_ok_l _ _ _ _ _ E); reflexivity|]. by apply (inv_resume j p).
  - eexists _, _. split; [unfold wait_round; rewrite (bind_ok_l _ _ _ _ _ E); reflexivity|].
    assert (quiet i pi (reap pi)) by (unfold quiet; cbn; rewrite Hz; naive_solver).
    apply inv_store; try done; [|apply I|auto| |].
    + apply (tinv_slot _ _ (npid G) _ _ pi); try done; cbn; auto; [by right; right|]. eapply (ti_inert _ _ _ R1); [done|by right; right].
    + apply (on_quiet _ _ _ R2). apply (keeps_insert _ _ _ pi); auto.
    + apply (emb_same _ _ _ R3). apply (keeps_insert _ _ _ pi); auto. unfold calm. cbn. rewrite Hz. split_and!; [done..|].
      intros Hei. destruct (emb G i) as [[x b]|] eqn:Ei; [|done]. destruct (eo_ok _ _ R3 _ _ _ Ei) as (pk & ? & Hk & _ & [?|?] & _); simplify_eq; congruence.
  - eexists _, _. split; [unfold wait_round; rewrite (bind_ok_l _ _ _ _ _ E); reflexivity|].
    cbn. rewrite list_insert_insert_eq. apply (inv_leave j p); try done.
    apply (tinv_live _ _ _ j p); try done; try (unfold alive; cbn; auto; done).
    + apply I.
    + cbn. congruence.
    + intros _ _ ci pc Hc Hpar. destruct (decide (ci = j)) as [->|]; [simplify_eq; congruence|].
      apply (Hnz ci pc); [by rewrite list_lookup_insert_ne|done].
Qed.

Lemma go_wait_in j p k b : pt G c = In j -> tb G !! j = Some p -> pchan p = Some (ChProc k) ->
  goes (wait_round j (emb G) (sleep_in None b;; wait_body)).
Proof.
  intros Hx Hp Hch. destruct (at_point _ Hx) as ([Hn Hf] & Eload & Hh). specialize (Hh eq_refl). unfold goes. rewrite Eload, Hh.
  assert (emb G j = None) as He.
  { destruct (emb G j) as [[i x]|] eqn:E; [|done]. destruct (eo_ok _ _ (in_emb _ I) _ _ _ E) as (pk & ? & ? & _ & _ & ? & _). congruence. }
  destruct (wait_goes j p (Cli.MkCpu 1 b false)) as (r & s & E & Hi); rewrite ?Hx; auto. exists r, s. split; [|done].
  rewrite <- E. unfold wait_round at 1, sleep_in, sched_in. destruct (cp G c) as [n ie fi]. cbn in Hn, Hf. subst n fi.
  repeat run1. done.
Qed.

Lemma go_wait j : pt G c = Run j -> lk G = false -> Cli.ncli (cp G c) = 0 -> emb G j = None -> goes (wait_round j (emb G) wait_table).
Proof.
  intros Hx Hl Hn He. destruct (at_point _ Hx) as (_ & Eload & _). unfold goes. rewrite Eload, Hl.
  destruct (at_proc j) as (p & Hp & Hr & Hch); [by rewrite Hx|]. specialize (Hch Hx). destruct (cp G c) as [n ie fi] eqn:Ec. cbn in Hn. subst n.
  destruct (wait_goes j p (Cli.pushcli (Cli.MkCpu 0 ie fi))) as (r & s & E & Hi); rewrite ?Hx; auto. exists r, s. split; [|done].
  rewrite <- E, set_pchan_same, list_insert_id by done. unfold wait_round, wait_table. run1. by run1.
Qed.

(** *** yield, sleep and exit *)

Lemma go_yield j : pt G c = Run j -> lk G = false -> Cli.ncli (cp G c) = 0 -> goes (to_sched j (emb G) yield_out).
Proof.
  intros Hx Hl Hn. destruct (at_point _ Hx) as (_ & Eload & _). unfold goes. rewrite Eload, Hl.
  destruct (at_proc j) as (p & Hp & Hr & Hch); [by rewrite Hx|]. specialize (Hch Hx).
  eexists _, _. split; [unfold to_sched; rewrite (bind_ok_l _ _ _ _ _ (run_yield _ _ _ _ j p Hp Hn)); reflexivity|].
  destruct (cp G c) as [n ie fi]. cbn in Hn. subst n. apply (inv_leave j p); rewrite ?Hx; auto; try done.
  apply (tinv_live _ _ _ j p); try done; [apply I|unfold alive; cbn; auto..|]; cbn; congruence.
Qed.

Lemma go_sleep j ch : pt G c = Run j -> lk G = false -> Cli.ncli (cp G c) = 1 -> emb G j = None -> (forall k, ch <> ChProc k) ->
  goes (to_sched j (emb G) (sleep_out ch (Some caller_lock))).
Proof.
  intros Hx Hl Hn He Hnc. destruct (at_point _ Hx) as ([[_ Hf] _] & Eload & _). unfold goes. rewrite Eload, Hl.
  destruct (at_proc j) as (p & Hp & Hr & Hch); [by rewrite Hx|].
  destruct (run_sleep (tb G) (npid G) (Some (ini G)) (cp G c) j p ch Hp Hn) as [ie E]; [apply Hf; lia|].
  eexists _, _. split; [unfold to_sched; rewrite (bind_ok_l _ _ _ _ _ E); reflexivity|].
  apply (inv_leave j p); rewrite ?Hx; auto; try done.
  apply (tinv_live _ _ _ j p); try done; [apply I|unfold alive; cbn; auto..| |]; cbn; [intros k [= ->]|intros _ [= ->]]; by destruct (Hnc _ eq_refl).
Qed.

Lemma go_exit j : pt G c = Run j -> lk G = false -> Cli.ncli (cp G c) = 0 -> emb G j = None -> j <> ini G ->
  goes (to_sched j (emb G) exit_table).
Proof.
  intros Hx Hl Hn He Hne. destruct (at_point _ Hx) as (_ & Eload & _). unfold goes. rewrite Eload, Hl.
  destruct (at_proc j) as (p & Hp & Hr & Hch); [by rewrite Hx|]. specialize (Hch Hx). pose proof (in_tb _ I) as T.
  destruct (parent p) as [q|] eqn:Eq; [|destruct (ti_orphan _ _ _ T j p Hp Hne Eq); congruence].
  destruct (run_exit (tb G) (npid G) (cp G c) (ini G) j p q (ti_len _ _ _ T) Hp Eq Hn) as (tb1 & p1 & Hex & Hp1 & E).
  eexists _, _. split; [unfold to_sched; rewrite (bind_ok_l _ _ _ _ _ E); reflexivity|].
  assert (length tb1 = length (tb G)) as Hlen.
  { rewrite <- (Forall2_length _ _ _ (ex_soft _ _ _ _ _ Hex)). by len. }
  destruct (cp G c) as [n ie fi]. cbn in Hn. subst n. unfold_setters. apply inv_store; try done.
  - by apply (tinv_exit (tb G) tb1 (ini G) j q (npid G) p p1).
  - apply I.
  - right. split; [by left|done].
  - apply (on_lose _ (tb G) _ _ j); [apply I|by rewrite Hx|done|]. split; [by rewrite length_insert|].
    intros k p' Hk. destruct (exit_slot (tb G) tb1 (ini G) j q p1 Hex Hp1 k p' Hk) as (x & Hxk & A1 & A2 & A3 & [[-> A4]|(Hkj & _ & A4)]); exists x; (split; [done|]).
    + rewrite decide_True by done. congruence.
    + rewrite decide_False by done. unfold quiet. rewrite A3. split; [destruct A4 as [->|[-> ->]]; done|auto].
  - apply (emb_same _ (tb G)); [apply I|]. split; [by rewrite length_insert|].
    intros k p' Hk. destruct (exit_slot (tb G) tb1 (ini G) j q p1 Hex Hp1 k p' Hk) as (x & Hxk & A1 & A2 & A3 & A4); exists x; (split; [done|]).
    assert (state x = EMBRYO -> parent x <> Some j) as Hnp.
    { intros Hxe Hxp. destruct (eo_all _ _ (in_emb _ I) _ _ Hxk Hxe) as (k0 & b & Ek). destruct (eo_ok _ _ (in_emb _ I) _ _ _ Ek) as (? & ? & _ & ? & _ & _ & _ & Hpar & _).
      simplify_eq. destruct b; congruence. }
    unfold calm. rewrite A2, A3. destruct A4 as [[-> A4]|(Hkj & _ & A4)].
    + simplify_eq. split_and!; congruence.
    + destruct A4 as [->|[-> ->]]; [|by naive_solver]. split_and!; [done| |done]. intros Hxe. rewrite A1, bool_decide_false by auto. done.
Qed.

(** *** fork, and locks of other components *)

Lemma run_unlocked j e tb' np' : pt G c = Run j -> tinv tb' (ini G) np' -> np' < 2 ^ 31 ->
  on_ok (pt G) tb' -> emb_ok e tb' -> forall k, Cli.cpu_wf k -> Cli.ncli k < 2 ^ 31 - 1 -> forall i0 lk', lk' = lk G ->
  inv (store G c (Run j, e) (MkPt tb' lk' np' i0 k (Some j))).
Proof.
  intros Hx T Hnp On Em k Hw Hn i0 lk' ->. apply inv_store; try done; [left; by rewrite Hx|].
  destruct (at_proc j) as (p & Hp & _); [by rewrite Hx|].
  apply (on_same _ tb'); [done|by rewrite Hx|apply keeps_refl; auto|].
  intros j' p' [= <-]. by apply (oo_chan _ _ On c).
Qed.

Lemma go_alloc j : pt G c = Run j -> lk G = false -> emb G j = None -> npid G < 2 ^ 31 - 1 ->
  goes (r ← alloc_slot; mret (Run j, <[j := (fun i => (i, false)) <$> r]> (emb G))).
Proof.
  intros Hx Hl He Hnp. destruct (at_point _ Hx) as ([Hw Hn] & Eload & _). unfold goes. rewrite Eload, Hl.
  destruct (at_proc j) as (pj & Hpj & Hr & Hch); [by rewrite Hx|]. specialize (Hch Hx). pose proof (in_tb _ I) as T.
  assert (Cli.cpu_wf (unlocked (cp G c)) /\ Cli.ncli (unlocked (cp G c)) < 2 ^ 31 - 1) as [Hw' Hn'] by (split; [by apply unlocked_ok|done]).
  destruct (ti_pid _ _ _ T j pj Hpj) as [Hj1 Hj2]; [congruence|].
  destruct (run_alloc (tb G) (npid G) (Some (ini G)) (cp G c) (Some j) Hw Hn) as [[E _]|(i & p & Hp & Hu & E)];
    (eexists _, _; split; [rewrite (bind_ok_l _ _ _ _ _ E); reflexivity|]).
  - apply run_unlocked; try done; try apply I. cbn. destruct (in_emb _ I) as [E1 E2 E3]. split.
    + intros k i b Hk. upd; [done|]. eauto.
    + intros k k' i b b' Hk Hk'. upd; try done. eauto.
    + intros i p Hi Hs. destruct (E3 _ _ Hi Hs) as (k & b & Hk). exists k, b. upd; [congruence|done].
  - rewrite (s32_small (npid G + 1)) by lia.
    assert (parent p = None) as Hpar.
    { destruct (parent p) as [q|] eqn:Eq; [|done]. by destruct (ti_parent _ _ _ T _ _ _ Hp Eq). }
    apply run_unlocked; try done; [|lia| |].
    + apply (tinv_slot _ _ (npid G) _ _ p); cbn; auto; try lia; [by left|by eapply (ti_inert _ _ _ T); [|left]|congruence|].
      intros _. split; [lia|]. intros k q Hk Hq Hs. destruct (ti_pid _ _ _ T k q Hq Hs). lia.
    + apply (on_quiet _ (tb G)); [apply I|]. apply (keeps_insert _ _ _ p); auto. unfold quiet. cbn. rewrite Hu. naive_solver.
    + apply (emb_new _ _ j i pj p); try done. apply I.
Qed.

Lemma go_fail j i : pt G c = Run j -> emb G j = Some (i, false) ->
  goes (pupd i (set_state UNUSED);; mret (Run j, <[j := None]> (emb G))).
Proof.
  intros Hx He. destruct (at_point _ Hx) as ([Hw Hn] & Eload & _). unfold goes. rewrite Eload. pose proof (in_tb _ I) as T.
  destruct (eo_ok _ _ (in_emb _ I) _ _ _ He) as (pj & p & Hpj & Hp & Hrj & Hcj & Hs & Hpar & Hlt).
  eexists _, _. split; [erewrite bind_ok_l by (by apply pupd_mk); reflexivity|]. apply run_unlocked; try done.
  - apply (tinv_slot _ _ (npid G) _ _ p); cbn; auto; try lia; [by right; left|eapply (ti_inert _ _ _ T); [done|by right; left]|congruence|done].
  - apply I.
  - apply (on_quiet _ (tb G)); [apply I|]. apply (keeps_insert _ _ _ p); auto. unfold quiet. cbn. rewrite Hs. naive_solver.
  - eapply emb_drop; [apply I|done..].
Qed.

Lemma go_parent j i : pt G c = Run j -> emb G j = Some (i, false) ->
  goes (pupd i (set_parent (Some j));; mret (Run j, <[j := Some (i, true)]> (emb G))).
Proof.
  intros Hx He. destruct (at_point _ Hx) as ([Hw Hn] & Eload & _). unfold goes. rewrite Eload. pose proof (in_tb _ I) as T.
  destruct (eo_ok _ _ (in_emb _ I) _ _ _ He) as (pj & p & Hpj & Hp & Hrj & Hcj & Hs & Hpar & Hlt).
  assert (state p <> UNUSED) as Hu by congruence.
  eexists _, _. split; [erewrite bind_ok_l by (by apply pupd_mk); reflexivity|]. apply run_unlocked; try done.
  - apply (tinv_slot _ _ (npid G) _ _ p); cbn; auto; try lia; [by right; left|eapply (ti_inert _ _ _ T); [done|by right; left]| |].
    + intros q [= <-]. split; [done|]. exists pj. split_and!; [done| |done]. unfold alive. tauto.
    + intros _. split; [by apply (ti_pid _ _ _ T i p)|]. intros k q Hk Hq Hsq E. by apply Hk, (ti_uniq _ _ _ T k i q p).
  - apply I.
  - apply (on_quiet _ (tb G)); [apply I|]. apply (keeps_insert _ _ _ p); auto. by unfold quiet.
  - eapply emb_parent; [apply I|done..].
Qed.

Lemma go_start j i : pt G c = Run j -> lk G = false -> emb G j = Some (i, true) ->
  goes (acquire;; pupd i (set_state RUNNABLE);; release;; mret (Run j, <[j := None]> (emb G))).
Proof.
  intros Hx Hl He. destruct (at_point _ Hx) as ([Hw Hn] & Eload & _). unfold goes. rewrite Eload, Hl. pose proof (in_tb _ I) as T.
  destruct (eo_ok _ _ (in_emb _ I) _ _ _ He) as (pj & p & Hpj & Hp & Hrj & Hcj & Hs & Hpar & Hlt).
  assert (state p <> UNUSED) as Hu by congruence.
  eexists _, _. split; [run1; run1; erewrite bind_ok_l by (by apply release_any); reflexivity|]. apply run_unlocked; try done.
  - apply (tinv_slot _ _ (npid G) _ _ p); cbn; auto; try lia; [by right; left|eapply (ti_inert _ _ _ T); [done|by right; left]| |congruence|].
    + intros q Hq. assert (q = j) as -> by congruence. split; [done|]. exists pj. split_and!; [done| |done]. unfold alive. tauto.
    + intros _. split; [by apply (ti_pid _ _ _ T i p)|]. intros k q Hk Hq Hsq E. by apply Hk, (ti_uniq _ _ _ T k i q p).
  - apply I.
  - apply (on_quiet _ (tb G)); [apply I|]. apply (keeps_insert _ _ _ p); auto. unfold quiet. cbn. rewrite Hs. naive_solver.
  - eapply emb_drop; [apply I|done..].
Qed.

Lemma go_push j : pt G c = Run j -> Cli.ncli (cp G c) < 2 ^ 31 - 2 ->
  goes (modify (fun s => set_pcpu (Cli.pushcli (pcpu s)) s);; mret (Run j, emb G)).
Proof.
  intros Hx Hk. destruct (at_point _ Hx) as ([[Hw1 Hw2] Hn] & Eload & _). unfold goes. rewrite Eload.
  eexists _, _. split; [run1; reflexivity|]. destruct (cp G c) as [n ie fi]. cbn in *.
  apply run_unlocked; try done; try apply I; unfold Cli.cpu_wf; cbn; rewrite (s32_small (n + 1)) by lia; [split; [lia|done]|lia].
Qed.

Lemma go_pop j : pt G c = Run j -> 0 < Cli.ncli (cp G c) -> goes (zoom pcpu set_pcpu Cli.popcli;; mret (Run j, emb G)).
Proof.
  intros Hx Hk. destruct (at_point _ Hx) as ([[Hw1 Hw2] Hn] & Eload & _). unfold goes. rewrite Eload.
  destruct (cp G c) as [n ie fi]. cbn in *. rewrite (Hw2 Hk).
  assert (Cli.popcli (Cli.MkCpu n ie false) = Ok tt (if ((n - 1) =? 0) && ie then Cli.MkCpu (n - 1) ie true else Cli.MkCpu (n - 1) ie false)) as E.
  { unfold Cli.popcli. cbn. rewrite (s32_small (n - 1)) by lia. rewrite (proj2 (Z.ltb_ge (n - 1) 0)) by lia. done. }
  eexists _, _. split; [erewrite bind_ok_l by (unfold zoom; cbn [pcpu]; rewrite E; reflexivity); reflexivity|].
  apply run_unlocked; try done; try apply I; destruct (Z.eqb_spec (n - 1) 0), ie; unfold Cli.cpu_wf; cbn;
    first [lia | split; [lia | intros; first [done | lia]]].
Qed.
End steps.

(** ** Reachable states *)

(** After [userinit]: init is RUNNABLE in slot 0 with pid 1, every other slot
    is UNUSED, and every CPU is in its scheduler. *)
Record initial (G : sys) : Prop := MkInitial {
  st_tb : exists p, tb G = p :: replicate (NPROC - 1) proc0 /\ state p = RUNNABLE /\ pid p = 1 /\ parent p = None /\ pchan p = None;
  st_ini : ini G = 0%nat;
  st_npid : npid G = 2;
  st_lk : lk G = false;
  st_cpu : forall c, pt G c = Idle /\ Cli.ncli (cp G c) = 0 /\ cproc G c = None;
  st_emb : forall j, emb G j = None
}.

Definition reachable (G : sys) : Prop := exists G0, initial G0 /\ rtc step G0 G.

Lemma initial_inv G : initial G -> inv G.
Proof.
  intros [(p & Etb & Hs & Hpid & Hpar & Hch) Hi Hn Hl Hc He].
  assert (forall i q, tb G !! i = Some q -> (i = 0%nat /\ q = p) \/ (i <> 0%nat /\ q = proc0)) as Htb.
  { intros i q Hq. rewrite Etb in Hq. apply lookup_cons_Some in Hq as [[-> <-]|[? Hq]]; [auto|].
    apply lookup_replicate in Hq as [-> _]. right. split; [lia|done]. }
  assert (tb G !! 0%nat = Some p) as H0 by by rewrite Etb.
  split.
  - rewrite Hi, Hn. split.
    + by rewrite Etb.
    + exists p. unfold alive. auto.
    + intros i q k Hq Hk. destruct (Htb _ _ Hq) as [[-> ->]|[_ ->]]; [congruence|done].
    + intros i q Hq Hne _. destruct (Htb _ _ Hq) as [[-> ->]|[_ ->]]; [done|by left].
    + intros i q Hq Hne. destruct (Htb _ _ Hq) as [[-> ->]|[_ ->]]; [lia|done].
    + intros i j q r Hq Hr Hnq Hnr _. destruct (Htb _ _ Hq) as [[-> ->]|[_ ->]], (Htb _ _ Hr) as [[-> ->]|[_ ->]]; done.
    + intros i q Hq Hne. destruct (Htb _ _ Hq) as [[-> ->]|[_ ->]]; [congruence|done].
    + intros i q Hq Hne. destruct (Htb _ _ Hq) as [[-> ->]|[_ ->]]; done.
    + intros i q k Hq Hk. destruct (Htb _ _ Hq) as [[-> ->]|[_ ->]]; [congruence|done].
    + intros i q k Hq Hk. destruct (Htb _ _ Hq) as [[-> ->]|[_ ->]]; [congruence|done].
  - rewrite Hn. lia.
  - rewrite Hl. split; [split; [done|]|]; setoid_rewrite (fun c => proj1 (Hc c)); [by intros [c ?]|done].
  - intros c. destruct (Hc c) as (-> & ? & ->). done.
  - split; setoid_rewrite (fun c => proj1 (Hc c)); try done.
    intros j q Hq. destruct (Htb _ _ Hq) as [[-> ->]|[_ ->]]; (split; [|by intros [c ?]]); cbn; congruence.
  - split; [intros k i b; by rewrite He|intros k k' i b b'; by rewrite He|].
    intros i q Hq Hne. destruct (Htb _ _ Hq) as [[-> ->]|[_ ->]]; [congruence|done].
Qed.

(** A CPU that has the lock, or finds it free, goes on; one that finds it
    taken waits for it, or runs code that does not need it. *)
Lemma code_goes G c m : inv G -> code G c (pt G c) m -> lk G = false \/ holds (pt G c) = true -> goes G c m.
Proof.
  intros I Hm Hl. remember (pt G c) as x eqn:Hx. symmetry in Hx.
  assert (holds x = false -> lk G = false) as Hl' by (intros E; rewrite E in Hl; by destruct Hl).
  destruct Hm; try specialize (Hl' eq_refl).
  - by apply go_loop.
  - apply go_wakeup; auto.
  - by apply go_sched.
  - by eapply go_yield_in.
  - by eapply go_forkret.
  - by eapply go_sleep_in.
  - by eapply go_wait_in.
  - by apply go_alloc.
  - by apply go_fail.
  - by apply go_parent.
  - by apply go_start.
  - apply go_wakeup; eauto.
  - by apply go_kill.
  - by apply go_push.
  - by apply go_pop.
  - by apply go_yield.
  - by apply go_sleep.
  - by apply go_exit.
  - by apply go_wait.
Qed.

(** A taken lock stops every operation that needs it. *)
Lemma code_busy G c m : inv G -> code G c (pt G c) m -> lk G = true -> holds (pt G c) = false ->
  m (load G c) = Panic "acquire" \/ goes G c m.
Proof.
  intros I Hm Hl Hh. remember (pt G c) as x eqn:Hx. symmetry in Hx. destruct (at_point G c I x Hx) as (_ & Eload & _). rewrite Hl in Eload.
  destruct Hm; try done; rewrite ?Eload; try (left; reflexivity).
  - right. by apply go_fail.
  - right. by apply go_parent.
  - right. by apply go_push.
  - right. by apply go_pop.
Qed.

Lemma step_keeps G G' : inv G -> step G G' -> inv G'.
Proof.
  intros I [c m r s Hm E]. assert (m (load G c) = Panic "acquire" \/ goes G c m) as [E'|(r' & s' & E' & I')].
  - destruct (holds (pt G c)) eqn:Eh; [right; by apply code_goes; auto|].
    destruct (lk G) eqn:El; [by apply code_busy|right; apply code_goes; auto].
  - congruence.
  - rewrite E in E'. by simplify_eq.
Qed.

Lemma sys_reachable_inv G : reachable G -> inv G.
Proof.
  intros (G0 & H0 & Hr). apply initial_inv in H0. induction Hr; eauto using step_keeps.
Qed.

(** ** The process tree *)

Definition child_of (tb : list proc) (i q : nat) : Prop := exists p, tb !! i = Some p /\ parent p = Some q.

Lemma tinv_tree tb ini np i p : tinv tb ini np -> tb !! i = Some p -> state p <> UNUSED -> state p <> EMBRYO -> rtc (child_of tb) i ini.
Proof.
  intros T. remember (Z.to_nat (pid p)) as n eqn:Hn. revert i p Hn. induction n as [n IH] using lt_wf_ind. intros i p Hn Hp Hu He.
  destruct (decide (i = ini)) as [->|Hne]; [apply rtc_refl|].
  destruct (parent p) as [q|] eqn:Eq; [|by destruct (ti_orphan _ _ _ T i p Hp Hne Eq)].
  destruct (ti_parent _ _ _ T i p q Hp Eq) as (_ & pq & Hpq & Ha & Hlt).
  assert (state pq <> UNUSED /\ state pq <> EMBRYO) as [Hq1 Hq2] by (split; procstates).
  pose proof (ti_pid _ _ _ T q pq Hpq Hq1). eapply rtc_l; [by exists p|]. by eapply (IH (Z.to_nat (pid pq))); [lia|..].
Qed.

(** C5: In every state the CPUs can reach, whatever the interleaving of
    scheduling, fork, exit, wait, sleep, wakeup and kill: processes have
    distinct pids; every process that is not being built descends from init
    through parents that are alive; and no process sleeps in [wait] while one
    of its children is a zombie, so the wakeup in [exit] is never lost, also
    when the child was passed to init. *)
Theorem process_tree G : reachable G ->
  (forall i j p q, tb G !! i = Some p -> tb G !! j = Some q -> state p <> UNUSED -> state q <> UNUSED -> pid p = pid q -> i = j) /\
  (forall i p, tb G !! i = Some p -> state p <> UNUSED -> state p <> EMBRYO -> rtc (child_of (tb G)) i (ini G)) /\
  (forall i p q, tb G !! i = Some p -> parent p = Some q -> exists pq, tb G !! q = Some pq /\ alive pq) /\
  (forall i p k, tb G !! i = Some p -> state p = SLEEPING -> pchan p = Some (ChProc k) ->
    k = i /\ forall z pz, tb G !! z = Some pz -> parent pz = Some i -> state pz <> ZOMBIE).
Proof.
  intros Hr. pose proof (in_tb _ (sys_reachable_inv _ Hr)) as T. split_and!.
  - apply T.
  - eauto using tinv_tree.
  - intros i p q Hi Hq. destruct (ti_parent _ _ _ T _ _ _ Hi Hq) as (_ & pq & ? & ? & _). eauto.
  - intros i p k Hi Hs Hk. pose proof (ti_self _ _ _ T _ _ _ Hi Hk). subst. split; [done|]. exact (ti_wait _ _ _ T _ _ _ Hi Hs Hk).
Qed.

(** C7: In every reachable state the CPUs agree with the table: ptable.lock is
    held exactly when one CPU is in the scheduler loop or switching, that CPU
    being the only one; a process is RUNNING exactly when it is the current
    process of a CPU, of one CPU only; and a slot is EMBRYO exactly when one
    process is building it. *)
Theorem cpus_agree G : reachable G ->
  (lk G = true <-> exists c, holds (pt G c) = true) /\
  (forall c c', holds (pt G c) = true -> holds (pt G c') = true -> c = c') /\
  (forall j p, tb G !! j = Some p -> state p = RUNNING <-> exists c, cproc G c = Some j) /\
  (forall c c' j, cproc G c = Some j -> cproc G c' = Some j -> c = c') /\
  (forall i p, tb G !! i = Some p -> state p = EMBRYO <-> exists k b, emb G k = Some (i, b)) /\
  (forall k k' i b b', emb G k = Some (i, b) -> emb G k' = Some (i, b') -> k = k').
Proof.
  intros Hr. destruct (sys_reachable_inv _ Hr) as [_ _ [L1 L2] Hc [O1 O2 O3 O4] [E1 E2 E3]].
  assert (forall c, cproc G c = proc_of (pt G c)) as Ec by apply Hc. split_and!; try done.
  - intros j p Hp. rewrite (O3 _ _ Hp). by setoid_rewrite Ec.
  - intros c c' j. rewrite !Ec. apply O1.
  - intros i p Hp. split; [by apply E3|]. intros (k & b & Hk). destruct (E1 _ _ _ Hk) as (? & ? & _ & ? & _ & _ & ? & _). by simplify_eq.
Qed.

(** C6: Nothing a CPU does to the process table in a reachable state panics or
    goes wrong: the code either runs, or waits for ptable.lock while another
    CPU holds it.  In particular the checks of [sched] for the lock, the
    nesting of interrupts, the state and the interrupt flag never fail. *)
Theorem table_code_safe G c m : reachable G -> code G c (pt G c) m ->
  (exists r s, m (load G c) = Ok r s) \/
  (m (load G c) = Panic "acquire" /\ exists c', c' <> c /\ holds (pt G c') = true).
Proof.
  intros Hr Hm. pose proof (sys_reachable_inv _ Hr) as I.
  assert (lk G = false \/ holds (pt G c) = true -> exists r s, m (load G c) = Ok r s) as Hgo.
  { intros Hl. destruct (code_goes _ _ _ I Hm Hl) as (r & s & E & _). eauto. }
  destruct (holds (pt G c)) eqn:Eh; [auto|]. destruct (lk G) eqn:El; [|auto].
  destruct (code_busy _ _ _ I Hm El Eh) as [E|(r & s & E & _)]; [|eauto]. right. split; [done|].
  apply (lo_held _ _ (in_lock _ I)) in El as [c' Hc']. exists c'. split; [congruence|done].
Qed.

(** ** A run *)

Module SchedEx.

(** Two or more CPUs at boot. *)
Definition boot : sys :=
  MkSys (set_state RUNNABLE (set_pid 1 proc0) :: replicate (NPROC - 1) proc0) false 2 0
    (fun _ => Idle) (fun _ => Cli.MkCpu 0 false false) (fun _ => None) (fun _ => None).

Lemma boot_initial : initial boot.
Proof. split; try done. eexists. split; [reflexivity|]. done. Qed.

(** CPU 1 takes the lock and switches to init, while CPU 0 has not looked. *)
Definition entered : sys :=
  match (modify (fun s => set_pcpu (Cli.sti (pcpu s)) s);; acquire;; mret (Sched 0, emb boot)) (load boot 1) with
  | Ok r s => store boot 1 r s
  | _ => boot
  end.

Definition switched : sys :=
  match (r ← schedule 0; match r with Some j => mret (In j, emb entered) | None => release;; mret (Idle, emb entered) end) (load entered 1) with
  | Ok r s => store entered 1 r s
  | _ => entered
  end.

Lemma switched_reachable : reachable switched.
Proof.
  exists boot. split; [apply boot_initial|]. eapply rtc_l.
  - eapply (do_step boot 1); [apply k_loop|reflexivity].
  - eapply rtc_l; [|apply rtc_refl]. eapply (do_step entered 1); [apply k_sched|reflexivity].
Qed.
End SchedEx.

Lemma process_tree_witness :
  rtc (child_of (tb SchedEx.switched)) 0%nat 0%nat.
Proof.
  destruct (process_tree SchedEx.switched SchedEx.switched_reachable) as (_ & H & _).
  eapply (H 0%nat); [reflexivity|done..].
Defined.

Lemma cpus_agree_witness : cproc SchedEx.switched 1 = Some 0%nat /\ forall c, cproc SchedEx.switched c = Some 0%nat -> c = 1%nat.
Proof.
  split; [reflexivity|]. intros c Hc. destruct (cpus_agree SchedEx.switched SchedEx.switched_reachable) as (_ & _ & _ & H & _).
  by apply (H c 1%nat 0%nat).
Defined.

Lemma table_code_safe_witness :
  (wakeup ChTicks;; mret (Idle, emb SchedEx.switched)) (load SchedEx.switched 0%nat) = Panic "acquire" /\
  exists c', c' <> 0%nat /\ holds (pt SchedEx.switched c') = true.
Proof.
  destruct (table_code_safe SchedEx.switched 0%nat _ SchedEx.switched_reachable (k_intr _ _ ChTicks)) as [(r & s & E)|H].
  - discriminate E.
  - exact H.
Defined.
