(* ===== verification/Pipe.v ===== *)
(** * pipe.c: the bounded buffer between two processes

    A pipe is the code's ring buffer with its two free-running 32-bit counters.
    [pipewrite] and [piperead] run under the pipe's lock from one [sleep] to
    the next; a call that goes to sleep is a result of its own, from which
    [pipewrite_resume] or [piperead] continue once woken.  The theorems relate
    the ring to a FIFO queue, over any interleaving of readers, writers and
    closers. *)

From S2P Require Import Prelude Memory Layout Spinlock.

Module Pipe.

Definition PIPESIZE : Z := 512.

(** [struct pipe], and the channels woken so far. *)
Record pipe := MkPipe {
  plock : bool;
  data : list Z;
  nread : Z;
  nwrite : Z;
  readopen : bool;
  writeopen : bool;
  woken : list chan
}.

Section pipe.
(** The address of the pipe, which names its two channels. *)
Context (self : Z).

Definition set_plock (b : bool) (p : pipe) : pipe :=
  MkPipe b (data p) (nread p) (nwrite p) (readopen p) (writeopen p) (woken p).

Definition wakeup (c : chan) : M pipe unit := modify (fun p =>
  MkPipe (plock p) (data p) (nread p) (nwrite p) (readopen p) (writeopen p) (woken p ++ [c])).

Definition acquire : M pipe unit := Seq.acquire plock set_plock.
Definition release : M pipe unit := Seq.release plock set_plock.

(** The initialisation [pipealloc] performs on a freshly allocated page. *)
Definition pipe_init (page : list Z) : pipe :=
  MkPipe false page 0 0 true true [].

(** [pipeclose]: the result says whether the page is freed. *)
Definition pipeclose (writable : bool) : M pipe bool :=
  acquire;;
  (if writable then
     modify (fun p => MkPipe (plock p) (data p) (nread p) (nwrite p) (readopen p) false (woken p));;
     wakeup (ChPipeRead self)
   else
     modify (fun p => MkPipe (plock p) (data p) (nread p) (nwrite p) false (writeopen p) (woken p));;
     wakeup (ChPipeWrite self));;
  p ← get;
  release;;
  mret (negb (readopen p) && negb (writeopen p)).

(** [p->data[p->nwrite++ % PIPESIZE] = c] *)
Definition push (c : Z) (p : pipe) : pipe :=
  MkPipe (plock p) (<[Z.to_nat (nwrite p mod PIPESIZE) := c]> (data p)) (nread p)
    (u32 (nwrite p + 1)) (readopen p) (writeopen p) (woken p).

Definition full (p : pipe) : bool := nwrite p =? u32 (nread p + PIPESIZE).

(** How a run of [pipewrite] ends: it returns, or sleeps on [&p->nwrite] with
    the bytes from index [i] on still to write. *)
Inductive wres :=
| WRet (r : Z) (i : nat)
| WSleep (i : nat).

(** The loop of [pipewrite], from index [i], with [rest] the bytes
    [addr[i..n-1]]; it runs with the lock held. *)
Fixpoint pipewrite_loop (killed : bool) (n : Z) (i : nat) (rest : list Z) : M pipe wres :=
  match rest with
  | [] => wakeup (ChPipeRead self);; release;; mret (WRet n i)
  | c :: rest' =>
      p ← get;
      if full p then
        if negb (readopen p) || killed then release;; mret (WRet (-1) i)
        else wakeup (ChPipeRead self);; release;; mret (WSleep i)
      else modify (push c);; pipewrite_loop killed n (S i) rest'
  end.

Definition pipewrite_resume (killed : bool) (addr : list Z) (n : Z) (i : nat) : M pipe wres :=
  acquire;; pipewrite_loop killed n i (drop i (take (Z.to_nat n) addr)).

Definition pipewrite (killed : bool) (addr : list Z) (n : Z) : M pipe wres :=
  pipewrite_resume killed addr n 0.

(** [p->data[p->nread++ % PIPESIZE]] *)
Definition front (p : pipe) : Z := nth (Z.to_nat (nread p mod PIPESIZE)) (data p) 0.
Definition pop (p : pipe) : pipe :=
  MkPipe (plock p) (data p) (u32 (nread p + 1)) (nwrite p) (readopen p) (writeopen p) (woken p).

Definition empty (p : pipe) : bool := nread p =? nwrite p.

Inductive rres :=
| RRet (r : Z) (bytes : list Z)
| RSleep.

(** The copy loop of [piperead]: at most [n] bytes, until the pipe is empty. *)
Fixpoint piperead_copy (n : nat) (acc : list Z) : M pipe (list Z) :=
  match n with
  | O => mret acc
  | S k =>
      p ← get;
      if empty p then mret acc
      else modify pop;; piperead_copy k (acc ++ [front p])
  end.

Definition piperead (killed : bool) (n : Z) : M pipe rres :=
  acquire;;
  p ← get;
  if empty p && writeopen p then
    if killed then release;; mret (RRet (-1) []) else release;; mret RSleep
  else
    bs ← piperead_copy (Z.to_nat n) [];
    wakeup (ChPipeWrite self);;
    release;;
    mret (RRet (Z.of_nat (length bs)) bs).

(** ** The queue a pipe holds *)

Definition count (p : pipe) : Z := u32 (nwrite p - nread p).

Definition contents (p : pipe) : list Z :=
  (fun i => nth (Z.to_nat (u32 (nread p + i) mod PIPESIZE)) (data p) 0) <$> seqZ 0 (count p).

Record wf (p : pipe) : Prop := MkWf {
  wf_len : length (data p) = 512%nat;
  wf_read : 0 <= nread p < 2 ^ 32;
  wf_write : 0 <= nwrite p < 2 ^ 32;
  wf_count : count p <= PIPESIZE
}.

Lemma length_contents p : Z.of_nat (length (contents p)) = count p.
Proof.
  unfold contents. rewrite length_fmap, length_seqZ. pose proof (u32_range (nwrite p - nread p)).
  unfold count. lia.
Qed.

Lemma full_iff p : 0 <= nread p < 2 ^ 32 -> 0 <= nwrite p < 2 ^ 32 ->
  full p = true <-> count p = PIPESIZE.
Proof.
  intros Hr Hw. unfold full, count, PIPESIZE, u32. rewrite Z.eqb_eq. split.
  - intros ->. rewrite Zminus_mod_idemp_l. replace (nread p + 512 - nread p) with 512 by lia. done.
  - intros H. rewrite <- H, Z.add_mod_idemp_r by lia.
    replace (nread p + (nwrite p - nread p)) with (nwrite p) by lia.
    by rewrite Z.mod_small.
Qed.

Lemma empty_iff p : 0 <= nread p < 2 ^ 32 -> 0 <= nwrite p < 2 ^ 32 ->
  empty p = true <-> count p = 0.
Proof.
  intros Hr Hw. unfold empty, count, u32. rewrite Z.eqb_eq. split.
  - intros ->. by rewrite Z.sub_diag.
  - intros H. apply Z.mod_divide in H as [k Hk]; [|lia]. lia.
Qed.

(** The 32-bit counters wrap, but [PIPESIZE] divides 2^32, so slots do not
    jump when they do. *)
Lemma slot_u32 x : u32 x mod PIPESIZE = x mod PIPESIZE.
Proof.
  unfold u32, PIPESIZE. apply Z.mod_mod_divide. by exists (2 ^ 23).
Qed.

(** Different queue positions use different slots. *)
Lemma slot_ne r i j : 0 <= i < 512 -> 0 <= j < 512 -> i <> j ->
  (r + i) mod PIPESIZE <> (r + j) mod PIPESIZE.
Proof.
  unfold PIPESIZE. intros Hi Hj Hne H.
  pose proof (Z.div_mod (r + i) 512). pose proof (Z.div_mod (r + j) 512). lia.
Qed.

Lemma count_push p c : count p < PIPESIZE -> count (push c p) = count p + 1.
Proof.
  unfold count, push, u32. simpl. intros H. rewrite Zminus_mod_idemp_l.
  replace (nwrite p + 1 - nread p) with (nwrite p - nread p + 1) by lia.
  rewrite <- Z.add_mod_idemp_l by lia. apply Z.mod_small.
  pose proof (Z.mod_pos_bound (nwrite p - nread p) (2 ^ 32)). unfold PIPESIZE in *. lia.
Qed.

Lemma count_pop p : 0 < count p -> count (pop p) = count p - 1.
Proof.
  unfold count, pop, u32. simpl. intros H. rewrite Zminus_mod_idemp_r.
  replace (nwrite p - (nread p + 1)) with (nwrite p - nread p - 1) by lia.
  rewrite <- Zminus_mod_idemp_l. apply Z.mod_small.
  pose proof (Z.mod_pos_bound (nwrite p - nread p) (2 ^ 32)). lia.
Qed.

(** The slot written next is the one at distance [count] from the front. *)
Lemma nwrite_slot p : 0 <= nwrite p -> nwrite p mod PIPESIZE = (nread p + count p) mod PIPESIZE.
Proof.
  intros. unfold count. rewrite <- (Z.add_mod_idemp_r (nread p)) by (unfold PIPESIZE; lia).
  rewrite slot_u32. rewrite Z.add_mod_idemp_r by (unfold PIPESIZE; lia). f_equal. lia.
Qed.

Lemma contents_push p c : wf p -> full p = false ->
  contents (push c p) = contents p ++ [c].
Proof.
  intros [Hl Hr Hw Hc] Hf.
  assert (count p < PIPESIZE) as Hlt.
  { assert (count p <> PIPESIZE) by (intros E; apply full_iff in E; [congruence | done | done]). lia. }
  unfold contents. rewrite count_push by done.
  assert (0 <= count p) by (unfold count; apply u32_range).
  rewrite (seqZ_app 0 (count p) 1) by lia. rewrite fmap_app. f_equal.
  - apply list_fmap_ext. intros k x Hx%lookup_seqZ. simpl. rewrite slot_u32.
    assert (0 <= (nwrite p mod PIPESIZE) < 512) by (apply Z.mod_pos_bound; unfold PIPESIZE; lia).
    assert (0 <= ((nread p + x) mod PIPESIZE) < 512) by (apply Z.mod_pos_bound; unfold PIPESIZE; lia).
    rewrite !nth_lookup, list_lookup_insert_ne; [done|].
    rewrite nwrite_slot in * by lia. intros E. apply Z2Nat.inj in E; [|lia|lia].
    revert E. apply slot_ne; unfold PIPESIZE in *; lia.
  - rewrite seqZ_cons by lia. replace (Z.pred 1) with 0 by lia. simpl. f_equal.
    rewrite slot_u32, nth_lookup, nwrite_slot by lia.
    rewrite Z.add_0_l, list_lookup_insert_eq; [done|].
    assert (0 <= ((nread p + count p) mod PIPESIZE) < 512)
      by (apply Z.mod_pos_bound; unfold PIPESIZE; lia). lia.
Qed.

Lemma contents_pop p : wf p -> empty p = false ->
  contents p = front p :: contents (pop p).
Proof.
  intros [Hl Hr Hw Hc] He.
  assert (0 < count p) as Hlt.
  { assert (count p <> 0) by (intros E; apply empty_iff in E; [congruence | done | done]).
    assert (0 <= count p) by (unfold count; apply u32_range). lia. }
  unfold contents. rewrite count_pop by done.
  rewrite (seqZ_cons 0) by lia. rewrite fmap_cons. f_equal.
  - unfold front. rewrite Z.add_0_r, slot_u32. done.
  - replace (Z.pred (count p)) with (count p - 1) by lia.
    change (Z.succ 0) with (1 + 0). rewrite <- (fmap_add_seqZ 1 0), <- list_fmap_compose.
    apply list_fmap_ext. intros k x _. unfold pop; simpl.
    f_equal. f_equal. rewrite !slot_u32.
    rewrite <- (Z.add_mod_idemp_l (u32 _)) by (unfold PIPESIZE; lia). rewrite slot_u32.
    rewrite Z.add_mod_idemp_l by (unfold PIPESIZE; lia). f_equal. lia.
Qed.

Lemma wf_push p c : wf p -> full p = false -> wf (push c p).
Proof.
  intros Hwf Hf. pose proof Hwf as [Hl Hr Hw Hc].
  assert (count p < PIPESIZE).
  { assert (count p <> PIPESIZE) by (intros E; apply full_iff in E; [congruence | done | done]). lia. }
  split; simpl; try done; [by rewrite length_insert | apply u32_range |].
  rewrite count_push by done. lia.
Qed.

Lemma wf_pop p : wf p -> empty p = false -> wf (pop p).
Proof.
  intros Hwf Hf. pose proof Hwf as [Hl Hr Hw Hc].
  assert (0 < count p).
  { assert (count p <> 0) by (intros E; apply empty_iff in E; [congruence | done | done]).
    assert (0 <= count p) by (unfold count; apply u32_range). lia. }
  split; simpl; try done; [apply u32_range |]. rewrite count_pop by done. lia.
Qed.

(** What one run of [pipewrite] does, from index [i] to its return or sleep:
    it appends as many bytes as fit. *)
Record write_spec (killed : bool) (n : Z) (i : nat) (rest : list Z) (p : pipe)
    (r : wres) (p' : pipe) : Prop := MkWS {
  ws_wf : wf p';
  ws_lock : plock p' = false;
  ws_open : readopen p' = readopen p /\ writeopen p' = writeopen p;
  ws_append : let k := Z.to_nat (Z.min (Z.of_nat (length rest)) (PIPESIZE - count p)) in
    contents p' = contents p ++ take k rest /\
    (k = length rest -> r = WRet n (i + k) /\ ChPipeRead self ∈ woken p') /\
    ((k < length rest)%nat -> count p' = PIPESIZE /\
       if negb (readopen p) || killed then r = WRet (-1) (i + k)
       else r = WSleep (i + k) /\ ChPipeRead self ∈ woken p')
}.

Definition windex (r : wres) : nat :=
  match r with WRet _ i => i | WSleep i => i end.

(** Bytes a run of [pipewrite] can store. *)
Definition fits (rest : list Z) (p : pipe) : nat :=
  Z.to_nat (Z.min (Z.of_nat (length rest)) (PIPESIZE - count p)).

Lemma write_spec_index killed n i rest p r p' :
  write_spec killed n i rest p r p' -> windex r = (i + fits rest p)%nat.
Proof.
  intros [_ _ _ A]. cbv zeta in A. fold (fits rest p) in A. destruct A as (_ & A2 & A3).
  destruct (decide (fits rest p = length rest)) as [Heq|Hne]; [by destruct (A2 Heq) as [-> _]|].
  assert (fits rest p < length rest)%nat as Hlt by (unfold fits in *; lia).
  destruct (A3 Hlt) as [_ A4]. destruct (negb _ || _); [by subst | by destruct A4; subst].
Qed.

Lemma wakeup_inv c p : wf p -> exists p', wakeup c p = Ok tt p' /\ wf p' /\ plock p' = plock p /\
  readopen p' = readopen p /\ writeopen p' = writeopen p /\ contents p' = contents p /\
  count p' = count p /\ c ∈ woken p'.
Proof.
  intros [Hl Hr Hw Hc]. eexists. split; [done|]. split; [by split|].
  split_and!; try done. simpl. set_solver.
Qed.

Lemma release_inv p : wf p -> plock p = true -> exists p', release p = Ok tt p' /\ wf p' /\
  plock p' = false /\ readopen p' = readopen p /\ writeopen p' = writeopen p /\
  contents p' = contents p /\ count p' = count p /\ woken p' = woken p.
Proof.
  intros [Hl Hr Hw Hc] Hk. unfold release, Seq.release. rewrite Hk.
  eexists. split; [done|]. split; [by split|]. done.
Qed.

Lemma acquire_inv p : wf p -> plock p = false -> exists p', acquire p = Ok tt p' /\ wf p' /\
  plock p' = true /\ readopen p' = readopen p /\ writeopen p' = writeopen p /\
  contents p' = contents p /\ count p' = count p /\ woken p' = woken p.
Proof.
  intros [Hl Hr Hw Hc] Hk. unfold acquire, Seq.acquire. rewrite Hk.
  eexists. split; [done|]. split; [by split|]. done.
Qed.

Lemma count_nonneg p : 0 <= count p.
Proof. unfold count. apply u32_range. Qed.

Lemma pipewrite_loop_spec killed n i rest p :
  wf p -> plock p = true ->
  exists r p', pipewrite_loop killed n i rest p = Ok r p' /\ write_spec killed n i rest p r p'.
Proof.
  revert i p. induction rest as [|c rest IH]; intros i p Hwf Hlk; pose proof (count_nonneg p) as Hc0.
  - destruct (wakeup_inv (ChPipeRead self) p Hwf) as (p1 & E1 & W1 & L1 & R1 & O1 & C1 & N1 & K1).
    destruct (release_inv p1 W1) as (p2 & E2 & W2 & L2 & R2 & O2 & C2 & N2 & K2); [congruence|].
    exists (WRet n i), p2. cbn [pipewrite_loop].
    rewrite (bind_ok_l _ _ _ _ _ E1), (bind_ok_l _ _ _ _ _ E2). split; [done|].
    destruct Hwf as [_ _ _ Hc].
    split; [done | done | split; congruence |]. cbn [length].
    replace (Z.to_nat (Z.min (Z.of_nat 0) (PIPESIZE - count p))) with 0%nat by lia.
    cbv zeta. rewrite take_0, app_nil_r, Nat.add_0_r.
    split; [congruence|]. split; [intros _; split; [done | by rewrite K2] | simpl; lia].
  - cbn [pipewrite_loop]. unfold mbind at 1, M_bind at 1, get.
    pose proof Hwf as [_ Hr Hw Hc].
    destruct (full p) eqn:Hf.
    + assert (count p = PIPESIZE) as Hfull by (by apply full_iff).
      destruct (negb (readopen p) || killed) eqn:Hk.
      * destruct (release_inv p Hwf Hlk) as (p2 & E2 & W2 & L2 & R2 & O2 & C2 & N2 & K2).
        exists (WRet (-1) i), p2. rewrite (bind_ok_l _ _ _ _ _ E2). split; [done|].
        split; [done | done | done |]. rewrite Hfull.
        replace (Z.to_nat _) with 0%nat by (cbn [length]; lia). cbv zeta.
        rewrite take_0, app_nil_r, Nat.add_0_r. split; [done|]. split; [done|].
        intros _. rewrite Hk. split; [congruence | done].
      * destruct (wakeup_inv (ChPipeRead self) p Hwf) as (p1 & E1 & W1 & L1 & R1 & O1 & C1 & N1 & K1).
        destruct (release_inv p1 W1) as (p2 & E2 & W2 & L2 & R2 & O2 & C2 & N2 & K2); [congruence|].
        exists (WSleep i), p2. rewrite (bind_ok_l _ _ _ _ _ E1), (bind_ok_l _ _ _ _ _ E2).
        split; [done|]. split; [done | done | split; congruence |]. rewrite Hfull.
        replace (Z.to_nat _) with 0%nat by (cbn [length]; lia). cbv zeta.
        rewrite take_0, app_nil_r, Nat.add_0_r. split; [congruence|]. split; [done|].
        intros _. rewrite Hk. split; [congruence|]. split; [done | by rewrite K2].
    + assert (count p < PIPESIZE) as Hlt.
      { assert (count p <> PIPESIZE) by (intros E; apply full_iff in E; [congruence | done | done]). lia. }
      destruct (IH (S i) (push c p)) as (r & p' & E & [W L O A]); [by apply wf_push | done |].
      exists r, p'. split; [done|]. split; [done | done | done |].
      rewrite contents_push in A by done. rewrite count_push in A by done.
      cbn [length]. cbv zeta in *. simpl in O, A.
      replace (Z.to_nat (Z.min (Z.of_nat (S (length rest))) (PIPESIZE - count p)))
        with (S (Z.to_nat (Z.min (Z.of_nat (length rest)) (PIPESIZE - (count p + 1))))) by lia.
      destruct A as (A1 & A2 & A3). rewrite A1. simpl. rewrite <- app_assoc. simpl.
      rewrite <- Nat.add_succ_comm.
      split; [done|]. split; [intros ?; apply A2; lia | intros ?; apply A3; lia].
Qed.

Lemma piperead_copy_spec n acc p :
  wf p ->
  exists p', piperead_copy n acc p = Ok (acc ++ take n (contents p)) p' /\ wf p' /\
    plock p' = plock p /\ readopen p' = readopen p /\ writeopen p' = writeopen p /\
    contents p' = drop n (contents p).
Proof.
  revert acc p. induction n as [|k IH]; intros acc p Hwf.
  - exists p. rewrite take_0, app_nil_r. done.
  - cbn [piperead_copy]. unfold mbind at 1, M_bind at 1, get.
    pose proof Hwf as [_ Hr Hw Hc]. destruct (empty p) eqn:He.
    + assert (contents p = []) as ->.
      { apply nil_length_inv. pose proof (length_contents p) as Hl.
        apply empty_iff in He; [lia | done | done]. }
      exists p. rewrite take_nil, drop_nil, app_nil_r. split; [done|]. split; [done|].
      split_and!; try done. apply nil_length_inv. pose proof (length_contents p) as Hl.
      apply empty_iff in He; [lia | done | done].
    + destruct (IH (acc ++ [front p]) (pop p)) as (p' & E & W & L & R & O & C); [by apply wf_pop|].
      exists p'. rewrite (contents_pop p) by done. simpl. rewrite <- app_assoc in E. done.
Qed.

Lemma piperead_cases killed n p :
  wf p -> plock p = false ->
  exists r p', piperead killed n p = Ok r p' /\ wf p' /\ plock p' = false /\
    readopen p' = readopen p /\ writeopen p' = writeopen p /\
    if empty p && writeopen p
    then contents p' = contents p /\ r = if killed then RRet (-1) [] else RSleep
    else r = RRet (Z.min (Z.max 0 n) (count p)) (take (Z.to_nat n) (contents p)) /\
         contents p' = drop (Z.to_nat n) (contents p) /\ ChPipeWrite self ∈ woken p'.
Proof.
  intros Hwf Hlk. pose proof Hwf as [_ Hr Hw Hc]. pose proof (count_nonneg p).
  destruct (acquire_inv p Hwf Hlk) as (p1 & E1 & W1 & L1 & R1 & O1 & C1 & N1 & K1).
  unfold piperead. rewrite (bind_ok_l _ _ _ _ _ E1). unfold mbind at 1, M_bind at 1, get.
  assert (empty p1 = empty p) as He.
  { pose proof W1 as [_ Hr1 Hw1 _]. pose proof (empty_iff p Hr Hw). pose proof (empty_iff p1 Hr1 Hw1).
    rewrite N1 in *. destruct (empty p), (empty p1); intuition. }
  rewrite He, O1. destruct (empty p && writeopen p) eqn:Hb.
  - destruct (release_inv p1 W1 L1) as (p2 & E2 & W2 & L2 & R2 & O2 & C2 & N2 & K2).
    destruct killed; rewrite (bind_ok_l _ _ _ _ _ E2); eexists _, p2; (split; [done|]);
      split_and!; try done; congruence.
  - destruct (piperead_copy_spec (Z.to_nat n) [] p1 W1) as (p2 & E2 & W2 & L2 & R2 & O2 & C2).
    destruct (wakeup_inv (ChPipeWrite self) p2 W2) as (p3 & E3 & W3 & L3 & R3 & O3 & C3 & N3 & K3).
    destruct (release_inv p3 W3) as (p4 & E4 & W4 & L4 & R4 & O4 & C4 & N4 & K4); [congruence|].
    rewrite (bind_ok_l _ _ _ _ _ E2), (bind_ok_l _ _ _ _ _ E3), (bind_ok_l _ _ _ _ _ E4).
    eexists _, p4. split; [done|]. rewrite C1 in *. split_and!; try done; try congruence.
    simpl. f_equal. rewrite length_take. pose proof (length_contents p). lia.
Qed.

(** A read from a full pipe makes room. *)
Lemma piperead_full m p :
  wf p -> plock p = false -> count p = PIPESIZE -> 0 < m ->
  exists bs p', piperead false m p = Ok (RRet (Z.min m PIPESIZE) bs) p' /\ wf p' /\
    plock p' = false /\ ChPipeWrite self ∈ woken p' /\ count p' < PIPESIZE.
Proof.
  intros W L Hfull Hm.
  destruct (piperead_cases false m p W L) as (r & p' & E & W' & L' & _ & _ & C).
  assert (empty p = false) as He.
  { destruct (empty p) eqn:He; [|done]. destruct W as [_ Hr1 Hw1 _].
    apply empty_iff in He; [|done|done]. unfold PIPESIZE in *. lia. }
  rewrite He in C. simpl in C. destruct C as (-> & C & Hw). rewrite Hfull, Z.max_r in E by lia.
  eexists _, p'. split; [done|]. split_and!; try done.
  pose proof (length_contents p') as Hl. rewrite C, length_drop in Hl.
  pose proof (length_contents p). unfold PIPESIZE in *. lia.
Qed.

(** ** Interleaving of writers, readers and closers *)

(** The pipe, with the bytes accepted from writers and handed to readers. *)
Record sys := MkSys { sp : pipe; sent : list Z; rcvd : list Z }.

Definition rbytes (r : rres) : list Z :=
  match r with RRet _ bs => bs | RSleep => [] end.

(** Each step is one stay in the pipe's critical section: a writer starting or
    resuming at index [i], a reader, or a close of one end. *)
Inductive step : sys -> sys -> Prop :=
| ps_write s killed addr n i r p' :
    pipewrite_resume killed addr n i (sp s) = Ok r p' ->
    step s (MkSys p' (sent s ++ sub i (windex r - i) (take (Z.to_nat n) addr)) (rcvd s))
| ps_read s killed n r p' :
    piperead killed n (sp s) = Ok r p' ->
    step s (MkSys p' (sent s) (rcvd s ++ rbytes r))
| ps_close s w b p' :
    pipeclose w (sp s) = Ok b p' -> step s (MkSys p' (sent s) (rcvd s)).

Inductive reachable (page : list Z) : sys -> Prop :=
| pr_init : reachable page (MkSys (pipe_init page) [] [])
| pr_step s s' : reachable page s -> step s s' -> reachable page s'.

Lemma pipewrite_resume_spec killed addr n i p :
  wf p -> plock p = false ->
  exists r p', pipewrite_resume killed addr n i p = Ok r p' /\
    write_spec killed n i (drop i (take (Z.to_nat n) addr)) p r p'.
Proof.
  intros Hwf Hlk. destruct (acquire_inv p Hwf Hlk) as (p1 & E1 & W1 & L1 & R1 & O1 & C1 & N1 & K1).
  destruct (pipewrite_loop_spec killed n i (drop i (take (Z.to_nat n) addr)) p1 W1 L1)
    as (r & p' & E & [W L O A]).
  exists r, p'. unfold pipewrite_resume. rewrite (bind_ok_l _ _ _ _ _ E1). split; [done|].
  rewrite R1, O1, ?N1, ?C1 in *. by split.
Qed.

Lemma pipeclose_cases w p :
  wf p -> plock p = false ->
  exists p', pipeclose w p = Ok (negb (readopen p') && negb (writeopen p')) p' /\ wf p' /\
    plock p' = false /\ contents p' = contents p /\ count p' = count p /\
    readopen p' = (readopen p && w) /\ writeopen p' = (writeopen p && negb w) /\
    (if w then ChPipeRead self ∈ woken p' else ChPipeWrite self ∈ woken p').
Proof.
  intros [Hl Hr Hw Hc] Hlk.
  unfold pipeclose, acquire, release, Seq.acquire, Seq.release, wakeup, modify, get, mbind, M_bind.
  rewrite Hlk. destruct w; simpl.
  - exists (MkPipe false (data p) (nread p) (nwrite p) (readopen p) false (woken p ++ [ChPipeRead self])).
    split; [done|]. split; [by split|].
    simpl; rewrite ?andb_true_r, ?andb_false_r; split_and!; try done; set_solver.
  - exists (MkPipe false (data p) (nread p) (nwrite p) false (writeopen p) (woken p ++ [ChPipeWrite self])).
    split; [done|]. split; [by split|].
    simpl; rewrite ?andb_true_r, ?andb_false_r; split_and!; try done; set_solver.
Qed.

Lemma pipe_reachable_inv page s :
  length page = 512%nat -> reachable page s ->
  wf (sp s) /\ plock (sp s) = false /\ sent s = rcvd s ++ contents (sp s).
Proof.
  intros Hp. induction 1 as [|s s' _ (W & L & E) St].
  - split; [|done]. split; simpl; [done | lia | lia |]. unfold count; simpl. vm_compute. done.
  - destruct St as [s k addr n i r p' H|s k n r p' H|s w b p' H]; simpl in *.
    + destruct (pipewrite_resume_spec k addr n i (sp s) W L) as (r1 & p1 & E1 & Ws).
      rewrite E1 in H. simplify_eq. split; [apply Ws|]. split; [apply Ws|].
      rewrite E, <- app_assoc. f_equal. destruct (ws_append _ _ _ _ _ _ _ Ws) as (-> & _).
      f_equal. unfold sub. rewrite (write_spec_index _ _ _ _ _ _ _ Ws).
      rewrite Nat.add_comm, Nat.add_sub. done.
    + destruct (piperead_cases k n (sp s) W L) as (r1 & p1 & E1 & W1 & L1 & _ & _ & C1).
      rewrite E1 in H. simplify_eq. split; [done|]. split; [done|].
      destruct (empty (sp s) && writeopen (sp s)).
      * destruct C1 as [-> ->]. rewrite E. by destruct k; simpl; rewrite app_nil_r.
      * destruct C1 as (-> & -> & _). simpl. rewrite <- app_assoc, take_drop. done.
    + destruct (pipeclose_cases w (sp s) W L) as (p1 & E1 & W1 & L1 & C1 & _).
      rewrite E1 in H. simplify_eq. by rewrite C1.
Qed.

(** C20: a pipe is a bounded FIFO: whatever the interleaving of reads, writes
    (also resumed after a sleep) and closes, and however often the 32-bit
    counters wrap, the bytes readers got are, in order, the first bytes
    writers stored, the rest is in the buffer, and it never holds more than
    512 bytes. *)
Theorem pipe_fifo page s :
  length page = 512%nat -> reachable page s ->
  sent s = rcvd s ++ contents (sp s) /\ (length (contents (sp s)) <= 512)%nat.
Proof.
  intros Hp Hr. destruct (pipe_reachable_inv page s Hp Hr) as ([_ _ _ Hc] & _ & E).
  split; [done|]. pose proof (length_contents (sp s)). unfold PIPESIZE in *. lia.
Qed.

(** pipewrite on a well-formed, unlocked pipe always returns or sleeps,
    with the lock released: it stores exactly as many leading bytes as fit,
    returns n if that is all of them, and otherwise, with the pipe full, fails
    with -1 if no reader is left or the process was killed and else wakes the
    readers and sleeps. *)
Theorem pipewrite_correct killed addr n p :
  wf p -> plock p = false -> 0 <= n -> length addr = Z.to_nat n ->
  let room := PIPESIZE - count p in
  exists r p', pipewrite killed addr n p = Ok r p' /\ wf p' /\ plock p' = false /\
    contents p' = contents p ++ take (Z.to_nat room) addr /\
    r = if n <=? room then WRet n (Z.to_nat n)
        else if negb (readopen p) || killed then WRet (-1) (Z.to_nat room)
        else WSleep (Z.to_nat room).
Proof.
  intros Hwf Hlk Hn Hlen room. destruct (pipewrite_resume_spec killed addr n 0 p Hwf Hlk)
    as (r & p' & E & [W L O A]).
  exists r, p'. split; [done|]. split; [done|]. split; [done|].
  rewrite drop_0, take_ge in A by lia. rewrite Hlen in A. rewrite Z2Nat.id in A by lia.
  fold room in A. cbv zeta in A. destruct A as (A1 & A2 & A3).
  destruct Hwf as [_ _ _ Hc]. assert (0 <= room) by (unfold room; lia).
  destruct (Z.leb_spec n room).
  - rewrite Z.min_l in * by lia. rewrite A1, !take_ge by lia. split; [done|].
    by destruct A2 as [-> _].
  - rewrite Z.min_r in * by lia. split; [done|]. destruct A3 as [_ A3]; [lia|].
    destruct (negb _ || _); [done | by destruct A3].
Qed.

(** piperead on a well-formed, unlocked pipe always returns or sleeps,
    with the lock released: on an empty pipe whose write end is open it
    sleeps, or returns -1 if the process was killed; otherwise it returns the
    first min(n, available) bytes in order, 0 meaning end of file, and wakes
    the writers. *)
Theorem piperead_correct killed n p :
  wf p -> plock p = false ->
  exists r p', piperead killed n p = Ok r p' /\ wf p' /\ plock p' = false /\
    if (count p =? 0) && writeopen p
    then contents p' = contents p /\ r = if killed then RRet (-1) [] else RSleep
    else r = RRet (Z.min (Z.max 0 n) (count p)) (take (Z.to_nat n) (contents p)) /\
         contents p' = drop (Z.to_nat n) (contents p) /\ ChPipeWrite self ∈ woken p'.
Proof.
  intros Hwf Hlk. destruct (piperead_cases killed n p Hwf Hlk) as (r & p' & E & W & L & _ & _ & C).
  exists r, p'. split; [done|]. split; [done|]. split; [done|].
  destruct Hwf as [_ Hr Hw _]. pose proof (empty_iff p Hr Hw) as He.
  replace (count p =? 0) with (empty p); [done|].
  destruct (empty p); symmetry; [apply Z.eqb_eq; intuition | apply Z.eqb_neq; intros H; intuition done].
Qed.

(** C23: a full pipe cannot deadlock: when pipewrite goes to sleep at index
    [i], it has woken the readers, a reader asking for at least one byte does
    not sleep but takes bytes and wakes the writers, and the resumed writer
    gets past index [i]. *)
Theorem pipe_progress addr n i p p1 k m :
  wf p -> plock p = false -> pipewrite_resume false addr n i p = Ok (WSleep k) p1 ->
  0 < m ->
  ChPipeRead self ∈ woken p1 /\ (k < length (take (Z.to_nat n) addr))%nat /\
  exists r bs p2, piperead false m p1 = Ok (RRet r bs) p2 /\ 0 < r /\
    ChPipeWrite self ∈ woken p2 /\
    exists r2 p3, pipewrite_resume false addr n k p2 = Ok r2 p3 /\ (k < windex r2)%nat.
Proof.
  intros Hwf Hlk H Hm.
  destruct (pipewrite_resume_spec false addr n i p Hwf Hlk) as (r1 & q & E & Ws).
  rewrite E in H. simplify_eq. pose proof (write_spec_index _ _ _ _ _ _ _ Ws) as Hk. simpl in Hk.
  destruct Ws as [W L O A]. cbv zeta in A. set (rest := drop i _) in *.
  fold (fits rest p) in A. destruct A as (_ & A2 & A3).
  assert (fits rest p <> length rest) as Hne by (intros Hx; destruct (A2 Hx); done).
  assert (fits rest p < length rest)%nat as Hlt by (unfold fits in *; lia).
  destruct (A3 Hlt) as [Hfull A4]. destruct (negb _ || _); [done|]. destruct A4 as [_ Hwok].
  assert (length rest = (length (take (Z.to_nat n) addr) - i)%nat) as Hrl by (subst rest; len).
  split; [done|]. split; [lia|].
  destruct (piperead_full m p1 W L Hfull Hm) as (bs & p2 & E2 & W2 & L2 & Hw2 & Hc2).
  eexists _, bs, p2. split; [done|]. split; [unfold PIPESIZE; lia|]. split; [done|].
  destruct (pipewrite_resume_spec false addr n k p2 W2 L2) as (r2 & p3 & E3 & Ws2).
  exists r2, p3. split; [done|]. rewrite (write_spec_index _ _ _ _ _ _ _ Ws2).
  unfold fits. rewrite length_drop. lia.
Qed.

(** Closing: pipeclose frees the pipe exactly when the other end is
    already closed; after the write end is closed an empty pipe reads as end
    of file instead of blocking, and after the read end is closed a write that
    does not fit fails instead of blocking. *)
Theorem pipeclose_correct w p :
  wf p -> plock p = false ->
  exists p', pipeclose w p = Ok (negb (if w then readopen p else writeopen p)) p' /\
    wf p' /\ plock p' = false /\ contents p' = contents p /\
    (w = true -> count p = 0 -> forall k n, exists q, piperead k n p' = Ok (RRet 0 []) q) /\
    (w = false -> forall k addr n, PIPESIZE - count p < n -> length addr = Z.to_nat n ->
       exists i q, pipewrite k addr n p' = Ok (WRet (-1) i) q).
Proof.
  intros Hwf Hlk. destruct (pipeclose_cases w p Hwf Hlk) as (p' & E & W & L & C & N & R & O & K).
  exists p'. split; [|split; [done|split; [done|split; [done|split]]]].
  - rewrite E, R, O. by destruct w, (readopen p), (writeopen p).
  - intros -> Hc k n. destruct (piperead_cases k n p' W L) as (r & q & Eq & _ & _ & _ & _ & Cq).
    rewrite O, !andb_false_r in Cq. destruct Cq as (-> & _). rewrite N, Hc in Eq.
    exists q. rewrite Eq. f_equal. f_equal; [lia|].
    assert (contents p' = []) as ->; [|by rewrite take_nil].
    apply nil_length_inv. pose proof (length_contents p'). lia.
  - intros -> k addr n Hn Hlen. pose proof (count_nonneg p). destruct Hwf as [_ _ _ Hcc].
    destruct (pipewrite_resume_spec k addr n 0 p' W L) as (r & q & Eq & [_ _ _ A]).
    rewrite drop_0, take_ge in A by lia. cbv zeta in A. destruct A as (_ & _ & A3).
    rewrite N, R, andb_false_r in A3. simpl in A3.
    destruct A3 as [_ A3]; [lia|]. subst r. eauto.
Qed.

End pipe.
End Pipe.

(** A pipe with 512 zero bytes of buffer. *)
Definition fresh : Pipe.pipe := Pipe.pipe_init (replicate 512 0).

Lemma fresh_wf : Pipe.wf fresh.
Proof. split; simpl; try lia; try done. Qed.

Lemma pipe_fifo_witness :
  exists s, Pipe.reachable 7 (replicate 512 0) s /\ Pipe.sent s = [1; 2] /\
    Pipe.rcvd s = [1] /\ Pipe.sent s = Pipe.rcvd s ++ Pipe.contents (Pipe.sp s).
Proof.
  assert (exists s, Pipe.reachable 7 (replicate 512 0) s /\ Pipe.sent s = [1; 2] /\ Pipe.rcvd s = [1])
    as (s & R & H1 & H2).
  { pose proof (Pipe.pr_init 7 (replicate 512 0)) as R.
    eapply Pipe.pr_step in R; [|eapply (Pipe.ps_write _ _ false [1; 2] 2 0); vm_compute; reflexivity].
    eapply Pipe.pr_step in R; [|eapply (Pipe.ps_read _ _ false 1); vm_compute; reflexivity].
    eexists. split; [exact R | split; reflexivity]. }
  exists s. pose proof (proj1 (Pipe.pipe_fifo 7 (replicate 512 0) s eq_refl R)) as H.
  auto.
Defined.

Lemma pipewrite_correct_witness :
  exists r p', Pipe.pipewrite 7 false [65; 66] 2 fresh = Ok r p' /\ Pipe.wf p'.
Proof.
  destruct (Pipe.pipewrite_correct 7 false [65; 66] 2 fresh fresh_wf eq_refl ltac:(lia) eq_refl)
    as (r & p' & H1 & H2 & _).
  exists r, p'. split; assumption.
Defined.

Lemma piperead_correct_witness :
  exists r p', Pipe.piperead 7 false 3 fresh = Ok r p' /\ Pipe.wf p'.
Proof.
  destruct (Pipe.piperead_correct 7 false 3 fresh fresh_wf eq_refl) as (r & p' & H1 & H2 & _).
  exists r, p'. split; assumption.
Defined.

(** Writing 513 bytes fills the pipe and blocks at index 512. *)
Lemma pipe_progress_witness :
  exists p1, Pipe.pipewrite_resume 7 false (replicate 513 5) 513 0 fresh = Ok (Pipe.WSleep 512) p1 /\
    exists r bs p2, Pipe.piperead 7 false 1 p1 = Ok (Pipe.RRet r bs) p2 /\ 0 < r.
Proof.
  eexists. split; [vm_compute; reflexivity|].
  edestruct (fun p1 H => Pipe.pipe_progress 7 (replicate 513 5) 513 0 fresh p1 512 1 fresh_wf
    eq_refl H ltac:(lia)) as (_ & _ & r & bs & p2 & H1 & H2 & _); [vm_compute; reflexivity|].
  exists r, bs, p2. split; assumption.
Defined.

Lemma pipeclose_correct_witness :
  exists p', Pipe.pipeclose 7 true fresh = Ok false p' /\ Pipe.wf p'.
Proof.
  destruct (Pipe.pipeclose_correct 7 true fresh fresh_wf eq_refl) as (p' & H1 & H2 & _).
  exists p'. split; assumption.
Defined.
