(* ===== verification/Block.v ===== *)
(** * The block contract between the file system and the buffer cache

    What log.c and fs.c rely on: blocks named by number, the contents a holder
    sees, and the sets of busy and dirty (pinned) blocks.  [BlockDev] is the
    interface, [BlockSpec] the specification of it as an executable machine, and
    [sim] the simulation that carries what is proved of the specification to
    any implementation of the interface. *)

From S2P Require Import Prelude Memory Layout.

(** fs.h: the block size. *)
Definition BSIZE : Z := 512.

Definition zblock : bytes := replicate (Z.to_nat BSIZE) 0.
Definition blk (d : gmap Z bytes) (b : Z) : bytes := default zblock (d !! b).

(** A buffer that [bread] returned is named by its block number until [brelse];
    [bdata] and [bstore] are the holder's accesses to [b->data], and [bpin] is
    [b->flags |= B_DIRTY]. *)
Class BlockDev (S : Type) := {
  bread : Z -> Z -> M S unit;
  bdata : Z -> M S bytes;
  bstore : Z -> bytes -> M S unit;
  bpin : Z -> M S unit;
  bwrite : Z -> M S unit;
  brelse : Z -> M S unit
}.

Lemma blk_insert d b x c : blk (<[b := x]> d) c = if decide (b = c) then x else blk d c.
Proof. unfold blk. rewrite lookup_insert. by case_decide. Qed.

Lemma blk_insert_eq d b x : blk (<[b := x]> d) b = x.
Proof. unfold blk. by rewrite lookup_insert_eq. Qed.

Lemma blk_insert_ne d b x c : b <> c -> blk (<[b := x]> d) c = blk d c.
Proof. intros. unfold blk. by rewrite lookup_insert_ne. Qed.

Module BlockSpec.

(** [view] is what a holder of the block sees, [disk] what is on the disk;
    they agree on blocks that are neither busy nor dirty. *)
Record st := MkBs {
  disk : gmap Z bytes;
  view : gmap Z bytes;
  busy : gset Z;
  dirty : gset Z;
  nblocks : Z;
  writes : list (Z * bytes)
}.

(** No clean idle buffer is left to recycle. *)
Definition exhausted (s : st) : bool := bool_decide (NBUF <= size (busy s ∪ dirty s))%nat.

Definition bread (dv b : Z) : M st unit := fun s =>
  if b <? 0 then Fault else
  if (dv =? 1) && bool_decide (b ∈ busy s) then Sleep (ChBuf (Z.to_nat b)) s else
  if exhausted s && negb ((dv =? 1) && bool_decide (b ∈ dirty s)) then Panic "bget: no buffers" else
  if negb (dv =? 1) then Panic "iderw: request not for disk 1" else
  if nblocks s <=? b then Panic "iderw: block out of range" else
  Ok tt (MkBs (disk s) (view s) ({[b]} ∪ busy s) (dirty s) (nblocks s) (writes s)).

Definition bdata (b : Z) : M st bytes := fun s =>
  if bool_decide (b ∈ busy s) then Ok (blk (view s) b) s else Fault.

Definition bstore (b : Z) (x : bytes) : M st unit := fun s =>
  if bool_decide (b ∈ busy s) then
    Ok tt (MkBs (disk s) (<[b := x]> (view s)) (busy s) (dirty s) (nblocks s) (writes s))
  else Fault.

Definition bpin (b : Z) : M st unit := fun s =>
  if bool_decide (b ∈ busy s) then
    Ok tt (MkBs (disk s) (view s) (busy s) ({[b]} ∪ dirty s) (nblocks s) (writes s))
  else Fault.

Definition bwrite (b : Z) : M st unit := fun s =>
  if bool_decide (b ∈ busy s) then
    Ok tt (MkBs (<[b := blk (view s) b]> (disk s)) (view s) (busy s) (dirty s ∖ {[b]}) (nblocks s)
             (writes s ++ [(b, blk (view s) b)]))
  else Fault.

(** A changed block has to be written or pinned before it is released. *)
Definition brelse (b : Z) : M st unit := fun s =>
  if bool_decide (b ∈ busy s) &&
     (bool_decide (b ∈ dirty s) || bool_decide (blk (view s) b = blk (disk s) b)) then
    Ok tt (MkBs (disk s) (view s) (busy s ∖ {[b]}) (dirty s) (nblocks s) (writes s))
  else Fault.

#[global] Instance dev : BlockDev st := {
  bread := bread; bdata := bdata; bstore := bstore; bpin := bpin; bwrite := bwrite; brelse := brelse
}.

(** A run of disk writes. *)
Definition replay (d : gmap Z bytes) (ws : list (Z * bytes)) : gmap Z bytes :=
  foldl (fun d w => <[w.1 := w.2]> d) d ws.

Lemma replay_app d ws1 ws2 : replay d (ws1 ++ ws2) = replay (replay d ws1) ws2.
Proof. apply foldl_app. Qed.

Lemma replay_notin d ws b : b ∉ ws.*1 -> blk (replay d ws) b = blk d b.
Proof.
  revert d. induction ws as [|w ws IH]; intros d Hb; [done|]. simpl in *.
  rewrite IH by set_solver. apply blk_insert_ne. set_solver.
Qed.

Lemma replay_in d ws b x : NoDup ws.*1 -> (b, x) ∈ ws -> blk (replay d ws) b = x.
Proof.
  revert d. induction ws as [|w ws IH]; intros d Hnd Hb; [set_solver|]. simpl in *.
  apply NoDup_cons in Hnd as [Hw Hnd]. apply elem_of_cons in Hb as [<-|Hb]; [|by apply IH].
  rewrite replay_notin by done. apply blk_insert_eq.
Qed.

(** Blocks nobody holds or has pinned are as on the disk. *)
Definition settled (s : st) : Prop :=
  forall b, b ∉ busy s -> b ∉ dirty s -> blk (view s) b = blk (disk s) b.

(** *** The operations on a state where they are defined *)

Lemma bread_run b s :
  0 <= b < nblocks s -> b ∉ busy s -> b ∈ dirty s \/ (size (busy s ∪ dirty s) < NBUF)%nat ->
  bread 1 b s = Ok tt (MkBs (disk s) (view s) ({[b]} ∪ busy s) (dirty s) (nblocks s) (writes s)).
Proof.
  intros Hr Hb Hc. unfold bread, exhausted. rewrite (proj2 (Z.ltb_ge b 0)) by lia.
  rewrite (bool_decide_false (b ∈ busy s)) by done. simpl.
  destruct (bool_decide (NBUF <= _)%nat) eqn:E; simpl; [apply bool_decide_eq_true in E|];
    [rewrite bool_decide_true by (destruct Hc; [done|lia])|]; simpl;
    by rewrite (proj2 (Z.leb_gt _ _)) by lia.
Qed.

Lemma bdata_run b s : b ∈ busy s -> bdata b s = Ok (blk (view s) b) s.
Proof. intros. unfold bdata. by rewrite bool_decide_true. Qed.

Lemma bstore_run b x s : b ∈ busy s ->
  bstore b x s = Ok tt (MkBs (disk s) (<[b := x]> (view s)) (busy s) (dirty s) (nblocks s) (writes s)).
Proof. intros. unfold bstore. by rewrite bool_decide_true. Qed.

Lemma bpin_run b s : b ∈ busy s ->
  bpin b s = Ok tt (MkBs (disk s) (view s) (busy s) ({[b]} ∪ dirty s) (nblocks s) (writes s)).
Proof. intros. unfold bpin. by rewrite bool_decide_true. Qed.

Lemma bwrite_run b s : b ∈ busy s ->
  bwrite b s = Ok tt (MkBs (<[b := blk (view s) b]> (disk s)) (view s) (busy s) (dirty s ∖ {[b]})
                        (nblocks s) (writes s ++ [(b, blk (view s) b)])).
Proof. intros. unfold bwrite. by rewrite bool_decide_true. Qed.

Lemma brelse_run b s : b ∈ busy s -> b ∈ dirty s \/ blk (view s) b = blk (disk s) b ->
  brelse b s = Ok tt (MkBs (disk s) (view s) (busy s ∖ {[b]}) (dirty s) (nblocks s) (writes s)).
Proof.
  intros Hb Hc. unfold brelse. rewrite bool_decide_true by done. simpl.
  destruct (bool_decide (b ∈ dirty s)) eqn:E; [done|]. apply bool_decide_eq_false in E.
  destruct Hc; [done|]. by rewrite bool_decide_true.
Qed.

End BlockSpec.

(** ** Simulation *)

Section sim.
Context {S1 S2 : Type} (R : S1 -> S2 -> Prop).

(** [m1] does what [m2] does, wherever [m2] is defined. *)
Definition sim {A} (m1 : M S1 A) (m2 : M S2 A) : Prop := forall s1 s2, R s1 s2 ->
  match m2 s2 with
  | Ok a s2' => exists s1', m1 s1 = Ok a s1' /\ R s1' s2'
  | Panic msg => m1 s1 = Panic msg
  | Sleep _ s2' => exists c s1', m1 s1 = Sleep c s1' /\ R s1' s2'
  | Fault => True
  | NoFuel => True
  end.

Lemma sim_ret {A} (a : A) : sim (mret a) (mret a).
Proof. intros s1 s2 H. simpl. eauto. Qed.

Lemma sim_bind {A B} (m1 : M S1 A) (m2 : M S2 A) (f1 : A -> M S1 B) (f2 : A -> M S2 B) :
  sim m1 m2 -> (forall a, sim (f1 a) (f2 a)) -> sim (m1 ≫= f1) (m2 ≫= f2).
Proof.
  intros H Hf s1 s2 Hr. specialize (H s1 s2 Hr). unfold mbind, M_bind.
  destruct (m2 s2) as [a s2'| | | |] eqn:E; try done.
  - destruct H as (s1' & -> & Hr'). by apply Hf.
  - by rewrite H.
  - destruct H as (c' & s1' & -> & Hr'). eauto.
Qed.

Lemma sim_panic {A} msg : sim (A := A) (panic msg) (panic msg).
Proof. intros s1 s2 H. done. Qed.

Lemma sim_sleep {A} c : sim (A := A) (sleepon c) (sleepon c).
Proof. intros s1 s2 H. simpl. eauto. Qed.

Lemma sim_if {A} (b : bool) (m1 n1 : M S1 A) (m2 n2 : M S2 A) :
  sim m1 m2 -> sim n1 n2 -> sim (if b then m1 else n1) (if b then m2 else n2).
Proof. by destruct b. Qed.

Lemma sim_fault {A} (m : M S1 A) : sim m fault.
Proof. intros s1 s2 H. done. Qed.

Lemma sim_nofuel {A} (m : M S1 A) : sim m nofuel.
Proof. intros s1 s2 H. done. Qed.

(** What a successful run of the specification says of the implementation. *)
Lemma sim_ok {A} (m1 : M S1 A) (m2 : M S2 A) s1 s2 a s2' :
  sim m1 m2 -> R s1 s2 -> m2 s2 = Ok a s2' -> exists s1', m1 s1 = Ok a s1' /\ R s1' s2'.
Proof. intros H Hr E. specialize (H s1 s2 Hr). by rewrite E in H. Qed.

End sim.

(** An implementation of the contract: its six operations simulate the
    specification's. *)
Class BlockImpl (S : Type) `{D : BlockDev S} (R : S -> BlockSpec.st -> Prop) : Prop := {
  bread_sim dv b : sim R (bread dv b) (bread dv b);
  bdata_sim b : sim R (bdata b) (bdata b);
  bstore_sim b x : sim R (bstore b x) (bstore b x);
  bpin_sim b : sim R (bpin b) (bpin b);
  bwrite_sim b : sim R (bwrite b) (bwrite b);
  brelse_sim b : sim R (brelse b) (brelse b)
}.

Create HintDb sim discriminated.
#[export] Hint Resolve sim_ret sim_panic sim_sleep sim_fault sim_nofuel : sim.
#[export] Hint Extern 1 (sim _ (bread _ _) _) => apply bread_sim : sim.
#[export] Hint Extern 1 (sim _ (bdata _) _) => apply bdata_sim : sim.
#[export] Hint Extern 1 (sim _ (bstore _ _) _) => apply bstore_sim : sim.
#[export] Hint Extern 1 (sim _ (bpin _) _) => apply bpin_sim : sim.
#[export] Hint Extern 1 (sim _ (bwrite _) _) => apply bwrite_sim : sim.
#[export] Hint Extern 1 (sim _ (brelse _) _) => apply brelse_sim : sim.

(** Compare two runs of the same code, call by call. *)
Ltac sim_step :=
  match goal with
  | |- sim _ (_ ≫= _) (_ ≫= _) => apply sim_bind; [|intros ?]
  | |- sim _ (if ?b then _ else _) (if ?b then _ else _) => apply sim_if
  | |- sim _ (match ?x with _ => _ end) (match ?x with _ => _ end) => destruct x
  | |- sim _ _ _ => solve [eauto with sim]
  end.
Ltac sim_auto := repeat sim_step.
