(* ===== verification/Bio.v ===== *)
(** * bio.c and memide.c: the buffer cache over the in-memory disk

    The cache is the code's array of NBUF buffers threaded on a circular
    doubly-linked list through [prev]/[next]; a pointer to a buffer is its
    index, and index NBUF is [bcache.head].  The simulation at the end
    shows that this linked-list cache implements the contract of Block.v,
    panics included. *)

From S2P Require Import Prelude Memory Layout Spinlock Block.

(** buf.h: the flags of a buffer. *)
Definition B_BUSY : Z := 1.
Definition B_VALID : Z := 2.
Definition B_DIRTY : Z := 4.

Module Bio.

(** [struct buf], without ide.c's queue link. *)
Record buf := MkBuf {
  flags : Z;
  dev : Z;
  blockno : Z;
  prev : nat;
  next : nat;
  data : bytes
}.

(** [bcache], memide.c's [memdisk] and [disksize], and the history of disk
    writes and wakeups. *)
Record bcache := MkBc {
  lock : bool;
  bufs : nat -> buf;
  memdisk : gmap Z bytes;
  disksize : Z;
  writes : list (Z * bytes);
  woken : list chan
}.

(** [&bcache.head] *)
Definition head : nat := NBUF.

Definition set_lock (b : bool) (s : bcache) : bcache :=
  MkBc b (bufs s) (memdisk s) (disksize s) (writes s) (woken s).
Definition set_bufs (f : nat -> buf) (s : bcache) : bcache :=
  MkBc (lock s) f (memdisk s) (disksize s) (writes s) (woken s).

Definition set_flags (x : Z) (b : buf) : buf :=
  MkBuf x (dev b) (blockno b) (prev b) (next b) (data b).
Definition set_id (d n : Z) (b : buf) : buf :=
  MkBuf (flags b) d n (prev b) (next b) (data b).
Definition set_prev (x : nat) (b : buf) : buf :=
  MkBuf (flags b) (dev b) (blockno b) x (next b) (data b).
Definition set_next (x : nat) (b : buf) : buf :=
  MkBuf (flags b) (dev b) (blockno b) (prev b) x (data b).
Definition set_data (x : bytes) (b : buf) : buf :=
  MkBuf (flags b) (dev b) (blockno b) (prev b) (next b) x.

Definition upd (i : nat) (f : buf -> buf) : M bcache unit :=
  modify (fun s => set_bufs (<[i := f (bufs s i)]> (bufs s)) s).
Definition bufat (i : nat) : M bcache buf := gets (fun s => bufs s i).
Definition wakeup (c : chan) : M bcache unit := modify (fun s =>
  MkBc (lock s) (bufs s) (memdisk s) (disksize s) (writes s) (woken s ++ [c])).
Definition acquire : M bcache unit := Seq.acquire lock set_lock.
Definition release : M bcache unit := Seq.release lock set_lock.

Definition busy (b : buf) : bool := truthy (flags b .& B_BUSY).
Definition valid (b : buf) : bool := truthy (flags b .& B_VALID).
Definition dirty (b : buf) : bool := truthy (flags b .& B_DIRTY).

(** The body of the loop of [binit] for the buffer [b]. *)
Definition binit_one (b : nat) : M bcache unit :=
  h ← bufat head;
  upd b (set_next (next h));;
  upd b (set_prev head);;
  upd b (fun x => set_id (u32 (-1)) (blockno x) x);;
  h ← bufat head;
  upd (next h) (set_prev b);;
  upd head (set_next b).

Fixpoint binit_loop (b n : nat) : M bcache unit :=
  match n with
  | O => mret tt
  | S k => binit_one b;; binit_loop (S b) k
  end.

Definition binit : M bcache unit :=
  upd head (set_prev head);;
  upd head (set_next head);;
  binit_loop 0 NBUF.

(** A walk along the list from [b], by [link], up to [bcache.head]: the first
    buffer that satisfies [p]. *)
Fixpoint scan (link : buf -> nat) (p : buf -> bool) (fuel b : nat) : M bcache (option nat) :=
  match fuel with
  | O => nofuel
  | S k =>
      if (b =? head)%nat then mret None
      else
        x ← bufat b;
        if p x then mret (Some b) else scan link p k (link x)
  end.

(** [bget]: sleeping on a busy buffer gives up the lock; the call starts again
    at [loop] when it is woken. *)
Definition bget (dv bn : Z) : M bcache nat :=
  acquire;;
  h ← bufat head;
  r ← scan next (fun b => (dev b =? dv) && (blockno b =? bn)) (S NBUF) (next h);
  match r with
  | Some b =>
      x ← bufat b;
      if negb (busy x) then
        upd b (fun x => set_flags (flags x .| B_BUSY) x);;
        release;;
        mret b
      else
        release;; sleepon (ChBuf b)
  | None =>
      h ← bufat head;
      r ← scan prev (fun b => ((flags b .& B_BUSY) =? 0) && ((flags b .& B_DIRTY) =? 0))
            (S NBUF) (prev h);
      match r with
      | Some b =>
          upd b (set_id dv bn);;
          upd b (set_flags B_BUSY);;
          release;;
          mret b
      | None => panic "bget: no buffers"
      end
  end.

(** memide.c: synchronise a buffer with the in-memory disk. *)
Definition iderw (b : nat) : M bcache unit :=
  x ← bufat b;
  if negb (busy x) then panic "iderw: buf not busy" else
  if (flags x .& (B_VALID .| B_DIRTY)) =? B_VALID then panic "iderw: nothing to do" else
  if negb (dev x =? 1) then panic "iderw: request not for disk 1" else
  dsz ← gets disksize;
  if dsz <=? blockno x then panic "iderw: block out of range" else
  (if dirty x then
     upd b (fun x => set_flags (flags x .& (Z.lnot B_DIRTY)) x);;
     modify (fun s => MkBc (lock s) (bufs s) (<[blockno x := data x]> (memdisk s)) (disksize s)
                        (writes s ++ [(blockno x, data x)]) (woken s))
   else
     modify (fun s => set_bufs (<[b := set_data (blk (memdisk s) (blockno x)) (bufs s b)]> (bufs s)) s));;
  upd b (fun x => set_flags (flags x .| B_VALID) x).

Definition bread (dv bn : Z) : M bcache nat :=
  b ← bget dv bn;
  x ← bufat b;
  when (negb (valid x)) (iderw b);;
  mret b.

Definition bwrite (b : nat) : M bcache unit :=
  x ← bufat b;
  if (flags x .& B_BUSY) =? 0 then panic "bwrite" else
  upd b (fun x => set_flags (flags x .| B_DIRTY) x);;
  iderw b.

Definition brelse (b : nat) : M bcache unit :=
  x ← bufat b;
  if (flags x .& B_BUSY) =? 0 then panic "brelse" else
  acquire;;
  x ← bufat b; upd (next x) (set_prev (prev x));;
  x ← bufat b; upd (prev x) (set_next (next x));;
  h ← bufat head; upd b (set_next (next h));;
  upd b (set_prev head);;
  h ← bufat head; upd (next h) (set_prev b);;
  upd head (set_next b);;
  upd b (fun x => set_flags (flags x .& (Z.lnot B_BUSY)) x);;
  wakeup (ChBuf b);;
  release.

(** ** The list of buffers *)

(** [path f x l y]: following [f] from [x] visits [l] in order, then [y]. *)
Fixpoint path (f : nat -> nat) (x : nat) (l : list nat) (y : nat) : Prop :=
  match l with
  | [] => f x = y
  | z :: l' => f x = z /\ path f z l' y
  end.

Fixpoint last_of (x : nat) (l : list nat) : nat :=
  match l with [] => x | z :: l' => last_of z l' end.
Definition first_of (l : list nat) (y : nat) : nat := List.hd y l.

Lemma path_first f x l y : path f x l y -> f x = first_of l y.
Proof. destruct l; simpl; tauto. Qed.

Lemma path_app f x l1 b l2 y :
  path f x (l1 ++ b :: l2) y <-> path f x l1 b /\ path f b l2 y.
Proof.
  revert x. induction l1 as [|z l1 IH]; intros x; simpl; [done|]. rewrite IH. tauto.
Qed.

Lemma path_ext f g x l y :
  (forall i, i ∈ x :: l -> f i = g i) -> path f x l y -> path g x l y.
Proof.
  revert x. induction l as [|z l IH]; intros x H; simpl.
  - intros <-. symmetry. apply H. set_solver.
  - intros [<- P]. split; [symmetry; apply H; set_solver|].
    apply IH; [|done]. intros i Hi. apply H. set_solver.
Qed.

Lemma last_of_snoc x l b : last_of x (l ++ [b]) = b.
Proof. revert x. induction l; simpl; auto. Qed.

Lemma last_of_elem x l : last_of x l ∈ x :: l.
Proof.
  revert x. induction l as [|z l IH]; intros x; [set_solver|].
  simpl. specialize (IH z). set_solver.
Qed.

Lemma last_of_rev l y : last_of y (reverse l) = first_of l y.
Proof. destruct l as [|z l]; [done|]. by rewrite reverse_cons, last_of_snoc. Qed.

Lemma first_of_rev l y : first_of (reverse l) y = last_of y l.
Proof. rewrite <- (reverse_involutive l) at 2. by rewrite last_of_rev. Qed.

(** The last link of a path can be redirected. *)
Lemma path_redirect f x l y y' :
  NoDup (x :: l) -> path f x l y -> path (<[last_of x l := y']> f) x l y'.
Proof.
  revert x. induction l as [|z l IH]; intros x Hnd P; simpl in *.
  - by rewrite fn_lookup_insert.
  - destruct P as [P1 P2]. apply NoDup_cons in Hnd as [Hx Hnd].
    split; [|by apply IH]. rewrite fn_lookup_insert_ne; [done|].
    intros E. apply Hx. rewrite <- E. apply last_of_elem.
Qed.

(** Removing [b]: its predecessor takes over its link. *)
Lemma path_unlink f x l1 b l2 y :
  NoDup (x :: l1 ++ b :: l2) -> path f x (l1 ++ b :: l2) y ->
  path (<[last_of x l1 := f b]> f) x (l1 ++ l2) y.
Proof.
  intros Hnd P. apply path_app in P as [P1 P2].
  assert (NoDup (x :: l1)) as N1 by (rewrite app_comm_cons in Hnd; apply NoDup_app in Hnd as [? _]; done).
  assert (forall i, i ∈ l2 -> last_of x l1 <> i) as Hl.
  { intros i Hi E. pose proof (last_of_elem x l1) as He. rewrite E in He.
    rewrite app_comm_cons in Hnd. apply NoDup_app in Hnd as (_ & Hd & _).
    apply (Hd i He). set_solver. }
  destruct l2 as [|c l2].
  - simpl in P2. rewrite app_nil_r, P2. by apply path_redirect with b.
  - apply path_app. simpl in P2. destruct P2 as [P2 P3]. split.
    + rewrite P2. by apply path_redirect with b.
    + eapply path_ext; [|exact P3]. intros i Hi. rewrite fn_lookup_insert_ne; auto.
Qed.

(** Inserting [b] right after [x], and right before [y]. *)
Lemma path_push f x b l y :
  b <> x -> b ∉ l -> x ∉ l -> path f x l y -> path (<[x := b]> (<[b := f x]> f)) x (b :: l) y.
Proof.
  intros Hb Hl Hx P. pose proof (path_first _ _ _ _ P) as Hf. simpl.
  rewrite fn_lookup_insert. split; [done|].
  destruct l as [|z l]; simpl in *.
  - by rewrite fn_lookup_insert_ne, fn_lookup_insert.
  - rewrite fn_lookup_insert_ne, fn_lookup_insert by done. split; [done|].
    eapply path_ext; [|apply P]. intros i Hi.
    rewrite !fn_lookup_insert_ne; [done|set_solver|set_solver].
Qed.

Lemma path_snoc f x b l y :
  b ∉ x :: l -> NoDup (x :: l) -> path f x l y ->
  path (<[last_of x l := b]> (<[b := y]> f)) x (l ++ [b]) y.
Proof.
  intros Hb Hnd P. apply path_app. split.
  - eapply path_ext, (path_redirect f x l y b Hnd P).
    intros i Hi. unfold insert, fn_insert. repeat case_decide; subst; done.
  - simpl. rewrite fn_lookup_insert_ne, fn_lookup_insert; [done|].
    intros E. apply Hb. rewrite <- E. apply last_of_elem.
Qed.

Definition nx (bf : nat -> buf) (i : nat) : nat := next (bf i).
Definition pv (bf : nat -> buf) (i : nat) : nat := prev (bf i).

(** The list of buffers, most recently used first, in both directions. *)
Record linked (bf : nat -> buf) (l : list nat) : Prop := MkLinked {
  lk_next : path (nx bf) head l head;
  lk_prev : path (pv bf) head (reverse l) head;
  lk_nodup : NoDup (head :: l)
}.

Lemma scan_find link p fuel l s x :
  path (fun i => link (bufs s i)) x l head -> head ∉ l -> (length l < fuel)%nat ->
  scan link p fuel (first_of l head) s = Ok (List.find (fun i => p (bufs s i)) l) s.
Proof.
  revert fuel x. induction l as [|z l IH]; intros fuel x P Hh Hf;
    (destruct fuel as [|fuel]; [simpl in Hf; lia|]); cbn [scan first_of List.hd List.find].
  - by rewrite Nat.eqb_refl.
  - rewrite (proj2 (Nat.eqb_neq z head)) by set_solver. destruct P as [_ P].
    unfold mbind, M_bind, bufat, gets. destruct (p (bufs s z)); [done|].
    rewrite (path_first _ _ _ _ P). apply IH with z; [done|set_solver|simpl in Hf; lia].
Qed.

(** The pointer surgery of [binit] and [brelse]: a buffer put in front. *)
Definition push_front (b : nat) (bf : nat -> buf) : nat -> buf :=
  let f1 := <[b := set_next (next (bf head)) (bf b)]> bf in
  let f2 := <[b := set_prev head (f1 b)]> f1 in
  let f3 := <[next (f2 head) := set_prev b (f2 (next (f2 head)))]> f2 in
  <[head := set_next b (f3 head)]> f3.

Definition unlink (b : nat) (bf : nat -> buf) : nat -> buf :=
  let f1 := <[next (bf b) := set_prev (prev (bf b)) (bf (next (bf b)))]> bf in
  <[prev (f1 b) := set_next (next (f1 b)) (f1 (prev (f1 b)))]> f1.

Ltac fn_cases := unfold nx, pv, insert, fn_insert in *; repeat (case_decide; subst; simpl in *);
  try congruence.

Lemma push_front_linked b bf l :
  linked bf l -> b ∉ head :: l -> linked (push_front b bf) (b :: l).
Proof.
  intros [Hn Hp Hd] Hb. assert (b <> head /\ b ∉ l) as [Hbh Hbl] by set_solver.
  pose proof (path_first _ _ _ _ Hn) as Hf. apply NoDup_cons in Hd as [Hh Hd]. split.
  - eapply path_ext, (path_push (nx bf) head b l head); try done.
    intros i _. unfold push_front. fn_cases.
  - rewrite reverse_cons. eapply path_ext, (path_snoc (pv bf) head b (reverse l) head);
      [|set_solver| |done].
    + intros i _. rewrite last_of_rev, <- Hf. unfold push_front. fn_cases.
    + constructor; [set_solver|]. by rewrite reverse_Permutation.
  - constructor; [set_solver|]. constructor; done.
Qed.

Lemma unlink_linked b bf l1 l2 :
  linked bf (l1 ++ b :: l2) -> linked (unlink b bf) (l1 ++ l2).
Proof.
  intros [Hn Hp Hd].
  pose proof (proj1 (path_app _ _ _ _ _ _) Hn) as [_ Hn2]. apply path_first in Hn2.
  rewrite reverse_app, reverse_cons, <- app_assoc in Hp. simpl in Hp.
  pose proof (proj1 (path_app _ _ _ _ _ _) Hp) as [_ Hp2]. apply path_first in Hp2.
  rewrite first_of_rev in Hp2.
  assert ((b ∉ head :: l1) /\ (b ∉ head :: l2)) as [Hb1 Hb2].
  { split; intros Hb; [rewrite app_comm_cons in Hd; apply NoDup_app in Hd as (_ & Hd & _);
      apply (Hd b); set_solver|].
    apply NoDup_cons in Hd as [Hh Hd]. apply NoDup_app in Hd as (_ & _ & Hd).
    apply NoDup_cons in Hd as [Hd _]. set_solver. }
  assert (next (bf b) <> b) as Hnb.
  { unfold nx in Hn2. rewrite Hn2. intros E. apply Hb2. rewrite <- E.
    rewrite <- last_of_rev. pose proof (last_of_elem head (reverse l2)) as Hx. set_solver. }
  split.
  - eapply path_ext, (path_unlink (nx bf) head l1 b l2 head); try done.
    intros i _. rewrite <- Hp2. unfold unlink. fn_cases.
  - rewrite reverse_app. eapply path_ext, (path_unlink (pv bf) head (reverse l2) b (reverse l1) head).
    + intros i _. rewrite last_of_rev, <- Hn2. unfold unlink. fn_cases.
    + apply NoDup_cons in Hd as [Hh Hd]. constructor; [set_solver|].
      replace (reverse l2 ++ b :: reverse l1) with (reverse (l1 ++ b :: l2))
        by (by rewrite reverse_app, reverse_cons, <- app_assoc).
      by rewrite reverse_Permutation.
    + done.
  - apply NoDup_cons in Hd as [Hh Hd]. constructor; [set_solver|].
    apply NoDup_app in Hd as (N1 & N2 & N3). apply NoDup_cons in N3 as [_ N3].
    apply NoDup_app. split_and!; [done| |done]. intros x Hx. specialize (N2 x Hx). set_solver.
Qed.

(** The pointer surgery touches nothing but the links. *)
Definition same_buf (x y : buf) : Prop :=
  flags x = flags y /\ dev x = dev y /\ blockno x = blockno y /\ data x = data y.

#[global] Instance same_buf_equiv : Equivalence same_buf.
Proof.
  split; unfold same_buf; [done | intros x y; naive_solver |].
  intros x y z (-> & -> & -> & ->) (-> & -> & -> & ->). done.
Qed.

Lemma same_upd f (bf : nat -> buf) (k i : nat) :
  (forall b, same_buf (f b) b) -> same_buf (<[k := f (bf k)]> bf i) (bf i).
Proof. intros H. unfold insert, fn_insert. case_decide; [subst; apply H | done]. Qed.

Lemma same_set_prev x b : same_buf (set_prev x b) b.
Proof. done. Qed.

Lemma same_set_next x b : same_buf (set_next x b) b.
Proof. done. Qed.

Lemma same_upd_ne x (bf : nat -> buf) (k i : nat) : i <> k -> same_buf (<[k := x]> bf i) (bf i).
Proof. intros H. unfold insert, fn_insert. by rewrite decide_False. Qed.

Ltac same := repeat (etransitivity;
  [first [apply same_upd_ne; done
         |apply same_upd; intros; first [apply same_set_prev | apply same_set_next]]|]); done.

Lemma unlink_same b bf i : same_buf (unlink b bf i) (bf i).
Proof. unfold unlink. same. Qed.

Lemma push_front_same b bf i : same_buf (push_front b bf i) (bf i).
Proof. unfold push_front. same. Qed.

(** ** The cache implements the contract *)

Definition in_use (b : buf) : bool := busy b || dirty b.

(** Buffer [i] caches block [b]. *)
Definition caches (l : list nat) (bf : nat -> buf) (i : nat) (b : Z) : Prop :=
  i ∈ l /\ dev (bf i) = 1 /\ blockno (bf i) = b.

Record rep (l : list nat) (s : bcache) (a : BlockSpec.st) : Prop := MkRep {
  r_lock : lock s = false;
  r_linked : linked (bufs s) l;
  r_perm : l ≡ₚ seq 0 NBUF;
  r_flags : forall i, i ∈ l -> 0 <= flags (bufs s i) < 8;
  r_kind : forall i, i ∈ l ->
    (dev (bufs s i) = 1 /\ valid (bufs s i) = true /\ 0 <= blockno (bufs s i) < disksize s) \/
    (dev (bufs s i) = u32 (-1) /\ flags (bufs s i) = 0);
  r_uniq : forall i j b, caches l (bufs s) i b -> caches l (bufs s) j b -> i = j;
  r_busy : forall b, b ∈ BlockSpec.busy a <-> exists i, caches l (bufs s) i b /\ busy (bufs s i) = true;
  r_dirty : forall b, b ∈ BlockSpec.dirty a <-> exists i, caches l (bufs s) i b /\ dirty (bufs s i) = true;
  r_data : forall i b, caches l (bufs s) i b -> data (bufs s i) = blk (BlockSpec.view a) b;
  r_settled : BlockSpec.settled a;
  r_disk : memdisk s = BlockSpec.disk a;
  r_size : disksize s = BlockSpec.nblocks a;
  r_writes : writes s = BlockSpec.writes a
}.

Lemma flags8 (P : Z -> Prop) :
  P 0 -> P 1 -> P 2 -> P 3 -> P 4 -> P 5 -> P 6 -> P 7 -> forall f, 0 <= f < 8 -> P f.
Proof.
  intros. assert (f = 0 \/ f = 1 \/ f = 2 \/ f = 3 \/ f = 4 \/ f = 5 \/ f = 6 \/ f = 7) as E by lia.
  by repeat destruct E as [->|E]; subst.
Qed.

Lemma busy_eq0 b : ((flags b .& B_BUSY) =? 0) = negb (busy b).
Proof. unfold busy, truthy. by rewrite negb_involutive. Qed.

Lemma idle_test b :
  ((flags b .& B_BUSY) =? 0) && ((flags b .& B_DIRTY) =? 0) = negb (in_use b).
Proof. unfold in_use, busy, dirty, truthy. by rewrite negb_orb, !negb_involutive. Qed.

Lemma in_use_cached l s a i : rep l s a -> i ∈ l -> in_use (bufs s i) = true ->
  caches l (bufs s) i (blockno (bufs s i)).
Proof.
  intros H Hi Hu. destruct (r_kind _ _ _ H i Hi) as [(? & ? & ?)|[_ E]]; [done|].
  unfold in_use, busy, dirty in Hu. by rewrite E in Hu.
Qed.

Lemma in_use_blocks l s a b : rep l s a ->
  b ∈ BlockSpec.busy a ∪ BlockSpec.dirty a <-> exists i, caches l (bufs s) i b /\ in_use (bufs s i) = true.
Proof.
  intros H. rewrite elem_of_union, (r_busy _ _ _ H), (r_dirty _ _ _ H). unfold in_use. split.
  - intros [(i & ? & E)|(i & ? & E)]; exists i; rewrite E; split; try done. apply orb_true_r.
  - intros (i & ? & E). apply orb_true_iff in E as [E|E]; eauto.
Qed.

(** Every buffer is in use exactly when the contract says so. *)
Lemma exhausted_iff l s a : rep l s a ->
  BlockSpec.exhausted a = true <-> forall i, i ∈ l -> in_use (bufs s i) = true.
Proof.
  intros H. unfold BlockSpec.exhausted. rewrite bool_decide_eq_true.
  set (used := filter (fun i => in_use (bufs s i) = true) l).
  assert (BlockSpec.busy a ∪ BlockSpec.dirty a = list_to_set ((fun i => blockno (bufs s i)) <$> used)) as ->.
  { apply set_eq. intros b. rewrite (in_use_blocks _ _ _ _ H), elem_of_list_to_set, list_elem_of_fmap.
    split.
    - intros (i & (? & ? & <-) & ?). exists i. split; [done|]. by apply list_elem_of_filter.
    - intros (i & -> & Hi). apply list_elem_of_filter in Hi as [? ?]. exists i.
      split; [by eapply in_use_cached | done]. }
  assert (length l = NBUF) as Hl by (rewrite (r_perm _ _ _ H); apply length_seq).
  assert (NoDup l) as Hnd by (rewrite (r_perm _ _ _ H); apply NoDup_seq).
  rewrite size_list_to_set, length_fmap.
  - split.
    + intros Hs i Hi. destruct (in_use (bufs s i)) eqn:E; [done|].
      assert (length used < length l)%nat; [|lia].
      apply length_filter_lt with i; [done|]. by rewrite E.
    + intros Hs. subst used. rewrite filter_all; [lia|done].
  - apply NoDup_fmap_2_strong; [|by apply NoDup_filter]. intros i j Hi Hj E.
    apply list_elem_of_filter in Hi as [? ?], Hj as [? ?].
    eapply (r_uniq _ _ _ H i j); [by eapply in_use_cached|]. rewrite E. by eapply in_use_cached.
Qed.

(** Buffer [i] becomes [x]: what the cache holds. *)
Lemma caches_upd l (bf : nat -> buf) (i : nat) x j b : i ∈ l -> dev x = 1 ->
  caches l (<[i := x]> bf) j b <-> (j = i /\ b = blockno x) \/ (j <> i /\ caches l bf j b).
Proof.
  intros Hi Hd. unfold caches. unfold insert, fn_insert. case_decide; subst; naive_solver.
Qed.

(** And which blocks are marked, for a mark [P] (busy, dirty) of buffers. *)
Lemma marked_upd (P : buf -> bool) l (bf : nat -> buf) (i : nat) x (B B' : gset Z) b :
  (forall y, P y = true -> in_use y = true) -> i ∈ l -> dev x = 1 ->
  (forall j, caches l bf j (blockno x) -> j = i) ->
  (dev (bf i) = 1 -> blockno (bf i) <> blockno x -> in_use (bf i) = false) ->
  (forall c, c ∈ B <-> exists j, caches l bf j c /\ P (bf j) = true) ->
  (forall c, c ∈ B' <-> if decide (c = blockno x) then P x = true else c ∈ B) ->
  b ∈ B' <-> exists j, caches l (<[i := x]> bf) j b /\ P (<[i := x]> bf j) = true.
Proof.
  intros HP Hi Hd Hu Hold HB HB'. rewrite HB'. setoid_rewrite (caches_upd l bf i x); try done.
  unfold insert, fn_insert. case_decide as Eq; [subst b|rewrite HB]; split.
  - intros HPx. exists i. rewrite decide_True by done. auto.
  - intros (j & [[-> _]|[Hj Hcj]] & HPj); [by rewrite decide_True in HPj|]. by apply Hu in Hcj.
  - intros (j & Hcj & HPj). exists j. destruct (decide (j = i)) as [->|Hj].
    + destruct Hcj as (_ & Hd1 & Hb1). rewrite (HP _ HPj) in Hold. naive_solver.
    + rewrite decide_False by done. auto.
  - intros (j & [[-> ->]|[Hj Hcj]] & HPj); [done|]. rewrite decide_False in HPj by done. eauto.
Qed.

(** A buffer gets new contents, flags or a new block. *)
Lemma rep_upd l s a i x s' a' :
  rep l s a -> i ∈ l -> (forall j, bufs s' j = <[i := x]> (bufs s) j) -> lock s' = false ->
  prev x = prev (bufs s i) -> next x = next (bufs s i) -> 0 <= flags x < 8 ->
  dev x = 1 -> valid x = true -> 0 <= blockno x < disksize s ->
  (forall j, caches l (bufs s) j (blockno x) -> j = i) ->
  (dev (bufs s i) = 1 -> blockno (bufs s i) <> blockno x -> in_use (bufs s i) = false) ->
  (forall c, c ∈ BlockSpec.busy a' <-> if decide (c = blockno x) then busy x = true else c ∈ BlockSpec.busy a) ->
  (forall c, c ∈ BlockSpec.dirty a' <-> if decide (c = blockno x) then dirty x = true else c ∈ BlockSpec.dirty a) ->
  data x = blk (BlockSpec.view a') (blockno x) ->
  (forall c, c <> blockno x -> blk (BlockSpec.view a') c = blk (BlockSpec.view a) c) ->
  BlockSpec.settled a' -> memdisk s' = BlockSpec.disk a' ->
  disksize s' = disksize s -> disksize s = BlockSpec.nblocks a' -> writes s' = BlockSpec.writes a' ->
  rep l s' a'.
Proof.
  intros H Hi Eb El Ep En Hf Hd Hv Hbn Hu Hold Hbusy Hdirty Hdata Hview Hset Hdisk Hsz Hsz' Hw.
  assert (forall y, busy y = true -> in_use y = true) as HPb by (unfold in_use; by intros y ->).
  assert (forall y, dirty y = true -> in_use y = true) as HPd
    by (unfold in_use; intros y ->; apply orb_true_r).
  assert (forall j b, caches l (bufs s') j b <-> caches l (<[i := x]> (bufs s)) j b) as Hc'
    by (intros; unfold caches; by rewrite Eb).
  pose proof (fun j b => caches_upd l (bufs s) i x j b Hi Hd) as Hc. setoid_rewrite <- Hc' in Hc.
  destruct H as [R1 [Rn Rp Rd] R3 R4 R5 R6 R7 R8 R9 R10 R11 R12 R13].
  split; try done.
  - split; [| |done]; (eapply path_ext; [|done]); intros j _; unfold nx, pv; rewrite Eb; fn_cases.
  - intros j Hj. rewrite Eb. fn_cases. auto.
  - intros j Hj. rewrite Eb, Hsz. unfold insert, fn_insert. case_decide; subst; auto.
  - intros j k b. rewrite !Hc. naive_solver.
  - intros b. setoid_rewrite Hc'. setoid_rewrite Eb. by apply (marked_upd busy) with (BlockSpec.busy a).
  - intros b. setoid_rewrite Hc'. setoid_rewrite Eb. by apply (marked_upd dirty) with (BlockSpec.dirty a).
  - intros j b Hj. apply Hc in Hj as [[-> ->]|[Hj Hcj]]; rewrite Eb; unfold insert, fn_insert.
    + by rewrite decide_True.
    + rewrite decide_False by done. rewrite (R9 _ _ Hcj). symmetry. apply Hview.
      intros ->. by apply Hj, Hu.
  - congruence.
Qed.

(** The pointer [bread] returned for block [b]. *)
Definition pointer (b : Z) : M bcache nat := fun s =>
  match List.find (fun i => (dev (bufs s i) =? 1) && (blockno (bufs s i) =? b)) (seq 0 NBUF) with
  | Some i => Ok i s
  | None => Fault
  end.

#[global] Instance bcache_dev : BlockDev bcache := {
  Block.bread := fun dv b => bread dv b;; mret tt;
  Block.bdata := fun b => i ← pointer b; x ← bufat i; mret (data x);
  Block.bstore := fun b x => i ← pointer b; upd i (set_data x);
  Block.bpin := fun b => i ← pointer b; upd i (fun x => set_flags (flags x .| B_DIRTY) x);
  Block.bwrite := fun b => i ← pointer b; bwrite i;
  Block.brelse := fun b => i ← pointer b; brelse i
}.

Definition repr (s : bcache) (a : BlockSpec.st) : Prop := exists l, rep l s a.

Lemma find_caches l s a dv b :
  rep l s a ->
  match List.find (fun i => (dev (bufs s i) =? dv) && (blockno (bufs s i) =? b)) l with
  | Some i => i ∈ l /\ dev (bufs s i) = dv /\ blockno (bufs s i) = b
  | None => forall i, i ∈ l -> dev (bufs s i) = dv -> blockno (bufs s i) <> b
  end.
Proof.
  intros H. destruct (List.find _ l) as [i|] eqn:E.
  - apply find_some in E as [Hi E]. apply list_elem_of_In in Hi. boolify. done.
  - intros i Hi Hd Hb. apply list_elem_of_In in Hi. apply (find_none _ _ E) in Hi.
    rewrite Hd, Hb, !Z.eqb_refl in Hi. done.
Qed.

Lemma pointer_caches l s a i b : rep l s a -> caches l (bufs s) i b -> pointer b s = Ok i s.
Proof.
  intros H Hc. unfold pointer. destruct (List.find _ _) as [j|] eqn:E.
  - apply find_some in E as [Hj E]. boolify. f_equal. apply (r_uniq _ _ _ H j i b); [|done].
    split; [|done]. rewrite (r_perm _ _ _ H). by apply list_elem_of_In.
  - destruct Hc as (Hi & Hd & Hb). rewrite (r_perm _ _ _ H) in Hi. apply list_elem_of_In in Hi.
    apply (find_none _ _ E) in Hi. rewrite Hd, Hb, !Z.eqb_refl in Hi. done.
Qed.

Lemma find_ext {A} (f g : A -> bool) l : (forall x, f x = g x) -> List.find f l = List.find g l.
Proof. intros H. induction l as [|x l IH]; simpl; [done|]. by rewrite H, IH. Qed.

Lemma find_split {A} (f : A -> bool) l x : List.find f l = Some x ->
  exists l1 l2, l = l1 ++ x :: l2 /\ (forall y, y ∈ l1 -> f y = false) /\ f x = true.
Proof.
  induction l as [|y l IH]; simpl; [done|]. destruct (f y) eqn:E; intros H.
  - simplify_eq. exists [], l. set_solver.
  - destruct (IH H) as (l1 & l2 & -> & Hl & Hx). exists (y :: l1), l2. set_solver.
Qed.

Lemma set_lock_id s : lock s = false -> set_lock false (set_lock true s) = s.
Proof. destruct s; simpl. by intros ->. Qed.

(** [bget] searches the list from its two ends. *)
Lemma bget_run l s a dv bn :
  rep l s a ->
  bget dv bn s =
  match List.find (fun i => (dev (bufs s i) =? dv) && (blockno (bufs s i) =? bn)) l with
  | Some b =>
      if busy (bufs s b) then Sleep (ChBuf b) s
      else Ok b (set_bufs (<[b := set_flags (flags (bufs s b) .| B_BUSY) (bufs s b)]> (bufs s)) s)
  | None =>
      match List.find (fun i => negb (in_use (bufs s i))) (reverse l) with
      | Some b => Ok b (set_bufs (<[b := set_flags B_BUSY (set_id dv bn (bufs s b))]>
                                   (<[b := set_id dv bn (bufs s b)]> (bufs s))) s)
      | None => Panic "bget: no buffers"
      end
  end.
Proof.
  intros H. pose proof (r_linked _ _ _ H) as [Hn Hp Hd]. apply NoDup_cons in Hd as [Hh Hd].
  pose proof (r_lock _ _ _ H) as Hl. assert (length l = NBUF) as Hlen by (rewrite (r_perm _ _ _ H); done).
  unfold bget. erewrite bind_ok_l by (unfold acquire, Seq.acquire; rewrite Hl; reflexivity).
  erewrite bind_ok_l by reflexivity. change (bufs (set_lock true s)) with (bufs s).
  replace (next (bufs s head)) with (first_of l head) by (symmetry; apply (path_first _ _ _ _ Hn)).
  erewrite bind_ok_l by (apply (scan_find next) with head; [exact Hn|done|lia]). change (bufs (set_lock true s)) with (bufs s).
  destruct (List.find _ l) as [b|].
  - erewrite bind_ok_l by reflexivity. cbv beta. change (bufs (set_lock true s)) with (bufs s). destruct (busy (bufs s b)); simpl.
    + transitivity (Sleep (A := nat) (ChBuf b) (set_lock false (set_lock true s))); [done|].
      by rewrite set_lock_id.
    + unfold set_bufs, set_lock. simpl. by rewrite Hl.
  - erewrite bind_ok_l by reflexivity. change (bufs (set_lock true s)) with (bufs s).
    replace (prev (bufs s head)) with (first_of (reverse l) head)
      by (symmetry; apply (path_first _ _ _ _ Hp)).
    erewrite bind_ok_l by (apply (scan_find prev) with head;
      [exact Hp|by rewrite elem_of_reverse|rewrite length_reverse; lia]). change (bufs (set_lock true s)) with (bufs s).
    rewrite (find_ext _ (fun i => negb (in_use (bufs s i)))) by (intros; apply idle_test).
    destruct (List.find _ (reverse l)) as [b|]; [|done].
    unfold mbind, M_bind, upd, modify, release, Seq.release, set_bufs, set_lock. simpl.
    by rewrite Hl, fn_lookup_insert.
Qed.

Ltac flag_cases H := unfold busy, dirty, valid; simpl; revert H;
  match goal with x : buf |- _ => generalize (flags x) end;
  apply (flags8 (fun f => _)); split_and!; done.

Lemma or_busy x : 0 <= flags x < 8 -> let y := set_flags (flags x .| B_BUSY) x in
  busy y = true /\ dirty y = dirty x /\ valid y = valid x /\ 0 <= flags y < 8.
Proof. intros H. flag_cases H. Qed.

Lemma and_not_busy x : 0 <= flags x < 8 -> let y := set_flags (flags x .& Z.lnot B_BUSY) x in
  busy y = false /\ dirty y = dirty x /\ valid y = valid x /\ 0 <= flags y < 8.
Proof. intros H. flag_cases H. Qed.

Lemma or_dirty x : 0 <= flags x < 8 -> let y := set_flags (flags x .| B_DIRTY) x in
  busy y = busy x /\ dirty y = true /\ valid y = valid x /\ 0 <= flags y < 8.
Proof. intros H. flag_cases H. Qed.

Lemma settled_mono a (busy' dirty' : gset Z) :
  BlockSpec.settled a -> BlockSpec.busy a ⊆ busy' -> BlockSpec.dirty a ⊆ dirty' ->
  BlockSpec.settled (BlockSpec.MkBs (BlockSpec.disk a) (BlockSpec.view a) busy' dirty'
    (BlockSpec.nblocks a) (BlockSpec.writes a)).
Proof. intros H Hb Hd b Hb' Hd'. apply H; set_solver. Qed.

(** A cached block that nobody holds. *)
Lemma hit_rep l s a i b :
  rep l s a -> caches l (bufs s) i b ->
  rep l (set_bufs (<[i := set_flags (flags (bufs s i) .| B_BUSY) (bufs s i)]> (bufs s)) s)
    (BlockSpec.MkBs (BlockSpec.disk a) (BlockSpec.view a) ({[b]} ∪ BlockSpec.busy a)
       (BlockSpec.dirty a) (BlockSpec.nblocks a) (BlockSpec.writes a)).
Proof.
  intros H Hc. pose proof Hc as (Hi & Hd & Hb).
  destruct (r_kind _ _ _ H i Hi) as [(_ & Hv & Hr)|[Hx _]]; [|rewrite Hx in Hd; done].
  destruct (or_busy (bufs s i) (r_flags _ _ _ H i Hi)) as (Eb & Ed & Ev & Ef).
  eapply (rep_upd l s a i _ _ _ H Hi); try done; simpl.
  - apply H.
  - by rewrite Ev.
  - intros j Hj. eapply (r_uniq _ _ _ H); [done|]. by rewrite Hb.
  - intros c. rewrite Eb, Hb. case_decide; set_solver.
  - intros c. rewrite Ed, Hb. case_decide as E; [subst|done]. rewrite (r_dirty _ _ _ H). split; [|eauto].
    intros (j & Hj & Hdj). by rewrite (r_uniq _ _ _ H i j _ Hc Hj).
  - rewrite Hb. by apply (r_data _ _ _ H).
  - apply settled_mono; [apply H|set_solver|done].
  - apply H.
  - apply H.
  - apply H.
Qed.

(** [iderw] on a buffer that [bget] has just recycled. *)
Lemma iderw_read s j :
  flags (bufs s j) = B_BUSY ->
  iderw j s =
  if negb (dev (bufs s j) =? 1) then Panic "iderw: request not for disk 1" else
  if disksize s <=? blockno (bufs s j) then Panic "iderw: block out of range" else
  let f := <[j := set_data (blk (memdisk s) (blockno (bufs s j))) (bufs s j)]> (bufs s) in
  Ok tt (set_bufs (<[j := set_flags (flags (f j) .| B_VALID) (f j)]> f) s).
Proof.
  intros E. unfold iderw, mbind, M_bind, bufat, gets, busy, dirty. simpl. rewrite E. simpl.
  destruct (negb (dev _ =? 1)); [done|]. by destruct (disksize s <=? _).
Qed.

(** A recycled buffer. *)
Lemma recycle_rep l s a j b s' :
  rep l s a -> j ∈ l -> in_use (bufs s j) = false ->
  (forall i, ~ caches l (bufs s) i b) -> 0 <= b < disksize s ->
  (forall i, bufs s' i = <[j := MkBuf 3 1 b (prev (bufs s j)) (next (bufs s j)) (blk (memdisk s) b)]>
                           (bufs s) i) ->
  lock s' = lock s -> memdisk s' = memdisk s -> disksize s' = disksize s -> writes s' = writes s ->
  rep l s'
    (BlockSpec.MkBs (BlockSpec.disk a) (BlockSpec.view a) ({[b]} ∪ BlockSpec.busy a)
       (BlockSpec.dirty a) (BlockSpec.nblocks a) (BlockSpec.writes a)).
Proof.
  intros H Hj Hu Hno Hb Eb El Em Esz Ew.
  assert (b ∉ BlockSpec.busy a) as Hnb by (rewrite (r_busy _ _ _ H); naive_solver).
  assert (b ∉ BlockSpec.dirty a) as Hnd by (rewrite (r_dirty _ _ _ H); naive_solver).
  eapply (rep_upd l s a j _ _ _ H Hj Eb); try done; simpl.
  - rewrite El. apply H.
  - intros i Hi. by apply Hno in Hi.
  - intros c. case_decide; set_solver.
  - intros c. case_decide; [subst; done|done].
  - rewrite (r_disk _ _ _ H). symmetry. by apply (r_settled _ _ _ H).
  - apply settled_mono; [apply H|set_solver|done].
  - rewrite Em. apply H.
  - apply H.
  - rewrite Ew. apply H.
Qed.

(** What a call of [bread] has to do when the contract says [o]. *)
Definition bread_ok (l : list nat) (s : bcache) (a : BlockSpec.st) (b : Z)
    (r : outcome bcache nat) (o : outcome BlockSpec.st unit) : Prop :=
  match o with
  | Ok _ a' => exists i s', r = Ok i s' /\ caches l (bufs s') i b /\ rep l s' a'
  | Panic msg => r = Panic msg
  | Sleep _ a' => exists c, r = Sleep c s /\ a' = a
  | _ => False
  end.

(** The block is cached. *)
Lemma bread_hit l s a i b :
  rep l s a -> caches l (bufs s) i b ->
  List.find (fun i => (dev (bufs s i) =? 1) && (blockno (bufs s i) =? b)) l = Some i ->
  bread_ok l s a b (bread 1 b s) (BlockSpec.bread 1 b a).
Proof.
  intros H Hc Hf. pose proof Hc as (Hi & Hd & Hbn).
  destruct (r_kind _ _ _ H i Hi) as [(_ & Hv & Hr)|[Hx _]]; [|rewrite Hx in Hd; done].
  assert (b ∈ BlockSpec.busy a <-> busy (bufs s i) = true) as Hib.
  { rewrite (r_busy _ _ _ H). split; [|eauto]. intros (j & Hj & ?).
    by rewrite (r_uniq _ _ _ H i j _ Hc Hj). }
  unfold BlockSpec.bread, bread. unfold mbind at 1, M_bind at 1. rewrite (bget_run _ _ _ _ _ H), Hf.
  rewrite (proj2 (Z.ltb_ge b 0)) by lia. simpl. destruct (busy (bufs s i)) eqn:Eb.
  { rewrite bool_decide_true by (by apply Hib). by eexists. }
  rewrite bool_decide_false by (rewrite Hib; done).
  assert (BlockSpec.exhausted a && negb (bool_decide (b ∈ BlockSpec.dirty a)) = false) as ->.
  { destruct (BlockSpec.exhausted a) eqn:Ex; [|done]. simpl. apply negb_false_iff, bool_decide_eq_true.
    rewrite (r_dirty _ _ _ H). exists i. split; [done|].
    pose proof (proj1 (exhausted_iff _ _ _ H) Ex i Hi) as Hu. unfold in_use in Hu. by rewrite Eb in Hu. }
  pose proof (r_size _ _ _ H) as Hs. rewrite (proj2 (Z.leb_gt _ _)) by lia.
  unfold mbind, M_bind, bufat, gets. simpl. rewrite fn_lookup_insert.
  destruct (or_busy (bufs s i) (r_flags _ _ _ H i Hi)) as (_ & _ & Ev & _). rewrite Ev, Hv. simpl.
  eexists _, _. split; [done|]. split; [|by apply hit_rep].
  unfold caches. simpl. by rewrite fn_lookup_insert.
Qed.

(** A buffer [j] nobody uses is about to take block [b]. *)
Lemma bread_recycle l s a dv b j (f : nat -> buf) :
  rep l s a -> j ∈ l -> in_use (bufs s j) = false -> 0 <= b ->
  (dv = 1 -> forall i, ~ caches l (bufs s) i b) ->
  (dv =? 1) && bool_decide (b ∈ BlockSpec.busy a) = false ->
  (forall i, f i = <[j := set_flags B_BUSY (set_id dv b (bufs s j))]> (bufs s) i) ->
  bread_ok l s a b
    ((x ← bufat j; when (negb (valid x)) (iderw j);; mret j) (set_bufs f s))
    (BlockSpec.bread dv b a).
Proof.
  intros H Hj Hu Hb Hno Hnb Ef. assert (f j = set_flags B_BUSY (set_id dv b (bufs s j))) as Efj
    by (by rewrite Ef, fn_lookup_insert).
  assert (BlockSpec.exhausted a = false) as Hex.
  { destruct (BlockSpec.exhausted a) eqn:Ex; [|done].
    by rewrite (proj1 (exhausted_iff _ _ _ H) Ex j Hj) in Hu. }
  unfold BlockSpec.bread. rewrite (proj2 (Z.ltb_ge b 0)), Hnb, Hex by lia. simpl.
  unfold mbind, M_bind, bufat, gets. simpl. rewrite Efj. simpl. rewrite iderw_read by (simpl; by rewrite Efj).
  simpl. rewrite Efj. simpl. destruct (Z.eqb_spec dv 1) as [->|]; simpl; [|done].
  rewrite (r_size _ _ _ H). destruct (Z.leb_spec (BlockSpec.nblocks a) b); [done|].
  eexists _, _. split; [done|]. split.
  - unfold caches. simpl. by rewrite !fn_lookup_insert.
  - eapply (recycle_rep l s a j b); try done; [auto|rewrite (r_size _ _ _ H); lia|].
    intros i. simpl. rewrite !fn_lookup_insert. unfold insert, fn_insert.
    destruct (decide (j = i)) as [<-|Hi]; [done|]. rewrite Ef. unfold insert, fn_insert.
    by rewrite decide_False.
Qed.

Lemma bread_refines l s a dv b :
  rep l s a -> 0 <= b -> bread_ok l s a b (bread dv b s) (BlockSpec.bread dv b a).
Proof.
  intros H Hb. pose proof (find_caches _ _ _ dv b H) as Hf.
  destruct (List.find (fun i => (dev (bufs s i) =? dv) && _) l) as [i|] eqn:E.
  - destruct Hf as (Hi & Hd & Hbn). destruct (r_kind _ _ _ H i Hi) as [(Hd1 & _)|[Hd1 Hfl]].
    + assert (dv = 1) as -> by congruence. by apply bread_hit with i.
    + assert (in_use (bufs s i) = false) as Hu by (unfold in_use, busy, dirty; by rewrite Hfl).
      assert (busy (bufs s i) = false) as Hnb by (unfold busy; by rewrite Hfl).
      unfold bread. unfold mbind at 1, M_bind at 1. rewrite (bget_run _ _ _ _ _ H), E, Hnb.
      assert (dv <> 1) by (rewrite <- Hd, Hd1; done).
      apply bread_recycle with (1 := H) (2 := Hi); try done.
      * rewrite (proj2 (Z.eqb_neq dv 1)) by done. done.
      * intros k. unfold insert, fn_insert. case_decide; [subst|done]. rewrite Hfl.
        by destruct (bufs s k).
  - assert (dv = 1 -> forall i, ~ caches l (bufs s) i b) as Hno by (intros -> i (? & ? & ?); naive_solver).
    unfold bread. unfold mbind at 1, M_bind at 1. rewrite (bget_run _ _ _ _ _ H), E.
    assert ((dv =? 1) && bool_decide (b ∈ BlockSpec.busy a) = false) as Hnb.
    { destruct (Z.eqb_spec dv 1); [|done]. apply bool_decide_eq_false. rewrite (r_busy _ _ _ H). naive_solver. }
    destruct (List.find _ (reverse l)) as [j|] eqn:E2.
    + apply find_some in E2 as [Hj Hu]. apply list_elem_of_In in Hj. rewrite elem_of_reverse in Hj. boolify.
      apply bread_recycle with (1 := H) (2 := Hj); try done.
      intros k. unfold insert, fn_insert. by repeat case_decide.
    + assert (BlockSpec.exhausted a = true) as Hex.
      { apply (exhausted_iff _ _ _ H). intros i Hi. rewrite <- elem_of_reverse in Hi.
        apply list_elem_of_In, (find_none _ _ E2), negb_false_iff in Hi. done. }
      unfold BlockSpec.bread. rewrite (proj2 (Z.ltb_ge b 0)), Hnb, Hex by lia.
      assert ((dv =? 1) && bool_decide (b ∈ BlockSpec.dirty a) = false) as ->; [|done].
      destruct (Z.eqb_spec dv 1); [|done]. apply bool_decide_eq_false. rewrite (r_dirty _ _ _ H). naive_solver.
Qed.

(** The buffer of a busy block. *)
Lemma busy_caches l s a b : rep l s a -> b ∈ BlockSpec.busy a ->
  exists i, caches l (bufs s) i b /\ busy (bufs s i) = true /\ valid (bufs s i) = true /\
    0 <= b < disksize s /\ pointer b s = Ok i s.
Proof.
  intros H Hb. apply (r_busy _ _ _ H) in Hb as (i & Hc & Hb). exists i.
  pose proof Hc as (Hi & Hd & Hbn).
  destruct (r_kind _ _ _ H i Hi) as [(_ & Hv & Hr)|[Hx _]]; [|rewrite Hx in Hd; done].
  split_and!; try done; [lia|lia|]. by eapply pointer_caches.
Qed.

(** A holder of block [b] changes its contents to [x'] and its dirty mark to [d],
    and possibly writes it. *)
Lemma holder_rep l s a i b x s' (disk' view' : gmap Z bytes) (dirty' : gset Z) w :
  rep l s a -> caches l (bufs s) i b -> b ∈ BlockSpec.busy a ->
  (forall j, bufs s' j = <[i := x]> (bufs s) j) -> lock s' = false ->
  prev x = prev (bufs s i) -> next x = next (bufs s i) -> 0 <= flags x < 8 ->
  dev x = 1 -> blockno x = b -> valid x = true -> busy x = true ->
  (forall c, c ∈ dirty' <-> if decide (c = b) then dirty x = true else c ∈ BlockSpec.dirty a) ->
  (forall c, c <> b -> blk disk' c = blk (BlockSpec.disk a) c) ->
  blk view' b = data x -> (forall c, c <> b -> blk view' c = blk (BlockSpec.view a) c) ->
  memdisk s' = disk' -> disksize s' = disksize s -> writes s' = w ->
  rep l s' (BlockSpec.MkBs disk' view' (BlockSpec.busy a) dirty' (BlockSpec.nblocks a) w).
Proof.
  intros H Hc Hba Eb El Ep En Ef Ed Ebn Ev Eby Hdirty Hdisk Hv1 Hv2 Em Esz Ew. pose proof Hc as (Hi & Hd & Hbn).
  destruct (r_kind _ _ _ H i Hi) as [(_ & Hv & Hr)|[Hx _]]; [|rewrite Hx in Hd; done].
  eapply (rep_upd l s a i x); try done; rewrite ?Ebn; simpl.
  - lia.
  - intros j Hj. by eapply (r_uniq _ _ _ H).
  - congruence.
  - intros c. case_decide; set_solver.
  - done.
  - done.
  - done.
  - intros c Hc1 Hc2. simpl in *. assert (c <> b) by set_solver. rewrite Hv2, Hdisk by done.
    apply (r_settled _ _ _ H); [done|]. specialize (Hdirty c). rewrite decide_False in Hdirty by done. tauto.
  - apply H.
Qed.

(** Whether a busy block is dirty. *)
Lemma dirty_iff l s a i b : rep l s a -> caches l (bufs s) i b ->
  b ∈ BlockSpec.dirty a <-> dirty (bufs s i) = true.
Proof.
  intros H Hc. rewrite (r_dirty _ _ _ H). split; [|eauto]. intros (j & Hj & ?).
  by rewrite (r_uniq _ _ _ H i j _ Hc Hj).
Qed.

Lemma bdata_refines b : sim repr (Block.bdata b) (Block.bdata b).
Proof.
  intros s a [l H]. cbn [Block.bdata BlockSpec.dev]. unfold BlockSpec.bdata. case_bool_decide as Hb; [|done].
  destruct (busy_caches _ _ _ _ H Hb) as (i & Hc & _ & _ & _ & Hp).
  simpl. unfold mbind, M_bind. rewrite Hp. simpl. eexists.
  rewrite (r_data _ _ _ H _ _ Hc). split; [done|]. by exists l.
Qed.

Lemma bstore_refines b x : sim repr (Block.bstore b x) (Block.bstore b x).
Proof.
  intros s a [l H]. cbn [Block.bstore BlockSpec.dev]. unfold BlockSpec.bstore. case_bool_decide as Hb; [|done].
  destruct (busy_caches _ _ _ _ H Hb) as (i & Hc & Hbi & Hv & Hr & Hp). pose proof Hc as (Hi & Hd & Hbn).
  simpl. unfold mbind, M_bind. rewrite Hp. simpl. eexists. split; [done|]. exists l.
  eapply (holder_rep l s a i b (set_data x (bufs s i))); try done; simpl; try by apply H.
  - intros c. case_decide; [subst c|done]. by apply (dirty_iff _ _ _ _ _ H).
  - by rewrite blk_insert_eq.
  - intros c Hcb. by rewrite blk_insert_ne.
Qed.

Lemma bpin_refines b : sim repr (Block.bpin b) (Block.bpin b).
Proof.
  intros s a [l H]. cbn [Block.bpin BlockSpec.dev]. unfold BlockSpec.bpin. case_bool_decide as Hb; [|done].
  destruct (busy_caches _ _ _ _ H Hb) as (i & Hc & Hbi & Hv & Hr & Hp). pose proof Hc as (Hi & Hd & Hbn).
  destruct (or_dirty (bufs s i) (r_flags _ _ _ H i Hi)) as (Eb & Ed & Ev & Ef).
  simpl. unfold mbind, M_bind. rewrite Hp. simpl. eexists. split; [done|]. exists l.
  eapply (holder_rep l s a i b (set_flags (flags (bufs s i) .| B_DIRTY) (bufs s i)));
    try done; simpl; try by apply H.
  - by rewrite Ev.
  - by rewrite Eb.
  - intros c. rewrite Ed. case_decide; set_solver.
  - symmetry. by apply (r_data _ _ _ H).
Qed.

Lemma write_flags x : 0 <= flags x < 8 -> busy x = true ->
  let y := set_flags (flags x .| B_DIRTY) x in
  (flags y .& (B_VALID .| B_DIRTY) =? B_VALID) = false /\ dirty y = true /\ busy y = true /\
  let z := set_flags (flags y .& Z.lnot B_DIRTY .| B_VALID) y in
  busy z = true /\ dirty z = false /\ valid z = true /\ 0 <= flags z < 8.
Proof.
  intros H. unfold busy, dirty, valid. simpl. revert H. generalize (flags x).
  apply (flags8 (fun f => _ -> _)); try done; intros _; split_and!; done.
Qed.

Lemma bwrite_refines b : sim repr (Block.bwrite b) (Block.bwrite b).
Proof.
  intros s a [l H]. cbn [Block.bwrite BlockSpec.dev]. unfold BlockSpec.bwrite. case_bool_decide as Hb; [|done].
  destruct (busy_caches _ _ _ _ H Hb) as (i & Hc & Hbi & Hv & Hr & Hp). pose proof Hc as (Hi & Hd & Hbn).
  destruct (write_flags (bufs s i) (r_flags _ _ _ H i Hi) Hbi) as (E1 & E2 & E3 & Zb & Zd & Zv & Zf).
  simpl. unfold mbind, M_bind. rewrite Hp. unfold bwrite, mbind, M_bind, bufat, gets. simpl.
  rewrite busy_eq0, Hbi. simpl. unfold iderw, mbind, M_bind, bufat, gets. simpl.
  rewrite fn_lookup_insert, E3, E1. simpl. rewrite Hd. simpl. rewrite Hbn.
  rewrite (proj2 (Z.leb_gt _ _)), E2 by lia. simpl.
  rewrite !fn_lookup_insert. simpl. rewrite (r_data _ _ _ H _ _ Hc).
  eexists. split; [done|]. exists l.
  eapply (holder_rep l s a i b
    (set_flags ((flags (bufs s i) .| B_DIRTY) .& Z.lnot B_DIRTY .| B_VALID) (bufs s i)) _ _ _ _ _ H Hc Hb);
    simpl; try done; try by apply H.
  - intros j. rewrite fn_lookup_insert. unfold insert, fn_insert. by repeat case_decide.
  - intros c. case_decide; [|set_solver]. subst c.
    split; [set_solver|]. intros Hx.
    unfold dirty in Hx, Zd. simpl in Hx, Zd. congruence.
  - intros c Hcb. by rewrite blk_insert_ne.
  - symmetry. by apply (r_data _ _ _ H).
  - by rewrite (r_disk _ _ _ H).
  - by rewrite (r_writes _ _ _ H).
Qed.

(** Relinking the buffers. *)
Lemma rep_links l l' s s' a :
  rep l s a -> (forall i, same_buf (bufs s' i) (bufs s i)) -> linked (bufs s') l' -> l' ≡ₚ l ->
  lock s' = lock s -> memdisk s' = memdisk s -> disksize s' = disksize s -> writes s' = writes s ->
  rep l' s' a.
Proof.
  intros H Hs Hl Hp El Em Es Ew.
  assert (forall i b, caches l' (bufs s') i b <-> caches l (bufs s) i b) as Hc.
  { intros i b. unfold caches. destruct (Hs i) as (_ & -> & -> & _). by rewrite Hp. }
  destruct H as [R1 R2 R3 R4 R5 R6 R7 R8 R9 R10 R11 R12 R13].
  split; try congruence; try done.
  - by rewrite Hp.
  - intros i Hi. destruct (Hs i) as (-> & _). apply R4. by rewrite <- Hp.
  - intros i Hi. rewrite Hp in Hi. specialize (R5 i Hi). destruct (Hs i) as (E1 & E2 & E3 & _).
    unfold valid in *. by rewrite E1, E2, E3, Es.
  - intros i j b. rewrite !Hc. apply R6.
  - intros b. rewrite R7. apply exist_proper. intros i. rewrite Hc. destruct (Hs i) as (E1 & _).
    unfold busy. by rewrite E1.
  - intros b. rewrite R8. apply exist_proper. intros i. rewrite Hc. destruct (Hs i) as (E1 & _).
    unfold dirty. by rewrite E1.
  - intros i b Hi. rewrite Hc in Hi. destruct (Hs i) as (_ & _ & _ & ->). by apply R9.
Qed.

Lemma brelse_steps s i :
  lock s = false -> busy (bufs s i) = true ->
  let f := push_front i (unlink i (bufs s)) in
  brelse i s = Ok tt (MkBc false (<[i := set_flags (flags (f i) .& Z.lnot B_BUSY) (f i)]> f)
                        (memdisk s) (disksize s) (writes s) (woken s ++ [ChBuf i])).
Proof.
  intros Hl Hb f. unfold brelse, mbind, M_bind, bufat, gets. simpl. rewrite busy_eq0, Hb. simpl.
  unfold acquire, Seq.acquire. rewrite Hl. reflexivity.
Qed.

(** The released buffer is no longer busy. *)
Lemma release_rep l s a i b s' :
  rep l s a -> caches l (bufs s) i b ->
  (b ∉ BlockSpec.dirty a -> blk (BlockSpec.view a) b = blk (BlockSpec.disk a) b) ->
  (forall j, bufs s' j = <[i := set_flags (flags (bufs s i) .& Z.lnot B_BUSY) (bufs s i)]> (bufs s) j) ->
  lock s' = false -> memdisk s' = memdisk s -> disksize s' = disksize s -> writes s' = writes s ->
  rep l s' (BlockSpec.MkBs (BlockSpec.disk a) (BlockSpec.view a) (BlockSpec.busy a ∖ {[b]})
              (BlockSpec.dirty a) (BlockSpec.nblocks a) (BlockSpec.writes a)).
Proof.
  intros H Hc Hclean Eb El Em Es Ew. pose proof Hc as (Hi & Hd & Hbn).
  destruct (r_kind _ _ _ H i Hi) as [(_ & Hv & Hr)|[Hx _]]; [|rewrite Hx in Hd; done].
  destruct (and_not_busy (bufs s i) (r_flags _ _ _ H i Hi)) as (Fb & Fd & Fv & Ff).
  eapply (rep_upd l s a i _ _ _ H Hi Eb); simpl; rewrite ?Hbn; try done.
  - by rewrite Fv.
  - by rewrite <- Hbn.
  - intros j Hj. by eapply (r_uniq _ _ _ H).
  - intros c. rewrite Fb. case_decide; set_solver.
  - intros c. rewrite Fd. case_decide; [subst c|done]. by apply (dirty_iff _ _ _ _ _ H).
  - by apply (r_data _ _ _ H).
  - intros c Hc1 Hc2. simpl in *. destruct (decide (c = b)) as [->|]; [by apply Hclean|].
    apply (r_settled _ _ _ H); set_solver.
  - rewrite Em. apply H.
  - apply H.
  - rewrite Ew. apply H.
Qed.

(** [brelse] moves the buffer to the front. *)
Lemma brelse_front l1 i l2 s a b :
  rep (l1 ++ i :: l2) s a -> caches (l1 ++ i :: l2) (bufs s) i b -> busy (bufs s i) = true ->
  (b ∉ BlockSpec.dirty a -> blk (BlockSpec.view a) b = blk (BlockSpec.disk a) b) ->
  exists s', brelse i s = Ok tt s' /\
    rep (i :: l1 ++ l2) s' (BlockSpec.MkBs (BlockSpec.disk a) (BlockSpec.view a) (BlockSpec.busy a ∖ {[b]})
              (BlockSpec.dirty a) (BlockSpec.nblocks a) (BlockSpec.writes a)).
Proof.
  intros H Hc Hbi Hclean. pose proof (r_lock _ _ _ H) as Hl. rewrite brelse_steps by done.
  set (f := push_front i (unlink i (bufs s))).
  assert (forall j, same_buf (f j) (bufs s j)) as Hsame.
  { intros j. subst f. etransitivity; [apply push_front_same|apply unlink_same]. }
  eexists. split; [done|]. eapply (release_rep _ (set_bufs f s)); try done.
  - eapply rep_links with (1 := H); try done; [|solve_Permutation].
    subst f. pose proof (r_linked _ _ _ H) as Hk. apply push_front_linked; [by apply unlink_linked|].
    destruct Hk as [_ _ Hk]. apply NoDup_cons in Hk as [Hh Hk]. apply NoDup_app in Hk as (N1 & N2 & N3).
    apply NoDup_cons in N3 as [N3 _]. specialize (N2 i). set_solver.
  - destruct Hc as (_ & Hd & Hbn). destruct (Hsame i) as (_ & E2 & E3 & _).
    unfold caches. simpl. rewrite E2, E3. set_solver.
Qed.

Lemma brelse_refines b : sim repr (Block.brelse b) (Block.brelse b).
Proof.
  intros s a [l H]. cbn [Block.brelse BlockSpec.dev]. unfold BlockSpec.brelse. case_bool_decide as Hb; [|done]. simpl andb.
  destruct (_ || _) eqn:Ed; [|done].
  destruct (busy_caches _ _ _ _ H Hb) as (i & Hc & Hbi & Hv & Hr & Hp). pose proof Hc as (Hi & _).
  apply list_elem_of_split in Hi as (l1 & l2 & ->).
  destruct (brelse_front l1 i l2 s a b H Hc Hbi) as (s' & E & H').
  { intros Hnd. rewrite bool_decide_false in Ed by done. simpl in Ed. by boolify. }
  exists s'. simpl. unfold mbind, M_bind. rewrite Hp. split; [done|]. by eexists.
Qed.

(** The buffer cache implements the block contract. *)
#[global] Instance bcache_impl : BlockImpl bcache repr.
Proof.
  split; try apply bdata_refines; try apply bstore_refines; try apply bpin_refines;
    try apply bwrite_refines; try apply brelse_refines.
  intros dv b s a [l H]. cbn [Block.bread BlockSpec.dev]. destruct (Z.ltb_spec b 0) as [Hb|Hb].
  { unfold BlockSpec.bread. by rewrite (proj2 (Z.ltb_lt b 0)). }
  pose proof (bread_refines l s a dv b H Hb) as Hr. unfold bread_ok in Hr.
  simpl. unfold mbind, M_bind.
  destruct (BlockSpec.bread dv b a) as [[] ?| | | |]; try done.
  - destruct Hr as (i & s' & -> & _ & Hr). eexists. split; [done|]. by exists l.
  - by rewrite Hr.
  - destruct Hr as (c' & -> & ->). eexists _, _. split; [done|]. by exists l.
Qed.

(** ** Initialisation *)

(** The cache in zeroed memory, with a disk image. *)
Definition boot (img : gmap Z bytes) (size : Z) : bcache :=
  MkBc false (fun _ => MkBuf 0 0 0 0 0 []) img size [] [].

Definition boot_spec (img : gmap Z bytes) (size : Z) : BlockSpec.st :=
  BlockSpec.MkBs img img ∅ ∅ size [].

Definition fresh (x : buf) : Prop := dev x = u32 (-1) /\ flags x = 0.

Lemma linked_ext f g l : (forall i, next (f i) = next (g i) /\ prev (f i) = prev (g i)) ->
  linked f l -> linked g l.
Proof.
  intros H [H1 H2 H3]. split; [| |done]; (eapply path_ext; [|done]); intros i _; apply H.
Qed.

Lemma binit_one_step b s l :
  (b < head)%nat -> linked (bufs s) l -> (forall i, i ∈ l -> (i < b)%nat) -> flags (bufs s b) = 0 ->
  exists f, binit_one b s = Ok tt (set_bufs f s) /\ linked f (b :: l) /\ fresh (f b) /\
    (forall i, i <> b -> same_buf (f i) (bufs s i)).
Proof.
  intros Hb Hl Hlt Hf. eexists. split; [reflexivity|].
  assert (b ∉ head :: l) as Hnb by (intros Hx; apply elem_of_cons in Hx as [->|Hx]; [lia|apply Hlt in Hx; lia]).
  split; [|split].
  - eapply linked_ext, (push_front_linked b (bufs s) l Hl Hnb). intros i. unfold push_front.
    unfold insert, fn_insert. repeat (case_decide; subst; simpl in *); done.
  - unfold fresh, insert, fn_insert. repeat (case_decide; subst; simpl in *; try lia); done.
  - intros i Hi. cbn -[insert head u32]. same.
Qed.

Lemma binit_loop_linked n b s l :
  (b + n = head)%nat -> linked (bufs s) l -> (forall i, i ∈ l <-> (i < b)%nat) ->
  (forall i, (i < b)%nat -> fresh (bufs s i)) -> (forall i, flags (bufs s i) = 0) ->
  exists f l', binit_loop b n s = Ok tt (set_bufs f s) /\ linked f l' /\
    (forall i, i ∈ l' <-> (i < head)%nat) /\ forall i, (i < head)%nat -> fresh (f i).
Proof.
  revert b s l. induction n as [|n IH]; intros b s l Hn Hl Hel Hfr Hfl.
  - assert (b = head) as -> by lia. exists (bufs s), l. simpl. split; [by destruct s|]. auto.
  - destruct (binit_one_step b s l) as (f & E & Hl1 & Hfb & Hs); [lia|done|set_solver|done|].
    destruct (IH (S b) (set_bufs f s) (b :: l)) as (g & l' & E2 & Hl2 & He & Hfr2).
    + lia.
    + done.
    + intros i. rewrite elem_of_cons, Hel. lia.
    + intros i Hi. simpl. destruct (decide (i = b)) as [->|Hne]; [done|].
      destruct (Hs i Hne) as (E1 & E3 & _). unfold fresh. rewrite E1, E3. apply Hfr. lia.
    + intros i. simpl. destruct (decide (i = b)) as [->|Hne]; [apply Hfb|].
      destruct (Hs i Hne) as (-> & _). done.
    + exists g, l'. simpl. unfold mbind, M_bind. rewrite E, E2. done.
Qed.

(** [binit] on zeroed memory gives an empty cache. *)
Lemma binit_rep img size :
  exists s l, binit (boot img size) = Ok tt s /\ rep l s (boot_spec img size) /\
    forall i, i ∈ l -> fresh (bufs s i).
Proof.
  unfold binit, mbind, M_bind. simpl upd.
  destruct (binit_loop_linked NBUF 0
    (set_bufs (<[head := set_next head (<[head := set_prev head (MkBuf 0 0 0 0 0 [])]>
        (fun _ => MkBuf 0 0 0 0 0 []) head)]>
      (<[head := set_prev head (MkBuf 0 0 0 0 0 [])]> (fun _ => MkBuf 0 0 0 0 0 [])))
      (boot img size)) []) as (f & l & E & Hl & He & Hfr).
  - done.
  - split; [done|done|]. constructor; [set_solver|constructor].
  - intros i. split; [set_solver|lia].
  - intros i Hi. lia.
  - intros i. unfold insert, fn_insert. simpl. by repeat case_decide.
  - eexists _, l. split; [exact E|]. clear E.
    assert (forall i b, ~ caches l f i b) as Hno.
    { intros i b (Hi & Hd & _). apply He in Hi. destruct (Hfr i Hi) as [Hd' _]. by rewrite Hd in Hd'. }
    split; [|intros i Hi; by apply Hfr, He].
    apply MkRep; cbn [lock bufs memdisk disksize writes set_bufs boot boot_spec BlockSpec.disk BlockSpec.view
      BlockSpec.busy BlockSpec.dirty BlockSpec.nblocks BlockSpec.writes]; try reflexivity.
    + exact Hl.
    + destruct Hl as [_ _ Hnd]. apply NoDup_cons in Hnd as [_ Hnd].
      apply NoDup_Permutation; [done|apply NoDup_seq|]. intros i. rewrite He, elem_of_seq. unfold head. lia.
    + intros i Hi. apply He, Hfr in Hi as [_ ->]. lia.
    + intros i Hi. right. by apply Hfr, He.
    + intros i j b Hi. by apply Hno in Hi.
    + intros b. split; [set_solver|]. intros (i & Hi & _). by apply Hno in Hi.
    + intros b. split; [set_solver|]. intros (i & Hi & _). by apply Hno in Hi.
    + intros i b Hi. by apply Hno in Hi.
    + intros b _ _. done.
Qed.

(** ** Correctness *)

(** Calls of the interface, by any client. *)
Inductive op :=
| OpRead (dv b : Z)
| OpData (b : Z)
| OpStore (b : Z) (x : bytes)
| OpPin (b : Z)
| OpWrite (b : Z)
| OpRelse (b : Z).

Definition run_op {S} `{BlockDev S} (o : op) : M S bytes :=
  match o with
  | OpRead dv b => Block.bread dv b;; mret []
  | OpData b => Block.bdata b
  | OpStore b x => Block.bstore b x;; mret []
  | OpPin b => Block.bpin b;; mret []
  | OpWrite b => Block.bwrite b;; mret []
  | OpRelse b => Block.brelse b;; mret []
  end.

Fixpoint run_ops {S} `{BlockDev S} (l : list op) : M S (list bytes) :=
  match l with
  | [] => mret []
  | o :: l' => x ← run_op o; xs ← run_ops l'; mret (x :: xs)
  end.

Lemma run_ops_sim l : sim repr (run_ops l) (run_ops l).
Proof.
  induction l as [|o l IH]; cbn [run_ops]; [apply sim_ret|].
  apply sim_bind; [destruct o; cbn [run_op]; sim_auto|].
  intros x. apply sim_bind; [done|]. intros. apply sim_ret.
Qed.

(** C2: refinement of the buffer cache: from the cache [binit] builds over any
    disk, every sequence of bread, data access, pin, bwrite and brelse calls
    gives the data, the panics, the sleeps and the disk writes of the block
    contract: a block has one copy, a holder sees the last data stored, clean
    idle blocks are as on disk, and busy or dirty blocks are never recycled. *)
Theorem bcache_refines img size l :
  exists s0, binit (boot img size) = Ok tt s0 /\
    match run_ops l (boot_spec img size) with
    | Ok r a => exists s, run_ops l s0 = Ok r s /\ repr s a
    | Panic msg => run_ops l s0 = Panic msg
    | Sleep _ a => exists c s, run_ops l s0 = Sleep c s /\ repr s a
    | _ => True
    end.
Proof.
  destruct (binit_rep img size) as (s0 & l0 & E & H & _). exists s0. split; [done|].
  apply (run_ops_sim l s0). by exists l0.
Qed.

(** Replacement policy: the list of buffers is in order of release.  A
    bread of a block that is not cached takes the buffer released longest ago
    among those neither busy nor dirty, and leaves the order alone; brelse
    moves the buffer to the front of the order. *)
Theorem cache_lru l s a b i s' :
  rep l s a -> 0 <= b ->
  ((forall j, ~ caches l (bufs s) j b) -> bread 1 b s = Ok i s' ->
    (exists l1 l2, l = l1 ++ i :: l2 /\ in_use (bufs s i) = false /\
       (forall j, j ∈ l2 -> in_use (bufs s j) = true)) /\ exists a', rep l s' a') /\
  (caches l (bufs s) i b -> b ∈ BlockSpec.busy a -> b ∈ BlockSpec.dirty a ->
    exists l1 l2 s'' a'', l = l1 ++ i :: l2 /\ brelse i s = Ok tt s'' /\ rep (i :: l1 ++ l2) s'' a'').
Proof.
  intros H Hb. split.
  - intros Hno E. split.
    + unfold bread in E. apply bind_ok in E as (j & s1 & E1 & E). rewrite (bget_run _ _ _ _ _ H) in E1.
      assert (i = j) as <-.
      { apply bind_ok in E as (? & ? & _ & E). apply bind_ok in E as (? & ? & _ & E). by run_inv. }
      pose proof (find_caches _ _ _ 1 b H) as Hf. destruct (List.find _ l) as [k|]; [by apply Hno in Hf|].
      destruct (List.find _ (reverse l)) as [k|] eqn:E2; [|done]. injection E1 as -> _.
      apply find_split in E2 as (m1 & m2 & E2 & Hm & Hu).
      exists (reverse m2), (reverse m1). split; [|split; [by boolify|]].
      * rewrite <- (reverse_involutive l), E2, reverse_app, reverse_cons, <- app_assoc. done.
      * intros j Hj. rewrite elem_of_reverse in Hj. apply Hm in Hj. by boolify.
    + pose proof (bread_refines l s a 1 b H Hb) as Hr. unfold bread_ok in Hr. rewrite E in Hr.
      destruct (BlockSpec.bread 1 b a) as [? a'| | | |]; naive_solver.
  - intros Hc Hbusy Hd. pose proof Hc as (Hi & _). apply list_elem_of_split in Hi as (l1 & l2 & ->).
    destruct (busy_caches _ _ _ _ H Hbusy) as (k & Hk & Hbk & _).
    rewrite <- (r_uniq _ _ _ H i k b Hc Hk) in Hbk.
    destruct (brelse_front l1 i l2 s a b H Hc Hbk) as (s'' & E & H'); [done|]. eauto 10.
Qed.

End Bio.

(** The policy at work on the cache [binit] builds. *)
Lemma cache_lru_witness :
  exists s0, Bio.binit (Bio.boot ∅ 100) = Ok tt s0 /\
  exists l i s', Bio.rep l s0 (Bio.boot_spec ∅ 100) /\ Bio.bread 1 7 s0 = Ok i s' /\
    exists l1 l2, l = l1 ++ i :: l2 /\ Bio.in_use (Bio.bufs s0 i) = false /\
       (forall j, j ∈ l2 -> Bio.in_use (Bio.bufs s0 j) = true).
Proof.
  destruct (Bio.binit_rep ∅ 100) as (s0 & l & E & H & Hf). exists s0. split; [exact E|]. clear E.
  destruct (Bio.bread_refines l s0 _ 1 7 H ltac:(lia)) as (i & s' & Hr & _).
  exists l, i, s'. split; [exact H|]. split; [exact Hr|].
  apply (Bio.cache_lru l s0 (Bio.boot_spec ∅ 100) 7 i s' H ltac:(lia)); [|exact Hr].
  intros j (Hj & Hd & _). destruct (Hf j Hj) as [Hd' _]. rewrite Hd in Hd'. discriminate Hd'.
Defined.
