(* ===== verification/Ide.v ===== *)
(** * ide.c: the disk driver

    The driver's queue of buffers, its interrupt handler and [iderw], over a
    disk controller that is known only through its ports (class [Ata]) and the
    contract of its commands (class [AtaSpec]). *)

From S2P Require Import Prelude Memory Layout Spinlock Block Bio.

Module Ide.

Definition SECTOR_SIZE : Z := 512.
Definition IDE_BSY : Z := 0x80.
Definition IDE_DRDY : Z := 0x40.
Definition IDE_DF : Z := 0x20.
Definition IDE_ERR : Z := 0x01.
Definition IDE_CMD_READ : Z := 0x20.
Definition IDE_CMD_WRITE : Z := 0x30.

(** The controller: input and output of bytes, and of runs of 32-bit words as
    their bytes. *)
Class Ata (D : Type) := {
  ata_inb : Z -> D -> Z * D;
  ata_outb : Z -> Z -> D -> D;
  ata_insl : Z -> nat -> D -> bytes * D;
  ata_outsl : Z -> bytes -> D -> D
}.

(** [struct buf], without bio.c's list links. *)
Record buf := MkBuf {
  flags : Z;
  dev : Z;
  blockno : Z;
  qnext : option nat;
  data : bytes
}.

Inductive irq_call := Picenable (irq : Z) | Ioapicenable (irq cpu : Z).

Section driver.
Context {D : Type} `{Ata D}.
(** The number of times a status register is read before it is ready. *)
Context (patience : nat).

(** [idelock], [idequeue], [havedisk1], the buffers, the controller, the
    channels woken, and the calls that enabled interrupts. *)
Record ide := MkIde {
  idelock : bool;
  idequeue : option nat;
  havedisk1 : bool;
  bufs : nat -> buf;
  hw : D;
  woken : list chan;
  irqs : list irq_call
}.

Definition set_idelock (x : bool) (s : ide) : ide := MkIde x (idequeue s) (havedisk1 s) (bufs s) (hw s) (woken s) (irqs s).
Definition set_idequeue (x : option nat) (s : ide) : ide := MkIde (idelock s) x (havedisk1 s) (bufs s) (hw s) (woken s) (irqs s).
Definition set_havedisk1 (x : bool) (s : ide) : ide := MkIde (idelock s) (idequeue s) x (bufs s) (hw s) (woken s) (irqs s).
Definition set_bufs (x : nat -> buf) (s : ide) : ide := MkIde (idelock s) (idequeue s) (havedisk1 s) x (hw s) (woken s) (irqs s).
Definition set_hw (x : D) (s : ide) : ide := MkIde (idelock s) (idequeue s) (havedisk1 s) (bufs s) x (woken s) (irqs s).
Definition set_woken (x : list chan) (s : ide) : ide := MkIde (idelock s) (idequeue s) (havedisk1 s) (bufs s) (hw s) x (irqs s).
Definition set_irqs (x : list irq_call) (s : ide) : ide := MkIde (idelock s) (idequeue s) (havedisk1 s) (bufs s) (hw s) (woken s) x.

Definition set_flags (x : Z) (b : buf) : buf := MkBuf x (dev b) (blockno b) (qnext b) (data b).
Definition set_qnext (x : option nat) (b : buf) : buf := MkBuf (flags b) (dev b) (blockno b) x (data b).
Definition set_data (x : bytes) (b : buf) : buf := MkBuf (flags b) (dev b) (blockno b) (qnext b) x.

Definition inb (port : Z) : M ide Z := s ← get; let '(r, d) := ata_inb port (hw s) in _ ← put (set_hw d s); mret r.
Definition outb (port v : Z) : M ide unit := modify (fun s => set_hw (ata_outb port (u8 v) (hw s)) s).
Definition insl (port : Z) (cnt : nat) : M ide bytes := s ← get; let '(r, d) := ata_insl port cnt (hw s) in _ ← put (set_hw d s); mret r.
Definition outsl (port : Z) (l : bytes) : M ide unit := modify (fun s => set_hw (ata_outsl port l (hw s)) s).

Definition bufat (b : nat) : M ide buf := gets (fun s => bufs s b).
Definition upd (b : nat) (f : buf -> buf) : M ide unit := modify (fun s => set_bufs (<[b := f (bufs s b)]> (bufs s)) s).
Definition wakeup (b : nat) : M ide unit := modify (fun s => set_woken (woken s ++ [ChBuf b]) s).
Definition acquire : M ide unit := Seq.acquire idelock set_idelock.
Definition release : M ide unit := Seq.release idelock set_idelock.

(** The loop of [idewait]: the status once it is ready. *)
Fixpoint poll (n : nat) : M ide Z :=
  match n with
  | O => nofuel
  | S n =>
      r ← inb 0x1f7;
      if negb ((r .& (IDE_BSY .| IDE_DRDY)) =? IDE_DRDY) then poll n else mret r
  end.

Definition idewait (checkerr : bool) : M ide Z :=
  r ← poll patience;
  if checkerr && truthy (r .& (IDE_DF .| IDE_ERR)) then mret (-1) else mret 0.

(** The probe for the second disk reads its status up to [n] times. *)
Fixpoint probe (n : nat) : M ide unit :=
  match n with
  | O => mret tt
  | S n =>
      r ← inb 0x1f7;
      if truthy r then modify (set_havedisk1 true) else probe n
  end.

Definition ideinit (ncpu : Z) : M ide unit :=
  modify (set_idelock false);;
  modify (fun s => set_irqs (irqs s ++ [Picenable IRQ_IDE; Ioapicenable IRQ_IDE (ncpu - 1)]) s);;
  _ ← idewait false;
  outb 0x1f6 (0xe0 .| Z.shiftl 1 4);;
  probe 1000;;
  outb 0x1f6 (0xe0 .| Z.shiftl 0 4).

Definition sector_per_block : Z := BSIZE / SECTOR_SIZE.

Definition idestart (p : option nat) : M ide unit :=
  match p with
  | None => panic "idestart"
  | Some i =>
      b ← bufat i;
      if FSSIZE <=? blockno b then panic "incorrect blockno" else
      let sector := s32 (blockno b * sector_per_block) in
      if 7 <? sector_per_block then panic "idestart" else
      _ ← idewait false;
      outb 0x3f6 0;;
      outb 0x1f2 sector_per_block;;
      outb 0x1f3 (sector .& 0xff);;
      outb 0x1f4 (Z.shiftr sector 8 .& 0xff);;
      outb 0x1f5 (Z.shiftr sector 16 .& 0xff);;
      outb 0x1f6 (0xe0 .| Z.shiftl (dev b .& 1) 4 .| (Z.shiftr sector 24 .& 0x0f));;
      if truthy (flags b .& B_DIRTY) then
        outb 0x1f7 IDE_CMD_WRITE;;
        outsl 0x1f0 (data b)
      else outb 0x1f7 IDE_CMD_READ
  end.

Definition ideintr : M ide unit :=
  acquire;;
  q ← gets idequeue;
  match q with
  | None => release
  | Some i =>
      b ← bufat i;
      modify (set_idequeue (qnext b));;
      (if negb (truthy (flags b .& B_DIRTY)) then
         r ← idewait true;
         if 0 <=? r then l ← insl 0x1f0 (Z.to_nat (BSIZE / 4)); upd i (set_data l) else mret tt
       else mret tt);;
      upd i (fun b => set_flags (flags b .| B_VALID) b);;
      upd i (fun b => set_flags (flags b .& Z.lnot B_DIRTY) b);;
      wakeup i;;
      q ← gets idequeue;
      (match q with Some _ => idestart q | None => mret tt end);;
      release
  end.

(** The end of the queue: the buffer whose [qnext] is null. *)
Fixpoint queue_end (n i : nat) : M ide nat :=
  match n with
  | O => nofuel
  | S n => b ← bufat i; match qnext b with Some j => queue_end n j | None => mret i end
  end.

Definition append (b : nat) : M ide unit :=
  q ← gets idequeue;
  match q with
  | None => modify (set_idequeue (Some b))
  | Some i => e ← queue_end (S NBUF) i; upd e (set_qnext (Some b))
  end.

(** The loop of [iderw] that waits for the request: it gives up the lock while
    it sleeps, and starts again with the lock when it is woken. *)
Definition iderw_wait (i : nat) : M ide unit :=
  b ← bufat i;
  if (flags b .& (B_VALID .| B_DIRTY)) =? B_VALID then release
  else release;; sleepon (ChBuf i).

Definition iderw (i : nat) : M ide unit :=
  b ← bufat i;
  if negb (truthy (flags b .& B_BUSY)) then panic "iderw: buf not busy" else
  if (flags b .& (B_VALID .| B_DIRTY)) =? B_VALID then panic "iderw: nothing to do" else
  d1 ← gets havedisk1;
  if truthy (dev b) && negb d1 then panic "iderw: ide disk 1 not present" else
  acquire;;
  upd i (set_qnext None);;
  append i;;
  q ← gets idequeue;
  (if bool_decide (q = Some i) then idestart (Some i) else mret tt);;
  iderw_wait i.

(** What [iderw] does when it is woken. *)
Definition iderw_again (i : nat) : M ide unit := acquire;; iderw_wait i.

(** ** The contract of the controller *)

(** The controller as it is read until it is ready. *)
Fixpoint spin (n : nat) (d : D) : option (Z * D) :=
  match n with
  | O => None
  | S n => let '(r, d) := ata_inb 0x1f7 d in if (r .& (IDE_BSY .| IDE_DRDY)) =? IDE_DRDY then Some (r, d) else spin n d
  end.

(** The drive and the sector that the bytes in the address registers select. *)
Definition drive_of (e : Z) : Z := Z.shiftr e 4 .& 1.
Definition lba_of (a b c e : Z) : Z := a + 2 ^ 8 * b + 2 ^ 16 * c + 2 ^ 24 * (e .& 15).

(** The writes of a command for one sector. *)
Definition command (cmd a b c e : Z) (d : D) : D :=
  ata_outb 0x1f7 cmd (ata_outb 0x1f6 e (ata_outb 0x1f5 c (ata_outb 0x1f4 b (ata_outb 0x1f3 a (ata_outb 0x1f2 1 (ata_outb 0x3f6 0 d)))))).

(** A controller that becomes ready, never reporting an error, within [patience]
    reads of its status; that gives the words of the sector a read was given
    for; and that stores the words written after a write. *)
Class AtaSpec := {
  content : D -> Z -> Z -> bytes;
  reading : D -> option (Z * Z);
  ata_ready d : exists r d', spin patience d = Some (r, d') /\ r .& (IDE_DF .| IDE_ERR) = 0 /\ content d' = content d /\ reading d' = reading d;
  ata_read a b c e d : 0 <= a < 256 -> 0 <= b < 256 -> 0 <= c < 256 -> 0 <= e < 256 ->
    content (command IDE_CMD_READ a b c e d) = content d /\ reading (command IDE_CMD_READ a b c e d) = Some (drive_of e, lba_of a b c e);
  ata_write a b c e l d : 0 <= a < 256 -> 0 <= b < 256 -> 0 <= c < 256 -> 0 <= e < 256 -> length l = Z.to_nat SECTOR_SIZE ->
    content (ata_outsl 0x1f0 l (command IDE_CMD_WRITE a b c e d)) = <[drive_of e := <[lba_of a b c e := l]> (content d (drive_of e))]> (content d);
  ata_data d dr n : reading d = Some (dr, n) ->
    (ata_insl 0x1f0 (Z.to_nat (SECTOR_SIZE / 4)) d).1 = content d dr n /\ content (ata_insl 0x1f0 (Z.to_nat (SECTOR_SIZE / 4)) d).2 = content d
}.
End driver.
Arguments content {_ _ _ _} _ _ _.
Arguments reading {_ _ _ _} _.
Arguments ata_ready {_ _ _ _} _.
Arguments ata_read {_ _ _ _} _ _ _ _ _ _ _ _ _.
Arguments ata_write {_ _ _ _} _ _ _ _ _ _ _ _ _ _ _.
Arguments ata_data {_ _ _ _} _ _ _ _.

End Ide.
