(* ===== verification/Bootmain.v ===== *)
(** * bootmain.c: the boot loader

    [bootmain] reads an ELF file from the disk into memory and returns the
    address it would jump to.  The disk is known through the ports of class
    [Ata] and a contract for reading one sector ([BootDisk]). *)

From S2P Require Import Prelude Memory Layout Cstring Spinlock Block Bio Ide.

Module Bootmain.

Definition SECTSIZE : Z := 512.
Definition ELF_MAGIC : Z := 0x464C457F.

(** elf.h: the fields of [struct elfhdr] at [p], and of [struct proghdr]. *)
Definition elf_magic (m : mem) (p : Z) : Z := rd32 m p.
Definition elf_entry (m : mem) (p : Z) : Z := rd32 m (p + 24).
Definition elf_phoff (m : mem) (p : Z) : Z := rd32 m (p + 28).
Definition elf_phnum (m : mem) (p : Z) : Z := rd8 m (p + 44) + 2 ^ 8 * rd8 m (p + 45).
Definition sizeof_proghdr : Z := 32.
Definition ph_off (m : mem) (p : Z) : Z := rd32 m (p + 4).
Definition ph_paddr (m : mem) (p : Z) : Z := rd32 m (p + 12).
Definition ph_filesz (m : mem) (p : Z) : Z := rd32 m (p + 16).
Definition ph_memsz (m : mem) (p : Z) : Z := rd32 m (p + 20).

Section boot.
Context {D : Type} `{!Ide.Ata D}.
(** The number of times the status register is read before it is ready. *)
Context (patience : nat).

Record boot := MkBoot { bmem : mem; bhw : D }.

Definition inb (port : Z) : M boot Z := s ← get; let '(r, d) := Ide.ata_inb port (bhw s) in _ ← put (MkBoot (bmem s) d); mret r.
Definition outb (port v : Z) : M boot unit := modify (fun s => MkBoot (bmem s) (Ide.ata_outb port (u8 v) (bhw s))).
Definition insl (port addr : Z) (cnt : nat) : M boot unit :=
  s ← get; let '(l, d) := Ide.ata_insl port cnt (bhw s) in put (MkBoot (store_bytes (bmem s) addr l) d).

Fixpoint waitdisk (n : nat) : M boot unit :=
  match n with
  | O => nofuel
  | S n => r ← inb 0x1F7; if negb ((r .& 0xC0) =? 0x40) then waitdisk n else mret tt
  end.

Definition readsect (dst offset : Z) : M boot unit :=
  waitdisk patience;;
  outb 0x1F2 1;;
  outb 0x1F3 offset;;
  outb 0x1F4 (Z.shiftr offset 8);;
  outb 0x1F5 (Z.shiftr offset 16);;
  outb 0x1F6 (Z.shiftr offset 24 .| 0xE0);;
  outb 0x1F7 0x20;;
  waitdisk patience;;
  insl 0x1F0 dst (Z.to_nat (SECTSIZE / 4)).

(** [for(; pa < epa; pa += SECTSIZE, offset++) readsect(pa, offset);] *)
Fixpoint readseg_loop (n : nat) (pa epa offset : Z) : M boot unit :=
  match n with
  | O => nofuel
  | S n =>
      if pa <? epa then readsect pa offset;; readseg_loop n (u32 (pa + SECTSIZE)) epa (u32 (offset + 1))
      else mret tt
  end.

Definition readseg (pa count offset : Z) : M boot unit :=
  let epa := u32 (pa + count) in
  let pa := u32 (pa - offset mod SECTSIZE) in
  let offset := offset / SECTSIZE + 1 in
  readseg_loop (Z.to_nat (count / SECTSIZE) + 3) pa epa offset.

(** The segment of the program header at [ph]. *)
Definition load_segment (ph : Z) : M boot unit :=
  m ← gets bmem;
  let pa := ph_paddr m ph in
  readseg pa (ph_filesz m ph) (ph_off m ph);;
  m ← gets bmem;
  if ph_filesz m ph <? ph_memsz m ph then
    modify (fun s => MkBoot (Mem.stosb (bmem s) (u32 (pa + ph_filesz m ph)) 0 (Z.to_nat (ph_memsz m ph - ph_filesz m ph))) (bhw s))
  else mret tt.

(** [for(; ph < eph; ph++)] *)
Fixpoint load_segments (n : nat) (ph eph : Z) : M boot unit :=
  match n with
  | O => nofuel
  | S n => if ph <? eph then load_segment ph;; load_segments n (u32 (ph + sizeof_proghdr)) eph else mret tt
  end.

(** The entry point, or [None] when the file is not an ELF file. *)
Definition bootmain : M boot (option Z) :=
  let elf := 0x10000 in
  readseg elf 4096 0;;
  m ← gets bmem;
  if negb (elf_magic m elf =? ELF_MAGIC) then mret None else
  let ph := u32 (elf + elf_phoff m elf) in
  let eph := u32 (ph + sizeof_proghdr * elf_phnum m elf) in
  load_segments (Z.to_nat (elf_phnum m elf) + 1) ph eph;;
  m ← gets bmem;
  mret (Some (elf_entry m elf)).

(** ** The contract of the disk *)

(** The writes of a command for one sector. *)
Definition command (a b c e : Z) (d : D) : D :=
  Ide.ata_outb 0x1F7 0x20 (Ide.ata_outb 0x1F6 e (Ide.ata_outb 0x1F5 c (Ide.ata_outb 0x1F4 b (Ide.ata_outb 0x1F3 a (Ide.ata_outb 0x1F2 1 d))))).

(** A disk that becomes ready within [patience] reads of its status and gives
    the words of the sector a read was given for. *)
Class BootDisk := {
  sector : D -> Z -> bytes;
  pending : D -> option Z;
  sector_len d n : length (sector d n) = Z.to_nat SECTSIZE;
  sector_wf d n : bytes_wf (sector d n);
  disk_ready d : exists r d', Ide.spin patience d = Some (r, d') /\ sector d' = sector d /\ pending d' = pending d;
  disk_read a b c e d : 0 <= a < 256 -> 0 <= b < 256 -> 0 <= c < 256 -> 0 <= e < 256 -> Ide.drive_of e = 0 ->
    sector (command a b c e d) = sector d /\ pending (command a b c e d) = Some (Ide.lba_of a b c e);
  disk_data d n : pending d = Some n ->
    (Ide.ata_insl 0x1F0 (Z.to_nat (SECTSIZE / 4)) d).1 = sector d n /\ sector (Ide.ata_insl 0x1F0 (Z.to_nat (SECTSIZE / 4)) d).2 = sector d
}.
End boot.
Arguments sector {_ _ _ _} _ _.
Arguments pending {_ _ _ _} _.
Arguments sector_len {_ _ _ _} _ _.
Arguments sector_wf {_ _ _ _} _ _.
Arguments disk_ready {_ _ _ _} _.
Arguments disk_read {_ _ _ _} _ _ _ _ _ _ _ _ _ _.
Arguments disk_data {_ _ _ _} _ _ _.

(** ** Lemmas *)

Section spec.
Context {D : Type} `{!Ide.Ata D} (patience : nat) `{!BootDisk patience}.
Implicit Types s : @boot D.

Lemma waitdisk_run m d : exists d', waitdisk patience (MkBoot m d) = Ok tt (MkBoot m d') /\ sector d' = sector d /\ pending d' = pending d.
Proof.
  destruct (disk_ready d) as (r & d' & Hs & Hc & Hp). exists d'. split; [|done]. clear Hc Hp. revert d Hs. generalize patience as n. induction n as [|n IH]; intros d Hs; [done|].
  cbn [waitdisk Ide.spin] in *. unfold inb, mbind, M_bind, get, put, mret, M_ret. cbn [bhw bmem]. destruct (Ide.ata_inb 0x1F7 d) as [r1 d1]. change (Ide.IDE_BSY .| Ide.IDE_DRDY) with 0xC0 in Hs.
  change Ide.IDE_DRDY with 0x40 in Hs. destruct (_ =? _); cbn [negb]; [by injection Hs as _ ->|]. by apply IH.
Qed.

(** The address registers select the sector. *)
Lemma lba_sector n : 0 <= n < 2 ^ 28 ->
  Ide.lba_of (u8 n) (u8 (Z.shiftr n 8)) (u8 (Z.shiftr n 16)) (u8 (Z.shiftr n 24 .| 0xE0)) = n /\ Ide.drive_of (u8 (Z.shiftr n 24 .| 0xE0)) = 0.
Proof.
  intros Hn. rewrite !Z.shiftr_div_pow2 by lia. set (h := n / 2 ^ 24). assert (0 <= h < 16) as Hh by (unfold h; split; [apply Z.div_pos|apply Z.div_lt_upper_bound]; lia).
  assert (u8 (h .| 0xE0) .& 15 = h /\ Ide.drive_of (u8 (h .| 0xE0)) = 0) as [E1 E2].
  { assert (h ∈ seqZ 0 16) as Hi by (apply elem_of_seqZ; lia). clearbody h. clear Hn Hh.
    assert (forallb (fun h => ((u8 (h .| 0xE0) .& 15) =? h) && (Ide.drive_of (u8 (h .| 0xE0)) =? 0)) (seqZ 0 16) = true) as Hall by (vm_compute; reflexivity).
    rewrite forallb_forall in Hall. specialize (Hall h (proj1 (list_elem_of_In _ _) Hi)). boolify. done. }
  split; [|done]. unfold Ide.lba_of. rewrite E1. unfold u8, h.
  rewrite <- (le_val_enc_small 4 n) at 5 by lia. cbn [le_enc le_val]. unfold u8. rewrite !Z.div_div by lia. change (2 ^ 8 * 2 ^ 8) with (2 ^ 16). change (2 ^ 16 * 2 ^ 8) with (2 ^ 24).
  rewrite (Z.mod_small (n / 2 ^ 24)) by (fold h; lia). lia.
Qed.

Lemma outb_run port x m d : outb port x (MkBoot m d) = Ok tt (MkBoot m (Ide.ata_outb port (u8 x) d)).
Proof. done. Qed.

Lemma readsect_run m d dst n : 0 <= n < 2 ^ 28 -> exists d', readsect patience dst n (MkBoot m d) = Ok tt (MkBoot (store_bytes m dst (sector d n)) d') /\ sector d' = sector d.
Proof.
  intros Hn. destruct (lba_sector n Hn) as [Hlba Hdr]. unfold readsect. destruct (waitdisk_run m d) as (d1 & R1 & C1 & _). rewrite (bind_ok_l _ _ _ _ _ R1).
  do 6 (rewrite (bind_ok_l _ _ _ _ _ (outb_run _ _ _ _))). change (u8 1) with 1. change (u8 0x20) with 0x20.
  destruct (disk_read (u8 n) (u8 (Z.shiftr n 8)) (u8 (Z.shiftr n 16)) (u8 (Z.shiftr n 24 .| 0xE0)) d1) as [C2 P2]; [by apply Z.mod_pos_bound..|done|].
  unfold command in C2, P2. set (d2 := Ide.ata_outb 0x1F7 0x20 _) in *. destruct (waitdisk_run m d2) as (d3 & R3 & C3 & P3). rewrite (bind_ok_l _ _ _ _ _ R3).
  rewrite P2, Hlba in P3. destruct (disk_data d3 n P3) as [E1 E2]. unfold insl, mbind, M_bind, get, put. cbn [bhw bmem].
  destruct (Ide.ata_insl 0x1F0 _ d3) as [l d4]. cbn [fst snd] in *. subst l. exists d4. rewrite E2, C3, C2, C1. done.
Qed.

(** Byte [o] of the file that starts at sector 1. *)
Definition kbyte (sec : Z -> bytes) (o : Z) : Z := nth (Z.to_nat (o mod SECTSIZE)) (sec (o / SECTSIZE + 1)) 0.

Lemma readseg_loop_run n pa epa off m d : 0 <= pa -> epa + 512 < 2 ^ 32 -> 0 <= off -> off + Z.of_nat n < 2 ^ 28 -> epa <= pa + 512 * (Z.of_nat n - 1) -> (0 < n)%nat ->
  exists m' d', readseg_loop patience n pa epa off (MkBoot m d) = Ok tt (MkBoot m' d') /\ sector d' = sector d /\
    forall x, rd8 m' x = if decide (pa <= x < pa + 512 * ((epa - pa + 511) / 512)) then nth (Z.to_nat ((x - pa) mod 512)) (sector d (off + (x - pa) / 512)) 0 else rd8 m x.
Proof.
  revert pa off m d. induction n as [|n IH]; intros pa off m d Hpa He Hoff Hn Hlen Hpos; [lia|]. cbn [readseg_loop]. destruct (Z.ltb_spec pa epa) as [Hlt|Hge].
  - destruct (readsect_run m d pa off ltac:(lia)) as (d1 & R1 & C1). rewrite (bind_ok_l _ _ _ _ _ R1). change SECTSIZE with 512. rewrite !u32_small by lia.
    destruct (IH (pa + 512) (off + 1) (store_bytes m pa (sector d off)) d1) as (m' & d' & R & C & Hx); [lia..|]. exists m', d'. split; [done|]. split; [by rewrite C|].
    intros x. rewrite Hx, C1. replace (epa - (pa + 512) + 511) with (epa - pa + 511 + (-1) * 512) by lia. rewrite Z.div_add by lia.
    set (b := (epa - pa + 511) / 512). assert (1 <= b) as Hb by (apply Z.div_le_lower_bound; lia).
    replace (x - (pa + 512)) with (x - pa + (-1) * 512) by lia. rewrite Z.mod_add, Z.div_add by lia.
    replace (off + 1 + ((x - pa) / 512 + -1)) with (off + (x - pa) / 512) by lia.
    rewrite rd8_store_bytes by apply sector_wf. rewrite sector_len. change (Z.of_nat (Z.to_nat SECTSIZE)) with 512.
    destruct (decide (pa + 512 <= x < _)); [by rewrite decide_True by lia|]. destruct (decide (pa <= x < pa + 512)).
    + rewrite decide_True by lia. by rewrite Z.mod_small, Z.div_small, Z.add_0_r by lia.
    + by rewrite decide_False by lia.
  - exists m, d. split; [done|]. split; [done|]. intros x. rewrite decide_False; [done|]. assert ((epa - pa + 511) / 512 < 1) by (apply Z.div_lt_upper_bound; lia). lia.
Qed.

(** The bytes [readseg] writes: from a sector boundary before [pa] to one after the end. *)
Definition seg_lo (pa offset : Z) : Z := pa - offset mod 512.
Definition seg_hi (pa count offset : Z) : Z := seg_lo pa offset + 512 * ((count + offset mod 512 + 511) / 512).

Lemma readseg_run pa count offset m d : 0 <= seg_lo pa offset -> 0 <= count -> pa + count + 512 < 2 ^ 32 -> 0 <= offset < 2 ^ 32 ->
  exists m' d', readseg patience pa count offset (MkBoot m d) = Ok tt (MkBoot m' d') /\ sector d' = sector d /\
    forall x, rd8 m' x = if decide (seg_lo pa offset <= x < seg_hi pa count offset) then kbyte (sector d) (offset + (x - pa)) else rd8 m x.
Proof.
  intros Hlo Hc Hhi Ho. unfold readseg. change SECTSIZE with 512. pose proof (Z.mod_pos_bound offset 512 ltac:(lia)) as Hm. pose proof (Z.div_mod offset 512 ltac:(lia)) as Hd.
  unfold seg_lo in *. rewrite !u32_small by lia. set (lo := pa - offset mod 512) in *.
  pose proof (Z.div_mod count 512 ltac:(lia)) as Hdc. pose proof (Z.mod_pos_bound count 512 ltac:(lia)) as Hmc. assert (0 <= count / 512) by (apply Z.div_pos; lia). assert (0 <= offset / 512) by (apply Z.div_pos; lia).
  destruct (readseg_loop_run (Z.to_nat (count / 512) + 3) lo (pa + count) (offset / 512 + 1) m d) as (m' & d' & R & C & Hx); [lia..|].
  exists m', d'. split; [done|]. split; [done|]. intros x. rewrite Hx. unfold seg_hi, seg_lo. fold lo. replace (pa + count - lo + 511) with (count + offset mod 512 + 511) by lia.
  case_decide as E; [|done]. unfold kbyte. change SECTSIZE with 512. replace (offset + (x - pa)) with (x - lo + (offset / 512) * 512) by lia.
  rewrite Z.mod_add, Z.div_add by lia. do 2 f_equal. lia.
Qed.

(** ** The theorem *)

(** A program header: offset in the file, physical address and sizes. *)
Record segment := MkSegment { sg_off : Z; sg_paddr : Z; sg_filesz : Z; sg_memsz : Z }.

(** A 32-bit word of the file. *)
Definition kword (sec : Z -> bytes) (o : Z) : Z := kbyte sec o + 2 ^ 8 * kbyte sec (o + 1) + 2 ^ 16 * kbyte sec (o + 2) + 2 ^ 24 * kbyte sec (o + 3).
Definition segment_at (sec : Z -> bytes) (o : Z) : segment := MkSegment (kword sec (o + 4)) (kword sec (o + 12)) (kword sec (o + 16)) (kword sec (o + 20)).
Fixpoint segments (sec : Z -> bytes) (o : Z) (n : nat) : list segment :=
  match n with
  | O => []
  | S n => segment_at sec o :: segments sec (o + sizeof_proghdr) n
  end.

(** All addresses that loading the segment may write. *)
Definition foot_lo (g : segment) : Z := seg_lo (sg_paddr g) (sg_off g).
Definition foot_hi (g : segment) : Z := Z.max (seg_hi (sg_paddr g) (sg_filesz g) (sg_off g)) (sg_paddr g + sg_memsz g).

(** The segment fits below 4 GB and away from the scratch page of the headers. *)
Definition placed (g : segment) : Prop :=
  0 <= foot_lo g /\ sg_paddr g + sg_filesz g + 512 < 2 ^ 32 /\ sg_paddr g + sg_memsz g < 2 ^ 32 /\ (foot_hi g <= 0x10000 \/ 0x11000 <= foot_lo g).

(** A later segment does not overwrite an earlier one. *)
Definition apart (g h : segment) : Prop := foot_hi h <= sg_paddr g \/ sg_paddr g + Z.max (sg_filesz g) (sg_memsz g) <= foot_lo h.

Definition in_memory (sec : Z -> bytes) (m : mem) (g : segment) : Prop :=
  (forall j, 0 <= j < sg_filesz g -> rd8 m (sg_paddr g + j) = kbyte sec (sg_off g + j)) /\
  (forall j, sg_filesz g <= j < sg_memsz g -> rd8 m (sg_paddr g + j) = 0).

Lemma kbyte_range d o : 0 <= kbyte (sector d) o < 256.
Proof.
  unfold kbyte. rewrite nth_lookup. destruct (sector d _ !! _) as [y|] eqn:E; [|done]. exact (Forall_lookup_1 _ _ _ _ (sector_wf d _) E).
Qed.

Lemma kword_range d o : 0 <= kword (sector d) o < 2 ^ 32.
Proof. unfold kword. pose proof (kbyte_range d o). pose proof (kbyte_range d (o + 1)). pose proof (kbyte_range d (o + 2)). pose proof (kbyte_range d (o + 3)). lia. Qed.

(** The scratch page holds the first page of the file. *)
Definition headers (sec : Z -> bytes) (m : mem) : Prop := forall o, 0 <= o < 4096 -> rd8 m (0x10000 + o) = kbyte sec o.

Lemma headers_word d m o : headers (sector d) m -> 0 <= o -> o + 4 <= 4096 -> rd32 m (0x10000 + o) = kword (sector d) o.
Proof. intros Hh H1 H2. unfold rd32, kword. rewrite <- !Z.add_assoc. rewrite !Hh by lia. done. Qed.

Lemma headers_segment d m o : headers (sector d) m -> 0 <= o -> o + 32 <= 4096 -> let p := 0x10000 + o in let g := segment_at (sector d) o in
  ph_off m p = sg_off g /\ ph_paddr m p = sg_paddr g /\ ph_filesz m p = sg_filesz g /\ ph_memsz m p = sg_memsz g.
Proof. intros Hh H1 H2 p g. unfold ph_off, ph_paddr, ph_filesz, ph_memsz, p. rewrite <- !Z.add_assoc. rewrite !(headers_word d m) by (done || lia). done. Qed.

(** What loading one segment does to the memory. *)
Definition loaded (sec : Z -> bytes) (g : segment) (m m' : mem) : Prop :=
  in_memory sec m' g /\ forall x, x < foot_lo g \/ foot_hi g <= x -> rd8 m' x = rd8 m x.

Lemma loaded_headers d g m m' : placed g -> loaded (sector d) g m m' -> headers (sector d) m -> headers (sector d) m'.
Proof. intros (_ & _ & _ & Hp) [_ Hx] Hh o Ho. rewrite Hx by lia. by apply Hh. Qed.

Lemma load_one d m o : headers (sector d) m -> 0 <= o -> o + 32 <= 4096 -> let p := 0x10000 + o in let g := segment_at (sector d) o in placed g ->
  exists m' d', load_segment patience p (MkBoot m d) = Ok tt (MkBoot m' d') /\ sector d' = sector d /\ loaded (sector d) g m m'.
Proof.
  intros Hh H1 H2 p g Hp. destruct (headers_segment d m o Hh H1 H2) as (Eo & Ep & Ef & Em). fold p g in Eo, Ep, Ef, Em. unfold load_segment.
  assert (0 <= sg_off g < 2 ^ 32 /\ 0 <= sg_paddr g < 2 ^ 32 /\ 0 <= sg_filesz g < 2 ^ 32 /\ 0 <= sg_memsz g < 2 ^ 32) as (Ro & Rp & Rf & Rm) by (split_and!; apply kword_range).
  rewrite (bind_ok_l _ _ _ _ _ (eq_refl : gets bmem (MkBoot m d) = Ok m (MkBoot m d))). rewrite Ep, Ef, Eo. pose proof Hp as (P1 & P2 & P3 & P4).
  destruct (readseg_run (sg_paddr g) (sg_filesz g) (sg_off g) m d) as (m1 & d1 & R1 & C1 & X1); [exact P1|lia|lia|lia|]. rewrite (bind_ok_l _ _ _ _ _ R1).
  rewrite (bind_ok_l _ _ _ _ _ (eq_refl : gets bmem (MkBoot m1 d1) = Ok m1 (MkBoot m1 d1))).
  assert (headers (sector d) m1) as Hm1. { intros x Hx. rewrite X1. fold (foot_lo g). unfold foot_hi in P4. rewrite decide_False by lia. by apply Hh. }
  destruct (headers_segment d m1 o Hm1 H1 H2) as (_ & _ & Ef1 & Em1). fold p g in Ef1, Em1. rewrite Ef1, Em1.
  set (lo := seg_lo (sg_paddr g) (sg_off g)) in *. set (hi := seg_hi (sg_paddr g) (sg_filesz g) (sg_off g)) in *.
  assert (lo <= sg_paddr g /\ sg_paddr g + sg_filesz g <= hi) as [Hlo Hhi].
  { unfold lo, hi, seg_hi, seg_lo. pose proof (Z.mod_pos_bound (sg_off g) 512 ltac:(lia)). set (z := sg_filesz g + sg_off g mod 512 + 511).
    pose proof (Z.div_mod z 512 ltac:(lia)). pose proof (Z.mod_pos_bound z 512 ltac:(lia)). lia. }
  assert (forall j, 0 <= j < sg_filesz g -> rd8 m1 (sg_paddr g + j) = kbyte (sector d) (sg_off g + j)) as Hfile.
  { intros j Hj. rewrite X1, decide_True by lia. f_equal. lia. }
  destruct (Z.ltb_spec (sg_filesz g) (sg_memsz g)) as [Hlt|Hge].
  - rewrite u32_small by lia. eexists _, d1. split; [reflexivity|]. split; [done|]. cbn [bmem].
    assert (forall x, rd8 (Mem.stosb m1 (sg_paddr g + sg_filesz g) 0 (Z.to_nat (sg_memsz g - sg_filesz g))) x =
      if decide (sg_paddr g + sg_filesz g <= x < sg_paddr g + sg_memsz g) then 0 else rd8 m1 x) as X2.
    { intros x. rewrite Mem.stosb_spec by lia. rewrite Z2Nat.id by lia. replace (sg_paddr g + sg_filesz g + (sg_memsz g - sg_filesz g)) with (sg_paddr g + sg_memsz g) by lia. done. }
    split; [split|].
    + intros j Hj. rewrite X2, decide_False by lia. by apply Hfile.
    + intros j Hj. by rewrite X2, decide_True by lia.
    + intros x. unfold foot_lo, foot_hi. fold lo hi. intros Hx. rewrite X2, decide_False, X1, decide_False by lia. done.
  - exists m1, d1. split; [done|]. split; [done|]. split; [split; [done|intros; lia]|]. intros x. unfold foot_lo, foot_hi. fold lo hi. intros Hx. by rewrite X1, decide_False by lia.
Qed.

Lemma loaded_apart sec sec' g h m m' : loaded sec' h m m' -> apart g h -> 0 <= sg_filesz g -> in_memory sec m g -> in_memory sec m' g.
Proof. intros [_ Hx] Ha Hf [H1 H2]. unfold apart in Ha. split; intros j Hj; rewrite Hx by lia; auto. Qed.

Lemma segment_size d o : 0 <= sg_filesz (segment_at (sector d) o).
Proof. apply (kword_range d (o + 16)). Qed.

Lemma load_segments_run k n o m d : headers (sector d) m -> 0 <= o -> o + 32 * Z.of_nat k <= 4096 -> (k < n)%nat ->
  let segs := segments (sector d) o k in Forall placed segs -> ForallOrdPairs apart segs ->
  exists m' d', load_segments patience n (0x10000 + o) (0x10000 + o + 32 * Z.of_nat k) (MkBoot m d) = Ok tt (MkBoot m' d') /\
    headers (sector d) m' /\ Forall (in_memory (sector d) m') segs /\
    (forall g, 0 <= sg_filesz g -> Forall (apart g) segs -> in_memory (sector d) m g -> in_memory (sector d) m' g).
Proof.
  revert n o m d. induction k as [|k IH]; intros n o m d Hh Ho Hk Hn segs Hp Ha; destruct n as [|n]; try lia; cbn [load_segments].
  - rewrite (proj2 (Z.ltb_ge _ _)) by lia. exists m, d. split; [done|]. split; [done|]. split; [constructor|]. done.
  - rewrite (proj2 (Z.ltb_lt _ _)) by lia. cbn [segments] in segs. set (g := segment_at (sector d) o) in *. set (rest := segments (sector d) (o + sizeof_proghdr) k) in *.
    inversion Hp as [|? ? Hg Hp']; subst. inversion Ha as [|? ? Hg' Ha']; subst.
    destruct (load_one d m o Hh Ho ltac:(lia) Hg) as (m1 & d1 & R1 & C1 & L1). fold g in L1. pose proof (loaded_headers _ _ _ _ Hg L1 Hh) as Hh1.
    unfold rest in *. rewrite <- C1 in Hh1, Hp', Ha', Hg'. change sizeof_proghdr with 32 in *.
    destruct (IH n (o + 32) m1 d1 Hh1 ltac:(lia) ltac:(lia) ltac:(lia) Hp' Ha') as (m' & d' & R & Hh' & Hin & Hkeep). rewrite C1 in *.
    exists m', d'. split; [|split; [done|split]].
    + rewrite (bind_ok_l _ _ _ _ _ R1). change sizeof_proghdr with 32. rewrite u32_small by lia.
      replace (0x10000 + o + 32) with (0x10000 + (o + 32)) by lia. replace (0x10000 + o + 32 * Z.of_nat (S k)) with (0x10000 + (o + 32) + 32 * Z.of_nat k) by lia. done.
    + constructor; [|done]. apply Hkeep; [apply segment_size|done|apply L1].
    + intros g0 Hf Hg0 Hin0. inversion Hg0; subst. apply Hkeep; [done|done|]. by eapply loaded_apart.
Qed.

(** C40: the boot loader loads the kernel.  From any disk with the contract
    whose sectors from number 1 on hold a file: if the file is not an ELF file,
    [bootmain] returns; if it is one whose headers are within the first page,
    whose segments do not wrap around and stay clear of the page the headers are
    read to, and whose later segments (rounded out to whole sectors, as they are
    read) do not reach into earlier ones, then it ends with every segment in
    memory, the part beyond the file size cleared, and jumps to the entry point.
    *)
Theorem bootmain_correct (s : @boot D) : let sec := sector (bhw s) in
  let phoff := kword sec 28 in let phnum := kbyte sec 44 + 2 ^ 8 * kbyte sec 45 in let segs := segments sec phoff (Z.to_nat phnum) in
  (kword sec 0 <> ELF_MAGIC -> exists s', bootmain patience s = Ok None s') /\
  (kword sec 0 = ELF_MAGIC -> phoff + sizeof_proghdr * phnum <= 4096 -> Forall placed segs -> ForallOrdPairs apart segs ->
     exists s', bootmain patience s = Ok (Some (kword sec 24)) s' /\ Forall (in_memory sec (bmem s')) segs).
Proof.
  destruct s as [m d]. intros sec phoff phnum segs. subst sec. cbn [bhw] in phoff, phnum, segs |- *. unfold bootmain.
  destruct (readseg_run 0x10000 4096 0 m d) as (m1 & d1 & R1 & C1 & X1); [done|lia|lia|lia|]. rewrite (bind_ok_l _ _ _ _ _ R1).
  assert (headers (sector d) m1) as Hh. { intros o Ho. change (seg_lo 0x10000 0) with 0x10000 in X1. change (seg_hi 0x10000 4096 0) with 0x11000 in X1. rewrite X1, decide_True by lia. f_equal. lia. }
  rewrite (bind_ok_l _ _ _ _ _ (eq_refl : gets bmem (MkBoot m1 d1) = Ok m1 (MkBoot m1 d1))). unfold elf_magic.
  assert (rd32 m1 0x10000 = kword (sector d) 0) as -> by exact (headers_word d m1 0 Hh ltac:(lia) ltac:(lia)). split.
  - intros Hne. rewrite (proj2 (Z.eqb_neq _ _) Hne). cbn [negb]. by eexists.
  - intros -> Hph Hp Ha. cbn [negb]. change (negb (ELF_MAGIC =? ELF_MAGIC)) with false. cbv iota zeta.
    assert (0 <= phoff) as Hoff by apply (kword_range d 28). assert (0 <= phnum) as Hnum by (unfold phnum; pose proof (kbyte_range d 44); pose proof (kbyte_range d 45); lia).
    assert (elf_phoff m1 0x10000 = phoff) as -> by exact (headers_word d m1 28 Hh ltac:(lia) ltac:(lia)).
    assert (elf_phnum m1 0x10000 = phnum) as -> by (unfold elf_phnum; rewrite (Hh 44), (Hh 45) by lia; done).
    change sizeof_proghdr with 32 in *. rewrite !u32_small by (rewrite ?u32_small; lia).
    unfold segs in *. rewrite <- C1 in Hh, Hp, Ha |- *.
    destruct (load_segments_run (Z.to_nat phnum) (Z.to_nat phnum + 1) phoff m1 d1 Hh Hoff ltac:(lia) ltac:(lia) Hp Ha) as (m' & d' & R & Hh' & Hin & _).
    rewrite Z2Nat.id in R by lia. rewrite (bind_ok_l _ _ _ _ _ R). rewrite (bind_ok_l _ _ _ _ _ (eq_refl : gets bmem (MkBoot m' d') = Ok m' (MkBoot m' d'))).
    exists (MkBoot m' d'). split; [|exact Hin]. unfold elf_entry. rewrite (headers_word d1 m' 24) by (done || lia). done.
Qed.
End spec.
End Bootmain.

(** A disk with a file from sector 1 on, and an ELF file with two segments. *)
Module BootEx.
Import Bootmain.
Record disk := MkDisk { regs : Z -> Z; file : bytes }.

Definition sector_of (d : disk) (n : Z) : bytes := u8 <$> take 512 (drop (Z.to_nat ((n - 1) * 512)) (file d) ++ replicate 512 0).

#[global] Instance disk_ports : Ide.Ata disk := {
  Ide.ata_inb _ d := (0x40, d);
  Ide.ata_outb port v d := MkDisk (<[port := v]> (regs d)) (file d);
  Ide.ata_insl _ _ d := (sector_of d (Ide.lba_of (regs d 0x1F3) (regs d 0x1F4) (regs d 0x1F5) (regs d 0x1F6)), d);
  Ide.ata_outsl _ _ d := d
}.

#[global] Instance disk_contract : BootDisk (D := disk) 1.
Proof.
  refine {| sector := sector_of; pending := fun d => Some (Ide.lba_of (regs d 0x1F3) (regs d 0x1F4) (regs d 0x1F5) (regs d 0x1F6)) |}.
  - intros d n. unfold sector_of. rewrite length_fmap, length_take, length_app, length_replicate. change (Z.to_nat SECTSIZE) with 512%nat. lia.
  - intros d n. unfold sector_of, bytes_wf. apply Forall_fmap, Forall_forall. intros x _. unfold compose, u8. apply Z.mod_pos_bound. lia.
  - intros d. by exists 0x40, d.
  - intros a b c e d _ _ _ _ _. split; reflexivity.
  - intros d n HE. assert (Ide.lba_of (regs d 0x1F3) (regs d 0x1F4) (regs d 0x1F5) (regs d 0x1F6) = n) as E by congruence. cbn [Ide.ata_insl disk_ports]. by rewrite E.
Defined.

(** Eight bytes at 0x100000, then a segment of two bytes and two zeros at 0x100400. *)
Definition elf : bytes :=
  le_enc 4 ELF_MAGIC ++ replicate 20 0 ++ le_enc 4 0x10000c ++ le_enc 4 52 ++ replicate 12 0 ++ [2; 0] ++ replicate 6 0 ++
  mjoin (le_enc 4 <$> [1; 512; 0; 0x100000; 8; 8; 0; 0]) ++ mjoin (le_enc 4 <$> [1; 1024; 0; 0x100400; 2; 4; 0; 0]) ++
  replicate 396 0 ++ [1; 2; 3; 4; 5; 6; 7; 8] ++ replicate 504 0 ++ [9; 10].

Definition start : boot := MkBoot ∅ (MkDisk (fun _ => 0) elf).
Definition segs : list segment := [MkSegment 512 0x100000 8 8; MkSegment 1024 0x100400 2 4].
End BootEx.

Lemma bootmain_correct_witness : exists s', Bootmain.bootmain 1 BootEx.start = Ok (Some 0x10000c) s' /\
  Forall (Bootmain.in_memory (Bootmain.sector (Bootmain.bhw BootEx.start)) (Bootmain.bmem s')) BootEx.segs.
Proof.
  pose proof (proj2 (Bootmain.bootmain_correct 1 BootEx.start)) as H. cbv zeta in H. set (sec := Bootmain.sector (Bootmain.bhw BootEx.start)) in *.
  assert (Bootmain.segments sec (Bootmain.kword sec 28) (Z.to_nat (Bootmain.kbyte sec 44 + 2 ^ 8 * Bootmain.kbyte sec 45)) = BootEx.segs) as E by (vm_compute; reflexivity).
  rewrite E in H. assert (Bootmain.kword sec 24 = 0x10000c) as E24 by (vm_compute; reflexivity). rewrite E24 in H. apply H.
  - vm_compute. reflexivity.
  - vm_compute. intros H1. discriminate H1.
  - unfold Bootmain.placed. constructor; [|constructor; [|constructor]]; (split; [vm_compute; intros H1; discriminate H1|split; [vm_compute; reflexivity|split; [vm_compute; reflexivity|right; vm_compute; intros H1; discriminate H1]]]).
  - constructor; [constructor; [|constructor]|repeat constructor]. right. vm_compute. intros H1. discriminate H1.
Defined.
