(* ===== verification/IdeSpec.v ===== *)
(** * The disk driver serves its requests in order

    The queue of ide.c as a list, each request served at its interrupt: the
    driver does to a buffer and to the disk what a synchronous driver such as
    memide.c does, first come first served, and wakes each request when it is
    done.  The controller is one that reports no errors; what the driver makes
    of a failed read is a lemma of its own. *)

From S2P Require Import Prelude Memory Layout Cstring Spinlock Block Bio Ide.
Import Ide.

Section spec.
Context {D : Type} `{!Ata D} (patience : nat) `{!AtaSpec patience}.
Local Abbreviation ide := (@ide D).

(** ** The abstract driver *)

(** What a buffer asks for: a block of a drive, the sector of which is its
    block number. *)
Definition drive (b : buf) : Z := dev b .& 1.
Definition dirty (b : buf) : bool := truthy (flags b .& B_DIRTY).

(** The queue, the buffers, the disks, and the buffers whose waiting process
    has been woken, in the order of the wakeups. *)
Record driver := MkDrv { q : list nat; dbufs : nat -> buf; disks : Z -> Z -> bytes; awoken : list nat }.

(** [iderw] enters a request. *)
Definition enter (i : nat) (a : driver) : driver := MkDrv (q a ++ [i]) (dbufs a) (disks a) (awoken a).

(** A buffer synchronised with the disks, as memide.c does it. *)
Definition synced (b : buf) (dk : Z -> Z -> bytes) : buf :=
  MkBuf ((flags b .| B_VALID) .& Z.lnot B_DIRTY) (dev b) (blockno b) (qnext b) (if dirty b then data b else dk (drive b) (blockno b)).
Definition written (b : buf) (dk : Z -> Z -> bytes) : Z -> Z -> bytes :=
  if dirty b then <[drive b := <[blockno b := data b]> (dk (drive b))]> dk else dk.

(** The interrupt serves the first request and wakes the process that waits
    for it. *)
Definition serve (a : driver) : driver :=
  match q a with
  | [] => a
  | i :: q' => MkDrv q' (<[i := synced (dbufs a i) (disks a)]> (dbufs a)) (written (dbufs a i) (disks a)) (awoken a ++ [i])
  end.

(** A request the driver can take. *)
Definition request (hd : bool) (b : buf) : Prop :=
  truthy (flags b .& B_BUSY) = true /\ (flags b .& (B_VALID .| B_DIRTY)) <> B_VALID /\ (dev b = 0 \/ hd = true) /\
  0 <= blockno b < FSSIZE /\ length (data b) = Z.to_nat BSIZE.

(** ** The relation *)

(** Equal buffers, but for the link. *)
Definition same (b b' : buf) : Prop := flags b = flags b' /\ dev b = dev b' /\ blockno b = blockno b' /\ data b = data b'.

(** The controller works on the first request. *)
Definition working (a : driver) (d : D) : Prop :=
  match q a with
  | [] => content d = disks a
  | i :: _ => let b := dbufs a i in
      content d = written b (disks a) /\ (dirty b = false -> reading d = Some (drive b, blockno b))
  end.

Record related (s : ide) (a : driver) : Prop := {
  r_lock : idelock s = false;
  r_head : idequeue s = head (q a);
  r_link k i : q a !! k = Some i -> qnext (bufs s i) = q a !! S k;
  r_nodup : NoDup (q a);
  r_small i : i ∈ q a -> (i < NBUF)%nat;
  r_req i : i ∈ q a -> request (havedisk1 s) (dbufs a i);
  r_bufs i : same (bufs s i) (dbufs a i);
  r_hw : working a (hw s);
  r_woken : woken s = map ChBuf (awoken a)
}.

(** ** Runs of the code *)

Lemma poll_run n s r d : spin n (hw s) = Some (r, d) -> poll n s = Ok r (set_hw d s).
Proof.
  revert s. induction n as [|n IH]; intros s; [done|]. cbn [spin poll]. destruct (ata_inb 0x1f7 (hw s)) as [r0 d0] eqn:E.
  assert (inb 0x1f7 s = Ok r0 (set_hw d0 s)) as Hin by (unfold inb, mbind, M_bind, get; cbv beta iota; by rewrite E).
  rewrite (bind_ok_l _ _ _ _ _ Hin). destruct (_ =? IDE_DRDY); cbn [negb]; [by intros [= -> ->]|]. intros Hsp. by rewrite IH.
Qed.

(** [idewait] always finds the controller ready and without errors. *)
Lemma idewait_run c s : exists d, idewait patience c s = Ok 0 (set_hw d s) /\ content d = content (hw s) /\ reading d = reading (hw s).
Proof.
  destruct (ata_ready (hw s)) as (r & d & Hsp & He & Hc & Hr). exists d. split; [|done].
  unfold idewait. rewrite (bind_ok_l _ _ _ _ _ (poll_run _ _ _ _ Hsp)), He. by destruct c.
Qed.

(** The bytes [idestart] writes into the address registers. *)
Definition address (b : buf) (cmd : Z) (d : D) : D :=
  let n := blockno b in
  command cmd (u8 (n .& 255)) (u8 (Z.shiftr n 8 .& 255)) (u8 (Z.shiftr n 16 .& 255)) (u8 (0xe0 .| Z.shiftl (dev b .& 1) 4 .| (Z.shiftr n 24 .& 15))) d.

Lemma address_bytes b : 0 <= blockno b < FSSIZE ->
  let n := blockno b in let e := u8 (0xe0 .| Z.shiftl (dev b .& 1) 4 .| (Z.shiftr n 24 .& 15)) in
  drive_of e = drive b /\ lba_of (u8 (n .& 255)) (u8 (Z.shiftr n 8 .& 255)) (u8 (Z.shiftr n 16 .& 255)) e = n.
Proof.
  intros Hn n e. assert (n < 1024) as Hn' by (unfold n, FSSIZE in *; lia).
  assert (Z.shiftr n 24 = 0) as E24 by (rewrite Z.shiftr_div_pow2 by lia; apply Z.div_small; unfold n in *; lia).
  assert (Z.shiftr n 16 = 0) as E16 by (rewrite Z.shiftr_div_pow2 by lia; apply Z.div_small; unfold n in *; lia).
  assert (dev b .& 1 = 0 \/ dev b .& 1 = 1) as Hd.
  { assert (dev b .& 1 = dev b mod 2) as -> by exact (Z.land_ones (dev b) 1 ltac:(lia)). pose proof (Z.mod_pos_bound (dev b) 2). lia. }
  unfold e, drive, lba_of. rewrite E24, E16. split; [by destruct Hd as [-> | ->]|].
  assert (u8 (0xe0 .| Z.shiftl (dev b .& 1) 4 .| (0 .& 15)) .& 15 = 0) as -> by by destruct Hd as [-> | ->].
  change 255 with (Z.ones 8). rewrite !Z.land_ones, Z.shiftr_div_pow2 by lia. unfold u8. rewrite !Z.mod_mod by lia.
  rewrite Z.mod_0_l by lia. pose proof (Z.div_mod n (2 ^ 8)). rewrite (Z.mod_small (n / 2 ^ 8)); [lia|]. split; [apply Z.div_pos; unfold n in *; lia|].
  apply Z.div_lt_upper_bound; lia.
Qed.

Lemma u8_byte x : 0 <= u8 x < 256.
Proof. apply u8_range. Qed.

(** [idestart] gives the controller the request of the buffer. *)
Lemma idestart_run i s : let b := bufs s i in 0 <= blockno b < FSSIZE -> length (data b) = Z.to_nat BSIZE ->
  exists d, idestart patience (Some i) s = Ok tt (set_hw d s) /\ content d = written b (content (hw s)) /\
    (dirty b = false -> reading d = Some (drive b, blockno b)).
Proof.
  intros b Hn Hl. destruct (idewait_run false s) as (d0 & Hw & Hc & _). destruct (address_bytes b Hn) as [Hd Hlba].
  unfold idestart. rewrite (bind_ok_l _ _ _ _ _ (eq_refl : bufat i s = Ok b s)).
  rewrite (proj2 (Z.leb_gt _ _)) by lia. change (7 <? sector_per_block) with false. cbv iota. rewrite (bind_ok_l _ _ _ _ _ Hw).
  assert (s32 (blockno b * sector_per_block) = blockno b) as ->.
  { change sector_per_block with 1. rewrite Z.mul_1_r. apply s32_small. unfold FSSIZE in Hn. lia. }
  unfold written, dirty. destruct (truthy (flags b .& B_DIRTY)) eqn:Ed.
  - exists (ata_outsl 0x1f0 (data b) (address b IDE_CMD_WRITE d0)). split; [reflexivity|]. split; [|done].
    unfold address. rewrite ata_write by (done || apply u8_byte). by rewrite Hd, Hlba, Hc.
  - exists (address b IDE_CMD_READ d0). split; [reflexivity|]. unfold address.
    match goal with |- context [command IDE_CMD_READ ?a ?b ?c ?e ?d] => destruct (ata_read a b c e d) as [-> ->]; [apply u8_byte..|] end.
    rewrite Hc, Hd, Hlba. done.
Qed.

(** ** The queue *)

Definition linked (f : nat -> buf) (l : list nat) : Prop := forall k i, l !! k = Some i -> qnext (f i) = l !! S k.

Lemma queue_end_run n k i l (s : ide) e : linked (bufs s) (l ++ [e]) -> (l ++ [e]) !! k = Some i -> (length l - k < n)%nat -> queue_end n i s = Ok e s.
Proof.
  intros Hl. revert k i. induction n as [|n IH]; intros k i Hk Hn; [lia|]. cbn [queue_end].
  rewrite (bind_ok_l _ _ _ _ _ (eq_refl : bufat i s = Ok (bufs s i) s)), (Hl k i Hk).
  pose proof (lookup_lt_Some _ _ _ Hk) as Hlt. rewrite length_app in Hlt. cbn in Hlt.
  destruct (decide (k = length l)) as [->|Hne].
  - rewrite lookup_app_r, Nat.sub_diag in Hk by lia. injection Hk as <-. rewrite lookup_ge_None_2; [done|]. rewrite length_app. cbn. lia.
  - destruct (lookup_lt_is_Some_2 (l ++ [e]) (S k)) as [j Hj]; [rewrite length_app; cbn; lia|]. rewrite Hj. apply (IH (S k)); [done|lia].
Qed.

Lemma linked_snoc f l e i : linked f (l ++ [e]) -> NoDup (l ++ [e]) -> i ∉ l ++ [e] -> qnext (f i) = None ->
  linked (<[e := set_qnext (Some i) (f e)]> f) ((l ++ [e]) ++ [i]).
Proof.
  intros Hl Hnd Hi Hn k j Hk. apply NoDup_app in Hnd as (_ & Hel & _). rewrite not_elem_of_app in Hi. destruct Hi as [_ Hie].
  apply not_elem_of_cons in Hie as [Hie _]. destruct (lt_eq_lt_dec k (length l)) as [[Hlt| ->]|Hgt].
  - rewrite !lookup_app_l in Hk by (rewrite ?length_app; lia).
    assert (j <> e) as Hje by (intros ->; apply (Hel e); [by eapply list_elem_of_lookup_2|apply list_elem_of_here]).
    rewrite fn_lookup_insert_ne by done. rewrite (Hl k j) by by rewrite lookup_app_l. by rewrite (lookup_app_l (l ++ [e])) by (rewrite length_app; cbn; lia).
  - rewrite lookup_app_l, lookup_app_r, Nat.sub_diag in Hk by (rewrite ?length_app; cbn; lia). injection Hk as <-. rewrite fn_lookup_insert. cbn.
    rewrite lookup_app_r by (rewrite length_app; cbn; lia). rewrite length_app. cbn. by replace (S (length l) - (length l + 1))%nat with 0%nat by lia.
  - pose proof (lookup_lt_Some _ _ _ Hk) as Hlt. rewrite !length_app in Hlt. cbn in Hlt. assert (k = S (length l)) as -> by lia.
    rewrite lookup_app_r in Hk by (rewrite length_app; cbn; lia). rewrite length_app in Hk. cbn in Hk.
    replace (S (length l) - (length l + 1))%nat with 0%nat in Hk by lia. injection Hk as <-. rewrite fn_lookup_insert_ne by done. rewrite Hn.
    symmetry. apply lookup_ge_None_2. rewrite !length_app. cbn. lia.
Qed.

Lemma append_run l i (s : ide) : linked (bufs s) l -> idequeue s = head l -> NoDup l -> (length l <= NBUF)%nat -> i ∉ l -> qnext (bufs s i) = None ->
  exists f, append i s = Ok tt (set_bufs f (set_idequeue (head (l ++ [i])) s)) /\ linked f (l ++ [i]) /\ (forall j, same (f j) (bufs s j)).
Proof.
  intros Hl Hq Hnd Hlen Hi Hn. unfold append. rewrite (bind_ok_l _ _ _ _ _ (eq_refl : gets idequeue s = Ok (idequeue s) s)), Hq.
  destruct l as [|e l _] using rev_ind.
  - exists (bufs s). split; [reflexivity|]. split; [|done]. intros [|k] j Hj; [by injection Hj as <-|done].
  - assert (exists h, head (l ++ [e]) = Some h /\ (l ++ [e]) !! 0%nat = Some h /\ head ((l ++ [e]) ++ [i]) = Some h) as (h & Eh & H0 & ->) by (destruct l; cbn; eauto).
    rewrite Eh in *.
    rewrite length_app in Hlen. cbn in Hlen.
    rewrite (bind_ok_l _ _ _ _ _ (queue_end_run (S NBUF) 0 h l s e Hl H0 ltac:(lia))).
    exists (<[e := set_qnext (Some i) (bufs s e)]> (bufs s)). split; [unfold upd, modify; do 2 f_equal|].
    { destruct s. cbn in *. by subst. }
    split; [by apply linked_snoc|]. intros j. unfold same. destruct (decide (j = e)) as [->|]; [by rewrite fn_lookup_insert|by rewrite fn_lookup_insert_ne].
Qed.

(** ** The steps *)

Lemma short_queue (l : list nat) n : NoDup l -> (forall i, i ∈ l -> (i < n)%nat) -> (length l <= n)%nat.
Proof.
  intros Hnd Hl. rewrite <- (length_seq n 0). apply submseteq_length, NoDup_submseteq; [done|]. intros i Hi. apply elem_of_seq.
  specialize (Hl i Hi). lia.
Qed.

Lemma request_same hd b b' : same b b' -> request hd b -> request hd b'.
Proof. unfold request. intros (-> & -> & -> & ->). done. Qed.

Lemma same_trans b1 b2 b3 : same b1 b2 -> same b2 b3 -> same b1 b3.
Proof. unfold same. intros (-> & -> & -> & ->). done. Qed.

Lemma same_sym b b' : same b b' -> same b' b.
Proof. unfold same. intros (-> & -> & -> & ->). done. Qed.

(** [idestart] on a buffer of a request of the abstract driver. *)
Lemma start_run i s b hd : same (bufs s i) b -> request hd b ->
  exists d, idestart patience (Some i) s = Ok tt (set_hw d s) /\ content d = written b (content (hw s)) /\ (dirty b = false -> reading d = Some (drive b, blockno b)).
Proof.
  intros (E1 & E2 & E3 & E4) (_ & _ & _ & Hblk & Hdat). destruct (idestart_run i s) as (d & Hr & Hc & Hrd); [by rewrite E3|by rewrite E4|].
  exists d. unfold written, dirty, drive in *. rewrite E1, E2, E3, E4 in *. done.
Qed.

(** [iderw] enters its request and sleeps until it is served. *)
Lemma iderw_enters i s a : related s a -> i ∉ q a -> (i < NBUF)%nat -> request (havedisk1 s) (dbufs a i) ->
  exists s', iderw patience i s = Sleep (ChBuf i) s' /\ related s' (enter i a) /\ havedisk1 s' = havedisk1 s.
Proof.
  intros [Rl Rh Rk Rn Rs Rr Rb Rw Rk'] Hi Hlt Hreq. pose proof (Rb i) as Hsame. set (b := bufs s i) in *.
  assert (request (havedisk1 s) b) as (Hbusy & Hwork & Hdev & Hblk & Hdat) by (eapply request_same; [by apply same_sym|exact Hreq]).
  unfold iderw. rewrite (bind_ok_l _ _ _ _ _ (eq_refl : bufat i s = Ok b s)), Hbusy. cbn [negb]. rewrite (proj2 (Z.eqb_neq _ _)) by done.
  rewrite (bind_ok_l _ _ _ _ _ (eq_refl : gets havedisk1 s = Ok (havedisk1 s) s)).
  assert (truthy (dev b) && negb (havedisk1 s) = false) as -> by (destruct Hdev as [-> | ->]; [done|apply andb_false_r]).
  assert (acquire s = Ok tt (set_idelock true s)) as Hacq by (unfold acquire, Seq.acquire; by rewrite Rl).
  rewrite (bind_ok_l _ _ _ _ _ Hacq). set (s1 := set_idelock true s).
  set (s2 := set_bufs (<[i := set_qnext None b]> (bufs s)) s1).
  rewrite (bind_ok_l _ _ _ _ _ (eq_refl : upd i (set_qnext None) s1 = Ok tt s2)).
  destruct (append_run (q a) i s2) as (f & Happ & Hlk & Hf).
  { intros k j Hk. cbn. rewrite fn_lookup_insert_ne; [by apply Rk|]. intros <-. by apply Hi; eapply list_elem_of_lookup_2. }
  { done. } { done. } { by apply short_queue. } { done. } { cbn. by rewrite fn_lookup_insert. }
  rewrite (bind_ok_l _ _ _ _ _ Happ). set (s3 := set_bufs f _). rewrite (bind_ok_l _ _ _ _ _ (eq_refl : gets idequeue s3 = Ok (head (q a ++ [i])) s3)).
  assert (forall j, same (f j) (bufs s j)) as Hf'.
  { intros j. specialize (Hf j). cbn in Hf. destruct (decide (j = i)) as [->|]; [by rewrite fn_lookup_insert in Hf|by rewrite fn_lookup_insert_ne in Hf]. }
  assert (exists d, (if bool_decide (head (q a ++ [i]) = Some i) then idestart patience (Some i) else mret tt) s3 = Ok tt (set_hw d s3) /\ working (enter i a) d) as (d & Hst & Hd).
  { unfold working in *. cbn [q enter dbufs disks]. destruct (q a) as [|x l] eqn:Eq; cbn [app head] in *.
    - rewrite bool_decide_true by done. destruct (start_run i s3 (dbufs a i) (havedisk1 s)) as (d & Hr & Hc & Hrd); [by eapply same_trans; [apply Hf'|]|done|].
      exists d. split; [done|]. split; [|done]. rewrite Hc. cbn. by rewrite Rw.
    - rewrite bool_decide_false by (intros [= ->]; apply Hi, list_elem_of_here). exists (hw s). split; [|done]. reflexivity. }
  rewrite (bind_ok_l _ _ _ _ _ Hst). exists (set_idelock false (set_hw d s3)). split; [|split; [|done]].
  - unfold iderw_wait. rewrite (bind_ok_l _ _ _ _ _ (eq_refl : bufat i (set_hw d s3) = Ok (f i) _)).
    rewrite (proj1 (Hf' i)). fold b. rewrite (proj2 (Z.eqb_neq _ _)) by done. reflexivity.
  - constructor; cbn; try done.
    + apply NoDup_app. split; [done|]. split; [|apply NoDup_singleton]. intros x Hx Hx'. apply list_elem_of_singleton in Hx' as ->. done.
    + intros x. rewrite elem_of_app, list_elem_of_singleton. naive_solver.
    + intros x. rewrite elem_of_app, list_elem_of_singleton. naive_solver.
    + intros j. eapply same_trans; [apply Hf'|apply Rb].
Qed.

(** The data phase of the interrupt handler. *)
Lemma fetch_run i s b a : same (bufs s i) b -> content (hw s) = written b (disks a) -> (dirty b = false -> reading (hw s) = Some (drive b, blockno b)) ->
  exists f d, (if negb (truthy (flags (bufs s i) .& B_DIRTY)) then
       r ← idewait patience true;
       if 0 <=? r then l ← insl 0x1f0 (Z.to_nat (BSIZE / 4)); upd i (set_data l) else mret tt
     else mret tt) s = Ok tt (set_bufs f (set_hw d s)) /\ content d = written b (disks a) /\
    f i = set_data (data (synced b (disks a))) (bufs s i) /\ (forall j, j <> i -> f j = bufs s j).
Proof.
  intros (E1 & E2 & E3 & E4) Hc Hr. unfold synced, written in *. cbn [data]. fold (dirty (bufs s i)).
  assert (dirty (bufs s i) = dirty b) as -> by (unfold dirty; by rewrite E1). destruct (dirty b) eqn:Ed; cbn [negb].
  - exists (bufs s), (hw s). split; [by destruct s|]. split; [done|]. split; [|done]. rewrite <- E4. by destruct (bufs s i).
  - destruct (idewait_run true s) as (d0 & Hw & Hc0 & Hr0). rewrite (bind_ok_l _ _ _ _ _ Hw). cbn [Z.leb Z.compare].
    destruct (ata_data d0 (drive b) (blockno b)) as [Hd1 Hd2]; [by rewrite Hr0, Hr|].
    destruct (ata_insl 0x1f0 (Z.to_nat (SECTOR_SIZE / 4)) d0) as [l d1] eqn:Ei. cbn [fst snd] in *. eexists _, d1. split; [|split; [congruence|]].
    2: { rewrite fn_lookup_insert. split; [done|]. intros j Hj. by rewrite fn_lookup_insert_ne. }
    assert (insl 0x1f0 (Z.to_nat (BSIZE / 4)) (set_hw d0 s) = Ok l (set_hw d1 s)) as Hin.
    { unfold insl, mbind, M_bind, get. cbv beta iota. cbn [hw set_hw]. change (BSIZE / 4) with (SECTOR_SIZE / 4). by rewrite Ei. }
    rewrite (bind_ok_l _ _ _ _ _ Hin). rewrite Hd1, Hc0, Hc. reflexivity.
Qed.

(** The next request is started, if there is one. *)
Lemma next_run l s a : idequeue s = head l -> (forall i, i ∈ l -> request (havedisk1 s) (dbufs a i) /\ same (bufs s i) (dbufs a i)) ->
  content (hw s) = disks a -> q a = l ->
  exists d, (q ← gets idequeue; match q with Some _ => idestart patience q | None => mret tt end) s = Ok tt (set_hw d s) /\ working a d.
Proof.
  intros Hq Hl Hc Ha. rewrite (bind_ok_l _ _ _ _ _ (eq_refl : gets idequeue s = Ok (idequeue s) s)), Hq. unfold working. rewrite Ha.
  destruct l as [|j l]; cbn [head].
  - exists (hw s). split; [by destruct s|done].
  - destruct (Hl j (list_elem_of_here _ _)) as [Hreq Hsame]. destruct (start_run j s _ _ Hsame Hreq) as (d & Hr & Hcd & Hrd).
    exists d. split; [done|]. split; [by rewrite Hcd, Hc|done].
Qed.

(** The flags of a buffer that has been served. *)
Lemma served_flags f : ((f .| B_VALID) .& Z.lnot B_DIRTY) .& (B_VALID .| B_DIRTY) = B_VALID.
Proof.
  apply Z.bits_inj'. intros n Hn. rewrite !Z.land_spec, Z.lor_spec, Z.lnot_spec by done.
  assert (n = 0 \/ n = 1 \/ n = 2 \/ 3 <= n) as [-> |[-> |[-> |H]]] by lia; [by rewrite ?andb_false_r|by rewrite orb_true_r|by rewrite ?andb_false_r|].
  change (B_VALID .| B_DIRTY) with 6. change B_VALID with 2. rewrite (Z.bits_above_log2 6 n), (Z.bits_above_log2 2 n), andb_false_r by (cbn; lia). done.
Qed.

(** The interrupt serves the first request and wakes its process. *)
Lemma ideintr_serves s a : related s a ->
  exists s', ideintr patience s = Ok tt s' /\ related s' (serve a) /\ havedisk1 s' = havedisk1 s.
Proof.
  intros R. pose proof R as [Rl Rh Rk Rn Rs Rr Rb Rw Rk']. unfold ideintr.
  assert (acquire s = Ok tt (set_idelock true s)) as Hacq by (unfold acquire, Seq.acquire; by rewrite Rl).
  rewrite (bind_ok_l _ _ _ _ _ Hacq). set (s1 := set_idelock true s).
  rewrite (bind_ok_l _ _ _ _ _ (eq_refl : gets idequeue s1 = Ok (idequeue s) s1)), Rh. unfold serve. destruct (q a) as [|i l] eqn:Eq; cbn [head] in *.
  { exists (set_idelock false s1). split; [done|]. split; [|done]. constructor; cbn; rewrite ?Eq; done. }
  set (b := bufs s i). rewrite (bind_ok_l _ _ _ _ _ (eq_refl : bufat i s1 = Ok b s1)).
  assert (qnext b = head l) as Hqn by (unfold b; rewrite (Rk 0%nat i eq_refl); by destruct l). set (s2 := set_idequeue (head l) s1).
  assert (modify (set_idequeue (qnext b)) s1 = Ok tt s2) as Hm by (rewrite Hqn; done). rewrite (bind_ok_l _ _ _ _ _ Hm). clear Hm.
  unfold working in Rw. rewrite Eq in Rw. destruct Rw as [Hc Hr].
  destruct (fetch_run i s2 (dbufs a i) a (Rb i) Hc Hr) as (f & d & Hf & Hcd & Hfi & Hfo). change (bufs s2 i) with b in Hf, Hfi.
  rewrite (bind_ok_l _ _ _ _ _ Hf). clear Hf. set (s3 := set_bufs f (set_hw d s2)).
  set (f4 := <[i := set_flags (flags (f i) .| B_VALID) (f i)]> f). set (f5 := <[i := set_flags (flags (f4 i) .& Z.lnot B_DIRTY) (f4 i)]> f4).
  rewrite (bind_ok_l _ _ _ _ _ (eq_refl : upd i (fun b => set_flags (flags b .| B_VALID) b) s3 = Ok tt (set_bufs f4 s3))).
  rewrite (bind_ok_l _ _ _ _ _ (eq_refl : upd i (fun b => set_flags (flags b .& Z.lnot B_DIRTY) b) (set_bufs f4 s3) = Ok tt (set_bufs f5 s3))).
  set (s6 := set_woken (woken s ++ [ChBuf i]) (set_bufs f5 (set_hw d s2))). rewrite (bind_ok_l _ _ _ _ _ (eq_refl : wakeup i (set_bufs f5 s3) = Ok tt s6)).
  assert (f5 i = set_data (data (synced (dbufs a i) (disks a))) (set_flags ((flags b .| B_VALID) .& Z.lnot B_DIRTY) b)) as H5i
    by (unfold f5, f4; rewrite !fn_lookup_insert, Hfi; done).
  assert (forall j, j <> i -> f5 j = bufs s j) as H5o by (intros j Hj; unfold f5, f4; rewrite !fn_lookup_insert_ne by done; by apply Hfo).
  clearbody f5. clear Hfi Hfo f4 s3 f Hc Hr. set (a' := MkDrv l _ _ _). apply NoDup_cons in Rn as [Hil Rn].
  assert (forall j, same (f5 j) (dbufs a' j)) as Hsame.
  { intros j. cbn [a' dbufs]. destruct (decide (j = i)) as [->|Hj]; [|rewrite fn_lookup_insert_ne, H5o by done; apply Rb].
    rewrite fn_lookup_insert, H5i. destruct (Rb i) as (E1 & E2 & E3 & _). unfold same. cbn. fold b in E1, E2, E3. by rewrite E1. }
  assert (forall j, j ∈ l -> request (havedisk1 s) (dbufs a' j)) as Hreq.
  { intros j Hj. cbn [a' dbufs]. rewrite fn_lookup_insert_ne by (intros <-; done). by apply Rr, list_elem_of_further. }
  destruct (next_run l s6 a') as (d' & Hn & Hw'); [done|by intros j Hj; split; [apply Hreq|apply Hsame]|done|done|].
  pose proof (bind_assoc (gets idequeue) (fun q => match q with Some _ => idestart patience q | None => mret tt end) (fun _ => release) s6) as Ha.
  rewrite (bind_ok_l _ _ _ _ _ Hn) in Ha. set (s7 := set_idelock false (set_hw d' s6)).
  exists s7. split; [etransitivity; [symmetry; exact Ha|reflexivity]|]. split; [|done]. constructor; cbn; try done.
  - intros k j Hj. assert (j <> i) by (intros ->; apply Hil; by eapply list_elem_of_lookup_2). rewrite H5o by done. by apply (Rk (S k)).
  - intros j Hj. by apply Rs, list_elem_of_further.
  - by rewrite Rk', map_app.
Qed.

(** A read that the controller reports as failed is marked valid all the same:
    its buffer keeps the bytes it had. *)
Lemma ideintr_read_error s i r d : idelock s = false -> idequeue s = Some i -> qnext (bufs s i) = None -> dirty (bufs s i) = false ->
  spin patience (hw s) = Some (r, d) -> r .& (IDE_DF .| IDE_ERR) <> 0 ->
  exists s', ideintr patience s = Ok tt s' /\ data (bufs s' i) = data (bufs s i) /\ flags (bufs s' i) .& (B_VALID .| B_DIRTY) = B_VALID.
Proof.
  intros Hl Hq Hn Hd Hsp He. unfold ideintr.
  assert (acquire s = Ok tt (set_idelock true s)) as Hacq by (unfold acquire, Seq.acquire; by rewrite Hl).
  rewrite (bind_ok_l _ _ _ _ _ Hacq), (bind_ok_l _ _ _ _ _ (eq_refl : gets idequeue (set_idelock true s) = Ok (idequeue s) _)), Hq.
  rewrite (bind_ok_l _ _ _ _ _ (eq_refl : bufat i (set_idelock true s) = Ok (bufs s i) _)), Hn.
  set (s2 := set_idequeue None (set_idelock true s)). rewrite (bind_ok_l _ _ _ _ _ (eq_refl : modify (set_idequeue None) (set_idelock true s) = Ok tt s2)).
  fold (dirty (bufs s i)). rewrite Hd. cbn [negb].
  assert (idewait patience true s2 = Ok (-1) (set_hw d s2)) as Hw.
  { unfold idewait. rewrite (bind_ok_l _ _ _ _ _ (poll_run patience s2 r d Hsp)). cbn [andb]. by rewrite (proj2 (Cstring.Str.truthy_true _)). }
  rewrite bind_assoc, (bind_ok_l _ _ _ _ _ Hw). eexists. split; [reflexivity|]. cbn. rewrite !fn_lookup_insert. split; [done|]. apply served_flags.
Qed.

(** ** Histories *)

(** A process enters a request, the disk interrupts, or the owner of a buffer
    outside the queue changes it. *)
Inductive op := Req (i : nat) | Irq | Own (i : nat) (b : buf).

Fixpoint drive_ops (ops : list op) (a : driver) : driver :=
  match ops with
  | [] => a
  | Req i :: ops => drive_ops ops (enter i a)
  | Irq :: ops => drive_ops ops (serve a)
  | Own i b :: ops => drive_ops ops (MkDrv (q a) (<[i := b]> (dbufs a)) (disks a) (awoken a))
  end.

Fixpoint allowed (hd : bool) (ops : list op) (a : driver) : Prop :=
  match ops with
  | [] => True
  | Req i :: ops => (i ∉ q a) /\ (i < NBUF)%nat /\ request hd (dbufs a i) /\ allowed hd ops (enter i a)
  | Irq :: ops => allowed hd ops (serve a)
  | Own i b :: ops => (i ∉ q a) /\ allowed hd ops (MkDrv (q a) (<[i := b]> (dbufs a)) (disks a) (awoken a))
  end.

(** The code's run of a history: every [iderw] sleeps, every interrupt returns. *)
Fixpoint ide_ops (ops : list op) (s : ide) : option ide :=
  match ops with
  | [] => Some s
  | Req i :: ops => match iderw patience i s with Sleep c s' => if decide (c = ChBuf i) then ide_ops ops s' else None | _ => None end
  | Irq :: ops => match ideintr patience s with Ok _ s' => ide_ops ops s' | _ => None end
  | Own i b :: ops => ide_ops ops (set_bufs (<[i := set_qnext (qnext (bufs s i)) b]> (bufs s)) s)
  end.

Lemma own_related s a i b : related s a -> i ∉ q a ->
  related (set_bufs (<[i := set_qnext (qnext (bufs s i)) b]> (bufs s)) s) (MkDrv (q a) (<[i := b]> (dbufs a)) (disks a) (awoken a)).
Proof.
  intros [Rl Rh Rk Rn Rs Rr Rb Rw Rk'] Hi. assert (forall j, j ∈ q a -> j <> i) as Hne by (intros j Hj ->; done). constructor; cbn; try done.
  - intros k j Hj. rewrite fn_lookup_insert_ne by (symmetry; apply Hne; by eapply list_elem_of_lookup_2). by apply Rk.
  - intros j Hj. rewrite fn_lookup_insert_ne by (symmetry; by apply Hne). by apply Rr.
  - intros j. destruct (decide (j = i)) as [->|]; [by rewrite !fn_lookup_insert|by rewrite !fn_lookup_insert_ne].
  - unfold working in *. cbn [q dbufs disks]. destruct (q a) as [|j l]; [done|]. rewrite fn_lookup_insert_ne by (symmetry; apply Hne, list_elem_of_here). done.
Qed.

Lemma history_run (ops : list op) (s : ide) (a : driver) : related s a -> allowed (havedisk1 s) ops a ->
  exists s', ide_ops ops s = Some s' /\ related s' (drive_ops ops a).
Proof.
  revert s a. induction ops as [|[i| |i b] ops IH]; intros s a R Hal; cbn [ide_ops drive_ops allowed] in *; [eauto| | |].
  - destruct Hal as (Hi & Hlt & Hreq & Hal). destruct (iderw_enters i s a R Hi Hlt Hreq) as (s' & -> & R' & Hhd).
    rewrite decide_True by done. apply IH; [done|by rewrite Hhd].
  - destruct (ideintr_serves s a R) as (s' & -> & R' & Hhd). apply IH; [done|by rewrite Hhd].
  - destruct Hal as [Hi Hal]. apply IH; [by apply own_related|done].
Qed.

(** A request that is done: its buffer is valid and has nothing to write. *)
Definition settled (b : buf) : Prop := flags b .& (B_VALID .| B_DIRTY) = B_VALID.

Lemma synced_settled b dk : settled (synced b dk).
Proof. apply served_flags. Qed.

(** A woken process looks at its buffer: it returns from [iderw] when the
    request is done, and sleeps again when it is not. *)
Lemma again_run i s a : related s a ->
  (settled (dbufs a i) -> iderw_again i s = Ok tt s) /\ (~ settled (dbufs a i) -> iderw_again i s = Sleep (ChBuf i) s).
Proof.
  intros R. destruct R as [Rl _ _ _ _ _ Rb _ _]. destruct (Rb i) as [Hf _]. unfold settled. rewrite <- Hf. clear Hf Rb.
  assert (acquire s = Ok tt (set_idelock true s)) as Hacq by (unfold acquire, Seq.acquire; by rewrite Rl).
  assert (set_idelock false (set_idelock true s) = s) as Hrel by (destruct s; cbn in *; by subst).
  unfold iderw_again. rewrite (bind_ok_l _ _ _ _ _ Hacq). unfold iderw_wait.
  rewrite (bind_ok_l _ _ _ _ _ (eq_refl : bufat i (set_idelock true s) = Ok (bufs s i) _)).
  split; intros Hf; [rewrite (proj2 (Z.eqb_eq _ _)) by done|rewrite (proj2 (Z.eqb_neq _ _)) by done].
  - unfold release, Seq.release. cbn. by rewrite Hrel.
  - unfold release, Seq.release, mbind, M_bind. cbn. by rewrite Hrel.
Qed.

(** C36: over every controller with the contract, which never reports an error,
    and for every history of requests, interrupts and uses of buffers outside
    the queue, no call of the driver panics or hangs, and the driver is a
    queue: requests are served one at a time in the order of the calls of
    [iderw], and when a request is served its buffer and the disk are what a
    synchronous driver makes of them.  The wakeups are those of the served
    requests, one each and in that order.  After the history, a process that
    looks at its buffer again goes back to sleep while its request is in the
    queue, and returns from [iderw] when its buffer is valid and clean, as
    serving leaves it. *)
Theorem ide_fifo (ops : list op) (s : ide) (a : driver) : related s a -> allowed (havedisk1 s) ops a ->
  exists s', ide_ops ops s = Some s' /\ related s' (drive_ops ops a) /\
    woken s' = map ChBuf (awoken (drive_ops ops a)) /\
    (forall i, i ∈ q (drive_ops ops a) -> iderw_again i s' = Sleep (ChBuf i) s') /\
    (forall i, settled (dbufs (drive_ops ops a) i) -> iderw_again i s' = Ok tt s') /\
    (forall b dk, settled (synced b dk)).
Proof.
  intros R Hal. destruct (history_run ops s a R Hal) as (s' & Hs & R'). exists s'. split; [done|]. split; [done|]. split; [by apply r_woken|].
  split; [|split; [|apply synced_settled]]; intros i Hi; apply (again_run i s' _ R'); [|done]. by destruct (r_req _ _ R' i Hi) as (_ & ? & _).
Qed.
End spec.

(** A controller of the contract: the registers as they were last written, and
    the sectors. *)
Module IdeEx.
Record ata := MkAta { regs : Z -> Z; sectors : Z -> Z -> bytes }.

Definition selected (d : ata) : Z * Z := (drive_of (regs d 0x1f6), lba_of (regs d 0x1f3) (regs d 0x1f4) (regs d 0x1f5) (regs d 0x1f6)).

#[global] Instance ata_ports : Ata ata := {
  ata_inb _ d := (IDE_DRDY, d);
  ata_outb port v d := MkAta (<[port := v]> (regs d)) (sectors d);
  ata_insl _ _ d := (sectors d (selected d).1 (selected d).2, d);
  ata_outsl _ l d := MkAta (regs d) (<[(selected d).1 := <[(selected d).2 := l]> (sectors d (selected d).1)]> (sectors d))
}.

#[global] Instance ata_contract : AtaSpec (D := ata) 1.
Proof.
  refine {| content := sectors; reading := fun d => if regs d 0x1f7 =? IDE_CMD_READ then Some (selected d) else None |}.
  - intros d. exists IDE_DRDY, d. done.
  - intros a b c e d _ _ _ _. split; reflexivity.
  - intros a b c e l d _ _ _ _ _. reflexivity.
  - intros d dr n. destruct (_ =? _); [|done]. intros HE. assert (selected d = (dr, n)) as E by congruence. cbn [ata_insl ata_ports]. by rewrite E.
Defined.

Definition disk0 : Z -> Z -> bytes := fun _ _ => replicate 512 0.
Definition block (v : Z) : bytes := replicate 512 v.
(** Buffer 1 is to be written to block 7, buffer 2 to be read from it. *)
Definition bufs0 : nat -> buf := <[1%nat := MkBuf (B_BUSY .| B_DIRTY) 1 7 None (block 9)]> (fun _ => MkBuf B_BUSY 1 7 None (block 0)).
Definition start : ide := MkIde false None true bufs0 (MkAta (fun _ => 0) disk0) [] [].
Definition ops : list op := [Req 1; Req 2; Irq; Irq].
End IdeEx.

Lemma ide_fifo_witness : exists s', ide_ops 1 IdeEx.ops IdeEx.start = Some s' /\ data (bufs s' 2%nat) = IdeEx.block 9 /\ woken s' = [ChBuf 1; ChBuf 2].
Proof.
  destruct (ide_fifo 1 IdeEx.ops IdeEx.start (MkDrv [] IdeEx.bufs0 IdeEx.disk0 [])) as (s' & Hs & R & Hw & _).
  - constructor; try done; try apply NoDup_nil_2; intros i Hi; by apply elem_of_nil in Hi.
  - cbn [allowed IdeEx.ops IdeEx.start havedisk1]. unfold request. split_and!; try (apply (bool_decide_unpack _); vm_compute; reflexivity).
  - exists s'. split; [exact Hs|]. split; [|exact Hw]. destruct (r_bufs _ _ _ R 2%nat) as (_ & _ & _ & ->). vm_compute. reflexivity.
Defined.
