(* ===== verification/Log.v ===== *)
(** * log.c: the write-ahead log

    The log runs over any implementation of the block contract ([BlockDev]).
    [Log] holds the in-memory log and its operations, each the whole function
    of log.c; a call that sleeps on [&log] ends, and is made again when woken.
    The theorems are proved over the contract's specification and transfer to
    the buffer cache by simulation: what a transaction pins, what a commit
    puts on the disk, and that a crash between any two disk writes of a commit
    or of a recovery leaves all or nothing of the transaction. *)

From S2P Require Import Prelude Memory Layout Spinlock Block Bio.

(** fs.h: [struct superblock]. *)
Record superblock := MkSb {
  sb_size : Z;
  sb_nblocks : Z;
  sb_ninodes : Z;
  sb_nlog : Z;
  sb_logstart : Z;
  sb_inodestart : Z;
  sb_bmapstart : Z
}.

(** The 32-bit word at byte [off] of a block. *)
Definition word (off : nat) (d : bytes) : Z := le_val (sub off 4 d).
Definition set_word (off : nat) (v : Z) (d : bytes) : bytes := splice off (le_enc 4 v) d.

(** The superblock as block 1 stores it. *)
Definition decode_sb (d : bytes) : superblock :=
  MkSb (word 0 d) (word 4 d) (word 8 d) (word 12 d) (word 16 d) (word 20 d) (word 24 d).

Lemma length_set_word off v d : (off + 4 <= length d)%nat -> length (set_word off v d) = length d.
Proof. intros. apply length_splice. by rewrite length_le_enc. Qed.

Lemma word_set_word_eq off v d :
  (off + 4 <= length d)%nat -> 0 <= v < 2 ^ 32 -> word off (set_word off v d) = v.
Proof.
  intros. unfold word, set_word. rewrite <- (length_le_enc 4 v) at 1.
  rewrite sub_splice_eq by (by rewrite length_le_enc). by apply le_val_enc_small.
Qed.

Lemma word_set_word_ne off v d o :
  (off + 4 <= length d)%nat -> (o + 4 <= off \/ off + 4 <= o)%nat -> word o (set_word off v d) = word o d.
Proof. intros. unfold word, set_word. by rewrite sub_splice_ne by (rewrite length_le_enc; lia). Qed.

Module Log.

(** [struct log] with its [struct logheader]; a block number is kept as the
    unsigned value [bread] receives. *)
Record log := MkLog {
  llock : bool;
  start : Z;
  size : Z;
  outstanding : Z;
  committing : Z;
  ldev : Z;
  lh_n : Z;
  lh_block : list Z;
  lwoken : nat
}.

Definition set_llock (b : bool) (l : log) : log :=
  MkLog b (start l) (size l) (outstanding l) (committing l) (ldev l) (lh_n l) (lh_block l) (lwoken l).
Definition set_geometry (st sz dv : Z) (l : log) : log :=
  MkLog (llock l) st sz (outstanding l) (committing l) dv (lh_n l) (lh_block l) (lwoken l).
Definition set_outstanding (x : Z) (l : log) : log :=
  MkLog (llock l) (start l) (size l) x (committing l) (ldev l) (lh_n l) (lh_block l) (lwoken l).
Definition set_committing (x : Z) (l : log) : log :=
  MkLog (llock l) (start l) (size l) (outstanding l) x (ldev l) (lh_n l) (lh_block l) (lwoken l).
Definition set_n (x : Z) (l : log) : log :=
  MkLog (llock l) (start l) (size l) (outstanding l) (committing l) (ldev l) x (lh_block l) (lwoken l).
Definition set_block (x : list Z) (l : log) : log :=
  MkLog (llock l) (start l) (size l) (outstanding l) (committing l) (ldev l) (lh_n l) x (lwoken l).
Definition wake (l : log) : log :=
  MkLog (llock l) (start l) (size l) (outstanding l) (committing l) (ldev l) (lh_n l) (lh_block l)
    (S (lwoken l)).

(** The log in zeroed memory. *)
Definition log0 : log := MkLog false 0 0 0 0 0 0 (replicate (Z.to_nat LOGSIZE) 0) 0.

(** sizeof(struct logheader) *)
Definition logheader_size : Z := 4 + 4 * LOGSIZE.

Section log.
Context {S : Type} `{D : BlockDev S}.

Record st := MkSt { lg : log; dk : S }.

Definition on_dev {A} (m : M S A) : M st A := zoom dk (fun d s => MkSt (lg s) d) m.
Definition upd (f : log -> log) : M st unit := modify (fun s => MkSt (f (lg s)) (dk s)).
Definition acquire : M st unit :=
  Seq.acquire (fun s => llock (lg s)) (fun b s => MkSt (set_llock b (lg s)) (dk s)).
Definition release : M st unit :=
  Seq.release (fun s => llock (lg s)) (fun b s => MkSt (set_llock b (lg s)) (dk s)).

(** [log.lh.block[i]]: reading or writing outside the array is undefined. *)
Definition get_block (i : nat) : M st Z := fun s =>
  match lh_block (lg s) !! i with Some b => Ok b s | None => Fault end.
Definition put_block (i : nat) (b : Z) : M st unit := fun s =>
  if decide (i < length (lh_block (lg s)))%nat
  then Ok tt (MkSt (set_block (<[i := b]> (lh_block (lg s))) (lg s)) (dk s))
  else Fault.

(** fs.c: [readsb]. *)
Definition readsb (dv : Z) : M st superblock :=
  on_dev (bread dv 1);;
  d ← on_dev (bdata 1);
  on_dev (brelse 1);;
  mret (decode_sb d).

Fixpoint install_loop (tail n : nat) : M st unit :=
  match n with
  | O => mret tt
  | Datatypes.S k =>
      l ← gets lg;
      let lbuf := start l + Z.of_nat tail + 1 in
      on_dev (bread (ldev l) lbuf);;
      dbuf ← get_block tail;
      on_dev (bread (ldev l) dbuf);;
      x ← on_dev (bdata lbuf);
      on_dev (bstore dbuf x);;
      on_dev (bwrite dbuf);;
      on_dev (brelse lbuf);;
      on_dev (brelse dbuf);;
      install_loop (tail + 1) k
  end.

Definition install_trans : M st unit :=
  l ← gets lg; install_loop 0 (Z.to_nat (lh_n l)).

Fixpoint read_head_loop (d : bytes) (i n : nat) : M st unit :=
  match n with
  | O => mret tt
  | Datatypes.S k => put_block i (word (4 + 4 * i) d);; read_head_loop d (i + 1) k
  end.

Definition read_head : M st unit :=
  l ← gets lg;
  on_dev (bread (ldev l) (start l));;
  d ← on_dev (bdata (start l));
  upd (set_n (s32 (word 0 d)));;
  l' ← gets lg;
  read_head_loop d 0 (Z.to_nat (lh_n l'));;
  on_dev (brelse (start l)).

(** The loop of [write_head] on the header block's bytes. *)
Fixpoint write_head_loop (i n : nat) (d : bytes) : M st bytes :=
  match n with
  | O => mret d
  | Datatypes.S k => b ← get_block i; write_head_loop (i + 1) k (set_word (4 + 4 * i) b d)
  end.

Definition write_head : M st unit :=
  l ← gets lg;
  on_dev (bread (ldev l) (start l));;
  d ← on_dev (bdata (start l));
  d' ← write_head_loop 0 (Z.to_nat (lh_n l)) (set_word 0 (lh_n l) d);
  on_dev (bstore (start l) d');;
  on_dev (bwrite (start l));;
  on_dev (brelse (start l)).

Definition recover_from_log : M st unit :=
  read_head;;
  install_trans;;
  upd (set_n 0);;
  write_head.

Definition initlog (dv : Z) : M st unit :=
  if BSIZE <=? logheader_size then panic "initlog: too big logheader" else
  upd (set_llock false);;
  sb ← readsb dv;
  upd (set_geometry (s32 (sb_logstart sb)) (s32 (sb_nlog sb)) dv);;
  recover_from_log.

Definition begin_op : M st unit :=
  acquire;;
  l ← gets lg;
  if truthy (committing l) then release;; sleepon ChLog
  else if LOGSIZE <? lh_n l + (outstanding l + 1) * MAXOPBLOCKS then release;; sleepon ChLog
  else upd (set_outstanding (outstanding l + 1));; release.

Fixpoint write_log_loop (tail n : nat) : M st unit :=
  match n with
  | O => mret tt
  | Datatypes.S k =>
      l ← gets lg;
      let to := start l + Z.of_nat tail + 1 in
      on_dev (bread (ldev l) to);;
      from ← get_block tail;
      on_dev (bread (ldev l) from);;
      x ← on_dev (bdata from);
      on_dev (bstore to x);;
      on_dev (bwrite to);;
      on_dev (brelse from);;
      on_dev (brelse to);;
      write_log_loop (tail + 1) k
  end.

Definition write_log : M st unit :=
  l ← gets lg; write_log_loop 0 (Z.to_nat (lh_n l)).

Definition commit : M st unit :=
  l ← gets lg;
  when (0 <? lh_n l) (
    write_log;;
    write_head;;
    install_trans;;
    upd (set_n 0);;
    write_head).

Definition end_op : M st unit :=
  acquire;;
  l ← gets lg;
  upd (set_outstanding (outstanding l - 1));;
  l ← gets lg;
  if truthy (committing l) then panic "log.committing" else
  do_commit ← (if outstanding l =? 0 then upd (set_committing 1);; mret true
               else upd wake;; mret false);
  release;;
  when do_commit (
    commit;;
    acquire;;
    upd (set_committing 0);;
    upd wake;;
    release).

(** The search of [log_write]: the index of [b] among the first [n] entries,
    or [n]. *)
Fixpoint find_block (b : Z) (blocks : list Z) (n : nat) : nat :=
  match n, blocks with
  | Datatypes.S k, c :: rest => if c =? b then O else Datatypes.S (find_block b rest k)
  | _, _ => O
  end.

Definition log_write (b : Z) : M st unit :=
  l ← gets lg;
  if (LOGSIZE <=? lh_n l) || (size l - 1 <=? lh_n l) then panic "too big a transaction" else
  if outstanding l <? 1 then panic "log_write outside of trans" else
  acquire;;
  l ← gets lg;
  let i := find_block b (lh_block l) (Z.to_nat (lh_n l)) in
  put_block i b;;
  when (Z.of_nat i =? lh_n l) (upd (set_n (lh_n l + 1)));;
  on_dev (bpin b);;
  release.

End log.
Arguments st : clear implicits.

(** ** The log over an implementation of the contract *)

Section transfer.
Context {S : Type} `{D : BlockDev S} {R : S -> BlockSpec.st -> Prop} `{!BlockImpl S R}.

Definition lrel (s1 : st S) (s2 : st BlockSpec.st) : Prop := lg s1 = lg s2 /\ R (dk s1) (dk s2).

Lemma on_dev_sim {A} (m1 : M S A) (m2 : M BlockSpec.st A) :
  sim R m1 m2 -> sim lrel (on_dev m1) (on_dev m2).
Proof.
  intros H s1 s2 [E Hr]. specialize (H _ _ Hr). unfold on_dev, zoom.
  destruct (m2 (dk s2)); try done.
  - destruct H as (d1 & -> & ?). eexists. split; [done|]. by split.
  - by rewrite H.
  - destruct H as (c' & d1 & -> & ?). eexists _, _. split; [done|]. by split.
Qed.

Lemma upd_sim f : sim lrel (upd f) (upd f).
Proof. intros s1 s2 [E Hr]. eexists. split; [done|]. by split; simpl; rewrite ?E. Qed.

Lemma gets_sim : sim lrel (gets lg) (gets lg).
Proof. intros s1 s2 [E Hr]. simpl. rewrite <- E. by eexists. Qed.

Lemma acquire_sim : sim lrel acquire acquire.
Proof.
  intros s1 s2 [E Hr]. unfold acquire, Seq.acquire. rewrite E. destruct (llock (lg s2)); [done|].
  eexists. split; [done|]. by split; simpl; rewrite ?E.
Qed.

Lemma release_sim : sim lrel release release.
Proof.
  intros s1 s2 [E Hr]. unfold release, Seq.release. rewrite E. destruct (llock (lg s2)); [|done].
  eexists. split; [done|]. by split; simpl; rewrite ?E.
Qed.

Lemma get_block_sim i : sim lrel (get_block i) (get_block i).
Proof.
  intros s1 s2 [E Hr]. unfold get_block. rewrite E. destruct (lh_block (lg s2) !! i); [|done].
  eexists. by split.
Qed.

Lemma put_block_sim i b : sim lrel (put_block i b) (put_block i b).
Proof.
  intros s1 s2 [E Hr]. unfold put_block. rewrite E. case_decide; [|done].
  eexists. split; [done|]. by split; simpl; rewrite ?E.
Qed.

#[local] Hint Resolve on_dev_sim upd_sim gets_sim acquire_sim release_sim get_block_sim put_block_sim : sim.

Lemma install_loop_sim tail n : sim lrel (install_loop tail n) (install_loop tail n).
Proof. revert tail. induction n; intros; cbn [install_loop]; sim_auto. Qed.

Lemma read_head_loop_sim d i n : sim lrel (read_head_loop d i n) (read_head_loop d i n).
Proof. revert i. induction n; intros; cbn [read_head_loop]; sim_auto. Qed.

Lemma write_head_loop_sim i n d : sim lrel (write_head_loop i n d) (write_head_loop i n d).
Proof. revert i d. induction n; intros; cbn [write_head_loop]; sim_auto. Qed.

Lemma write_log_loop_sim tail n : sim lrel (write_log_loop tail n) (write_log_loop tail n).
Proof. revert tail. induction n; intros; cbn [write_log_loop]; sim_auto. Qed.

#[local] Hint Resolve install_loop_sim read_head_loop_sim write_head_loop_sim write_log_loop_sim : sim.

Lemma write_head_sim : sim lrel write_head write_head.
Proof. unfold write_head. sim_auto. Qed.

Lemma install_trans_sim : sim lrel install_trans install_trans.
Proof. unfold install_trans. sim_auto. Qed.

#[local] Hint Resolve write_head_sim install_trans_sim : sim.

Lemma recover_sim : sim lrel recover_from_log recover_from_log.
Proof. unfold recover_from_log, read_head. sim_auto. Qed.

Lemma commit_sim : sim lrel commit commit.
Proof. unfold commit, when, write_log. sim_auto. Qed.

#[local] Hint Resolve recover_sim commit_sim : sim.

Lemma begin_op_sim : sim lrel begin_op begin_op.
Proof. unfold begin_op. sim_auto. Qed.

Lemma end_op_sim : sim lrel end_op end_op.
Proof. unfold end_op, when. sim_auto. Qed.

Lemma log_write_sim b : sim lrel (log_write b) (log_write b).
Proof. unfold log_write, when. sim_auto. Qed.

Lemma initlog_sim dv : sim lrel (initlog dv) (initlog dv).
Proof. unfold initlog, readsb. sim_auto. Qed.

End transfer.

(** ** Copying blocks

    [write_log] copies home blocks to the log, [install_trans] copies log
    blocks home; both write each copy at once. *)

Abbreviation spec := BlockSpec.st.
#[local] Abbreviation disk := BlockSpec.disk.
#[local] Abbreviation view := BlockSpec.view.
#[local] Abbreviation busy := BlockSpec.busy.
#[local] Abbreviation dirty := BlockSpec.dirty.
#[local] Abbreviation nblocks := BlockSpec.nblocks.
#[local] Abbreviation writes := BlockSpec.writes.
#[local] Abbreviation settled := BlockSpec.settled.
#[local] Abbreviation replay := BlockSpec.replay.
#[local] Abbreviation MkBs := BlockSpec.MkBs.

Lemma on_dev_run {A} (m : M spec A) l d a d' :
  m d = Ok a d' -> on_dev m (MkSt l d) = Ok a (MkSt l d').
Proof. intros H. unfold on_dev, zoom. simpl. by rewrite H. Qed.

(** [dst] now holds, in the cache and on the disk, what [src] holds. *)
Definition copied (src dst : Z) (d : spec) : spec :=
  MkBs (<[dst := blk (view d) src]> (disk d)) (<[dst := blk (view d) src]> (view d))
    ∅ (dirty d ∖ {[dst]}) (nblocks d) (writes d ++ [(dst, blk (view d) src)]).

(** Both can be read together, whichever is read first. *)
Record can_copy (src dst : Z) (d : spec) : Prop := MkCan {
  cc_busy : busy d = ∅;
  cc_settled : settled d;
  cc_ne : src <> dst;
  cc_src : 0 <= src < nblocks d;
  cc_dst : 0 <= dst < nblocks d;
  cc_room : (base.size (dirty d) < NBUF)%nat;
  cc_pin : src ∈ dirty d \/ dst ∈ dirty d \/ (base.size (dirty d) + 1 < NBUF)%nat
}.

(** The reads, in either order, then the copy. *)
Lemma copy_body {A} (k : M (st spec) A) src dst l d :
  can_copy src dst d ->
  (x ← on_dev (bdata src);
   on_dev (bstore dst x);; on_dev (bwrite dst);; on_dev (brelse src);; on_dev (brelse dst);; k)
    (MkSt l (MkBs (disk d) (view d) {[src; dst]} (dirty d) (nblocks d) (writes d))) =
  k (MkSt l (copied src dst d)).
Proof.
  intros [Hb Hs Hne Hsr Hdr Hroom Hpin].
  erewrite bind_ok_l by (apply on_dev_run, BlockSpec.bdata_run; simpl; set_solver).
  erewrite bind_ok_l by (apply on_dev_run, BlockSpec.bstore_run; simpl; set_solver). simpl.
  erewrite bind_ok_l by (apply on_dev_run, BlockSpec.bwrite_run; simpl; set_solver). simpl.
  erewrite bind_ok_l.
  2:{ apply on_dev_run, BlockSpec.brelse_run; simpl; [set_solver|].
      destruct (decide (src ∈ dirty d)); [left; set_solver|right].
      rewrite !blk_insert_ne by done. apply Hs; [rewrite Hb; set_solver|done]. }
  simpl. erewrite bind_ok_l; [|apply on_dev_run, BlockSpec.brelse_run; simpl; [set_solver|right]].
  - simpl. unfold copied. rewrite blk_insert_eq.
    replace ({[src; dst]} ∖ {[src]} ∖ {[dst]}) with (∅ : gset Z) by set_solver. done.
  - by rewrite !blk_insert_eq.
Qed.

Lemma copy_read src dst l d :
  can_copy src dst d -> ldev l = 1 -> forall a b, (a = src /\ b = dst) \/ (a = dst /\ b = src) ->
  on_dev (bread (ldev l) a) (MkSt l d) =
    Ok tt (MkSt l (MkBs (disk d) (view d) {[a]} (dirty d) (nblocks d) (writes d))) /\
  on_dev (bread (ldev l) b) (MkSt l (MkBs (disk d) (view d) {[a]} (dirty d) (nblocks d) (writes d))) =
    Ok tt (MkSt l (MkBs (disk d) (view d) {[src; dst]} (dirty d) (nblocks d) (writes d))).
Proof.
  intros [Hb Hs Hne Hsr Hdr Hroom Hpin] -> a b Hab. split; apply on_dev_run.
  - rewrite BlockSpec.bread_run; rewrite ?Hb; [|naive_solver|set_solver|].
    + by rewrite union_empty_r_L.
    + right. by rewrite union_empty_l_L.
  - rewrite BlockSpec.bread_run; simpl.
    + do 2 f_equal. destruct Hab as [[-> ->]|[-> ->]]; set_solver.
    + naive_solver.
    + destruct Hab as [[-> ->]|[-> ->]]; set_solver.
    + destruct (decide (b ∈ dirty d)); [by left|right].
      destruct (decide (a ∈ dirty d)) as [Ha|Ha].
      * by rewrite subseteq_union_1_L by set_solver.
      * rewrite size_union, size_singleton by set_solver. naive_solver lia.
Qed.

Fixpoint copies (ps : list (Z * Z)) (d : spec) : spec :=
  match ps with
  | [] => d
  | p :: ps' => copies ps' (copied p.1 p.2 d)
  end.

Record can_copies (ps : list (Z * Z)) (d : spec) : Prop := MkCans {
  cs_busy : busy d = ∅;
  cs_settled : settled d;
  cs_room : (base.size (dirty d) < NBUF)%nat;
  cs_nodup : NoDup ps.*2;
  cs_range : forall p, p ∈ ps -> 0 <= p.1 < nblocks d /\ 0 <= p.2 < nblocks d;
  cs_apart : forall p q, p ∈ ps -> q ∈ ps -> p.1 <> q.2;
  cs_pin : forall p, p ∈ ps -> p.1 ∈ dirty d \/ p.2 ∈ dirty d \/ (base.size (dirty d) + 1 < NBUF)%nat
}.

Lemma copied_settled src dst d : settled d -> busy d = ∅ -> settled (copied src dst d).
Proof.
  intros Hs Hb b _ Hd. simpl in *. destruct (decide (dst = b)) as [<-|Hne]; [by rewrite !blk_insert_eq|].
  rewrite !blk_insert_ne by done. apply Hs; set_solver.
Qed.

Lemma copies_step p ps d : can_copies (p :: ps) d ->
  can_copy p.1 p.2 d /\ can_copies ps (copied p.1 p.2 d).
Proof.
  intros [Hb Hs Hr Hnd Hrg Hap Hpin]. split.
  - split; try done; try apply Hrg; try apply Hap; try apply Hpin; set_solver.
  - assert (base.size (dirty d ∖ {[p.2]}) <= base.size (dirty d))%nat as Hsz
      by (apply subseteq_size; set_solver).
    simpl in Hnd. apply NoDup_cons in Hnd as [Hn Hnd]. split; simpl; try done.
    + by apply copied_settled.
    + lia.
    + intros q Hq. apply Hrg. set_solver.
    + intros q r Hq Hr'. apply Hap; set_solver.
    + intros q Hq. assert (q.2 <> p.2) by (intros E; apply Hn; rewrite <- E; by apply list_elem_of_fmap_2).
      assert (q.1 <> p.2) by (apply Hap; set_solver).
      destruct (Hpin q) as [?|[?|?]]; [set_solver|left; set_solver|right; left; set_solver|right; right; lia].
Qed.

(** Log block [tail + 1] with the home block of entry [tail]. *)
Fixpoint log_pairs (st : Z) (tail : nat) (bl : list Z) : list (Z * Z) :=
  match bl with
  | [] => []
  | b :: bl' => (st + Z.of_nat tail + 1, b) :: log_pairs st (tail + 1) bl'
  end.

Lemma get_block_run i l (d : spec) b : lh_block l !! i = Some b -> get_block i (MkSt l d) = Ok b (MkSt l d).
Proof. intros H. unfold get_block. simpl. by rewrite H. Qed.

Lemma install_loop_run n tail l d bl :
  ldev l = 1 -> sub tail n (lh_block l) = bl -> length bl = n ->
  can_copies (log_pairs (start l) tail bl) d ->
  install_loop tail n (MkSt l d) = Ok tt (MkSt l (copies (log_pairs (start l) tail bl) d)).
Proof.
  revert tail d bl. induction n as [|n IH]; intros tail d bl Hd Hbl Hlen Hc;
    (destruct bl as [|b bl]; simplify_eq/=); [done|].
  apply copies_step in Hc as [Hc1 Hc2]. apply sub_cons in Hbl as [Hb Hbl].
  destruct (copy_read _ _ l d Hc1 Hd (start l + Z.of_nat tail + 1) b) as [R1 R2]; [by left|].
  erewrite bind_ok_l by reflexivity. cbn [lg].
  erewrite bind_ok_l by exact R1. erewrite bind_ok_l by (apply get_block_run; exact Hb).
  erewrite bind_ok_l by exact R2. rewrite copy_body by done.
  by apply IH.
Qed.

Lemma write_log_loop_run n tail l d bl :
  ldev l = 1 -> sub tail n (lh_block l) = bl -> length bl = n ->
  can_copies (prod_swap <$> log_pairs (start l) tail bl) d ->
  write_log_loop tail n (MkSt l d) =
    Ok tt (MkSt l (copies (prod_swap <$> log_pairs (start l) tail bl) d)).
Proof.
  revert tail d bl. induction n as [|n IH]; intros tail d bl Hd Hbl Hlen Hc;
    (destruct bl as [|b bl]; simplify_eq/=); [done|].
  apply copies_step in Hc as [Hc1 Hc2]. apply sub_cons in Hbl as [Hb Hbl].
  destruct (copy_read _ _ l d Hc1 Hd (start l + Z.of_nat tail + 1) b) as [R1 R2]; [by right|].
  erewrite bind_ok_l by reflexivity. cbn [lg].
  erewrite bind_ok_l by exact R1. erewrite bind_ok_l by (apply get_block_run; exact Hb).
  erewrite bind_ok_l by exact R2. rewrite copy_body by done.
  by apply IH.
Qed.

(** The disk writes of a run of copies. *)
Definition copy_writes (v : gmap Z bytes) (ps : list (Z * Z)) : list (Z * bytes) :=
  (fun p => (p.2, blk v p.1)) <$> ps.

Lemma copies_spec ps d : busy d = ∅ -> (forall p q, p ∈ ps -> q ∈ ps -> p.1 <> q.2) ->
  copies ps d = MkBs (replay (disk d) (copy_writes (view d) ps)) (replay (view d) (copy_writes (view d) ps))
    ∅ (dirty d ∖ list_to_set ps.*2) (nblocks d) (writes d ++ copy_writes (view d) ps).
Proof.
  revert d. induction ps as [|p ps IH]; intros d Hb Hap; simpl.
  - rewrite difference_empty_L, app_nil_r. destruct d; simpl in *. by subst.
  - rewrite IH; [|done|set_solver].
    assert (copy_writes (view (copied p.1 p.2 d)) ps = copy_writes (view d) ps) as E.
    { apply list_fmap_ext. intros i q Hq. simpl. f_equal. apply blk_insert_ne. intros Hx.
      apply list_elem_of_lookup_2 in Hq. apply (Hap q p); set_solver. }
    rewrite E. simpl. rewrite <- app_assoc, difference_difference_l_L. done.
Qed.

Lemma copy_writes_fst v ps : (copy_writes v ps).*1 = ps.*2.
Proof. unfold copy_writes. by rewrite <- list_fmap_compose. Qed.

(** ** The header block *)

Fixpoint words (i : nat) (bl : list Z) (d : bytes) : bytes :=
  match bl with
  | [] => d
  | b :: bl' => words (i + 1) bl' (set_word (4 + 4 * i) b d)
  end.

(** The header block [write_head] builds over the old one. *)
Definition header (bl : list Z) (old : bytes) : bytes :=
  words 0 bl (set_word 0 (Z.of_nat (length bl)) old).

(** The block numbers a header block lists. *)
Definition hdr (x : bytes) : list Z :=
  (fun i => word (4 + 4 * i) x) <$> seq 0 (Z.to_nat (s32 (word 0 x))).

Lemma words_spec i bl d :
  (4 + 4 * (i + length bl) <= length d)%nat -> Forall (fun b => 0 <= b < 2 ^ 32) bl ->
  length (words i bl d) = length d /\
  (forall o, (o + 4 <= 4 + 4 * i)%nat -> word o (words i bl d) = word o d) /\
  (forall j b, bl !! j = Some b -> word (4 + 4 * (i + j)) (words i bl d) = b).
Proof.
  revert i d. induction bl as [|b bl IH]; intros i d Hl Hb; [done|]. cbn [words length] in *.
  apply Forall_cons in Hb as [Hb Hbl].
  assert (length (set_word (4 + 4 * i) b d) = length d) as El by (apply length_set_word; lia).
  destruct (IH (i + 1)%nat (set_word (4 + 4 * i) b d)) as (I1 & I2 & I3); [lia|done|].
  split; [lia|]. split.
  - intros o Ho. rewrite I2 by lia. apply word_set_word_ne; lia.
  - intros [|j] c Hc.
    + injection Hc as <-. rewrite Nat.add_0_r, I2 by lia. apply word_set_word_eq; [lia|done].
    + replace (i + Datatypes.S j)%nat with (i + 1 + j)%nat by lia. by apply I3.
Qed.

Lemma header_spec bl old :
  length old = Z.to_nat BSIZE -> (length bl <= Z.to_nat LOGSIZE)%nat ->
  Forall (fun b => 0 <= b < 2 ^ 32) bl ->
  length (header bl old) = Z.to_nat BSIZE /\ hdr (header bl old) = bl /\
  s32 (word 0 (header bl old)) = Z.of_nat (length bl).
Proof.
  intros Ho Hl Hb. unfold LOGSIZE, MAXOPBLOCKS, BSIZE in *.
  assert (length (set_word 0 (Z.of_nat (length bl)) old) = 512%nat) as El
    by (rewrite length_set_word; lia).
  destruct (words_spec 0 bl (set_word 0 (Z.of_nat (length bl)) old)) as (W1 & W2 & W3); [lia|done|].
  split; [unfold header; lia|]. unfold hdr, header. rewrite W2 by lia.
  rewrite word_set_word_eq, s32_small, Nat2Z.id by lia. split; [|done].
  apply list_eq. intros j. rewrite list_lookup_fmap. destruct (decide (j < length bl)%nat) as [Hj|Hj].
  - rewrite lookup_seq_lt by done. apply lookup_lt_is_Some in Hj as [b E].
    cbn [fmap option_fmap option_map]. rewrite E, (W3 j b E). done.
  - rewrite lookup_seq_ge, lookup_ge_None_2 by lia. done.
Qed.

Lemma write_head_loop_run n i d bl l (x : spec) :
  sub i n (lh_block l) = bl -> length bl = n ->
  write_head_loop i n d (MkSt l x) = Ok (words i bl d) (MkSt l x).
Proof.
  revert i d bl. induction n as [|n IH]; intros i d bl Hbl Hlen;
    (destruct bl as [|b bl]; simplify_eq/=); [done|].
  apply sub_cons in Hbl as [Hb Hbl].
  erewrite bind_ok_l by (apply get_block_run; exact Hb). by apply IH.
Qed.

(** Block [b] is written, with new contents [x]. *)
Definition written (b : Z) (x : bytes) (d : spec) : spec :=
  MkBs (<[b := x]> (disk d)) (<[b := x]> (view d)) ∅ (dirty d ∖ {[b]}) (nblocks d) (writes d ++ [(b, x)]).

Record can_read (b : Z) (d : spec) : Prop := MkCanRead {
  cr_busy : busy d = ∅;
  cr_range : 0 <= b < nblocks d;
  cr_room : b ∈ dirty d \/ (base.size (dirty d) < NBUF)%nat
}.

Lemma can_read_run b l d dv : can_read b d -> dv = 1 ->
  on_dev (bread dv b) (MkSt l d) =
    Ok tt (MkSt l (MkBs (disk d) (view d) {[b]} (dirty d) (nblocks d) (writes d))).
Proof.
  intros [Hb Hr Hc] ->. apply on_dev_run. rewrite BlockSpec.bread_run; rewrite ?Hb; [|done|set_solver|].
  - by rewrite union_empty_r_L.
  - by rewrite union_empty_l_L.
Qed.

Lemma write_head_run l d bl :
  can_read (start l) d -> ldev l = 1 -> 0 <= lh_n l ->
  take (Z.to_nat (lh_n l)) (lh_block l) = bl -> length bl = Z.to_nat (lh_n l) ->
  write_head (MkSt l d) = Ok tt (MkSt l (written (start l) (header bl (blk (view d) (start l))) d)).
Proof.
  intros Hr Hd Hn Hbl Hlen. unfold write_head. erewrite bind_ok_l by reflexivity. cbn [lg].
  erewrite bind_ok_l by (apply can_read_run; done).
  erewrite bind_ok_l by (apply on_dev_run, BlockSpec.bdata_run; simpl; set_solver). simpl.
  erewrite bind_ok_l by (apply write_head_loop_run; [exact Hbl|done]).
  erewrite bind_ok_l by (apply on_dev_run, BlockSpec.bstore_run; simpl; set_solver). simpl.
  erewrite bind_ok_l by (apply on_dev_run, BlockSpec.bwrite_run; simpl; set_solver). simpl.
  erewrite on_dev_run; [|apply BlockSpec.brelse_run; simpl; [set_solver|right]].
  - simpl. unfold written, header. rewrite blk_insert_eq, Hlen, Z2Nat.id by done.
    by rewrite difference_diag_L.
  - by rewrite !blk_insert_eq.
Qed.

Lemma read_head_loop_run n i x l (d : spec) :
  (i + n <= length (lh_block l))%nat ->
  exists bl', read_head_loop x i n (MkSt l d) = Ok tt (MkSt (set_block bl' l) d) /\
    length bl' = length (lh_block l) /\ take i bl' = take i (lh_block l) /\
    sub i n bl' = (fun j => word (4 + 4 * j) x) <$> seq i n.
Proof.
  revert i l. induction n as [|n IH]; intros i l Hl.
  - exists (lh_block l). destruct l. by split_and!.
  - cbn [read_head_loop]. set (w := word (4 + 4 * i) x).
    erewrite bind_ok_l by (unfold put_block; cbn [lg]; rewrite decide_True by lia; reflexivity).
    destruct (IH (i + 1)%nat (set_block (<[i := w]> (lh_block l)) l)) as (bl' & E & El & Et & Es);
      [simpl; len|].
    simpl in El, Et. rewrite length_insert in El. exists bl'. cbn [dk lg]. rewrite E.
    split_and!; [done|done| |].
    + replace i with (i `min` (i + 1))%nat by lia. rewrite <- !take_take, Et.
      rewrite !take_take. replace (i `min` (i + 1))%nat with i by lia. by rewrite take_insert_ge by lia.
    + rewrite (sub_S i n bl' w); [|rewrite <- (lookup_take_lt bl' (i + 1)), Et, lookup_take_lt by lia;
        apply list_lookup_insert_eq; lia].
      rewrite Es, Nat.add_1_r. done.
Qed.

(** The geometry of the log on a device of [nb] blocks. *)
Record geom (l : log) (nb : Z) : Prop := MkGeom {
  g_dev : ldev l = 1;
  g_start : 0 <= start l;
  g_end : start l + size l <= nb;
  g_size : 1 <= size l <= LOGSIZE;
  g_nb : nb <= 2 ^ 32;
  g_len : length (lh_block l) = Z.to_nat LOGSIZE
}.

Definition in_log (l : log) (b : Z) : Prop := start l <= b < start l + size l.

(** Home blocks a transaction may have. *)
Record homes (l : log) (nb : Z) (bl : list Z) : Prop := MkHomes {
  h_nodup : NoDup bl;
  h_len : Z.of_nat (length bl) <= size l - 1;
  h_range : forall b, b ∈ bl -> 0 <= b < nb /\ ~ in_log l b
}.

(** A header block that lists such home blocks. *)
Definition hdr_ok (l : log) (nb : Z) (x : bytes) : Prop :=
  0 <= s32 (word 0 x) /\ homes l nb (hdr x) /\ length x = Z.to_nat BSIZE.

Lemma length_hdr x : length (hdr x) = Z.to_nat (s32 (word 0 x)).
Proof. unfold hdr. by rewrite length_fmap, length_seq. Qed.

Lemma can_read_release b l d :
  can_read b d -> settled d ->
  on_dev (brelse b) (MkSt l (MkBs (disk d) (view d) {[b]} (dirty d) (nblocks d) (writes d))) =
    Ok tt (MkSt l d).
Proof.
  intros [Hb _ _] Hs. erewrite on_dev_run; [|apply BlockSpec.brelse_run; simpl; [set_solver|]].
  - simpl. rewrite difference_diag_L. destruct d; simpl in *. by subst.
  - destruct (decide (b ∈ dirty d)); [by left|right]. apply Hs; [rewrite Hb; set_solver|done].
Qed.

Lemma read_head_run l d :
  let x := blk (view d) (start l) in
  can_read (start l) d -> settled d -> geom l (nblocks d) -> hdr_ok l (nblocks d) x ->
  exists bl', read_head (MkSt l d) = Ok tt (MkSt (set_block bl' (set_n (s32 (word 0 x)) l)) d) /\
    length bl' = Z.to_nat LOGSIZE /\ take (length (hdr x)) bl' = hdr x.
Proof.
  intros x Hr Hs [Hdev _ _ Hsz _ Hlb] (Hn & [_ Hhl _] & _). rewrite length_hdr in Hhl.
  destruct (read_head_loop_run (Z.to_nat (s32 (word 0 x))) 0 x (set_n (s32 (word 0 x)) l)
    (MkBs (disk d) (view d) {[start l]} (dirty d) (nblocks d) (writes d))) as (bl' & E & El & _ & Es).
  { simpl. unfold LOGSIZE, MAXOPBLOCKS in *. lia. }
  exists bl'. split; [|split].
  - unfold read_head. erewrite bind_ok_l by reflexivity. cbn [lg].
    erewrite bind_ok_l by (apply can_read_run; done).
    erewrite bind_ok_l by (apply on_dev_run, BlockSpec.bdata_run; simpl; set_solver).
    erewrite bind_ok_l by reflexivity. erewrite bind_ok_l by reflexivity. cbn [lg dk].
    erewrite bind_ok_l by exact E. by apply can_read_release.
  - simpl in El. lia.
  - rewrite length_hdr. exact Es.
Qed.

(** ** Recovery *)

Lemma log_pairs_snd st t bl : (log_pairs st t bl).*2 = bl.
Proof. revert t. induction bl as [|b bl IH]; intros t; simpl; [done|]. by rewrite IH. Qed.

Lemma log_pairs_in st t bl p :
  p ∈ log_pairs st t bl <-> exists i, bl !! i = Some p.2 /\ p.1 = st + Z.of_nat (t + i) + 1.
Proof.
  revert t. induction bl as [|b bl IH]; intros t; cbn [log_pairs].
  - split; [set_solver|]. intros (i & H & _). done.
  - rewrite elem_of_cons, IH. split.
    + intros [->|(i & H1 & H2)]; [exists 0%nat; simpl; split; [done|lia]|].
      exists (Datatypes.S i). split; [done|lia].
    + intros ([|i] & H1 & H2); simpl in H1; [left|right; exists i; split; [done|lia]].
      destruct p; simplify_eq/=. f_equal. lia.
Qed.

Lemma log_pairs_fst l nb bl p : homes l nb bl -> p ∈ log_pairs (start l) 0 bl ->
  p.2 ∈ bl /\ in_log l p.1 /\ start l < p.1.
Proof.
  intros [_ Hl _] Hp. apply log_pairs_in in Hp as (i & Hi & ->).
  pose proof (lookup_lt_Some _ _ _ Hi). split; [by eapply list_elem_of_lookup_2|]. unfold in_log. lia.
Qed.

Lemma log_pairs_nodup st t bl : NoDup (log_pairs st t bl).*1.
Proof.
  revert t. induction bl as [|b bl IH]; intros t; simpl; [constructor|]. constructor; [|done].
  intros H. apply list_elem_of_fmap in H as (p & E & Hp). apply log_pairs_in in Hp as (i & _ & Hp). lia.
Qed.

Lemma install_can_copies l d bl :
  busy d = ∅ -> settled d -> geom l (nblocks d) -> homes l (nblocks d) bl ->
  (base.size (dirty d) < NBUF)%nat -> (forall b, b ∈ bl -> b ∈ dirty d) \/ (base.size (dirty d) + 1 < NBUF)%nat ->
  can_copies (log_pairs (start l) 0 bl) d.
Proof.
  intros Hb Hs [_ G1 G2 G3 _ _] Hh Hroom Hpin. split; try done.
  - rewrite log_pairs_snd. apply Hh.
  - intros p Hp. destruct (log_pairs_fst _ _ _ _ Hh Hp) as (H1 & H2 & H3). unfold in_log in H2.
    split; [lia|]. by apply (h_range _ _ _ Hh).
  - intros p q Hp Hq E. destruct (log_pairs_fst _ _ _ _ Hh Hp) as (_ & H2 & _).
    destruct (log_pairs_fst _ _ _ _ Hh Hq) as (H1 & _). apply (h_range _ _ _ Hh) in H1. rewrite E in H2. tauto.
  - intros p Hp. destruct (log_pairs_fst _ _ _ _ Hh Hp) as (H1 & _). naive_solver.
Qed.

(** The cache right after boot. *)
Record clean (d : spec) : Prop := MkClean {
  c_busy : busy d = ∅;
  c_dirty : dirty d = ∅;
  c_view : view d = disk d
}.

(** The writes of a recovery that starts from disk [dk]. *)
Definition rec_writes (l : log) (dk : gmap Z bytes) : list (Z * bytes) :=
  let x := blk dk (start l) in
  copy_writes dk (log_pairs (start l) 0 (hdr x)) ++ [(start l, header [] x)].

Lemma recover_run l d :
  clean d -> geom l (nblocks d) -> hdr_ok l (nblocks d) (blk (disk d) (start l)) ->
  exists bl', length bl' = Z.to_nat LOGSIZE /\
  recover_from_log (MkSt l d) =
    Ok tt (MkSt (set_block bl' (set_n 0 l))
             (MkBs (replay (disk d) (rec_writes l (disk d))) (replay (disk d) (rec_writes l (disk d))) ∅ ∅
                (nblocks d) (writes d ++ rec_writes l (disk d)))).
Proof.
  intros [Hb Hd Hv] G Hok. pose proof G as [G0 G1 G2 G3 G4 G5]. rewrite <- Hv in Hok.
  assert (settled d) as Hs by (intros ? _ _; by rewrite Hv).
  assert (can_read (start l) d) as Hr.
  { split; [done|lia|]. right. rewrite Hd, size_empty. unfold NBUF. lia. }
  destruct (read_head_run l d Hr Hs G Hok) as (bl' & E & El & Et). pose proof Hok as (Hn & Hh & _).
  set (x := blk (view d) (start l)) in *. exists bl'. split; [done|].
  set (l1 := set_block bl' (set_n (s32 (word 0 x)) l)) in *.
  assert (can_copies (log_pairs (start l) 0 (hdr x)) d) as Hcc.
  { apply install_can_copies; try done; [|right]; rewrite Hd, size_empty; unfold NBUF; lia. }
  unfold recover_from_log. erewrite bind_ok_l by exact E.
  unfold install_trans at 1. rewrite bind_assoc. erewrite bind_ok_l by reflexivity. cbn [lg].
  erewrite bind_ok_l.
  2:{ apply (install_loop_run _ 0 l1 d (hdr x)); simpl; try done; [|by rewrite length_hdr].
      rewrite <- length_hdr. exact Et. }
  erewrite bind_ok_l by reflexivity. cbn [lg dk].
  rewrite copies_spec by (done || apply Hcc).
  assert (blk (replay (view d) (copy_writes (view d) (log_pairs (start l) 0 (hdr x)))) (start l) = x) as Hx.
  { apply BlockSpec.replay_notin. rewrite copy_writes_fst, log_pairs_snd. intros Hi.
    apply (h_range _ _ _ Hh) in Hi as [_ Hi]. apply Hi. unfold in_log. lia. }
  rewrite (write_head_run (set_n 0 l1) _ []); [|split; simpl; [done|lia|]|done|simpl; lia|done|done].
  - simpl. rewrite Hx. unfold written, rec_writes. simpl. rewrite Hd, !empty_difference_L, !BlockSpec.replay_app,
      <- !app_assoc, Hv. simpl. subst x. by rewrite Hv.
  - right. rewrite Hd, empty_difference_L, size_empty. unfold NBUF. lia.
Qed.

(** ** Transactions *)

(** The blocks of the current transaction. *)
Definition logged (l : log) : list Z := take (Z.to_nat (lh_n l)) (lh_block l).

(** While the blocks of [B] are held: the blocks of the transaction are pinned,
    and the header on the disk is empty. *)
Record txnB (B : gset Z) (l : log) (d : spec) : Prop := MkTxn {
  t_geom : geom l (nblocks d);
  t_busy : busy d = B;
  t_settled : settled d;
  t_n : 0 <= lh_n l;
  t_homes : homes l (nblocks d) (logged l);
  t_len : length (logged l) = Z.to_nat (lh_n l);
  t_dirty : dirty d = list_to_set (logged l);
  t_blocks : forall b, length (blk (disk d) b) = Z.to_nat BSIZE;
  t_views : forall b, length (blk (view d) b) = Z.to_nat BSIZE;
  t_hdr : s32 (word 0 (blk (disk d) (start l))) = 0
}.
Arguments t_geom {B} l d _.
Arguments t_busy {B} l d _.
Arguments t_settled {B} l d _.
Arguments t_n {B} l d _.
Arguments t_homes {B} l d _.
Arguments t_len {B} l d _.
Arguments t_dirty {B} l d _.
Arguments t_blocks {B} l d _.
Arguments t_views {B} l d _.
Arguments t_hdr {B} l d _.

(** Between file-system calls nothing is held. *)
Abbreviation txn := (txnB ∅).

Definition home_writes (v : gmap Z bytes) (bl : list Z) : list (Z * bytes) :=
  (fun b => (b, blk v b)) <$> bl.
Definition log_writes (v : gmap Z bytes) (st : Z) (bl : list Z) : list (Z * bytes) :=
  copy_writes v (prod_swap <$> log_pairs st 0 bl).

(** The disk writes of a commit. *)
Definition commit_writes (l : log) (d : spec) : list (Z * bytes) :=
  let bl := logged l in
  let x := header bl (blk (disk d) (start l)) in
  log_writes (view d) (start l) bl ++ (start l, x) :: home_writes (view d) bl ++ [(start l, header [] x)].

Lemma txn_room l d : txn l d -> (base.size (dirty d) < NBUF)%nat.
Proof.
  intros H. rewrite (t_dirty _ _ H). rewrite size_list_to_set by apply (t_homes _ _ H).
  pose proof (h_len _ _ _ (t_homes _ _ H)). destruct (t_geom _ _ H) as [_ _ _ Hs _ _].
  unfold LOGSIZE, MAXOPBLOCKS, NBUF in *. lia.
Qed.

Lemma txn_start l d : txn l d -> start l ∉ dirty d.
Proof.
  intros H. rewrite (t_dirty _ _ H), elem_of_list_to_set. intros Hi.
  apply (h_range _ _ _ (t_homes _ _ H)) in Hi as [_ Hi]. apply Hi. unfold in_log.
  destruct (t_geom _ _ H) as [_ _ _ Hs _ _]. lia.
Qed.

Lemma log_writes_fst v st bl : (log_writes v st bl).*1 = (log_pairs st 0 bl).*1.
Proof. unfold log_writes. rewrite copy_writes_fst, <- list_fmap_compose. done. Qed.

Lemma length_log_writes v st bl : length (log_writes v st bl) = length bl.
Proof.
  unfold log_writes, copy_writes. rewrite !length_fmap. by rewrite <- (length_fmap snd), log_pairs_snd.
Qed.

Lemma home_writes_fst v bl : (home_writes v bl).*1 = bl.
Proof. unfold home_writes. rewrite <- list_fmap_compose. simpl. apply list_fmap_id. Qed.

(** Log blocks are neither home blocks nor the header. *)
Lemma log_writes_apart l d b : txn l d -> b ∈ (log_pairs (start l) 0 (logged l)).*1 ->
  (b ∉ logged l) /\ b <> start l /\ 0 <= b < nblocks d /\ in_log l b.
Proof.
  intros H Hb. apply list_elem_of_fmap in Hb as (p & -> & Hp).
  destruct (log_pairs_fst _ _ _ _ (t_homes _ _ H) Hp) as (_ & H2 & H3).
  destruct (t_geom _ _ H) as [_ G1 G2 _ _ _]. unfold in_log in *. split; [|lia].
  intros Hi. apply (h_range _ _ _ (t_homes _ _ H)) in Hi as [_ Hi]. by apply Hi.
Qed.

Lemma write_log_can_copies l d : txn l d ->
  can_copies (prod_swap <$> log_pairs (start l) 0 (logged l)) d.
Proof.
  intros H. pose proof (txn_room _ _ H). destruct H as [G Hb Hs Hn Hh Hlen Hd Hbk Hvw Hhdr].
  pose proof (install_can_copies l d (logged l) Hb Hs G Hh) as [_ _ _ Nd Rg Ap Pn]; [done|left|].
  { intros b Hi. rewrite Hd. by apply elem_of_list_to_set. }
  split; try done.
  - rewrite <- list_fmap_compose. apply (log_pairs_nodup (start l) 0 (logged l)).
  - intros p Hp. apply list_elem_of_fmap in Hp as ([a b] & -> & Hp). apply Rg in Hp. tauto.
  - intros p q Hp Hq. apply list_elem_of_fmap in Hp as (p' & -> & Hp), Hq as (q' & -> & Hq). simpl.
    apply not_eq_sym. by apply Ap.
  - intros p Hp. apply list_elem_of_fmap in Hp as (p' & -> & Hp). left. simpl. rewrite Hd.
    apply elem_of_list_to_set. by apply (log_pairs_fst _ _ _ _ Hh).
Qed.

Lemma write_log_run l d : txn l d ->
  let lw := log_writes (view d) (start l) (logged l) in
  write_log (MkSt l d) =
    Ok tt (MkSt l (MkBs (replay (disk d) lw) (replay (view d) lw) ∅ (dirty d) (nblocks d) (writes d ++ lw))).
Proof.
  intros H lw. pose proof (write_log_can_copies _ _ H) as Hc.
  unfold write_log. erewrite bind_ok_l by reflexivity. cbn [lg].
  rewrite (write_log_loop_run _ 0 l d (logged l)); try done; try apply H.
  rewrite copies_spec by apply Hc.
  assert (dirty d ## list_to_set (prod_swap <$> log_pairs (start l) 0 (logged l)).*2);
    [|by rewrite difference_disjoint_L].
  intros b Hb Hb'. rewrite elem_of_list_to_set, <- list_fmap_compose in Hb'.
  apply (log_writes_apart _ _ _ H) in Hb' as [Hb' _]. apply Hb'.
  rewrite (t_dirty _ _ H) in Hb. by apply elem_of_list_to_set in Hb.
Qed.

(** After the log blocks and the header are written, installing copies the
    transaction home. *)
Lemma install_writes l d x : txn l d ->
  let v := <[start l := x]> (replay (view d) (log_writes (view d) (start l) (logged l))) in
  copy_writes v (log_pairs (start l) 0 (logged l)) = home_writes (view d) (logged l).
Proof.
  intros H v. unfold home_writes, copy_writes. rewrite <- (log_pairs_snd (start l) 0 (logged l)) at 2.
  rewrite <- list_fmap_compose. apply list_fmap_ext. intros i p Hp. simpl. f_equal.
  apply list_elem_of_lookup_2 in Hp. subst v.
  destruct (log_writes_apart _ _ p.1 H) as (_ & Hne & _); [by apply list_elem_of_fmap_2|].
  rewrite blk_insert_ne by done. apply BlockSpec.replay_in.
  - rewrite log_writes_fst. apply log_pairs_nodup.
  - unfold log_writes, copy_writes. rewrite <- list_fmap_compose.
    apply list_elem_of_fmap. by exists p.
Qed.

(** The state once the header is on the disk: the commit point. *)
Definition at_commit (l : log) (d : spec) : spec :=
  let lw := log_writes (view d) (start l) (logged l) in
  let x := header (logged l) (blk (disk d) (start l)) in
  MkBs (<[start l := x]> (replay (disk d) lw)) (<[start l := x]> (replay (view d) lw)) ∅ (dirty d)
    (nblocks d) ((writes d ++ lw) ++ [(start l, x)]).

Lemma log_writes_start v l d : txn l d -> start l ∉ (log_writes v (start l) (logged l)).*1.
Proof. intros H. rewrite log_writes_fst. intros Hi. apply (log_writes_apart _ _ _ H) in Hi. tauto. Qed.

Lemma at_commit_run l d : txn l d ->
  (write_log;; write_head) (MkSt l d) = Ok tt (MkSt l (at_commit l d)).
Proof.
  intros H. pose proof (txn_room _ _ H) as Hroom. pose proof (txn_start _ _ H) as Hst.
  pose proof (t_geom _ _ H) as [G0 G1 G2 G3 G4 G5].
  erewrite bind_ok_l by (apply write_log_run; done).
  erewrite (write_head_run l _ (logged l)); [|split; simpl; [done|lia|by right]|done|apply H|done|apply H].
  unfold written, at_commit. simpl. rewrite BlockSpec.replay_notin by (by eapply log_writes_start).
  rewrite (t_settled _ _ H) by (rewrite ?(t_busy _ _ H); set_solver).
  by replace (dirty d ∖ {[start l]}) with (dirty d) by set_solver.
Qed.

Lemma replay_agree (d1 d2 : gmap Z bytes) ws b :
  (b ∉ ws.*1 -> blk d1 b = blk d2 b) -> blk (replay d1 ws) b = blk (replay d2 ws) b.
Proof.
  revert d1 d2. induction ws as [|w ws IH]; intros d1 d2 H; [apply H; set_solver|].
  simpl. apply IH. intros Hb. rewrite !blk_insert. case_decide; [done|]. apply H. set_solver.
Qed.

Lemma replay_length d ws b n :
  (forall c, length (blk d c) = n) -> Forall (fun w => length w.2 = n) ws -> length (blk (replay d ws) b) = n.
Proof.
  intros Hd Hw. revert d Hd. induction Hw as [|w ws Hx Hw IH]; intros d Hd; [done|].
  simpl. apply IH. intros c. rewrite blk_insert. by case_decide.
Qed.

Lemma at_commit_can_copies l d : txn l d ->
  can_copies (log_pairs (start l) 0 (logged l)) (at_commit l d).
Proof.
  intros H. apply install_can_copies; try done; try apply H; [|exact (txn_room l d H)|left].
  - intros b _ Hb. simpl in *. rewrite !blk_insert. case_decide; [done|].
    apply replay_agree. intros _.
    apply (t_settled _ _ H); [rewrite (t_busy _ _ H); set_solver|done].
  - intros b Hi. simpl. rewrite (t_dirty _ _ H). by apply elem_of_list_to_set.
Qed.

Lemma commit_run l d : txn l d -> 0 < lh_n l ->
  let ws := commit_writes l d in
  commit (MkSt l d) =
    Ok tt (MkSt (set_n 0 l) (MkBs (replay (disk d) ws) (replay (view d) ws) ∅ ∅ (nblocks d) (writes d ++ ws))).
Proof.
  intros H Hn ws. pose proof (at_commit_can_copies l d H) as Hc. pose proof (t_geom _ _ H) as [G0 G1 G2 G3 G4 G5].
  unfold commit. erewrite bind_ok_l by reflexivity. cbn [lg].
  rewrite (proj2 (Z.ltb_lt 0 (lh_n l))) by done. cbn [when]. rewrite <- bind_assoc.
  erewrite bind_ok_l by (by apply at_commit_run).
  unfold install_trans at 1. rewrite bind_assoc. erewrite bind_ok_l by reflexivity. cbn [lg].
  erewrite bind_ok_l by (apply (install_loop_run _ 0 l (at_commit l d) (logged l)); done || apply H).
  erewrite bind_ok_l by reflexivity. cbn [lg dk]. rewrite copies_spec by apply Hc.
  cbn [disk view dirty nblocks writes at_commit]. rewrite install_writes, log_pairs_snd by done.
  rewrite (write_head_run (set_n 0 l) _ []); simpl; try done; [|split; simpl; [done|lia|right]].
  - unfold written. simpl. rewrite BlockSpec.replay_notin.
    2:{ rewrite home_writes_fst. pose proof (txn_start _ _ H) as Hs. rewrite (t_dirty _ _ H) in Hs.
        by rewrite elem_of_list_to_set in Hs. }
    rewrite blk_insert_eq. subst ws. unfold commit_writes.
    rewrite !BlockSpec.replay_app, <- !app_assoc, (t_dirty _ _ H). simpl.
    rewrite !BlockSpec.replay_app, difference_diag_L, empty_difference_L. done.
  - rewrite (t_dirty _ _ H), difference_diag_L, size_empty. unfold NBUF. lia.
Qed.

(** ** Crashes

    The disk a crash leaves holds a prefix of the writes. *)

(** The disk after recovery from [dk]. *)
Definition recovered (l : log) (dk : gmap Z bytes) : gmap Z bytes := replay dk (rec_writes l dk).

Lemma rec_home l nb dk i b : geom l nb -> hdr_ok l nb (blk dk (start l)) ->
  hdr (blk dk (start l)) !! i = Some b ->
  blk (recovered l dk) b = blk dk (start l + Z.of_nat i + 1).
Proof.
  intros [_ _ _ G3 _ _] (_ & Hh & _) Hi. pose proof (list_elem_of_lookup_2 _ _ _ Hi) as Hb.
  apply (h_range _ _ _ Hh) in Hb as [_ Hb].
  unfold recovered, rec_writes. rewrite BlockSpec.replay_app. simpl.
  rewrite blk_insert_ne by (intros E; apply Hb; unfold in_log; lia).
  apply BlockSpec.replay_in; [rewrite copy_writes_fst, log_pairs_snd; apply Hh|].
  apply list_elem_of_fmap. exists (start l + Z.of_nat i + 1, b). split; [done|].
  apply log_pairs_in. exists i. split; [done|]. simpl. lia.
Qed.

Lemma rec_other l dk b : b ∉ hdr (blk dk (start l)) -> b <> start l ->
  blk (recovered l dk) b = blk dk b.
Proof.
  intros Hb Hs. unfold recovered, rec_writes. rewrite BlockSpec.replay_app. simpl.
  rewrite blk_insert_ne by done. apply BlockSpec.replay_notin. by rewrite copy_writes_fst, log_pairs_snd.
Qed.

Lemma hdr_nil x : s32 (word 0 x) = 0 -> hdr x = [].
Proof. intros H. unfold hdr. by rewrite H. Qed.

Lemma hdr_ok_nil l nb x : geom l nb -> length x = Z.to_nat BSIZE -> s32 (word 0 x) = 0 -> hdr_ok l nb x.
Proof.
  intros G Hl H. split; [lia|]. split; [|done]. rewrite hdr_nil by done. destruct G as [_ _ _ G3 _ _].
  split; [constructor|simpl; lia|set_solver].
Qed.

Lemma header_nil x : length x = Z.to_nat BSIZE ->
  length (header [] x) = Z.to_nat BSIZE /\ s32 (word 0 (header [] x)) = 0.
Proof.
  intros H. unfold header, BSIZE in *. cbn [words length]. rewrite length_set_word, word_set_word_eq by lia. done.
Qed.

Lemma not_log_start l nb b : geom l nb -> ~ in_log l b -> b <> start l.
Proof. intros [_ _ _ G3 _ _] H E. apply H. unfold in_log. lia. Qed.

(** Crash during recovery: recovering again gives the same file system. *)
Lemma recovery_crash l nb dk k :
  geom l nb -> hdr_ok l nb (blk dk (start l)) ->
  let dk' := replay dk (take k (rec_writes l dk)) in
  hdr_ok l nb (blk dk' (start l)) /\
  forall b, ~ in_log l b -> blk (recovered l dk') b = blk (recovered l dk) b.
Proof.
  intros G Hok dk'. pose proof Hok as (Hn & Hh & Hlx). set (x := blk dk (start l)) in *.
  set (cw := copy_writes dk (log_pairs (start l) 0 (hdr x))).
  assert (rec_writes l dk = cw ++ [(start l, header [] x)]) as Ew by done.
  assert (cw.*1 = hdr x) as Ecw by (subst cw; by rewrite copy_writes_fst, log_pairs_snd).
  destruct (decide (k <= length cw)%nat) as [Hk|Hk].
  - assert (dk' = replay dk (take k cw)) as Ed by (subst dk'; by rewrite Ew, take_app_le).
    assert (forall b, in_log l b -> blk dk' b = blk dk b) as Hsame.
    { intros b Hb. rewrite Ed. apply BlockSpec.replay_notin. intros Hi. rewrite fmap_take, Ecw in Hi.
      apply elem_of_take in Hi as (i & Hi & _). apply list_elem_of_lookup_2, (h_range _ _ _ Hh) in Hi. tauto. }
    assert (in_log l (start l)) as Hst by (destruct G; unfold in_log; lia).
    assert (blk dk' (start l) = x) as Ex by (by apply Hsame).
    split; [by rewrite Ex|]. intros b Hb. destruct (decide (b ∈ hdr x)) as [Hi|Hi].
    + apply list_elem_of_lookup in Hi as [i Hi]. rewrite !(rec_home l nb _ i b) by (done || by rewrite Ex).
      apply Hsame. apply lookup_lt_Some in Hi. destruct Hh as [_ Hh _]. unfold in_log. lia.
    + pose proof (not_log_start _ _ _ G Hb). rewrite !rec_other by (done || by rewrite Ex).
      rewrite Ed. apply BlockSpec.replay_notin. rewrite fmap_take, Ecw. intros Hx.
      apply elem_of_take in Hx as (i & Hx & _). by apply list_elem_of_lookup_2 in Hx.
  - assert (dk' = recovered l dk) as -> by (subst dk'; rewrite take_ge; [done|rewrite Ew, length_app; simpl; lia]).
    assert (blk (recovered l dk) (start l) = header [] x) as Ex.
    { unfold recovered. rewrite Ew, BlockSpec.replay_app. apply blk_insert_eq. }
    destruct (header_nil x Hlx) as [E1 E2]. rewrite Ex. split; [by apply hdr_ok_nil|].
    intros b Hb. apply rec_other; [rewrite Ex, hdr_nil by done; set_solver|by eapply not_log_start].
Qed.

Lemma blk_other l d b ws : txn l d -> ~ in_log l b -> b ∉ logged l ->
  ws.*1 ⊆ (log_pairs (start l) 0 (logged l)).*1 ++ start l :: logged l ->
  blk (replay (disk d) ws) b = blk (view d) b.
Proof.
  intros H Hb Hn Hws. rewrite BlockSpec.replay_notin.
  - symmetry. apply (t_settled _ _ H); [rewrite (t_busy _ _ H); set_solver|].
    rewrite (t_dirty _ _ H). by rewrite elem_of_list_to_set.
  - intros Hi. apply Hws in Hi. apply elem_of_app in Hi as [Hi|Hi].
    + apply (log_writes_apart _ _ _ H) in Hi. tauto.
    + apply elem_of_cons in Hi as [Hi|Hi]; [|done]. by eapply not_log_start in Hi; [|apply H|].
Qed.

(** Before the header is written: the old file system. *)
Lemma crash_before l d k : txn l d -> (k <= length (logged l))%nat ->
  let dk := replay (disk d) (take k (commit_writes l d)) in
  hdr_ok l (nblocks d) (blk dk (start l)) /\
  forall b, ~ in_log l b -> blk (recovered l dk) b = blk (disk d) b.
Proof.
  intros H Hk dk. set (lw := log_writes (view d) (start l) (logged l)).
  assert (length lw = length (logged l)) as Hlw by apply length_log_writes.
  assert (dk = replay (disk d) (take k lw)) as ->
    by (subst dk; unfold commit_writes; rewrite take_app_le; [done|fold lw; lia]).
  assert (forall b, b = start l \/ ~ in_log l b -> blk (replay (disk d) (take k lw)) b = blk (disk d) b) as Hsame.
  { intros b Hb. apply BlockSpec.replay_notin. rewrite fmap_take. intros Hi.
    apply elem_of_take in Hi as (i & Hi & _). apply list_elem_of_lookup_2 in Hi. subst lw.
    rewrite log_writes_fst in Hi. apply (log_writes_apart _ _ _ H) in Hi. tauto. }
  rewrite Hsame by auto. split; [apply hdr_ok_nil; apply H|].
  intros b Hb. rewrite rec_other; [auto| |by eapply not_log_start; [apply H|]].
  rewrite Hsame, hdr_nil by (auto || apply H). set_solver.
Qed.

Lemma txn_header l d : txn l d ->
  let x := header (logged l) (blk (disk d) (start l)) in
  hdr x = logged l /\ hdr_ok l (nblocks d) x /\ length x = Z.to_nat BSIZE.
Proof.
  intros H x. pose proof (t_homes _ _ H) as Hh. pose proof (t_geom _ _ H) as [G0 G1 G2 G3 G4 G5].
  destruct (header_spec (logged l) (blk (disk d) (start l))) as (Hl & Hx & Hn).
  - apply H.
  - destruct Hh as [_ Hh _]. unfold LOGSIZE, MAXOPBLOCKS in *. lia.
  - apply Forall_forall. intros b Hb. apply (h_range _ _ _ Hh) in Hb. lia.
  - fold x in Hl, Hx, Hn. split_and!; try done. split; [lia|]. by rewrite Hx.
Qed.

Lemma txn_start_home l d : txn l d -> start l ∉ logged l.
Proof.
  intros H Hi. apply (h_range _ _ _ (t_homes _ _ H)) in Hi as [_ Hi]. by eapply not_log_start in Hi; [|apply H].
Qed.

(** Once the header is written, and some home blocks: the new file system. *)
Lemma crash_installing l d j : txn l d ->
  let x := header (logged l) (blk (disk d) (start l)) in
  let dk := replay (disk d) (log_writes (view d) (start l) (logged l) ++
              (start l, x) :: take j (home_writes (view d) (logged l))) in
  hdr_ok l (nblocks d) (blk dk (start l)) /\
  forall b, ~ in_log l b -> blk (recovered l dk) b = blk (view d) b.
Proof.
  intros H x dk. destruct (txn_header l d H) as (Hx & Hokx & Hlx). fold x in Hx, Hokx, Hlx.
  set (lw := log_writes (view d) (start l) (logged l)) in *.
  set (hw := take j (home_writes (view d) (logged l))) in *.
  assert (hw.*1 ⊆ logged l) as Ehw.
  { subst hw. rewrite fmap_take, home_writes_fst. intros b Hb. apply elem_of_take in Hb as (i & Hi & _).
    by apply list_elem_of_lookup_2 in Hi. }
  assert (blk dk (start l) = x) as Ex.
  { subst dk. rewrite BlockSpec.replay_app. simpl. rewrite BlockSpec.replay_notin, blk_insert_eq; [done|].
    intros Hi. by apply Ehw, (txn_start_home l d H) in Hi. }
  rewrite Ex. split; [done|]. intros b Hb. destruct (decide (b ∈ logged l)) as [Hi|Hi].
  - apply list_elem_of_lookup in Hi as [i Hi].
    assert ((start l + Z.of_nat i + 1, b) ∈ log_pairs (start l) 0 (logged l)) as Hp
      by (apply log_pairs_in; exists i; split; [done|simpl; lia]).
    destruct (log_writes_apart _ _ (start l + Z.of_nat i + 1) H) as (N1 & N2 & _);
      [by apply (list_elem_of_fmap_2 fst) in Hp|].
    rewrite (rec_home l (nblocks d) _ i b); [|apply H|by rewrite Ex|by rewrite Ex, Hx].
    subst dk. rewrite BlockSpec.replay_app. simpl. rewrite BlockSpec.replay_notin by set_solver.
    rewrite blk_insert_ne by done. apply BlockSpec.replay_in.
    + subst lw. rewrite log_writes_fst. apply log_pairs_nodup.
    + subst lw. unfold log_writes, copy_writes. rewrite <- list_fmap_compose.
      apply list_elem_of_fmap. eexists. split; [|exact Hp]. done.
  - rewrite rec_other by (rewrite ?Ex, ?Hx; done || by eapply not_log_start; [apply H|]).
    apply (blk_other l d b _ H Hb Hi). rewrite fmap_app. simpl. subst lw. rewrite log_writes_fst. set_solver.
Qed.

(** All of it written. *)
Lemma crash_done l d : txn l d ->
  let dk := replay (disk d) (commit_writes l d) in
  hdr_ok l (nblocks d) (blk dk (start l)) /\
  (forall b, ~ in_log l b -> blk dk b = blk (view d) b) /\
  forall b, ~ in_log l b -> blk (recovered l dk) b = blk (view d) b.
Proof.
  intros H dk. destruct (txn_header l d H) as (_ & _ & Hlx).
  unfold commit_writes in dk. set (x := header _ _) in *. set (lw := log_writes _ _ _) in *.
  set (hw := home_writes _ _) in *. destruct (header_nil x Hlx) as [E1 E2].
  assert (blk dk (start l) = header [] x) as Ex.
  { subst dk. rewrite app_comm_cons, app_assoc, BlockSpec.replay_app. apply blk_insert_eq. }
  assert (forall b, ~ in_log l b -> blk dk b = blk (view d) b) as Hv.
  { intros b Hb. destruct (decide (b ∈ logged l)) as [Hi|Hi].
    - subst dk. rewrite app_comm_cons, app_assoc, BlockSpec.replay_app. simpl.
      rewrite blk_insert_ne by (apply not_eq_sym; eapply not_log_start; [apply H|done]).
      rewrite BlockSpec.replay_app. simpl. apply BlockSpec.replay_in.
      + subst hw. rewrite home_writes_fst. apply H.
      + apply list_elem_of_fmap. by exists b.
    - apply (blk_other l d b _ H Hb Hi). rewrite fmap_app, fmap_cons, fmap_app. subst lw hw.
      rewrite log_writes_fst, home_writes_fst. simpl. set_solver. }
  rewrite Ex. split; [apply hdr_ok_nil; [apply H|done|done]|]. split; [done|].
  intros b Hb. rewrite rec_other; [auto|rewrite Ex, hdr_nil by done; set_solver|by eapply not_log_start; [apply H|]].
Qed.

(** A crash after any number [k] of the disk writes of a commit. *)
Lemma commit_crash l d k : txn l d ->
  let dk := replay (disk d) (take k (commit_writes l d)) in
  hdr_ok l (nblocks d) (blk dk (start l)) /\
  forall b, ~ in_log l b -> blk (recovered l dk) b =
    if decide (k <= length (logged l))%nat then blk (disk d) b else blk (view d) b.
Proof.
  intros H dk. case_decide as Hk; [by apply crash_before|].
  set (lw := log_writes (view d) (start l) (logged l)). set (hw := home_writes (view d) (logged l)).
  assert (length lw = length (logged l)) as Hlw by apply length_log_writes.
  assert (length hw = length (logged l)) as Hhw by apply length_fmap.
  destruct (decide (k <= length (logged l) + 1 + length (logged l))%nat) as [Hk2|Hk2].
  - assert (take k (commit_writes l d) = lw ++ (start l, header (logged l) (blk (disk d) (start l)))
      :: take (k - length (logged l) - 1) hw) as E.
    { unfold commit_writes. fold lw hw. rewrite take_app_ge by lia. f_equal.
      replace (k - length lw)%nat with (Datatypes.S (k - length (logged l) - 1)) by lia. simpl. f_equal.
      by rewrite take_app_le by lia. }
    subst dk. rewrite E. by apply crash_installing.
  - subst dk. rewrite take_ge; [destruct (crash_done l d H) as (? & _ & ?); done|].
    unfold commit_writes. fold lw hw. rewrite !length_app. simpl. rewrite length_app. simpl. lia.
Qed.

(** A commit leaves an empty transaction, and everything on the disk. *)
Lemma commit_txn l d : txn l d -> 0 < lh_n l ->
  exists d', commit (MkSt l d) = Ok tt (MkSt (set_n 0 l) d') /\ txn (set_n 0 l) d' /\
    nblocks d' = nblocks d /\ writes d' = writes d ++ commit_writes l d /\
    forall b, ~ in_log l b -> blk (disk d') b = blk (view d) b /\ blk (view d') b = blk (view d) b.
Proof.
  intros H Hn. rewrite (commit_run l d H Hn). eexists. split; [done|].
  destruct (txn_header l d H) as (_ & _ & Hlx). destruct (header_nil _ Hlx) as [E1 E2].
  assert (Forall (fun w => length w.2 = Z.to_nat BSIZE) (commit_writes l d)) as Hws.
  { unfold commit_writes, log_writes, home_writes, copy_writes.
    apply Forall_app. split; [|constructor; [done|]; apply Forall_app; split; [|repeat constructor; done]];
      apply Forall_fmap, Forall_forall; intros; apply (t_views _ _ H). }
  assert (forall b, blk (replay (disk d) (commit_writes l d)) b = blk (replay (view d) (commit_writes l d)) b)
    as Hagree.
  { intros b. apply replay_agree. intros Hb. symmetry. apply (t_settled _ _ H).
    - rewrite (t_busy _ _ H). set_solver.
    - rewrite (t_dirty _ _ H), elem_of_list_to_set. intros Hi. apply Hb. unfold commit_writes.
      rewrite fmap_app, fmap_cons, fmap_app, home_writes_fst. set_solver. }
  destruct (crash_done l d H) as (_ & Hv & _).
  split; [|split; [done|split; [done|]]].
  - split; simpl; try done.
    + destruct (t_geom _ _ H). by split.
    + intros b _ _. simpl. by rewrite Hagree.
    + split; unfold logged; simpl; [constructor|destruct (t_geom _ _ H); simpl in *; lia|set_solver].
    + intros b. apply replay_length; [apply H|done].
    + intros b. rewrite <- Hagree. apply replay_length; [apply H|done].
    + unfold commit_writes. rewrite app_comm_cons, app_assoc, BlockSpec.replay_app. simpl. by rewrite blk_insert_eq.
  - intros b Hb. simpl. rewrite <- Hagree. split; by apply Hv.
Qed.

(** ** Operations *)

Lemma find_block_spec b bl n :
  (n <= length bl)%nat -> let i := find_block b bl n in
  (i <= n)%nat /\ (i < n -> bl !! i = Some b)%nat /\ (i = n -> b ∉ take n bl).
Proof.
  revert n. induction bl as [|c bl IH]; intros [|n] Hn; simpl in *; try (split_and!; [lia|lia|set_solver]).
  destruct (IH n) as (I1 & I2 & I3); [lia|]. destruct (Z.eqb_spec c b) as [->|Hne].
  - split_and!; [lia|done|lia].
  - split_and!; [lia|intros; apply I2; lia|]. intros E. specialize (I3 ltac:(lia)). set_solver.
Qed.

(** Pinning a held home block that the transaction lists. *)
Lemma txn_pin B l d b n' bl' :
  txnB B l d -> b ∈ B -> 0 <= b < nblocks d -> ~ in_log l b ->
  0 <= n' <= size l - 1 -> length bl' = length (lh_block l) ->
  NoDup (take (Z.to_nat n') bl') ->
  (forall c, c ∈ take (Z.to_nat n') bl' <-> c = b \/ c ∈ logged l) ->
  txnB B (set_n n' (set_block bl' l))
    (MkBs (disk d) (view d) (busy d) ({[b]} ∪ dirty d) (nblocks d) (writes d)).
Proof.
  intros [G Hb Hs Hn Hh Hlen Hd Hbk Hvw Hhdr] Hbb Hr Hil Hn' Hbl Hnd Hel.
  pose proof G as [G0 G1 G2 G3 G4 G5]. unfold LOGSIZE, MAXOPBLOCKS in *.
  assert (length (take (Z.to_nat n') bl') = Z.to_nat n') as Hl' by (rewrite length_take; lia).
  split; simpl; try done.
  - split; simpl; try done. unfold LOGSIZE, MAXOPBLOCKS. lia.
  - intros c Hc1 Hc2. simpl in *. apply Hs; set_solver.
  - lia.
  - split; unfold logged; simpl; [done|lia|]. intros c [->|Hc]%Hel; [done|]. by apply (h_range _ _ _ Hh).
  - apply set_eq. intros c. unfold logged. simpl. rewrite elem_of_list_to_set, Hel, Hd. set_solver.
Qed.

Lemma log_write_eq l d b :
  llock l = false -> 1 <= outstanding l -> 0 <= lh_n l < size l - 1 -> lh_n l < LOGSIZE ->
  length (lh_block l) = Z.to_nat LOGSIZE -> b ∈ busy d ->
  let i := find_block b (lh_block l) (Z.to_nat (lh_n l)) in
  log_write b (MkSt l d) =
    Ok tt (MkSt (set_n (if Z.of_nat i =? lh_n l then lh_n l + 1 else lh_n l)
                   (set_block (<[i := b]> (lh_block l)) l))
             (MkBs (disk d) (view d) (busy d) ({[b]} ∪ dirty d) (nblocks d) (writes d))).
Proof.
  intros Hlk Ho Hn Hn2 Hlen Hb i. unfold log_write. erewrite bind_ok_l by reflexivity. cbn [lg].
  rewrite (proj2 (Z.leb_gt _ _)), (proj2 (Z.leb_gt _ _)) by lia. cbn [orb].
  rewrite (proj2 (Z.ltb_ge _ _)) by lia. cbv iota beta.
  erewrite bind_ok_l by (unfold acquire, Seq.acquire; cbn [lg]; rewrite Hlk; reflexivity).
  erewrite bind_ok_l by reflexivity. cbn [lg lh_block lh_n set_llock]. fold i.
  destruct (find_block_spec b (lh_block l) (Z.to_nat (lh_n l))) as (I1 & _ & _); [lia|]. fold i in I1.
  erewrite bind_ok_l by (unfold put_block; cbn [lg lh_block set_llock]; rewrite decide_True by lia; reflexivity).
  destruct l as [lk st sz ot cm dv n bl wk]; simpl in *; subst lk.
  destruct (Z.of_nat i =? n); simpl.
  - erewrite bind_ok_l by reflexivity. erewrite bind_ok_l by (apply on_dev_run, BlockSpec.bpin_run; done). done.
  - erewrite bind_ok_l by reflexivity. erewrite bind_ok_l by (apply on_dev_run, BlockSpec.bpin_run; done). done.
Qed.

(** [log_write] of a held home block adds it to the transaction, once. *)
Lemma log_write_run B l d b :
  txnB B l d -> llock l = false -> 1 <= outstanding l -> lh_n l < size l - 1 ->
  b ∈ B -> 0 <= b < nblocks d -> ~ in_log l b ->
  exists n' bl', let l' := set_n n' (set_block bl' l) in
    let d' := MkBs (disk d) (view d) (busy d) ({[b]} ∪ dirty d) (nblocks d) (writes d) in
    log_write b (MkSt l d) = Ok tt (MkSt l' d') /\ txnB B l' d' /\
    logged l' = (if decide (b ∈ logged l) then logged l else logged l ++ [b]).
Proof.
  intros H Hlk Ho Hn Hb Hr Hil. pose proof (t_geom _ _ H) as [G0 G1 G2 G3 G4 G5]. pose proof (t_n _ _ H) as Hn0.
  pose proof (t_homes _ _ H) as [Hnd _ _].
  destruct (find_block_spec b (lh_block l) (Z.to_nat (lh_n l))) as (I1 & I2 & I3); [lia|].
  eexists _, _. cbv zeta. rewrite log_write_eq by (rewrite ?(t_busy _ _ H); done || lia). split; [done|].
  set (i := find_block b (lh_block l) (Z.to_nat (lh_n l))) in *.
  destruct (Z.eqb_spec (Z.of_nat i) (lh_n l)) as [Ei|Ei].
  - assert (i = Z.to_nat (lh_n l)) as Ei' by lia. specialize (I3 Ei').
    assert (take (Z.to_nat (lh_n l + 1)) (<[i := b]> (lh_block l)) = logged l ++ [b]) as El.
    { replace (Z.to_nat (lh_n l + 1)) with (Datatypes.S i) by lia.
      rewrite (take_S_r _ _ b) by (apply list_lookup_insert_eq; lia).
      rewrite take_insert_ge by lia. unfold logged. by rewrite Ei'. }
    rewrite decide_False by done. unfold logged at 1. simpl. split; [|done].
    apply (txn_pin B l d b); try done; [lia|len| |]; rewrite El.
    + apply NoDup_app. split_and!; [done|set_solver|apply NoDup_singleton].
    + set_solver.
  - assert (<[i := b]> (lh_block l) = lh_block l) as -> by (apply list_insert_id, I2; lia).
    assert (b ∈ logged l) as Hbl.
    { apply list_elem_of_lookup. exists i. unfold logged. rewrite lookup_take_lt by lia. apply I2. lia. }
    rewrite decide_True by done. split; [|done]. apply (txn_pin B l d b); try done; [lia|].
    intros c. unfold logged in *. set_solver.
Qed.

(** [begin_op] and [end_op] on an unlocked log. *)
Lemma begin_op_run l (d : spec) : llock l = false ->
  begin_op (MkSt l d) =
    if truthy (committing l) || (LOGSIZE <? lh_n l + (outstanding l + 1) * MAXOPBLOCKS)
    then Sleep ChLog (MkSt l d)
    else Ok tt (MkSt (set_outstanding (outstanding l + 1) l) d).
Proof.
  intros Hl. destruct l as [lk st sz ot cm dv n bl wk]; simpl in *; subst lk.
  unfold begin_op, mbind, M_bind, acquire, Seq.acquire, gets. simpl.
  destruct (truthy cm); [done|]. simpl. by destruct (LOGSIZE <? _).
Qed.

Lemma end_op_last l d : txn l d -> llock l = false -> outstanding l = 1 -> committing l = 0 ->
  exists d', end_op (MkSt l d) = Ok tt (MkSt (wake (set_n 0 (set_outstanding 0 l))) d') /\
    txn (wake (set_n 0 (set_outstanding 0 l))) d' /\ nblocks d' = nblocks d /\
    forall b, ~ in_log l b -> blk (disk d') b = blk (view d) b /\ blk (view d') b = blk (view d) b.
Proof.
  intros H Hl Ho Hc. unfold end_op.
  erewrite bind_ok_l by (unfold acquire, Seq.acquire; cbn [lg]; rewrite Hl; reflexivity).
  erewrite bind_ok_l by reflexivity. erewrite bind_ok_l by reflexivity. erewrite bind_ok_l by reflexivity.
  destruct l as [lk st sz ot cm dv n bl wk]; simpl in *; subst lk ot cm.
  change (truthy 0) with false. change (1 - 1 =? 0) with true. cbv iota.
  erewrite bind_ok_l by reflexivity. erewrite bind_ok_l by reflexivity. cbn [when].
  set (l1 := MkLog false st sz 0 1 dv n bl wk).
  assert (txn l1 d) as H1 by (destruct H as [[] ? ? ? [] ? ? ? ? ?]; by repeat (split; try done)).
  destruct (Z.ltb_spec 0 n) as [Hn|Hn].
  - destruct (commit_txn l1 d H1 Hn) as (d' & E & H' & Hnb & _ & Hv).
    erewrite bind_ok_l by exact E. simpl. exists d'. split; [done|].
    split; [|done]. destruct H' as [[] ? ? ? [] ? ? ? ? ?]; by repeat (split; try done).
  - assert (n = 0) as -> by (pose proof (t_n _ _ H1); simpl in *; lia).
    erewrite bind_ok_l by reflexivity.
    exists d. split; [done|]. split; [destruct H as [[] ? ? ? [] ? ? ? ? ?]; by repeat (split; try done)|].
    split; [done|]. intros b Hb. split; [|done]. symmetry. apply (t_settled _ _ H).
    + rewrite (t_busy _ _ H). set_solver.
    + rewrite (t_dirty _ _ H). unfold logged. simpl. set_solver.
Qed.

(** ** Correctness over the buffer cache *)

(** A machine that boots from a disk image: the cache and the log come up. *)
Definition reboot (img : gmap Z bytes) (sz : Z) : outcome (st Bio.bcache) unit :=
  match Bio.binit (Bio.boot img sz) with
  | Ok _ c => initlog 1 (MkSt log0 c)
  | _ => Fault
  end.

(** The superblock in block 1 of [img] describes the log [l]. *)
Definition sb_ok (l : log) (img : gmap Z bytes) : Prop :=
  sb_logstart (decode_sb (blk img 1)) = start l /\ sb_nlog (decode_sb (blk img 1)) = size l /\
  ldev l = 1 /\ 1 < start l < 2 ^ 31.

Lemma boot_clean img sz : clean (Bio.boot_spec img sz).
Proof. by split. Qed.

Lemma initlog_run (l : log) (d : spec) :
  clean d -> sb_ok l (disk d) -> 1 < nblocks d -> 1 <= size l <= LOGSIZE ->
  initlog 1 (MkSt log0 d) = recover_from_log (MkSt (set_geometry (start l) (size l) 1 log0) d).
Proof.
  intros [Cb Cd Cv] (S1 & S2 & S3 & S4) Hnb Hsz. unfold LOGSIZE, MAXOPBLOCKS in *.
  assert (can_read 1 d) as Hr by (split; [done|lia|right; rewrite Cd, size_empty; unfold NBUF; lia]).
  unfold initlog. change (BSIZE <=? logheader_size) with false. cbv iota.
  erewrite bind_ok_l by reflexivity. unfold readsb. rewrite !bind_assoc.
  erewrite bind_ok_l by (by apply can_read_run). rewrite bind_assoc.
  erewrite bind_ok_l by (apply on_dev_run, BlockSpec.bdata_run; simpl; set_solver). rewrite bind_assoc.
  erewrite bind_ok_l by (apply (can_read_release 1 _ d); [done|intros ? _ _; by rewrite Cv]).
  erewrite bind_ok_l by reflexivity. cbn [BlockSpec.view dk]. rewrite Cv, S1, S2, !s32_small by lia. done.
Qed.

Lemma reboot_run l img sz :
  geom l sz -> sb_ok l img -> hdr_ok l sz (blk img (start l)) ->
  exists r, reboot img sz = Ok tt r /\ Bio.memdisk (dk r) = recovered l img /\
    Bio.writes (dk r) = rec_writes l img /\ Bio.disksize (dk r) = sz.
Proof.
  intros G Hsb Hok. unfold reboot. destruct (Bio.binit_rep img sz) as (c & lst & -> & Hrep & _).
  set (l1 := set_geometry (start l) (size l) 1 log0). set (d := Bio.boot_spec img sz).
  destruct (recover_run l1 d (boot_clean img sz)) as (bl' & _ & E).
  { destruct G. by split. }
  { destruct Hok as (? & [] & ?). split; [done|]. split; [|done]. by split. }
  assert (initlog 1 (MkSt log0 d) = recover_from_log (MkSt l1 d)) as Ei.
  { apply initlog_run; try done; [|apply G]. destruct G, Hsb as (_ & _ & _ & ?). simpl. lia. }
  rewrite E in Ei.
  eapply (sim_ok (lrel (R := Bio.repr)) _ _ (MkSt log0 c)) in Ei as (r & Er & [_ [lst' Hr]]);
    [|apply initlog_sim|split; [done|by exists lst]].
  exists r. split; [done|]. split; [apply (Bio.r_disk _ _ _ Hr)|].
  split; [apply (Bio.r_writes _ _ _ Hr)|apply (Bio.r_size _ _ _ Hr)].
Qed.

(** Crashes and superblocks: a home block never is block 1. *)
Lemma sb_ok_replay l img ws : sb_ok l img -> 1 ∉ ws.*1 -> sb_ok l (replay img ws).
Proof. intros H Hw. unfold sb_ok. by rewrite BlockSpec.replay_notin. Qed.

Lemma fst_take {A B} k (ws : list (A * B)) x : x ∈ (take k ws).*1 -> x ∈ ws.*1.
Proof.
  rewrite fmap_take. intros Hi. apply elem_of_take in Hi as (i & Hi & _). by apply list_elem_of_lookup_2 in Hi.
Qed.

Lemma commit_writes_sb l d : txn l d -> 1 < start l -> 1 ∉ logged l -> 1 ∉ (commit_writes l d).*1.
Proof.
  intros H Hs Hn. unfold commit_writes. rewrite fmap_app, fmap_cons, fmap_app, log_writes_fst, home_writes_fst.
  intros Hi. rewrite elem_of_app, elem_of_cons, elem_of_app in Hi. simpl in Hi.
  destruct Hi as [Hi|[Hi|[Hi|Hi]]]; [|lia|done|set_solver by lia].
  apply (log_writes_apart _ _ _ H) in Hi as (_ & _ & _ & Hi). unfold in_log in Hi. lia.
Qed.

(** C1: atomic commit: let the buffer cache hold a transaction.  commit()
    succeeds; and if the machine stops after any number [k] of the commit's
    disk writes and boots again from the disk as it is then, initlog() succeeds
    and every block outside the log is as before the transaction when the
    header had not been written ([k] is at most the number of logged blocks),
    and as the transaction left it otherwise. *)
Theorem commit_atomic (s : st Bio.bcache) (a : st BlockSpec.st) :
  lrel (R := Bio.repr) s a -> txn (lg a) (dk a) -> 0 < lh_n (lg a) ->
  sb_ok (lg a) (Bio.memdisk (dk s)) -> 1 ∉ logged (lg a) ->
  exists s' ws, commit s = Ok tt s' /\ Bio.writes (dk s') = Bio.writes (dk s) ++ ws /\
  forall k, exists r, reboot (replay (Bio.memdisk (dk s)) (take k ws)) (Bio.disksize (dk s)) = Ok tt r /\
    forall b, ~ in_log (lg a) b ->
      blk (Bio.memdisk (dk r)) b =
        if decide (k <= length (logged (lg a)))%nat then blk (Bio.memdisk (dk s)) b
        else blk (view (dk a)) b.
Proof.
  destruct a as [l d]. intros Hrel H Hn Hsb H1. simpl in *.
  destruct Hrel as [El [lst Hr]]. simpl in *.
  pose proof (Bio.r_disk _ _ _ Hr) as Ed. pose proof (Bio.r_size _ _ _ Hr) as Es.
  destruct (commit_txn l d H Hn) as (d' & E & _ & _ & Ew & _).
  eapply (sim_ok (lrel (R := Bio.repr)) _ _ s) in E as (s' & E & [_ [lst' Hr']]);
    [|apply commit_sim|split; [done|by exists lst]].
  exists s', (commit_writes l d). split; [done|].
  split; [rewrite (Bio.r_writes _ _ _ Hr'), (Bio.r_writes _ _ _ Hr); done|].
  intros k. rewrite Ed, Es in *. destruct (commit_crash l d k H) as [Hok Hb].
  destruct (reboot_run l (replay (disk d) (take k (commit_writes l d))) (nblocks d)) as (r & Er & Em & _).
  - apply H.
  - apply sb_ok_replay; [done|]. intros Hi. apply fst_take in Hi. revert Hi.
    apply commit_writes_sb; [done|apply Hsb|done].
  - done.
  - exists r. split; [exact Er|]. clear Er. intros b Hl. rewrite Em. by apply Hb.
Qed.

(** C3: recovery is idempotent: a boot from a disk with a valid log header
    succeeds, and if the machine stops after any number of recovery's disk
    writes and boots again, the second recovery gives the same blocks outside
    the log as an uninterrupted one. *)
Theorem recovery_idempotent l img sz :
  geom l sz -> sb_ok l img -> hdr_ok l sz (blk img (start l)) -> 1 ∉ hdr (blk img (start l)) ->
  exists r, reboot img sz = Ok tt r /\
  forall k, exists r', reboot (replay img (take k (Bio.writes (dk r)))) sz = Ok tt r' /\
    forall b, ~ in_log l b -> blk (Bio.memdisk (dk r')) b = blk (Bio.memdisk (dk r)) b.
Proof.
  intros G Hsb Hok H1. destruct (reboot_run l img sz G Hsb Hok) as (r & Er & Em & Ew & _).
  exists r. split; [exact Er|]. clear Er. intros k. rewrite Ew, Em.
  destruct (recovery_crash l sz img k G Hok) as [Hok' Hb].
  assert (sb_ok l (replay img (take k (rec_writes l img)))) as Hsb'.
  { apply sb_ok_replay; [done|]. intros Hi. apply fst_take in Hi. unfold rec_writes in Hi.
    rewrite fmap_app, copy_writes_fst, log_pairs_snd, elem_of_app in Hi. destruct Hi as [Hi|Hi]; [exact (H1 Hi)|].
    destruct Hsb as (_ & _ & _ & Hst). simpl in Hi. apply list_elem_of_singleton in Hi. lia. }
  destruct (reboot_run l _ sz G Hsb' Hok') as (r' & Er' & Em' & _).
  exists r'. split; [exact Er'|]. clear Er'. intros b Hl. rewrite Em'. by apply Hb.
Qed.

(** C21: end of a file-system call: the last end_op() commits, after which
    nothing is logged or pinned, the whole transaction is on the disk at its
    home blocks, and waiting callers are woken; an end_op() that is not the
    last only gives its place back; and end_op() during a commit panics. *)
Theorem end_op_correct l d :
  txn l d -> llock l = false ->
  (committing l = 0 -> outstanding l = 1 ->
    exists l' d', end_op (MkSt l d) = Ok tt (MkSt l' d') /\ txn l' d' /\ logged l' = [] /\ dirty d' = ∅ /\
      outstanding l' = 0 /\ committing l' = 0 /\ lwoken l' = Datatypes.S (lwoken l) /\
      forall b, ~ in_log l b -> blk (disk d') b = blk (view d) b /\ blk (view d') b = blk (view d) b) /\
  (committing l = 0 -> 1 < outstanding l ->
    end_op (MkSt l d) = Ok tt (MkSt (wake (set_outstanding (outstanding l - 1) l)) d)) /\
  (committing l <> 0 -> end_op (MkSt l d) = Panic "log.committing").
Proof.
  intros H Hl. split_and!.
  - intros Hc Ho. destruct (end_op_last l d H Hl Ho Hc) as (d' & E & H' & _ & Hv).
    eexists _, d'. split; [exact E|]. split; [done|]. split_and!; try done.
    by rewrite (t_dirty _ _ H').
  - intros Hc Ho. destruct l as [lk st sz ot cm dv n bl wk]; simpl in *; subst lk cm.
    unfold end_op, mbind, M_bind, acquire, Seq.acquire, gets, upd, modify. simpl.
    by rewrite (proj2 (Z.eqb_neq (ot - 1) 0)) by lia.
  - intros Hc. destruct l as [lk st sz ot cm dv n bl wk]; simpl in *; subst lk.
    unfold end_op, mbind, M_bind, acquire, Seq.acquire, gets, upd, modify, truthy. simpl.
    by rewrite (proj2 (Z.eqb_neq cm 0)) by lia.
Qed.

(** log_write(): on a held block outside the log area, with room left, it
    pins the block and lists it exactly once, changing no contents; it panics
    when the log is full or when called outside a transaction. *)
Theorem log_write_correct B l d b :
  txnB B l d -> llock l = false -> b ∈ B -> 0 <= b < nblocks d -> ~ in_log l b ->
  if size l - 1 <=? lh_n l then log_write b (MkSt l d) = Panic "too big a transaction"
  else if outstanding l <? 1 then log_write b (MkSt l d) = Panic "log_write outside of trans"
  else exists l', let d' := MkBs (disk d) (view d) (busy d) ({[b]} ∪ dirty d) (nblocks d) (writes d) in
    log_write b (MkSt l d) = Ok tt (MkSt l' d') /\ txnB B l' d' /\
    logged l' = (if decide (b ∈ logged l) then logged l else logged l ++ [b]) /\
    outstanding l' = outstanding l.
Proof.
  intros H Hl Hb Hr Hil. destruct (Z.leb_spec (size l - 1) (lh_n l)) as [Hn|Hn].
  - unfold log_write. erewrite bind_ok_l by reflexivity. cbn [lg].
    rewrite (proj2 (Z.leb_le (size l - 1) (lh_n l))), orb_true_r by done. done.
  - destruct (Z.ltb_spec (outstanding l) 1) as [Ho|Ho].
    + unfold log_write. erewrite bind_ok_l by reflexivity. cbn [lg].
      destruct (t_geom _ _ H) as [_ _ _ Hs _ _].
      rewrite (proj2 (Z.leb_gt _ _)), (proj2 (Z.leb_gt _ _)), (proj2 (Z.ltb_lt _ _)) by lia. done.
    + destruct (log_write_run B l d b H Hl Ho Hn Hb Hr Hil) as (n' & bl' & E & H' & Ebl).
      eexists. split; [exact E|]. split_and!; done.
Qed.

(** Admission of file-system calls: begin_op() waits exactly while a
    commit runs or the calls in progress and itself could log more than
    LOGSIZE blocks at MAXOPBLOCKS each, and otherwise joins the transaction
    and leaves everything else alone. *)
Theorem begin_op_correct l (d : spec) :
  llock l = false ->
  (begin_op (MkSt l d) = Sleep ChLog (MkSt l d) /\
     (committing l <> 0 \/ LOGSIZE < lh_n l + (outstanding l + 1) * MAXOPBLOCKS)) \/
  (exists l', begin_op (MkSt l d) = Ok tt (MkSt l' d) /\ committing l = 0 /\
     l' = set_outstanding (outstanding l + 1) l /\ lh_n l' + outstanding l' * MAXOPBLOCKS <= LOGSIZE).
Proof.
  intros Hl. rewrite begin_op_run by done. unfold truthy.
  destruct (Z.eqb_spec (committing l) 0) as [Ec|Ec]; simpl; [|by auto].
  destruct (Z.ltb_spec LOGSIZE (lh_n l + (outstanding l + 1) * MAXOPBLOCKS)); [by auto|].
  right. eexists. by split_and!.
Qed.

(** [bread; log_write; brelse] of a block, by a call that changes nothing. *)
Definition touch (b : Z) : M (st spec) unit :=
  on_dev (bread 1 b);; log_write b;; on_dev (brelse b).

Fixpoint touch_all (bl : list Z) : M (st spec) unit :=
  match bl with
  | [] => mret tt
  | b :: bl' => touch b;; touch_all bl'
  end.

Lemma touch_all_app bl1 bl2 s : touch_all (bl1 ++ bl2) s = (touch_all bl1;; touch_all bl2) s.
Proof.
  revert s. induction bl1 as [|b bl1 IH]; intros s; [done|]. cbn [touch_all app]. rewrite bind_assoc. unfold mbind, M_bind in *.
  destruct (touch b s); try done.
Qed.

(** [touch] of a home block that is not logged yet, with room left. *)
Lemma touch_run l d b :
  txn l d -> llock l = false -> 1 <= outstanding l -> lh_n l < size l - 1 -> 0 <= b < nblocks d -> ~ in_log l b -> b ∉ logged l ->
  exists n' bl' d', let l' := set_n n' (set_block bl' l) in
    touch b (MkSt l d) = Ok tt (MkSt l' d') /\ txn l' d' /\ logged l' = logged l ++ [b] /\ nblocks d' = nblocks d.
Proof.
  intros H Hlk Ho Hn Hr Hil Hb. pose proof (t_busy _ _ H) as Hbusy.
  assert (can_read b d) as Hcr by (split; [done|done|right; by eapply txn_room]).
  set (d1 := MkBs (disk d) (view d) {[b]} (dirty d) (nblocks d) (writes d)).
  assert (txnB {[b]} l d1) as H1.
  { destruct H as [G _ Hs H0 Hh Hl Hd Hk Hv Hx]. split; try done. intros c _ Hc. apply Hs; [rewrite Hbusy; set_solver|done]. }
  destruct (log_write_run {[b]} l d1 b H1 Hlk Ho Hn) as (n' & bl' & E & H' & El); [set_solver|done|done|].
  rewrite decide_False in El by done. cbv zeta in E, H', El. set (l' := set_n n' (set_block bl' l)) in *.
  set (d2 := MkBs _ _ _ ({[b]} ∪ _) _ _) in *. exists n', bl', (MkBs (disk d) (view d) ∅ ({[b]} ∪ dirty d) (nblocks d) (writes d)). fold l'.
  split; [|split; [|done]].
  - unfold touch. rewrite (bind_ok_l _ _ _ _ _ (can_read_run b l d 1 Hcr eq_refl)), (bind_ok_l _ _ _ _ _ E).
    erewrite on_dev_run; [|apply BlockSpec.brelse_run; simpl; [set_solver|left; set_solver]]. cbn. by rewrite difference_diag_L.
  - destruct H' as [G _ _ H0 Hh Hl Hd Hk Hv Hx]. split; try done. intros c _ Hc. cbn in *. apply (t_settled _ _ H); [rewrite Hbusy; set_solver|set_solver].
Qed.

Lemma touch_all_run bl : forall l d,
  txn l d -> llock l = false -> 1 <= outstanding l -> NoDup (logged l ++ bl) -> Z.of_nat (length (logged l ++ bl)) <= size l - 1 ->
  (forall b, b ∈ bl -> 0 <= b < nblocks d /\ ~ in_log l b) ->
  exists n' bl' d', let l' := set_n n' (set_block bl' l) in
    touch_all bl (MkSt l d) = Ok tt (MkSt l' d') /\ txn l' d' /\ logged l' = logged l ++ bl /\ nblocks d' = nblocks d.
Proof.
  induction bl as [|b bl IH]; intros l d H Hlk Ho Hnd Hlen Hr.
  - exists (lh_n l), (lh_block l), d. rewrite app_nil_r. by destruct l.
  - rewrite (cons_middle b (logged l) bl), (assoc_L (++)) in *. pose proof (t_len _ _ H) as Hl. pose proof (t_n _ _ H) as H0.
    destruct (Hr b) as [Hb1 Hb2]; [left|]. destruct (touch_run l d b) as (n1 & bl1 & d1 & E & H1 & El & Hn1); [done..| |done|done| |].
    { rewrite !length_app in Hlen. simpl in Hlen. lia. }
    { apply NoDup_app in Hnd as (Hnd & _ & _). apply NoDup_app in Hnd as (_ & Hnd & _). intros Hi. apply (Hnd b Hi). left. }
    destruct (IH (set_n n1 (set_block bl1 l)) d1) as (n2 & bl2 & d2 & E2 & H2 & El2 & Hn2); [done|done|done|by rewrite El|by rewrite El| |].
    { intros c Hc. rewrite Hn1. apply (Hr c). by right. }
    exists n2, bl2, d2. cbn [touch_all]. rewrite (bind_ok_l _ _ _ _ _ E). split; [exact E2|]. split; [exact H2|].
    split; [etransitivity; [exact El2|by rewrite El]|by rewrite Hn2].
Qed.

(** [touch] when the log is full. *)
Lemma touch_full l d b : txn l d -> 0 <= b < nblocks d -> lh_n l = size l - 1 -> touch b (MkSt l d) = Panic "too big a transaction".
Proof.
  intros H Hr Hn. assert (can_read b d) as Hcr by (split; [by apply (t_busy _ _ H)|done|right; by eapply txn_room]).
  unfold touch. rewrite (bind_ok_l _ _ _ _ _ (can_read_run b l d 1 Hcr eq_refl)). unfold log_write, mbind, M_bind, gets. cbn [lg].
  by rewrite (proj2 (Z.leb_le (size l - 1) (lh_n l))), orb_true_r by lia.
Qed.

(** Three calls are admitted by an idle log. *)
Lemma three_ops l (d : spec) : llock l = false -> committing l = 0 -> outstanding l = 0 -> lh_n l = 0 ->
  (begin_op;; begin_op;; begin_op) (MkSt l d) = Ok tt (MkSt (set_outstanding 3 l) d).
Proof.
  intros Hl Hc Ho Hn. destruct l as [lk st sz ot cm dv n bl wk]; simpl in *; subst.
  do 2 (erewrite bind_ok_l by (rewrite begin_op_run by done; reflexivity)). by rewrite begin_op_run.
Qed.

(** C22: the log is one block short of its reservations.  On every idle log of
    LOGSIZE blocks, header included, as mkfs makes it, begin_op() admits three
    calls of MAXOPBLOCKS blocks each; whatever 3 * MAXOPBLOCKS = LOGSIZE
    distinct home blocks they log, every one but the last is logged, and the
    last panics in log_write(). *)
Theorem log_reservation_gap l d bl :
  txn l d -> llock l = false -> committing l = 0 -> outstanding l = 0 -> lh_n l = 0 -> size l = LOGSIZE ->
  NoDup bl -> Z.of_nat (length bl) = LOGSIZE -> (forall b, b ∈ bl -> 0 <= b < nblocks d /\ ~ in_log l b) ->
  let three := begin_op;; begin_op;; begin_op in
  (forall k, Z.of_nat k < LOGSIZE -> exists s, (three;; touch_all (take k bl)) (MkSt l d) = Ok tt s /\
     outstanding (lg s) = 3 /\ logged (lg s) = take k bl) /\
  (three;; touch_all bl) (MkSt l d) = Panic "too big a transaction".
Proof.
  intros H Hl Hc Ho Hn Hs Hnd Hlen Hr three. set (l3 := set_outstanding 3 l).
  assert (forall m : M (st spec) unit, (three;; m) (MkSt l d) = m (MkSt l3 d)) as E3
    by (intros m; unfold three; by rewrite (bind_ok_l _ _ _ _ _ (three_ops l d Hl Hc Ho Hn))).
  assert (txn l3 d) as H3 by (destruct H as [[] ? ? ? [] ? ? ? ? ?]; constructor; try done; by constructor).
  assert (logged l3 = []) as E0 by (unfold logged; cbn; by rewrite Hn).
  assert (forall k, Z.of_nat k < LOGSIZE -> exists n' bl' d', let l' := set_n n' (set_block bl' l3) in
    touch_all (take k bl) (MkSt l3 d) = Ok tt (MkSt l' d') /\ txn l' d' /\ logged l' = take k bl /\ nblocks d' = nblocks d) as Hk.
  { intros k Hk. destruct (touch_all_run (take k bl) l3 d) as (n' & bl' & d' & Hrun); rewrite ?E0; try done; [| | |rewrite E0 in Hrun; by exists n', bl', d'].
    - cbn [app]. eapply sublist_NoDup; [done|apply sublist_take].
    - cbn [app]. rewrite length_take. change (size l3) with (size l). lia.
    - intros b Hb. apply (Hr b). by eapply subseteq_take. }
  split.
  - intros k Hlt. destruct (Hk k Hlt) as (n' & bl' & d' & E & _ & El & _). rewrite E3. eexists. split; [exact E|]. done.
  - destruct bl as [|b bl _] using rev_ind; [done|]. rewrite length_app in Hlen. cbn [length] in Hlen.
    destruct (Hk (length bl)) as (n' & bl' & d' & E & H' & El & Hnb); [lia|]. rewrite take_app_length in E, El.
    rewrite E3, touch_all_app, (bind_ok_l _ _ _ _ _ E). cbn [touch_all]. unfold mbind, M_bind. rewrite touch_full; [done|done| |].
    + rewrite Hnb. apply (Hr b). rewrite elem_of_app. right. left.
    + pose proof (t_len _ _ H') as Hl'. pose proof (t_n _ _ H'). rewrite El in Hl'. change (size (set_n _ _)) with (size l). lia.
Qed.

End Log.

(** ** Witnesses *)

Module LogEx.

Definition sb_block : bytes :=
  set_word 12 30 (set_word 16 2 zblock).
Definition img : gmap Z bytes := {[ 1 := sb_block ]}.
Definition data : bytes := replicate 512 7.

(** A log with block 50 in the transaction. *)
Definition l : Log.log := Log.MkLog false 2 30 1 0 1 1 (<[0%nat := 50]> (replicate 30 0)) 0.
Definition d : BlockSpec.st :=
  BlockSpec.MkBs img (<[50 := data]> img) ∅ {[50]} 100 [].

Lemma img_len b : length (blk img b) = Z.to_nat BSIZE.
Proof. unfold img, blk. rewrite lookup_singleton. by case_decide. Qed.

Lemma geom_l : Log.geom l 100.
Proof. split; unfold LOGSIZE, MAXOPBLOCKS; simpl; lia || done. Qed.

Lemma sb_l : Log.sb_ok l img.
Proof. by split_and!. Qed.

Lemma txn_l : Log.txn l d.
Proof.
  apply Log.MkTxn; [apply geom_l|done| |done| |done| | | |done].
  - intros b _ Hb. simpl in *. rewrite blk_insert_ne; [done|set_solver].
  - split; [apply NoDup_singleton|simpl; lia|]. intros b Hb. apply list_elem_of_singleton in Hb as ->.
    unfold Log.in_log. simpl. lia.
  - apply set_eq. intros b. simpl. set_solver.
  - apply img_len.
  - intros b. simpl. rewrite blk_insert. case_decide; [done|apply img_len].
Qed.

(** The buffer cache reaches it. *)
Lemma cache_d : exists c, Bio.repr c d.
Proof.
  destruct (Bio.binit_rep img 100) as (c & lst & _ & Hr & _).
  assert (Bio.run_ops [Bio.OpRead 1 50; Bio.OpStore 50 data; Bio.OpPin 50; Bio.OpRelse 50]
            (Bio.boot_spec img 100) = Ok [[]; []; []; []] d) as E by (vm_compute; reflexivity).
  eapply (sim_ok Bio.repr _ _ c) in E as (c' & _ & Hc); [by exists c'|apply Bio.run_ops_sim|by exists lst].
Qed.

End LogEx.

Lemma commit_atomic_witness :
  exists c s' ws, Log.commit (Log.MkSt LogEx.l c) = Ok tt s' /\
    Bio.writes (Log.dk s') = Bio.writes c ++ ws /\
    forall k, exists r, Log.reboot (BlockSpec.replay (Bio.memdisk c) (take k ws)) (Bio.disksize c) = Ok tt r /\
      blk (Bio.memdisk (Log.dk r)) 50 =
        if decide (k <= 1)%nat then blk (Bio.memdisk c) 50 else LogEx.data.
Proof.
  destruct LogEx.cache_d as [c Hc]. pose proof Hc as [lst Hr]. pose proof (Bio.r_disk _ _ _ Hr) as Ed.
  destruct (Log.commit_atomic (Log.MkSt LogEx.l c) (Log.MkSt LogEx.l LogEx.d)) as (s' & ws & E & Ew & Hk).
  - split; [reflexivity|exact Hc].
  - exact LogEx.txn_l.
  - reflexivity.
  - cbn [Log.dk Log.lg]. rewrite Ed. exact LogEx.sb_l.
  - intros Hx. apply list_elem_of_singleton in Hx. discriminate Hx.
  - exists c, s', ws. split; [exact E|]. split; [exact Ew|]. clear E. intros k. destruct (Hk k) as (r & Er & Hb).
    exists r. split; [exact Er|]. apply (Hb 50). unfold Log.in_log. simpl. lia.
Defined.

Lemma recovery_idempotent_witness :
  exists r, Log.reboot LogEx.img 100 = Ok tt r /\
  forall k, exists r', Log.reboot (BlockSpec.replay LogEx.img (take k (Bio.writes (Log.dk r)))) 100 = Ok tt r' /\
    blk (Bio.memdisk (Log.dk r')) 50 = blk (Bio.memdisk (Log.dk r)) 50.
Proof.
  destruct (Log.recovery_idempotent LogEx.l LogEx.img 100) as (r & E & Hk).
  - exact LogEx.geom_l.
  - exact LogEx.sb_l.
  - apply Log.hdr_ok_nil; [exact LogEx.geom_l|apply LogEx.img_len|reflexivity].
  - intros Hx. change (1 ∈ ([] : list Z)) in Hx. inversion Hx.
  - exists r. split; [exact E|]. clear E. intros k. destruct (Hk k) as (r' & E' & Hb).
    exists r'. split; [exact E'|]. apply (Hb 50). unfold Log.in_log. simpl. lia.
Defined.

Lemma end_op_correct_witness :
  exists l' d', Log.end_op (Log.MkSt LogEx.l LogEx.d) = Ok tt (Log.MkSt l' d') /\
    blk (BlockSpec.disk d') 50 = LogEx.data.
Proof.
  destruct (Log.end_op_correct LogEx.l LogEx.d LogEx.txn_l eq_refl) as [H _].
  destruct (H eq_refl eq_refl) as (l' & d' & E & _ & _ & _ & _ & _ & _ & Hb).
  exists l', d'. split; [exact E|]. apply (Hb 50). unfold Log.in_log. simpl. lia.
Defined.

Lemma log_write_correct_witness :
  exists l', Log.log_write 60 (Log.MkSt LogEx.l
      (BlockSpec.MkBs LogEx.img (<[50 := LogEx.data]> LogEx.img) {[60]} {[50]} 100 [])) =
    Ok tt (Log.MkSt l' (BlockSpec.MkBs LogEx.img (<[50 := LogEx.data]> LogEx.img) {[60]} ({[60]} ∪ {[50]}) 100 [])) /\
    Log.logged l' = [50; 60].
Proof.
  destruct (Log.log_write_correct {[60]} LogEx.l
    (BlockSpec.MkBs LogEx.img (<[50 := LogEx.data]> LogEx.img) {[60]} {[50]} 100 []) 60) as (l' & E & _ & El & _).
  - destruct LogEx.txn_l as [G _ Hs Hn Hh Hl Hd Hb Hv Hx]. split; try done.
    intros b Hb1 Hb2. apply Hs; [set_solver|done].
  - reflexivity.
  - apply elem_of_singleton. reflexivity.
  - simpl. lia.
  - unfold Log.in_log. simpl. lia.
  - exists l'. split; [exact E|exact El].
Defined.

Lemma begin_op_correct_witness :
  Log.begin_op (Log.MkSt LogEx.l LogEx.d) = Ok tt (Log.MkSt (Log.set_outstanding 2 LogEx.l) LogEx.d).
Proof.
  destruct (Log.begin_op_correct LogEx.l LogEx.d eq_refl) as [[_ [H|H]]|(l' & E & _ & -> & _)].
  - destruct (H eq_refl).
  - discriminate H.
  - exact E.
Defined.

(** An idle log of mkfs's size on an empty disk. *)
Lemma log_reservation_gap_witness :
  let s0 := Log.MkSt (Log.set_geometry 2 LOGSIZE 1 Log.log0) (Bio.boot_spec ∅ 200) in
  ((Log.begin_op;; Log.begin_op;; Log.begin_op);; Log.touch_all (seqZ 40 30)) s0 = Panic "too big a transaction".
Proof.
  destruct (Log.log_reservation_gap (Log.set_geometry 2 LOGSIZE 1 Log.log0) (Bio.boot_spec ∅ 200) (seqZ 40 30)) as [_ E].
  - apply Log.MkTxn; try done.
    split; [apply NoDup_nil_2|simpl; unfold LOGSIZE, MAXOPBLOCKS; lia|]. intros b Hb. by apply elem_of_nil in Hb.
  - reflexivity.
  - reflexivity.
  - reflexivity.
  - reflexivity.
  - reflexivity.
  - apply NoDup_seqZ.
  - reflexivity.
  - intros b Hb. apply elem_of_seqZ in Hb. unfold Log.in_log. simpl. unfold LOGSIZE, MAXOPBLOCKS. lia.
  - exact E.
Defined.
