(* ===== verification/Fs.v ===== *)
(** * fs.c: blocks, inodes, file contents, directories and path names

    All of fs.c, over any implementation of the block contract and the log of
    Log.v.  An inode pointer is an index into the inode cache, a null pointer
    is [None].  A loop of the code is a [Fixpoint] on the number of iterations
    it may still make.  Device files go through the table [devsw], an argument
    here as it is a table of function pointers there. *)

From S2P Require Import Prelude Memory Layout Spinlock Cstring Block Log.

(** ** fs.h, stat.h, file.h *)

Definition ROOTINO : Z := 1.
Definition NDIRECT : Z := 12.
Definition NINDIRECT : Z := BSIZE / 4.
Definition MAXFILE : Z := NDIRECT + NINDIRECT.
Definition DINODE_SIZE : Z := 64.
Definition IPB : Z := BSIZE / DINODE_SIZE.
Definition IBLOCK (i : Z) (sb : superblock) : Z := u32 (i / IPB + sb_inodestart sb).
Definition BPB : Z := BSIZE * 8.
Definition BBLOCK (b : Z) (sb : superblock) : Z := u32 (b / BPB + sb_bmapstart sb).
Definition DIRSIZ : Z := 14.
Definition DIRENT_SIZE : Z := 16.

Definition T_DIR : Z := 1.
Definition T_FILE : Z := 2.
Definition T_DEV : Z := 3.

Definition I_BUSY : Z := 1.
Definition I_VALID : Z := 2.

(** [struct dinode], and its 64 bytes in an inode block. *)
Record dinode := MkDinode {
  d_type : Z;
  d_major : Z;
  d_minor : Z;
  d_nlink : Z;
  d_size : Z;
  d_addrs : list Z
}.

Definition half (off : nat) (d : bytes) : Z := le_val (sub off 2 d).

Definition decode_dinode (off : nat) (d : bytes) : dinode :=
  MkDinode (s16 (half off d)) (s16 (half (off + 2) d)) (s16 (half (off + 4) d)) (s16 (half (off + 6) d))
    (word (off + 8) d) ((fun i => word (off + 12 + 4 * i) d) <$> seq 0 13).

Definition dinode_bytes (x : dinode) : bytes :=
  le_enc 2 (d_type x) ++ le_enc 2 (d_major x) ++ le_enc 2 (d_minor x) ++ le_enc 2 (d_nlink x) ++
  le_enc 4 (d_size x) ++ mjoin (le_enc 4 <$> d_addrs x).

(** Where inode [i] is in its block. *)
Definition dinode_off (i : Z) : nat := Z.to_nat (i mod IPB * DINODE_SIZE).

(** [struct inode] *)
Record inode := MkInode {
  idev : Z;
  inum : Z;
  ref : Z;
  iflags : Z;
  itype : Z;
  major : Z;
  minor : Z;
  nlink : Z;
  isize : Z;
  addrs : list Z
}.

Definition set_ref (x : Z) (i : inode) : inode :=
  MkInode (idev i) (inum i) x (iflags i) (itype i) (major i) (minor i) (nlink i) (isize i) (addrs i).
Definition set_iflags (x : Z) (i : inode) : inode :=
  MkInode (idev i) (inum i) (ref i) x (itype i) (major i) (minor i) (nlink i) (isize i) (addrs i).
Definition set_itype (x : Z) (i : inode) : inode :=
  MkInode (idev i) (inum i) (ref i) (iflags i) x (major i) (minor i) (nlink i) (isize i) (addrs i).
Definition set_devno (x y : Z) (i : inode) : inode :=
  MkInode (idev i) (inum i) (ref i) (iflags i) (itype i) x y (nlink i) (isize i) (addrs i).
Definition set_nlink (x : Z) (i : inode) : inode :=
  MkInode (idev i) (inum i) (ref i) (iflags i) (itype i) (major i) (minor i) x (isize i) (addrs i).
Definition set_isize (x : Z) (i : inode) : inode :=
  MkInode (idev i) (inum i) (ref i) (iflags i) (itype i) (major i) (minor i) (nlink i) x (addrs i).
Definition set_addrs (x : list Z) (i : inode) : inode :=
  MkInode (idev i) (inum i) (ref i) (iflags i) (itype i) (major i) (minor i) (nlink i) (isize i) x.
(** The fields [ilock] copies from the disk. *)
Definition load_dinode (x : dinode) (i : inode) : inode :=
  MkInode (idev i) (inum i) (ref i) (iflags i) (d_type x) (d_major x) (d_minor x) (d_nlink x) (d_size x) (d_addrs x).
Definition to_dinode (i : inode) : dinode :=
  MkDinode (itype i) (major i) (minor i) (nlink i) (isize i) (addrs i).

(** [struct stat] *)
Record stat := MkStat { st_type : Z; st_dev : Z; st_ino : Z; st_nlink : Z; st_size : Z }.

(** [struct dirent] *)
Record dirent := MkDirent { de_inum : Z; de_name : bytes }.

Definition decode_dirent (d : bytes) : dirent := MkDirent (half 0 d) (sub 2 14 d).
Definition dirent_bytes (e : dirent) : bytes := le_enc 2 (de_inum e) ++ de_name e.

Module Fs.

Section fs.
Context {S : Type} `{D : BlockDev S}.

(** The log with the device under it, [sb], and the inode cache. *)
Record fs := MkFs {
  fl : Log.st S;
  sb : superblock;
  ilck : bool;
  icache : nat -> inode;
  iwoken : list chan
}.

Definition set_fl (x : Log.st S) (s : fs) : fs := MkFs x (sb s) (ilck s) (icache s) (iwoken s).
Definition set_ilck (b : bool) (s : fs) : fs := MkFs (fl s) (sb s) b (icache s) (iwoken s).

Definition on_log {A} (m : M (Log.st S) A) : M fs A := zoom fl set_fl m.
Definition bread (dv b : Z) : M fs unit := on_log (Log.on_dev (Block.bread dv b)).
Definition bdata (b : Z) : M fs bytes := on_log (Log.on_dev (Block.bdata b)).
Definition bstore (b : Z) (x : bytes) : M fs unit := on_log (Log.on_dev (Block.bstore b x)).
Definition brelse (b : Z) : M fs unit := on_log (Log.on_dev (Block.brelse b)).
Definition log_write (b : Z) : M fs unit := on_log (Log.log_write b).
Definition readsb (dv : Z) : M fs unit :=
  x ← on_log (Log.readsb dv);
  modify (fun s => MkFs (fl s) x (ilck s) (icache s) (iwoken s)).

Definition iat (i : nat) : M fs inode := gets (fun s => icache s i).
Definition iupd (i : nat) (f : inode -> inode) : M fs unit :=
  modify (fun s => MkFs (fl s) (sb s) (ilck s) (<[i := f (icache s i)]> (icache s)) (iwoken s)).
Definition wakeup (c : chan) : M fs unit :=
  modify (fun s => MkFs (fl s) (sb s) (ilck s) (icache s) (iwoken s ++ [c])).
Definition acquire : M fs unit := Seq.acquire ilck set_ilck.
Definition release : M fs unit := Seq.release ilck set_ilck.

(** ** Blocks *)

Definition bzero (dv bno : Z) : M fs unit :=
  bread dv bno;;
  bstore bno zblock;;
  log_write bno;;
  brelse bno.

(** [bp->data[bi/8]] and the mask of bit [bi]. *)
Definition bit_byte (bi : Z) (d : bytes) : Z := nth (Z.to_nat (bi / 8)) d 0.
Definition bit_mask (bi : Z) : Z := 1 ≪ (bi mod 8).
Definition bit_set (bi : Z) (d : bytes) : bool := negb ((bit_byte bi d .& bit_mask bi) =? 0).
Definition set_bit (bi : Z) (d : bytes) : bytes :=
  <[Z.to_nat (bi / 8) := u8 (bit_byte bi d .| bit_mask bi)]> d.
Definition clear_bit (bi : Z) (d : bytes) : bytes :=
  <[Z.to_nat (bi / 8) := u8 (bit_byte bi d .& Z.lnot (bit_mask bi))]> d.

(** The inner loop of [balloc]: the first clear bit from [bi] on. *)
Fixpoint find_free (n : nat) (b bi size : Z) (d : bytes) : option Z :=
  match n with
  | O => None
  | Datatypes.S k =>
      if (bi <? BPB) && (b + bi <? size) then
        if bit_set bi d then find_free k b (bi + 1) size d else Some bi
      else None
  end.

Fixpoint balloc_loop (n : nat) (dv b : Z) : M fs Z :=
  match n with
  | O => nofuel
  | Datatypes.S k =>
      s ← get;
      if b <? sb_size (sb s) then
        let bp := BBLOCK b (sb s) in
        bread dv bp;;
        d ← bdata bp;
        match find_free (Z.to_nat BPB) b 0 (sb_size (sb s)) d with
        | Some bi =>
            bstore bp (set_bit bi d);;
            log_write bp;;
            brelse bp;;
            bzero dv (b + bi);;
            mret (b + bi)
        | None => brelse bp;; balloc_loop k dv (b + BPB)
        end
      else panic "balloc: out of blocks"
  end.

Definition balloc (dv : Z) : M fs Z :=
  s ← get;
  balloc_loop (Z.to_nat (sb_size (sb s) / BPB) + 2) dv 0.

Definition bfree (dv b : Z) : M fs unit :=
  readsb dv;;
  s ← get;
  let bp := BBLOCK b (sb s) in
  bread dv bp;;
  let bi := b mod BPB in
  d ← bdata bp;
  if negb (bit_set bi d) then panic "freeing free block" else
  bstore bp (clear_bit bi d);;
  log_write bp;;
  brelse bp.

(** ** Inodes *)

Definition iinit (dv : Z) : M fs unit :=
  modify (set_ilck false);;
  readsb dv.

(** The loop of [iget] from entry [i] with [n] entries left: the entry that
    holds the inode, or the first empty entry seen. *)
Fixpoint iget_loop (dv nm : Z) (tbl : nat -> inode) (i n : nat) (empty : option nat) : nat + option nat :=
  match n with
  | O => inr empty
  | Datatypes.S k =>
      let ip := tbl i in
      if (0 <? ref ip) && (idev ip =? dv) && (inum ip =? nm) then inl i
      else iget_loop dv nm tbl (i + 1) k
             (match empty with None => if ref ip =? 0 then Some i else None | Some _ => empty end)
  end.

Definition iget (dv nm : Z) : M fs nat :=
  acquire;;
  s ← get;
  match iget_loop dv nm (icache s) 0 NINODE None with
  | inl i =>
      iupd i (fun ip => set_ref (ref ip + 1) ip);;
      release;;
      mret i
  | inr None => panic "iget: no inodes"
  | inr (Some i) =>
      iupd i (fun ip => MkInode dv nm 1 0 (itype ip) (major ip) (minor ip) (nlink ip) (isize ip) (addrs ip));;
      release;;
      mret i
  end.

Fixpoint ialloc_loop (dv type nm : Z) (n : nat) : M fs nat :=
  match n with
  | O => nofuel
  | Datatypes.S k =>
      s ← get;
      if nm <? sb_ninodes (sb s) then
        let bp := IBLOCK nm (sb s) in
        bread dv bp;;
        d ← bdata bp;
        if d_type (decode_dinode (dinode_off nm) d) =? 0 then
          bstore bp (splice (dinode_off nm) (le_enc 2 type ++ replicate 62 0) d);;
          log_write bp;;
          brelse bp;;
          iget dv nm
        else
          brelse bp;; ialloc_loop dv type (nm + 1) k
      else panic "ialloc: no inodes"
  end.

Definition ialloc (dv type : Z) : M fs nat :=
  s ← get;
  ialloc_loop dv type 1 (Z.to_nat (sb_ninodes (sb s)) + 1).

Definition iupdate (i : nat) : M fs unit :=
  ip ← iat i;
  s ← get;
  let bp := IBLOCK (inum ip) (sb s) in
  bread (idev ip) bp;;
  d ← bdata bp;
  bstore bp (splice (dinode_off (inum ip)) (dinode_bytes (to_dinode ip)) d);;
  log_write bp;;
  brelse bp.

Definition idup (i : nat) : M fs nat :=
  acquire;;
  iupd i (fun ip => set_ref (ref ip + 1) ip);;
  release;;
  mret i.

Definition ilock (i : option nat) : M fs unit :=
  match i with
  | None => panic "ilock"
  | Some i =>
      ip ← iat i;
      if ref ip <? 1 then panic "ilock" else
      acquire;;
      ip ← iat i;
      if truthy (iflags ip .& I_BUSY) then release;; sleepon (ChInode i) else
      iupd i (fun ip => set_iflags (iflags ip .| I_BUSY) ip);;
      release;;
      ip ← iat i;
      when (negb (truthy (iflags ip .& I_VALID))) (
        s ← get;
        let bp := IBLOCK (inum ip) (sb s) in
        bread (idev ip) bp;;
        d ← bdata bp;
        iupd i (load_dinode (decode_dinode (dinode_off (inum ip)) d));;
        brelse bp;;
        iupd i (fun ip => set_iflags (iflags ip .| I_VALID) ip);;
        ip ← iat i;
        when (itype ip =? 0) (panic "ilock: no type"))
  end.

Definition iunlock (i : option nat) : M fs unit :=
  match i with
  | None => panic "iunlock"
  | Some i =>
      ip ← iat i;
      if negb (truthy (iflags ip .& I_BUSY)) || (ref ip <? 1) then panic "iunlock" else
      acquire;;
      iupd i (fun ip => set_iflags (iflags ip .& Z.lnot I_BUSY) ip);;
      wakeup (ChInode i);;
      release
  end.

(** ** Inode contents *)

Definition bmap (i : nat) (bn : Z) : M fs Z :=
  ip ← iat i;
  if bn <? NDIRECT then
    let addr := nth (Z.to_nat bn) (addrs ip) 0 in
    if addr =? 0 then
      addr ← balloc (idev ip);
      iupd i (fun ip => set_addrs (<[Z.to_nat bn := addr]> (addrs ip)) ip);;
      mret addr
    else mret addr
  else
    let bn := bn - NDIRECT in
    if bn <? NINDIRECT then
      let addr := nth (Z.to_nat NDIRECT) (addrs ip) 0 in
      addr ← (if addr =? 0 then
                addr ← balloc (idev ip);
                iupd i (fun ip => set_addrs (<[Z.to_nat NDIRECT := addr]> (addrs ip)) ip);;
                mret addr
              else mret addr);
      bread (idev ip) addr;;
      let bp := addr in
      d ← bdata bp;
      let addr := word (4 * Z.to_nat bn) d in
      addr ← (if addr =? 0 then
                addr ← balloc (idev ip);
                bstore bp (set_word (4 * Z.to_nat bn) addr d);;
                log_write bp;;
                mret addr
              else mret addr);
      brelse bp;;
      mret addr
    else panic "bmap: out of range".

Fixpoint itrunc_direct (i : nat) (k n : nat) : M fs unit :=
  match n with
  | O => mret tt
  | Datatypes.S n' =>
      ip ← iat i;
      when (truthy (nth k (addrs ip) 0)) (
        bfree (idev ip) (nth k (addrs ip) 0);;
        iupd i (fun ip => set_addrs (<[k := 0]> (addrs ip)) ip));;
      itrunc_direct i (k + 1) n'
  end.

Fixpoint itrunc_indirect (dv bp : Z) (j n : nat) : M fs unit :=
  match n with
  | O => mret tt
  | Datatypes.S n' =>
      d ← bdata bp;
      when (truthy (word (4 * j) d)) (bfree dv (word (4 * j) d));;
      itrunc_indirect dv bp (j + 1) n'
  end.

Definition itrunc (i : nat) : M fs unit :=
  itrunc_direct i 0 (Z.to_nat NDIRECT);;
  ip ← iat i;
  let bp := nth (Z.to_nat NDIRECT) (addrs ip) 0 in
  when (truthy bp) (
    bread (idev ip) bp;;
    itrunc_indirect (idev ip) bp 0 (Z.to_nat NINDIRECT);;
    brelse bp;;
    bfree (idev ip) bp;;
    iupd i (fun ip => set_addrs (<[Z.to_nat NDIRECT := 0]> (addrs ip)) ip));;
  iupd i (set_isize 0);;
  iupdate i.

Definition iput (i : nat) : M fs unit :=
  acquire;;
  ip ← iat i;
  when ((ref ip =? 1) && truthy (iflags ip .& I_VALID) && (nlink ip =? 0)) (
    if truthy (iflags ip .& I_BUSY) then panic "iput busy" else
    iupd i (fun ip => set_iflags (iflags ip .| I_BUSY) ip);;
    release;;
    itrunc i;;
    iupd i (set_itype 0);;
    iupdate i;;
    acquire;;
    iupd i (set_iflags 0);;
    wakeup (ChInode i));;
  iupd i (fun ip => set_ref (ref ip - 1) ip);;
  release.

Definition iunlockput (i : nat) : M fs unit :=
  iunlock (Some i);;
  iput i.

Definition stati (i : nat) : M fs stat :=
  ip ← iat i;
  mret (MkStat (itype ip) (idev ip) (inum ip) (nlink ip) (isize ip)).

(** The device table: [devsw[major].read(ip, dst, n)] gives its result and
    the bytes it put at [dst]; a null entry is [None]. *)
Record devsw := MkDevsw {
  dev_read : Z -> option (nat -> Z -> M fs (Z * bytes));
  dev_write : Z -> option (nat -> bytes -> Z -> M fs Z)
}.

Definition dev_ok (mj : Z) : bool := (0 <=? mj) && (mj <? NDEV).

Section dev.
Context (dsw : devsw).

(** The copy loop of [readi]; [acc] is what is already at [dst]. *)
Fixpoint readi_loop (i : nat) (tot off n : Z) (acc : bytes) (fuel : nat) : M fs bytes :=
  if tot <? n then
    match fuel with
    | O => nofuel
    | Datatypes.S k =>
        ip ← iat i;
        bp ← bmap i (off / BSIZE);
        bread (idev ip) bp;;
        let m := Z.min (n - tot) (BSIZE - off mod BSIZE) in
        d ← bdata bp;
        let acc := acc ++ sub (Z.to_nat (off mod BSIZE)) (Z.to_nat m) d in
        brelse bp;;
        readi_loop i (tot + m) (u32 (off + m)) n acc k
    end
  else mret acc.

(** [readi]: the result, and the bytes put at [dst]. *)
Definition readi (i : nat) (off n : Z) : M fs (Z * bytes) :=
  ip ← iat i;
  if itype ip =? T_DEV then
    match (if dev_ok (major ip) then dev_read dsw (major ip) else None) with
    | None => mret (-1, [])
    | Some f => f i n
    end
  else if (isize ip <? off) || (u32 (off + n) <? off) then mret (-1, [])
  else
    let n := if isize ip <? u32 (off + n) then isize ip - off else n in
    dst ← readi_loop i 0 off n [] (Z.to_nat n);
    mret (s32 n, dst).

Fixpoint writei_loop (i : nat) (tot off n : Z) (src : bytes) (fuel : nat) : M fs Z :=
  if tot <? n then
    match fuel with
    | O => nofuel
    | Datatypes.S k =>
        ip ← iat i;
        bp ← bmap i (off / BSIZE);
        bread (idev ip) bp;;
        let m := Z.min (n - tot) (BSIZE - off mod BSIZE) in
        d ← bdata bp;
        bstore bp (splice (Z.to_nat (off mod BSIZE)) (take (Z.to_nat m) src) d);;
        log_write bp;;
        brelse bp;;
        writei_loop i (tot + m) (u32 (off + m)) n (drop (Z.to_nat m) src) k
    end
  else mret off.

(** [writei]: [src] holds at least [n] bytes. *)
Definition writei (i : nat) (src : bytes) (off n : Z) : M fs Z :=
  ip ← iat i;
  if itype ip =? T_DEV then
    match (if dev_ok (major ip) then dev_write dsw (major ip) else None) with
    | None => mret (-1)
    | Some f => f i src n
    end
  else if (isize ip <? off) || (u32 (off + n) <? off) then mret (-1)
  else if MAXFILE * BSIZE <? u32 (off + n) then mret (-1)
  else
    off ← writei_loop i 0 off n src (Z.to_nat n);
    ip ← iat i;
    when ((0 <? n) && (isize ip <? off)) (
      iupd i (set_isize off);;
      iupdate i);;
    mret (s32 n).

(** ** Directories *)

Definition namecmp (s t : bytes) : option Z := Str.strncmp s t (Z.to_nat DIRSIZ).

(** Run a string routine, which faults outside its buffers. *)
Definition safe {A} (o : option A) : M fs A :=
  match o with Some a => mret a | None => fault end.

Fixpoint dirlookup_loop (dp : nat) (name : bytes) (off : Z) (fuel : nat) : M fs (option (nat * Z)) :=
  ip ← iat dp;
  if off <? isize ip then
    match fuel with
    | O => nofuel
    | Datatypes.S k =>
        r ← readi dp off DIRENT_SIZE;
        if negb (r.1 =? DIRENT_SIZE) then panic "dirlink read" else
        let de := decode_dirent r.2 in
        if de_inum de =? 0 then dirlookup_loop dp name (u32 (off + DIRENT_SIZE)) k else
        c ← safe (namecmp name (de_name de));
        if c =? 0 then
          ip ← iat dp;
          j ← iget (idev ip) (de_inum de);
          mret (Some (j, off))
        else dirlookup_loop dp name (u32 (off + DIRENT_SIZE)) k
    end
  else mret None.

(** [dirlookup]: the inode, and the offset stored through [poff]. *)
Definition dirlookup (dp : nat) (name : bytes) : M fs (option (nat * Z)) :=
  ip ← iat dp;
  if negb (itype ip =? T_DIR) then panic "dirlookup not DIR" else
  dirlookup_loop dp name 0 (Z.to_nat (isize ip / DIRENT_SIZE) + 1).

(** The search of [dirlink] for an empty entry: its offset, and the entry last
    read into [de]. *)
Fixpoint dirlink_loop (dp : nat) (off : Z) (de : bytes) (fuel : nat) : M fs (Z * bytes) :=
  ip ← iat dp;
  if off <? isize ip then
    match fuel with
    | O => nofuel
    | Datatypes.S k =>
        r ← readi dp off DIRENT_SIZE;
        if negb (r.1 =? DIRENT_SIZE) then panic "dirlink read" else
        if de_inum (decode_dirent r.2) =? 0 then mret (off, r.2)
        else dirlink_loop dp (off + DIRENT_SIZE) r.2 k
    end
  else mret (off, de).

Definition dirlink (dp : nat) (name : bytes) (nm : Z) : M fs Z :=
  r ← dirlookup dp name;
  match r with
  | Some (j, _) => iput j;; mret (-1)
  | None =>
      ip ← iat dp;
      r ← dirlink_loop dp 0 (replicate 16 0) (Z.to_nat (isize ip / DIRENT_SIZE) + 1);
      nm' ← safe (Str.strncpy (de_name (decode_dirent r.2)) name (Z.to_nat DIRSIZ));
      let de := MkDirent (u16 nm) nm' in
      w ← writei dp (dirent_bytes de) r.1 DIRENT_SIZE;
      if negb (w =? DIRENT_SIZE) then panic "dirlink" else mret 0
  end.

(** ** Paths *)

Definition SLASH : Z := 47.

Fixpoint skip_slashes (path : bytes) : bytes :=
  match path with
  | c :: path' => if c =? SLASH then skip_slashes path' else path
  | [] => []
  end.

(** The element at the front of [path], and the rest. *)
Fixpoint span_elem (path : bytes) : bytes * bytes :=
  match path with
  | c :: path' =>
      if negb (c =? SLASH) && negb (c =? 0) then
        let r := span_elem path' in (c :: r.1, r.2)
      else ([], path)
  | [] => ([], [])
  end.

(** [skipelem]: the rest of the path, and the new contents of [name]. *)
Definition skipelem (path name : bytes) : option (bytes * bytes) :=
  let path := skip_slashes path in
  match path with
  | [] => None
  | c :: _ =>
      if c =? 0 then None else
      let '(s, path) := span_elem path in
      let len := Z.of_nat (length s) in
      let name := if DIRSIZ <=? len then take (Z.to_nat DIRSIZ) s
                  else s ++ 0 :: drop (length s + 1) name in
      Some (skip_slashes path, name)
  end.

(** The loop of [namex] from inode [i]. *)
Fixpoint namex_loop (i : nat) (path : bytes) (parent : bool) (name : bytes) (fuel : nat)
    : M fs (option nat * bytes) :=
  match skipelem path name with
  | None =>
      if parent then iput i;; mret (None, name) else mret (Some i, name)
  | Some (path, name) =>
      match fuel with
      | O => nofuel
      | Datatypes.S k =>
          ilock (Some i);;
          ip ← iat i;
          if negb (itype ip =? T_DIR) then iunlockput i;; mret (None, name) else
          if parent && (nth 0 path 0 =? 0) then iunlock (Some i);; mret (Some i, name) else
          r ← dirlookup i name;
          match r with
          | None => iunlockput i;; mret (None, name)
          | Some (next, _) => iunlockput i;; namex_loop next path parent name k
          end
      end
  end.

(** [cwd] is [proc->cwd]. *)
Definition namex (cwd : nat) (path : bytes) (parent : bool) (name : bytes) : M fs (option nat * bytes) :=
  i ← (if nth 0 path 0 =? SLASH then iget ROOTDEV ROOTINO else idup cwd);
  namex_loop i path parent name (length path).

Definition namei (cwd : nat) (path : bytes) : M fs (option nat) :=
  r ← namex cwd path false (replicate (Z.to_nat DIRSIZ) 0); mret r.1.

Definition nameiparent (cwd : nat) (path name : bytes) : M fs (option nat * bytes) :=
  namex cwd path true name.

End dev.
End fs.
Arguments fs : clear implicits.
End Fs.
