(* ===== verification/FsTx.v ===== *)
(** * Transactions of the file system

    What fs.c sees of the buffer cache and the log inside a transaction: the
    blocks it holds, the contents it sees, and the blocks it has logged.  The
    triples say that the calls fs.c makes of bio.c and log.c return, and how
    they change these; the rest of the proofs about fs.c uses nothing else. *)

From S2P Require Import Prelude Memory Layout Spinlock Block Bio Log Fs.

Abbreviation fsst := (Fs.fs BlockSpec.st).

(** The device and the log on it, fixed while the file system runs. *)
Record geo := MkGeo { g_logstart : Z; g_logsize : Z; g_nblocks : Z; g_disk : gmap Z bytes }.

(** A log entry is added once. *)
Definition addl (b : Z) (L : list Z) : list Z := if decide (b ∈ L) then L else L ++ [b].

Lemma hold_release (b : Z) (B : gset Z) : b ∉ B -> ({[b]} ∪ B) ∖ {[b]} = B.
Proof. set_solver. Qed.

Lemma elem_hold (b : Z) (B : gset Z) : b ∈ ({[b]} ∪ B : gset Z).
Proof. set_solver. Qed.
#[export] Hint Resolve elem_hold : core.

Section tx.
Context (g : geo).

(** Blocks that may hold file-system data. *)
Definition home (b : Z) : Prop :=
  0 <= b < g_nblocks g /\ ~ (g_logstart g <= b < g_logstart g + g_logsize g).

(** A state of the file system inside a transaction: blocks [B] are held, the
    contents of the blocks are [v], the blocks [L] are logged; [sb] and the
    inode cache [c] are in memory. *)
Record tx (B : gset Z) (v : gmap Z bytes) (L : list Z) (sb : superblock) (c : nat -> inode)
    (s : fsst) : Prop := MkTx {
  tx_txn : Log.txnB B (Log.lg (Fs.fl s)) (Log.dk (Fs.fl s));
  tx_start : Log.start (Log.lg (Fs.fl s)) = g_logstart g;
  tx_size : Log.size (Log.lg (Fs.fl s)) = g_logsize g;
  tx_nb : BlockSpec.nblocks (Log.dk (Fs.fl s)) = g_nblocks g;
  tx_disk : BlockSpec.disk (Log.dk (Fs.fl s)) = g_disk g;
  tx_view : BlockSpec.view (Log.dk (Fs.fl s)) = v;
  tx_logged : Log.logged (Log.lg (Fs.fl s)) = L;
  tx_llock : Log.llock (Log.lg (Fs.fl s)) = false;
  tx_out : 1 <= Log.outstanding (Log.lg (Fs.fl s));
  tx_sb : Fs.sb s = sb;
  tx_ilck : Fs.ilck s = false;
  tx_ic : forall i, Fs.icache s i = c i
}.

(** Room for [n] more blocks in the log, with a few to spare in the cache. *)
Definition room (n : Z) (L : list Z) : Prop := n + Z.of_nat (length L) + 4 <= g_logsize g.

Lemma tx_len_block B v L sb c s b : tx B v L sb c s -> length (blk v b) = Z.to_nat BSIZE.
Proof. intros H. rewrite <- (tx_view _ _ _ _ _ _ H). apply (Log.t_views _ _ (tx_txn _ _ _ _ _ _ H)). Qed.

Lemma tx_clean B v L sb c s b : tx B v L sb c s -> b ∉ B -> b ∈ L \/ blk v b = blk (g_disk g) b.
Proof.
  intros H Hb. pose proof (tx_txn _ _ _ _ _ _ H) as T. destruct (decide (b ∈ L)) as [|Hn]; [by left|right].
  rewrite <- (tx_view _ _ _ _ _ _ H), <- (tx_disk _ _ _ _ _ _ H). apply (Log.t_settled _ _ T).
  - by rewrite (Log.t_busy _ _ T).
  - rewrite (Log.t_dirty _ _ T), (tx_logged _ _ _ _ _ _ H). by rewrite elem_of_list_to_set.
Qed.

Lemma tx_home_range B v L sb c s b : tx B v L sb c s -> home b ->
  0 <= b < BlockSpec.nblocks (Log.dk (Fs.fl s)) /\ ~ Log.in_log (Log.lg (Fs.fl s)) b.
Proof.
  intros H [H1 H2]. rewrite (tx_nb _ _ _ _ _ _ H). unfold Log.in_log.
  by rewrite (tx_start _ _ _ _ _ _ H), (tx_size _ _ _ _ _ _ H).
Qed.

(** *** The calls of bio.c and log.c *)

Lemma on_dev_fs {A} (m : M BlockSpec.st A) (s : fsst) a d' :
  m (Log.dk (Fs.fl s)) = Ok a d' ->
  Fs.on_log (Log.on_dev m) s =
    Ok a (Fs.MkFs (Log.MkSt (Log.lg (Fs.fl s)) d') (Fs.sb s) (Fs.ilck s) (Fs.icache s) (Fs.iwoken s)).
Proof. intros E. unfold Fs.on_log, Log.on_dev, zoom. by rewrite E. Qed.

(** The device changes, the log does not. *)
Lemma tx_dev B v L sb c s B' v' d' :
  tx B v L sb c s ->
  BlockSpec.disk d' = g_disk g -> BlockSpec.nblocks d' = g_nblocks g ->
  BlockSpec.dirty d' = BlockSpec.dirty (Log.dk (Fs.fl s)) ->
  BlockSpec.busy d' = B' -> BlockSpec.view d' = v' ->
  (forall b, length (blk v' b) = Z.to_nat BSIZE) ->
  (forall b, b ∉ B' -> b ∉ L -> blk v' b = blk (g_disk g) b) ->
  tx B' v' L sb c (Fs.MkFs (Log.MkSt (Log.lg (Fs.fl s)) d') (Fs.sb s) (Fs.ilck s) (Fs.icache s) (Fs.iwoken s)).
Proof.
  intros [[T1 T2 T3 T4 T5 T6 T7 T8 T9 T10] H2 H3 H4 H5 H6 H7 H8 H9 H10 H11 H12] D1 D2 D3 D4 D5 Hlen Hset.
  assert (BlockSpec.nblocks d' = BlockSpec.nblocks (Log.dk (Fs.fl s))) as En by congruence.
  assert (BlockSpec.disk d' = BlockSpec.disk (Log.dk (Fs.fl s))) as Ed by congruence.
  split; simpl; try done. split; simpl; rewrite ?En, ?Ed, ?D3, ?D4, ?D5; try done.
  intros b Hb1 Hb2. rewrite D4 in Hb1. rewrite D3, T7, elem_of_list_to_set, H7 in Hb2.
  rewrite D5, D1. by apply Hset.
Qed.

Lemma bread_tx B v L sb c b :
  0 <= b < g_nblocks g -> b ∉ B -> room 0 L -> (size B < 3)%nat ->
  triple (tx B v L sb c) (Fs.bread 1 b) (fun _ => tx ({[b]} ∪ B) v L sb c).
Proof.
  intros Hr Hb Hroom HB s H. pose proof (tx_txn _ _ _ _ _ _ H) as T.
  eexists tt, _. split.
  - apply on_dev_fs, BlockSpec.bread_run.
    + by rewrite (tx_nb _ _ _ _ _ _ H).
    + by rewrite (Log.t_busy _ _ T).
    + right. rewrite (Log.t_busy _ _ T), (Log.t_dirty _ _ T).
      assert (size (B ∪ list_to_set (Log.logged (Log.lg (Fs.fl s)))) <= size B + length L)%nat.
      { rewrite size_union_alt. apply Nat.add_le_mono_l.
        transitivity (size (list_to_set (C := gset Z) (Log.logged (Log.lg (Fs.fl s)))));
          [apply subseteq_size; set_solver|].
        rewrite size_list_to_set by apply (Log.t_homes _ _ T). by rewrite (tx_logged _ _ _ _ _ _ H). }
      pose proof (Log.g_size _ _ (Log.t_geom _ _ T)) as Hs. rewrite (tx_size _ _ _ _ _ _ H) in Hs.
      unfold room, LOGSIZE, MAXOPBLOCKS, NBUF in *. lia.
  - eapply tx_dev; simpl; try apply H; try done.
    + by rewrite (Log.t_busy _ _ T).
    + intros. by eapply tx_len_block.
    + intros c' Hc1 Hc2. destruct (tx_clean _ _ _ _ _ _ c' H) as [|]; [set_solver|done|done].
Qed.

Lemma bdata_tx B v L sb c b : b ∈ B ->
  triple (tx B v L sb c) (Fs.bdata b) (fun d s => d = blk v b /\ tx B v L sb c s).
Proof.
  intros Hb s H. exists (blk v b), s. split; [|done].
  unfold Fs.bdata. rewrite (on_dev_fs _ _ (blk v b) (Log.dk (Fs.fl s))).
  - destruct s as [[l d] ? ? ? ?]. done.
  - rewrite <- (tx_view _ _ _ _ _ _ H). apply BlockSpec.bdata_run.
    by rewrite (Log.t_busy _ _ (tx_txn _ _ _ _ _ _ H)).
Qed.

Lemma bstore_tx B v L sb c b x : b ∈ B -> length x = Z.to_nat BSIZE ->
  triple (tx B v L sb c) (Fs.bstore b x) (fun _ => tx B (<[b := x]> v) L sb c).
Proof.
  intros Hb Hx s H. pose proof (tx_txn _ _ _ _ _ _ H) as T. eexists tt, _. split.
  - apply on_dev_fs, BlockSpec.bstore_run. by rewrite (Log.t_busy _ _ T).
  - eapply tx_dev; simpl; try apply H; try done.
    + by rewrite (tx_view _ _ _ _ _ _ H).
    + intros c'. rewrite blk_insert. case_decide; [done|]. by eapply tx_len_block.
    + intros c' Hc1 Hc2. rewrite blk_insert_ne by set_solver.
      destruct (tx_clean _ _ _ _ _ _ c' H) as [|]; done.
Qed.

Lemma brelse_tx B v L sb c b : b ∈ B -> b ∈ L \/ blk v b = blk (g_disk g) b ->
  triple (tx B v L sb c) (Fs.brelse b) (fun _ => tx (B ∖ {[b]}) v L sb c).
Proof.
  intros Hb Hcl s H. pose proof (tx_txn _ _ _ _ _ _ H) as T. eexists tt, _. split.
  - apply on_dev_fs, BlockSpec.brelse_run; [by rewrite (Log.t_busy _ _ T)|].
    rewrite (Log.t_dirty _ _ T), elem_of_list_to_set, (tx_logged _ _ _ _ _ _ H),
      (tx_view _ _ _ _ _ _ H), (tx_disk _ _ _ _ _ _ H). done.
  - eapply tx_dev; simpl; try apply H; try done.
    + by rewrite (Log.t_busy _ _ T).
    + intros. by eapply tx_len_block.
    + intros c' Hc1 Hc2. destruct (decide (c' = b)) as [->|]; [naive_solver|].
      destruct (tx_clean _ _ _ _ _ _ c' H) as [|]; [set_solver|done|done].
Qed.

Lemma log_write_tx B v L sb c b : b ∈ B -> home b -> room 1 L ->
  triple (tx B v L sb c) (Fs.log_write b) (fun _ => tx B v (addl b L) sb c).
Proof.
  intros Hb Hh Hroom s H. pose proof (tx_txn _ _ _ _ _ _ H) as T.
  destruct (tx_home_range _ _ _ _ _ _ _ H Hh) as [Hr Hil].
  destruct s as [[l d] sb' lk ic wk]. simpl in *.
  destruct (Log.log_write_run B l d b T) as (n' & bl' & E & T' & El); try done; try apply H.
  { pose proof (Log.t_len _ _ T) as Hl. rewrite (tx_logged _ _ _ _ _ _ H : Log.logged l = L) in Hl.
    pose proof (Log.t_n _ _ T). rewrite (tx_size _ _ _ _ _ _ H : Log.size l = _). unfold room in Hroom. lia. }
  eexists tt, _. split; [unfold Fs.log_write, Fs.on_log, zoom; simpl; by rewrite E|].
  destruct H as [_ H2 H3 H4 H5 H6 H7 H8 H9 H10 H11 H12]. simpl in *.
  split; simpl; try done. rewrite El, H7. done.
Qed.

Lemma iat_tx B v L sb c i :
  triple (tx B v L sb c) (Fs.iat i) (fun ip s => ip = c i /\ tx B v L sb c s).
Proof. intros s H. exists (Fs.icache s i), s. split; [done|]. by rewrite (tx_ic _ _ _ _ _ _ H). Qed.

Lemma iupd_tx B v L sb c i f :
  triple (tx B v L sb c) (Fs.iupd i f) (fun _ => tx B v L sb (<[i := f (c i)]> c)).
Proof.
  intros s H. eexists tt, _. split; [done|]. destruct H as [H1 H2 H3 H4 H5 H6 H7 H8 H9 H10 H11 H12].
  split; simpl; try done. intros j. unfold insert, fn_insert. by rewrite !H12.
Qed.

Lemma get_tx B v L sb c :
  triple (tx B v L sb c) get (fun s0 s => Fs.sb s0 = sb /\ (forall i, Fs.icache s0 i = c i) /\ tx B v L sb c s).
Proof. intros s H. exists s, s. split; [done|]. split; [apply H|]. split; [apply H|done]. Qed.

(** *** With icache.lock held *)

Definition txl (B : gset Z) (v : gmap Z bytes) (L : list Z) (sb : superblock) (c : nat -> inode) (s : fsst) : Prop :=
  Fs.ilck s = true /\ tx B v L sb c (Fs.set_ilck false s).

Lemma acquire_tx B v L sb c : triple (tx B v L sb c) Fs.acquire (fun _ => txl B v L sb c).
Proof.
  intros s H. exists tt, (Fs.set_ilck true s). split.
  - unfold Fs.acquire, Seq.acquire. cbn. by rewrite (tx_ilck _ _ _ _ _ _ H).
  - split; [done|]. destruct H as [H1 H2 H3 H4 H5 H6 H7 H8 H9 H10 H11 H12]. by split.
Qed.

Lemma release_tx B v L sb c : triple (txl B v L sb c) Fs.release (fun _ => tx B v L sb c).
Proof.
  intros s [Hl H]. exists tt, (Fs.set_ilck false s). split; [|done].
  unfold Fs.release, Seq.release. cbn. by rewrite Hl.
Qed.

Lemma iat_txl B v L sb c i :
  triple (txl B v L sb c) (Fs.iat i) (fun ip s => ip = c i /\ txl B v L sb c s).
Proof. intros s H. exists (Fs.icache s i), s. split; [done|]. split; [apply (tx_ic _ _ _ _ _ _ (proj2 H))|done]. Qed.

Lemma get_txl B v L sb c :
  triple (txl B v L sb c) get (fun s0 s => (forall i, Fs.icache s0 i = c i) /\ txl B v L sb c s).
Proof. intros s H. exists s, s. split; [done|]. split; [apply (tx_ic _ _ _ _ _ _ (proj2 H))|done]. Qed.

Lemma iupd_txl B v L sb c i f :
  triple (txl B v L sb c) (Fs.iupd i f) (fun _ => txl B v L sb (<[i := f (c i)]> c)).
Proof.
  intros s [Hl H]. eexists tt, _. split; [done|]. split; [done|].
  destruct H as [H1 H2 H3 H4 H5 H6 H7 H8 H9 H10 H11 H12].
  split; simpl; try done. intros j. unfold insert, fn_insert. by rewrite !(H12 _ : Fs.icache s _ = _).
Qed.

(** *** Common sequences *)

(** A block is read and released. *)
Lemma read_block_tx {A} B v L sb c b (k : bytes -> M fsst A) Q :
  0 <= b < g_nblocks g -> b ∉ B -> room 0 L -> (size B < 3)%nat ->
  triple (tx B v L sb c) (k (blk v b)) Q ->
  triple (tx B v L sb c) (Fs.bread 1 b;; d ← Fs.bdata b; Fs.brelse b;; k d) Q.
Proof.
  intros Hr Hb Hroom HB Hk s H. pose proof (tx_clean _ _ _ _ _ _ b H Hb) as Hcl. revert s H.
  eapply triple_bind; [by apply bread_tx|intros []].
  eapply triple_bind; [apply bdata_tx; set_solver|intros d].
  apply triple_and. intros ->.
  eapply triple_bind; [apply brelse_tx; [set_solver|done]|intros []].
  by rewrite hold_release.
Qed.

(** A block is read, changed, logged and released. *)
Lemma modify_block_tx {A} B v L sb c b x (k : M fsst A) Q :
  b ∈ B -> home b -> room 1 L -> length x = Z.to_nat BSIZE ->
  triple (tx (B ∖ {[b]}) (<[b := x]> v) (addl b L) sb c) k Q ->
  triple (tx B v L sb c) (Fs.bstore b x;; Fs.log_write b;; Fs.brelse b;; k) Q.
Proof.
  intros Hb Hh Hroom Hx Hk. eapply triple_bind; [by apply bstore_tx|intros []].
  eapply triple_bind; [by apply log_write_tx|intros []].
  eapply triple_bind; [apply brelse_tx; [done|]|intros []; done].
  left. unfold addl. case_decide; set_solver.
Qed.

Lemma modify_block_end_tx B v L sb c b x :
  b ∈ B -> home b -> room 1 L -> length x = Z.to_nat BSIZE ->
  triple (tx B v L sb c) (Fs.bstore b x;; Fs.log_write b;; Fs.brelse b)
    (fun _ => tx (B ∖ {[b]}) (<[b := x]> v) (addl b L) sb c).
Proof.
  intros Hb Hh Hroom Hx. eapply triple_bind; [by apply bstore_tx|intros []].
  eapply triple_bind; [by apply log_write_tx|intros []].
  apply brelse_tx; [done|]. left. unfold addl. case_decide; set_solver.
Qed.

(** The superblock is read again. *)
Lemma readsb_tx B v L sb c :
  1 < g_nblocks g -> 1 ∉ B -> room 0 L -> (size B < 3)%nat ->
  triple (tx B v L sb c) (Fs.readsb 1) (fun _ => tx B v L (decode_sb (blk v 1)) c).
Proof.
  intros Hn Hb Hroom HB s H. pose proof (tx_clean _ _ _ _ _ _ 1 H Hb) as Hcl.
  assert (triple (tx B v L sb c) (Fs.bread 1 1;; d ← Fs.bdata 1; Fs.brelse 1;; mret (decode_sb d))
    (fun x s => x = decode_sb (blk v 1) /\ tx B v L sb c s)) as Ht.
  { apply (read_block_tx B v L sb c 1 (fun d => mret (decode_sb d))); [lia|done|done|done|].
    apply triple_ret. done. }
  destruct (Ht s H) as (x & s' & E & -> & H').
  eexists tt, (Fs.MkFs (Fs.fl s') (decode_sb (blk v 1)) (Fs.ilck s') (Fs.icache s') (Fs.iwoken s')). split.
  - unfold Fs.readsb. erewrite bind_ok_l; [done|]. rewrite <- E.
    unfold Log.readsb, Fs.on_log, Fs.bread, Fs.bdata, Fs.brelse. rewrite zoom_bind by done.
    apply bind_ext; [done|intros [] s1]. rewrite zoom_bind by done.
    apply bind_ext; [done|intros d s2]. rewrite zoom_bind by done.
    apply bind_ext; [done|intros [] [? ? ? ? ?]]. done.
  - destruct H' as [H1 H2 H3 H4 H5 H6 H7 H8 H9 H10 H11 H12]. by split.
Qed.

End tx.
