(* ===== verification/FsBlock.v ===== *)
(** * Block allocation: bzero, balloc, bfree

    The free bitmap as a set of used blocks, and the allocator of fs.c against
    it: [balloc] takes the lowest free block and zeroes it, [bfree] gives one
    back. *)

From S2P Require Import Prelude Memory Layout Spinlock Block Bio Log Fs FsTx.

(** ** Bits of a bitmap block *)

Lemma land_pow2 x k : 0 <= k -> ((x .& (1 ≪ k)) =? 0) = negb (Z.testbit x k).
Proof.
  intros Hk. rewrite Z.shiftl_1_l. destruct (Z.testbit x k) eqn:E; simpl.
  - apply Z.eqb_neq. intros H. assert (Z.testbit (x .& 2 ^ k) k = false) as H' by (rewrite H; apply Z.bits_0).
    rewrite Z.land_spec, E, Z.pow2_bits_true in H' by done. done.
  - apply Z.eqb_eq, Z.bits_inj'. intros n Hn. rewrite Z.land_spec, Z.bits_0.
    destruct (decide (n = k)) as [->|Hne]; [by rewrite E|].
    by rewrite Z.pow2_bits_false, andb_false_r.
Qed.

Lemma bit_set_testbit bi d : Fs.bit_set bi d = Z.testbit (Fs.bit_byte bi d) (bi mod 8).
Proof. unfold Fs.bit_set, Fs.bit_mask. rewrite land_pow2 by (apply Z.mod_pos_bound; lia). by rewrite negb_involutive. Qed.

Lemma u8_testbit x k : 0 <= k < 8 -> Z.testbit (u8 x) k = Z.testbit x k.
Proof. intros. unfold u8. by rewrite Z.mod_pow2_bits_low by lia. Qed.

(** Bits in different bytes, or in the same byte. *)
Lemma bit_byte_insert i j d x : 0 <= i -> 0 <= j < 8 * Z.of_nat (length d) ->
  Fs.bit_byte i (<[Z.to_nat (j / 8) := x]> d) = if decide (i / 8 = j / 8) then x else Fs.bit_byte i d.
Proof.
  intros Hi Hj. unfold Fs.bit_byte. pose proof (Z.div_pos i 8). pose proof (Z.div_pos j 8).
  assert (j / 8 < Z.of_nat (length d)) by (apply Z.div_lt_upper_bound; lia).
  rewrite !nth_lookup. case_decide as E.
  - rewrite E, list_lookup_insert_eq by lia. done.
  - by rewrite list_lookup_insert_ne by lia.
Qed.

Lemma same_bit i j : 0 <= i -> 0 <= j -> i / 8 = j / 8 -> i mod 8 = j mod 8 -> i = j.
Proof. intros. rewrite (Z.div_mod i 8), (Z.div_mod j 8) by lia. lia. Qed.

Lemma bit_set_set_bit i j d : 0 <= i -> 0 <= j < 8 * Z.of_nat (length d) ->
  Fs.bit_set i (Fs.set_bit j d) = (if decide (i = j) then true else Fs.bit_set i d).
Proof.
  intros Hi Hj. rewrite !bit_set_testbit. unfold Fs.set_bit. rewrite bit_byte_insert by done.
  assert (0 <= i mod 8 < 8) by (apply Z.mod_pos_bound; lia).
  destruct (decide (i / 8 = j / 8)) as [E|E].
  - rewrite u8_testbit, Z.lor_spec by lia. unfold Fs.bit_mask. rewrite Z.shiftl_1_l.
    assert (Fs.bit_byte j d = Fs.bit_byte i d) as -> by (unfold Fs.bit_byte; by rewrite E).
    case_decide as Eij; [subst; rewrite Z.pow2_bits_true by lia; apply orb_true_r|].
    rewrite Z.pow2_bits_false, orb_false_r; [done|]. intros Em. apply Eij. apply same_bit; lia.
  - rewrite decide_False by (intros ->; done). done.
Qed.

Lemma bit_set_clear_bit i j d : 0 <= i -> 0 <= j < 8 * Z.of_nat (length d) ->
  Fs.bit_set i (Fs.clear_bit j d) = (if decide (i = j) then false else Fs.bit_set i d).
Proof.
  intros Hi Hj. rewrite !bit_set_testbit. unfold Fs.clear_bit. rewrite bit_byte_insert by done.
  assert (0 <= i mod 8 < 8) by (apply Z.mod_pos_bound; lia).
  destruct (decide (i / 8 = j / 8)) as [E|E].
  - rewrite u8_testbit, Z.land_spec, Z.lnot_spec by lia. unfold Fs.bit_mask. rewrite Z.shiftl_1_l.
    assert (Fs.bit_byte j d = Fs.bit_byte i d) as -> by (unfold Fs.bit_byte; by rewrite E).
    case_decide as Eij; [subst; rewrite Z.pow2_bits_true by lia; apply andb_false_r|].
    rewrite Z.pow2_bits_false, andb_true_r; [done|]. intros Em. apply Eij. apply same_bit; lia.
  - rewrite decide_False by (intros ->; done). done.
Qed.

Lemma length_set_bit j d : length (Fs.set_bit j d) = length d.
Proof. apply length_insert. Qed.

Lemma length_clear_bit j d : length (Fs.clear_bit j d) = length d.
Proof. apply length_insert. Qed.

(** The inner loop of [balloc]. *)
Lemma find_free_spec n b bi size d :
  0 <= bi -> BPB <= bi + Z.of_nat n ->
  match Fs.find_free n b bi size d with
  | Some r => bi <= r < BPB /\ b + r < size /\ Fs.bit_set r d = false /\
      (forall j, bi <= j < r -> Fs.bit_set j d = true)
  | None => forall j, bi <= j < BPB -> b + j < size -> Fs.bit_set j d = true
  end.
Proof.
  revert bi. induction n as [|n IH]; intros bi Hbi Hn; cbn [Fs.find_free]; [intros; lia|].
  destruct (Z.ltb_spec bi BPB) as [Hlt|Hlt]; simpl; [|intros; lia].
  destruct (Z.ltb_spec (b + bi) size) as [Hs|Hs]; [|intros; lia].
  destruct (Fs.bit_set bi d) eqn:E; [|split_and!; [lia|lia|lia|done|intros; lia]].
  specialize (IH (bi + 1)). destruct (Fs.find_free n b (bi + 1) size d).
  - destruct IH as (I1 & I2 & I3 & I4); [lia|lia|]. split_and!; try lia; [done|].
    intros j Hj. destruct (decide (j = bi)) as [->|]; [done|]. apply I4. lia.
  - intros j Hj Hbj. destruct (decide (j = bi)) as [->|]; [done|]. apply IH; lia.
Qed.

(** ** Where things are on the disk *)

Definition is_bmap (sb : superblock) (b : Z) : Prop :=
  sb_bmapstart sb <= b <= sb_bmapstart sb + (sb_size sb - 1) / BPB.
Definition is_iblock (sb : superblock) (b : Z) : Prop :=
  sb_inodestart sb <= b <= sb_inodestart sb + (sb_ninodes sb - 1) / IPB.

(** The disk layout mkfs makes: boot block, superblock, log, inode blocks,
    bitmap and data blocks, without overlap. *)
Record layout (g : geo) (sb : superblock) : Prop := MkLayout {
  ly_size : 0 < sb_size sb <= g_nblocks g;
  ly_nb : g_nblocks g < 2 ^ 31;
  ly_ninodes : 1 < sb_ninodes sb <= 2 ^ 16;
  ly_log : 1 < g_logstart g /\ g_logstart g + g_logsize g <= sb_size sb;
  ly_bmap : forall b, is_bmap sb b -> home g b /\ 1 < b < sb_size sb /\ ~ is_iblock sb b;
  ly_inode : forall b, is_iblock sb b -> home g b /\ 1 < b < sb_size sb /\ ~ is_bmap sb b
}.

(** Blocks that never hold file contents. *)
Definition meta (g : geo) (sb : superblock) (b : Z) : Prop :=
  b = 0 \/ b = 1 \/ g_logstart g <= b < g_logstart g + g_logsize g \/ is_bmap sb b \/ is_iblock sb b.

Definition used (v : gmap Z bytes) (sb : superblock) (b : Z) : bool :=
  Fs.bit_set (b mod BPB) (blk v (BBLOCK b sb)).

(** The blocks that never hold file contents are marked used. *)
Definition meta_used (g : geo) (sb : superblock) (v : gmap Z bytes) : Prop :=
  forall b, 0 <= b < sb_size sb -> meta g sb b -> used v sb b = true.

(** Block [b] is allocated and zeroed. *)
Definition alloc_view (sb : superblock) (b : Z) (v : gmap Z bytes) : gmap Z bytes :=
  <[b := zblock]> (<[BBLOCK b sb := Fs.set_bit (b mod BPB) (blk v (BBLOCK b sb))]> v).

Definition free_view (sb : superblock) (b : Z) (v : gmap Z bytes) : gmap Z bytes :=
  <[BBLOCK b sb := Fs.clear_bit (b mod BPB) (blk v (BBLOCK b sb))]> v.

Definition len_ok (v : gmap Z bytes) : Prop := forall b, length (blk v b) = Z.to_nat BSIZE.

Section block.
Context (g : geo) (sb : superblock) (Hly : layout g sb).

Lemma BBLOCK_spec b : 0 <= b < sb_size sb ->
  BBLOCK b sb = sb_bmapstart sb + b / BPB /\ is_bmap sb (BBLOCK b sb).
Proof.
  intros Hb. destruct Hly as [H1 H2 _ _ H3 _].
  assert (0 <= b / BPB <= (sb_size sb - 1) / BPB) as Hd
    by (split; [apply Z.div_pos|apply Z.div_le_mono]; unfold BPB, BSIZE; lia).
  assert (is_bmap sb (sb_bmapstart sb + b / BPB)) as Hbm by (unfold is_bmap; lia).
  destruct (H3 _ Hbm) as [[Hr _] _]. unfold BBLOCK. rewrite Z.add_comm, u32_small by lia. done.
Qed.

Lemma BBLOCK_eq b : 0 <= b < sb_size sb -> BBLOCK b sb = sb_bmapstart sb + b / BPB.
Proof. intros. by apply BBLOCK_spec. Qed.

Lemma BBLOCK_home b : 0 <= b < sb_size sb -> home g (BBLOCK b sb) /\ 1 < BBLOCK b sb < sb_size sb.
Proof. intros Hb. destruct (BBLOCK_spec b Hb) as [_ Hbm]. destruct (ly_bmap _ _ Hly _ Hbm) as (? & ? & _). done. Qed.

Lemma mod_BPB b : 0 <= b mod BPB < 8 * Z.of_nat (Z.to_nat BSIZE).
Proof. unfold BPB, BSIZE. pose proof (Z.mod_pos_bound b (512 * 8)). lia. Qed.

(** Changing a block that is not of the bitmap leaves the bitmap alone. *)
Lemma used_insert_other v b x c : 0 <= c < sb_size sb -> ~ is_bmap sb b ->
  used (<[b := x]> v) sb c = used v sb c.
Proof.
  intros Hc Hb. unfold used. rewrite blk_insert_ne; [done|]. intros ->. by apply Hb, BBLOCK_spec.
Qed.

Lemma used_change v b (f : bytes -> bytes) (r : bool) c :
  len_ok v -> 0 <= b < sb_size sb -> 0 <= c < sb_size sb ->
  (forall i d, 0 <= i -> length d = Z.to_nat BSIZE ->
     Fs.bit_set i (f d) = if decide (i = b mod BPB) then r else Fs.bit_set i d) ->
  used (<[BBLOCK b sb := f (blk v (BBLOCK b sb))]> v) sb c = if decide (c = b) then r else used v sb c.
Proof.
  intros Hl Hb Hc Hf. destruct (BBLOCK_spec b Hb) as [Eb _]. destruct (BBLOCK_spec c Hc) as [Ec _].
  unfold used. rewrite blk_insert. pose proof (mod_BPB b). pose proof (mod_BPB c).
  destruct (decide (BBLOCK b sb = BBLOCK c sb)) as [E|E].
  - rewrite Hf by (lia || apply Hl). rewrite <- E. destruct (decide (c = b)) as [->|Hne]; [by rewrite decide_True|].
    rewrite decide_False; [done|]. intros Em. apply Hne.
    rewrite (Z.div_mod c BPB), (Z.div_mod b BPB) by (unfold BPB, BSIZE; lia). lia.
  - rewrite decide_False; [done|]. intros ->. done.
Qed.

Lemma used_alloc v b c : len_ok v -> 0 <= b < sb_size sb -> 0 <= c < sb_size sb -> ~ is_bmap sb b ->
  used (alloc_view sb b v) sb c = if decide (c = b) then true else used v sb c.
Proof.
  intros Hl Hb Hc Hbm. unfold alloc_view. rewrite used_insert_other by done.
  apply used_change; try done. intros i d Hi Hd. apply bit_set_set_bit; [done|]. rewrite Hd. apply mod_BPB.
Qed.

Lemma used_free v b c : len_ok v -> 0 <= b < sb_size sb -> 0 <= c < sb_size sb ->
  used (free_view sb b v) sb c = if decide (c = b) then false else used v sb c.
Proof.
  intros Hl Hb Hc. unfold free_view.
  apply used_change; try done. intros i d Hi Hd. apply bit_set_clear_bit; [done|]. rewrite Hd. apply mod_BPB.
Qed.

(** A free block can hold file contents. *)
Lemma free_not_meta v b : meta_used g sb v -> 0 <= b < sb_size sb -> used v sb b = false -> ~ meta g sb b.
Proof. intros Hm Hb Hu Hx. by rewrite Hm in Hu. Qed.

Lemma not_meta_home b : 0 <= b < sb_size sb -> ~ meta g sb b -> home g b /\ b <> 0 /\ ~ is_bmap sb b /\ ~ is_iblock sb b.
Proof.
  intros Hb Hm. destruct (ly_size _ _ Hly). unfold meta in Hm. unfold home. split_and!; try tauto; lia.
Qed.

(** ** bzero, balloc, bfree *)

Lemma bzero_tx B v L c b :
  home g b -> b ∉ B -> room g 1 L -> (size B < 3)%nat ->
  triple (tx g B v L sb c) (Fs.bzero 1 b) (fun _ => tx g B (<[b := zblock]> v) (addl b L) sb c).
Proof.
  intros Hh Hb Hroom HB. unfold Fs.bzero.
  eapply triple_bind; [apply bread_tx; [apply Hh|done|unfold room in *; lia|done]|intros []].
  eapply triple_post; [apply modify_block_end_tx; [done|done|done|done]|].
  intros [] s. by rewrite hold_release.
Qed.

(** [fb] is the lowest free block. *)
Definition lowest_free (v : gmap Z bytes) (fb : Z) : Prop :=
  0 <= fb < sb_size sb /\ used v sb fb = false /\ forall b, 0 <= b < fb -> used v sb b = true.

(** Blocks an allocating call may hold: in use, and not of the bitmap. *)
Definition held_ok (v : gmap Z bytes) (B : gset Z) : Prop :=
  (size B < 3)%nat /\ forall b, b ∈ B -> 0 <= b < sb_size sb /\ used v sb b = true /\ ~ is_bmap sb b.

Lemma BPB_block b j : b mod BPB = 0 -> 0 <= j < BPB -> (b + j) mod BPB = j /\ (b + j) / BPB = b / BPB.
Proof.
  intros Hb Hj. rewrite (Z.div_mod b BPB) by (unfold BPB, BSIZE; lia). rewrite Hb, Z.add_0_r, Z.mul_comm.
  rewrite Z.add_comm, Z.mod_add, Z.div_add, Z.div_mul by (unfold BPB, BSIZE; lia).
  rewrite Z.mod_small, Z.div_small by done. done.
Qed.

(** The search of one bitmap block finds the lowest free block, if it is there. *)
Lemma find_free_lowest v b fb :
  lowest_free v fb -> 0 <= b <= fb -> b mod BPB = 0 ->
  match Fs.find_free (Z.to_nat BPB) b 0 (sb_size sb) (blk v (BBLOCK b sb)) with
  | Some bi => b + bi = fb /\ fb mod BPB = bi /\ BBLOCK fb sb = BBLOCK b sb
  | None => b + BPB <= fb
  end.
Proof.
  intros (Hfb & Hu & Hlow) Hb Hmod.
  assert (forall j, 0 <= j < BPB -> b + j < sb_size sb ->
    used v sb (b + j) = Fs.bit_set j (blk v (BBLOCK b sb))) as Hbit.
  { intros j Hj Hjs. destruct (BPB_block b j Hmod Hj) as [E1 E2].
    unfold used. rewrite E1. f_equal. f_equal. rewrite !BBLOCK_eq by lia. congruence. }
  pose proof (find_free_spec (Z.to_nat BPB) b 0 (sb_size sb) (blk v (BBLOCK b sb))) as Hf.
  destruct (Fs.find_free _ b 0 _ _) as [bi|].
  - destruct Hf as (F1 & F2 & F3 & F4); [lia|unfold BPB, BSIZE; lia|].
    assert (b + bi = fb) as Efb.
    { rewrite <- Hbit in F3 by lia. destruct (Z.lt_trichotomy (b + bi) fb) as [Hl|[?|Hl]]; [|done|].
      - rewrite Hlow in F3 by lia. done.
      - assert (Fs.bit_set (fb - b) (blk v (BBLOCK b sb)) = true) as Hx by (apply F4; lia).
        rewrite <- Hbit in Hx by lia. replace (b + (fb - b)) with fb in Hx by lia. congruence. }
    destruct (BPB_block b bi Hmod ltac:(lia)) as [E1 E2]. rewrite Efb in E1, E2.
    split_and!; try done. rewrite !BBLOCK_eq by lia. congruence.
  - destruct (Z.le_gt_cases (b + BPB) fb); [done|].
    assert (Fs.bit_set (fb - b) (blk v (BBLOCK b sb)) = true) as Hx
      by (apply Hf; unfold BPB, BSIZE in *; lia).
    rewrite <- Hbit in Hx by lia. replace (b + (fb - b)) with fb in Hx by lia. congruence.
Qed.

Lemma length_addl b L : (length (addl b L) <= length L + 1)%nat.
Proof. unfold addl. case_decide; [lia|]. rewrite length_app. simpl. lia. Qed.

Lemma room_addl n b L : room g (n + 1) L -> room g n (addl b L).
Proof. unfold room. pose proof (length_addl b L). lia. Qed.

Lemma balloc_loop_tx n B v L c fb b :
  meta_used g sb v -> lowest_free v fb -> held_ok v B ->
  room g 1 L -> room g 1 (addl (BBLOCK fb sb) L) ->
  0 <= b <= fb -> b mod BPB = 0 -> fb / BPB < b / BPB + Z.of_nat n ->
  triple (tx g B v L sb c) (Fs.balloc_loop n 1 b)
    (fun r s => r = fb /\ tx g B (alloc_view sb fb v) (addl fb (addl (BBLOCK fb sb) L)) sb c s).
Proof.
  intros Hm Hfree [HB Hheld] Hroom Hroom'. pose proof Hfree as (Hfb & Hu & _). revert b.
  induction n as [|n IH]; intros b Hb Hmod Hn.
  { pose proof (Z.div_le_mono b fb BPB). unfold BPB, BSIZE in *. lia. }
  cbn [Fs.balloc_loop]. eapply triple_bind; [apply get_tx|intros s0].
  apply triple_and. intros Es. apply triple_and. intros _. rewrite Es, (proj2 (Z.ltb_lt _ _)) by lia.
  destruct (BBLOCK_spec b ltac:(lia)) as [_ Hbm]. destruct (BBLOCK_home b ltac:(lia)) as [Hh _].
  assert (BBLOCK b sb ∉ B) as HbB by (intros Hx; by apply Hheld in Hx as (_ & _ & Hx)).
  apply (triple_pure (len_ok v)); [intros s Hs b'; by eapply tx_len_block|intros Hlen].
  apply (triple_pure (BBLOCK b sb ∈ L \/ blk v (BBLOCK b sb) = blk (g_disk g) (BBLOCK b sb)));
    [intros s Hs; by eapply tx_clean|intros Hcl].
  eapply triple_bind; [apply bread_tx; [apply Hh|done|unfold room in *; lia|done]|intros []].
  eapply triple_bind; [apply bdata_tx; done|intros d]. apply triple_and. intros ->.
  pose proof (find_free_lowest v b fb Hfree Hb Hmod) as Hf.
  pose proof (hold_release _ _ HbB) as EB.
  destruct (Fs.find_free _ b 0 _ _) as [bi|].
  - destruct Hf as (Efb & E1 & E2). rewrite Efb.
    apply modify_block_tx; [done|done|unfold room in *; lia|by rewrite length_set_bit|]. rewrite EB.
    destruct (not_meta_home fb Hfb (free_not_meta v fb Hm Hfb Hu)) as (Hhf & _).
    eapply triple_bind; [apply bzero_tx; [done| |by rewrite <- E2|done]|intros []].
    + intros Hx. apply Hheld in Hx as (_ & Hx & _). congruence.
    + apply triple_ret. intros s Hs. split; [done|]. unfold alloc_view. by rewrite E2, E1.
  - eapply triple_bind; [apply brelse_tx; [done|done]|intros []]. rewrite EB. apply IH; [unfold BPB, BSIZE in *; lia| |].
    + rewrite <- Z.add_mod_idemp_r, Z.mod_same, Z.add_0_r by (unfold BPB, BSIZE; lia). done.
    + replace (b + BPB) with (b + 1 * BPB) by lia. rewrite Z.div_add by (unfold BPB, BSIZE; lia). lia.
Qed.

(** [balloc] allocates and zeroes the lowest free block. *)
Lemma balloc_tx B v L c fb :
  meta_used g sb v -> lowest_free v fb -> held_ok v B ->
  room g 1 L -> room g 1 (addl (BBLOCK fb sb) L) ->
  triple (tx g B v L sb c) (Fs.balloc 1)
    (fun r s => r = fb /\ tx g B (alloc_view sb fb v) (addl fb (addl (BBLOCK fb sb) L)) sb c s).
Proof.
  intros Hm Hf HB Hroom Hroom'. unfold Fs.balloc. eapply triple_bind; [apply get_tx|intros s0].
  apply triple_and. intros Es. apply triple_and. intros _. rewrite Es. pose proof Hf as (Hfb & _).
  apply balloc_loop_tx; try done; [lia|].
  change (0 / BPB) with 0. pose proof (Z.div_le_mono fb (sb_size sb) BPB).
  pose proof (Z.div_pos (sb_size sb) BPB). unfold BPB, BSIZE in *. lia.
Qed.

(** [bfree] of a used block. *)
Lemma bfree_tx B v L c b :
  decode_sb (blk v 1) = sb -> 0 <= b < sb_size sb -> used v sb b = true -> held_ok v B -> 1 ∉ B -> room g 1 L ->
  triple (tx g B v L sb c) (Fs.bfree 1 b) (fun _ => tx g B (free_view sb b v) (addl (BBLOCK b sb) L) sb c).
Proof.
  intros Hsb Hb Hu [HB Hheld] H1 Hroom. unfold Fs.bfree.
  destruct (BBLOCK_spec b ltac:(lia)) as [_ Hbm]. destruct (BBLOCK_home b ltac:(lia)) as [Hh Hh1].
  assert (BBLOCK b sb ∉ B) as HbB by (intros Hx; by apply Hheld in Hx as (_ & _ & Hx)).
  apply (triple_pure (len_ok v)); [intros s Hs b'; by eapply tx_len_block|intros Hlen].
  eapply triple_bind; [apply readsb_tx; [destruct Hly; lia|done|unfold room in *; lia|done]|intros []].
  rewrite Hsb. eapply triple_bind; [apply get_tx|intros s0].
  apply triple_and. intros Es. apply triple_and. intros _. rewrite Es.
  eapply triple_bind; [apply bread_tx; [apply Hh|done|unfold room in *; lia|done]|intros []].
  eapply triple_bind; [apply bdata_tx; done|intros d]. apply triple_and. intros ->.
  change (Fs.bit_set (b mod BPB) (blk v (BBLOCK b sb))) with (used v sb b). rewrite Hu.
  eapply triple_post; [apply modify_block_end_tx; [done|done|done|by rewrite length_clear_bit]|].
  intros [] s. by rewrite hold_release.
Qed.

(** ** Counting free blocks *)

Definition free_list (v : gmap Z bytes) : list Z := filter (fun b => used v sb b = false) (seqZ 0 (sb_size sb)).
Definition nfree (v : gmap Z bytes) : nat := length (free_list v).

Lemma elem_free_list v b : b ∈ free_list v <-> used v sb b = false /\ 0 <= b < sb_size sb.
Proof. unfold free_list. rewrite list_elem_of_filter, elem_of_seqZ. split; intros [? ?]; split; done || lia. Qed.

Lemma lowest_free_exists v : (0 < nfree v)%nat -> exists fb, lowest_free v fb.
Proof.
  unfold nfree. intros Hn. destruct (free_list v) as [|b0 l] eqn:E; [simpl in Hn; lia|].
  assert (forall n b, Z.of_nat n = b -> b ∈ free_list v -> exists fb, lowest_free v fb) as Hmin.
  { intros n. induction (lt_wf n) as [n _ IH]. intros b Eb Hb. apply elem_free_list in Hb as [Hu Hb].
    destruct (decide (Forall (fun x => used v sb x = true) (seqZ 0 b))) as [Ha|Ha].
    - exists b. split; [done|]. split; [done|]. intros x Hx. rewrite Forall_forall in Ha. apply Ha, elem_of_seqZ. lia.
    - apply not_Forall_Exists, Exists_exists in Ha as (x & Hx & Hxu); [|apply _].
      apply elem_of_seqZ in Hx. apply (IH (Z.to_nat x)) with x; [lia|lia|].
      apply elem_free_list. split; [by apply not_true_is_false|lia]. }
  apply (Hmin (Z.to_nat b0) b0).
  - assert (b0 ∈ free_list v) as Hb by (rewrite E; set_solver). apply elem_free_list in Hb. lia.
  - rewrite E. set_solver.
Qed.

Lemma nfree_alloc v fb : len_ok v -> meta_used g sb v -> lowest_free v fb ->
  (nfree v <= nfree (alloc_view sb fb v) + 1)%nat.
Proof.
  intros Hl Hm Hf. pose proof Hf as (Hfb & Hu & _).
  destruct (not_meta_home fb Hfb (free_not_meta v fb Hm Hfb Hu)) as (_ & _ & Hnb & _).
  unfold nfree. transitivity (length (fb :: free_list (alloc_view sb fb v))); [|simpl; lia].
  apply submseteq_length, NoDup_submseteq; [apply NoDup_filter, NoDup_seqZ|].
  intros b Hb. apply elem_free_list in Hb as [Hbu Hb].
  destruct (decide (b = fb)) as [->|Hne]; [set_solver|]. apply elem_of_cons. right.
  apply elem_free_list. split; [|done]. rewrite used_alloc by done. by rewrite decide_False.
Qed.

End block.
