(* ===== verification/FsFile.v ===== *)
(** * The blocks of an inode: bmap

    A file as the sequence of blocks its inode names, directly and through the
    indirect block.  [bmap] grows the sequence one block at a time. *)

From S2P Require Import Prelude Memory Layout Spinlock Block Bio Log Fs FsTx FsBlock.

(** The constants of fs.h as numbers. *)
Ltac fs_consts := change MAXFILE with 140 in *; change NINDIRECT with 128 in *;
  change NDIRECT with 12 in *; change BSIZE with 512 in *.

(** The indirect block of an inode, and the disk address of its block [bn]. *)
Definition ind (ip : inode) : Z := nth (Z.to_nat NDIRECT) (addrs ip) 0.

Definition addr_of (v : gmap Z bytes) (ip : inode) (bn : Z) : Z :=
  if bn <? NDIRECT then nth (Z.to_nat bn) (addrs ip) 0
  else if ind ip =? 0 then 0 else word (4 * Z.to_nat (bn - NDIRECT)) (blk v (ind ip)).

Lemma le_val_zeros l : Forall (fun b => b = 0) l -> le_val l = 0.
Proof. induction 1 as [|b l -> _ IH]; simpl; [done|]. by rewrite IH. Qed.

Lemma word_zblock off : word off zblock = 0.
Proof. unfold word, sub, zblock. apply le_val_zeros, Forall_take, Forall_drop, Forall_replicate. done. Qed.

Section file.
Context (g : geo) (sb : superblock) (Hly : layout g sb).

(** A block allocated to some file. *)
Definition datab (v : gmap Z bytes) (a : Z) : Prop :=
  0 <= a < sb_size sb /\ ~ meta g sb a /\ used v sb a = true.

(** An in-memory inode whose blocks are allocated and distinct. *)
Record ino_ok (v : gmap Z bytes) (ip : inode) : Prop := MkInoOk {
  io_dev : idev ip = 1;
  io_len : length (addrs ip) = 13%nat;
  io_ind : ind ip <> 0 -> datab v (ind ip);
  io_data : forall bn, 0 <= bn < MAXFILE -> addr_of v ip bn <> 0 ->
    datab v (addr_of v ip bn) /\ addr_of v ip bn <> ind ip;
  io_inj : forall bn bn', 0 <= bn < MAXFILE -> 0 <= bn' < MAXFILE ->
    addr_of v ip bn = addr_of v ip bn' -> addr_of v ip bn <> 0 -> bn = bn'
}.

Lemma datab_home v a : datab v a -> home g a /\ a <> 0 /\ ~ is_bmap sb a /\ ~ is_iblock sb a.
Proof. intros (Hr & Hm & _). by apply (not_meta_home g sb Hly). Qed.

(** ** Allocating a block *)

Section alloc.
Context (v : gmap Z bytes) (fb : Z).
Context (Hlen : len_ok v) (Hmeta : meta_used g sb v) (Hfree : lowest_free sb v fb).

Lemma fb_facts : 0 <= fb < sb_size sb /\ used v sb fb = false /\ home g fb /\ fb <> 0 /\
  ~ is_bmap sb fb /\ ~ is_iblock sb fb /\ ~ meta g sb fb.
Proof.
  destruct Hfree as (Hr & Hu & _). pose proof (free_not_meta g sb v fb Hmeta Hr Hu) as Hm.
  destruct (not_meta_home g sb Hly fb Hr Hm) as (? & ? & ? & ?). done.
Qed.

Lemma alloc_blk b : b <> fb -> ~ is_bmap sb b -> blk (alloc_view sb fb v) b = blk v b.
Proof.
  intros Hb Hbm. unfold alloc_view. rewrite !blk_insert_ne; [done| |done].
  intros <-. apply Hbm. by apply (BBLOCK_spec g sb Hly), Hfree.
Qed.

Lemma alloc_zero : blk (alloc_view sb fb v) fb = zblock.
Proof. apply blk_insert_eq. Qed.

Lemma alloc_used b : 0 <= b < sb_size sb ->
  used (alloc_view sb fb v) sb b = if decide (b = fb) then true else used v sb b.
Proof. intros Hb. destruct fb_facts as (? & _ & _ & _ & ? & _). by apply (used_alloc g sb Hly). Qed.

Lemma alloc_meta : meta_used g sb (alloc_view sb fb v).
Proof. intros b Hb Hm. rewrite alloc_used by done. case_decide; [done|]. by apply Hmeta. Qed.

Lemma alloc_len : len_ok (alloc_view sb fb v).
Proof.
  intros b. unfold alloc_view. rewrite !blk_insert. repeat case_decide; [done| |done].
  by rewrite length_set_bit.
Qed.

Lemma alloc_datab b : datab v b -> datab (alloc_view sb fb v) b /\ b <> fb /\ ~ is_bmap sb b.
Proof.
  intros (Hr & Hm & Hu). destruct fb_facts as (_ & Hfu & _).
  assert (b <> fb) as Hne by (intros ->; congruence).
  split; [|split; [done|unfold meta in Hm; tauto]].
  split; [done|]. split; [done|]. rewrite alloc_used by done. by rewrite decide_False.
Qed.

Lemma alloc_new_datab : datab (alloc_view sb fb v) fb.
Proof.
  destruct fb_facts as (? & _ & _ & _ & _ & _ & ?). split_and!; try done; try lia.
  rewrite alloc_used by done. by rewrite decide_True.
Qed.

Lemma alloc_addr ip bn : ino_ok v ip -> addr_of (alloc_view sb fb v) ip bn = addr_of v ip bn.
Proof.
  intros H. unfold addr_of. destruct (bn <? NDIRECT); [done|]. destruct (Z.eqb_spec (ind ip) 0); [done|].
  destruct (alloc_datab (ind ip)) as (_ & Hne & Hbm); [by apply H|]. by rewrite alloc_blk.
Qed.

Lemma alloc_ino ip : ino_ok v ip -> ino_ok (alloc_view sb fb v) ip.
Proof.
  intros H. split; try apply H.
  - intros Hi. by apply alloc_datab, H.
  - intros bn Hbn. rewrite alloc_addr by done. intros Ha. destruct (io_data _ _ H bn Hbn Ha) as [Hd Hne].
    split; [by apply alloc_datab|done].
  - intros bn bn' Hb Hb'. rewrite !alloc_addr by done. by apply H.
Qed.

(** A fresh block is none of an inode's. *)
Lemma alloc_fresh ip bn : ino_ok v ip -> 0 <= bn < MAXFILE -> addr_of v ip bn <> fb /\ ind ip <> fb.
Proof.
  intros H Hbn. destruct fb_facts as (_ & Hu & _ & Hz & _). split; intros E.
  - destruct (io_data _ _ H bn Hbn) as [(_ & _ & Hx) _]; [congruence|]. rewrite E in Hx. congruence.
  - destruct (io_ind _ _ H) as (_ & _ & Hx); [congruence|]. rewrite E in Hx. congruence.
Qed.

(** *** The new block becomes part of an inode *)

Context (ip : inode) (Hip : ino_ok v ip).
Let v1 := alloc_view sb fb v.

(** Block [bn] of the inode becomes [fb], the other blocks stay. *)
Lemma ino_ok_put v' ip' bn :
  0 <= bn < MAXFILE -> addr_of v ip bn = 0 ->
  (forall b, datab v1 b -> datab v' b) -> idev ip' = idev ip -> length (addrs ip') = 13%nat ->
  ind ip' = ind ip ->
  (forall n, 0 <= n < MAXFILE -> addr_of v' ip' n = if decide (n = bn) then fb else addr_of v ip n) ->
  ino_ok v' ip'.
Proof.
  intros Hbn H0 Hd Ed El Ei Ha. destruct fb_facts as (_ & _ & _ & Hz & _). split.
  - rewrite Ed. apply Hip.
  - done.
  - rewrite Ei. intros Hi. by apply Hd, alloc_datab, Hip.
  - intros n Hn. rewrite Ha, Ei by done. case_decide.
    + intros _. split; [by apply Hd, alloc_new_datab|]. apply not_eq_sym. by apply (alloc_fresh ip bn).
    + intros Hnz. destruct (io_data _ _ Hip n Hn Hnz) as [H1 H2]. split; [|done]. by apply Hd, alloc_datab.
  - intros n n' Hn Hn'. rewrite !Ha by done. destruct (alloc_fresh ip n Hip Hn), (alloc_fresh ip n' Hip Hn').
    repeat case_decide; intros; subst; try done. by apply (io_inj _ _ Hip).
Qed.

Lemma nth_insert {A} (l : list A) i j x d : (i < length l)%nat ->
  nth j (<[i := x]> l) d = if decide (j = i) then x else nth j l d.
Proof.
  intros Hi. rewrite !nth_lookup. case_decide; [subst|].
  - by rewrite list_lookup_insert_eq.
  - by rewrite list_lookup_insert_ne.
Qed.

Definition put_direct (bn : Z) : inode := set_addrs (<[Z.to_nat bn := fb]> (addrs ip)) ip.

Lemma put_direct_addr bn n : 0 <= bn < NDIRECT -> 0 <= n < MAXFILE ->
  addr_of v1 (put_direct bn) n = if decide (n = bn) then fb else addr_of v ip n.
Proof.
  intros Hbn Hn. pose proof (io_len _ _ Hip) as Hl. rewrite <- (alloc_addr ip n Hip). fold v1. unfold addr_of.
  assert (ind (put_direct bn) = ind ip) as ->.
  { unfold ind, put_direct. simpl. rewrite nth_insert by (unfold NDIRECT in *; lia).
    rewrite decide_False; [done|]. unfold NDIRECT in *. lia. }
  destruct (Z.ltb_spec n NDIRECT).
  - simpl. rewrite nth_insert by (unfold NDIRECT in *; lia).
    destruct (decide (n = bn)) as [->|]; [by rewrite decide_True|]. rewrite decide_False by lia. done.
  - rewrite decide_False by lia. done.
Qed.

Lemma put_direct_ok bn : 0 <= bn < NDIRECT -> addr_of v ip bn = 0 -> ino_ok v1 (put_direct bn).
Proof.
  intros Hbn H0. pose proof (io_len _ _ Hip) as Hl.
  apply (ino_ok_put v1 (put_direct bn) bn); try done.
  - fs_consts. lia.
  - unfold put_direct. simpl. by rewrite length_insert.
  - unfold ind, put_direct. simpl. rewrite nth_insert by (unfold NDIRECT in *; lia).
    rewrite decide_False; [done|]. unfold NDIRECT in *. lia.
  - intros n Hn. by apply put_direct_addr.
Qed.

(** The new block becomes the indirect block. *)
Definition put_ind : inode := set_addrs (<[Z.to_nat NDIRECT := fb]> (addrs ip)) ip.

Lemma put_ind_ind : ind put_ind = fb.
Proof.
  unfold ind, put_ind. simpl. rewrite nth_insert by (rewrite (io_len _ _ Hip); unfold NDIRECT; lia).
  by rewrite decide_True.
Qed.

Lemma put_ind_addr n : 0 <= n -> ind ip = 0 -> addr_of v1 put_ind n = addr_of v ip n.
Proof.
  intros Hn H0. unfold addr_of. rewrite put_ind_ind, H0. destruct (Z.ltb_spec n NDIRECT) as [Hl|Hl].
  - unfold put_ind. simpl. rewrite nth_insert by (rewrite (io_len _ _ Hip); unfold NDIRECT; lia).
    rewrite decide_False by (unfold NDIRECT in *; lia). done.
  - destruct fb_facts as (_ & _ & _ & Hz & _). rewrite (proj2 (Z.eqb_neq fb 0)) by done.
    subst v1. rewrite alloc_zero. apply word_zblock.
Qed.

Lemma put_ind_ok : ind ip = 0 -> ino_ok v1 put_ind.
Proof.
  intros H0. destruct fb_facts as (_ & _ & _ & Hz & _). split.
  - apply Hip.
  - unfold put_ind. simpl. rewrite length_insert. apply Hip.
  - intros _. rewrite put_ind_ind. apply alloc_new_datab.
  - intros n Hn. rewrite put_ind_addr, put_ind_ind by (done || lia). intros Hnz.
    destruct (io_data _ _ Hip n Hn Hnz). split; [by apply alloc_datab|]. by apply (alloc_fresh ip n).
  - intros n n' Hn Hn'. rewrite !put_ind_addr by (done || lia). by apply Hip.
Qed.

(** The new block is entered in the indirect block. *)
Definition put_entry (bn : Z) : gmap Z bytes :=
  <[ind ip := set_word (4 * Z.to_nat (bn - NDIRECT)) fb (blk v1 (ind ip))]> v1.

Lemma entry_word n (d : bytes) : length d = Z.to_nat BSIZE -> NDIRECT <= n < MAXFILE ->
  (4 * Z.to_nat (n - NDIRECT) + 4 <= length d)%nat.
Proof. intros -> Hn. fs_consts. lia. Qed.

Lemma put_entry_used bn b : 0 <= b < sb_size sb -> ind ip <> 0 -> used (put_entry bn) sb b = used v1 sb b.
Proof.
  intros Hb Hi. apply (used_insert_other g sb Hly); [done|]. apply datab_home with v. by apply Hip.
Qed.

Lemma put_entry_datab bn b : ind ip <> 0 -> datab v1 b -> datab (put_entry bn) b.
Proof. intros Hi (H1 & H2 & H3). split; [done|]. split; [done|]. by rewrite put_entry_used. Qed.

Lemma put_entry_addr bn n : ind ip <> 0 -> NDIRECT <= bn < MAXFILE -> 0 <= n < MAXFILE ->
  addr_of (put_entry bn) ip n = if decide (n = bn) then fb else addr_of v ip n.
Proof.
  intros Hi Hbn Hn. rewrite <- (alloc_addr ip n Hip). fold v1. unfold addr_of, put_entry.
  destruct (Z.ltb_spec n NDIRECT); [by rewrite decide_False by lia|].
  rewrite (proj2 (Z.eqb_neq (ind ip) 0)) by done. rewrite blk_insert_eq.
  assert (length (blk v1 (ind ip)) = Z.to_nat BSIZE) as Hl by apply alloc_len.
  pose proof (entry_word bn _ Hl Hbn). pose proof (entry_word n _ Hl ltac:(lia)).
  case_decide as E; [subst n|].
  - apply word_set_word_eq; [done|]. destruct fb_facts as (Hr & _). destruct Hly. lia.
  - apply word_set_word_ne; [done|]. lia.
Qed.

Lemma put_entry_ok bn : ind ip <> 0 -> NDIRECT <= bn < MAXFILE -> addr_of v ip bn = 0 ->
  ino_ok (put_entry bn) ip.
Proof.
  intros Hi Hbn H0. apply (ino_ok_put _ _ bn); try done.
  - fs_consts. lia.
  - intros b. by apply put_entry_datab.
  - apply Hip.
  - intros n Hn. by apply put_entry_addr.
Qed.

End alloc.

(** ** The log space a file takes

    Bitmap blocks and the indirect block are logged once however many blocks of
    a file are written; [pot] counts the log entries made, and those still to
    make for these shared blocks. *)

Definition bmaps : list Z := seqZ (sb_bmapstart sb) ((sb_size sb - 1) / BPB + 1).

Definition ind_pend (L : list Z) (ip : inode) : nat :=
  if decide (ind ip <> 0 /\ ind ip ∈ L) then 0%nat else 1%nat.

Definition pend (L : list Z) (ip : inode) : nat :=
  length (filter (fun b => b ∉ L) bmaps) + ind_pend L ip.

Definition pot (L : list Z) (ip : inode) : nat := length L + pend L ip.

Lemma elem_addl b c L : c ∈ addl b L <-> c = b \/ c ∈ L.
Proof. unfold addl. case_decide; set_solver. Qed.

Lemma bmaps_filter_le b L :
  (length (filter (fun x => x ∉ addl b L) bmaps) <= length (filter (fun x => x ∉ L) bmaps))%nat.
Proof.
  apply filter_length_le. intros x _. rewrite elem_addl. tauto.
Qed.

Lemma ind_pend_le b L ip : (ind_pend (addl b L) ip <= ind_pend L ip)%nat.
Proof. unfold ind_pend. repeat case_decide; try lia. rewrite elem_addl in *. tauto. Qed.

Lemma pot_other b L ip : (pot (addl b L) ip <= pot L ip + 1)%nat.
Proof.
  unfold pot, pend. pose proof (length_addl b L). pose proof (bmaps_filter_le b L). pose proof (ind_pend_le b L ip).
  lia.
Qed.

Lemma addl_mem b L : b ∈ L -> addl b L = L.
Proof. intros H. unfold addl. by rewrite decide_True. Qed.

Lemma pot_ind L ip : ind ip <> 0 -> (pot (addl (ind ip) L) ip <= pot L ip)%nat.
Proof.
  intros Hi. destruct (decide (ind ip ∈ L)) as [|Hn]; [by rewrite addl_mem|]. unfold pot, pend.
  pose proof (length_addl (ind ip) L). pose proof (bmaps_filter_le (ind ip) L).
  assert (ind_pend (addl (ind ip) L) ip = 0%nat) as -> by (unfold ind_pend; rewrite decide_True; [done|rewrite elem_addl; auto]).
  assert (ind_pend L ip = 1%nat) as -> by (unfold ind_pend; rewrite decide_False; tauto). lia.
Qed.

Lemma pot_bmap b L ip : is_bmap sb b -> (pot (addl b L) ip <= pot L ip)%nat.
Proof.
  intros Hb. destruct (decide (b ∈ L)) as [|Hn]; [by rewrite addl_mem|]. unfold pot, pend.
  pose proof (length_addl b L). pose proof (ind_pend_le b L ip).
  assert (length (filter (fun x => x ∉ addl b L) bmaps) < length (filter (fun x => x ∉ L) bmaps))%nat; [|lia].
  apply (filter_length_lt _ _ _ b); [|apply elem_of_seqZ; unfold is_bmap in Hb; lia|done|rewrite elem_addl; tauto].
  intros x _. rewrite elem_addl. tauto.
Qed.

(** ** bmap *)

(** The file system when the inode [i] is in use. *)
Record fsok (v : gmap Z bytes) (ip : inode) : Prop := MkFsok {
  fo_len : len_ok v;
  fo_meta : meta_used g sb v;
  fo_ino : ino_ok v ip
}.

(** The free blocks, less the one an inode still needs for its indirect block. *)
Definition avail (v : gmap Z bytes) (ip : inode) : Z :=
  Z.of_nat (nfree sb v) - (if ind ip =? 0 then 1 else 0).

(** What [bmap] of block [bn] may change: [a] is the block's address after. *)
Record grown (bn : Z) (v : gmap Z bytes) (L : list Z) (ip : inode)
    (v' : gmap Z bytes) (L' : list Z) (ip' : inode) (a : Z) : Prop := MkGrown {
  gr_ok : fsok v' ip';
  gr_addr : addr_of v' ip' bn = a;
  gr_nz : a <> 0;
  gr_ip : ip' = set_addrs (addrs ip') ip;
  gr_old : addr_of v ip bn <> 0 -> v' = v /\ L' = L /\ ip' = ip;
  gr_new : addr_of v ip bn = 0 -> blk v' a = zblock /\ used v sb a = false /\ a ∈ L';
  gr_others : forall n, 0 <= n < MAXFILE -> n <> bn -> addr_of v' ip' n = addr_of v ip n;
  gr_frame : forall b, 0 <= b < sb_size sb -> used v sb b = true -> ~ is_bmap sb b -> b <> ind ip ->
    blk v' b = blk v b;
  gr_used : forall b, 0 <= b < sb_size sb -> used v sb b = true -> used v' sb b = true;
  gr_log : forall b, b ∈ L -> b ∈ L';
  gr_free : avail v ip <= avail v' ip' + 1;
  gr_pot : (pot L' ip' + (if decide (a ∈ L') then 0 else 1) <= pot L ip + 1)%nat;
  gr_ind : ind ip' = ind ip \/ used v sb (ind ip') = false
}.

(** [n] more blocks can be written, with room in the log for the shared ones. *)
Definition proom (n : Z) (L : list Z) (ip : inode) : Prop := n + Z.of_nat (pot L ip) + 4 <= g_logsize g.

Lemma proom_room n L ip : proom n L ip -> room g n L.
Proof. unfold proom, room, pot. lia. Qed.

Lemma proom_addl n m L L' ip ip' : proom n L ip -> (pot L' ip' <= pot L ip + m)%nat -> proom (n - Z.of_nat m) L' ip'.
Proof. unfold proom. lia. Qed.

Lemma held_nil v : held_ok sb v ∅.
Proof. split; [rewrite size_empty; lia|set_solver]. Qed.

Lemma held_data v a : datab v a -> held_ok sb v {[a]}.
Proof.
  intros Hd. split; [rewrite size_singleton; lia|]. intros b Hb. apply elem_of_singleton in Hb as ->.
  split; [apply Hd|]. split; [apply Hd|]. by apply (datab_home v).
Qed.

(** An allocation by [bmap]: the lowest free block, with its log entries. *)
Lemma bmap_balloc_tx B v L c ip :
  fsok v ip -> (0 < nfree sb v)%nat -> held_ok sb v B -> proom 1 L ip ->
  exists fb, lowest_free sb v fb /\ is_bmap sb (BBLOCK fb sb) /\
  triple (tx g B v L sb c) (Fs.balloc 1)
    (fun r s => r = fb /\ tx g B (alloc_view sb fb v) (addl fb (addl (BBLOCK fb sb) L)) sb c s).
Proof.
  intros [Hl Hm Hip] Hn HB Hroom. destruct (lowest_free_exists g sb Hly v Hn) as [fb Hf]. exists fb.
  assert (is_bmap sb (BBLOCK fb sb)) as Hbm by (apply (BBLOCK_spec g sb Hly); apply Hf).
  split; [done|]. split; [done|]. apply (balloc_tx g sb Hly); try done.
  - by eapply proom_room.
  - pose proof (pot_bmap (BBLOCK fb sb) L ip Hbm). eapply proom_room.
    apply (proom_addl 1 0 L _ ip ip Hroom). lia.
Qed.

(** The state after [bmap]. *)
Definition bmap_post (i : nat) (bn : Z) (v : gmap Z bytes) (L : list Z) (c : nat -> inode) (a : Z) (s : fsst) : Prop :=
  exists v' L' ip' c', grown bn v L (c i) v' L' ip' a /\ c' i = ip' /\ (forall j, j <> i -> c' j = c j) /\
    tx g ∅ v' L' sb c' s.

Lemma grown_refl bn v L ip : fsok v ip -> addr_of v ip bn <> 0 -> grown bn v L ip v L ip (addr_of v ip bn).
Proof.
  intros Hok Ha. split; try done; try lia.
  - by destruct ip.
  - case_decide; lia.
Qed.

Lemma bmap_direct_new i bn v L c :
  fsok v (c i) -> 0 <= bn < NDIRECT -> addr_of v (c i) bn = 0 -> (0 < nfree sb v)%nat -> proom 1 L (c i) ->
  triple (tx g ∅ v L sb c)
    (addr ← Fs.balloc 1;
     Fs.iupd i (fun ip => set_addrs (<[Z.to_nat bn := addr]> (addrs ip)) ip);; mret addr)
    (bmap_post i bn v L c).
Proof.
  intros Hok Hbn H0 Hn Hroom. pose proof Hok as [Hl Hm Hip].
  destruct (bmap_balloc_tx ∅ v L c (c i) Hok Hn (held_nil v) Hroom) as (fb & Hf & Hbm & Ht).
  destruct (fb_facts v fb Hm Hf) as (Hr & Hu & Hh & Hz & Hnb & Hni & Hnm).
  eapply triple_bind; [exact Ht|intros r]. apply triple_and. intros ->.
  eapply triple_bind; [apply iupd_tx|intros []]. apply triple_ret. intros s Hs.
  set (ip' := put_direct fb (c i) bn).
  assert (0 <= bn < MAXFILE) as Hbm' by (fs_consts; lia).
  assert (forall n, 0 <= n < MAXFILE -> addr_of (alloc_view sb fb v) ip' n = if decide (n = bn) then fb else addr_of v (c i) n)
    as Ha by (intros; by apply put_direct_addr).
  assert (ind ip' = ind (c i)) as Hii.
  { unfold ind, ip', put_direct. simpl. rewrite nth_insert by (rewrite (io_len _ _ Hip); fs_consts; lia).
    rewrite decide_False; [done|]. fs_consts. lia. }
  eexists _, _, ip', _. split; [|split; [|split; [|exact Hs]]].
  - split.
    + split; [by apply alloc_len|by apply alloc_meta|by apply put_direct_ok].
    + rewrite Ha by done. by rewrite decide_True.
    + done.
    + done.
    + done.
    + intros _. split; [apply alloc_zero|]. split; [done|]. rewrite elem_addl. auto.
    + intros n Hnn Hne. rewrite Ha by done. by rewrite decide_False.
    + intros b Hb Hub Hbmb _. apply alloc_blk; [done..|congruence|done].
    + intros b Hb Hub. rewrite alloc_used by done. by case_decide.
    + intros b Hb. rewrite !elem_addl. auto.
    + pose proof (nfree_alloc g sb Hly v fb Hl Hm Hf). unfold avail. rewrite Hii. lia.
    + rewrite decide_True by (rewrite elem_addl; auto).
      assert (pot (addl fb (addl (BBLOCK fb sb) L)) ip' = pot (addl fb (addl (BBLOCK fb sb) L)) (c i)) as ->
        by (unfold pot, pend, ind_pend; by rewrite Hii).
      pose proof (pot_other fb (addl (BBLOCK fb sb) L) (c i)). pose proof (pot_bmap (BBLOCK fb sb) L (c i) Hbm). lia.
    + by left.
  - rewrite fn_lookup_insert. done.
  - intros j Hj. by rewrite fn_lookup_insert_ne.
Qed.

(** The indirect block is there: [r] is its address. *)
Record with_ind (v : gmap Z bytes) (L : list Z) (ip : inode)
    (v' : gmap Z bytes) (L' : list Z) (ip' : inode) (r : Z) : Prop := MkWithInd {
  wi_ok : fsok v' ip';
  wi_ind : ind ip' = r;
  wi_nz : r <> 0;
  wi_ip : ip' = set_addrs (addrs ip') ip;
  wi_old : ind ip <> 0 -> v' = v /\ L' = L /\ ip' = ip;
  wi_new : ind ip = 0 -> used v sb r = false;
  wi_addr : forall n, 0 <= n -> addr_of v' ip' n = addr_of v ip n;
  wi_frame : forall b, 0 <= b < sb_size sb -> used v sb b = true -> ~ is_bmap sb b -> blk v' b = blk v b;
  wi_used : forall b, 0 <= b < sb_size sb -> used v sb b = true -> used v' sb b = true;
  wi_log : forall b, b ∈ L -> b ∈ L';
  wi_free : avail v ip <= avail v' ip';
  wi_pot : (pot L' ip' <= pot L ip)%nat
}.

Lemma pot_new_ind L ip ip' : ind ip = 0 -> (pot L ip' <= pot L ip)%nat.
Proof. intros H. unfold pot, pend, ind_pend. repeat case_decide; lia || naive_solver. Qed.

Lemma bmap_ind i v L c :
  fsok v (c i) -> (0 < nfree sb v)%nat -> proom 1 L (c i) ->
  triple (tx g ∅ v L sb c)
    (if ind (c i) =? 0 then
       addr ← Fs.balloc 1;
       Fs.iupd i (fun ip => set_addrs (<[Z.to_nat NDIRECT := addr]> (addrs ip)) ip);; mret addr
     else mret (ind (c i)))
    (fun r s => exists v' L' c', with_ind v L (c i) v' L' (c' i) r /\ (forall j, j <> i -> c' j = c j) /\
       tx g ∅ v' L' sb c' s).
Proof.
  intros Hok Hn Hroom. pose proof Hok as [Hl Hm Hip]. destruct (Z.eqb_spec (ind (c i)) 0) as [H0|H0].
  - destruct (bmap_balloc_tx ∅ v L c (c i) Hok Hn (held_nil v) Hroom) as (fb & Hf & Hbm & Ht).
    destruct (fb_facts v fb Hm Hf) as (Hr & Hu & Hh & Hz & Hnb & Hni & Hnm).
    eapply triple_bind; [exact Ht|intros r]. apply triple_and. intros ->.
    eapply triple_bind; [apply iupd_tx|intros []]. apply triple_ret. intros s Hs.
    eexists _, _, _. split; [|split; [|exact Hs]]; [|intros j Hj; by rewrite fn_lookup_insert_ne].
    rewrite fn_lookup_insert. change (set_addrs _ (c i)) with (put_ind fb (c i)). split; try done.
    + split; [by apply alloc_len|by apply alloc_meta|by apply put_ind_ok].
    + by apply (put_ind_ind v).
    + intros n Hnn. by apply put_ind_addr.
    + intros b Hb Hub Hbmb. apply alloc_blk; [done..|congruence|done].
    + intros b Hb Hub. rewrite alloc_used by done. by case_decide.
    + intros b Hb. rewrite !elem_addl. auto.
    + pose proof (nfree_alloc g sb Hly v fb Hl Hm Hf). unfold avail. rewrite H0, (put_ind_ind v fb _ Hip).
      rewrite (proj2 (Z.eqb_neq fb 0)) by done. simpl. lia.
    + etransitivity; [|apply (pot_new_ind L (c i) (put_ind fb (c i)) H0)].
      pose proof (pot_ind (addl (BBLOCK fb sb) L) (put_ind fb (c i))) as Hp.
      rewrite (put_ind_ind v fb _ Hip) in Hp. specialize (Hp Hz).
      pose proof (pot_bmap (BBLOCK fb sb) L (put_ind fb (c i)) Hbm). lia.
  - apply triple_ret. intros s Hs. exists v, L, c. split; [|done]. split; try done; try lia. by destruct (c i).
Qed.

Lemma grown_entry bn v L ip fb :
  fsok v ip -> ind ip <> 0 -> NDIRECT <= bn < MAXFILE -> addr_of v ip bn = 0 -> lowest_free sb v fb ->
  is_bmap sb (BBLOCK fb sb) ->
  grown bn v L ip (put_entry v fb ip bn) (addl (ind ip) (addl fb (addl (BBLOCK fb sb) L))) ip fb.
Proof.
  intros Hok Hi Hbn H0 Hf Hbm. pose proof Hok as [Hl Hm Hip].
  destruct (fb_facts v fb Hm Hf) as (Hr & Hu & Hh & Hz & Hnb & Hni & Hnm).
  destruct (alloc_datab v fb Hl Hm Hf (ind ip) (io_ind _ _ Hip Hi)) as (Hdi & Hne & Hnbi).
  assert (0 <= bn < MAXFILE) as Hbn' by (fs_consts; lia).
  assert (forall n, 0 <= n < MAXFILE -> addr_of (put_entry v fb ip bn) ip n = if decide (n = bn) then fb else addr_of v ip n)
    as Ha by (intros; by apply put_entry_addr).
  assert (forall b, 0 <= b < sb_size sb -> used (put_entry v fb ip bn) sb b = if decide (b = fb) then true else used v sb b)
    as Hus by (intros; rewrite put_entry_used by done; by apply alloc_used).
  split; try done.
  - split.
    + intros b. unfold put_entry. rewrite blk_insert. case_decide; [|by apply alloc_len].
      rewrite length_set_word; [by apply alloc_len|]. apply entry_word; [by apply alloc_len|done].
    + intros b Hb Hmb. rewrite Hus by done. case_decide; [done|]. by apply Hm.
    + by apply put_entry_ok.
  - rewrite Ha by done. by rewrite decide_True.
  - by destruct ip.
  - intros _. split; [|split; [done|rewrite !elem_addl; auto]].
    unfold put_entry. rewrite blk_insert_ne by done. apply alloc_zero.
  - intros n Hn Hnn. rewrite Ha by done. by rewrite decide_False.
  - intros b Hb Hub Hbb Hbi. unfold put_entry. rewrite blk_insert_ne by done.
    apply alloc_blk; [done..|congruence|done].
  - intros b Hb Hub. rewrite Hus by done. by case_decide.
  - intros b Hb. rewrite !elem_addl. auto.
  - pose proof (nfree_alloc g sb Hly v fb Hl Hm Hf) as Hnf.
    assert (free_list sb (put_entry v fb ip bn) = free_list sb (alloc_view sb fb v)) as E;
      [|unfold avail, nfree in *; rewrite E; lia].
    unfold free_list. apply filter_ext_in. intros b Hb. apply elem_of_seqZ in Hb.
    rewrite Hus by lia. rewrite alloc_used by (done || lia). done.
  - rewrite decide_True by (rewrite !elem_addl; auto).
    pose proof (pot_ind (addl fb (addl (BBLOCK fb sb) L)) ip Hi).
    pose proof (pot_other fb (addl (BBLOCK fb sb) L) ip). pose proof (pot_bmap (BBLOCK fb sb) L ip Hbm). lia.
  - by left.
Qed.

(** A new entry of the indirect block [b], which is held. *)
Lemma bmap_entry_new i bn v L c :
  let b := ind (c i) in let off := (4 * Z.to_nat (bn - NDIRECT))%nat in
  fsok v (c i) -> b <> 0 -> NDIRECT <= bn < MAXFILE -> addr_of v (c i) bn = 0 ->
  (0 < nfree sb v)%nat -> proom 2 L (c i) ->
  triple (tx g {[b]} v L sb c)
    (addr ← Fs.balloc 1; Fs.bstore b (set_word off addr (blk v b));; Fs.log_write b;; mret addr)
    (fun a s => exists v' L', grown bn v L (c i) v' L' (c i) a /\ b ∈ L' /\ tx g {[b]} v' L' sb c s).
Proof.
  intros b off Hok Hi Hbn H0 Hn Hroom. pose proof Hok as [Hl Hm Hip].
  pose proof (io_ind _ _ Hip Hi) as Hdi. destruct (datab_home v _ Hdi) as (Hh & _ & Hnb & _). fold b in Hdi, Hh, Hnb.
  destruct (bmap_balloc_tx {[b]} v L c (c i) Hok Hn (held_data v b Hdi)) as (fb & Hf & Hbm & Ht);
    [unfold proom in *; lia|].
  pose proof (grown_entry bn v L (c i) fb Hok Hi Hbn H0 Hf Hbm) as Hg.
  destruct (alloc_datab v fb Hl Hm Hf b Hdi) as (_ & Hne & _).
  assert (blk (alloc_view sb fb v) b = blk v b) as Eb by (by apply alloc_blk).
  eapply triple_bind; [exact Ht|intros r]. apply triple_and. intros ->.
  eapply triple_bind; [apply bstore_tx; [set_solver|]|intros []].
  { rewrite length_set_word; [done|]. subst off. by apply entry_word. }
  eapply triple_bind; [apply log_write_tx; [set_solver|done|]|intros []].
  - eapply (proom_room 1 _ (c i)). apply (proom_addl 2 1 L _ (c i) (c i) Hroom).
    pose proof (pot_other fb (addl (BBLOCK fb sb) L) (c i)). pose proof (pot_bmap (BBLOCK fb sb) L (c i) Hbm). lia.
  - apply triple_ret. intros s Hs. eexists _, _. split; [exact Hg|]. split; [rewrite elem_addl; auto|].
    unfold put_entry. fold b off. by rewrite Eb.
Qed.

Lemma bmap_entry i bn v L c :
  let b := ind (c i) in let off := (4 * Z.to_nat (bn - NDIRECT))%nat in
  fsok v (c i) -> b <> 0 -> NDIRECT <= bn < MAXFILE -> (0 < nfree sb v)%nat -> proom 2 L (c i) ->
  triple (tx g ∅ v L sb c)
    (Fs.bread 1 b;;
     d ← Fs.bdata b;
     addr ← (if word off d =? 0 then
               addr ← Fs.balloc 1; Fs.bstore b (set_word off addr d);; Fs.log_write b;; mret addr
             else mret (word off d));
     Fs.brelse b;;
     mret addr)
    (fun a s => exists v' L', grown bn v L (c i) v' L' (c i) a /\ tx g ∅ v' L' sb c s).
Proof.
  intros b off Hok Hi Hbn Hn Hroom. pose proof Hok as [Hl Hm Hip].
  pose proof (io_ind _ _ Hip Hi) as Hdi. destruct (datab_home v _ Hdi) as (Hh & _ & Hnb & _). fold b in Hdi, Hh, Hnb.
  assert (addr_of v (c i) bn = word off (blk v b)) as Ea.
  { unfold addr_of. fold b. rewrite (proj2 (Z.ltb_ge _ _)), (proj2 (Z.eqb_neq b 0)) by (done || lia). done. }
  assert (room g 0 L) as Hr0 by (unfold proom, pot in Hroom; unfold room; lia).
  apply (triple_pure (b ∈ L \/ blk v b = blk (g_disk g) b)); [intros s Hs; by eapply tx_clean|intros Hcl].
  eapply triple_bind; [apply bread_tx; [apply Hh|set_solver|done|rewrite size_empty; lia]|intros []].
  rewrite union_empty_r_L.
  eapply triple_bind; [apply bdata_tx; set_solver|intros d]. apply triple_and. intros ->. rewrite <- Ea.
  eapply triple_bind with (Q := fun a s => exists v' L', grown bn v L (c i) v' L' (c i) a /\
    (b ∈ L' \/ blk v' b = blk (g_disk g) b) /\ tx g {[b]} v' L' sb c s).
  - destruct (Z.eqb_spec (addr_of v (c i) bn) 0) as [H0|H0].
    + eapply triple_post; [by apply bmap_entry_new|]. intros a s (v' & L' & ? & ? & ?). eauto 10.
    + apply triple_ret. intros s Hs. exists v, L. split; [by apply grown_refl|]. done.
  - intros a s (v' & L' & Hg & Hcl' & Hs). revert s Hs.
    eapply triple_bind; [apply brelse_tx; [set_solver|done]|intros []]. rewrite difference_diag_L.
    apply triple_ret. eauto.
Qed.

Lemma grown_ind bn v L ip v1 L1 ip1 r v' L' a :
  NDIRECT <= bn < MAXFILE -> with_ind v L ip v1 L1 ip1 r -> grown bn v1 L1 ip1 v' L' ip1 a ->
  grown bn v L ip v' L' ip1 a.
Proof.
  intros Hbn [W1 W2 W3 W4 W5 W6 W7 W8 W9 W10 W11 W12] [G1 G2 G3 G4 G5 G6 G7 G8 G9 G10 G11 G12 _].
  assert (0 <= bn < MAXFILE) as Hbn' by (fs_consts; lia).
  rewrite (W7 bn) in * by lia. split; try done.
  - intros Ha. assert (ind ip <> 0) as Hi.
    { intros Hi. apply Ha. unfold addr_of. rewrite (proj2 (Z.ltb_ge _ _)), Hi by lia. done. }
    destruct (W5 Hi) as (-> & -> & ->). by apply G5.
  - intros Ha. destruct (G6 Ha) as (E1 & E2 & E3). split; [done|]. split; [|done].
    destruct (used v sb a) eqn:Eu; [|done]. rewrite W9 in E2; [done| |done].
    destruct (io_data _ _ (fo_ino _ _ G1) bn Hbn') as [[Hr _] _]; [by rewrite G2|]. by rewrite G2 in Hr.
  - intros n Hn Hne. rewrite G7 by done. apply W7. lia.
  - intros b Hb Hu Hbm Hbi. rewrite G8; [by apply W8|done|by apply W9|done|].
    destruct (decide (ind ip = 0)) as [H0|H0]; [|by destruct (W5 H0) as (_ & _ & ->)].
    intros ->. rewrite W2, W6 in Hu by done. done.
  - intros b Hb Hu. by apply G9, W9.
  - intros b Hb. by apply G10, W10.
  - lia.
  - lia.
  - destruct (decide (ind ip = 0)) as [H0|H0]; [right; rewrite W2; by apply W6|left].
    by destruct (W5 H0) as (_ & _ & ->).
Qed.

(** [bmap] gives the address of block [bn], growing the file if need be. *)
Lemma bmap_tx i bn v L c :
  fsok v (c i) -> 0 <= bn < MAXFILE -> 1 <= avail v (c i) -> proom 2 L (c i) ->
  triple (tx g ∅ v L sb c) (Fs.bmap i bn) (bmap_post i bn v L c).
Proof.
  intros Hok Hbn Hn Hroom. pose proof Hok as [Hl Hm Hip]. unfold Fs.bmap.
  assert (proom 1 L (c i)) as Hr1 by (unfold proom in *; lia).
  assert (0 < nfree sb v)%nat as Hnf by (unfold avail in Hn; case_match; lia).
  eapply triple_bind; [apply iat_tx|intros ip]. apply triple_and. intros ->. rewrite (io_dev _ _ Hip).
  destruct (Z.ltb_spec bn NDIRECT) as [Hd|Hd].
  - assert (nth (Z.to_nat bn) (addrs (c i)) 0 = addr_of v (c i) bn) as ->
      by (unfold addr_of; by rewrite (proj2 (Z.ltb_lt _ _))).
    destruct (Z.eqb_spec (addr_of v (c i) bn) 0) as [H0|H0].
    + apply bmap_direct_new; try done; lia.
    + apply triple_ret. intros s Hs. exists v, L, (c i), c. split; [by apply grown_refl|]. done.
  - rewrite (proj2 (Z.ltb_lt _ _)) by (fs_consts; lia). fold (ind (c i)).
    eapply triple_bind; [apply bmap_ind; [done|lia|done]|intros r].
    intros s (v1 & L1 & c1 & Hw & Hc & Hs). revert s Hs. pose proof Hw as [W1 W2 W3 W4 W5 W6 W7 W8 W9 W10 W11 W12].
    rewrite <- W2. eapply triple_post; [apply bmap_entry; [done|congruence|lia| |unfold proom in *; lia]|].
    { unfold avail in *. rewrite W2, (proj2 (Z.eqb_neq r 0)) in W11 by done. lia. }
    intros a s (v' & L' & Hg & Hs). exists v', L', (c1 i), c1. split; [|done].
    eapply grown_ind; [lia|exact Hw|exact Hg].
Qed.

End file.
