(* ===== verification/FsRw.v ===== *)
(** * File contents: readi, writei

    The bytes of a file, and what [readi] and [writei] do to them at an offset. *)

From S2P Require Import Prelude Memory Layout Spinlock Block Bio Log Fs FsTx FsBlock FsFile.

(** ** The bytes of a file *)

(** A hole reads as zeros. *)
Definition fbyte (v : gmap Z bytes) (ip : inode) (o : Z) : Z :=
  let a := addr_of v ip (o / BSIZE) in
  if a =? 0 then 0 else nth (Z.to_nat (o mod BSIZE)) (blk v a) 0.

Definition content (v : gmap Z bytes) (ip : inode) (off n : Z) : bytes := fbyte v ip <$> seqZ off n.

Lemma content_app v ip off m n : 0 <= m -> 0 <= n ->
  content v ip off (m + n) = content v ip off m ++ content v ip (off + m) n.
Proof. intros. unfold content. by rewrite seqZ_app, fmap_app. Qed.

Lemma length_content v ip off n : length (content v ip off n) = Z.to_nat n.
Proof. unfold content. by rewrite length_fmap, length_seqZ. Qed.

(** Offsets within one block. *)
Lemma same_block off o : 0 <= off -> off <= o < off - off mod BSIZE + BSIZE ->
  o / BSIZE = off / BSIZE /\ o mod BSIZE = off mod BSIZE + (o - off).
Proof.
  intros H0 Ho. pose proof (Z.div_mod off BSIZE) as Hd. pose proof (Z.mod_pos_bound off BSIZE).
  split; symmetry.
  - apply (Z.div_unique _ _ _ (off mod BSIZE + (o - off))); unfold BSIZE in *; lia.
  - apply (Z.mod_unique _ _ (off / BSIZE)); unfold BSIZE in *; lia.
Qed.

Lemma sub_content v ip off m : len_ok v -> 0 <= off -> 0 <= m -> off mod BSIZE + m <= BSIZE ->
  addr_of v ip (off / BSIZE) <> 0 ->
  sub (Z.to_nat (off mod BSIZE)) (Z.to_nat m) (blk v (addr_of v ip (off / BSIZE))) = content v ip off m.
Proof.
  intros Hl Ho Hm Hom Ha. apply list_eq. intros i. unfold content. rewrite lookup_sub, list_lookup_fmap.
  pose proof (Z.mod_pos_bound off BSIZE). destruct (decide (i < Z.to_nat m)%nat) as [Hi|Hi].
  - rewrite lookup_seqZ_lt by lia. simpl. unfold fbyte.
    destruct (same_block off (off + Z.of_nat i)) as [E1 E2]; [done|unfold BSIZE in *; lia|].
    rewrite E1, E2, (proj2 (Z.eqb_neq _ 0)) by done.
    replace (Z.to_nat (off mod BSIZE + (off + Z.of_nat i - off))) with (Z.to_nat (off mod BSIZE) + i)%nat
      by (unfold BSIZE in *; lia).
    rewrite nth_lookup. destruct (lookup_lt_is_Some_2 (blk v (addr_of v ip (off / BSIZE)))
      (Z.to_nat (off mod BSIZE) + i)) as [x ->]; [rewrite Hl; unfold BSIZE in *; lia|done].
  - rewrite lookup_seqZ_ge by lia. done.
Qed.

(** Every block below the size is there. *)
Definition no_holes (v : gmap Z bytes) (ip : inode) : Prop :=
  forall bn, 0 <= bn -> bn * BSIZE < isize ip -> addr_of v ip bn <> 0.


Section rw.
Context (g : geo) (sb : superblock) (Hly : layout g sb).
#[local] Abbreviation fsok := (fsok g sb).

Lemma tx_ext B v L c c' s : (forall j, c' j = c j) -> tx g B v L sb c' s -> tx g B v L sb c s.
Proof.
  intros Hc [H1 H2 H3 H4 H5 H6 H7 H8 H9 H10 H11 H12]. split; try done. intros j. by rewrite H12, Hc.
Qed.

(** ** readi *)

(** [bmap] of a block the file has changes nothing. *)
Lemma bmap_present i bn v L c : fsok v (c i) -> 0 <= bn < MAXFILE -> addr_of v (c i) bn <> 0 -> room g 0 L ->
  triple (tx g ∅ v L sb c) (Fs.bmap i bn) (fun a s => a = addr_of v (c i) bn /\ tx g ∅ v L sb c s).
Proof.
  intros [Hl Hm Hip] Hbn Ha Hroom. unfold Fs.bmap.
  eapply triple_bind; [apply iat_tx|intros ip]. apply triple_and. intros ->. rewrite (io_dev _ _ _ _ Hip).
  unfold addr_of in *. destruct (Z.ltb_spec bn NDIRECT) as [Hd|Hd].
  - rewrite (proj2 (Z.eqb_neq _ 0)) by done. apply triple_ret. done.
  - rewrite (proj2 (Z.ltb_lt _ _)) by (fs_consts; lia). fold (ind (c i)).
    destruct (Z.eqb_spec (ind (c i)) 0) as [|Hi]; [done|]. intros s Hs. erewrite bind_ok_l by done. revert s Hs.
    destruct (datab_home g sb Hly v _ (io_ind _ _ _ _ Hip Hi)) as (Hh & _).
    intros s Hs. pose proof (tx_clean _ _ _ _ _ _ _ (ind (c i)) Hs (not_elem_of_empty _)) as Hcl. revert s Hs.
    eapply triple_bind; [apply bread_tx; [apply Hh|set_solver|done|rewrite size_empty; lia]|intros []].
    eapply triple_bind; [apply bdata_tx; set_solver|intros d]. apply triple_and. intros ->.
    rewrite (proj2 (Z.eqb_neq _ 0)) by done. intros s Hs. erewrite bind_ok_l by done. revert s Hs.
    eapply triple_bind; [apply brelse_tx; [set_solver|done]|intros []]. rewrite hold_release by set_solver.
    apply triple_ret. done.
Qed.

Lemma readi_loop_tx i n v L c : fsok v (c i) -> no_holes v (c i) -> room g 0 L -> isize (c i) <= MAXFILE * BSIZE ->
  forall fuel tot off acc, 0 <= tot <= n -> 0 <= off -> off + (n - tot) <= isize (c i) -> n - tot <= Z.of_nat fuel ->
  triple (tx g ∅ v L sb c) (Fs.readi_loop i tot off n acc fuel)
    (fun r s => r = acc ++ content v (c i) off (n - tot) /\ tx g ∅ v L sb c s).
Proof.
  intros Hok Hh Hr Hsz. induction fuel as [|fuel IH]; intros tot off acc Ht Ho Hon Hf; simpl.
  all: destruct (Z.ltb_spec tot n) as [Hlt|Hge]; [|apply triple_ret; intros s Hs; split; [|done];
    replace (n - tot) with 0 by lia; unfold content; by rewrite app_nil_r].
  { lia. }
  pose proof (Z.mod_pos_bound off BSIZE) as Hmod. pose proof (Z.div_mod off BSIZE) as Hdiv.
  set (m := Z.min (n - tot) (BSIZE - off mod BSIZE)).
  assert (0 < m <= BSIZE /\ off mod BSIZE + m <= BSIZE /\ m <= n - tot) as (Hm & Hm2 & Hm3) by (unfold m, BSIZE in *; lia).
  assert (0 <= off / BSIZE < MAXFILE) as Hbn.
  { split; [apply Z.div_pos; unfold BSIZE; lia|]. apply Z.div_lt_upper_bound; unfold BSIZE in *; lia. }
  assert (addr_of v (c i) (off / BSIZE) <> 0) as Ha by (apply Hh; unfold BSIZE in *; lia).
  pose proof Hok as [Hl _ Hip]. destruct (io_data _ _ _ _ Hip _ Hbn Ha) as [Hd _].
  eapply triple_bind; [apply iat_tx|intros ip]. apply triple_and. intros ->. rewrite (io_dev _ _ _ _ Hip).
  eapply triple_bind; [by apply bmap_present|intros a]. apply triple_and. intros ->.
  apply (read_block_tx g ∅ v L sb c _ (fun d => Fs.readi_loop i (tot + m) (u32 (off + m)) n
    (acc ++ sub (Z.to_nat (off mod BSIZE)) (Z.to_nat m) d) fuel)); [|set_solver|done|rewrite size_empty; lia|].
  { apply (datab_home g sb Hly v _ Hd). }
  rewrite sub_content by (done || lia). rewrite (u32_small (off + m)) by (fs_consts; lia).
  eapply triple_post; [apply IH; lia|]. intros r s [-> Hs]. split; [|done].
  replace (content v (c i) off (n - tot)) with (content v (c i) off (m + (n - (tot + m)))) by (f_equal; lia).
  rewrite content_app by lia. by rewrite <- app_assoc.
Qed.

(** The range check of [readi] and [writei]. *)
Lemma range_check off n : 0 <= off < 2 ^ 32 -> 0 <= n < 2 ^ 32 -> (u32 (off + n) <? off) = negb (off + n <? 2 ^ 32).
Proof.
  intros Ho Hn. destruct (Z.ltb_spec (off + n) (2 ^ 32)) as [H|H]; simpl.
  - rewrite u32_small by lia. apply Z.ltb_ge. lia.
  - apply Z.ltb_lt. unfold u32. replace (off + n) with (off + n - 2 ^ 32 + 1 * 2 ^ 32) by lia.
    rewrite Z.mod_add, Z.mod_small by lia. lia.
Qed.

Lemma readi_tx dsw i off n v L c :
  let ip := c i in let k := Z.min n (isize ip - off) in
  fsok v ip -> no_holes v ip -> room g 0 L -> isize ip <= MAXFILE * BSIZE -> itype ip <> T_DEV ->
  0 <= off < 2 ^ 32 -> 0 <= n < 2 ^ 32 ->
  triple (tx g ∅ v L sb c) (Fs.readi dsw i off n)
    (fun r s => r = (if (off <=? isize ip) && (off + n <? 2 ^ 32) then (k, content v ip off k) else (-1, [])) /\
      tx g ∅ v L sb c s).
Proof.
  intros ip k Hok Hh Hr Hsz Hty Ho Hn. unfold Fs.readi.
  eapply triple_bind; [apply iat_tx|intros x]. apply triple_and. intros ->. fold ip.
  rewrite (proj2 (Z.eqb_neq _ _) Hty), range_check by done.
  rewrite (Z.ltb_antisym off (isize ip)).
  destruct (Z.leb_spec off (isize ip)) as [H1|H1]; [|apply triple_ret; done]. simpl.
  destruct (Z.ltb_spec (off + n) (2 ^ 32)) as [H2|H2]; [|apply triple_ret; done]. cbn [negb].
  rewrite u32_small by lia.
  assert ((if isize ip <? off + n then isize ip - off else n) = k) as -> by (unfold k; split_if; lia).
  eapply triple_bind; [apply readi_loop_tx; try done; fold ip; unfold k; lia|intros r].
  apply triple_and. intros ->. apply triple_ret. intros s Hs. split; [|done].
  rewrite s32_small by (unfold k; fs_consts; lia). by rewrite Z.sub_0_r.
Qed.

(** ** Writing within a block *)

Section store.
Context (v : gmap Z bytes) (ip : inode) (bn : Z) (x : bytes).
Context (Hok : fsok v ip) (Hbn : 0 <= bn < MAXFILE) (Ha : addr_of v ip bn <> 0) (Hx : length x = Z.to_nat BSIZE).
#[local] Abbreviation a := (addr_of v ip bn).
#[local] Abbreviation v' := (<[a := x]> v).

Lemma store_facts : datab g sb v a /\ a <> ind ip /\ home g a /\ ~ is_bmap sb a.
Proof.
  destruct (io_data _ _ _ _ (fo_ino _ _ _ _ Hok) bn Hbn Ha) as [Hd Hi].
  destruct (datab_home g sb Hly v _ Hd) as (? & _ & ? & _). done.
Qed.

Lemma store_addr n : addr_of v' ip n = addr_of v ip n.
Proof.
  destruct store_facts as (_ & Hi & _). unfold addr_of at 1 3. repeat case_match; try done.
  by rewrite blk_insert_ne.
Qed.

Lemma store_used b : 0 <= b < sb_size sb -> used v' sb b = used v sb b.
Proof.
  intros Hb. destruct store_facts as (_ & _ & _ & Hn). unfold used. rewrite blk_insert_ne; [done|].
  intros E. apply Hn. rewrite E. by apply (BBLOCK_spec g sb Hly).
Qed.

Lemma store_datab b : datab g sb v' b <-> datab g sb v b.
Proof.
  unfold datab. split; intros (Hr & Hm & Hu); (split; [done|split; [done|]]).
  - by rewrite store_used in Hu.
  - by rewrite store_used.
Qed.

Lemma store_ok : fsok v' ip.
Proof.
  destruct Hok as [Hl Hm [I1 I2 I3 I4 I5]]. split; [|intros b Hb Hmb; rewrite store_used by done; by apply Hm|].
  - intros b. rewrite blk_insert. case_decide; [done|apply Hl].
  - split; try done.
    + intros Hi. apply store_datab. auto.
    + intros n Hn. rewrite store_addr, store_datab. auto.
    + intros n n' Hn Hn'. rewrite !store_addr. auto.
Qed.

Lemma store_avail : avail sb v' ip = avail sb v ip.
Proof.
  unfold avail, nfree. assert (free_list sb v' = free_list sb v) as ->; [|done].
  unfold free_list. apply filter_ext_in. intros b Hb. apply elem_of_seqZ in Hb. rewrite store_used by lia. done.
Qed.

Lemma store_fbyte o : 0 <= o < MAXFILE * BSIZE ->
  fbyte v' ip o = if decide (o / BSIZE = bn) then nth (Z.to_nat (o mod BSIZE)) x 0 else fbyte v ip o.
Proof.
  intros Ho. unfold fbyte. rewrite store_addr. case_decide as E.
  - rewrite E, (proj2 (Z.eqb_neq _ 0)) by done. by rewrite blk_insert_eq.
  - destruct (Z.eqb_spec (addr_of v ip (o / BSIZE)) 0) as [|Hz]; [done|]. rewrite blk_insert_ne; [done|].
    intros Ea. apply E. symmetry. apply (io_inj _ _ _ _ (fo_ino _ _ _ _ Hok)); try done.
    split; [apply Z.div_pos; fs_consts; lia|apply Z.div_lt_upper_bound; fs_consts; lia].
Qed.

End store.

(** ** writei *)

(** The file [ip] of [v] after [n] bytes of [src] are written at [off]: the
    bytes outside the range keep their values, blocks stay where they are and
    new ones come from the free blocks, and no other allocated block changes. *)
Record wrote (off n : Z) (src : bytes) (v : gmap Z bytes) (ip : inode)
    (v' : gmap Z bytes) (ip' : inode) : Prop := MkWrote {
  wr_ok : fsok v' ip';
  wr_ip : ip' = set_addrs (addrs ip') ip;
  wr_bytes : forall o, 0 <= o < MAXFILE * BSIZE ->
    fbyte v' ip' o = if decide (off <= o < off + n) then nth (Z.to_nat (o - off)) src 0 else fbyte v ip o;
  wr_old : forall bn, 0 <= bn < MAXFILE -> addr_of v ip bn <> 0 -> addr_of v' ip' bn = addr_of v ip bn;
  wr_new : forall bn, 0 <= bn < MAXFILE -> addr_of v ip bn = 0 ->
    addr_of v' ip' bn = 0 \/ used v sb (addr_of v' ip' bn) = false;
  wr_there : forall o, off <= o < off + n -> addr_of v' ip' (o / BSIZE) <> 0;
  wr_ind : ind ip' = ind ip \/ used v sb (ind ip') = false;
  wr_frame : forall b, 0 <= b < sb_size sb -> used v sb b = true -> ~ is_bmap sb b -> b <> ind ip ->
    (forall bn, 0 <= bn < MAXFILE -> addr_of v ip bn <> b) -> blk v' b = blk v b;
  wr_used : forall b, 0 <= b < sb_size sb -> used v sb b = true -> used v' sb b = true;
  wr_same : (forall o, off <= o < off + n -> addr_of v ip (o / BSIZE) <> 0) -> ip' = ip
}.

Lemma wrote_nil off n src v ip : fsok v ip -> n <= 0 -> wrote off n src v ip v ip.
Proof.
  intros Hok Hn. split; try done; auto; try lia.
  - by destruct ip.
  - intros o _. rewrite decide_False by lia. done.
Qed.

Lemma div_block o : 0 <= o < MAXFILE * BSIZE -> 0 <= o / BSIZE < MAXFILE.
Proof. intros. split; [apply Z.div_pos; fs_consts; lia|apply Z.div_lt_upper_bound; fs_consts; lia]. Qed.

Lemma wrote_trans off m n src v ip v1 ip1 v' ip' :
  0 <= off -> 0 <= m -> 0 <= n -> off + m + n <= MAXFILE * BSIZE -> fsok v ip ->
  wrote off m src v ip v1 ip1 -> wrote (off + m) n (drop (Z.to_nat m) src) v1 ip1 v' ip' ->
  wrote off (m + n) src v ip v' ip'.
Proof.
  intros Ho Hm Hn Hmx Hok [V1 V2 V3 V4 V5 V6 V7 V8 V9 V10] [W1 W2 W3 W4 W5 W6 W7 W8 W9 W10].
  assert (forall b, used v1 sb b = false -> 0 <= b < sb_size sb -> used v sb b = false) as Hun.
  { intros b Hf Hb. destruct (used v sb b) eqn:Hu; [|done]. by rewrite V9 in Hf. }
  assert (forall bn, 0 <= bn < MAXFILE -> addr_of v' ip' bn <> 0 -> 0 <= addr_of v' ip' bn < sb_size sb) as Hr
    by (intros bn Hb Hz; apply (io_data _ _ _ _ (fo_ino _ _ _ _ W1) bn Hb Hz)).
  split; try done.
  - rewrite W2, V2. done.
  - intros o Hoo. rewrite W3, V3 by done. repeat case_decide; try lia; try done.
    rewrite !nth_lookup, lookup_drop. do 2 f_equal. lia.
  - intros bn Hb Hz. rewrite W4; [by apply V4|done|]. by rewrite V4.
  - intros bn Hb Hz. destruct (decide (addr_of v' ip' bn = 0)) as [|Hnz]; [by left|right].
    destruct (decide (addr_of v1 ip1 bn = 0)) as [H1|H1].
    + destruct (W5 bn Hb H1) as [|Hf]; [done|]. apply Hun; auto.
    + rewrite W4 by done. by destruct (V5 bn Hb Hz).
  - intros o Hoo. destruct (decide (o < off + m)); [|apply W6; lia].
    rewrite W4; [|apply div_block; lia|]; apply V6; lia.
  - destruct W7 as [->|Hf]; [apply V7|]. destruct (decide (ind ip' = 0)) as [H0|H0].
    + pose proof (fo_meta _ _ _ _ V1 0) as Hu. rewrite H0, Hu in Hf; [done| |by left].
      destruct (ly_size _ _ Hly). lia.
    + right. apply Hun; [done|]. apply (io_ind _ _ _ _ (fo_ino _ _ _ _ W1) H0).
  - intros b Hb Hu Hbm Hi Hbn. rewrite W8; [by apply V8|done|by apply V9|done| |].
    + destruct V7 as [->|Hf]; [done|]. intros ->. congruence.
    + intros bn Hbb E. destruct (decide (addr_of v ip bn = 0)) as [H0|H0].
      * destruct (V5 bn Hbb H0) as [E0|Hf]; [|congruence].
        apply (Hbn bn Hbb). congruence.
      * apply (Hbn bn Hbb). by rewrite <- V4.
  - intros b Hb Hu. apply W9; [done|]. by apply V9.
  - intros Hp. rewrite <- V10 by (intros; apply Hp; lia). apply W10. intros o Hoo.
    rewrite V4; [apply Hp; lia|apply div_block; lia|apply Hp; lia].
Qed.

Lemma nth_zblock k : nth k zblock 0 = 0.
Proof.
  unfold zblock. rewrite nth_lookup. destruct (replicate _ 0 !! k) eqn:E; [|done].
  by apply lookup_replicate in E as [-> _].
Qed.

(** [bmap] changes no byte of the file. *)
Lemma grown_fbyte bn v L ip v1 L1 ip1 a o : 0 <= o < MAXFILE * BSIZE ->
  fsok v ip -> grown g sb bn v L ip v1 L1 ip1 a -> fbyte v1 ip1 o = fbyte v ip o.
Proof.
  intros Ho Hok [G1 G2 G3 G4 G5 G6 G7 G8 _ _ _ _ _]. pose proof (div_block o Ho) as Hob. unfold fbyte.
  destruct (decide (o / BSIZE = bn)) as [E|E].
  - rewrite E. destruct (decide (addr_of v ip bn = 0)) as [H0|H0].
    + rewrite H0, G2, (proj2 (Z.eqb_neq a 0)) by done. destruct (G6 H0) as (-> & _). simpl.
      apply nth_zblock.
    + by destruct (G5 H0) as (-> & _ & ->).
  - rewrite G7 by done. destruct (Z.eqb_spec (addr_of v ip (o / BSIZE)) 0) as [|Hz]; [done|].
    destruct (io_data _ _ _ _ (fo_ino _ _ _ _ Hok) _ Hob Hz) as [Hd Hi].
    destruct (datab_home g sb Hly v _ Hd) as (_ & _ & Hnb & _). rewrite G8; try done; apply Hd.
Qed.

(** One block of [writei]. *)
Lemma wrote_block off m src v L ip v1 L1 ip1 a :
  0 <= off -> 0 < m -> off mod BSIZE + m <= BSIZE -> off + m <= MAXFILE * BSIZE -> m <= Z.of_nat (length src) ->
  fsok v ip -> grown g sb (off / BSIZE) v L ip v1 L1 ip1 a ->
  wrote off m src v ip (<[a := splice (Z.to_nat (off mod BSIZE)) (take (Z.to_nat m) src) (blk v1 a)]> v1) ip1.
Proof.
  intros Ho Hm Hom Hmx Hsrc Hok Hg.
  assert (forall o, 0 <= o < MAXFILE * BSIZE -> fbyte v1 ip1 o = fbyte v ip o) as Hfb
    by (intros; by eapply grown_fbyte).
  destruct Hg as [G1 G2 G3 G4 G5 G6 G7 G8 G9 _ _ _ G13]. subst a.
  pose proof (div_block off ltac:(lia)) as Hbn. pose proof (Z.mod_pos_bound off BSIZE) as Hmod.
  assert (length (blk v1 (addr_of v1 ip1 (off / BSIZE))) = Z.to_nat BSIZE) as Hlb by apply G1.
  set (x := splice _ _ _). assert (length x = Z.to_nat BSIZE) as Hx.
  { unfold x. rewrite length_splice; [done|]. rewrite length_take, Hlb. unfold BSIZE in *. lia. }
  split.
  - by apply store_ok.
  - done.
  - intros o Hoo. rewrite (store_fbyte v1 ip1 (off / BSIZE)) by done. case_decide as E.
    + pose proof (Z.div_mod o BSIZE). pose proof (Z.div_mod off BSIZE). pose proof (Z.mod_pos_bound o BSIZE).
      rewrite <- Hfb by done. unfold fbyte, x. rewrite E, (proj2 (Z.eqb_neq _ 0)) by done.
      rewrite !nth_lookup, lookup_splice by (rewrite length_take, Hlb; unfold BSIZE in *; lia).
      rewrite length_take. repeat case_decide; unfold BSIZE in *; try lia; try done.
      rewrite lookup_take_lt by lia. do 2 f_equal. lia.
    + rewrite decide_False; [by apply Hfb|]. intros Hr. apply E. apply same_block; unfold BSIZE in *; lia.
  - intros bn Hb Hz. rewrite store_addr by done. destruct (decide (bn = off / BSIZE)) as [->|Hne].
    + by destruct (G5 Hz) as (-> & _ & ->).
    + by apply G7.
  - intros bn Hb Hz. rewrite store_addr by done. destruct (decide (bn = off / BSIZE)) as [->|Hne].
    + right. by apply G6.
    + left. by rewrite G7.
  - intros o Hoo. rewrite store_addr by done.
    destruct (same_block off o) as [-> _]; [done|unfold BSIZE in *; lia|done].
  - done.
  - intros b Hb Hu Hnb Hi Hbb. rewrite blk_insert_ne; [by apply G8|]. intros E.
    destruct (decide (addr_of v ip (off / BSIZE) = 0)) as [H0|H0].
    + destruct (G6 H0) as (_ & Hf & _). congruence.
    + apply (Hbb (off / BSIZE) Hbn). by destruct (G5 H0) as (-> & _ & ->).
  - intros b Hb Hu. rewrite store_used by done. by apply G9.
  - intros Hp. apply G5. apply Hp. lia.
Qed.

(** The blocks that [n] bytes at [off] touch. *)
Definition nblk (off n : Z) : Z := if n <=? 0 then 0 else (off mod BSIZE + n - 1) / BSIZE + 1.

Lemma nblk_pos off n : 0 < n -> 1 <= nblk off n.
Proof.
  intros Hn. unfold nblk. rewrite (proj2 (Z.leb_gt _ _)) by done. pose proof (Z.mod_pos_bound off BSIZE).
  assert (0 <= (off mod BSIZE + n - 1) / BSIZE); [apply Z.div_pos; unfold BSIZE in *; lia|lia].
Qed.

Lemma nblk_step off n : 0 <= off -> 0 < n ->
  nblk (off + Z.min n (BSIZE - off mod BSIZE)) (n - Z.min n (BSIZE - off mod BSIZE)) <= nblk off n - 1.
Proof.
  intros Ho Hn. pose proof (nblk_pos off n Hn) as Hp. pose proof (Z.mod_pos_bound off BSIZE).
  destruct (decide (n <= BSIZE - off mod BSIZE)) as [Hle|Hgt].
  - rewrite Z.min_l by done. rewrite Z.sub_diag. unfold nblk at 1. simpl. lia.
  - rewrite Z.min_r by lia. unfold nblk. rewrite !(proj2 (Z.leb_gt _ _)) by lia.
    assert ((off + (BSIZE - off mod BSIZE)) mod BSIZE = 0) as ->.
    { pose proof (Z.div_mod off BSIZE). symmetry. apply (Z.mod_unique _ _ (off / BSIZE + 1)); unfold BSIZE in *; lia. }
    replace (off mod BSIZE + n - 1) with (0 + (n - (BSIZE - off mod BSIZE)) - 1 + 1 * BSIZE) by lia.
    rewrite Z.div_add by (unfold BSIZE; lia). lia.
Qed.

Definition writei_post (i : nat) (off n : Z) (src : bytes) (v : gmap Z bytes) (c : nat -> inode) (s : fsst) : Prop :=
  exists v' L' c', wrote off n src v (c i) v' (c' i) /\ (forall j, j <> i -> c' j = c j) /\
    proom g sb 1 L' (c' i) /\ tx g ∅ v' L' sb c' s.

Lemma writei_loop_tx i n fuel : forall tot off src v L c,
  fsok v (c i) -> 0 <= tot <= n -> 0 <= off -> off + (n - tot) <= MAXFILE * BSIZE ->
  n - tot <= Z.of_nat (length src) -> n - tot <= Z.of_nat fuel ->
  nblk off (n - tot) <= avail sb v (c i) -> proom g sb (nblk off (n - tot) + 1) L (c i) ->
  triple (tx g ∅ v L sb c) (Fs.writei_loop i tot off n src fuel)
    (fun r s => r = off + (n - tot) /\ writei_post i off (n - tot) src v c s).
Proof.
  induction fuel as [|fuel IH]; intros tot off src v L c Hok Ht Ho Hmx Hsrc Hf Hav Hroom; simpl.
  all: destruct (Z.ltb_spec tot n) as [Hlt|Hge]; [|apply triple_ret; intros s Hs; split; [lia|];
    exists v, L, c; split; [apply wrote_nil; [done|lia]|]; split; [done|]; split; [|done];
    assert (n - tot = 0) as E by lia; by rewrite E in Hroom].
  { lia. }
  pose proof (Z.mod_pos_bound off BSIZE) as Hmod. pose proof (nblk_pos off (n - tot) ltac:(lia)) as Hnp.
  pose proof (nblk_step off (n - tot) Ho ltac:(lia)) as Hns.
  set (m := Z.min (n - tot) (BSIZE - off mod BSIZE)) in *.
  assert (0 < m <= BSIZE /\ off mod BSIZE + m <= BSIZE /\ m <= n - tot) as (Hm & Hm2 & Hm3) by (unfold m, BSIZE in *; lia).
  pose proof (div_block off ltac:(lia)) as Hbn. pose proof Hok as [Hl _ Hip].
  eapply triple_bind; [apply iat_tx|intros ip]. apply triple_and. intros ->. rewrite (io_dev _ _ _ _ Hip).
  eapply triple_bind; [apply (bmap_tx g sb Hly); [done|done|lia|unfold proom in *; lia]|intros a].
  intros s (v1 & L1 & ip1 & c1 & Hg & Hc1 & Hcj & Hs). revert s Hs.
  pose proof (wrote_block off m src v L (c i) v1 L1 ip1 a ltac:(lia) ltac:(lia) Hm2 ltac:(lia) ltac:(lia) Hok Hg) as Hw.
  destruct Hg as [G1 G2 G3 G4 G5 G6 G7 G8 G9 G10 G11 G12 G13].
  destruct (store_facts v1 ip1 (off / BSIZE) G1 Hbn ltac:(congruence)) as (Hd & _ & Hh & _). rewrite G2 in Hd, Hh.
  assert (proom g sb 1 L1 ip1) as Hr1 by (unfold proom in *; case_decide; lia).
  assert (pot sb (addl a L1) ip1 <= pot sb L (c i) + 1)%nat as Hp2.
  { case_decide; [rewrite addl_mem by done; lia|]. pose proof (pot_other g sb Hly a L1 ip1). lia. }
  eapply triple_bind; [apply bread_tx; [apply Hh|set_solver|apply (proom_room g sb 0 L1 ip1); unfold proom in *; lia
    |rewrite size_empty; lia]|intros []].
  eapply triple_bind; [apply bdata_tx; set_solver|intros d]. apply triple_and. intros ->.
  set (x := splice _ _ _) in *. assert (length x = Z.to_nat BSIZE) as Hx.
  { unfold x. rewrite length_splice; [apply G1|]. rewrite length_take, (fo_len _ _ _ _ G1 a). unfold BSIZE in *. lia. }
  apply modify_block_tx; [set_solver|done|by eapply proom_room|done|].
  rewrite hold_release by apply not_elem_of_empty. rewrite (u32_small (off + m)) by (fs_consts; lia).
  assert (avail sb (<[a := x]> v1) (c1 i) = avail sb v1 ip1) as Hav2.
  { rewrite <- G2, Hc1. apply store_avail; try done; congruence. }
  eapply triple_post; [apply IH; try lia|].
  - rewrite Hc1. apply Hw.
  - rewrite length_drop. lia.
  - rewrite Hav2. replace (n - (tot + m)) with (n - tot - m) by lia. lia.
  - rewrite Hc1. replace (n - (tot + m)) with (n - tot - m) by lia. unfold proom in *. lia.
  - intros r s [-> (v' & L' & c' & Hw' & Hcj' & Hr' & Hs)]. split; [lia|]. exists v', L', c'.
    split; [|split; [intros j Hj; by rewrite Hcj', Hcj|done]].
    replace (n - tot) with (m + (n - (tot + m))) by lia. rewrite Hc1 in Hw'.
    eapply wrote_trans; [lia|lia|lia|lia|done|exact Hw|exact Hw'].
Qed.

End rw.
