(* ===== verification/FsIno.v ===== *)
(** * Inodes on disk: the dinode codec, iupdate, ilock, writei

    The 64 bytes of a dinode hold exactly the fields of an inode; [iupdate]
    writes them and [ilock] reads them back.  With these, the whole of
    [writei]: contents, size, and the inode on disk. *)

From S2P Require Import Prelude Memory Layout Spinlock Block Bio Log Fs FsTx FsBlock FsFile FsRw.

(** ** The codec *)

Record dinode_wf (x : dinode) : Prop := MkDinodeWf {
  dw_type : - 2 ^ 15 <= d_type x < 2 ^ 15;
  dw_major : - 2 ^ 15 <= d_major x < 2 ^ 15;
  dw_minor : - 2 ^ 15 <= d_minor x < 2 ^ 15;
  dw_nlink : - 2 ^ 15 <= d_nlink x < 2 ^ 15;
  dw_size : 0 <= d_size x < 2 ^ 32;
  dw_len : length (d_addrs x) = 13%nat;
  dw_addrs : Forall (fun a => 0 <= a < 2 ^ 32) (d_addrs x)
}.

Lemma sub_splice_in off new l o n : (off + length new <= length l)%nat -> (off <= o)%nat ->
  (o + n <= off + length new)%nat -> sub o n (splice off new l) = sub (o - off) n new.
Proof.
  intros H1 H2 H3. apply list_eq. intros i. rewrite !lookup_sub. case_decide; [|done].
  rewrite lookup_splice, decide_True by lia. f_equal. lia.
Qed.

Lemma sub_app_ge o n l1 l2 : (length l1 <= o)%nat -> sub o n (l1 ++ l2) = sub (o - length l1) n l2.
Proof. intros H. unfold sub. by rewrite drop_app_ge. Qed.

Lemma sub_app_le n l1 l2 : n = length l1 -> sub 0 n (l1 ++ l2) = l1.
Proof. intros ->. unfold sub. rewrite drop_0. apply take_app_length. Qed.

Lemma s16_mod x : - 2 ^ 15 <= x < 2 ^ 15 -> s16 (x mod 2 ^ 16) = x.
Proof.
  intros H. unfold s16, u16. rewrite Z.mod_mod by lia. destruct (decide (0 <= x)).
  - rewrite Z.mod_small by lia. split_if; lia.
  - assert (x mod 2 ^ 16 = x + 2 ^ 16) as -> by (symmetry; apply (Z.mod_unique _ _ (-1)); lia). split_if; lia.
Qed.

Lemma words_cons x l : mjoin (le_enc 4 <$> x :: l) = le_enc 4 x ++ mjoin (le_enc 4 <$> l).
Proof. done. Qed.

Lemma length_words l : length (mjoin (le_enc 4 <$> l)) = (4 * length l)%nat.
Proof. induction l as [|x l IH]; [done|]. rewrite words_cons, length_app, IH, length_le_enc. simpl. lia. Qed.

Lemma word_words l i x : l !! i = Some x -> 0 <= x < 2 ^ 32 -> word (4 * i) (mjoin (le_enc 4 <$> l)) = x.
Proof.
  revert i. induction l as [|y l IH]; intros i Hi Hx; [done|]. rewrite words_cons. unfold word.
  destruct i as [|i]; simpl in Hi.
  - injection Hi as ->. rewrite sub_app_le by done. by rewrite le_val_enc_small.
  - rewrite sub_app_ge by (rewrite length_le_enc; lia). rewrite length_le_enc.
    replace (4 * S i - 4)%nat with (4 * i)%nat by lia. by apply IH.
Qed.

Lemma length_dinode_bytes x : length (d_addrs x) = 13%nat -> length (dinode_bytes x) = 64%nat.
Proof. intros H. unfold dinode_bytes. by rewrite !length_app, !length_le_enc, length_words, H. Qed.

(** The fields of the encoding. *)
Ltac field := unfold half, word, dinode_bytes;
  repeat (rewrite sub_app_ge by (rewrite length_le_enc; lia); rewrite length_le_enc; simpl Nat.sub);
  rewrite sub_app_le by (by rewrite length_le_enc); rewrite le_val_enc.

Lemma decode_dinode_bytes x : dinode_wf x -> decode_dinode 0 (dinode_bytes x) = x.
Proof.
  intros [H1 H2 H3 H4 H5 H6 H7]. destruct x as [t ma mi nl sz ad]. simpl in *. unfold decode_dinode. f_equal.
  - field. by apply s16_mod.
  - field. by apply s16_mod.
  - field. by apply s16_mod.
  - field. by apply s16_mod.
  - field. by apply Z.mod_small.
  - apply list_eq. intros i. rewrite list_lookup_fmap. destruct (decide (i < 13)%nat) as [Hi|Hi].
    + rewrite lookup_seq_lt by done. simpl. destruct (lookup_lt_is_Some_2 ad i) as [a Ha]; [lia|]. rewrite Ha. f_equal.
      unfold word, dinode_bytes. simpl d_addrs.
      repeat (rewrite sub_app_ge by (rewrite length_le_enc; lia); rewrite length_le_enc).
      rewrite <- (word_words ad i a Ha (Forall_lookup_1 _ ad i a H7 Ha)). unfold word. do 2 f_equal. lia.
    + rewrite lookup_seq_ge, lookup_ge_None_2 by lia. done.
Qed.

Lemma decode_dinode_splice off x d : (off + 64 <= length d)%nat -> dinode_wf x ->
  decode_dinode off (splice off (dinode_bytes x) d) = x.
Proof.
  intros Hl Hx. rewrite <- (decode_dinode_bytes x Hx) at 2. unfold decode_dinode, half, word.
  pose proof (length_dinode_bytes x (dw_len x Hx)) as Hb.
  rewrite !sub_splice_in by lia. f_equal; try (do 2 f_equal; lia); try (do 3 f_equal; lia).
  apply list_fmap_ext. intros j i Hi. apply lookup_seq in Hi as [-> Hj].
  rewrite sub_splice_in by lia. do 2 f_equal. lia.
Qed.

(** The other inodes of the block keep their bytes. *)
Lemma decode_dinode_other off off' x d : (off + 64 <= length d)%nat -> length (d_addrs x) = 13%nat ->
  (off' + 64 <= off \/ off + 64 <= off')%nat ->
  decode_dinode off' (splice off (dinode_bytes x) d) = decode_dinode off' d.
Proof.
  intros Hl Hx Hd. pose proof (length_dinode_bytes x Hx) as Hb. unfold decode_dinode, half, word.
  rewrite !sub_splice_ne by lia. f_equal. apply list_fmap_ext. intros j i Hi. apply lookup_seq in Hi as [-> Hj].
  by rewrite sub_splice_ne by lia.
Qed.

Section ino.
Context (g : geo) (sb : superblock) (Hly : layout g sb).
#[local] Abbreviation fsok := (fsok g sb).

(** Inode [n] of the disk. *)
Definition dinode_at (v : gmap Z bytes) (n : Z) : dinode := decode_dinode (dinode_off n) (blk v (IBLOCK n sb)).

(** The blocks after [iupdate]. *)
Definition put_inode (ip : inode) (v : gmap Z bytes) : gmap Z bytes :=
  <[IBLOCK (inum ip) sb := splice (dinode_off (inum ip)) (dinode_bytes (to_dinode ip)) (blk v (IBLOCK (inum ip) sb))]> v.

Lemma IBLOCK_spec n : 0 <= n < sb_ninodes sb -> IBLOCK n sb = sb_inodestart sb + n / IPB /\ is_iblock sb (IBLOCK n sb).
Proof.
  intros Hn. destruct Hly as [H1 H2 _ _ _ H3].
  assert (0 <= n / IPB <= (sb_ninodes sb - 1) / IPB) as Hd
    by (split; [apply Z.div_pos|apply Z.div_le_mono]; change IPB with 8; lia).
  assert (is_iblock sb (sb_inodestart sb + n / IPB)) as Hi by (unfold is_iblock; lia).
  destruct (H3 _ Hi) as [[Hr _] _]. unfold IBLOCK. rewrite Z.add_comm, u32_small by lia. done.
Qed.

Lemma dinode_off_range n : (dinode_off n + 64 <= Z.to_nat BSIZE)%nat.
Proof. unfold dinode_off. change IPB with 8. unfold DINODE_SIZE, BSIZE. pose proof (Z.mod_pos_bound n 8). lia. Qed.

Lemma put_inode_eq ip v : len_ok v -> dinode_wf (to_dinode ip) ->
  dinode_at (put_inode ip v) (inum ip) = to_dinode ip.
Proof.
  intros Hl Hw. unfold dinode_at, put_inode. rewrite blk_insert_eq. apply decode_dinode_splice; [|done].
  rewrite Hl. apply dinode_off_range.
Qed.

Lemma put_inode_ne ip v n : len_ok v -> length (addrs ip) = 13%nat ->
  0 <= inum ip < sb_ninodes sb -> 0 <= n < sb_ninodes sb -> n <> inum ip ->
  dinode_at (put_inode ip v) n = dinode_at v n.
Proof.
  intros Hl Hw Hi Hn Hne. unfold dinode_at, put_inode. rewrite blk_insert. case_decide as E; [|done].
  rewrite <- E. apply decode_dinode_other; [rewrite Hl; apply dinode_off_range|done|].
  destruct (IBLOCK_spec _ Hi) as [E1 _]. destruct (IBLOCK_spec _ Hn) as [E2 _].
  unfold dinode_off. change IPB with 8 in *. unfold DINODE_SIZE.
  pose proof (Z.div_mod n 8). pose proof (Z.div_mod (inum ip) 8).
  pose proof (Z.mod_pos_bound n 8). pose proof (Z.mod_pos_bound (inum ip) 8). lia.
Qed.

Lemma put_inode_blk ip v b : 0 <= inum ip < sb_ninodes sb -> ~ is_iblock sb b -> blk (put_inode ip v) b = blk v b.
Proof.
  intros Hi Hb. unfold put_inode. rewrite blk_insert_ne; [done|]. intros <-. by apply Hb, IBLOCK_spec.
Qed.

Lemma length_put_inode ip v : len_ok v -> length (addrs ip) = 13%nat ->
  length (splice (dinode_off (inum ip)) (dinode_bytes (to_dinode ip)) (blk v (IBLOCK (inum ip) sb))) = Z.to_nat BSIZE.
Proof.
  intros Hl Ha. rewrite length_splice, Hl; [done|]. rewrite length_dinode_bytes, Hl by done. apply dinode_off_range.
Qed.

Lemma iupdate_tx i v L c :
  len_ok v -> 0 <= inum (c i) < sb_ninodes sb -> idev (c i) = 1 -> length (addrs (c i)) = 13%nat -> room g 1 L ->
  triple (tx g ∅ v L sb c) (Fs.iupdate i)
    (fun _ => tx g ∅ (put_inode (c i) v) (addl (IBLOCK (inum (c i)) sb) L) sb c).
Proof.
  intros Hl Hi Hdev Ha Hr. destruct (IBLOCK_spec _ Hi) as [_ Hib]. destruct (ly_inode _ _ Hly _ Hib) as (Hh & _).
  unfold Fs.iupdate. eapply triple_bind; [apply iat_tx|intros ip]. apply triple_and. intros ->. rewrite Hdev.
  eapply triple_bind; [apply get_tx|intros s0]. apply triple_and. intros ->. apply triple_and. intros _.
  eapply triple_bind; [apply bread_tx; [apply Hh|set_solver|unfold room in *; lia|rewrite size_empty; lia]|intros []].
  eapply triple_bind; [apply bdata_tx; set_solver|intros d]. apply triple_and. intros ->.
  eapply triple_post; [apply modify_block_end_tx; [set_solver|done|done|by apply length_put_inode]|].
  intros [] s. by rewrite hold_release by apply not_elem_of_empty.
Qed.

(** ** ilock *)

Lemma busy_valid f : truthy ((f .| I_BUSY) .& I_VALID) = truthy (f .& I_VALID).
Proof. unfold I_BUSY, I_VALID. rewrite Z.land_lor_distr_l. change (1 .& 2) with 0. by rewrite Z.lor_0_r. Qed.

(** The inode that [ilock] leaves in the cache. *)
Definition locked_ino (v : gmap Z bytes) (ip : inode) : inode :=
  if truthy (iflags ip .& I_VALID) then set_iflags (iflags ip .| I_BUSY) ip
  else set_iflags (iflags ip .| I_BUSY .| I_VALID) (load_dinode (dinode_at v (inum ip)) ip).

Lemma ilock_tx i v L c :
  let ip := c i in
  1 <= ref ip -> truthy (iflags ip .& I_BUSY) = false -> idev ip = 1 -> 0 <= inum ip < sb_ninodes sb ->
  (truthy (iflags ip .& I_VALID) = false -> d_type (dinode_at v (inum ip)) <> 0) -> room g 0 L ->
  triple (tx g ∅ v L sb c) (Fs.ilock (Some i)) (fun _ s => tx g ∅ v L sb (<[i := locked_ino v ip]> c) s).
Proof.
  intros ip Href Hb Hdev Hi Hty Hr. destruct (IBLOCK_spec _ Hi) as [_ Hib]. destruct (ly_inode _ _ Hly _ Hib) as (Hh & _).
  unfold Fs.ilock. eapply triple_bind; [apply iat_tx|intros x]. apply triple_and. intros ->. fold ip.
  rewrite (proj2 (Z.ltb_ge _ _)) by lia.
  eapply triple_bind; [apply acquire_tx|intros []].
  eapply triple_bind; [apply iat_txl|intros x]. apply triple_and. intros ->. fold ip. rewrite Hb.
  eapply triple_bind; [apply iupd_txl|intros []]. eapply triple_bind; [apply release_tx|intros []]. fold ip.
  eapply triple_bind; [apply iat_tx|intros x]. apply triple_and. intros ->. rewrite fn_lookup_insert. cbn [iflags set_iflags inum idev].
  rewrite busy_valid. unfold locked_ino. destruct (truthy (iflags ip .& I_VALID)) eqn:Ev; cbn [negb when].
  { by apply triple_ret. }
  eapply triple_bind; [apply get_tx|intros s0]. apply triple_and. intros ->. apply triple_and. intros _. rewrite Hdev.
  apply (triple_pure (IBLOCK (inum ip) sb ∈ L \/ blk v (IBLOCK (inum ip) sb) = blk (g_disk g) (IBLOCK (inum ip) sb)));
    [intros s Hs; eapply tx_clean; [exact Hs|apply not_elem_of_empty]|intros Hcl].
  eapply triple_bind; [apply bread_tx; [apply Hh|set_solver|done|rewrite size_empty; lia]|intros []].
  eapply triple_bind; [apply bdata_tx; set_solver|intros d]. apply triple_and. intros ->.
  eapply triple_bind; [apply iupd_tx|intros []].
  eapply triple_bind; [apply brelse_tx; [set_solver|done]|intros []]. rewrite hold_release by apply not_elem_of_empty.
  eapply triple_bind; [apply iupd_tx|intros []].
  eapply triple_bind; [apply iat_tx|intros x]. apply triple_and. intros ->. rewrite !fn_lookup_insert.
  fold (dinode_at v (inum ip)). cbn [itype set_iflags load_dinode]. rewrite (proj2 (Z.eqb_neq _ 0)) by auto.
  cbn [when]. apply triple_ret. intros s Hs. eapply tx_ext; [|exact Hs]. intros j.
  unfold insert, fn_insert. by case_decide.
Qed.

(** A change of the inode blocks alone. *)
Definition agree (v v' : gmap Z bytes) : Prop := forall b, ~ is_iblock sb b -> blk v' b = blk v b.

Section agree.
Context (v v' : gmap Z bytes) (Hag : agree v v') (Hlen : len_ok v').

Lemma agree_used b : 0 <= b < sb_size sb -> used v' sb b = used v sb b.
Proof.
  intros Hb. unfold used. rewrite Hag; [done|]. destruct (BBLOCK_spec g sb Hly b Hb) as [_ Hm].
  by destruct (ly_bmap _ _ Hly _ Hm) as (_ & _ & ?).
Qed.

Lemma agree_addr ip n : fsok v ip -> addr_of v' ip n = addr_of v ip n.
Proof.
  intros Hok. unfold addr_of. destruct (n <? NDIRECT); [done|]. destruct (Z.eqb_spec (ind ip) 0) as [|Hi]; [done|].
  rewrite Hag; [done|]. by apply (datab_home g sb Hly v), (io_ind _ _ _ _ (fo_ino _ _ _ _ Hok)).
Qed.

Lemma agree_ok ip : fsok v ip -> fsok v' ip.
Proof.
  intros Hok. assert (forall b, datab g sb v b -> datab g sb v' b) as Hd.
  { intros b (Hr & Hm & Hu). split; [done|]. split; [done|]. by rewrite agree_used. }
  split; [done|intros b Hb Hm; rewrite agree_used by done; by apply Hok|].
  destruct Hok as [Hl Hm [I1 I2 I3 I4 I5]] eqn:E. clear E. split; try done.
  - intros Hi. auto.
  - intros n Hn. rewrite agree_addr by done. intros Hz. destruct (I4 n Hn Hz). auto.
  - intros n n' Hn Hn'. rewrite !agree_addr by done. auto.
Qed.

Lemma agree_fbyte ip o : fsok v ip -> 0 <= o < MAXFILE * BSIZE -> fbyte v' ip o = fbyte v ip o.
Proof.
  intros Hok Ho. unfold fbyte. rewrite agree_addr by done.
  destruct (Z.eqb_spec (addr_of v ip (o / BSIZE)) 0) as [|Hz]; [done|]. rewrite Hag; [done|].
  apply (datab_home g sb Hly v), (io_data _ _ _ _ (fo_ino _ _ _ _ Hok)); [by apply div_block|done].
Qed.

End agree.

(** ** writei *)

(** The inode of a file after [writei]. *)
Definition written_ino (off n : Z) (ip ip1 : inode) : inode :=
  if (0 <? n) && (isize ip <? off + n) then set_isize (off + n) ip1 else ip1.

Definition written_view (off n : Z) (ip : inode) (v1 : gmap Z bytes) (ip1 : inode) : gmap Z bytes :=
  if (0 <? n) && (isize ip <? off + n) then put_inode (set_isize (off + n) ip1) v1 else v1.

Lemma writei_tx dsw i src off n v L c :
  let ip := c i in
  fsok v ip -> itype ip <> T_DEV -> 0 <= inum ip < sb_ninodes sb ->
  0 <= off <= isize ip -> 0 <= n <= Z.of_nat (length src) -> off + n <= MAXFILE * BSIZE ->
  nblk off n <= avail sb v ip -> proom g sb (nblk off n + 1) L ip ->
  triple (tx g ∅ v L sb c) (Fs.writei dsw i src off n)
    (fun r s => r = n /\ exists v1 L' ip1 c', wrote g sb off n src v ip v1 ip1 /\
      c' i = written_ino off n ip ip1 /\ (forall j, j <> i -> c' j = c j) /\ room g 0 L' /\
      tx g ∅ (written_view off n ip v1 ip1) L' sb c' s).
Proof.
  intros ip Hok Hty Hin Ho Hn Hmx Hav Hroom. unfold Fs.writei.
  eapply triple_bind; [apply iat_tx|intros x]. apply triple_and. intros ->. fold ip.
  rewrite (proj2 (Z.eqb_neq _ _) Hty), range_check by (fs_consts; lia). rewrite (u32_small (off + n)) by (fs_consts; lia).
  rewrite (proj2 (Z.ltb_ge (isize ip) off)), (proj2 (Z.ltb_lt (off + n) (2 ^ 32))),
    (proj2 (Z.ltb_ge (MAXFILE * BSIZE) (off + n))) by (fs_consts; lia). cbn [negb orb].
  eapply triple_bind; [apply (writei_loop_tx g sb Hly); rewrite ?Z.sub_0_r; try done; lia|intros r].
  rewrite Z.sub_0_r. apply triple_and. intros ->.
  intros s (v1 & L1 & c1 & Hw & Hcj & Hr1 & Hs). revert s Hs. fold ip in Hw.
  eapply triple_bind; [apply iat_tx|intros x]. apply triple_and. intros ->.
  assert (isize (c1 i) = isize ip) as Esz by (rewrite (wr_ip _ _ _ _ _ _ _ _ _ Hw); done).
  assert (s32 n = n) as -> by (apply s32_small; fs_consts; lia). rewrite Esz. unfold written_ino, written_view.
  destruct ((0 <? n) && (isize ip <? off + n)); cbn [when].
  - eapply triple_bind with (Q := fun _ s => tx g ∅ (put_inode (set_isize (off + n) (c1 i)) v1)
      (addl (IBLOCK (inum (c1 i)) sb) L1) sb (<[i := set_isize (off + n) (c1 i)]> c1) s).
    + eapply triple_bind; [apply iupd_tx|intros []].
      eapply triple_post; [apply iupdate_tx|]; rewrite ?fn_lookup_insert; try done; try apply (wr_ok _ _ _ _ _ _ _ _ _ Hw).
      * rewrite (wr_ip _ _ _ _ _ _ _ _ _ Hw). done.
      * by eapply proom_room.
    + intros []. apply triple_ret. intros s Hs. split; [done|]. exists v1, (addl (IBLOCK (inum (c1 i)) sb) L1), (c1 i).
      eexists. split; [done|]. split; [by rewrite fn_lookup_insert|]. split; [|split; [|exact Hs]].
      * intros j Hj. rewrite fn_lookup_insert_ne by done. auto.
      * apply room_addl. by eapply proom_room.
  - intros s Hs. erewrite bind_ok_l by done. revert s Hs. apply triple_ret. intros s Hs. split; [done|].
    exists v1, L1, (c1 i), c1. split_and!; try done. apply (proom_room g sb 0 L1 (c1 i)). unfold proom in *. lia.
Qed.

End ino.
