(* ===== verification/FsSpec.v ===== *)
(** * The file system calls on blocks, inodes and file contents

    What [balloc], [bfree], [iupdate], [ilock], [readi] and [writei] do, inside
    a transaction, to the blocks of the disk and the inodes in memory. *)

From S2P Require Import Prelude Memory Layout Spinlock Block Bio Log Fs FsTx FsBlock FsFile FsRw FsIno.

Section spec.
Context (g : geo) (sb : superblock) (Hly : layout g sb).
#[local] Abbreviation fsok := (fsok g sb).

(** [balloc] returns the lowest free block, marked used and filled with
    zeros; no other block changes its mark, and the only other block written is
    in the bitmap. *)
Theorem balloc_correct B v L c :
  len_ok v -> meta_used g sb v -> (0 < nfree sb v)%nat -> held_ok sb v B -> room g 2 L ->
  triple (tx g B v L sb c) (Fs.balloc 1)
    (fun fb s => exists v',
      (0 <= fb < sb_size sb /\ used v sb fb = false /\ forall b, 0 <= b < fb -> used v sb b = true) /\
      (forall b, 0 <= b < sb_size sb -> used v' sb b = if decide (b = fb) then true else used v sb b) /\
      (forall b, blk v' b = if decide (b = fb) then zblock else if decide (b = BBLOCK fb sb) then blk v' b else blk v b) /\
      tx g B v' (addl fb (addl (BBLOCK fb sb) L)) sb c s).
Proof.
  intros Hl Hm Hn HB Hr. destruct (lowest_free_exists g sb Hly v Hn) as [fb Hf].
  destruct (fb_facts g sb Hly v fb Hm Hf) as (Hrg & Hu & Hh & Hz & Hnb & _).
  eapply triple_post; [apply (balloc_tx g sb Hly); try done; [unfold room in *; lia|apply room_addl; unfold room in *; lia]|].
  intros r s [-> Hs]. exists (alloc_view sb fb v). split; [exact Hf|]. split; [|split; [|exact Hs]].
  - intros b Hb. by apply (used_alloc g sb Hly).
  - intros b. unfold alloc_view. rewrite !blk_insert. repeat case_decide; congruence.
Qed.

(** [bfree] of a used block marks it free and leaves every other mark as it
    is; freeing a free block panics. *)
Theorem bfree_correct v L c b :
  len_ok v -> decode_sb (blk v 1) = sb -> 0 <= b < sb_size sb -> room g 1 L ->
  (used v sb b = true -> triple (tx g ∅ v L sb c) (Fs.bfree 1 b)
    (fun _ s => exists v', (forall a, 0 <= a < sb_size sb -> used v' sb a = if decide (a = b) then false else used v sb a) /\
      (forall a, a <> BBLOCK b sb -> blk v' a = blk v a) /\ tx g ∅ v' (addl (BBLOCK b sb) L) sb c s)) /\
  (used v sb b = false -> panics (tx g ∅ v L sb c) (Fs.bfree 1 b) "freeing free block").
Proof.
  intros Hl Hsb Hb Hr. split; intros Hu.
  - eapply triple_post; [apply (bfree_tx g sb Hly); try done; apply (held_nil g sb Hly)|]. intros [] s Hs.
    exists (free_view sb b v). split; [|split; [|done]].
    + intros a Ha. by apply (used_free g sb Hly).
    + intros a Ha. unfold free_view. by rewrite blk_insert_ne.
  - destruct (BBLOCK_home g sb Hly b Hb) as [Hh _]. unfold Fs.bfree.
    assert (room g 0 L) as Hr0 by (unfold room in *; lia).
    eapply panics_bind; [apply readsb_tx; [destruct Hly; unfold room in *; lia|set_solver|done|rewrite size_empty; lia]|intros []].
    rewrite Hsb. eapply panics_bind; [apply get_tx|intros s0]. apply panics_and. intros ->. apply panics_and. intros _.
    eapply panics_bind; [apply bread_tx; [apply Hh|set_solver|done|rewrite size_empty; lia]|intros []].
    eapply panics_bind; [apply bdata_tx; set_solver|intros d]. apply panics_and. intros ->.
    change (Fs.bit_set (b mod BPB) (blk v (BBLOCK b sb))) with (used v sb b). rewrite Hu. done.
Qed.

(** [readi] of a file without holes returns the bytes of the file between
    [off] and the end, at most [n] of them, and -1 when [off] is beyond the end
    or [off + n] overflows; nothing changes. *)
Theorem readi_correct dsw i off n v L c :
  let ip := c i in let k := Z.min n (isize ip - off) in
  fsok v ip -> no_holes v ip -> room g 0 L -> isize ip <= MAXFILE * BSIZE -> itype ip <> T_DEV ->
  0 <= off < 2 ^ 32 -> 0 <= n < 2 ^ 32 ->
  triple (tx g ∅ v L sb c) (Fs.readi dsw i off n)
    (fun r s => r = (if (off <=? isize ip) && (off + n <? 2 ^ 32) then (k, content v ip off k) else (-1, [])) /\
      tx g ∅ v L sb c s).
Proof. exact (readi_tx g sb Hly dsw i off n v L c). Qed.

(** The bytes and size of a file after [writei], and what stays the same. *)
Record writei_ok (off n : Z) (src : bytes) (v : gmap Z bytes) (ip : inode) (v' : gmap Z bytes) (ip' : inode) : Prop := {
  wo_ok : fsok v' ip';
  wo_size : isize ip' = if decide (0 < n) then Z.max (isize ip) (off + n) else isize ip;
  wo_bytes : forall o, 0 <= o < MAXFILE * BSIZE ->
    fbyte v' ip' o = if decide (off <= o < off + n) then nth (Z.to_nat (o - off)) src 0 else fbyte v ip o;
  wo_holes : no_holes v ip -> no_holes v' ip';
  wo_disk : no_holes v ip -> dinode_at sb v (inum ip) = to_dinode ip -> dinode_wf (to_dinode ip') ->
    dinode_at sb v' (inum ip) = to_dinode ip';
  wo_inodes : forall m, 0 <= m < sb_ninodes sb -> m <> inum ip -> dinode_at sb v' m = dinode_at sb v m;
  wo_others : forall b, 0 <= b < sb_size sb -> used v sb b = true -> ~ is_bmap sb b -> ~ is_iblock sb b ->
    b <> ind ip -> (forall bn, 0 <= bn < MAXFILE -> addr_of v ip bn <> b) -> blk v' b = blk v b
}.

Lemma wrote_iblock off n src v ip v1 ip1 b : fsok v ip -> wrote g sb off n src v ip v1 ip1 -> is_iblock sb b ->
  blk v1 b = blk v b.
Proof.
  intros Hok Hw Hb. destruct (ly_inode _ _ Hly _ Hb) as (Hh & Hr & Hnb).
  assert (meta g sb b) as Hm by (unfold meta; tauto).
  apply (wr_frame _ _ _ _ _ _ _ _ _ Hw); [lia|apply Hok; [lia|done]|done| |].
  - intros ->. destruct (decide (ind ip = 0)) as [E|E]; [lia|].
    by apply (io_ind _ _ _ _ (fo_ino _ _ _ _ Hok)) in E as (_ & Hx & _).
  - intros bn Hbn E. destruct (io_data _ _ _ _ (fo_ino _ _ _ _ Hok) bn Hbn) as [(_ & Hx & _) _]; [lia|].
    by rewrite E in Hx.
Qed.

Lemma wrote_dinode off n src v ip v1 ip1 m : fsok v ip -> wrote g sb off n src v ip v1 ip1 ->
  0 <= m < sb_ninodes sb -> dinode_at sb v1 m = dinode_at sb v m.
Proof.
  intros Hok Hw Hm. unfold dinode_at. erewrite wrote_iblock; [done|done|done|]. by apply (IBLOCK_spec g sb Hly).
Qed.

Lemma wrote_no_holes off n src v ip v1 ip1 : 0 <= off -> off + n <= MAXFILE * BSIZE ->
  off <= isize ip <= MAXFILE * BSIZE -> wrote g sb off n src v ip v1 ip1 ->
  no_holes v ip -> forall bn, 0 <= bn -> bn * BSIZE < Z.max (isize ip) (off + n) -> addr_of v1 ip1 bn <> 0.
Proof.
  intros Ho Hmx Hsz Hw Hh bn Hb Hlt. destruct (decide (bn * BSIZE < isize ip)) as [H1|H1].
  - rewrite (wr_old _ _ _ _ _ _ _ _ _ Hw); [by apply Hh|fs_consts; lia|by apply Hh].
  - pose proof (wr_there _ _ _ _ _ _ _ _ _ Hw (bn * BSIZE) ltac:(lia)) as Hx.
    by rewrite Z.div_mul in Hx by (unfold BSIZE; lia).
Qed.

Lemma fsok_isize v ip x : fsok v ip -> fsok v (set_isize x ip).
Proof. intros [H1 H2 [I1 I2 I3 I4 I5]]. split; [done|done|]. by split. Qed.

Lemma written_ok off n src v ip v1 ip1 :
  fsok v ip -> 0 <= inum ip < sb_ninodes sb -> 0 <= off <= isize ip -> isize ip <= MAXFILE * BSIZE ->
  0 <= n -> off + n <= MAXFILE * BSIZE -> wrote g sb off n src v ip v1 ip1 ->
  writei_ok off n src v ip (written_view sb off n ip v1 ip1) (written_ino off n ip ip1).
Proof.
  intros Hok Hin Ho Hsz Hn Hmx Hw. pose proof (wr_ip _ _ _ _ _ _ _ _ _ Hw) as Hip.
  pose proof (wr_ok _ _ _ _ _ _ _ _ _ Hw) as Hok1.
  assert (isize ip1 = isize ip /\ inum ip1 = inum ip) as [Es Ei] by (rewrite Hip; done).
  unfold written_view, written_ino. destruct ((0 <? n) && (isize ip <? off + n)) eqn:Eg.
  - apply andb_true_iff in Eg as [H1%Z.ltb_lt H2%Z.ltb_lt]. set (ip2 := set_isize (off + n) ip1).
    assert (agree sb v1 (put_inode sb ip2 v1)) as Hag.
    { intros b Hb. apply (put_inode_blk g sb Hly); [|done]. simpl. by rewrite Ei. }
    assert (inum ip2 = inum ip) as Ei2 by exact Ei.
    assert (length (addrs ip2) = 13%nat) as Hla by apply (io_len _ _ _ _ (fo_ino _ _ _ _ Hok1)).
    assert (len_ok (put_inode sb ip2 v1)) as Hlen.
    { intros b. unfold put_inode. rewrite blk_insert. case_decide; [|apply Hok1].
      apply length_put_inode; [apply Hok1|done]. }
    assert (fsok v1 ip2) as Hok2 by by apply fsok_isize. split.
    + by apply (agree_ok g sb Hly v1).
    + rewrite decide_True by done. simpl. lia.
    + intros o Hoo. rewrite (agree_fbyte g sb Hly v1) by done. apply (wr_bytes _ _ _ _ _ _ _ _ _ Hw o Hoo).
    + intros Hh bn Hb Hlt. rewrite (agree_addr g sb Hly v1) by done. simpl in Hlt.
      apply (wrote_no_holes off n src v ip v1 ip1); try done; lia.
    + intros _ _ Hwf. rewrite <- Ei. apply (put_inode_eq sb ip2); [apply Hok1|done].
    + intros m Hm Hne. rewrite (put_inode_ne g sb Hly); [by eapply wrote_dinode|apply Hok1|done|by rewrite Ei2|done|].
      by rewrite Ei2.
    + intros b Hb Hu Hnb Hni Hi Hbn. rewrite Hag by done. by apply (wr_frame _ _ _ _ _ _ _ _ _ Hw).
  - assert (n = 0 \/ off + n <= isize ip) as Hs.
    { apply andb_false_iff in Eg as [H1%Z.ltb_ge|H1%Z.ltb_ge]; lia. }
    split.
    + done.
    + rewrite Es. case_decide; lia.
    + apply Hw.
    + intros Hh bn Hb Hlt. apply (wrote_no_holes off n src v ip v1 ip1); try done; lia.
    + intros Hh Hd _. assert (ip1 = ip) as ->.
      { apply (wr_same _ _ _ _ _ _ _ _ _ Hw). intros o Hoo. apply Hh; [apply Z.div_pos; unfold BSIZE; lia|].
        pose proof (Z.mul_div_le o BSIZE). unfold BSIZE in *. lia. }
      rewrite (wrote_dinode off n src v ip v1 ip); done.
    + intros m Hm _. by eapply wrote_dinode.
    + intros b Hb Hu Hnb Hni Hi Hbn. by apply (wr_frame _ _ _ _ _ _ _ _ _ Hw).
Qed.

(** C24: [writei] at an offset within the file, of bytes that fit below the
    largest file size, on a disk with the free blocks and a log with the room
    it needs, writes exactly these bytes: all other bytes of the file, all
    other inodes and all blocks of other files keep their contents, the size
    grows to the end of the bytes written, and the inode on disk follows.
    Otherwise it returns -1 and changes nothing. *)
Theorem writei_correct dsw i src off n v L c :
  let ip := c i in
  fsok v ip -> itype ip <> T_DEV -> 0 <= inum ip < sb_ninodes sb -> isize ip <= MAXFILE * BSIZE ->
  0 <= off < 2 ^ 32 -> 0 <= n <= Z.of_nat (length src) -> n < 2 ^ 32 ->
  (off <= isize ip -> off + n <= MAXFILE * BSIZE ->
    nblk off n <= avail sb v ip -> proom g sb (nblk off n + 1) L ip ->
    triple (tx g ∅ v L sb c) (Fs.writei dsw i src off n)
      (fun r s => r = n /\ exists v' L' c', writei_ok off n src v ip v' (c' i) /\
        (forall j, j <> i -> c' j = c j) /\ room g 0 L' /\ tx g ∅ v' L' sb c' s)) /\
  (isize ip < off \/ MAXFILE * BSIZE < off + n ->
    triple (tx g ∅ v L sb c) (Fs.writei dsw i src off n) (fun r s => r = -1 /\ tx g ∅ v L sb c s)).
Proof.
  intros ip Hok Hty Hin Hsz Ho Hn Hn32. split.
  - intros Hos Hmx Hav Hr. eapply triple_post; [apply (writei_tx g sb Hly dsw i src off n v L c); fold ip; try done; lia|].
    intros r s (-> & v1 & L' & ip1 & c' & Hw & Hci & Hcj & Hr' & Hs). split; [done|].
    eexists _, L', c'. split; [|split; [done|split; [done|exact Hs]]]. rewrite Hci. apply written_ok; fold ip; try done; lia.
  - intros Hbad. unfold Fs.writei. eapply triple_bind; [apply iat_tx|intros x]. apply triple_and. intros ->. fold ip.
    rewrite (proj2 (Z.eqb_neq _ _) Hty), range_check by lia.
    destruct (Z.ltb_spec (isize ip) off) as [|H1]; [by apply triple_ret|]. cbn [orb].
    destruct (Z.ltb_spec (off + n) (2 ^ 32)) as [H2|H2]; [|by apply triple_ret]. cbn [negb].
    rewrite u32_small, (proj2 (Z.ltb_lt (MAXFILE * BSIZE) (off + n))) by lia. by apply triple_ret.
Qed.

(** bytes written by [writei] are read back by [readi]. *)
Theorem writei_readi dsw i src off n v L c :
  let ip := c i in
  fsok v ip -> no_holes v ip -> itype ip <> T_DEV -> 0 <= inum ip < sb_ninodes sb ->
  0 <= off <= isize ip -> isize ip <= MAXFILE * BSIZE -> n = Z.of_nat (length src) -> off + n <= MAXFILE * BSIZE ->
  nblk off n <= avail sb v ip -> proom g sb (nblk off n + 1) L ip ->
  triple (tx g ∅ v L sb c) (_ ← Fs.writei dsw i src off n; Fs.readi dsw i off n) (fun r _ => r = (n, src)).
Proof.
  intros ip Hok Hh Hty Hin Ho Hsz Hn Hmx Hav Hr.
  eapply triple_bind; [apply (writei_tx g sb Hly dsw i src off n v L c); fold ip; try done; lia|intros r].
  intros s (_ & v1 & L' & ip1 & c' & Hw & Hci & Hcj & Hr' & Hs). fold ip in Hw, Hci, Hs.
  pose proof (written_ok off n src v ip v1 ip1 Hok Hin Ho Hsz ltac:(lia) Hmx Hw) as [W1 W2 W3 W4 _ _ _].
  pose proof (wr_ip _ _ _ _ _ _ _ _ _ Hw) as Hip1. set (v' := written_view sb off n ip v1 ip1) in *.
  assert (itype (c' i) = itype ip) as Ety by (rewrite Hci; unfold written_ino; destruct (_ && _); cbn [itype set_isize]; by rewrite Hip1).
  rewrite <- Hci in *. revert s Hs. eapply triple_post; [apply (readi_tx g sb Hly); try done|].
  - by apply W4.
  - rewrite W2. case_decide; lia.
  - by rewrite Ety.
  - fs_consts; lia.
  - fs_consts; lia.
  - intros x s [-> _]. rewrite (proj2 (Z.leb_le off _)), (proj2 (Z.ltb_lt (off + n) _)) by (rewrite ?W2; case_decide; fs_consts; lia).
    cbn [andb]. rewrite Z.min_l by (rewrite W2; case_decide; lia). f_equal.
    apply list_eq. intros k. unfold content. rewrite list_lookup_fmap. destruct (decide (k < length src)%nat) as [Hk|Hk].
    + rewrite lookup_seqZ_lt by lia. cbn [fmap option_fmap option_map].
      rewrite W3, decide_True by (fs_consts; lia). rewrite nth_lookup.
      replace (Z.to_nat (off + Z.of_nat k - off)) with k by lia. by destruct (lookup_lt_is_Some_2 src k Hk) as [x ->].
    + rewrite lookup_seqZ_ge, lookup_ge_None_2 by lia. done.
Qed.

(** [iupdate] puts the fields of an inode on the disk without touching any
    other inode, and [ilock] of an inode not read yet takes them from there, so
    that the two together lose nothing. *)
Theorem iupdate_ilock_inverse i v L c :
  let ip := c i in
  len_ok v -> 0 <= inum ip < sb_ninodes sb -> idev ip = 1 -> room g 1 L ->
  (dinode_wf (to_dinode ip) -> triple (tx g ∅ v L sb c) (Fs.iupdate i)
    (fun _ s => exists v', dinode_at sb v' (inum ip) = to_dinode ip /\
      (forall m, 0 <= m < sb_ninodes sb -> m <> inum ip -> dinode_at sb v' m = dinode_at sb v m) /\
      (forall b, ~ is_iblock sb b -> blk v' b = blk v b) /\
      tx g ∅ v' (addl (IBLOCK (inum ip) sb) L) sb c s)) /\
  (1 <= ref ip -> iflags ip = 0 -> d_type (dinode_at sb v (inum ip)) <> 0 ->
    triple (tx g ∅ v L sb c) (Fs.ilock (Some i))
      (fun _ s => exists ip', to_dinode ip' = dinode_at sb v (inum ip) /\ iflags ip' = I_BUSY .| I_VALID /\
        idev ip' = 1 /\ inum ip' = inum ip /\ ref ip' = ref ip /\ tx g ∅ v L sb (<[i := ip']> c) s)).
Proof.
  intros ip Hl Hin Hdev Hr. split.
  - intros Hwf. eapply triple_post; [apply (iupdate_tx g sb Hly); try done; apply Hwf|]. intros [] s Hs. fold ip in Hs.
    exists (put_inode sb ip v). split; [by apply put_inode_eq|]. split; [|split; [|done]].
    + intros m Hm Hne. apply (put_inode_ne g sb Hly); try done. apply Hwf.
    + intros b Hb. by apply (put_inode_blk g sb Hly).
  - intros Href Hf Ht. eapply triple_post; [apply (ilock_tx g sb Hly); fold ip; try done; [by rewrite Hf|unfold room in *; lia]|].
    intros [] s Hs. fold ip in Hs. exists (locked_ino sb v ip). unfold locked_ino in *. rewrite Hf in *.
    split; [by destruct (dinode_at sb v (inum ip))|]. done.
Qed.

End spec.

(** ** The inode cache *)

(** The slot of the cache that holds inode [nm] of device [dv]. *)
Definition cached (c : nat -> inode) (dv nm : Z) (k : nat) : Prop :=
  (k < NINODE)%nat /\ 0 < ref (c k) /\ idev (c k) = dv /\ inum (c k) = nm.

(** An inode is in at most one slot. *)
Definition uniq (c : nat -> inode) : Prop := forall dv nm j k, cached c dv nm j -> cached c dv nm k -> j = k.

Definition free_slot (c : nat -> inode) (k : nat) : Prop :=
  (k < NINODE)%nat /\ ref (c k) = 0 /\ forall j, (j < k)%nat -> ref (c j) <> 0.

Lemma iget_loop_spec dv nm c n : forall i e,
  match Fs.iget_loop dv nm c i n e with
  | inl k => (i <= k < i + n)%nat /\ 0 < ref (c k) /\ idev (c k) = dv /\ inum (c k) = nm
  | inr r =>
      (forall k, (i <= k < i + n)%nat -> 0 < ref (c k) -> idev (c k) = dv -> inum (c k) = nm -> False) /\
      match e, r with
      | Some a, _ => r = Some a
      | None, Some k => (i <= k < i + n)%nat /\ ref (c k) = 0 /\ forall j, (i <= j < k)%nat -> ref (c j) <> 0
      | None, None => forall j, (i <= j < i + n)%nat -> ref (c j) <> 0
      end
  end.
Proof.
  induction n as [|n IH]; intros i e; cbn [Fs.iget_loop].
  { split; [lia|]. destruct e; [done|lia]. }
  destruct ((0 <? ref (c i)) && (idev (c i) =? dv) && (inum (c i) =? nm)) eqn:E.
  { apply andb_true_iff in E as [[E1 E2]%andb_true_iff E3]. boolify. lia. }
  assert (0 < ref (c i) -> idev (c i) = dv -> inum (c i) = nm -> False) as Hi.
  { intros H1 H2 H3. rewrite (proj2 (Z.ltb_lt _ _)), H2, H3, !Z.eqb_refl in E by done. done. }
  set (e' := match e with None => _ | Some _ => e end). specialize (IH (i + 1)%nat e').
  destruct (Fs.iget_loop dv nm c (i + 1) n e') as [k|r]; [destruct IH; split; [lia|done]|].
  destruct IH as [I1 I2]. split.
  - intros k Hk. destruct (decide (k = i)) as [->|]; [done|]. apply I1. lia.
  - destruct e as [a|]; [done|]. unfold e' in I2. destruct (Z.eqb_spec (ref (c i)) 0) as [H0|H0].
    + rewrite I2. split; [lia|]. split; [done|lia].
    + destruct r as [k|].
      * destruct I2 as (J1 & J2 & J3). split; [lia|]. split; [done|]. intros j Hj.
        destruct (decide (j = i)) as [->|]; [done|]. apply J3. lia.
      * intros j Hj. destruct (decide (j = i)) as [->|]; [done|]. apply I2. lia.
Qed.

(** What [iget] makes of the slot it takes. *)
Definition fresh_ino (dv nm : Z) (ip : inode) : inode :=
  MkInode dv nm 1 0 (itype ip) (major ip) (minor ip) (nlink ip) (isize ip) (addrs ip).

Lemma uniq_ref c k x : 0 < ref (c k) -> uniq c -> uniq (<[k := set_ref x (c k)]> c).
Proof.
  intros Hk Hu dv nm i j [Hi1 Hi2] [Hj1 Hj2]. apply (Hu dv nm); (split; [done|]).
  - revert Hi2. unfold insert, fn_insert. case_decide; subst; [intros (_ & ? & ?)|]; done.
  - revert Hj2. unfold insert, fn_insert. case_decide; subst; [intros (_ & ? & ?)|]; done.
Qed.

Lemma uniq_fresh c k dv nm : (forall j, ~ cached c dv nm j) -> uniq c -> uniq (<[k := fresh_ino dv nm (c k)]> c).
Proof.
  intros Hn Hu dv' nm' i j [Hi1 Hi2] [Hj1 Hj2]. revert Hi2 Hj2. unfold insert, fn_insert.
  repeat case_decide; subst; cbn [ref idev inum fresh_ino]; intros Hi2 Hj2.
  - done.
  - destruct Hi2 as (_ & <- & <-). destruct (Hn j). done.
  - destruct Hj2 as (_ & <- & <-). destruct (Hn i). done.
  - by apply (Hu dv' nm').
Qed.

(** [iget] finds the slot of the inode if it is in the cache and counts one
    more reference; otherwise it takes the first slot without references, for
    an inode yet to be read; with no such slot it panics.  An inode is never in
    two slots. *)
Lemma iget_tx g B v L sb c dv nm : uniq c ->
  (forall k, cached c dv nm k ->
    triple (tx g B v L sb c) (Fs.iget dv nm) (fun r s => r = k /\
      let c' := <[k := set_ref (ref (c k) + 1) (c k)]> c in uniq c' /\ tx g B v L sb c' s)) /\
  (forall k, (forall j, ~ cached c dv nm j) -> free_slot c k ->
    triple (tx g B v L sb c) (Fs.iget dv nm) (fun r s => r = k /\
      let c' := <[k := fresh_ino dv nm (c k)]> c in uniq c' /\ tx g B v L sb c' s)) /\
  ((forall j, ~ cached c dv nm j) -> (forall j, (j < NINODE)%nat -> ref (c j) <> 0) ->
    panics (tx g B v L sb c) (Fs.iget dv nm) "iget: no inodes").
Proof.
  intros Hu. unfold Fs.iget. split; [|split].
  - intros k Hk. eapply triple_bind; [apply acquire_tx|intros []].
    eapply triple_bind; [apply get_txl|intros s0]. apply triple_and. intros Hc.
    pose proof (iget_loop_spec dv nm (Fs.icache s0) NINODE 0 None) as Hl.
    destruct (Fs.iget_loop _ _ _ _ _ _) as [r|r]; rewrite ?Hc in Hl.
    + assert (r = k) as -> by (apply (Hu dv nm); [split; [lia|apply Hl]|done]).
      eapply triple_bind; [apply iupd_txl|intros []]. eapply triple_bind; [apply release_tx|intros []].
      apply triple_ret. intros s Hs. split; [done|]. split; [|done]. apply uniq_ref; [apply Hk|done].
    + destruct Hl as [Hl _], Hk as (K1 & K2 & K3 & K4). destruct (Hl k); rewrite ?Hc; [lia|done..].
  - intros k Hn (K1 & K2 & K3). eapply triple_bind; [apply acquire_tx|intros []].
    eapply triple_bind; [apply get_txl|intros s0]. apply triple_and. intros Hc.
    pose proof (iget_loop_spec dv nm (Fs.icache s0) NINODE 0 None) as Hl.
    destruct (Fs.iget_loop _ _ _ _ _ _) as [r|[r|]].
    + rewrite Hc in Hl. destruct (Hn r). split; [lia|apply Hl].
    + destruct Hl as (_ & L1 & L2 & L3). rewrite Hc in L2. assert (r = k) as ->.
      { destruct (Nat.lt_trichotomy r k) as [H|[H|H]]; [by destruct (K3 r H)|done|].
        destruct (L3 k); [lia|]. by rewrite Hc. }
      eapply triple_bind; [apply iupd_txl|intros []]. eapply triple_bind; [apply release_tx|intros []].
      apply triple_ret. intros s Hs. split; [done|]. split; [by apply uniq_fresh|done].
    + destruct Hl as [_ Hl]. destruct (Hl k); [lia|]. by rewrite Hc.
  - intros Hn Hf. eapply panics_bind; [apply acquire_tx|intros []].
    eapply panics_bind; [apply get_txl|intros s0]. apply panics_and. intros Hc.
    pose proof (iget_loop_spec dv nm (Fs.icache s0) NINODE 0 None) as Hl.
    destruct (Fs.iget_loop _ _ _ _ _ _) as [r|[r|]]; [| |done].
    + rewrite Hc in Hl. destruct (Hn r). split; [lia|apply Hl].
    + destruct Hl as (_ & L1 & L2 & L3). rewrite Hc in L2. destruct (Hf r); [lia|done].
Qed.

(** ** A disk of 100 blocks with one file of 600 bytes *)

Module FsEx.

Definition sb : superblock := MkSb 100 65 16 30 2 32 34.
Definition sb_block : bytes :=
  splice 0 (mjoin (le_enc 4 <$> [100; 65; 16; 30; 2; 32; 34])) zblock.
(** Blocks 0 to 36 are in use. *)
Definition bitmap : bytes := splice 0 [255; 255; 255; 255; 31] zblock.
Definition ip : inode := MkInode 1 1 1 2 T_FILE 0 0 1 600 [35; 36; 0; 0; 0; 0; 0; 0; 0; 0; 0; 0; 0].
Definition img : gmap Z bytes :=
  {[ 1 := sb_block; 32 := splice 64 (dinode_bytes (to_dinode ip)) zblock; 34 := bitmap;
     35 := replicate 512 65; 36 := replicate 512 66 ]}.
Definition g : geo := MkGeo 2 30 100 img.
Definition blank : inode := MkInode 0 0 0 0 0 0 0 0 0 [].
Definition c (i : nat) : inode := if (i =? 0)%nat then ip else blank.
Definition s : fsst :=
  Fs.MkFs (Log.MkSt (Log.MkLog false 2 30 1 0 1 0 (replicate 30 0) 0) (BlockSpec.MkBs img img ∅ ∅ 100 [])) sb false c [].

Lemma fs_img_len : len_ok img.
Proof.
  intros b. unfold blk, img. destruct (_ !! b) as [x|] eqn:E; [|done]. revert x E.
  apply (map_Forall_lookup (fun _ x => length x = Z.to_nat BSIZE)). 
  apply (bool_decide_unpack _). vm_compute. done.
Qed.

Lemma is_bmap_34 b : is_bmap sb b <-> b = 34.
Proof. unfold is_bmap. change (sb_bmapstart sb) with 34. change ((sb_size sb - 1) / BPB) with 0. lia. Qed.

Lemma is_iblock_32 b : is_iblock sb b <-> 32 <= b <= 33.
Proof. unfold is_iblock. change (sb_inodestart sb) with 32. change ((sb_ninodes sb - 1) / IPB) with 1. lia. Qed.

Lemma ly : layout g sb.
Proof.
  split; try (simpl; lia).
  - intros b Hb%is_bmap_34. rewrite is_iblock_32. unfold home. simpl. lia.
  - intros b Hb. rewrite is_iblock_32 in Hb. rewrite is_bmap_34. unfold home. simpl. lia.
Qed.

Lemma ex_tx : tx g ∅ img [] sb c s.
Proof.
  split; try done.
  apply Log.MkTxn; try done.
  - split; [apply NoDup_nil_2|simpl; lia|]. intros b Hb. by apply not_elem_of_nil in Hb.
  - apply fs_img_len.
  - apply fs_img_len.
Qed.

Lemma used_lt b : 0 <= b < 100 -> used img sb b = (b <? 37).
Proof.
  intros Hb. assert (forallb (fun b => Bool.eqb (used img sb b) (b <? 37)) (seqZ 0 100) = true) as H by (vm_compute; done).
  rewrite forallb_forall in H. apply Bool.eqb_prop, H, list_elem_of_In, elem_of_seqZ. lia.
Qed.

Lemma addr n : 0 <= n < MAXFILE -> addr_of img ip n = if n =? 0 then 35 else if n =? 1 then 36 else 0.
Proof.
  intros Hb. assert (forallb (fun n => addr_of img ip n =? (if n =? 0 then 35 else if n =? 1 then 36 else 0)) (seqZ 0 MAXFILE) = true)
    as H by (vm_compute; done).
  rewrite forallb_forall in H. apply Z.eqb_eq, H, list_elem_of_In, elem_of_seqZ. lia.
Qed.

Lemma ex_ok : fsok g sb img ip.
Proof.
  split; [apply fs_img_len| |].
  - intros b Hb Hm. simpl in Hb. rewrite used_lt by done. apply Z.ltb_lt. unfold meta in Hm.
    rewrite is_bmap_34, is_iblock_32 in Hm. simpl in Hm. lia.
  - split; try done.
    + intros n Hn. rewrite addr by done. intros Hz. unfold datab, meta. rewrite is_bmap_34, is_iblock_32.
      repeat case_match; boolify; try done; (split; [|done]); rewrite used_lt by (simpl; lia); simpl; split_and!; try done; lia.
    + intros n m Hn Hm. rewrite !addr by done. repeat case_match; boolify; lia.
Qed.

Lemma ex_holes : no_holes img ip.
Proof. intros n Hn Hs. change (isize ip) with 600 in Hs. unfold BSIZE in Hs. rewrite addr by (fs_consts; lia). repeat case_match; boolify; lia. Qed.

Definition nodev : Fs.devsw (S := BlockSpec.st) := Fs.MkDevsw (fun _ => None) (fun _ => None).
Definition src : bytes := replicate 600 67.

Lemma ex_avail : nblk 500 600 <= avail sb img ip.
Proof. vm_compute. discriminate. Qed.

Lemma ex_room : proom g sb (nblk 500 600 + 1) [] ip.
Proof. unfold proom. vm_compute. discriminate. Qed.

End FsEx.

Lemma balloc_correct_witness : exists v' s',
  Fs.balloc 1 FsEx.s = Ok 37 s' /\ blk v' 37 = zblock /\ tx FsEx.g ∅ v' [34; 37] FsEx.sb FsEx.c s'.
Proof.
  destruct (balloc_correct FsEx.g FsEx.sb FsEx.ly ∅ FsEx.img [] FsEx.c FsEx.fs_img_len (fo_meta _ _ _ _ FsEx.ex_ok))
    with FsEx.s as (fb & s' & E & v' & (H1 & H2 & H3) & H4 & H5 & H6).
  - vm_compute. lia.
  - apply (held_nil FsEx.g FsEx.sb FsEx.ly).
  - unfold room. simpl. lia.
  - exact FsEx.ex_tx.
  - change (sb_size FsEx.sb) with 100 in *. rewrite FsEx.used_lt in H2 by lia. apply Z.ltb_ge in H2.
    assert (fb = 37) as ->.
    { destruct (Z.eq_dec fb 37) as [|Hne]; [assumption|]. specialize (H3 37 ltac:(lia)). rewrite FsEx.used_lt in H3 by lia. discriminate H3. }
    exists v', s'. split; [exact E|]. split; [|exact H6]. rewrite (H5 37). rewrite decide_True by reflexivity. reflexivity.
Defined.

Lemma bfree_correct_witness :
  panics (tx FsEx.g ∅ FsEx.img [] FsEx.sb FsEx.c) (Fs.bfree 1 50) "freeing free block" /\
  exists s', Fs.bfree 1 36 FsEx.s = Ok tt s'.
Proof.
  split.
  - apply (bfree_correct FsEx.g FsEx.sb FsEx.ly FsEx.img [] FsEx.c 50 FsEx.fs_img_len); [reflexivity|simpl; lia|unfold room; simpl; lia|].
    apply FsEx.used_lt. lia.
  - destruct (bfree_correct FsEx.g FsEx.sb FsEx.ly FsEx.img [] FsEx.c 36 FsEx.fs_img_len) as [H _];
      [reflexivity|simpl; lia|unfold room; simpl; lia|].
    destruct (H (FsEx.used_lt 36 ltac:(lia)) FsEx.s FsEx.ex_tx) as ([] & s' & E & _). exists s'. exact E.
Defined.

Lemma readi_correct_witness :
  exists s', Fs.readi FsEx.nodev 0 510 4 FsEx.s = Ok (4, [65; 65; 66; 66]) s'.
Proof.
  destruct (readi_correct FsEx.g FsEx.sb FsEx.ly FsEx.nodev 0 510 4 FsEx.img [] FsEx.c
    FsEx.ex_ok FsEx.ex_holes) with FsEx.s as (r & s' & E & -> & _).
  - unfold room. simpl. lia.
  - change (600 <= 71680). lia.
  - discriminate.
  - lia.
  - lia.
  - exact FsEx.ex_tx.
  - exists s'. rewrite E. f_equal.
Defined.

(** 600 bytes at offset 500: three blocks, one of them new. *)
Lemma writei_correct_witness :
  exists s' v' L' c', Fs.writei FsEx.nodev 0 FsEx.src 500 600 FsEx.s = Ok 600 s' /\
    isize (c' 0%nat) = 1100 /\ fbyte v' (c' 0%nat) 499 = 65 /\ fbyte v' (c' 0%nat) 500 = 67 /\
    tx FsEx.g ∅ v' L' FsEx.sb c' s'.
Proof.
  destruct (writei_correct FsEx.g FsEx.sb FsEx.ly FsEx.nodev 0 FsEx.src 500 600 FsEx.img [] FsEx.c FsEx.ex_ok) as [H _].
  - discriminate.
  - change (0 <= 1 < 16). lia.
  - change (600 <= 71680). lia.
  - lia.
  - change (0 <= 600 <= 600). lia.
  - lia.
  - destruct (H ltac:(change (500 <= 600); lia) ltac:(fs_consts; lia) FsEx.ex_avail FsEx.ex_room FsEx.s FsEx.ex_tx)
      as (r & s' & E & -> & v' & L' & c' & Hw & _ & _ & Ht).
    exists s', v', L', c'. split; [exact E|]. split; [rewrite (wo_size _ _ _ _ _ _ _ _ _ Hw); reflexivity|].
    split; [rewrite (wo_bytes _ _ _ _ _ _ _ _ _ Hw 499) by (fs_consts; lia); reflexivity|].
    split; [rewrite (wo_bytes _ _ _ _ _ _ _ _ _ Hw 500) by (fs_consts; lia); reflexivity|exact Ht].
Defined.

Lemma writei_readi_witness :
  exists s', (_ ← Fs.writei FsEx.nodev 0 FsEx.src 500 600; Fs.readi FsEx.nodev 0 500 600) FsEx.s = Ok (600, FsEx.src) s'.
Proof.
  destruct (writei_readi FsEx.g FsEx.sb FsEx.ly FsEx.nodev 0 FsEx.src 500 600 FsEx.img [] FsEx.c FsEx.ex_ok FsEx.ex_holes)
    with FsEx.s as (r & s' & E & ->).
  - discriminate.
  - change (0 <= 1 < 16). lia.
  - change (0 <= 500 <= 600). lia.
  - change (600 <= 71680). lia.
  - reflexivity.
  - fs_consts. lia.
  - exact FsEx.ex_avail.
  - exact FsEx.ex_room.
  - exact FsEx.ex_tx.
  - exists s'. exact E.
Defined.

Lemma iupdate_ilock_inverse_witness :
  exists s', Fs.iupdate 0 FsEx.s = Ok tt s'.
Proof.
  destruct (iupdate_ilock_inverse FsEx.g FsEx.sb FsEx.ly 0 FsEx.img [] FsEx.c FsEx.fs_img_len) as [H _].
  - change (0 <= 1 < 16). lia.
  - reflexivity.
  - unfold room. simpl. lia.
  - destruct (H ltac:(split; [simpl; unfold T_FILE; lia|simpl; lia|simpl; lia|simpl; lia|simpl; lia|reflexivity|
      repeat constructor; lia]) FsEx.s FsEx.ex_tx) as ([] & s' & E & _). exists s'. exact E.
Defined.
