(* ===== verification/FsDir.v ===== *)
(** * Directories: dirlookup and dirlink

    A directory is a file of 16-byte entries.  [dirlookup] finds the first entry
    in use with a name, [dirlink] adds an entry in the first free place. *)

From S2P Require Import Prelude Memory Layout Spinlock Cstring Block Bio Log Fs FsTx FsBlock FsFile FsRw FsIno FsSpec.

(** ** Names and entries *)

(** The name in a buffer of [DIRSIZ] bytes, or in a longer or shorter string. *)
Definition dname (s : bytes) : bytes := Str.cstr (take 14 s).

(** A buffer that [strncmp] and [strncpy] may read [DIRSIZ] bytes of. *)
Definition name_ok (s : bytes) : Prop := (14 <= length s)%nat \/ 0 ∈ s.

Lemma strncmp_safe_l p q n : (n <= length p)%nat \/ 0 ∈ p -> (n <= length q)%nat -> is_Some (Str.strncmp p q n).
Proof.
  revert p q. induction n as [|n IH]; intros p q Hp Hq; [by eexists|]. destruct q as [|b q]; cbn in Hq; [lia|].
  destruct p as [|a p]; [destruct Hp as [Hp|Hp%elem_of_nil]; [cbn in Hp; lia|done]|]. cbn [Str.strncmp]. destruct (truthy a) eqn:Ea; cbn [andb]; [|by eexists].
  destruct (a =? b); [|by eexists]. apply IH; [|lia]. destruct Hp as [Hp|[<-|Hp]%elem_of_cons]; [left; cbn in Hp; lia|done|by right].
Qed.

Lemma namecmp_run s t : name_ok s -> length t = 14%nat -> exists r, Fs.namecmp s t = Some r /\ (r = 0 <-> dname s = dname t).
Proof.
  intros Hs Ht. destruct (strncmp_safe_l s t 14) as [r Hr]; [done|lia|]. exists r. split; [done|]. by apply Str.strncmp_eq.
Qed.

(** The entry [i] of a directory. *)
Definition dirent_at (v : gmap Z bytes) (ip : inode) (i : Z) : dirent := decode_dirent (content v ip (i * DIRENT_SIZE) DIRENT_SIZE).
Definition nents (ip : inode) : Z := isize ip / DIRENT_SIZE.

(** Entry [i] is in use and has the name [s]. *)
Definition names (v : gmap Z bytes) (ip : inode) (s : bytes) (i : Z) : Prop :=
  de_inum (dirent_at v ip i) <> 0 /\ dname (de_name (dirent_at v ip i)) = dname s.

(** The first entry with the name. *)
Definition first_name (v : gmap Z bytes) (ip : inode) (s : bytes) (i : Z) : Prop :=
  0 <= i < nents ip /\ names v ip s i /\ forall j, 0 <= j < i -> ~ names v ip s j.

Lemma length_de_name v ip i : length (de_name (dirent_at v ip i)) = 14%nat.
Proof. unfold dirent_at, decode_dirent. cbn [de_name]. apply length_sub. rewrite length_content. done. Qed.

Section dir.
Context (g : geo) (sb : superblock) (Hly : layout g sb).
#[local] Abbreviation fsok := (fsok g sb).

(** A directory without holes. *)
Record dir_ok (v : gmap Z bytes) (ip : inode) : Prop := MkDirOk {
  do_fs : fsok v ip;
  do_holes : no_holes v ip;
  do_type : itype ip = T_DIR;
  do_size : isize ip = nents ip * DIRENT_SIZE;
  do_max : 0 <= isize ip <= MAXFILE * BSIZE
}.

Lemma dir_bounds v ip i : dir_ok v ip -> 0 <= i < nents ip -> 0 <= i * 16 /\ i * 16 + 16 <= isize ip /\ isize ip <= MAXFILE * BSIZE.
Proof. intros [_ _ _ Hs Hm] Hi. change DIRENT_SIZE with 16 in *. lia. Qed.

Lemma read_entry dsw dp i v L c : dir_ok v (c dp) -> room g 0 L -> 0 <= i < nents (c dp) ->
  triple (tx g ∅ v L sb c) (Fs.readi dsw dp (i * 16) DIRENT_SIZE) (fun r s => r = (16, content v (c dp) (i * 16) 16) /\ tx g ∅ v L sb c s).
Proof.
  intros Hd Hr Hi. pose proof (dir_bounds v _ i Hd Hi) as Hb. pose proof Hd as [D1 D2 D3 D4 D5].
  eapply triple_post; [apply (readi_tx g sb Hly); try done; [lia|by rewrite D3|fs_consts; lia]|]. intros r s [-> Hs]. split; [|done].
  change DIRENT_SIZE with 16. rewrite (proj2 (Z.leb_le _ _)), (proj2 (Z.ltb_lt _ _)), Z.min_l by (fs_consts; lia). done.
Qed.

(** ** dirlookup *)

(** One turn of the loop reads an entry and stops at the name. *)
Lemma dirlookup_loop_tx dsw dp name v L c m Q : dir_ok v (c dp) -> room g 0 L -> name_ok name ->
  (match m with
   | Some m => first_name v (c dp) name m /\ triple (tx g ∅ v L sb c) (Fs.iget (idev (c dp)) (de_inum (dirent_at v (c dp) m))) Q
   | None => forall j, 0 <= j < nents (c dp) -> ~ names v (c dp) name j
   end) ->
  forall fuel i, 0 <= i <= default (nents (c dp)) m -> nents (c dp) - i <= Z.of_nat fuel ->
  triple (tx g ∅ v L sb c) (Fs.dirlookup_loop dsw dp name (i * 16) fuel)
    (fun r s => match m with
                | Some m => exists j, r = Some (j, m * 16) /\ Q j s
                | None => r = None /\ tx g ∅ v L sb c s
                end).
Proof.
  intros Hd Hr Hn Hm. assert (default (nents (c dp)) m <= nents (c dp)) as Hle by (destruct m as [m|]; [destruct Hm as [[? _] _]; cbn; lia|done]).
  induction fuel as [|fuel IH]; intros i Hi Hf; cbn [Fs.dirlookup_loop].
  all: eapply triple_bind; [apply iat_tx|intros x]; apply triple_and; intros ->.
  - destruct (Z.ltb_spec (i * 16) (isize (c dp))) as [Hlt|Hge]; [rewrite (do_size _ _ Hd) in Hlt; change DIRENT_SIZE with 16 in Hlt; lia|].
    destruct m as [m|]; [destruct Hm as [[? _] _]; cbn in Hi; lia|]. apply triple_ret. auto.
  - rewrite (do_size _ _ Hd). change DIRENT_SIZE with 16. destruct (Z.ltb_spec (i * 16) (nents (c dp) * 16)) as [Hlt|Hge].
    2:{ destruct m as [m|]; [destruct Hm as [[? _] _]; cbn in Hi; lia|]. apply triple_ret. auto. }
    eapply triple_bind; [apply (read_entry dsw dp i v L c Hd Hr ltac:(lia))|intros r]. apply triple_and. intros ->. cbn [fst snd]. change (negb (16 =? DIRENT_SIZE)) with false. cbv iota.
    change (decode_dirent (content v (c dp) (i * 16) 16)) with (dirent_at v (c dp) i).
    pose proof (dir_bounds v _ i Hd ltac:(lia)) as Hb. rewrite u32_small by (change DIRENT_SIZE with 16; fs_consts; lia). change (i * 16 + DIRENT_SIZE) with (i * 16 + 16).
    replace (i * 16 + 16) with ((i + 1) * 16) by lia.
    destruct (namecmp_run name (de_name (dirent_at v (c dp) i)) Hn (length_de_name _ _ _)) as (r & Hc & Hr0).
    destruct (decide (names v (c dp) name i)) as [Hy|Hno].
    + destruct m as [m|]; [|by destruct (Hm i ltac:(lia))]. destruct Hm as [(Hm1 & Hm2 & Hm3) HQ]. cbn in Hi.
      assert (i = m) as ->. { destruct (decide (i = m)); [done|]. by destruct (Hm3 i ltac:(lia)). }
      destruct Hy as [Hy0 Hy1]. rewrite (proj2 (Z.eqb_neq _ _) Hy0). rewrite Hc. cbn [Fs.safe].
      eapply triple_bind; [by apply (triple_ret _ r (fun a s => a = r /\ tx g ∅ v L sb c s))|intros a]. apply triple_and. intros ->.
      rewrite (proj2 (Z.eqb_eq r 0)) by (by apply Hr0). eapply triple_bind; [apply iat_tx|intros x]. apply triple_and. intros ->.
      eapply triple_bind; [exact HQ|intros j]. apply triple_ret. eauto.
    + assert (0 <= i + 1 <= default (nents (c dp)) m) as Hi'.
      { destruct m as [m|]; cbn in *; [|lia]. destruct Hm as [(Hm1 & Hm2 & Hm3) _]. destruct (decide (i = m)) as [->|]; [done|lia]. }
      destruct (Z.eqb_spec (de_inum (dirent_at v (c dp) i)) 0) as [E0|E0]; [apply IH; [done|lia]|].
      rewrite Hc. cbn [Fs.safe]. eapply triple_bind; [by apply (triple_ret _ r (fun a s => a = r /\ tx g ∅ v L sb c s))|intros a]. apply triple_and. intros ->.
      destruct (Z.eqb_spec r 0) as [E|E]; [destruct Hno; split; [done|]; symmetry; by apply Hr0|]. apply IH; [done|lia].
Qed.

(** What [iget] gives: the slot of a cached inode with one more reference, or
    the first free slot. *)
Definition got (c : nat -> inode) (dv nm : Z) (k : nat) (c' : nat -> inode) : Prop :=
  cached c dv nm k /\ c' = <[k := set_ref (ref (c k) + 1) (c k)]> c \/
  (forall j, ~ cached c dv nm j) /\ free_slot c k /\ c' = <[k := fresh_ino dv nm (c k)]> c.

Lemma iget_got v L c dv nm k c' : uniq c -> got c dv nm k c' ->
  triple (tx g ∅ v L sb c) (Fs.iget dv nm) (fun r s => r = k /\ uniq c' /\ tx g ∅ v L sb c' s).
Proof.
  intros Hu [[Hc ->]|(Hn & Hf & ->)]; destruct (iget_tx g ∅ v L sb c dv nm Hu) as (H1 & H2 & _); [exact (H1 k Hc)|exact (H2 k Hn Hf)].
Qed.

Lemma dirlookup_tx dsw dp name v L c m Q : dir_ok v (c dp) -> room g 0 L -> name_ok name ->
  (match m with
   | Some m => first_name v (c dp) name m /\ triple (tx g ∅ v L sb c) (Fs.iget (idev (c dp)) (de_inum (dirent_at v (c dp) m))) Q
   | None => forall j, 0 <= j < nents (c dp) -> ~ names v (c dp) name j
   end) ->
  triple (tx g ∅ v L sb c) (Fs.dirlookup dsw dp name)
    (fun r s => match m with
                | Some m => exists j, r = Some (j, m * 16) /\ Q j s
                | None => r = None /\ tx g ∅ v L sb c s
                end).
Proof.
  intros Hd Hr Hn Hm. unfold Fs.dirlookup. eapply triple_bind; [apply iat_tx|intros x]. apply triple_and. intros ->.
  rewrite (do_type _ _ Hd). change (negb (T_DIR =? T_DIR)) with false. cbv iota. change 0 with (0 * 16) at 1. fold (nents (c dp)).
  assert (0 <= nents (c dp)) by (pose proof (do_size _ _ Hd); pose proof (do_max _ _ Hd); change DIRENT_SIZE with 16 in *; lia).
  apply dirlookup_loop_tx; [done|done|done|done| |lia]. destruct m as [m|]; cbn; [destruct Hm as [[? _] _]; lia|lia].
Qed.

(** ** dirlink *)

Lemma iput_drop v L c k : ~ (ref (c k) = 1 /\ truthy (iflags (c k) .& I_VALID) = true /\ nlink (c k) = 0) ->
  triple (tx g ∅ v L sb c) (Fs.iput k) (fun _ => tx g ∅ v L sb (<[k := set_ref (ref (c k) - 1) (c k)]> c)).
Proof.
  intros Hno. unfold Fs.iput. eapply triple_bind; [apply acquire_tx|intros []]. eapply triple_bind; [apply iat_txl|intros x]. apply triple_and. intros ->.
  destruct ((ref (c k) =? 1) && _ && _) eqn:E; [exfalso; apply Hno; boolify; done|]. unfold when.
  eapply triple_bind; [by apply (triple_ret _ tt (fun _ => txl g ∅ v L sb c))|intros []].
  eapply triple_bind; [apply iupd_txl|intros []]. apply release_tx.
Qed.

(** The place for a new entry: the first one not in use, or the end. *)
Definition first_free (v : gmap Z bytes) (ip : inode) (k : Z) : Prop :=
  0 <= k <= nents ip /\ (k < nents ip -> de_inum (dirent_at v ip k) = 0) /\ forall j, 0 <= j < k -> de_inum (dirent_at v ip j) <> 0.

Lemma dirlink_loop_tx dsw dp v L c k : dir_ok v (c dp) -> room g 0 L -> first_free v (c dp) k ->
  forall fuel i de, 0 <= i <= k -> nents (c dp) - i <= Z.of_nat fuel -> length de = 16%nat ->
  triple (tx g ∅ v L sb c) (Fs.dirlink_loop dsw dp (i * 16) de fuel) (fun r s => (r.1 = k * 16 /\ length r.2 = 16%nat) /\ tx g ∅ v L sb c s).
Proof.
  intros Hd Hr (Hk & Hk0 & Hkn). induction fuel as [|fuel IH]; intros i de Hi Hf Hde; cbn [Fs.dirlink_loop].
  all: eapply triple_bind; [apply iat_tx|intros x]; apply triple_and; intros ->; rewrite (do_size _ _ Hd); change DIRENT_SIZE with 16.
  - destruct (Z.ltb_spec (i * 16) (nents (c dp) * 16)) as [Hlt|Hge]; [lia|]. apply triple_ret. intros s Hs. cbn. split; [split; [lia|done]|done].
  - destruct (Z.ltb_spec (i * 16) (nents (c dp) * 16)) as [Hlt|Hge]; [|apply triple_ret; intros s Hs; cbn; split; [split; [lia|done]|done]].
    eapply triple_bind; [apply (read_entry dsw dp i v L c Hd Hr ltac:(lia))|intros r]. apply triple_and. intros ->. cbn [fst snd]. change (negb (16 =? 16)) with false. cbv iota.
    change (decode_dirent (content v (c dp) (i * 16) 16)) with (dirent_at v (c dp) i). destruct (Z.eqb_spec (de_inum (dirent_at v (c dp) i)) 0) as [E|E].
    + assert (i = k) as -> by (destruct (decide (i = k)); [done|]; by destruct (Hkn i ltac:(lia))). apply triple_ret. intros s Hs. cbn [fst snd]. by rewrite length_content.
    + replace (i * 16 + 16) with ((i + 1) * 16) by lia. apply IH; [|lia|by rewrite length_content]. destruct (decide (i = k)) as [->|]; [by destruct E; apply Hk0; lia|lia].
Qed.

(** The bytes of a name in an entry. *)
Definition pad (name : bytes) : bytes := take 14 (Str.cstr name) ++ replicate (14 - length (Str.cstr name)) 0.

Lemma length_pad name : length (pad name) = 14%nat.
Proof. unfold pad. rewrite length_app, length_take, length_replicate. lia. Qed.

Lemma cstr_take n s : Str.cstr (take n s) = take n (Str.cstr s).
Proof. revert s. induction n as [|n IH]; intros [|a s]; cbn [take Str.cstr]; try done. destruct (truthy a); cbn [take]; [by rewrite IH|done]. Qed.

Lemma dname_pad name : dname (pad name) = dname name.
Proof.
  unfold dname. rewrite (take_ge (pad name)) by (by rewrite length_pad). rewrite cstr_take. unfold pad.
  assert (Forall (fun c => c <> 0) (take 14 (Str.cstr name))) as Hnz by (apply Forall_take, Str.cstr_nonzero).
  destruct (14 - length (Str.cstr name))%nat as [|n]; cbn [replicate]; [rewrite app_nil_r; by apply Str.cstr_of_nonzero|by apply Str.cstr_app_nul].
Qed.

(** A directory with entry [k] set to inode [nm] and the name; other inodes and
    the blocks of other files are as before. *)
Record linked (name : bytes) (nm k : Z) (v : gmap Z bytes) (ip : inode) (v' : gmap Z bytes) (ip' : inode) : Prop := MkLinked {
  ln_dir : dir_ok v' ip';
  ln_count : nents ip' = Z.max (nents ip) (k + 1);
  ln_new : dirent_at v' ip' k = MkDirent nm (pad name);
  ln_old : forall j, 0 <= j < nents ip -> j <> k -> dirent_at v' ip' j = dirent_at v ip j;
  ln_inodes : forall m, 0 <= m < sb_ninodes sb -> m <> inum ip -> dinode_at sb v' m = dinode_at sb v m;
  ln_blocks : forall b, 0 <= b < sb_size sb -> used v sb b = true -> ~ is_bmap sb b -> ~ is_iblock sb b ->
    b <> ind ip -> (forall bn, 0 <= bn < MAXFILE -> addr_of v ip bn <> b) -> blk v' b = blk v b
}.

Lemma decode_dirent_bytes e : 0 <= de_inum e < 2 ^ 16 -> length (de_name e) = 14%nat -> decode_dirent (dirent_bytes e) = e.
Proof.
  destruct e as [i n]. cbn [de_inum de_name]. intros Hi Hn. unfold decode_dirent, dirent_bytes, half, sub. cbn [de_inum de_name]. f_equal.
  - rewrite drop_0, take_app_le, take_ge by (by rewrite length_le_enc). by apply le_val_enc_small.
  - rewrite drop_app_length' by (by rewrite length_le_enc). apply take_ge. lia.
Qed.

Lemma write_linked name nm k v ip v' ip' : dir_ok v ip -> 0 <= k <= nents ip -> k * 16 + 16 <= MAXFILE * BSIZE -> 0 <= nm < 2 ^ 16 -> itype ip' = T_DIR ->
  writei_ok g sb (k * 16) 16 (dirent_bytes (MkDirent nm (pad name))) v ip v' ip' -> linked name nm k v ip v' ip'.
Proof.
  intros Hd Hk Hmx Hnm Hty [W1 W2 W3 W4 W5 W6 W7]. pose proof Hd as [D1 D2 D3 D4 D5]. change DIRENT_SIZE with 16 in D4. rewrite decide_True in W2 by lia.
  assert (nents ip' = Z.max (nents ip) (k + 1)) as Hn'.
  { unfold nents at 1. change DIRENT_SIZE with 16. rewrite W2. replace (Z.max (isize ip) (k * 16 + 16)) with (Z.max (nents ip) (k + 1) * 16) by lia. by rewrite Z.div_mul. }
  set (e := MkDirent nm (pad name)) in *. assert (length (dirent_bytes e) = 16%nat) as Hle by (unfold dirent_bytes; rewrite length_app, length_le_enc; cbn [de_name e]; by rewrite length_pad).
  split; [|done| | |done|done].
  - split; [done|by apply W4|done| |].
    + change DIRENT_SIZE with 16. rewrite Hn', W2. lia.
    + rewrite W2. fs_consts. lia.
  - fold e. unfold dirent_at. change DIRENT_SIZE with 16. rewrite <- (decode_dirent_bytes e) by (done || apply length_pad). f_equal. apply list_eq. intros i. unfold content. rewrite list_lookup_fmap.
    destruct (decide (i < 16)%nat) as [Hi|Hi].
    + rewrite lookup_seqZ_lt by lia. cbn [fmap option_fmap option_map]. rewrite W3, decide_True by lia. rewrite nth_lookup.
      replace (Z.to_nat (k * 16 + Z.of_nat i - k * 16)) with i by lia. by destruct (lookup_lt_is_Some_2 (dirent_bytes e) i ltac:(lia)) as [y ->].
    + rewrite lookup_seqZ_ge, lookup_ge_None_2 by lia. done.
  - intros j Hj Hne. unfold dirent_at. change DIRENT_SIZE with 16. f_equal. unfold content. apply list_fmap_ext. intros i o Ho. apply lookup_seqZ in Ho as [-> Hi].
    rewrite W3, decide_False by (fs_consts; lia). done.
Qed.

Lemma linked_name name nm k v ip v' ip' : linked name nm k v ip v' ip' -> 0 <= k <= nents ip -> nm <> 0 ->
  (forall j, 0 <= j < nents ip -> ~ names v ip name j) -> first_name v' ip' name k /\ forall j, 0 <= j < nents ip' -> j <> k -> ~ names v' ip' name j.
Proof.
  intros [L1 L2 L3 L4 L5 L6] Hk Hnm Hno.
  assert (forall j, 0 <= j < nents ip' -> j <> k -> ~ names v' ip' name j) as Hother.
  { intros j Hj Hne. destruct (decide (j < nents ip)) as [Hlt|Hge].
    - unfold names. rewrite L4 by (done || lia). apply Hno. lia.
    - lia. }
  split; [|done]. split; [lia|]. split; [|intros j Hj; apply Hother; lia]. unfold names. rewrite L3. cbn [de_inum de_name]. split; [done|]. apply dname_pad.
Qed.

(** Room in the log and on the disk for the new entry [k]. *)
Definition can_link (v : gmap Z bytes) (L : list Z) (ip : inode) (k : Z) : Prop :=
  k * 16 + 16 <= MAXFILE * BSIZE /\ nblk (k * 16) 16 <= avail sb v ip /\ proom g sb (nblk (k * 16) 16 + 1) L ip.

Lemma dirlink_new dsw dp name nm v L c k : dir_ok v (c dp) -> room g 0 L -> name_ok name -> 0 < nm < 2 ^ 16 -> 0 <= inum (c dp) < sb_ninodes sb ->
  (forall j, 0 <= j < nents (c dp) -> ~ names v (c dp) name j) -> first_free v (c dp) k -> can_link v L (c dp) k ->
  triple (tx g ∅ v L sb c) (Fs.dirlink dsw dp name nm)
    (fun r s => r = 0 /\ exists v' L' c', linked name nm k v (c dp) v' (c' dp) /\ first_name v' (c' dp) name k /\
      (forall j, j <> dp -> c' j = c j) /\ tx g ∅ v' L' sb c' s).
Proof.
  intros Hd Hr Hn Hnm Hin Hno Hk (Hc1 & Hc2 & Hc3). unfold Fs.dirlink. pose proof Hk as (Hk1 & _ & _).
  eapply triple_bind; [apply (dirlookup_tx dsw dp name v L c None (fun _ _ => True) Hd Hr Hn Hno)|intros r]. apply triple_and. intros ->.
  eapply triple_bind; [apply iat_tx|intros x]. apply triple_and. intros ->. fold (nents (c dp)).
  eapply triple_bind; [apply (dirlink_loop_tx dsw dp v L c k Hd Hr Hk _ 0 (replicate 16 0)); [lia|lia|done]|intros r]. apply triple_and. intros [Hr1 Hr2].
  assert (length (de_name (decode_dirent r.2)) = 14%nat) as Hl by (cbn [decode_dirent de_name]; apply length_sub; lia).
  rewrite Str.strncpy_spec by (change (Z.to_nat DIRSIZ) with 14%nat; (lia || done)). change (Z.to_nat DIRSIZ) with 14%nat. rewrite (drop_ge (de_name _)), app_nil_r by lia.
  change (take 14 (Str.cstr name) ++ replicate (14 - length (Str.cstr name)) 0) with (pad name). cbn [Fs.safe].
  eapply triple_bind; [by apply (triple_ret _ (pad name) (fun a s => a = pad name /\ tx g ∅ v L sb c s))|intros a]. apply triple_and. intros ->.
  assert (u16 nm = nm) as -> by (apply Z.mod_small; lia). rewrite Hr1. change DIRENT_SIZE with 16.
  pose proof Hd as [D1 D2 D3 D4 D5]. change DIRENT_SIZE with 16 in D4. set (e := dirent_bytes (MkDirent nm (pad name))).
  assert (length e = 16%nat) as Hle by (unfold e, dirent_bytes; rewrite length_app, length_le_enc; cbn [de_name]; by rewrite length_pad).
  eapply triple_bind; [apply (writei_tx g sb Hly dsw dp e (k * 16) 16 v L c); try done; [by rewrite D3|lia|lia]|intros w].
  intros s (-> & v1 & L' & ip1 & c' & Hw & Hci & Hcj & Hr' & Hs). change (negb (16 =? 16)) with false. cbv iota.
  pose proof (written_ok g sb Hly (k * 16) 16 e v (c dp) v1 ip1 D1 Hin ltac:(lia) ltac:(lia) ltac:(lia) Hc1 Hw) as Wk. rewrite <- Hci in Wk.
  assert (itype (c' dp) = T_DIR) as Ety by (rewrite Hci, <- D3; unfold written_ino; destruct (_ && _); cbn [itype set_isize]; by rewrite (wr_ip _ _ _ _ _ _ _ _ _ Hw)).
  pose proof (write_linked name nm k v (c dp) _ (c' dp) Hd Hk1 Hc1 ltac:(lia) Ety Wk) as Hln.
  exists 0, s. split; [done|]. split; [done|]. eexists _, L', c'. split; [exact Hln|]. split; [eapply linked_name; [exact Hln|lia|lia|done]|]. done.
Qed.

(** The name is taken: the reference [dirlookup] took is given back. *)
Lemma dirlink_taken dsw dp name nm v L c m k c' : dir_ok v (c dp) -> room g 0 L -> name_ok name -> uniq c -> first_name v (c dp) name m ->
  got c (idev (c dp)) (de_inum (dirent_at v (c dp) m)) k c' ->
  triple (tx g ∅ v L sb c) (Fs.dirlink dsw dp name nm)
    (fun r s => r = -1 /\ exists c'', (forall j, j <> k -> c'' j = c j) /\ ref (c'' k) = ref (c k) /\ tx g ∅ v L sb c'' s).
Proof.
  intros Hd Hr Hn Hu Hm Hg. unfold Fs.dirlink.
  eapply triple_bind; [apply (dirlookup_tx dsw dp name v L c (Some m) _ Hd Hr Hn (conj Hm (iget_got v L c _ _ k c' Hu Hg)))|intros r].
  intros s (j & -> & -> & Hu' & Hs). revert s Hs. assert (forall j, j <> k -> c' j = c j) as Hne.
  { intros j Hj. destruct Hg as [[_ ->]|(_ & _ & ->)]; by rewrite fn_lookup_insert_ne. }
  assert (ref (c' k) = ref (c k) + 1 /\ ~ (ref (c' k) = 1 /\ truthy (iflags (c' k) .& I_VALID) = true /\ nlink (c' k) = 0)) as [Hk Hno].
  { destruct Hg as [[(_ & H0 & _) ->]|(_ & (_ & H0 & _) & ->)]; rewrite fn_lookup_insert; cbn [ref set_ref fresh_ino iflags]; [lia|]. rewrite H0. split; [done|]. by intros (_ & ? & _). }
  eapply triple_bind; [apply (iput_drop v L c' k Hno)|intros []]. apply triple_ret. intros s Hs. split; [done|].
  eexists. split; [|split; [|exact Hs]]; [intros j Hj; rewrite fn_lookup_insert_ne by done; by apply Hne|rewrite fn_lookup_insert; cbn [ref set_ref]; lia].
Qed.

(** ** Theorems *)

(** [dirlookup] finds a name in a directory: the first entry in use with the
    name, compared up to [DIRSIZ] bytes, gives its inode with one more
    reference and its offset; without such an entry the result is null and
    nothing changes; on an inode that is not a directory it panics. *)
Theorem dirlookup_correct dsw dp name v L c : room g 0 L -> name_ok name -> uniq c ->
  (dir_ok v (c dp) ->
    (forall m k c', first_name v (c dp) name m -> got c (idev (c dp)) (de_inum (dirent_at v (c dp) m)) k c' ->
      triple (tx g ∅ v L sb c) (Fs.dirlookup dsw dp name) (fun r s => r = Some (k, m * DIRENT_SIZE) /\ uniq c' /\ tx g ∅ v L sb c' s)) /\
    ((forall j, 0 <= j < nents (c dp) -> ~ names v (c dp) name j) ->
      triple (tx g ∅ v L sb c) (Fs.dirlookup dsw dp name) (fun r s => r = None /\ tx g ∅ v L sb c s))) /\
  (itype (c dp) <> T_DIR -> panics (tx g ∅ v L sb c) (Fs.dirlookup dsw dp name) "dirlookup not DIR").
Proof.
  intros Hr Hn Hu. split; [intros Hd; split|].
  - intros m k c' Hm Hg. eapply triple_post; [apply (dirlookup_tx dsw dp name v L c (Some m) _ Hd Hr Hn (conj Hm (iget_got v L c _ _ k c' Hu Hg)))|].
    intros r s (j & -> & -> & Hs). done.
  - intros Hno. exact (dirlookup_tx dsw dp name v L c None (fun _ _ => True) Hd Hr Hn Hno).
  - intros Hty. unfold Fs.dirlookup. eapply panics_bind; [apply iat_tx|intros x]. apply panics_and. intros ->. rewrite (proj2 (Z.eqb_neq _ _) Hty). done.
Qed.

(** C25: [dirlink] adds a name to a directory.  If the name is there already it
    returns -1 and neither the disk nor the reference counts change.  Otherwise
    the first free entry, or a new one at the end, is set to the name and the
    inode number; all other entries, all other inodes and all blocks of other
    files are as before, and the name is found at the new entry and nowhere
    else. *)
Theorem dirlink_correct dsw dp name nm v L c : dir_ok v (c dp) -> room g 0 L -> name_ok name -> uniq c -> 0 < nm < 2 ^ 16 ->
  0 <= inum (c dp) < sb_ninodes sb ->
  (forall m k c', first_name v (c dp) name m -> got c (idev (c dp)) (de_inum (dirent_at v (c dp) m)) k c' ->
    triple (tx g ∅ v L sb c) (Fs.dirlink dsw dp name nm)
      (fun r s => r = -1 /\ exists c'', (forall j, j <> k -> c'' j = c j) /\ ref (c'' k) = ref (c k) /\ tx g ∅ v L sb c'' s)) /\
  (forall k, (forall j, 0 <= j < nents (c dp) -> ~ names v (c dp) name j) -> first_free v (c dp) k -> can_link v L (c dp) k ->
    triple (tx g ∅ v L sb c) (Fs.dirlink dsw dp name nm)
      (fun r s => r = 0 /\ exists v' L' c', linked name nm k v (c dp) v' (c' dp) /\
        (forall j, 0 <= j < nents (c' dp) -> names v' (c' dp) name j <-> j = k) /\
        (forall j, j <> dp -> c' j = c j) /\ tx g ∅ v' L' sb c' s)).
Proof.
  intros Hd Hr Hn Hu Hnm Hin. split; [intros m k c' Hm Hg; by apply (dirlink_taken dsw dp name nm v L c m k c')|].
  intros k Hno Hk Hc. eapply triple_post; [by apply (dirlink_new dsw dp name nm v L c k)|]. intros r s (-> & v' & L' & c' & Hln & Hfn & Hcj & Hs). split; [done|].
  exists v', L', c'. split; [done|]. split; [|done]. destruct Hk as (Hk & _ & _). destruct (linked_name name nm k v (c dp) v' (c' dp) Hln Hk ltac:(lia) Hno) as [(_ & Hy & _) Hother].
  intros j Hj. split; [intros Hx; destruct (decide (j = k)); [done|by destruct (Hother j)]|by intros ->].
Qed.
End dir.

(** ** A directory with two entries *)

Module DirEx.
Definition block : bytes := splice 0 (dirent_bytes (MkDirent 1 (pad [46])) ++ dirent_bytes (MkDirent 1 (pad [46; 46]))) zblock.
Definition ip : inode := MkInode 1 1 1 2 T_DIR 0 0 1 32 [35; 0; 0; 0; 0; 0; 0; 0; 0; 0; 0; 0; 0].
Definition img : gmap Z bytes := <[35 := block]> (<[32 := splice 64 (dinode_bytes (to_dinode ip)) zblock]> FsEx.img).
Definition g : geo := MkGeo 2 30 100 img.
Definition c (i : nat) : inode := if (i =? 0)%nat then ip else FsEx.blank.
Definition s : fsst :=
  Fs.MkFs (Log.MkSt (Log.MkLog false 2 30 1 0 1 0 (replicate 30 0) 0) (BlockSpec.MkBs img img ∅ ∅ 100 [])) FsEx.sb false c [].

Lemma dir_img_len : len_ok img.
Proof. intros b. unfold img. rewrite !blk_insert. repeat case_decide; [reflexivity|reflexivity|apply FsEx.fs_img_len]. Qed.

Lemma dir_layout : layout g FsEx.sb.
Proof. destruct FsEx.ly as [H1 H2 H3 H4 H5 H6]. by split. Qed.

Lemma dir_tx : tx g ∅ img [] FsEx.sb c s.
Proof.
  split; try done. apply Log.MkTxn; try done.
  - split; [apply NoDup_nil_2|simpl; lia|]. intros b Hb. by apply not_elem_of_nil in Hb.
  - apply dir_img_len.
  - apply dir_img_len.
Qed.

Lemma dir_used b : 0 <= b < 100 -> used img FsEx.sb b = (b <? 37).
Proof.
  intros Hb. rewrite <- FsEx.used_lt by done. unfold used. assert (BBLOCK b FsEx.sb = 34) as ->.
  { unfold BBLOCK. rewrite Z.div_small by (change BPB with 4096; lia). done. }
  done.
Qed.

Lemma dir_addr n : 0 <= n < MAXFILE -> addr_of img ip n = if n =? 0 then 35 else 0.
Proof.
  intros Hb. assert (forallb (fun n => addr_of img ip n =? (if n =? 0 then 35 else 0)) (seqZ 0 MAXFILE) = true) as H by (vm_compute; done).
  rewrite forallb_forall in H. apply Z.eqb_eq, H, list_elem_of_In, elem_of_seqZ. lia.
Qed.

Lemma dir_is_ok : dir_ok g FsEx.sb img ip.
Proof.
  split; [split; [apply dir_img_len| |split; try done]| |done|done|done].
  - intros b Hb Hm. simpl in Hb. rewrite dir_used by done. apply Z.ltb_lt. unfold meta in Hm. rewrite FsEx.is_bmap_34, FsEx.is_iblock_32 in Hm. simpl in Hm. lia.
  - intros n Hn. rewrite dir_addr by done. intros Hz. unfold datab, meta. rewrite FsEx.is_bmap_34, FsEx.is_iblock_32.
    case_match; [|done]. split; [|done]. rewrite dir_used by (simpl; lia). simpl. split_and!; try done; lia.
  - intros n m Hn Hm. rewrite !dir_addr by done. repeat case_match; boolify; lia.
  - intros n Hn Hs. change (isize ip) with 32 in Hs. unfold BSIZE in Hs. rewrite dir_addr by (fs_consts; lia). case_match; boolify; lia.
Qed.

Lemma dir_uniq : uniq c.
Proof. intros dv nm [|j] [|k] (_ & Hj & _) (_ & Hk & _); simpl in *; (done || lia). Qed.
End DirEx.

Lemma dirlookup_correct_witness :
  (exists s', Fs.dirlookup FsEx.nodev 0 [46; 46; 0] DirEx.s = Ok (Some (0%nat, 16)) s') /\
  panics (tx DirEx.g ∅ DirEx.img [] FsEx.sb DirEx.c) (Fs.dirlookup FsEx.nodev 1 [46; 46; 0]) "dirlookup not DIR".
Proof.
  assert (room DirEx.g 0 []) as Hr by (unfold room; simpl; lia).
  assert (name_ok [46; 46; 0]) as Hn by (right; right; right; left).
  split.
  - destruct (dirlookup_correct DirEx.g FsEx.sb DirEx.dir_layout FsEx.nodev 0 [46; 46; 0] DirEx.img [] DirEx.c Hr Hn DirEx.dir_uniq) as [H _].
    destruct (H DirEx.dir_is_ok) as [Hf _].
    destruct (Hf 1 0%nat _ ltac:(split; [split; [lia|reflexivity]|split; [split; [discriminate|reflexivity]|]]; intros j Hj [_ Hx]; assert (j = 0) as -> by lia; discriminate Hx)
      ltac:(left; split; [|reflexivity]; split; [unfold NINODE; lia|split; [reflexivity|split; reflexivity]]) DirEx.s DirEx.dir_tx) as (r & s' & E & -> & _).
    exists s'. exact E.
  - apply (dirlookup_correct DirEx.g FsEx.sb DirEx.dir_layout FsEx.nodev 1 [46; 46; 0] DirEx.img [] DirEx.c Hr Hn DirEx.dir_uniq). discriminate.
Defined.

Lemma dirlink_correct_witness :
  (exists s', Fs.dirlink FsEx.nodev 0 [97; 0] 5 DirEx.s = Ok 0 s') /\ (exists s', Fs.dirlink FsEx.nodev 0 [46; 0] 5 DirEx.s = Ok (-1) s').
Proof.
  assert (room DirEx.g 0 []) as Hr by (unfold room; simpl; lia).
  split.
  - destruct (dirlink_correct DirEx.g FsEx.sb DirEx.dir_layout FsEx.nodev 0 [97; 0] 5 DirEx.img [] DirEx.c DirEx.dir_is_ok Hr
      ltac:(right; right; left) DirEx.dir_uniq ltac:(lia) ltac:(simpl; lia)) as [_ H].
    destruct (H 2) with DirEx.s as (r & s' & E & -> & _).
    + intros j Hj. change (nents (DirEx.c 0)) with 2 in Hj. assert (j = 0 \/ j = 1) as [-> | ->] by lia; intros [_ Hx]; discriminate Hx.
    + change (0 <= 2 <= 2 /\ (2 < 2 -> de_inum (dirent_at DirEx.img DirEx.ip 2) = 0) /\ forall j, 0 <= j < 2 -> de_inum (dirent_at DirEx.img DirEx.ip j) <> 0).
      split; [lia|split; [lia|]]. intros j Hj. assert (j = 0 \/ j = 1) as [-> | ->] by lia; discriminate.
    + split; [vm_compute; discriminate|]. split; [vm_compute; discriminate|]. vm_compute. discriminate.
    + exact DirEx.dir_tx.
    + exists s'. exact E.
  - destruct (dirlink_correct DirEx.g FsEx.sb DirEx.dir_layout FsEx.nodev 0 [46; 0] 5 DirEx.img [] DirEx.c DirEx.dir_is_ok Hr
      ltac:(right; right; left) DirEx.dir_uniq ltac:(lia) ltac:(simpl; lia)) as [H _].
    destruct (H 0 0%nat _ ltac:(split; [split; [lia|reflexivity]|split; [split; [discriminate|reflexivity]|]]; lia)
      ltac:(left; split; [|reflexivity]; split; [unfold NINODE; lia|split; [reflexivity|split; reflexivity]]) DirEx.s DirEx.dir_tx) as (r & s' & E & -> & _).
    exists s'. exact E.
Defined.
