(* ===== verification/Mkfs.v ===== *)
(** * mkfs.c: the program that builds the file system image

    mkfs runs on the host, which is little-endian here.  The host's files are
    arguments: the image file is a sequence of sectors that may grow to a limit,
    and a file to be copied is the list of what successive calls of [read]
    return.  An assertion that fails and [exit(1)] are [Panic]; the progress
    messages are left out. *)

From S2P Require Import Prelude Memory Layout Spinlock Block Bio Log Fs.

Module Mkfs.

Abbreviation DOT := 46.

Definition NINODES : Z := 200.

Definition nbitmap : Z := FSSIZE / (BSIZE * 8) + 1.
Definition ninodeblocks : Z := NINODES / IPB + 1.
Definition nlog : Z := LOGSIZE.
Definition nmeta : Z := 2 + nlog + ninodeblocks + nbitmap.
Definition nblocks : Z := FSSIZE - nmeta.

(** The bytes of [y] are stored one by one, and [y] is read as the host does. *)
Definition xshort (x : Z) : Z := le_val [u8 x; u8 (Z.shiftr x 8)].
Definition xint (x : Z) : Z := le_val [u8 x; u8 (Z.shiftr x 8); u8 (Z.shiftr x 16); u8 (Z.shiftr x 24)].

(** The image file: its sectors, how many there are, and how many the host has
    room for; then the globals [sb], [freeinode] and [freeblock]. *)
Record mkfs := MkMkfs {
  image : gmap Z bytes;
  nsect : Z;
  room : Z;
  msb : superblock;
  freeinode : Z;
  freeblock : Z
}.

Definition set_image (x : gmap Z bytes) (n : Z) (s : mkfs) : mkfs := MkMkfs x n (room s) (msb s) (freeinode s) (freeblock s).
Definition set_msb (x : superblock) (s : mkfs) : mkfs := MkMkfs (image s) (nsect s) (room s) x (freeinode s) (freeblock s).
Definition set_freeinode (x : Z) (s : mkfs) : mkfs := MkMkfs (image s) (nsect s) (room s) (msb s) x (freeblock s).
Definition set_freeblock (x : Z) (s : mkfs) : mkfs := MkMkfs (image s) (nsect s) (room s) (msb s) (freeinode s) x.

(** The sector that [lseek(fsfd, sec * BSIZE, 0)] goes to. *)
Definition seek (sec : Z) : Z := u32 (sec * BSIZE) / BSIZE.

Definition wsect (sec : Z) (buf : bytes) : M mkfs unit :=
  s ← get;
  if room s <=? seek sec then panic "write" else
  put (set_image (<[seek sec := buf]> (image s)) (Z.max (nsect s) (seek sec + 1)) s).

Definition rsect (sec : Z) : M mkfs bytes :=
  s ← get;
  if nsect s <=? seek sec then panic "read" else mret (blk (image s) (seek sec)).

Definition winode (inum : Z) (ip : dinode) : M mkfs unit :=
  sb ← gets msb;
  let bn := IBLOCK inum sb in
  buf ← rsect bn;
  wsect bn (splice (dinode_off inum) (dinode_bytes ip) buf).

Definition rinode (inum : Z) : M mkfs dinode :=
  sb ← gets msb;
  let bn := IBLOCK inum sb in
  buf ← rsect bn;
  mret (decode_dinode (dinode_off inum) buf).

Definition ialloc (type : Z) : M mkfs Z :=
  inum ← gets freeinode;
  modify (set_freeinode (u32 (inum + 1)));;
  winode inum (MkDinode (s16 (xshort type)) 0 0 (s16 (xshort 1)) (xint 0) (replicate 13 0));;
  mret inum.

Definition balloc (used : Z) : M mkfs unit :=
  if negb (used <? BSIZE * 8) then panic "assert" else
  sb ← gets msb;
  wsect (sb_bmapstart sb) (foldl (fun buf i => Fs.set_bit i buf) zblock (seqZ 0 used)).

(** [freeblock++] *)
Definition fresh : M mkfs Z :=
  b ← gets freeblock;
  modify (set_freeblock (u32 (b + 1)));;
  mret b.

Definition set_daddrs (a : list Z) (d : dinode) : dinode := MkDinode (d_type d) (d_major d) (d_minor d) (d_nlink d) (d_size d) a.
Definition set_dsize (n : Z) (d : dinode) : dinode := MkDinode (d_type d) (d_major d) (d_minor d) (d_nlink d) n (d_addrs d).

(** The address in entry [i] of [din.addrs], a new block if there is none. *)
Definition addr_at (i : nat) (din : dinode) : M mkfs (Z * dinode) :=
  if xint (nth i (d_addrs din) 0) =? 0 then
    b ← fresh; mret (xint (xint b), set_daddrs (<[i := xint b]> (d_addrs din)) din)
  else mret (xint (nth i (d_addrs din) 0), din).

(** The block [x] of the file's block [fbn]. *)
Definition block_of (fbn : Z) (din : dinode) : M mkfs (Z * dinode) :=
  if fbn <? NDIRECT then addr_at (Z.to_nat fbn) din
  else
    '(ind, din) ← addr_at (Z.to_nat NDIRECT) din;
    indirect ← rsect ind;
    let i := (4 * Z.to_nat (fbn - NDIRECT))%nat in
    if word i indirect =? 0 then
      b ← fresh;
      let indirect := set_word i (xint b) indirect in
      wsect ind indirect;;
      mret (xint (word i indirect), din)
    else mret (xint (word i indirect), din).

(** The loop of [iappend]: [p] are the bytes still to append at [off]. *)
Fixpoint iappend_loop (fuel : nat) (din : dinode) (off : Z) (p : bytes) : M mkfs (dinode * Z) :=
  match fuel with
  | O => nofuel
  | S fuel =>
      if (length p =? 0)%nat then mret (din, off) else
      let fbn := off / BSIZE in
      if negb (fbn <? MAXFILE) then panic "assert" else
      '(x, din) ← block_of fbn din;
      let n1 := Z.min (Z.of_nat (length p)) (u32 ((fbn + 1) * BSIZE - off)) in
      buf ← rsect x;
      wsect x (splice (Z.to_nat (off - fbn * BSIZE)) (take (Z.to_nat n1) p) buf);;
      iappend_loop fuel din (u32 (off + n1)) (drop (Z.to_nat n1) p)
  end.

Definition iappend (inum : Z) (p : bytes) : M mkfs unit :=
  din ← rinode inum;
  '(din, off) ← iappend_loop (length p + 1) din (xint (d_size din)) p;
  winode inum (set_dsize (xint off) din).

(** [strcpy] and [strncpy] of a name into a zeroed [de.name]. *)
Definition dirname (name : bytes) : bytes := take (Z.to_nat DIRSIZ) (name ++ replicate (Z.to_nat DIRSIZ) 0).
Definition entry (inum : Z) (name : bytes) : bytes := dirent_bytes (MkDirent (xshort inum) (dirname name)).

(** [argv[i]] without a leading underscore. *)
Definition strip (name : bytes) : bytes := match name with c :: rest => if c =? 95 then rest else name | [] => name end.

(** [while((cc = read(fd, buf, sizeof(buf))) > 0) iappend(inum, buf, cc);] *)
Fixpoint append_reads (inum : Z) (reads : list bytes) : M mkfs unit :=
  match reads with
  | [] => mret tt
  | buf :: reads => iappend inum buf;; append_reads inum reads
  end.

Section main.
(** The host's files: what the calls of [read] return, when the file can be opened. *)
Context (open : bytes -> option (list bytes)).

Fixpoint copy_files (rootino : Z) (argv : list bytes) : M mkfs unit :=
  match argv with
  | [] => mret tt
  | arg :: argv =>
      if existsb (Z.eqb Fs.SLASH) arg then panic "assert" else
      match open arg with
      | None => panic "open"
      | Some reads =>
          inum ← ialloc T_FILE;
          iappend rootino (entry inum (strip arg));;
          append_reads inum reads;;
          copy_files rootino argv
      end
  end.

Fixpoint wzeroes (i : Z) (n : nat) : M mkfs unit :=
  match n with
  | O => mret tt
  | S n => wsect i zblock;; wzeroes (i + 1) n
  end.

Definition sb_bytes (sb : superblock) : bytes :=
  le_enc 4 (sb_size sb) ++ le_enc 4 (sb_nblocks sb) ++ le_enc 4 (sb_ninodes sb) ++ le_enc 4 (sb_nlog sb) ++
  le_enc 4 (sb_logstart sb) ++ le_enc 4 (sb_inodestart sb) ++ le_enc 4 (sb_bmapstart sb).

(** [argv] without the name of the program; [create]: the image can be opened.
    The image is empty at first. *)
Definition main (create : bool) (argv : list bytes) : M mkfs unit :=
  match argv with
  | [] => panic "usage"
  | _ :: argv =>
      if negb ((BSIZE mod DINODE_SIZE =? 0) && (BSIZE mod DIRENT_SIZE =? 0)) then panic "assert" else
      if negb create then panic "open" else
      let sb := MkSb (xint FSSIZE) (xint nblocks) (xint NINODES) (xint nlog) (xint 2) (xint (2 + nlog)) (xint (2 + nlog + ninodeblocks)) in
      modify (set_msb sb);;
      modify (set_freeblock nmeta);;
      wzeroes 0 (Z.to_nat FSSIZE);;
      wsect 1 (splice 0 (sb_bytes sb) zblock);;
      rootino ← ialloc T_DIR;
      if negb (rootino =? ROOTINO) then panic "assert" else
      iappend rootino (entry rootino [DOT]);;
      iappend rootino (entry rootino [DOT; DOT]);;
      copy_files rootino argv;;
      din ← rinode rootino;
      let off := xint (d_size din) in
      let off := u32 ((off / BSIZE + 1) * BSIZE) in
      winode rootino (set_dsize (xint off) din);;
      used ← gets freeblock;
      balloc (s32 used)
  end.
End main.

End Mkfs.
