(* ===== verification/MkfsFile.v ===== *)
(** * Files under construction in the image of mkfs

    [filed] says which blocks of the image hold a file, with a ghost owner for
    every allocated block; [good] says it of all files made so far.  [iappend]
    extends one file and leaves the others alone; [copy_files] adds the files
    of the command line to the root directory. *)

From S2P Require Import Prelude Memory Layout Spinlock Block Bio Log Fs FsTx FsBlock FsFile FsRw FsIno FsSpec Mkfs.
Import Mkfs.

(** ** The blocks of a file *)

(** Slots 0 to 139 are the file's blocks, slot 140 is the indirect block. *)
Abbreviation IND := 140.

Definition slot (v : gmap Z bytes) (a : list Z) (k : Z) : Z :=
  if k =? IND then nth 12 a 0
  else if k <? NDIRECT then nth (Z.to_nat k) a 0
  else if nth 12 a 0 =? 0 then 0 else word (4 * Z.to_nat (k - NDIRECT)) (blk v (nth 12 a 0)).

(** Block [k] of the contents [c], padded with zeros. *)
Definition chunk (c : bytes) (k : Z) : bytes := take (Z.to_nat BSIZE) (drop (Z.to_nat (k * BSIZE)) c ++ zblock).

(** The slots that a file of [n] bytes uses, and how many they are. *)
Definition slot_start (k : Z) : Z := if k =? IND then NDIRECT * BSIZE else k * BSIZE.
Definition needs (n k : Z) : Prop := slot_start k < n.
Definition cost (n : Z) : Z := (n + BSIZE - 1) / BSIZE + (if NDIRECT * BSIZE <? n then 1 else 0).

(** File [n] with addresses [a] and contents [c]: the slots in use are [al];
    the owner of a block is its file and slot. *)
Record filed (v : gmap Z bytes) (fb : Z) (own : Z -> Z * Z) (n : Z) (a : list Z) (al : Z -> Prop) (c : bytes) : Prop := MkFiled {
  f_len : length a = 13%nat;
  f_slot : forall k, 0 <= k <= IND -> slot v a k <> 0 -> nmeta <= slot v a k < fb /\ own (slot v a k) = (n, k);
  f_alloc : forall k, 0 <= k <= IND -> slot v a k <> 0 <-> al k;
  f_data : forall k, 0 <= k < IND -> slot v a k <> 0 -> blk v (slot v a k) = chunk c k
}.

(** What a change to file [n] may do to the image. *)
Record step (n : Z) (v : gmap Z bytes) (fb : Z) (own : Z -> Z * Z) (v' : gmap Z bytes) (fb' : Z) (own' : Z -> Z * Z) : Prop := MkStep {
  st_fb : fb <= fb';
  st_len : len_ok v -> len_ok v';
  st_low : forall b, b < nmeta -> blk v' b = blk v b;
  st_others : forall b, nmeta <= b < fb -> (own b).1 <> n -> blk v' b = blk v b;
  st_own : forall b, b < fb -> own' b = own b;
  st_fresh : (forall b, fb <= b -> blk v b = zblock) -> forall b, fb' <= b -> blk v' b = zblock
}.

Lemma step_refl n v fb own : step n v fb own v fb own.
Proof. split; (done || lia). Qed.

Lemma step_trans n v fb own v1 fb1 own1 v2 fb2 own2 :
  step n v fb own v1 fb1 own1 -> step n v1 fb1 own1 v2 fb2 own2 -> step n v fb own v2 fb2 own2.
Proof.
  intros [A1 A2 A3 A4 A5 A6] [B1 B2 B3 B4 B5 B6]. split; [lia|auto| | | |auto].
  - intros b Hb. by rewrite B3, A3.
  - intros b Hb Ho. rewrite B4; [by apply A4|lia|by rewrite A5 by lia].
  - intros b Hb. rewrite B5 by lia. by apply A5.
Qed.

Lemma slot_same v v' a k : (nth 12 a 0 <> 0 -> blk v' (nth 12 a 0) = blk v (nth 12 a 0)) -> slot v' a k = slot v a k.
Proof.
  intros H. unfold slot. destruct (k =? IND); [done|]. destruct (k <? NDIRECT); [done|].
  destruct (Z.eqb_spec (nth 12 a 0) 0) as [|E]; [done|]. by rewrite H.
Qed.

(** A file is as its own blocks are. *)
Lemma filed_frame m v fb own v' fb' own' a al c : fb <= fb' -> (forall b, b < fb -> own' b = own b) ->
  (forall b, nmeta <= b < fb -> (own b).1 = m -> blk v' b = blk v b) -> filed v fb own m a al c -> filed v' fb' own' m a al c.
Proof.
  intros S1 S5 S4 [H1 H2 H3 H4].
  assert (forall k, 0 <= k <= IND -> slot v a k <> 0 -> blk v' (slot v a k) = blk v (slot v a k)) as Hb.
  { intros k Hk Hs. destruct (H2 k Hk Hs) as [Hr Ho]. apply S4; [lia|]. by rewrite Ho. }
  assert (forall k, slot v' a k = slot v a k) as E.
  { intros k. apply slot_same. intros Hn. exact (Hb IND ltac:(lia) Hn). }
  split; [done| | |].
  - intros k Hk. rewrite E. intros Hs. destruct (H2 k Hk Hs) as [Hr Ho]. split; [lia|]. by rewrite S5 by lia.
  - intros k Hk. rewrite E. by apply H3.
  - intros k Hk. rewrite E. intros Hs. rewrite Hb by (done || lia). by apply H4.
Qed.

(** Other files do not see a step. *)
Lemma filed_step m n v fb own v' fb' own' a al c : step n v fb own v' fb' own' -> m <> n ->
  filed v fb own m a al c -> filed v' fb' own' m a al c.
Proof. intros [S1 _ _ S4 S5 _] Hne. apply filed_frame; [done|done|]. intros b Hb <-. by apply S4. Qed.

Lemma filed_ext v fb own n a al al' c : (forall k, 0 <= k <= IND -> al k <-> al' k) -> filed v fb own n a al c -> filed v fb own n a al' c.
Proof. intros E [H1 H2 H3 H4]. split; try done. intros k Hk. rewrite <- E by done. by apply H3. Qed.

Lemma ind_slot v a : slot v a IND = nth 12 a 0.
Proof. done. Qed.

(** Slots of one file are different blocks. *)
Lemma slot_inj v fb own n a al c j k : filed v fb own n a al c -> 0 <= j <= IND -> 0 <= k <= IND ->
  slot v a j <> 0 -> slot v a j = slot v a k -> j = k.
Proof. intros H Hj Hk Hs E. destruct (f_slot _ _ _ _ _ _ _ H j Hj Hs) as [_ O1]. rewrite E in O1, Hs. destruct (f_slot _ _ _ _ _ _ _ H k Hk Hs) as [_ O2]. congruence. Qed.

(** ** Allocation *)

Section alloc.
Context (v : gmap Z bytes) (fb : Z) (own : Z -> Z * Z) (n : Z) (a : list Z) (al : Z -> Prop) (c : bytes).
Context (Hf : filed v fb own n a al c) (Hfb : nmeta <= fb < 2 ^ 32) (Hz : forall b, fb <= b -> blk v b = zblock).

Definition owned (k : Z) : Z -> Z * Z := fun b => if decide (b = fb) then (n, k) else own b.

Lemma owned_step k : step n v fb own v (fb + 1) (owned k).
Proof. split; [lia|done|done|done| |]. - intros b Hb. unfold owned. by rewrite decide_False by lia. - intros _ b Hb. apply Hz. lia. Qed.

(** A new address in the inode: slot [k] is a direct block or the indirect block. *)
Lemma take_addr k (Hk : 0 <= k < NDIRECT \/ k = IND) (Hal : ~ al k) (Hc : k <> IND -> chunk c k = zblock) :
  filed v (fb + 1) (owned k) n (<[Z.to_nat (Z.min k NDIRECT) := fb]> a) (fun j => j = k \/ al j) c.
Proof.
  change NDIRECT with 12 in *. destruct Hf as [H1 H2 H3 H4]. set (a' := <[_ := fb]> a).
  assert (slot v a k = 0) as Hk0. { destruct (decide (slot v a k = 0)) as [|Hn]; [done|]. exfalso. apply Hal. apply H3; [lia|done]. }
  assert (forall i, nth i a' 0 = if decide (i = Z.to_nat (Z.min k 12)) then fb else nth i a 0) as Hn.
  { intros i. rewrite !nth_lookup. unfold a'. case_decide as E; [subst i; by rewrite list_lookup_insert_eq by lia|by rewrite list_lookup_insert_ne by done]. }
  assert (forall j, 0 <= j <= IND -> slot v a' j = if decide (j = k) then fb else slot v a j) as Hs.
  { intros j Hj. unfold slot in *. rewrite !Hn. change NDIRECT with 12. destruct (Z.eqb_spec j IND) as [->|Ej].
    - destruct Hk as [Hk| ->]; [rewrite !decide_False by lia; done|rewrite !decide_True by (done || lia); done].
    - destruct (Z.ltb_spec j 12).
      + destruct (decide (j = k)) as [->|]; [by rewrite decide_True by lia|by rewrite decide_False by lia].
      + destruct (decide (12%nat = Z.to_nat (Z.min k 12))) as [E|E]; [|rewrite decide_False by lia; done].
        assert (k = IND) as -> by lia. cbn in Hk0. rewrite decide_False by done. rewrite Hk0. cbn.
        destruct (Z.eqb_spec fb 0); [done|]. rewrite Hz by lia. apply word_zblock. }
  split; [unfold a'; by rewrite length_insert| | |].
  - intros j Hj. rewrite Hs by done. unfold owned. case_decide as E; [subst; intros _; split; [lia|by rewrite decide_True]|].
    intros Hj0. destruct (H2 j Hj Hj0) as [Hr Ho]. split; [lia|]. by rewrite decide_False by lia.
  - intros j Hj. rewrite Hs by done. case_decide as E; [split; [by left|intros; change nmeta with 59 in *; lia]|]. rewrite H3 by done. tauto.
  - intros j Hj. rewrite Hs by lia. case_decide as E; [subst j; intros _; rewrite Hz, Hc by lia; done|]. by apply H4.
Qed.

(** A new entry in the indirect block. *)
Definition put_entry (k : Z) : gmap Z bytes :=
  <[nth 12 a 0 := set_word (4 * Z.to_nat (k - NDIRECT)) fb (blk v (nth 12 a 0))]> v.

Lemma take_entry k (Hk : NDIRECT <= k < IND) (Hi : al IND) (Hal : ~ al k) (Hl : len_ok v) (Hc : chunk c k = zblock) :
  filed (put_entry k) (fb + 1) (owned k) n a (fun j => j = k \/ al j) c /\ step n v fb own (put_entry k) (fb + 1) (owned k) /\
  slot (put_entry k) a k = fb.
Proof.
  change NDIRECT with 12 in *. pose proof Hf as Hf'. destruct Hf as [H1 H2 H3 H4]. set (ib := nth 12 a 0) in *.
  assert (ib <> 0) as Hib by (apply (H3 IND); [lia|done]). destruct (H2 IND ltac:(lia) Hib) as [Hir Hio]. rewrite ind_slot in Hir, Hio. fold ib in Hir, Hio.
  assert (length (blk v ib) = 512%nat) as Hlib by (rewrite Hl; done).
  assert (forall j, 0 <= j <= IND -> slot (put_entry k) a j = if decide (j = k) then fb else slot v a j) as Hs.
  { intros j Hj. unfold slot, put_entry. fold ib. change NDIRECT with 12. destruct (Z.eqb_spec j IND) as [->|Ej]; [by rewrite decide_False by lia|].
    destruct (Z.ltb_spec j 12); [by rewrite decide_False by lia|]. destruct (Z.eqb_spec ib 0); [done|]. rewrite blk_insert_eq.
    case_decide as E; [subst j; apply word_set_word_eq; [lia|change nmeta with 59 in *; lia]|apply word_set_word_ne; lia]. }
  assert (step n v fb own (put_entry k) (fb + 1) (owned k)) as Hst.
  { unfold put_entry. split; [lia| | | | |].
    - intros _ b. rewrite blk_insert. case_decide as E; [|apply Hl]. fold ib. rewrite length_set_word by (change NDIRECT with 12; lia). apply Hl.
    - intros b Hb. apply blk_insert_ne. fold ib. lia.
    - intros b Hb Ho. apply blk_insert_ne. fold ib. intros E. rewrite <- E, Hio in Ho. done.
    - intros b Hb. unfold owned. by rewrite decide_False by lia.
    - intros _ b Hb. rewrite blk_insert_ne by (fold ib; lia). apply Hz. lia. }
  split; [|split; [done|by rewrite Hs, decide_True by (done || lia)]]. split; [done| | |].
  - intros j Hj. rewrite Hs by done. unfold owned. case_decide as E; [subst; intros _; split; [lia|by rewrite decide_True]|].
    intros Hj0. destruct (H2 j Hj Hj0) as [Hr Ho]. split; [lia|]. by rewrite decide_False by lia.
  - intros j Hj. rewrite Hs by done. case_decide as E; [split; [by left|intros; change nmeta with 59 in *; lia]|]. rewrite H3 by done. tauto.
  - intros j Hj. rewrite Hs by lia. unfold put_entry. fold ib. case_decide as E; [subst j; intros _; rewrite blk_insert_ne, Hz, Hc by lia; done|].
    intros Hj0. rewrite blk_insert_ne; [by apply H4|]. intros Eb. assert (IND = j) by (eapply (slot_inj v fb own n a al c); try done; lia). lia.
Qed.
End alloc.

(** ** Contents *)

Lemma lookup_chunk c k i : 0 <= k -> chunk c k !! i = if decide (i < Z.to_nat BSIZE)%nat then Some (nth (Z.to_nat (k * BSIZE) + i) c 0) else None.
Proof.
  intros Hk. unfold chunk. case_decide as Hi; [|rewrite lookup_take_ge by lia; done]. rewrite lookup_take_lt by done.
  rewrite nth_lookup. destruct (c !! (Z.to_nat (k * BSIZE) + i)%nat) as [x|] eqn:E.
  - rewrite lookup_app_l; [by rewrite lookup_drop|]. apply lookup_lt_Some in E. rewrite length_drop. lia.
  - apply lookup_ge_None in E. rewrite lookup_app_r by (rewrite length_drop; lia). unfold zblock. rewrite lookup_replicate_2; [done|]. lia.
Qed.

Lemma length_chunk c k : length (chunk c k) = Z.to_nat BSIZE.
Proof. unfold chunk. rewrite length_take, length_app. unfold zblock. rewrite length_replicate. lia. Qed.

Lemma chunk_new c k : 0 <= k -> Z.of_nat (length c) <= k * BSIZE -> chunk c k = zblock.
Proof.
  intros Hk H. apply list_eq. intros i. rewrite lookup_chunk by done. unfold zblock. case_decide as Hi.
  - rewrite lookup_replicate_2 by done. by rewrite nth_overflow by lia.
  - by rewrite lookup_ge_None_2 by (rewrite length_replicate; lia).
Qed.

Lemma chunk_before c p j : 0 <= j -> (j + 1) * BSIZE <= Z.of_nat (length c) -> chunk (c ++ p) j = chunk c j.
Proof.
  intros Hj H. apply list_eq. intros i. rewrite !lookup_chunk by done. case_decide as Hi; [|done].
  rewrite app_nth1; [done|]. unfold BSIZE in *. lia.
Qed.

Lemma chunk_splice c p k : 0 <= k -> k * BSIZE <= Z.of_nat (length c) -> Z.of_nat (length (c ++ p)) <= (k + 1) * BSIZE ->
  splice (Z.to_nat (Z.of_nat (length c) - k * BSIZE)) p (chunk c k) = chunk (c ++ p) k.
Proof.
  intros Hk Hc Hp. rewrite length_app in Hp. apply list_eq. intros i. pose proof (length_chunk c k) as Hl.
  rewrite lookup_splice, !lookup_chunk by (done || lia). case_decide as Hi.
  - rewrite decide_True by lia. rewrite app_nth2 by lia. rewrite nth_lookup.
    replace (Z.to_nat (k * BSIZE) + i - length c)%nat with (i - Z.to_nat (Z.of_nat (length c) - k * BSIZE))%nat by lia.
    destruct (lookup_lt_is_Some_2 p (i - Z.to_nat (Z.of_nat (length c) - k * BSIZE))) as [x ->]; [lia|done].
  - case_decide as Hi'; [|done]. f_equal. destruct (decide (Z.to_nat (k * BSIZE) + i < length c)%nat) as [H|H]; [by rewrite app_nth1|].
    rewrite !nth_overflow by (rewrite ?length_app; lia). done.
Qed.

(** Writing a block of the file. *)
Lemma write_slot v fb own n a al c k x c' : filed v fb own n a al c -> 0 <= k < IND -> al k -> x = chunk c' k ->
  (forall j, 0 <= j < IND -> j <> k -> al j -> chunk c' j = chunk c j) ->
  filed (<[slot v a k := x]> v) fb own n a al c' /\ step n v fb own (<[slot v a k := x]> v) fb own.
Proof.
  intros Hf Hk Hal -> Hj. pose proof Hf as [H1 H2 H3 H4]. assert (slot v a k <> 0) as Hk0 by (apply H3; [lia|done]).
  destruct (H2 k ltac:(lia) Hk0) as [Hr Ho].
  assert (forall j, slot (<[slot v a k := chunk c' k]> v) a j = slot v a j) as E.
  { intros j. apply slot_same. intros Hn. apply blk_insert_ne. intros E. change (nth 12 a 0) with (slot v a IND) in E.
    assert (k = IND) by (eapply (slot_inj v fb own n a al c); done || lia). lia. }
  split; split; try done; try lia.
  - intros j Hj'. rewrite E. by apply H2.
  - intros j Hj'. rewrite E. by apply H3.
  - intros j Hj'. rewrite E. intros Hj0. rewrite blk_insert. case_decide as Eb.
    + f_equal. eapply (slot_inj v fb own n a al c); done || lia.
    + rewrite H4, Hj; try done; [|by apply H3; [lia|]]. intros ->. done.
  - intros Hl b. rewrite blk_insert. case_decide; [apply length_chunk|apply Hl].
  - intros b Hb. apply blk_insert_ne. lia.
  - intros b Hb Hn. apply blk_insert_ne. intros <-. by rewrite Ho in Hn.
  - intros Hz b Hb. rewrite blk_insert_ne by lia. by apply Hz.
Qed.

(** ** Running the code *)

Lemma xint_id x : 0 <= x < 2 ^ 32 -> xint x = x.
Proof.
  intros Hx. unfold xint. rewrite !Z.shiftr_div_pow2 by lia. rewrite <- (le_val_enc_small 4 x) at 5 by exact Hx.
  cbn [le_enc]. rewrite !Z.div_div by lia. done.
Qed.

Lemma xshort_id x : 0 <= x < 2 ^ 16 -> xshort x = x.
Proof. intros Hx. unfold xshort. rewrite !Z.shiftr_div_pow2 by lia. rewrite <- (le_val_enc_small 2 x) at 3 by exact Hx. done. Qed.

Ltac mk_consts := fs_consts; change nmeta with 59 in *; change FSSIZE with 1000 in *.

Section run.
Context (rm : Z) (Hrm : FSSIZE <= rm).

(** The superblock of the image, and a state of mkfs once the image is full-size. *)
Definition sb0 : superblock := MkSb FSSIZE nblocks NINODES nlog 2 (2 + nlog) (2 + nlog + ninodeblocks).
Definition st (v : gmap Z bytes) (fi fb : Z) : mkfs := MkMkfs v FSSIZE rm sb0 fi fb.

Lemma seek_id b : 0 <= b < FSSIZE -> seek b = b.
Proof. intros Hb. unfold seek. mk_consts. rewrite u32_small by lia. apply Z.div_mul. lia. Qed.

Lemma wsect_st b x v fi fb : 0 <= b < FSSIZE -> wsect b x (st v fi fb) = Ok tt (st (<[b := x]> v) fi fb).
Proof.
  intros Hb. unfold wsect, mbind, M_bind, get. rewrite seek_id by done. unfold st. cbn [room nsect image].
  destruct (Z.leb_spec rm b); [lia|]. unfold put, set_image. cbn [room msb freeinode freeblock]. by rewrite Z.max_l by lia.
Qed.

Lemma rsect_st b v fi fb : 0 <= b < FSSIZE -> rsect b (st v fi fb) = Ok (blk v b) (st v fi fb).
Proof. intros Hb. unfold rsect, mbind, M_bind, get. rewrite seek_id by done. unfold st. cbn [nsect image]. destruct (Z.leb_spec FSSIZE b); [lia|done]. Qed.

Lemma fresh_st v fi fb : 0 <= fb < FSSIZE -> fresh (st v fi fb) = Ok fb (st v fi (fb + 1)).
Proof. intros Hb. unfold fresh, mbind, M_bind, gets, modify, set_freeblock, st. cbn. rewrite u32_small by (mk_consts; lia). done. Qed.

(** An address of the inode: slot [k] is a direct block or the indirect block. *)
Lemma addr_at_run v fb own n d al c k fi : filed v fb own n (d_addrs d) al c -> nmeta <= fb -> fb <= FSSIZE -> 0 <= k < NDIRECT \/ k = IND ->
  let i := Z.to_nat (Z.min k NDIRECT) in
  (al k -> addr_at i d (st v fi fb) = Ok (slot v (d_addrs d) k, d) (st v fi fb)) /\
  (~ al k -> fb < FSSIZE -> addr_at i d (st v fi fb) = Ok (fb, set_daddrs (<[i := fb]> (d_addrs d)) d) (st v fi (fb + 1))).
Proof.
  intros Hf Hfb Hle Hk i. assert (slot v (d_addrs d) k = nth i (d_addrs d) 0) as Hs.
  { unfold slot, i. change NDIRECT with 12 in *. destruct (Z.eqb_spec k IND) as [->|]; [done|]. destruct (Z.ltb_spec k 12); [|lia]. f_equal. lia. }
  assert (0 <= k <= IND) as Hk' by (change NDIRECT with 12 in *; lia). unfold addr_at. rewrite <- Hs.
  split; intros Hal.
  - assert (slot v (d_addrs d) k <> 0) as H0 by by apply (f_alloc _ _ _ _ _ _ _ Hf). destruct (f_slot _ _ _ _ _ _ _ Hf k Hk' H0) as [Hr _].
    rewrite !xint_id by (mk_consts; lia). destruct (Z.eqb_spec (slot v (d_addrs d) k) 0); [done|]. done.
  - assert (slot v (d_addrs d) k = 0) as ->. { destruct (decide (slot v (d_addrs d) k = 0)) as [|Hn]; [done|]. exfalso. by apply Hal, (f_alloc _ _ _ _ _ _ _ Hf). }
    intros Hlt. cbn [Z.eqb]. change (xint 0 =? 0) with true. cbv iota. rewrite (bind_ok_l _ _ _ _ _ (fresh_st v fi fb ltac:(mk_consts; lia))).
    rewrite !xint_id by (mk_consts; rewrite ?xint_id; lia). done.
Qed.

(** The cost of one more byte. *)
Lemma cost_more n : 0 <= n -> cost (n + 1) = cost n + (if n mod BSIZE =? 0 then 1 else 0) + (if n =? NDIRECT * BSIZE then 1 else 0).
Proof.
  intros Hn. unfold cost. pose proof (Z.div_mod n BSIZE ltac:(done)) as Hd. pose proof (Z.mod_pos_bound n BSIZE ltac:(done)) as Hm. mk_consts.
  assert ((n + 1 + 512 - 1) / 512 = n / 512 + 1) as -> by (symmetry; apply (Z.div_unique _ _ _ (n mod 512)); lia).
  destruct (Z.eqb_spec (n mod 512) 0) as [E|E].
  - assert ((n + 512 - 1) / 512 = n / 512) as -> by (symmetry; apply (Z.div_unique _ _ _ 511); lia).
    destruct (Z.eqb_spec n (12 * 512)) as [E1|E1], (Z.ltb_spec (12 * 512) (n + 1)), (Z.ltb_spec (12 * 512) n); lia.
  - assert ((n + 512 - 1) / 512 = n / 512 + 1) as -> by (symmetry; apply (Z.div_unique _ _ _ (n mod 512 - 1)); lia).
    assert (n <> 12 * 512) as E1 by (intros ->; done). rewrite (proj2 (Z.eqb_neq _ _) E1).
    destruct (Z.ltb_spec (12 * 512) (n + 1)), (Z.ltb_spec (12 * 512) n); lia.
Qed.

(** Which slots one more byte needs. *)
Lemma needs_more n j : 0 <= n -> 0 <= j <= IND -> needs (n + 1) j <-> needs n j \/ (n mod BSIZE = 0 /\ (j = n / BSIZE /\ j <> IND \/ j = IND /\ n = NDIRECT * BSIZE)).
Proof.
  intros Hn Hj. unfold needs, slot_start. pose proof (Z.div_mod n BSIZE ltac:(done)) as Hd. pose proof (Z.mod_pos_bound n BSIZE ltac:(done)) as Hm. mk_consts.
  destruct (Z.eqb_spec j IND) as [->|Hne].
  - split; [intros|intros [|[? [[]|[]]]]; lia]. destruct (decide (n = 12 * 512)) as [->|]; [right; auto|left; lia].
  - split; [intros|intros [|[? [[]|[]]]]; lia]. destruct (decide (j * 512 < n)); [by left|right]. split; [|left; split; [|done]].
    + assert (n = j * 512) as -> by lia. by rewrite Z.mod_mul.
    + assert (n = j * 512) as -> by lia. by rewrite Z.div_mul.
Qed.

Lemma set_daddrs_same d : set_daddrs (d_addrs d) d = d.
Proof. by destruct d. Qed.

(** An address of the inode that may have to be allocated. *)
Lemma addr_run v fb own n d al c k fi (have : bool) : filed v fb own n (d_addrs d) al c -> (forall b, fb <= b -> blk v b = zblock) ->
  nmeta <= fb -> 0 <= k < NDIRECT \/ k = IND -> (al k <-> have = true) -> (k <> IND -> have = false -> chunk c k = zblock) ->
  let fb' := fb + (if have then 0 else 1) in fb' <= FSSIZE ->
  exists own' a', addr_at (Z.to_nat (Z.min k NDIRECT)) d (st v fi fb) = Ok (slot v a' k, set_daddrs a' d) (st v fi fb') /\
    step n v fb own v fb' own' /\ filed v fb' own' n a' (fun j => j = k \/ al j) c.
Proof.
  intros Hf Hz Hfb Hk Hal Hc fb' Hfb'. destruct (addr_at_run v fb own n d al c k fi Hf Hfb) as [A1 A2]; [destruct have; lia|done|]. destruct have.
  - exists own, (d_addrs d). rewrite A1, set_daddrs_same by by apply Hal. unfold fb'. rewrite Z.add_0_r. split; [done|]. split; [apply step_refl|].
    eapply filed_ext; [|exact Hf]. intros j _. split; [by right|]. intros [->|]; [by apply Hal|done].
  - assert (~ al k) as Hn by (rewrite Hal; done). assert (nmeta <= fb < 2 ^ 32) as Hr by (mk_consts; lia).
    exists (owned fb own n k), (<[Z.to_nat (Z.min k NDIRECT) := fb]> (d_addrs d)). rewrite A2 by (done || lia).
    pose proof (take_addr v fb own n _ al c Hf Hr Hz k Hk Hn (fun H => Hc H eq_refl)) as Hf'. split; [|split; [by apply owned_step|exact Hf']].
    f_equal. f_equal. unfold slot. pose proof (f_len _ _ _ _ _ _ _ Hf) as Hl. change NDIRECT with 12 in *.
    destruct (Z.eqb_spec k IND) as [->|]; [by rewrite nth_lookup, list_lookup_insert_eq by lia|].
    destruct (Z.ltb_spec k 12); [|lia]. by rewrite Z.min_l, nth_lookup, list_lookup_insert_eq by lia.
Qed.

(** An entry of the indirect block that may have to be allocated. *)
Lemma entry_run v fb own n d al c k fi (have : bool) : filed v fb own n (d_addrs d) al c -> (forall b, fb <= b -> blk v b = zblock) -> len_ok v ->
  nmeta <= fb -> al IND -> NDIRECT <= k < IND -> (al k <-> have = true) -> (have = false -> chunk c k = zblock) ->
  let fb' := fb + (if have then 0 else 1) in fb' <= FSSIZE -> fb <= FSSIZE ->
  let ind := slot v (d_addrs d) IND in let i := (4 * Z.to_nat (k - NDIRECT))%nat in
  exists v' own', (indirect ← rsect ind;
      if word i indirect =? 0 then b ← fresh; wsect ind (set_word i (xint b) indirect);; mret (xint (word i (set_word i (xint b) indirect)), d)
      else mret (xint (word i indirect), d)) (st v fi fb) = Ok (slot v' (d_addrs d) k, d) (st v' fi fb') /\
    step n v fb own v' fb' own' /\ filed v' fb' own' n (d_addrs d) (fun j => j = k \/ al j) c.
Proof.
  intros Hf Hz Hl Hfb Hi Hk Hal Hc fb' Hfb' Hle ind i. assert (ind <> 0) as Hi0 by (apply (f_alloc _ _ _ _ _ _ _ Hf); [lia|done]).
  destruct (f_slot _ _ _ _ _ _ _ Hf IND ltac:(lia) Hi0) as [Hir _]. fold ind in Hir.
  rewrite (bind_ok_l _ _ _ _ _ (rsect_st ind v fi fb ltac:(mk_consts; lia))).
  assert (slot v (d_addrs d) k = word i (blk v ind)) as Hs.
  { unfold slot. destruct (Z.eqb_spec k IND); [lia|]. destruct (Z.ltb_spec k NDIRECT); [lia|]. fold ind.
    change (nth 12 (d_addrs d) 0) with ind. by destruct (Z.eqb_spec ind 0). }
  rewrite <- Hs. pose proof (f_alloc _ _ _ _ _ _ _ Hf k ltac:(mk_consts; lia)) as Ha. destruct have.
  - assert (slot v (d_addrs d) k <> 0) as H0 by by apply Ha, Hal. destruct (f_slot _ _ _ _ _ _ _ Hf k ltac:(mk_consts; lia) H0) as [Hr _].
    exists v, own. destruct (Z.eqb_spec (slot v (d_addrs d) k) 0); [done|]. rewrite xint_id by (mk_consts; lia). unfold fb'. rewrite Z.add_0_r.
    split; [done|]. split; [apply step_refl|]. eapply filed_ext; [|exact Hf]. intros j _. split; [by right|]. intros [->|]; [by apply Hal|done].
  - assert (~ al k) as Hn by (rewrite Hal; done). assert (slot v (d_addrs d) k = 0) as ->. { destruct (decide (slot v (d_addrs d) k = 0)); [done|tauto]. }
    assert (nmeta <= fb < 2 ^ 32) as Hr by (mk_consts; lia). destruct (take_entry v fb own n _ al c Hf Hr Hz k Hk Hi Hn Hl (Hc eq_refl)) as (Hf' & Hst & Hs').
    exists (put_entry v fb (d_addrs d) k), (owned fb own n k). split; [|done]. cbn [Z.eqb]. rewrite (bind_ok_l _ _ _ _ _ (fresh_st v fi fb ltac:(mk_consts; lia))).
    rewrite (bind_ok_l _ _ _ _ _ (wsect_st ind _ v fi _ ltac:(mk_consts; lia))). rewrite (xint_id fb) by (mk_consts; lia). rewrite Hs'.
    rewrite word_set_word_eq, xint_id by (rewrite ?Hl; mk_consts; lia). done.
Qed.

(** The block that the next byte of a file goes to. *)
Lemma block_of_run v fb own n d c fi : let len := Z.of_nat (length c) in let k := len / BSIZE in let fb' := fb + cost (len + 1) - cost len in
  filed v fb own n (d_addrs d) (needs len) c -> len_ok v -> (forall b, fb <= b -> blk v b = zblock) -> nmeta <= fb -> fb' <= FSSIZE -> k < MAXFILE ->
  exists v' own' a', block_of k d (st v fi fb) = Ok (slot v' a' k, set_daddrs a' d) (st v' fi fb') /\
    step n v fb own v' fb' own' /\ filed v' fb' own' n a' (needs (len + 1)) c.
Proof.
  intros len k fb' Hf Hl Hz Hfb Hfb' Hk. assert (0 <= len) as Hlen by lia. pose proof (Z.div_mod len BSIZE ltac:(done)) as Hd.
  pose proof (Z.mod_pos_bound len BSIZE ltac:(done)) as Hm. fold k in Hd. pose proof (cost_more len Hlen) as Hc.
  pose proof (fun j => needs_more len j Hlen) as Hn. assert (0 <= k) as Hk0 by (apply Z.div_pos; done).
  assert (needs len k <-> negb (len mod BSIZE =? 0) = true) as Hnk.
  { rewrite negb_true_iff, Z.eqb_neq. unfold needs, slot_start. mk_consts. destruct (Z.eqb_spec k IND); lia. }
  assert (needs len IND <-> negb (len <=? NDIRECT * BSIZE) = true) as Hni.
  { rewrite negb_true_iff, Z.leb_gt. done. }
  assert (negb (len mod BSIZE =? 0) = false -> chunk c k = zblock) as Hck.
  { intros E. apply chunk_new; [done|]. boolify. unfold len in *. lia. }
  assert (forall j, 0 <= j <= IND -> (j = k \/ (j = IND /\ NDIRECT <= k) \/ needs len j) <-> needs (len + 1) j) as Hmore.
  { intros j Hj. rewrite Hn by done. fold k. rewrite negb_true_iff, Z.eqb_neq in Hnk. rewrite negb_true_iff, Z.leb_gt in Hni.
    mk_consts. split.
    - intros [E|[[E ?]|E]]; [|destruct (decide (len = 12 * 512)) as [El|El]|tauto].
      + destruct (decide (len mod 512 = 0)) as [|Em]; [right; split; [done|]; left; lia|left; subst j; tauto].
      + right. split; [by rewrite El|]. by right.
      + left. subst j. apply Hni. lia.
    - intros [E|[_ [[E _]|[E1 E2]]]]; [tauto|tauto|]. right. left. split; [done|]. lia. }
  assert (fb' = fb + (if negb (len mod BSIZE =? 0) then 0 else 1) + (if len =? NDIRECT * BSIZE then 1 else 0)) as Efb.
  { unfold fb'. rewrite Hc. destruct (len mod BSIZE =? 0); cbn; lia. }
  unfold block_of. destruct (Z.ltb_spec k NDIRECT) as [Hdir|Hdir].
  - rewrite (proj2 (Z.eqb_neq len (NDIRECT * BSIZE))), Z.add_0_r in Efb by (mk_consts; lia).
    destruct (addr_run v fb own n d _ c k fi _ Hf Hz Hfb (or_introl (conj Hk0 Hdir)) Hnk (fun _ => Hck)) as (own' & a' & Hrun & Hst & Hf'); [lia|].
    rewrite <- Efb in *. rewrite Z.min_l in Hrun by lia. exists v, own', a'. split; [done|]. split; [done|].
    eapply filed_ext; [|exact Hf']. intros j Hj. rewrite <- Hmore by done. assert (~ (j = IND /\ NDIRECT <= k)) by lia. tauto.
  - assert (NDIRECT * BSIZE <= len) as Hge by (mk_consts; lia).
    assert ((if negb (len <=? NDIRECT * BSIZE) then 0 else 1) = (if len =? NDIRECT * BSIZE then 1 else 0)) as Ei.
    { destruct (Z.leb_spec len (NDIRECT * BSIZE)), (Z.eqb_spec len (NDIRECT * BSIZE)); (done || lia). }
    destruct (addr_run v fb own n d _ c IND fi _ Hf Hz Hfb (or_intror eq_refl) Hni ltac:(done)) as (own1 & a1 & Hrun & Hst & Hf1); [destruct (negb (len mod BSIZE =? 0)); lia|].
    rewrite Ei in *. set (fb1 := fb + (if len =? NDIRECT * BSIZE then 1 else 0)) in *. clearbody fb'.
    change (Z.to_nat (Z.min IND NDIRECT)) with (Z.to_nat NDIRECT) in Hrun. rewrite (bind_ok_l _ _ _ _ _ Hrun).
    destruct (entry_run v fb1 own1 n (set_daddrs a1 d) _ c k fi (negb (len mod BSIZE =? 0)) Hf1 (st_fresh _ _ _ _ _ _ _ Hst Hz) Hl) as (v' & own' & Hrun' & Hst' & Hf');
      [pose proof (st_fb _ _ _ _ _ _ _ Hst); lia|by left|mk_consts; lia|rewrite <- Hnk; split; [intros [->|]; [mk_consts; lia|done]|by right]|done|lia|destruct (negb (len mod BSIZE =? 0)); lia|].
    exists v', own', a1. replace fb' with (fb1 + (if negb (len mod BSIZE =? 0) then 0 else 1)) by lia. split; [exact Hrun'|].
    split; [by eapply step_trans|]. eapply filed_ext; [|exact Hf']. intros j Hj. rewrite <- Hmore by done. split; [intros [|[|]]|intros [|[[]|]]]; auto.
Qed.

(** ** Appending *)

Lemma cost_mono m n : m <= n -> cost m <= cost n.
Proof.
  intros H. unfold cost. assert ((m + BSIZE - 1) / BSIZE <= (n + BSIZE - 1) / BSIZE) by (apply Z.div_le_mono; [done|lia]).
  destruct (Z.ltb_spec (NDIRECT * BSIZE) m), (Z.ltb_spec (NDIRECT * BSIZE) n); lia.
Qed.

(** Within one block neither the cost nor the slots change. *)
Lemma same_slots k m j : 0 <= k -> k * BSIZE < m <= (k + 1) * BSIZE -> needs m j <-> slot_start j <= k * BSIZE.
Proof. intros Hk Hm. unfold needs, slot_start. mk_consts. destruct (Z.eqb_spec j IND); lia. Qed.

Lemma cost_block k m : 0 <= k -> k * BSIZE < m <= (k + 1) * BSIZE -> cost m = k + 1 + (if NDIRECT <=? k then 1 else 0).
Proof.
  intros Hk Hm. unfold cost. mk_consts. assert ((m + 512 - 1) / 512 = k + 1) as -> by (symmetry; apply (Z.div_unique _ _ _ (m - 1 - k * 512)); lia).
  destruct (Z.ltb_spec (12 * 512) m), (Z.leb_spec 12 k); lia.
Qed.

(** One turn of the loop of [iappend] appends [p1]. *)
Lemma append_block v fb own n a c p1 k : let len := Z.of_nat (length c) in let len' := Z.of_nat (length (c ++ p1)) in
  0 <= k < MAXFILE -> k * BSIZE <= len -> len < len' <= (k + 1) * BSIZE ->
  filed v fb own n a (needs (len + 1)) c ->
  let x := splice (Z.to_nat (len - k * BSIZE)) p1 (blk v (slot v a k)) in
  filed (<[slot v a k := x]> v) fb own n a (needs len') (c ++ p1) /\ step n v fb own (<[slot v a k := x]> v) fb own /\ nmeta <= slot v a k < fb.
Proof.
  intros len len' Hk Hlo Hlen Hf x. change MAXFILE with IND in Hk.
  assert (forall j, needs (len + 1) j <-> needs len' j) as Hn by (intros j; rewrite !(same_slots k) by lia; done).
  assert (needs (len + 1) k) as Hnk. { unfold needs, slot_start. destruct (Z.eqb_spec k IND); lia. }
  assert (slot v a k <> 0) as Hs by (apply (f_alloc _ _ _ _ _ _ _ Hf); [lia|done]).
  assert (x = chunk (c ++ p1) k) as Hx. { unfold x. rewrite (f_data _ _ _ _ _ _ _ Hf) by (done || lia). apply chunk_splice; unfold len' in *; lia. }
  destruct (write_slot v fb own n a _ c k x (c ++ p1) Hf) as [Hf' Hst]; [done|done|done| |].
  { intros j Hj Hne Hal. apply chunk_before; [lia|]. apply (same_slots k) in Hal; [|lia|lia]. unfold slot_start in Hal. fold len. mk_consts. destruct (Z.eqb_spec j IND); lia. }
  split; [eapply filed_ext; [|exact Hf']; intros; apply Hn|]. split; [done|]. apply (f_slot _ _ _ _ _ _ _ Hf); [lia|done].
Qed.

Lemma iappend_loop_run fuel n d p v fb own c fi : (length p < fuel)%nat ->
  let len := Z.of_nat (length c) in let len' := Z.of_nat (length (c ++ p)) in let fb' := fb + cost len' - cost len in
  filed v fb own n (d_addrs d) (needs len) c -> len_ok v -> (forall b, fb <= b -> blk v b = zblock) -> nmeta <= fb -> fb' <= FSSIZE -> len' <= MAXFILE * BSIZE ->
  exists v' own' a', iappend_loop fuel d len p (st v fi fb) = Ok (set_daddrs a' d, len') (st v' fi fb') /\
    step n v fb own v' fb' own' /\ filed v' fb' own' n a' (needs len') (c ++ p).
Proof.
  revert d p v fb own c. induction fuel as [|fuel IH]; intros d p v fb own c Hfu len len' fb' Hf Hl Hz Hfb Hfb' Hmax; [lia|].
  cbn [iappend_loop]. destruct (Nat.eqb_spec (length p) 0) as [E|Hp].
  { apply length_zero_iff_nil in E. subst p. exists v, own, (d_addrs d). unfold fb', len'. rewrite app_nil_r, set_daddrs_same. fold len. rewrite Z.add_simpl_r. split; [done|]. split; [apply step_refl|done]. }
  set (k := len / BSIZE). pose proof (Z.div_mod len BSIZE ltac:(done)) as Hd. pose proof (Z.mod_pos_bound len BSIZE ltac:(done)) as Hm. fold k in Hd.
  assert (len' = len + Z.of_nat (length p)) as Elen' by (unfold len', len; rewrite length_app; lia).
  assert (0 <= k < MAXFILE) as Hk. { split; [apply Z.div_pos; lia|apply Z.div_lt_upper_bound; lia]. }
  rewrite (proj2 (Z.ltb_lt k MAXFILE)) by lia. cbn [negb].
  assert (fb + cost (len + 1) - cost len <= FSSIZE) as Hfb1 by (pose proof (cost_mono (len + 1) len' ltac:(lia)); lia).
  destruct (block_of_run v fb own n d c fi Hf Hl Hz Hfb Hfb1 (proj2 Hk)) as (v1 & own1 & a1 & Hrun & Hst & Hf1). fold len k in Hrun, Hst, Hf1. clear Hfb1.
  set (fb1 := fb + cost (len + 1) - cost len) in *. rewrite (bind_ok_l _ _ _ _ _ Hrun). cbv beta iota.
  rewrite (u32_small ((k + 1) * BSIZE - len)) by (mk_consts; lia). set (n1 := Z.min (Z.of_nat (length p)) ((k + 1) * BSIZE - len)). set (p1 := take (Z.to_nat n1) p).
  assert (0 < n1) as Hn1 by (unfold n1; mk_consts; lia). assert (Z.of_nat (length p1) = n1) as Hp1 by (unfold p1; rewrite length_take; lia).
  assert (Z.of_nat (length (c ++ p1)) = len + n1) as Hlc by (rewrite length_app; unfold len; lia).
  destruct (append_block v1 fb1 own1 n a1 c p1 k) as (Hf2 & Hst2 & Hr); [done|fold len; mk_consts; lia|rewrite Hlc; fold len; unfold n1; lia|done|]. fold len in Hf2, Hst2.
  assert (cost (len + n1) = cost (len + 1)) as Hcost by (rewrite !(cost_block k) by (mk_consts; lia); done).
  pose proof (cost_mono (len + n1) len' ltac:(lia)) as Hle. pose proof (st_fb _ _ _ _ _ _ _ Hst) as Hge.
  assert (0 <= slot v1 a1 k < FSSIZE) as Hsl by (unfold fb1, fb' in *; mk_consts; lia).
  rewrite (bind_ok_l _ _ _ _ _ (rsect_st _ v1 fi fb1 Hsl)). rewrite (bind_ok_l _ _ _ _ _ (wsect_st _ _ v1 fi fb1 Hsl)).
  rewrite u32_small by (mk_consts; lia). set (x := splice _ _ _) in *. rewrite <- Hlc.
  assert ((c ++ p1) ++ drop (Z.to_nat n1) p = c ++ p) as Ecp by (unfold p1; by rewrite <- app_assoc, take_drop).
  pose proof (IH (set_daddrs a1 d) (drop (Z.to_nat n1) p) (<[slot v1 a1 k := x]> v1) fb1 own1 (c ++ p1)) as H. cbv zeta in H. rewrite Ecp, Hlc in H. fold len' in H.
  replace (fb1 + cost len' - cost (len + n1)) with fb' in H by (unfold fb', fb1; lia). rewrite Hlc in Hf2.
  destruct H as (v' & own' & a' & Hrun' & Hst' & Hf'); [rewrite length_drop; lia|exact Hf2|by apply (st_len _ _ _ _ _ _ _ Hst2), (st_len _ _ _ _ _ _ _ Hst)|
    by apply (st_fresh _ _ _ _ _ _ _ Hst2), (st_fresh _ _ _ _ _ _ _ Hst)|lia|lia|lia|].
  exists v', own', a'. rewrite Hlc. split; [exact Hrun'|]. split; [|done]. eapply step_trans; [exact Hst|]. by eapply step_trans.
Qed.

(** ** Inodes *)

(** The layout of the image, with any contents of the disk. *)
Definition g0 (d : gmap Z bytes) : geo := MkGeo 2 nlog FSSIZE d.

Lemma layout0 d : layout (g0 d) sb0.
Proof.
  change (g0 d) with (MkGeo 2 30 1000 d). change sb0 with (MkSb 1000 941 200 30 2 32 58).
  split; unfold is_bmap, is_iblock, home; cbn [g_logstart g_logsize g_nblocks sb_size sb_ninodes sb_bmapstart sb_inodestart];
    change ((1000 - 1) / BPB) with 0; change ((200 - 1) / IPB) with 24; lia.
Qed.

(** The inode [n] that [ilock] loads from the dinode [x]. *)
Definition ino (n : Z) (x : dinode) : inode := load_dinode x (MkInode 1 n 1 I_VALID 0 0 0 0 0 []).
Definition din (t : Z) (a : list Z) (c : bytes) : dinode := MkDinode t 0 0 1 (Z.of_nat (length c)) a.
Definition no_dinode : dinode := MkDinode 0 0 0 0 0 (replicate 13 0).

Lemma IBLOCK0 n : 0 <= n < NINODES -> IBLOCK n sb0 = 32 + n / 8 /\ 32 <= IBLOCK n sb0 < 57.
Proof.
  intros Hn. destruct (IBLOCK_spec (g0 ∅) sb0 (layout0 ∅) n Hn) as [-> Hi]. cbn [sb_inodestart sb0]. change IPB with 8. change NINODES with 200 in Hn.
  change (2 + nlog) with 32. split; [done|]. assert (0 <= n / 8 < 25); [|lia]. split; [apply Z.div_pos; lia|apply Z.div_lt_upper_bound; lia].
Qed.

Lemma to_dinode_ino n x : to_dinode (ino n x) = x.
Proof. by destruct x. Qed.

Lemma winode_run n x v fi fb : 0 <= n < NINODES -> winode n x (st v fi fb) = Ok tt (st (put_inode sb0 (ino n x) v) fi fb).
Proof.
  intros Hn. destruct (IBLOCK0 n Hn) as [_ Hi]. assert (0 <= IBLOCK n sb0 < FSSIZE) as Hr by (mk_consts; lia). unfold winode.
  rewrite (bind_ok_l _ _ _ _ _ (eq_refl : gets msb (st v fi fb) = Ok sb0 (st v fi fb))). cbv zeta.
  rewrite (bind_ok_l _ _ _ _ _ (rsect_st _ v fi fb Hr)). rewrite wsect_st by done. unfold put_inode. rewrite to_dinode_ino. done.
Qed.

Lemma rinode_run n v fi fb : 0 <= n < NINODES -> rinode n (st v fi fb) = Ok (dinode_at sb0 v n) (st v fi fb).
Proof.
  intros Hn. destruct (IBLOCK0 n Hn) as [_ Hi]. assert (0 <= IBLOCK n sb0 < FSSIZE) as Hr by (mk_consts; lia). unfold rinode.
  rewrite (bind_ok_l _ _ _ _ _ (eq_refl : gets msb (st v fi fb) = Ok sb0 (st v fi fb))). cbv zeta.
  by rewrite (bind_ok_l _ _ _ _ _ (rsect_st _ v fi fb Hr)).
Qed.

(** The files of the image: types, addresses and contents of inodes 1 to [fi - 1]. *)
Record good (ty : Z -> Z) (ads : Z -> list Z) (cs : Z -> bytes) (own : Z -> Z * Z) (fi fb : Z) (v : gmap Z bytes) : Prop := MkGood {
  gd_len : len_ok v;
  gd_fb : nmeta <= fb <= FSSIZE;
  gd_fi : 1 <= fi <= NINODES;
  gd_fresh : forall b, fb <= b -> blk v b = zblock;
  gd_sb : blk v 1 = splice 0 (sb_bytes sb0) zblock;
  gd_zero : forall b, b = 0 \/ 2 <= b < 2 + nlog \/ b = sb_bmapstart sb0 -> blk v b = zblock;
  gd_disk : forall n, 0 <= n < NINODES -> dinode_at sb0 v n = if decide (1 <= n < fi) then din (ty n) (ads n) (cs n) else no_dinode;
  gd_file : forall n, 1 <= n < fi -> filed v fb own n (ads n) (needs (Z.of_nat (length (cs n)))) (cs n) /\
    Z.of_nat (length (cs n)) <= MAXFILE * BSIZE /\ 0 <= ty n < 2 ^ 15
}.

Lemma addrs_range v fb own n a al c : filed v fb own n a al c -> fb <= FSSIZE -> Forall (fun x => 0 <= x < 2 ^ 32) a.
Proof.
  intros Hf Hfb. apply Forall_lookup. intros i x Hx. pose proof (lookup_lt_Some _ _ _ Hx) as Hi. rewrite (f_len _ _ _ _ _ _ _ Hf) in Hi.
  assert (exists k, 0 <= k <= IND /\ slot v a k = x) as (k & Hk & <-).
  { exists (if decide (i = 12%nat) then IND else Z.of_nat i). case_decide as E; [subst i; split; [lia|]; rewrite ind_slot, nth_lookup, Hx; done|].
    split; [lia|]. unfold slot. change NDIRECT with 12. destruct (Z.eqb_spec (Z.of_nat i) IND); [lia|]. destruct (Z.ltb_spec (Z.of_nat i) 12); [|lia].
    by rewrite Nat2Z.id, nth_lookup, Hx. }
  destruct (decide (slot v a k = 0)) as [->|H0]; [lia|]. destruct (f_slot _ _ _ _ _ _ _ Hf k Hk H0). mk_consts. lia.
Qed.

Lemma din_wf v fb own n a al c t : filed v fb own n a al c -> fb <= FSSIZE -> 0 <= t < 2 ^ 15 -> Z.of_nat (length c) <= MAXFILE * BSIZE -> dinode_wf (din t a c).
Proof. intros Hf Hfb Ht Hc. split; cbn; try lia; [mk_consts; lia|apply (f_len _ _ _ _ _ _ _ Hf)|by eapply addrs_range]. Qed.

(** Storing an inode in the image. *)
Lemma put_inode_low n x v b : 0 <= n < NINODES -> b < 32 \/ 57 <= b -> blk (put_inode sb0 (ino n x) v) b = blk v b.
Proof. intros Hn Hb. apply blk_insert_ne. destruct (IBLOCK0 n Hn) as [_ H]. cbn [inum ino load_dinode]. lia. Qed.

Lemma good_store ty ads cs own fi fb v n t a c v1 fb1 own1 fi' : good ty ads cs own fi fb v ->
  fi' = fi /\ 1 <= n < fi \/ fi' = fi + 1 /\ n = fi -> fi' <= NINODES -> step n v fb own v1 fb1 own1 -> fb1 <= FSSIZE ->
  filed v1 fb1 own1 n a (needs (Z.of_nat (length c))) c -> Z.of_nat (length c) <= MAXFILE * BSIZE -> 0 <= t < 2 ^ 15 ->
  good (<[n := t]> ty) (<[n := a]> ads) (<[n := c]> cs) own1 fi' fb1 (put_inode sb0 (ino n (din t a c)) v1).
Proof.
  intros [G1 G2 G3 G4 G5 G6 G7 G8] Hn Hfi' Hst Hfb1 Hf Hc Ht. pose proof Hst as [S1 S2 S3 S4 S5 S6].
  assert (1 <= n < NINODES) as Hn' by lia. pose proof (din_wf v1 fb1 own1 n a _ c t Hf Hfb1 Ht Hc) as Hwf.
  assert (forall b, b < 32 \/ 57 <= b -> blk (put_inode sb0 (ino n (din t a c)) v1) b = blk v1 b) as Hlow by (intros; apply put_inode_low; lia).
  split; [|lia|lia| | | | |].
  - intros b. unfold put_inode. rewrite blk_insert. case_decide; [|by apply S2]. rewrite length_splice; [by apply S2|].
    rewrite S2 by done. rewrite to_dinode_ino. rewrite length_dinode_bytes by (apply (dw_len _ Hwf)). apply dinode_off_range.
  - intros b Hb. rewrite Hlow by (mk_consts; lia). by apply S6.
  - rewrite Hlow, S3 by (mk_consts; lia). done.
  - intros b Hb. change (sb_bmapstart sb0) with 58 in Hb. change (2 + nlog) with 32 in Hb. rewrite Hlow, S3 by (mk_consts; lia).
    apply G6. change (sb_bmapstart sb0) with 58. change (2 + nlog) with 32. done.
  - intros m Hm. destruct (decide (m = n)) as [->|Hne].
    + rewrite decide_True, !fn_lookup_insert by lia. rewrite <- (to_dinode_ino n (din t a c)) at 2.
      apply (put_inode_eq sb0 (ino n (din t a c)) v1); [by apply S2|by rewrite to_dinode_ino].
    + rewrite !fn_lookup_insert_ne by done.
      rewrite (put_inode_ne (g0 ∅) sb0 (layout0 ∅) (ino n (din t a c)) v1 m); [|by apply S2|exact (dw_len _ Hwf)|cbn; lia|done|done].
      assert (dinode_at sb0 v1 m = dinode_at sb0 v m) as ->. { unfold dinode_at. rewrite S3; [done|]. destruct (IBLOCK0 m Hm). mk_consts. lia. }
      rewrite G7 by done. do 2 case_decide; (done || lia).
  - intros m Hm. assert (forall f, filed v1 fb1 own1 m f (needs (Z.of_nat (length (<[n := c]> cs m)))) (<[n := c]> cs m) ->
      filed (put_inode sb0 (ino n (din t a c)) v1) fb1 own1 m f (needs (Z.of_nat (length (<[n := c]> cs m)))) (<[n := c]> cs m)) as Hfr.
    { intros f. apply filed_frame; [lia|done|]. intros b Hb _. apply Hlow. mk_consts. lia. }
    destruct (decide (m = n)) as [->|Hne]; [rewrite !fn_lookup_insert in *; auto|]. rewrite !fn_lookup_insert_ne in * by done.
    destruct (G8 m ltac:(lia)) as [Hfm Hcm]. split; [|done]. apply Hfr. by eapply filed_step.
Qed.

Lemma filed_empty v fb own n : filed v fb own n (replicate 13 0) (needs 0) [].
Proof.
  assert (forall i, nth i (replicate 13 0) 0 = 0) as Hn by (intros i; rewrite nth_lookup; by destruct (decide (i < 13)%nat); [rewrite lookup_replicate_2|rewrite lookup_ge_None_2 by (rewrite length_replicate; lia)]).
  assert (forall k, slot v (replicate 13 0) k = 0) as Hs. { intros k. unfold slot. rewrite !Hn. destruct (k =? IND); [done|]. by destruct (k <? NDIRECT). }
  split; [done| | |]; intros k Hk; rewrite Hs; [done| |done]. split; [done|]. unfold needs, slot_start. mk_consts. destruct (k =? IND); lia.
Qed.

Lemma ialloc_run ty ads cs own fi fb v t : good ty ads cs own fi fb v -> fi < NINODES -> 0 <= t < 2 ^ 15 ->
  exists v' ads', ialloc t (st v fi fb) = Ok fi (st v' (fi + 1) fb) /\ good (<[fi := t]> ty) ads' (<[fi := []]> cs) own (fi + 1) fb v'.
Proof.
  intros G Hfi Ht. exists (put_inode sb0 (ino fi (din t (replicate 13 0) [])) v), (<[fi := replicate 13 0]> ads). pose proof (gd_fi _ _ _ _ _ _ _ G) as H1.
  pose proof (gd_fb _ _ _ _ _ _ _ G). split.
  - unfold ialloc. rewrite (bind_ok_l _ _ _ _ _ (eq_refl : gets freeinode (st v fi fb) = Ok fi (st v fi fb))).
    rewrite u32_small by (change NINODES with 200 in *; lia).
    rewrite (bind_ok_l _ _ _ _ _ (eq_refl : modify (set_freeinode (fi + 1)) (st v fi fb) = Ok tt (st v (fi + 1) fb))).
    rewrite xshort_id by lia. rewrite (bind_ok_l _ _ _ _ _ (winode_run fi _ v (fi + 1) fb ltac:(lia))).
    assert (s16 t = t) as -> by (unfold s16, u16; rewrite Z.mod_small by lia; split_if; lia). done.
  - apply (good_store ty ads cs own fi fb v fi t (replicate 13 0) [] v fb own (fi + 1)); [done|by right|lia|apply step_refl|lia|apply filed_empty|done|done].
Qed.

Lemma iappend_run ty ads cs own fi fb v n p : let len := Z.of_nat (length (cs n)) in let len' := Z.of_nat (length (cs n ++ p)) in
  let fb' := fb + cost len' - cost len in
  good ty ads cs own fi fb v -> 1 <= n < fi -> fb' <= FSSIZE -> len' <= MAXFILE * BSIZE ->
  exists v' ads' own' ty', iappend n p (st v fi fb) = Ok tt (st v' fi fb') /\ good ty' ads' (<[n := cs n ++ p]> cs) own' fi fb' v' /\ (forall m, ty' m = ty m).
Proof.
  intros len len' fb' G Hn Hfb' Hmax. pose proof (gd_fi _ _ _ _ _ _ _ G) as Hfi. pose proof (gd_fb _ _ _ _ _ _ _ G) as Hfb.
  destruct (gd_file _ _ _ _ _ _ _ G n Hn) as (Hf & Hc & Ht). unfold iappend. rewrite (bind_ok_l _ _ _ _ _ (rinode_run n v fi fb ltac:(lia))).
  rewrite (gd_disk _ _ _ _ _ _ _ G) by lia. rewrite decide_True by lia. set (d := din (ty n) (ads n) (cs n)). cbv zeta.
  change (d_size d) with len. rewrite xint_id by (mk_consts; lia).
  destruct (iappend_loop_run (length p + 1) n d p v fb own (cs n) fi) as (v1 & own1 & a1 & Hrun & Hst & Hf1);
    [lia|exact Hf|by apply (gd_len _ _ _ _ _ _ _ G)|by apply (gd_fresh _ _ _ _ _ _ _ G)|lia|exact Hfb'|exact Hmax|].
  fold len len' fb' in Hrun, Hst, Hf1. rewrite (bind_ok_l _ _ _ _ _ Hrun). cbv beta iota. rewrite winode_run by lia.
  assert (set_dsize (xint len') (set_daddrs a1 d) = din (ty n) a1 (cs n ++ p)) as ->. { rewrite xint_id by (unfold len'; mk_consts; lia). done. }
  pose proof (good_store ty ads cs own fi fb v n (ty n) a1 (cs n ++ p) v1 fb' own1 fi G (or_introl (conj eq_refl Hn)) ltac:(lia) Hst Hfb' Hf1 Hmax Ht) as G'.
  eexists _, _, _, _. split; [done|]. split; [exact G'|]. intros m. destruct (decide (m = n)) as [->|]; [by rewrite fn_lookup_insert|by rewrite fn_lookup_insert_ne].
Qed.

Lemma good_ext ty ads cs cs' own fi fb v : (forall m, cs m = cs' m) -> good ty ads cs own fi fb v -> good ty ads cs' own fi fb v.
Proof. intros E [G1 G2 G3 G4 G5 G6 G7 G8]. split; try done; intros n Hn; rewrite <- ?E; auto. Qed.

Lemma append_reads_run reads ty ads cs own fi fb v n : let len := Z.of_nat (length (cs n)) in let len' := Z.of_nat (length (cs n ++ concat reads)) in
  let fb' := fb + cost len' - cost len in
  good ty ads cs own fi fb v -> 1 <= n < fi -> fb' <= FSSIZE -> len' <= MAXFILE * BSIZE ->
  exists v' ads' own' ty', append_reads n reads (st v fi fb) = Ok tt (st v' fi fb') /\ good ty' ads' (<[n := cs n ++ concat reads]> cs) own' fi fb' v' /\
    (forall m, ty' m = ty m).
Proof.
  revert ty ads cs own fb v. induction reads as [|p reads IH]; intros ty ads cs own fb v len len' fb' G Hn Hfb' Hmax; cbn [append_reads concat] in *.
  - exists v, ads, own, ty. unfold fb', len'. rewrite app_nil_r. fold len. rewrite Z.add_simpl_r. split; [done|]. split; [|done].
    eapply good_ext; [|exact G]. intros m. destruct (decide (m = n)) as [->|]; [by rewrite fn_lookup_insert|by rewrite fn_lookup_insert_ne].
  - assert (Z.of_nat (length (cs n ++ p)) <= len') as Hle by (unfold len'; rewrite app_assoc, (length_app (cs n ++ p)); lia).
    pose proof (cost_mono _ _ Hle) as Hcle. fold len in Hcle.
    destruct (iappend_run ty ads cs own fi fb v n p G Hn) as (v1 & ads1 & own1 & ty1 & Hrun & G1 & Hty1); [fold len; unfold fb' in *; lia|lia|].
    rewrite (bind_ok_l _ _ _ _ _ Hrun). fold len in G1 |- *. set (fb1 := fb + cost (Z.of_nat (length (cs n ++ p))) - cost len) in *.
    pose proof (IH ty1 ads1 _ own1 fb1 v1 G1 Hn) as H. cbv zeta in H. rewrite fn_lookup_insert, <- app_assoc in H. fold len' in H.
    replace (fb1 + cost len' - cost (Z.of_nat (length (cs n ++ p)))) with fb' in H by (unfold fb1, fb'; lia).
    destruct (H Hfb' Hmax) as (v' & ads' & own' & ty' & Hrun' & G' & Hty').
    exists v', ads', own', ty'. split; [done|]. split; [|intros m; by rewrite Hty', Hty1]. eapply good_ext; [|exact G'].
    intros m. destruct (decide (m = n)) as [->|]; [by rewrite !fn_lookup_insert|by rewrite !fn_lookup_insert_ne].
Qed.

(** ** The whole program *)

Section files.
Context (open : bytes -> option (list bytes)).

Definition file_bytes (arg : bytes) : bytes := concat (default [] (open arg)).
Definition acceptable (arg : bytes) : Prop :=
  existsb (Z.eqb Fs.SLASH) arg = false /\ is_Some (open arg) /\ Z.of_nat (length (file_bytes arg)) <= MAXFILE * BSIZE.

(** The directory entries of the arguments, from inode [n] on. *)
Fixpoint dirents (n : Z) (argv : list bytes) : bytes :=
  match argv with
  | [] => []
  | arg :: argv => dirent_bytes (MkDirent n (dirname (strip arg))) ++ dirents (n + 1) argv
  end.

Definition total_cost (argv : list bytes) : Z := foldr (fun arg z => cost (Z.of_nat (length (file_bytes arg))) + z) 0 argv.

Lemma length_dirent n name : length (dirent_bytes (MkDirent n (dirname name))) = 16%nat.
Proof. unfold dirent_bytes, dirname. cbn [de_inum de_name]. rewrite length_app, length_le_enc, length_take, length_app, length_replicate. change (Z.to_nat DIRSIZ) with 14%nat. lia. Qed.

Lemma length_dirents n argv : length (dirents n argv) = (16 * length argv)%nat.
Proof. revert n. induction argv as [|arg argv IH]; intros n; [done|]. cbn [dirents length]. rewrite length_app, length_dirent, IH. lia. Qed.

Lemma entry_id n name : 0 <= n < 2 ^ 16 -> entry n name = dirent_bytes (MkDirent n (dirname name)).
Proof. intros Hn. unfold entry. by rewrite xshort_id. Qed.

Lemma total_cost_pos argv : 0 <= total_cost argv.
Proof.
  induction argv as [|arg argv IH]; [done|]. cbn. fold (total_cost argv). assert (cost 0 <= cost (Z.of_nat (length (file_bytes arg)))) by (apply cost_mono; lia).
  change (cost 0) with 0 in *. lia.
Qed.

Lemma copy_files_run argv ty ads cs own fi fb v : let len := Z.of_nat (length (cs 1)) in let dir := dirents fi argv in
  let fb' := fb + (cost (Z.of_nat (length (cs 1 ++ dir))) - cost len) + total_cost argv in let fi' := fi + Z.of_nat (length argv) in
  good ty ads cs own fi fb v -> 1 < fi -> fi' <= NINODES -> Forall acceptable argv -> Z.of_nat (length (cs 1 ++ dir)) <= MAXFILE * BSIZE -> fb' <= FSSIZE ->
  exists v' ads' own' ty' cs', copy_files open 1 argv (st v fi fb) = Ok tt (st v' fi' fb') /\ good ty' ads' cs' own' fi' fb' v' /\
    cs' 1 = cs 1 ++ dir /\ (forall i arg, argv !! i = Some arg -> cs' (fi + Z.of_nat i) = file_bytes arg /\ ty' (fi + Z.of_nat i) = T_FILE) /\
    (forall m, m < fi -> ty' m = ty m) /\ (forall m, 1 < m < fi -> cs' m = cs m).
Proof.
  revert ty ads cs own fi fb v. induction argv as [|arg argv IH]; intros ty ads cs own fi fb v len dir fb' fi' G Hfi Hfi' Ha Hdir Hfb'; cbn [copy_files].
  - exists v, ads, own, ty, cs. unfold fb', fi', dir, total_cost. cbn [dirents foldr length]. rewrite app_nil_r. fold len. rewrite Z.sub_diag, !Z.add_0_r. done.
  - inversion Ha as [|? ? (Hsl & [reads Hop] & Hmax) Ha']; subst. rewrite Hsl, Hop. set (file := concat reads).
    assert (file_bytes arg = file) as Efile by (unfold file_bytes; by rewrite Hop). rewrite Efile in Hmax.
    set (e := dirent_bytes (MkDirent fi (dirname (strip arg)))). set (rest := dirents (fi + 1) argv).
    assert (dir = e ++ rest) as Edir by done. assert (fi' = fi + 1 + Z.of_nat (length argv)) as Efi by (unfold fi'; cbn [length]; lia).
    assert (total_cost (arg :: argv) = cost (Z.of_nat (length file)) + total_cost argv) as Etot by (cbn [total_cost foldr]; by rewrite Efile).
    pose proof (total_cost_pos argv) as Hpos. assert (cost 0 <= cost (Z.of_nat (length file))) as Hfpos by (apply cost_mono; lia). change (cost 0) with 0 in Hfpos.
    set (len1 := Z.of_nat (length (cs 1 ++ e))). set (len2 := Z.of_nat (length (cs 1 ++ dir))) in *.
    assert (cost len <= cost len1 <= cost len2) as Hc12 by (unfold len, len1, len2; rewrite Edir, !length_app; split; apply cost_mono; lia).
    destruct (ialloc_run ty ads cs own fi fb v T_FILE G) as (v1 & ads1 & R1 & G1); [lia|done|]. rewrite (bind_ok_l _ _ _ _ _ R1).
    rewrite entry_id by (change NINODES with 200 in *; lia). fold e. set (cs1 := <[fi := []]> cs) in *.
    assert (cs1 1 = cs 1) as Ecs1 by (apply fn_lookup_insert_ne; lia).
    pose proof (iappend_run _ ads1 cs1 own (fi + 1) fb v1 1 e G1 ltac:(lia)) as H2. cbv zeta in H2. rewrite Ecs1 in H2. fold len len1 in H2.
    destruct H2 as (v2 & ads2 & own2 & ty2 & R2 & G2 & T2); [unfold fb' in *; rewrite Etot in *; lia|unfold len1, len2 in *; rewrite Edir, app_assoc, (length_app (cs 1 ++ e)) in Hdir; lia|].
    rewrite (bind_ok_l _ _ _ _ _ R2). set (cs2 := <[1 := cs 1 ++ e]> cs1) in *. set (fb2 := fb + cost len1 - cost len) in *.
    assert (cs2 fi = []) as Ecs2. { unfold cs2. rewrite fn_lookup_insert_ne by lia. apply fn_lookup_insert. }
    pose proof (append_reads_run reads ty2 ads2 cs2 own2 (fi + 1) fb2 v2 fi G2 ltac:(lia)) as H3. cbv zeta in H3. rewrite Ecs2 in H3. cbn [app length] in H3. fold file in H3.
    change (cost (Z.of_nat 0)) with 0 in H3. destruct H3 as (v3 & ads3 & own3 & ty3 & R3 & G3 & T3); [unfold fb', fb2 in *; rewrite Etot in *; lia|done|].
    rewrite (bind_ok_l _ _ _ _ _ R3). set (cs3 := <[fi := file]> cs2) in *. set (fb3 := fb2 + cost (Z.of_nat (length file)) - 0) in *.
    assert (cs3 1 = cs 1 ++ e) as Ecs3. { unfold cs3, cs2. rewrite fn_lookup_insert_ne by lia. apply fn_lookup_insert. }
    pose proof (IH ty3 ads3 cs3 own3 (fi + 1) fb3 v3 G3 ltac:(lia)) as H4. cbv zeta in H4. rewrite Ecs3, <- app_assoc in H4. fold rest in H4. rewrite <- Edir in H4. fold len1 len2 in H4.
    rewrite <- Efi in H4. replace (fb3 + (cost len2 - cost len1) + total_cost argv) with fb' in H4 by (unfold fb', fb3, fb2; rewrite Etot; lia).
    destruct (H4 Hfi' Ha' Hdir Hfb') as (v' & ads' & own' & ty' & cs' & R4 & G4 & C1 & Ci & Ct & Cm).
    exists v', ads', own', ty', cs'. split; [done|]. split; [done|]. split; [done|]. split_and!.
    + intros [|i] arg' Hi; cbn in Hi.
      * injection Hi as <-. rewrite Z.add_0_r, Cm, Ct by lia. unfold cs3. rewrite fn_lookup_insert, Efile, T3, T2, fn_lookup_insert. done.
      * replace (fi + Z.of_nat (S i)) with (fi + 1 + Z.of_nat i) by lia. by apply Ci.
    + intros m Hm. rewrite Ct, T3, T2, fn_lookup_insert_ne by lia. done.
    + intros m Hm. rewrite Cm by lia. unfold cs3, cs2, cs1. rewrite !fn_lookup_insert_ne by lia. done.
Qed.
End files.
End run.
