(* ===== verification/MkfsSpec.v ===== *)
(** * The image mkfs builds is a file system the kernel can use

    The finished image satisfies the hypotheses of the kernel's file system
    theorems (FsSpec.v), and holds the files of the command line. *)

From S2P Require Import Prelude Memory Layout Spinlock Block Bio Log Fs FsTx FsBlock FsFile FsRw FsIno FsSpec Mkfs MkfsFile.
Import Mkfs.

(** ** The empty image *)

Lemma wzeroes_run n i v rm sb fi fb : 0 <= i -> i + Z.of_nat n <= FSSIZE -> FSSIZE <= rm -> (forall b, blk v b = zblock) ->
  exists v', wzeroes i n (MkMkfs v i rm sb fi fb) = Ok tt (MkMkfs v' (i + Z.of_nat n) rm sb fi fb) /\ forall b, blk v' b = zblock.
Proof.
  revert i v. induction n as [|n IH]; intros i v Hi Hn Hrm Hv; cbn [wzeroes]; [exists v; by rewrite Z.add_0_r|].
  assert (wsect i zblock (MkMkfs v i rm sb fi fb) = Ok tt (MkMkfs (<[i := zblock]> v) (i + 1) rm sb fi fb)) as R.
  { unfold wsect, mbind, M_bind, get. rewrite seek_id by lia. cbn [room nsect image]. destruct (Z.leb_spec rm i); [lia|].
    unfold put, set_image. cbn [room msb freeinode freeblock]. by rewrite Z.max_r by lia. }
  rewrite (bind_ok_l _ _ _ _ _ R). destruct (IH (i + 1) (<[i := zblock]> v)) as (v' & R' & Hv'); [lia|lia|done| |].
  - intros b. rewrite blk_insert. case_decide; [done|apply Hv].
  - exists v'. rewrite R'. split; [|done]. do 2 f_equal. lia.
Qed.

Lemma decode_zblock off : decode_dinode off zblock = no_dinode.
Proof.
  assert (forall o, half o zblock = 0) as Hh by (intros o; unfold half, sub, zblock; apply le_val_zeros, Forall_take, Forall_drop, Forall_replicate; done).
  unfold decode_dinode. rewrite !Hh, !word_zblock. unfold no_dinode. f_equal. cbn [seq fmap list_fmap]. rewrite !word_zblock. done.
Qed.

Lemma good_start v : (forall b, blk v b = zblock) ->
  good (fun _ => 0) (fun _ => []) (fun _ => []) (fun _ => (0, 0)) 1 nmeta (<[1 := splice 0 (sb_bytes sb0) zblock]> v).
Proof.
  intros Hv. assert (forall b, b <> 1 -> blk (<[1 := splice 0 (sb_bytes sb0) zblock]> v) b = zblock) as Hb by (intros; rewrite blk_insert_ne by done; apply Hv).
  split; [|done|done| | | | |].
  - intros b. destruct (decide (b = 1)) as [->|]; [|by rewrite Hb]. rewrite blk_insert_eq. done.
  - intros b H. apply Hb. mk_consts. lia.
  - apply blk_insert_eq.
  - intros b H. apply Hb. change (sb_bmapstart sb0) with 58 in H. lia.
  - intros n Hn. rewrite decide_False by lia. unfold dinode_at. rewrite Hb by (destruct (IBLOCK0 n Hn); lia). apply decode_zblock.
  - intros n Hn. lia.
Qed.

(** ** The bitmap *)

Lemma bitmap_bits d l j : 0 <= j -> Forall (fun i => 0 <= i < 8 * Z.of_nat (length d)) l ->
  Fs.bit_set j (foldl (fun buf i => Fs.set_bit i buf) d l) = bool_decide (j ∈ l) || Fs.bit_set j d.
Proof.
  intros Hj. revert d. induction l as [|i l IH]; intros d Hl; cbn [foldl]; [done|]. inversion Hl; subst.
  rewrite IH by (by rewrite length_set_bit). rewrite bit_set_set_bit by done.
  destruct (decide (j = i)) as [->|E]; [rewrite orb_true_r, (bool_decide_eq_true_2 (i ∈ i :: l)) by (by left); done|].
  f_equal. apply bool_decide_ext. rewrite elem_of_cons. tauto.
Qed.

Lemma length_bitmap d l : length (foldl (fun buf i => Fs.set_bit i buf) d l) = length d.
Proof. revert d. induction l as [|i l IH]; intros d; [done|]. cbn [foldl]. by rewrite IH, length_set_bit. Qed.

(** ** From files of the image to inodes of the kernel *)

Lemma addr_slot v n x k : 0 <= k < MAXFILE -> addr_of v (ino n x) k = slot v (d_addrs x) k.
Proof. intros Hk. change MAXFILE with IND in Hk. unfold addr_of, slot, ind. destruct (Z.eqb_spec k IND); [lia|done]. Qed.

Lemma meta0 d b : meta (g0 d) sb0 b -> b < nmeta.
Proof.
  unfold meta, is_bmap, is_iblock. change (g_logstart (g0 d)) with 2. change (g_logsize (g0 d)) with 30. change sb0 with (MkSb 1000 941 200 30 2 32 58).
  cbn [sb_bmapstart sb_inodestart sb_size sb_ninodes]. change ((1000 - 1) / BPB) with 0. change ((200 - 1) / IPB) with 24. change nmeta with 59. lia.
Qed.

Section inode.
Context (v : gmap Z bytes) (fb : Z) (Hl : len_ok v) (Hfb : nmeta <= fb <= FSSIZE) (Hu : forall b, 0 <= b < FSSIZE -> used v sb0 b = (b <? fb)).
Context (own : Z -> Z * Z) (n : Z) (x : dinode) (c : bytes) (Hf : filed v fb own n (d_addrs x) (needs (Z.of_nat (length c))) c).

Lemma slot_datab k d : 0 <= k <= IND -> slot v (d_addrs x) k <> 0 -> datab (g0 d) sb0 v (slot v (d_addrs x) k).
Proof.
  intros Hk Hs. destruct (f_slot _ _ _ _ _ _ _ Hf k Hk Hs) as [Hr _]. unfold datab. change (sb_size sb0) with FSSIZE. split; [mk_consts; lia|].
  split; [intros Hm; apply meta0 in Hm; lia|]. rewrite Hu by (mk_consts; lia). apply Z.ltb_lt. lia.
Qed.

Lemma filed_fsok d : fsok (g0 d) sb0 v (ino n x).
Proof.
  split; [done| |split].
  - intros b Hb Hm. apply meta0 in Hm. rewrite Hu by done. apply Z.ltb_lt. lia.
  - done.
  - exact (f_len _ _ _ _ _ _ _ Hf).
  - intros Hi. apply (slot_datab IND); [lia|done].
  - intros k Hk. rewrite addr_slot by done. change MAXFILE with IND in Hk. intros Hs. split; [apply slot_datab; [lia|done]|].
    intros E. assert (k = IND) by (eapply slot_inj; [exact Hf|lia|lia|done|exact E]). lia.
  - intros j k Hj Hk. rewrite !addr_slot by done. change MAXFILE with IND in *. intros E Hs. eapply slot_inj; [exact Hf|lia|lia|done|exact E].
Qed.

Lemma fbyte_filed o : 0 <= o < MAXFILE * BSIZE -> fbyte v (ino n x) o = nth (Z.to_nat o) c 0.
Proof.
  intros Ho. unfold fbyte. set (k := o / BSIZE). pose proof (Z.div_mod o BSIZE ltac:(done)) as Hd. pose proof (Z.mod_pos_bound o BSIZE ltac:(done)) as Hm.
  fold k in Hd. assert (0 <= k < MAXFILE) as Hk by (split; [apply Z.div_pos; lia|apply Z.div_lt_upper_bound; lia]). rewrite addr_slot by done. change MAXFILE with IND in Hk.
  destruct (Z.eqb_spec (slot v (d_addrs x) k) 0) as [E|E].
  - rewrite nth_overflow; [done|]. pose proof (f_alloc _ _ _ _ _ _ _ Hf k ltac:(lia)) as Ha. unfold needs, slot_start in Ha.
    destruct (Z.eqb_spec k IND); [lia|]. assert (~ k * BSIZE < Z.of_nat (length c)) by tauto. lia.
  - rewrite (f_data _ _ _ _ _ _ _ Hf) by (done || lia). rewrite nth_lookup, lookup_chunk by lia. rewrite decide_True by lia. cbn. f_equal. unfold BSIZE in *. lia.
Qed.

Lemma content_filed m : Z.of_nat (length c) <= m <= MAXFILE * BSIZE -> content v (ino n x) 0 m = c ++ replicate (Z.to_nat m - length c) 0.
Proof.
  intros Hm. apply list_eq. intros i. unfold content. rewrite list_lookup_fmap. destruct (decide (i < Z.to_nat m)%nat) as [Hi|Hi].
  - rewrite lookup_seqZ_lt by lia. cbn [fmap option_fmap option_map]. rewrite fbyte_filed by lia. replace (Z.to_nat (0 + Z.of_nat i)) with i by lia. rewrite nth_lookup.
    destruct (c !! i) as [y|] eqn:E; [by rewrite (lookup_app_l_Some _ _ _ _ E)|]. apply lookup_ge_None in E. rewrite lookup_app_r by done.
    by rewrite lookup_replicate_2 by lia.
  - rewrite lookup_seqZ_ge by lia. symmetry. apply lookup_ge_None. rewrite length_app, length_replicate. lia.
Qed.

(** The blocks below size [m] are all there exactly when the contents reach into the last one. *)
Lemma holes_filed : d_size x <= MAXFILE * BSIZE -> no_holes v (ino n x) <-> (forall k, 0 <= k -> k * BSIZE < d_size x -> k * BSIZE < Z.of_nat (length c)).
Proof.
  intros Hs. assert (forall k, 0 <= k -> k * BSIZE < d_size x -> addr_of v (ino n x) k <> 0 <-> k * BSIZE < Z.of_nat (length c)) as H.
  { intros k Hk Hk'. assert (0 <= k < IND) as Hr by (mk_consts; lia). rewrite addr_slot by done. rewrite (f_alloc _ _ _ _ _ _ _ Hf) by lia.
    unfold needs, slot_start. destruct (Z.eqb_spec k IND); [lia|done]. }
  unfold no_holes. change (isize (ino n x)) with (d_size x). split; intros Hn k Hk Hk'; apply H; auto.
Qed.
End inode.

(** ** The finished image *)

(** The root directory: the entries for itself, then one for each file. *)
Definition root_dir (argv : list bytes) : bytes :=
  dirent_bytes (MkDirent 1 (dirname [46])) ++ dirent_bytes (MkDirent 1 (dirname [46; 46])) ++ dirents 2 argv.

Lemma length_root_dir argv : length (root_dir argv) = (16 * (2 + length argv))%nat.
Proof. unfold root_dir. rewrite !length_app, !length_dirent, length_dirents. lia. Qed.

Section built.
Context (open : bytes -> option (list bytes)) (argv : list bytes) (fb : Z) (v : gmap Z bytes).

(** Inode [n] as [ilock] loads it from the image. *)
Definition loaded (n : Z) : inode := ino n (dinode_at sb0 v n).

(** The image holds the files of [argv], and its first [fb] blocks are in use. *)
Record built : Prop := MkBuilt {
  b_sb : decode_sb (blk v 1) = sb0;
  b_layout : forall d, layout (g0 d) sb0;
  b_log : forall b, 2 <= b < 2 + nlog -> blk v b = zblock;
  b_used : forall b, 0 <= b < FSSIZE -> used v sb0 b = (b <? fb);
  b_root : let ip := loaded ROOTINO in let dir := root_dir argv in let len := Z.of_nat (length dir) in
    itype ip = T_DIR /\ nlink ip = 1 /\ isize ip = (len / BSIZE + 1) * BSIZE /\ (forall d, fsok (g0 d) sb0 v ip) /\
    content v ip 0 (isize ip) = dir ++ replicate (Z.to_nat (isize ip) - length dir) 0 /\ (no_holes v ip <-> len mod BSIZE <> 0);
  b_files : forall i arg, argv !! i = Some arg -> let ip := loaded (2 + Z.of_nat i) in let c := file_bytes open arg in
    itype ip = T_FILE /\ nlink ip = 1 /\ isize ip = Z.of_nat (length c) /\ (forall d, fsok (g0 d) sb0 v ip) /\
    no_holes v ip /\ content v ip 0 (isize ip) = c;
  b_free : forall n, 0 <= n < NINODES -> n = 0 \/ 2 + Z.of_nat (length argv) <= n -> dinode_at sb0 v n = no_dinode;
  b_disjoint : forall m n j k, 1 <= m < 2 + Z.of_nat (length argv) -> 1 <= n < 2 + Z.of_nat (length argv) ->
    0 <= j <= IND -> 0 <= k <= IND -> let a := slot v (addrs (loaded m)) j in a <> 0 -> a = slot v (addrs (loaded n)) k -> m = n /\ j = k
}.
End built.

Section finish.
Context (open : bytes -> option (list bytes)) (argv : list bytes).
Context (ty : Z -> Z) (ads : Z -> list Z) (cs : Z -> bytes) (own : Z -> Z * Z) (fb : Z) (v : gmap Z bytes).
Context (G : good ty ads cs own (2 + Z.of_nat (length argv)) fb v) (Hroot : cs 1 = root_dir argv) (Hty : ty 1 = T_DIR).
Context (Hfiles : forall i arg, argv !! i = Some arg -> cs (2 + Z.of_nat i) = file_bytes open arg /\ ty (2 + Z.of_nat i) = T_FILE).

Definition root_size : Z := (Z.of_nat (length (root_dir argv)) / BSIZE + 1) * BSIZE.
Definition root_dinode : dinode := MkDinode (ty 1) 0 0 1 root_size (ads 1).
Definition bitmap : bytes := foldl (fun buf i => Fs.set_bit i buf) zblock (seqZ 0 fb).
Definition finished : gmap Z bytes := <[58 := bitmap]> (put_inode sb0 (ino 1 root_dinode) v).

Lemma fb_range : nmeta <= fb <= FSSIZE.
Proof. exact (gd_fb _ _ _ _ _ _ _ G). Qed.

Lemma argv_short : Z.of_nat (length argv) <= 198.
Proof. pose proof (gd_fi _ _ _ _ _ _ _ G) as H. change NINODES with 200 in H. lia. Qed.

Lemma root_size_range : Z.of_nat (length (root_dir argv)) < root_size <= MAXFILE * BSIZE /\ 0 < root_size.
Proof.
  unfold root_size. rewrite length_root_dir. pose proof argv_short. set (l := Z.of_nat (16 * (2 + length argv))).
  pose proof (Z.div_mod l BSIZE ltac:(done)). pose proof (Z.mod_pos_bound l BSIZE ltac:(done)). mk_consts. lia.
Qed.

Lemma finished_blk b : b < 32 \/ nmeta <= b -> blk finished b = blk v b.
Proof.
  intros Hb. unfold finished. rewrite blk_insert_ne by (mk_consts; lia). apply put_inode_low; [done|mk_consts; lia].
Qed.

Lemma finished_len : len_ok finished.
Proof.
  intros b. unfold finished. rewrite blk_insert. case_decide; [unfold bitmap; by rewrite length_bitmap|]. unfold put_inode. rewrite blk_insert.
  case_decide; [|apply (gd_len _ _ _ _ _ _ _ G)]. rewrite length_splice; [apply (gd_len _ _ _ _ _ _ _ G)|]. rewrite (gd_len _ _ _ _ _ _ _ G).
  destruct (gd_file _ _ _ _ _ _ _ G 1 ltac:(lia)) as [Hf _]. rewrite length_dinode_bytes by (exact (f_len _ _ _ _ _ _ _ Hf)). apply dinode_off_range.
Qed.

Lemma finished_used b : 0 <= b < FSSIZE -> used finished sb0 b = (b <? fb).
Proof.
  intros Hb. pose proof fb_range. unfold used. rewrite Z.mod_small by (change BPB with 4096; mk_consts; lia).
  assert (BBLOCK b sb0 = 58) as -> by (unfold BBLOCK; rewrite Z.div_small by (change BPB with 4096; mk_consts; lia); done).
  unfold finished. rewrite blk_insert_eq. unfold bitmap. rewrite bitmap_bits; [|lia|].
  - assert (Fs.bit_set b zblock = false) as ->.
    { unfold Fs.bit_set, Fs.bit_byte, zblock. rewrite nth_lookup. destruct (replicate _ _ !! _) as [y|] eqn:E; [|done]. apply lookup_replicate in E as [-> _]. done. }
    rewrite orb_false_r. destruct (Z.ltb_spec b fb); [apply bool_decide_eq_true_2, elem_of_seqZ; lia|apply bool_decide_eq_false_2; rewrite elem_of_seqZ; lia].
  - apply Forall_forall. intros i Hi. apply elem_of_seqZ in Hi. change (Z.of_nat (length zblock)) with 512. mk_consts. lia.
Qed.

Lemma finished_filed n : 1 <= n < 2 + Z.of_nat (length argv) -> filed finished fb own n (ads n) (needs (Z.of_nat (length (cs n)))) (cs n).
Proof.
  intros Hn. destruct (gd_file _ _ _ _ _ _ _ G n Hn) as [Hf _]. eapply filed_frame; [reflexivity|done| |exact Hf]. intros b Hb _. apply finished_blk. lia.
Qed.

Lemma root_wf : dinode_wf root_dinode.
Proof.
  destruct (gd_file _ _ _ _ _ _ _ G 1 ltac:(lia)) as (Hf & _ & Ht). pose proof root_size_range as [Hs _]. pose proof fb_range.
  split; cbn; try lia; [mk_consts; lia|exact (f_len _ _ _ _ _ _ _ Hf)|eapply addrs_range; [exact Hf|lia]].
Qed.

Lemma finished_dinode n : 0 <= n < NINODES ->
  dinode_at sb0 finished n = if decide (n = 1) then root_dinode else if decide (1 <= n < 2 + Z.of_nat (length argv)) then din (ty n) (ads n) (cs n) else no_dinode.
Proof.
  intros Hn. assert (dinode_at sb0 finished n = dinode_at sb0 (put_inode sb0 (ino 1 root_dinode) v) n) as ->.
  { unfold dinode_at, finished. rewrite blk_insert_ne; [done|]. destruct (IBLOCK0 n Hn). lia. }
  pose proof (gd_len _ _ _ _ _ _ _ G) as Hl. case_decide as E.
  - subst n. rewrite <- (to_dinode_ino 1 root_dinode) at 2. apply put_inode_eq; [done|]. rewrite to_dinode_ino. apply root_wf.
  - rewrite (put_inode_ne (g0 ∅) sb0 (layout0 ∅)); [by apply (gd_disk _ _ _ _ _ _ _ G)|done|exact (dw_len _ root_wf)|done|done|done].
Qed.

Lemma finished_root : let ip := loaded finished ROOTINO in let dir := root_dir argv in let len := Z.of_nat (length dir) in
  itype ip = T_DIR /\ nlink ip = 1 /\ isize ip = (len / BSIZE + 1) * BSIZE /\ (forall d, fsok (g0 d) sb0 finished ip) /\
  content finished ip 0 (isize ip) = dir ++ replicate (Z.to_nat (isize ip) - length dir) 0 /\ (no_holes finished ip <-> len mod BSIZE <> 0).
Proof.
  intros ip dir len. unfold ip, loaded. rewrite finished_dinode by done. change (decide (ROOTINO = 1)) with (decide (1 = 1)). rewrite decide_True by done.
  pose proof (finished_filed 1 ltac:(lia)) as Hf. rewrite Hroot in Hf. fold dir len in Hf. pose proof root_size_range as [Hs _]. fold dir len in Hs.
  split; [done|]. split; [done|]. split; [done|]. split; [intros d; exact (filed_fsok finished fb finished_len fb_range finished_used own 1 root_dinode dir Hf d)|].
  change (isize (ino ROOTINO root_dinode)) with root_size. split; [apply (content_filed finished fb fb_range own 1 root_dinode dir Hf); lia|].
  pose proof (holes_filed finished fb own 1 root_dinode dir Hf) as Hh. cbn [d_size root_dinode] in Hh. change (ino ROOTINO root_dinode) with (ino 1 root_dinode).
  rewrite Hh by lia. unfold root_size. fold dir len. pose proof (Z.div_mod len BSIZE ltac:(done)) as Hd. pose proof (Z.mod_pos_bound len BSIZE ltac:(done)) as Hm. split.
  - intros H E. specialize (H (len / BSIZE) ltac:(apply Z.div_pos; lia) ltac:(mk_consts; lia)). fold len in H. lia.
  - intros E k Hk Hk'. fold len. mk_consts. lia.
Qed.

Lemma finished_file i arg : argv !! i = Some arg -> let ip := loaded finished (2 + Z.of_nat i) in let c := file_bytes open arg in
  itype ip = T_FILE /\ nlink ip = 1 /\ isize ip = Z.of_nat (length c) /\ (forall d, fsok (g0 d) sb0 finished ip) /\
  no_holes finished ip /\ content finished ip 0 (isize ip) = c.
Proof.
  intros Hi ip c. pose proof (lookup_lt_Some _ _ _ Hi) as Hlt. destruct (Hfiles i arg Hi) as [Hc Ht]. fold c in Hc. set (n := 2 + Z.of_nat i) in *. pose proof argv_short as Hs.
  assert (1 <= n < 2 + Z.of_nat (length argv)) as Hn by lia. destruct (gd_file _ _ _ _ _ _ _ G n Hn) as (_ & Hmax & _).
  assert (dinode_at sb0 finished n = din T_FILE (ads n) c) as Hd.
  { rewrite finished_dinode by (change NINODES with 200; lia). rewrite decide_False, decide_True, Ht, Hc by lia. done. }
  unfold ip, loaded. rewrite Hd. pose proof (finished_filed n Hn) as Hf. rewrite Hc in Hf, Hmax.
  split; [done|]. split; [done|]. split; [done|]. split; [intros d; exact (filed_fsok finished fb finished_len fb_range finished_used own n (din T_FILE (ads n) c) c Hf d)|].
  split; [by apply (holes_filed finished fb own n (din T_FILE (ads n) c) c Hf)|].
  change (isize (ino n (din T_FILE (ads n) c))) with (Z.of_nat (length c)). rewrite (content_filed finished fb fb_range own n (din T_FILE (ads n) c) c Hf) by lia.
  rewrite Nat2Z.id, Nat.sub_diag. apply app_nil_r.
Qed.

Lemma finished_addrs n : 1 <= n < 2 + Z.of_nat (length argv) -> addrs (loaded finished n) = ads n.
Proof.
  intros Hn. pose proof argv_short. unfold loaded. rewrite finished_dinode by (change NINODES with 200; lia). case_decide as E; [subst n; done|]. by rewrite decide_True.
Qed.

Lemma finished_built : built open argv fb finished.
Proof.
  split; [| | | |exact finished_root|exact finished_file| |].
  - rewrite finished_blk, (gd_sb _ _ _ _ _ _ _ G) by lia. vm_compute. reflexivity.
  - exact layout0.
  - intros b Hb. change (2 + nlog) with 32 in Hb. rewrite finished_blk by lia. apply (gd_zero _ _ _ _ _ _ _ G). auto.
  - exact finished_used.
  - intros n Hn Hf. rewrite finished_dinode by done. rewrite !decide_False by lia. done.
  - intros m n j k Hm Hn Hj Hk. rewrite !finished_addrs by done. intros a H0 E. unfold a in *. pose proof (finished_filed m Hm) as Fm. pose proof (finished_filed n Hn) as Fn.
    destruct (f_slot _ _ _ _ _ _ _ Fm j Hj H0) as [_ O1]. rewrite E in H0, O1. destruct (f_slot _ _ _ _ _ _ _ Fn k Hk H0) as [_ O2]. rewrite O1 in O2. by injection O2 as -> ->.
Qed.

(** The end of [main]. *)
Lemma finish_run rm : FSSIZE <= rm ->
  (din ← rinode 1;
   winode 1 (set_dsize (xint (u32 ((xint (d_size din) / BSIZE + 1) * BSIZE))) din);;
   used ← gets freeblock;
   balloc (s32 used)) (st rm v (2 + Z.of_nat (length argv)) fb) = Ok tt (st rm finished (2 + Z.of_nat (length argv)) fb).
Proof.
  intros Hrm. set (fi := 2 + Z.of_nat (length argv)). pose proof fb_range as Hfb. pose proof argv_short as Ha. pose proof root_size_range as [[Hs1 Hs2] Hs0].
  rewrite (bind_ok_l _ _ _ _ _ (rinode_run rm 1 v fi fb ltac:(done))).
  rewrite (gd_disk _ _ _ _ _ _ _ G 1 ltac:(done)), decide_True by lia. cbn [d_size din]. rewrite Hroot.
  rewrite (xint_id (Z.of_nat (length (root_dir argv)))) by (mk_consts; lia). fold root_size. rewrite u32_small, xint_id by (mk_consts; lia).
  assert (set_dsize root_size (din (ty 1) (ads 1) (root_dir argv)) = root_dinode) as -> by done.
  rewrite (bind_ok_l _ _ _ _ _ (winode_run rm Hrm 1 root_dinode v fi fb ltac:(done))).
  set (v1 := put_inode sb0 (ino 1 root_dinode) v). rewrite (bind_ok_l _ _ _ _ _ (eq_refl : gets freeblock (st rm v1 fi fb) = Ok fb (st rm v1 fi fb))).
  assert (s32 fb = fb) as -> by (unfold s32; rewrite u32_small by (mk_consts; lia); split_if; mk_consts; lia).
  unfold balloc. rewrite (proj2 (Z.ltb_lt fb (BSIZE * 8))) by (mk_consts; lia). cbn [negb].
  rewrite (bind_ok_l _ _ _ _ _ (eq_refl : gets msb (st rm v1 fi fb) = Ok sb0 (st rm v1 fi fb))). change (sb_bmapstart sb0) with 58. by rewrite wsect_st.
Qed.
End finish.

(** C26: mkfs makes a file system for the kernel.  Whatever files it is given, as
    long as they fit, it ends and the image satisfies what the kernel's file
    system theorems assume, with one exception: the layout and the superblock,
    an empty log, a bitmap that marks exactly the allocated blocks, inodes whose
    blocks are allocated and shared with no other inode.  The root directory
    lists the files, and reading an inode gives the bytes of its file.  The
    exception is the root directory, whose size is rounded up past its end: when
    its entries fill their last block exactly, as with 30 or 62 files, it ends
    in a hole, and the theorems that need a directory without holes do not apply
    to it. *)
Theorem mkfs_correct (open : bytes -> option (list bytes)) (img : bytes) (argv : list bytes) (s : mkfs) :
  image s = ∅ -> nsect s = 0 -> freeinode s = 1 -> FSSIZE <= room s ->
  2 + Z.of_nat (length argv) <= NINODES -> Forall (acceptable open) argv ->
  nmeta + cost (Z.of_nat (length (root_dir argv))) + total_cost open argv <= FSSIZE ->
  exists s', main open true (img :: argv) s = Ok tt s' /\ nsect s' = FSSIZE /\ built open argv (freeblock s') (image s').
Proof.
  destruct s as [im ns rm sb fi fb]. cbn [image nsect freeinode room]. intros -> -> -> Hrm Hn Ha Hc. unfold main.
  change (negb ((BSIZE mod DINODE_SIZE =? 0) && (BSIZE mod DIRENT_SIZE =? 0))) with false. cbv iota. cbn [negb].
  change (MkSb (xint FSSIZE) _ _ _ _ _ _) with sb0.
  rewrite (bind_ok_l _ _ _ _ _ (eq_refl : modify (set_msb sb0) (MkMkfs ∅ 0 rm sb 1 fb) = Ok tt (MkMkfs ∅ 0 rm sb0 1 fb))).
  rewrite (bind_ok_l _ _ _ _ _ (eq_refl : modify (set_freeblock nmeta) (MkMkfs ∅ 0 rm sb0 1 fb) = Ok tt (MkMkfs ∅ 0 rm sb0 1 nmeta))).
  destruct (wzeroes_run (Z.to_nat FSSIZE) 0 ∅ rm sb0 1 nmeta) as (v0 & R0 & Hv0); [done|done|done|done|]. rewrite (bind_ok_l _ _ _ _ _ R0).
  change (MkMkfs v0 (0 + Z.of_nat (Z.to_nat FSSIZE)) rm sb0 1 nmeta) with (st rm v0 1 nmeta).
  rewrite (bind_ok_l _ _ _ _ _ (wsect_st rm Hrm 1 _ v0 1 nmeta ltac:(done))). pose proof (good_start v0 Hv0) as G0. set (v1 := <[1 := _]> v0) in *.
  destruct (ialloc_run rm Hrm _ _ _ _ 1 nmeta v1 T_DIR G0) as (v2 & ads2 & R2 & G2); [done|done|]. rewrite (bind_ok_l _ _ _ _ _ R2).
  change (negb (1 =? ROOTINO)) with false. cbv iota. change (1 + 1) with 2 in *. rewrite !entry_id by done.
  set (e1 := dirent_bytes (MkDirent 1 (dirname [46]))). set (e2 := dirent_bytes (MkDirent 1 (dirname [46; 46]))).
  assert (length (root_dir argv) = (32 + length (dirents 2 argv))%nat) as Hlr by (rewrite length_root_dir, length_dirents; lia).
  assert (1 <= cost (Z.of_nat (length (root_dir argv)))) as Hc1. { assert (cost 1 <= cost (Z.of_nat (length (root_dir argv)))); [apply cost_mono; lia|]. change (cost 1) with 1 in *. lia. }
  pose proof (total_cost_pos open argv) as Htp.
  pose proof (iappend_run rm Hrm _ ads2 _ _ 2 nmeta v2 1 e1 G2 ltac:(lia)) as H3. cbv zeta in H3. rewrite fn_lookup_insert in H3. cbn [app length] in H3.
  change (Z.of_nat (length e1)) with 16 in H3. change (nmeta + cost 16 - cost (Z.of_nat 0)) with (nmeta + 1) in H3.
  destruct H3 as (v3 & ads3 & own3 & ty3 & R3 & G3 & T3); [done|done|]. rewrite (bind_ok_l _ _ _ _ _ R3).
  pose proof (iappend_run rm Hrm ty3 ads3 _ own3 2 (nmeta + 1) v3 1 e2 G3 ltac:(lia)) as H4. cbv zeta in H4. rewrite fn_lookup_insert in H4.
  change (Z.of_nat (length e1)) with 16 in H4. change (Z.of_nat (length (e1 ++ e2))) with 32 in H4. change (nmeta + 1 + cost 32 - cost 16) with (nmeta + 1) in H4.
  destruct H4 as (v4 & ads4 & own4 & ty4 & R4 & G4 & T4); [done|done|]. rewrite (bind_ok_l _ _ _ _ _ R4).
  pose proof (copy_files_run rm Hrm open argv ty4 ads4 _ own4 2 (nmeta + 1) v4 G4 ltac:(lia) Hn Ha) as H5. cbv zeta in H5. rewrite fn_lookup_insert in H5.
  rewrite <- app_assoc in H5. change (e1 ++ e2 ++ dirents 2 argv) with (root_dir argv) in H5. change (Z.of_nat (length (e1 ++ e2))) with 32 in H5. change (cost 32) with 1 in H5.
  set (fb5 := nmeta + 1 + (cost (Z.of_nat (length (root_dir argv))) - 1) + total_cost open argv) in *.
  destruct H5 as (v5 & ads5 & own5 & ty5 & cs5 & R5 & G5 & C1 & Ci & Ct & _); [rewrite Hlr, length_dirents; change NINODES with 200 in Hn; mk_consts; lia|unfold fb5; lia|].
  rewrite (bind_ok_l _ _ _ _ _ R5). rewrite (finish_run argv ty5 ads5 cs5 own5 fb5 v5 G5 C1 rm Hrm).
  assert (ty5 1 = T_DIR) as Hty by (rewrite Ct, T4, T3, fn_lookup_insert by lia; done).
  eexists. split; [reflexivity|]. split; [done|]. exact (finished_built open argv ty5 ads5 cs5 own5 fb5 v5 G5 C1 Hty Ci).
Qed.

(** Two files, one of them with an underscore in its name. *)
Module MkfsEx.
Definition open (name : bytes) : option (list bytes) := if decide (name = [95; 97]) then Some [replicate 512 7; replicate 3 9] else Some [].
Definition start : mkfs := MkMkfs ∅ 0 FSSIZE (MkSb 0 0 0 0 0 0 0) 1 0.
End MkfsEx.

Lemma mkfs_correct_witness :
  exists s', main MkfsEx.open true [[105]; [95; 97]; [98]] MkfsEx.start = Ok tt s' /\ nsect s' = FSSIZE /\
    built MkfsEx.open [[95; 97]; [98]] (freeblock s') (image s').
Proof.
  apply (mkfs_correct MkfsEx.open [105] [[95; 97]; [98]] MkfsEx.start); [reflexivity|reflexivity|reflexivity|cbn; lia|cbn; unfold NINODES; lia| |vm_compute; intros H; discriminate H].
  repeat constructor; try (vm_compute; done); by eexists.
Defined.
