(* ===== verification/File.v ===== *)
(** * file.c and pipealloc: open files

    The table of open files, over the pipes, the file system and the page
    allocator.  A file or pipe pointer is a table index or page address, a null
    pointer [None].  Data that the code copies through an address is passed and
    returned as bytes. *)

From S2P Require Import Prelude Memory Layout Cstring Spinlock Kalloc Pipe Block Log Fs.

Inductive ftype := FD_NONE | FD_PIPE | FD_INODE.

#[global] Instance ftype_eq_dec : EqDecision ftype.
Proof. solve_decision. Defined.

(** [struct file] *)
Record file := MkFile {
  f_type : ftype;
  f_ref : Z;
  f_readable : bool;
  f_writable : bool;
  f_pipe : Z;
  f_ip : nat;
  f_off : Z
}.

Definition file0 : file := MkFile FD_NONE 0 false false 0 0 0.

Module File.

Section file.
Context {S : Type} `{D : BlockDev S}.
(** [end], and the device table. *)
Context (kend : Z) (dsw : Fs.devsw (S := S)).

(** [ftable], the pipes by the page they are in, the file system, and the page
    allocator. *)
Record fstate := MkFstate {
  ftab : nat -> file;
  ftlock : bool;
  pipes : gmap Z Pipe.pipe;
  ffs : Fs.fs S;
  fmem : Kalloc.kst
}.

Definition set_ftlock (b : bool) (s : fstate) : fstate := MkFstate (ftab s) b (pipes s) (ffs s) (fmem s).
Definition set_pipes (x : gmap Z Pipe.pipe) (s : fstate) : fstate := MkFstate (ftab s) (ftlock s) x (ffs s) (fmem s).
Definition set_ffs (x : Fs.fs S) (s : fstate) : fstate := MkFstate (ftab s) (ftlock s) (pipes s) x (fmem s).
Definition set_fmem (x : Kalloc.kst) (s : fstate) : fstate := MkFstate (ftab s) (ftlock s) (pipes s) (ffs s) x.

Definition on_fs {A} (m : M (Fs.fs S) A) : M fstate A := zoom ffs set_ffs m.
Definition on_mem {A} (m : M Kalloc.kst A) : M fstate A := zoom fmem set_fmem m.
Definition fat (i : nat) : M fstate file := gets (fun s => ftab s i).
Definition fupd (i : nat) (f : file -> file) : M fstate unit :=
  modify (fun s => MkFstate (<[i := f (ftab s i)]> (ftab s)) (ftlock s) (pipes s) (ffs s) (fmem s)).
Definition acquire : M fstate unit := Seq.acquire ftlock set_ftlock.
Definition release : M fstate unit := Seq.release ftlock set_ftlock.

(** An operation on the pipe in page [p]. *)
Definition on_pipe {A} (p : Z) (m : M Pipe.pipe A) : M fstate A := fun s =>
  match pipes s !! p with
  | None => Fault
  | Some x => zoom (fun _ => x) (fun y s => set_pipes (<[p := y]> (pipes s)) s) m s
  end.

Definition begin_op : M fstate unit := on_fs (Fs.on_log Log.begin_op).
Definition end_op : M fstate unit := on_fs (Fs.on_log Log.end_op).

Definition set_ref (x : Z) (f : file) : file :=
  MkFile (f_type f) x (f_readable f) (f_writable f) (f_pipe f) (f_ip f) (f_off f).
Definition set_type (x : ftype) (f : file) : file :=
  MkFile x (f_ref f) (f_readable f) (f_writable f) (f_pipe f) (f_ip f) (f_off f).
Definition set_off (x : Z) (f : file) : file :=
  MkFile (f_type f) (f_ref f) (f_readable f) (f_writable f) (f_pipe f) (f_ip f) x.

Definition fileinit : M fstate unit := modify (set_ftlock false).

Fixpoint find_free (tab : nat -> file) (i n : nat) : option nat :=
  match n with
  | O => None
  | Datatypes.S k => if f_ref (tab i) =? 0 then Some i else find_free tab (i + 1) k
  end.

Definition filealloc : M fstate (option nat) :=
  acquire;;
  s ← get;
  match find_free (ftab s) 0 NFILE with
  | Some i => fupd i (set_ref 1);; release;; mret (Some i)
  | None => release;; mret None
  end.

Definition filedup (i : nat) : M fstate nat :=
  acquire;;
  f ← fat i;
  if f_ref f <? 1 then panic "filedup"
  else
    fupd i (fun f => set_ref (f_ref f + 1) f);;
    release;;
    mret i.

(** [pipeclose] and, when both ends are closed, [kfree] of its page. *)
Definition pipeclose (p : Z) (writable : bool) : M fstate unit :=
  free ← on_pipe p (Pipe.pipeclose p writable);
  when free (
    modify (fun s => set_pipes (delete p (pipes s)) s);;
    on_mem (Kalloc.kfree kend p)).

Definition fileclose (i : nat) : M fstate unit :=
  acquire;;
  f ← fat i;
  if f_ref f <? 1 then panic "fileclose"
  else
    fupd i (fun f => set_ref (f_ref f - 1) f);;
    ff ← fat i;
    if 0 <? f_ref ff then release
    else
      fupd i (fun f => set_type FD_NONE (set_ref 0 f));;
      release;;
      match f_type ff with
      | FD_PIPE => pipeclose (f_pipe ff) (f_writable ff)
      | FD_INODE =>
          begin_op;;
          on_fs (Fs.iput (f_ip ff));;
          end_op
      | FD_NONE => mret tt
      end.

Definition filestat (i : nat) : M fstate (Z * option stat) :=
  f ← fat i;
  match f_type f with
  | FD_INODE =>
      on_fs (Fs.ilock (Some (f_ip f)));;
      st ← on_fs (Fs.stati (f_ip f));
      on_fs (Fs.iunlock (Some (f_ip f)));;
      mret (0, Some st)
  | _ => mret (-1, None)
  end.

(** How a read or a write ends: with its result (and the bytes read), or asleep
    in the pipe, with the index of the next byte to write. *)
Inductive rdres := RdRet (r : Z) (b : bytes) | RdSleep (p : Z).
Inductive wrres := WrRet (r : Z) | WrSleep (p : Z) (i : nat).

Definition fileread (killed : bool) (i : nat) (n : Z) : M fstate rdres :=
  f ← fat i;
  if negb (f_readable f) then mret (RdRet (-1) [])
  else match f_type f with
  | FD_PIPE =>
      r ← on_pipe (f_pipe f) (Pipe.piperead (f_pipe f) killed n);
      match r with
      | Pipe.RRet r b => mret (RdRet r b)
      | Pipe.RSleep => mret (RdSleep (f_pipe f))
      end
  | FD_INODE =>
      on_fs (Fs.ilock (Some (f_ip f)));;
      '(r, b) ← on_fs (Fs.readi dsw (f_ip f) (f_off f) (u32 n));
      when (0 <? r) (fupd i (fun f => set_off (u32 (f_off f + r)) f));;
      on_fs (Fs.iunlock (Some (f_ip f)));;
      mret (RdRet r b)
  | FD_NONE => panic "fileread"
  end.

(** The most one transaction of [filewrite] writes. *)
Definition max_write : Z := (LOGSIZE - 1 - 1 - 2) / 2 * 512.

(** The loop of [filewrite] from [addr[j]]. *)
Fixpoint filewrite_loop (i : nat) (src : bytes) (j n : Z) (fuel : nat) : M fstate Z :=
  if j <? n then
    match fuel with
    | O => nofuel
    | Datatypes.S k =>
        let n1 := if max_write <? n - j then max_write else n - j in
        begin_op;;
        f ← fat i;
        on_fs (Fs.ilock (Some (f_ip f)));;
        r ← on_fs (Fs.writei dsw (f_ip f) (drop (Z.to_nat j) src) (f_off f) (u32 n1));
        when (0 <? r) (fupd i (fun f => set_off (u32 (f_off f + r)) f));;
        on_fs (Fs.iunlock (Some (f_ip f)));;
        end_op;;
        if r <? 0 then mret j
        else if negb (r =? n1) then panic "short filewrite"
        else filewrite_loop i src (j + r) n k
    end
  else mret j.

Definition filewrite (killed : bool) (i : nat) (src : bytes) (n : Z) : M fstate wrres :=
  f ← fat i;
  if negb (f_writable f) then mret (WrRet (-1))
  else match f_type f with
  | FD_PIPE =>
      r ← on_pipe (f_pipe f) (Pipe.pipewrite (f_pipe f) killed src n);
      match r with
      | Pipe.WRet r _ => mret (WrRet r)
      | Pipe.WSleep k => mret (WrSleep (f_pipe f) k)
      end
  | FD_INODE =>
      j ← filewrite_loop i src 0 n (Z.to_nat n);
      mret (WrRet (if j =? n then n else -1))
  | FD_NONE => panic "filewrite"
  end.

(** pipe.c: [pipealloc], with what it gives its two files.  The ring is at
    offset 52 of the page, after the lock; it holds whatever the page held. *)
Definition read_end (p : Z) (f : file) : file := MkFile FD_PIPE (f_ref f) true false p (f_ip f) (f_off f).
Definition write_end (p : Z) (f : file) : file := MkFile FD_PIPE (f_ref f) false true p (f_ip f) (f_off f).

(** The label [bad]. *)
Definition pipealloc_bad (p : Z) (f0 f1 : option nat) : M fstate (option (nat * nat)) :=
  when (negb (p =? 0)) (on_mem (Kalloc.kfree kend p));;
  match f0 with Some i => fileclose i | None => mret tt end;;
  match f1 with Some i => fileclose i | None => mret tt end;;
  mret None.

Definition pipealloc : M fstate (option (nat * nat)) :=
  f0 ← filealloc;
  match f0 with
  | None => pipealloc_bad 0 None None
  | Some i0 =>
      f1 ← filealloc;
      match f1 with
      | None => pipealloc_bad 0 f0 None
      | Some i1 =>
          p ← on_mem Kalloc.kalloc;
          if p =? 0 then pipealloc_bad 0 f0 f1
          else
            page ← gets (fun s => (fun i => rd8 (Kalloc.kmem_mem (fmem s)) (p + i)) <$> seqZ 52 512);
            modify (fun s => set_pipes (<[p := Pipe.pipe_init page]> (pipes s)) s);;
            fupd i0 (read_end p);;
            fupd i1 (write_end p);;
            mret (Some (i0, i1))
      end
  end.

End file.
End File.
