(* ===== verification/Kern.v ===== *)
(** * The kernel: processes over memory, files and the file system

    The system calls and the process operations that use several components,
    on the state of the whole kernel.  User memory is reached as the hardware
    does, through the page table of the current process.

    A call that has to wait in the file system, the log or a pipe ends with the
    outcome [Sleep], with the state at that point: the process is not put to
    SLEEPING and the call is not resumed.  [wait], [sys_sleep] and the end of a
    time slice do put the process to sleep and end in the scheduler
    ([SysSwitch], [TrapSwitch], [TrapYield]); Sched.v interleaves these. *)

From S2P Require Import Prelude Memory Layout Cstring Spinlock Kalloc Vm Proc Pipe Block Log Fs File.

Module Kern.

Section kern.
Context {S : Type} `{D : BlockDev S}.
(** Linker symbols [end], [data], [trapret] and [forkret]; the device table. *)
Context (kend kdata trapret forkret_pc : Z) (dsw : Fs.devsw (S := S)).

Record kern := MkKern {
  kp : Proc.ptable;
  kf : File.fstate (S := S);
  ticks : Z;
  tickslock : bool;
  first : bool
}.

Definition set_kp (x : Proc.ptable) (s : kern) : kern := MkKern x (kf s) (ticks s) (tickslock s) (first s).
Definition set_kf (x : File.fstate) (s : kern) : kern := MkKern (kp s) x (ticks s) (tickslock s) (first s).
Definition set_ticks (x : Z) (s : kern) : kern := MkKern (kp s) (kf s) x (tickslock s) (first s).
Definition set_tickslock (x : bool) (s : kern) : kern := MkKern (kp s) (kf s) (ticks s) x (first s).
Definition set_first (x : bool) (s : kern) : kern := MkKern (kp s) (kf s) (ticks s) (tickslock s) x.

Definition on_p {A} (m : M Proc.ptable A) : M kern A := zoom kp set_kp m.
Definition on_f {A} (m : M File.fstate A) : M kern A := zoom kf set_kf m.
Definition on_m {A} (m : M Kalloc.kst A) : M kern A := on_f (File.on_mem m).
Definition on_fs {A} (m : M (Fs.fs S) A) : M kern A := on_f (File.on_fs m).
Definition begin_op : M kern unit := on_f File.begin_op.
Definition end_op : M kern unit := on_f File.end_op.

(** The current process. *)
Definition me : M kern nat := on_p Proc.cur.
Definition myproc : M kern proc := i ← me; on_p (Proc.pat i).
Definition mine (f : proc -> proc) : M kern unit := i ← me; on_p (Proc.pupd i f).

(** ** User memory *)

(** The kernel address of user byte [va] of the current process; without a
    mapping the access faults. *)
Definition uaddr (va : Z) : M kern Z :=
  p ← myproc;
  pte ← on_m (Vm.walkpgdir (pgdir p) va false);
  if pte =? 0 then fault
  else
    e ← on_m (Vm.ld32 pte);
    if negb (truthy (e .& PTE_P)) then fault
    else mret (p2v (PTE_ADDR e) + va mod PGSIZE).

Definition uld8 (va : Z) : M kern Z :=
  a ← uaddr va;
  on_m (gets (fun s => rd8 (Kalloc.kmem_mem s) a)).

Definition ust8 (va v : Z) : M kern unit :=
  a ← uaddr va;
  on_m (modify (fun s => Kalloc.set_mem (wr8 (Kalloc.kmem_mem s) a v) s)).

Fixpoint uld (va : Z) (n : nat) : M kern bytes :=
  match n with
  | O => mret []
  | Datatypes.S k => b ← uld8 va; l ← uld (u32 (va + 1)) k; mret (b :: l)
  end.

Fixpoint ust (va : Z) (b : bytes) : M kern unit :=
  match b with
  | [] => mret tt
  | c :: b' => ust8 va c;; ust (u32 (va + 1)) b'
  end.

(** The bytes of a string, with its NUL. *)
Fixpoint ustr (va : Z) (fuel : nat) : M kern bytes :=
  match fuel with
  | O => nofuel
  | Datatypes.S k =>
      c ← uld8 va;
      if c =? 0 then mret [0] else l ← ustr (u32 (va + 1)) k; mret (c :: l)
  end.

(** ** syscall.c: arguments *)

(** [fetchint], [None] for -1. *)
Definition fetchint (addr : Z) : M kern (option Z) :=
  p ← myproc;
  if (sz p <=? addr) || (sz p <? u32 (addr + 4)) then mret None
  else b ← uld addr 4; mret (Some (s32 (le_val b))).

Fixpoint fetchstr_loop (s ep : Z) (fuel : nat) : M kern (option Z) :=
  if s <? ep then
    match fuel with
    | O => nofuel
    | Datatypes.S k =>
        c ← uld8 s;
        if c =? 0 then mret (Some s) else fetchstr_loop (s + 1) ep k
    end
  else mret None.

(** [fetchstr]: the length; the pointer it stores is [addr]. *)
Definition fetchstr (addr : Z) : M kern (option Z) :=
  p ← myproc;
  if sz p <=? addr then mret None
  else
    e ← fetchstr_loop addr (sz p) (Z.to_nat (sz p - addr));
    mret ((fun s => s - addr) <$> e).

(** Word [i] of the trap frame of the current process. *)
Definition tf_word (off : Z) : M kern Z := p ← myproc; on_m (Vm.ld32 (tf p + off)).
Definition set_tf_word (off v : Z) : M kern unit := p ← myproc; on_m (Vm.st32 (tf p + off) v).
Definition TF_EAX : Z := 28.
Definition TF_EIP : Z := 56.
Definition TF_ESP : Z := 68.

Definition argint (n : Z) : M kern (option Z) :=
  esp ← tf_word TF_ESP;
  fetchint (u32 (esp + 4 + 4 * n)).

Definition argptr (n size : Z) : M kern (option Z) :=
  r ← argint n;
  match r with
  | None => mret None
  | Some i =>
      p ← myproc;
      if (sz p <=? u32 i) || (sz p <? u32 (u32 i + size)) then mret None
      else mret (Some (u32 i))
  end.

(** [argstr]: the length and the address. *)
Definition argstr (n : Z) : M kern (option (Z * Z)) :=
  r ← argint n;
  match r with
  | None => mret None
  | Some addr =>
      len ← fetchstr (u32 addr);
      mret ((fun l => (l, u32 addr)) <$> len)
  end.

(** The string [argstr] gave, as the kernel reads it afterwards. *)
Definition path_at (a : Z * Z) : M kern bytes := ustr a.2 (Z.to_nat a.1 + 1).

(** ** proc.c *)

Definition sizeof_tf : Z := 76.
Definition sizeof_context : Z := 20.

Definition allocproc : M kern (option nat) :=
  r ← on_p Proc.alloc_slot;
  match r with
  | None => mret None
  | Some i =>
      ks ← on_m Kalloc.kalloc;
      on_p (Proc.pupd i (set_kstack ks));;
      if ks =? 0 then
        on_p (Proc.pupd i (set_state UNUSED));;
        mret None
      else
        let sp := ks + KSTACKSIZE in
        let sp := sp - sizeof_tf in
        on_p (Proc.pupd i (set_tf sp));;
        let sp := sp - 4 in
        on_m (Vm.st32 sp trapret);;
        let sp := sp - sizeof_context in
        on_p (Proc.pupd i (set_context sp));;
        on_m (Vm.memset sp 0 sizeof_context);;
        on_m (Vm.st32 (sp + 16) forkret_pc);;
        mret (Some i)
  end.

(** The trap frame of [userinit]; [es], [ds], [ss] and [cs] are 16 bits wide. *)
Definition st16 (a v : Z) : M Kalloc.kst unit :=
  modify (fun s => Kalloc.set_mem (wr8 (wr8 (Kalloc.kmem_mem s) a v) (a + 1) (v / 256)) s).
Definition UCODE_SEL : Z := (Z.of_nat Seg.SEG_UCODE ≪ 3) .| Seg.DPL_USER.
Definition UDATA_SEL : Z := (Z.of_nat Seg.SEG_UDATA ≪ 3) .| Seg.DPL_USER.
Definition FL_IF : Z := 0x200.

Definition user_frame (tf : Z) : M Kalloc.kst unit :=
  Vm.memset tf 0 sizeof_tf;;
  st16 (tf + 60) UCODE_SEL;;
  st16 (tf + 44) UDATA_SEL;;
  st16 (tf + 40) UDATA_SEL;;
  st16 (tf + 72) UDATA_SEL;;
  Vm.st32 (tf + 64) FL_IF;;
  Vm.st32 (tf + TF_ESP) PGSIZE;;
  Vm.st32 (tf + TF_EIP) 0.

(** A C string constant. *)
Definition initcode_name : bytes := [105; 110; 105; 116; 99; 111; 100; 101; 0].
Definition root_path : bytes := [Fs.SLASH; 0].

Definition safe {A} (o : option A) : M kern A :=
  match o with Some a => mret a | None => fault end.

(** [initcode] and [initcode_size] are the symbols [_binary_initcode_start] and
    [_binary_initcode_size]. *)
Definition userinit (initcode initcode_size : Z) : M kern unit :=
  r ← allocproc;
  on_p (modify (Proc.set_initproc r));;
  match r with
  | None => fault
  | Some i =>
      pd ← on_m (Vm.setupkvm kdata);
      on_p (Proc.pupd i (set_pgdir pd));;
      if pd =? 0 then panic "userinit: out of memory?"
      else
        on_m (Vm.inituvm pd initcode initcode_size);;
        on_p (Proc.pupd i (set_sz PGSIZE));;
        p ← on_p (Proc.pat i);
        on_m (user_frame (tf p));;
        nm ← safe (Str.safestrcpy (name p) initcode_name 16);
        on_p (Proc.pupd i (set_name nm));;
        c ← on_fs (Fs.namei dsw 0 root_path);
        on_p (Proc.pupd i (set_cwd c));;
        on_p (Proc.pupd i (set_state RUNNABLE))
  end.

(** [growproc]; [switchuvm] only loads the registers of this CPU. *)
Definition growproc (n : Z) : M kern Z :=
  p ← myproc;
  let sz0 := sz p in
  sz1 ← (if 0 <? n then on_m (Vm.allocuvm kend (pgdir p) sz0 (u32 (sz0 + n)))
         else if n <? 0 then on_m (Vm.deallocuvm kend (pgdir p) sz0 (u32 (sz0 + n)))
         else mret sz0);
  if ((0 <? n) || (n <? 0)) && (sz1 =? 0) then mret (-1)
  else
    mine (set_sz sz1);;
    mret 0.

(** The files of the parent, shared with the child [i]. *)
Fixpoint fork_files (fs : list (option nat)) (i fd : nat) : M kern unit :=
  match fs with
  | [] => mret tt
  | o :: fs' =>
      match o with
      | None => mret tt
      | Some f =>
          f ← on_f (File.filedup f);
          on_p (Proc.pupd i (fun p => set_ofile (<[fd := Some f]> (ofile p)) p))
      end;;
      fork_files fs' i (fd + 1)
  end.

Definition fork : M kern Z :=
  r ← allocproc;
  match r with
  | None => mret (-1)
  | Some i =>
      parent ← me;
      p ← myproc;
      pd ← on_m (Vm.copyuvm kend kdata (pgdir p) (sz p));
      on_p (Proc.pupd i (set_pgdir pd));;
      if pd =? 0 then
        np ← on_p (Proc.pat i);
        on_m (Kalloc.kfree kend (kstack np));;
        on_p (Proc.pupd i (set_kstack 0));;
        on_p (Proc.pupd i (set_state UNUSED));;
        mret (-1)
      else
        on_p (Proc.pupd i (set_sz (sz p)));;
        on_p (Proc.pupd i (set_parent (Some parent)));;
        np ← on_p (Proc.pat i);
        on_m (Vm.memmove (tf np) (tf p) sizeof_tf);;
        on_m (Vm.st32 (tf np + TF_EAX) 0);;
        fork_files (ofile p) i 0;;
        match cwd p with
        | None => fault
        | Some c =>
            c ← on_fs (Fs.idup c);
            on_p (Proc.pupd i (set_cwd (Some c)))
        end;;
        nm ← safe (Str.safestrcpy (name np) (name p) 16);
        on_p (Proc.pupd i (set_name nm));;
        on_p Proc.acquire;;
        on_p (Proc.pupd i (set_state RUNNABLE));;
        on_p Proc.release;;
        np ← on_p (Proc.pat i);
        mret (pid np)
  end.

(** The files of the exiting process [i]. *)
Fixpoint close_files (i fd n : nat) : M kern unit :=
  match n with
  | O => mret tt
  | Datatypes.S k =>
      p ← on_p (Proc.pat i);
      match ofile p !! fd with
      | Some (Some f) =>
          on_f (File.fileclose kend f);;
          on_p (Proc.pupd i (fun p => set_ofile (<[fd := None]> (ofile p)) p))
      | _ => mret tt
      end;;
      close_files i (fd + 1) k
  end.

(** [exit], which ends in the scheduler. *)
Definition exit : M kern bool :=
  i ← me;
  ini ← on_p (gets Proc.initproc);
  if bool_decide (ini = Some i) then panic "init exiting"
  else
    close_files i 0 NOFILE;;
    begin_op;;
    p ← on_p (Proc.pat i);
    match cwd p with
    | None => fault
    | Some c => on_fs (Fs.iput c)
    end;;
    end_op;;
    on_p (Proc.pupd i (set_cwd None));;
    on_p Proc.exit_table.

(** [wait] until it returns or goes to sleep. *)
Definition wait : M kern (option Z) :=
  on_p Proc.acquire;;
  j ← me;
  ps ← on_p (gets Proc.procs);
  p ← myproc;
  match Proc.wait_scan j 0 false ps with
  | Proc.ZombieChild i =>
      z ← on_p (Proc.pat i);
      on_m (Kalloc.kfree kend (kstack z));;
      on_p (Proc.pupd i (set_kstack 0));;
      on_m (Vm.freevm kend (pgdir z));;
      on_p (Proc.pupd i Proc.reap);;
      on_p Proc.release;;
      mret (Some (pid z))
  | Proc.NoKids => on_p Proc.release;; mret (Some (-1))
  | Proc.HaveKids =>
      if killed p then on_p Proc.release;; mret (Some (-1))
      else
        on_p (Proc.sleep_out (ChProc j) None);;
        mret None
  end.

(** A new process, or the first one, starts: the lock the scheduler took is
    given back. *)
Definition forkret : M kern unit :=
  on_p Proc.release;;
  fst ← gets first;
  when fst (
    modify (set_first false);;
    on_fs (Fs.iinit ROOTDEV);;
    on_fs (Fs.on_log (Log.initlog ROOTDEV))).

(** ** sysproc.c *)

(** How a system call ends: it returns, the process is asleep or gone and the
    scheduler runs. *)
Inductive sysres := SysRet (r : Z) | SysSwitch.

Definition sys_fork : M kern sysres := r ← fork; mret (SysRet r).
Definition sys_exit : M kern sysres := exit;; mret SysSwitch.
Definition sys_wait : M kern sysres :=
  r ← wait;
  mret (match r with Some r => SysRet r | None => SysSwitch end).

Definition sys_kill : M kern sysres :=
  r ← argint 0;
  match r with
  | None => mret (SysRet (-1))
  | Some n => r ← on_p (Proc.kill n); mret (SysRet r)
  end.

Definition sys_getpid : M kern sysres := p ← myproc; mret (SysRet (pid p)).
Definition sys_getpcount : M kern sysres := r ← on_p Proc.sys_getpcount; mret (SysRet r).

Definition sys_sbrk : M kern sysres :=
  r ← argint 0;
  match r with
  | None => mret (SysRet (-1))
  | Some n =>
      p ← myproc;
      let addr := s32 (sz p) in
      r ← growproc n;
      if r <? 0 then mret (SysRet (-1)) else mret (SysRet addr)
  end.

Definition acquire_ticks : M kern unit := Seq.acquire tickslock set_tickslock.
Definition release_ticks : M kern unit := Seq.release tickslock set_tickslock.

(** [sys_sleep] from the test of its loop, with tickslock held. *)
Definition sys_sleep_loop (n ticks0 : Z) : M kern sysres :=
  t ← gets ticks;
  if u32 (t - ticks0) <? u32 n then
    p ← myproc;
    if killed p then release_ticks;; mret (SysRet (-1))
    else
      on_p Proc.acquire;;
      release_ticks;;
      on_p (Proc.sleep_out ChTicks None);;
      mret SysSwitch
  else release_ticks;; mret (SysRet 0).

Definition sys_sleep : M kern sysres :=
  r ← argint 0;
  match r with
  | None => mret (SysRet (-1))
  | Some n =>
      acquire_ticks;;
      t ← gets ticks;
      sys_sleep_loop n t
  end.

Definition sys_uptime : M kern sysres :=
  acquire_ticks;;
  t ← gets ticks;
  release_ticks;;
  mret (SysRet (s32 t)).

(** ** sysfile.c *)

(** [argfd]: the descriptor and the file. *)
Definition argfd (n : Z) : M kern (option (nat * nat)) :=
  r ← argint n;
  match r with
  | None => mret None
  | Some fd =>
      if (fd <? 0) || (Z.of_nat NOFILE <=? fd) then mret None
      else
        p ← myproc;
        match ofile p !! Z.to_nat fd with
        | Some (Some f) => mret (Some (Z.to_nat fd, f))
        | _ => mret None
        end
  end.

Fixpoint free_fd (l : list (option nat)) (fd : nat) : option nat :=
  match l with
  | [] => None
  | None :: _ => Some fd
  | Some _ :: l' => free_fd l' (fd + 1)
  end.

Definition fdalloc (f : nat) : M kern Z :=
  p ← myproc;
  match free_fd (take NOFILE (ofile p)) 0 with
  | Some fd => mine (fun p => set_ofile (<[fd := Some f]> (ofile p)) p);; mret (Z.of_nat fd)
  | None => mret (-1)
  end.

Definition sys_dup : M kern sysres :=
  r ← argfd 0;
  match r with
  | None => mret (SysRet (-1))
  | Some (_, f) =>
      fd ← fdalloc f;
      if fd <? 0 then mret (SysRet (-1))
      else
        on_f (File.filedup f);;
        mret (SysRet fd)
  end.

(** The descriptor, count and buffer of [sys_read] and [sys_write]. *)
Definition rw_args : M kern (option (nat * Z * Z)) :=
  f ← argfd 0;
  match f with
  | None => mret None
  | Some (_, f) =>
      n ← argint 2;
      match n with
      | None => mret None
      | Some n =>
          p ← argptr 1 n;
          mret ((fun p => (f, n, p)) <$> p)
      end
  end.

(** The bytes go to the user buffer as [readi] and [piperead] copy them. *)
Definition sys_read : M kern sysres :=
  a ← rw_args;
  match a with
  | None => mret (SysRet (-1))
  | Some (f, n, p) =>
      q ← myproc;
      r ← on_f (File.fileread dsw (killed q) f n);
      match r with
      | File.RdRet r b => ust p b;; mret (SysRet r)
      | File.RdSleep pp => sleepon (ChPipeRead pp)
      end
  end.

Definition sys_write : M kern sysres :=
  a ← rw_args;
  match a with
  | None => mret (SysRet (-1))
  | Some (f, n, p) =>
      q ← myproc;
      src ← uld p (Z.to_nat n);
      r ← on_f (File.filewrite dsw (killed q) f src n);
      match r with
      | File.WrRet r => mret (SysRet r)
      | File.WrSleep pp _ => sleepon (ChPipeWrite pp)
      end
  end.

Definition sys_close : M kern sysres :=
  r ← argfd 0;
  match r with
  | None => mret (SysRet (-1))
  | Some (fd, f) =>
      mine (fun p => set_ofile (<[fd := None]> (ofile p)) p);;
      on_f (File.fileclose kend f);;
      mret (SysRet 0)
  end.

(** [struct stat] as it lies in memory. *)
Definition sizeof_stat : Z := 20.
Definition stat_bytes (st : stat) : list (Z * bytes) :=
  [(4, le_enc 4 (st_dev st)); (8, le_enc 4 (st_ino st)); (0, le_enc 2 (st_type st));
   (12, le_enc 2 (st_nlink st)); (16, le_enc 4 (st_size st))].

Fixpoint ust_fields (a : Z) (l : list (Z * bytes)) : M kern unit :=
  match l with
  | [] => mret tt
  | (off, b) :: l' => ust (u32 (a + off)) b;; ust_fields a l'
  end.

Definition sys_fstat : M kern sysres :=
  r ← argfd 0;
  match r with
  | None => mret (SysRet (-1))
  | Some (_, f) =>
      a ← argptr 1 sizeof_stat;
      match a with
      | None => mret (SysRet (-1))
      | Some a =>
          r ← on_f (File.filestat f);
          match r with
          | (v, Some st) => ust_fields a (stat_bytes st);; mret (SysRet v)
          | (v, None) => mret (SysRet v)
          end
      end
  end.

(** The current directory, where relative paths start. *)
Definition my_cwd : M kern nat := p ← myproc; safe (cwd p).

Definition namei (path : bytes) : M kern (option nat) :=
  c ← my_cwd; on_fs (Fs.namei dsw c path).
Definition nameiparent (path name : bytes) : M kern (option nat * bytes) :=
  c ← my_cwd; on_fs (Fs.nameiparent dsw c path name).
Definition ilock (i : nat) : M kern unit := on_fs (Fs.ilock (Some i)).
Definition iunlock (i : nat) : M kern unit := on_fs (Fs.iunlock (Some i)).
Definition iunlockput (i : nat) : M kern unit := on_fs (Fs.iunlockput i).
Definition iat (i : nat) : M kern inode := on_fs (Fs.iat i).
Definition iupd (i : nat) (f : inode -> inode) : M kern unit := on_fs (Fs.iupd i f).
Definition iupdate (i : nat) : M kern unit := on_fs (Fs.iupdate i).

(** A [char name[DIRSIZ]] on the stack. *)
Definition name_buf : bytes := replicate (Z.to_nat DIRSIZ) 0.

(** The label [bad] of [sys_link]. *)
Definition sys_link_bad (ip : nat) : M kern sysres :=
  ilock ip;;
  iupd ip (fun i => set_nlink (s16 (nlink i - 1)) i);;
  iupdate ip;;
  iunlockput ip;;
  end_op;;
  mret (SysRet (-1)).

Definition sys_link : M kern sysres :=
  old ← argstr 0;
  match old with
  | None => mret (SysRet (-1))
  | Some old =>
      new ← argstr 1;
      match new with
      | None => mret (SysRet (-1))
      | Some new =>
          begin_op;;
          oldp ← path_at old;
          r ← namei oldp;
          match r with
          | None => end_op;; mret (SysRet (-1))
          | Some ip =>
              ilock ip;;
              i ← iat ip;
              if itype i =? T_DIR then
                iunlockput ip;;
                end_op;;
                mret (SysRet (-1))
              else
                iupd ip (fun i => set_nlink (s16 (nlink i + 1)) i);;
                iupdate ip;;
                iunlock ip;;
                newp ← path_at new;
                '(dp, name) ← nameiparent newp name_buf;
                match dp with
                | None => sys_link_bad ip
                | Some dp =>
                    ilock dp;;
                    d ← iat dp;
                    i ← iat ip;
                    r ← (if negb (idev d =? idev i) then mret (-1)
                         else on_fs (Fs.dirlink dsw dp name (inum i)));
                    if r <? 0 then
                      iunlockput dp;;
                      sys_link_bad ip
                    else
                      iunlockput dp;;
                      on_fs (Fs.iput ip);;
                      end_op;;
                      mret (SysRet 0)
                end
          end
      end
  end.

Fixpoint isdirempty_loop (dp : nat) (off : Z) (fuel : nat) : M kern bool :=
  d ← iat dp;
  if off <? isize d then
    match fuel with
    | O => nofuel
    | Datatypes.S k =>
        r ← on_fs (Fs.readi dsw dp off DIRENT_SIZE);
        if negb (r.1 =? DIRENT_SIZE) then panic "isdirempty: readi"
        else if negb (de_inum (decode_dirent r.2) =? 0) then mret false
        else isdirempty_loop dp (off + DIRENT_SIZE) k
    end
  else mret true.

Definition isdirempty (dp : nat) : M kern bool :=
  d ← iat dp;
  isdirempty_loop dp (2 * DIRENT_SIZE) (Z.to_nat (isize d / DIRENT_SIZE) + 1).

Definition DOT : bytes := [46; 0].
Definition DOTDOT : bytes := [46; 46; 0].

(** The label [bad] of [sys_unlink]. *)
Definition sys_unlink_bad (dp : nat) : M kern sysres :=
  iunlockput dp;;
  end_op;;
  mret (SysRet (-1)).

(** [sys_unlink] once the entry for [ip] at [off] of [dp] is found. *)
Definition unlink_found (dp ip : nat) (off : Z) : M kern sysres :=
  ilock ip;;
  i ← iat ip;
  if nlink i <? 1 then panic "unlink: nlink < 1"
  else
    emp ← (if itype i =? T_DIR then isdirempty ip else mret true);
    if negb emp then
      iunlockput ip;;
      sys_unlink_bad dp
    else
      w ← on_fs (Fs.writei dsw dp (replicate 16 0) off DIRENT_SIZE);
      if negb (w =? DIRENT_SIZE) then panic "unlink: writei"
      else
        i ← iat ip;
        when (itype i =? T_DIR) (
          iupd dp (fun d => set_nlink (s16 (nlink d - 1)) d);;
          iupdate dp);;
        iunlockput dp;;
        iupd ip (fun i => set_nlink (s16 (nlink i - 1)) i);;
        iupdate ip;;
        iunlockput ip;;
        end_op;;
        mret (SysRet 0).

Definition sys_unlink : M kern sysres :=
  a ← argstr 0;
  match a with
  | None => mret (SysRet (-1))
  | Some a =>
      begin_op;;
      path ← path_at a;
      '(dp, name) ← nameiparent path name_buf;
      match dp with
      | None => end_op;; mret (SysRet (-1))
      | Some dp =>
          ilock dp;;
          c1 ← safe (Fs.namecmp name DOT);
          c2 ← (if c1 =? 0 then mret 0 else safe (Fs.namecmp name DOTDOT));
          if (c1 =? 0) || (c2 =? 0) then sys_unlink_bad dp
          else
            r ← on_fs (Fs.dirlookup dsw dp name);
            match r with
            | None => sys_unlink_bad dp
            | Some (ip, off) => unlink_found dp ip off
            end
      end
  end.

(** [create] when the name is new in directory [dp]. *)
Definition create_new (dp : nat) (name : bytes) (type mj mn : Z) : M kern (option nat) :=
  d ← iat dp;
  ip ← on_fs (Fs.ialloc (idev d) type);
  ilock ip;;
  iupd ip (set_devno mj mn);;
  iupd ip (set_nlink 1);;
  iupdate ip;;
  i ← iat ip;
  when (type =? T_DIR) (
    iupd dp (fun d => set_nlink (s16 (nlink d + 1)) d);;
    iupdate dp;;
    r ← on_fs (Fs.dirlink dsw ip DOT (inum i));
    d ← iat dp;
    r' ← (if r <? 0 then mret (-1) else on_fs (Fs.dirlink dsw ip DOTDOT (inum d)));
    when (r' <? 0) (panic "create dots"));;
  r ← on_fs (Fs.dirlink dsw dp name (inum i));
  if r <? 0 then panic "create: dirlink"
  else
    iunlockput dp;;
    mret (Some ip).

Definition create (path : bytes) (type mj mn : Z) : M kern (option nat) :=
  '(dp, name) ← nameiparent path name_buf;
  match dp with
  | None => mret None
  | Some dp =>
      ilock dp;;
      r ← on_fs (Fs.dirlookup dsw dp name);
      match r with
      | Some (ip, _) =>
          iunlockput dp;;
          ilock ip;;
          i ← iat ip;
          if (type =? T_FILE) && (itype i =? T_FILE) then mret (Some ip)
          else iunlockput ip;; mret None
      | None => create_new dp name type mj mn
      end
  end.

(** The inode [sys_open] opens, locked. *)
Definition open_inode (path : bytes) (omode : Z) : M kern (option nat) :=
  if truthy (omode .& O_CREATE) then create path T_FILE 0 0
  else
    r ← namei path;
    match r with
    | None => mret None
    | Some ip =>
        ilock ip;;
        i ← iat ip;
        if (itype i =? T_DIR) && negb (omode =? O_RDONLY) then iunlockput ip;; mret None
        else mret (Some ip)
    end.

Definition open_file (ip : nat) (omode : Z) (f : file) : file :=
  MkFile FD_INODE (f_ref f) (negb (truthy (omode .& O_WRONLY)))
    (truthy (omode .& O_WRONLY) || truthy (omode .& O_RDWR)) (f_pipe f) ip 0.

Definition sys_open : M kern sysres :=
  a ← argstr 0;
  match a with
  | None => mret (SysRet (-1))
  | Some a =>
      m ← argint 1;
      match m with
      | None => mret (SysRet (-1))
      | Some omode =>
          begin_op;;
          path ← path_at a;
          r ← open_inode path omode;
          match r with
          | None => end_op;; mret (SysRet (-1))
          | Some ip =>
              f ← on_f File.filealloc;
              fd ← (match f with Some f => fdalloc f | None => mret (-1) end);
              if fd <? 0 then
                match f with Some f => on_f (File.fileclose kend f) | None => mret tt end;;
                iunlockput ip;;
                end_op;;
                mret (SysRet (-1))
              else
                iunlock ip;;
                end_op;;
                match f with Some f => on_f (File.fupd f (open_file ip omode)) | None => mret tt end;;
                mret (SysRet fd)
          end
      end
  end.

(** The end of [sys_mkdir] and [sys_mknod]. *)
Definition made (r : option nat) : M kern sysres :=
  match r with
  | None => end_op;; mret (SysRet (-1))
  | Some ip => iunlockput ip;; end_op;; mret (SysRet 0)
  end.

Definition sys_mkdir : M kern sysres :=
  begin_op;;
  a ← argstr 0;
  match a with
  | None => made None
  | Some a =>
      path ← path_at a;
      r ← create path T_DIR 0 0;
      made r
  end.

Definition sys_mknod : M kern sysres :=
  begin_op;;
  a ← argstr 0;
  mj ← (match a with Some _ => argint 1 | None => mret None end);
  mn ← (match mj with Some _ => argint 2 | None => mret None end);
  match a, mj, mn with
  | Some a, Some mj, Some mn =>
      path ← path_at a;
      r ← create path T_DEV (s16 mj) (s16 mn);
      made r
  | _, _, _ => made None
  end.

Definition sys_chdir : M kern sysres :=
  begin_op;;
  a ← argstr 0;
  match a with
  | None => end_op;; mret (SysRet (-1))
  | Some a =>
      path ← path_at a;
      r ← namei path;
      match r with
      | None => end_op;; mret (SysRet (-1))
      | Some ip =>
          ilock ip;;
          i ← iat ip;
          if negb (itype i =? T_DIR) then
            iunlockput ip;;
            end_op;;
            mret (SysRet (-1))
          else
            iunlock ip;;
            c ← my_cwd;
            on_fs (Fs.iput c);;
            end_op;;
            mine (set_cwd (Some ip));;
            mret (SysRet 0)
      end
  end.

Definition sys_pipe : M kern sysres :=
  a ← argptr 0 8;
  match a with
  | None => mret (SysRet (-1))
  | Some fd =>
      r ← on_f (File.pipealloc kend);
      match r with
      | None => mret (SysRet (-1))
      | Some (rf, wf) =>
          fd0 ← fdalloc rf;
          fd1 ← (if fd0 <? 0 then mret (-1) else fdalloc wf);
          if fd1 <? 0 then
            when (0 <=? fd0) (mine (fun p => set_ofile (<[Z.to_nat fd0 := None]> (ofile p)) p));;
            on_f (File.fileclose kend rf);;
            on_f (File.fileclose kend wf);;
            mret (SysRet (-1))
          else
            ust fd (le_enc 4 fd0);;
            ust (u32 (fd + 4)) (le_enc 4 fd1);;
            mret (SysRet 0)
      end
  end.

(** ** exec.c *)

Definition ELF_MAGIC : Z := 0x464C457F.
Definition ELF_PROG_LOAD : Z := 1.

(** The fields of [struct elfhdr] and [struct proghdr] that exec uses. *)
Record elfhdr := MkElf { e_magic : Z; e_entry : Z; e_phoff : Z; e_phnum : Z }.
Definition sizeof_elf : Z := 52.
Definition decode_elf (b : bytes) : elfhdr :=
  MkElf (word 0 b) (word 24 b) (word 28 b) (half 44 b).

Record proghdr := MkPh { ph_type : Z; ph_off : Z; ph_vaddr : Z; ph_filesz : Z; ph_memsz : Z }.
Definition sizeof_ph : Z := 32.
Definition decode_ph (b : bytes) : proghdr :=
  MkPh (word 0 b) (word 4 b) (word 8 b) (word 16 b) (word 20 b).

(** [readi(ip, dst, off, n)] into kernel memory. *)
Definition readi_to (ip : nat) (dst off n : Z) : M kern Z :=
  '(r, b) ← on_fs (Fs.readi dsw ip off n);
  on_m (Vm.memmove_in dst b);;
  mret r.

(** The memory of the kernel, for [loaduvm]. *)
Definition kmem (s : kern) : Kalloc.kst := File.fmem (kf s).
Definition set_kmem (x : Kalloc.kst) (s : kern) : kern := set_kf (File.set_fmem x (kf s)) s.

(** The loop over the program headers: the size, or [None] for [goto bad]. *)
Fixpoint load_segs (ip : nat) (pd sz0 off : Z) (n : nat) : M kern (option Z) :=
  match n with
  | O => mret (Some sz0)
  | Datatypes.S k =>
      '(r, b) ← on_fs (Fs.readi dsw ip (u32 off) sizeof_ph);
      if negb (r =? sizeof_ph) then mret None
      else
        let ph := decode_ph b in
        let off := s32 (off + sizeof_ph) in
        if negb (ph_type ph =? ELF_PROG_LOAD) then load_segs ip pd sz0 off k
        else if ph_memsz ph <? ph_filesz ph then mret None
        else
          sz1 ← on_m (Vm.allocuvm kend pd sz0 (u32 (ph_vaddr ph + ph_memsz ph)));
          if sz1 =? 0 then mret None
          else
            r ← Vm.loaduvm kmem set_kmem (readi_to ip) pd (ph_vaddr ph) (ph_off ph) (ph_filesz ph);
            if r <? 0 then mret None else load_segs ip pd sz1 off k
  end.

(** The label [bad]: [pd] is 0 before there is a page table, [ip] is [None]
    once the inode is given back. *)
Definition exec_bad (pd : Z) (ip : option nat) : M kern Z :=
  when (negb (pd =? 0)) (on_m (Vm.freevm kend pd));;
  match ip with
  | Some ip => iunlockput ip;; end_op
  | None => mret tt
  end;;
  mret (-1).

(** Push the strings of [argv], giving the stack pointer and the part of
    [ustack] they fill. *)
Fixpoint push_args (pd sp : Z) (argv : list Z) (argc : Z) (acc : list Z) : M kern (option (Z * list Z)) :=
  match argv with
  | [] => mret (Some (sp, acc))
  | a :: argv' =>
      if Z.of_nat MAXARG <=? argc then mret None
      else
        p ← myproc;
        b ← ustr a (Z.to_nat (sz p - a));
        let len := Z.of_nat (length b) in
        let sp := u32 (sp - len) .& 0xFFFFFFFC in
        r ← on_m (Vm.copyout pd sp b len);
        if r <? 0 then mret None
        else push_args pd sp argv' (argc + 1) (acc ++ [sp])
  end.

(** The part of [path] after the last slash. *)
Fixpoint last_elem (last s : bytes) : bytes :=
  match s with
  | [] => last
  | c :: s' => if c =? 0 then last else last_elem (if c =? Fs.SLASH then s' else last) s'
  end.

(** The user image is complete: make it the process's own.  [switchuvm] only
    loads the registers of this CPU. *)
Definition exec_commit (pd sz0 entry sp : Z) (path : bytes) : M kern Z :=
  p ← myproc;
  nm ← safe (Str.safestrcpy (name p) (last_elem path path) 16);
  mine (set_name nm);;
  mine (set_pgdir pd);;
  mine (set_sz sz0);;
  set_tf_word TF_EIP entry;;
  set_tf_word TF_ESP sp;;
  on_m (Vm.freevm kend (pgdir p));;
  mret 0.

(** The stack: two pages above the program, the first out of reach. *)
Definition exec_stack (pd sz0 entry : Z) (path : bytes) (argv : list Z) : M kern Z :=
  let sz0 := PGROUNDUP sz0 in
  sz1 ← on_m (Vm.allocuvm kend pd sz0 (u32 (sz0 + 2 * PGSIZE)));
  if sz1 =? 0 then exec_bad pd None
  else
    on_m (Vm.clearpteu pd (u32 (sz1 - 2 * PGSIZE)));;
    r ← push_args pd sz1 argv 0 [];
    match r with
    | None => exec_bad pd None
    | Some (sp, args) =>
        let argc := Z.of_nat (length args) in
        let ustack := [0xffffffff; argc; u32 (sp - (argc + 1) * 4)] ++ args ++ [0] in
        let sp := u32 (sp - (3 + argc + 1) * 4) in
        r ← on_m (Vm.copyout pd sp (mjoin (le_enc 4 <$> ustack)) ((3 + argc + 1) * 4));
        if r <? 0 then exec_bad pd None else exec_commit pd sz1 entry sp path
    end.

(** [exec]; [junk] is what the stack holds where [elf] will be, and the test of
    the size read compares unsigned numbers. *)
Definition exec (junk path : bytes) (argv : list Z) : M kern Z :=
  begin_op;;
  r ← namei path;
  match r with
  | None => end_op;; mret (-1)
  | Some ip =>
      ilock ip;;
      '(r, b) ← on_fs (Fs.readi dsw ip 0 sizeof_elf);
      let elf := decode_elf (splice 0 b junk) in
      if u32 r <? sizeof_elf then exec_bad 0 (Some ip)
      else if negb (e_magic elf =? ELF_MAGIC) then exec_bad 0 (Some ip)
      else
        pd ← on_m (Vm.setupkvm kdata);
        if pd =? 0 then exec_bad 0 (Some ip)
        else
          r ← load_segs ip pd 0 (s32 (e_phoff elf)) (Z.to_nat (e_phnum elf));
          match r with
          | None => exec_bad pd (Some ip)
          | Some sz0 =>
              iunlockput ip;;
              end_op;;
              exec_stack pd sz0 (e_entry elf) path argv
          end
  end.

(** The loop of [sys_exec] that fetches [argv]; [None] for its returns of -1. *)
Fixpoint fetch_argv (uargv i : Z) (n : nat) (acc : list Z) : M kern (option (list Z)) :=
  match n with
  | O => mret None
  | Datatypes.S k =>
      r ← fetchint (u32 (uargv + 4 * i));
      match r with
      | None => mret None
      | Some a =>
          let uarg := u32 a in
          if uarg =? 0 then mret (Some acc)
          else
            l ← fetchstr uarg;
            match l with
            | None => mret None
            | Some _ => fetch_argv uargv (i + 1) k (acc ++ [uarg])
            end
      end
  end.

Definition sys_exec (junk : bytes) : M kern sysres :=
  a ← argstr 0;
  match a with
  | None => mret (SysRet (-1))
  | Some a =>
      u ← argint 1;
      match u with
      | None => mret (SysRet (-1))
      | Some uargv =>
          r ← fetch_argv (u32 uargv) 0 MAXARG [];
          match r with
          | None => mret (SysRet (-1))
          | Some argv =>
              path ← path_at a;
              r ← exec junk path argv;
              mret (SysRet r)
          end
      end
  end.

(** ** syscall.c: dispatch *)

(** [syscalls]; slot 0 is empty. *)
Definition syscalls (junk : bytes) : list (option (M kern sysres)) :=
  [ None;
    Some sys_fork; Some sys_exit; Some sys_wait; Some sys_pipe; Some sys_read; Some sys_kill;
    Some (sys_exec junk); Some sys_fstat; Some sys_chdir; Some sys_dup; Some sys_getpid; Some sys_sbrk;
    Some sys_sleep; Some sys_uptime; Some sys_open; Some sys_write; Some sys_mknod; Some sys_unlink;
    Some sys_link; Some sys_mkdir; Some sys_close; Some sys_getpcount ].

(** [syscall]: [true] when it comes back.  The message for an unknown number is
    left out. *)
Definition syscall (junk : bytes) : M kern bool :=
  eax ← tf_word TF_EAX;
  let num := s32 eax in
  match (if (0 <? num) && (num <? Z.of_nat (length (syscalls junk)))
         then nth (Z.to_nat num) (syscalls junk) None else None) with
  | Some f =>
      r ← f;
      match r with
      | SysRet v => set_tf_word TF_EAX (u32 v);; mret true
      | SysSwitch => mret false
      end
  | None => set_tf_word TF_EAX (u32 (-1));; mret true
  end.

(** ** trap.c *)

Definition T_SYSCALL : Z := 64.

(** The interrupt handlers of the devices. *)
Record handlers := MkHandlers { ideintr : M kern unit; kbdintr : M kern unit; uartintr : M kern unit }.

(** Does the current process, if any, exit: it was killed and the trap came
    from user space? *)
Definition must_exit (cs : Z) : M kern bool :=
  c ← on_p (gets Proc.curproc);
  match c with
  | None => mret false
  | Some i => p ← on_p (Proc.pat i); mret (killed p && (cs .& 3 =? Seg.DPL_USER))
  end.

(** The cases of [trap]'s switch.  The acknowledgements to the interrupt
    controller and the messages are left out. *)
Definition trap_switch (h : handlers) (cpu_id trapno cs : Z) : M kern unit :=
  if trapno =? T_IRQ0 + IRQ_TIMER then
    when (cpu_id =? 0) (
      acquire_ticks;;
      modify (fun s => set_ticks (u32 (ticks s + 1)) s);;
      on_p (Proc.wakeup ChTicks);;
      release_ticks)
  else if trapno =? T_IRQ0 + IRQ_IDE then ideintr h
  else if trapno =? T_IRQ0 + IRQ_IDE + 1 then mret tt
  else if trapno =? T_IRQ0 + IRQ_KBD then kbdintr h
  else if trapno =? T_IRQ0 + IRQ_COM1 then uartintr h
  else if (trapno =? T_IRQ0 + 7) || (trapno =? T_IRQ0 + IRQ_SPURIOUS) then mret tt
  else
    c ← on_p (gets Proc.curproc);
    match c with
    | None => panic "trap"
    | Some i =>
        if cs .& 3 =? 0 then panic "trap"
        else on_p (Proc.pupd i (set_killed true))
    end.

(** How a trap ends: back to where it came from, or in the scheduler, with a
    process that exited or that yields and will come back to [trap_tail]. *)
Inductive trapres := TrapRet | TrapExit | TrapYield | TrapSwitch.

Definition trap_tail (cs : Z) : M kern trapres :=
  x ← must_exit cs;
  if (x : bool) then exit;; mret TrapExit else mret TrapRet.

Definition trap (h : handlers) (junk : bytes) (cpu_id tfp trapno cs : Z) : M kern trapres :=
  if trapno =? T_SYSCALL then
    p ← myproc;
    if killed p then exit;; mret TrapExit
    else
      mine (set_tf tfp);;
      r ← syscall junk;
      if negb r then mret TrapSwitch
      else
        p ← myproc;
        if killed p then exit;; mret TrapExit else mret TrapRet
  else
    trap_switch h cpu_id trapno cs;;
    x ← must_exit cs;
    if (x : bool) then exit;; mret TrapExit
    else
      c ← on_p (gets Proc.curproc);
      y ← (match c with
           | Some i => p ← on_p (Proc.pat i); mret (bool_decide (state p = RUNNING) && (trapno =? T_IRQ0 + IRQ_TIMER))
           | None => mret false
           end);
      if (y : bool) then on_p Proc.yield_out;; mret TrapYield
      else trap_tail cs.

End kern.
End Kern.
