(* ===== verification/KernRun.v ===== *)
(** * Running the kernel

    How an operation of one component runs on the state of the whole kernel. *)

From S2P Require Import Prelude Memory Layout Cstring Spinlock Kalloc Vm Proc ProcSpec ProcSmp Pipe Block Log Fs File Kern.

Lemma zoom_ok {S T A} (get : S -> T) (set : T -> S -> S) (m : M T A) s a t : m (get s) = Ok a t -> zoom get set m s = Ok a (set t s).
Proof. intros H. unfold zoom. by rewrite H. Qed.

Section run.
Context {S : Type} `{D : BlockDev S}.
#[local] Abbreviation kern := (Kern.kern (S := S)).

Definition kmem (s : kern) : mem := Kalloc.kmem_mem (File.fmem (Kern.kf s)).

(** ** Reading the state *)

Lemma on_p_read {A} (m : M Proc.ptable A) (s : kern) a : m (Kern.kp s) = Ok a (Kern.kp s) -> Kern.on_p m s = Ok a s.
Proof. intros H. unfold Kern.on_p. rewrite (zoom_ok _ _ _ _ _ _ H). by destruct s. Qed.

Lemma on_m_read {A} (m : M Kalloc.kst A) (s : kern) a :
  m (File.fmem (Kern.kf s)) = Ok a (File.fmem (Kern.kf s)) -> Kern.on_m m s = Ok a s.
Proof.
  intros H. unfold Kern.on_m, Kern.on_f, File.on_mem. erewrite zoom_ok; [|by apply zoom_ok]. by destruct s as [? []].
Qed.

Lemma me_run (s : kern) i : Proc.curproc (Kern.kp s) = Some i -> Kern.me s = Ok i s.
Proof. intros H. apply on_p_read. unfold Proc.cur. erewrite bind_ok_l by done. cbv beta. by rewrite H. Qed.

Lemma myproc_run (s : kern) i : Proc.curproc (Kern.kp s) = Some i -> Kern.myproc s = Ok (Proc.procs (Kern.kp s) !!! i) s.
Proof. intros H. unfold Kern.myproc. rewrite (bind_ok_l _ _ _ _ _ (me_run s i H)). by apply on_p_read. Qed.

(** ** The parts of the state *)

(** The state [s] with process table [P], memory [K], file table [ft] and file
    system [X], the lock of the file table free. *)
Definition upd (s : kern) (P : Proc.ptable) (K : Kalloc.kst) (ft : nat -> file) (X : Fs.fs S) : kern :=
  Kern.MkKern P (File.MkFstate ft false (File.pipes (Kern.kf s)) X K) (Kern.ticks s) (Kern.tickslock s) (Kern.first s).

Lemma upd_self (s : kern) : File.ftlock (Kern.kf s) = false ->
  s = upd s (Kern.kp s) (File.fmem (Kern.kf s)) (File.ftab (Kern.kf s)) (File.ffs (Kern.kf s)).
Proof. destruct s as [P [ft lk pp X K] ? ? ?]. cbn. by intros ->. Qed.

Context (s : kern).

Lemma run_p {A} (m : M Proc.ptable A) P K ft X a P' : m P = Ok a P' -> Kern.on_p m (upd s P K ft X) = Ok a (upd s P' K ft X).
Proof. intros H. unfold Kern.on_p. by erewrite zoom_ok by exact H. Qed.

Lemma run_m {A} (m : M Kalloc.kst A) P K ft X a K' : m K = Ok a K' -> Kern.on_m m (upd s P K ft X) = Ok a (upd s P K' ft X).
Proof. intros H. unfold Kern.on_m, Kern.on_f, File.on_mem. erewrite zoom_ok; [|apply zoom_ok; exact H]. done. Qed.

Lemma run_fs {A} (m : M (Fs.fs S) A) P K ft X a X' : m X = Ok a X' -> Kern.on_fs m (upd s P K ft X) = Ok a (upd s P K ft X').
Proof. intros H. unfold Kern.on_fs, Kern.on_f, File.on_fs. erewrite zoom_ok; [|apply zoom_ok; exact H]. done. Qed.

(** A new reference to an open file, and to an inode. *)
Definition ref_file (ft : nat -> file) (f : nat) : nat -> file := <[f := File.set_ref (f_ref (ft f) + 1) (ft f)]> ft.
Definition ref_inode (X : Fs.fs S) (c : nat) : Fs.fs S :=
  Fs.MkFs (Fs.fl X) (Fs.sb X) false (<[c := set_ref (ref (Fs.icache X c) + 1) (Fs.icache X c)]> (Fs.icache X)) (Fs.iwoken X).

Lemma run_filedup P K ft X f : 1 <= f_ref (ft f) -> Kern.on_f (File.filedup f) (upd s P K ft X) = Ok f (upd s P K (ref_file ft f) X).
Proof.
  intros H. unfold Kern.on_f. erewrite zoom_ok; [|unfold File.filedup, File.acquire, Seq.acquire, mbind, M_bind, File.fat, gets; cbn; rewrite (proj2 (Z.ltb_ge _ _) H); cbn; reflexivity].
  done.
Qed.

Lemma run_idup P K ft X c : Fs.ilck X = false -> Kern.on_fs (Fs.idup c) (upd s P K ft X) = Ok c (upd s P K ft (ref_inode X c)).
Proof. intros H. apply run_fs. unfold Fs.idup, Fs.acquire, Seq.acquire, mbind, M_bind. rewrite H. done. Qed.

(** How often a descriptor table names the file [f]. *)
Definition nrefs (f : nat) (l : list (option nat)) : Z := Z.of_nat (length (filter (fun o => o = Some f) l)).

Lemma nrefs_cons f o l : nrefs f (o :: l) = (if decide (o = Some f) then 1 else 0) + nrefs f l.
Proof. unfold nrefs. rewrite filter_cons. case_decide; cbn [length]; lia. Qed.

(** The file table with a reference for each descriptor of [l] more. *)
Definition refs_added (l : list (option nat)) (ft ft' : nat -> file) : Prop := forall f, ft' f = File.set_ref (f_ref (ft f) + nrefs f l) (ft f).

Lemma set_ref_id (f : file) : File.set_ref (f_ref f) f = f.
Proof. by destruct f. Qed.
End run.
