(* ===== verification/KernArg.v ===== *)
(** * System call arguments

    [fetchint], [fetchstr], [argint], [argptr] and [argstr] on the memory of the
    current process: they never fault, and what they accept lies inside of the
    process. *)

From S2P Require Import Prelude Memory Layout Cstring Spinlock Kalloc Vm VmSpec Uvm UvmSpec Proc Pipe Block Log Fs FsSpec File Kern KernRun.

Section args.
Context {S : Type} `{D : BlockDev S}.
Context (kend kdata : Z).
Context (Hkend : KERNLINK < kend) (Hkdata : kdata mod PGSIZE = 0 /\ KERNLINK < kdata < KERNBASE + PHYSTOP).
#[local] Abbreviation kern := (Kern.kern (S := S)).

(** The current process is [p], with the user memory [pgs]. *)
Record cur_space (s : kern) (p : proc) (tabs : gmap Z Z) (pgs : pages) : Prop := MkCurSpace {
  cs_cur : exists i, Proc.curproc (Kern.kp s) = Some i /\ Proc.procs (Kern.kp s) !!! i = p;
  cs_asp : asp kend kdata (kmem s) (pgdir p) tabs pgs;
  cs_sized : sized pgs (sz p);
  cs_size : 0 <= sz p <= KERNBASE;
  cs_wf : mem_wf (kmem s)
}.

Lemma cur_run s p tabs pgs : cur_space s p tabs pgs -> Kern.myproc s = Ok p s.
Proof. intros [(i & Hi & <-) _ _ _ _]. by apply myproc_run. Qed.

(** ** User memory *)

Lemma PDX_page va : 0 <= va < 2 ^ 32 -> PDX (va - va mod PGSIZE) = PDX va /\ PTX (va - va mod PGSIZE) = PTX va.
Proof.
  intros Hva. pose proof (Z.mod_pos_bound va PGSIZE ltac:(done)) as Hm. pose proof (Z.mod_le va PGSIZE ltac:(lia) ltac:(done)) as Hl.
  rewrite !PDX_spec, !PTX_spec by lia. unfold PGSIZE in *. pose proof (Z.div_mod va 4096 ltac:(lia)) as E.
  assert ((va - va mod 4096) / 2 ^ 12 = va / 2 ^ 12) as E1.
  { change (2 ^ 12) with 4096. replace (va - va mod 4096) with (va / 4096 * 4096) by lia. apply Z.div_mul. lia. }
  split; [|by rewrite E1]. change (2 ^ 22) with (2 ^ 12 * 2 ^ 10). rewrite <- !Z.div_div by lia. by rewrite E1.
Qed.

Lemma uld8_run s p tabs pgs va : cur_space s p tabs pgs -> 0 <= va < sz p -> exists c, Kern.uld8 va s = Ok c s /\ ubyte (kmem s) pgs va = Some c /\ 0 <= c < 256.
Proof.
  intros Hc Hva. pose proof (cur_run _ _ _ _ Hc) as Hp. destruct Hc as [_ Ha Hs Hk Hw].
  destruct (page_of va) as [Hm Hr]. pose proof (Z.mod_pos_bound va PGSIZE ltac:(done)) as Hmp. pose proof (Z.mod_le va PGSIZE ltac:(lia) ltac:(done)) as Hml.
  destruct (proj2 (Hs _ Hm)) as [[q f] Hq]; [lia|]. destruct (PDX_page va) as [Ed Et]; [unfold KERNBASE in *; lia|].
  destruct (walk_user kend kdata Hkend (File.fmem (Kern.kf s)) (pgdir p) tabs pgs _ q f Ha Hq) as (t & _ & Ew & Hz & Er).
  destruct (as_some _ _ _ _ _ _ Ha _ q f Hq) as (_ & _ & B3 & B4 & B5 & _). destruct (page_pa kend Hkend q f B3 B4) as (P1 & _ & P3). destruct (v2p_page kend q B3) as (_ & Hqm & Hqr & _).
  exists (rd8 (kmem s) (q + va mod PGSIZE)). split; [|split; [unfold ubyte; by rewrite Hq|by apply rd8_range]].
  unfold Kern.uld8. erewrite bind_ok_l; [by apply on_m_read|]. unfold Kern.uaddr. rewrite (bind_ok_l _ _ _ _ _ Hp).
  erewrite bind_ok_l; [|apply on_m_read; unfold Vm.walkpgdir in *; by rewrite Ed, Et in Ew]. rewrite Et in Hz, Er. rewrite (proj2 (Z.eqb_neq _ _) Hz).
  erewrite bind_ok_l; [|by apply on_m_read]. cbv beta. rewrite Er, land_add_flags, B5, P1, P3 by (done || unfold PTE_P, PGSIZE; lia). done.
Qed.

(** The [n] bytes at [va]. *)
Definition ubytes (m : mem) (pgs : pages) (va : Z) (l : bytes) : Prop := forall i, (i < length l)%nat -> ubyte m pgs (va + Z.of_nat i) = l !! i.

Lemma uld_run s p tabs pgs n : cur_space s p tabs pgs -> forall va, 0 <= va -> va + Z.of_nat n <= sz p ->
  exists l, Kern.uld va n s = Ok l s /\ length l = n /\ ubytes (kmem s) pgs va l /\ bytes_wf l.
Proof.
  intros Hc. induction n as [|n IH]; intros va Hva Hn; cbn [Kern.uld]; [exists []; split_and!; try done; [intros i Hi; cbn in Hi; lia|constructor]|].
  destruct (uld8_run s p tabs pgs va Hc) as (c & E & Hb & Hr); [lia|]. pose proof (cs_size _ _ _ _ Hc). destruct (IH (va + 1)) as (l & El & Hl & Hbl & Hw); [lia|lia|].
  exists (c :: l). rewrite (bind_ok_l _ _ _ _ _ E), u32_small by (unfold KERNBASE in *; lia). rewrite (bind_ok_l _ _ _ _ _ El). split_and!; [done|cbn; lia| |by constructor].
  intros [|i] Hi; [cbn; by rewrite Z.add_0_r|]. cbn in Hi |- *. rewrite <- Hbl by lia. f_equal. lia.
Qed.

(** ** fetchint and fetchstr *)

Lemma fetchint_run s p tabs pgs addr : cur_space s p tabs pgs -> 0 <= addr < 2 ^ 32 ->
  (addr + 4 <= sz p -> exists l, length l = 4%nat /\ ubytes (kmem s) pgs addr l /\ bytes_wf l /\ Kern.fetchint addr s = Ok (Some (s32 (le_val l))) s) /\
  (sz p < addr + 4 -> Kern.fetchint addr s = Ok None s).
Proof.
  intros Hc Ha. pose proof (cur_run _ _ _ _ Hc) as Hp. pose proof (cs_size _ _ _ _ Hc) as Hk. unfold Kern.fetchint. rewrite (bind_ok_l _ _ _ _ _ Hp). split.
  - intros Hs. destruct (uld_run s p tabs pgs 4 Hc addr) as (l & E & Hl & Hb & Hw); [lia|lia|]. exists l. split; [done|]. split; [done|]. split; [done|].
    rewrite u32_small by (unfold KERNBASE in *; lia). rewrite (proj2 (Z.leb_gt _ _)), (proj2 (Z.ltb_ge _ _)) by lia. cbn [orb]. by rewrite (bind_ok_l _ _ _ _ _ E).
  - intros Hs. destruct (Z.leb_spec (sz p) addr); [done|]. rewrite u32_small by (unfold KERNBASE in *; lia). by rewrite (proj2 (Z.ltb_lt _ _)) by lia.
Qed.

(** The string at [addr] ends after [l] bytes, before the end of the process. *)
Definition ustring (m : mem) (pgs : pages) (sz addr l : Z) : Prop :=
  0 <= l /\ addr + l < sz /\ ubyte m pgs (addr + l) = Some 0 /\ forall j, 0 <= j < l -> exists c, ubyte m pgs (addr + j) = Some c /\ c <> 0.

Lemma fetchstr_loop_run s p tabs pgs addr fuel : cur_space s p tabs pgs -> 0 <= addr -> forall a, addr <= a <= sz p -> sz p - a <= Z.of_nat fuel ->
  (forall j, 0 <= j < a - addr -> exists c, ubyte (kmem s) pgs (addr + j) = Some c /\ c <> 0) ->
  exists r, Kern.fetchstr_loop a (sz p) fuel s = Ok r s /\
    match r with
    | Some e => ustring (kmem s) pgs (sz p) addr (e - addr)
    | None => forall j, 0 <= j < sz p - addr -> exists c, ubyte (kmem s) pgs (addr + j) = Some c /\ c <> 0
    end.
Proof.
  intros Hc Haddr. induction fuel as [|fuel IH]; intros a Ha Hf Hb; cbn [Kern.fetchstr_loop].
  all: destruct (Z.ltb_spec a (sz p)) as [Hlt|Hge]; [|exists None; split; [done|]; assert (a = sz p) as -> by lia; exact Hb].
  { lia. }
  destruct (uld8_run s p tabs pgs a Hc) as (c & E & Hu & _); [lia|]. rewrite (bind_ok_l _ _ _ _ _ E). destruct (Z.eqb_spec c 0) as [->|Hne].
  - exists (Some a). split; [done|]. replace (addr + (a - addr)) with a in * by lia. split; [lia|]. replace (addr + (a - addr)) with a by lia. split; [lia|]. split; [done|exact Hb].
  - apply IH; [lia|lia|]. intros j Hj. destruct (decide (j = a - addr)) as [->|]; [|apply Hb; lia]. exists c. split; [|done]. rewrite <- Hu. f_equal. lia.
Qed.

Lemma fetchstr_run s p tabs pgs addr : cur_space s p tabs pgs -> 0 <= addr ->
  exists r, Kern.fetchstr addr s = Ok r s /\
    match r with
    | Some l => ustring (kmem s) pgs (sz p) addr l
    | None => forall l, ~ ustring (kmem s) pgs (sz p) addr l
    end.
Proof.
  intros Hc Ha. pose proof (cur_run _ _ _ _ Hc) as Hp. unfold Kern.fetchstr. rewrite (bind_ok_l _ _ _ _ _ Hp).
  destruct (Z.leb_spec (sz p) addr); [exists None; split; [done|]; intros l (? & ? & _); lia|].
  destruct (fetchstr_loop_run s p tabs pgs addr (Z.to_nat (sz p - addr)) Hc Ha addr) as (r & E & Hr); [lia|lia|intros j Hj; lia|].
  rewrite (bind_ok_l _ _ _ _ _ E). eexists. split; [done|]. destruct r as [e|]; cbn; [done|]. intros l (Hl & He & Hz & _).
  destruct (Hr l) as (c & Hc' & Hne); [lia|]. congruence.
Qed.

(** ** Arguments *)

(** The address of argument [n]: a word on the user stack. *)
Definition arg_addr (s : kern) (p : proc) (n : Z) : Z := u32 (rd32 (kmem s) (tf p + Kern.TF_ESP) + 4 + 4 * n).

(** The argument is [v]. *)
Definition arg (s : kern) (p : proc) (pgs : pages) (n v : Z) : Prop :=
  arg_addr s p n + 4 <= sz p /\ exists l, length l = 4%nat /\ ubytes (kmem s) pgs (arg_addr s p n) l /\ bytes_wf l /\ v = s32 (le_val l).

Lemma argint_run s p tabs pgs n : cur_space s p tabs pgs ->
  exists r, Kern.argint n s = Ok r s /\ match r with Some v => arg s p pgs n v | None => sz p < arg_addr s p n + 4 end.
Proof.
  intros Hc. pose proof (cur_run _ _ _ _ Hc) as Hp. unfold Kern.argint, Kern.tf_word.
  erewrite bind_ok_l; [|rewrite (bind_ok_l _ _ _ _ _ Hp); by apply on_m_read]. fold (kmem s). fold (arg_addr s p n). assert (0 <= arg_addr s p n < 2 ^ 32) as Ha by (apply Z.mod_pos_bound; lia).
  destruct (fetchint_run s p tabs pgs _ Hc Ha) as [H1 H2]. destruct (Z.le_gt_cases (arg_addr s p n + 4) (sz p)) as [Hle|Hgt].
  - destruct (H1 Hle) as (l & Hl & Hb & Hw & E). eexists. split; [exact E|]. split; [done|]. by exists l.
  - exists None. split; [by apply H2|lia].
Qed.

Lemma arg_fun s p pgs n v v' : arg s p pgs n v -> arg s p pgs n v' -> v = v'.
Proof.
  intros [_ (l & Hl & Hb & _ & ->)] [_ (l' & Hl' & Hb' & _ & ->)]. do 2 f_equal. apply list_eq. intros i. destruct (decide (i < 4)%nat).
  - rewrite <- Hb, <- Hb' by lia. done.
  - rewrite !lookup_ge_None_2 by lia. done.
Qed.

(** C19: The kernel fetches system call arguments safely.  On the memory of any
    process [argint], [argptr] and [argstr] neither fault nor change anything.
    [argint] returns the word of the user stack, or -1 when it is not inside of
    the process; a pointer accepted by [argptr] for a size that is not negative
    has all its bytes inside of the process; a string accepted by [argstr] ends
    before the end of the process, and one that does not is refused.  For a
    negative size the check of [argptr] wraps around: it accepts every pointer
    into the process that is at least the size. *)
Theorem argument_bounds s p tabs pgs n size : cur_space s p tabs pgs -> - 2 ^ 31 <= size < 2 ^ 31 ->
  (exists r, Kern.argint n s = Ok r s /\ match r with Some v => arg s p pgs n v | None => sz p < arg_addr s p n + 4 end) /\
  (exists r, Kern.argptr n size s = Ok r s /\
     (0 <= size -> match r with
       | Some a => 0 <= a < sz p /\ a + size <= sz p /\ exists v, arg s p pgs n v /\ a = u32 v
       | None => sz p < arg_addr s p n + 4 \/ exists v, arg s p pgs n v /\ (sz p <= u32 v \/ sz p < u32 v + size)
       end) /\
     (size < 0 -> forall v, arg s p pgs n v -> u32 v < sz p -> - size <= u32 v -> r = Some (u32 v))) /\
  exists r, Kern.argstr n s = Ok r s /\
    match r with
    | Some (l, a) => ustring (kmem s) pgs (sz p) a l /\ exists v, arg s p pgs n v /\ a = u32 v
    | None => sz p < arg_addr s p n + 4 \/ exists v, arg s p pgs n v /\ forall l, ~ ustring (kmem s) pgs (sz p) (u32 v) l
    end.
Proof.
  intros Hc Hsz. pose proof (cur_run _ _ _ _ Hc) as Hp. destruct (argint_run s p tabs pgs n Hc) as (r & E & Hr). pose proof (cs_size _ _ _ _ Hc) as Hk.
  assert (forall v v', arg s p pgs n v -> arg s p pgs n v' -> v = v') as Hfun by apply arg_fun. split; [by exists r|]. split.
  - unfold Kern.argptr. rewrite (bind_ok_l _ _ _ _ _ E). destruct r as [v|]; [|exists None; split; [done|]; split; [by left|]; intros _ v [Hv _]; lia].
    assert (0 <= u32 v < 2 ^ 32) as Hv by (apply Z.mod_pos_bound; lia). rewrite (bind_ok_l _ _ _ _ _ Hp).
    destruct (Z.leb_spec (sz p) (u32 v)) as [Hge|Hlt]; [cbn [orb]; exists None; split; [done|]; split; [intros _; right; exists v; split; [done|by left]|intros _ v' Hv' Hx; rewrite (Hfun v' v) in Hx by done; lia]|].
    cbn [orb]. destruct (Z.lt_ge_cases size 0) as [Hneg|Hpos].
    + exists (if sz p <? u32 (u32 v + size) then None else Some (u32 v)). split; [by case_match|]. split; [lia|]. intros _ v' Hv' Hx Hm. rewrite (Hfun v' v) in * by done.
      rewrite (u32_small (u32 v + size)) by lia. by rewrite (proj2 (Z.ltb_ge _ _)) by lia.
    + rewrite (u32_small (u32 v + size)) by (unfold KERNBASE in *; lia). destruct (Z.ltb_spec (sz p) (u32 v + size)); [exists None|exists (Some (u32 v))]; (split; [done|]; split; [intros _|lia]).
      * right. exists v. split; [done|by right].
      * split; [lia|]. split; [lia|]. by exists v.
  - unfold Kern.argstr. rewrite (bind_ok_l _ _ _ _ _ E). destruct r as [v|]; [|exists None; split; [done|by left]].
    destruct (fetchstr_run s p tabs pgs (u32 v) Hc) as (r & E2 & Hr2); [apply Z.mod_pos_bound; lia|]. rewrite (bind_ok_l _ _ _ _ _ E2). eexists. split; [done|].
    destruct r as [l|]; cbn; [split; [done|by exists v]|right; by exists v].
Qed.
End args.

(** ** A kernel running its first process *)

Module KernEx.
Definition proc (d : Z) : proc := MkProc PGSIZE d 0x80110000 RUNNING 1 None 0x80110fb4 0 None false (replicate NOFILE None) (Some 0%nat) (replicate 16 0).
Definition st (k : Kalloc.kst) (d : Z) : Kern.kern :=
  Kern.MkKern (Proc.MkPt [proc d; proc0] false 2 (Some 0%nat) (Cli.MkCpu 0 true true) (Some 0%nat))
    (File.MkFstate (fun _ => file0) false ∅ FsEx.s k) 0 false true.

Lemma st_space : exists k d tabs pgs, cur_space UvmEx.kend UvmEx.kdata (st k d) (proc d) tabs pgs.
Proof.
  destruct UvmEx.first_space as (k & l & d & tabs & pgs & [Hr Ha _] & Hs & _). exists k, d, tabs, pgs.
  split; [by exists 0%nat|exact Ha|exact Hs|unfold KERNBASE; cbn; unfold PGSIZE; lia|by destruct Hr as (_ & _ & ? & _)].
Qed.
End KernEx.

Lemma argument_bounds_witness : exists k d r, Kern.argptr 0 16 (KernEx.st k d) = Ok r (KernEx.st k d).
Proof.
  destruct KernEx.st_space as (k & d & tabs & pgs & Hc). exists k, d.
  destruct (argument_bounds UvmEx.kend UvmEx.kdata UvmEx.uhkend (KernEx.st k d) (KernEx.proc d) tabs pgs 0 16 Hc) as (_ & (r & E & _) & _); [lia|].
  exists r. exact E.
Defined.
