(* ===== verification/Fork.v ===== *)
(** * fork

    [allocproc] and [fork] on the state of the kernel: what the child gets of
    the parent. *)

From S2P Require Import Prelude Memory Layout Cstring Spinlock Kalloc Vm VmSpec Uvm UvmSpec Proc ProcSpec ProcSmp Pipe Block Log Fs FsSpec File Kern KernRun KernArg.

#[local] Abbreviation kmem := Kalloc.kmem_mem.

(** ** Kernel stacks *)

Section stack.
Context (kend : Z).
#[local] Abbreviation page_ok := (Kalloc.page_ok kend).
#[local] Abbreviation rep := (Kalloc.rep kend).

(** Only page [p] is written, and the free pages [l] stay so. *)
Definition in_page (p : Z) (l : list Z) (K K' : Kalloc.kst) : Prop :=
  outside (kmem K) (kmem K') (fun q => q = p) /\ (rep K l -> rep K' l).

Lemma in_page_trans p l K K1 K2 : in_page p l K K1 -> in_page p l K1 K2 -> in_page p l K K2.
Proof. intros [H1 H2] [H3 H4]. split; [by eapply outside_trans|auto]. Qed.

Lemma in_page_mem p l K m : page_ok p -> p ∉ l -> outside (kmem K) m (fun q => q = p) -> (mem_wf (kmem K) -> mem_wf m) -> in_page p l K (Kalloc.set_mem m K).
Proof.
  intros Hp Hn Ho Hw. split; [done|]. intros Hr. apply (rep_out kend K _ l (fun q => q = p)); try done; [|by intros q ->].
  cbn. apply Hw. by destruct Hr as (_ & _ & ? & _).
Qed.

Lemma in_page_st32 p l K off v : page_ok p -> p ∉ l -> 0 <= off -> off + 4 <= PGSIZE ->
  exists K', Vm.st32 (p + off) v K = Ok tt K' /\ in_page p l K K' /\ kmem K' = wr32 (kmem K) (p + off) v.
Proof.
  intros Hp Hn H0 H1. eexists. split; [done|]. split; [|done]. apply in_page_mem; [done|done|by apply outside_wr32|apply mem_wf_wr32].
Qed.

Lemma page_range p : page_ok p -> 0 <= p /\ p + PGSIZE < 2 ^ 32.
Proof. intros (_ & _ & H). unfold KERNBASE, PHYSTOP, PGSIZE in *. lia. Qed.

Lemma in_page_memset p l K off n : page_ok p -> p ∉ l -> 0 <= off -> 0 <= n -> off + n <= PGSIZE ->
  exists K', Vm.memset (p + off) 0 n K = Ok tt K' /\ in_page p l K K' /\
    forall a, rd8 (kmem K') a = if decide (p + off <= a < p + off + n) then 0 else rd8 (kmem K) a.
Proof.
  intros Hp Hn H0 H1 H2. pose proof (page_range p Hp). assert (forall a, rd8 (Mem.memset (kmem K) (p + off) 0 n) a = if decide (p + off <= a < p + off + n) then 0 else rd8 (kmem K) a) as Hs.
  { intros a. rewrite Mem.memset_spec by lia. by case_decide. }
  eexists. split; [done|]. split; [|exact Hs]. apply in_page_mem; [done|done| |apply Mem.mem_wf_memset]. intros a Ha. rewrite Hs. case_decide; [|done]. destruct (Ha p eq_refl); lia.
Qed.

(** [memmove] to a page from another page. *)
Lemma in_page_memmove p q l K off src n : page_ok p -> page_ok q -> p ∉ l -> mem_wf (kmem K) -> 0 <= off -> 0 <= n -> off + n <= PGSIZE -> 0 <= src -> src + n <= PGSIZE ->
  exists K', Vm.memmove (p + off) (q + src) n K = Ok tt K' /\ in_page p l K K' /\ mem_wf (kmem K') /\
    forall a, rd8 (kmem K') a = if decide (p + off <= a < p + off + n) then rd8 (kmem K) (q + src + (a - (p + off))) else rd8 (kmem K) a.
Proof.
  intros Hp Hq Hn Hw H0 H1 H2 H3 H4. pose proof (page_range p Hp). pose proof (page_range q Hq).
  pose proof (fun a => Mem.memmove_spec (kmem K) (p + off) (q + src) n a Hw ltac:(lia) ltac:(lia) ltac:(lia) ltac:(lia) ltac:(lia)) as Hs.
  eexists. split; [done|]. split; [|split; [cbn; by apply Mem.mem_wf_memmove|exact Hs]]. apply in_page_mem; [done|done| |apply Mem.mem_wf_memmove].
  intros a Ha. rewrite Hs. case_decide; [|done]. destruct (Ha p eq_refl); lia.
Qed.
End stack.

(** ** allocproc *)

Section alloc.
Context {S : Type} `{D : BlockDev S}.
Context (kend trapret forkret_pc : Z) (Htrapret : 0 <= trapret < 2 ^ 32) (Hforkret : 0 <= forkret_pc < 2 ^ 32).
#[local] Abbreviation rep := (Kalloc.rep kend).
#[local] Abbreviation kern := (Kern.kern (S := S)).

(** The slot of a new process, with the kernel stack [ks]. *)
Definition born (np ks : Z) (q : proc) : proc :=
  set_context (ks + 3996) (set_tf (ks + 4020) (set_kstack ks (set_pid np (set_state EMBRYO q)))).

Context (s : kern) (tb : list proc) (np : Z) (ini : option nat) (cp : Cli.cpu) (cur : option nat) (K : Kalloc.kst) (l : list Z) (ft : nat -> file) (X : Fs.fs S).
Context (Hcp : Cli.cpu_wf cp) (Hncli : Cli.ncli cp < 2 ^ 31 - 1) (Hrep : rep K l).

Lemma run_child {A} j q (c : proc) f lk np' cp' (k : unit -> M kern A) K' ft' X' : tb !! j = Some q ->
  (Kern.on_p (Proc.pupd j f) ≫= k) (upd s (Proc.MkPt (<[j := c]> tb) lk np' ini cp' cur) K' ft' X') =
    k tt (upd s (Proc.MkPt (<[j := f c]> tb) lk np' ini cp' cur) K' ft' X').
Proof.
  intros Hj. erewrite bind_ok_l; [done|]. apply run_p. erewrite pupd_mk by (apply list_lookup_insert_eq; by eapply lookup_lt_Some). by rewrite list_insert_insert_eq.
Qed.

(** [allocproc] fails without a free slot or without a free page, and otherwise
    prepares the slot and the stack of a process that starts in [forkret]. *)
Lemma allocproc_run :
  let s0 := upd s (Proc.MkPt tb false np ini cp cur) K ft X in
  (exists tb' np' K', Kern.allocproc trapret forkret_pc s0 = Ok None (upd s (Proc.MkPt tb' false np' ini (unlocked cp) cur) K' ft X) /\ rep K' l /\ kmem K' = kmem K /\
     (tb' = tb /\ (forall k q, tb !! k = Some q -> state q <> UNUSED) \/ l = [] /\ exists j q, tb !! j = Some q /\ state q = UNUSED /\ tb' = <[j := set_kstack 0 (set_pid np q)]> tb)) \/
  (exists j q ks l1 K', Kern.allocproc trapret forkret_pc s0 = Ok (Some j) (upd s (Proc.MkPt (<[j := born np ks q]> tb) false (s32 (np + 1)) ini (unlocked cp) cur) K' ft X) /\
     tb !! j = Some q /\ state q = UNUSED /\ l = ks :: l1 /\ rep K' l1 /\ outside (kmem K) (kmem K') (fun x => x = ks) /\
     rd32 (kmem K') (ks + 4016) = trapret /\ rd32 (kmem K') (ks + 4012) = forkret_pc).
Proof.
  intros s0. unfold Kern.allocproc. destruct (run_alloc tb np ini cp cur Hcp Hncli) as [[E Hno]|(j & q & Hj & Hq & E)].
  { left. exists tb, np, K. unfold s0. rewrite (bind_ok_l _ _ _ _ _ (run_p s _ _ _ _ _ _ _ E)). split; [done|]. split; [done|]. split; [done|by left]. }
  unfold s0. rewrite (bind_ok_l _ _ _ _ _ (run_p s _ _ _ _ _ _ _ E)). destruct (Kalloc.kalloc_rep kend K l Hrep) as (K1 & E1 & Hr1 & _ & Em1).
  rewrite (bind_ok_l _ _ _ _ _ (run_m s _ _ _ _ _ _ _ E1)), (run_child j q) by done. destruct l as [|ks l1]; cbn [hd tl] in *.
  - left. change (0 =? 0) with true. cbv iota. rewrite (run_child j q) by done. eexists _, _, K1. split; [done|]. split; [done|]. split; [done|]. right. split; [done|]. exists j, q. split; [done|]. split; [done|].
    f_equal. destruct q. cbn in *. by subst.
  - right. assert (Kalloc.page_ok kend ks) as Hks by (eapply rep_page_ok; [exact Hrep|left]). pose proof (Kalloc.page_ok_range kend ks Hks).
    assert (ks ∉ l1) as Hn by (destruct Hrep as (_ & Hnd & _); by apply NoDup_cons in Hnd as [? _]). rewrite (proj2 (Z.eqb_neq ks 0)) by lia. cbv zeta.
    rewrite (run_child j q) by done. destruct (in_page_st32 kend ks l1 K1 4016 trapret) as (K2 & E2 & H2 & Em2); try done.
    replace (ks + KSTACKSIZE - Kern.sizeof_tf - 4) with (ks + 4016) by (unfold KSTACKSIZE, Kern.sizeof_tf; lia). rewrite (bind_ok_l _ _ _ _ _ (run_m s _ _ _ _ _ _ _ E2)).
    rewrite (run_child j q) by done. replace (ks + 4016 - Kern.sizeof_context) with (ks + 3996) by (unfold Kern.sizeof_context; lia).
    destruct (in_page_memset kend ks l1 K2 3996 Kern.sizeof_context) as (K3 & E3 & H3 & Em3); try done. rewrite (bind_ok_l _ _ _ _ _ (run_m s _ _ _ _ _ _ _ E3)).
    replace (ks + 3996 + 16) with (ks + 4012) by lia. destruct (in_page_st32 kend ks l1 K3 4012 forkret_pc) as (K4 & E4 & H4 & Em4); try done. rewrite (bind_ok_l _ _ _ _ _ (run_m s _ _ _ _ _ _ _ E4)).
    exists j, q, ks, l1, K4. replace (ks + KSTACKSIZE - Kern.sizeof_tf) with (ks + 4020) by (unfold KSTACKSIZE, Kern.sizeof_tf; lia). split; [done|]. split; [done|]. split; [done|]. split; [done|].
    assert (in_page kend ks l1 K1 K4) as [Ho Hr] by (eapply in_page_trans; [|exact H4]; by eapply in_page_trans). split; [by apply Hr|]. split; [by rewrite <- Em1|].
    split; [|rewrite Em4; by apply rd32_wr32_eq]. rewrite Em4, rd32_wr32_ne by lia.
    rewrite (rd32_ext (kmem K3) (kmem K2)) by (intros a Ha; rewrite Em3; rewrite decide_False by (unfold Kern.sizeof_context; lia); done).
    rewrite Em2. by apply rd32_wr32_eq.
Qed.
End alloc.

(** ** The parts of fork *)

Section fork.
Context {S : Type} `{D : BlockDev S}.
Context (kend kdata trapret forkret_pc : Z) (Htrapret : 0 <= trapret < 2 ^ 32) (Hforkret : 0 <= forkret_pc < 2 ^ 32).
Context (Hkend : KERNLINK < kend) (Hkdata : kdata mod PGSIZE = 0 /\ KERNLINK < kdata < KERNBASE + PHYSTOP).
#[local] Abbreviation rep := (Kalloc.rep kend).
#[local] Abbreviation asp := (asp kend kdata).
#[local] Abbreviation uvm := (uvm kend kdata).
#[local] Abbreviation kern := (Kern.kern (S := S)).

Lemma refs_cons f l ft ft' : refs_added l (ref_file ft f) ft' -> refs_added (Some f :: l) ft ft'.
Proof.
  intros H g. rewrite (H g), nrefs_cons. unfold ref_file. destruct (decide (g = f)) as [->|Hne].
  - rewrite fn_lookup_insert, decide_True by done. cbn [f_ref File.set_ref]. unfold File.set_ref. cbn. f_equal. lia.
  - rewrite fn_lookup_insert_ne, decide_False by congruence. done.
Qed.

Lemma refs_skip l ft ft' : refs_added l ft ft' -> refs_added (None :: l) ft ft'.
Proof. intros H g. by rewrite (H g), nrefs_cons, decide_False, Z.add_0_l by done. Qed.

Lemma fork_files_run (s : kern) tb j q lk np ini cp cur K X : tb !! j = Some q -> forall fs pre c ft, ofile c = pre ++ replicate (length fs) None ->
  (forall f, Some f ∈ fs -> 1 <= f_ref (ft f)) ->
  exists ft', Kern.fork_files fs j (length pre) (upd s (Proc.MkPt (<[j := c]> tb) lk np ini cp cur) K ft X) =
      Ok tt (upd s (Proc.MkPt (<[j := set_ofile (pre ++ fs) c]> tb) lk np ini cp cur) K ft' X) /\ refs_added fs ft ft'.
Proof.
  intros Hj. induction fs as [|o fs IH]; intros pre c ft Hof Href; cbn [Kern.fork_files].
  { exists ft. cbn [length replicate] in Hof. rewrite app_nil_r in *. split; [|intros f; unfold nrefs; cbn; rewrite Z.add_0_r; by rewrite set_ref_id]. rewrite <- Hof. by destruct c. }
  replace (length pre + 1)%nat with (length (pre ++ [o])) by (rewrite length_app; cbn; lia). destruct o as [f|].
  - assert (1 <= f_ref (ft f)) as Hf by (apply Href; left). erewrite bind_ok_l; cycle 1.
    + rewrite (bind_ok_l _ _ _ _ _ (run_filedup s _ _ _ _ f Hf)). apply run_p. erewrite pupd_mk by (apply list_lookup_insert_eq; by eapply lookup_lt_Some). by rewrite list_insert_insert_eq.
    + destruct (IH (pre ++ [Some f]) (set_ofile (<[length pre := Some f]> (ofile c)) c) (ref_file ft f)) as (ft' & E & Hr).
      * cbn [ofile set_ofile]. rewrite Hof. cbn [length replicate]. rewrite insert_app_r_alt by lia. rewrite Nat.sub_diag. cbn. by rewrite <- app_assoc.
      * intros g Hg. unfold ref_file. destruct (decide (g = f)) as [->|]; [rewrite fn_lookup_insert; cbn; lia|rewrite fn_lookup_insert_ne by done; apply Href; by right].
      * exists ft'. rewrite E. rewrite <- app_assoc. split; [done|by apply refs_cons].
  - erewrite bind_ok_l by done. destruct (IH (pre ++ [None]) c ft) as (ft' & E & Hr); [rewrite Hof; cbn; by rewrite <- app_assoc|intros g Hg; apply Href; by right|].
    exists ft'. rewrite E, <- app_assoc. split; [done|by apply refs_skip].
Qed.

(** The trap frame at [a] is that at [b], but for the result [eax], which is 0. *)
Definition frame_copy (m m' : mem) (a b : Z) : Prop :=
  rd32 m' (a + Kern.TF_EAX) = 0 /\ forall o, 0 <= o < Kern.sizeof_tf -> o < Kern.TF_EAX \/ Kern.TF_EAX + 4 <= o -> rd8 m' (a + o) = rd8 m (b + o).

Lemma child_frame K d tabsd pgsd l ks pk : uvm K d tabsd pgsd l -> Kalloc.page_ok kend ks -> Kalloc.page_ok kend pk -> ks <> pk -> ks ∉ l -> ~ foot d tabsd pgsd ks ->
  exists K1 K2, Vm.memmove (ks + 4020) (pk + 4020) Kern.sizeof_tf K = Ok tt K1 /\ Vm.st32 (ks + 4020 + Kern.TF_EAX) 0 K1 = Ok tt K2 /\
    uvm K2 d tabsd pgsd l /\ (forall va, ubyte (kmem K2) pgsd va = ubyte (kmem K) pgsd va) /\ outside (kmem K) (kmem K2) (fun x => x = ks) /\
    frame_copy (kmem K) (kmem K2) (ks + 4020) (pk + 4020) /\ forall a, a < ks + 4020 -> rd8 (kmem K2) a = rd8 (kmem K) a.
Proof.
  intros [Hr Ha Hap] Hks Hpk Hne Hn Hf. destruct (in_page_memmove kend ks pk l K 4020 4020 Kern.sizeof_tf) as (K1 & E1 & H1 & Hw1 & M1); try done; [apply Hr|].
  destruct (in_page_st32 kend ks l K1 (4020 + Kern.TF_EAX) 0) as (K2 & E2 & H2 & M2); try done.
  assert (in_page kend ks l K K2) as [Ho Hr2] by (by eapply in_page_trans). exists K1, K2. split; [done|]. rewrite Z.add_assoc in E2. split; [done|].
  destruct (outside_foot kend kdata _ _ _ _ _ _ Ha Ho) as [Ha2 Hs]; [by intros q ->|]. split; [split; [by apply Hr2|done|done]|].
  split; [intros va; apply ubyte_same; intros b x f Hx; apply Hs; right; eauto|]. split; [done|]. unfold frame_copy, Kern.TF_EAX, Kern.sizeof_tf in *. split_and!.
  - rewrite M2, Z.add_assoc. by apply rd32_wr32_eq.
  - intros o Ho1 Ho2. rewrite M2, rd8_wr32_ne by lia. rewrite M1, decide_True by lia. f_equal. lia.
  - intros a Haa. rewrite M2, rd8_wr32_ne by lia. by rewrite M1, decide_False by lia.
Qed.

(** ** fork *)

(** The kernel when process [i] calls [fork]. *)
Record fork_pre (s : kern) (i : nat) (p : proc) (tabs : gmap Z Z) (pgs : pages) (l : list Z) (c : nat) : Prop := MkForkPre {
  fp_cur : Proc.curproc (Kern.kp s) = Some i /\ Proc.procs (Kern.kp s) !! i = Some p /\ state p = RUNNING;
  fp_locks : Proc.plock (Kern.kp s) = false /\ File.ftlock (Kern.kf s) = false /\ Fs.ilck (File.ffs (Kern.kf s)) = false;
  fp_cpu : Cli.cpu_wf (Proc.pcpu (Kern.kp s)) /\ Cli.ncli (Proc.pcpu (Kern.kp s)) < 2 ^ 31 - 1;
  fp_free : rep (File.fmem (Kern.kf s)) l;
  fp_asp : asp (KernRun.kmem s) (pgdir p) tabs pgs;
  fp_apart : forall x, foot (pgdir p) tabs pgs x -> x ∉ l;
  fp_sized : sized pgs (sz p) /\ 0 <= sz p <= KERNBASE;
  fp_stack : Kalloc.page_ok kend (kstack p) /\ (kstack p ∉ l) /\ tf p = kstack p + 4020;
  fp_files : length (ofile p) = NOFILE /\ forall f, Some f ∈ ofile p -> 1 <= f_ref (File.ftab (Kern.kf s) f);
  fp_cwd : cwd p = Some c;
  fp_name : length (name p) = 16%nat /\ 0 ∈ name p;
  fp_slots : forall j q, Proc.procs (Kern.kp s) !! j = Some q -> state q = UNUSED -> ofile q = replicate NOFILE None /\ length (name q) = 16%nat
}.

(** Process [j] is the child: it has the pid [np], a copy of the memory and of the
    registers, and the files, directory and name of the parent. *)
Record forked (s : kern) (i : nat) (p : proc) (tabs : gmap Z Z) (pgs : pages) (l : list Z) (c : nat) (s' : kern) (j : nat) (ch : proc) (l' : list Z) : Prop := MkForked {
  fk_slot : exists q, Proc.procs (Kern.kp s) !! j = Some q /\ state q = UNUSED /\ killed ch = killed q;
  fk_table : Kern.kp s' = Proc.MkPt (<[j := ch]> (Proc.procs (Kern.kp s))) false (s32 (Proc.nextpid (Kern.kp s) + 1)) (Proc.initproc (Kern.kp s)) (unlocked (Proc.pcpu (Kern.kp s))) (Some i);
  fk_child : state ch = RUNNABLE /\ pid ch = Proc.nextpid (Kern.kp s) /\ parent ch = Some i /\ sz ch = sz p /\ ofile ch = ofile p /\ cwd ch = Some c /\ Str.cstr (name ch) = Str.cstr (name p);
  fk_files : refs_added (ofile p) (File.ftab (Kern.kf s)) (File.ftab (Kern.kf s'));
  fk_inode : File.ffs (Kern.kf s') = ref_inode (File.ffs (Kern.kf s)) c;
  fk_parent : asp (KernRun.kmem s') (pgdir p) tabs pgs /\ forall va, ubyte (KernRun.kmem s') pgs va = ubyte (KernRun.kmem s) pgs va;
  fk_memory : exists tabsd pgsd, uvm (File.fmem (Kern.kf s')) (pgdir ch) tabsd pgsd l' /\ sized pgsd (sz p) /\
    (forall va, ubyte (KernRun.kmem s') pgsd va = ubyte (KernRun.kmem s) pgs va) /\ (forall va, snd <$> pgsd !! va = snd <$> pgs !! va) /\
    forall x, took l l' x <-> x = kstack ch \/ foot (pgdir ch) tabsd pgsd x;
  fk_frame : tf ch = kstack ch + 4020 /\ frame_copy (KernRun.kmem s) (KernRun.kmem s') (tf ch) (tf p);
  fk_stack : context ch = kstack ch + 3996 /\ rd32 (KernRun.kmem s') (kstack ch + 4016) = trapret /\ rd32 (KernRun.kmem s') (kstack ch + 4012) = forkret_pc
}.

(** Nothing a process can see has changed. *)
Record fork_failed (s : kern) (i : nat) (p : proc) (tabs : gmap Z Z) (pgs : pages) (l : list Z) (s' : kern) (l' : list Z) : Prop := MkForkFailed {
  ff_table : Proc.procs (Kern.kp s') = Proc.procs (Kern.kp s) \/
    exists j q q', Proc.procs (Kern.kp s) !! j = Some q /\ state q = UNUSED /\ state q' = UNUSED /\ Proc.procs (Kern.kp s') = <[j := q']> (Proc.procs (Kern.kp s));
  ff_files : File.ftab (Kern.kf s') = File.ftab (Kern.kf s) /\ File.ffs (Kern.kf s') = File.ffs (Kern.kf s);
  ff_parent : asp (KernRun.kmem s') (pgdir p) tabs pgs /\ forall va, ubyte (KernRun.kmem s') pgs va = ubyte (KernRun.kmem s) pgs va;
  ff_free : rep (File.fmem (Kern.kf s')) l' /\ l' ⊆ l
}.

Lemma unlocked_idem cp : unlocked (unlocked cp) = unlocked cp.
Proof. destruct cp as [n ie fi]. unfold unlocked. cbn. by destruct (n =? 0). Qed.

Lemma unlocked_wf cp : Cli.cpu_wf cp /\ Cli.ncli cp < 2 ^ 31 - 1 -> Cli.cpu_wf (unlocked cp) /\ Cli.ncli (unlocked cp) < 2 ^ 31 - 1.
Proof. intros [[H1 H2] H3]. by split. Qed.

(** [fork] after [copyuvm] gave the child its memory. *)
Lemma fork_tail (s : kern) tb i j p q np ini cp ks K l d tabsd pgsd ft X c :
  tb !! i = Some p -> tb !! j = Some q -> i <> j -> Cli.cpu_wf cp /\ Cli.ncli cp < 2 ^ 31 - 1 -> Fs.ilck X = false -> cwd p = Some c ->
  ofile q = replicate NOFILE None -> length (ofile p) = NOFILE -> (forall f, Some f ∈ ofile p -> 1 <= f_ref (ft f)) ->
  length (name q) = 16%nat -> length (name p) = 16%nat -> 0 ∈ name p ->
  uvm K d tabsd pgsd l -> Kalloc.page_ok kend ks -> Kalloc.page_ok kend (kstack p) -> ks <> kstack p -> ks ∉ l -> ~ foot d tabsd pgsd ks -> tf p = kstack p + 4020 ->
  let tail :=
    Kern.on_p (Proc.pupd j (set_sz (sz p)));;
    Kern.on_p (Proc.pupd j (set_parent (Some i)));;
    np ← Kern.on_p (Proc.pat j);
    Kern.on_m (Vm.memmove (tf np) (tf p) Kern.sizeof_tf);;
    Kern.on_m (Vm.st32 (tf np + Kern.TF_EAX) 0);;
    Kern.fork_files (ofile p) j 0;;
    match cwd p with
    | None => fault
    | Some c => c ← Kern.on_fs (Fs.idup c); Kern.on_p (Proc.pupd j (set_cwd (Some c)))
    end;;
    nm ← Kern.safe (Str.safestrcpy (name np) (name p) 16);
    Kern.on_p (Proc.pupd j (set_name nm));;
    Kern.on_p Proc.acquire;;
    Kern.on_p (Proc.pupd j (set_state RUNNABLE));;
    Kern.on_p Proc.release;;
    np ← Kern.on_p (Proc.pat j);
    mret (pid np) in
  exists K' ft' nm, tail (upd s (Proc.MkPt (<[j := set_pgdir d (born np ks q)]> tb) false (s32 (np + 1)) ini cp (Some i)) K ft X) =
    Ok np (upd s (Proc.MkPt (<[j := set_state RUNNABLE (set_name nm (set_cwd (Some c) (set_ofile (ofile p) (set_parent (Some i) (set_sz (sz p) (set_pgdir d (born np ks q)))))))]> tb)
      false (s32 (np + 1)) ini (unlocked cp) (Some i)) K' ft' (ref_inode X c)) /\
    Str.cstr nm = Str.cstr (name p) /\ refs_added (ofile p) ft ft' /\ uvm K' d tabsd pgsd l /\ (forall va, ubyte (kmem K') pgsd va = ubyte (kmem K) pgsd va) /\
    outside (kmem K) (kmem K') (fun x => x = ks) /\ frame_copy (kmem K) (kmem K') (ks + 4020) (tf p) /\ forall a, a < ks + 4020 -> rd8 (kmem K') a = rd8 (kmem K) a.
Proof.
  intros Hi Hj Hij [Hcp Hn] Hlk Hcwd Hoq Hop Href Hnq Hnp Hz Hu Hks Hpk Hne Hnl Hnf Htf tail. assert (j < length tb)%nat as Hjl by (by eapply lookup_lt_Some).
  destruct (child_frame K d tabsd pgsd l ks (kstack p) Hu Hks Hpk Hne Hnl Hnf) as (K1 & K2 & E1 & E2 & Hu2 & Hb2 & Ho2 & Hf2 & Hs2).
  set (c1 := set_parent (Some i) (set_sz (sz p) (set_pgdir d (born np ks q)))).
  destruct (fork_files_run s tb j q false (s32 (np + 1)) ini cp (Some i) K2 X Hj (ofile p) [] c1 ft) as (ft' & E3 & Hr3); [by rewrite Hop|done|].
  destruct (Str.safestrcpy_loop_spec (name q) (name p) 15) as (nm & E4 & Hl4 & Hc4 & _); [lia|by right|].
  exists K2, ft', nm. split; [|split; [|split; [done|]; split; [done|]; split; [done|]; rewrite Htf; by split]].
  - unfold tail. rewrite !(run_child s tb ini (Some i) j q) by done. fold c1.
    erewrite bind_ok_l by (apply run_p, pat_mk, list_lookup_insert_eq, Hjl). change (tf c1) with (ks + 4020). rewrite Htf.
    rewrite (bind_ok_l _ _ _ _ _ (run_m s _ _ _ _ _ _ _ E1)), (bind_ok_l _ _ _ _ _ (run_m s _ _ _ _ _ _ _ E2)). rewrite (bind_ok_l _ _ _ _ _ E3), Hcwd.
    erewrite bind_ok_l; cycle 1.
    { rewrite (bind_ok_l _ _ _ _ _ (run_idup s _ _ _ _ c Hlk)). apply run_p. erewrite pupd_mk by (by apply list_lookup_insert_eq). by rewrite list_insert_insert_eq. }
    change (name c1) with (name q). unfold Str.safestrcpy. change (16 <=? 0) with false. cbv iota. change (Z.to_nat (16 - 1)) with 15%nat. rewrite E4. cbn [Kern.safe]. erewrite bind_ok_l by done.
    rewrite (run_child s tb ini (Some i) j q) by done. erewrite bind_ok_l by (apply run_p, acquire_mk). rewrite (run_child s tb ini (Some i) j q) by done.
    erewrite bind_ok_l by (apply run_p, release_any; done). erewrite bind_ok_l by (apply run_p, pat_mk, list_lookup_insert_eq, Hjl). done.
  - rewrite Hc4. apply take_ge. destruct (Str.cstr_split (name p) Hz) as [rest Es]. apply (f_equal length) in Es. rewrite length_app in Es. cbn in Es. lia.
Qed.

(** The memory of the kernel across [allocproc] ([K] to [K1]), [copyuvm] (to
    [K2]) and the last steps (to [K3]), [ks] being the stack of the child. *)
Section memory.
Context (K K1 K2 K3 : Kalloc.kst) (ks : Z) (l1 l2 : list Z) (pgdir : Z) (tabs : gmap Z Z) (pgs : pages).
Context (Hrep : rep K (ks :: l1)) (Hasp : asp (kmem K) pgdir tabs pgs) (Hap : forall x, foot pgdir tabs pgs x -> x ∉ ks :: l1).
Context (Ho1 : outside (kmem K) (kmem K1) (fun x => x = ks)) (Ho2 : outside (kmem K1) (kmem K2) (fun x => x ∈ l1)) (Ho3 : outside (kmem K2) (kmem K3) (fun x => x = ks)).

Lemma stack_page : Kalloc.page_ok kend ks /\ ks ∉ l1.
Proof. split; [eapply rep_page_ok; [exact Hrep|left]|]. destruct Hrep as (_ & Hnd & _). by apply NoDup_cons in Hnd as [? _]. Qed.

Lemma parent_kept : asp (kmem K3) pgdir tabs pgs /\ forall va, ubyte (kmem K3) pgs va = ubyte (kmem K) pgs va.
Proof.
  apply (frame kend kdata K K3 (ks :: l1)); try done. eapply outside_trans; [eapply outside_trans|]; eapply outside_weaken; [exact Ho1| |exact Ho2| |exact Ho3|];
    cbn; intros x Hx; rewrite elem_of_cons; auto.
Qed.

Lemma parent_first : asp (kmem K1) pgdir tabs pgs /\ (forall x, foot pgdir tabs pgs x -> x ∉ l1) /\ forall va, ubyte (kmem K1) pgs va = ubyte (kmem K) pgs va.
Proof.
  destruct stack_page as [Hks _]. destruct (outside_foot kend kdata _ _ _ _ _ _ Hasp Ho1) as [Hasp1 Hs]; [intros ? ->; split; [done|]; intros Hx; apply (Hap ks Hx); left|].
  split; [done|]. split; [intros x Hx Hl; apply (Hap x Hx); by right|]. intros va. apply ubyte_same. intros b x f Hx. apply Hs. right. eauto.
Qed.

Lemma kept_page p : Kalloc.page_ok kend p -> p ∉ ks :: l1 -> same_page (kmem K) (kmem K2) p.
Proof.
  intros Hp Hn. apply (outside_same kend _ _ (fun x => x ∈ ks :: l1)); [|done|].
  - eapply outside_trans; eapply outside_weaken; [exact Ho1|intros ? ->; left|exact Ho2|intros ? ?; by right].
  - intros x Hx. split; [by eapply rep_page_ok|by intros ->].
Qed.

Lemma kept_stack : same_page (kmem K1) (kmem K2) ks.
Proof.
  destruct stack_page as [Hks Hn]. apply (outside_same kend _ _ (fun x => x ∈ l1)); [done|done|]. intros x Hx. split; [eapply rep_page_ok; [exact Hrep|by right]|by intros ->].
Qed.
End memory.

(** [fork] returns a child or fails without a trace. *)
Lemma fork_runs (s : kern) i p tabs pgs l c : fork_pre s i p tabs pgs l c ->
  exists r s' l', Kern.fork kend kdata trapret forkret_pc s = Ok r s' /\
    ((exists j ch, r = pid ch /\ forked s i p tabs pgs l c s' j ch l') \/
     (r = -1 /\ fork_failed s i p tabs pgs l s' l' /\
      ((forall j q, Proc.procs (Kern.kp s) !! j = Some q -> state q <> UNUSED) \/ Z.of_nat (length l) <= 1027 + PGROUNDUP (sz p) / PGSIZE))).
Proof.
  intros [(Hcur & Hi & Hrun) (Hpl & Hfl & Hil) Hcp Hrep Hasp Hap [Hsz Hk] (Hpk & Hpkl & Htf) (Hop & Href) Hcwd [Hnp Hnz] Hslots].
  destruct s as [[tb lk np ini cp cur] [ft fl pp X K] tk tl fi]. cbn in Hcur, Hi, Hpl, Hfl, Hil, Hcp, Hrep, Href, Hslots. subst lk cur fl. set (s := Kern.MkKern _ _ _ _ _) in *.
  change (KernRun.kmem s) with (kmem K) in Hasp. unfold Kern.fork.
  destruct (allocproc_run kend trapret forkret_pc Htrapret Hforkret s tb np ini cp (Some i) K l ft X (proj1 Hcp) (proj2 Hcp) Hrep)
    as [(tb' & np' & K' & E & Hr' & Em & Htb)|(j & q & ks & l1 & K1 & E & Hj & Hq & -> & Hr1 & Ho1 & Hst1 & Hst2)]; change (upd s _ K ft X) with s in E; rewrite (bind_ok_l _ _ _ _ _ E).
  { eexists (-1), _, l. split; [done|]. right. split; [done|]. split.
    - split; cbn; [|done|unfold KernRun.kmem; cbn; by rewrite Em|done]. destruct Htb as [[-> _]|(_ & j & q & Hj & Hq & ->)]; [by left|right]. exists j, q, (set_kstack 0 (set_pid np q)). by destruct q.
    - cbn. destruct Htb as [[_ Hno]|(-> & _)]; [by left|right]. cbn. destruct (PGROUNDUP_bounds (sz p)) as [Hb _]; [unfold KERNBASE, PGSIZE in *; lia|].
      pose proof (Z.div_pos (PGROUNDUP (sz p)) PGSIZE ltac:(lia) ltac:(done)). lia. }
  assert (i <> j) as Hij by (intros ->; rewrite Hj in Hi; injection Hi as ->; congruence). destruct (Hslots j q Hj Hq) as [Hoq Hnq].
  destruct (stack_page K ks l1 Hrep) as [Hks Hksl]. destruct (parent_first K K1 ks l1 (pgdir p) tabs pgs Hrep Hasp Hap Ho1) as (Hasp1 & Hap1 & Hub1).
  destruct (copyuvm_spec kend kdata Hkend Hkdata K1 l1 (pgdir p) tabs pgs (sz p) Hr1 Hasp1 Hap1 Hsz Hk) as (d & K2 & l2 & E2 & Hr2 & Hl2 & Ho2 & Hres).
  erewrite bind_ok_l by (by apply me_run). erewrite bind_ok_l by (by apply myproc_run). cbn [Proc.procs Kern.kp upd]. rewrite list_lookup_total_insert_ne, (list_lookup_total_correct _ _ _ Hi) by done.
  rewrite (bind_ok_l _ _ _ _ _ (run_m s _ _ _ _ _ _ _ E2)), (run_child s tb ini (Some i) j q) by done.
  destruct Hres as [(-> & Hlen & _)|(tabsd & pgsd & Hd & Hu & Htk & Hszd & Hbytes & Hflags)].
  - change (0 =? 0) with true. cbv iota. erewrite bind_ok_l by (apply run_p, pat_mk, list_lookup_insert_eq; by eapply lookup_lt_Some). cbn [kstack set_pgdir born].
    destruct (kfree_out kend K2 l2 ks Hr2 Hks) as (K3 & E3 & Hr3 & Ho3); [intros Hx; apply Hksl; by apply Hl2|]. rewrite (bind_ok_l _ _ _ _ _ (run_m s _ _ _ _ _ _ _ E3)).
    rewrite !(run_child s tb ini (Some i) j q) by done. eexists (-1), _, (ks :: l2). split; [done|]. right. split; [done|]. split; [split|right; cbn [length]; lia].
    + right. eexists j, q, _. split; [done|]. split; [done|]. split; cycle 1; done.
    + done.
    + by apply (parent_kept K K1 K2 K3 ks l1).
    + split; [done|]. intros x [->|Hx]%elem_of_cons; [left|right; by apply Hl2].
  - rewrite (proj2 (Z.eqb_neq _ _) Hd). assert (~ foot d tabsd pgsd ks) as Hksd by (intros [? _]%Htk; done).
    assert (ks <> kstack p) as Hkp by (intros ->; apply Hpkl; left). assert (ks ∉ l2) as Hksl2 by (intros Hx; apply Hksl; by apply Hl2).
    destruct (fork_tail s tb i j p q np ini (unlocked cp) ks K2 l2 d tabsd pgsd ft X c Hi Hj Hij (unlocked_wf cp Hcp) Hil Hcwd Hoq Hop Href Hnq Hnp Hnz Hu Hks Hpk Hkp Hksl2 Hksd Htf)
      as (K3 & ft' & nm & E3 & Hnm & Hrf & Hu3 & Hb3 & Ho3 & Hf3 & Hs3).
    rewrite unlocked_idem in E3. eexists np, _, l2. split; [exact E3|]. left.
    exists j, (set_state RUNNABLE (set_name nm (set_cwd (Some c) (set_ofile (ofile p) (set_parent (Some i) (set_sz (sz p) (set_pgdir d (born np ks q)))))))). split; [done|]. split; cbn [Kern.kp Kern.kf upd File.ftab File.ffs File.fmem].
    + exists q. by destruct q.
    + done.
    + cbn. by destruct q.
    + done.
    + done.
    + by apply (parent_kept K K1 K2 K3 ks l1).
    + exists tabsd, pgsd. split; [done|]. split; [done|]. split; [intros va; unfold KernRun.kmem; cbn [Kern.kf upd File.fmem]; by rewrite Hb3, Hbytes, Hub1|]. split; [done|].
      intros x. cbn. rewrite Htk. unfold took. rewrite elem_of_cons. destruct (decide (x = ks)) as [->|]; tauto.
    + split; [done|]. destruct Hf3 as [Hf3 Hf4]. split; [done|]. intros o Ho Hoe. cbn [tf set_state set_name set_cwd set_ofile set_parent set_sz set_pgdir born set_context set_tf].
      rewrite <- (kept_page K K1 K2 ks l1 Hrep Ho1 Ho2 (kstack p) Hpk Hpkl) by (unfold Kern.sizeof_tf, PGSIZE in *; lia). by apply Hf4.
    + split; [done|]. unfold KernRun.kmem. cbn. pose proof (kept_stack K K1 K2 ks l1 Hrep Ho2) as Hst.
      rewrite !(rd32_ext (kmem K3) (kmem K1)) by (intros b Hb; rewrite Hs3 by lia; apply Hst; unfold PGSIZE; lia). done.
Qed.

(** C12: [fork] on a kernel in order returns.  Either it returns the pid of a new
    process, which is runnable, a child of the caller, and has a copy of its
    memory with the same contents and flags in pages of its own, of its trap
    frame with 0 as the result, and its open files, directory and name, each
    file and the directory counted once more; or it returns -1 because no slot
    is free or not more than 1027 pages beside the size of the process are, and
    nothing a process can see has changed. *)
Theorem fork_correct (s : kern) i p tabs pgs l c : fork_pre s i p tabs pgs l c ->
  exists r s' l', Kern.fork kend kdata trapret forkret_pc s = Ok r s' /\
    ((exists j ch, r = pid ch /\ forked s i p tabs pgs l c s' j ch l') \/
     (r = -1 /\ fork_failed s i p tabs pgs l s' l' /\
      ((forall j q, Proc.procs (Kern.kp s) !! j = Some q -> state q <> UNUSED) \/ Z.of_nat (length l) <= 1027 + PGROUNDUP (sz p) / PGSIZE))).
Proof. exact (fork_runs s i p tabs pgs l c). Qed.
End fork.

Module ForkEx.
(** The process of [KernEx] may fork when its memory and the free pages are in order. *)
Lemma ready k l d tabs pgs : Kalloc.rep UvmEx.kend k l -> asp UvmEx.kend UvmEx.kdata (kmem k) d tabs pgs ->
  (forall x, x ∈ l -> ~ foot d tabs pgs x) -> sized pgs PGSIZE -> (forall p, p ∈ l -> 0x80400000 <= p) ->
  fork_pre UvmEx.kend UvmEx.kdata (KernEx.st k d) 0 (KernEx.proc d) tabs pgs l 0.
Proof.
  intros Hr Ha Hap Hs Hlo. split; [done|done| |exact Hr|exact Ha| |split; [exact Hs|done]| | |done| |].
  - by split; [split; cbn; lia|].
  - intros x Hx Hx'. by apply (Hap x).
  - split; [by split_and!|]. split; [|done]. by intros Hx%Hlo.
  - split; [done|]. by intros f [Hx _]%elem_of_replicate.
  - split; [done|left].
  - intros [|[|j]] q Hj Hq; cbn in Hj; [injection Hj as <-; done|injection Hj as <-; done|done].
Qed.
End ForkEx.

Lemma fork_correct_witness : exists k d s', Kern.fork UvmEx.kend UvmEx.kdata 0x80105000 0x80104000 (KernEx.st k d) = Ok 2 s'.
Proof.
  destruct UvmEx.first_space as (k & l & d & tabs & pgs & [Hr Ha Hap] & Hs & Hl & _ & _ & Hlo & _).
  destruct (fork_correct UvmEx.kend UvmEx.kdata 0x80105000 0x80104000 ltac:(lia) ltac:(lia) UvmEx.uhkend UvmEx.uhkdata (KernEx.st k d) 0 (KernEx.proc d) tabs pgs l 0%nat)
    as (r & s' & l' & E & [(j & ch & -> & Hf)|(_ & _ & [Hno|Hlen])]).
  - exact (ForkEx.ready k l d tabs pgs Hr Ha Hap Hs Hlo).
  - exists k, d, s'. rewrite E. f_equal. destruct (fk_child _ _ _ _ _ _ _ _ _ _ _ _ _ _ _ Hf) as (_ & -> & _). reflexivity.
  - exfalso. exact (Hno 1%nat proc0 eq_refl eq_refl).
  - exfalso. change (PGROUNDUP (sz (KernEx.proc d)) / PGSIZE) with 1 in Hlen. lia.
Defined.
