(* ===== verification/Load.v ===== *)
(** * exec: loading a program

    [loaduvm] and the loop of [exec] over the program headers: the memory they
    build is the one the headers of the file describe. *)

From S2P Require Import Prelude Memory Layout Cstring Spinlock Kalloc Vm VmSpec Uvm UvmSpec Proc ProcSpec ProcSmp Pipe Block Log Fs FsTx FsBlock FsFile FsRw FsIno FsSpec File Kern KernRun KernArg Fork.

#[local] Abbreviation kmem := Kalloc.kmem_mem.

Lemma upd_app f va b1 b2 x : upd_bytes (upd_bytes f va b1) (va + Z.of_nat (length b1)) b2 x = upd_bytes f va (b1 ++ b2) x.
Proof. rewrite <- (upd_split f va (b1 ++ b2) (length b1) x) by (rewrite length_app; lia). by rewrite take_app_length, drop_app_length. Qed.

Section load.
Context {S : Type} `{D : BlockDev S}.
Context (kend kdata : Z).
Context (Hkend : KERNLINK < kend) (Hkdata : kdata mod PGSIZE = 0 /\ KERNLINK < kdata < KERNBASE + PHYSTOP).
#[local] Abbreviation uvm := (uvm kend kdata).
#[local] Abbreviation kern := (Kern.kern (S := S)).

(** The file: byte [o] is [byte o], and [readi] reads it while the file system
    satisfies [I]. *)
Context (dsw : Fs.devsw (S := S)) (ip : nat) (I : Fs.fs S -> Prop) (byte : Z -> Z) (size : Z).
Definition fbytes (off n : Z) : bytes := byte <$> seqZ off n.
Context (Hread : forall X off n, I X -> 0 <= off -> 0 <= n -> off + n <= size -> exists X', Fs.readi dsw ip off n X = Ok (n, fbytes off n) X' /\ I X').
Context (Hbyte : forall o, 0 <= o < size -> 0 <= byte o < 256) (Hsize : size < 2 ^ 31).

Lemma length_fbytes off n : Z.of_nat (length (fbytes off n)) = Z.max 0 n.
Proof. unfold fbytes. rewrite length_fmap, length_seqZ. lia. Qed.

Lemma fbytes_app off m n : 0 <= m -> 0 <= n -> fbytes off (m + n) = fbytes off m ++ fbytes (off + m) n.
Proof. intros. unfold fbytes. by rewrite seqZ_app, fmap_app. Qed.

Lemma fbytes_wf off n : 0 <= off -> off + n <= size -> bytes_wf (fbytes off n).
Proof. intros H0 Hn. apply Forall_fmap, Forall_forall. intros o Ho%elem_of_seqZ. apply Hbyte. lia. Qed.

Lemma fbytes_nil off n : n <= 0 -> fbytes off n = [].
Proof. intros H. apply nil_length_inv. pose proof (length_fbytes off n). lia. Qed.

Context (s : kern) (P : Proc.ptable) (ft : nat -> file).
#[local] Abbreviation st K X := (upd s P K ft X).

(** ** loaduvm *)

(** The pages of [a .. a + n) are mapped. *)
Definition mapped (pgs : pages) (a n : Z) : Prop := forall x, a <= x < a + n -> is_Some (pgs !! (x - x mod PGSIZE)).

Lemma readi_to_run K X pd tabs pgs l a q f off n : uvm K pd tabs pgs l -> I X -> pgs !! a = Some (q, f) -> 0 <= off -> 0 <= n <= PGSIZE -> off + n <= size ->
  exists K' X', Kern.readi_to dsw ip q off n (st K X) = Ok n (st K' X') /\ I X' /\ uvm K' pd tabs pgs l /\ outside (kmem K) (kmem K') (upages pgs) /\
    forall x, ubyte (kmem K') pgs x = upd_bytes (ubyte (kmem K) pgs) a (fbytes off n) x.
Proof.
  intros Hu HI Hq Hoff Hn Hend. destruct (Hread X off n HI) as (X' & E & HI'); [lia|lia|lia|]. pose proof (length_fbytes off n) as Hlen.
  destruct (store_user kend kdata Hkdata K pd tabs pgs l a q f 0 (fbytes off n) Hu Hq) as (Hu' & Ho & Hx); [lia|lia|by apply fbytes_wf|]. rewrite !Z.add_0_r in *.
  eexists _, X'. split; [|split; [done|]; split; [exact Hu'|]; by split]. unfold Kern.readi_to. rewrite (bind_ok_l _ _ _ _ _ (run_fs s _ _ _ _ _ _ _ E)). cbv beta iota.
  erewrite bind_ok_l by (apply run_m; reflexivity). done.
Qed.

Lemma zoom_upd {A} (m : M Kalloc.kst A) K X a : m K = Ok a K -> zoom Kern.kmem Kern.set_kmem m (st K X) = Ok a (st K X).
Proof. intros E. by erewrite zoom_ok by exact E. Qed.

Lemma load_loop pd tabs pgs l addr off n fuel : 0 <= addr -> addr mod PGSIZE = 0 -> mapped pgs addr n -> addr + n <= KERNBASE -> 0 <= off -> off + n <= size ->
  forall K X i, uvm K pd tabs pgs l -> I X -> 0 <= i -> i mod PGSIZE = 0 -> n - i <= Z.of_nat fuel * PGSIZE ->
  exists K' X', Vm.loaduvm_loop Kern.kmem Kern.set_kmem (Kern.readi_to dsw ip) fuel pd addr off i n (st K X) = Ok 0 (st K' X') /\ I X' /\ uvm K' pd tabs pgs l /\
    outside (kmem K) (kmem K') (upages pgs) /\ forall x, ubyte (kmem K') pgs x = upd_bytes (ubyte (kmem K) pgs) (addr + i) (fbytes (off + i) (n - i)) x.
Proof.
  intros Haddr Hal Hmap Hk Hoff Hend. induction fuel as [|fuel IH]; intros K X i Hu HI Hi Him Hf; cbn [Vm.loaduvm_loop].
  all: destruct (Z.ltb_spec i n) as [Hlt|Hge]; [|exists K, X; split; [done|]; split; [done|]; split; [done|]; split; [done|]; intros x; rewrite fbytes_nil by lia; by rewrite upd_nil].
  { lia. }
  assert ((addr + i) mod PGSIZE = 0) as Hpm by (by rewrite Z.add_mod, Hal, Him). destruct (Hmap (addr + i)) as [[q f] Hq]; [lia|]. rewrite Hpm, Z.sub_0_r in Hq.
  destruct (walk_user kend kdata Hkend K pd tabs pgs _ q f (u_asp _ _ _ _ _ _ _ Hu) Hq) as (t & _ & Ew & Hz & Er). destruct (as_some _ _ _ _ _ _ (u_asp _ _ _ _ _ _ _ Hu) _ q f Hq) as (_ & _ & B3 & B4 & _).
  destruct (page_pa kend Hkend q f B3 B4) as (P1 & _ & P3). rewrite !u32_small by (unfold KERNBASE, PGSIZE in *; lia). rewrite (bind_ok_l _ _ _ _ _ (zoom_upd _ _ _ _ Ew)), (proj2 (Z.eqb_neq _ _) Hz).
  erewrite bind_ok_l by (apply zoom_upd; reflexivity). cbv zeta. rewrite Er, P1, P3. set (k := if n - i <? PGSIZE then n - i else PGSIZE).
  assert (0 <= k <= PGSIZE /\ k <= n - i /\ (k = n - i \/ k = PGSIZE)) as Hkk by (unfold k; destruct (Z.ltb_spec (n - i) PGSIZE); unfold PGSIZE in *; lia). clearbody k.
  destruct (readi_to_run K X pd tabs pgs l (addr + i) q f (off + i) k Hu HI Hq) as (K1 & X1 & E1 & HI1 & Hu1 & Ho1 & Hx1); [lia|lia|lia|]. rewrite (bind_ok_l _ _ _ _ _ E1), Z.eqb_refl. cbn [negb].
  destruct (IH K1 X1 (i + PGSIZE) Hu1 HI1) as (K2 & X2 & E2 & HI2 & Hu2 & Ho2 & Hx2); [unfold PGSIZE; lia|by apply aligned_next|lia|].
  exists K2, X2. split; [done|]. split; [done|]. split; [done|]. split; [by eapply outside_trans|].
  intros x. rewrite Hx2. replace (n - i) with (k + (n - i - k)) by lia. rewrite fbytes_app, <- upd_app, length_fbytes by lia. destruct Hkk as (Hk1 & Hk2 & [-> | ->]).
  - rewrite (fbytes_nil _ (n - (i + PGSIZE))), (fbytes_nil _ (n - i - (n - i))), !upd_nil by lia. apply Hx1.
  - rewrite Z.max_r by (unfold PGSIZE; lia). replace (n - (i + PGSIZE)) with (n - i - PGSIZE) by lia. rewrite !Z.add_assoc. by apply upd_ext.
Qed.

Lemma loaduvm_run K X pd tabs pgs l addr off n : uvm K pd tabs pgs l -> I X -> 0 <= addr -> addr mod PGSIZE = 0 -> mapped pgs addr n -> addr + n <= KERNBASE -> 0 <= off -> 0 <= n -> off + n <= size ->
  exists K' X', Vm.loaduvm Kern.kmem Kern.set_kmem (Kern.readi_to dsw ip) pd addr off n (st K X) = Ok 0 (st K' X') /\ I X' /\ uvm K' pd tabs pgs l /\
    outside (kmem K) (kmem K') (upages pgs) /\ forall x, ubyte (kmem K') pgs x = upd_bytes (ubyte (kmem K) pgs) addr (fbytes off n) x.
Proof.
  intros Hu HI Ha Hal Hm Hk Ho Hn Hend. unfold Vm.loaduvm. rewrite Hal. change (truthy 0) with false. cbv iota.
  destruct (load_loop pd tabs pgs l addr off n (Z.to_nat (n / PGSIZE) + 1) Ha Hal Hm Hk Ho Hend K X 0 Hu HI) as (K' & X' & H); [lia|done| |].
  - pose proof (Z.div_mod n PGSIZE ltac:(done)). pose proof (Z.mod_pos_bound n PGSIZE ltac:(done)). pose proof (Z.div_pos n PGSIZE Hn ltac:(done)). unfold PGSIZE in *. lia.
  - rewrite !Z.add_0_r, Z.sub_0_r in H. by exists K', X'.
Qed.

(** ** The program headers *)

(** The [n] headers at [off]. *)
Fixpoint headers (off : Z) (n : nat) : list Kern.proghdr :=
  match n with O => [] | Datatypes.S k => Kern.decode_ph (fbytes off Kern.sizeof_ph) :: headers (off + Kern.sizeof_ph) k end.

Definition loads (ph : Kern.proghdr) : bool := Kern.ph_type ph =? Kern.ELF_PROG_LOAD.
Definition seg_end (ph : Kern.proghdr) : Z := Kern.ph_vaddr ph + Kern.ph_memsz ph.

(** What [exec] does not check of a segment: it starts on a page, is not empty,
    does not wrap around, and its bytes are in the file. *)
Record sane (ph : Kern.proghdr) : Prop := MkSane {
  sn_page : 0 <= Kern.ph_vaddr ph /\ Kern.ph_vaddr ph mod PGSIZE = 0;
  sn_end : 0 < seg_end ph < 2 ^ 32;
  sn_file : 0 <= Kern.ph_off ph /\ 0 <= Kern.ph_filesz ph /\ Kern.ph_off ph + Kern.ph_filesz ph <= size
}.

(** What it checks. *)
Definition good (ph : Kern.proghdr) : bool := (Kern.ph_filesz ph <=? Kern.ph_memsz ph) && (seg_end ph <? KERNBASE).

(** Zeros from [a] to [b]. *)
Definition zeros (f : Z -> option Z) (a b x : Z) : option Z := if decide (a <= x < b) then Some 0 else f x.

(** The memory and the size of the program after the segments [phs]. *)
Fixpoint image (f : Z -> option Z) (sz : Z) (phs : list Kern.proghdr) : (Z -> option Z) * Z :=
  match phs with
  | [] => (f, sz)
  | ph :: r =>
      if loads ph then
        let sz' := Z.max sz (seg_end ph) in
        image (upd_bytes (zeros f (PGROUNDUP sz) (PGROUNDUP sz')) (Kern.ph_vaddr ph) (fbytes (Kern.ph_off ph) (Kern.ph_filesz ph))) sz' r
      else image f sz r
  end.

(** The size the segments that are good ask for. *)
Fixpoint top (sz : Z) (phs : list Kern.proghdr) : Z :=
  match phs with [] => sz | ph :: r => if loads ph && good ph then Z.max (seg_end ph) (top sz r) else top sz r end.

Lemma top_le sz phs : sz <= top sz phs.
Proof. induction phs as [|ph r IH]; cbn; [lia|]. destruct (loads ph && good ph); lia. Qed.

Lemma top_max sz ph r : loads ph = true -> good ph = true -> top sz (ph :: r) = top (Z.max sz (seg_end ph)) r.
Proof.
  intros H1 H2. cbn. rewrite H1, H2. cbn [andb]. clear. induction r as [|x r IH]; cbn; [lia|]. destruct (loads x && good x); lia.
Qed.

Lemma top_bound sz phs : sz < KERNBASE -> top sz phs < KERNBASE.
Proof. intros H. induction phs as [|ph r IH]; cbn; [done|]. unfold good. destruct (loads ph), (Kern.ph_filesz ph <=? _), (Z.ltb_spec (seg_end ph) KERNBASE); cbn; lia. Qed.

(** The new memory, made of its pages before and of pages of [l]. *)
Record built (K : Kalloc.kst) (pd : Z) (tabs : gmap Z Z) (pgs : pages) (l : list Z) (f : Z -> option Z) (sz : Z) (K' : Kalloc.kst) (tabs' : gmap Z Z) (pgs' : pages) (l' : list Z) : Prop := MkBuilt {
  bt_uvm : uvm K' pd tabs' pgs' l';
  bt_sized : sized pgs' sz;
  bt_bytes : forall x, ubyte (kmem K') pgs' x = f x;
  bt_took : forall x, foot pd tabs' pgs' x <-> foot pd tabs pgs x \/ took l l' x;
  bt_free : l' ⊆ l;
  bt_out : outside (kmem K) (kmem K') (fun x => foot pd tabs pgs x \/ x ∈ l)
}.

Lemma built_trans K pd tabs pgs l f1 sz1 K1 tabs1 pgs1 l1 f2 sz2 K2 tabs2 pgs2 l2 : built K pd tabs pgs l f1 sz1 K1 tabs1 pgs1 l1 -> built K1 pd tabs1 pgs1 l1 f2 sz2 K2 tabs2 pgs2 l2 ->
  built K pd tabs pgs l f2 sz2 K2 tabs2 pgs2 l2.
Proof.
  intros [A1 A2 A3 A4 A5 A6] [B1 B2 B3 B4 B5 B6]. split; [done|done|done| |by transitivity l1|].
  - intros x. rewrite B4, A4. unfold took. pose proof (A5 x). pose proof (B5 x). destruct (decide (x ∈ l1)); tauto.
  - eapply outside_trans; [exact A6|]. eapply outside_weaken; [exact B6|]. intros x [[?|[? _]]%A4|?%A5]; auto.
Qed.

(** [allocuvm] for one segment. *)
Lemma alloc_seg K pd tabs pgs l f sz newsz : uvm K pd tabs pgs l -> sized pgs sz -> (forall x, ubyte (kmem K) pgs x = f x) -> 0 <= sz < KERNBASE -> 0 <= newsz < KERNBASE ->
  2 * (PGROUNDUP (Z.max sz newsz) - PGROUNDUP sz) <= Z.of_nat (length l) * PGSIZE ->
  exists K' tabs' pgs' l', Vm.allocuvm kend pd sz newsz K = Ok (Z.max sz newsz) K' /\
    built K pd tabs pgs l (zeros f (PGROUNDUP sz) (PGROUNDUP (Z.max sz newsz))) (Z.max sz newsz) K' tabs' pgs' l' /\
    Z.of_nat (length l) * PGSIZE <= Z.of_nat (length l') * PGSIZE + 2 * (PGROUNDUP (Z.max sz newsz) - PGROUNDUP sz).
Proof.
  intros Hu Hs Hf Hsz Hn Hl. destruct (Z.lt_ge_cases newsz sz) as [Hlt|Hge].
  - rewrite Z.max_l by lia. exists K, tabs, pgs, l. unfold Vm.allocuvm. rewrite (proj2 (Z.leb_gt _ _)), (proj2 (Z.ltb_lt _ _)) by lia. split; [done|]. split; [|lia].
    split; [done|done| |intros x; unfold took; tauto|done|done]. intros x. unfold zeros. by rewrite decide_False by lia.
  - rewrite Z.max_r in * by lia. destruct (allocuvm_grown kend kdata Hkend Hkdata K pd tabs pgs l sz newsz Hu Hs) as (K' & tabs' & pgs' & l' & E & Hg & Hs' & Hlen); [lia|lia|done|].
    exists K', tabs', pgs', l'. split; [done|]. split; [|done]. destruct (PGROUNDUP_bounds sz) as [_ Ha]; [unfold KERNBASE, PGSIZE in *; lia|]. destruct (PGROUNDUP_bounds newsz) as [Hb' Hb]; [unfold KERNBASE, PGSIZE in *; lia|].
    destruct (grown_bytes _ _ _ _ _ _ _ _ _ _ _ _ _ Hg Ha Hb) as [G1 G2]. split; [apply Hg|done| |apply Hg|apply Hg|].
    + intros x. unfold zeros. case_decide as Hx; [by apply G2|]. rewrite <- Hf. destruct (Z.lt_ge_cases x (PGROUNDUP sz)); [by apply G1|].
      destruct (page_of x) as [Hm Hp]. unfold ubyte. rewrite (gt_old _ _ _ _ _ _ _ _ _ _ _ _ _ Hg).
      * destruct (pgs !! (x - x mod PGSIZE)) as [pf|] eqn:E0; [|done]. exfalso. assert (0 <= x - x mod PGSIZE < sz); [apply (Hs _ Hm); by rewrite E0|].
        unfold PGSIZE in *. apply Z.mod_divide in Ha as [y Ey]; [|lia]. apply Z.mod_divide in Hb as [z Ez]; [|lia]. apply Z.mod_divide in Hm as [w Ew]; [|lia]. lia.
      * right. unfold PGSIZE in *. apply Z.mod_divide in Hb as [z Ez]; [|lia]. apply Z.mod_divide in Hm as [w Ew]; [|lia]. lia.
    + eapply outside_weaken; [apply Hg|]. cbn. intros x [?|?]; [left; by left|by right].
Qed.

Lemma round_mono a b : 0 <= a <= b -> b < KERNBASE -> PGROUNDUP a <= PGROUNDUP b.
Proof. intros H1 H2. rewrite !PGROUNDUP_spec by (unfold KERNBASE, PGSIZE in *; lia). apply Z.mul_le_mono_nonneg_l; [done|]. apply Z.div_le_mono; [done|lia]. Qed.

(** One segment: [allocuvm], then [loaduvm]. *)
Lemma seg_run K X pd tabs pgs l f sz ph : uvm K pd tabs pgs l -> I X -> sized pgs sz -> (forall x, ubyte (kmem K) pgs x = f x) -> 0 <= sz < KERNBASE -> sane ph -> good ph = true ->
  2 * (PGROUNDUP (Z.max sz (seg_end ph)) - PGROUNDUP sz) <= Z.of_nat (length l) * PGSIZE ->
  let sz' := Z.max sz (seg_end ph) in
  exists K1 K' X' tabs' pgs' l', Vm.allocuvm kend pd sz (seg_end ph) K = Ok sz' K1 /\
    Vm.loaduvm Kern.kmem Kern.set_kmem (Kern.readi_to dsw ip) pd (Kern.ph_vaddr ph) (Kern.ph_off ph) (Kern.ph_filesz ph) (st K1 X) = Ok 0 (st K' X') /\ I X' /\
    built K pd tabs pgs l (upd_bytes (zeros f (PGROUNDUP sz) (PGROUNDUP sz')) (Kern.ph_vaddr ph) (fbytes (Kern.ph_off ph) (Kern.ph_filesz ph))) sz' K' tabs' pgs' l' /\
    Z.of_nat (length l) * PGSIZE <= Z.of_nat (length l') * PGSIZE + 2 * (PGROUNDUP sz' - PGROUNDUP sz).
Proof.
  intros Hu HI Hs Hf Hsz [[Hv Hp] He (Ho & Hfz & Hend)] Hg Hl sz'. apply andb_true_iff in Hg as [Hg1%Z.leb_le Hg2%Z.ltb_lt]. unfold seg_end in *.
  destruct (alloc_seg K pd tabs pgs l f sz (seg_end ph) Hu Hs Hf Hsz) as (K1 & tabs1 & pgs1 & l1 & E1 & H1 & Hl1); [unfold seg_end; lia|done|].
  destruct (loaduvm_run K1 X pd tabs1 pgs1 l1 (Kern.ph_vaddr ph) (Kern.ph_off ph) (Kern.ph_filesz ph) (bt_uvm _ _ _ _ _ _ _ _ _ _ _ H1) HI Hv Hp) as (K2 & X2 & E2 & HI2 & Hu2 & Ho2 & Hx2); [|lia|done|done|done|].
  { intros x Hx. destruct (page_of x) as [Hm Hr]. pose proof (Z.mod_le x PGSIZE ltac:(lia) ltac:(done)). apply (bt_sized _ _ _ _ _ _ _ _ _ _ _ H1 _ Hm). unfold seg_end. lia. }
  exists K1, K2, X2, tabs1, pgs1, l1. split; [done|]. split; [done|]. split; [done|]. split; [|done]. destruct H1 as [A1 A2 A3 A4 A5 A6]. split; [done|done| |done|done|].
  - intros x. rewrite Hx2. by apply upd_ext.
  - eapply outside_trans; [exact A6|]. eapply outside_weaken; [exact Ho2|]. intros x Hx. assert (foot pd tabs1 pgs1 x) as [?|[? _]]%A4 by (by right); auto.
Qed.

Lemma load_segs_run pd n : forall K X tabs pgs l f sz off, uvm K pd tabs pgs l -> I X -> sized pgs sz -> (forall x, ubyte (kmem K) pgs x = f x) -> 0 <= sz < KERNBASE ->
  0 <= off -> off + Kern.sizeof_ph * Z.of_nat n <= size -> Forall (fun ph => loads ph = true -> sane ph) (headers off n) ->
  2 * (PGROUNDUP (top sz (headers off n)) - PGROUNDUP sz) <= Z.of_nat (length l) * PGSIZE ->
  exists r K' X' tabs' pgs' l' f' sz', Kern.load_segs kend dsw ip pd sz off n (st K X) = Ok r (st K' X') /\ I X' /\ built K pd tabs pgs l f' sz' K' tabs' pgs' l' /\
    match r with
    | Some z => Forall (fun ph => loads ph = true -> good ph = true) (headers off n) /\ (f', z) = image f sz (headers off n) /\ sz' = z
    | None => Exists (fun ph => loads ph = true /\ good ph = false) (headers off n)
    end.
Proof.
  induction n as [|n IH]; intros K X tabs pgs l f sz off Hu HI Hs Hf Hsz Hoff Hend Hsane Hl; cbn [Kern.load_segs headers].
  { exists (Some sz), K, X, tabs, pgs, l, f, sz. split; [done|]. split; [done|]. split; [split; try done; intros x; unfold took; tauto|]. by split_and!. }
  cbn [headers] in Hsane, Hl. apply Forall_cons in Hsane as [Hph Hsane]. set (ph := Kern.decode_ph (fbytes off Kern.sizeof_ph)) in *. unfold Kern.sizeof_ph in *.
  destruct (Hread X off 32 HI) as (X1 & E1 & HI1); [lia|lia|lia|]. rewrite u32_small by lia. rewrite (bind_ok_l _ _ _ _ _ (run_fs s _ _ _ _ _ _ _ E1)). cbv beta iota. change (32 =? 32) with true. cbn [negb]. cbv zeta.
  fold ph. rewrite s32_small by lia. destruct (loads ph) eqn:Eld; unfold loads in Eld; rewrite Eld; cbn [negb].
  2: { destruct (IH K X1 tabs pgs l f sz (off + 32)) as (r & K' & X' & tabs' & pgs' & l' & f' & sz' & E & HI' & Hb & Hr); try done; [lia|lia|cbn in Hl; unfold loads in Hl; by rewrite Eld in Hl|].
    exists r, K', X', tabs', pgs', l', f', sz'. split; [done|]. split; [done|]. split; [done|]. destruct r as [z|]; [|by right]. cbn [image]. unfold loads at 2. rewrite Eld. destruct Hr as (? & ? & ?).
    split; [|done]. constructor; [|done]. unfold loads. by rewrite Eld. }
  specialize (Hph eq_refl). assert (forall r', Exists (fun ph => loads ph = true /\ good ph = false) (ph :: r') \/ good ph = true) as Hdec.
  { intros r'. destruct (good ph) eqn:Eg; [by right|left; by left]. }
  destruct (Z.ltb_spec (Kern.ph_memsz ph) (Kern.ph_filesz ph)) as [Hlt|Hge].
  { exists None, K, X1, tabs, pgs, l, f, sz. split; [done|]. split; [done|]. split; [split; try done; intros x; unfold took; tauto|]. destruct (Hdec (headers (off + 32) n)) as [|Hg]; [done|].
    apply andb_true_iff in Hg as [Hg%Z.leb_le _]. lia. }
  fold (seg_end ph). destruct (sn_end _ Hph) as [He1 He2]. rewrite u32_small by lia. destruct (Z.lt_ge_cases (seg_end ph) KERNBASE) as [Hk|Hk].
  2: { exists None, K, X1, tabs, pgs, l, f, sz. erewrite bind_ok_l by (apply run_m; unfold Vm.allocuvm; by rewrite (proj2 (Z.leb_le _ _) Hk)). split; [done|]. split; [done|]. split; [split; try done; intros x; unfold took; tauto|].
    destruct (Hdec (headers (off + 32) n)) as [|Hg]; [done|]. apply andb_true_iff in Hg as [_ Hg%Z.ltb_lt]. lia. }
  assert (good ph = true) as Hg by (apply andb_true_iff; split; [by apply Z.leb_le|by apply Z.ltb_lt]). rewrite (top_max _ _ _ Eld Hg) in Hl.
  pose proof (top_le (Z.max sz (seg_end ph)) (headers (off + 32) n)) as Htl. pose proof (top_bound (Z.max sz (seg_end ph)) (headers (off + 32) n) ltac:(lia)) as Htb.
  pose proof (round_mono _ _ (conj (Z.le_trans _ _ _ (proj1 Hsz) (Z.le_max_l sz (seg_end ph))) Htl) Htb) as Hrm.
  destruct (seg_run K X1 pd tabs pgs l f sz ph Hu HI1 Hs Hf Hsz Hph Hg) as (K1 & K2 & X2 & tabs2 & pgs2 & l2 & E2 & E3 & HI2 & Hb2 & Hl2); [unfold PGSIZE in *; lia|].
  rewrite (bind_ok_l _ _ _ _ _ (run_m s _ _ _ _ _ _ _ E2)), (proj2 (Z.eqb_neq _ _)) by lia. rewrite (bind_ok_l _ _ _ _ _ E3). change (0 <? 0) with false. cbv iota.
  destruct (IH K2 X2 tabs2 pgs2 l2 _ (Z.max sz (seg_end ph)) (off + 32) (bt_uvm _ _ _ _ _ _ _ _ _ _ _ Hb2) HI2 (bt_sized _ _ _ _ _ _ _ _ _ _ _ Hb2) (bt_bytes _ _ _ _ _ _ _ _ _ _ _ Hb2))
    as (r & K' & X' & tabs' & pgs' & l' & f' & sz' & E & HI' & Hb & Hr); [lia|lia|lia|done|unfold PGSIZE in *; lia|].
  exists r, K', X', tabs', pgs', l', f', sz'. split; [done|]. split; [done|]. split; [by eapply built_trans|]. destruct r as [z|]; [|by right]. cbn [image]. unfold loads at 2. rewrite Eld. destruct Hr as (? & ? & ?).
  split; [by constructor|done].
Qed.

(** ** A segment that wraps around

    [exec] adds the size of a segment to its address without a test for a
    carry.  A segment that starts in the kernel and wraps around to an end inside
    of the program passes [allocuvm], and [loaduvm] writes the kernel's memory. *)

Lemma kpte_direct va : KERNBASE <= va < KERNBASE + PHYSTOP -> va mod PGSIZE = 0 -> PTE_ADDR (kpte (Vm.kmap kdata) va 0) = va - KERNBASE /\ kpte (Vm.kmap kdata) va 0 <> 0.
Proof.
  intros Hva Hm. assert ((va - KERNBASE) mod PGSIZE = 0) as Ha by (by apply aligned_sub). assert (v2p kdata = kdata - KERNBASE) as Ev by (unfold v2p; rewrite u32_small; [done|unfold KERNLINK, KERNBASE, EXTMEM, PHYSTOP in *; lia]).
  assert (exists f, kpte (Vm.kmap kdata) va 0 = va - KERNBASE + f /\ 0 < f < PGSIZE) as (f & -> & Hf).
  { pose proof (kmap_ranges kdata Hkdata) as Hr. unfold Vm.kmap in *. apply Forall2_cons in Hr as [(_ & V1 & S1) Hr]. apply Forall2_cons in Hr as [(_ & V2 & S2) Hr]. apply Forall2_cons in Hr as [(_ & V3 & S3) _].
    cbn [kpte]. unfold krange. rewrite S1, S2, S3. cbn [Vm.virt Vm.phys_start Vm.kperm fst snd] in *. change (v2p KERNLINK) with EXTMEM. rewrite Ev.
    repeat case_bool_decide; [exists (PTE_W .| PTE_P)|exists (0 .| PTE_P)|exists (PTE_W .| PTE_P)|exfalso..]; try (split; [unfold KERNLINK, KERNBASE, EXTMEM in *; lia|done]); unfold KERNLINK, KERNBASE, EXTMEM, PHYSTOP in *; lia. }
  split; [|unfold PGSIZE in *; lia]. apply PTE_ADDR_add; [done|unfold KERNBASE, PHYSTOP in *; lia|lia].
Qed.

(** [loaduvm] of at most a page to an address of the kernel. *)
Lemma loaduvm_kernel K X pd tabs pgs l va off n : uvm K pd tabs pgs l -> I X -> KERNBASE <= va < KERNBASE + PHYSTOP -> va mod PGSIZE = 0 -> 0 <= off -> 0 < n <= PGSIZE -> off + n <= size ->
  exists K' X', Vm.loaduvm Kern.kmem Kern.set_kmem (Kern.readi_to dsw ip) pd va off n (st K X) = Ok 0 (st K' X') /\ I X' /\ forall o, 0 <= o < n -> rd8 (kmem K') (va + o) = byte (off + o).
Proof.
  intros Hu HI Hva Hm Hoff Hn Hend. pose proof (u_asp _ _ _ _ _ _ _ Hu) as Ha. destruct (kpte_direct va Hva Hm) as [Ek Hk]. assert (0 <= va < 2 ^ 32) as Hv by (unfold KERNBASE, PHYSTOP in *; lia).
  pose proof (as_kern _ _ _ _ _ _ Ha va ltac:(unfold KERNBASE, PHYSTOP in *; lia) Hm) as Ep. unfold pte_of in Ep. destruct (tabs !! PDX va) as [t|] eqn:Et; [|congruence].
  destruct (Hread X off n HI) as (X' & E & HI'); [lia|lia|lia|]. eexists _, X'. split; [|split; [done|]].
  - unfold Vm.loaduvm. rewrite Hm. change (truthy 0) with false. cbv iota. rewrite Nat.add_comm. cbn [Nat.add Vm.loaduvm_loop]. rewrite (proj2 (Z.ltb_lt _ _)) by lia. rewrite !Z.add_0_r, !u32_small by (unfold PGSIZE in *; lia).
    erewrite bind_ok_l by (apply zoom_upd, (walk_found kend K pd tabs va (as_pt _ _ _ _ _ _ Ha)), Et). destruct (pt_some _ _ _ _ (as_pt _ _ _ _ _ _ Ha) _ _ Et) as (_ & Ht & _).
    pose proof (Kalloc.page_ok_range kend t Ht). pose proof (PTX_range va). rewrite (proj2 (Z.eqb_neq _ _)) by lia. erewrite bind_ok_l by (apply zoom_upd; reflexivity). cbv zeta. rewrite Ep, Ek, Z.sub_0_r.
    replace (if n <? PGSIZE then n else PGSIZE) with n by (destruct (Z.ltb_spec n PGSIZE); lia). replace (p2v (va - KERNBASE)) with va by (unfold p2v; rewrite u32_small; unfold KERNBASE in *; lia).
    erewrite bind_ok_l; [|unfold Kern.readi_to; rewrite (bind_ok_l _ _ _ _ _ (run_fs s _ _ _ _ _ _ _ E)); cbv beta iota; erewrite bind_ok_l by (apply run_m; reflexivity); reflexivity].
    rewrite Z.eqb_refl. cbn [negb]. destruct (Z.to_nat (n / PGSIZE)); cbn [Vm.loaduvm_loop]; rewrite (proj2 (Z.ltb_ge _ _)) by lia; reflexivity.
  - intros o Ho. cbn. rewrite rd8_store_bytes by (by apply fbytes_wf). pose proof (length_fbytes off n). rewrite decide_True by lia. replace (va + o - va) with o by lia.
    unfold fbytes. apply nth_lookup_Some. rewrite list_lookup_fmap, lookup_seqZ_lt by lia. cbn. do 2 f_equal. lia.
Qed.

(** Such a segment, in a program of [sz] bytes. *)
Lemma load_segs_wraps K X pd tabs pgs l sz off : uvm K pd tabs pgs l -> I X -> sz < KERNBASE -> 0 <= off -> off + Kern.sizeof_ph <= size ->
  let ph := Kern.decode_ph (fbytes off Kern.sizeof_ph) in
  loads ph = true -> KERNBASE <= Kern.ph_vaddr ph < KERNBASE + PHYSTOP -> Kern.ph_vaddr ph mod PGSIZE = 0 -> u32 (seg_end ph) < sz ->
  0 <= Kern.ph_off ph -> 0 < Kern.ph_filesz ph <= Kern.ph_memsz ph -> Kern.ph_filesz ph <= PGSIZE -> Kern.ph_off ph + Kern.ph_filesz ph <= size ->
  exists K' X', Kern.load_segs kend dsw ip pd sz off 1 (st K X) = Ok (Some sz) (st K' X') /\ forall o, 0 <= o < Kern.ph_filesz ph -> rd8 (kmem K') (Kern.ph_vaddr ph + o) = byte (Kern.ph_off ph + o).
Proof.
  intros Hu HI Hsz Hoff Hend ph Hld Hva Hm Hw Ho Hfz Hpg Hfe. unfold Kern.sizeof_ph in *. destruct (Hread X off 32 HI) as (X1 & E1 & HI1); [lia|lia|lia|].
  destruct (loaduvm_kernel K X1 pd tabs pgs l (Kern.ph_vaddr ph) (Kern.ph_off ph) (Kern.ph_filesz ph) Hu HI1 Hva Hm Ho) as (K2 & X2 & E2 & _ & Hb); [lia|lia|]. exists K2, X2. split; [|done].
  cbn [Kern.load_segs]. rewrite u32_small by lia. rewrite (bind_ok_l _ _ _ _ _ (run_fs s _ _ _ _ _ _ _ E1)). cbv beta iota. change (32 =? Kern.sizeof_ph) with true. cbn [negb]. cbv zeta. fold ph.
  unfold loads in Hld. rewrite Hld. cbn [negb]. rewrite (proj2 (Z.ltb_ge _ _)) by lia. fold (seg_end ph). pose proof (u32_range (seg_end ph)).
  erewrite bind_ok_l by (apply run_m; unfold Vm.allocuvm; rewrite (proj2 (Z.leb_gt _ _)), (proj2 (Z.ltb_lt _ _) Hw) by lia; reflexivity). rewrite (proj2 (Z.eqb_neq _ _)) by lia. by rewrite (bind_ok_l _ _ _ _ _ E2).
Qed.
End load.

(** ** The theorem *)

Section segments.
Context (kend kdata : Z).
Context (Hkend : KERNLINK < kend) (Hkdata : kdata mod PGSIZE = 0 /\ KERNLINK < kdata < KERNBASE + PHYSTOP).
Context (g : geo) (sb : superblock) (Hly : layout g sb).
#[local] Abbreviation kern := (Kern.kern (S := BlockSpec.st)).

(** The kernel in [exec] with the locked inode [ip] of the program, in a
    transaction, and the empty address space [pd]. *)
Record load_pre (s : kern) (ip : nat) (v : gmap Z bytes) (L : list Z) (c : nat -> inode) (pd : Z) (tabs : gmap Z Z) (l : list Z) : Prop := MkLoadPre {
  lp_lock : File.ftlock (Kern.kf s) = false;
  lp_tx : tx g ∅ v L sb c (File.ffs (Kern.kf s)) /\ FsTx.room g 0 L;
  lp_file : fsok g sb v (c ip) /\ no_holes v (c ip) /\ 0 <= isize (c ip) <= MAXFILE * BSIZE /\ itype (c ip) <> T_DEV;
  lp_bytes : forall o, 0 <= o < isize (c ip) -> 0 <= fbyte v (c ip) o < 256;
  lp_new : uvm kend kdata (File.fmem (Kern.kf s)) pd tabs ∅ l
}.

Lemma readi_file dsw ip v L c X off n : tx g ∅ v L sb c X -> FsTx.room g 0 L -> fsok g sb v (c ip) -> no_holes v (c ip) -> 0 <= isize (c ip) <= MAXFILE * BSIZE -> itype (c ip) <> T_DEV ->
  0 <= off -> 0 <= n -> off + n <= isize (c ip) -> exists X', Fs.readi dsw ip off n X = Ok (n, fbytes (fbyte v (c ip)) off n) X' /\ tx g ∅ v L sb c X'.
Proof.
  intros Ht Hr Hok Hh Hsz Hty Hoff Hn Hend. assert (isize (c ip) < 2 ^ 31) as Hs by (change (MAXFILE * BSIZE) with 71680 in Hsz; lia).
  destruct (readi_tx g sb Hly dsw ip off n v L c Hok Hh Hr (proj2 Hsz) Hty ltac:(lia) ltac:(lia) X Ht) as (r & X' & E & -> & Ht').
  exists X'. split; [|done]. rewrite E, (proj2 (Z.leb_le _ _)), (proj2 (Z.ltb_lt _ _)), Z.min_l by lia. done.
Qed.

(** C13: The loop of [exec] over the program headers builds the image they
    describe.  On a file whose loadable segments start on a page, are not empty,
    do not wrap around and have their bytes in the file, with two free pages for
    each page of the image, it returns.  If every segment has at least the size
    of its bytes in the file and ends below the kernel, the result is the size of
    the image, and the memory is that of the segments in order, each filled with
    its bytes of the file, and zeros everywhere else; otherwise [exec] is to
    fail.  The new memory is made of free pages, nothing else in memory changes,
    and the file system is as before.  A loop that runs out of memory is not
    covered. *)
Theorem load_segs_correct (s : kern) dsw ip v L c pd tabs l off n : load_pre s ip v L c pd tabs l -> let file := fbyte v (c ip) in let phs := headers file off n in
  0 <= off -> off + Kern.sizeof_ph * Z.of_nat n <= isize (c ip) -> Forall (fun ph => loads ph = true -> sane (isize (c ip)) ph) phs ->
  2 * PGROUNDUP (top 0 phs) <= Z.of_nat (length l) * PGSIZE ->
  exists r s' tabs' pgs' l' f' sz', Kern.load_segs kend dsw ip pd 0 off n s = Ok r s' /\
    built kend kdata (File.fmem (Kern.kf s)) pd tabs ∅ l f' sz' (File.fmem (Kern.kf s')) tabs' pgs' l' /\
    tx g ∅ v L sb c (File.ffs (Kern.kf s')) /\ Kern.kp s' = Kern.kp s /\ File.ftab (Kern.kf s') = File.ftab (Kern.kf s) /\
    match r with
    | Some z => Forall (fun ph => loads ph = true -> good ph = true) phs /\ (f', z) = image file (fun _ => None) 0 phs /\ sz' = z
    | None => Exists (fun ph => loads ph = true /\ good ph = false) phs
    end.
Proof.
  intros [Hlk [Ht Hr] (Hok & Hh & Hsz & Hty) Hb Hu] file phs Hoff Hend Hsane Hl.
  destruct (load_segs_run kend kdata Hkend Hkdata dsw ip (tx g ∅ v L sb c) file (isize (c ip))) with (s := s) (P := Kern.kp s) (ft := File.ftab (Kern.kf s)) (pd := pd) (n := n) (K := File.fmem (Kern.kf s))
    (X := File.ffs (Kern.kf s)) (tabs := tabs) (pgs := ∅ : pages) (l := l) (f := fun _ : Z => None : option Z) (sz := 0) (off := off)
    as (r & K' & X' & tabs' & pgs' & l' & f' & sz' & E & Ht' & Hbt & Hres); try done.
  - intros X o k HX Ho Hk Hek. by apply (readi_file dsw ip v L c X o k).
  - change (MAXFILE * BSIZE) with 71680 in Hsz. lia.
  - intros va Hva. rewrite lookup_empty. split; [by intros [? ?]|lia].
  - change (PGROUNDUP 0) with 0. fold phs. lia.
  - exists r, (upd s (Kern.kp s) K' (File.ftab (Kern.kf s)) X'), tabs', pgs', l', f', sz'. rewrite <- (upd_self s Hlk) in E. by split_and!.
Qed.
End segments.

(** ** An example: a file with one segment of three bytes *)

Module LoadEx.
Definition prog : bytes := mjoin (le_enc 4 <$> [1; 32; 0; 0; 3; 8; 0; 0]) ++ [10; 20; 30].
Definition img : gmap Z bytes := <[35 := splice 0 prog (replicate 512 65)]> FsEx.img.
Definition g : geo := MkGeo 2 30 100 img.
Definition X : fsst :=
  Fs.MkFs (Log.MkSt (Log.MkLog false 2 30 1 0 1 0 (replicate 30 0) 0) (BlockSpec.MkBs img img ∅ ∅ 100 [])) FsEx.sb false FsEx.c [].
Definition st (k : Kalloc.kst) (d : Z) : Kern.kern :=
  Kern.MkKern (Proc.MkPt [KernEx.proc d; proc0] false 2 (Some 0%nat) (Cli.MkCpu 0 true true) (Some 0%nat))
    (File.MkFstate (fun _ => file0) false ∅ X k) 0 false true.

Lemma prog_blk b : blk img b = if decide (b = 35) then splice 0 prog (replicate 512 65) else blk FsEx.img b.
Proof. unfold img. case_decide as E; [subst; by rewrite blk_insert_eq|by rewrite blk_insert_ne]. Qed.

Lemma prog_len : len_ok img.
Proof. intros b. rewrite prog_blk. case_decide; [done|apply FsEx.fs_img_len]. Qed.

Lemma prog_layout : layout g FsEx.sb.
Proof. destruct FsEx.ly. by split. Qed.

Lemma prog_tx : tx g ∅ img [] FsEx.sb FsEx.c X.
Proof.
  split; try done. apply Log.MkTxn; try done.
  - split; [apply NoDup_nil_2|simpl; lia|]. intros b Hb. by apply not_elem_of_nil in Hb.
  - apply prog_len.
  - apply prog_len.
Qed.

Lemma prog_addr n : addr_of img FsEx.ip n = addr_of FsEx.img FsEx.ip n.
Proof. reflexivity. Qed.

Lemma prog_used b : 0 <= b < 100 -> used img FsEx.sb b = used FsEx.img FsEx.sb b.
Proof.
  intros Hb. unfold used. rewrite prog_blk, decide_False; [done|]. unfold BBLOCK. rewrite Z.div_small; [done|]. change BPB with 4096. lia.
Qed.

Lemma prog_ok : fsok g FsEx.sb img FsEx.ip.
Proof.
  destruct FsEx.ex_ok as [_ Hm [H1 H2 _ H4 H5]]. split; [apply prog_len|intros b Hb Hmb; rewrite prog_used by done; by apply Hm|]. split; [done|done|done| |done].
  intros bn Hbn Hne. destruct (H4 bn Hbn Hne) as [(D1 & D2 & D3) D4]. split; [|done]. split; [done|]. split; [done|]. by rewrite prog_used.
Qed.

Lemma prog_bytes o : 0 <= o < 600 -> 0 <= fbyte img FsEx.ip o < 256.
Proof.
  intros Ho. assert (forallb (fun o => (0 <=? fbyte img FsEx.ip o) && (fbyte img FsEx.ip o <? 256)) (seqZ 0 600) = true) as H by (vm_compute; done).
  rewrite forallb_forall in H. assert (o ∈ seqZ 0 600) as Hin%list_elem_of_In by (apply elem_of_seqZ; lia). apply H, andb_true_iff in Hin as [?%Z.leb_le ?%Z.ltb_lt]. done.
Qed.

Lemma prog_ready : exists k d tabs l, load_pre UvmEx.kend UvmEx.kdata g FsEx.sb (st k d) 0 img [] FsEx.c d tabs l /\ 8 <= Z.of_nat (length l).
Proof.
  destruct UvmEx.first_space as (k & l & d & tabs & pgs & [Hr Ha Hap] & Hs & Hl & _).
  destruct (setupkvm_spec UvmEx.kend UvmEx.kdata UvmEx.uhkdata k l Hr) as (pd & k2 & l2 & _ & Hr2 & Hs2 & Ho & [(_ & _ & ?)|(tabsn & _ & Hu & Ht)]); [lia|].
  exists k2, pd, tabsn, l2. split; [split|].
  - done.
  - split; [exact prog_tx|]. unfold FsTx.room. cbn. lia.
  - split; [exact prog_ok|]. split; [exact FsEx.ex_holes|]. split; [change (0 <= 600 <= 71680); lia|discriminate].
  - exact prog_bytes.
  - exact Hu.
  - assert (length l <= 1025 + 0 + length l2)%nat; [|lia]. change 0%nat with (size (∅ : pages)). apply (foot_bound UvmEx.kend (kmem k2) pd tabsn ∅); [apply Hu|apply Hr|].
    intros p Hp. destruct (decide (p ∈ l2)); [by right|left; left]. apply Ht. by split.
Qed.
End LoadEx.

Lemma load_segs_correct_witness : exists k d s', Kern.load_segs UvmEx.kend FsEx.nodev 0 d 0 0 1 (LoadEx.st k d) = Ok (Some 8) s'.
Proof.
  destruct LoadEx.prog_ready as (k & d & tabs & l & Hpre & Hl).
  destruct (load_segs_correct UvmEx.kend UvmEx.kdata UvmEx.uhkend UvmEx.uhkdata LoadEx.g FsEx.sb LoadEx.prog_layout (LoadEx.st k d) FsEx.nodev 0 LoadEx.img [] FsEx.c d tabs l 0 1 Hpre)
    as (r & s' & tabs' & pgs' & l' & f' & sz' & E & _ & _ & _ & _ & Hr).
  - lia.
  - change (0 + 32 * 1 <= 600). lia.
  - change (Forall (fun ph => loads ph = true -> sane 600 ph) [Kern.MkPh 1 32 0 3 8]). repeat constructor; cbn; lia.
  - change (2 * PGROUNDUP (top 0 [Kern.MkPh 1 32 0 3 8]) <= Z.of_nat (length l) * PGSIZE). change (2 * 4096 <= Z.of_nat (length l) * 4096). lia.
  - exists k, d, s'. rewrite E. destruct r as [z|].
    + destruct Hr as (_ & Hi & _). change (headers _ 0 1) with [Kern.MkPh 1 32 0 3 8] in Hi. injection Hi as _ ->. reflexivity.
    + exfalso. change (headers _ 0 1) with [Kern.MkPh 1 32 0 3 8] in Hr. apply Exists_cons in Hr as [[_ Hx]|Hx]; [discriminate Hx|by apply Exists_nil in Hx].
Defined.
