(* ===== verification/Exec.v ===== *)
(** * exec: the stack of a new program

    The second half of [exec] on the state of the kernel: the two pages above
    the program, the argument strings copied from the old memory of the process
    to the new one, the vector of pointers to them, and the change to the new
    image.  A program finds at its stack pointer what C expects of a call of
    [main(argc, argv)]. *)

From S2P Require Import Prelude Memory Layout Cstring Spinlock Kalloc Vm VmSpec Uvm UvmSpec Proc ProcSpec ProcSmp Pipe Block Log Fs FsIno FsSpec File Kern KernRun KernArg Fork.

#[local] Abbreviation kmem := Kalloc.kmem_mem.

(** ** The layout of the strings *)

(** The place of a string of [len] bytes below [sp]. *)
Definition below (sp len : Z) : Z := 4 * ((sp - len) / 4).

Lemma below_mask sp len : 0 <= sp - len < 2 ^ 32 -> u32 (sp - len) .& 0xFFFFFFFC = below sp len.
Proof.
  intros H. rewrite u32_small by done. unfold below. change 0xFFFFFFFC with (Z.ones 30 ≪ 2). rewrite Z.mul_comm. change 4 with (2 ^ 2). rewrite <- Z.shiftl_mul_pow2, <- Z.shiftr_div_pow2 by lia.
  apply Z.bits_inj'. intros n Hn. rewrite Z.land_spec, !Z.shiftl_spec by done. destruct (Z.lt_ge_cases n 2); [rewrite !(Z.testbit_neg_r _ (n - 2)) by lia; apply andb_false_r|].
  rewrite Z.shiftr_spec by lia. replace (n - 2 + 2) with n by lia. rewrite Z.testbit_ones by lia. destruct (Z.lt_ge_cases n 32).
  - rewrite (proj2 (Z.leb_le _ _)), (proj2 (Z.ltb_lt _ _)) by lia. apply andb_true_r.
  - rewrite (Z.bits_above_log2 (sp - len)); [done|lia|]. destruct (decide (sp - len = 0)) as [->|]; [cbn; lia|]. apply Z.log2_lt_pow2; [lia|].
    apply Z.lt_le_trans with (2 ^ 32); [lia|]. apply Z.pow_le_mono_r; lia.
Qed.

Lemma below_bounds sp len : sp - len - 4 < below sp len <= sp - len.
Proof. unfold below. pose proof (Z.div_mod (sp - len) 4 ltac:(lia)). pose proof (Z.mod_pos_bound (sp - len) 4 ltac:(lia)). lia. Qed.

#[local] Abbreviation len b := (Z.of_nat (length b)).

(** The places of the strings, the lowest, and the memory [f] with them in it. *)
Fixpoint places (sp : Z) (args : list bytes) : list Z :=
  match args with [] => [] | b :: r => below sp (len b) :: places (below sp (len b)) r end.

Fixpoint low (sp : Z) (args : list bytes) : Z :=
  match args with [] => sp | b :: r => low (below sp (len b)) r end.

Fixpoint stored (f : Z -> option Z) (sp : Z) (args : list bytes) : Z -> option Z :=
  match args with [] => f | b :: r => stored (upd_bytes f (below sp (len b)) b) (below sp (len b)) r end.

Lemma length_places sp args : length (places sp args) = length args.
Proof. revert sp. induction args as [|b r IH]; intros sp; cbn; [done|by rewrite IH]. Qed.

Lemma low_le sp args : low sp args <= sp.
Proof. revert sp. induction args as [|b r IH]; intros sp; cbn; [lia|]. pose proof (IH (below sp (len b))). pose proof (below_bounds sp (len b)). lia. Qed.

Lemma low_aligned sp args : sp mod 4 = 0 -> low sp args mod 4 = 0.
Proof.
  revert sp. induction args as [|b r IH]; intros sp H; cbn; [done|]. apply IH. unfold below. rewrite Z.mul_comm. by apply Z.mod_mul.
Qed.

Lemma stored_out f sp args x : x < low sp args \/ sp <= x -> stored f sp args x = f x.
Proof.
  revert f sp. induction args as [|b r IH]; intros f sp Hx; cbn in *; [done|]. pose proof (low_le (below sp (len b)) r). pose proof (below_bounds sp (len b)).
  rewrite IH by lia. unfold upd_bytes. rewrite decide_False; [done|lia].
Qed.

(** The bytes [b] are at [va] in the memory [f]. *)
Definition has (f : Z -> option Z) (va : Z) (b : bytes) : Prop := forall i, (i < length b)%nat -> f (va + Z.of_nat i) = b !! i.

Lemma has_upd f va b : has (upd_bytes f va b) va b.
Proof.
  intros i Hi. unfold upd_bytes. rewrite decide_True by lia. replace (Z.to_nat (va + Z.of_nat i - va)) with i by lia. destruct (lookup_lt_is_Some_2 b i Hi) as [c Hc]. rewrite Hc. f_equal. by apply nth_lookup_Some.
Qed.

Lemma stored_has f g sp args : (forall x, low sp args <= x < sp -> g x = stored f sp args x) -> Forall2 (has g) (places sp args) args.
Proof.
  revert f sp. induction args as [|b r IH]; intros f sp Hg; cbn in *; [constructor|]. pose proof (below_bounds sp (len b)). constructor.
  - intros i Hi. pose proof (low_le (below sp (len b)) r). rewrite Hg, stored_out by lia. by apply has_upd.
  - eapply IH. intros x Hx. apply Hg. lia.
Qed.

Lemma page_base base x : base mod PGSIZE = 0 -> base <= x < base + PGSIZE -> x - x mod PGSIZE = base.
Proof.
  unfold PGSIZE. intros H Hx. apply Z.mod_divide in H as [k ->]; [|lia]. rewrite (Z.mod_eq x 4096) by lia. replace (x / 4096) with k by (apply (Z.div_unique _ _ _ (x - k * 4096)); lia). lia.
Qed.

(** ** The argument strings *)

Section exec.
Context {S : Type} `{D : BlockDev S}.
Context (kend kdata : Z).
Context (Hkend : KERNLINK < kend) (Hkdata : kdata mod PGSIZE = 0 /\ KERNLINK < kdata < KERNBASE + PHYSTOP).
#[local] Abbreviation rep := (Kalloc.rep kend).
#[local] Abbreviation asp := (asp kend kdata).
#[local] Abbreviation uvm := (uvm kend kdata).
#[local] Abbreviation kern := (Kern.kern (S := S)).

(** The string at [a], with its NUL, is [b]; it ends before [sz] and has at most
    a page. *)
Definition carg (m : mem) (pgs : pages) (sz a : Z) (b : bytes) : Prop :=
  (exists str, b = str ++ [0] /\ 0 ∉ str) /\ 0 <= a /\ a + len b <= sz /\ len b <= PGSIZE /\ ubytes m pgs a b.

Lemma ustr_run (s : kern) p tabs pgs str fuel : cur_space kend kdata s p tabs pgs -> 0 ∉ str -> forall a, 0 <= a -> a + len (str ++ [0]) <= sz p ->
  ubytes (KernRun.kmem s) pgs a (str ++ [0]) -> (length str < fuel)%nat -> Kern.ustr a fuel s = Ok (str ++ [0]) s /\ bytes_wf (str ++ [0]).
Proof.
  intros Hc. revert fuel. induction str as [|c str IH]; intros fuel Hz a Ha Hsz Hu Hf; (destruct fuel as [|fuel]; [cbn in Hf; lia|]); cbn [Kern.ustr].
  all: destruct (uld8_run kend kdata Hkend s p tabs pgs a Hc) as (v & E & Hv & Hr); [cbn in Hsz; lia|]; rewrite (bind_ok_l _ _ _ _ _ E).
  all: pose proof (Hu 0%nat ltac:(cbn; lia)) as H0; rewrite Z.add_0_r, Hv in H0; injection H0 as ->.
  - split; [done|]. by repeat constructor.
  - apply not_elem_of_cons in Hz as [Hz Hz']. rewrite (proj2 (Z.eqb_neq _ _)) by done. pose proof (cs_size _ _ _ _ _ _ Hc). cbn in Hsz. rewrite u32_small by (unfold KERNBASE in *; lia).
    destruct (IH fuel Hz' (a + 1)) as [E2 Hw]; [lia|lia| |cbn in Hf; lia|rewrite (bind_ok_l _ _ _ _ _ E2); split; [done|by constructor]].
    intros i Hi. rewrite <- (Hu (Datatypes.S i) ltac:(cbn; lia) : _ = (str ++ [0]) !! i). f_equal. lia.
Qed.

(** The process [p] runs, with the memory [pgs] of the state [K0]; the new memory
    [pgsn] has its stack in the page [base] and the page below is out of reach. *)
Context (s : kern) (P : Proc.ptable) (ft : nat -> file) (X : Fs.fs S) (i : nat) (p : proc).
Context (Hcur : Proc.curproc P = Some i /\ Proc.procs P !! i = Some p).
Context (K0 : Kalloc.kst) (tabs : gmap Z Z) (pgs : pages).
Context (Hold : asp (kmem K0) (pgdir p) tabs pgs) (Hsized : sized pgs (sz p)) (Hsz : 0 <= sz p <= KERNBASE).
Context (pd : Z) (tabsn : gmap Z Z) (pgsn : pages) (l : list Z) (base : Z).
Context (Hdisj : forall x, foot pd tabsn pgsn x -> ~ foot (pgdir p) tabs pgs x).
Context (Hbase : base mod PGSIZE = 0 /\ PGSIZE <= base /\ base + PGSIZE <= KERNBASE).
Context (Hstack : exists q, pgsn !! base = Some (q, UFLAGS)).
Context (Hguard : exists q f, pgsn !! (base - PGSIZE) = Some (q, f) /\ truthy (f .& PTE_U) = false).

#[local] Abbreviation st K := (upd s P K ft X).

(** The new memory is [f], and nothing else has changed since [K0]. *)
Definition filled (K : Kalloc.kst) (f : Z -> option Z) : Prop :=
  uvm K pd tabsn pgsn l /\ outside (kmem K0) (kmem K) (upages pgsn) /\ forall x, ubyte (kmem K) pgsn x = f x.

Lemma filled_ext K f g : filled K f -> (forall x, f x = g x) -> filled K g.
Proof. intros (H1 & H2 & H3) Hfg. split; [done|]. split; [done|]. intros x. by rewrite H3. Qed.

Lemma filled_old K f : filled K f -> asp (kmem K) (pgdir p) tabs pgs /\ (forall va, ubyte (kmem K) pgs va = ubyte (kmem K0) pgs va) /\
  forall x, Kalloc.page_ok kend x -> ~ foot pd tabsn pgsn x -> same_page (kmem K0) (kmem K) x.
Proof.
  intros (Hu & Ho & _). assert (forall q, upages pgsn q -> Kalloc.page_ok kend q /\ foot pd tabsn pgsn q) as Hq.
  { intros q Hq. split; [eapply foot_ok; [apply Hu|]|]; by right. }
  destruct (outside_foot kend kdata _ _ _ _ _ _ Hold Ho) as [Ha Hs]; [intros q [? ?]%Hq; split; [done|by apply Hdisj]|]. split; [done|]. split.
  - intros va. apply ubyte_same. intros b x f' Hx. apply Hs. right. eauto.
  - intros x Hx Hn. apply (outside_same kend _ _ _ x Ho Hx). intros q [? ?]%Hq. split; [done|]. by intros ->.
Qed.

Lemma filled_cur K f : filled K f -> cur_space kend kdata (st K) p tabs pgs.
Proof.
  intros Hf. destruct (filled_old K f Hf) as [Ha _]. destruct Hcur as [Hc Hp]. split; [exists i; split; [done|by apply list_lookup_total_correct]|done|done|done|].
  destruct Hf as [[Hr _ _] _]. by destruct Hr as (_ & _ & ? & _).
Qed.

(** [copyout] into the stack page, and past its lower end. *)
Lemma filled_copyout K f va b : filled K f -> base <= va -> va + len b <= base + PGSIZE -> bytes_wf b ->
  exists K', Vm.copyout pd va b (len b) K = Ok 0 K' /\ filled K' (upd_bytes f va b).
Proof.
  intros (Hu & Ho & Hx) Hva Hend Hb. destruct (copyout_loop_spec kend kdata Hkend Hkdata pd tabsn pgsn l (Z.to_nat (len b)) K va b Hu) as (K' & E & Hu' & Ho' & Hx'); [lia|lia|done| |lia|].
  - intros x Hxr. destruct Hstack as [q Hq]. exists q, UFLAGS. by rewrite (page_base base) by (tauto || lia).
  - exists K'. split; [done|]. split; [done|]. split; [by eapply outside_trans|]. intros x. rewrite Hx'. by apply upd_ext.
Qed.

Lemma filled_refused K f va b : filled K f -> base - PGSIZE <= va < base -> b <> [] -> Vm.copyout pd va b (len b) K = Ok (-1) K.
Proof.
  intros (Hu & _) Hva Hb. destruct Hguard as (q & g & Hq & HU). apply (copyout_guard kend kdata Hkend K pd tabsn pgsn va b q g); [apply Hu|lia|done| |done].
  rewrite (page_base (base - PGSIZE)); [done| |lia]. replace (base - PGSIZE) with (base + -1 * PGSIZE) by lia. apply aligned_add, Hbase.
Qed.

(** The strings fit in the page, and there are not too many. *)
Definition fits (sp argc : Z) (args : list bytes) : Prop := argc + len args <= Z.of_nat MAXARG /\ base <= low sp args.

Lemma push_args_run argv args : Forall2 (carg (kmem K0) pgs (sz p)) argv args -> forall K f sp argc acc, filled K f -> base <= sp <= base + PGSIZE ->
  argc <= Z.of_nat MAXARG ->
  exists r K', Kern.push_args pd sp argv argc acc (st K) = Ok r (st K') /\
    match r with
    | Some (sp', ptrs) => fits sp argc args /\ sp' = low sp args /\ ptrs = acc ++ places sp args /\ filled K' (stored f sp args)
    | None => ~ fits sp argc args /\ exists f', filled K' f'
    end.
Proof.
  induction 1 as [|a b argv args Hab _ IH]; intros K f sp argc acc Hf Hsp Hargc; cbn [Kern.push_args].
  { exists (Some (sp, acc)), K. cbn. rewrite app_nil_r. split; [done|]. split; [split; cbn; lia|done]. }
  destruct (Z.leb_spec (Z.of_nat MAXARG) argc).
  { exists None, K. split; [done|]. split; [intros [Hn _]; cbn in Hn; lia|by exists f]. }
  pose proof (filled_cur K f Hf) as Hc. rewrite (bind_ok_l _ _ _ _ _ (cur_run _ _ _ _ _ _ Hc)). destruct Hab as ((str & -> & Hz) & Ha & Hend & Hlen & Hub). set (b := str ++ [0]) in *.
  destruct (ustr_run (st K) p tabs pgs str (Z.to_nat (sz p - a)) Hc Hz a Ha Hend) as [E Hw]; [|fold b; unfold b in *; rewrite length_app in *; cbn in *; lia|].
  { intros j Hj. rewrite <- Hub by done. unfold KernRun.kmem. cbn. apply (filled_old K f Hf). }
  rewrite (bind_ok_l _ _ _ _ _ E). fold b. cbv zeta. rewrite below_mask by (unfold KERNBASE in *; lia). pose proof (below_bounds sp (len b)) as Hbb. assert (b <> []) as Hbn by (unfold b; by destruct str).
  destruct (Z.lt_ge_cases (below sp (len b)) base) as [Hlo|Hhi].
  - assert (base - PGSIZE <= below sp (len b)) as Hg.
    { unfold below, PGSIZE in *. destruct Hbase as [Hm _]. apply Z.mod_divide in Hm as [k ->]; [|lia]. pose proof (Z.div_le_mono (k * 4096 - 4096) (sp - len b) 4 ltac:(lia) ltac:(lia)) as Hd.
      replace (k * 4096 - 4096) with ((k * 1024 - 1024) * 4) in Hd by lia. rewrite Z.div_mul in Hd by lia. lia. }
    exists None, K. rewrite (bind_ok_l _ _ _ _ _ (run_m s _ _ _ _ _ _ _ (filled_refused K f _ b Hf (conj Hg Hlo) Hbn))). split; [done|]. split; [|by exists f].
    intros [_ Hl]. cbn in Hl. pose proof (low_le (below sp (len b)) args). lia.
  - destruct (filled_copyout K f (below sp (len b)) b Hf) as (K1 & E1 & Hf1); [lia|lia|done|]. rewrite (bind_ok_l _ _ _ _ _ (run_m s _ _ _ _ _ _ _ E1)).
    change (0 <? 0) with false. cbv iota. destruct (IH K1 _ (below sp (len b)) (argc + 1) (acc ++ [below sp (len b)]) Hf1) as (r & K' & Er & Hr); [lia|lia|]. exists r, K'. split; [done|].
    assert (fits sp argc (b :: args) <-> fits (below sp (len b)) (argc + 1) args) as Hfit by (unfold fits; cbn; rewrite Nat2Z.inj_succ; split; intros [? ?]; split; lia).
    destruct r as [[sp' ptrs]|]; rewrite Hfit; [|done]. destruct Hr as (? & ? & -> & ?). split; [done|]. split; [done|]. split; [by rewrite <- app_assoc|done].
Qed.

(** ** The change to the new image *)

Context (Hap : forall x, foot (pgdir p) tabs pgs x -> x ∉ l).
Context (Hks : Kalloc.page_ok kend (kstack p) /\ (kstack p ∉ l) /\ ~ foot (pgdir p) tabs pgs (kstack p) /\ ~ foot pd tabsn pgsn (kstack p) /\ tf p = kstack p + 4020).

(** The process table with [c] for the running process. *)
Definition with_proc (c : proc) : Proc.ptable := Proc.set_procs (<[i := c]> (Proc.procs P)) P.

Lemma with_proc_id : with_proc p = P.
Proof. unfold with_proc, Proc.set_procs. rewrite list_insert_id by apply Hcur. by destruct P. Qed.

Lemma with_proc_lookup c : Proc.procs (with_proc c) !! i = Some c.
Proof. cbn. apply list_lookup_insert_eq. by eapply lookup_lt_Some, Hcur. Qed.

Lemma run_mine {A} c f (k : unit -> M kern A) K : (Kern.mine f ≫= k) (upd s (with_proc c) K ft X) = k tt (upd s (with_proc (f c)) K ft X).
Proof.
  unfold Kern.mine. rewrite bind_assoc. erewrite bind_ok_l by (apply me_run, Hcur). erewrite bind_ok_l; [done|]. apply run_p. unfold Proc.pupd, modify. f_equal. unfold Proc.set_procs.
  rewrite (alter_insert _ _ _ _ (with_proc_lookup c)). unfold with_proc. cbn. by rewrite list_insert_insert_eq.
Qed.

Lemma run_tf_word {A} c K off v (k : unit -> M kern A) K' : Vm.st32 (tf c + off) v K = Ok tt K' -> (Kern.set_tf_word off v ≫= k) (upd s (with_proc c) K ft X) = k tt (upd s (with_proc c) K' ft X).
Proof.
  intros E. unfold Kern.set_tf_word. rewrite bind_assoc. erewrite bind_ok_l by (apply myproc_run, Hcur). cbn [Kern.kp upd]. rewrite (list_lookup_total_correct _ _ _ (with_proc_lookup c)).
  by rewrite (bind_ok_l _ _ _ _ _ (run_m s _ _ _ _ _ _ _ E)).
Qed.

(** The registers of the frame at [a] are those of before, but for [eip] and [esp]. *)
Definition entry_frame (m m' : mem) (a eip esp : Z) : Prop :=
  rd32 m' (a + Kern.TF_EIP) = eip /\ rd32 m' (a + Kern.TF_ESP) = esp /\
  forall o, 0 <= o < Kern.sizeof_tf -> ~ (Kern.TF_EIP <= o < Kern.TF_EIP + 4) -> ~ (Kern.TF_ESP <= o < Kern.TF_ESP + 4) -> rd8 m' (a + o) = rd8 m (a + o).

Lemma frame_words K eip esp : rep K l -> 0 <= eip < 2 ^ 32 -> 0 <= esp < 2 ^ 32 ->
  exists K1 K2, Vm.st32 (tf p + Kern.TF_EIP) eip K = Ok tt K1 /\ Vm.st32 (tf p + Kern.TF_ESP) esp K1 = Ok tt K2 /\ rep K2 l /\
    outside (kmem K) (kmem K2) (fun q => q = kstack p) /\ entry_frame (kmem K) (kmem K2) (tf p) eip esp.
Proof.
  intros Hr He Hs. destruct Hks as (Hp & Hl & _ & _ & ->). unfold Kern.TF_EIP, Kern.TF_ESP, entry_frame, Kern.TF_EIP, Kern.TF_ESP.
  destruct (in_page_st32 kend (kstack p) l K (4020 + 56) eip Hp Hl) as (K1 & E1 & H1 & M1); [lia|unfold PGSIZE; lia|].
  destruct (in_page_st32 kend (kstack p) l K1 (4020 + 68) esp Hp Hl) as (K2 & E2 & H2 & M2); [lia|unfold PGSIZE; lia|].
  destruct (in_page_trans kend _ _ _ _ _ H1 H2) as [Ho Hr2]. rewrite !Z.add_assoc in *. exists K1, K2. split; [done|]. split; [done|]. split; [by apply Hr2|]. split; [done|]. rewrite M2, M1. split_and!.
  - rewrite rd32_wr32_ne by lia. by apply rd32_wr32_eq.
  - by apply rd32_wr32_eq.
  - intros o Ho1 Ho2 Ho3. rewrite !rd8_wr32_ne by lia. done.
Qed.

Lemma last_elem_nul last q : 0 ∈ q -> 0 ∈ last -> 0 ∈ Kern.last_elem last q.
Proof.
  revert last. induction q as [|c q IH]; intros last Hq Hl; cbn; [done|]. destruct (Z.eqb_spec c 0) as [->|Hne]; [done|]. apply elem_of_cons in Hq as [?|Hq]; [congruence|].
  apply IH; [done|]. by destruct (c =? Fs.SLASH).
Qed.

Lemma exec_commit_run K f sz1 entry sp path : filled K f -> 0 <= entry < 2 ^ 32 -> 0 <= sp < 2 ^ 32 -> 0 ∈ path -> length (name p) = 16%nat ->
  exists nm K' l', Kern.exec_commit kend pd sz1 entry sp path (st K) = Ok 0 (upd s (with_proc (set_sz sz1 (set_pgdir pd (set_name nm p)))) K' ft X) /\
    Str.cstr nm = take 15 (Str.cstr (Kern.last_elem path path)) /\ uvm K' pd tabsn pgsn l' /\ (forall x, ubyte (kmem K') pgsn x = f x) /\
    entry_frame (kmem K0) (kmem K') (tf p) entry sp /\ forall x, x ∈ l' <-> x ∈ l \/ foot (pgdir p) tabs pgs x.
Proof.
  intros Hf He Hs Hpath Hn. destruct (filled_old K f Hf) as (Ha & _ & Hsame). destruct Hf as (Hu & _ & Hx). destruct Hks as (Hp & Hl & Hno & Hnn & Etf).
  destruct (frame_words K entry sp (u_rep _ _ _ _ _ _ _ Hu) He Hs) as (K1 & K2 & E1 & E2 & Hr2 & Ho2 & Hfr).
  destruct (outside_foot kend kdata _ _ _ _ _ _ Ha Ho2) as [Ha2 _]; [by intros q ->|]. destruct (outside_foot kend kdata _ _ _ _ _ _ (u_asp _ _ _ _ _ _ _ Hu) Ho2) as [Hn2 Hsn2]; [by intros q ->|].
  destruct (freevm_spec kend kdata Hkend Hkdata K2 (pgdir p) tabs pgs l) as (K3 & l3 & E3 & Hr3 & Hl3 & Ho3); [split; [done|done|intros x Hxl Hxf; by apply (Hap x)]| |].
  { eapply sized_convex; [exact Hsized|]. intros va. apply (asp_aligned kend kdata _ _ _ _ va Ha2). }
  assert (forall q, foot (pgdir p) tabs pgs q -> Kalloc.page_ok kend q) as Hok by (intros q; by eapply foot_ok).
  destruct (outside_foot kend kdata _ _ _ _ _ _ Hn2 Ho3) as [Hn3 Hsn3]; [intros q Hq; split; [by apply Hok|]; intros Hq'; by apply (Hdisj q)|].
  destruct (Str.safestrcpy_loop_spec (name p) (Kern.last_elem path path) 15) as (nm & E4 & _ & Hc4 & _); [lia|right; by apply last_elem_nul|].
  exists nm, K3, l3. split_and!; [|done| | | |exact Hl3].
  - unfold Kern.exec_commit. erewrite bind_ok_l by (apply myproc_run, Hcur). cbn [Kern.kp upd]. rewrite (list_lookup_total_correct _ _ _ (proj2 Hcur)).
    unfold Str.safestrcpy. change (16 <=? 0) with false. cbv iota. change (Z.to_nat (16 - 1)) with 15%nat. rewrite E4. cbn [Kern.safe]. erewrite bind_ok_l by done.
    rewrite <- with_proc_id at 1. rewrite !run_mine. set (c := set_sz _ _). rewrite (run_tf_word c _ _ _ _ _ E1), (run_tf_word c _ _ _ _ _ E2), (bind_ok_l _ _ _ _ _ (run_m s _ _ _ _ _ _ _ E3)). done.
  - split; [done|done|]. intros x [Hxl|Hxo]%Hl3 Hxn; [by apply (u_apart _ _ _ _ _ _ _ Hu x)|by apply (Hdisj x)].
  - intros x. rewrite <- Hx. transitivity (ubyte (kmem K2) pgsn x); apply ubyte_same; intros b q g Hq; [apply Hsn3|apply Hsn2]; right; eauto.
  - assert (same_page (kmem K2) (kmem K3) (kstack p)) as H3 by (apply (outside_same kend _ _ _ _ Ho3 Hp); intros q Hq; split; [by apply Hok|by intros ->]).
    pose proof (Hsame _ Hp Hnn) as H0. destruct Hfr as (F1 & F2 & F3). rewrite Etf in *. unfold Kern.sizeof_tf, Kern.TF_EIP, Kern.TF_ESP in *.
    split_and!; unfold Kern.TF_EIP, Kern.TF_ESP, Kern.sizeof_tf.
    + rewrite (same_page_rd32 _ _ _ _ H3) by (unfold PGSIZE; lia). done.
    + rewrite (same_page_rd32 _ _ _ _ H3) by (unfold PGSIZE; lia). done.
    + intros o O1 O2 O3. rewrite (H3 (kstack p + 4020 + o)), F3 by (done || unfold PGSIZE; lia). apply H0. unfold PGSIZE. lia.
Qed.

(** The label [bad] gives back the new memory and leaves the process alone. *)
Lemma bad_run K f : convex 0 pgsn -> filled K f ->
  exists K' l', Kern.exec_bad kend pd None (st K) = Ok (-1) (st K') /\ rep K' l' /\ (forall x, x ∈ l' <-> x ∈ l \/ foot pd tabsn pgsn x) /\
    asp (kmem K') (pgdir p) tabs pgs /\ (forall va, ubyte (kmem K') pgs va = ubyte (kmem K0) pgs va) /\ same_page (kmem K0) (kmem K') (kstack p).
Proof.
  intros Hcv Hf. destruct (filled_old K f Hf) as (Ha & Hb & Hsame). destruct Hf as (Hu & _). destruct Hks as (Hp & _ & _ & Hnn & _).
  destruct (freevm_spec kend kdata Hkend Hkdata K pd tabsn pgsn l Hu Hcv) as (K' & l' & E & Hr & Hl & Ho).
  assert (forall q, foot pd tabsn pgsn q -> Kalloc.page_ok kend q) as Hok by (intros q; eapply foot_ok, Hu).
  destruct (outside_foot kend kdata _ _ _ _ _ _ Ha Ho) as [Ha' Hs']; [intros q Hq; split; [by apply Hok|by apply Hdisj]|].
  exists K', l'. split; [|split; [done|]; split; [done|]; split; [done|]; split].
  - unfold Kern.exec_bad. pose proof (Kalloc.page_ok_range kend pd (pt_dir _ _ _ _ (as_pt _ _ _ _ _ _ (u_asp _ _ _ _ _ _ _ Hu)))). rewrite (proj2 (Z.eqb_neq pd 0)) by lia. cbn [negb when].
    rewrite (bind_ok_l _ _ _ _ _ (run_m s _ _ _ _ _ _ _ E)). done.
  - intros va. rewrite <- Hb. apply ubyte_same. intros b q g Hq. apply Hs'. right. eauto.
  - intros a Haa. rewrite <- (Hsame _ Hp Hnn a Haa). apply (outside_same kend _ _ _ _ Ho Hp); [|done]. intros q Hq. split; [by apply Hok|by intros ->].
Qed.

(** ** The vector of pointers *)

(** At [sp] is what C expects of a call of [main(argc, argv)]: a return address,
    the number of strings, the address of the vector that follows, and in it the
    addresses of the strings and 0. *)
Definition main_frame (f : Z -> option Z) (sp : Z) (args : list bytes) : Prop :=
  exists ptrs, Forall2 (has f) ptrs args /\ has f sp (mjoin (le_enc 4 <$> [0xffffffff; len args; sp + 12] ++ ptrs ++ [0])).

(** The room the strings and the vector leave above the guard page. *)
Definition vector_at (args : list bytes) : Z := low (base + PGSIZE) args - 4 * (4 + len args).

Lemma words_wf ws : bytes_wf (mjoin (le_enc 4 <$> ws)).
Proof. induction ws as [|w ws IH]; [constructor|]. rewrite words_cons. apply Forall_app. split; [apply le_enc_wf|done]. Qed.

(** [push_args] and what follows it. *)
Definition rest (entry : Z) (path : bytes) (argv : list Z) : M kern Z :=
  r ← Kern.push_args pd (base + PGSIZE) argv 0 [];
  match r with
  | None => Kern.exec_bad kend pd None
  | Some (sp, args) =>
      let argc := Z.of_nat (length args) in
      let ustack := [0xffffffff; argc; u32 (sp - (argc + 1) * 4)] ++ args ++ [0] in
      let sp := u32 (sp - (3 + argc + 1) * 4) in
      r ← Kern.on_m (Vm.copyout pd sp (mjoin (le_enc 4 <$> ustack)) ((3 + argc + 1) * 4));
      if r <? 0 then Kern.exec_bad kend pd None else Kern.exec_commit kend pd (base + PGSIZE) entry sp path
  end.

Lemma rest_run f entry path argv args : filled K0 f -> convex 0 pgsn -> Forall2 (carg (kmem K0) pgs (sz p)) argv args ->
  exists r K f', rest entry path argv (st K0) = r (st K) /\ filled K f' /\
    ((len args <= Z.of_nat MAXARG /\ base <= vector_at args) /\ r = Kern.exec_commit kend pd (base + PGSIZE) entry (vector_at args) path /\
       main_frame f' (vector_at args) args /\ (forall x, x < base -> f' x = f x) \/
     ~ (len args <= Z.of_nat MAXARG /\ base <= vector_at args) /\ r = Kern.exec_bad kend pd None).
Proof.
  intros Hf Hcv Hargs. destruct (push_args_run argv args Hargs K0 f (base + PGSIZE) 0 [] Hf) as (r & K1 & E & Hr); [unfold PGSIZE; lia|unfold MAXARG; lia|].
  unfold rest. rewrite (bind_ok_l _ _ _ _ _ E). destruct r as [[sp ptrs]|].
  2: { destruct Hr as (Hn & f' & Hf'). eexists _, K1, f'. split; [reflexivity|]. split; [done|]. right. split; [|done]. unfold fits, vector_at in *. intros [? ?]. apply Hn. lia. }
  destruct Hr as (Hfit & -> & -> & Hf1). cbn [app]. cbv zeta. set (lo := low (base + PGSIZE) args) in *. rewrite length_places. destruct Hfit as [Hn Hlo]. fold lo in Hlo. pose proof (low_le (base + PGSIZE) args) as Hle. fold lo in Hle.
  pose proof (eq_refl : vector_at args = lo - 4 * (4 + len args)) as Ev. set (v := vector_at args) in *. clearbody v. assert (0 <= lo - 144 /\ lo < 2 ^ 32 /\ len args <= 32) as Hrg by (unfold MAXARG, PGSIZE, KERNBASE in *; lia).
  rewrite !u32_small by lia. replace (lo - (3 + len args + 1) * 4) with v by lia. replace (lo - (len args + 1) * 4) with (v + 12) by lia. set (ws := 0xffffffff :: _).
  assert ((3 + len args + 1) * 4 = len (mjoin (le_enc 4 <$> ws))) as ->.
  { rewrite length_words. unfold ws. cbn [length]. rewrite length_app, length_places. cbn [length]. lia. }
  assert (len (mjoin (le_enc 4 <$> ws)) = lo - v) as Elen.
  { rewrite length_words. unfold ws. cbn [length]. rewrite length_app, length_places. cbn [length]. lia. }
  destruct (Z.lt_ge_cases v base) as [Hlt|Hge].
  - eexists _, K1, _. erewrite bind_ok_l; [|apply run_m, (filled_refused K1 _ _ _ Hf1)]. 2: { unfold PGSIZE. lia. } 2: { intros E0. rewrite E0 in Elen. cbn in Elen. lia. }
    split; [reflexivity|]. split; [done|]. right. split; [|done]. lia.
  - destruct (filled_copyout K1 _ v (mjoin (le_enc 4 <$> ws)) Hf1) as (K2 & E2 & Hf2); [lia|lia|apply words_wf|].
    eexists _, K2, _. erewrite bind_ok_l by (apply run_m, E2). split; [reflexivity|]. split; [exact Hf2|]. left. split; [lia|]. split; [done|]. split.
    + exists (places (base + PGSIZE) args). split; [|apply has_upd]. eapply stored_has. intros x Hx. unfold upd_bytes. by rewrite decide_False by lia.
    + intros x Hx. unfold upd_bytes. rewrite decide_False by lia. apply stored_out. lia.
Qed.
End exec.

(** ** The whole of it *)

Section image.
Context {S : Type} `{D : BlockDev S}.
Context (kend kdata : Z).
Context (Hkend : KERNLINK < kend) (Hkdata : kdata mod PGSIZE = 0 /\ KERNLINK < kdata < KERNBASE + PHYSTOP).
#[local] Abbreviation rep := (Kalloc.rep kend).
#[local] Abbreviation asp := (asp kend kdata).
#[local] Abbreviation uvm := (uvm kend kdata).
#[local] Abbreviation kern := (Kern.kern (S := S)).

(** Two pages from [R] are added to the address space, the first out of reach. *)
Record stacked (K : Kalloc.kst) (pd : Z) (tabs : gmap Z Z) (pgs : pages) (l : list Z) (R : Z) (K' : Kalloc.kst) (tabs' : gmap Z Z) (pgs' : pages) (l' : list Z) : Prop := MkStacked {
  sk_uvm : uvm K' pd tabs' pgs' l';
  sk_sized : sized pgs' (R + 2 * PGSIZE);
  sk_bytes : forall va, va < R -> ubyte (kmem K') pgs' va = ubyte (kmem K) pgs va;
  sk_guard : exists q f, pgs' !! R = Some (q, f) /\ truthy (f .& PTE_U) = false;
  sk_stack : exists q, pgs' !! (R + PGSIZE) = Some (q, UFLAGS);
  sk_took : forall x, foot pd tabs' pgs' x <-> foot pd tabs pgs x \/ took l l' x;
  sk_free : l' ⊆ l;
  sk_out : outside (kmem K) (kmem K') (fun x => foot pd tabs pgs x \/ x ∈ l)
}.

Lemma round_up R : 0 <= R < KERNBASE -> R mod PGSIZE = 0 -> PGROUNDUP R = R.
Proof.
  intros HR Hm. destruct (PGROUNDUP_bounds R) as [Hb Ha]; [unfold KERNBASE, PGSIZE in *; lia|]. unfold PGSIZE in *. apply Z.mod_divide in Hm as [x ->]; [|lia]. apply Z.mod_divide in Ha as [y Ey]; [|lia].
  rewrite Ey in *. lia.
Qed.

Lemma sized_round pgs sz : sized pgs sz -> 0 <= sz <= KERNBASE -> sized pgs (PGROUNDUP sz).
Proof.
  intros Hs Hsz va Hva. rewrite (Hs va Hva). destruct (PGROUNDUP_bounds sz) as [Hb Ha]; [unfold KERNBASE, PGSIZE in *; lia|].
  unfold PGSIZE in *. apply Z.mod_divide in Hva as [x ->]; [|lia]. apply Z.mod_divide in Ha as [y Ey]; [|lia]. rewrite Ey in *. lia.
Qed.

Lemma stack_pages K pd tabs pgs l R : uvm K pd tabs pgs l -> sized pgs R -> 0 <= R -> R + 2 * PGSIZE < KERNBASE -> R mod PGSIZE = 0 -> (4 <= length l)%nat ->
  exists K1 K' tabs' pgs' l', Vm.allocuvm kend pd R (R + 2 * PGSIZE) K = Ok (R + 2 * PGSIZE) K1 /\ Vm.clearpteu pd R K1 = Ok tt K' /\ stacked K pd tabs pgs l R K' tabs' pgs' l'.
Proof.
  intros Hu Hs HR Hk Hm Hl. set (T := R + 2 * PGSIZE) in *. assert (T mod PGSIZE = 0) as HTm by by apply aligned_add. assert (PGROUNDUP R = R) as ER by (apply round_up; unfold T, PGSIZE in *; lia || done).
  assert (PGROUNDUP T = T) as ET by (apply round_up; unfold T, PGSIZE in *; lia || done).
  destruct (allocuvm_grown kend kdata Hkend Hkdata K pd tabs pgs l R T Hu Hs) as (K1 & tabs1 & pgs1 & l1 & E1 & Hg & Hs1 & _); [unfold T, PGSIZE; lia|done|rewrite ER, ET; unfold T, PGSIZE; lia|].
  rewrite ER, ET in Hg. destruct (gt_new _ _ _ _ _ _ _ _ _ _ _ _ _ Hg R) as (q & Hq & _); [unfold T, PGSIZE; lia|done|].
  destruct (gt_new _ _ _ _ _ _ _ _ _ _ _ _ _ Hg (R + PGSIZE)) as (q2 & Hq2 & _); [unfold T, PGSIZE; lia|by apply aligned_next|].
  destruct (clear_page kend kdata Hkend Hkdata K1 pd tabs1 pgs1 l1 R q UFLAGS (gt_uvm _ _ _ _ _ _ _ _ _ _ _ _ _ Hg) Hq) as (K2 & E2 & Hu2 & Ho2 & Hb2 & Hf2).
  exists K1, K2, tabs1, (<[R := (q, no_user UFLAGS)]> pgs1), l1. split; [done|]. split; [done|]. destruct (grown_bytes _ _ _ _ _ _ _ _ _ _ _ _ _ Hg) as [Hgb _]; [done|done|].
  split; [done| |intros va Hva; rewrite Hb2; by apply Hgb|exists q, (no_user UFLAGS); by rewrite lookup_insert_eq|exists q2; rewrite lookup_insert_ne; [done|unfold PGSIZE; lia]|intros x; rewrite Hf2; apply Hg|apply Hg|].
  - fold T. intros va Hva. rewrite <- (Hs1 va Hva). destruct (decide (va = R)) as [->|]; [rewrite lookup_insert_eq, Hq; done|by rewrite lookup_insert_ne].
  - eapply outside_trans; eapply outside_weaken; [apply Hg| |exact Ho2|]; cbn; [intros x [?|?]; [left; by left|by right]|].
    intros x [?|?]%(gt_pt _ _ _ _ _ _ _ _ _ _ _ _ _ Hg); [left; by left|by right].
Qed.

(** The kernel when process [i] has built the image [pgsn] of a program of size
    [sz0]; the strings [args] are at the addresses [argv] of its old memory. *)
Record exec_pre (s : kern) (i : nat) (p : proc) (tabs : gmap Z Z) (pgs : pages) (pd : Z) (tabsn : gmap Z Z) (pgsn : pages) (l : list Z)
    (sz0 : Z) (path : bytes) (argv : list Z) (args : list bytes) : Prop := MkExecPre {
  xp_cur : Proc.curproc (Kern.kp s) = Some i /\ Proc.procs (Kern.kp s) !! i = Some p;
  xp_lock : File.ftlock (Kern.kf s) = false;
  xp_new : uvm (File.fmem (Kern.kf s)) pd tabsn pgsn l /\ sized pgsn sz0 /\ 0 <= sz0 <= KERNBASE /\ (4 <= length l)%nat;
  xp_old : asp (KernRun.kmem s) (pgdir p) tabs pgs /\ sized pgs (sz p) /\ 0 <= sz p <= KERNBASE;
  xp_apart : forall x, foot (pgdir p) tabs pgs x -> (x ∉ l) /\ ~ foot pd tabsn pgsn x;
  xp_stack : Kalloc.page_ok kend (kstack p) /\ (kstack p ∉ l) /\ ~ foot (pgdir p) tabs pgs (kstack p) /\ ~ foot pd tabsn pgsn (kstack p) /\ tf p = kstack p + 4020;
  xp_args : Forall2 (carg (KernRun.kmem s) pgs (sz p)) argv args;
  xp_name : length (name p) = 16%nat /\ 0 ∈ path
}.

(** The process is in the new image: its memory is the program with the guard
    page and the stack above it, its stack pointer is at the arguments of
    [main], and the pages of its old memory are free. *)
Record exec_done (s : kern) (i : nat) (p : proc) (tabs : gmap Z Z) (pgs : pages) (pd : Z) (pgsn : pages) (l : list Z)
    (sz0 entry : Z) (path : bytes) (args : list bytes) (s' : kern) (l' : list Z) : Prop := MkExecDone {
  xd_proc : exists nm, Str.cstr nm = take 15 (Str.cstr (Kern.last_elem path path)) /\
    Kern.kp s' = Proc.set_procs (<[i := set_sz (PGROUNDUP sz0 + 2 * PGSIZE) (set_pgdir pd (set_name nm p))]> (Proc.procs (Kern.kp s))) (Kern.kp s);
  xd_files : File.ftab (Kern.kf s') = File.ftab (Kern.kf s) /\ File.ffs (Kern.kf s') = File.ffs (Kern.kf s);
  xd_memory : exists tabs' pgs' sp, uvm (File.fmem (Kern.kf s')) pd tabs' pgs' l' /\ sized pgs' (PGROUNDUP sz0 + 2 * PGSIZE) /\
    (forall va, va < PGROUNDUP sz0 -> ubyte (KernRun.kmem s') pgs' va = ubyte (KernRun.kmem s) pgsn va) /\
    (exists q f, pgs' !! PGROUNDUP sz0 = Some (q, f) /\ truthy (f .& PTE_U) = false) /\
    PGROUNDUP sz0 + PGSIZE <= sp /\ sp mod 4 = 0 /\ main_frame (ubyte (KernRun.kmem s') pgs') sp args /\ entry_frame (KernRun.kmem s) (KernRun.kmem s') (tf p) entry sp /\
    forall x, x ∈ l' <-> (x ∈ l \/ foot (pgdir p) tabs pgs x) /\ ~ foot pd tabs' pgs' x
}.

(** The process is as it was, and the new memory is free. *)
Record exec_refused (s : kern) (p : proc) (tabs : gmap Z Z) (pgs : pages) (pd : Z) (tabsn : gmap Z Z) (pgsn : pages) (l : list Z) (s' : kern) (l' : list Z) : Prop := MkExecRefused {
  xr_kern : Kern.kp s' = Kern.kp s /\ File.ftab (Kern.kf s') = File.ftab (Kern.kf s) /\ File.ffs (Kern.kf s') = File.ffs (Kern.kf s);
  xr_memory : asp (KernRun.kmem s') (pgdir p) tabs pgs /\ forall va, ubyte (KernRun.kmem s') pgs va = ubyte (KernRun.kmem s) pgs va;
  xr_stack : same_page (KernRun.kmem s) (KernRun.kmem s') (kstack p);
  xr_free : rep (File.fmem (Kern.kf s')) l' /\ forall x, x ∈ l' <-> x ∈ l \/ foot pd tabsn pgsn x
}.

(** The stack ends below the kernel, the strings are at most [MAXARG], and they
    fit in a page together with the vector. *)
Definition room (sz0 : Z) (args : list bytes) : Prop :=
  PGROUNDUP sz0 + 2 * PGSIZE < KERNBASE /\ len args <= Z.of_nat MAXARG /\ PGROUNDUP sz0 + PGSIZE <= vector_at (PGROUNDUP sz0 + PGSIZE) args.

Context (s : kern) (i : nat) (p : proc) (tabs : gmap Z Z) (pgs : pages) (pd : Z) (tabsn : gmap Z Z) (pgsn : pages) (l : list Z).
Context (sz0 entry : Z) (path : bytes) (argv : list Z) (args : list bytes).
Context (Hpre : exec_pre s i p tabs pgs pd tabsn pgsn l sz0 path argv args) (Hentry : 0 <= entry < 2 ^ 32).
#[local] Abbreviation R := (PGROUNDUP sz0).
#[local] Abbreviation st K := (upd s (Kern.kp s) K (File.ftab (Kern.kf s)) (File.ffs (Kern.kf s))).

Lemma start_size : 0 <= R < 2 ^ 32 - 2 * PGSIZE /\ R mod PGSIZE = 0 /\ sized pgsn R.
Proof.
  destruct (xp_new _ _ _ _ _ _ _ _ _ _ _ _ _ Hpre) as (_ & Hs & Hsz & _). destruct (PGROUNDUP_bounds sz0) as [Hb Ha]; [unfold KERNBASE, PGSIZE in *; lia|].
  split; [unfold KERNBASE, PGSIZE in *; lia|]. split; [done|by apply sized_round].
Qed.

Lemma new_not_old x : foot pd tabsn pgsn x -> ~ foot (pgdir p) tabs pgs x.
Proof. intros Hn Ho. by destruct (xp_apart _ _ _ _ _ _ _ _ _ _ _ _ _ Hpre x Ho). Qed.

(** An image that does not fit below the kernel. *)
Lemma stack_too_high : KERNBASE <= R + 2 * PGSIZE -> exists s' l', Kern.exec_stack kend pd sz0 entry path argv s = Ok (-1) s' /\ exec_refused s p tabs pgs pd tabsn pgsn l s' l'.
Proof.
  intros Hk. destruct start_size as (HR & Hm & HsR). destruct (xp_new _ _ _ _ _ _ _ _ _ _ _ _ _ Hpre) as (Hu & _). set (K := File.fmem (Kern.kf s)) in *.
  destruct (bad_run kend kdata Hkend Hkdata s (Kern.kp s) (File.ftab (Kern.kf s)) (File.ffs (Kern.kf s)) p K tabs pgs (proj1 (xp_old _ _ _ _ _ _ _ _ _ _ _ _ _ Hpre)) pd tabsn pgsn l new_not_old
    (xp_stack _ _ _ _ _ _ _ _ _ _ _ _ _ Hpre) K (ubyte (kmem K) pgsn)) as (K' & l' & E & Hr & Hl & Ha & Hb & Hks).
  { eapply sized_convex; [exact HsR|]. intros va. apply (asp_aligned kend kdata _ _ _ _ va (u_asp _ _ _ _ _ _ _ Hu)). }
  { by split. }
  exists (st K'), l'. split; [|by split].
  rewrite (upd_self s (xp_lock _ _ _ _ _ _ _ _ _ _ _ _ _ Hpre)) at 1. fold K. unfold Kern.exec_stack. rewrite u32_small by (unfold PGSIZE in *; lia).
  erewrite bind_ok_l by (apply run_m; unfold Vm.allocuvm; by rewrite (proj2 (Z.leb_le _ _) Hk)). exact E.
Qed.

Lemma exec_stack_rest K2 K1 : R + 2 * PGSIZE < KERNBASE -> Vm.allocuvm kend pd R (R + 2 * PGSIZE) (File.fmem (Kern.kf s)) = Ok (R + 2 * PGSIZE) K1 -> Vm.clearpteu pd R K1 = Ok tt K2 ->
  Kern.exec_stack kend pd sz0 entry path argv s = rest kend pd (R + PGSIZE) entry path argv (st K2).
Proof.
  intros Hk E1 E2. destruct start_size as (HR & _). rewrite (upd_self s (xp_lock _ _ _ _ _ _ _ _ _ _ _ _ _ Hpre)) at 1. unfold Kern.exec_stack. rewrite u32_small by (unfold PGSIZE in *; lia).
  rewrite (bind_ok_l _ _ _ _ _ (run_m s _ _ _ _ _ _ _ E1)), (proj2 (Z.eqb_neq _ _)) by (unfold PGSIZE in *; lia).
  rewrite u32_small by (unfold PGSIZE in *; lia). replace (R + 2 * PGSIZE - 2 * PGSIZE) with R by lia. rewrite (bind_ok_l _ _ _ _ _ (run_m s _ _ _ _ _ _ _ E2)).
  unfold rest. by replace (R + PGSIZE + PGSIZE) with (R + 2 * PGSIZE) by lia.
Qed.

(** The old memory and the kernel stack while the stack pages are added. *)
Lemma stacked_old K2 tabs2 pgs2 l2 : stacked (File.fmem (Kern.kf s)) pd tabsn pgsn l R K2 tabs2 pgs2 l2 ->
  asp (kmem K2) (pgdir p) tabs pgs /\ (forall va, ubyte (kmem K2) pgs va = ubyte (KernRun.kmem s) pgs va) /\ same_page (KernRun.kmem s) (kmem K2) (kstack p) /\
  (forall x, foot pd tabs2 pgs2 x -> ~ foot (pgdir p) tabs pgs x) /\ (forall x, foot (pgdir p) tabs pgs x -> x ∉ l2) /\
  (kstack p ∉ l2) /\ ~ foot pd tabs2 pgs2 (kstack p).
Proof.
  intros [_ _ _ _ _ Htk Hfr Ho]. destruct (xp_new _ _ _ _ _ _ _ _ _ _ _ _ _ Hpre) as (Hu & _). destruct (xp_stack _ _ _ _ _ _ _ _ _ _ _ _ _ Hpre) as (Hp & Hpl & Hpo & Hpn & _).
  pose proof (xp_apart _ _ _ _ _ _ _ _ _ _ _ _ _ Hpre) as Hap. assert (forall q, foot pd tabsn pgsn q \/ q ∈ l -> Kalloc.page_ok kend q) as Hok.
  { intros q [Hq|Hq]; [by eapply foot_ok; [apply Hu|]|by eapply rep_page_ok; [apply Hu|]]. }
  destruct (outside_foot kend kdata _ _ _ _ _ _ (proj1 (xp_old _ _ _ _ _ _ _ _ _ _ _ _ _ Hpre)) Ho) as [Ha Hs].
  { intros q Hq. split; [by apply Hok|]. intros Hqo. destruct (Hap q Hqo). tauto. }
  split; [done|]. split; [intros va; apply ubyte_same; intros b q g Hq; apply Hs; right; eauto|]. split.
  { apply (outside_same kend _ _ _ _ Ho Hp). intros q Hq. split; [by apply Hok|]. intros ->. tauto. }
  assert (forall x, foot pd tabs2 pgs2 x -> foot pd tabsn pgsn x \/ x ∈ l) as Hsub by (intros x [?|[? _]]%Htk; auto).
  split; [intros x [?|?]%Hsub Hx; destruct (Hap x Hx); tauto|]. split; [intros x Hx Hx2; destruct (Hap x Hx) as [Hn _]; by apply Hn, Hfr|].
  split; [intros Hx; by apply Hpl, Hfr|]. intros [?|?]%Hsub; tauto.
Qed.

Lemma kept_args K2 : (forall va, ubyte (kmem K2) pgs va = ubyte (KernRun.kmem s) pgs va) -> Forall2 (carg (kmem K2) pgs (sz p)) argv args.
Proof.
  intros Hb. eapply Forall2_impl; [apply Hpre|]. intros a b (H1 & H2 & H3 & H4 & H5). split_and!; try done. intros j Hj. rewrite Hb. by apply H5.
Qed.

(** The stack pages are there, and the rest has run. *)
Section rest.
Context (K2 K3 : Kalloc.kst) (tabs2 : gmap Z Z) (pgs2 : pages) (l2 : list Z) (f : Z -> option Z).
Context (Hst : stacked (File.fmem (Kern.kf s)) pd tabsn pgsn l R K2 tabs2 pgs2 l2) (Hf : filled kend kdata K2 pd tabs2 pgs2 l2 K3 f).

Lemma stacked_refused : exists s' l', Kern.exec_bad kend pd None (st K3) = Ok (-1) s' /\ exec_refused s p tabs pgs pd tabsn pgsn l s' l'.
Proof.
  destruct (stacked_old _ _ _ _ Hst) as (Ha & Hb & Hk & Hd & Hap & Hkl & Hkn). destruct (xp_stack _ _ _ _ _ _ _ _ _ _ _ _ _ Hpre) as (Hp & _ & Hpo & _ & Htf).
  destruct (bad_run kend kdata Hkend Hkdata s (Kern.kp s) (File.ftab (Kern.kf s)) (File.ffs (Kern.kf s)) p K2 tabs pgs Ha pd tabs2 pgs2 l2 Hd ltac:(done) K3 f) as (K' & l' & E & Hr & Hl & Ha' & Hb' & Hk'); [|done|].
  { eapply sized_convex; [exact (sk_sized _ _ _ _ _ _ _ _ _ _ Hst)|]. intros va. apply (asp_aligned kend kdata _ _ _ _ va (u_asp _ _ _ _ _ _ _ (sk_uvm _ _ _ _ _ _ _ _ _ _ Hst))). }
  exists (st K'), l'. split; [done|]. split; [done|split; [done|intros va; etransitivity; [apply Hb'|apply Hb]]| |].
  - intros a Haa. etransitivity; [by apply Hk'|by apply Hk].
  - split; [done|]. intros x. rewrite Hl, (sk_took _ _ _ _ _ _ _ _ _ _ Hst x). unfold took. pose proof (sk_free _ _ _ _ _ _ _ _ _ _ Hst x). destruct (decide (x ∈ l2)); tauto.
Qed.

Lemma stacked_done sp : R + PGSIZE <= sp < 2 ^ 32 -> sp mod 4 = 0 -> main_frame f sp args -> (forall x, x < R + PGSIZE -> f x = ubyte (kmem K2) pgs2 x) ->
  exists s' l', Kern.exec_commit kend pd (R + 2 * PGSIZE) entry sp path (st K3) = Ok 0 s' /\ exec_done s i p tabs pgs pd pgsn l sz0 entry path args s' l'.
Proof.
  intros Hsp Hal Hmf Hlow. destruct (stacked_old _ _ _ _ Hst) as (Ha & Hb & Hk & Hd & Hap & Hkl & Hkn). destruct (xp_stack _ _ _ _ _ _ _ _ _ _ _ _ _ Hpre) as (Hp & _ & Hpo & _ & Htf).
  destruct start_size as (HR & _). destruct (xp_old _ _ _ _ _ _ _ _ _ _ _ _ _ Hpre) as (_ & Hszd & _). destruct (xp_name _ _ _ _ _ _ _ _ _ _ _ _ _ Hpre) as [Hn Hpath].
  destruct (exec_commit_run kend kdata Hkend Hkdata s (Kern.kp s) (File.ftab (Kern.kf s)) (File.ffs (Kern.kf s)) i p (xp_cur _ _ _ _ _ _ _ _ _ _ _ _ _ Hpre) K2 tabs pgs Ha Hszd pd tabs2 pgs2 l2 Hd Hap
    ltac:(done) K3 f (R + 2 * PGSIZE) entry sp path Hf Hentry) as (nm & K' & l' & E & Hnm & Hu' & Hub & Hfr & Hl'); [unfold PGSIZE in *; lia|done|done|].
  eexists _, l'. split; [exact E|]. split; [by exists nm|done|]. exists tabs2, pgs2, sp. unfold KernRun.kmem at 1 3 5. cbn [Kern.kf upd File.fmem].
  split; [done|]. split; [apply Hst|]. split_and!; [|apply Hst|lia|done| | |].
  - intros va Hva. rewrite Hub, Hlow by (unfold PGSIZE; lia). by apply (sk_bytes _ _ _ _ _ _ _ _ _ _ Hst).
  - destruct Hmf as (ptrs & H1 & H2). exists ptrs. split; [|intros j Hj; rewrite Hub; by apply H2]. eapply Forall2_impl; [exact H1|]. intros q b Hq j Hj. rewrite Hub. by apply Hq.
  - destruct Hfr as (F1 & F2 & F3). split_and!; [done|done|]. intros o O1 O2 O3. rewrite <- (Hk (tf p + o)); [by apply F3|]. rewrite Htf. unfold Kern.sizeof_tf, PGSIZE in *. lia.
  - intros x. rewrite Hl', (sk_took _ _ _ _ _ _ _ _ _ _ Hst x). unfold took. pose proof (sk_free _ _ _ _ _ _ _ _ _ _ Hst x). pose proof (xp_apart _ _ _ _ _ _ _ _ _ _ _ _ _ Hpre x).
    pose proof (u_apart _ _ _ _ _ _ _ (sk_uvm _ _ _ _ _ _ _ _ _ _ Hst) x) as Hx. rewrite (sk_took _ _ _ _ _ _ _ _ _ _ Hst x) in Hx. unfold took in Hx. destruct (decide (x ∈ l2)); tauto.
Qed.
End rest.

(** C14: The second half of [exec], from the complete image of the program on,
    returns, when the strings of [argv] are of at most a page each and at least
    four pages are free.  If the strings are not more than [MAXARG] and fit in a
    page with the vector of their addresses, it returns 0 and the process runs
    in the new image: the memory of the program is unchanged, above it are a
    page out of reach and the stack, the stack pointer is at the arguments that
    C passes to [main], the process will start at the entry point, and the pages
    of its old memory are free.  Otherwise it returns -1, all pages of the new
    image are free, and the process is as it was. *)
Theorem exec_stack_correct : exists r s' l', Kern.exec_stack kend pd sz0 entry path argv s = Ok r s' /\
  (r = 0 /\ room sz0 args /\ exec_done s i p tabs pgs pd pgsn l sz0 entry path args s' l' \/
   r = -1 /\ ~ room sz0 args /\ exec_refused s p tabs pgs pd tabsn pgsn l s' l').
Proof.
  destruct start_size as (HR & Hm & HsR). destruct (Z.lt_ge_cases (R + 2 * PGSIZE) KERNBASE) as [Hk|Hk].
  2: { destruct (stack_too_high Hk) as (s' & l' & E & Hr). exists (-1), s', l'. split; [done|]. right. split; [done|]. split; [intros [? _]; lia|done]. }
  destruct (xp_new _ _ _ _ _ _ _ _ _ _ _ _ _ Hpre) as (Hu & _ & _ & Hl). destruct (xp_old _ _ _ _ _ _ _ _ _ _ _ _ _ Hpre) as (_ & Hszd & Hszp).
  destruct (stack_pages _ pd tabsn pgsn l R Hu HsR (proj1 HR) Hk Hm Hl) as (K1 & K2 & tabs2 & pgs2 & l2 & E1 & E2 & Hst). destruct (stacked_old _ _ _ _ Hst) as (Ha & Hb & _ & Hd & _).
  rewrite (exec_stack_rest K2 K1 Hk E1 E2). destruct (rest_run kend kdata Hkend Hkdata s (Kern.kp s) (File.ftab (Kern.kf s)) (File.ffs (Kern.kf s)) i p (xp_cur _ _ _ _ _ _ _ _ _ _ _ _ _ Hpre)
    K2 tabs pgs Ha Hszd Hszp pd tabs2 pgs2 l2 (R + PGSIZE) Hd) with (f := ubyte (kmem K2) pgs2) (entry := entry) (path := path) (argv := argv) (args := args) as (r & K3 & f & -> & Hf & Hres).
  { split; [by apply aligned_next|]. unfold PGSIZE in *. lia. }
  { apply Hst. }
  { replace (R + PGSIZE - PGSIZE) with R by lia. apply Hst. }
  { split; [apply Hst|by split]. }
  { eapply sized_convex; [apply Hst|]. intros va. apply (asp_aligned kend kdata _ _ _ _ va (u_asp _ _ _ _ _ _ _ (sk_uvm _ _ _ _ _ _ _ _ _ _ Hst))). }
  { by apply kept_args. }
  destruct Hres as [([Hn Hv] & -> & Hmf & Hlow)|(Hno & ->)].
  - replace (R + PGSIZE + PGSIZE) with (R + 2 * PGSIZE) by lia. destruct (stacked_done K2 K3 tabs2 pgs2 l2 f Hst Hf (vector_at (R + PGSIZE) args)) as (s' & l' & E & Hdn).
    + pose proof (low_le (R + PGSIZE + PGSIZE) args). unfold vector_at, KERNBASE, PGSIZE in *. lia.
    + unfold vector_at. rewrite Zminus_mod, low_aligned; [by rewrite Z.mul_comm, Z.mod_mul|]. unfold PGSIZE in *. apply Z.mod_divide in Hm as [k ->]; [|lia].
      replace (k * 4096 + 4096 + 4096) with ((k * 1024 + 2048) * 4) by lia. by apply Z.mod_mul.
    + done.
    + done.
    + exists 0, s', l'. split; [done|]. left. by split_and!.
  - destruct (stacked_refused K2 K3 tabs2 pgs2 l2 f Hst Hf) as (s' & l' & E & Hr). exists (-1), s', l'. split; [done|]. right. split; [done|]. split; [|done]. intros (_ & ? & ?). by apply Hno.
Qed.
End image.

Module ExecEx.
(** The process of [KernEx] with an empty image beside its memory, and its free
    pages. *)
Lemma image_ready : exists k d tabs pgs pd tabsn l,
  exec_pre UvmEx.kend UvmEx.kdata (KernEx.st k d) 0 (KernEx.proc d) tabs pgs pd tabsn ∅ l 0 [47; 97; 0] [7] [[0]].
Proof.
  destruct UvmEx.first_space as (k & l & d & tabs & pgs & [Hr Ha Hap] & Hs & Hl & Hz & _ & Hlo & Hfo).
  destruct (setupkvm_spec UvmEx.kend UvmEx.kdata UvmEx.uhkdata k l Hr) as (pd & k2 & l2 & _ & Hr2 & Hs2 & Ho & [(_ & _ & ?)|(tabsn & _ & Hu & Ht)]); [lia|].
  assert (forall p, foot d tabs pgs p -> p ∉ l) as Hap' by (intros p Hp Hpl; by apply (Hap p)).
  assert (forall p, foot pd tabsn ∅ p -> p ∈ l) as Hnl by (intros p [Hp|(va & f & Hp)]; [by apply Ht in Hp as [? _]|by rewrite lookup_empty in Hp]).
  destruct (frame UvmEx.kend UvmEx.kdata k k2 l d tabs pgs Hr Ha Hap') as [Ha2 Hb2]; [eapply outside_weaken; [exact Ho|by intros p [? _]]|]. exists k2, d, tabs, pgs, pd, tabsn, l2. split.
  - done.
  - done.
  - split; [done|]. split; [intros va Hva; rewrite lookup_empty; split; [by intros [? ?]|lia]|]. split; [unfold KERNBASE; lia|].
    assert (length l <= 1025 + 0 + length l2)%nat; [|lia]. change 0%nat with (size (∅ : pages)). apply (foot_bound UvmEx.kend (kmem k2) pd tabsn ∅); [apply Hu|apply Hr|].
    intros p Hp. destruct (decide (p ∈ l2)); [by right|left; left]. apply Ht. by split.
  - split; [exact Ha2|]. split; [exact Hs|]. cbn. unfold PGSIZE, KERNBASE. lia.
  - intros x Hx. split; [intros Hx2; by apply (Hap' x Hx), Hs2|intros Hxn; by apply (Hap' x Hx), Hnl].
  - split; [by split_and!|]. split; [by intros Hx%Hs2%Hlo|]. split; [by intros Hx%Hfo|]. split; [by intros Hx%Hnl%Hlo|done].
  - constructor; [|constructor]. split; [exists []; split; [done|apply not_elem_of_nil]|]. split; [lia|]. split; [cbn; unfold PGSIZE; lia|]. split; [cbn; unfold PGSIZE; lia|].
    intros [|j] Hj; [|cbn in Hj; lia]. etransitivity; [apply Hb2|exact Hz].
  - split; [done|]. by do 2 right; left.
Qed.

Lemma has_room : room 0 [[0]].
Proof. split; [done|]. split; done. Qed.
End ExecEx.

Lemma exec_stack_correct_witness : exists k d pd s', Kern.exec_stack UvmEx.kend pd 0 0x1000 [47; 97; 0] [7] (KernEx.st k d) = Ok 0 s'.
Proof.
  destruct ExecEx.image_ready as (k & d & tabs & pgs & pd & tabsn & l & Hpre).
  destruct (exec_stack_correct UvmEx.kend UvmEx.kdata UvmEx.uhkend UvmEx.uhkdata (KernEx.st k d) 0 (KernEx.proc d) tabs pgs pd tabsn ∅ l 0 0x1000 [47; 97; 0] [7] [[0]] Hpre) as (r & s' & l' & E & [(-> & _)|(_ & Hno & _)]).
  - lia.
  - exists k, d, pd, s'. exact E.
  - exfalso. exact (Hno ExecEx.has_room).
Defined.
