(* ===== verification/KernRefs.v ===== *)
(** * References to open files

    The reference count of every entry of the file table is the number of
    descriptors that name it: every trap, and so every system call, keeps the
    counts when it ends, and accounts for the references in transit where it
    has to wait for the log, an inode, a buffer or a pipe. *)

From S2P Require Import Prelude Memory Layout Cstring Spinlock Kalloc Vm Proc ProcSpec ProcSmp Pipe Block Log Fs FsTx FsSpec File Kern KernRun.

(** ** Code that waits *)

(** The state in which code ends or goes to sleep. *)
Definition stops {T A} (o : outcome T A) (s' : T) : Prop :=
  match o with Ok _ s | Sleep _ s => s = s' | _ => False end.

Lemma stops_bind {T A B} (m : M T A) (f : A -> M T B) s s' : stops ((m ≫= f) s) s' ->
  (exists a s1, m s = Ok a s1 /\ stops (f a s1) s') \/ (exists c, m s = Sleep c s').
Proof. unfold mbind, M_bind. destruct (m s); try done; [by left; eauto|intros <-; by right; eauto]. Qed.

Lemma bind_sleep {T A B} (m : M T A) (f : A -> M T B) s c s' : (m ≫= f) s = Sleep c s' ->
  m s = Sleep c s' \/ exists a s1, m s = Ok a s1 /\ f a s1 = Sleep c s'.
Proof. unfold mbind, M_bind. destruct (m s); try done; [by right; eauto|intros [= <- <-]; by left]. Qed.

Lemma zoom_sleep {T U A} (get : T -> U) (set : U -> T -> T) (m : M U A) s c s' : zoom get set m s = Sleep c s' -> exists x, m (get s) = Sleep c x /\ s' = set x s.
Proof. unfold zoom. destruct (m (get s)); try done. intros [= -> <-]. eauto. Qed.

Lemma zoom_stops {T U A} (get : T -> U) (set : U -> T -> T) (m : M U A) s s' : stops (zoom get set m s) s' -> exists x, stops (m (get s)) x /\ s' = set x s.
Proof. unfold zoom. destruct (m (get s)); try done; intros <-; by eexists. Qed.

(** Code that never waits. *)
Definition awake {T A} (m : M T A) : Prop := forall s c s', m s <> Sleep c s'.

Lemma awake_bind {T A B} (m : M T A) (f : A -> M T B) : awake m -> (forall a, awake (f a)) -> awake (m ≫= f).
Proof. intros Hm Hf s c s' H. apply bind_sleep in H as [H|(a & s1 & _ & H)]; [by apply Hm in H|by apply Hf in H]. Qed.

Lemma awake_zoom {T U A} (get : T -> U) (set : U -> T -> T) (m : M U A) : awake m -> awake (zoom get set m).
Proof. intros Hm s c s' H. apply zoom_sleep in H as (x & H & _). by apply Hm in H. Qed.

Lemma awake_acquire {T} (held : T -> bool) set : awake (Seq.acquire held set).
Proof. intros s c s'. unfold Seq.acquire. by case_match. Qed.

Lemma awake_release {T} (held : T -> bool) set : awake (Seq.release held set).
Proof. intros s c s'. unfold Seq.release. by case_match. Qed.

Lemma awake_popcli : awake Cli.popcli.
Proof. intros s c s'. unfold Cli.popcli. repeat case_match; done. Qed.

Create HintDb awake.
#[export] Hint Resolve awake_acquire awake_release awake_popcli : awake.

Ltac awake :=
  repeat lazymatch goal with
  | |- awake (_ ≫= _) => apply awake_bind; [|intros ?]
  | |- awake (mret _) => by intros ? ? ?
  | |- awake (gets _) => by intros ? ? ?
  | |- awake get => by intros ? ? ?
  | |- awake (modify _) => by intros ? ? ?
  | |- awake (panic _) => by intros ? ? ?
  | |- awake fault => by intros ? ? ?
  | |- awake (zoom _ _ _) => apply awake_zoom
  | |- awake (match _ with _ => _ end) => case_match
  | |- awake (when _ _) => unfold when
  | |- awake _ => solve [auto with awake]
  end.

(** ** Process tables *)

Lemma awake_pacquire : awake Proc.acquire.
Proof. unfold Proc.acquire. awake. Qed.
Lemma awake_prelease : awake Proc.release.
Proof. unfold Proc.release. awake. Qed.
Lemma awake_cur : awake Proc.cur.
Proof. unfold Proc.cur. awake. Qed.
Lemma awake_pat i : awake (Proc.pat i).
Proof. unfold Proc.pat. awake. Qed.
Lemma awake_pupd i f : awake (Proc.pupd i f).
Proof. unfold Proc.pupd. awake. Qed.
Lemma awake_wakeup1 c : awake (Proc.wakeup1 c).
Proof. unfold Proc.wakeup1. awake. Qed.
#[export] Hint Resolve awake_pacquire awake_prelease awake_cur awake_pat awake_pupd awake_wakeup1 : awake.
Lemma awake_sched_out : awake Proc.sched_out.
Proof. unfold Proc.sched_out. awake. Qed.
Lemma awake_alloc_slot : awake Proc.alloc_slot.
Proof. unfold Proc.alloc_slot. awake. Qed.
Lemma awake_children n self ini : forall i, awake (Proc.pass_children i n self ini).
Proof. induction n as [|n IH]; intros i; cbn [Proc.pass_children]; awake; done. Qed.
#[export] Hint Resolve awake_sched_out awake_alloc_slot awake_children : awake.
Lemma awake_sleep_out c : awake (Proc.sleep_out c None).
Proof. unfold Proc.sleep_out. awake. Qed.
Lemma awake_yield_out : awake Proc.yield_out.
Proof. unfold Proc.yield_out. awake. Qed.
Lemma awake_exit_table : awake Proc.exit_table.
Proof. unfold Proc.exit_table. awake. Qed.
#[export] Hint Resolve awake_sleep_out awake_yield_out awake_exit_table : awake.

Definition dead (st : procstate) : Prop := st = UNUSED \/ st = ZOMBIE.

(** A slot keeps its descriptors, and is in use as before. *)
Definition psame (p p' : proc) : Prop := ofile p' = ofile p /\ (dead (state p') <-> dead (state p)).

Record tsame (P P' : Proc.ptable) : Prop := MkTsame {
  ts_procs : Forall2 psame (Proc.procs P) (Proc.procs P');
  ts_cur : Proc.curproc P' = Proc.curproc P
}.

(** The current process is in use. *)
Definition tlive (P : Proc.ptable) : Prop :=
  forall i, Proc.curproc P = Some i -> exists p, Proc.procs P !! i = Some p /\ ~ dead (state p).

(** An operation on the table that keeps the descriptors. *)
Definition tkeep {A} (m : M Proc.ptable A) : Prop := forall P P', tlive P -> stops (m P) P' -> tsame P P'.

#[global] Instance psame_refl : Reflexive psame.
Proof. intros p. by split. Qed.

#[global] Instance psame_trans : Transitive psame.
Proof. intros p q r [H1 H2] [H3 H4]. split; [congruence|]. by rewrite H4. Qed.

Lemma tsame_refl P : tsame P P.
Proof. split; [|done]. apply Forall2_same_length_lookup_2; [done|]. intros i x y Hx Hy. assert (x = y) as -> by congruence. reflexivity. Qed.

Lemma tsame_trans P Q R : tsame P Q -> tsame Q R -> tsame P R.
Proof. intros [H1 H2] [H3 H4]. split; [by etransitivity|congruence]. Qed.

Lemma tlive_same P P' : tsame P P' -> tlive P -> tlive P'.
Proof.
  intros [H1 H2] H i Hi. rewrite H2 in Hi. destruct (H i Hi) as (p & Hp & Hd). destruct (Forall2_lookup_l _ _ _ _ _ H1 Hp) as (p' & Hp' & _ & Hs).
  exists p'. split; [done|]. by rewrite Hs.
Qed.

Lemma tkeep_ok {A} (m : M Proc.ptable A) P a P' : tkeep m -> tlive P -> m P = Ok a P' -> tsame P P'.
Proof. intros Hm Hl H. apply Hm; [done|]. by rewrite H. Qed.

Lemma tkeep_bind {A B} (m : M Proc.ptable A) (f : A -> M Proc.ptable B) : tkeep m -> (forall a, tkeep (f a)) -> tkeep (m ≫= f).
Proof.
  intros Hm Hf P P' Hl H. apply stops_bind in H as [(a & P1 & H1 & H2)|[c H1]]; [|apply Hm; [done|by rewrite H1]].
  pose proof (tkeep_ok _ _ _ _ Hm Hl H1) as Hs. eapply tsame_trans; [exact Hs|]. eapply Hf; [|exact H2]. by eapply tlive_same.
Qed.

(** Code that does not wait. *)
Lemma tkeep_awake {A} (m : M Proc.ptable A) : awake m -> (forall P a P', tlive P -> m P = Ok a P' -> tsame P P') -> tkeep m.
Proof. intros Hw H P P' Hl Hs. destruct (m P) as [a Q| |c Q| |] eqn:E; try done; [|by apply Hw in E]. cbn in Hs. subst. by eapply H. Qed.

(** Code that reads, stops or fails changes nothing. *)
Lemma tkeep_pure {A} (m : M Proc.ptable A) : (forall P P', stops (m P) P' -> P' = P) -> tkeep m.
Proof. intros H P P' _ E. apply H in E as ->. apply tsame_refl. Qed.

Lemma tsame_set P P' : Proc.procs P' = Proc.procs P -> Proc.curproc P' = Proc.curproc P -> tsame P P'.
Proof. intros E1 E2. split; [|done]. rewrite E1. apply (ts_procs P P), tsame_refl. Qed.

Lemma tkeep_acquire : tkeep Proc.acquire.
Proof. apply tkeep_awake; [awake|]. intros P [] P' _ H. apply acquire_table in H as [_ ->]. by apply tsame_set. Qed.

Lemma tkeep_release : tkeep Proc.release.
Proof. apply tkeep_awake; [awake|]. intros P [] P' _ H. apply release_table in H as (_ & cp & ->). by apply tsame_set. Qed.

Lemma tkeep_cur : tkeep Proc.cur.
Proof. apply tkeep_awake; [awake|]. intros P i P' _ H. apply cur_inv in H as [_ ->]. apply tsame_refl. Qed.

Lemma tkeep_pupd i f : (forall p, psame p (f p)) -> tkeep (Proc.pupd i f).
Proof.
  intros Hf P P' _ <-. split; [|done]. cbn. apply Forall2_same_length_lookup_2; [by rewrite length_alter|]. intros j x y Hx Hy. destruct (decide (i = j)) as [<-|].
  - rewrite list_lookup_alter_eq, Hx in Hy. injection Hy as <-. apply Hf.
  - rewrite list_lookup_alter_ne in Hy by done. assert (x = y) as -> by congruence. reflexivity.
Qed.

(** A state for the current process. *)
Lemma tsame_cur P i f : tlive P -> Proc.curproc P = Some i -> (forall p, ofile (f p) = ofile p /\ ~ dead (state (f p))) -> tsame P (Proc.set_procs (alter f i (Proc.procs P)) P).
Proof.
  intros Hl Hi Hf. destruct (Hl i Hi) as (p & Hp & Hd). split; [|done]. cbn. apply Forall2_same_length_lookup_2; [by rewrite length_alter|]. intros j x y Hx Hy. destruct (decide (i = j)) as [<-|].
  - rewrite list_lookup_alter_eq, Hx in Hy. injection Hy as <-. destruct (Hf x) as [H1 H2]. assert (x = p) as -> by congruence. split; [done|tauto].
  - rewrite list_lookup_alter_ne in Hy by done. assert (x = y) as -> by congruence. reflexivity.
Qed.

Lemma psame_wake c p : psame p (Proc.wake c p).
Proof. unfold Proc.wake. case_match eqn:E; [|reflexivity]. apply andb_prop in E as [E _]. apply bool_decide_eq_true in E. split; [done|]. cbn. rewrite E. unfold dead. naive_solver. Qed.

Lemma tkeep_wakeup1 c : tkeep (Proc.wakeup1 c).
Proof.
  intros P P' _ <-. split; [|done]. cbn. apply Forall2_same_length_lookup_2; [by rewrite length_fmap|]. intros j x y Hx Hy.
  rewrite list_lookup_fmap, Hx in Hy. injection Hy as <-. apply psame_wake.
Qed.

Lemma tkeep_sched_out : tkeep Proc.sched_out.
Proof. apply tkeep_awake; [awake|]. intros P b P' _ H. apply sched_out_inv in H as [-> _]. apply tsame_refl. Qed.

(** Walk through the code of an operation. *)
Create HintDb tkeep.
#[export] Hint Resolve tkeep_acquire tkeep_release tkeep_cur tkeep_wakeup1 tkeep_sched_out : tkeep.

Ltac tkeep :=
  repeat lazymatch goal with
  | |- tkeep (_ ≫= _) => apply tkeep_bind; [|intros ?]
  | |- tkeep (mret _) => apply tkeep_pure; by intros ? ? <-
  | |- tkeep (gets _) => apply tkeep_pure; by intros ? ? <-
  | |- tkeep (Proc.pat _) => apply tkeep_pure; by intros ? ? <-
  | |- tkeep get => apply tkeep_pure; by intros ? ? <-
  | |- tkeep (panic _) => apply tkeep_pure; by intros ? ? []
  | |- tkeep fault => apply tkeep_pure; by intros ? ? []
  | |- tkeep (match _ with _ => _ end) => case_match
  | |- tkeep (when _ _) => unfold when
  | |- tkeep (Proc.pupd _ _) => apply tkeep_pupd; intros ?
  | |- tkeep _ => solve [auto with tkeep]
  end.

Lemma tkeep_wakeup c : tkeep (Proc.wakeup c).
Proof. unfold Proc.wakeup. tkeep. Qed.

Lemma tkeep_getpcount : tkeep Proc.sys_getpcount.
Proof. unfold Proc.sys_getpcount. tkeep. Qed.

Lemma tkeep_kill n : tkeep (Proc.kill n).
Proof.
  unfold Proc.kill. tkeep. cbv zeta. case_bool_decide as E; [|done]. split; [done|]. cbn in *. rewrite E. unfold dead. naive_solver.
Qed.

Lemma tkeep_children i n self ini : tkeep (Proc.pass_children i n self ini).
Proof. revert i. induction n as [|n IH]; intros i; cbn [Proc.pass_children]; tkeep; done. Qed.

(** [sleep] and [yield] change the state of the current process. *)
Lemma tkeep_sleep_out c : tkeep (Proc.sleep_out c None).
Proof.
  apply tkeep_awake; [awake|]. intros P b P' Hl H. unfold Proc.sleep_out in H. apply bind_ok in H as (x & P1 & [= <- <-] & H). destruct (Proc.curproc P) as [i|] eqn:Ei; [|done].
  apply bind_ok in H as ([] & P2 & [= <-] & H). apply bind_ok in H as ([] & P3 & H3 & H). apply bind_ok in H as ([] & P4 & [= <-] & H).
  apply sched_out_inv in H as [-> _]. assert (tsame P P3) as Hs by (eapply tkeep_ok, H3; [|done]; by apply tkeep_pupd).
  eapply tsame_trans; [exact Hs|]. apply tsame_cur; [by eapply tlive_same|rewrite (ts_cur _ _ Hs); done|intros p; split; [done|by intros [?|?]]].
Qed.

Lemma tkeep_yield_out : tkeep Proc.yield_out.
Proof.
  unfold Proc.yield_out. apply tkeep_bind; [apply tkeep_acquire|intros _]. apply tkeep_awake; [awake|]. intros P b P' Hl H. apply bind_ok in H as (i & P1 & Hc & H). apply cur_inv in Hc as [Hi ->].
  apply bind_ok in H as ([] & P4 & [= <-] & H). apply sched_out_inv in H as [-> _]. apply tsame_cur; [done|done|intros p; split; [done|by intros [?|?]]].
Qed.

#[export] Hint Resolve tkeep_wakeup tkeep_getpcount tkeep_kill tkeep_children tkeep_sleep_out tkeep_yield_out : tkeep.

(** ** The kernel *)

Section refs.
Context {S : Type} `{D : BlockDev S}.
Context (kend kdata trapret forkret_pc : Z) (dsw : Fs.devsw (S := S)).
#[local] Abbreviation kern := (Kern.kern (S := S)).
#[local] Abbreviation fstate := (File.fstate (S := S)).

Definition live (s : kern) : Prop := tlive (Kern.kp s).

(** The descriptors and the reference counts are the same. *)
Record fsame (s s' : kern) : Prop := MkFsame {
  fs_table : tsame (Kern.kp s) (Kern.kp s');
  fs_refs : forall f, f_ref (File.ftab (Kern.kf s') f) = f_ref (File.ftab (Kern.kf s) f)
}.

(** Code that keeps descriptors and counts until it ends or waits, and file
    table code that keeps the counts. *)
Definition keep {A} (m : M kern A) : Prop := forall s s', live s -> stops (m s) s' -> fsame s s'.
Definition fkeep {A} (m : M fstate A) : Prop := forall s s', stops (m s) s' -> forall f, f_ref (File.ftab s' f) = f_ref (File.ftab s f).

Lemma fsame_refl s : fsame s s.
Proof. split; [apply tsame_refl|done]. Qed.

Lemma fsame_trans s s1 s2 : fsame s s1 -> fsame s1 s2 -> fsame s s2.
Proof. intros [H1 H2] [H3 H4]. split; [by eapply tsame_trans|]. intros f. by rewrite H4. Qed.

Lemma live_same s s' : fsame s s' -> live s -> live s'.
Proof. intros [H _]. by apply tlive_same. Qed.

Lemma keep_ok {A} (m : M kern A) s a s' : keep m -> live s -> m s = Ok a s' -> fsame s s'.
Proof. intros Hm Hl H. apply Hm; [done|]. by rewrite H. Qed.

Lemma keep_bind {A B} (m : M kern A) (f : A -> M kern B) : keep m -> (forall a, keep (f a)) -> keep (m ≫= f).
Proof.
  intros Hm Hf s s' Hl H. apply stops_bind in H as [(a & s1 & H1 & H2)|[c H1]]; [|apply Hm; [done|by rewrite H1]].
  pose proof (keep_ok _ _ _ _ Hm Hl H1) as Hs. eapply fsame_trans; [exact Hs|]. eapply Hf; [|exact H2]. by eapply live_same.
Qed.

Lemma keep_pure {A} (m : M kern A) : (forall s s', stops (m s) s' -> s' = s) -> keep m.
Proof. intros H s s' _ E. apply H in E as ->. apply fsame_refl. Qed.

Lemma keep_set {A} (m : M kern A) : (forall s s', stops (m s) s' -> Kern.kp s' = Kern.kp s /\ Kern.kf s' = Kern.kf s) -> keep m.
Proof. intros H s s' _ E. apply H in E as [E1 E2]. split; [rewrite E1; apply tsame_refl|by rewrite E2]. Qed.

Lemma zoom_inv {T U A} (get : T -> U) (set : U -> T -> T) (m : M U A) s a s' : zoom get set m s = Ok a s' -> exists x, m (get s) = Ok a x /\ s' = set x s.
Proof. unfold zoom. destruct (m (get s)); try done. intros [= -> <-]. eauto. Qed.

Lemma keep_p {A} (m : M Proc.ptable A) : tkeep m -> keep (Kern.on_p m).
Proof. intros Hm s s' Hl H. apply zoom_stops in H as (x & H & ->). split; [by eapply Hm|done]. Qed.

Lemma keep_f {A} (m : M fstate A) : fkeep m -> keep (Kern.on_f m).
Proof. intros Hm s s' _ H. apply zoom_stops in H as (x & H & ->). split; [apply tsame_refl|]. by eapply Hm. Qed.

Lemma fkeep_zoom {U A} (get : fstate -> U) (set : U -> fstate -> fstate) (m : M U A) : (forall u s, File.ftab (set u s) = File.ftab s) -> fkeep (zoom get set m).
Proof. intros Hset s s' H f. apply zoom_stops in H as (x & _ & ->). by rewrite Hset. Qed.

Lemma keep_m {A} (m : M Kalloc.kst A) : keep (Kern.on_m m).
Proof. by apply keep_f, fkeep_zoom. Qed.

Lemma keep_fs {A} (m : M (Fs.fs S) A) : keep (Kern.on_fs m).
Proof. by apply keep_f, fkeep_zoom. Qed.

Lemma keep_begin_op : keep Kern.begin_op.
Proof. by apply keep_f, fkeep_zoom. Qed.

Lemma keep_end_op : keep Kern.end_op.
Proof. by apply keep_f, fkeep_zoom. Qed.

Lemma keep_me : keep Kern.me.
Proof. apply keep_p, tkeep_cur. Qed.

Lemma keep_myproc : keep Kern.myproc.
Proof. apply keep_bind; [apply keep_me|intros i]. apply keep_p. tkeep. Qed.

Lemma keep_mine f : (forall p, psame p (f p)) -> keep (Kern.mine f).
Proof. intros Hf. apply keep_bind; [apply keep_me|intros i]. by apply keep_p, tkeep_pupd. Qed.

Create HintDb keep.
#[local] Hint Resolve keep_m keep_fs keep_begin_op keep_end_op keep_me keep_myproc : keep.

#[local] Ltac keep :=
  repeat lazymatch goal with
  | |- keep (_ ≫= _) => apply keep_bind; [|intros ?]
  | |- keep (mret _) => apply keep_pure; by intros ? ? <-
  | |- keep (gets _) => apply keep_pure; by intros ? ? <-
  | |- keep (panic _) => apply keep_pure; by intros ? ? []
  | |- keep (sleepon _) => apply keep_pure; by intros ? ? <-
  | |- keep fault => apply keep_pure; by intros ? ? []
  | |- keep nofuel => apply keep_pure; by intros ? ? []
  | |- keep (let _ := _ in _) => cbv zeta
  | |- keep (match _ with _ => _ end) => case_match
  | |- keep (when _ _) => unfold when
  | |- keep (Kern.on_p _) => apply keep_p; tkeep
  | |- keep (Kern.mine _) => apply keep_mine; intros ?; try done
  | |- keep _ => solve [auto with keep]
  end.

Lemma keep_safe {A} (o : option A) : keep (Kern.safe o).
Proof. unfold Kern.safe. keep. Qed.
#[local] Hint Resolve keep_safe : keep.

(** *** User memory and arguments *)

Lemma keep_uaddr va : keep (Kern.uaddr va).
Proof. unfold Kern.uaddr. keep. Qed.
#[local] Hint Resolve keep_uaddr : keep.

Lemma keep_uld8 va : keep (Kern.uld8 va).
Proof. unfold Kern.uld8. keep. Qed.
Lemma keep_ust8 va v : keep (Kern.ust8 va v).
Proof. unfold Kern.ust8. keep. Qed.
#[local] Hint Resolve keep_uld8 keep_ust8 : keep.

Lemma keep_uld n : forall va, keep (Kern.uld va n).
Proof. induction n; intros va; cbn [Kern.uld]; keep. Qed.
Lemma keep_ust b : forall va, keep (Kern.ust va b).
Proof. induction b; intros va; cbn [Kern.ust]; keep. Qed.
Lemma keep_ustr n : forall va, keep (Kern.ustr va n).
Proof. induction n; intros va; cbn [Kern.ustr]; keep. Qed.
#[local] Hint Resolve keep_uld keep_ust keep_ustr : keep.

Lemma keep_fetchint a : keep (Kern.fetchint a).
Proof. unfold Kern.fetchint. keep. Qed.
Lemma keep_fetchstr_loop n : forall a e, keep (Kern.fetchstr_loop a e n).
Proof. induction n; intros a e; cbn [Kern.fetchstr_loop]; keep. Qed.
#[local] Hint Resolve keep_fetchint keep_fetchstr_loop : keep.
Lemma keep_fetchstr a : keep (Kern.fetchstr a).
Proof. unfold Kern.fetchstr. keep. Qed.
Lemma keep_tf_word o : keep (Kern.tf_word o).
Proof. unfold Kern.tf_word. keep. Qed.
Lemma keep_set_tf_word o v : keep (Kern.set_tf_word o v).
Proof. unfold Kern.set_tf_word. keep. Qed.
#[local] Hint Resolve keep_fetchstr keep_tf_word keep_set_tf_word : keep.
Lemma keep_argint n : keep (Kern.argint n).
Proof. unfold Kern.argint. keep. Qed.
#[local] Hint Resolve keep_argint : keep.
Lemma keep_argptr n z : keep (Kern.argptr n z).
Proof. unfold Kern.argptr. keep. Qed.
Lemma keep_argstr n : keep (Kern.argstr n).
Proof. unfold Kern.argstr. keep. Qed.
Lemma keep_path_at a : keep (Kern.path_at a).
Proof. unfold Kern.path_at. keep. Qed.
Lemma keep_argfd n : keep (Kern.argfd n).
Proof. unfold Kern.argfd. keep. Qed.
#[local] Hint Resolve keep_argptr keep_argstr keep_path_at keep_argfd : keep.
Lemma keep_rw_args : keep Kern.rw_args.
Proof. unfold Kern.rw_args. keep. Qed.
#[local] Hint Resolve keep_rw_args : keep.

(** *** Files *)

Lemma fkeep_ok {A} (m : M fstate A) s a s' : fkeep m -> m s = Ok a s' -> forall f, f_ref (File.ftab s' f) = f_ref (File.ftab s f).
Proof. intros Hm H. apply Hm. by rewrite H. Qed.

Lemma fkeep_bind {A B} (m : M fstate A) (f : A -> M fstate B) : fkeep m -> (forall a, fkeep (f a)) -> fkeep (m ≫= f).
Proof.
  intros Hm Hf s s' H g. apply stops_bind in H as [(a & s1 & H1 & H2)|[c H1]]; [|apply Hm; by rewrite H1].
  by rewrite (Hf _ _ _ H2), (fkeep_ok _ _ _ _ Hm H1).
Qed.

Lemma fkeep_pure {A} (m : M fstate A) : (forall s s', stops (m s) s' -> s' = s) -> fkeep m.
Proof. intros H s s' E f. by apply H in E as ->. Qed.

Lemma fkeep_fupd i g : (forall f, f_ref (g f) = f_ref f) -> fkeep (File.fupd i g : M fstate unit).
Proof. intros Hg s s' <- f. cbn. destruct (decide (f = i)) as [->|]; [by rewrite fn_lookup_insert|by rewrite fn_lookup_insert_ne]. Qed.

Lemma fkeep_pipe {A} p (m : M Pipe.pipe A) : fkeep (File.on_pipe p m : M fstate A).
Proof. intros s s' H f. unfold File.on_pipe in H. destruct (File.pipes s !! p); [|done]. by apply zoom_stops in H as (x & _ & ->). Qed.

#[local] Ltac fkeep :=
  repeat lazymatch goal with
  | |- fkeep (_ ≫= _) => apply fkeep_bind; [|intros ?]
  | |- fkeep (mret _) => apply fkeep_pure; by intros ? ? <-
  | |- fkeep (File.fat _) => apply fkeep_pure; by intros ? ? <-
  | |- fkeep (panic _) => apply fkeep_pure; by intros ? ? []
  | |- fkeep nofuel => apply fkeep_pure; by intros ? ? []
  | |- fkeep (File.on_fs _) => by apply fkeep_zoom
  | |- fkeep (File.on_mem _) => by apply fkeep_zoom
  | |- fkeep File.begin_op => by apply fkeep_zoom
  | |- fkeep File.end_op => by apply fkeep_zoom
  | |- fkeep (File.on_pipe _ _) => apply fkeep_pipe
  | |- fkeep (File.fupd _ _) => by apply fkeep_fupd
  | |- fkeep (modify _) => by intros ? ? <-
  | |- fkeep (let _ := _ in _) => cbv zeta
  | |- fkeep (match _ with _ => _ end) => case_match
  | |- fkeep (when _ _) => unfold when
  end.

Lemma fkeep_fileread k i n : fkeep (File.fileread dsw k i n).
Proof. unfold File.fileread. fkeep. Qed.

Lemma fkeep_filewrite_loop i src n fuel : forall j, fkeep (File.filewrite_loop dsw i src j n fuel).
Proof. induction fuel; intros j; cbn [File.filewrite_loop]; fkeep. done. Qed.

Lemma fkeep_filewrite k i src n : fkeep (File.filewrite dsw k i src n).
Proof. unfold File.filewrite. fkeep. apply fkeep_filewrite_loop. Qed.

Lemma fkeep_filestat i : fkeep (File.filestat i : M fstate _).
Proof. unfold File.filestat. fkeep. Qed.

Lemma fkeep_pipeclose p w : fkeep (File.pipeclose kend p w : M fstate unit).
Proof. unfold File.pipeclose. fkeep. Qed.
#[local] Hint Resolve fkeep_fileread fkeep_filewrite fkeep_filestat fkeep_pipeclose keep_f : keep.

(** *** System calls that keep the descriptors *)

Lemma keep_growproc n : keep (Kern.growproc kend n).
Proof. unfold Kern.growproc. keep. Qed.
Lemma keep_ust_fields a l : keep (Kern.ust_fields a l).
Proof. induction l as [|[? ?] l IH]; cbn [Kern.ust_fields]; keep. Qed.
Lemma keep_my_cwd : keep Kern.my_cwd.
Proof. unfold Kern.my_cwd. keep. Qed.
#[local] Hint Resolve keep_growproc keep_ust_fields keep_my_cwd : keep.
Lemma keep_namei p : keep (Kern.namei dsw p).
Proof. unfold Kern.namei. keep. Qed.
Lemma keep_nameiparent p n : keep (Kern.nameiparent dsw p n).
Proof. unfold Kern.nameiparent. keep. Qed.
#[local] Hint Resolve keep_namei keep_nameiparent : keep.
#[local] Hint Extern 1 (keep (Kern.ilock _)) => apply keep_fs : keep.
#[local] Hint Extern 1 (keep (Kern.iunlock _)) => apply keep_fs : keep.
#[local] Hint Extern 1 (keep (Kern.iunlockput _)) => apply keep_fs : keep.
#[local] Hint Extern 1 (keep (Kern.iat _)) => apply keep_fs : keep.
#[local] Hint Extern 1 (keep (Kern.iupd _ _)) => apply keep_fs : keep.
#[local] Hint Extern 1 (keep (Kern.iupdate _)) => apply keep_fs : keep.

Lemma keep_link_bad i : keep (Kern.sys_link_bad i).
Proof. unfold Kern.sys_link_bad. keep. Qed.
#[local] Hint Resolve keep_link_bad : keep.
Lemma keep_sys_link : keep (Kern.sys_link dsw).
Proof. unfold Kern.sys_link. keep. Qed.
Lemma keep_isdirempty_loop dp fuel : forall off, keep (Kern.isdirempty_loop dsw dp off fuel).
Proof. induction fuel; intros off; cbn [Kern.isdirempty_loop]; keep. Qed.
#[local] Hint Resolve keep_sys_link keep_isdirempty_loop : keep.
Lemma keep_isdirempty dp : keep (Kern.isdirempty dsw dp).
Proof. unfold Kern.isdirempty. keep. Qed.
Lemma keep_unlink_bad dp : keep (Kern.sys_unlink_bad dp).
Proof. unfold Kern.sys_unlink_bad. keep. Qed.
#[local] Hint Resolve keep_isdirempty keep_unlink_bad : keep.
Lemma keep_unlink_found dp ip off : keep (Kern.unlink_found dsw dp ip off).
Proof. unfold Kern.unlink_found. keep. Qed.
#[local] Hint Resolve keep_unlink_found : keep.
Lemma keep_sys_unlink : keep (Kern.sys_unlink dsw).
Proof. unfold Kern.sys_unlink. keep. Qed.
Lemma keep_create_new dp n ty mj mn : keep (Kern.create_new dsw dp n ty mj mn).
Proof. unfold Kern.create_new. keep. Qed.
#[local] Hint Resolve keep_sys_unlink keep_create_new : keep.
Lemma keep_create p ty mj mn : keep (Kern.create dsw p ty mj mn).
Proof. unfold Kern.create. keep. Qed.
#[local] Hint Resolve keep_create : keep.
Lemma keep_open_inode p m : keep (Kern.open_inode dsw p m).
Proof. unfold Kern.open_inode. keep. Qed.
Lemma keep_made r : keep (Kern.made r).
Proof. unfold Kern.made. keep. Qed.
#[local] Hint Resolve keep_open_inode keep_made : keep.
Lemma keep_sys_mkdir : keep (Kern.sys_mkdir dsw).
Proof. unfold Kern.sys_mkdir. keep. Qed.
Lemma keep_sys_mknod : keep (Kern.sys_mknod dsw).
Proof. unfold Kern.sys_mknod. keep. Qed.
Lemma keep_sys_chdir : keep (Kern.sys_chdir dsw).
Proof. unfold Kern.sys_chdir. keep. Qed.
Lemma keep_sys_read : keep (Kern.sys_read dsw).
Proof. unfold Kern.sys_read. keep. Qed.
Lemma keep_sys_write : keep (Kern.sys_write dsw).
Proof. unfold Kern.sys_write. keep. Qed.
Lemma keep_sys_fstat : keep Kern.sys_fstat.
Proof. unfold Kern.sys_fstat. keep. Qed.
#[local] Hint Resolve keep_sys_mkdir keep_sys_mknod keep_sys_chdir keep_sys_read keep_sys_write keep_sys_fstat : keep.

(** *** exec *)

Lemma keep_readi_to ip d o n : keep (Kern.readi_to dsw ip d o n).
Proof. unfold Kern.readi_to. keep. Qed.
#[local] Hint Resolve keep_readi_to : keep.

Lemma keep_zoom_mem {A} (m : M Kalloc.kst A) : keep (zoom Kern.kmem Kern.set_kmem m).
Proof. intros s s' _ H. apply zoom_stops in H as (x & _ & ->). split; [apply tsame_refl|done]. Qed.
#[local] Hint Resolve keep_zoom_mem : keep.

Lemma keep_loaduvm_loop ip n pd a o z : forall i, keep (Vm.loaduvm_loop Kern.kmem Kern.set_kmem (Kern.readi_to dsw ip) n pd a o i z).
Proof. induction n; intros i; cbn [Vm.loaduvm_loop]; keep. Qed.
#[local] Hint Resolve keep_loaduvm_loop : keep.

Lemma keep_loaduvm ip pd a o z : keep (Vm.loaduvm Kern.kmem Kern.set_kmem (Kern.readi_to dsw ip) pd a o z).
Proof. unfold Vm.loaduvm. keep. Qed.
#[local] Hint Resolve keep_loaduvm : keep.

Lemma keep_load_segs ip pd n : forall z o, keep (Kern.load_segs kend dsw ip pd z o n).
Proof. induction n; intros z o; cbn [Kern.load_segs]; keep. Qed.
Lemma keep_push_args pd l : forall sp n acc, keep (Kern.push_args pd sp l n acc).
Proof. induction l; intros sp n acc; cbn [Kern.push_args]; keep. Qed.
Lemma keep_exec_bad pd ip : keep (Kern.exec_bad kend pd ip).
Proof. unfold Kern.exec_bad. keep. Qed.
Lemma keep_exec_commit pd z e sp p : keep (Kern.exec_commit kend pd z e sp p).
Proof. unfold Kern.exec_commit. keep. Qed.
#[local] Hint Resolve keep_load_segs keep_push_args keep_exec_bad keep_exec_commit : keep.
Lemma keep_exec_stack pd z e p l : keep (Kern.exec_stack kend pd z e p l).
Proof. unfold Kern.exec_stack. keep. Qed.
#[local] Hint Resolve keep_exec_stack : keep.
Lemma keep_exec junk p l : keep (Kern.exec kend kdata dsw junk p l).
Proof. unfold Kern.exec. keep. Qed.
Lemma keep_fetch_argv u n : forall i acc, keep (Kern.fetch_argv u i n acc).
Proof. induction n; intros i acc; cbn [Kern.fetch_argv]; keep. Qed.
#[local] Hint Resolve keep_exec keep_fetch_argv : keep.
Lemma keep_sys_exec junk : keep (Kern.sys_exec kend kdata dsw junk).
Proof. unfold Kern.sys_exec. keep. Qed.
#[local] Hint Resolve keep_sys_exec : keep.

(** *** Processes *)

Lemma keep_acquire_ticks : keep Kern.acquire_ticks.
Proof. apply keep_set. intros s s'. unfold Kern.acquire_ticks, Seq.acquire. destruct (Kern.tickslock s); [done|]. by intros <-. Qed.
Lemma keep_release_ticks : keep Kern.release_ticks.
Proof. apply keep_set. intros s s'. unfold Kern.release_ticks, Seq.release. destruct (Kern.tickslock s); [|done]. by intros <-. Qed.
#[local] Hint Resolve keep_acquire_ticks keep_release_ticks : keep.
Lemma keep_sys_sleep : keep Kern.sys_sleep.
Proof. unfold Kern.sys_sleep, Kern.sys_sleep_loop. keep. Qed.
Lemma keep_sys_uptime : keep Kern.sys_uptime.
Proof. unfold Kern.sys_uptime. keep. Qed.
Lemma keep_sys_sbrk : keep (Kern.sys_sbrk kend).
Proof. unfold Kern.sys_sbrk. keep. Qed.
Lemma keep_sys_kill : keep Kern.sys_kill.
Proof. unfold Kern.sys_kill. keep. Qed.
Lemma keep_sys_getpid : keep Kern.sys_getpid.
Proof. unfold Kern.sys_getpid. keep. Qed.
Lemma keep_sys_getpcount : keep Kern.sys_getpcount.
Proof. unfold Kern.sys_getpcount. keep. Qed.
#[local] Hint Resolve keep_sys_sleep keep_sys_uptime keep_sys_sbrk keep_sys_kill keep_sys_getpid keep_sys_getpcount : keep.
Lemma keep_trap_switch h c n cs : keep (Kern.ideintr h) -> keep (Kern.kbdintr h) -> keep (Kern.uartintr h) -> keep (Kern.trap_switch h c n cs).
Proof. intros H1 H2 H3. unfold Kern.trap_switch. keep; [|by split]. apply keep_set. by intros s s' <-. Qed.
Lemma keep_must_exit cs : keep (Kern.must_exit cs).
Proof. unfold Kern.must_exit. keep. Qed.

(** ** Counting descriptors *)

(** How often the descriptors of all processes name the file [f]. *)
Definition named (f : nat) (ps : list proc) : Z := nrefs f (mjoin (ofile <$> ps)).

Definition one (o : option nat) (f : nat) : Z := if decide (o = Some f) then 1 else 0.

Lemma one_none f : one None f = 0.
Proof. unfold one. by rewrite decide_False by done. Qed.

Lemma nrefs_app f l l' : nrefs f (l ++ l') = nrefs f l + nrefs f l'.
Proof. unfold nrefs. rewrite filter_app, length_app. lia. Qed.

Lemma nrefs_insert f l k o o' : l !! k = Some o -> nrefs f (<[k := o']> l) = nrefs f l - one o f + one o' f.
Proof.
  revert k. induction l as [|x l IH]; intros [|k] H; cbn in H; try done.
  - injection H as ->. change (<[0%nat := o']> (o :: l)) with (o' :: l). rewrite !nrefs_cons. unfold one. lia.
  - change (<[Datatypes.S k := o']> (x :: l)) with (x :: <[k := o']> l). rewrite !nrefs_cons, (IH k H). lia.
Qed.

Lemma nrefs_ge f l k : l !! k = Some (Some f) -> 1 <= nrefs f l.
Proof. intros H. pose proof (nrefs_insert f l k _ None H) as E. unfold one in E. rewrite decide_True in E by done. case_decide; [done|]. unfold nrefs in *. lia. Qed.

Lemma named_cons f p ps : named f (p :: ps) = nrefs f (ofile p) + named f ps.
Proof. unfold named. cbn. apply nrefs_app. Qed.

Lemma named_alter f ps i p g : ps !! i = Some p -> named f (alter g i ps) = named f ps - nrefs f (ofile p) + nrefs f (ofile (g p)).
Proof.
  revert i. induction ps as [|x ps IH]; intros [|i] H; cbn in H; try done.
  - injection H as ->. change (alter g 0%nat (p :: ps)) with (g p :: ps). rewrite !named_cons. lia.
  - change (alter g (Datatypes.S i) (x :: ps)) with (x :: alter g i ps). rewrite !named_cons, (IH i H). lia.
Qed.

Lemma named_same f ps ps' : Forall2 psame ps ps' -> named f ps' = named f ps.
Proof. induction 1 as [|p p' ps ps' [Hp _] _ IH]; [done|]. by rewrite !named_cons, IH, Hp. Qed.

Lemma named_ge f ps i p k : ps !! i = Some p -> ofile p !! k = Some (Some f) -> 1 <= named f ps.
Proof.
  intros Hi Hk. pose proof (named_alter f ps i p (set_ofile []) Hi) as E. pose proof (nrefs_ge f _ _ Hk). unfold named, nrefs in *. cbn in E. lia.
Qed.

(** A process has [NOFILE] descriptors; one that is dead has none open. *)
Definition pfiles (p : proc) : Prop := length (ofile p) = NOFILE /\ (dead (state p) -> ofile p = replicate NOFILE None).

(** The count of each file is that of the descriptors that name it and [e]:
    the references that processes asleep in a system call hold, or the
    difference in the middle of an operation. *)
Record inv (e : nat -> Z) (s : kern) : Prop := MkInv {
  i_refs : forall f, f_ref (File.ftab (Kern.kf s) f) = named f (Proc.procs (Kern.kp s)) + e f;
  i_files : Forall pfiles (Proc.procs (Kern.kp s))
}.
Definition rdy (e : nat -> Z) (s : kern) : Prop := inv e s /\ live s.

(** Partial correctness. *)
Definition hoare {A} (P : kern -> Prop) (m : M kern A) (Q : A -> kern -> Prop) : Prop := forall s a s', P s -> m s = Ok a s' -> Q a s'.

(** What depends on descriptors and counts only. *)
Class Stable (P : kern -> Prop) : Prop := MkStable {
  stable : forall s s', fsame s s' -> P s -> P s';
  stable_live : forall s, P s -> live s
}.

Lemma pfiles_same p p' : psame p p' -> pfiles p -> pfiles p'.
Proof. intros [H1 H2] [H3 H4]. split; [by rewrite H1|]. rewrite H1, H2. done. Qed.

Lemma inv_same e s s' : fsame s s' -> inv e s -> inv e s'.
Proof.
  intros [[Ht _] Hr] [H1 H2]. split.
  - intros f. by rewrite Hr, H1, (named_same _ _ _ Ht).
  - apply Forall_lookup. intros i p' Hp'. destruct (Forall2_lookup_r _ _ _ _ _ Ht Hp') as (p & Hp & Hs).
    eapply pfiles_same; [exact Hs|]. by eapply (proj1 (Forall_lookup _ _) H2).
Qed.

Lemma inv_ext e e' s : (forall f, e f = e' f) -> inv e s -> inv e' s.
Proof. intros He [H1 H2]. split; [|done]. intros f. by rewrite H1, He. Qed.

#[local] Instance rdy_stable e : Stable (rdy e).
Proof. split; [|by intros s [_ ?]]. intros s s' Hs [H1 H2]. split; [by eapply inv_same|by eapply live_same]. Qed.

Lemma hoare_bind {A B} P (m : M kern A) (f : A -> M kern B) Q R : hoare P m Q -> (forall a, hoare (Q a) (f a) R) -> hoare P (m ≫= f) R.
Proof. intros Hm Hf s b s' HP H. apply bind_ok in H as (a & s1 & H1 & H2). by eapply Hf; [eapply Hm|]. Qed.

Lemma hoare_ret {A} (P : kern -> Prop) (a : A) Q : (forall s, P s -> Q a s) -> hoare P (mret a) Q.
Proof. intros H s b s' HP [= <- <-]. by apply H. Qed.

Lemma hoare_keep {A} P (m : M kern A) : Stable P -> keep m -> hoare P m (fun _ => P).
Proof. intros HS Hm s a s' HP H. eapply (stable (P := P)); [|exact HP]. eapply keep_ok; [done|by eapply stable_live|done]. Qed.

Lemma hoare_step {A B} P (m : M kern A) (f : A -> M kern B) R : Stable P -> keep m -> (forall a, hoare P (f a) R) -> hoare P (m ≫= f) R.
Proof. intros HS Hm Hf. eapply hoare_bind; [by apply hoare_keep|done]. Qed.

Lemma hoare_last {A} P (m : M kern A) Q : Stable P -> keep m -> (forall a s, P s -> Q a s) -> hoare P m Q.
Proof. intros HS Hm HQ s a s' HP H. eapply HQ, hoare_keep; done. Qed.

Lemma rdy_keep {A} e (m : M kern A) s a s' : keep m -> rdy e s -> m s = Ok a s' -> rdy e s'.
Proof. intros Hm. apply (hoare_keep (rdy e) m); [apply _|done]. Qed.

Lemma hoare_none {A} P (m : M kern A) Q : (forall s a s', m s <> Ok a s') -> hoare P m Q.
Proof. intros H s a s' _ E. by apply H in E. Qed.

(** ** Operations on the counts *)

(** Code of the file table that adds [d] to the counts. *)
Definition adds {A} (m : M fstate A) (d : A -> nat -> Z) : Prop :=
  forall s a s', m s = Ok a s' -> forall g, f_ref (File.ftab s' g) = f_ref (File.ftab s g) + d a g.

Lemma adds_keep {A B} (m : M fstate A) (k : A -> M fstate B) d : fkeep m -> (forall a, adds (k a) d) -> adds (m ≫= k) d.
Proof. intros Hm Hk s b s' H g. apply bind_ok in H as (a & s1 & H1 & H2). by rewrite (Hk _ _ _ _ H2), (fkeep_ok _ _ _ _ Hm H1). Qed.

Lemma fkeep_adds {A} (m : M fstate A) d : fkeep m -> (forall a g, d a g = 0) -> adds m d.
Proof. intros Hm Hd s a s' H g. rewrite (fkeep_ok _ _ _ _ Hm H), Hd. lia. Qed.

Lemma fkeep_acquire : fkeep (File.acquire : M fstate unit).
Proof. intros s s' H. unfold File.acquire, Seq.acquire in H. destruct (File.ftlock s); [done|]. by cbn in H; subst. Qed.

Lemma fkeep_release : fkeep (File.release : M fstate unit).
Proof. intros s s' H. unfold File.release, Seq.release in H. destruct (File.ftlock s); [|done]. by cbn in H; subst. Qed.

Lemma adds_fupd f h x : (forall y, f_ref (h y) = f_ref y + x) -> adds (File.fupd f h : M fstate unit) (fun _ g => if decide (f = g) then x else 0).
Proof.
  intros Hh s [] s' [= <-] g. cbn. case_decide as E; [subst; by rewrite fn_lookup_insert|rewrite fn_lookup_insert_ne by done; lia].
Qed.

Lemma find_free_zero t n : forall i f, File.find_free t i n = Some f -> f_ref (t f) = 0.
Proof. induction n as [|n IH]; intros i f; cbn; [done|]. case_match eqn:E; [|apply IH]. intros [= <-]. by apply Z.eqb_eq. Qed.

Lemma adds_filealloc : adds (File.filealloc : M fstate _) one.
Proof.
  unfold File.filealloc. apply adds_keep; [apply fkeep_acquire|intros _]. intros s r s' H g. apply bind_ok in H as (x & s1 & [= <- <-] & H).
  destruct (File.find_free _ _ _) as [f|] eqn:Ef.
  - apply find_free_zero in Ef. apply bind_ok in H as ([] & s1 & [= <-] & H). apply bind_ok in H as ([] & s2 & H2 & [= <- <-]).
    rewrite (fkeep_ok _ _ _ _ fkeep_release H2). cbn. unfold one. case_decide as E; [simplify_eq; rewrite fn_lookup_insert; cbn; lia|].
    rewrite fn_lookup_insert_ne by congruence. lia.
  - apply bind_ok in H as ([] & s2 & H2 & [= <- <-]). rewrite (fkeep_ok _ _ _ _ fkeep_release H2), one_none. lia.
Qed.

Lemma adds_filedup f : adds (File.filedup f : M fstate _) (fun _ => one (Some f)).
Proof.
  intros s r s' H g. unfold File.filedup in H. apply bind_ok in H as ([] & s1 & H1 & H). apply bind_ok in H as (y & s2 & [= <- <-] & H).
  destruct (_ <? _); [done|]. apply bind_ok in H as ([] & s3 & H3 & H). apply bind_ok in H as ([] & s4 & H4 & [= <- <-]).
  rewrite (fkeep_ok _ _ _ _ fkeep_release H4), (adds_fupd f (fun f => File.set_ref (f_ref f + 1) f) 1 (fun _ => eq_refl) _ _ _ H3), (fkeep_ok _ _ _ _ fkeep_acquire H1). unfold one. repeat case_decide; simplify_eq; lia.
Qed.
#[local] Hint Resolve fkeep_acquire fkeep_release : keep.

(** The file is closed: for a count of one the entry is cleared.  The count is
    down before the call may wait. *)
Lemma stops_fileclose f s s' : stops (File.fileclose kend f s) s' -> forall g, f_ref (File.ftab s' g) = f_ref (File.ftab s g) - one (Some f) g.
Proof.
  intros H g. unfold File.fileclose in H. apply stops_bind in H as [([] & s1 & H1 & H)|[c H]]; [|by apply awake_acquire in H].
  apply stops_bind in H as [(y & s2 & [= <- <-] & H)|[c H]]; [|done]. destruct (_ <? _) eqn:Ey; [done|].
  apply stops_bind in H as [([] & s3 & H3 & H)|[c H]]; [|done]. apply stops_bind in H as [(ff & s4 & [= <- <-] & H)|[c H]]; [|done].
  assert (f_ref (File.ftab s3 g) = f_ref (File.ftab s g) - one (Some f) g) as E3.
  { rewrite (adds_fupd f (fun f => File.set_ref (f_ref f - 1) f) (-1) (fun _ => eq_refl) _ _ _ H3), (fkeep_ok _ _ _ _ fkeep_acquire H1). unfold one. repeat case_decide; simplify_eq; lia. }
  destruct (0 <? _) eqn:E0; [by rewrite (fkeep_release _ _ H), E3|].
  apply stops_bind in H as [([] & s4 & [= <-] & H)|[c H]]; [|done]. apply stops_bind in H as [([] & s5 & H5 & H)|[c H]]; [|by apply awake_release in H].
  assert (f_ref (File.ftab s5 g) = f_ref (File.ftab s3 g)) as E5.
  { rewrite (fkeep_ok _ _ _ _ fkeep_release H5). cbn. destruct (decide (g = f)) as [->|]; [|by rewrite fn_lookup_insert_ne by done].
    rewrite fn_lookup_insert. cbn. injection H3 as <-. cbn in *. rewrite fn_lookup_insert in *. cbn in *. lia. }
  assert (fkeep (match f_type (File.ftab s3 f) with
    | FD_PIPE => File.pipeclose kend (f_pipe (File.ftab s3 f)) (f_writable (File.ftab s3 f))
    | FD_INODE => File.begin_op;; File.on_fs (Fs.iput (f_ip (File.ftab s3 f)));; File.end_op
    | FD_NONE => mret tt end)) as Hk by (fkeep; apply fkeep_pipeclose).
  rewrite (Hk _ _ H), E5, E3. lia.
Qed.

Lemma adds_fileclose f : adds (File.fileclose kend f : M fstate _) (fun _ g => - one (Some f) g).
Proof. intros s [] s' H g. rewrite (stops_fileclose f s s'); [lia|by rewrite H]. Qed.

Lemma adds_close_opt o : adds (match o with Some i => File.fileclose kend i | None => mret tt end) (fun _ g => - one o g).
Proof. destruct o; [apply adds_fileclose|]. apply fkeep_adds; [fkeep|]. intros _ g. by rewrite one_none. Qed.

Lemma pipealloc_bad_refs p f0 f1 s r s' : File.pipealloc_bad kend p f0 f1 s = Ok r s' ->
  r = None /\ forall g, f_ref (File.ftab s' g) = f_ref (File.ftab s g) - one f0 g - one f1 g.
Proof.
  unfold File.pipealloc_bad. intros H. apply bind_ok in H as ([] & s1 & H1 & H). apply bind_ok in H as ([] & s2 & H2 & H).
  apply bind_ok in H as ([] & s3 & H3 & [= <- <-]). split; [done|]. intros g.
  assert (fkeep (when (negb (p =? 0)) (File.on_mem (Kalloc.kfree kend p)))) as Hk by fkeep.
  rewrite (adds_close_opt _ _ _ _ H3), (adds_close_opt _ _ _ _ H2), (fkeep_ok _ _ _ _ Hk H1). lia.
Qed.

Lemma gets_same {T A} (h : T -> A) s a s' : gets h s = Ok a s' -> s' = s.
Proof. by intros [= _ <-]. Qed.

Lemma adds_pipealloc : adds (File.pipealloc kend : M fstate _)
  (fun r g => match r with Some (i0, i1) => one (Some i0) g + one (Some i1) g | None => 0 end).
Proof.
  intros s r s' H g. unfold File.pipealloc in H. apply bind_ok in H as (f0 & s1 & H1 & H). pose proof (adds_filealloc _ _ _ H1 g) as E1. clear H1.
  destruct f0 as [i0|]; [|apply pipealloc_bad_refs in H as [-> H]; rewrite H, E1, !one_none; lia].
  apply bind_ok in H as (f1 & s2 & H2 & H). pose proof (adds_filealloc _ _ _ H2 g) as E2. clear H2.
  destruct f1 as [i1|]; [|apply pipealloc_bad_refs in H as [-> H]; rewrite H, E2, E1, !one_none; lia].
  apply bind_ok in H as (p & s3 & H3 & H). assert (f_ref (File.ftab s3 g) = f_ref (File.ftab s2 g)) as E3 by (eapply fkeep_ok, H3; by apply fkeep_zoom).
  destruct (p =? 0); [apply pipealloc_bad_refs in H as [-> H]; rewrite H, E3, E2, E1; lia|].
  apply bind_ok in H as (pg & s4 & E4 & H). apply gets_same in E4 as ->. apply bind_ok in H as ([] & s4 & [= <-] & H). apply bind_ok in H as ([] & s5 & H5 & H).
  apply bind_ok in H as ([] & s6 & H6 & [= <- <-]). rewrite (fkeep_ok _ _ _ _ (fkeep_fupd i1 (File.write_end p) (fun _ => eq_refl)) H6), (fkeep_ok _ _ _ _ (fkeep_fupd i0 (File.read_end p) (fun _ => eq_refl)) H5).
  cbn. lia.
Qed.

(** ** Descriptors *)

Lemma hoare_f {A} e (m : M fstate A) d : adds m d -> hoare (rdy e) (Kern.on_f m) (fun a => rdy (fun g => e g + d a g)).
Proof.
  intros Hm s a s' [[H1 H2] Hl] H. apply zoom_inv in H as (x & H & ->). split; [|done]. split; [|done]. intros f. cbn. rewrite (Hm _ _ _ H), H1. lia.
Qed.

(** Descriptor [fd] of the slot [i], in use, holds [o]. *)
Definition fd_at (i fd : nat) (o : option nat) (s : kern) : Prop :=
  exists p, Proc.procs (Kern.kp s) !! i = Some p /\ ofile p !! fd = Some o /\ ~ dead (state p).

(** [s'] is [s] with slot [i] changed by [h]. *)
Record slot_set (i : nat) (h : proc -> proc) (s s' : kern) : Prop := MkSlotSet {
  st_procs : Proc.procs (Kern.kp s') = alter h i (Proc.procs (Kern.kp s));
  st_cur : Proc.curproc (Kern.kp s') = Proc.curproc (Kern.kp s);
  st_kf : Kern.kf s' = Kern.kf s
}.

Lemma pupd_set i h (s : kern) a s' : Kern.on_p (Proc.pupd i h) s = Ok a s' -> slot_set i h s s'.
Proof. intros H. apply zoom_inv in H as (x & [= _ <-] & ->). done. Qed.

Lemma rdy_set e e' s s' i p h : slot_set i h s s' -> rdy e s -> Proc.procs (Kern.kp s) !! i = Some p -> pfiles (h p) ->
  (Proc.curproc (Kern.kp s) = Some i -> ~ dead (state (h p))) -> (forall f, e f + nrefs f (ofile p) = e' f + nrefs f (ofile (h p))) ->
  rdy e' s' /\ Proc.procs (Kern.kp s') !! i = Some (h p).
Proof.
  intros [E1 E2 E3] [[H1 H2] Hl] Hp Hf Hc He.
  assert (alter h i (Proc.procs (Kern.kp s)) !! i = Some (h p)) as Ep by (by rewrite list_lookup_alter_eq, Hp). rewrite E1. split; [split; [split|]|done].
  - intros f. rewrite E1, E3, (named_alter f _ _ _ h Hp), H1. specialize (He f). lia.
  - rewrite E1. apply Forall_alter; [done|]. intros q Hq _. assert (q = p) as -> by (cbn in Hq; congruence). done.
  - unfold live, tlive. rewrite E1, E2. intros j Hj. destruct (Hl j Hj) as (q & Hq & Hqd). destruct (decide (i = j)) as [<-|]; [exists (h p); split; [done|by apply Hc]|].
    exists q. by rewrite list_lookup_alter_ne.
Qed.

Lemma rdy_pfiles e s i p : rdy e s -> Proc.procs (Kern.kp s) !! i = Some p -> pfiles p.
Proof. intros [[_ H] _]. by apply (proj1 (Forall_lookup _ _) H). Qed.

Lemma put_fd e i fd o o' : hoare (fun s => rdy e s /\ fd_at i fd o s)
  (Kern.on_p (Proc.pupd i (fun p => set_ofile (<[fd := o']> (ofile p)) p)))
  (fun _ s => rdy (fun g => e g + one o g - one o' g) s /\ fd_at i fd o' s).
Proof.
  intros s [] s' [Hr (p & Hp & Hfd & Hd)] H. set (h := fun p => set_ofile (<[fd := o']> (ofile p)) p) in H.
  destruct (rdy_pfiles _ _ _ _ Hr Hp) as [Hlen _]. assert (fd < length (ofile p))%nat as Hlt by (by apply lookup_lt_Some in Hfd).
  destruct (rdy_set e (fun g => e g + one o g - one o' g) s s' i p h (pupd_set _ _ _ _ _ H) Hr Hp) as (H1 & H2).
  - split; [by cbn; rewrite length_insert|]. cbn. tauto.
  - done.
  - intros f. unfold h. cbn. rewrite (nrefs_insert f _ _ _ _ Hfd). lia.
  - split; [done|]. exists (h p). split_and!; [done|by apply list_lookup_insert_eq|done].
Qed.

(** The current process's descriptor. *)
Definition my_fd (fd : nat) (o : option nat) (s : kern) : Prop := exists i, Proc.curproc (Kern.kp s) = Some i /\ fd_at i fd o s.

Lemma put_my_fd e fd o o' : hoare (fun s => rdy e s /\ my_fd fd o s)
  (Kern.mine (fun p => set_ofile (<[fd := o']> (ofile p)) p))
  (fun _ s => rdy (fun g => e g + one o g - one o' g) s /\ my_fd fd o' s).
Proof.
  intros s a s' [Hr (i & Hi & Hfd)] H. unfold Kern.mine in H. rewrite (bind_ok_l _ _ _ _ _ (me_run s i Hi)) in H.
  destruct (put_fd e i fd o o' _ _ _ (conj Hr Hfd) H) as [H1 H2]. split; [done|]. exists i. split; [|done].
  apply zoom_inv in H as (x & H & ->). by injection H as _ <-.
Qed.

Lemma free_fd_spec l : forall i fd, Kern.free_fd l i = Some fd -> (i <= fd)%nat /\ l !! (fd - i)%nat = Some None.
Proof.
  induction l as [|[f|] l IH]; intros i fd; cbn; [done| |intros [= <-]; by rewrite Nat.sub_diag].
  intros H. destruct (IH _ _ H) as [H1 H2]. split; [lia|]. by replace (fd - i)%nat with (Datatypes.S (fd - (i + 1))) by lia.
Qed.

Lemma my_slot s e : rdy e s -> forall i, Proc.curproc (Kern.kp s) = Some i ->
  exists p, Proc.procs (Kern.kp s) !! i = Some p /\ Kern.myproc s = Ok p s /\ ~ dead (state p) /\ length (ofile p) = NOFILE.
Proof.
  intros [[_ Hf] Hl] i Hi. destruct (Hl i Hi) as (p & Hp & Hd). exists p. split_and!; [done| |done|].
  - rewrite (myproc_run s i Hi). by rewrite (list_lookup_total_correct _ _ _ Hp).
  - by apply (proj1 (Forall_lookup _ _) Hf i p Hp).
Qed.

Lemma myproc_slot s e p s' : rdy e s -> Kern.myproc s = Ok p s' ->
  s' = s /\ exists i, Proc.curproc (Kern.kp s) = Some i /\ Proc.procs (Kern.kp s) !! i = Some p /\ ~ dead (state p) /\ length (ofile p) = NOFILE.
Proof.
  intros Hr H. pose proof H as H'. unfold Kern.myproc in H'. apply bind_ok in H' as (i & s1 & Hm & _). apply zoom_inv in Hm as (x & Hm & _).
  apply cur_inv in Hm as [Hi _]. destruct (my_slot s e Hr i Hi) as (q & Hq & Hrun & Hd & Hlen). rewrite Hrun in H. injection H as <- <-. eauto 10.
Qed.

(** The descriptor [argfd] finds. *)
Lemma hoare_argfd e n : hoare (rdy e) (Kern.argfd n) (fun r s => rdy e s /\ match r with Some (fd, f) => my_fd fd (Some f) s | None => True end).
Proof.
  unfold Kern.argfd. apply hoare_step; [apply _|apply keep_argint|intros [fd|]; [|by apply hoare_ret]]. case_match; [by apply hoare_ret|].
  intros s r s' Hr H'. apply bind_ok in H' as (p & s1 & Hm & H'). destruct (myproc_slot s e p s1 Hr Hm) as (-> & i & Hi & Hp & Hd & _).
  destruct (ofile p !! Z.to_nat fd) as [[f|]|] eqn:Ef; injection H' as <- <-; split; try done. exists i. split; [done|]. by exists p.
Qed.

(** A descriptor takes over a reference. *)
Lemma hoare_fdalloc e f : hoare (rdy e) (Kern.fdalloc f)
  (fun r s => (0 <= r /\ rdy (fun g => e g - one (Some f) g) s /\ my_fd (Z.to_nat r) (Some f) s) \/ (r = -1 /\ rdy e s)).
Proof.
  intros s r s' Hr H. apply bind_ok in H as (p & s1 & Hm & H). destruct (myproc_slot s e p s1 Hr Hm) as (-> & i & Hi & Hp & Hd & Hlen).
  rewrite <- Hlen, firstn_all in H. destruct (Kern.free_fd (ofile p) 0) as [fd|] eqn:Ef; [|injection H as <- <-; by right]. left.
  apply free_fd_spec in Ef as [_ Ef]. rewrite Nat.sub_0_r in Ef. apply bind_ok in H as ([] & s1 & H1 & [= <- <-]). rewrite Nat2Z.id.
  destruct (put_my_fd e fd None (Some f) s tt s1) as [[HI HL] H3]; [split; [done|]; exists i; split; [done|]; by exists p|done|]. split_and!; [lia| |done].
  split; [|done]. eapply inv_ext; [|exact HI]. intros g. cbn. rewrite one_none. lia.
Qed.

Lemma fdalloc_none f (s : kern) r s' : Kern.fdalloc f s = Ok r s' -> r < 0 -> s' = s.
Proof.
  intros H Hr. apply bind_ok in H as (p & s1 & Hm & H). apply bind_ok in Hm as (i & s2 & Hi & Hm). apply zoom_inv in Hi as (x & Hi & ->). apply cur_inv in Hi as [_ ->].
  apply zoom_inv in Hm as (y & [= _ <-] & ->). destruct (Kern.free_fd _ _); [apply bind_ok in H as ([] & s3 & _ & [= <- _]); lia|].
  injection H as _ <-. by destruct s.
Qed.

(** [rdy] only depends on the values of [e]. *)
Lemma rdy_ext e e' s : (forall f, e f = e' f) -> rdy e s -> rdy e' s.
Proof. intros He [H1 H2]. split; [by eapply inv_ext|done]. Qed.

Lemma hoare_sys_dup e : hoare (rdy e) Kern.sys_dup (fun _ => rdy e).
Proof.
  eapply hoare_bind; [apply hoare_argfd|]. intros [[fd f]|]; [|apply hoare_ret; tauto].
  intros s r s' [Hr _] H. apply bind_ok in H as (n & s1 & H1 & H). destruct (hoare_fdalloc _ _ _ _ _ Hr H1) as [(Hn & Hr1 & _)|[-> Hr1]].
  - rewrite (proj2 (Z.ltb_ge _ _) Hn) in H. apply bind_ok in H as (x & s2 & H2 & [= <- <-]). eapply rdy_ext; [|exact (hoare_f _ _ _ (adds_filedup f) _ _ _ Hr1 H2)].
    intros g. cbn. lia.
  - by injection H as <- <-.
Qed.

Lemma hoare_sys_close e : hoare (rdy e) (Kern.sys_close kend) (fun _ => rdy e).
Proof.
  eapply hoare_bind; [apply hoare_argfd|]. intros [[fd f]|]; [|apply hoare_ret; tauto].
  intros s r s' Hr H. apply bind_ok in H as ([] & s1 & H1 & H). apply put_my_fd with (e := e) (o := Some f) in H1 as [Hr1 _]; [|done].
  apply bind_ok in H as ([] & s2 & H2 & [= <- <-]). eapply rdy_ext; [|exact (hoare_f _ _ _ (adds_fileclose f) _ _ _ Hr1 H2)]. intros g. cbn. rewrite one_none. lia.
Qed.

(** Close a goal [rdy e' s] from [rdy e s], the two agreeing. *)
#[local] Ltac rdy_ext H := eapply rdy_ext; [|exact H]; let g := fresh in intros g; cbn; rewrite ?one_none; lia.

Lemma hoare_open_tail e ip omode : hoare (rdy e)
  (f ← Kern.on_f File.filealloc;
   fd ← (match f with Some f => Kern.fdalloc f | None => mret (-1) end);
   if fd <? 0 then
     match f with Some f => Kern.on_f (File.fileclose kend f) | None => mret tt end;;
     Kern.iunlockput ip;;
     Kern.end_op;;
     mret (Kern.SysRet (-1))
   else
     Kern.iunlock ip;;
     Kern.end_op;;
     match f with Some f => Kern.on_f (File.fupd f (Kern.open_file ip omode)) | None => mret tt end;;
     mret (Kern.SysRet fd)) (fun _ => rdy e).
Proof.
  eapply hoare_bind; [apply hoare_f, adds_filealloc|]. intros [f|]; [|cbn [Z.ltb Z.compare]].
  - eapply hoare_bind; [apply hoare_fdalloc|]. intros fd. destruct (Z.ltb_spec fd 0).
    + intros s r s' [(? & _)|[-> Hr]] H'; [lia|]. apply bind_ok in H' as ([] & s1 & H1 & H'). pose proof (hoare_f _ _ _ (adds_fileclose f) _ _ _ Hr H1) as Hr1.
      assert (rdy e s1) as Hr2 by rdy_ext Hr1. eapply rdy_keep, H'; [keep|done].
    + intros s r s' [(_ & Hr & _)|[-> _]] H'; [|lia]. assert (rdy e s) as Hr1 by rdy_ext Hr. eapply rdy_keep, H'; [|done].
      keep. by apply keep_f, fkeep_fupd.
  - intros s r s' Hr H'. assert (rdy e s) as Hr1 by rdy_ext Hr. eapply rdy_keep, H'; [keep|done].
Qed.

Lemma hoare_sys_open e : hoare (rdy e) (Kern.sys_open kend dsw) (fun _ => rdy e).
Proof.
  unfold Kern.sys_open. apply hoare_step; [apply _|keep|intros [a|]; [|by apply hoare_ret]].
  apply hoare_step; [apply _|keep|intros [m|]; [|by apply hoare_ret]]. do 2 (apply hoare_step; [apply _|keep|intros ?]).
  apply hoare_step; [apply _|keep|intros [ip|]; [|apply hoare_last; [apply _|keep|done]]]. apply hoare_open_tail.
Qed.

(** The descriptor of the read end is given back when there is none for the
    write end. *)
Lemma hoare_pipe_bad e fd0 rf wf s r s' : (fd0 = -1 /\ rdy (fun g => e g + one (Some rf) g + one (Some wf) g) s) \/
    (0 <= fd0 /\ rdy (fun g => e g + one (Some wf) g) s /\ my_fd (Z.to_nat fd0) (Some rf) s) ->
  (when (0 <=? fd0) (Kern.mine (fun p => set_ofile (<[Z.to_nat fd0 := None]> (ofile p)) p));;
   Kern.on_f (File.fileclose kend rf);;
   Kern.on_f (File.fileclose kend wf);;
   mret (Kern.SysRet (-1))) s = Ok r s' -> rdy e s'.
Proof.
  intros Hs H. apply bind_ok in H as ([] & s1 & H1 & H). apply bind_ok in H as ([] & s2 & H2 & H). apply bind_ok in H as ([] & s3 & H3 & [= <- <-]).
  assert (rdy (fun g => e g + one (Some rf) g + one (Some wf) g) s1) as Hr1.
  { destruct Hs as [[-> Hr]|(Hle & Hr & Hfd)]; [by injection H1 as <-|]. rewrite (proj2 (Z.leb_le _ _) Hle) in H1.
    pose proof (proj1 (put_my_fd _ _ _ _ _ _ _ (conj Hr Hfd) H1)) as Hr1. rdy_ext Hr1. }
  pose proof (hoare_f _ _ _ (adds_fileclose rf) _ _ _ Hr1 H2) as Hr2. pose proof (hoare_f _ _ _ (adds_fileclose wf) _ _ _ Hr2 H3) as Hr3. rdy_ext Hr3.
Qed.

Lemma hoare_sys_pipe e : hoare (rdy e) (Kern.sys_pipe kend) (fun _ => rdy e).
Proof.
  unfold Kern.sys_pipe. apply hoare_step; [apply _|keep|intros [a|]; [|by apply hoare_ret]].
  eapply hoare_bind; [apply hoare_f, adds_pipealloc|]. intros [[rf wf]|]; [|apply hoare_ret; intros s Hr; rdy_ext Hr].
  intros s r s' Hr H. apply bind_ok in H as (fd0 & s1 & H1 & H). apply bind_ok in H as (fd1 & s2 & H2 & H).
  destruct (hoare_fdalloc _ _ _ _ _ Hr H1) as [(Hf0 & Hr1 & Hfd)|[-> Hr1]].
  - rewrite (proj2 (Z.ltb_ge _ _) Hf0) in H2. destruct (fd1 <? 0) eqn:E1.
    + assert (s2 = s1) as -> by (by eapply fdalloc_none, Z.ltb_lt). eapply hoare_pipe_bad, H. right. split; [done|]. split; [rdy_ext Hr1|done].
    + destruct (hoare_fdalloc _ _ _ _ _ Hr1 H2) as [(_ & Hr2 & _)|[-> _]]; [|done]. assert (rdy e s2) as Hr3 by rdy_ext Hr2. eapply rdy_keep, H; [keep|done].
  - cbn in H2. injection H2 as <- <-. cbn [Z.ltb Z.compare] in H. eapply hoare_pipe_bad, H. left. split; [done|]. rdy_ext Hr1.
Qed.

(** ** Processes come and go *)

(** The slot [i] is in use, its descriptors satisfy [Q], and it is the current
    process or not. *)
Definition slot_has (i : nat) (Q : list (option nat) -> Prop) (c : bool) (s : kern) : Prop :=
  exists p, Proc.procs (Kern.kp s) !! i = Some p /\ ~ dead (state p) /\ Q (ofile p) /\ (Proc.curproc (Kern.kp s) = Some i <-> c = true).

#[local] Instance slot_has_stable e i Q c : Stable (fun s => rdy e s /\ slot_has i Q c s).
Proof.
  split; [|by intros s [[_ ?] _]]. intros s s' Hs [Hr (p & Hp & Hd & HQ & Hc)]. split; [by eapply (stable (P := rdy e))|]. destruct (fs_table _ _ Hs) as [Ht Hcu].
  destruct (Forall2_lookup_l _ _ _ _ _ Ht Hp) as (p' & Hp' & E1 & E2). exists p'. by rewrite E1, E2, Hcu.
Qed.

(** No descriptor from [fd] on; none below. *)
Definition none_from (fd : nat) (l : list (option nat)) : Prop := forall k, (fd <= k < NOFILE)%nat -> l !! k = Some None.
Definition none_below (fd : nat) (l : list (option nat)) : Prop := forall k, (k < fd)%nat -> l !! k = Some None.

Lemma none_all l : length l = NOFILE -> none_below NOFILE l -> l = replicate NOFILE None.
Proof.
  intros Hl H. apply list_eq. intros k. destruct (decide (k < NOFILE)%nat) as [Hk|Hk]; [by rewrite H, lookup_replicate_2|].
  by rewrite !lookup_ge_None_2 by (rewrite ?length_replicate; lia).
Qed.

Lemma slot_files e s i Q c : rdy e s -> slot_has i Q c s -> exists p, Proc.procs (Kern.kp s) !! i = Some p /\ ~ dead (state p) /\ Q (ofile p) /\
  length (ofile p) = NOFILE /\ (Proc.curproc (Kern.kp s) = Some i <-> c = true).
Proof. intros Hr (p & Hp & Hd & HQ & Hc). destruct (rdy_pfiles _ _ _ _ Hr Hp) as [Hlen _]. by exists p. Qed.

(** The new process, in its slot. *)
Lemma hoare_alloc_slot e : hoare (rdy e) (Kern.on_p Proc.alloc_slot)
  (fun r s => rdy e s /\ match r with Some i => slot_has i (none_from 0) false s | None => True end).
Proof.
  intros s r s' Hr H. apply zoom_inv in H as (P & H & ->). apply alloc_slot_eff in H. destruct r as [i|].
  - destruct H as (p & Hp & Hu & HE). set (h := fun p => set_pid (Proc.nextpid (Kern.kp s)) (set_state EMBRYO p)) in *.
    destruct (rdy_pfiles _ _ _ _ Hr Hp) as [Hlen Hno]. specialize (Hno (or_introl Hu)).
    assert (~ dead (state (h p))) as Hd by (by intros [?|?]).
    destruct (rdy_set e e s (Kern.set_kp P s) i p h) as [H1 H2]; [split; [apply HE..|done]|done|done|by split|done|done|]. split; [done|]. exists (h p).
    split_and!; [done|done| |]; [cbn; rewrite Hno; intros k Hk; by rewrite lookup_replicate_2 by lia|]. split; [|done]. cbn. rewrite (ef_cur _ _ _ _ _ HE). intros Hi.
    destruct (proj2 Hr i Hi) as (q & Hq & Hqd). destruct Hqd. assert (q = p) as -> by congruence. by left.
  - split; [|done]. eapply (stable (P := rdy e)), Hr. split; [|done]. split; [|apply H]. cbn. rewrite (ef_procs _ _ _ _ _ H). apply (ts_procs (Kern.kp s) (Kern.kp s)), tsame_refl.
Qed.

(** A process that came to nothing gives its slot back. *)
Lemma hoare_unused e i : hoare (fun s => rdy e s /\ slot_has i (none_from 0) false s) (Kern.on_p (Proc.pupd i (set_state UNUSED))) (fun _ => rdy e).
Proof.
  intros s a s' [Hr Hs] H. destruct (slot_files _ _ _ _ _ Hr Hs) as (p & Hp & Hd & HQ & Hlen & Hc).
  destruct (rdy_set e e s s' i p (set_state UNUSED) (pupd_set _ _ _ _ _ H) Hr Hp) as [H1 _]; [|intros Hi; by apply Hc in Hi|done|done].
  split; [done|]. intros _. apply none_all; [done|]. intros k Hk. apply HQ. lia.
Qed.

Lemma hoare_allocproc e : hoare (rdy e) (Kern.allocproc trapret forkret_pc)
  (fun r s => rdy e s /\ match r with Some i => slot_has i (none_from 0) false s | None => True end).
Proof.
  eapply hoare_bind; [apply hoare_alloc_slot|]. intros [i|]; [|by apply hoare_ret].
  do 2 (apply hoare_step; [apply _|keep; done|intros ?]). case_match.
  - eapply hoare_bind; [apply hoare_unused|]. intros a'. by apply hoare_ret.
  - apply hoare_step; [apply _|keep; done|intros _]. cbv zeta. do 4 (apply hoare_step; [apply _|keep; done|intros _]). by apply hoare_ret.
Qed.

(** The child's descriptors, one by one. *)
Lemma fork_fd e i fd f : (fd < NOFILE)%nat -> hoare (fun s => rdy (fun g => e g + one (Some f) g) s /\ slot_has i (none_from fd) false s)
  (Kern.on_p (Proc.pupd i (fun p => set_ofile (<[fd := Some f]> (ofile p)) p)))
  (fun _ s => rdy e s /\ slot_has i (none_from (fd + 1)) false s).
Proof.
  intros Hfd s a s' [Hr Hs] H. destruct (slot_files _ _ _ _ _ Hr Hs) as (p & Hp & Hd & HQ & Hlen & Hc).
  set (h := fun p => set_ofile (<[fd := Some f]> (ofile p)) p) in H. pose proof (pupd_set _ _ _ _ _ H) as Hset.
  destruct (rdy_set _ e s s' i p h Hset Hr Hp) as [H1 H2]; [split; [by cbn; rewrite length_insert|done]|done| |].
  { intros g. cbn. rewrite (nrefs_insert g _ _ None) by (apply HQ; lia). rewrite one_none. lia. }
  split; [done|]. exists (h p). rewrite (st_cur _ _ _ _ Hset). split_and!; [done|done| |done].
  intros k Hk. cbn. rewrite list_lookup_insert_ne by lia. apply HQ. lia.
Qed.

Lemma filedup_ret f (s : fstate) r s' : File.filedup f s = Ok r s' -> r = (f : nat).
Proof.
  intros H. apply bind_ok in H as ([] & s1 & _ & H). apply bind_ok in H as (y & s2 & _ & H). destruct (_ <? _); [done|].
  apply bind_ok in H as ([] & s3 & _ & H). by apply bind_ok in H as ([] & s4 & _ & [= <- _]).
Qed.

Lemma hoare_fork_files e i fs : forall fd, (fd + length fs <= NOFILE)%nat -> hoare (fun s => rdy e s /\ slot_has i (none_from fd) false s)
  (Kern.fork_files fs i fd) (fun _ s => rdy e s /\ slot_has i (none_from (fd + length fs)) false s).
Proof.
  induction fs as [|o fs IH]; intros fd Hfd; cbn [Kern.fork_files length] in *; [apply hoare_ret; intros s; by rewrite Nat.add_0_r|].
  replace (fd + Datatypes.S (length fs))%nat with (fd + 1 + length fs)%nat by lia. apply (hoare_bind _ _ _ (fun _ s => rdy e s /\ slot_has i (none_from (fd + 1)) false s)); [|intros _; apply IH; lia]. destruct o as [f|].
  - intros s a s' [Hr Hs] H. apply bind_ok in H as (f' & s1 & H1 & H). assert (f' = f) as -> by (apply zoom_inv in H1 as (x & H1 & _); by eapply filedup_ret).
    pose proof (hoare_f _ _ _ (adds_filedup f) _ _ _ Hr H1) as Hr1. eapply fork_fd, H; [lia|]. split; [done|].
    apply zoom_inv in H1 as (x & _ & ->). exact Hs.
  - apply hoare_ret. intros s [Hr (p & Hp & Hd & HQ & Hc)]. split; [done|]. exists p. split_and!; [done|done| |done]. intros k Hk. apply HQ. lia.
Qed.

(** The child is ready to run. *)
Lemma hoare_runnable e i Q : hoare (fun s => rdy e s /\ slot_has i Q false s) (Kern.on_p (Proc.pupd i (set_state RUNNABLE))) (fun _ => rdy e).
Proof.
  intros s a s' [Hr Hs] H. destruct (slot_files _ _ _ _ _ Hr Hs) as (p & Hp & Hd & HQ & Hlen & Hc).
  assert (~ dead (state (set_state RUNNABLE p))) as Hn by (by intros [?|?]). eapply (rdy_set e e s s' i p (set_state RUNNABLE)); [by eapply pupd_set|done..].
Qed.

Lemma hoare_myproc {A} e R (f : proc -> M kern A) Q :
  (forall p, length (ofile p) = NOFILE -> hoare (fun s => rdy e s /\ R s) (f p) Q) -> hoare (fun s => rdy e s /\ R s) (Kern.myproc ≫= f) Q.
Proof.
  intros Hf s a s' [Hr HR] H. apply bind_ok in H as (p & s1 & Hm & H). destruct (myproc_slot s e p s1 Hr Hm) as (-> & _ & _ & _ & _ & Hlen). by eapply Hf.
Qed.

Lemma hoare_fork e : hoare (rdy e) (Kern.fork kend kdata trapret forkret_pc) (fun _ => rdy e).
Proof.
  eapply hoare_bind; [apply hoare_allocproc|]. intros [i|]; [|apply hoare_ret; tauto]. apply hoare_step; [apply _|keep|intros j].
  apply hoare_myproc. intros p Hlen. do 2 (apply hoare_step; [apply _|keep; done|intros ?]). case_match.
  - do 3 (apply hoare_step; [apply _|keep; done|intros ?]). eapply hoare_bind; [apply hoare_unused|]. intros ?. by apply hoare_ret.
  - do 5 (apply hoare_step; [apply _|keep; done|intros ?]). eapply hoare_bind; [apply hoare_fork_files; rewrite Hlen; lia|]. intros ?. cbv beta.
    do 4 (apply hoare_step; [apply _|keep; done|intros ?]). eapply hoare_bind; [apply hoare_runnable|]. intros ?. apply hoare_last; [apply _|keep|done].
Qed.

(** Descriptor [fd] of an exiting process is closed. *)
Definition close_fd (i fd : nat) (p : proc) : M kern unit :=
  match ofile p !! fd with
  | Some (Some f) =>
      Kern.on_f (File.fileclose kend f);;
      Kern.on_p (Proc.pupd i (fun p => set_ofile (<[fd := None]> (ofile p)) p))
  | _ => mret tt
  end.

Lemma pat_inv i (s : kern) p s' : Kern.on_p (Proc.pat i) s = Ok p s' -> p = Proc.procs (Kern.kp s) !!! i /\ s' = s.
Proof. intros H. apply zoom_inv in H as (x & [= <- <-] & ->). split; [done|by destruct s]. Qed.

Lemma close_one e i fd s s2 : (fd < NOFILE)%nat -> rdy e s -> slot_has i (none_below fd) true s ->
  close_fd i fd (Proc.procs (Kern.kp s) !!! i) s = Ok tt s2 -> rdy e s2 /\ slot_has i (none_below (fd + 1)) true s2.
Proof.
  intros Hfd Hr Hs H2. destruct (slot_files _ _ _ _ _ Hr Hs) as (q & Hq & Hd & HQ & Hlen & Hc).
  rewrite (list_lookup_total_correct _ _ _ Hq) in H2. unfold close_fd in H2.
  assert (forall l, none_below fd l -> l !! fd = Some None -> none_below (fd + 1) l) as Hnext.
  { intros l H1 H3 k Hk. destruct (decide (k = fd)) as [->|]; [done|]. apply H1. lia. }
  destruct (ofile q !! fd) as [[f|]|] eqn:Ef; [|injection H2 as <-|by apply lookup_ge_None in Ef; lia].
  - apply bind_ok in H2 as ([] & s1 & H1 & H2). pose proof (hoare_f _ _ _ (adds_fileclose f) _ _ _ Hr H1) as Hr1. apply zoom_inv in H1 as (x & _ & ->).
    set (h := fun p => set_ofile (<[fd := None]> (ofile p)) p) in H2. pose proof (pupd_set _ _ _ _ _ H2) as Hset.
    destruct (rdy_set _ e _ s2 i q h Hset Hr1 Hq) as [H3 H4]; [split; [by cbn; rewrite length_insert|done]|done| |].
    { intros g. cbn. rewrite (nrefs_insert g _ _ _ _ Ef), one_none. lia. }
    split; [done|]. exists (h q). rewrite (st_cur _ _ _ _ Hset). split_and!; [done|done| |done].
    apply Hnext; [|cbn; apply list_lookup_insert_eq; lia]. intros k Hk. cbn. rewrite list_lookup_insert_ne by lia. by apply HQ.
  - split; [done|]. exists q. split_and!; [done|done| |done]. by apply Hnext.
Qed.

(** The descriptors of an exiting process, one by one. *)
Lemma hoare_close_files e i n : forall fd, (fd + n = NOFILE)%nat -> hoare (fun s => rdy e s /\ slot_has i (none_below fd) true s)
  (Kern.close_files kend i fd n) (fun _ s => rdy e s /\ slot_has i (none_below NOFILE) true s).
Proof.
  induction n as [|n IH]; intros fd Hfd; cbn [Kern.close_files]; [apply hoare_ret; by replace NOFILE with fd by lia|].
  intros s a s' [Hr Hs] H. apply bind_ok in H as (p & s1 & Hp & H). apply bind_ok in H as ([] & s2 & H2 & H). revert H. apply IH; [lia|].
  apply pat_inv in Hp as [-> ->]. eapply close_one; [lia|done..].
Qed.

Lemma exit_table_inv P b P' : tlive P -> Proc.exit_table P = Ok b P' ->
  exists P1 i, tsame P P1 /\ Proc.curproc P = Some i /\ P' = Proc.set_procs (alter (set_state ZOMBIE) i (Proc.procs P1)) P1.
Proof.
  intros Hl H. unfold Proc.exit_table in H. apply bind_ok in H as ([] & P1 & H1 & H). pose proof (tkeep_ok _ _ _ _ tkeep_acquire Hl H1) as S1. pose proof (tlive_same _ _ S1 Hl) as L1.
  apply bind_ok in H as (i & P2 & H2 & H). apply cur_inv in H2 as [Hi ->]. apply bind_ok in H as (p & P3 & [= <- <-] & H).
  apply bind_ok in H as ([] & P4 & H4 & H). assert (tsame P1 P4) as S4 by (eapply tkeep_ok, H4; [tkeep|done]).
  pose proof (tlive_same _ _ S4 L1) as L4. apply bind_ok in H as (x & P5 & [= <- <-] & H). apply bind_ok in H as ([] & P6 & H6 & H).
  assert (tsame P4 P6) as S6 by (eapply tkeep_ok, H6; [tkeep|done]). apply bind_ok in H as ([] & P7 & [= <-] & H).
  apply sched_out_inv in H as [-> _]. exists P6, i. split_and!; [by repeat (eapply tsame_trans; [eassumption|])| |done]. by rewrite <- (ts_cur _ _ S1).
Qed.

Lemma hoare_exit_table e i : hoare (fun s => rdy e s /\ slot_has i (none_below NOFILE) true s) (Kern.on_p Proc.exit_table) (fun _ => inv e).
Proof.
  intros s b s' [Hr Hs] H. apply zoom_inv in H as (P' & H & ->). apply exit_table_inv in H as (P1 & j & HP & Hj & ->); [|apply Hr].
  assert (fsame s (Kern.set_kp P1 s)) as Hf by (by split). destruct (stable (P := fun s => rdy e s /\ slot_has i (none_below NOFILE) true s) _ _ Hf (conj Hr Hs)) as [Hr1 Hs1].
  destruct (slot_files _ _ _ _ _ Hr Hs) as (q & _ & _ & _ & _ & Hc). assert (j = i) as -> by (rewrite (proj2 Hc eq_refl) in Hj; congruence).
  destruct (slot_files _ _ _ _ _ Hr1 Hs1) as (p & Hp & Hd & HQ & Hlen & _). destruct Hr1 as [[H1 H2] _]. cbn in *. split; cbn.
  - intros f. rewrite (named_alter f _ _ _ _ Hp), H1. cbn. lia.
  - apply Forall_alter; [done|]. intros q' Hq' _. assert (q' = p) as -> by (cbn in Hq'; congruence). split; [done|]. intros _. by apply none_all.
Qed.

(** The exiting process. *)
Lemma hoare_me e : hoare (rdy e) Kern.me (fun i s => rdy e s /\ slot_has i (none_below 0) true s).
Proof.
  intros s i s' Hr Hi. split; [exact (rdy_keep e _ _ _ _ keep_me Hr Hi)|]. apply zoom_inv in Hi as (x & Hi & ->). apply cur_inv in Hi as [Hi ->].
  destruct (proj2 Hr i Hi) as (p & Hp & Hd). exists p. split_and!; [done|done|intros k ?; lia|done].
Qed.

Lemma hoare_exit e : hoare (rdy e) (Kern.exit kend) (fun _ => inv e).
Proof.
  unfold Kern.exit. eapply hoare_bind; [apply hoare_me|]. intros i. cbv beta. apply hoare_step; [apply _|keep|]. intros ini.
  case_match; [by apply hoare_none|]. eapply hoare_bind; [by apply hoare_close_files|]. intros ?. cbv beta.
  do 5 (apply hoare_step; [apply _|keep; done|intros ?]). apply hoare_exit_table.
Qed.

(** [wait] takes a dead child's slot. *)
#[local] Instance dead_stable e i : Stable (fun s => rdy e s /\ exists p, Proc.procs (Kern.kp s) !! i = Some p /\ dead (state p)).
Proof.
  split; [|by intros s [[_ ?] _]]. intros s s' Hs [Hr (p & Hp & Hd)]. split; [by eapply (stable (P := rdy e))|].
  destruct (Forall2_lookup_l _ _ _ _ _ (ts_procs _ _ (fs_table _ _ Hs)) Hp) as (p' & Hp' & _ & E2). exists p'. by rewrite E2.
Qed.

Lemma hoare_reap e i : hoare (fun s => rdy e s /\ exists p, Proc.procs (Kern.kp s) !! i = Some p /\ dead (state p)) (Kern.on_p (Proc.pupd i Proc.reap)) (fun _ => rdy e).
Proof.
  intros s a s' [Hr (p & Hp & Hd)] H. destruct (rdy_pfiles _ _ _ _ Hr Hp) as [Hlen Hno].
  destruct (rdy_set e e s s' i p Proc.reap (pupd_set _ _ _ _ _ H) Hr Hp) as [H1 _]; [split; [done|intros _; by apply Hno]| |done|done].
  intros Hi. destruct (proj2 Hr i Hi) as (q & Hq & Hqd). assert (q = p) as -> by congruence. done.
Qed.

Lemma hoare_wait e : hoare (rdy e) (Kern.wait kend) (fun _ => rdy e).
Proof.
  unfold Kern.wait. do 2 (apply hoare_step; [apply _|keep|intros ?]).
  intros s r s' Hr H. apply bind_ok in H as (ps & s1 & H1 & H). apply zoom_inv in H1 as (x & [= <- <-] & ->).
  replace (Kern.set_kp (Kern.kp s) s) with s in H by (by destruct s). apply bind_ok in H as (p & s1 & Hm & H). destruct (myproc_slot s e p s1 Hr Hm) as (-> & _).
  clear Hm. pose proof (wait_scan_spec a0 (Proc.procs (Kern.kp s)) 0 false) as Hsc. destruct (Proc.wait_scan _ _ _ _) as [i| |].
  - destruct Hsc as (z & _ & Hz & _ & Hzs). rewrite Nat.sub_0_r in Hz.
    assert (rdy e s /\ exists p, Proc.procs (Kern.kp s) !! i = Some p /\ dead (state p)) as Hpre by (split; [done|]; exists z; by split; [|right]).
    revert Hpre H. clear Hz Hzs Hr. revert s r s'. change (hoare (fun s => rdy e s /\ exists p, Proc.procs (Kern.kp s) !! i = Some p /\ dead (state p))
      (z ← Kern.on_p (Proc.pat i); Kern.on_m (Kalloc.kfree kend (kstack z));; Kern.on_p (Proc.pupd i (set_kstack 0));; Kern.on_m (Vm.freevm kend (pgdir z));;
       Kern.on_p (Proc.pupd i Proc.reap);; Kern.on_p Proc.release;; mret (Some (pid z))) (fun _ => rdy e)).
    do 4 (apply hoare_step; [apply _|keep; done|intros ?]). eapply hoare_bind; [apply hoare_reap|]. intros ?. apply hoare_last; [apply _|keep|done].
  - eapply rdy_keep, H; [keep|done].
  - eapply rdy_keep, H; [keep|done].
Qed.

(** ** System calls and traps *)

(** A system call keeps the counts; where it comes back its process lives. *)
Definition sys_keeps e (m : M kern Kern.sysres) : Prop := hoare (rdy e) m (fun r s => inv e s /\ (r <> Kern.SysSwitch -> live s)).

Lemma sys_keep e m : keep m -> sys_keeps e m.
Proof. intros Hm. apply hoare_last; [apply _|done|]. intros r s [H1 H2]. by split. Qed.

Lemma sys_rdy e m : hoare (rdy e) m (fun _ => rdy e) -> sys_keeps e m.
Proof. intros Hm s r s' Hr H. destruct (Hm _ _ _ Hr H). by split. Qed.

Lemma hoare_sys_exit e : sys_keeps e (Kern.sys_exit kend).
Proof. eapply hoare_bind; [apply hoare_exit|]. intros ?. by apply hoare_ret. Qed.

Lemma hoare_sys_fork e : sys_keeps e (Kern.sys_fork kend kdata trapret forkret_pc).
Proof. apply sys_rdy. eapply hoare_bind; [apply hoare_fork|]. intros ?. by apply hoare_ret. Qed.

Lemma hoare_sys_wait e : sys_keeps e (Kern.sys_wait kend).
Proof. apply sys_rdy. eapply hoare_bind; [apply hoare_wait|]. intros ?. apply hoare_last; [apply _|keep|done]. Qed.

Lemma all_syscalls e junk : Forall (fun o => match o with Some m => sys_keeps e m | None => True end) (Kern.syscalls kend kdata trapret forkret_pc dsw junk).
Proof.
  unfold Kern.syscalls. repeat apply Forall_cons_2; try (apply sys_keep; solve [auto with keep]); auto using hoare_sys_fork, hoare_sys_exit, hoare_sys_wait, sys_rdy, hoare_sys_pipe, hoare_sys_dup, hoare_sys_open, hoare_sys_close.
Qed.

Lemma hoare_syscall e junk : hoare (rdy e) (Kern.syscall kend kdata trapret forkret_pc dsw junk) (fun r s => inv e s /\ (r = true -> live s)).
Proof.
  unfold Kern.syscall. apply hoare_step; [apply _|keep|intros eax]. cbv zeta. set (l := Kern.syscalls _ _ _ _ _ _).
  pose proof (all_syscalls e junk) as Hall. fold l in Hall. destruct (if _ : bool then _ else _) as [m|] eqn:E; [|apply hoare_last; [apply _|keep|intros [] s [H1 H2]; by split]].
  assert (sys_keeps e m) as Hm.
  { destruct (_ && _); [|done]. rewrite nth_lookup in E. destruct (l !! _) as [o|] eqn:El; [|done]. cbn in E. subst o.
    exact (proj1 (Forall_lookup _ _) Hall _ _ El). }
  intros s r s' Hr H. apply bind_ok in H as (x & s1 & H1 & H). destruct (Hm _ _ _ Hr H1) as [HI HL]. destruct x as [v|]; [|by injection H as <- <-].
  apply bind_ok in H as ([] & s2 & H2 & [= <- <-]). destruct (rdy_keep e _ _ _ _ (keep_set_tf_word _ _) (conj HI (HL ltac:(done))) H2). by split.
Qed.

Lemma hoare_trap_exit e (r : Kern.trapres) : r <> Kern.TrapRet -> hoare (rdy e) (Kern.exit kend;; mret r) (fun r s => inv e s /\ (r = Kern.TrapRet -> live s)).
Proof. intros Hr. eapply hoare_bind; [apply hoare_exit|]. intros ?. by apply hoare_ret. Qed.

Lemma hoare_pre {A} (P P' : kern -> Prop) (m : M kern A) Q : (forall s, P s -> P' s) -> hoare P' m Q -> hoare P m Q.
Proof. intros HP Hm s a s' Hs H. eapply Hm, H. by apply HP. Qed.

Lemma hoare_trap e h junk c tfp n cs : keep (Kern.ideintr h) -> keep (Kern.kbdintr h) -> keep (Kern.uartintr h) ->
  hoare (rdy e) (Kern.trap kend kdata trapret forkret_pc dsw h junk c tfp n cs) (fun r s => inv e s /\ (r = Kern.TrapRet -> live s)).
Proof.
  intros H1 H2 H3. unfold Kern.trap. case_match.
  - apply hoare_step; [apply _|keep|intros p]. case_match; [by apply hoare_trap_exit|]. apply hoare_step; [apply _|keep; done|intros _].
    eapply hoare_bind; [apply hoare_syscall|]. intros [|]; cbn [negb]; [|apply hoare_ret; by intros s [? _]].
    apply (hoare_pre _ (rdy e)); [intros s [HI HL]; by split; [|apply HL]|]. apply hoare_step; [apply _|keep|intros q].
    case_match; [by apply hoare_trap_exit|]. apply hoare_ret. by intros s [? ?].
  - apply hoare_step; [apply _|by apply keep_trap_switch|intros _]. apply hoare_step; [apply _|apply keep_must_exit|intros x].
    case_match; [by apply hoare_trap_exit|]. do 2 (apply hoare_step; [apply _|keep|intros ?]). case_match.
    + apply hoare_last; [apply _|keep|]. by intros r s [? ?].
    + unfold Kern.trap_tail. apply hoare_step; [apply _|apply keep_must_exit|intros y]. case_match; [by apply hoare_trap_exit|]. apply hoare_ret. by intros s [? ?].
Qed.

(** The first process, and the entry of a new one. *)
Lemma hoare_userinit e ic n : hoare (rdy e) (Kern.userinit kdata trapret forkret_pc dsw ic n) (fun _ => rdy e).
Proof.
  eapply hoare_bind; [apply hoare_allocproc|]. intros [i|]; [|intros s a s' _ H; by apply bind_ok in H as ([] & s1 & _ & H)].
  apply hoare_step; [apply _|apply keep_p, tkeep_awake; [awake|]; intros P [] P' _ [= <-]; by apply tsame_set|intros _]. do 2 (apply hoare_step; [apply _|keep; done|intros ?]).
  case_match; [by apply hoare_none|]. do 8 (apply hoare_step; [apply _|keep; done|intros ?]). apply hoare_runnable.
Qed.
(** ** Calls that wait *)

(** Where a call waits in the file system, the log or a pipe, the counts are
    those of the descriptors and [e], and either [o], a reference of the call
    that no descriptor has yet or any more, or, while [exit] closes the
    descriptors of the current process, without the reference of the
    descriptor that it will clear next. *)
Definition asleep (e : nat -> Z) (s : kern) : Prop :=
  live s /\ ((exists o, inv (fun g => e g + one o g) s) \/
             (exists fd f, my_fd fd (Some f) s /\ inv (fun g => e g - one (Some f) g) s)).

Lemma rdy_asleep e s : rdy e s -> asleep e s.
Proof. intros [HI HL]. split; [done|]. left. exists None. eapply inv_ext; [|exact HI]. intros f. rewrite one_none. lia. Qed.

(** Code that, where it waits, leaves the counts so. *)
Definition naps {A} e (P : kern -> Prop) (m : M kern A) : Prop := forall s c s', P s -> m s = Sleep c s' -> asleep e s'.

Class Ready (e : nat -> Z) (P : kern -> Prop) : Prop := ready : forall s, P s -> rdy e s.
#[local] Instance ready_rdy e : Ready e (rdy e).
Proof. by intros s. Qed.
#[local] Instance ready_and e (R : kern -> Prop) : Ready e (fun s => rdy e s /\ R s).
Proof. by intros s [? _]. Qed.

Lemma naps_awake {A} e P (m : M kern A) : awake m -> naps e P m.
Proof. intros Hm s c s' _ H. by apply Hm in H. Qed.

Lemma naps_pre {A} e (P P' : kern -> Prop) (m : M kern A) : (forall s, P s -> P' s) -> naps e P' m -> naps e P m.
Proof. intros HP Hm s c s' Hs H. eapply Hm, H. by apply HP. Qed.

Lemma naps_bind {A B} e P (m : M kern A) (f : A -> M kern B) Q : naps e P m -> hoare P m Q -> (forall a, naps e (Q a) (f a)) -> naps e P (m ≫= f).
Proof. intros Hm HQ Hf s c s' HP H. apply bind_sleep in H as [H|(a & s1 & H1 & H2)]; [by eapply Hm|]. by eapply Hf; [eapply HQ|]. Qed.

Lemma naps_keep {A} e P (m : M kern A) : Stable P -> Ready e P -> keep m -> naps e P m.
Proof. intros HS HR Hm s c s' HP H. apply rdy_asleep, HR. eapply (stable (P := P)), HP. apply Hm; [by eapply stable_live|by rewrite H]. Qed.

Lemma naps_step {A B} e P (m : M kern A) (f : A -> M kern B) : Stable P -> Ready e P -> keep m -> (forall a, naps e P (f a)) -> naps e P (m ≫= f).
Proof. intros HS HR Hm Hf. eapply naps_bind; [by apply naps_keep|by apply hoare_keep|done]. Qed.

Lemma naps_tail {A B} e P (m : M kern A) (f : A -> M kern B) : naps e P m -> (forall a, awake (f a)) -> naps e P (m ≫= f).
Proof. intros Hm Hf s c s' HP H. apply bind_sleep in H as [H|(a & s1 & _ & H)]; [by eapply Hm|by apply Hf in H]. Qed.

(** *** Files *)

Lemma awake_kalloc : awake Kalloc.kalloc.
Proof. unfold Kalloc.kalloc. awake. Qed.
Lemma awake_kfree v : awake (Kalloc.kfree kend v).
Proof. unfold Kalloc.kfree. awake. Qed.
Lemma awake_filealloc : awake (File.filealloc : M fstate _).
Proof. unfold File.filealloc, File.acquire, File.release, File.fupd. awake. Qed.
Lemma awake_filedup f : awake (File.filedup f : M fstate _).
Proof. unfold File.filedup, File.acquire, File.release, File.fupd, File.fat. awake. Qed.
Lemma awake_on_p {A} (m : M Proc.ptable A) : awake m -> awake (Kern.on_p m : M kern A).
Proof. apply awake_zoom. Qed.
Lemma awake_on_f {A} (m : M fstate A) : awake m -> awake (Kern.on_f m).
Proof. apply awake_zoom. Qed.
#[local] Hint Resolve awake_kalloc awake_kfree awake_filealloc awake_filedup awake_on_p awake_on_f : awake.
Lemma awake_mine f : awake (Kern.mine f : M kern unit).
Proof. unfold Kern.mine, Kern.me. awake. Qed.
#[local] Hint Resolve awake_mine : awake.
Lemma awake_fdalloc f : awake (Kern.fdalloc f : M kern Z).
Proof. unfold Kern.fdalloc, Kern.myproc, Kern.me. awake. Qed.
#[local] Hint Resolve awake_fdalloc : awake.

(** File table code that waits with [d], and a reference more, added to the
    counts. *)
Definition nods {A} (m : M fstate A) (d : nat -> Z) : Prop :=
  forall s c s', m s = Sleep c s' -> exists o, forall g, f_ref (File.ftab s' g) = f_ref (File.ftab s g) + d g + one o g.

Lemma naps_f {A} e e' (m : M fstate A) d : nods m d -> (forall g, e g = e' g + d g) -> naps e (rdy e') (Kern.on_f m).
Proof.
  intros Hm He s c s' [[H1 H2] Hl] H. apply zoom_sleep in H as (x & H & ->). destruct (Hm _ _ _ H) as [o Ho]. split; [done|]. left. exists o.
  split; [|done]. intros g. cbn. rewrite Ho, H1, He. lia.
Qed.

Lemma nods_fileclose f : nods (File.fileclose kend f : M fstate _) (fun g => - one (Some f) g).
Proof. intros s c s' H. exists None. intros g. rewrite (stops_fileclose f s s'), one_none by (by rewrite H). lia. Qed.

Lemma nods_close_opt o : nods (match o with Some i => File.fileclose kend i | None => mret tt end) (fun g => - one o g).
Proof. destruct o; [apply nods_fileclose|done]. Qed.

Lemma pipealloc_bad_waits f0 f1 s c s' : File.pipealloc_bad kend 0 f0 f1 s = Sleep c s' ->
  exists o, forall g, f_ref (File.ftab s' g) = f_ref (File.ftab s g) - one f0 g - one f1 g + one o g.
Proof.
  unfold File.pipealloc_bad. intros H. apply bind_sleep in H as [H|([] & s1 & [= <-] & H)]; [done|].
  apply bind_sleep in H as [H|([] & s2 & H2 & H)].
  - assert (stops (match f0 with Some i => File.fileclose kend i | None => mret tt end s) s') as Hs by (by rewrite H).
    destruct f0 as [i|]; [|done]. exists f1. intros g. rewrite (stops_fileclose i s s' Hs). lia.
  - apply bind_sleep in H as [H|([] & s3 & _ & H)]; [|done]. destruct (nods_close_opt f1 _ _ _ H) as [o Ho]. exists o. intros g.
    rewrite Ho, (adds_close_opt _ _ _ _ H2). lia.
Qed.

Lemma nods_pipealloc : nods (File.pipealloc kend : M fstate _) (fun _ => 0).
Proof.
  intros s c s' H. unfold File.pipealloc in H. apply bind_sleep in H as [H|(f0 & s1 & H1 & H)]; [by apply awake_filealloc in H|].
  pose proof (adds_filealloc _ _ _ H1) as E1. clear H1. destruct f0 as [i0|].
  2: { apply pipealloc_bad_waits in H as [o Ho]. exists o. intros g. rewrite Ho, E1, !one_none. lia. }
  apply bind_sleep in H as [H|(f1 & s2 & H2 & H)]; [by apply awake_filealloc in H|]. pose proof (adds_filealloc _ _ _ H2) as E2. clear H2. destruct f1 as [i1|].
  2: { apply pipealloc_bad_waits in H as [o Ho]. exists o. intros g. rewrite Ho, E2, E1, !one_none. lia. }
  apply bind_sleep in H as [H|(p & s3 & H3 & H)]; [by apply awake_zoom in H; [|apply awake_kalloc]|].
  assert (forall g, f_ref (File.ftab s3 g) = f_ref (File.ftab s2 g)) as E3 by (eapply fkeep_ok, H3; by apply fkeep_zoom).
  destruct (p =? 0).
  - apply pipealloc_bad_waits in H as [o Ho]. exists o. intros g. rewrite Ho, E3, E2, E1. lia.
  - revert H. match goal with |- ?m s3 = _ -> _ => assert (awake m) as Hw by (unfold File.fupd; awake) end. intros H. by apply Hw in H.
Qed.

(** *** System calls *)

Lemma naps_close e e' f : (forall g, e g = e' g - one (Some f) g) -> naps e (rdy e') (Kern.on_f (File.fileclose kend f)).
Proof. intros He. eapply naps_f; [apply nods_fileclose|]. intros g. rewrite He. lia. Qed.

Lemma naps_sys_dup e : naps e (rdy e) Kern.sys_dup.
Proof. apply naps_step; [apply _..|keep|]. intros [[fd f]|]; apply naps_awake; awake. Qed.

Lemma naps_sys_close e : naps e (rdy e) (Kern.sys_close kend).
Proof.
  eapply naps_bind; [apply naps_keep; [apply _..|keep]|apply hoare_argfd|]. intros [[fd f]|]; [|by apply naps_awake; awake].
  eapply naps_bind; [by apply naps_awake; awake|apply put_my_fd|]. intros ?. cbv beta. apply naps_tail; [|intros _; awake].
  eapply naps_pre, (naps_close e (fun g => e g + one (Some f) g - one None g)); [by intros s [? _]|]. intros g. rewrite one_none. lia.
Qed.

Lemma naps_open_tail e ip omode : naps e (rdy e)
  (f ← Kern.on_f File.filealloc;
   fd ← (match f with Some f => Kern.fdalloc f | None => mret (-1) end);
   if fd <? 0 then
     match f with Some f => Kern.on_f (File.fileclose kend f) | None => mret tt end;;
     Kern.iunlockput ip;;
     Kern.end_op;;
     mret (Kern.SysRet (-1))
   else
     Kern.iunlock ip;;
     Kern.end_op;;
     match f with Some f => Kern.on_f (File.fupd f (Kern.open_file ip omode)) | None => mret tt end;;
     mret (Kern.SysRet fd)).
Proof.
  eapply naps_bind; [by apply naps_awake; awake|apply hoare_f, adds_filealloc|]. intros [f|]; [|cbn [Z.ltb Z.compare]].
  - eapply naps_bind; [by apply naps_awake; awake|apply hoare_fdalloc|]. intros fd. destruct (Z.ltb_spec fd 0).
    + eapply (naps_pre _ _ (rdy (fun g => e g + one (Some f) g))); [intros s [(? & _)|[-> Hr]]; [lia|done]|].
      eapply naps_bind; [apply naps_close; intros g; lia|apply hoare_f, adds_fileclose|]. intros ?. cbv beta.
      eapply (naps_pre _ _ (rdy e)); [intros s Hr; rdy_ext Hr|]. apply naps_keep; [apply _..|keep].
    + eapply (naps_pre _ _ (rdy e)); [intros s [(_ & Hr & _)|[-> _]]; [rdy_ext Hr|lia]|]. apply naps_keep; [apply _..|]. keep. by apply keep_f, fkeep_fupd.
  - eapply (naps_pre _ _ (rdy e)); [intros s Hr; rdy_ext Hr|]. apply naps_keep; [apply _..|keep].
Qed.

Lemma naps_sys_open e : naps e (rdy e) (Kern.sys_open kend dsw).
Proof.
  unfold Kern.sys_open. do 2 (apply naps_step; [apply _..|keep|intros [?|]; [|by apply naps_awake; awake]]).
  do 2 (apply naps_step; [apply _..|keep|intros ?]). apply naps_step; [apply _..|keep|intros [ip|]; [|apply naps_keep; [apply _..|keep]]]. apply naps_open_tail.
Qed.

(** The references of both ends of a pipe are given back. *)
Lemma naps_pipe_close e rf wf : naps e (rdy (fun g => e g + one (Some rf) g + one (Some wf) g))
  (Kern.on_f (File.fileclose kend rf);; Kern.on_f (File.fileclose kend wf);; mret (Kern.SysRet (-1))).
Proof.
  eapply naps_bind; [|apply hoare_f, adds_fileclose|].
  - intros s c s' [[H1 H2] Hl] H. apply zoom_sleep in H as (x & H & ->). split; [done|]. left. exists (Some wf). split; [|done]. intros g. cbn.
    rewrite (stops_fileclose rf _ x), H1 by (by rewrite H). lia.
  - intros ?. cbv beta. apply naps_tail; [|intros _; awake]. apply naps_close. intros g. lia.
Qed.

Lemma naps_sys_pipe e : naps e (rdy e) (Kern.sys_pipe kend).
Proof.
  unfold Kern.sys_pipe. apply naps_step; [apply _..|keep|intros [a|]; [|by apply naps_awake; awake]].
  eapply naps_bind; [eapply naps_f; [apply nods_pipealloc|intros g; cbn; lia]|apply hoare_f, adds_pipealloc|]. intros [[rf wf]|]; [|by apply naps_awake; awake].
  intros s c s' Hr H. apply bind_sleep in H as [H|(fd0 & s1 & H1 & H)]; [by apply awake_fdalloc in H|].
  apply bind_sleep in H as [H|(fd1 & s2 & H2 & H)]; [by destruct (fd0 <? 0); [|apply awake_fdalloc in H]|].
  destruct (fd1 <? 0) eqn:E1.
  - apply bind_sleep in H as [H|([] & s3 & H3 & H)]; [unfold when in H; destruct (0 <=? fd0); [by apply awake_mine in H|done]|].
    eapply naps_pipe_close, H. destruct (hoare_fdalloc _ _ _ _ _ Hr H1) as [(Hf0 & Hr1 & Hfd)|[-> Hr1]].
    + rewrite (proj2 (Z.ltb_ge _ _) Hf0) in H2. assert (s2 = s1) as -> by (by eapply fdalloc_none, Z.ltb_lt). rewrite (proj2 (Z.leb_le _ _) Hf0) in H3.
      pose proof (proj1 (put_my_fd _ _ _ _ _ _ _ (conj Hr1 Hfd) H3)) as Hr2. rdy_ext Hr2.
    + cbn in H2, H3. injection H2 as <- <-. injection H3 as <-. rdy_ext Hr1.
  - destruct (hoare_fdalloc _ _ _ _ _ Hr H1) as [(Hf0 & Hr1 & Hfd)|[-> Hr1]]; [|cbn in H2; by injection H2 as <- <-].
    rewrite (proj2 (Z.ltb_ge _ _) Hf0) in H2. destruct (hoare_fdalloc _ _ _ _ _ Hr1 H2) as [(_ & Hr2 & _)|[-> _]]; [|done].
    eapply (naps_keep e (rdy e)), H; [apply _..|keep|]. rdy_ext Hr2.
Qed.

(** *** Processes *)

Lemma naps_allocproc e : naps e (rdy e) (Kern.allocproc trapret forkret_pc).
Proof.
  eapply naps_bind; [by apply naps_awake; awake|apply hoare_alloc_slot|]. intros [i|]; [|by apply naps_awake; awake].
  do 2 (apply naps_step; [apply _..|keep; done|intros ?]). case_match; [by apply naps_awake; awake|].
  apply naps_keep; [apply _..|keep; done].
Qed.

Lemma awake_fork_files i fs : forall fd, awake (Kern.fork_files fs i fd : M kern unit).
Proof. induction fs as [|o fs IH]; intros fd; cbn [Kern.fork_files]; awake; apply IH. Qed.

Lemma naps_myproc {A} e (R : kern -> Prop) (f : proc -> M kern A) : Stable (fun s => rdy e s /\ R s) ->
  (forall p, length (ofile p) = NOFILE -> naps e (fun s => rdy e s /\ R s) (f p)) -> naps e (fun s => rdy e s /\ R s) (Kern.myproc ≫= f).
Proof.
  intros HS Hf s c s' HP H. apply bind_sleep in H as [H|(p & s1 & Hm & H)]; [eapply naps_keep, H; [apply HS|apply _|keep|done]|].
  destruct (myproc_slot s e p s1 (proj1 HP) Hm) as (-> & _ & _ & _ & _ & Hlen). by eapply Hf.
Qed.

Lemma naps_fork e : naps e (rdy e) (Kern.fork kend kdata trapret forkret_pc).
Proof.
  eapply naps_bind; [apply naps_allocproc|apply hoare_allocproc|]. intros [i|]; [|by apply naps_awake; awake]. apply naps_step; [apply _..|keep|intros j].
  apply naps_myproc; [apply _|]. intros p Hlen. do 2 (apply naps_step; [apply _..|keep; done|intros ?]). case_match.
  - do 3 (apply naps_step; [apply _..|keep; done|intros ?]). apply naps_awake; awake.
  - do 5 (apply naps_step; [apply _..|keep; done|intros ?]).
    eapply naps_bind; [apply naps_awake, awake_fork_files|apply hoare_fork_files; rewrite Hlen; lia|]. intros ?. cbv beta.
    do 4 (apply naps_step; [apply _..|keep; done|intros ?]). apply naps_awake; awake.
Qed.

Lemma naps_close_files e i n : forall fd, (fd + n = NOFILE)%nat -> naps e (fun s => rdy e s /\ slot_has i (none_below fd) true s) (Kern.close_files kend i fd n).
Proof.
  induction n as [|n IH]; intros fd Hfd; cbn [Kern.close_files]; [by apply naps_awake; awake|].
  intros s c s' [Hr Hs] H. apply bind_sleep in H as [H|(p & s1 & Hp & H)]; [by apply awake_on_p in H; [|awake]|]. apply pat_inv in Hp as [-> ->].
  apply bind_sleep in H as [H|([] & s2 & H2 & H)]; [|eapply IH, H; [lia|]; eapply close_one; [lia|done..]].
  destruct (slot_files _ _ _ _ _ Hr Hs) as (q & Hq & Hd & HQ & Hlen & Hc). rewrite (list_lookup_total_correct _ _ _ Hq) in H.
  destruct (ofile q !! fd) as [[f|]|] eqn:Ef; [|done..]. apply bind_sleep in H as [H|([] & s1 & _ & H)]; [|by apply awake_on_p in H; [|awake]].
  apply zoom_sleep in H as (x & H & ->). destruct Hr as [[H1 H2] Hl]. split; [done|]. right. exists fd, f. split.
  - exists i. split; [by apply Hc|]. by exists q.
  - split; [|done]. intros g. cbn. rewrite (stops_fileclose f _ x), H1 by (by rewrite H). lia.
Qed.

Lemma naps_exit e : naps e (rdy e) (Kern.exit kend).
Proof.
  unfold Kern.exit. eapply naps_bind; [apply naps_keep; [apply _..|keep]|apply hoare_me|].
  intros i. cbv beta. apply naps_step; [apply _..|keep|]. intros ini. case_match; [by apply naps_awake; awake|].
  eapply naps_bind; [by apply naps_close_files|by apply hoare_close_files|]. intros ?. cbv beta.
  do 5 (apply naps_step; [apply _..|keep; done|intros ?]). apply naps_awake; awake.
Qed.

Lemma naps_wait e : naps e (rdy e) (Kern.wait kend).
Proof.
  unfold Kern.wait. do 4 (apply naps_step; [apply _..|keep|intros ?]). case_match; [|apply naps_keep; [apply _..|keep]..].
  do 4 (apply naps_step; [apply _..|keep; done|intros ?]). apply naps_awake; awake.
Qed.

(** *** Traps *)

Lemma all_syscalls_nap e junk : Forall (fun o => match o with Some m => naps e (rdy e) m | None => True end) (Kern.syscalls kend kdata trapret forkret_pc dsw junk).
Proof.
  unfold Kern.syscalls. repeat apply Forall_cons_2; try (apply naps_keep; [apply _..|solve [auto with keep]]);
    auto using naps_sys_pipe, naps_sys_dup, naps_sys_open, naps_sys_close; (apply naps_tail; [auto using naps_fork, naps_exit, naps_wait|intros ?; awake]).
Qed.

Lemma naps_syscall e junk : naps e (rdy e) (Kern.syscall kend kdata trapret forkret_pc dsw junk).
Proof.
  unfold Kern.syscall. apply naps_step; [apply _..|keep|intros eax]. cbv zeta. set (l := Kern.syscalls _ _ _ _ _ _).
  pose proof (all_syscalls e junk) as Hall. pose proof (all_syscalls_nap e junk) as Hnap. fold l in Hall, Hnap.
  destruct (if _ : bool then _ else _) as [m|] eqn:E; [|apply naps_keep; [apply _..|keep]].
  assert (sys_keeps e m /\ naps e (rdy e) m) as [Hm Hn].
  { destruct (_ && _); [|done]. rewrite nth_lookup in E. destruct (l !! _) as [o|] eqn:El; [|done]. cbn in E. subst o.
    exact (conj (proj1 (Forall_lookup _ _) Hall _ _ El) (proj1 (Forall_lookup _ _) Hnap _ _ El)). }
  eapply naps_bind; [exact Hn|exact Hm|]. intros [v|]; [|by apply naps_awake; awake]. eapply (naps_pre _ _ (rdy e)); [|apply naps_keep; [apply _..|keep]].
  intros s [HI HL]. split; [done|by apply HL].
Qed.

Lemma naps_trap_exit e (r : Kern.trapres) : naps e (rdy e) (Kern.exit kend;; mret r).
Proof. apply naps_tail; [apply naps_exit|intros _; awake]. Qed.

Lemma naps_trap e h junk c tfp n cs : keep (Kern.ideintr h) -> keep (Kern.kbdintr h) -> keep (Kern.uartintr h) ->
  naps e (rdy e) (Kern.trap kend kdata trapret forkret_pc dsw h junk c tfp n cs).
Proof.
  intros H1 H2 H3. unfold Kern.trap. case_match.
  - apply naps_step; [apply _..|keep|intros p]. case_match; [apply naps_trap_exit|]. apply naps_step; [apply _..|keep; done|intros _].
    eapply naps_bind; [apply naps_syscall|apply hoare_syscall|]. intros [|]; cbn [negb]; [|by apply naps_awake; awake].
    apply (naps_pre _ _ (rdy e)); [intros s [HI HL]; by split; [|apply HL]|]. apply naps_step; [apply _..|keep|intros q].
    case_match; [apply naps_trap_exit|by apply naps_awake; awake].
  - apply naps_step; [apply _..|by apply keep_trap_switch|intros _]. apply naps_step; [apply _..|apply keep_must_exit|intros x].
    case_match; [apply naps_trap_exit|]. do 2 (apply naps_step; [apply _..|keep|intros ?]). case_match; [apply naps_keep; [apply _..|keep]|].
    unfold Kern.trap_tail. apply naps_step; [apply _..|apply keep_must_exit|intros y]. case_match; [apply naps_trap_exit|by apply naps_awake; awake].
Qed.

Lemma naps_userinit e ic n : naps e (rdy e) (Kern.userinit kdata trapret forkret_pc dsw ic n).
Proof.
  eapply naps_bind; [apply naps_allocproc|apply hoare_allocproc|]. intros [i|]; [|by apply naps_awake; awake].
  apply naps_step; [apply _..|apply keep_p, tkeep_awake; [awake|]; intros P [] P' _ [= <-]; by apply tsame_set|intros _].
  do 2 (apply naps_step; [apply _..|keep; done|intros ?]). case_match; [by apply naps_awake; awake|].
  do 8 (apply naps_step; [apply _..|keep; done|intros ?]). apply naps_awake; awake.
Qed.
End refs.

Lemma ok_post {S A} (o : outcome S A) (Q : A -> S -> Prop) : match o with Ok a s => Q a s | _ => False end -> exists a s, o = Ok a s /\ Q a s.
Proof. destruct o; [eauto|done..]. Qed.

(** A process with file 0 open as descriptor 0 calls [dup(0)]: its stack is the
    page at user address 0. *)
Module RefsEx.
Definition mm : mem :=
  wr32 (wr32 (wr32 (wr32 (wr32 ∅ 0x80200000 0x201007) 0x80201000 0x202007) 0x80202014 0) (0x80110fb4 + 28) 10) (0x80110fb4 + 68) 16.
Definition me : proc := MkProc PGSIZE 0x80200000 0x80110000 RUNNING 1 None 0x80110fb4 0 None false (Some 0%nat :: replicate 15 None) (Some 0%nat) (replicate 16 0).
Definition st : Kern.kern (S := BlockSpec.st) :=
  Kern.MkKern (Proc.MkPt [me; proc0] false 2 (Some 0%nat) (Cli.MkCpu 0 true true) (Some 0%nat))
    (File.MkFstate (fun f => if decide (f = 0%nat) then File.set_ref 1 file0 else file0) false ∅ FsEx.s (Kalloc.MkKst true false 0 mm)) 0 false true.
Definition hs : Kern.handlers (S := BlockSpec.st) := Kern.MkHandlers (Kern.on_p (Proc.wakeup ChTicks)) (mret tt) (mret tt).
Definition run := Kern.trap 0x80108000 0x80106000 0 0 FsEx.nodev hs [] 0 0x80110fb4 64 0x1b st.

Lemma st_inv : inv (fun _ => 0) st.
Proof.
  split.
  - intros f. cbn. unfold named. cbn. rewrite !nrefs_cons. rewrite !(decide_False (P := None = Some f)) by done. repeat case_decide; simplify_eq; done.
  - repeat apply Forall_cons_2; [..|done]; split; try done. by intros [?|?].
Qed.

Lemma st_live : live st.
Proof. intros i [= <-]. exists me. split; [done|]. by intros [?|?]. Qed.
End RefsEx.
