(* ===== verification/Ulib.v ===== *)
(** * ulib.c: the C library of user programs

    String routines in the style of Cstring.v: a [char*] is the bytes from that
    address to the end of its object, and [None] is an access outside it. *)

From S2P Require Import Prelude Memory Cstring.

(** The characters the user programs name. *)
Abbreviation NL := 10.
Abbreviation CR := 13.

Module Ulib.

(** [strcpy(s, t)]: the new contents of the object at [s]. *)
Fixpoint strcpy (s t : bytes) : option bytes :=
  match s, t with
  | _ :: s', c :: t' => if truthy c then cons c <$> strcpy s' t' else Some (c :: s')
  | _, _ => None
  end.

Fixpoint strcmp (p q : bytes) : option Z :=
  match p, q with
  | a :: p', b :: q' => if truthy a && (a =? b) then strcmp p' q' else Some (u8 a - u8 b)
  | _, _ => None
  end.

Fixpoint strlen_loop (s : bytes) (n : Z) : option Z :=
  match s with
  | [] => None
  | c :: s' => if truthy c then strlen_loop s' (s32 (n + 1)) else Some n
  end.
Definition strlen (s : bytes) : option Z := u32 <$> strlen_loop s 0.

Definition memset (m : mem) (dst c n : Z) : mem := Mem.stosb m dst c (Z.to_nat n).

(** [strchr(s, c)]: the distance from [s] to the result, or a null pointer. *)
Fixpoint strchr_loop (s : bytes) (c : Z) (i : nat) : option (option nat) :=
  match s with
  | [] => None
  | x :: s' => if truthy x then (if x =? c then Some (Some i) else strchr_loop s' c (S i)) else Some None
  end.
Definition strchr (s : bytes) (c : Z) : option (option nat) := strchr_loop s c 0.

(** [gets(buf, max)] from a standard input that gives a byte at a time; the
    bytes it stores before the NUL, and the rest of the input. *)
Fixpoint gets_loop (room : nat) (input acc : bytes) : bytes * bytes :=
  match room with
  | O => (acc, input)
  | S k =>
      match input with
      | [] => (acc, [])
      | c :: rest =>
          let acc := acc ++ [c] in
          if (c =? NL) || (c =? CR) then (acc, rest) else gets_loop k rest acc
      end
  end.
Definition gets (max : Z) (input : bytes) : bytes * bytes := gets_loop (Z.to_nat (max - 1)) input [].

Definition isdigit (c : Z) : bool := (48 <=? c) && (c <=? 57).

(** [atoi]: a [char] above 127 is negative and no digit. *)
Fixpoint atoi_loop (s : bytes) (n : Z) : option Z :=
  match s with
  | [] => None
  | c :: s' => if isdigit c then atoi_loop s' (s32 (n * 10 + c - 48)) else Some n
  end.
Definition atoi (s : bytes) : option Z := atoi_loop s 0.

(** This [memmove] copies upwards whatever the overlap. *)
Definition memmove (m : mem) (dst src n : Z) : mem := Mem.copy_up m dst src (Z.to_nat n).

(** ** Lemmas *)

Lemma strchr_absent l c rest : Forall (fun x => x <> 0) l -> c ∉ l -> strchr (l ++ 0 :: rest) c = Some None.
Proof.
  unfold strchr. generalize 0%nat. induction l as [|x l IH]; intros i Hl Hc; [done|].
  inversion Hl; subst. apply not_elem_of_cons in Hc as [Hx Hc]. cbn [app strchr_loop].
  replace (truthy x) with true by (symmetry; by apply Str.truthy_true). rewrite (proj2 (Z.eqb_neq x c)) by done. auto.
Qed.

Lemma strchr_found l c rest : Forall (fun x => x <> 0) l -> c <> 0 -> c ∉ l -> strchr (l ++ c :: rest) c = Some (Some (length l)).
Proof.
  unfold strchr. intros Hl Hc0 Hc. assert (forall i, strchr_loop (l ++ c :: rest) c i = Some (Some (i + length l)%nat)) as H; [|apply H].
  induction l as [|x l IH]; intros i; cbn [app strchr_loop length].
  - replace (truthy c) with true by (symmetry; by apply Str.truthy_true). rewrite Z.eqb_refl, Nat.add_0_r. done.
  - inversion Hl; subst. apply not_elem_of_cons in Hc as [Hx Hc].
    replace (truthy x) with true by (symmetry; by apply Str.truthy_true). rewrite (proj2 (Z.eqb_neq x c)) by done.
    rewrite IH by done. do 2 f_equal. lia.
Qed.

End Ulib.
