(* ===== verification/Printf.v ===== *)
(** * printf.c: formatted output of user programs

    [printint] and [printf] produce the bytes written to the descriptor.  The
    buffer of [printint] has 16 bytes; a write past its end is [None].  Module
    [Num] holds what the two number printers of xv6 (here and in console.c)
    share; Module [Cprintf] is the text of the kernel's [cprintf]. *)

From S2P Require Import Prelude Memory Cstring Ulib.

(** The bytes of a string literal. *)
Definition bytes_of (s : string) : bytes := (fun c => Z.of_nat (Ascii.nat_of_ascii c)) <$> String.list_ascii_of_string s.

Abbreviation MINUS := 45.
Abbreviation PERCENT := 37.

Module Num.

(** The loop [do buf[i++] = digits[x % base]; while((x /= base) != 0)], with
    [room] bytes left in [buf]. *)
Fixpoint put_digits (digits : bytes) (room : nat) (x base : Z) (buf : bytes) : option bytes :=
  match room with
  | O => None
  | S room =>
      d ← digits !! Z.to_nat (x mod base);
      let buf := buf ++ [d] in
      let x := x / base in
      if truthy x then put_digits digits room x base buf else Some buf
  end.

(** [buf[i++] = c] in a buffer of 16 bytes. *)
Definition push (buf : bytes) (c : Z) : option bytes :=
  if (length buf <? 16)%nat then Some (buf ++ [c]) else None.

(** ** What a numeral denotes *)

Definition digit (c : Z) : Z :=
  if (48 <=? c) && (c <=? 57) then c - 48 else if (65 <=? c) && (c <=? 70) then c - 55 else c - 87.

Definition value (base : Z) (l : bytes) : Z := foldl (fun n c => n * base + digit c) 0 l.

Definition signed_value (base : Z) (l : bytes) : Z :=
  match l with
  | c :: l' => if c =? MINUS then - value base l' else value base l
  | [] => 0
  end.

(** The digits of [digits], a table of 16 characters, denote their index. *)
Definition table (digits : bytes) : Prop :=
  forall d, 0 <= d < 16 -> exists c, digits !! Z.to_nat d = Some c /\ digit c = d /\ c <> MINUS /\ (d < 10 -> c = 48 + d).

Definition le_value (base : Z) (l : bytes) : Z := foldr (fun c n => digit c + base * n) 0 l.

Lemma value_reverse base l : value base (reverse l) = le_value base l.
Proof.
  unfold value. induction l as [|c l IH]; [done|]. rewrite reverse_cons, foldl_app, IH. cbn [foldl]. unfold le_value. cbn [foldr]. lia.
Qed.

(** The numeral is shortest: no leading zero. *)
Definition canonical (l : bytes) : Prop := l <> [] /\ (head l = Some 48 -> l = [48]).

Definition is_digit (base c : Z) : Prop := 0 <= digit c < base /\ c <> MINUS /\ (digit c < 10 -> c = 48 + digit c).

Lemma put_digits_spec digits base room k x buf : table digits -> 2 <= base <= 16 -> 0 <= x < base ^ Z.of_nat k -> (0 < k <= room)%nat ->
  exists l, put_digits digits room x base buf = Some (buf ++ l) /\ le_value base l = x /\ (length l <= k)%nat /\
    Forall (is_digit base) l /\ l <> [] /\ (last l = Some 48 -> l = [48]).
Proof.
  intros Ht Hb. revert k x buf. induction room as [|room IH]; intros k x buf Hx Hr; [lia|]. cbn [put_digits].
  pose proof (Z.mod_pos_bound x base ltac:(lia)) as Hm. pose proof (Z.div_mod x base ltac:(lia)) as Hd.
  destruct (Ht (x mod base)) as (c & -> & Ec & Hc & H10); [lia|]. cbn [mbind option_bind].
  assert (is_digit base c) as Hdc by (unfold is_digit; rewrite Ec; lia).
  destruct k as [|k]; [lia|]. destruct (truthy (x / base)) eqn:E.
  - apply Str.truthy_true in E. assert (0 <= x / base) by (apply Z.div_pos; lia).
    destruct k as [|k]; [cbn in Hx; rewrite Z.div_small in E by lia; done|].
    destruct (IH (S k) (x / base) (buf ++ [c])) as (l & Hl & Hv & Hlen & Hf & Hne & Hlast); [|lia|].
    { split; [done|]. apply Z.div_lt_upper_bound; [lia|]. rewrite Nat2Z.inj_succ, Z.pow_succ_r in Hx by lia. lia. }
    exists (c :: l). rewrite Hl, <- app_assoc. split; [done|]. cbn [le_value foldr length]. fold (le_value base l). split; [lia|]. split; [lia|].
    split; [by constructor|]. split; [done|]. intros HL. exfalso. destruct l as [|d l]; [done|].
    change (last (c :: d :: l)) with (last (d :: l)) in HL. specialize (Hlast HL). rewrite Hlast in Hv. cbn in Hv. lia.
  - apply Str.truthy_false in E. exists [c]. split; [done|]. cbn. repeat split; try lia; [|done|].
    + by constructor.
    + intros HL. by injection HL as ->.
Qed.

(** The digits in the order they are printed. *)
Lemma canonical_reverse l : l <> [] -> (last l = Some 48 -> l = [48]) -> canonical (reverse l).
Proof.
  intros Hne Hl. split.
  - intros E. apply (f_equal reverse) in E. rewrite reverse_involutive in E. done.
  - rewrite head_reverse. intros E. by rewrite (Hl E).
Qed.

Lemma signed_plain base l : Forall (is_digit base) l -> signed_value base l = value base l.
Proof. intros Hf. destruct Hf as [|c l (_ & Hc & _) _]; [done|]. cbn [signed_value]. by rewrite (proj2 (Z.eqb_neq c MINUS)). Qed.

End Num.

Module Printf.
Import Num.

Definition digits : bytes := bytes_of "0123456789ABCDEF".

Definition printint (xx base : Z) (sgn : bool) : option bytes :=
  let neg := sgn && (xx <? 0) in
  let x := if neg then u32 (- xx) else u32 xx in
  buf ← put_digits digits 16 x base [];
  buf ← (if neg then push buf MINUS else Some buf);
  Some (reverse buf).

(** The loop that puts the characters of a string. *)
Fixpoint putstr (s : bytes) : option bytes :=
  match s with
  | [] => None
  | c :: s => if truthy c then cons c <$> putstr s else Some []
  end.

Section printf.
(** The object at an address of the process: its bytes up to the end. *)
Context (obj : Z -> bytes).

(** [%s]; a null pointer prints as [(null)]. *)
Definition puts (s : Z) : option bytes :=
  let text := if s =? 0 then bytes_of "(null)" ++ [0] else obj s in
  putstr text.

(** One turn of the loop of [printf] in state ['%']: what it prints and the
    arguments left.  Reading past the last argument is [None]. *)
Definition directive (c : Z) (ap : list Z) : option (bytes * list Z) :=
  let arg := match ap with a :: ap => Some (a, ap) | [] => None end in
  if c =? 100 then '(a, ap) ← arg; o ← printint (s32 a) 10 true; Some (o, ap)
  else if (c =? 120) || (c =? 112) then '(a, ap) ← arg; o ← printint (s32 a) 16 false; Some (o, ap)
  else if c =? 115 then '(a, ap) ← arg; o ← puts a; Some (o, ap)
  else if c =? 99 then '(a, ap) ← arg; Some ([u8 a], ap)
  else if c =? PERCENT then Some ([c], ap)
  else Some ([PERCENT; c], ap).

Fixpoint printf_loop (fmt : bytes) (state : Z) (ap : list Z) : option bytes :=
  match fmt with
  | [] => None
  | f :: fmt =>
      if truthy f then
        let c := f .& 255 in
        if state =? 0 then
          if c =? PERCENT then printf_loop fmt PERCENT ap else o ← printf_loop fmt state ap; Some (c :: o)
        else if state =? PERCENT then
          '(d, ap) ← directive c ap;
          o ← printf_loop fmt 0 ap; Some (d ++ o)
        else printf_loop fmt state ap
      else Some []
  end.

Definition printf (fmt : bytes) (ap : list Z) : option bytes := printf_loop fmt 0 ap.
End printf.

End Printf.

(** console.c: the characters [cprintf] puts on the console. *)
Module Cprintf.
Import Num.

Definition digits : bytes := bytes_of "0123456789abcdef".

Definition printint (xx base : Z) (sign : bool) : option bytes :=
  let sign := sign && (xx <? 0) in
  let x := if sign then u32 (- xx) else u32 xx in
  buf ← put_digits digits 16 x base [];
  buf ← (if sign then push buf MINUS else Some buf);
  Some (reverse buf).

Section cprintf.
Context (obj : Z -> bytes).

(** The [switch] on the character after a percent sign. *)
Definition directive (c : Z) (argp : list Z) : option (bytes * list Z) :=
  let arg := match argp with a :: argp => Some (a, argp) | [] => None end in
  if c =? 100 then '(a, argp) ← arg; o ← printint (s32 a) 10 true; Some (o, argp)
  else if (c =? 120) || (c =? 112) then '(a, argp) ← arg; o ← printint (s32 a) 16 false; Some (o, argp)
  else if c =? 115 then '(a, argp) ← arg; o ← Printf.puts obj a; Some (o, argp)
  else if c =? PERCENT then Some ([PERCENT], argp)
  else Some ([PERCENT; c], argp).

Fixpoint cprintf (fmt : bytes) (argp : list Z) : option bytes :=
  match fmt with
  | [] => None
  | f :: fmt =>
      let c := f .& 255 in
      if c =? 0 then Some []
      else if negb (c =? PERCENT) then o ← cprintf fmt argp; Some (c :: o)
      else
        match fmt with
        | [] => None
        | f :: fmt =>
            let c := f .& 255 in
            if c =? 0 then Some []
            else '(d, argp) ← directive c argp; o ← cprintf fmt argp; Some (d ++ o)
        end
  end.
End cprintf.
End Cprintf.

(** ** Correctness *)

Section printint.
Import Num Printf.

Lemma digit_tables : table Printf.digits /\ table Cprintf.digits.
Proof.
  assert (forall dg, dg = Printf.digits \/ dg = Cprintf.digits -> table dg) as H; [|split; apply H; auto]. intros dg Hdg d Hd.
  assert (exists c, dg !! Z.to_nat d = Some c /\ digit c = d /\ bool_decide (c <> MINUS) = true /\ bool_decide (d < 10 -> c = 48 + d) = true) as (c & H).
  { assert (d = 0 \/ d = 1 \/ d = 2 \/ d = 3 \/ d = 4 \/ d = 5 \/ d = 6 \/ d = 7 \/ d = 8 \/ d = 9 \/ d = 10 \/ d = 11 \/ d = 12 \/ d = 13 \/ d = 14 \/ d = 15) as Hc by lia.
    destruct Hdg as [-> | ->]; repeat destruct Hc as [Hc|Hc]; subst; eexists; by repeat split. }
  exists c. destruct H as (? & ? & H1 & H2). apply bool_decide_eq_true in H1, H2. done.
Qed.

Lemma value_grows l n : 0 <= n -> Forall (is_digit 10) l -> n <= foldl (fun n c => n * 10 + digit c) n l.
Proof.
  revert n. induction l as [|c l IH]; intros n Hn Hf; [done|]. inversion Hf as [|? ? (Hd & _) Hf']; subst.
  cbn [foldl]. specialize (IH (n * 10 + digit c) ltac:(lia) Hf'). lia.
Qed.

Lemma atoi_reads l x : Forall (is_digit 10) l -> value 10 l = x -> x < 2 ^ 31 -> Ulib.atoi (l ++ [0]) = Some x.
Proof.
  intros Hf Hv Hx. unfold Ulib.atoi, value in *.
  assert (forall n, 0 <= n -> foldl (fun n c => n * 10 + digit c) n l = x -> Ulib.atoi_loop (l ++ [0]) n = Some x) as H; [|by apply H].
  clear Hv. induction Hf as [|c l (Hd & _ & Hc) Hf IH]; intros n Hn Hv; [cbn in *; by subst|]. cbn [app Ulib.atoi_loop foldl] in *.
  assert (Ulib.isdigit c = true) as -> by (unfold Ulib.isdigit; lia).
  pose proof (value_grows l (n * 10 + digit c) ltac:(lia) Hf).
  rewrite s32_small by lia. replace (n * 10 + c - 48) with (n * 10 + digit c) by lia. apply IH; [lia|done].
Qed.

(** What [printint] collects of an unsigned number of at most [k] digits. *)
Lemma printint_digits digits base x k : table digits -> 2 <= base <= 16 -> 0 <= x < base ^ Z.of_nat k -> (0 < k <= 16)%nat ->
  exists l, put_digits digits 16 x base [] = Some l /\ value base (reverse l) = x /\ (length l <= k)%nat /\
    Forall (is_digit base) (reverse l) /\ canonical (reverse l).
Proof.
  intros Ht Hb Hx Hk. destruct (put_digits_spec digits base 16 k x [] Ht Hb Hx Hk) as (l & Hl & Hv & Hlen & Hf & Hne & Hlast).
  exists l. rewrite value_reverse. split_and!; [done..| |by apply canonical_reverse]. by apply Forall_reverse.
Qed.

(** Text without [%] is copied, and [%s] is replaced by its argument. *)
Definition literal (l : bytes) : Prop := Forall (fun c => 0 < c < 256 /\ c <> PERCENT) l.

Lemma printf_literal obj pre fmt ap : literal pre -> printf_loop obj (pre ++ fmt) 0 ap = (fun o => pre ++ o) <$> printf_loop obj fmt 0 ap.
Proof.
  induction 1 as [|c pre [Hc Hp] _ IH]; cbn [app]; [by destruct (printf_loop obj fmt 0 ap)|]. cbn [printf_loop].
  rewrite (proj2 (Str.truthy_true c)) by lia. change 255 with (Z.ones 8). rewrite Z.land_ones, Z.mod_small by lia.
  rewrite (proj2 (Z.eqb_neq c PERCENT)) by done. cbn [Z.eqb]. rewrite IH. by destruct (printf_loop obj fmt 0 ap).
Qed.

Lemma putstr_spec s rest : Forall (fun c => c <> 0) s -> putstr (s ++ 0 :: rest) = Some s.
Proof. induction 1 as [|c s Hc _ IH]; [done|]. cbn [app putstr]. rewrite (proj2 (Str.truthy_true c)) by done. by rewrite IH. Qed.

Lemma printf_string obj pre post s rest : literal pre -> literal post -> Forall (fun c => c <> 0) s -> obj 1 = s ++ 0 :: rest ->
  printf obj (pre ++ [PERCENT; 115] ++ post ++ [0]) [1] = Some (pre ++ s ++ post).
Proof.
  intros Hpre Hpost Hs Ho. unfold printf. rewrite printf_literal by done.
  assert (puts obj 1 = Some s) as Hputs by (unfold puts; cbn [Z.eqb]; rewrite Ho; by apply putstr_spec).
  assert (printf_loop obj ([PERCENT; 115] ++ post ++ [0]) 0 [1] = (o ← puts obj 1; o' ← printf_loop obj (post ++ [0]) 0 []; Some (o ++ o'))) as ->.
  { change (([PERCENT; 115] ++ post ++ [0])) with (PERCENT :: 115 :: post ++ [0]).
    change (printf_loop obj (PERCENT :: 115 :: post ++ [0]) 0 [1])
      with ('(d, ap) ← (o ← puts obj 1; Some (o, [])); o ← printf_loop obj (post ++ [0]) 0 ap; Some (d ++ o)). by rewrite Hputs. }
  rewrite Hputs, printf_literal by done. cbn [mbind option_bind printf_loop truthy Z.eqb negb fmap option_fmap option_map]. by rewrite app_nil_r.
Qed.

(** [printint] with either table of digits. *)
Definition number (dg : bytes) (xx base : Z) (sgn : bool) : option bytes :=
  let neg := sgn && (xx <? 0) in
  let x := if neg then u32 (- xx) else u32 xx in
  buf ← put_digits dg 16 x base [];
  buf ← (if neg then push buf MINUS else Some buf);
  Some (reverse buf).

(** A printer of the numeral of [xx]. *)
Definition prints (pr : Z -> Z -> bool -> option bytes) (xx : Z) : Prop :=
  (exists out, pr xx 10 true = Some out /\ (length out <= 11)%nat /\ signed_value 10 out = xx /\
     (if decide (0 <= xx) then canonical out /\ Ulib.atoi (out ++ [0]) = Some xx else exists num, out = MINUS :: num /\ canonical num)) /\
  (exists out, pr xx 16 false = Some out /\ (length out <= 8)%nat /\ value 16 out = u32 xx /\ canonical out).

Lemma number_prints dg xx : table dg -> - 2 ^ 31 <= xx < 2 ^ 31 -> prints (number dg) xx.
Proof.
  intros Ht Hx. split; unfold number; cbn [andb]; [destruct (Z.ltb_spec xx 0)|].
  - rewrite u32_small by lia. destruct (printint_digits dg 10 (- xx) 10) as (l & -> & Hv & Hlen & Hf & Hc); [done|lia..|].
    cbn [mbind option_bind]. unfold push. rewrite (proj2 (Nat.ltb_lt _ _)) by lia. cbn [mbind option_bind].
    exists (MINUS :: reverse l). rewrite reverse_app. split; [done|]. rewrite length_cons, length_reverse.
    split; [lia|]. cbn [signed_value]. rewrite Z.eqb_refl, Hv. split; [lia|]. rewrite decide_False by lia. eauto.
  - rewrite u32_small by lia. destruct (printint_digits dg 10 xx 10) as (l & -> & Hv & Hlen & Hf & Hc); [done|lia..|].
    cbn [mbind option_bind]. exists (reverse l). split; [done|]. rewrite length_reverse. split; [lia|].
    rewrite signed_plain, Hv by done. split; [done|]. rewrite decide_True by done. split; [done|]. apply atoi_reads; [done..|lia].
  - pose proof (u32_range xx). destruct (printint_digits dg 16 (u32 xx) 8) as (l & -> & Hv & Hlen & Hf & Hc); [done|lia..|].
    cbn [mbind option_bind]. exists (reverse l). rewrite length_reverse. done.
Qed.

(** neither [printint], that of printf.c nor that of console.c, writes past
    its buffer.  With [%d] it writes the shortest decimal numeral of the number,
    a minus sign first when it is negative, and [atoi] reads a non-negative one
    back; with [%x] it writes the shortest hexadecimal numeral of the number's
    32-bit pattern. *)
Theorem printint_correct (xx : Z) : - 2 ^ 31 <= xx < 2 ^ 31 -> prints Printf.printint xx /\ prints Cprintf.printint xx.
Proof. intros Hx. destruct digit_tables. split; by apply number_prints. Qed.

End printint.

Lemma printint_correct_witness :
  exists out, Printf.printint (-2147483648) 10 true = Some out /\ out = bytes_of "-2147483648" /\ Num.signed_value 10 out = -2147483648.
Proof.
  destruct (printint_correct (-2147483648) ltac:(lia)) as [[(out & H & _ & Hv & _) _] _]. exists out. split; [exact H|].
  split; [|exact Hv]. revert H. vm_compute. congruence.
Defined.
