(* ===== verification/Dev.v ===== *)
(** * Interrupt controllers, timers, serial port and clock

    picirq.c, ioapic.c, timer.c, uart.c and lapic.c: drivers that program
    devices through ports and memory-mapped registers.  A device is known only
    as something that answers reads and takes writes (class [Machine]). *)

From S2P Require Import Prelude Memory Layout Cstring Ulib Printf.

Class Machine (D : Type) := {
  io_in : Z -> D -> Z * D;
  io_out : Z -> Z -> D -> D;
  mm_rd : Z -> D -> Z * D;
  mm_wr : Z -> Z -> D -> D
}.


Section drivers.
Context {D : Type} `{!Machine D}.

(** The drivers' variables: [irqmask] of picirq.c, [uart] of uart.c, the
    addresses of the APICs, the flags of mp.c, memory, and the text given to
    [cprintf]. *)
Record io := MkIo {
  hw : D;
  irqmask : Z;
  uart : bool;
  ismp : bool;
  ncpu : Z;
  ioapicid : Z;
  lapic : Z;
  ioapic : Z;
  ram : mem;
  said : bytes
}.

Definition set_hw (x : D) (s : io) : io := MkIo x (irqmask s) (uart s) (ismp s) (ncpu s) (ioapicid s) (lapic s) (ioapic s) (ram s) (said s).
Definition set_irqmask (x : Z) (s : io) : io := MkIo (hw s) x (uart s) (ismp s) (ncpu s) (ioapicid s) (lapic s) (ioapic s) (ram s) (said s).
Definition set_uart (x : bool) (s : io) : io := MkIo (hw s) (irqmask s) x (ismp s) (ncpu s) (ioapicid s) (lapic s) (ioapic s) (ram s) (said s).
Definition set_ismp (x : bool) (s : io) : io := MkIo (hw s) (irqmask s) (uart s) x (ncpu s) (ioapicid s) (lapic s) (ioapic s) (ram s) (said s).
Definition set_ncpu (x : Z) (s : io) : io := MkIo (hw s) (irqmask s) (uart s) (ismp s) x (ioapicid s) (lapic s) (ioapic s) (ram s) (said s).
Definition set_ioapicid (x : Z) (s : io) : io := MkIo (hw s) (irqmask s) (uart s) (ismp s) (ncpu s) x (lapic s) (ioapic s) (ram s) (said s).
Definition set_lapic (x : Z) (s : io) : io := MkIo (hw s) (irqmask s) (uart s) (ismp s) (ncpu s) (ioapicid s) x (ioapic s) (ram s) (said s).
Definition set_ioapic (x : Z) (s : io) : io := MkIo (hw s) (irqmask s) (uart s) (ismp s) (ncpu s) (ioapicid s) (lapic s) x (ram s) (said s).
Definition set_ram (x : mem) (s : io) : io := MkIo (hw s) (irqmask s) (uart s) (ismp s) (ncpu s) (ioapicid s) (lapic s) (ioapic s) x (said s).
Definition set_said (x : bytes) (s : io) : io := MkIo (hw s) (irqmask s) (uart s) (ismp s) (ncpu s) (ioapicid s) (lapic s) (ioapic s) (ram s) x.

Definition inb (port : Z) : M io Z := s ← get; let '(r, d) := io_in port (hw s) in _ ← put (set_hw d s); mret r.
Definition outb (port v : Z) : M io unit := modify (fun s => set_hw (io_out port (u8 v) (hw s)) s).
Definition rd (a : Z) : M io Z := s ← get; let '(r, d) := mm_rd a (hw s) in _ ← put (set_hw d s); mret r.
Definition wr (a v : Z) : M io unit := modify (fun s => set_hw (mm_wr a (u32 v) (hw s)) s).
Definition say (text : bytes) : M io unit := modify (fun s => set_said (said s ++ text) s).

(** What [cprintf] prints for a line that holds only numbers. *)
Definition line_of (fmt : string) (args : list Z) : bytes := default [] (Cprintf.cprintf (fun _ => [0]) (bytes_of fmt ++ [NL; 0]) args).

(** ** picirq.c *)

Definition IO_PIC1 : Z := 0x20.
Definition IO_PIC2 : Z := 0xA0.
Definition IRQ_SLAVE : Z := 2.
Definition irqmask0 : Z := 0xFFFF .& Z.lnot (Z.shiftl 1 IRQ_SLAVE).

Definition picsetmask (mask : Z) : M io unit :=
  modify (set_irqmask mask);;
  outb (IO_PIC1 + 1) mask;;
  outb (IO_PIC2 + 1) (Z.shiftr mask 8).

Definition picenable (irq : Z) : M io unit :=
  m ← gets irqmask;
  picsetmask (u16 (m .& Z.lnot (Z.shiftl 1 irq))).

Definition picinit : M io unit :=
  outb (IO_PIC1 + 1) 0xFF;;
  outb (IO_PIC2 + 1) 0xFF;;
  outb IO_PIC1 0x11;;
  outb (IO_PIC1 + 1) T_IRQ0;;
  outb (IO_PIC1 + 1) (Z.shiftl 1 IRQ_SLAVE);;
  outb (IO_PIC1 + 1) 0x3;;
  outb IO_PIC2 0x11;;
  outb (IO_PIC2 + 1) (T_IRQ0 + 8);;
  outb (IO_PIC2 + 1) IRQ_SLAVE;;
  outb (IO_PIC2 + 1) 0x3;;
  outb IO_PIC1 0x68;;
  outb IO_PIC1 0x0a;;
  outb IO_PIC2 0x68;;
  outb IO_PIC2 0x0a;;
  m ← gets irqmask;
  when (negb (m =? 0xFFFF)) (picsetmask m).

(** ** ioapic.c *)

Definition IOAPIC : Z := 0xFEC00000.
Definition REG_ID : Z := 0x00.
Definition REG_VER : Z := 0x01.
Definition REG_TABLE : Z := 0x10.
Definition INT_DISABLED : Z := 0x00010000.

(** [struct ioapic]: the register number at offset 0, the data at offset 16. *)
Definition ioapicread (reg : Z) : M io Z := a ← gets ioapic; wr a reg;; rd (a + 16).
Definition ioapicwrite (reg data : Z) : M io unit := a ← gets ioapic; wr a reg;; wr (a + 16) data.

Fixpoint ioapicinit_loop (i : Z) (n : nat) : M io unit :=
  match n with
  | O => mret tt
  | S n =>
      ioapicwrite (REG_TABLE + 2 * i) (INT_DISABLED .| (T_IRQ0 + i));;
      ioapicwrite (REG_TABLE + 2 * i + 1) 0;;
      ioapicinit_loop (i + 1) n
  end.

Definition ioapicinit : M io unit :=
  mp ← gets ismp;
  if negb mp then mret tt else
  modify (set_ioapic IOAPIC);;
  v ← ioapicread REG_VER;
  let maxintr := Z.shiftr v 16 .& 0xFF in
  r ← ioapicread REG_ID;
  let id := Z.shiftr r 24 in
  k ← gets ioapicid;
  when (negb (id =? k)) (say (bytes_of "ioapicinit: id isn't equal to ioapicid; not a MP" ++ [NL]));;
  ioapicinit_loop 0 (Z.to_nat (maxintr + 1)).

Definition ioapicenable (irq cpunum : Z) : M io unit :=
  mp ← gets ismp;
  if negb mp then mret tt else
  ioapicwrite (REG_TABLE + 2 * irq) (T_IRQ0 + irq);;
  ioapicwrite (REG_TABLE + 2 * irq + 1) (Z.shiftl cpunum 24).

(** ** timer.c *)

Definition IO_TIMER1 : Z := 0x040.
Definition TIMER_FREQ : Z := 1193182.
Definition TIMER_DIV (x : Z) : Z := (TIMER_FREQ + x / 2) / x.
Definition TIMER_MODE : Z := IO_TIMER1 + 3.
Definition TIMER_SEL0 : Z := 0x00.
Definition TIMER_RATEGEN : Z := 0x04.
Definition TIMER_16BIT : Z := 0x30.

Definition timerinit : M io unit :=
  outb TIMER_MODE (TIMER_SEL0 .| TIMER_RATEGEN .| TIMER_16BIT);;
  outb IO_TIMER1 (TIMER_DIV 100 mod 256);;
  outb IO_TIMER1 (TIMER_DIV 100 / 256);;
  picenable IRQ_TIMER.

(** ** lapic.c *)

Definition ID : Z := 0x0020 / 4.
Definition VER : Z := 0x0030 / 4.
Definition TPR : Z := 0x0080 / 4.
Definition EOI : Z := 0x00B0 / 4.
Definition SVR : Z := 0x00F0 / 4.
Definition ENABLE : Z := 0x00000100.
Definition ESR : Z := 0x0280 / 4.
Definition ICRLO : Z := 0x0300 / 4.
Definition INIT : Z := 0x00000500.
Definition STARTUP : Z := 0x00000600.
Definition DELIVS : Z := 0x00001000.
Definition ASSERT : Z := 0x00004000.
Definition LEVEL : Z := 0x00008000.
Definition BCAST : Z := 0x00080000.
Definition ICRHI : Z := 0x0310 / 4.
Definition TIMER : Z := 0x0320 / 4.
Definition X1 : Z := 0x0000000B.
Definition PERIODIC : Z := 0x00020000.
Definition PCINT : Z := 0x0340 / 4.
Definition LINT0 : Z := 0x0350 / 4.
Definition LINT1 : Z := 0x0360 / 4.
Definition ERROR : Z := 0x0370 / 4.
Definition MASKED : Z := 0x00010000.
Definition TICR : Z := 0x0380 / 4.
Definition TDCR : Z := 0x03E0 / 4.

(** [lapic[index]] *)
Definition lapicr (index : Z) : M io Z := a ← gets lapic; rd (a + 4 * index).
Definition lapicw (index value : Z) : M io unit := a ← gets lapic; wr (a + 4 * index) value;; _ ← lapicr ID; mret tt.

(** [while(lapic[ICRLO] & DELIVS)], at most [n] reads. *)
Fixpoint delivered (n : nat) : M io unit :=
  match n with
  | O => nofuel
  | S n => v ← lapicr ICRLO; if truthy (v .& DELIVS) then delivered n else mret tt
  end.

Definition lapicinit (patience : nat) : M io unit :=
  a ← gets lapic;
  if negb (truthy a) then mret tt else
  lapicw SVR (ENABLE .| (T_IRQ0 + IRQ_SPURIOUS));;
  lapicw TDCR X1;;
  lapicw TIMER (PERIODIC .| (T_IRQ0 + IRQ_TIMER));;
  lapicw TICR 10000000;;
  lapicw LINT0 MASKED;;
  lapicw LINT1 MASKED;;
  v ← lapicr VER;
  when (4 <=? (Z.shiftr v 16 .& 0xFF)) (lapicw PCINT MASKED);;
  lapicw ERROR (T_IRQ0 + IRQ_ERROR);;
  lapicw ESR 0;;
  lapicw ESR 0;;
  lapicw EOI 0;;
  lapicw ICRHI 0;;
  lapicw ICRLO (BCAST .| INIT .| LEVEL);;
  delivered patience;;
  lapicw TPR 0.

Definition lapiceoi : M io unit := a ← gets lapic; when (truthy a) (lapicw EOI 0).
Definition microdelay (us : Z) : M io unit := mret tt.

(** [intr]: the interrupt flag; [caller]: the return address; [n]: the static
    counter of calls with interrupts enabled.  The result is the number and the
    new counter. *)
Definition cpunum (intr : bool) (caller n : Z) : M io (Z * Z) :=
  n ← (if intr then when (n =? 0) (say (line_of "cpu called from %x with interrupts enabled" [caller]));; mret (s32 (n + 1))
       else mret n);
  a ← gets lapic;
  if truthy a then v ← lapicr ID; mret (Z.shiftr v 24, n) else mret (0, n).

Definition CMOS_PORT : Z := 0x70.
Definition CMOS_RETURN : Z := 0x71.

Fixpoint startup_ipi (apicid addr : Z) (n : nat) : M io unit :=
  match n with
  | O => mret tt
  | S n =>
      lapicw ICRHI (Z.shiftl apicid 24);;
      lapicw ICRLO (STARTUP .| Z.shiftr addr 12);;
      microdelay 200;;
      startup_ipi apicid addr n
  end.

(** The warm reset vector: two 16-bit words at 40:67. *)
Definition wr16 (m : mem) (a v : Z) : mem := wr8 (wr8 m a v) (a + 1) (v / 2 ^ 8).
Definition wrv : Z := p2v (Z.shiftl 0x40 4 .| 0x67).

Definition lapicstartap (apicid addr : Z) : M io unit :=
  outb CMOS_PORT 0xF;;
  outb (CMOS_PORT + 1) 0x0A;;
  modify (fun s => set_ram (wr16 (wr16 (ram s) wrv 0) (wrv + 2) (u16 (Z.shiftr addr 4))) s);;
  lapicw ICRHI (Z.shiftl apicid 24);;
  lapicw ICRLO (INIT .| LEVEL .| ASSERT);;
  microdelay 200;;
  lapicw ICRLO (INIT .| LEVEL);;
  microdelay 100;;
  startup_ipi apicid addr 2.

Definition CMOS_STATA : Z := 0x0a.
Definition CMOS_STATB : Z := 0x0b.
Definition CMOS_UIP : Z := Z.shiftl 1 7.
Definition SECS : Z := 0x00.
Definition MINS : Z := 0x02.
Definition HOURS : Z := 0x04.
Definition DAY : Z := 0x07.
Definition MONTH : Z := 0x08.
Definition YEAR : Z := 0x09.

Definition cmos_read (reg : Z) : M io Z := outb CMOS_PORT reg;; microdelay 200;; inb CMOS_RETURN.

Record rtcdate := MkDate { second : Z; minute : Z; hour : Z; day : Z; month : Z; year : Z }.

Definition fill_rtcdate : M io rtcdate :=
  second ← cmos_read SECS;
  minute ← cmos_read MINS;
  hour ← cmos_read HOURS;
  day ← cmos_read DAY;
  month ← cmos_read MONTH;
  year ← cmos_read YEAR;
  mret (MkDate second minute hour day month year).

#[global] Instance rtcdate_eq_dec : EqDecision rtcdate.
Proof. solve_decision. Defined.

(** The loop that reads the clock twice until both agree, at most [n] times. *)
Fixpoint stable_date (n : nat) : M io rtcdate :=
  match n with
  | O => nofuel
  | S n =>
      t1 ← fill_rtcdate;
      a ← cmos_read CMOS_STATA;
      if truthy (a .& CMOS_UIP) then stable_date n else
      t2 ← fill_rtcdate;
      if decide (t1 = t2) then mret t1 else stable_date n
  end.

Definition CONV (x : Z) : Z := Z.shiftr x 4 * 10 + (x .& 0xf).

Definition cmostime (n : nat) : M io rtcdate :=
  sb ← cmos_read CMOS_STATB;
  let bcd := (sb .& Z.shiftl 1 2) =? 0 in
  t ← stable_date n;
  let t := if bcd then MkDate (CONV (second t)) (CONV (minute t)) (CONV (hour t)) (CONV (day t)) (CONV (month t)) (CONV (year t)) else t in
  mret (MkDate (second t) (minute t) (hour t) (day t) (month t) (year t + 2000)).

(** ** uart.c *)

Definition COM1 : Z := 0x3f8.

(** [for(i = 0; i < 128 && !(inb(COM1+5) & 0x20); i++) microdelay(10);] *)
Fixpoint uart_ready (n : nat) : M io unit :=
  match n with
  | O => mret tt
  | S n => v ← inb (COM1 + 5); if truthy (v .& 0x20) then mret tt else microdelay 10;; uart_ready n
  end.

Definition uartputc (c : Z) : M io unit :=
  u ← gets uart;
  if negb u then mret tt else
  uart_ready 128;;
  outb COM1 c.

Fixpoint uartputs (s : bytes) : M io unit :=
  match s with
  | [] => mret tt
  | c :: s => uartputc c;; uartputs s
  end.

Definition uartinit : M io unit :=
  outb (COM1 + 2) 0;;
  outb (COM1 + 3) 0x80;;
  outb (COM1 + 0) (115200 / 9600);;
  outb (COM1 + 1) 0;;
  outb (COM1 + 3) 0x03;;
  outb (COM1 + 4) 0;;
  outb (COM1 + 1) 0x01;;
  v ← inb (COM1 + 5);
  if v =? 0xFF then mret tt else
  modify (set_uart true);;
  _ ← inb (COM1 + 2);
  _ ← inb (COM1 + 0);
  picenable IRQ_COM1;;
  ioapicenable IRQ_COM1 0;;
  uartputs (bytes_of "xv6..." ++ [NL]).

Definition uartgetc : M io Z :=
  u ← gets uart;
  if negb u then mret (-1) else
  v ← inb (COM1 + 5);
  if negb (truthy (v .& 0x01)) then mret (-1) else inb COM1.

(** ** What the drivers compute *)

(** [picenable] unmasks its line and no other. *)
Lemma picenable_mask irq s k : 0 <= irq < 16 -> 0 <= k < 16 -> 0 <= irqmask s < 2 ^ 16 ->
  exists s', picenable irq s = Ok tt s' /\ Z.testbit (irqmask s') k = Z.testbit (irqmask s) k && negb (k =? irq).
Proof.
  intros Hi Hk Hm. eexists. split; [reflexivity|]. cbn. unfold u16. rewrite <- Z.land_ones by lia.
  rewrite Z.land_spec, Z.land_spec, Z.lnot_spec, Z.ones_spec_low, andb_true_r by lia. f_equal. f_equal.
  rewrite Z.shiftl_spec by lia. destruct (Z.eqb_spec k irq) as [->|]; [by rewrite Z.sub_diag|].
  destruct (Z.lt_ge_cases k irq); [by rewrite Z.testbit_neg_r by lia|]. rewrite Z.bits_above_log2; cbn; lia || done.
Qed.

(** A clock register in binary-coded decimal. *)
Definition bcd (x : Z) : Z := 16 * (x / 10) + x mod 10.

Lemma CONV_bcd x : 0 <= x < 100 -> CONV (bcd x) = x.
Proof.
  intros Hx. unfold CONV, bcd. pose proof (Z.mod_pos_bound x 10). pose proof (Z.div_mod x 10).
  rewrite Z.shiftr_div_pow2 by lia. change 0xf with (Z.ones 4). rewrite Z.land_ones by lia. change (2 ^ 4) with 16.
  rewrite <- (Z.div_unique (16 * (x / 10) + x mod 10) 16 (x / 10) (x mod 10)) by lia.
  rewrite <- (Z.mod_unique (16 * (x / 10) + x mod 10) 16 (x / 10) (x mod 10)) by lia. lia.
Qed.

(** A clock that stands still while it is read: its registers hold [reg], in
    every state [idle] and after every read. *)
Section clock.
Context (idle : D -> Prop) (reg : Z -> Z).
Hypothesis clock_read : forall r d, idle d -> exists d', io_in CMOS_RETURN (io_out CMOS_PORT (u8 r) d) = (reg r, d') /\ idle d'.

Lemma cmos_read_run r s : idle (hw s) -> exists d, cmos_read r s = Ok (reg r) (set_hw d s) /\ idle d.
Proof.
  intros Hs. destruct (clock_read r (hw s) Hs) as (d & Hd & Hi). exists d. split; [|done].
  unfold cmos_read, outb, microdelay, inb, modify, mbind, M_bind, get, put, mret, M_ret. cbn. by rewrite Hd.
Qed.

Definition registers : rtcdate := MkDate (reg SECS) (reg MINS) (reg HOURS) (reg DAY) (reg MONTH) (reg YEAR).

Lemma fill_rtcdate_run s : idle (hw s) -> exists d, fill_rtcdate s = Ok registers (set_hw d s) /\ idle d.
Proof.
  intros Hs. unfold fill_rtcdate. destruct (cmos_read_run SECS s Hs) as (d1 & E1 & H1). rewrite (bind_ok_l _ _ _ _ _ E1).
  destruct (cmos_read_run MINS (set_hw d1 s) H1) as (d2 & E2 & H2). rewrite (bind_ok_l _ _ _ _ _ E2).
  destruct (cmos_read_run HOURS (set_hw d2 s) H2) as (d3 & E3 & H3). rewrite (bind_ok_l _ _ _ _ _ E3).
  destruct (cmos_read_run DAY (set_hw d3 s) H3) as (d4 & E4 & H4). rewrite (bind_ok_l _ _ _ _ _ E4).
  destruct (cmos_read_run MONTH (set_hw d4 s) H4) as (d5 & E5 & H5). rewrite (bind_ok_l _ _ _ _ _ E5).
  destruct (cmos_read_run YEAR (set_hw d5 s) H5) as (d6 & E6 & H6). rewrite (bind_ok_l _ _ _ _ _ E6). by exists d6.
Qed.

(** [cmostime] reads such a clock, binary or binary-coded, in one turn. *)
Lemma cmostime_run s n se mi ho da mo ye : idle (hw s) -> truthy (reg CMOS_STATA .& CMOS_UIP) = false ->
  Forall (fun x => 0 <= x < 100) [se; mi; ho; da; mo; ye] ->
  (let code := if reg CMOS_STATB .& Z.shiftl 1 2 =? 0 then bcd else id in registers = MkDate (code se) (code mi) (code ho) (code da) (code mo) (code ye)) ->
  exists s', cmostime (S n) s = Ok (MkDate se mi ho da mo (ye + 2000)) s'.
Proof.
  intros Hs Hu Hr Hreg. unfold cmostime. destruct (cmos_read_run CMOS_STATB s Hs) as (d1 & E1 & H1). rewrite (bind_ok_l _ _ _ _ _ E1).
  assert (exists d, stable_date (S n) (set_hw d1 s) = Ok registers (set_hw d s)) as (d & Hd).
  { cbn [stable_date]. destruct (fill_rtcdate_run (set_hw d1 s) H1) as (d2 & E2 & H2). rewrite (bind_ok_l _ _ _ _ _ E2).
    destruct (cmos_read_run CMOS_STATA (set_hw d2 s) H2) as (d3 & E3 & H3). rewrite (bind_ok_l _ _ _ _ _ E3), Hu.
    destruct (fill_rtcdate_run (set_hw d3 s) H3) as (d4 & E4 & H4). rewrite (bind_ok_l _ _ _ _ _ E4), decide_True by done. by exists d4. }
  rewrite (bind_ok_l _ _ _ _ _ Hd), Hreg. eexists. unfold mret, M_ret. f_equal.
  repeat (apply Forall_cons in Hr as [? Hr]). destruct (_ =? 0); cbn; by rewrite ?CONV_bcd.
Qed.
End clock.
End drivers.

(** A machine without devices, for examples. *)
#[global] Instance no_devices : Machine unit := {|
  io_in _ d := (0, d); io_out _ _ d := d; mm_rd _ d := (0, d); mm_wr _ _ d := d
|}.
