(* ===== verification/X86.v ===== *)
(** * The processor the assembly sources run on

    Registers, memory and the instructions of vectors.S, trapasm.S, swtch.S,
    initcode.S, entry.S, entryother.S and bootasm.S, with the descriptor tables
    of mmu.h that interrupts go through.  Code is a list of instructions; the
    addresses of its symbols are the linker's. *)

From stdpp Require Import finite.
From S2P Require Import Prelude Memory Layout Cstring Ulib Printf Dev Vm Proc.

Module X86.

Inductive reg :=
| EAX | ECX | EDX | EBX | ESP | EBP | ESI | EDI | EIP | EFLAGS
| CS | DS | ES | FS | GS | SS
| CR0 | CR3 | CR4.

#[global] Instance reg_eq_dec : EqDecision reg.
Proof. solve_decision. Defined.

Definition regs : list reg :=
  [EAX; ECX; EDX; EBX; ESP; EBP; ESI; EDI; EIP; EFLAGS; CS; DS; ES; FS; GS; SS; CR0; CR3; CR4].

#[global] Instance reg_finite : Finite reg.
Proof.
  refine {| enum := regs |}; [apply (bool_decide_unpack _); vm_compute; exact Logic.I|].
  intros []; apply (bool_decide_unpack _); vm_compute; exact Logic.I.
Defined.

(** Segment registers hold 16 bits. *)
Definition seg (r : reg) : bool :=
  match r with CS | DS | ES | FS | GS | SS => true | _ => false end.

(** A register, an immediate value, a word of memory. *)
Inductive operand := R (r : reg) | I (v : Z) | At (base : option reg) (disp : Z).

(** AT&T order: source first.  The suffix is the operand size: [Movb] on [EAX]
    moves [%al].  [Call f next]: [next] is the address of the next instruction. *)
Inductive instr :=
| Pushl (o : operand) | Popl (r : reg) | Pushal | Popal
| Movl (src dst : operand) | Movw (src : operand) (dst : reg) | Movb (src : operand) (dst : reg)
| Addl (v : Z) (dst : reg) | Orl (v : Z) (dst : reg) | Xorw (src dst : reg) | Testb (v : Z) (r : reg)
| Inb (port : Z) (dst : reg) | Outb (src : reg) (port : Z) | Outw (src port : reg)
| Cli | Lgdt (lim base : Z)
| Jmp (l : string) | Jnz (l : string) | Ljmp (sel : Z) (l : string)
| Call (f next : string) | CallAt (o : operand) (next : string) | JmpAt (o : operand)
| Ret | Iret.

(** ** Flags of mmu.h *)

Definition FL_ZF : Z := 0x40.
Definition FL_TF : Z := 0x100.
Definition FL_IF : Z := 0x200.
Definition FL_NT : Z := 0x4000.
Definition FL_RF : Z := 0x10000.
Definition FL_VM : Z := 0x20000.
Definition CR0_PE : Z := 0x1.
Definition CR0_WP : Z := 0x10000.
Definition CR0_PG : Z := 0x80000000.
Definition CR4_PSE : Z := 0x10.

(** [x & ~y] *)
Definition clear (x y : Z) : Z := x .& (0xffffffff - y).

Section exec.
Context {D : Type} `{!Machine D}.

Record mach := MkMach {
  rf : gmap reg Z;
  ram : mem;
  hw : D;
  gdtr : Z * Z
}.

Definition setr (r : reg) (v : Z) (s : mach) : mach := MkMach (<[r := v]> (rf s)) (ram s) (hw s) (gdtr s).
Definition set_ram (m : mem) (s : mach) : mach := MkMach (rf s) m (hw s) (gdtr s).
Definition set_hw (d : D) (s : mach) : mach := MkMach (rf s) (ram s) d (gdtr s).
Definition set_gdtr (g : Z * Z) (s : mach) : mach := MkMach (rf s) (ram s) (hw s) g.

Definition getr (s : mach) (r : reg) : Z := default 0 (rf s !! r).
Definition rget (r : reg) : M mach Z := gets (fun s => getr s r).
Definition rset (r : reg) (v : Z) : M mach unit := modify (setr r (if seg r then u16 v else u32 v)).
(** The low 16 or 8 bits. *)
Definition rsetw (r : reg) (v : Z) : M mach unit :=
  x ← rget r; rset r (if seg r then u16 v else Z.shiftl (Z.shiftr x 16) 16 + u16 v).
Definition rsetb (r : reg) (v : Z) : M mach unit :=
  x ← rget r; rset r (Z.shiftl (Z.shiftr x 8) 8 + u8 v).

Definition load (a : Z) : M mach Z := gets (fun s => rd32 (ram s) a).
Definition store (a v : Z) : M mach unit := modify (fun s => set_ram (wr32 (ram s) a v) s).

Definition push (v : Z) : M mach unit :=
  sp ← rget ESP;
  rset ESP (sp - 4);;
  sp ← rget ESP;
  store sp v.

Definition pop : M mach Z :=
  sp ← rget ESP;
  v ← load sp;
  rset ESP (sp + 4);;
  mret v.

Definition ea (base : option reg) (disp : Z) : M mach Z :=
  match base with Some b => x ← rget b; mret (u32 (x + disp)) | None => mret (u32 disp) end.

Definition value (o : operand) : M mach Z :=
  match o with R r => rget r | I v => mret (u32 v) | At b d => a ← ea b d; load a end.

Definition assign (o : operand) (v : Z) : M mach unit :=
  match o with R r => rset r v | I _ => fault | At b d => a ← ea b d; store a v end.

Fixpoint pushes (l : list Z) : M mach unit :=
  match l with [] => mret tt | v :: l => push v;; pushes l end.

Fixpoint pops (l : list reg) : M mach unit :=
  match l with [] => mret tt | r :: l => v ← pop; rset r v;; pops l end.

(** [iret]: a return to an outer ring takes the stack from the frame too. *)
Definition iret : M mach unit :=
  cs ← rget CS;
  pops [EIP; CS; EFLAGS];;
  cs' ← rget CS;
  when (cs .& 3 <? cs' .& 3) (v ← pop; ss ← pop; rset ESP v;; rset SS ss).

(** Instructions that fall through to the next one. *)
Definition simple (i : instr) : M mach unit :=
  match i with
  | Pushl o => v ← value o; push v
  | Popl r => pops [r]
  | Pushal =>
      s ← get;
      pushes (getr s <$> [EAX; ECX; EDX; EBX; ESP; EBP; ESI; EDI])
  | Popal =>
      pops [EDI; ESI; EBP];;
      _ ← pop;
      pops [EBX; EDX; ECX; EAX]
  | Movl src dst => v ← value src; assign dst v
  | Movw src dst => v ← value src; rsetw dst v
  | Movb src dst => v ← value src; rsetb dst v
  | Addl v r => x ← rget r; rset r (x + v)
  | Orl v r => x ← rget r; rset r (x .| v)
  | Xorw a b => x ← rget a; y ← rget b; rsetw b (Z.lxor x y)
  | Testb v r =>
      x ← rget r; fl ← rget EFLAGS;
      rset EFLAGS (if u8 x .& v =? 0 then fl .| FL_ZF else clear fl FL_ZF)
  | Inb port r => s ← get; let '(v, d) := io_in port (hw s) in put (set_hw d s);; rsetb r v
  | Outb r port => x ← rget r; modify (fun s => set_hw (io_out port (u8 x) (hw s)) s)
  | Outw r port => x ← rget r; p ← rget port; modify (fun s => set_hw (io_out (u16 p) (u16 x) (hw s)) s)
  | Cli => fl ← rget EFLAGS; rset EFLAGS (clear fl FL_IF)
  | Lgdt lim base => modify (set_gdtr (lim, base))
  | _ => fault
  end.

(** [sym]: the addresses of the symbols; [text]: the code at a label; [cfun]:
    the C functions, from their entry to their return. *)
Context (sym : string -> Z) (text : string -> list instr) (cfun : Z -> M mach unit).

(** A call: the function runs and its [ret] takes the return address. *)
Definition call (f : Z) (next : string) : M mach unit :=
  push (sym next);;
  cfun f;;
  v ← pop;
  rset EIP v.

(** Runs code until it leaves its text by [ret], [iret] or an indirect jump. *)
Fixpoint exec (fuel : nat) (code : list instr) : M mach unit :=
  match fuel, code with
  | O, _ => nofuel
  | S _, [] => mret tt
  | S n, i :: code =>
      match i with
      | Jmp l => exec n (text l)
      | Jnz l => fl ← rget EFLAGS; if truthy (fl .& FL_ZF) then exec n code else exec n (text l)
      | Ljmp sel l => rset CS sel;; exec n (text l)
      | Call f next => call (sym f) next;; exec n code
      | CallAt o next => v ← value o; call v next;; exec n code
      | JmpAt o => v ← value o; rset EIP v
      | Ret => v ← pop; rset EIP v
      | Iret => iret
      | i => simple i;; exec n code
      end
  end.
End exec.
End X86.
