(* ===== verification/Trapasm.v ===== *)
(** * Interrupts and context switches

    The interrupt descriptor table ([tvinit] and [idtinit] of trap.c, the gates
    of mmu.h), the entry and return paths of vectors.S and trapasm.S, and the
    context switch of swtch.S, as code for [X86]. *)

From S2P Require Import Prelude Memory Layout Cstring Ulib Printf Dev Vm Proc X86.

Module Trapasm.
Import X86.

(** ** The interrupt descriptor table *)

Definition STS_IG32 : Z := 0xE.
Definition STS_TG32 : Z := 0xF.
Definition T_SYSCALL : nat := 64.
Definition T_GPFLT : nat := 13.

Record gatedesc := MkGate {
  off_15_0 : Z; g_cs : Z; g_args : Z; g_rsv1 : Z; g_type : Z; g_s : Z; g_dpl : Z; g_p : Z; off_31_16 : Z
}.

Definition SETGATE (istrap : bool) (sel off d : Z) : gatedesc :=
  MkGate (u32 off .& 0xffff) sel 0 0 (if istrap then STS_TG32 else STS_IG32) 0 d 1 (u32 off ≫ 16).

(** A descriptor as the two words the processor reads. *)
Definition gate_words (g : gatedesc) : Z * Z :=
  (off_15_0 g .| (g_cs g ≪ 16),
   g_args g .| (g_rsv1 g ≪ 5) .| (g_type g ≪ 8) .| (g_s g ≪ 12) .| (g_dpl g ≪ 13) .| (g_p g ≪ 15) .| (off_31_16 g ≪ 16)).

(** The fields as the processor decodes them from the words. *)
Definition w_offset (w : Z * Z) : Z := (w.1 .& 0xffff) .| (w.2 .& 0xffff0000).
Definition w_sel (w : Z * Z) : Z := w.1 ≫ 16.
Definition w_type (w : Z * Z) : Z := (w.2 ≫ 8) .& 0xf.
Definition w_dpl (w : Z * Z) : Z := (w.2 ≫ 13) .& 3.
Definition w_present (w : Z * Z) : bool := Z.testbit w.2 15.

Section idt.
(** [vectors[]]: the addresses of the entry points. *)
Context (vectors : nat -> Z).

Fixpoint tvinit_loop (i n : nat) (idt : list gatedesc) : list gatedesc :=
  match n with
  | O => idt
  | S n => tvinit_loop (S i) n (<[i := SETGATE false (Z.of_nat Seg.SEG_KCODE ≪ 3) (vectors i) 0]> idt)
  end.

(** [initlock(&tickslock)] is the second component. *)
Definition tvinit (idt : list gatedesc) : list gatedesc * bool :=
  let idt := tvinit_loop 0 256 idt in
  (<[T_SYSCALL := SETGATE true (Z.of_nat Seg.SEG_KCODE ≪ 3) (vectors T_SYSCALL) Seg.DPL_USER]> idt, false).
End idt.

(** [lidt(p, size)]: the limit and the base [lidt] loads. *)
Definition lidt (p size : Z) : Z * Z := (size - 1, p).
Definition sizeof_idt : Z := 8 * 256.
Definition idtinit (a_idt : Z) : Z * Z := lidt a_idt sizeof_idt.

(** ** The processor's part of an interrupt *)

Section intr.
Context {D : Type} `{!Machine D}.
(** The table, and the kernel stack of the task state segment. *)
Context (idt : list gatedesc) (ss0 esp0 : Z).

(** Delivery of vector [n]; [err] is the error code, if the exception has one. *)
Definition deliver (n : nat) (err : option Z) : M (@mach D) unit :=
  match gate_words <$> idt !! n with
  | None => fault
  | Some w =>
      if negb (w_present w) then fault
      else
        s ← get;
        when (w_sel w .& 3 <? getr s CS .& 3) (
          rset ESP esp0;; rset SS ss0;;
          pushes [getr s SS; getr s ESP]);;
        pushes ([getr s EFLAGS; getr s CS; getr s EIP] ++ match err with Some e => [e] | None => [] end);;
        rset CS (w_sel w);;
        rset EIP (w_offset w);;
        let fl := clear (getr s EFLAGS) (FL_TF .| FL_NT .| FL_RF .| FL_VM) in
        rset EFLAGS (if w_type w =? STS_IG32 then clear fl FL_IF else fl)
  end.

(** [int $n]: without the privilege the gate asks for, a protection fault.
    [EIP] is already the next instruction; [insn] that of the instruction. *)
Definition int (insn : Z) (n : nat) : M (@mach D) unit :=
  s ← get;
  match gate_words <$> idt !! n with
  | None => fault
  | Some w =>
      if w_dpl w <? getr s CS .& 3 then
        rset EIP insn;; deliver T_GPFLT (Some (8 * Z.of_nat n + 2))
      else deliver n None
  end.
End intr.

(** The vectors below 32 for which the processor pushes an error code. *)
Definition has_errcode (n : nat) : bool := bool_decide (n = 8 \/ (10 <= n <= 14)%nat \/ n = 17)%nat.

(** ** vectors.S and trapasm.S *)

(** [vector i] *)
Definition vector (i : nat) : list instr :=
  (if (Nat.eqb i 8 || (Nat.leb 10 i && Nat.leb i 14) || Nat.eqb i 17)%bool then [] else [Pushl (I 0)])
  ++ [Pushl (I (Z.of_nat i)); Jmp "alltraps"].

Definition trapret : list instr :=
  [Popal; Popl GS; Popl FS; Popl ES; Popl DS;
   Addl 0x8 ESP;
   Iret].

(** Returning from [trap] falls through to [trapret]. *)
Definition alltraps : list instr :=
  [Pushl (R DS); Pushl (R ES); Pushl (R FS); Pushl (R GS); Pushal;
   Movw (I (Z.of_nat Seg.SEG_KDATA ≪ 3)) EAX; Movw (R EAX) DS; Movw (R EAX) ES;
   Movw (I (Z.of_nat Seg.SEG_KCPU ≪ 3)) EAX; Movw (R EAX) FS; Movw (R EAX) GS;
   Pushl (R ESP); Call "trap" "after_trap"; Addl 4 ESP]
  ++ trapret.

(** ** swtch.S *)

Definition swtch : list instr :=
  [Movl (At (Some ESP) 4) (R EAX); Movl (At (Some ESP) 8) (R EDX);
   Pushl (R EBP); Pushl (R EBX); Pushl (R ESI); Pushl (R EDI);
   Movl (R ESP) (At (Some EAX) 0); Movl (R EDX) (R ESP);
   Popl EDI; Popl ESI; Popl EBX; Popl EBP; Ret].

Definition text (l : string) : list instr :=
  if bool_decide (l = "alltraps") then alltraps
  else if bool_decide (l = "trapret") then trapret
  else if bool_decide (l = "swtch") then swtch
  else [].

(** ** The structures the code builds *)

(** [struct trapframe], its padding dropped. *)
Record trapframe := MkTf {
  t_edi : Z; t_esi : Z; t_ebp : Z; t_oesp : Z; t_ebx : Z; t_edx : Z; t_ecx : Z; t_eax : Z;
  t_gs : Z; t_fs : Z; t_es : Z; t_ds : Z; t_trapno : Z;
  t_err : Z; t_eip : Z; t_cs : Z; t_eflags : Z; t_esp : Z; t_ss : Z
}.
Definition sizeof_trapframe : Z := 76.

Definition frame_at (m : mem) (a : Z) : trapframe :=
  let w i := rd32 m (a + 4 * i) in
  MkTf (w 0) (w 1) (w 2) (w 3) (w 4) (w 5) (w 6) (w 7) (u16 (w 8)) (u16 (w 9)) (u16 (w 10)) (u16 (w 11)) (w 12)
    (w 13) (w 14) (u16 (w 15)) (w 16) (w 17) (u16 (w 18)).

Record context_t := MkContext { c_edi : Z; c_esi : Z; c_ebx : Z; c_ebp : Z; c_eip : Z }.

Definition context_at (m : mem) (a : Z) : context_t :=
  let w i := rd32 m (a + 4 * i) in MkContext (w 0) (w 1) (w 2) (w 3) (w 4).
End Trapasm.
