(* ===== verification/AsmRun.v ===== *)
(** * Runs of assembly code

    What sequences of pushes and pops do to the stack and the registers, and
    the context switch of swtch.S: it saves a context and restores another. *)

From S2P Require Import Prelude Memory Layout Cstring Ulib Printf Dev Vm Proc X86 Trapasm.

Import X86 Trapasm.

(** Decides facts about concrete lists of registers. *)
Ltac dec_regs := apply (bool_decide_unpack _); vm_compute; exact Logic.I.

(** ** Registers *)

Lemma clear_IF x : u32 (clear x FL_IF) .& FL_IF = 0.
Proof. unfold u32, clear. rewrite <- Z.land_ones, <- !Z.land_assoc by lia. apply Z.land_0_r. Qed.

Lemma movw_low x v : 0 <= v < 2 ^ 16 -> u16 (u32 (Z.shiftl (Z.shiftr x 16) 16 + u16 v)) = v.
Proof.
  intros H. unfold u16, u32. rewrite (Z.mod_small v) by done. rewrite Z.shiftl_mul_pow2 by lia.
  rewrite Z.mod_mod_divide by by exists (2 ^ 16). rewrite Z.add_comm, Z.mod_add by lia. by apply Z.mod_small.
Qed.

(** ** The stack *)

Section stack.
Context {D : Type} `{!Machine D}.
Implicit Types s : @mach D.

(** What a register keeps of a word. *)
Definition fit (r : reg) (v : Z) : Z := if seg r then u16 v else u32 v.

Lemma getr_setr r v s r' : getr (setr r v s) r' = if decide (r = r') then v else getr s r'.
Proof. unfold getr, setr. cbn. case_decide; [subst; by rewrite lookup_insert_eq | by rewrite lookup_insert_ne]. Qed.

Lemma setr_setr r v w s : setr r v (setr r w s) = setr r v s.
Proof. unfold setr. cbn. by rewrite insert_insert_eq. Qed.

Lemma setr_ram r v m s : setr r v (set_ram m s) = set_ram m (setr r v s).
Proof. done. Qed.

(** [l] pushed from [sp] down. *)
Fixpoint stack (m : mem) (sp : Z) (l : list Z) : mem :=
  match l with [] => m | v :: l => stack (wr32 m (sp - 4) v) (sp - 4) l end.

Definition pushS (l : list Z) s : mach :=
  setr ESP (getr s ESP - 4 * Z.of_nat (length l)) (set_ram (stack (ram s) (getr s ESP) l) s).

Lemma push_ok v s : 4 <= getr s ESP < 2 ^ 32 ->
  push v s = Ok tt (setr ESP (getr s ESP - 4) (set_ram (wr32 (ram s) (getr s ESP - 4) v) s)).
Proof.
  intros H. set (s1 := setr ESP (u32 (getr s ESP - 4)) s).
  change (push v s) with (store (getr s1 ESP) v s1). subst s1.
  rewrite getr_setr, decide_True, u32_small by (done || lia). done.
Qed.

Lemma pushes_ok l s : l <> [] -> 4 * Z.of_nat (length l) <= getr s ESP < 2 ^ 32 -> pushes l s = Ok tt (pushS l s).
Proof.
  revert s. induction l as [|v l IH]; intros s Hne H; [done|]. cbn [length] in H. cbn [pushes].
  rewrite (bind_ok_l _ _ _ _ _ (push_ok v s ltac:(lia))). destruct l as [|w l].
  { unfold pushS. cbn. do 2 f_equal; lia. }
  rewrite IH; [|done|rewrite getr_setr, decide_True by done; cbn [length] in *; lia].
  unfold pushS. rewrite getr_setr, decide_True by done.
  cbn [stack length]. f_equal. rewrite <- setr_ram, setr_setr. unfold setr, set_ram; cbn. do 2 f_equal; lia.
Qed.

Lemma stack_app l1 l2 m sp : stack (stack m sp l1) (sp - 4 * Z.of_nat (length l1)) l2 = stack m sp (l1 ++ l2).
Proof.
  revert m sp. induction l1 as [|v l1 IH]; intros m sp; cbn [stack length app].
  - f_equal; lia.
  - rewrite <- IH. f_equal; lia.
Qed.

Lemma pushS_app l1 l2 s : pushS l2 (pushS l1 s) = pushS (l1 ++ l2) s.
Proof.
  unfold pushS. rewrite getr_setr, decide_True by done.
  rewrite <- setr_ram, setr_setr. cbn [ram setr set_ram]. rewrite stack_app. unfold setr, set_ram; cbn.
  rewrite length_app. do 2 f_equal; lia.
Qed.

Lemma stack_outside l m sp a : a < sp - 4 * Z.of_nat (length l) \/ sp <= a -> rd8 (stack m sp l) a = rd8 m a.
Proof.
  revert m sp. induction l as [|v l IH]; intros m sp H; [done|]. cbn [stack length] in *.
  rewrite IH by lia. apply rd8_wr32_ne. lia.
Qed.

Lemma mem_wf_stack l m sp : mem_wf m -> mem_wf (stack m sp l).
Proof. revert m sp. induction l as [|v l IH]; intros m sp H; [done|]. by apply IH, mem_wf_wr32. Qed.

Lemma stack_lookup l m sp i v : Forall (fun v => 0 <= v < 2 ^ 32) l -> l !! i = Some v ->
  rd32 (stack m sp l) (sp - 4 - 4 * Z.of_nat i) = v.
Proof.
  revert m sp i. induction l as [|w l IH]; intros m sp i Hw Hl; [done|].
  apply Forall_cons in Hw as [Hv Hw]. destruct i as [|i]; cbn [stack] in *.
  - injection Hl as ->. rewrite (rd32_ext _ (wr32 m (sp - 4) v)).
    + replace (sp - 4 - 4 * Z.of_nat 0) with (sp - 4) by lia. by apply rd32_wr32_eq.
    + intros b Hb. apply stack_outside. lia.
  - cbn in Hl. replace (sp - 4 - 4 * Z.of_nat (S i)) with (sp - 4 - 4 - 4 * Z.of_nat i) by lia. eauto.
Qed.

Lemma stack_lookup_rev l m sp i v : Forall (fun v => 0 <= v < 2 ^ 32) l -> reverse l !! i = Some v ->
  rd32 (stack m sp l) (sp - 4 * Z.of_nat (length l) + 4 * Z.of_nat i) = v.
Proof.
  intros Hw Hl. apply reverse_lookup_Some in Hl as [Hl Hi].
  rewrite <- (stack_lookup l m sp _ _ Hw Hl). f_equal. lia.
Qed.

(** The registers [l] popped in order. *)
Fixpoint popS (l : list reg) s : mach :=
  match l with
  | [] => s
  | r :: l => popS l (setr r (fit r (rd32 (ram s) (getr s ESP))) (setr ESP (getr s ESP + 4) s))
  end.

Lemma pop_ok s : 0 <= getr s ESP -> getr s ESP + 4 < 2 ^ 32 ->
  pop s = Ok (rd32 (ram s) (getr s ESP)) (setr ESP (getr s ESP + 4) s).
Proof.
  intros H H'.
  change (pop s) with (Ok (S := @mach D) (rd32 (ram s) (getr s ESP)) (setr ESP (u32 (getr s ESP + 4)) s)).
  by rewrite u32_small by lia.
Qed.

Lemma pops_ok l s : ESP ∉ l -> 0 <= getr s ESP -> getr s ESP + 4 * Z.of_nat (length l) < 2 ^ 32 ->
  pops l s = Ok tt (popS l s).
Proof.
  revert s. induction l as [|r l IH]; intros s Hne H0 H; [done|]. cbn [pops length] in *.
  apply not_elem_of_cons in Hne as [Hr Hne].
  rewrite (bind_ok_l _ _ _ _ _ (pop_ok s ltac:(lia) ltac:(lia))).
  rewrite (bind_ok_l _ _ _ tt (setr r (fit r (rd32 (ram s) (getr s ESP))) (setr ESP (getr s ESP + 4) s))) by done.
  apply IH; [done|..]; rewrite getr_setr, decide_False, getr_setr, decide_True by done; lia.
Qed.

Lemma popS_app l1 l2 s : popS l2 (popS l1 s) = popS (l1 ++ l2) s.
Proof. revert s. induction l1 as [|r l1 IH]; intros s; [done|]. apply IH. Qed.

Lemma popS_ram l s : ram (popS l s) = ram s.
Proof. revert s. induction l as [|r l IH]; intros s; [done|]. cbn [popS]. by rewrite IH. Qed.

Lemma popS_esp l s : ESP ∉ l -> getr (popS l s) ESP = getr s ESP + 4 * Z.of_nat (length l).
Proof.
  revert s. induction l as [|r l IH]; intros s Hne; [cbn; lia|]. apply not_elem_of_cons in Hne as [Hr Hne].
  cbn [popS length]. rewrite IH, getr_setr, decide_False, getr_setr, decide_True by done. lia.
Qed.

Lemma popS_other l s r : r ∉ l -> r <> ESP -> getr (popS l s) r = getr s r.
Proof.
  revert s. induction l as [|q l IH]; intros s Hne Hr; [done|]. apply not_elem_of_cons in Hne as [Hq Hne].
  cbn [popS]. by rewrite IH, !getr_setr, !decide_False by done.
Qed.

Lemma popS_lookup l s i r : ESP ∉ l -> NoDup l -> l !! i = Some r ->
  getr (popS l s) r = fit r (rd32 (ram s) (getr s ESP + 4 * Z.of_nat i)).
Proof.
  revert s i. induction l as [|q l IH]; intros s i Hne Hd Hl; [done|].
  apply not_elem_of_cons in Hne as [Hq Hne]. apply NoDup_cons in Hd as [Hqd Hd]. cbn [popS].
  destruct i as [|i]; cbn in Hl.
  - injection Hl as ->. rewrite popS_other, getr_setr, decide_True by done. do 2 f_equal. lia.
  - rewrite (IH _ i) by done. rewrite getr_setr, decide_False, getr_setr, decide_True by done. cbn [ram setr].
    do 2 f_equal. lia.
Qed.
End stack.

(** Reads a register through assignments to others. *)
Ltac gr := repeat (rewrite getr_setr; first [rewrite decide_True by done | rewrite decide_False by congruence]).

(** ** Running code *)

Section run.
Context {D : Type} `{!Machine D}.
Context (sym : string -> Z) (cfun : Z -> M (@mach D) unit).
Implicit Types s : @mach D.
Local Abbreviation exec := (exec sym text cfun).

(** Registers hold what fits in them. *)
Definition regs_wf s : Prop := forall r, 0 <= getr s r < if seg r then 2 ^ 16 else 2 ^ 32.

Lemma regs_wf_word s r : regs_wf s -> 0 <= getr s r < 2 ^ 32.
Proof. intros H. specialize (H r). destruct (seg r); lia. Qed.

Lemma fit_id s r : regs_wf s -> fit r (getr s r) = getr s r.
Proof. intros H. specialize (H r). unfold fit, u16. destruct (seg r); [by apply Z.mod_small | by apply u32_small]. Qed.

Lemma getr_pushS l s r : r <> ESP -> getr (pushS l s) r = getr s r.
Proof. intros H. unfold pushS. by rewrite getr_setr, decide_False. Qed.

Lemma esp_pushS l s : getr (pushS l s) ESP = getr s ESP - 4 * Z.of_nat (length l).
Proof. unfold pushS. by rewrite getr_setr, decide_True. Qed.

(** Code that only pushes registers, and code that only pops them. *)
Lemma exec_pushes l n code s : l <> [] -> ESP ∉ l -> 4 * Z.of_nat (length l) <= getr s ESP < 2 ^ 32 ->
  exec (length l + n) (map (fun r => Pushl (R r)) l ++ code) s = exec n code (pushS (getr s <$> l) s).
Proof.
  revert s. induction l as [|r l IH]; intros s Hne He H; [done|]. apply not_elem_of_cons in He as [Hr He].
  cbn [length map app] in *.
  change (exec (S (length l) + n) (Pushl (R r) :: map (fun r => Pushl (R r)) l ++ code) s) with
    ((push (getr s r);; exec (length l + n) (map (fun r => Pushl (R r)) l ++ code)) s).
  assert (E : push (getr s r) s = Ok tt (pushS [getr s r] s)).
  { change (push (getr s r) s) with (pushes [getr s r] s). apply pushes_ok; [done|cbn; lia]. }
  rewrite (bind_ok_l _ _ _ _ _ E). destruct l as [|q l]; [done|].
  rewrite IH; [|done|done|rewrite esp_pushS; cbn [length] in *; lia].
  change (getr s <$> r :: q :: l) with ([getr s r] ++ (getr s <$> q :: l)). rewrite <- pushS_app.
  do 2 f_equal. apply list_fmap_ext. intros i x Hx. apply getr_pushS.
  intros ->. apply He, list_elem_of_lookup. eauto.
Qed.

Lemma exec_pops l n code s : ESP ∉ l -> 0 <= getr s ESP -> getr s ESP + 4 * Z.of_nat (length l) < 2 ^ 32 ->
  exec (length l + n) (map Popl l ++ code) s = exec n code (popS l s).
Proof.
  revert s. induction l as [|r l IH]; intros s He H0 H; [done|]. apply not_elem_of_cons in He as [Hr He].
  cbn [length map app popS] in *.
  change (exec (S (length l) + n) (Popl r :: map Popl l ++ code) s) with
    ((pops [r];; exec (length l + n) (map Popl l ++ code)) s).
  rewrite (bind_ok_l _ _ _ tt (popS [r] s)) by (apply pops_ok; [by apply not_elem_of_cons; split; [|apply not_elem_of_nil]|done|cbn; lia]).
  cbn [popS]. apply IH; [done|..]; rewrite getr_setr, decide_False, getr_setr, decide_True by done; lia.
Qed.

Lemma exec_ret n s : 0 <= getr s ESP -> getr s ESP + 4 < 2 ^ 32 -> exec (S n) [Ret] s = Ok tt (popS [EIP] s).
Proof.
  intros. change (exec (S n) [Ret] s) with (pops [EIP] s). apply pops_ok; [|done|cbn; lia].
  apply not_elem_of_cons; split; [done|apply not_elem_of_nil].
Qed.

(** ** swtch *)

Lemma popS_context s (s' := popS [EDI; ESI; EBX; EBP; EIP] s) : mem_wf (ram s) ->
  MkContext (getr s' EDI) (getr s' ESI) (getr s' EBX) (getr s' EBP) (getr s' EIP) = context_at (ram s) (getr s ESP).
Proof.
  intros Hm. unfold s', context_at. f_equal.
  1: rewrite (popS_lookup _ _ 0) by (done || dec_regs). 2: rewrite (popS_lookup _ _ 1) by (done || dec_regs).
  3: rewrite (popS_lookup _ _ 2) by (done || dec_regs). 4: rewrite (popS_lookup _ _ 3) by (done || dec_regs).
  5: rewrite (popS_lookup _ _ 4) by (done || dec_regs).
  all: unfold fit; cbn [seg]; rewrite u32_small by (by apply rd32_range); done.
Qed.

(** A call of [swtch(old, new)] with return address [ra]: [old] is neither in
    the context saved on this stack nor in the new one, and the stacks differ. *)
Record swtch_call (s : @mach D) (sp ra old new : Z) : Prop := {
  sw_mem : mem_wf (ram s);
  sw_regs : regs_wf s;
  sw_esp : getr s ESP = sp;
  sw_ra : rd32 (ram s) sp = ra;
  sw_old : rd32 (ram s) (sp + 4) = old;
  sw_new : rd32 (ram s) (sp + 8) = new;
  sw_stack : 16 <= sp /\ sp + 12 <= 2 ^ 32;
  sw_ctx : new + 20 < 2 ^ 32;
  sw_old_saved : old + 4 <= sp - 16 \/ sp + 4 <= old;
  sw_old_new : old + 4 <= new \/ new + 20 <= old;
  sw_new_saved : new + 20 <= sp - 16 \/ sp <= new
}.

(** The state before the new context is popped. *)
Definition switched s old new : mach :=
  setr ESP new (set_ram (wr32 (stack (ram s) (getr s ESP) (getr s <$> [EBP; EBX; ESI; EDI])) old (getr s ESP - 16))
    (setr EDX new (setr EAX old s))).

Lemma mem_wf_switched s old new : mem_wf (ram s) -> mem_wf (ram (switched s old new)).
Proof. intros H. by apply mem_wf_wr32, mem_wf_stack. Qed.

Lemma exec_load n b d r code s :
  exec (S n) (Movl (At (Some b) d) (R r) :: code) s = exec n code (setr r (fit r (rd32 (ram s) (u32 (getr s b + d)))) s).
Proof. done. Qed.

Lemma exec_store n r b d code s :
  exec (S n) (Movl (R r) (At (Some b) d) :: code) s = exec n code (set_ram (wr32 (ram s) (u32 (getr s b + d)) (getr s r)) s).
Proof. done. Qed.

Lemma exec_move n r q code s : exec (S n) (Movl (R r) (R q) :: code) s = exec n code (setr q (fit q (getr s r)) s).
Proof. done. Qed.

Lemma getr_set_ram m s r : getr (set_ram m s) r = getr s r.
Proof. done. Qed.

Lemma swtch_saves s sp ra old new n : swtch_call s sp ra old new ->
  exec (13 + n) swtch s = exec (5 + n) (map Popl [EDI; ESI; EBX; EBP] ++ [Ret]) (switched s old new).
Proof.
  intros [Hm Hr He _ Ho Hn Hs Hc _ _ _].
  pose proof (rd32_range _ (sp + 4) Hm) as Ho'. pose proof (rd32_range _ (sp + 8) Hm) as Hn'.
  change (exec (13 + n) swtch s) with (exec (S (S (4 + (7 + n)))) (Movl (At (Some ESP) 4) (R EAX) :: Movl (At (Some ESP) 8) (R EDX)
    :: map (fun r => Pushl (R r)) [EBP; EBX; ESI; EDI] ++ Movl (R ESP) (At (Some EAX) 0) :: Movl (R EDX) (R ESP)
    :: map Popl [EDI; ESI; EBX; EBP] ++ [Ret]) s).
  rewrite !exec_load, getr_setr, decide_False, He by done. unfold fit; cbn [seg ram setr].
  rewrite (u32_small (sp + 4)), (u32_small (sp + 8)), Ho, Hn, !(u32_small old), !(u32_small new) by lia.
  rewrite (exec_pushes [EBP; EBX; ESI; EDI]) by first [done | set_solver | rewrite !getr_setr, !decide_False, He by done; cbn; lia].
  set (s2 := pushS _ _).
  assert (E1 : getr s2 EAX = old) by (unfold s2; rewrite getr_pushS, getr_setr, decide_False, getr_setr, decide_True; done).
  assert (E2 : getr s2 EDX = new) by (unfold s2; rewrite getr_pushS, getr_setr, decide_True; done).
  assert (E3 : getr s2 ESP = sp - 16).
  { unfold s2. rewrite esp_pushS, !getr_setr, !decide_False, He by done. cbn; lia. }
  cbn [Nat.add]. rewrite exec_store, exec_move, getr_set_ram, E1, E2, E3, Z.add_0_r. unfold fit; cbn [seg].
  rewrite (u32_small old), (u32_small new) by lia. f_equal.
  unfold switched, s2, pushS. rewrite <- (setr_ram ESP), setr_setr. unfold fmap, list_fmap.
  by rewrite !getr_setr, !decide_False, He by done.
Qed.

(** Memory after the switch: the saved context, and what was not written. *)
Lemma switched_ram s sp ra old new (m := ram (switched s old new)) : swtch_call s sp ra old new ->
  rd32 m old = sp - 16 /\
  context_at m (sp - 16) = MkContext (getr s EDI) (getr s ESI) (getr s EBX) (getr s EBP) ra /\
  (forall a, (a < sp - 16 \/ sp <= a) -> (a < old \/ old + 4 <= a) -> rd8 m a = rd8 (ram s) a).
Proof.
  intros [Hm Hr He Hra Ho Hn Hs Hc Hos Hon Hns]. unfold m, switched. cbn [ram setr set_ram]. rewrite He.
  assert (Hw : Forall (fun v => 0 <= v < 2 ^ 32) (getr s <$> [EBP; EBX; ESI; EDI])).
  { apply Forall_fmap, Forall_true. intros r. by apply regs_wf_word. }
  assert (Hout : forall a, (a < sp - 16 \/ sp <= a) -> rd8 (stack (ram s) sp (getr s <$> [EBP; EBX; ESI; EDI])) a = rd8 (ram s) a).
  { intros a Ha. apply stack_outside. cbn. lia. }
  assert (Hk : forall i r, [EBP; EBX; ESI; EDI] !! i = Some r ->
    rd32 (wr32 (stack (ram s) sp (getr s <$> [EBP; EBX; ESI; EDI])) old (sp - 16)) (sp - 4 - 4 * Z.of_nat i) = getr s r).
  { intros i r Hi. assert (i < 4)%nat by (apply lookup_lt_Some in Hi; done).
    rewrite rd32_wr32_ne by lia. apply stack_lookup; [done|]. by rewrite list_lookup_fmap, Hi. }
  split; [apply rd32_wr32_eq; lia|]. split.
  - unfold context_at. f_equal.
    1: rewrite <- (Hk 3%nat) by done. 2: rewrite <- (Hk 2%nat) by done.
    3: rewrite <- (Hk 1%nat) by done. 4: rewrite <- (Hk 0%nat) by done.
    5: { rewrite rd32_wr32_ne by lia. rewrite <- Hra. replace (sp - 16 + 4 * 4) with sp by lia.
         apply rd32_ext. intros b Hb. apply Hout. lia. }
    all: f_equal; lia.
  - intros a Ha Hb. rewrite rd8_wr32_ne by lia. by apply Hout.
Qed.

(** The switch: this context is saved in [*old], the new one is loaded. *)
Lemma swtch_runs s sp ra old new n : swtch_call s sp ra old new ->
  exists s', exec (13 + n) swtch s = Ok tt s' /\
    rd32 (ram s') old = sp - 16 /\
    context_at (ram s') (sp - 16) = MkContext (getr s EDI) (getr s ESI) (getr s EBX) (getr s EBP) ra /\
    (forall a, (a < sp - 16 \/ sp <= a) -> (a < old \/ old + 4 <= a) -> rd8 (ram s') a = rd8 (ram s) a) /\
    MkContext (getr s' EDI) (getr s' ESI) (getr s' EBX) (getr s' EBP) (getr s' EIP) = context_at (ram s) new /\
    getr s' ESP = new + 20 /\
    (forall r, r ∈ [EFLAGS; CS; DS; ES; FS; GS; SS; CR0; CR3; CR4] -> getr s' r = getr s r) /\
    mem_wf (ram s').
Proof.
  intros H. rewrite (swtch_saves _ _ _ _ _ _ H). pose proof (switched_ram _ _ _ _ _ H) as Hsw. destruct H as [Hm Hr He Hra Ho Hn Hs Hc Hos Hon Hns].
  pose proof (rd32_range _ (sp + 4) Hm) as Ho'. pose proof (rd32_range _ (sp + 8) Hm) as Hn'.
  set (s1 := switched s old new).
  assert (E1 : getr s1 ESP = new) by (unfold s1, switched; by rewrite getr_setr, decide_True).
  eexists. split.
  { change (exec (5 + n)) with (exec (length [EDI; ESI; EBX; EBP] + S n)).
    rewrite (exec_pops [EDI; ESI; EBX; EBP] (S n) [Ret]) by first [rewrite E1; cbn; lia | dec_regs].
    apply exec_ret; rewrite popS_esp, E1 by dec_regs; cbn; lia. }
  rewrite (popS_app [EDI; ESI; EBX; EBP] [EIP] s1). cbn [app].
  rewrite popS_ram, popS_esp, E1 by dec_regs. destruct Hsw as (H1 & H2 & H3).
  split_and!; [done|done|done| |cbn; lia| |by apply mem_wf_switched].
  - rewrite popS_context, E1 by by apply mem_wf_switched. unfold context_at. f_equal; apply rd32_ext; intros b Hb; apply H3; lia.
  - intros r Hr'. rewrite popS_other by (clear -Hr'; revert r Hr'; apply Forall_forall; dec_regs).
    unfold s1, switched. assert (r ≠ ESP /\ r ≠ EDX /\ r ≠ EAX) as (? & ? & ?)
      by (clear -Hr'; revert r Hr'; apply Forall_forall; dec_regs).
    by rewrite getr_setr, decide_False, getr_set_ram, !getr_setr, !decide_False.
Qed.

(** C10: [swtch] suspends a kernel thread and a later [swtch] to the context it
    saved resumes it.  After [swtch(old, new)], [*old] points at a context; when
    any code that left it alone switches to it, the thread continues after its
    call with the registers C expects a function to keep and its stack as it
    was, whatever ran in between. *)
Theorem swtch_resumes s sp ra old new s1 s2 sp2 ra2 old2 n :
  swtch_call s sp ra old new -> exec (13 + n) swtch s = Ok tt s1 ->
  (forall a, sp - 16 <= a < sp + 4 -> rd8 (ram s2) a = rd8 (ram s1) a) ->
  swtch_call s2 sp2 ra2 old2 (rd32 (ram s1) old) ->
  exists s3, exec (13 + n) swtch s2 = Ok tt s3 /\
    getr s3 EIP = ra /\ getr s3 ESP = sp + 4 /\
    (forall r, r ∈ [EBP; EBX; ESI; EDI] -> getr s3 r = getr s r) /\
    rd32 (ram s3) old2 = sp2 - 16 /\
    (forall a, a < sp2 - 16 \/ sp2 <= a -> a < old2 \/ old2 + 4 <= a -> rd8 (ram s3) a = rd8 (ram s2) a).
Proof.
  intros H1 E1 Hsame H2. destruct (swtch_runs _ _ _ _ _ n H1) as (s1' & E1' & Hold & Hctx & _).
  rewrite E1 in E1'. injection E1' as <-. rewrite Hold in H2. destruct (swtch_runs _ _ _ _ _ n H2) as (s3 & E3 & Hold2 & _ & Hout & Hregs & Hesp & _).
  exists s3. split; [done|].
  assert (Hc : context_at (ram s2) (sp - 16) = context_at (ram s1) (sp - 16)).
  { unfold context_at. f_equal; apply rd32_ext; intros b Hb; apply Hsame; lia. }
  rewrite Hc, Hctx in Hregs. injection Hregs as E4 E5 E6 E7 E8.
  split_and!; [done|lia| |done|done].
  intros r Hr. set_unfold in Hr. destruct_or? Hr; subst r; done.
Qed.
End run.

(** ** Two threads *)

Module AsmEx.
(** Registers at zero but for those given. *)
Definition regs_of (l : list (reg * Z)) : gmap reg Z := list_to_map l.
(** Thread A at 0x2000 calls [swtch(0x500, 0x3000)]; the context at 0x3000 is that of B. *)
Definition mA : mem := stack (stack ∅ 0x200c [0x3000; 0x500; 0x1111]) 0x3014 [0x2222; 5; 6; 7; 8].
Definition A : @mach unit := MkMach (regs_of [(ESP, 0x2000); (EBP, 1); (EBX, 2); (ESI, 3); (EDI, 4)]) mA tt (0, 0).
(** B, with memory [m], calls [swtch(0x504, 0x1ff0)] later. *)
Definition B (m : mem) : @mach unit := MkMach (regs_of [(ESP, 0x4000); (EBP, 9)]) (stack m 0x400c [0x1ff0; 0x504; 0x3333]) tt (0, 0).
Definition nosym (_ : string) : Z := 0.
Definition nofun (_ : Z) : M (@mach unit) unit := mret tt.

Lemma regs_of_wf l m : forallb (fun p => (0 <=? p.2) && (p.2 <? 2 ^ 16))%bool l = true -> regs_wf (MkMach (D := unit) (regs_of l) m tt (0, 0)).
Proof.
  intros H r. assert (0 <= getr (MkMach (D := unit) (regs_of l) m tt (0, 0)) r < 2 ^ 16); [|destruct (seg r); lia].
  unfold getr, regs_of; cbn [rf]. destruct (list_to_map l !! r) as [v|] eqn:E; cbn [default]; [|cbn; lia].
  apply elem_of_list_to_map_2, list_elem_of_In in E. rewrite forallb_forall in H. apply H, andb_prop in E as [H1%Z.leb_le H2%Z.ltb_lt]. done.
Qed.

Lemma swtch_A : swtch_call A 0x2000 0x1111 0x500 0x3000.
Proof.
  split; try (vm_compute; reflexivity); [by do 2 apply mem_wf_stack|by apply regs_of_wf|lia..].
Qed.

Lemma swtch_B m : mem_wf m -> swtch_call (B m) 0x4000 0x3333 0x504 0x1ff0.
Proof.
  intros Hm. assert (Hw : Forall (fun v => 0 <= v < 2 ^ 32) [0x1ff0; 0x504; 0x3333]) by (repeat constructor; lia).
  split; [by apply mem_wf_stack|by apply regs_of_wf|done| | | |lia..].
  - exact (stack_lookup_rev _ m 0x400c 0 0x3333 Hw eq_refl).
  - exact (stack_lookup_rev _ m 0x400c 1 0x504 Hw eq_refl).
  - exact (stack_lookup_rev _ m 0x400c 2 0x1ff0 Hw eq_refl).
Qed.
End AsmEx.

Lemma swtch_resumes_witness : exists m s3, exec AsmEx.nosym text AsmEx.nofun 13 swtch (AsmEx.B m) = Ok tt s3 /\ getr s3 EIP = 0x1111 /\ getr s3 EBX = 2.
Proof.
  destruct (swtch_runs AsmEx.nosym AsmEx.nofun AsmEx.A 0x2000 0x1111 0x500 0x3000 0 AsmEx.swtch_A) as (s1 & E1 & Hold & _ & _ & _ & _ & _ & Hm).
  destruct (swtch_resumes AsmEx.nosym AsmEx.nofun AsmEx.A 0x2000 0x1111 0x500 0x3000 s1 (AsmEx.B (ram s1)) 0x4000 0x3333 0x504 0 AsmEx.swtch_A E1)
    as (s3 & E3 & H1 & _ & H2 & _).
  - intros a Ha. apply stack_outside. simpl. lia.
  - rewrite Hold. exact (AsmEx.swtch_B (ram s1) Hm).
  - exists (ram s1), s3. split; [exact E3|]. split; [exact H1|]. apply H2. right. left.
Defined.
