(* ===== verification/TrapasmSpec.v ===== *)
(** * Interrupts

    The gates let user code enter the kernel through system calls only; an
    interrupt builds the trap frame of x86.h on the kernel stack and its return
    loads every register back from it. *)

From S2P Require Import Prelude Memory Layout Cstring Ulib Printf Dev Vm Proc X86 Trapasm AsmRun.

Import X86 Trapasm.

(** ** Gates *)

Lemma lor_high lo hi : 0 <= lo < 2 ^ 16 -> lo .| (hi ≪ 16) = lo + hi * 2 ^ 16.
Proof.
  intros H. rewrite <- Z.shiftl_mul_pow2 by lia. symmetry. rewrite <- Z.lxor_lor, <- Z.add_nocarry_lxor; [done|..].
  all: apply Z.bits_inj'; intros i Hi; rewrite Z.land_spec, Z.bits_0; destruct (decide (i < 16)).
  1, 3: rewrite (Z.shiftl_spec_low hi) by lia; apply andb_false_r.
  all: rewrite <- (Z.mod_small lo (2 ^ 16)), Z.mod_pow2_bits_high by lia; done.
Qed.

Lemma off_halves off : 0 <= off < 2 ^ 32 ->
  u32 off .& 0xffff = off mod 2 ^ 16 /\ u32 off ≫ 16 = off / 2 ^ 16.
Proof.
  intros H. rewrite u32_small by lia. split; [|by rewrite Z.shiftr_div_pow2].
  change 0xffff with (Z.ones 16). by rewrite Z.land_ones.
Qed.

(** The processor reads from a gate what [SETGATE] put there. *)
Lemma SETGATE_decodes istrap sel off d (w := gate_words (SETGATE istrap sel off d)) :
  0 <= off < 2 ^ 32 -> 0 <= sel < 2 ^ 16 -> 0 <= d < 4 ->
  w_offset w = off /\ w_sel w = sel /\ w_type w = (if istrap then STS_TG32 else STS_IG32) /\ w_dpl w = d /\ w_present w = true.
Proof.
  intros Ho Hs Hd. destruct (off_halves off Ho) as [E1 E2].
  assert (W1 : w.1 = off mod 2 ^ 16 .| (sel ≪ 16)) by (unfold w, SETGATE, gate_words; cbn [fst off_15_0 g_cs]; by rewrite E1).
  assert (W2 : exists c, w.2 = c .| ((off / 2 ^ 16) ≪ 16) /\ 0 <= c < 2 ^ 16 /\ c .& 0xffff0000 = 0 /\
    (c / 2 ^ 8) mod 2 ^ 4 = (if istrap then STS_TG32 else STS_IG32) /\ (c / 2 ^ 13) mod 2 ^ 2 = d /\ (c / 2 ^ 15) mod 2 = 1).
  { unfold w, SETGATE, gate_words. cbn [snd g_args g_rsv1 g_type g_s g_dpl g_p off_31_16]. rewrite E2.
    eexists. split; [reflexivity|]. assert (d = 0 \/ d = 1 \/ d = 2 \/ d = 3) as [->|[->|[->| ->]]] by lia;
      destruct istrap; repeat split; done. }
  destruct W2 as (c & W2 & Hc & Hl & Ht & Hp & Hr).
  assert (W2' : w.2 = c + off / 2 ^ 16 * 2 ^ 16) by (rewrite W2; by apply lor_high).
  unfold w_offset, w_sel, w_type, w_dpl, w_present. split_and!.
  - rewrite W1, W2, lor_high by (apply Z.mod_pos_bound; lia). change 0xffff with (Z.ones 16).
    rewrite Z.land_ones, Z.mod_add, Z.mod_mod, Z.land_lor_distr_l, Hl, Z.lor_0_l by lia.
    change 0xffff0000 with (Z.ones 16 ≪ 16). rewrite <- Z.shiftl_land, Z.land_ones by lia.
    rewrite (Z.mod_small (off / 2 ^ 16)) by (split; [apply Z.div_pos|apply Z.div_lt_upper_bound]; lia).
    rewrite lor_high by (apply Z.mod_pos_bound; lia). pose proof (Z.div_mod off (2 ^ 16)). lia.
  - rewrite W1, lor_high, Z.shiftr_div_pow2, Z.div_add by (lia || apply Z.mod_pos_bound; lia).
    rewrite Z.div_small by (apply Z.mod_pos_bound; lia). lia.
  - rewrite W2', <- Ht, Z.shiftr_div_pow2 by lia. change 0xf with (Z.ones 4). rewrite Z.land_ones by lia.
    clear -Hc. Z.div_mod_to_equations. lia.
  - rewrite W2', <- Hp, Z.shiftr_div_pow2 by lia. change 3 with (Z.ones 2) at 1. rewrite Z.land_ones by lia.
    clear -Hc. Z.div_mod_to_equations. lia.
  - apply Z.testbit_true; [lia|]. rewrite W2', <- Hr. clear -Hc. Z.div_mod_to_equations. lia.
Qed.

Section gates.
Context (vectors : nat -> Z) (Hvec : forall i, 0 <= vectors i < 2 ^ 32).
Context (idt0 : list gatedesc) (Hidt : length idt0 = 256%nat).
Definition idt := (tvinit vectors idt0).1.

Lemma tvinit_loop_lookup i n l j : length l = 256%nat -> (i + n <= 256)%nat ->
  tvinit_loop vectors i n l !! j =
    if decide (i <= j < i + n)%nat then Some (SETGATE false 8 (vectors j) 0) else l !! j.
Proof.
  revert i l. induction n as [|n IH]; intros i l Hl Hn; cbn [tvinit_loop]; [by rewrite decide_False by lia|].
  rewrite IH by (rewrite ?length_insert; lia). destruct (decide (i = j)) as [->|Hij].
  - rewrite decide_False, decide_True by lia. by rewrite list_lookup_insert_eq by lia.
  - rewrite list_lookup_insert_ne by done. do 2 case_decide; try lia; done.
Qed.

Lemma length_tvinit_loop i n l : length (tvinit_loop vectors i n l) = length l.
Proof. revert i l. induction n as [|n IH]; intros i l; cbn [tvinit_loop]; [done|]. by rewrite IH, length_insert. Qed.

Lemma tvinit_gate n : (n < 256)%nat ->
  idt !! n = Some (SETGATE (bool_decide (n = T_SYSCALL)) 8 (vectors n) (if decide (n = T_SYSCALL) then 3 else 0)).
Proof.
  intros Hn. unfold idt, tvinit. cbn [fst]. destruct (decide (n = T_SYSCALL)) as [->|Hne].
  - rewrite list_lookup_insert_eq by (rewrite length_tvinit_loop, Hidt; unfold T_SYSCALL; lia). done.
  - rewrite list_lookup_insert_ne, tvinit_loop_lookup, decide_True, bool_decide_false by (done || lia). done.
Qed.

(** A gate as the processor sees it. *)
Lemma idt_entry n : (n < 256)%nat -> exists w, gate_words <$> idt !! n = Some w /\
  w_offset w = vectors n /\ w_sel w = 8 /\ w_type w = (if decide (n = T_SYSCALL) then STS_TG32 else STS_IG32) /\
  w_dpl w = (if decide (n = T_SYSCALL) then 3 else 0) /\ w_present w = true.
Proof.
  intros Hn. rewrite tvinit_gate by done. eexists. split; [reflexivity|].
  destruct (SETGATE_decodes (bool_decide (n = T_SYSCALL)) 8 (vectors n) (if decide (n = T_SYSCALL) then 3 else 0))
    as (E1 & E2 & E3 & E4 & E5); [done|lia|case_decide; lia|].
  rewrite E1, E2, E3, E4. split_and!; [done|done| |done|done]. by repeat case_decide; case_bool_decide.
Qed.

Context {D : Type} `{!Machine D} (ss0 esp0 : Z).
Implicit Types s : @mach D.

(** C16: [tvinit] fills the table so that user code can enter the kernel on
    purpose through [T_SYSCALL] only: every entry leads to its own vector in the
    kernel code segment, all but that of system calls with interrupts disabled,
    and any other [int $n] in user mode raises a protection fault instead.  In
    the kernel every [int $n] is delivered. *)
Theorem tvinit_correct n : (n < 256)%nat -> exists w, gate_words <$> idt !! n = Some w /\
  w_present w = true /\ w_sel w = Z.of_nat Seg.SEG_KCODE * 8 /\ w_offset w = vectors n /\
  (w_type w = STS_IG32 <-> n <> T_SYSCALL) /\
  (forall s insn, getr s CS .& 3 = 3 ->
     int idt ss0 esp0 insn n s =
       if decide (n = T_SYSCALL) then deliver idt ss0 esp0 n None s
       else deliver idt ss0 esp0 T_GPFLT (Some (8 * Z.of_nat n + 2)) (setr EIP (u32 insn) s)) /\
  (forall s insn, getr s CS .& 3 = 0 -> int idt ss0 esp0 insn n s = deliver idt ss0 esp0 n None s).
Proof.
  intros Hn. destruct (idt_entry n Hn) as (w & E & Ho & Hs & Ht & Hd & Hp). exists w.
  split; [exact E|]. split; [exact Hp|]. split; [exact Hs|]. split; [exact Ho|]. split.
  { rewrite Ht. destruct (decide (n = T_SYSCALL)) as [->|Hne]; split; [discriminate|congruence|done|done]. }
  split; intros s insn Hcs; set (f := deliver idt ss0 esp0) in *; unfold int.
  all: rewrite (bind_ok_l _ _ _ s s) by done; rewrite E, Hcs, Hd; by case_decide.
Qed.
End gates.

(** ** The frame and the code *)

Section run.
Context {D : Type} `{!Machine D}.
Context (sym : string -> Z) (cfun : Z -> M (@mach D) unit).
Implicit Types s : @mach D.
Local Abbreviation exec := (exec sym text cfun).

(** The register a field of the frame holds. *)
Definition tf_reg (f : trapframe) (r : reg) : Z :=
  match r with
  | EAX => t_eax f | ECX => t_ecx f | EDX => t_edx f | EBX => t_ebx f | EBP => t_ebp f | ESI => t_esi f | EDI => t_edi f
  | EIP => t_eip f | EFLAGS => t_eflags f | CS => t_cs f | DS => t_ds f | ES => t_es f | FS => t_fs f | GS => t_gs f
  | ESP => t_esp f | SS => t_ss f | _ => 0
  end.

Definition frame_regs : list reg := [EAX; ECX; EDX; EBX; EBP; ESI; EDI; EIP; EFLAGS; CS; DS; ES; FS; GS].

(** ** Leaving the kernel *)

(** The frame up to the words for the stack, popped in [trapret]'s order. *)
Definition unframe s : mach :=
  let s := popS [EDI; ESI; EBP] s in
  let s := setr ESP (getr s ESP + 4) s in
  let s := popS [EBX; EDX; ECX; EAX; GS; FS; ES; DS] s in
  let s := setr ESP (getr s ESP + 8) s in
  popS [EIP; CS; EFLAGS] s.

Lemma unframe_regs s : mem_wf (ram s) ->
  ram (unframe s) = ram s /\ getr (unframe s) ESP = getr s ESP + 68 /\
  (forall r, r ∈ frame_regs -> getr (unframe s) r = tf_reg (frame_at (ram s) (getr s ESP)) r) /\
  (forall r, r ∈ [SS; CR0; CR3; CR4] -> getr (unframe s) r = getr s r).
Proof.
  intros Hm. set (s1 := popS [EDI; ESI; EBP] s). set (s2 := setr ESP (getr s1 ESP + 4) s1).
  set (s3 := popS [EBX; EDX; ECX; EAX; GS; FS; ES; DS] s2). set (s4 := setr ESP (getr s3 ESP + 8) s3).
  change (unframe s) with (popS [EIP; CS; EFLAGS] s4).
  assert (R1 : ram s1 = ram s) by apply popS_ram.
  assert (R3 : ram s3 = ram s) by (unfold s3; rewrite popS_ram; exact R1).
  assert (E1 : getr s1 ESP = getr s ESP + 12) by (unfold s1; rewrite popS_esp by dec_regs; done).
  assert (E2 : getr s2 ESP = getr s ESP + 16) by (unfold s2; gr; lia).
  assert (E3 : getr s3 ESP = getr s ESP + 48) by (unfold s3; rewrite popS_esp by dec_regs; rewrite E2; cbn; lia).
  assert (E4 : getr s4 ESP = getr s ESP + 56) by (unfold s4; gr; lia).
  split; [by rewrite popS_ram|]. split; [rewrite popS_esp by dec_regs; rewrite E4; cbn; lia|].
  set (f := frame_at (ram s) (getr s ESP)).
  assert (F5 : forall i r, [EIP; CS; EFLAGS] !! i = Some r -> getr (popS [EIP; CS; EFLAGS] s4) r = fit r (rd32 (ram s) (getr s ESP + 4 * Z.of_nat (14 + i)))).
  { intros i r Hi. rewrite (popS_lookup _ _ i) by (done || dec_regs). change (ram s4) with (ram s3). rewrite R3, E4. do 2 f_equal. lia. }
  assert (F3 : forall i r, [EBX; EDX; ECX; EAX; GS; FS; ES; DS] !! i = Some r -> getr s3 r = fit r (rd32 (ram s) (getr s ESP + 4 * Z.of_nat (4 + i)))).
  { intros i r Hi. unfold s3. rewrite (popS_lookup _ _ i) by (done || dec_regs). change (ram s2) with (ram s1). rewrite R1, E2. do 2 f_equal. lia. }
  assert (F1 : forall i r, [EDI; ESI; EBP] !! i = Some r -> getr s1 r = fit r (rd32 (ram s) (getr s ESP + 4 * Z.of_nat i))).
  { intros i r Hi. unfold s1. by rewrite (popS_lookup _ _ i) by (done || dec_regs). }
  assert (Hfit : forall a, u32 (rd32 (ram s) a) = rd32 (ram s) a) by (intros a; by apply u32_small, rd32_range).
  split.
  - intros r Hr. unfold frame_regs in Hr. set_unfold in Hr. destruct_or? Hr; subst r;
      first [rewrite (F5 0%nat) by done | rewrite (F5 1%nat) by done | rewrite (F5 2%nat) by done
            | rewrite popS_other by (done || dec_regs); unfold s4; gr];
      first [rewrite (F3 0%nat) by done | rewrite (F3 1%nat) by done | rewrite (F3 2%nat) by done | rewrite (F3 3%nat) by done
            | rewrite (F3 4%nat) by done | rewrite (F3 5%nat) by done | rewrite (F3 6%nat) by done | rewrite (F3 7%nat) by done
            | unfold s3; rewrite popS_other by (done || dec_regs); unfold s2; gr | idtac];
      first [rewrite (F1 0%nat) by done | rewrite (F1 1%nat) by done | rewrite (F1 2%nat) by done | idtac];
      unfold fit; cbn [seg]; rewrite ?Hfit; reflexivity.
  - intros r Hr. set_unfold in Hr. destruct_or? Hr; subst r; rewrite popS_other by (done || dec_regs); unfold s4; gr;
      unfold s3; rewrite popS_other by (done || dec_regs); unfold s2; gr; unfold s1; by rewrite popS_other by (done || dec_regs).
Qed.

Lemma exec_popal n code s : 0 <= getr s ESP -> getr s ESP + 32 < 2 ^ 32 ->
  exec (S n) (Popal :: code) s =
  exec n code (let s1 := popS [EDI; ESI; EBP] s in popS [EBX; EDX; ECX; EAX] (setr ESP (getr s1 ESP + 4) s1)).
Proof.
  intros H0 H1. change (exec (S n) (Popal :: code) s) with ((simple Popal;; exec n code) s). cbn zeta.
  set (s1 := popS [EDI; ESI; EBP] s). assert (E1 : getr s1 ESP = getr s ESP + 12) by (unfold s1; rewrite popS_esp by dec_regs; done).
  rewrite (bind_ok_l _ _ _ tt (popS [EBX; EDX; ECX; EAX] (setr ESP (getr s1 ESP + 4) s1))); [done|]. unfold simple.
  rewrite (bind_ok_l _ _ _ tt s1) by (apply pops_ok; [dec_regs|cbn; lia..]).
  rewrite (bind_ok_l _ _ _ _ _ (pop_ok s1 ltac:(lia) ltac:(lia))).
  apply pops_ok; [dec_regs|gr; cbn [length]; lia..].
Qed.

(** [trapret] up to the frame's words for the stack. *)
Lemma trapret_unframes k s : 0 <= getr s ESP -> getr s ESP + 68 < 2 ^ 32 -> getr s CS .& 3 = 0 ->
  mem_wf (ram s) ->
  exec (7 + k) trapret s =
  when (0 <? getr (unframe s) CS .& 3) (v ← pop; ss ← pop; rset ESP v;; rset SS ss) (unframe s).
Proof.
  intros H0 H1 Hcs Hm. change (exec (7 + k) trapret s) with (exec (S (4 + (2 + k))) (Popal :: map Popl [GS; FS; ES; DS] ++ [Addl 8 ESP; Iret]) s).
  rewrite exec_popal by lia. cbn zeta. set (s1 := popS [EDI; ESI; EBP] s). set (s2 := setr ESP (getr s1 ESP + 4) s1).
  assert (E2 : getr s2 ESP = getr s ESP + 16).
  { unfold s2. gr. unfold s1. rewrite popS_esp by dec_regs. cbn; lia. }
  set (s3 := popS [EBX; EDX; ECX; EAX] s2).
  assert (E3 : getr s3 ESP = getr s ESP + 32) by (unfold s3; rewrite popS_esp by dec_regs; rewrite E2; cbn; lia).
  rewrite (exec_pops sym cfun [GS; FS; ES; DS] (2 + k)) by first [rewrite E3; cbn; lia | dec_regs].
  unfold s3. rewrite popS_app. cbn [app]. set (s4 := popS _ s2).
  assert (E4 : getr s4 ESP = getr s ESP + 48) by (unfold s4; rewrite popS_esp by dec_regs; rewrite E2; cbn; lia).
  change (exec (2 + k) [Addl 8 ESP; Iret] s4) with (iret (setr ESP (u32 (getr s4 ESP + 8)) s4)).
  rewrite u32_small by lia. set (s5 := setr ESP (getr s4 ESP + 8) s4).
  assert (E5 : getr s5 ESP = getr s ESP + 56) by (unfold s5; gr; lia).
  change (unframe s) with (popS [EIP; CS; EFLAGS] s5). unfold iret.
  rewrite (bind_ok_l _ _ _ (getr s5 CS) s5) by done.
  rewrite (bind_ok_l _ _ _ tt (popS [EIP; CS; EFLAGS] s5)) by (apply pops_ok; [dec_regs|rewrite E5; cbn; lia..]).
  rewrite (bind_ok_l _ _ _ (getr (popS [EIP; CS; EFLAGS] s5) CS) (popS [EIP; CS; EFLAGS] s5)) by done.
  replace (getr s5 CS) with (getr s CS); [by rewrite Hcs|].
  unfold s5. gr. unfold s4. rewrite popS_other by (done || dec_regs). unfold s2. gr. unfold s1. by rewrite popS_other by (done || dec_regs).
Qed.

(** [trapret] loads the registers of the frame at the stack pointer. *)
Lemma trapret_runs k s (f := frame_at (ram s) (getr s ESP)) : 0 <= getr s ESP -> getr s ESP + 76 < 2 ^ 32 ->
  getr s CS .& 3 = 0 -> mem_wf (ram s) -> t_cs f .& 3 = 3 \/ t_cs f .& 3 = 0 ->
  exists s', exec (7 + k) trapret s = Ok tt s' /\ ram s' = ram s /\
    (forall r, r ∈ frame_regs -> getr s' r = tf_reg f r) /\
    (forall r, r ∈ [CR0; CR3; CR4] -> getr s' r = getr s r) /\
    if t_cs f .& 3 =? 3 then getr s' ESP = t_esp f /\ getr s' SS = t_ss f
    else getr s' ESP = getr s ESP + 68 /\ getr s' SS = getr s SS.
Proof.
  intros H0 H1 Hcs Hm Hring. rewrite trapret_unframes by (done || lia).
  destruct (unframe_regs s Hm) as (Hram & Hesp & Hregs & Hcr). set (s1 := unframe s) in *.
  rewrite (Hregs CS) by dec_regs. cbn [tf_reg]. fold f. destruct Hring as [E|E]; rewrite E.
  - change (when _ ?m) with m. rewrite (bind_ok_l _ _ _ _ _ (pop_ok s1 ltac:(lia) ltac:(lia))).
    set (s2 := setr ESP (getr s1 ESP + 4) s1). assert (E2 : getr s2 ESP = getr s ESP + 72) by (unfold s2; gr; lia).
    rewrite (bind_ok_l _ _ _ _ _ (pop_ok s2 ltac:(lia) ltac:(lia))).
    eexists. split; [reflexivity|]. cbn [seg]. split_and!; [done|..|split].
    + intros r Hr. assert (r <> ESP /\ r <> SS) as [??] by (clear -Hr; revert r Hr; apply Forall_forall; dec_regs).
      gr. unfold s2. gr. by apply Hregs.
    + intros r Hr. assert (r <> ESP /\ r <> SS) as [??] by (clear -Hr; revert r Hr; apply Forall_forall; dec_regs).
      gr. unfold s2. gr. apply Hcr, elem_of_cons. by right.
    + gr. rewrite Hram, Hesp. by apply u32_small, rd32_range.
    + gr. change (ram s2) with (ram s1). by rewrite Hram, E2.
  - exists s1. split_and!; [done|done|done|intros r Hr; apply Hcr, elem_of_cons; by right|split; [done|apply Hcr; dec_regs] ].
Qed.

Lemma exec_addl n v r code s : exec (S n) (Addl v r :: code) s = exec n code (setr r (fit r (getr s r + v)) s).
Proof. done. Qed.


(** *** vectors.S and alltraps *)

Lemma pushS_one v s : 4 <= getr s ESP < 2 ^ 32 -> push v s = Ok tt (pushS [v] s).
Proof. intros H. change (push v s) with (pushes [v] s). apply pushes_ok; [done|cbn; lia]. Qed.

Lemma exec_pushi n v code s : 4 <= getr s ESP < 2 ^ 32 -> exec (S n) (Pushl (I v) :: code) s = exec n code (pushS [u32 v] s).
Proof.
  intros H. change (exec (S n) (Pushl (I v) :: code) s) with ((push (u32 v);; exec n code) s).
  by rewrite (bind_ok_l _ _ _ _ _ (pushS_one _ _ H)).
Qed.

(** The words [vector n] adds to those of the processor. *)
Definition vector_words (n : nat) : list Z := (if has_errcode n then [] else [0]) ++ [Z.of_nat n].

Lemma vector_errcode n :
  (Nat.eqb n 8 || (Nat.leb 10 n && Nat.leb n 14) || Nat.eqb n 17)%bool = has_errcode n.
Proof.
  unfold has_errcode. symmetry.
  destruct (Nat.eqb_spec n 8), (Nat.leb_spec 10 n), (Nat.leb_spec n 14), (Nat.eqb_spec n 17); cbn;
    first [apply bool_decide_eq_true_2; lia | apply bool_decide_eq_false_2; lia].
Qed.

Lemma vector_runs n k s : (n < 256)%nat -> 8 <= getr s ESP < 2 ^ 32 ->
  exec (length (vector n) + k) (vector n) s = exec k alltraps (pushS (vector_words n) s).
Proof.
  intros Hn H. unfold vector, vector_words. rewrite vector_errcode.
  assert (Hu : u32 (Z.of_nat n) = Z.of_nat n) by (apply u32_small; lia).
  destruct (has_errcode n); cbn [app length Nat.add].
  - rewrite exec_pushi, Hu by lia. done.
  - rewrite !exec_pushi, Hu by (rewrite ?esp_pushS; cbn; lia). by rewrite pushS_app.
Qed.

Definition alltraps_words s : list Z :=
  (getr s <$> [DS; ES; FS; GS; EAX; ECX; EDX; EBX]) ++ [getr s ESP - 16] ++ (getr s <$> [EBP; ESI; EDI]).

Lemma exec_pushal n code s : 32 <= getr s ESP < 2 ^ 32 ->
  exec (S n) (Pushal :: code) s = exec n code (pushS (getr s <$> [EAX; ECX; EDX; EBX; ESP; EBP; ESI; EDI]) s).
Proof.
  intros H. change (exec (S n) (Pushal :: code) s) with ((simple Pushal;; exec n code) s).
  rewrite (bind_ok_l _ _ _ tt (pushS (getr s <$> [EAX; ECX; EDX; EBX; ESP; EBP; ESI; EDI]) s)); [reflexivity|].
  unfold simple. rewrite (bind_ok_l _ _ _ s s) by reflexivity. apply pushes_ok; [done|cbn; lia].
Qed.

(** The kernel's data segments are loaded through [%ax]. *)
Lemma load_segs n v r q code s : 0 <= v < 2 ^ 16 -> seg r = true -> seg q = true -> r <> q ->
  exists x, exec (3 + n) (Movw (I v) EAX :: Movw (R EAX) r :: Movw (R EAX) q :: code) s =
    exec n code (setr q v (setr r v (setr EAX x s))).
Proof.
  intros Hv Hr Hq Hne. set (x := u32 (Z.shiftl (Z.shiftr (getr s EAX) 16) 16 + u16 (u32 v))). exists x.
  assert (Hx : u16 x = v) by (unfold x; rewrite (u32_small v) by lia; by apply movw_low).
  assert (Hw : forall r s0, seg r = true -> getr s0 EAX = x -> (v0 ← value (R EAX); rsetw r v0) s0 = Ok tt (setr r v s0)).
  { intros r0 s0 Hr0 E0. rewrite (bind_ok_l _ _ _ x s0) by (rewrite <- E0; reflexivity). unfold rsetw.
    rewrite (bind_ok_l _ _ _ (getr s0 r0) s0) by reflexivity. unfold rset, modify. rewrite Hr0, Hx. unfold u16. by rewrite Z.mod_small. }
  change (exec (3 + n) _ s) with (((v0 ← value (R EAX); rsetw r v0);; (v0 ← value (R EAX); rsetw q v0);; exec n code) (setr EAX x s)).
  assert (r <> EAX) by by intros ->.
  rewrite (bind_ok_l _ _ _ _ _ (Hw r (setr EAX x s) Hr ltac:(by gr))).
  rewrite (bind_ok_l _ _ _ _ _ (Hw q (setr r v (setr EAX x s)) Hq ltac:(by gr))). done.
Qed.

(** The rest of [alltraps], after [trap] has returned. *)
Definition after_trap k : M (@mach D) unit := v ← pop; rset EIP v;; exec k (Addl 4 ESP :: trapret).

Lemma trap_called k s : 8 <= getr s ESP < 2 ^ 32 ->
  exec (2 + k) (Pushl (R ESP) :: Call "trap" "after_trap" :: Addl 4 ESP :: trapret) s =
  (cfun (sym "trap");; after_trap k) (pushS [getr s ESP; sym "after_trap"] s).
Proof.
  intros H. set (K := exec k (Addl 4 ESP :: trapret)).
  change (exec (2 + k) _ s) with ((push (getr s ESP);; call sym cfun (sym "trap") "after_trap";; K) s).
  rewrite (bind_ok_l _ _ _ _ _ (pushS_one _ s ltac:(lia))). unfold call. rewrite bind_assoc.
  rewrite (bind_ok_l _ _ _ tt (pushS [sym "after_trap"] (pushS [getr s ESP] s))).
  2: { apply pushS_one. rewrite esp_pushS. cbn; lia. }
  rewrite pushS_app, bind_assoc. apply bind_ext; [done|]. intros [] s1. unfold after_trap. by rewrite bind_assoc.
Qed.

Lemma alltraps_calls k s : 56 <= getr s ESP < 2 ^ 32 -> exists s1,
  exec (13 + k) alltraps s = (cfun (sym "trap");; after_trap k) s1 /\
  ram s1 = stack (ram s) (getr s ESP) (alltraps_words s ++ [getr s ESP - 48; sym "after_trap"]) /\
  getr s1 ESP = getr s ESP - 56 /\
  getr s1 DS = 16 /\ getr s1 ES = 16 /\ getr s1 FS = 24 /\ getr s1 GS = 24 /\
  (forall r, r ∈ [CS; SS; EFLAGS; CR0; CR3; CR4] -> getr s1 r = getr s r).
Proof.
  intros H.
  change (exec (13 + k) alltraps s) with (exec (length [DS; ES; FS; GS] + (9 + k)) (map (fun r => Pushl (R r)) [DS; ES; FS; GS] ++
    Pushal :: Movw (I 16) EAX :: Movw (R EAX) DS :: Movw (R EAX) ES :: Movw (I 24) EAX :: Movw (R EAX) FS :: Movw (R EAX) GS ::
    Pushl (R ESP) :: Call "trap" "after_trap" :: Addl 4 ESP :: trapret) s).
  rewrite exec_pushes by first [done | cbn; lia | dec_regs]. set (l1 := getr s <$> _).
  assert (H1 : getr (pushS l1 s) ESP = getr s ESP - 16) by by rewrite esp_pushS.
  change (9 + k)%nat with (S (8 + k)). rewrite exec_pushal by lia. rewrite pushS_app.
  replace (l1 ++ _) with (alltraps_words s).
  2: { unfold fmap, list_fmap. rewrite H1, !getr_pushS by done. reflexivity. }
  destruct (load_segs (5 + k) 16 DS ES (Movw (I 24) EAX :: Movw (R EAX) FS :: Movw (R EAX) GS ::
    Pushl (R ESP) :: Call "trap" "after_trap" :: Addl 4 ESP :: trapret) (pushS (alltraps_words s) s)) as [x E]; [lia|done..|].
  change (8 + k)%nat with (3 + (5 + k))%nat. rewrite E. clear E. set (s2 := setr ES _ _).
  destruct (load_segs (2 + k) 24 FS GS (Pushl (R ESP) :: Call "trap" "after_trap" :: Addl 4 ESP :: trapret) s2)
    as [y E]; [lia|done..|].
  change (5 + k)%nat with (3 + (2 + k))%nat. rewrite E. clear E. set (s3 := setr GS _ _).
  assert (E3 : getr s3 ESP = getr s ESP - 48) by (unfold s3, s2; gr; by rewrite esp_pushS).
  exists (pushS [getr s ESP - 48; sym "after_trap"] s3). split_and!.
  - rewrite trap_called by lia. by rewrite E3.
  - unfold pushS at 1. cbn [ram setr set_ram]. rewrite E3, <- stack_app. done.
  - rewrite esp_pushS, E3. cbn; lia.
  - rewrite getr_pushS by done. unfold s3, s2. by gr.
  - rewrite getr_pushS by done. unfold s3, s2. by gr.
  - rewrite getr_pushS by done. unfold s3, s2. by gr.
  - rewrite getr_pushS by done. unfold s3, s2. by gr.
  - intros r Hr. set_unfold in Hr. rewrite getr_pushS by (intros ->; naive_solver). unfold s3, s2.
    destruct_or? Hr; subst r; gr; by rewrite getr_pushS.
Qed.

(** ** Entering the kernel *)

Context (vectors : nat -> Z) (Hvec : forall i, 0 <= vectors i < 2 ^ 32).
Context (idt0 : list gatedesc) (Hidt : length idt0 = 256%nat) (ss0 esp0 : Z).
Local Abbreviation deliver := (deliver (idt vectors idt0) ss0 esp0).

(** The code was in ring 3. *)
Definition user s : bool := getr s CS .& 3 =? 3.
(** Where the frame is built: the stack of the task state, or the current one. *)
Definition base s : Z := if user s then esp0 else getr s ESP.

(** What the processor pushes. *)
Definition hw_words s (err : option Z) : list Z :=
  (if user s then [getr s SS; getr s ESP] else []) ++ [getr s EFLAGS; getr s CS; getr s EIP] ++ match err with Some e => [e] | None => [] end.

Record can_trap s : Prop := {
  ct_regs : regs_wf s;
  ct_mem : mem_wf (ram s);
  ct_ring : getr s CS .& 3 = 3 \/ getr s CS .& 3 = 0;
  ct_room : 84 <= base s < 2 ^ 32 - 8;
  ct_ss0 : 0 <= ss0 < 2 ^ 16
}.

Lemma switch_stack s (l := if user s then [getr s SS; getr s ESP] else []) : can_trap s ->
  exists s1, when (8 .& 3 <? getr s CS .& 3) (rset ESP esp0;; rset SS ss0;; pushes [getr s SS; getr s ESP]) s = Ok tt s1 /\
  ram s1 = stack (ram s) (base s) l /\ getr s1 ESP = base s - 4 * Z.of_nat (length l) /\
  getr s1 SS = (if user s then ss0 else getr s SS) /\
  (forall r, r <> ESP -> r <> SS -> getr s1 r = getr s r).
Proof.
  intros [Hr Hm Hring Hroom Hss]. unfold l, user, base, user in *. destruct Hring as [E|E]; rewrite E in *; cbn in Hroom.
  - change (when _ ?m) with m. set (s1 := setr SS (u16 ss0) (setr ESP (u32 esp0) s)).
    assert (E1 : getr s1 ESP = esp0) by (unfold s1; rewrite getr_setr, decide_False, getr_setr, decide_True, u32_small by (done || lia); done).
    exists (pushS [getr s SS; getr s ESP] s1). split_and!.
    + change (pushes [getr s SS; getr s ESP] s1 = Ok tt (pushS [getr s SS; getr s ESP] s1)). apply pushes_ok; [done|rewrite E1; cbn; lia].
    + unfold pushS. cbn [ram setr set_ram]. by rewrite E1.
    + by rewrite esp_pushS, E1.
    + rewrite getr_pushS by done. unfold s1. rewrite getr_setr, decide_True by done. by apply Z.mod_small.
    + intros r H1 H2. rewrite getr_pushS by done. unfold s1. by rewrite !getr_setr, !decide_False by done.
  - exists s. split_and!; try done. cbn. lia.
Qed.

Lemma deliver_ok s n err : can_trap s -> (n < 256)%nat -> exists s1, deliver n err s = Ok tt s1 /\
  ram s1 = stack (ram s) (base s) (hw_words s err) /\ getr s1 ESP = base s - 4 * Z.of_nat (length (hw_words s err)) /\
  getr s1 CS = 8 /\ getr s1 EIP = vectors n /\ getr s1 SS = (if user s then ss0 else getr s SS) /\
  (n <> T_SYSCALL -> getr s1 EFLAGS .& FL_IF = 0) /\
  (forall r, r ∉ [ESP; SS; CS; EIP; EFLAGS] -> getr s1 r = getr s r).
Proof.
  intros Hct Hn. destruct (idt_entry vectors Hvec idt0 Hidt n Hn) as (w & E & Ho & Hs & Ht & Hd & Hp).
  destruct (switch_stack s Hct) as (sA & EA & Hram & Hesp & Hss & Hoth). destruct Hct as [Hr Hm Hring Hroom Hss0].
  unfold Trapasm.deliver. rewrite E, Hp. cbn [negb]. rewrite (bind_ok_l _ _ _ s s) by done.
  rewrite Hs, (bind_ok_l _ _ _ _ _ EA). set (l2 := [getr s EFLAGS; _; _] ++ _).
  assert (Hl2 : hw_words s err = (if user s then [getr s SS; getr s ESP] else []) ++ l2) by done.
  assert (Hlen : (length l2 <= 4 /\ 3 <= length l2)%nat) by (unfold l2; destruct err; cbn; lia).
  rewrite (bind_ok_l _ _ _ tt (pushS l2 sA)).
  2: { apply pushes_ok; [by destruct l2; cbn in Hlen; [lia|]|]. rewrite Hesp. destruct (user s); cbn [length]; lia. }
  eexists. split; [reflexivity|]. rewrite Ho, Ht. split_and!.
  - cbn [ram setr pushS set_ram]. rewrite Hram, Hesp, stack_app. by rewrite Hl2.
  - gr. rewrite esp_pushS, Hesp, Hl2, length_app. lia.
  - by gr.
  - gr. by apply u32_small.
  - gr. by rewrite getr_pushS.
  - intros Hne. gr. rewrite decide_False by done. change (STS_IG32 =? STS_IG32) with true. apply clear_IF.
  - intros r Hr'. repeat (apply not_elem_of_cons in Hr' as [? Hr']). gr. rewrite getr_pushS by done. by apply Hoth.
Qed.

(** ** The trap frame *)

(** The registers the frame of [s] has: the stack only when the ring changes. *)
Definition saved s : list reg := frame_regs ++ if user s then [ESP; SS] else [].

(** What the processor, [vector n] and [alltraps] push; [o] is the useless [oesp]. *)
Definition frame_words s (n : nat) (e o : Z) : list Z :=
  (if user s then [getr s SS; getr s ESP] else []) ++ [getr s EFLAGS; getr s CS; getr s EIP; e; Z.of_nat n]
  ++ (getr s <$> [DS; ES; FS; GS; EAX; ECX; EDX; EBX]) ++ [o] ++ (getr s <$> [EBP; ESI; EDI]).

(** The address of the frame. *)
Definition tf_of s : Z := base s - if user s then 76 else 68.

Lemma frame_built s n e o m : regs_wf s -> (n < 256)%nat -> 0 <= e < 2 ^ 32 -> 0 <= o < 2 ^ 32 ->
  (forall a, tf_of s <= a < base s -> rd8 m a = rd8 (stack (ram s) (base s) (frame_words s n e o)) a) ->
  (forall r, r ∈ saved s -> tf_reg (frame_at m (tf_of s)) r = getr s r) /\
  t_trapno (frame_at m (tf_of s)) = Z.of_nat n /\ t_err (frame_at m (tf_of s)) = e.
Proof.
  intros Hr Hn He Ho Hm. set (l := frame_words s n e o) in *.
  assert (Hl : tf_of s = base s - 4 * Z.of_nat (length l)) by (unfold l, tf_of, frame_words; by destruct (user s)).
  assert (Hw : Forall (fun v => 0 <= v < 2 ^ 32) l).
  { unfold l, frame_words. destruct (user s); cbn [app fmap list_fmap];
      repeat (apply Forall_cons; split; [first [by apply regs_wf_word | lia]|]); apply Forall_nil_2. }
  assert (Hk : forall i v, reverse l !! i = Some v -> rd32 m (tf_of s + 4 * Z.of_nat i) = v).
  { intros i v Hi. pose proof (lookup_lt_Some _ _ _ Hi) as Hlt. rewrite length_reverse in Hlt.
    rewrite Hl, <- (stack_lookup_rev l (ram s) (base s) i v Hw Hi). apply rd32_ext. intros b Hb. apply Hm. lia. }
  assert (Hseg : forall r, seg r = true -> u16 (getr s r) = getr s r).
  { intros r Hs. rewrite <- (fit_id s r Hr) at 2. unfold fit. by rewrite Hs. }
  assert (Hf : frame_at m (tf_of s) = MkTf (getr s EDI) (getr s ESI) (getr s EBP) o (getr s EBX) (getr s EDX) (getr s ECX)
    (getr s EAX) (getr s GS) (getr s FS) (getr s ES) (getr s DS) (Z.of_nat n) e (getr s EIP) (getr s CS) (getr s EFLAGS)
    (rd32 m (tf_of s + 68)) (u16 (rd32 m (tf_of s + 72)))).
  { unfold frame_at.
    assert (Hl' : forall i v, ([getr s EDI; getr s ESI; getr s EBP; o; getr s EBX; getr s EDX; getr s ECX; getr s EAX; getr s GS;
      getr s FS; getr s ES; getr s DS; Z.of_nat n; e; getr s EIP; getr s CS; getr s EFLAGS]) !! i = Some v ->
      rd32 m (tf_of s + 4 * Z.of_nat i) = v).
    { intros i v Hi. apply Hk. unfold l, frame_words.
      destruct (user s); cbn [app fmap list_fmap reverse rev_append]; [exact (lookup_app_l_Some _ [getr s ESP; getr s SS] _ _ Hi)|done]. }
    f_equal.
    1: by apply (Hl' 0%nat). 1: by apply (Hl' 1%nat). 1: by apply (Hl' 2%nat). 1: by apply (Hl' 3%nat).
    1: by apply (Hl' 4%nat). 1: by apply (Hl' 5%nat). 1: by apply (Hl' 6%nat). 1: by apply (Hl' 7%nat).
    1: rewrite <- (Hseg GS) by done; f_equal; by apply (Hl' 8%nat).
    1: rewrite <- (Hseg FS) by done; f_equal; by apply (Hl' 9%nat).
    1: rewrite <- (Hseg ES) by done; f_equal; by apply (Hl' 10%nat).
    1: rewrite <- (Hseg DS) by done; f_equal; by apply (Hl' 11%nat).
    1: by apply (Hl' 12%nat). 1: by apply (Hl' 13%nat). 1: by apply (Hl' 14%nat).
    1: rewrite <- (Hseg CS) by done; f_equal; by apply (Hl' 15%nat).
    1: by apply (Hl' 16%nat). }
  rewrite Hf. split; [|done]. intros r Hs. unfold saved in Hs. apply elem_of_app in Hs as [Hs|Hs].
  { unfold frame_regs in Hs. set_unfold in Hs. destruct_or? Hs; by subst r. }
  destruct (user s) eqn:Hu; [|by apply not_elem_of_nil in Hs]. set_unfold in Hs. destruct_or? Hs; subst r; cbn [tf_reg t_esp t_ss].
  - apply (Hk 17%nat). unfold l, frame_words. by rewrite Hu.
  - rewrite <- Hseg by done. f_equal. apply (Hk 18%nat). unfold l, frame_words. by rewrite Hu.
Qed.

(** [after_trap] drops the argument and runs [trapret] on the frame. *)
Lemma after_trap_runs k s : 0 <= getr s ESP -> getr s ESP + 8 < 2 ^ 32 -> exists s1,
  after_trap (8 + k) s = exec (7 + k) trapret s1 /\ ram s1 = ram s /\ getr s1 ESP = getr s ESP + 8 /\
  (forall r, r ∈ [CS; SS; CR0; CR3; CR4] -> getr s1 r = getr s r).
Proof.
  intros H0 H1. unfold after_trap. rewrite (bind_ok_l _ _ _ _ _ (pop_ok s ltac:(lia) ltac:(lia))).
  set (s1 := setr EIP (u32 (rd32 (ram s) (getr s ESP))) (setr ESP (getr s ESP + 4) s)).
  rewrite (bind_ok_l _ _ _ tt s1) by done.
  assert (E1 : getr s1 ESP = getr s ESP + 4) by (unfold s1; by gr).
  exists (setr ESP (getr s ESP + 8) s1). split_and!; [|done|by gr|].
  - change (8 + k)%nat with (S (7 + k)). rewrite exec_addl, E1. unfold fit; cbn [seg].
    rewrite u32_small by lia. by replace (getr s ESP + 4 + 4) with (getr s ESP + 8) by lia.
  - intros r Hr. assert (r <> ESP /\ r <> EIP) as [??] by (clear -Hr; revert r Hr; apply Forall_forall; dec_regs).
    gr. unfold s1. by gr.
Qed.

(** An interrupt with vector [n], from the processor's part to the [iret]; at
    most 24 instructions run.  [e]: the error code, for the exceptions with one. *)
Definition interrupt (n : nat) (e : Z) : M (@mach D) unit :=
  deliver n (if has_errcode n then Some e else None);; exec 24 (vector n).

Lemma vector_fuel n : exists k, 24%nat = (length (vector n) + (13 + (8 + k)))%nat.
Proof. unfold vector. rewrite vector_errcode. destruct (has_errcode n); [by exists 1%nat | by exists 0%nat]. Qed.

(** The entry up to the call of [trap]. *)
Lemma trap_enters s n e : can_trap s -> (n < 256)%nat -> 0 <= e < 2 ^ 32 -> exists s1 k o,
  interrupt n e s = (cfun (sym "trap");; after_trap (8 + k)) s1 /\ 0 <= o < 2 ^ 32 /\
  ram s1 = stack (ram s) (base s) (frame_words s n (if has_errcode n then e else 0) o ++ [tf_of s; sym "after_trap"]) /\
  getr s1 ESP = tf_of s - 8 /\ getr s1 CS = 8 /\ getr s1 SS = (if user s then ss0 else getr s SS) /\
  getr s1 DS = 16 /\ getr s1 ES = 16 /\ getr s1 FS = 24 /\ getr s1 GS = 24 /\
  (n <> T_SYSCALL -> getr s1 EFLAGS .& FL_IF = 0) /\
  (forall r, r ∈ [CR0; CR3; CR4] -> getr s1 r = getr s r).
Proof.
  intros Hct Hn He. destruct (deliver_ok s n (if has_errcode n then Some e else None) Hct Hn)
    as (s1 & E1 & Hram & Hesp & Hcs & _ & Hss & Hif & Hoth). destruct Hct as [Hr Hm Hring Hroom Hss0].
  unfold interrupt. rewrite (bind_ok_l _ _ _ _ _ E1). set (errO := if has_errcode n then Some e else None) in *.
  assert (Hlen : 4 * Z.of_nat (length (hw_words s errO)) <= 24) by (unfold hw_words, errO; destruct (user s), (has_errcode n); cbn; lia).
  destruct (vector_fuel n) as [k Hk]. rewrite Hk, vector_runs by (done || lia).
  set (s2 := pushS (vector_words n) s1).
  assert (Hw : hw_words s errO ++ vector_words n = (if user s then [getr s SS; getr s ESP] else [])
    ++ [getr s EFLAGS; getr s CS; getr s EIP; if has_errcode n then e else 0; Z.of_nat n])
    by (unfold hw_words, vector_words, errO; by destruct (user s), (has_errcode n)).
  assert (E2 : getr s2 ESP = tf_of s + 48).
  { unfold s2. rewrite esp_pushS, Hesp. unfold tf_of, hw_words, vector_words, errO. destruct (user s), (has_errcode n); cbn [length app]; lia. }
  assert (Hbase : 68 <= tf_of s + 60 < 2 ^ 32) by (unfold tf_of; destruct (user s); lia).
  destruct (alltraps_calls (8 + k) s2 ltac:(lia)) as (s3 & E3 & R3 & P3 & D3 & ES3 & F3 & G3 & Ho3).
  exists s3, k, (getr s2 ESP - 16). split; [done|]. rewrite E2 in *.
  assert (Hr2 : forall r, r ∉ [ESP; SS; CS; EIP; EFLAGS] -> getr s2 r = getr s r).
  { intros r Hr'. unfold s2. rewrite getr_pushS by (intros ->; apply Hr'; dec_regs). by apply Hoth. }
  split; [lia|]. split.
  - assert (R2 : ram s2 = stack (ram s) (base s) (hw_words s errO ++ vector_words n)).
    { rewrite <- stack_app, <- Hram, <- Hesp. reflexivity. }
    assert (Hsp : tf_of s + 48 = base s - 4 * Z.of_nat (length (hw_words s errO ++ vector_words n))).
    { rewrite Hw. unfold tf_of. destruct (user s); cbn [length app]; lia. }
    assert (Ha : alltraps_words s2 = (getr s <$> [DS; ES; FS; GS; EAX; ECX; EDX; EBX]) ++ [tf_of s + 48 - 16] ++ (getr s <$> [EBP; ESI; EDI])).
    { unfold alltraps_words. rewrite E2. f_equal; [|f_equal]; apply list_fmap_ext; intros i r Hi; apply Hr2;
        apply list_elem_of_lookup_2 in Hi; clear -Hi; revert r Hi; apply Forall_forall; dec_regs. }
    rewrite R3, R2, Hsp at 1. rewrite stack_app, Hw, Ha. unfold frame_words. rewrite <- !app_assoc.
    by replace (tf_of s + 48 - 48) with (tf_of s) by lia.
  - rewrite P3. split; [lia|]. rewrite !Ho3 by dec_regs. unfold s2. rewrite !getr_pushS by done.
    split_and!; [exact Hcs|exact Hss|exact D3|exact ES3|exact F3|exact G3| |].
    { intros Hne. rewrite (Ho3 EFLAGS) by dec_regs. unfold s2. rewrite getr_pushS by done. by apply Hif. }
    intros r Hr'. rewrite Ho3 by (clear -Hr'; revert r Hr'; apply Forall_forall; dec_regs).
    apply Hr2. clear -Hr'. revert r Hr'. apply Forall_forall. dec_regs.
Qed.

(** The argument of [trap]. *)
Lemma frame_pointer s n e o tf m ra : tf = base s - 4 * Z.of_nat (length (frame_words s n e o)) -> 0 <= tf < 2 ^ 32 ->
  rd32 (stack m (base s) (frame_words s n e o ++ [tf; ra])) (tf - 8 + 4) = tf.
Proof.
  intros Htf Hr. rewrite <- stack_app, <- Htf. cbn [stack].
  rewrite rd32_wr32_ne by lia. replace (tf - 8 + 4) with (tf - 4) by lia. by apply rd32_wr32_eq.
Qed.

(** The return from [trap], which left [s2]. *)
Lemma trap_leaves s s1 s2 k (f := frame_at (ram s2) (tf_of s)) : can_trap s ->
  getr s1 ESP = tf_of s - 8 -> getr s1 CS = 8 -> getr s1 SS = (if user s then ss0 else getr s SS) ->
  (forall r, r ∈ [CR0; CR3; CR4] -> getr s1 r = getr s r) -> mem_wf (ram s2) ->
  (forall r, r ∈ [ESP; CS; SS; CR0; CR3; CR4] -> getr s2 r = getr s1 r) -> t_cs f .& 3 = getr s CS .& 3 ->
  exists s3, after_trap (8 + k) s2 = Ok tt s3 /\ ram s3 = ram s2 /\
    forall r, getr s3 r = if decide (r ∈ saved s) then tf_reg f r else getr s r.
Proof.
  intros [Hr Hm Hring Hroom Hss0] P1 C1 S1 CR1 Hm2 Hk Hcs.
  assert (Hbase : base s = tf_of s + if user s then 76 else 68) by (unfold tf_of; lia).
  assert (P2 : getr s2 ESP = tf_of s - 8) by (rewrite Hk by dec_regs; done).
  destruct (after_trap_runs k s2) as (s4 & E4 & R4 & P4 & H4); [destruct (user s); lia..|].
  replace (getr s2 ESP + 8) with (tf_of s) in P4 by lia.
  destruct (trapret_runs k s4) as (s3 & E3 & R3 & F3 & K3 & SP3); rewrite ?P4.
  { destruct (user s); lia. } { destruct (user s); lia. } { rewrite H4, Hk, C1 by dec_regs. done. }
  { by rewrite R4. } { rewrite R4. fold f. by rewrite Hcs. }
  rewrite P4, R4 in *. fold f in F3, SP3. exists s3. split; [by rewrite E4|]. split; [done|].
  intros r. destruct (decide (r ∈ frame_regs)) as [Hf|Hf].
  { rewrite decide_True by (by apply elem_of_app; left). by apply F3. }
  assert (Hu : user s = (t_cs f .& 3 =? 3)) by (unfold user; by rewrite Hcs). unfold saved. rewrite Hu in *.
  destruct r; try (exfalso; apply Hf; dec_regs);
    [| |rewrite decide_False by (destruct (_ =? 3); dec_regs); rewrite K3, H4, Hk, CR1 by dec_regs; done..].
  all: destruct (t_cs f .& 3 =? 3); destruct SP3 as [SP3 SS3].
  1, 3: rewrite decide_True by dec_regs; done.
  - rewrite decide_False by dec_regs. rewrite SP3. unfold base in Hbase. rewrite Hu in Hbase. lia.
  - rewrite decide_False by dec_regs. rewrite SS3, H4, Hk by dec_regs. done.
Qed.

(** C9: An interrupt, exception or system call, in user or kernel mode, with any
    of the 256 vectors, calls [trap] with a pointer to a [struct trapframe] on the
    kernel stack that holds the vector, the error code (0 when the processor
    has none) and the registers of the interrupted code, in the kernel's
    segments and with interrupts off unless it is a system call; nothing else
    is written.  When [trap] returns, with its stack as it found it, the code
    continues with the registers in the frame: with its own if [trap] left the
    frame alone, and with those [trap] stored there otherwise. *)
Theorem trap_returns s n e : can_trap s -> (n < 256)%nat -> 0 <= e < 2 ^ 32 -> exists s1,
  mem_wf (ram s1) /\ rd32 (ram s1) (getr s1 ESP + 4) = tf_of s /\ getr s1 ESP = tf_of s - 8 /\
  t_trapno (frame_at (ram s1) (tf_of s)) = Z.of_nat n /\
  t_err (frame_at (ram s1) (tf_of s)) = (if has_errcode n then e else 0) /\
  (forall r, r ∈ saved s -> tf_reg (frame_at (ram s1) (tf_of s)) r = getr s r) /\
  (forall a, a < tf_of s - 8 \/ base s <= a -> rd8 (ram s1) a = rd8 (ram s) a) /\
  getr s1 DS = 16 /\ getr s1 ES = 16 /\ getr s1 FS = 24 /\ getr s1 GS = 24 /\
  (n <> T_SYSCALL -> getr s1 EFLAGS .& FL_IF = 0) /\
  forall s2 (f := frame_at (ram s2) (tf_of s)), cfun (sym "trap") s1 = Ok tt s2 ->
    mem_wf (ram s2) -> (forall r, r ∈ [ESP; CS; SS; CR0; CR3; CR4] -> getr s2 r = getr s1 r) ->
    t_cs f .& 3 = getr s CS .& 3 ->
    exists s3, interrupt n e s = Ok tt s3 /\ ram s3 = ram s2 /\
      forall r, getr s3 r = if decide (r ∈ saved s) then tf_reg f r else getr s r.
Proof.
  intros Hct Hn He. destruct (trap_enters s n e Hct Hn He)
    as (s1 & k & o & E1 & Ho & R1 & P1 & C1 & S1 & D1 & ES1 & F1 & G1 & I1 & CR1).
  exists s1. set (tf := tf_of s) in *. set (e' := if has_errcode n then e else 0) in *.
  assert (He' : 0 <= e' < 2 ^ 32) by (unfold e'; destruct (has_errcode n); lia).
  pose proof Hct as [Hr Hm Hring Hroom Hss0].
  assert (Htf : tf = base s - 4 * Z.of_nat (length (frame_words s n e' o)))
    by (unfold tf, tf_of, frame_words; by destruct (user s)).
  assert (Hin : forall a, tf <= a -> rd8 (ram s1) a = rd8 (stack (ram s) (base s) (frame_words s n e' o)) a).
  { intros a Ha. rewrite R1, <- stack_app, <- Htf. apply stack_outside. lia. }
  destruct (frame_built s n e' o (ram s1) Hr Hn He' Ho) as (B1 & B2 & B3);
    [intros a [Ha _]; by apply Hin|].
  split; [rewrite R1; by apply mem_wf_stack|].
  split. { rewrite P1, R1. apply frame_pointer; [done|unfold tf, tf_of; destruct (user s); lia]. }
  split; [exact P1|]. split; [exact B2|]. split; [exact B3|]. split; [exact B1|].
  split. { intros a Ha. rewrite R1. apply stack_outside. rewrite length_app. cbn [length]. lia. }
  do 5 (split; [assumption|]). intros s2 f E2 Hm2 Hk Hcs.
  destruct (trap_leaves s s1 s2 k Hct P1 C1 S1 CR1 Hm2 Hk Hcs) as (s3 & E3 & R3 & H3). exists s3.
  split; [|split; [exact R3|exact H3] ]. rewrite E1, (bind_ok_l _ _ _ _ _ E2). exact E3.
Qed.
End run.

(** ** A system call *)

Module TrapEx.
Definition vectors (i : nat) : Z := 0x80105000 + Z.of_nat i mod 256 * 8.
Definition idt0 : list gatedesc := replicate 256 (MkGate 0 0 0 0 0 0 0 0 0).
(** A user program makes a system call; [trap] stores 42 as its result. *)
Definition s : @mach unit :=
  MkMach (AsmEx.regs_of [(ESP, 0x3000); (EIP, 0x10); (EAX, 11); (EBX, 7); (CS, 27); (SS, 35); (DS, 35); (ES, 35); (EFLAGS, 0x202)]) ∅ tt (0, 0).
Definition trap (_ : Z) : M (@mach unit) unit :=
  modify (fun s => set_ram (wr32 (ram s) (rd32 (ram s) (getr s ESP + 4) + 28) 42) s).

Lemma vectors_range i : 0 <= vectors i < 2 ^ 32.
Proof. unfold vectors. pose proof (Z.mod_pos_bound (Z.of_nat i) 256 ltac:(lia)). lia. Qed.

Lemma s_can_trap : can_trap 16 0xf000 s.
Proof.
  split; [by apply AsmEx.regs_of_wf|apply mem_wf_empty|by left| |lia].
  change (base 0xf000 s) with 0xf000. lia.
Qed.
End TrapEx.

Lemma tvinit_correct_witness :
  int (idt TrapEx.vectors TrapEx.idt0) 16 0xf000 0xe 13 TrapEx.s =
  deliver (idt TrapEx.vectors TrapEx.idt0) 16 0xf000 13 (Some 106) (setr EIP 0xe TrapEx.s).
Proof.
  destruct (tvinit_correct (D := unit) TrapEx.vectors TrapEx.vectors_range TrapEx.idt0 eq_refl 16 0xf000 13 ltac:(lia))
    as (w & _ & _ & _ & _ & _ & H & _).
  exact (H TrapEx.s 0xe eq_refl).
Defined.

Lemma trap_returns_witness : exists s3,
  interrupt AsmEx.nosym TrapEx.trap TrapEx.vectors TrapEx.idt0 16 0xf000 64 0 TrapEx.s = Ok tt s3 /\ getr s3 EAX = 42 /\ getr s3 EBX = 7.
Proof.
  destruct (trap_returns AsmEx.nosym TrapEx.trap TrapEx.vectors TrapEx.vectors_range TrapEx.idt0 eq_refl 16 0xf000 TrapEx.s 64 0
    TrapEx.s_can_trap ltac:(lia) ltac:(lia)) as (s1 & Hm & Htf & _ & _ & _ & Hregs & _ & _ & _ & _ & _ & _ & H).
  destruct (H (set_ram (wr32 (ram s1) (tf_of 0xf000 TrapEx.s + 28) 42) s1)) as (s3 & E3 & _ & H3).
  - unfold TrapEx.trap, modify. rewrite Htf. reflexivity.
  - apply mem_wf_wr32. exact Hm.
  - intros r _. reflexivity.
  - rewrite <- (Hregs CS) by dec_regs. unfold tf_reg, frame_at, t_cs. simpl (ram _). rewrite rd32_wr32_ne by lia. reflexivity.
  - exists s3. split; [exact E3|]. split.
    + rewrite (H3 EAX), decide_True by dec_regs. unfold tf_reg, frame_at, t_eax. simpl (ram _). apply rd32_wr32_eq. lia.
    + rewrite (H3 EBX), decide_True by dec_regs. change 7 with (getr TrapEx.s EBX). rewrite <- (Hregs EBX) by dec_regs.
      unfold tf_reg, frame_at, t_ebx. simpl (ram _). apply rd32_wr32_ne. lia.
Defined.
