(* ===== verification/Newproc.v ===== *)
(** * The first run of a process

    The stack [allocproc] prepares and the frame [fork] copies, run by the
    code of swtch.S and trapasm.S: the scheduler's switch enters [forkret],
    whose return enters [trapret], which loads the frame. *)

From S2P Require Import Prelude Memory Layout Cstring Spinlock Kalloc Vm VmSpec Uvm UvmSpec Proc ProcSpec Pipe Block Log Fs FsTx FsSpec File Kern KernRun KernArg Fork Ulib Printf Dev X86 Trapasm AsmRun TrapasmSpec.

Import X86 Trapasm.

Section start.
Context {D : Type} `{!Machine D}.
Context (sym : string -> Z) (cfun : Z -> M (@mach D) unit).
Implicit Types m : @mach D.

(** From the entry of [forkret]: its return, and the code it returns to. *)
Definition first_run (k : nat) : M (@mach D) unit :=
  f ← rget EIP;
  cfun f;;
  v ← pop;
  rset EIP v;;
  exec sym text cfun (7 + k) trapret.

(** The frame at [tf] is loaded when the stack has [trapret] below it. *)
Lemma first_run_ok m1 m2 tf k (f := frame_at (ram m2) tf) :
  cfun (getr m1 EIP) m1 = Ok tt m2 -> mem_wf (ram m2) ->
  (forall r, r ∈ [ESP; CS; SS; CR0; CR3; CR4] -> getr m2 r = getr m1 r) ->
  getr m1 ESP = tf - 4 -> 4 <= tf -> tf + 76 < 2 ^ 32 -> getr m1 CS .& 3 = 0 -> t_cs f .& 3 = 3 ->
  exists m3, first_run k m1 = Ok tt m3 /\ ram m3 = ram m2 /\
    forall r, r ∈ frame_regs ++ [ESP; SS] -> getr m3 r = tf_reg f r.
Proof.
  intros E Hm Hk Hsp H4 Htf Hcs Hring. unfold first_run.
  rewrite (bind_ok_l _ _ _ (getr m1 EIP) m1) by done. rewrite (bind_ok_l _ _ _ _ _ E).
  assert (P2 : getr m2 ESP = tf - 4) by (rewrite Hk by dec_regs; done).
  rewrite (bind_ok_l _ _ _ _ _ (pop_ok m2 ltac:(lia) ltac:(lia))).
  set (m4 := setr EIP (u32 (rd32 (ram m2) (getr m2 ESP))) (setr ESP (getr m2 ESP + 4) m2)).
  rewrite (bind_ok_l _ _ _ tt m4) by done.
  assert (P4 : getr m4 ESP = tf) by (unfold m4; gr; lia).
  destruct (trapret_runs sym cfun k m4) as (m3 & E3 & R3 & F3 & _ & SP3); rewrite ?P4; try lia.
  { unfold m4. gr. rewrite Hk by dec_regs. done. } { done. } { left. exact Hring. }
  exists m3. split; [done|]. split; [done|]. rewrite P4 in *. change (ram m4) with (ram m2) in *. fold f in F3, SP3.
  rewrite Hring in SP3. destruct SP3 as [SP3 SS3].
  intros r [Hr|Hr]%elem_of_app; [by apply F3|]. set_unfold in Hr. destruct_or? Hr; by subst r.
Qed.
End start.

(** A frame that is a copy of another but for [eax], byte for byte. *)
Lemma frame_copied m m' a b : frame_copy m m' a b ->
  t_eax (frame_at m' a) = 0 /\ forall r, r ∈ frame_regs ++ [ESP; SS] -> r <> EAX ->
    tf_reg (frame_at m' a) r = tf_reg (frame_at m b) r.
Proof.
  unfold frame_copy, Kern.TF_EAX, Kern.sizeof_tf. intros [H0 Hc]. split; [exact H0|].
  assert (Hw : forall i, 0 <= i < 19 -> i <> 7 -> rd32 m' (a + 4 * i) = rd32 m (b + 4 * i)).
  { intros i Hi Hn. unfold rd32. rewrite <- !Z.add_assoc, !Hc by lia. done. }
  intros r Hr Hne. unfold frame_regs in Hr. set_unfold in Hr.
  destruct_or? Hr; subst r; try done; cbn [tf_reg frame_at t_ecx t_edx t_ebx t_ebp t_esi t_edi t_eip t_eflags t_cs t_ds t_es t_fs t_gs t_esp t_ss];
    rewrite Hw by lia; done.
Qed.

Lemma frame_copy_ext m1 m m' a b : (forall x, a <= x < a + Kern.sizeof_tf -> rd8 m' x = rd8 m1 x) ->
  frame_copy m m1 a b -> frame_copy m m' a b.
Proof.
  unfold frame_copy, Kern.TF_EAX, Kern.sizeof_tf. intros He [H0 Hc]. split.
  - rewrite <- H0. apply rd32_ext. intros x Hx. apply He. lia.
  - intros o Ho1 Ho2. rewrite He by lia. by apply Hc.
Qed.

Section child.
Context {S : Type} `{BD : BlockDev S}.
Context (kend kdata trapret_pc forkret_pc : Z).
Context {D : Type} `{!Machine D} (sym : string -> Z) (cfun : Z -> M (@mach D) unit).
#[local] Abbreviation exec := (exec sym text cfun).

(** The scheduler's machine [m] calls [swtch] to the context of [ch], on a stack
    of its own, with the child's stack in memory as [fork] left it. *)
Record scheduled (m : @mach D) (mm : mem) (ch : proc) (sp ra old : Z) : Prop := {
  sd_call : swtch_call m sp ra old (context ch);
  sd_ring : getr m CS .& 3 = 0;
  sd_stack : forall a, kstack ch <= a < kstack ch + PGSIZE -> rd8 (ram m) a = rd8 mm a;
  sd_apart : sp <= kstack ch \/ kstack ch + PGSIZE <= sp - 16;
  sd_old : old + 4 <= kstack ch \/ kstack ch + PGSIZE <= old
}.

(** [forkret] returns to its caller, its stack and the frame above as they were. *)
Record returned (m1 m2 : @mach D) (tf : Z) : Prop := {
  rt_mem : mem_wf (ram m2);
  rt_regs : forall r, r ∈ [ESP; CS; SS; CR0; CR3; CR4] -> getr m2 r = getr m1 r;
  rt_stack : forall a, tf - 4 <= a < tf + 76 -> rd8 (ram m2) a = rd8 (ram m1) a
}.

(** C15: The child of a successful [fork] returns 0 from it.  When the scheduler
    switches to it for the first time, [swtch] enters [forkret] on the child's
    stack, [forkret] returns to [trapret], and [trapret] puts it in user mode
    with the registers of its parent's trap frame, the stack and program counter
    included, except that [eax] is 0. *)
Theorem child_starts (s : Kern.kern (S := S)) i p tabs pgs l c s' j ch l' m sp ra old k :
  fork_pre kend kdata s i p tabs pgs l c ->
  forked kend kdata trapret_pc forkret_pc s i p tabs pgs l c s' j ch l' ->
  scheduled m (KernRun.kmem s') ch sp ra old ->
  t_cs (frame_at (KernRun.kmem s) (tf p)) .& 3 = 3 ->
  exists m1, exec (13 + k) swtch m = Ok tt m1 /\ getr m1 EIP = forkret_pc /\ rd32 (ram m1) (getr m1 ESP) = trapret_pc /\
  forall m2, cfun forkret_pc m1 = Ok tt m2 -> returned m1 m2 (tf ch) ->
  exists m3, first_run sym cfun k m1 = Ok tt m3 /\ getr m3 EAX = 0 /\
    forall r, r ∈ frame_regs ++ [ESP; SS] -> r <> EAX -> getr m3 r = tf_reg (frame_at (KernRun.kmem s) (tf p)) r.
Proof.
  intros Hpre Hf [Hcall Hring Hstk Hap Hold] Hcs.
  destruct (fk_frame _ _ _ _ _ _ _ _ _ _ _ _ _ _ _ Hf) as [Htf Hfc]. destruct (fk_stack _ _ _ _ _ _ _ _ _ _ _ _ _ _ _ Hf) as (Hctx & Htr & Hfr).
  assert (Hks : Kalloc.page_ok kend (kstack ch)).
  { destruct (fk_memory _ _ _ _ _ _ _ _ _ _ _ _ _ _ _ Hf) as (? & ? & _ & _ & _ & _ & Htk).
    destruct (proj2 (Htk (kstack ch)) (or_introl eq_refl)) as [Hin _]. eapply rep_page_ok; [|exact Hin]. apply Hpre. }
  destruct (page_range kend _ Hks) as [Hk0 Hk1]. unfold PGSIZE in *.
  destruct (swtch_runs sym cfun m sp ra old (context ch) k Hcall) as (m1 & E1 & _ & _ & Hout & Hregs & Hesp & Hoth & _).
  exists m1. split; [exact E1|]. rewrite Hctx in *. rewrite Htf in *. set (ks := kstack ch) in *.
  assert (Hkeep : forall a, ks + 3996 <= a < ks + 4096 -> rd8 (ram m1) a = rd8 (KernRun.kmem s') a).
  { intros a Ha. rewrite Hout by lia. apply Hstk. lia. }
  assert (Hip : getr m1 EIP = forkret_pc).
  { injection Hregs as _ _ _ _ ->. rewrite <- Hfr. replace (ks + 4012) with (ks + 3996 + 4 * 4) by lia. apply rd32_ext. intros b Hb. apply Hstk. lia. }
  assert (Htr1 : rd32 (ram m1) (getr m1 ESP) = trapret_pc).
  { rewrite Hesp, <- Htr. replace (ks + 3996 + 20) with (ks + 4016) by lia. apply rd32_ext. intros b Hb. apply Hkeep. lia. }
  split; [exact Hip|]. split; [exact Htr1|]. intros m2 E2 [Hm2 Hr2 Hs2].
  destruct (frame_copied (KernRun.kmem s) (ram m2) (ks + 4020) (tf p)) as [Heax Hcopy].
  { apply (frame_copy_ext (KernRun.kmem s')); [|exact Hfc]. intros a Ha. unfold Kern.sizeof_tf in Ha. rewrite Hs2 by lia. apply Hkeep. lia. }
  destruct (first_run_ok sym cfun m1 m2 (ks + 4020) k) as (m3 & E3 & _ & H3); [by rewrite Hip|done|done|lia|lia|lia| | |].
  { rewrite Hoth by dec_regs. exact Hring. }
  { change (t_cs ?f) with (tf_reg f CS). rewrite Hcopy by dec_regs. exact Hcs. }
  exists m3. split; [exact E3|]. split; [rewrite H3 by dec_regs; exact Heax|].
  intros r Hr Hne. rewrite H3 by done. by apply Hcopy.
Qed.
End child.

(** ** A first child *)

Module NewprocEx.
(** The process of [KernEx] with a user-mode frame calls [fork]. *)
Lemma forks : exists k d tabs pgs l s' j ch l',
  fork_pre UvmEx.kend UvmEx.kdata (KernEx.st k d) 0 (KernEx.proc d) tabs pgs l 0 /\
  forked UvmEx.kend UvmEx.kdata 0x80105000 0x80104000 (KernEx.st k d) 0 (KernEx.proc d) tabs pgs l 0 s' j ch l' /\
  t_cs (frame_at (KernRun.kmem (KernEx.st k d)) (tf (KernEx.proc d))) .& 3 = 3 /\ 0x80400000 <= kstack ch.
Proof.
  destruct UvmEx.first_space as (k0 & l & d & tabs & pgs & [Hr Ha Hap] & Hs & Hl & _ & _ & Hlo & Hfo).
  assert (Hks : Kalloc.page_ok UvmEx.kend 0x80110000) by by split_and!.
  destruct (in_page_st32 UvmEx.kend 0x80110000 l k0 (4020 + 60) 27 Hks) as (k & _ & [Ho Hr'] & Em); [intros Hx%Hlo; lia|lia|done|].
  specialize (Hr' Hr).
  destruct (outside_foot UvmEx.kend UvmEx.kdata _ _ _ _ _ _ Ha Ho) as [Ha' _]; [intros q ->; split; [done|by intros Hx%Hfo]|].
  pose proof (ForkEx.ready k l d tabs pgs Hr' Ha' Hap Hs Hlo) as Hpre.
  destruct (fork_runs UvmEx.kend UvmEx.kdata 0x80105000 0x80104000 ltac:(lia) ltac:(lia) UvmEx.uhkend UvmEx.uhkdata _ _ _ _ _ _ _ Hpre)
    as (r & s' & l' & _ & [(j & ch & -> & Hf)|(_ & _ & [Hno|Hlen])]).
  - exists k, d, tabs, pgs, l, s', j, ch, l'. split; [done|]. split; [done|]. split.
    + change (u16 (rd32 (Kalloc.kmem_mem k) (0x80110000 + (4020 + 60))) .& 3 = 3). by rewrite Em, rd32_wr32_eq.
    + destruct (fk_memory _ _ _ _ _ _ _ _ _ _ _ _ _ _ _ Hf) as (? & ? & _ & _ & _ & _ & Htk).
      apply Hlo. by destruct (proj2 (Htk (kstack ch)) (or_introl eq_refl)).
  - exfalso. by apply (Hno 1%nat proc0).
  - exfalso. change (PGROUNDUP (sz (KernEx.proc d)) / PGSIZE) with 1 in Hlen. lia.
Qed.

(** The scheduler, with memory [mm], calls [swtch(0x500, new)] at 0x2000. *)
Definition scheduler (mm : mem) (new : Z) : @mach unit :=
  MkMach (AsmEx.regs_of [(ESP, 0x2000); (CS, 8); (SS, 16)]) (stack mm 0x200c [new; 0x500; 0x1111]) tt (0, 0).

Lemma is_scheduled mm (ch : proc) : mem_wf mm -> context ch = kstack ch + 3996 -> 0x80400000 <= kstack ch < 2 ^ 32 - PGSIZE ->
  scheduled (scheduler mm (context ch)) mm ch 0x2000 0x1111 0x500.
Proof.
  unfold PGSIZE. intros Hm Hc Hk.
  assert (Hw : Forall (fun v => 0 <= v < 2 ^ 32) [context ch; 0x500; 0x1111]) by (repeat (apply Forall_cons; split; [lia|]); constructor).
  split; [|done| |unfold PGSIZE; lia..].
  - split; [by apply mem_wf_stack|by apply AsmEx.regs_of_wf|done| | | |lia..].
    + exact (stack_lookup_rev _ mm 0x200c 0 0x1111 Hw eq_refl).
    + exact (stack_lookup_rev _ mm 0x200c 1 0x500 Hw eq_refl).
    + exact (stack_lookup_rev _ mm 0x200c 2 _ Hw eq_refl).
  - intros a Ha. apply stack_outside. cbn [length]. lia.
Qed.
End NewprocEx.

Lemma child_starts_witness : exists m m3, first_run AsmEx.nosym AsmEx.nofun 0 m = Ok tt m3 /\ getr m3 EAX = 0.
Proof.
  destruct NewprocEx.forks as (k & d & tabs & pgs & l & s' & j & ch & l' & Hpre & Hf & Hcs & Hlo).
  assert (Hu : mem_wf (KernRun.kmem s') /\ context ch = kstack ch + 3996 /\ kstack ch < 2 ^ 32 - PGSIZE).
  { destruct (fk_memory _ _ _ _ _ _ _ _ _ _ _ _ _ _ _ Hf) as (tabsd & pgsd & Hu & _ & _ & _ & Htk).
    destruct (fk_stack _ _ _ _ _ _ _ _ _ _ _ _ _ _ _ Hf) as (Hctx & _). split; [apply Hu|]. split; [exact Hctx|].
    destruct (proj2 (Htk (kstack ch)) (or_introl eq_refl)) as [Hin _].
    destruct (page_range UvmEx.kend (kstack ch)) as [_ H]; [|lia]. exact (rep_page_ok _ _ _ _ (fp_free _ _ _ _ _ _ _ _ _ Hpre) Hin). }
  destruct Hu as (Hm & Hctx & Hhi).
  destruct (child_starts UvmEx.kend UvmEx.kdata 0x80105000 0x80104000 AsmEx.nosym AsmEx.nofun (KernEx.st k d) 0 (KernEx.proc d) tabs pgs l 0 s' j ch l'
    (NewprocEx.scheduler (KernRun.kmem s') (context ch)) 0x2000 0x1111 0x500 0 Hpre Hf
    (NewprocEx.is_scheduled _ ch Hm Hctx (conj Hlo Hhi)) Hcs) as (m1 & E1 & _ & _ & H).
  destruct (H m1 eq_refl) as (m3 & E3 & H3 & _).
  - split; [|intros r _; reflexivity|intros a _; reflexivity].
    destruct (swtch_runs AsmEx.nosym AsmEx.nofun _ _ _ _ _ 0 (sd_call _ _ _ _ _ _ (NewprocEx.is_scheduled _ ch Hm Hctx (conj Hlo Hhi))))
      as (m1' & E1' & _ & _ & _ & _ & _ & _ & Hw). rewrite E1' in E1. injection E1 as <-. exact Hw.
  - exists m1, m3. split; [exact E3|exact H3].
Defined.
