(* ===== verification/Mp.v ===== *)
(** * mp.c: the search for the multiprocessor tables

    The BIOS describes the processors in a table in memory.  [mpinit] finds it,
    checks it and walks its entries.  The theorems say what the walk computes,
    and that an entry of unknown type makes it run for ever. *)

From S2P Require Import Prelude Memory Layout Cstring Ulib Printf Dev.

Module Mp.

Definition NCPU : Z := 8.
Definition MPPROC : Z := 0x00.
Definition MPBUS : Z := 0x01.
Definition MPIOAPIC : Z := 0x02.
Definition MPIOINTR : Z := 0x03.
Definition MPLINTR : Z := 0x04.
Definition MPBOOT : Z := 0x02.

Definition rd16 (m : mem) (a : Z) : Z := rd8 m a + 2 ^ 8 * rd8 m (a + 1).

(** The fields of the structures of mp.h, by their offsets. *)
Definition sizeof_mp : Z := 16.
Definition mp_physaddr (m : mem) (p : Z) : Z := rd32 m (p + 4).
Definition mp_imcrp (m : mem) (p : Z) : Z := rd8 m (p + 12).
Definition sizeof_mpconf : Z := 44.
Definition conf_length (m : mem) (p : Z) : Z := rd16 m (p + 4).
Definition conf_version (m : mem) (p : Z) : Z := rd8 m (p + 6).
Definition conf_lapicaddr (m : mem) (p : Z) : Z := rd32 m (p + 36).
Definition sizeof_mpproc : Z := 20.
Definition proc_apicid (m : mem) (p : Z) : Z := rd8 m (p + 1).
Definition proc_flags (m : mem) (p : Z) : Z := rd8 m (p + 3).
Definition sizeof_mpioapic : Z := 8.
Definition ioapic_apicno (m : mem) (p : Z) : Z := rd8 m (p + 1).

(** [sum(addr, len)]: the bytes added up, as a byte. *)
Fixpoint sum_loop (m : mem) (addr : Z) (len : nat) (acc : Z) : Z :=
  match len with
  | O => acc
  | S len => sum_loop m (addr + 1) len (s32 (acc + rd8 m addr))
  end.
Definition sum (m : mem) (addr len : Z) : Z := u8 (sum_loop m addr (Z.to_nat len) 0).

(** [memcmp(p, sig, 4) == 0] *)
Definition signature (m : mem) (p : Z) (sig : string) : bool :=
  bool_decide ((fun i => rd8 m (p + i)) <$> seqZ 0 4 = bytes_of sig).

(** Look for an MP structure in the [len] bytes at [a]. *)
Fixpoint mpsearch1_loop (m : mem) (p e : Z) (n : nat) : option Z :=
  match n with
  | O => None
  | S n =>
      if p <? e then
        if signature m p "_MP_" && (sum m p sizeof_mp =? 0) then Some p else mpsearch1_loop m (p + sizeof_mp) e n
      else None
  end.
Definition mpsearch1 (m : mem) (a len : Z) : option Z :=
  let addr := p2v a in mpsearch1_loop m addr (addr + len) (Z.to_nat (len / sizeof_mp + 1)).

Definition mpsearch (m : mem) : option Z :=
  let bda := p2v 0x400 in
  let p := Z.shiftl (Z.shiftl (rd8 m (bda + 0x0F)) 8 .| rd8 m (bda + 0x0E)) 4 in
  let first :=
    if truthy p then mpsearch1 m p 1024
    else mpsearch1 m (u32 ((Z.shiftl (rd8 m (bda + 0x14)) 8 .| rd8 m (bda + 0x13)) * 1024 - 1024)) 1024 in
  match first with
  | Some mp => Some mp
  | None => mpsearch1 m 0xF0000 0x10000
  end.

(** [mpconfig(&mp)]: the configuration table and the structure that points to it. *)
Definition mpconfig (m : mem) : option (Z * Z) :=
  mp ← mpsearch m;
  if mp_physaddr m mp =? 0 then None else
  let conf := p2v (mp_physaddr m mp) in
  if negb (signature m conf "PCMP") then None else
  if negb (conf_version m conf =? 1) && negb (conf_version m conf =? 4) then None else
  if negb (sum m conf (conf_length m conf) =? 0) then None else
  Some (conf, mp).

Section mpinit.
Context {D : Type} `{!Machine D}.

(** The drivers' state, the ids of [cpus] and [bcpu]. *)
Record mps := MkMps { dev : @io D; cpus : list Z; bcpu : Z }.

Definition set_dev (x : io) (s : mps) : mps := MkMps x (cpus s) (bcpu s).
Definition set_cpus (x : list Z) (s : mps) : mps := MkMps (dev s) x (bcpu s).
Definition set_bcpu (x : Z) (s : mps) : mps := MkMps (dev s) (cpus s) x.
Definition on_dev {A} (m : M io A) : M mps A := zoom dev set_dev m.

(** [mpbcpu()] *)
Definition mpbcpu : M mps Z := gets bcpu.

Definition mp_say (fmt : string) (args : list Z) : M mps unit := on_dev (say (line_of fmt args)).

(** The case of a processor: [cpus] has [NCPU] entries. *)
Definition mpinit_proc (m : mem) (p : Z) : M mps unit :=
  n ← gets (fun s => ncpu (dev s));
  when (negb (n =? proc_apicid m p))
    (mp_say "mpinit: ncpu=%d apicid=%d" [u32 n; proc_apicid m p];; on_dev (modify (set_ismp false)));;
  when (truthy (proc_flags m p .& MPBOOT)) (modify (set_bcpu n));;
  c ← gets cpus;
  if n <? NCPU then
    modify (set_cpus (<[Z.to_nat n := n]> c));;
    on_dev (modify (set_ncpu (n + 1)))
  else fault.

(** The walk over the entries from [p] to [e], at most [fuel] turns. *)
Fixpoint mpinit_loop (m : mem) (fuel : nat) (p e : Z) : M mps unit :=
  match fuel with
  | O => nofuel
  | S fuel =>
      if negb (p <? e) then mret tt else
      let t := rd8 m p in
      if t =? MPPROC then mpinit_proc m p;; mpinit_loop m fuel (p + sizeof_mpproc) e
      else if t =? MPIOAPIC then on_dev (modify (set_ioapicid (ioapic_apicno m p)));; mpinit_loop m fuel (p + sizeof_mpioapic) e
      else if (t =? MPBUS) || (t =? MPIOINTR) || (t =? MPLINTR) then mpinit_loop m fuel (p + 8) e
      else
        mp_say "mpinit: unknown config type %x" [t];;
        on_dev (modify (set_ismp false));;
        mpinit_loop m fuel p e
  end.

Definition mpinit (fuel : nat) : M mps unit :=
  modify (set_bcpu 0);;
  m ← gets (fun s => ram (dev s));
  match mpconfig m with
  | None => mret tt
  | Some (conf, mp) =>
      on_dev (modify (set_ismp true));;
      on_dev (modify (set_lapic (conf_lapicaddr m conf)));;
      mpinit_loop m fuel (conf + sizeof_mpconf) (conf + conf_length m conf);;
      ok ← gets (fun s => ismp (dev s));
      if negb ok then
        on_dev (modify (set_ncpu 1));;
        on_dev (modify (set_lapic 0));;
        on_dev (modify (set_ioapicid 0))
      else
        when (truthy (mp_imcrp m mp)) (
          on_dev (outb 0x22 0x70);;
          v ← on_dev (inb 0x23);
          on_dev (outb 0x23 (v .| 1)))
  end.
End mpinit.

(** ** The table *)

(** An entry: a processor with its APIC id and flags, an I/O APIC with its id,
    or one of the three kinds that [mpinit] skips. *)
Inductive entry :=
| Processor (apicid flags : Z)
| IoApic (apicno : Z)
| Skipped (type : Z).

Definition size (e : entry) : Z := match e with Processor _ _ => sizeof_mpproc | IoApic _ => sizeof_mpioapic | Skipped _ => 8 end.

(** The entry is in memory at [p]. *)
Definition at_mem (m : mem) (p : Z) (e : entry) : Prop :=
  match e with
  | Processor a f => rd8 m p = MPPROC /\ proc_apicid m p = a /\ proc_flags m p = f
  | IoApic n => rd8 m p = MPIOAPIC /\ ioapic_apicno m p = n
  | Skipped t => rd8 m p = t /\ t ∈ [MPBUS; MPIOINTR; MPLINTR]
  end.

Fixpoint table (m : mem) (p : Z) (es : list entry) : Prop :=
  match es with
  | [] => True
  | e :: es => at_mem m p e /\ table m (p + size e) es
  end.

Definition total_size (es : list entry) : Z := foldr (fun e n => size e + n) 0 es.

(** What the table says: how many processors, whether they are numbered in
    order, the boot processor and the I/O APIC. *)
Record config := MkConfig { c_ncpu : Z; c_ordered : bool; c_boot : Z; c_ioapic : Z }.

Definition read_entry (c : config) (e : entry) : config :=
  match e with
  | Processor a f => MkConfig (c_ncpu c + 1) (c_ordered c && (c_ncpu c =? a)) (if truthy (f .& MPBOOT) then c_ncpu c else c_boot c) (c_ioapic c)
  | IoApic n => MkConfig (c_ncpu c) (c_ordered c) (c_boot c) n
  | Skipped _ => c
  end.
Definition read_table (c : config) (es : list entry) : config := foldl read_entry c es.

Section walk.
Context {D : Type} `{!Machine D}.

(** The state has read [c]: the first entries of [cpus] are numbered, and the
    local APIC is at [lap]. *)
Definition has_read (lap : Z) (s : @mps D) (c : config) : Prop :=
  lapic (dev s) = lap /\
  ncpu (dev s) = c_ncpu c /\ ismp (dev s) = c_ordered c /\ bcpu s = c_boot c /\ ioapicid (dev s) = c_ioapic c /\
  length (cpus s) = Z.to_nat NCPU /\ 0 <= c_ncpu c /\ (forall i, 0 <= i < c_ncpu c -> cpus s !! Z.to_nat i = Some i).

Lemma ncpu_grows c e : c_ncpu c <= c_ncpu (read_entry c e).
Proof. destruct e; cbn; lia. Qed.

Lemma read_table_grows c es : c_ncpu c <= c_ncpu (read_table c es).
Proof. revert c. induction es as [|e es IH]; intros c; [done|]. cbn. etransitivity; [apply (ncpu_grows c e)|apply IH]. Qed.

Lemma mpinit_proc_run lap m p a f s c : proc_apicid m p = a -> proc_flags m p = f -> has_read lap s c -> c_ncpu c < NCPU ->
  exists s', mpinit_proc m p s = Ok tt s' /\ has_read lap s' (read_entry c (Processor a f)).
Proof.
  intros Ha Hf (Hlap & Hn & Hm & Hb & Hi & Hl & H0 & Hc) Hlt. unfold mpinit_proc.
  rewrite (bind_ok_l _ _ _ _ _ (eq_refl : gets (fun s => ncpu (dev s)) s = Ok (ncpu (dev s)) s)), Ha, Hf, Hn. set (n := c_ncpu c) in *.
  set (txt := line_of "mpinit: ncpu=%d apicid=%d" [u32 n; a]). set (d1 := if n =? a then dev s else set_ismp false (set_said (said (dev s) ++ txt) (dev s))).
  assert (when (negb (n =? a)) (mp_say "mpinit: ncpu=%d apicid=%d" [u32 n; a];; on_dev (modify (set_ismp false))) s = Ok tt (set_dev d1 s)) as H1.
  { unfold d1, when. destruct (n =? a); [by destruct s|]. reflexivity. }
  rewrite (bind_ok_l _ _ _ _ _ H1). set (s1 := set_dev d1 s). set (b := if truthy (f .& MPBOOT) then n else bcpu s).
  assert (when (truthy (f .& MPBOOT)) (modify (set_bcpu n)) s1 = Ok tt (set_bcpu b s1)) as H2.
  { unfold b, when. destruct (truthy (f .& MPBOOT)); reflexivity. }
  rewrite (bind_ok_l _ _ _ _ _ H2), (bind_ok_l _ _ _ _ _ (eq_refl : gets cpus (set_bcpu b s1) = Ok (cpus s) _)).
  rewrite (proj2 (Z.ltb_lt _ _)) by done. eexists. split; [reflexivity|]. unfold NCPU in *.
  assert (forall P : @io D -> Prop, P (dev s) -> P (set_ismp false (set_said (said (dev s) ++ txt) (dev s))) -> P d1) as Hd1 by (intros P; unfold d1; by destruct (n =? a)).
  split_and!; cbn.
  - apply (Hd1 (fun d => lapic d = _)); done.
  - done.
  - fold n. unfold d1. destruct (n =? a); cbn; rewrite ?andb_true_r, ?andb_false_r; done.
  - unfold b. by rewrite Hb.
  - apply (Hd1 (fun d => ioapicid d = _)); done.
  - by rewrite length_insert.
  - lia.
  - intros i Hi'. destruct (decide (i = n)) as [->|].
    + apply list_lookup_insert_eq. lia.
    + rewrite list_lookup_insert_ne by lia. apply Hc. lia.
Qed.

Lemma total_size_pos es : 0 <= total_size es.
Proof. induction es as [|[] es IH]; unfold total_size in *; cbn [foldr size]; unfold sizeof_mpproc, sizeof_mpioapic; lia. Qed.

(** One turn of the walk reads one entry. *)
Lemma mpinit_step lap m en p e s c fuel : at_mem m p en -> has_read lap s c -> c_ncpu (read_entry c en) <= NCPU -> p < e ->
  exists s1, has_read lap s1 (read_entry c en) /\ mpinit_loop m (S fuel) p e s = mpinit_loop m fuel (p + size en) e s1.
Proof.
  intros He Hs Hn Hp. cbn [mpinit_loop]. rewrite (proj2 (Z.ltb_lt _ _)) by done. cbn [negb]. destruct en as [a f|k|t]; cbn [at_mem size] in *.
  - destruct He as (-> & Ha & Hff). cbn [read_entry c_ncpu] in Hn.
    destruct (mpinit_proc_run lap m p a f s c Ha Hff Hs) as (s1 & H1 & Hs1); [lia|]. exists s1. split; [done|].
    change (MPPROC =? MPPROC) with true. cbv iota. by rewrite (bind_ok_l _ _ _ _ _ H1).
  - destruct He as (-> & Hk). exists (set_dev (set_ioapicid k (dev s)) s). split; [|by rewrite <- Hk].
    destruct Hs as (? & ? & ? & ? & ? & ? & ? & ?). by split_and!.
  - destruct He as (-> & Hin). exists s. split; [done|].
    assert ((t =? MPPROC) = false /\ (t =? MPIOAPIC) = false /\ (t =? MPBUS) || (t =? MPIOINTR) || (t =? MPLINTR) = true) as (-> & -> & ->); [|done].
    repeat (apply elem_of_cons in Hin as [->|Hin]; [done|]). by apply elem_of_nil in Hin.
Qed.

Lemma mpinit_loop_run lap m es p s c fuel : table m p es -> has_read lap s c -> c_ncpu (read_table c es) <= NCPU -> (length es < fuel)%nat ->
  exists s', mpinit_loop m fuel p (p + total_size es) s = Ok tt s' /\ has_read lap s' (read_table c es).
Proof.
  revert p s c fuel. induction es as [|en es IH]; intros p s c [|fuel] Ht Hs Hn Hf; cbn [length] in Hf; try lia.
  { exists s. cbn [mpinit_loop total_size foldr]. rewrite (proj2 (Z.ltb_ge _ _)) by lia. done. }
  destruct Ht as [He Ht]. pose proof (total_size_pos es) as Hts. pose proof (read_table_grows (read_entry c en) es) as Hg.
  change (total_size (en :: es)) with (size en + total_size es). assert (0 < size en) by by destruct en.
  destruct (mpinit_step lap m en p (p + (size en + total_size es)) s c fuel He Hs) as (s1 & Hs1 & ->); [unfold read_table in *; cbn in *; lia|lia|].
  rewrite Z.add_assoc. apply IH; [done..|lia].
Qed.

(** A type the switch does not know. *)
Definition unknown (t : Z) : Prop := t ∉ [MPPROC; MPIOAPIC; MPBUS; MPIOINTR; MPLINTR].

(** The walk does not get past an entry of unknown type. *)
Lemma mpinit_loop_stuck m p e fuel (s : @mps D) : unknown (rd8 m p) -> p < e -> mpinit_loop m fuel p e s = NoFuel.
Proof.
  intros Hu Hp. revert s. induction fuel as [|fuel IH]; intros s; [done|]. cbn [mpinit_loop]. rewrite (proj2 (Z.ltb_lt _ _)) by done. cbn [negb].
  unfold unknown in Hu. rewrite !not_elem_of_cons in Hu. destruct Hu as (H0 & H2 & H1 & H3 & H4 & _). rewrite !(proj2 (Z.eqb_neq _ _)) by done. cbn [orb].
  apply IH.
Qed.

Lemma mpinit_loop_hangs lap m es p e fuel s c : table m p es -> has_read lap s c -> c_ncpu (read_table c es) <= NCPU ->
  unknown (rd8 m (p + total_size es)) -> p + total_size es < e -> mpinit_loop m fuel p e s = NoFuel.
Proof.
  revert p fuel s c. induction es as [|en es IH]; intros p fuel s c Ht Hs Hn Hu Hp.
  { apply mpinit_loop_stuck; [by rewrite Z.add_0_r in Hu|rewrite Z.add_0_r in Hp; lia]. }
  destruct fuel as [|fuel]; [done|]. destruct Ht as [He Ht]. pose proof (total_size_pos es) as Hts. pose proof (read_table_grows (read_entry c en) es) as Hg.
  change (total_size (en :: es)) with (size en + total_size es) in *. assert (0 < size en) by by destruct en. rewrite Z.add_assoc in Hu, Hp.
  destruct (mpinit_step lap m en p e s c fuel He Hs) as (s1 & Hs1 & ->); [unfold read_table in *; cbn in *; lia|lia|].
  by apply (IH _ _ _ (read_entry c en)).
Qed.

(** A ninth processor is written past the end of [cpus]. *)
Lemma mpinit_ninth_cpu m p (s : @mps D) : ncpu (dev s) = NCPU -> mpinit_proc m p s = Fault.
Proof.
  intros Hn. unfold mpinit_proc. rewrite (bind_ok_l _ _ _ _ _ (eq_refl : gets (fun s => ncpu (dev s)) s = Ok (ncpu (dev s)) s)), Hn.
  unfold when. by destruct (negb (NCPU =? proc_apicid m p)), (truthy (proc_flags m p .& MPBOOT)).
Qed.

(** C38: [mpinit] on a configuration table whose checksum and signature it
    accepts.  When all entries are of known types and there are at most [NCPU]
    processors, it ends, having counted the processors, numbered them, and
    found the boot processor and the I/O APIC; if the processors' ids are not
    in order it falls back to one processor without APICs.  When the table
    holds an entry of another type, [mpinit] never ends. *)
Theorem mpinit_correct (s : @mps D) conf mp es :
  ncpu (dev s) = 0 -> length (cpus s) = Z.to_nat NCPU ->
  mpconfig (ram (dev s)) = Some (conf, mp) -> table (ram (dev s)) (conf + sizeof_mpconf) es ->
  let m := ram (dev s) in
  let c := read_table (MkConfig 0 true 0 (ioapicid (dev s))) es in
  let last := conf + sizeof_mpconf + total_size es in
  c_ncpu c <= NCPU ->
  (last = conf + conf_length m conf -> forall fuel, (length es < fuel)%nat ->
     exists s', mpinit fuel s = Ok tt s' /\ bcpu s' = c_boot c /\ (forall i, 0 <= i < c_ncpu c -> cpus s' !! Z.to_nat i = Some i) /\
       ismp (dev s') = c_ordered c /\
       (if c_ordered c then ncpu (dev s') = c_ncpu c /\ ioapicid (dev s') = c_ioapic c /\ lapic (dev s') = conf_lapicaddr m conf
        else ncpu (dev s') = 1 /\ ioapicid (dev s') = 0 /\ lapic (dev s') = 0)) /\
  (last < conf + conf_length m conf -> unknown (rd8 m last) -> forall fuel, mpinit fuel s = NoFuel).
Proof.
  intros H0 Hl Hcf Ht m c last Hn. unfold mpinit.
  set (s2 := set_dev (set_lapic (conf_lapicaddr m conf) (set_ismp true (dev s))) (set_bcpu 0 s)).
  assert (has_read (conf_lapicaddr m conf) s2 (MkConfig 0 true 0 (ioapicid (dev s)))) as Hs2 by (split_and!; cbn; try done; intros; lia).
  assert (forall fuel, mpinit fuel s = ((mpinit_loop m fuel (conf + sizeof_mpconf) (conf + conf_length m conf)) ≫= fun _ =>
      ok ← gets (fun s => ismp (dev s));
      if negb ok then on_dev (modify (set_ncpu 1));; on_dev (modify (set_lapic 0));; on_dev (modify (set_ioapicid 0))
      else when (truthy (mp_imcrp m mp)) (on_dev (outb 0x22 0x70);; v ← on_dev (inb 0x23); on_dev (outb 0x23 (v .| 1)))) s2) as Hrun.
  { intros fuel. unfold mpinit.
    rewrite (bind_ok_l _ _ _ _ _ (eq_refl : modify (set_bcpu 0) s = Ok tt (set_bcpu 0 s))).
    rewrite (bind_ok_l _ _ _ _ _ (eq_refl : gets (fun s => ram (dev s)) (set_bcpu 0 s) = Ok m _)). unfold m. rewrite Hcf. reflexivity. }
  split.
  - intros Hlast fuel Hf. destruct (mpinit_loop_run _ m es _ s2 _ fuel Ht Hs2 Hn Hf) as (s3 & Hlp & Hs3).
    fold last in Hlp. rewrite Hlast in Hlp. fold (mpinit fuel s). rewrite Hrun, (bind_ok_l _ _ _ _ _ Hlp).
    destruct Hs3 as (Hlap & Hnc & Hmp & Hbc & Hio & _ & _ & Hids). fold c in Hnc, Hmp, Hbc, Hio, Hids.
    rewrite (bind_ok_l _ _ _ _ _ (eq_refl : gets (fun s => ismp (dev s)) s3 = Ok (ismp (dev s3)) s3)), Hmp.
    destruct (c_ordered c) eqn:Eo; cbn [negb]; [|eexists; split; [reflexivity|]; by split_and!].
    unfold when. destruct (truthy (mp_imcrp m mp)); [|exists s3; by split_and!].
    unfold on_dev, zoom, outb, inb, modify, mbind, M_bind, get, put. cbn. destruct (io_in 0x23 _) as [v d]. eexists. split; [reflexivity|]. by split_and!.
  - intros Hlast Hu fuel. fold (mpinit fuel s). rewrite Hrun. unfold mbind, M_bind. by rewrite (mpinit_loop_hangs _ m es _ _ fuel s2 _ Ht Hs2 Hn Hu Hlast).
Qed.
End walk.

End Mp.

(** A machine with one processor and one I/O APIC. *)
Module MpEx.
Definition structure : bytes := [95; 77; 80; 95; 16; 0; 15; 0; 1; 4; 129; 0; 0; 0; 0; 0].
Definition header : bytes := [80; 67; 77; 80; 72; 0; 4; 153; 0; 0; 0; 0; 0; 0; 0; 0; 0; 0; 0; 0; 0; 0; 0; 0; 0; 0; 0; 0; 0; 0; 0; 0; 0; 0; 2; 0; 0; 0; 224; 254; 0; 0; 0; 0].
Definition entries : bytes := [0; 0; 0; 3; 0; 0; 0; 0; 0; 0; 0; 0; 0; 0; 0; 0; 0; 0; 0; 0; 2; 5; 0; 1; 0; 0; 0; 0].

Definition ram0 : mem := list_to_map (zip (seqZ (p2v 0xF0000) 88) (structure ++ header ++ entries)).

Definition state : Mp.mps := Mp.MkMps (MkIo tt 0 false false 0 0 0 0 ram0 []) (replicate 8 0) 0.
End MpEx.

Lemma mpinit_correct_witness : exists s', Mp.mpinit 3 MpEx.state = Ok tt s' /\ ismp (Mp.dev s') = true /\ ncpu (Mp.dev s') = 1 /\ lapic (Mp.dev s') = 0xFEE00000.
Proof.
  destruct (Mp.mpinit_correct MpEx.state (p2v 0xF0010) (p2v 0xF0000) [Mp.Processor 0 3; Mp.IoApic 5]) as [H _].
  - reflexivity.
  - reflexivity.
  - vm_compute. reflexivity.
  - vm_compute. repeat split.
  - vm_compute. discriminate.
  - destruct (H ltac:(vm_compute; reflexivity) 3%nat ltac:(cbn; lia)) as (s' & H1 & _ & _ & H2 & H3). exists s'. split; [exact H1|]. split; [exact H2|].
    destruct H3 as (H3 & _ & H4). split; [exact H3|]. rewrite H4. vm_compute. reflexivity.
Defined.
