(* ===== verification/Kbd.v ===== *)
(** * kbd.c: scan codes to characters

    The tables of kbd.h and the state machine of [kbdgetc], which keeps the
    modifier keys in [shift]. *)

From S2P Require Import Prelude Memory Layout Cstring Ulib Printf Dev.

Module Kbd.

Definition KBSTATP : Z := 0x64.
Definition KBS_DIB : Z := 0x01.
Definition KBDATAP : Z := 0x60.
Definition NO : Z := 0.
Definition SHIFT : Z := Z.shiftl 1 0.
Definition CTL : Z := Z.shiftl 1 1.
Definition ALT : Z := Z.shiftl 1 2.
Definition CAPSLOCK : Z := Z.shiftl 1 3.
Definition NUMLOCK : Z := Z.shiftl 1 4.
Definition SCROLLLOCK : Z := Z.shiftl 1 5.
Definition E0ESC : Z := Z.shiftl 1 6.
Definition KEY_HOME : Z := 0xE0.
Definition KEY_END : Z := 0xE1.
Definition KEY_UP : Z := 0xE2.
Definition KEY_DN : Z := 0xE3.
Definition KEY_LF : Z := 0xE4.
Definition KEY_RT : Z := 0xE5.
Definition KEY_PGUP : Z := 0xE6.
Definition KEY_PGDN : Z := 0xE7.
Definition KEY_INS : Z := 0xE8.
Definition KEY_DEL : Z := 0xE9.

(** [C('A')] is Control-A. *)
Definition C (x : Z) : Z := x - 64.

(** A table of 256 characters: the rows from 0 on, then single entries; the
    rest is 0. *)
Definition mk_table (rows : bytes) (entries : list (Z * Z)) (i : Z) : Z :=
  match list_find (fun e => e.1 = i) entries with
  | Some (_, e) => e.2
  | None => default 0 (rows !! Z.to_nat i)
  end.

Definition shiftcode : Z -> Z := mk_table [] [(0x1D, CTL); (0x2A, SHIFT); (0x36, SHIFT); (0x38, ALT); (0x9D, CTL); (0xB8, ALT)].
Definition togglecode : Z -> Z := mk_table [] [(0x3A, CAPSLOCK); (0x45, NUMLOCK); (0x46, SCROLLLOCK)].

(** The keys of the keypad and the cursor keys. *)
Definition grey (enter div : Z) : list (Z * Z) :=
  [(0x9C, enter); (0xB5, div); (0xC8, KEY_UP); (0xD0, KEY_DN); (0xC9, KEY_PGUP); (0xD1, KEY_PGDN);
   (0xCB, KEY_LF); (0xCD, KEY_RT); (0x97, KEY_HOME); (0xCF, KEY_END); (0xD2, KEY_INS); (0xD3, KEY_DEL)].

Definition normalmap : Z -> Z := mk_table
  ([NO; 0x1B] ++ bytes_of "123456" ++
   bytes_of "7890-=" ++ [8; 9] ++
   bytes_of "qwertyui" ++
   bytes_of "op[]" ++ [10; NO] ++ bytes_of "as" ++
   bytes_of "dfghjkl;" ++
   bytes_of "'`" ++ [NO] ++ bytes_of "\zxcv" ++
   bytes_of "bnm,./" ++ [NO] ++ bytes_of "*" ++
   [NO; 32; NO; NO; NO; NO; NO; NO] ++
   [NO; NO; NO; NO; NO; NO; NO] ++ bytes_of "7" ++
   bytes_of "89-456+1" ++
   bytes_of "230." ++ [NO; NO; NO; NO]) (grey 10 47).

(** 34 is the double quote. *)
Definition shiftmap : Z -> Z := mk_table
  ([NO; 27] ++ bytes_of "!@#$%^" ++
   bytes_of "&*()_+" ++ [8; 9] ++
   bytes_of "QWERTYUI" ++
   bytes_of "OP{}" ++ [10; NO] ++ bytes_of "AS" ++
   bytes_of "DFGHJKL:" ++
   [34] ++ bytes_of "~" ++ [NO] ++ bytes_of "|ZXCV" ++
   bytes_of "BNM<>?" ++ [NO] ++ bytes_of "*" ++
   [NO; 32; NO; NO; NO; NO; NO; NO] ++
   [NO; NO; NO; NO; NO; NO; NO] ++ bytes_of "7" ++
   bytes_of "89-456+1" ++
   bytes_of "230." ++ [NO; NO; NO; NO]) (grey 10 47).

(** [C] of a character outside the control range is stored as a byte. *)
Definition ctl (s : string) : bytes := (fun c => u8 (C c)) <$> bytes_of s.

Definition ctlmap : Z -> Z := mk_table
  (replicate 16 NO ++
   ctl "QWERTYUI" ++
   ctl "OP" ++ [NO; NO; 13; NO] ++ ctl "AS" ++
   ctl "DFGHJKL" ++ [NO] ++
   [NO; NO; NO] ++ ctl "\ZXCV" ++
   ctl "BNM" ++ [NO; NO] ++ ctl "/" ++ [NO; NO]) (grey 13 (u8 (C 47))).

Definition charcode (i : Z) : Z -> Z :=
  if i =? 0 then normalmap else if i =? 1 then shiftmap else ctlmap.

(** What [kbdgetc] does with a byte of the keyboard: the new [shift] and the
    result. *)
Definition kbd_step (shift data : Z) : Z * Z :=
  if data =? 0xE0 then (shift .| E0ESC, 0)
  else if truthy (data .& 0x80) then
    let data := if truthy (shift .& E0ESC) then data else data .& 0x7F in
    (shift .& Z.lnot (shiftcode data .| E0ESC), 0)
  else
    let '(data, shift) := if truthy (shift .& E0ESC) then (data .| 0x80, shift .& Z.lnot E0ESC) else (data, shift) in
    let shift := shift .| shiftcode data in
    let shift := Z.lxor shift (togglecode data) in
    let c := charcode (shift .& (CTL .| SHIFT)) data in
    let c :=
      if truthy (shift .& CAPSLOCK) then
        if (97 <=? c) && (c <=? 122) then c + (65 - 97)
        else if (65 <=? c) && (c <=? 90) then c + (97 - 65) else c
      else c in
    (shift, c).

Section kbdgetc.
Context {D : Type} `{!Machine D}.

(** [kbdgetc] with its static [shift]; a negative result means no data. *)
Definition kbdgetc (shift : Z) : M (@io D) (Z * Z) :=
  st ← inb KBSTATP;
  if (st .& KBS_DIB) =? 0 then mret (shift, -1) else
  data ← inb KBDATAP;
  mret (kbd_step shift data).
End kbdgetc.

(** ** Lemmas *)

(** One byte of the keyboard in one state: the state stays within the seven
    modifier bits and the result is a byte; a prefix is remembered for exactly
    one byte; a release gives no character and clears at most its own modifier;
    a press leaves the modifiers of other keys. *)
Definition step_ok (shift data : Z) : bool :=
  let '(shift', c) := kbd_step shift data in
  let key := if truthy (shift .& E0ESC) then data .| 0x80 else data .& 0x7F in
  (0 <=? shift') && (shift' <? 128) && (0 <=? c) && (c <? 256) &&
  Bool.eqb (truthy (shift' .& E0ESC)) (data =? 0xE0) &&
  (if data =? 0xE0 then (c =? 0) && ((shift' .& 63) =? (shift .& 63))
   else if truthy (data .& 0x80) then (c =? 0) && ((shift' .& 63) =? (shift .& 63) .& Z.lnot (shiftcode key))
   else (shift' .& 63) =? Z.lxor ((shift .& 63) .| shiftcode key) (togglecode key)).

Lemma all_steps : forallb (fun s => forallb (step_ok s) (seqZ 0 256)) (seqZ 0 128) = true.
Proof. vm_compute. reflexivity. Qed.

Lemma step_in shift data : 0 <= shift < 128 -> 0 <= data < 256 -> step_ok shift data = true.
Proof.
  intros Hs Hd. pose proof all_steps as H. rewrite forallb_forall in H.
  specialize (H shift ltac:(apply list_elem_of_In, elem_of_seqZ; lia)). rewrite forallb_forall in H. apply H, list_elem_of_In, elem_of_seqZ. lia.
Qed.

(** Whatever the state, the result is a byte. *)
Lemma tables_bytes : forallb (fun i => forallb (fun m => (0 <=? m i) && (m i <? 256)) [normalmap; shiftmap; ctlmap]) (seqZ 0 256) = true.
Proof. vm_compute. reflexivity. Qed.

Lemma charcode_byte k i : 0 <= i < 256 -> 0 <= charcode k i < 256.
Proof.
  intros Hi. pose proof tables_bytes as H. rewrite forallb_forall in H. specialize (H i ltac:(apply list_elem_of_In, elem_of_seqZ; lia)).
  cbn [forallb] in H. boolify. unfold charcode. destruct (k =? 0); [lia|]. destruct (k =? 1); lia.
Qed.

Lemma kbd_step_byte shift data : 0 <= data < 256 -> 0 <= (kbd_step shift data).2 < 256.
Proof.
  intros Hd. unfold kbd_step. destruct (data =? 0xE0); [done|]. destruct (truthy (data .& 0x80)); [done|].
  assert (0 <= data .| 0x80 < 256) as Hd'.
  { assert (Z.log2 (data .| 0x80) < 8) as H; [|split; [apply Z.lor_nonneg; lia|apply Z.log2_lt_cancel; exact H]].
    rewrite Z.log2_lor by lia. apply Z.max_lub_lt; [|done]. destruct (decide (data = 0)) as [->|]; [done|]. apply Z.log2_lt_pow2; lia. }
  set (p := if truthy (shift .& E0ESC) then _ else _). assert (0 <= p.1 < 256) as Hp by (unfold p; by destruct (truthy (shift .& E0ESC))).
  destruct p as [data' shift']. cbn [fst snd] in *. set (sh := Z.lxor _ _). pose proof (charcode_byte (sh .& (CTL .| SHIFT)) data' Hp) as Hc.
  destruct (truthy (sh .& CAPSLOCK)); [|done]. destruct ((97 <=? _) && _) eqn:E1; [boolify; lia|]. destruct ((65 <=? _) && _) eqn:E2; [boolify; lia|done].
Qed.

(** the keyboard driver's state machine is well-typed and stays in step with
    the keys: from every state of the modifiers and on every byte, the state
    stays within its bits and the result is a character code; the escape prefix
    lasts one byte; a release gives no character and clears only its own
    modifier; a press sets its own modifier and flips its own lock. *)
Theorem kbd_step_typed (shift data : Z) : 0 <= shift < 128 -> 0 <= data < 256 ->
  let '(shift', c) := kbd_step shift data in
  let key := if truthy (shift .& E0ESC) then data .| 0x80 else data .& 0x7F in
  0 <= shift' < 128 /\ 0 <= c < 256 /\ truthy (shift' .& E0ESC) = (data =? 0xE0) /\
  (if data =? 0xE0 then c = 0 /\ shift' .& 63 = shift .& 63
   else if truthy (data .& 0x80) then c = 0 /\ shift' .& 63 = (shift .& 63) .& Z.lnot (shiftcode key)
   else shift' .& 63 = Z.lxor ((shift .& 63) .| shiftcode key) (togglecode key)).
Proof.
  intros Hs Hd. pose proof (step_in shift data Hs Hd) as H. unfold step_ok in H. destruct (kbd_step shift data) as [shift' c].
  cbv zeta in *. boolify. match goal with H : Bool.eqb _ _ = true |- _ => apply Bool.eqb_prop in H end. split; [lia|]. split; [lia|]. split; [done|].
  destruct (data =? 0xE0); [boolify; lia|]. destruct (truthy (data .& 0x80)); boolify; [lia|done].
Qed.

End Kbd.

Lemma kbd_step_typed_witness : Kbd.kbd_step Kbd.SHIFT 0x1e = (Kbd.SHIFT, 65) /\ 0 <= (Kbd.kbd_step Kbd.SHIFT 0x1e).1 < 128.
Proof.
  pose proof (Kbd.kbd_step_typed Kbd.SHIFT 0x1e ltac:(vm_compute; split; congruence) ltac:(lia)) as H.
  split; [vm_compute; reflexivity|]. destruct (Kbd.kbd_step Kbd.SHIFT 0x1e) as [s c]. exact (proj1 H).
Defined.
