(* ===== verification/Console.v ===== *)
(** * console.c: console input and output

    Characters go to the serial port and to the screen, whose cursor is kept in
    the registers of the display.  Input is collected in a circular buffer in
    which the current line can still be edited; readers get completed lines. *)

From S2P Require Import Prelude Memory Layout Cstring Spinlock Ulib Printf Dev Kbd.

Module Console.

Definition BACKSPACE : Z := 0x100.
Definition CRTPORT : Z := 0x3d4.
Definition INPUT_BUF : Z := 128.
Definition CONSOLE : Z := 1.

(** [C('x')]: Control-x. *)
Definition C (x : Z) : Z := x - 64.

Section console.
Context {D : Type} `{!Machine D}.

(** The devices, [cons], [panicked], the display memory, [input], the static
    [shift] of kbd.c, the lock of the console's inode, the entry of [devsw],
    the channels woken, and the number of process listings. *)
Record console := MkCon {
  dev : @io D;
  cons_lock : bool;
  locking : bool;
  panicked : bool;
  crt : gmap Z Z;
  input_lock : bool;
  ibuf : bytes;
  ir : Z;
  iw : Z;
  ie : Z;
  shift : Z;
  inode_locked : bool;
  devsw_set : bool;
  woken : list chan;
  dumps : nat
}.

Definition set_dev x s := MkCon x (cons_lock s) (locking s) (panicked s) (crt s) (input_lock s) (ibuf s) (ir s) (iw s) (ie s) (shift s) (inode_locked s) (devsw_set s) (woken s) (dumps s).
Definition set_cons_lock x s := MkCon (dev s) x (locking s) (panicked s) (crt s) (input_lock s) (ibuf s) (ir s) (iw s) (ie s) (shift s) (inode_locked s) (devsw_set s) (woken s) (dumps s).
Definition set_locking x s := MkCon (dev s) (cons_lock s) x (panicked s) (crt s) (input_lock s) (ibuf s) (ir s) (iw s) (ie s) (shift s) (inode_locked s) (devsw_set s) (woken s) (dumps s).
Definition set_panicked x s := MkCon (dev s) (cons_lock s) (locking s) x (crt s) (input_lock s) (ibuf s) (ir s) (iw s) (ie s) (shift s) (inode_locked s) (devsw_set s) (woken s) (dumps s).
Definition set_crt x s := MkCon (dev s) (cons_lock s) (locking s) (panicked s) x (input_lock s) (ibuf s) (ir s) (iw s) (ie s) (shift s) (inode_locked s) (devsw_set s) (woken s) (dumps s).
Definition set_input_lock x s := MkCon (dev s) (cons_lock s) (locking s) (panicked s) (crt s) x (ibuf s) (ir s) (iw s) (ie s) (shift s) (inode_locked s) (devsw_set s) (woken s) (dumps s).
Definition set_ibuf x s := MkCon (dev s) (cons_lock s) (locking s) (panicked s) (crt s) (input_lock s) x (ir s) (iw s) (ie s) (shift s) (inode_locked s) (devsw_set s) (woken s) (dumps s).
Definition set_ir x s := MkCon (dev s) (cons_lock s) (locking s) (panicked s) (crt s) (input_lock s) (ibuf s) x (iw s) (ie s) (shift s) (inode_locked s) (devsw_set s) (woken s) (dumps s).
Definition set_iw x s := MkCon (dev s) (cons_lock s) (locking s) (panicked s) (crt s) (input_lock s) (ibuf s) (ir s) x (ie s) (shift s) (inode_locked s) (devsw_set s) (woken s) (dumps s).
Definition set_ie x s := MkCon (dev s) (cons_lock s) (locking s) (panicked s) (crt s) (input_lock s) (ibuf s) (ir s) (iw s) x (shift s) (inode_locked s) (devsw_set s) (woken s) (dumps s).
Definition set_shift x s := MkCon (dev s) (cons_lock s) (locking s) (panicked s) (crt s) (input_lock s) (ibuf s) (ir s) (iw s) (ie s) x (inode_locked s) (devsw_set s) (woken s) (dumps s).
Definition set_inode_locked x s := MkCon (dev s) (cons_lock s) (locking s) (panicked s) (crt s) (input_lock s) (ibuf s) (ir s) (iw s) (ie s) (shift s) x (devsw_set s) (woken s) (dumps s).
Definition set_devsw x s := MkCon (dev s) (cons_lock s) (locking s) (panicked s) (crt s) (input_lock s) (ibuf s) (ir s) (iw s) (ie s) (shift s) (inode_locked s) x (woken s) (dumps s).
Definition set_woken x s := MkCon (dev s) (cons_lock s) (locking s) (panicked s) (crt s) (input_lock s) (ibuf s) (ir s) (iw s) (ie s) (shift s) (inode_locked s) (devsw_set s) x (dumps s).
Definition set_dumps x s := MkCon (dev s) (cons_lock s) (locking s) (panicked s) (crt s) (input_lock s) (ibuf s) (ir s) (iw s) (ie s) (shift s) (inode_locked s) (devsw_set s) (woken s) x.

Definition on_dev {A} (m : M io A) : M console A := zoom dev set_dev m.
Definition acquire_cons : M console unit := Seq.acquire cons_lock set_cons_lock.
Definition release_cons : M console unit := Seq.release cons_lock set_cons_lock.
Definition acquire_input : M console unit := Seq.acquire input_lock set_input_lock.
Definition release_input : M console unit := Seq.release input_lock set_input_lock.
Definition wakeup (c : chan) : M console unit := modify (fun s => set_woken (woken s ++ [c]) s).
Definition iunlock : M console unit := modify (set_inode_locked false).
Definition ilock : M console unit := modify (set_inode_locked true).

(** ** Output *)

(** [memmove] and [memset] of display memory, in cells. *)
Definition crt_move (m : gmap Z Z) (dst src n : Z) : gmap Z Z :=
  foldr (fun i m' => <[dst + i := default 0 (m !! (src + i))]> m') m (seqZ 0 n).
Definition crt_clear (m : gmap Z Z) (dst n : Z) : gmap Z Z := foldr (fun i m' => <[dst + i := 0]> m') m (seqZ 0 n).

(** What [cgaputc] does to the cursor position and the display. *)
Definition cga_update (c pos : Z) (m : gmap Z Z) : Z * gmap Z Z :=
  let '(pos, m) :=
    if c =? NL then (pos + (80 - pos mod 80), m)
    else if c =? BACKSPACE then ((if 0 <? pos then pos - 1 else pos), m)
    else (pos + 1, <[pos := (c .& 0xff) .| 0x0700]> m) in
  let '(pos, m) :=
    if 24 <=? pos / 80 then
      let m := crt_move m 0 80 (23 * 80) in
      let pos := pos - 80 in
      (pos, crt_clear m pos (24 * 80 - pos))
    else (pos, m) in
  (pos, <[pos := 32 .| 0x0700]> m).

Definition cgaputc (c : Z) : M console unit :=
  on_dev (outb CRTPORT 14);;
  hi ← on_dev (inb (CRTPORT + 1));
  on_dev (outb CRTPORT 15);;
  lo ← on_dev (inb (CRTPORT + 1));
  s ← get;
  let '(pos, m) := cga_update c (Z.shiftl hi 8 .| lo) (crt s) in
  modify (set_crt m);;
  on_dev (outb CRTPORT 14);;
  on_dev (outb (CRTPORT + 1) (Z.shiftr pos 8));;
  on_dev (outb CRTPORT 15);;
  on_dev (outb (CRTPORT + 1) pos).

(** After a panic a CPU that prints spins for ever. *)
Definition consputc (c : Z) : M console unit :=
  p ← gets panicked;
  if p : bool then nofuel else
  (if c =? BACKSPACE then on_dev (uartputc 8);; on_dev (uartputc 32);; on_dev (uartputc 8)
   else on_dev (uartputc c));;
  cgaputc c.

Fixpoint consputs (l : bytes) : M console unit :=
  match l with
  | [] => mret tt
  | c :: l => consputc c;; consputs l
  end.

(** [cprintf(fmt, ...)]: the characters of [Cprintf.cprintf]; a null [fmt] panics. *)
Definition cprintf (obj : Z -> bytes) (fmt : option bytes) (argp : list Z) : M console unit :=
  l ← gets locking;
  when l acquire_cons;;
  match fmt with
  | None => panic "null fmt"
  | Some fmt =>
      match Cprintf.cprintf obj fmt argp with
      | Some text => consputs text;; when l release_cons
      | None => fault
      end
  end.

Fixpoint print_pcs (pcs : list Z) : M console unit :=
  match pcs with
  | [] => mret tt
  | pc :: pcs => cprintf (fun _ => []) (Some (bytes_of " %p" ++ [0])) [pc];; print_pcs pcs
  end.

(** [panic(s)] on CPU [id] with the return addresses [pcs]: the state in which
    it spins. *)
Definition console_panic (id : Z) (s : bytes) (pcs : list Z) : M console unit :=
  modify (set_locking false);;
  cprintf (fun _ => []) (Some (bytes_of "cpu%d: panic: " ++ [0])) [id];;
  cprintf (fun _ => []) (Some (s ++ [0])) [];;
  cprintf (fun _ => []) (Some [NL; 0]) [];;
  print_pcs pcs;;
  modify (set_panicked true).

Fixpoint consolewrite_loop (buf : bytes) : M console unit :=
  match buf with
  | [] => mret tt
  | c :: buf => consputc (c .& 0xff);; consolewrite_loop buf
  end.

Definition consolewrite (buf : bytes) : M console Z :=
  iunlock;;
  acquire_cons;;
  consolewrite_loop buf;;
  release_cons;;
  ilock;;
  mret (Z.of_nat (length buf)).

(** ** Input *)

(** [input.buf[i % INPUT_BUF]] *)
Definition ibuf_at (i : Z) : M console Z := gets (fun s => default 0 (ibuf s !! Z.to_nat (i mod INPUT_BUF))).

(** [input.e--; consputc(BACKSPACE)] *)
Definition erase : M console unit := modify (fun s => set_ie (u32 (ie s - 1)) s);; consputc BACKSPACE.

(** The loop of Control-U; at most [INPUT_BUF] characters are being edited. *)
Fixpoint kill_line (n : nat) : M console unit :=
  match n with
  | O => nofuel
  | S n =>
      s ← get;
      if negb (ie s =? iw s) then
        c ← ibuf_at (u32 (ie s - 1));
        if negb (c =? NL) then erase;; kill_line n else mret tt
      else mret tt
  end.

(** The [switch] of [consoleintr] on a character. *)
Definition consoleintr_key (c : Z) : M console unit :=
  if c =? C 80 then modify (fun s => set_dumps (S (dumps s)) s)
  else if c =? C 85 then kill_line (S (Z.to_nat INPUT_BUF))
  else if (c =? C 72) || (c =? 0x7f) then
    s ← get;
    if negb (ie s =? iw s) then erase else mret tt
  else
    s ← get;
    if negb (c =? 0) && (u32 (ie s - ir s) <? INPUT_BUF) then
      let c := if c =? CR then NL else c in
      modify (fun s => set_ie (u32 (ie s + 1)) (set_ibuf (<[Z.to_nat (ie s mod INPUT_BUF) := u8 c]> (ibuf s)) s));;
      consputc c;;
      s ← get;
      if (c =? NL) || (c =? C 68) || (ie s =? u32 (ir s + INPUT_BUF)) then
        modify (set_iw (ie s));; wakeup ChInput
      else mret tt
    else mret tt.

(** [consoleintr(getc)], for at most [n] characters. *)
Fixpoint consoleintr_loop (getc : M console Z) (n : nat) : M console unit :=
  match n with
  | O => nofuel
  | S n => c ← getc; if 0 <=? c then consoleintr_key c;; consoleintr_loop getc n else mret tt
  end.
Definition consoleintr (getc : M console Z) (n : nat) : M console unit :=
  acquire_input;; consoleintr_loop getc n;; release_input.

Definition kbdgetc : M console Z :=
  sh ← gets shift;
  '(sh, c) ← on_dev (Kbd.kbdgetc sh);
  modify (set_shift sh);;
  mret c.
Definition kbdintr (n : nat) : M console unit := consoleintr kbdgetc n.
Definition uartintr (n : nat) : M console unit := consoleintr (on_dev uartgetc) n.

(** How far [consoleread] got: done, killed, or asleep with the bytes it has. *)
Inductive rstate := RDone (got : bytes) | RKilled | RSleeps (got : bytes).

(** The loop of [consoleread]: [got] are the bytes at [dst] so far, [n] the
    number still wanted. *)
Fixpoint consoleread_loop (killed : bool) (n : nat) (got : bytes) : M console rstate :=
  match n with
  | O => mret (RDone got)
  | S n =>
      s ← get;
      if ir s =? iw s then mret (if killed then RKilled else RSleeps got)
      else
        c ← ibuf_at (ir s);
        modify (set_ir (u32 (ir s + 1)));;
        if c =? C 68 then
          (if (0 <? length got)%nat then modify (fun s => set_ir (u32 (ir s - 1)) s) else mret tt);;
          mret (RDone got)
        else if c =? NL then mret (RDone (got ++ [c]))
        else consoleread_loop killed n (got ++ [c])
  end.

(** [consoleread] from its start ([got] is empty) or from a wakeup; a sleeping
    reader has given up the lock and not yet locked the inode again. *)
Definition consoleread_on (killed : bool) (n : nat) (got : bytes) : M console rstate :=
  acquire_input;;
  r ← consoleread_loop killed (n - length got) got;
  release_input;;
  match r with RSleeps _ => mret r | _ => ilock;; mret r end.

Definition consoleread (killed : bool) (n : nat) : M console rstate := iunlock;; consoleread_on killed n [].

Definition consoleinit : M console unit :=
  modify (set_cons_lock false);;
  modify (set_input_lock false);;
  modify (set_devsw true);;
  modify (set_locking true);;
  on_dev (picenable IRQ_KBD);;
  on_dev (ioapicenable IRQ_KBD 0).
End console.

End Console.
