(* ===== verification/ConsoleSpec.v ===== *)
(** * The console's line discipline

    The circular buffer of console.c holds completed input and the line being
    edited; the theorem relates it to two lists. *)

From S2P Require Import Prelude Memory Layout Cstring Spinlock Ulib Printf Dev Kbd Console.
Import Console.

(** ** Two lists *)

(** Input ready to be read, and the line being edited. *)
Record lines := MkLines { ready : bytes; edit : bytes }.

Definition full (a : lines) : bool := Z.of_nat (length (ready a) + length (edit a)) =? INPUT_BUF.

(** A key: Control-P lists processes, Control-U drops the line, Backspace and
    Control-H its last character; other characters join the line if there is
    room, and a newline, Control-D or the last free place completes it. *)
Definition key (c : Z) (a : lines) : lines :=
  if c =? C 80 then a
  else if c =? C 85 then MkLines (ready a) []
  else if (c =? C 72) || (c =? 0x7f) then MkLines (ready a) (removelast (edit a))
  else if (c =? 0) || full a then a
  else
    let c := if c =? CR then NL else c in
    let a := MkLines (ready a) (edit a ++ [u8 c]) in
    if (c =? NL) || (c =? C 68) || full a then MkLines (ready a ++ edit a) [] else a.

(** A read of up to [n] bytes, of which [got] have been found: it ends after a
    newline, or before a Control-D, which it takes if it has nothing else. *)
Fixpoint take_line (n : nat) (got : bytes) (l : bytes) : option bytes * bytes * bytes :=
  match n with
  | O => (Some got, got, l)
  | S n =>
      match l with
      | [] => (None, got, [])
      | c :: l' =>
          if c =? C 68 then (Some got, got, if (0 <? length got)%nat then l else l')
          else if c =? NL then (Some (got ++ [c]), got ++ [c], l')
          else take_line n (got ++ [c]) l'
      end
  end.

Section spec.
Context {D : Type} `{!Machine D}.
Local Abbreviation console := (@console D).

(** ** The buffer holds the lists *)

Record holds (s : console) (a : lines) : Prop := {
  h_run : panicked s = false;
  h_len : length (ibuf s) = Z.to_nat INPUT_BUF;
  h_r : 0 <= ir s < 2 ^ 32;
  h_w : iw s = u32 (ir s + Z.of_nat (length (ready a)));
  h_e : ie s = u32 (ir s + Z.of_nat (length (ready a ++ edit a)));
  h_fit : Z.of_nat (length (ready a ++ edit a)) <= INPUT_BUF;
  h_data k c : (ready a ++ edit a) !! k = Some c -> ibuf s !! Z.to_nat ((ir s + Z.of_nat k) mod INPUT_BUF) = Some c
}.

(** A line being edited has no newline. *)
Definition tidy (a : lines) : Prop := NL ∉ edit a.

(** The part of the state that input depends on. *)
Definition same_input (s s' : console) : Prop :=
  panicked s' = panicked s /\ ibuf s' = ibuf s /\ ir s' = ir s /\ iw s' = iw s /\ ie s' = ie s /\ input_lock s' = input_lock s.

Lemma holds_same s s' a : same_input s s' -> holds s a -> holds s' a.
Proof. intros (E1 & E2 & E3 & E4 & E5 & _) []. constructor; rewrite ?E1, ?E2, ?E3, ?E4, ?E5; done. Qed.

(** Indices that wrap around. *)
Lemma u32_shift x a b : 0 <= a <= 128 -> 0 <= b <= 128 -> (u32 (x + a) =? u32 (x + b)) = (a =? b).
Proof.
  intros Ha Hb. destruct (Z.eqb_spec a b) as [->|Hne]; [apply Z.eqb_refl|]. apply Z.eqb_neq. unfold u32. intros E.
  apply Hne. assert ((a - b) mod 2 ^ 32 = 0) as H.
  { replace (a - b) with ((x + a) - (x + b)) by lia. rewrite Zminus_mod, E, Z.sub_diag. done. }
  apply Z.mod_divide in H as [k Hk]; [|lia]. assert (k = 0) by nia. lia.
Qed.

Lemma u32_mod x : u32 x mod INPUT_BUF = x mod INPUT_BUF.
Proof. unfold u32, INPUT_BUF. apply Z.mod_mod_divide. by exists (2 ^ 25). Qed.

(** Places of the buffer that are less than its length apart differ. *)
Lemma slots_differ r (i j : nat) : (i < j)%nat -> Z.of_nat j - Z.of_nat i < INPUT_BUF ->
  Z.to_nat ((r + Z.of_nat j) mod INPUT_BUF) <> Z.to_nat ((r + Z.of_nat i) mod INPUT_BUF).
Proof.
  unfold INPUT_BUF. intros Hij Hd E. pose proof (Z.mod_pos_bound (r + Z.of_nat j) 128). pose proof (Z.mod_pos_bound (r + Z.of_nat i) 128).
  apply Z2Nat.inj in E; [|lia..]. assert ((Z.of_nat j - Z.of_nat i) mod 128 = 0) as Hm.
  { replace (Z.of_nat j - Z.of_nat i) with ((r + Z.of_nat j) - (r + Z.of_nat i)) by lia. by rewrite Zminus_mod, E, Z.sub_diag. }
  rewrite Z.mod_small in Hm by lia. lia.
Qed.

Lemma u32_pred x : u32 (u32 x - 1) = u32 (x - 1).
Proof. unfold u32. apply Zminus_mod_idemp_l. Qed.

Lemma u32_sub x a : 0 <= x < 2 ^ 32 -> 0 <= a <= 128 -> u32 (u32 (x + a) - x) = a.
Proof. intros Hx Ha. unfold u32. rewrite Zminus_mod_idemp_l. replace (x + a - x) with a by lia. apply Z.mod_small. lia. Qed.

(** ** Output leaves the input alone *)

Lemma uartputc_run c (d : @io D) : exists d', uartputc c d = Ok tt d'.
Proof.
  unfold uartputc. rewrite (bind_ok_l _ _ _ _ _ (eq_refl : gets uart d = Ok (uart d) d)). destruct (uart d); cbn [negb]; [|by eexists].
  assert (forall n d, exists d', uart_ready n d = Ok tt d') as H.
  { clear. intros n. induction n as [|n IH]; intros d; [by eexists|]. cbn [uart_ready]. unfold inb, mbind, M_bind, get, put, mret, M_ret. cbn.
    destruct (io_in (COM1 + 5) (hw d)) as [v d1]. cbn. destruct (truthy (v .& 0x20)); [by eexists|]. apply IH. }
  destruct (H 128%nat d) as (d1 & H1). rewrite (bind_ok_l _ _ _ _ _ H1). by eexists.
Qed.

Lemma on_uart c (s : console) : exists d, on_dev (uartputc c) s = Ok tt (set_dev d s).
Proof. destruct (uartputc_run c (dev s)) as (d & Hd). exists d. unfold on_dev, zoom. by rewrite Hd. Qed.

Lemma cgaputc_run c (s : console) : exists d m, cgaputc c s = Ok tt (set_crt m (set_dev d s)).
Proof.
  unfold cgaputc, on_dev, zoom, outb, inb, modify, mbind, M_bind, get, put, mret, M_ret. cbn.
  destruct (io_in (CRTPORT + 1) _) as [hi d1]. cbn. destruct (io_in (CRTPORT + 1) _) as [lo d2]. cbn.
  destruct (cga_update c _ (crt s)) as [pos m]. cbn. eexists _, m. reflexivity.
Qed.

Lemma consputc_run c (s : console) : panicked s = false -> exists d m, consputc c s = Ok tt (set_crt m (set_dev d s)).
Proof.
  intros Hp. unfold consputc. rewrite (bind_ok_l _ _ _ _ _ (eq_refl : gets panicked s = Ok (panicked s) s)), Hp.
  assert (exists d, (if c =? BACKSPACE then on_dev (uartputc 8);; on_dev (uartputc 32);; on_dev (uartputc 8) else on_dev (uartputc c)) s = Ok tt (set_dev d s)) as (d & Hd).
  { destruct (c =? BACKSPACE); [|apply on_uart]. destruct (on_uart 8 s) as (d1 & E1). rewrite (bind_ok_l _ _ _ _ _ E1).
    destruct (on_uart 32 (set_dev d1 s)) as (d2 & E2). rewrite (bind_ok_l _ _ _ _ _ E2). destruct (on_uart 8 (set_dev d2 (set_dev d1 s))) as (d3 & E3).
    exists d3. exact E3. }
  rewrite (bind_ok_l _ _ _ _ _ Hd). destruct (cgaputc_run c (set_dev d s)) as (d' & m & ->). by exists d', m.
Qed.

Lemma consputc_same c s : panicked s = false -> exists s', consputc c s = Ok tt s' /\ same_input s s'.
Proof. intros Hp. destruct (consputc_run c s Hp) as (d & m & ->). eexists. split; [done|]. by repeat split. Qed.

(** ** Keys *)

(** One character back. *)
Lemma erase_run s a : holds s a -> edit a <> [] -> exists s', erase s = Ok tt s' /\ holds s' (MkLines (ready a) (removelast (edit a))) /\ input_lock s' = input_lock s.
Proof.
  intros [Hp Hl Hr Hw He Hf Hd] Hne. destruct (exists_last Hne) as (l & x & El). rewrite El in *. rewrite removelast_last.
  unfold erase. set (s1 := set_ie (u32 (ie s - 1)) s). rewrite (bind_ok_l _ _ _ _ _ (eq_refl : modify (fun s => set_ie (u32 (ie s - 1)) s) s = Ok tt s1)).
  destruct (consputc_same BACKSPACE s1 Hp) as (s2 & Hs2 & Hsame). exists s2. split; [done|]. split; [|by destruct Hsame as (_ & _ & _ & _ & _ & ->)].
  eapply holds_same; [exact Hsame|]. rewrite !length_app in *. cbn [length] in *. constructor; cbn; rewrite ?length_app; try done; [|lia|].
  - rewrite He, u32_pred. f_equal. lia.
  - intros k y Hk. apply Hd. rewrite app_assoc. by apply lookup_app_l_Some.
Qed.

(** Control-U. *)
Lemma kill_line_run n s a : holds s a -> tidy a -> (length (edit a) < n)%nat ->
  exists s', kill_line n s = Ok tt s' /\ holds s' (MkLines (ready a) []) /\ input_lock s' = input_lock s.
Proof.
  revert s a. induction n as [|n IH]; intros s a Hh Hno Hn; [lia|]. cbn [kill_line]. rewrite (bind_ok_l _ _ _ _ _ (eq_refl : get s = Ok s s)).
  pose proof Hh as [Hp Hl Hr Hw He Hf Hd]. rewrite He, Hw, length_app, u32_shift by (rewrite ?length_app in Hf; unfold INPUT_BUF in *; lia).
  destruct (decide (edit a = [])) as [Ee|Ee].
  { rewrite Ee in *. rewrite (proj2 (Z.eqb_eq _ _)) by (cbn; lia). exists s. split; [done|]. split; [|done]. destruct a; cbn in *. by subst. }
  destruct (exists_last Ee) as (l & x & El). assert (x <> NL) as Hx by (intros ->; apply Hno; unfold tidy; rewrite El; apply elem_of_app; right; apply list_elem_of_here).
  rewrite El, length_app in *. cbn [length] in *. rewrite (proj2 (Z.eqb_neq _ _)) by lia. cbn [negb].
  assert (ibuf_at (u32 (u32 (ir s + Z.of_nat (length (ready a) + (length l + 1))) - 1)) s = Ok x s) as Hat.
  { unfold ibuf_at, gets. rewrite u32_pred, u32_mod. replace (_ - 1) with (ir s + Z.of_nat (length (ready a ++ l))) by (rewrite length_app; lia).
    rewrite (Hd (length (ready a ++ l)) x); [done|]. by rewrite app_assoc, lookup_app_r, Nat.sub_diag. }
  rewrite (bind_ok_l _ _ _ _ _ Hat), (proj2 (Z.eqb_neq _ _)) by done. cbn [negb]. destruct (erase_run s a Hh) as (s1 & H1 & Hh1 & Hk1); [by rewrite El|].
  rewrite (bind_ok_l _ _ _ _ _ H1). destruct (IH s1 _ Hh1) as (s2 & H2 & Hh2 & Hk2).
  { unfold tidy in *. cbn. rewrite El in Hno |- *. rewrite removelast_last. intros Hin. apply Hno, elem_of_app. by left. }
  { cbn. rewrite El, removelast_last. lia. }
  exists s2. split; [done|]. split; [done|]. congruence.
Qed.

(** A character that joins the line. *)
Lemma store_holds s a c : holds s a -> Z.of_nat (length (ready a ++ edit a)) < INPUT_BUF ->
  holds (set_ie (u32 (ie s + 1)) (set_ibuf (<[Z.to_nat (ie s mod INPUT_BUF) := u8 c]> (ibuf s)) s)) (MkLines (ready a) (edit a ++ [u8 c])).
Proof.
  intros [Hp Hl Hr Hw He Hf Hd] Hroom. constructor; cbn; try done.
  - by rewrite length_insert.
  - rewrite He. unfold u32. rewrite Z.add_mod_idemp_l by lia. f_equal. rewrite !length_app. cbn. lia.
  - rewrite app_assoc, length_app. cbn. lia.
  - intros k x Hk. rewrite He, u32_mod. rewrite app_assoc in Hk.
    set (n := length (ready a ++ edit a)) in *. destruct (decide (k = n)) as [->|Hkn].
    + rewrite lookup_app_r, Nat.sub_diag in Hk by done. injection Hk as <-. apply list_lookup_insert_eq.
      rewrite Hl. apply Z2Nat.inj_lt; [apply Z.mod_pos_bound|..]; unfold INPUT_BUF; try apply Z.mod_pos_bound; lia.
    + pose proof (lookup_lt_Some _ _ _ Hk) as Hlt. rewrite length_app in Hlt. cbn in Hlt. fold n in Hlt.
      rewrite lookup_app_l in Hk by (fold n; lia). rewrite list_lookup_insert_ne; [by apply Hd|]. apply slots_differ; [|unfold INPUT_BUF in *; lia]. lia.
Qed.

Lemma full_spec s a : holds s a -> full a = negb (u32 (ie s - ir s) <? INPUT_BUF).
Proof.
  intros [Hp Hl Hr Hw He Hf Hd]. unfold full. rewrite He, length_app, u32_sub in * by (rewrite ?length_app in Hf; unfold INPUT_BUF in *; lia).
  destruct (Z.eqb_spec (Z.of_nat (length (ready a) + length (edit a))) INPUT_BUF), (Z.ltb_spec (Z.of_nat (length (ready a) + length (edit a))) INPUT_BUF); cbn; lia || done.
Qed.

(** The line is complete. *)
Lemma commit_holds s a : holds s a -> holds (set_iw (ie s) s) (MkLines (ready a ++ edit a) []).
Proof. intros [Hp Hl Hr Hw He Hf Hd]. constructor; cbn; rewrite ?app_nil_r; done. Qed.

Lemma key_run c s a : holds s a -> tidy a -> exists s', consoleintr_key c s = Ok tt s' /\ holds s' (key c a) /\ input_lock s' = input_lock s.
Proof.
  intros Hh Ht. pose proof Hh as [Hp Hl Hr Hw He Hf Hd]. unfold consoleintr_key, key.
  destruct (c =? C 80); [eexists; split; [done|]; split; [by eapply holds_same; [|exact Hh]|done]|].
  assert (length (edit a) <= Z.to_nat INPUT_BUF)%nat by (rewrite length_app in Hf; lia).
  destruct (c =? C 85); [apply kill_line_run; [done..|lia]|].
  destruct ((c =? C 72) || (c =? 0x7f)).
  { rewrite (bind_ok_l _ _ _ _ _ (eq_refl : get s = Ok s s)), He, Hw, length_app, u32_shift by (rewrite ?length_app in Hf; unfold INPUT_BUF in *; lia).
    destruct (decide (edit a = [])) as [Ee|Ee].
    - rewrite Ee, (proj2 (Z.eqb_eq _ _)) by (cbn; lia). exists s. split; [done|]. split; [|done]. destruct a; cbn in *. by subst.
    - rewrite (proj2 (Z.eqb_neq _ _)); [by apply erase_run|]. destruct (edit a); [done|cbn; lia]. }
  rewrite (bind_ok_l _ _ _ _ _ (eq_refl : get s = Ok s s)). pose proof (full_spec s a Hh) as Hfull.
  destruct (Z.eqb_spec c 0); cbn [negb andb orb]; [by exists s|]. rewrite Hfull. destruct (Z.ltb_spec (u32 (ie s - ir s)) INPUT_BUF) as [Hroom|]; cbn [negb]; [|by exists s].
  set (c' := if c =? CR then NL else c). set (put := fun s : console => set_ie (u32 (ie s + 1)) (set_ibuf (<[Z.to_nat (ie s mod INPUT_BUF) := u8 c']> (ibuf s)) s)).
  rewrite He, u32_sub in Hroom by (unfold INPUT_BUF in *; lia). pose proof (store_holds s a c' Hh Hroom) as Hh1. fold (put s) in Hh1.
  rewrite (bind_ok_l _ _ _ _ _ (eq_refl : modify put s = Ok tt (put s))). destruct (consputc_same c' (put s) Hp) as (s2 & H2 & Hsame).
  rewrite (bind_ok_l _ _ _ _ _ H2), (bind_ok_l _ _ _ _ _ (eq_refl : get s2 = Ok s2 s2)). pose proof (holds_same _ _ _ Hsame Hh1) as Hh2.
  set (a1 := MkLines (ready a) (edit a ++ [u8 c'])) in *. assert (input_lock s2 = input_lock s) as Hk by by destruct Hsame as (_ & _ & _ & _ & _ & ->).
  assert ((ie s2 =? u32 (ir s2 + INPUT_BUF)) = full a1) as ->.
  { rewrite (h_e _ _ Hh2), u32_shift by (pose proof (h_fit _ _ Hh2); unfold INPUT_BUF in *; lia). unfold full. by rewrite length_app. }
  destruct ((c' =? NL) || (c' =? C 68) || full a1); [|by exists s2].
  eexists. split; [reflexivity|]. split; [|done]. apply commit_holds in Hh2. eapply holds_same; [|exact Hh2]. by repeat split.
Qed.

Lemma key_tidy c a : 0 <= c < 256 -> tidy a -> tidy (key c a).
Proof.
  unfold tidy, key. intros Hc Ht. destruct (c =? C 80); [done|]. destruct (c =? C 85); [apply not_elem_of_nil|].
  destruct ((c =? C 72) || (c =? 0x7f)).
  { cbn. destruct (decide (edit a = [])) as [-> |He]; [apply not_elem_of_nil|]. destruct (exists_last He) as (l & x & El). rewrite El in *.
    rewrite removelast_last. intros Hin. apply Ht, elem_of_app. by left. }
  destruct ((c =? 0) || full a); [done|]. set (c' := if c =? CR then NL else c).
  destruct (Z.eqb_spec c' NL) as [_|Hne]; [cbn; apply not_elem_of_nil|]. cbn [orb]. destruct (_ || _); cbn; [apply not_elem_of_nil|].
  intros Hin. apply elem_of_app in Hin as [Hin|Hin]; [done|]. apply list_elem_of_singleton in Hin.
  rewrite u8_small in Hin by (unfold c'; destruct (c =? CR); lia). congruence.
Qed.

(** ** Reads *)

Lemma ready_empty s a : holds s a -> (ir s =? iw s) = match ready a with [] => true | _ => false end.
Proof.
  intros [Hp Hl Hr Hw He Hf Hd]. rewrite Hw. rewrite <- (u32_small (ir s)) at 1 by done. rewrite <- (Z.add_0_r (ir s)) at 1.
  rewrite length_app in Hf. rewrite u32_shift by (unfold INPUT_BUF in *; lia). destruct (ready a); [done|]. apply Z.eqb_neq. cbn. lia.
Qed.

Lemma pop_holds s a c l : holds s a -> ready a = c :: l ->
  ibuf_at (ir s) s = Ok c s /\ holds (set_ir (u32 (ir s + 1)) s) (MkLines l (edit a)).
Proof.
  intros [Hp Hl Hr Hw He Hf Hd] Ea. rewrite Ea in *. cbn [app length] in *. split.
  { unfold ibuf_at, gets. pose proof (Hd 0%nat c eq_refl) as H0. rewrite Z.add_0_r in H0. by rewrite H0. }
  assert (forall k, u32 (u32 (ir s + 1) + Z.of_nat k) = u32 (ir s + Z.of_nat (S k))) as Hs.
  { intros k. unfold u32. rewrite Z.add_mod_idemp_l by lia. f_equal. lia. }
  constructor; cbn; try done; [apply u32_range|by rewrite Hw, Hs|by rewrite He, Hs|lia|].
  intros k x Hk. rewrite <- (u32_mod (_ + _)), Hs, u32_mod. by apply Hd.
Qed.

(** The outcome of a read of [take_line]. *)
Definition outcome_of (killed : bool) (r : option bytes) (got : bytes) : rstate :=
  match r with Some l => RDone l | None => if killed then RKilled else RSleeps got end.

Lemma read_run killed n got s a : holds s a ->
  exists s', consoleread_loop killed n got s = Ok (outcome_of killed (take_line n got (ready a)).1.1 (take_line n got (ready a)).1.2) s' /\
    holds s' (MkLines (take_line n got (ready a)).2 (edit a)) /\ input_lock s' = input_lock s.
Proof.
  revert got s a. induction n as [|n IH]; intros got s a Hh; cbn [consoleread_loop take_line].
  { exists s. split; [done|]. split; [by destruct a|done]. }
  rewrite (bind_ok_l _ _ _ _ _ (eq_refl : get s = Ok s s)), (ready_empty s a Hh).
  destruct (ready a) as [|c l] eqn:Ea; [exists s; split; [by destruct killed|]; split; [destruct a; cbn in *; by subst|done]|].
  destruct (pop_holds s a c l Hh Ea) as [Hat Hpop]. rewrite (bind_ok_l _ _ _ _ _ Hat). set (s1 := set_ir (u32 (ir s + 1)) s) in *.
  rewrite (bind_ok_l _ _ _ _ _ (eq_refl : modify (set_ir (u32 (ir s + 1))) s = Ok tt s1)). destruct (c =? C 68).
  - destruct (0 <? length got)%nat; [|by exists s1]. eexists. split; [reflexivity|]. split; [|done].
    eapply (holds_same s); [|rewrite <- Ea; by destruct a]. repeat split. cbn. rewrite u32_pred. replace (ir s + 1 - 1) with (ir s) by lia.
    apply u32_small, (h_r _ _ Hh).
  - destruct (c =? NL); [by exists s1|]. by apply (IH (got ++ [c]) s1 (MkLines l (edit a))).
Qed.

(** ** The theorem *)

(** A source of characters that does not touch the input buffer. *)
Definition polite (getc : M console Z) : Prop :=
  forall s, exists c s', getc s = Ok c s' /\ same_input s s' /\ c < 256.

(** The characters that [getc] gives to an interrupt. *)
Fixpoint drain (getc : M console Z) (n : nat) (s : console) : list Z :=
  match n with
  | O => []
  | S n =>
      match getc s with
      | Ok c s1 => if 0 <=? c then c :: match consoleintr_key c s1 with Ok _ s2 => drain getc n s2 | _ => [] end else []
      | _ => []
      end
  end.

Definition keys (a : lines) (l : list Z) : lines := foldl (fun a c => key c a) a l.

Lemma consoleintr_loop_run getc n s a : polite getc -> holds s a -> tidy a -> (length (drain getc n s) < n)%nat ->
  exists s', consoleintr_loop getc n s = Ok tt s' /\ holds s' (keys a (drain getc n s)) /\ tidy (keys a (drain getc n s)) /\ input_lock s' = input_lock s.
Proof.
  intros Hg. revert s a. induction n as [|n IH]; intros s a Hh Ht Hlen; [lia|]. cbn [consoleintr_loop drain] in *.
  destruct (Hg s) as (c & s1 & Hc & Hsame & Hc256). rewrite Hc in *. rewrite (bind_ok_l _ _ _ _ _ Hc). pose proof (holds_same _ _ _ Hsame Hh) as Hh1.
  assert (input_lock s1 = input_lock s) as Hk by by destruct Hsame as (_ & _ & _ & _ & _ & ->).
  destruct (Z.leb_spec 0 c) as [H0|]; [|by exists s1].
  destruct (key_run c s1 a Hh1 Ht) as (s2 & H2 & Hh2 & Hk2). rewrite (bind_ok_l _ _ _ _ _ H2). rewrite H2 in *. cbn [length] in Hlen.
  destruct (IH s2 (key c a) Hh2 (key_tidy c a ltac:(lia) Ht) ltac:(lia)) as (s3 & H3 & Hh3 & Ht3 & Hk3). exists s3. split_and!; [done..|congruence].
Qed.

(** C37: the console's line discipline.  An interrupt handles exactly the
    characters its device gives, each as its key says: editing stays within the
    current line, a completed line becomes ready, and nothing is lost or
    overwritten.  A read returns the ready bytes in order, up to a newline or
    an end-of-file mark, or sleeps when there are none. *)
Theorem console_discipline (getc : M console Z) (n : nat) (s : console) (a : lines) :
  polite getc -> holds s a -> tidy a -> input_lock s = false ->
  let typed := drain getc n (set_input_lock true s) in
  ((length typed < n)%nat ->
     exists s', consoleintr getc n s = Ok tt s' /\ holds s' (keys a typed) /\ tidy (keys a typed) /\ input_lock s' = false) /\
  (forall killed m, let '(r, got, rest) := take_line m [] (ready a) in
     exists s', consoleread killed m s = Ok (outcome_of killed r got) s' /\ holds s' (MkLines rest (edit a)) /\ input_lock s' = false).
Proof.
  intros Hg Hh Ht Hk typed. split.
  - intros Hlen. unfold consoleintr. set (s1 := set_input_lock true s) in *. assert (holds s1 a) as Hh1 by by destruct Hh.
    assert (acquire_input s = Ok tt s1) as Hacq by (unfold acquire_input, Seq.acquire; by rewrite Hk). rewrite (bind_ok_l _ _ _ _ _ Hacq).
    destruct (consoleintr_loop_run getc n s1 a Hg Hh1 Ht Hlen) as (s2 & H2 & Hh2 & Ht2 & Hk2). rewrite (bind_ok_l _ _ _ _ _ H2).
    exists (set_input_lock false s2). split; [unfold release_input, Seq.release; by rewrite Hk2|]. split; [by destruct Hh2|done].
  - intros killed m. unfold consoleread, consoleread_on. set (s1 := set_input_lock true (set_inode_locked false s)). assert (holds s1 a) as Hh1 by by destruct Hh.
    rewrite (bind_ok_l _ _ _ _ _ (eq_refl : iunlock s = Ok tt (set_inode_locked false s))).
    assert (acquire_input (set_inode_locked false s) = Ok tt s1) as Hacq by (unfold acquire_input, Seq.acquire; cbn; by rewrite Hk).
    rewrite (bind_ok_l _ _ _ _ _ Hacq). cbn [length]. rewrite Nat.sub_0_r. destruct (read_run killed m [] s1 a Hh1) as (s2 & H2 & Hh2 & Hk2).
    destruct (take_line m [] (ready a)) as [[r got] rest]. cbn [fst snd] in *. rewrite (bind_ok_l _ _ _ _ _ H2).
    assert (release_input s2 = Ok tt (set_input_lock false s2)) as Hrel by (unfold release_input, Seq.release; by rewrite Hk2).
    rewrite (bind_ok_l _ _ _ _ _ Hrel). assert (forall b, holds (set_inode_locked b (set_input_lock false s2)) (MkLines rest (edit a))) as Hh3 by (intros b; by destruct Hh2).
    destruct (outcome_of killed r got); eexists; (split; [reflexivity|]); (split; [first [apply (Hh3 true)|by destruct Hh2]|done]).
Qed.

(** The keyboard and the serial port are such sources, when ports give bytes. *)
Lemma devices_polite : (forall p (d : D), 0 <= (io_in p d).1 < 256) -> polite kbdgetc /\ polite (on_dev uartgetc).
Proof.
  intros Hb. split; intros s.
  - unfold kbdgetc, on_dev, zoom, Kbd.kbdgetc, inb, modify, gets, mbind, M_bind, get, put, mret, M_ret. cbn.
    destruct (io_in Kbd.KBSTATP (hw (dev s))) as [st d1]. cbn. destruct (_ =? 0); cbn; [by eexists _, _; split_and!|].
    pose proof (Hb Kbd.KBDATAP d1) as Hd. destruct (io_in Kbd.KBDATAP d1) as [data d2]. cbn in *. pose proof (Kbd.kbd_step_byte (shift s) data Hd) as Hc.
    destruct (Kbd.kbd_step (shift s) data) as [sh c]. cbn in *. eexists _, _. split_and!; [done|by repeat split|lia].
  - unfold on_dev, zoom, uartgetc, inb, gets, mbind, M_bind, get, put, mret, M_ret. cbn. destruct (uart (dev s)); cbn; [|by eexists _, _; split_and!].
    destruct (io_in (COM1 + 5) (hw (dev s))) as [v d1]. cbn. destruct (truthy (v .& 1)); cbn; [|by eexists _, _; split_and!].
    pose proof (Hb COM1 d1) as Hd. destruct (io_in COM1 d1) as [c d2]. cbn in *. eexists _, _. split_and!; [done|by repeat split|lia].
Qed.
End spec.

(** ** The screen *)

Lemma foldr_insert_outside (f g : Z -> Z) (l : list Z) (m : gmap Z Z) i : (forall k, k ∈ l -> f k <> i) ->
  foldr (fun k m' => <[f k := g k]> m') m l !! i = m !! i.
Proof.
  induction l as [|k l IH]; intros Hl; [done|]. cbn. rewrite lookup_insert_ne by (apply Hl, list_elem_of_here). apply IH.
  intros j Hj. by apply Hl, list_elem_of_further.
Qed.

(** From a cursor on the first 24 lines, the cursor stays there and no cell
    outside them changes. *)
Lemma cga_bounds c pos m : 0 <= pos < 24 * 80 ->
  0 <= (cga_update c pos m).1 < 24 * 80 /\ forall i, ~ 0 <= i < 24 * 80 -> (cga_update c pos m).2 !! i = m !! i.
Proof.
  intros Hpos. unfold cga_update. pose proof (Z.mod_pos_bound pos 80). pose proof (Z.div_mod pos 80).
  set (p1 := if c =? NL then _ else _). assert (0 <= p1.1 <= 24 * 80 /\ forall i, ~ 0 <= i < 24 * 80 -> p1.2 !! i = m !! i) as [Hp Hm].
  { unfold p1. destruct (c =? NL); cbn; [split; [lia|done]|]. destruct (c =? BACKSPACE); cbn; [split; [destruct (Z.ltb_spec 0 pos); lia|done]|].
    split; [lia|]. intros i Hi. by rewrite lookup_insert_ne by lia. }
  destruct p1 as [pos1 m1]. cbn [fst snd] in *. destruct (Z.leb_spec 24 (pos1 / 80)) as [Hs|Hs]; cbn [fst snd].
  - assert (24 * 80 <= pos1) by (pose proof (Z.mul_div_le pos1 80); lia). assert (pos1 = 24 * 80) as -> by lia. split; [lia|]. intros i Hi.
    rewrite lookup_insert_ne by lia. unfold crt_clear, crt_move.
    rewrite (foldr_insert_outside (fun k => 24 * 80 - 80 + k) (fun _ => 0)) by (intros k Hk; apply elem_of_seqZ in Hk; lia).
    rewrite (foldr_insert_outside (fun k => 0 + k) (fun k => default 0 (m1 !! (80 + k)))) by (intros k Hk; apply elem_of_seqZ in Hk; lia). by apply Hm.
  - assert (pos1 < 24 * 80) by (destruct (decide (pos1 = 24 * 80)) as [->|]; [done|lia]). split; [lia|]. intros i Hi.
    rewrite lookup_insert_ne by lia. by apply Hm.
Qed.

(** A keyboard that has a few scan codes to give. *)
Module ConsoleEx.
#[global] Instance keyboard : Machine (list Z) := {
  io_in p d := if p =? Kbd.KBSTATP then (if bool_decide (d = []) then 0 else 1, d) else if p =? Kbd.KBDATAP then (u8 (default 0 (head d)), tail d) else (0, d);
  io_out _ _ d := d;
  mm_rd _ d := (0, d);
  mm_wr _ _ d := d
}.

(** The keys x, Backspace, h, i and Enter, pressed and released. *)
Definition codes : list Z := [0x2d; 0xad; 0x0e; 0x8e; 0x23; 0xa3; 0x17; 0x97; 0x1c; 0x9c].
Definition state : console := MkCon (MkIo codes 0 false false 1 0 0 0 ∅ []) false true false ∅ false (replicate 128 0) 0 0 0 0 true true [] 0.
End ConsoleEx.

Lemma console_discipline_witness : exists s', consoleintr kbdgetc 20 ConsoleEx.state = Ok tt s' /\ holds s' (MkLines (bytes_of "hi" ++ [NL]) []).
Proof.
  destruct (console_discipline kbdgetc 20 ConsoleEx.state (MkLines [] [])) as [H _].
  - apply devices_polite. intros p d. cbn. destruct (p =? _); [destruct (bool_decide _); cbn; lia|]. destruct (p =? _); cbn; [apply u8_range|lia].
  - constructor; try done; vm_compute; try (split; congruence); try congruence.
  - apply not_elem_of_nil.
  - reflexivity.
  - destruct (H ltac:(apply Nat.ltb_lt; vm_compute; reflexivity)) as (s' & H1 & H2 & _). exists s'. split; [exact H1|]. exact H2.
Defined.
