(* ===== verification/Entry.v ===== *)
(** * Entering the kernel

    The assembly that brings a processor into the C code (bootasm.S, entry.S and
    entryother.S, as code for [X86]), the boot page table and the start-up of
    all processors (main.c). *)

From S2P Require Import Prelude Memory Layout Cstring Spinlock Kalloc Vm Proc Pipe Block Log Fs File Kern KernRun Ulib Printf Dev X86 Trapasm Mp Kbd Console.

Module Entry.
Import X86 Trapasm.

(** ** The boot page table *)

Definition PTE_PS : Z := 0x080.

Definition entrypgdir : list Z :=
  <[Z.to_nat (KERNBASE ≫ PDXSHIFT) := 0 .| PTE_P .| PTE_W .| PTE_PS]>
  (<[0%nat := 0 .| PTE_P .| PTE_W .| PTE_PS]> (replicate (Z.to_nat NPDENTRIES) 0)).

(** The processor's translation of [va] by a directory of 4 MB pages; [user]: in
    ring 3. *)
Definition translate (pgdir : list Z) (user : bool) (va : Z) : option Z :=
  match pgdir !! Z.to_nat (PDX va) with
  | Some e =>
      if negb (truthy (e .& PTE_P)) || negb (truthy (e .& PTE_PS)) || (user && negb (truthy (e .& PTE_U))) then None
      else Some ((e .& 0xffc00000) + va mod 2 ^ 22)
  | None => None
  end.

(** ** Segment descriptors of asm.h *)

(** [.word w] *)
Definition word16 (w : Z) : bytes := le_enc 2 w.

Definition SEG_NULLASM : bytes := word16 0 ++ word16 0 ++ [0; 0; 0; 0].

Definition SEG_ASM (type base lim : Z) : bytes :=
  word16 ((lim ≫ 12) .& 0xffff) ++ word16 (base .& 0xffff) ++
  [(base ≫ 16) .& 0xff; 0x90 .| type; 0xC0 .| ((lim ≫ 28) .& 0xf); (base ≫ 24) .& 0xff].

(** The table of bootasm.S and entryother.S. *)
Definition gdt : bytes :=
  SEG_NULLASM ++ SEG_ASM (Seg.STA_X .| Seg.STA_R) 0 0xffffffff ++ SEG_ASM Seg.STA_W 0 0xffffffff.

(** A [struct segdesc] as the bytes of its bit fields. *)
Definition segdesc_bytes (d : Seg.segdesc) : bytes :=
  word16 (Seg.lim_15_0 d) ++ word16 (Seg.base_15_0 d) ++
  [Seg.base_23_16 d;
   Seg.stype d .| (Seg.s_app d ≪ 4) .| (Seg.dpl d ≪ 5) .| (Seg.present d ≪ 7);
   Seg.lim_19_16 d .| (Seg.avl d ≪ 4) .| (Seg.rsv1 d ≪ 5) .| (Seg.db d ≪ 6) .| (Seg.gran d ≪ 7);
   Seg.base_31_24 d].

(** ** Assembly *)

Section asm.
(** The addresses of the symbols. *)
Context (sym : string -> Z).

Definition KCODE : Z := Z.of_nat Seg.SEG_KCODE ≪ 3.
Definition KDATA : Z := Z.of_nat Seg.SEG_KDATA ≪ 3.

(** entry.S: [entry] *)
Definition entry : list instr :=
  [Movl (R CR4) (R EAX); Orl CR4_PSE EAX; Movl (R EAX) (R CR4);
   Movl (I (v2p (sym "entrypgdir"))) (R EAX); Movl (R EAX) (R CR3);
   Movl (R CR0) (R EAX); Orl (CR0_PG .| CR0_WP) EAX; Movl (R EAX) (R CR0);
   Movl (I (sym "stack" + KSTACKSIZE)) (R ESP);
   Movl (I (sym "main")) (R EAX); JmpAt (R EAX)].

(** The data segments of protected mode, common to both [start32]s. *)
Definition load_data_segments : list instr :=
  [Movw (I KDATA) EAX; Movw (R EAX) DS; Movw (R EAX) ES; Movw (R EAX) SS;
   Movw (I 0) EAX; Movw (R EAX) FS; Movw (R EAX) GS].

(** What follows a call that should not return. *)
Definition bochs : list instr :=
  [Movw (I 0x8a00) EAX; Movw (R EAX) EDX; Outw EAX EDX; Movw (I 0x8ae0) EAX; Outw EAX EDX; Jmp "spin"].

Definition zero_segments : list instr :=
  [Cli; Xorw EAX EAX; Movw (R EAX) DS; Movw (R EAX) ES; Movw (R EAX) SS].

Definition protected_mode (start32 : string) : list instr :=
  [Lgdt (Z.of_nat (length gdt) - 1) (sym "gdt");
   Movl (R CR0) (R EAX); Orl CR0_PE EAX; Movl (R EAX) (R CR0);
   Ljmp KCODE start32].

(** entryother.S *)
Definition entryother : list instr := zero_segments ++ protected_mode "entryother32".

Definition entryother32 : list instr :=
  load_data_segments ++
  [Movl (R CR4) (R EAX); Orl CR4_PSE EAX; Movl (R EAX) (R CR4);
   Movl (At None (sym "entryother" - 12)) (R EAX); Movl (R EAX) (R CR3);
   Movl (R CR0) (R EAX); Orl (CR0_PE .| CR0_PG .| CR0_WP) EAX; Movl (R EAX) (R CR0);
   Movl (At None (sym "entryother" - 4)) (R ESP);
   CallAt (At None (sym "entryother" - 8)) "bochs"] ++ bochs.

(** bootasm.S; each part falls through to the next. *)
Definition seta20_2 : list instr :=
  [Inb 0x64 EAX; Testb 0x2 EAX; Jnz "seta20.2";
   Movb (I 0xdf) EAX; Outb EAX 0x60] ++ protected_mode "start32".

Definition seta20_1 : list instr :=
  [Inb 0x64 EAX; Testb 0x2 EAX; Jnz "seta20.1";
   Movb (I 0xd1) EAX; Outb EAX 0x64] ++ seta20_2.

Definition start : list instr := zero_segments ++ seta20_1.

Definition start32 : list instr :=
  load_data_segments ++
  [Movl (I (sym "start")) (R ESP); Call "bootmain" "bochs"] ++ bochs.

Definition text (l : string) : list instr :=
  if bool_decide (l = "entryother32") then entryother32
  else if bool_decide (l = "seta20.1") then seta20_1
  else if bool_decide (l = "seta20.2") then seta20_2
  else if bool_decide (l = "start32") then start32
  else if bool_decide (l = "spin") then [Jmp "spin"]
  else [].
End asm.

(** ** main.c *)

Section main.
Context {S : Type} `{BD : BlockDev S} {D : Type} `{!Machine D}.
Context (kend kdata trapret forkret_pc : Z) (dsw : Fs.devsw (S := S)).
(** The addresses of the symbols, and of the fields [gdt], [cpu] and [ts] of
    [cpus[i]]; [vectors[]]. *)
Context (sym : string -> Z) (a_gdt a_cpu a_ts : nat -> Z) (vectors : nat -> Z).
(** The initialisers of the buffer cache and of the disk driver, on the block
    device; [_binary_entryother_size] and [_binary_initcode_size]. *)
Context (binit : M S unit) (ideinit : Z -> M S unit) (entryother_size initcode_size : Z).
(** The devices as the processor with an APIC id sees them: each has its own
    local APIC. *)
Context (run_on : Z -> D -> D).
(** Bounds of [mpinit]'s walk and of [lapicinit]'s wait. *)
Context (fuel patience : nat).

(** The fields of [struct cpu] that starting sets, beside those of [Seg.cpust];
    the register loaded by [lidt]. *)
Record cpu := MkCpu { seg : Seg.cpust; started : bool; idtr : Z * Z }.

(** The whole machine.  Memory is that of the kernel state; [cur] is the [cpu]
    of the processor that runs. *)
Record machine := MkMachine {
  kern : Kern.kern (S := S);
  mps : Mp.mps (D := D);
  cons : Console.console (D := D);
  idt : list gatedesc;
  cpus : list cpu;
  cur : nat;
  kpgdir : Z
}.

Definition set_kern x s := MkMachine x (mps s) (cons s) (idt s) (cpus s) (cur s) (kpgdir s).
Definition set_mps x s := MkMachine (kern s) x (cons s) (idt s) (cpus s) (cur s) (kpgdir s).
Definition set_cons x s := MkMachine (kern s) (mps s) x (idt s) (cpus s) (cur s) (kpgdir s).
Definition set_idt x s := MkMachine (kern s) (mps s) (cons s) x (cpus s) (cur s) (kpgdir s).
Definition set_cpus x s := MkMachine (kern s) (mps s) (cons s) (idt s) x (cur s) (kpgdir s).
Definition set_cur x s := MkMachine (kern s) (mps s) (cons s) (idt s) (cpus s) x (kpgdir s).
Definition set_kpgdir x s := MkMachine (kern s) (mps s) (cons s) (idt s) (cpus s) (cur s) x.

(** Kernel memory. *)
Definition kmem (s : machine) : mem := KernRun.kmem (kern s).
Definition set_kmem (m : mem) (s : machine) : machine :=
  let k := kern s in let f := Kern.kf k in
  set_kern (Kern.set_kf (File.set_fmem (Kalloc.set_mem m (File.fmem f)) f) k) s.

(** The drivers, with the memory they share with the kernel. *)
Definition io_of (s : machine) : io := Dev.set_ram (kmem s) (Mp.dev (mps s)).
Definition put_io (x : io) (s : machine) : machine := set_kmem (Dev.ram x) (set_mps (Mp.set_dev x (mps s)) s).

Definition on_kern {A} (m : M Kern.kern A) : M machine A := zoom kern set_kern m.
Definition on_mem {A} (m : M Kalloc.kst A) : M machine A := on_kern (Kern.on_m m).
Definition on_blk (m : M S unit) : M machine unit := on_kern (Kern.on_fs (Fs.on_log (Log.on_dev m))).
Definition on_io {A} (m : M io A) : M machine A := zoom io_of put_io m.
Definition on_mps {A} (m : M Mp.mps A) : M machine A :=
  zoom (fun s => Mp.set_dev (io_of s) (mps s)) (fun x s => put_io (Mp.dev x) (set_mps x s)) m.
Definition on_cons {A} (m : M Console.console A) : M machine A :=
  zoom (fun s => Console.set_dev (io_of s) (cons s)) (fun x s => put_io (Console.dev x) (set_cons x s)) m.

(** [cpunum()], called with interrupts disabled. *)
Definition cpunum : M machine nat := r ← on_io (Dev.cpunum false 0 0); mret (Z.to_nat r.1).

Definition upd_cpu (i : nat) (f : cpu -> cpu) : M machine unit :=
  s ← get;
  match cpus s !! i with
  | Some c => put (set_cpus (<[i := f c]> (cpus s)) s)
  | None => fault
  end.
Definition on_seg (f : Seg.cpust -> Seg.cpust) (c : cpu) : cpu := MkCpu (f (seg c)) (started c) (idtr c).

(** [cpu->id] *)
Definition cpu_id : M machine Z := s ← get; mret (default 0 (Mp.cpus (mps s) !! cur s)).

Definition seginit : M machine unit :=
  c ← cpunum;
  upd_cpu c (on_seg (Seg.seginit (a_gdt c) (a_cpu c)));;
  modify (set_cur c).

(** [lcr3(v2p(kpgdir))] on processor [c] *)
Definition switchkvm (c : nat) : M machine unit :=
  k ← gets kpgdir;
  upd_cpu c (on_seg (fun g => Seg.switchkvm (Seg.set_kpgdir k g))).

Definition kvmalloc : M machine unit :=
  k ← on_mem (Vm.setupkvm kdata);
  modify (set_kpgdir k);;
  switchkvm 0.

Definition cprintf (fmt : bytes) (argp : list Z) : M machine unit :=
  on_cons (Console.cprintf (fun _ => [0]) (Some (fmt ++ [0])) argp).

Definition tvinit : M machine unit :=
  s ← get;
  let '(l, lock) := Trapasm.tvinit vectors (idt s) in
  put (set_idt l s);;
  on_kern (modify (Kern.set_tickslock lock)).

Definition idtinit : M machine unit :=
  c ← gets cur;
  upd_cpu c (fun c => MkCpu (seg c) (started c) (Trapasm.idtinit (sym "idt"))).

(** Up to [scheduler()], which does not return. *)
Definition mpmain : M machine unit :=
  id ← cpu_id;
  cprintf (bytes_of "cpu%d: starting" ++ [NL]) [id];;
  idtinit;;
  c ← gets cur;
  upd_cpu c (fun c => MkCpu (seg c) true (idtr c)).

(** On processor [c]. *)
Definition mpenter (c : nat) : M machine unit :=
  switchkvm c;;
  seginit;;
  on_io (Dev.lapicinit patience);;
  mpmain.

(** Where the entry code of the other processors goes. *)
Definition code : Z := p2v 0x7000.

(** The words below the code, and the start of processor [c]; the result is the
    stack. *)
Definition start_ap (c : nat) : M machine Z :=
  stack ← on_mem Kalloc.kalloc;
  on_mem (Vm.st32 (code - 4) (u32 (stack + KSTACKSIZE)));;
  on_mem (Vm.st32 (code - 8) (sym "mpenter"));;
  on_mem (Vm.st32 (code - 12) (v2p (sym "entrypgdir")));;
  s ← get;
  on_io (Dev.lapicstartap (default 0 (Mp.cpus (mps s) !! c)) (v2p code));;
  mret stack.

(** Processor [c] runs, until it is in its scheduler. *)
Definition run_ap (c : nat) : M machine unit :=
  s ← get;
  let ids := Mp.cpus (mps s) in
  on_io (modify (fun x => Dev.set_hw (run_on (default 0 (ids !! c)) (Dev.hw x)) x));;
  mpenter c;;
  on_io (modify (fun x => Dev.set_hw (run_on (default 0 (ids !! cur s)) (Dev.hw x)) x));;
  modify (set_cur (cur s)).

(** The spin on [c->started], never ending if it is not set. *)
Definition wait_started (c : nat) : M machine unit :=
  s ← get;
  if started <$> cpus s !! c is Some true then mret tt else nofuel.

Fixpoint startothers_loop (c n : nat) : M machine unit :=
  match n with
  | O => mret tt
  | Datatypes.S n =>
      me ← cpunum;
      (if bool_decide (c = me) then mret tt
       else _ ← start_ap c; run_ap c;; wait_started c);;
      startothers_loop (Datatypes.S c) n
  end.

Definition startothers : M machine unit :=
  on_mem (Vm.memmove code (sym "_binary_entryother_start") entryother_size);;
  n ← on_io (gets Dev.ncpu);
  startothers_loop 0 (Z.to_nat n).

Definition main : M machine unit :=
  on_mem (Kalloc.kinit1 kend kend (p2v (4 * 1024 * 1024)));;
  kvmalloc;;
  on_mps (Mp.mpinit fuel);;
  on_io (Dev.lapicinit patience);;
  seginit;;
  id ← cpu_id;
  cprintf (NL :: bytes_of "cpu%d: starting xv6" ++ [NL; NL]) [id];;
  on_io Dev.picinit;;
  on_io Dev.ioapicinit;;
  on_cons Console.consoleinit;;
  on_io Dev.uartinit;;
  on_kern (Kern.on_p Proc.pinit);;
  tvinit;;
  on_blk binit;;
  on_kern (Kern.on_f File.fileinit);;
  n ← on_io (gets Dev.ncpu);
  on_blk (ideinit n);;
  mp ← on_io (gets Dev.ismp);
  when (negb mp) (on_io Dev.timerinit);;
  startothers;;
  on_mem (Kalloc.kinit2 kend (p2v (4 * 1024 * 1024)) (p2v PHYSTOP));;
  on_kern (Kern.userinit kdata trapret forkret_pc dsw (sym "_binary_initcode_start") initcode_size);;
  mpmain.
End main.
End Entry.
