(* ===== verification/EntrySpec.v ===== *)
(** * Starting the processors

    The boot page table maps the first 4 MB twice; [entry] and [entryother] turn
    paging on with it and enter C on their stacks; the stacks [startothers]
    gives to the other processors are ones it maps. *)

From S2P Require Import Prelude Memory Layout Cstring Spinlock Kalloc Vm VmSpec Proc Pipe Block Log Fs File Kern KernRun KernArg Ulib Printf Dev X86 Trapasm AsmRun Mp Kbd Console Entry.

Import X86.

(** ** The boot page table *)

(** 4 MB *)
Definition four_mb : Z := 2 ^ 22.

Lemma PDX_div va : 0 <= va < 2 ^ 32 -> PDX va = va / four_mb.
Proof.
  intros H. unfold PDX, PDXSHIFT, four_mb. rewrite Z.shiftr_div_pow2 by lia. change 0x3FF with (Z.ones 10).
  rewrite Z.land_ones by lia. apply Z.mod_small. split; [apply Z.div_pos|apply Z.div_lt_upper_bound]; lia.
Qed.

(** [entrypgdir] maps the low 4 MB at 0 and at [KERNBASE], for the kernel only,
    and nothing else. *)
Lemma entrypgdir_maps va user : 0 <= va < 2 ^ 32 ->
  Entry.translate Entry.entrypgdir user va =
  if user then None
  else if decide (va < four_mb) then Some va
  else if decide (KERNBASE <= va < KERNBASE + four_mb) then Some (v2p va)
  else None.
Proof.
  intros H. unfold Entry.translate, Entry.entrypgdir. rewrite PDX_div by done.
  assert (Hq : 0 <= va / four_mb < 1024) by (unfold four_mb; split; [apply Z.div_pos|apply Z.div_lt_upper_bound]; lia).
  change (Z.to_nat (KERNBASE ≫ PDXSHIFT)) with 512%nat. change (Z.to_nat NPDENTRIES) with 1024%nat.
  pose proof (Z.div_mod va four_mb ltac:(done)) as Hd. pose proof (Z.mod_pos_bound va four_mb ltac:(done)) as Hm.
  destruct (decide (va / four_mb = 512)) as [E|N1]; [|destruct (decide (va / four_mb = 0)) as [E|N2]].
  - rewrite E. change (Z.to_nat 512) with 512%nat. rewrite list_lookup_insert_eq by (rewrite length_insert, length_replicate; lia).
    destruct user; [done|]. unfold v2p, KERNBASE, four_mb in *. rewrite decide_False, decide_True, u32_small by lia. transitivity (Some (0 + va mod 2 ^ 22)); [reflexivity|f_equal; lia].
  - rewrite E. change (Z.to_nat 0) with 0%nat. rewrite list_lookup_insert_ne, list_lookup_insert_eq by (rewrite ?length_replicate; lia).
    destruct user; [done|]. unfold four_mb in *. rewrite decide_True by lia. transitivity (Some (0 + va mod 2 ^ 22)); [reflexivity|f_equal; lia].
  - rewrite !list_lookup_insert_ne by lia. rewrite lookup_replicate_2 by lia. destruct user; [done|].
    unfold KERNBASE, four_mb in *. rewrite !decide_False by lia. done.
Qed.

(** ** Segments *)

Lemma byte_of_bits x y : x .| (1 ≪ 4) .| (y ≪ 5) .| (1 ≪ 7) = 0x90 .| x .| (y ≪ 5).
Proof.
  rewrite <- !Z.lor_assoc, (Z.lor_comm (1 ≪ 4)), <- !Z.lor_assoc. change ((1 ≪ 7) .| (1 ≪ 4)) with 0x90.
  by rewrite (Z.lor_comm _ 0x90), (Z.lor_assoc x 0x90), (Z.lor_comm x), <- Z.lor_assoc.
Qed.

(** The assembler's [SEG_ASM] and the C compiler's [SEG] lay out the same
    descriptor. *)
Lemma SEG_ASM_SEG type base lim : 0 <= base < 2 ^ 32 -> 0 <= lim < 2 ^ 32 ->
  Entry.segdesc_bytes (Seg.SEG type base lim 0) = Entry.SEG_ASM type base lim.
Proof.
  intros Hb Hl. unfold Entry.segdesc_bytes, Entry.SEG_ASM, Seg.SEG.
  cbn [Seg.lim_15_0 Seg.base_15_0 Seg.base_23_16 Seg.stype Seg.s_app Seg.dpl Seg.present Seg.lim_19_16 Seg.avl Seg.rsv1 Seg.db Seg.gran Seg.base_31_24].
  rewrite !u32_small by lia. rewrite byte_of_bits. cbn [Z.shiftl]. rewrite !Z.lor_0_r.
  assert (Hs : forall x k n, 0 <= k -> 0 <= n -> 0 <= x < 2 ^ (k + n) -> (x ≫ k) .& Z.ones n = x ≫ k).
  { intros x k n Hk Hn Hx. rewrite Z.shiftr_div_pow2, Z.land_ones by lia. apply Z.mod_small.
    rewrite Z.pow_add_r in Hx by lia. split; [apply Z.div_pos|apply Z.div_lt_upper_bound]; lia. }
  assert (E1 : (lim ≫ 28) .& 0xf = lim ≫ 28) by (apply (Hs lim 28 4); lia).
  assert (E2 : (base ≫ 24) .& 0xff = base ≫ 24) by (apply (Hs base 24 8); lia).
  rewrite E1, E2. do 5 f_equal. rewrite <- Z.lor_assoc. apply (Z.lor_comm _ 192).
Qed.

(** ** The code *)

Lemma lor_mask x m : 0 <= m < 2 ^ 32 -> u32 (x .| m) .& m = m.
Proof.
  intros H. unfold u32. rewrite <- Z.land_ones, <- Z.land_assoc, (Z.land_comm (Z.ones 32)) by lia.
  rewrite Z.land_ones, Z.mod_small by lia. apply Z.bits_inj'. intros i _. rewrite Z.land_spec, Z.lor_spec. by destruct (Z.testbit x i), (Z.testbit m i).
Qed.

Section asm.
Context {D : Type} `{!Machine D} (sym : string -> Z) (cfun : Z -> M (@mach D) unit).
#[local] Abbreviation exec := (exec sym (Entry.text sym) cfun).
Implicit Types s : @mach D.

Lemma exec_simple n i code s s' : simple i s = Ok tt s' ->
  match i with Jmp _ | Jnz _ | Ljmp _ _ | Call _ _ | CallAt _ _ | JmpAt _ | Ret | Iret => False | _ => True end ->
  exec (S n) (i :: code) s = exec n code s'.
Proof. intros E Hi. rewrite <- (bind_ok_l _ (fun _ => exec n code) _ _ _ E). clear E. by destruct i. Qed.

(** [entry] turns paging on with [entrypgdir] and jumps to [main] on the
    kernel's first stack. *)
Lemma entry_runs n s : exists s', exec (11 + n) (Entry.entry sym) s = Ok tt s' /\
  getr s' EIP = u32 (sym "main") /\ getr s' ESP = u32 (sym "stack" + KSTACKSIZE) /\ getr s' CR3 = v2p (sym "entrypgdir") /\
  getr s' CR4 .& CR4_PSE = CR4_PSE /\ getr s' CR0 .& (CR0_PG .| CR0_WP) = CR0_PG .| CR0_WP /\ ram s' = ram s.
Proof.
  unfold Entry.entry. cbn [Nat.add].
  do 10 (erewrite exec_simple by (reflexivity || exact Logic.I); cbn [seg]; gr).
  eexists. split; [reflexivity|]. cbn [seg]. gr. rewrite !u32_idemp. unfold v2p at 1. rewrite !u32_idemp.
  split_and!; try done; by apply lor_mask.
Qed.

(** The memory of a processor that starts holds what [startothers] wrote below
    the code. *)
Record ap_memory s (stack enter pgdir : Z) : Prop := {
  am_wf : mem_wf (ram s);
  am_stack : rd32 (ram s) (0x7000 - 4) = stack;
  am_enter : rd32 (ram s) (0x7000 - 8) = enter;
  am_pgdir : rd32 (ram s) (0x7000 - 12) = pgdir
}.

Lemma getr_ram m s r : getr (set_ram m s) r = getr s r.
Proof. done. Qed.

Lemma getr_gdtr g s r : getr (set_gdtr g s) r = getr s r.
Proof. done. Qed.

(** One more instruction; the registers are read through the assignments so far. *)
Ltac step := erewrite exec_simple by (reflexivity || exact Logic.I); cbn [seg]; repeat first [progress gr | rewrite getr_gdtr].

Lemma entryother_16 n s : exists s1, exec (10 + n) (Entry.entryother sym) s = exec n (Entry.entryother32 sym) s1 /\
  ram s1 = ram s /\ gdtr s1 = (Z.of_nat (length Entry.gdt) - 1, sym "gdt") /\ getr s1 CS = 8 /\ getr s1 EFLAGS .& FL_IF = 0.
Proof.
  unfold Entry.entryother, Entry.zero_segments, Entry.protected_mode. cbn [app Nat.add]. do 9 step.
  eexists. split; [reflexivity|]. cbn [seg]. split; [done|]. split; [done|]. gr. split; [done|]. rewrite getr_gdtr. gr.
  apply clear_IF.
Qed.

Lemma load_segments n code s : exists s1, exec (7 + n) (Entry.load_data_segments ++ code) s = exec n code s1 /\
  ram s1 = ram s /\ gdtr s1 = gdtr s /\ getr s1 DS = 16 /\ getr s1 ES = 16 /\ getr s1 SS = 16 /\
  forall r, r ∈ [CS; EFLAGS; CR0; CR3; CR4] -> getr s1 r = getr s r.
Proof.
  unfold Entry.load_data_segments. cbn [app Nat.add]. do 7 step.
  eexists. split; [reflexivity|]. split; [done|]. split; [done|]. gr.
  rewrite (u32_small Entry.KDATA), movw_low by done. do 3 (split; [done|]).
  intros r Hr. set_unfold in Hr. destruct_or? Hr; subst r; by gr.
Qed.

(** [entryother], linked at 0x7000, calls the function it finds there on the
    stack it finds there, in protected mode with paging on. *)
Lemma entryother_runs s stack enter pgdir : ap_memory s stack enter pgdir -> sym "entryother" = 0x7000 ->
  4 <= stack -> exists s1 K, exec 40 (Entry.entryother sym) s = (cfun enter;; K) s1 /\
    getr s1 ESP = stack - 4 /\ getr s1 CR3 = pgdir /\
    getr s1 CR4 .& CR4_PSE = CR4_PSE /\ getr s1 CR0 .& (CR0_PE .| CR0_PG .| CR0_WP) = CR0_PE .| CR0_PG .| CR0_WP /\
    getr s1 EFLAGS .& FL_IF = 0 /\
    getr s1 CS = 8 /\ getr s1 DS = 16 /\ getr s1 ES = 16 /\ getr s1 SS = 16 /\
    gdtr s1 = (Z.of_nat (length Entry.gdt) - 1, sym "gdt") /\
    forall a, a < stack - 4 \/ stack <= a -> rd8 (ram s1) a = rd8 (ram s) a.
Proof.
  intros [Hm Hs He Hp] Hsym H4.
  assert (Hr : forall a, 0 <= rd32 (ram s) a < 2 ^ 32) by (intros; by apply rd32_range).
  pose proof (Hr (0x7000 - 4)) as Hs'. pose proof (Hr (0x7000 - 12)) as Hp'. rewrite Hs in Hs'. rewrite Hp in Hp'.
  destruct (entryother_16 30 s) as (s1 & E1 & R1 & G1 & C1 & F1). change 40%nat with (10 + 30)%nat. rewrite E1. clear E1.
  unfold Entry.entryother32. destruct (load_segments 23 ([Movl (R CR4) (R EAX); Orl CR4_PSE EAX; Movl (R EAX) (R CR4);
   Movl (At None (sym "entryother" - 12)) (R EAX); Movl (R EAX) (R CR3);
   Movl (R CR0) (R EAX); Orl (CR0_PE .| CR0_PG .| CR0_WP) EAX; Movl (R EAX) (R CR0);
   Movl (At None (sym "entryother" - 4)) (R ESP);
   CallAt (At None (sym "entryother" - 8)) "bochs"] ++ Entry.bochs) s1) as (s2 & E2 & R2 & G2 & D2 & ES2 & SS2 & O2).
  change 30%nat with (7 + 23)%nat. rewrite E2. clear E2. cbn [app]. rewrite R1 in R2. do 9 step.
  rewrite Hsym. cbn [ram setr]. rewrite R2.
  change (u32 (0x7000 - 4)) with (0x7000 - 4). change (u32 (0x7000 - 12)) with (0x7000 - 12).
  rewrite Hs, Hp, (u32_small stack), (u32_small pgdir), !u32_idemp by done. set (s3 := setr ESP stack _).
  assert (E3 : getr s3 ESP = stack) by (unfold s3; by gr). assert (R3 : ram s3 = ram s) by exact R2.
  change (exec 14 ?c s3) with ((v ← value (At None (0x7000 - 8)); call sym cfun v "bochs";; exec 13 Entry.bochs) s3).
  rewrite (bind_ok_l _ _ _ enter s3) by (rewrite <- He, <- R3; reflexivity). unfold call. rewrite bind_assoc.
  rewrite (bind_ok_l _ _ _ _ _ (push_ok (sym "bochs") s3 ltac:(lia))), bind_assoc. eexists _, _. split; [reflexivity|].
  rewrite E3. gr. split; [done|]. rewrite !getr_ram. unfold s3. gr. rewrite !O2 by dec_regs. rewrite u32_small by done.
  split_and!; try done; [by apply lor_mask..|by rewrite <- G1, <- G2|].
  intros a Ha. cbn [ram setr set_ram]. fold s3. rewrite rd8_wr32_ne by lia. by rewrite R2.
Qed.
End asm.

(** ** startothers *)

Section start.
Context {D : Type} `{!Machine D}.

Lemma lapicw_run i v (x : @io D) : exists d, lapicw i v x = Ok tt (Dev.set_hw d x).
Proof.
  unfold lapicw, lapicr, wr, rd, gets, modify, get, put, mret, M_ret, mbind, M_bind. cbn.
  destruct (mm_rd _ _) as [r d]. by exists d.
Qed.

Lemma startup_ipi_run id addr n (x : @io D) : exists d, startup_ipi id addr n x = Ok tt (Dev.set_hw d x).
Proof.
  revert x. induction n as [|n IH]; intros x; cbn [startup_ipi]; [by exists (Dev.hw x); destruct x|].
  destruct (lapicw_run ICRHI (Z.shiftl id 24) x) as [d1 E1]. rewrite (bind_ok_l _ _ _ _ _ E1).
  destruct (lapicw_run ICRLO (STARTUP .| Z.shiftr addr 12) (Dev.set_hw d1 x)) as [d2 E2]. rewrite (bind_ok_l _ _ _ _ _ E2).
  destruct (IH (Dev.set_hw d2 x)) as [d3 E3]. exists d3. exact E3.
Qed.

(** The warm reset vector is all [lapicstartap] writes in memory. *)
Definition warm_reset (m : mem) (addr : Z) : mem := wr16 (wr16 m wrv 0) (wrv + 2) (u16 (Z.shiftr addr 4)).

Lemma lapicstartap_run id addr (x : @io D) : exists d,
  lapicstartap id addr x = Ok tt (Dev.set_hw d (Dev.set_ram (warm_reset (Dev.ram x) addr) x)).
Proof.
  unfold lapicstartap. unfold outb, modify at 1 2 3. do 3 (erewrite bind_ok_l by reflexivity).
  set (y := Dev.set_ram _ _). destruct (lapicw_run ICRHI (Z.shiftl id 24) y) as [d1 E1]. rewrite (bind_ok_l _ _ _ _ _ E1).
  destruct (lapicw_run ICRLO (INIT .| LEVEL .| ASSERT) (Dev.set_hw d1 y)) as [d2 E2]. rewrite (bind_ok_l _ _ _ _ _ E2).
  rewrite (bind_ok_l _ _ _ tt (Dev.set_hw d2 (Dev.set_hw d1 y))) by done.
  destruct (lapicw_run ICRLO (INIT .| LEVEL) (Dev.set_hw d2 (Dev.set_hw d1 y))) as [d3 E3]. rewrite (bind_ok_l _ _ _ _ _ E3).
  rewrite (bind_ok_l _ _ _ tt (Dev.set_hw d3 (Dev.set_hw d2 (Dev.set_hw d1 y)))) by done.
  destruct (startup_ipi_run id addr 2 (Dev.set_hw d3 (Dev.set_hw d2 (Dev.set_hw d1 y)))) as [d4 E4]. exists d4. exact E4.
Qed.

Lemma warm_reset_out m addr a : a < wrv \/ wrv + 4 <= a -> rd8 (warm_reset m addr) a = rd8 m a.
Proof. intros H. unfold warm_reset, wr16. by rewrite !rd8_wr8_ne by lia. Qed.

Lemma mem_wf_warm_reset m addr : mem_wf m -> mem_wf (warm_reset m addr).
Proof. intros H. unfold warm_reset, wr16. by do 4 apply mem_wf_wr8. Qed.
End start.

Section ap.
Context {S : Type} `{BD : BlockDev S} {D : Type} `{!Machine D}.
Context (kend : Z) (Hkend : KERNLINK < kend).
Context (sym : string -> Z) (Hmpenter : 0 <= sym "mpenter" < 2 ^ 32) (cfun : Z -> M (@mach D) unit).
#[local] Abbreviation machine := (Entry.machine (S := S) (D := D)).
#[local] Abbreviation fmem s := (File.fmem (Kern.kf (Entry.kern s))).
Implicit Types s : machine.

Definition put_fmem (K : Kalloc.kst) s : machine :=
  Entry.set_kern (Kern.set_kf (File.set_fmem K (Kern.kf (Entry.kern s))) (Entry.kern s)) s.

Lemma on_mem_ok {A} (m : M Kalloc.kst A) s a K : m (fmem s) = Ok a K -> Entry.on_mem m s = Ok a (put_fmem K s).
Proof. intros E. unfold Entry.on_mem, Entry.on_kern. erewrite zoom_ok; [done|]. unfold Kern.on_m, Kern.on_f, File.on_mem. erewrite zoom_ok; [done|]. by apply zoom_ok. Qed.

Lemma on_io_ok {A} (m : M io A) s a x : m (Entry.io_of s) = Ok a x -> Entry.on_io m s = Ok a (Entry.put_io x s).
Proof. apply zoom_ok. Qed.

(** Memory after the words below the code are written. *)
Definition ap_words (m : mem) (stack : Z) : mem :=
  wr32 (wr32 (wr32 m (Entry.code - 4) (stack + KSTACKSIZE)) (Entry.code - 8) (sym "mpenter")) (Entry.code - 12) (v2p (sym "entrypgdir")).

Lemma start_ap_run s stack l c : Kalloc.rep kend (fmem s) (stack :: l) -> exists s',
  Entry.start_ap sym c s = Ok stack s' /\ Kalloc.rep kend (fmem s') l /\
  Entry.kmem s' = warm_reset (ap_words (Entry.kmem s) stack) (v2p Entry.code).
Proof.
  intros Hr. destruct (Kalloc.kalloc_rep kend _ _ Hr) as (K1 & E1 & Hr1 & _ & Em1). cbn [hd tl] in *.
  assert (Hst : Kalloc.page_ok kend stack) by (eapply rep_page_ok; [exact Hr|left]).
  pose proof (Kalloc.page_ok_range kend stack Hst) as Hrange. unfold PGSIZE in Hrange.
  unfold Entry.start_ap. rewrite (bind_ok_l _ _ _ _ _ (on_mem_ok _ _ _ _ E1)).
  rewrite (u32_small (stack + KSTACKSIZE)) by (destruct Hst as (_ & _ & ?); unfold KSTACKSIZE, KERNBASE, PHYSTOP in *; lia).
  do 3 (erewrite bind_ok_l by (apply on_mem_ok; reflexivity)). set (s4 := put_fmem _ _).
  rewrite (bind_ok_l _ _ _ s4 s4) by done.
  destruct (lapicstartap_run (default 0 (Mp.cpus (Entry.mps s4) !! c)) (v2p Entry.code) (Entry.io_of s4)) as [d E5].
  rewrite (bind_ok_l _ _ _ _ _ (on_io_ok _ _ _ _ E5)). eexists. split; [reflexivity|].
  assert (Em : Entry.kmem s4 = ap_words (Entry.kmem s) stack).
  { unfold ap_words, Entry.kmem at 2, KernRun.kmem. rewrite <- Em1. reflexivity. }
  split; [|by rewrite <- Em].
  apply (rep_same kend K1 _ l Hr1); [reflexivity|apply Hr1|..].
  - cbn. apply mem_wf_warm_reset. change (mem_wf (Entry.kmem s4)). rewrite Em. unfold ap_words. do 3 apply mem_wf_wr32. apply Hr.
  - intros p Hp. assert (Hpk : kend <= p) by (apply (rep_page_ok kend _ _ p Hr1 Hp)). unfold KERNLINK, KERNBASE, EXTMEM in Hkend.
    intros a Ha. change (rd8 (warm_reset (Entry.kmem s4) (v2p Entry.code)) a = rd8 (Kalloc.kmem_mem K1) a).
    rewrite warm_reset_out by (change wrv with 0x80000467; lia). rewrite Em, Em1. unfold ap_words. change Entry.code with 0x80007000.
    by rewrite !rd8_wr32_ne by lia.
Qed.

Lemma rd32_shift (m m' : mem) a b : (forall i, 0 <= i < 4 -> rd8 m (a + i) = rd8 m' (b + i)) -> rd32 m a = rd32 m' b.
Proof.
  intros H. unfold rd32. rewrite <- (H 1), <- (H 2), <- (H 3) by lia. specialize (H 0). rewrite !Z.add_0_r in H. by rewrite H by lia.
Qed.

(** A processor that starts: its memory, at physical addresses, is the kernel's. *)
Record starting (s : machine) (ap : @mach D) : Prop := {
  st_wf : mem_wf (ram ap);
  st_view : forall a, 0 <= a < 0x7000 -> rd8 (ram ap) a = rd8 (Entry.kmem s) (p2v a)
}.

Lemma start_memory s s' stack ap : Kalloc.page_ok kend stack ->
  Entry.kmem s' = warm_reset (ap_words (Entry.kmem s) stack) (v2p Entry.code) -> starting s' ap ->
  ap_memory ap (stack + KSTACKSIZE) (sym "mpenter") (v2p (sym "entrypgdir")).
Proof.
  intros (_ & _ & Hst) Em [Hw Hv]. unfold KERNBASE, PHYSTOP in Hst.
  assert (Hrd : forall o, 4 <= o <= 12 -> rd32 (ram ap) (0x7000 - o) = rd32 (ap_words (Entry.kmem s) stack) (0x80007000 - o)).
  { intros o Ho. apply (rd32_shift _ _ (0x7000 - o) (0x80007000 - o)). intros i Hi. rewrite Hv, Em by lia.
    unfold p2v, KERNBASE. rewrite u32_small by lia. rewrite warm_reset_out by (change wrv with 0x80000467; lia). f_equal. lia. }
  split; [done|..]; rewrite Hrd by lia; unfold ap_words; change Entry.code with 0x80007000.
  - rewrite !rd32_wr32_ne by lia. apply rd32_wr32_eq. unfold KSTACKSIZE. lia.
  - rewrite rd32_wr32_ne by lia. by apply rd32_wr32_eq.
  - apply rd32_wr32_eq. apply u32_range.
Qed.

(** C39: [startothers] starts a processor so that it enters C on a stack of its
    own.  While the allocator holds only pages below 4 MB, which is what [kinit1]
    gave it, the page it takes for the stack is no longer free, and when the
    processor runs the code at 0x7000 it calls [mpenter] with interrupts off, in
    protected mode with paging on, with [entrypgdir] as its page table and its
    stack pointer at the top of that page, which [entrypgdir] maps. *)
Theorem ap_starts s stack l c : Kalloc.rep kend (fmem s) (stack :: l) ->
  (forall p, p ∈ stack :: l -> p < KERNBASE + four_mb) -> sym "entryother" = 0x7000 ->
  exists s', Entry.start_ap sym c s = Ok stack s' /\ Kalloc.rep kend (fmem s') l /\ (stack ∉ l) /\
    (forall va, stack <= va < stack + KSTACKSIZE -> Entry.translate Entry.entrypgdir false va = Some (v2p va)) /\
    forall ap, starting s' ap ->
    exists ap1 K, exec sym (Entry.text sym) cfun 40 (Entry.entryother sym) ap = (cfun (sym "mpenter");; K) ap1 /\
      getr ap1 ESP = stack + KSTACKSIZE - 4 /\ getr ap1 CR3 = v2p (sym "entrypgdir") /\
      getr ap1 CR4 .& CR4_PSE = CR4_PSE /\ getr ap1 CR0 .& (CR0_PE .| CR0_PG .| CR0_WP) = CR0_PE .| CR0_PG .| CR0_WP /\
      getr ap1 EFLAGS .& FL_IF = 0 /\ getr ap1 CS = Entry.KCODE /\ getr ap1 SS = Entry.KDATA.
Proof.
  intros Hr Hlow Hsym. destruct (start_ap_run s stack l c Hr) as (s' & E & Hr' & Em). exists s'.
  assert (Hst : Kalloc.page_ok kend stack) by (eapply rep_page_ok; [exact Hr|left]).
  split; [exact E|]. split; [exact Hr'|]. split; [by destruct Hr as (_ & [??]%NoDup_cons & _)|]. split.
  - destruct Hst as (Hmod & _ & Hrange & _). specialize (Hlow stack ltac:(left)). intros va Hva.
    unfold KERNBASE, four_mb, KSTACKSIZE in *. apply Z.mod_divide in Hmod as [q ->]; [|done]. unfold PGSIZE in *.
    rewrite entrypgdir_maps by lia. unfold KERNBASE, four_mb. by rewrite decide_False, decide_True by lia.
  - intros ap Hap. pose proof (start_memory s s' stack ap Hst Em Hap) as Hm.
    destruct (entryother_runs sym cfun ap _ _ _ Hm Hsym) as (ap1 & K & E1 & H1 & H2 & H3 & H4 & H5 & H6 & _ & _ & H7 & _).
    { destruct Hst as (_ & _ & ?). unfold KERNBASE, KSTACKSIZE in *. lia. }
    exists ap1, K. split_and!; [exact E1|exact H1|exact H2|exact H3|exact H4|exact H5|exact H6|exact H7].
Qed.
End ap.

(** ** A second processor *)

Module EntryEx.
Definition sym (l : string) : Z := if bool_decide (l = "entryother") then 0x7000 else 0x80103000.
Definition dev (m : mem) : @io unit := Dev.MkIo tt 0 false true 2 1 0xFEE00000 0 m [].
(** A machine with two processors and one free page. *)
Definition s : Entry.machine (S := _) (D := unit) :=
  Entry.MkMachine (KernEx.st one_page 0) (Mp.MkMps (dev ∅) [0; 1] 0)
    (Console.MkCon (dev ∅) false false false ∅ false [] 0 0 0 0 false false [] 0) [] [] 0 0.

(** The low memory as a processor without paging sees it. *)
Definition low (m : mem) : mem := store_bytes ∅ 0 ((fun i => rd8 m (p2v (Z.of_nat i))) <$> seq 0 (Z.to_nat 0x7000)).

Lemma low_read m a : mem_wf m -> 0 <= a < 0x7000 -> rd8 (low m) a = rd8 m (p2v a).
Proof.
  intros Hm Ha. unfold low. rewrite rd8_store_bytes by (apply Forall_fmap, Forall_true; intros i; by apply rd8_range).
  rewrite length_fmap, length_seq, decide_True by lia.
  apply nth_lookup_Some. rewrite list_lookup_fmap, lookup_seq_lt by lia. cbn [fmap option_fmap option_map]. do 3 f_equal. lia.
Qed.

Lemma low_wf m : mem_wf (low m).
Proof. unfold low. apply mem_wf_store_bytes, mem_wf_empty. Qed.
#[global] Opaque low.
End EntryEx.

Lemma ap_starts_witness : exists ap ap1 K,
  exec EntryEx.sym (Entry.text EntryEx.sym) AsmEx.nofun 40 (Entry.entryother EntryEx.sym) ap = (AsmEx.nofun (EntryEx.sym "mpenter");; K) ap1 /\
  getr ap1 ESP = 0x80110ffc.
Proof.
  destruct (ap_starts 0x80110000 eq_refl EntryEx.sym ltac:(split; [discriminate|reflexivity]) AsmEx.nofun EntryEx.s 0x80110000 [] 1%nat one_page_rep)
    as (s' & _ & Hr & _ & _ & H).
  - intros p Hp. apply list_elem_of_singleton in Hp as ->. reflexivity.
  - reflexivity.
  - assert (Hm : mem_wf (Entry.kmem s')) by (destruct Hr as (_ & _ & Hm & _); exact Hm).
    destruct (H (MkMach (D := unit) ∅ (EntryEx.low (Entry.kmem s')) tt (0, 0))) as (ap1 & K & E & Hsp & _).
    + split; [exact (EntryEx.low_wf _)|]. intros a Ha. exact (EntryEx.low_read _ a Hm Ha).
    + exists (MkMach (D := unit) ∅ (EntryEx.low (Entry.kmem s')) tt (0, 0)), ap1, K. split; [exact E|exact Hsp].
Defined.
