(* ===== verification/Sh.v ===== *)
(** * sh.c: the shell

    The parser works on the line in the buffer [buf]: a [char*] is an index
    into it, and reading outside it is a [Fault].  Commands are objects of a
    heap that only grows (a line of 100 bytes takes at most a few kilobytes, so
    [malloc] does not refuse); a [struct cmd*] is an index into the heap, [None]
    the null pointer.  [panic] prints its message and exits, the outcome
    [Panic].  [runcmd] is a program over the system calls it makes. *)

From S2P Require Import Prelude Memory Layout Cstring Ulib Printf.

Module Sh.

Definition MAXARGS : nat := 10.

Abbreviation cmdp := (option nat).

(** [struct cmd] and its five kinds; an [execcmd] has arrays of [MAXARGS] string pointers. *)
Inductive cmd :=
| EXEC (argv eargv : list (option nat))
| REDIR (sub : cmdp) (file efile : nat) (mode fd : Z)
| PIPE (left right : cmdp)
| LIST (left right : cmdp)
| BACK (sub : cmdp).

Abbreviation heap := (list cmd).

(** The allocation and initialisation the constructors share.  The memory of the
    shell does not run out: sh.c does not check what malloc returns. *)
Definition new (c : cmd) : M heap cmdp := h ← get; _ ← put (h ++ [c]); mret (Some (length h)).

Definition execcmd : M heap cmdp := new (EXEC (replicate MAXARGS None) (replicate MAXARGS None)).
Definition redircmd (sub : cmdp) (file efile : nat) (mode fd : Z) : M heap cmdp := new (REDIR sub file efile mode fd).
Definition pipecmd (left right : cmdp) : M heap cmdp := new (PIPE left right).
Definition listcmd (left right : cmdp) : M heap cmdp := new (LIST left right).
Definition backcmd (sub : cmdp) : M heap cmdp := new (BACK sub).

Definition whitespace : bytes := [32; 9; 13; 10; 11; 0].
Definition symbols : bytes := bytes_of "<|>&;()" ++ [0].

(** [strchr(set, c)] as a condition. *)
Definition mem_of (set : bytes) (c : Z) : bool :=
  match Ulib.strchr set c with Some (Some _) => true | _ => false end.

Section parse.
Context (buf : bytes) (es : nat).

(** [*s] *)
Definition char (s : nat) : M heap Z := match buf !! s with Some c => mret c | None => fault end.

(** [while(s < es && p( *s )) s++]; [n] is at least [es - s]. *)
Fixpoint skip (p : Z -> bool) (n s : nat) : M heap nat :=
  match n with
  | O => mret s
  | S n => if (s <? es)%nat then c ← char s; if p c then skip p n (S s) else mret s else mret s
  end.
Definition skipspace (s : nat) : M heap nat := skip (mem_of whitespace) (es - s) s.

(** A token's code, as [gettoken] returns it: 0 at the end of the line, ['a']
    for a word, ['+'] for >>, and the character itself otherwise. *)
Abbreviation WORD := 97.
Abbreviation APPEND := 43.

(** The [switch] of [gettoken] on the first character [c] of the token at [s]:
    the code and the end of the token. *)
Definition switch (c : Z) (s : nat) : M heap (Z * nat) :=
  if c =? 0 then mret (c, s)
  else if (c =? 124) || (c =? 40) || (c =? 41) || (c =? 59) || (c =? 38) || (c =? 60) then mret (c, S s)
  else if c =? 62 then
    c' ← char (S s);
    if c' =? 62 then mret (APPEND, S (S s)) else mret (c, S s)
  else
    s ← skip (fun c => negb (mem_of whitespace c) && negb (mem_of symbols c)) (es - s) s;
    mret (WORD, s).

(** [gettoken(ps, es, q, eq)]: the code, the bounds of the token, and [*ps]. *)
Definition gettoken (ps : nat) : M heap (Z * nat * nat * nat) :=
  s ← skipspace ps;
  let q := s in
  c ← char s;
  '(ret, s) ← switch c s;
  ps ← skipspace s;
  mret (ret, q, s, ps).

(** [peek(ps, es, toks)]: the answer and [*ps]. *)
Definition peek (ps : nat) (toks : bytes) : M heap (bool * nat) :=
  s ← skipspace ps;
  c ← char s;
  mret (truthy c && mem_of toks c, s).

Definition toks (s : string) : bytes := bytes_of s ++ [0].

(** The mode and descriptor of a redirection; the [switch] has no other case. *)
Definition redir (tok : Z) (cmd : cmdp) (q eq : nat) : M heap cmdp :=
  if tok =? 60 then redircmd cmd q eq O_RDONLY 0
  else if tok =? 62 then redircmd cmd q eq (O_WRONLY .| O_CREATE) 1
  else if tok =? APPEND then redircmd cmd q eq (O_WRONLY .| O_CREATE) 1
  else mret cmd.

(** The loop reads at least a character a turn. *)
Fixpoint parseredirs_loop (n : nat) (cmd : cmdp) (ps : nat) : M heap (cmdp * nat) :=
  match n with
  | O => nofuel
  | S n =>
      '(b, ps) ← peek ps (toks "<>");
      if (b : bool) then
        '(tok, _, _, ps) ← gettoken ps;
        '(t, q, eq, ps) ← gettoken ps;
        if negb (t =? WORD) then panic "missing file for redirection" else
        cmd ← redir tok cmd q eq;
        parseredirs_loop n cmd ps
      else mret (cmd, ps)
  end.
Definition parseredirs (cmd : cmdp) (ps : nat) : M heap (cmdp * nat) := parseredirs_loop (S es) cmd ps.

(** [cmd->argv[i] = q; cmd->eargv[i] = eq] *)
Definition setarg (cmd : cmdp) (i : nat) (q eq : option nat) : M heap unit :=
  h ← get;
  match cmd with
  | Some a =>
      match h !! a with
      | Some (EXEC argv eargv) =>
          if (i <? MAXARGS)%nat then put (<[a := EXEC (<[i := q]> argv) (<[i := eq]> eargv)]> h) else fault
      | _ => fault
      end
  | None => fault
  end.

(** The argument loop of [parseexec]; the result is [(ret, argc)] and [*ps]. *)
Fixpoint parseargs (n : nat) (cmd ret : cmdp) (argc ps : nat) : M heap (cmdp * nat * nat) :=
  match n with
  | O => nofuel
  | S n =>
      '(b, ps) ← peek ps (toks "|)&;");
      if (b : bool) then mret (ret, argc, ps) else
      '(tok, q, eq, ps) ← gettoken ps;
      if tok =? 0 then mret (ret, argc, ps) else
      if negb (tok =? WORD) then panic "syntax" else
      _ ← setarg cmd argc (Some q) (Some eq);
      let argc := S argc in
      if (MAXARGS <=? argc)%nat then panic "too many args" else
      '(ret, ps) ← parseredirs ret ps;
      parseargs n cmd ret argc ps
  end.

(** The loop [while(peek(ps, es, "&"))] of [parseline]. *)
Fixpoint parsebacks (n : nat) (cmd : cmdp) (ps : nat) : M heap (cmdp * nat) :=
  match n with
  | O => nofuel
  | S n =>
      '(b, ps) ← peek ps (toks "&");
      if (b : bool) then
        '(_, _, _, ps) ← gettoken ps;
        cmd ← backcmd cmd;
        parsebacks n cmd ps
      else mret (cmd, ps)
  end.

Fixpoint parseline (fuel ps : nat) : M heap (cmdp * nat) :=
  match fuel with
  | O => nofuel
  | S fuel =>
      '(cmd, ps) ← parsepipe fuel ps;
      '(cmd, ps) ← parsebacks (S es) cmd ps;
      '(b, ps) ← peek ps (toks ";");
      if (b : bool) then
        '(_, _, _, ps) ← gettoken ps;
        '(r, ps) ← parseline fuel ps;
        cmd ← listcmd cmd r;
        mret (cmd, ps)
      else mret (cmd, ps)
  end
with parsepipe (fuel ps : nat) : M heap (cmdp * nat) :=
  match fuel with
  | O => nofuel
  | S fuel =>
      '(cmd, ps) ← parseexec fuel ps;
      '(b, ps) ← peek ps (toks "|");
      if (b : bool) then
        '(_, _, _, ps) ← gettoken ps;
        '(r, ps) ← parsepipe fuel ps;
        cmd ← pipecmd cmd r;
        mret (cmd, ps)
      else mret (cmd, ps)
  end
with parseexec (fuel ps : nat) : M heap (cmdp * nat) :=
  match fuel with
  | O => nofuel
  | S fuel =>
      '(b, ps) ← peek ps (toks "(");
      if (b : bool) then parseblock fuel ps else
      cmd ← execcmd;
      '(ret, ps) ← parseredirs cmd ps;
      '(ret, argc, ps) ← parseargs (S es) cmd ret 0 ps;
      _ ← setarg cmd argc None None;
      mret (ret, ps)
  end
with parseblock (fuel ps : nat) : M heap (cmdp * nat) :=
  match fuel with
  | O => nofuel
  | S fuel =>
      '(b, ps) ← peek ps (toks "(");
      if negb b then panic "parseblock" else
      '(_, _, _, ps) ← gettoken ps;
      '(cmd, ps) ← parseline fuel ps;
      '(b, ps) ← peek ps (toks ")");
      if negb b then panic "syntax - missing )" else
      '(_, _, _, ps) ← gettoken ps;
      parseredirs cmd ps
  end.
End parse.

(** ** NUL-termination *)

(** [*e = 0] *)
Definition put_nul (e : option nat) : M bytes unit :=
  match e with
  | Some e => buf ← get; if (e <? length buf)%nat then put (<[e := 0]> buf) else fault
  | None => fault
  end.

(** [for(i=0; ecmd->argv[i]; i++) *ecmd->eargv[i] = 0;] *)
Fixpoint nulargs (argv eargv : list (option nat)) : M bytes unit :=
  match argv, eargv with
  | None :: _, _ => mret tt
  | Some _ :: argv, e :: eargv => _ ← put_nul e; nulargs argv eargv
  | _, _ => fault
  end.

(** [nulterminate] reads the heap [h] and writes the line. *)
Fixpoint nulterminate (h : heap) (fuel : nat) (p : cmdp) : M bytes cmdp :=
  match fuel with
  | O => nofuel
  | S fuel =>
      match p with
      | None => mret None
      | Some a =>
          match h !! a with
          | None => fault
          | Some (EXEC argv eargv) => _ ← nulargs argv eargv; mret p
          | Some (REDIR sub _ efile _ _) => _ ← nulterminate h fuel sub; _ ← put_nul (Some efile); mret p
          | Some (PIPE l r) => _ ← nulterminate h fuel l; _ ← nulterminate h fuel r; mret p
          | Some (LIST l r) => _ ← nulterminate h fuel l; _ ← nulterminate h fuel r; mret p
          | Some (BACK sub) => _ ← nulterminate h fuel sub; mret p
          end
      end
  end.

(** The output of [printf] for a format with one [%s], the string [s]. *)
Definition printf1 (fmt : bytes) (s : bytes) : bytes := default [] (Printf.printf (fun _ => s ++ [0]) (fmt ++ [0]) [1]).

Definition to_string (s : bytes) : string := String.string_of_list_ascii ((fun c => Ascii.ascii_of_nat (Z.to_nat c)) <$> s).

(** The state of the child that parses and runs a line: the line and the
    commands. *)
Record child := Child { line : bytes; cmds : heap }.

(** Calls of the parser nest at most four deep for each character. *)
Definition parse_fuel (es : nat) : nat := 4 * S es.

Definition parsecmd : M child cmdp :=
  c ← get;
  let buf := line c in
  match Ulib.strlen buf with
  | None => fault
  | Some n =>
      let es := Z.to_nat n in
      let on_heap {A} (m : M heap A) : M child A := zoom cmds (fun h c => Child (line c) h) m in
      '(cmd, s) ← on_heap (parseline buf es (parse_fuel es) 0);
      '(_, s) ← on_heap (peek buf es s (toks ""));
      if negb (s =? es)%nat then panic (to_string (printf1 (bytes_of "leftovers: %s" ++ [NL]) (Str.cstr (drop s buf))) +:+ "syntax") else
      h ← gets cmds;
      _ ← zoom line (fun l c => Child l (cmds c)) (nulterminate h (S (length h)) cmd);
      mret cmd
  end.

(** ** The system calls of the shell *)

(** A system call, by the type of its result; an [int] result is negative on
    failure, [fork] returns 0 in the child. *)
Inductive call : Type -> Type :=
| Exec (path : bytes) (argv : list bytes) : call Z
| Open (path : bytes) (mode : Z) : call Z
| Close (fd : Z) : call Z
| Dup (fd : Z) : call Z
| Pipe : call (option (Z * Z))
| Fork : call Z
| Wait : call Z
| Chdir (path : bytes) : call Z
| Read (fd : Z) : call (option Z)
| Write (fd : Z) (c : Z) : call Z.

(** What a process does until it ends: [exit], a bad access, or a call and what
    follows for each of its results. *)
Inductive prog : Type :=
| Exit
| Crash
| OutOfFuel
| Do {X : Type} (c : call X) (k : X -> prog).

Notation "'let!' x := c 'in' k" := (Do c (fun x => k)) (at level 10, x name, c at level 100, k at level 200).
Notation "'do!' c ';' k" := (Do c (fun _ => k)) (at level 10, c at level 100, k at level 200).

(** [printf(fd, ...)] writes a character at a time. *)
Fixpoint print (fd : Z) (text : bytes) (k : prog) : prog :=
  match text with
  | [] => k
  | c :: text => do! Write fd c; print fd text k
  end.

Definition sh_panic (s : bytes) : prog := print 2 (s ++ [NL]) Exit.

(** [fork1()], in the child and in the parent. *)
Definition fork1 (in_child in_parent : prog) : prog :=
  let! pid := Fork in
  if pid =? -1 then sh_panic (bytes_of "fork") else if pid =? 0 then in_child else in_parent.

Section runcmd.
Context (buf : bytes) (h : heap).

(** The string at [s]. *)
Definition text (s : nat) : bytes := Str.cstr (drop s buf).

(** The strings of [argv] up to the null pointer. *)
Fixpoint args (argv : list (option nat)) : list bytes :=
  match argv with
  | Some q :: argv => text q :: args argv
  | _ => []
  end.

Fixpoint runcmd (fuel : nat) (cmd : cmdp) : prog :=
  match fuel with
  | O => OutOfFuel
  | S fuel =>
      match cmd with
      | None => Exit
      | Some a =>
          match h !! a with
          | None => Crash
          | Some (EXEC argv _) =>
              match argv with
              | Some q :: _ =>
                  do! Exec (text q) (args argv);
                  print 2 (printf1 (bytes_of "exec %s failed" ++ [NL]) (text q)) Exit
              | _ => Exit
              end
          | Some (REDIR sub file _ mode fd) =>
              do! Close fd;
              let! r := Open (text file) mode in
              if r <? 0 then print 2 (printf1 (bytes_of "open %s failed" ++ [NL]) (text file)) Exit
              else runcmd fuel sub
          | Some (LIST l r) => fork1 (runcmd fuel l) (do! Wait; runcmd fuel r)
          | Some (PIPE l r) =>
              let! p := Pipe in
              match p with
              | None => sh_panic (bytes_of "pipe")
              | Some (p0, p1) =>
                  fork1 (do! Close 1; do! Dup p1; do! Close p0; do! Close p1; runcmd fuel l)
                    (fork1 (do! Close 0; do! Dup p0; do! Close p0; do! Close p1; runcmd fuel r)
                      (do! Close p0; do! Close p1; do! Wait; do! Wait; Exit))
              end
          | Some (BACK sub) => fork1 (runcmd fuel sub) Exit
          end
      end
  end.
End runcmd.

(** [runcmd(parsecmd(buf))] in a fresh child. *)
Definition run_line (buf : bytes) : prog :=
  match parsecmd (Child buf []) with
  | Ok cmd c => runcmd (line c) (cmds c) (S (length (cmds c))) cmd
  | Panic msg => sh_panic (bytes_of msg)
  | NoFuel => OutOfFuel
  | _ => Crash
  end.

(** ** The main loop *)

Definition NBUF : nat := 100.

(** [gets(buf, nbuf)] on the standard input, [room] bytes before the last. *)
Fixpoint sh_gets (room : nat) (acc : bytes) (k : bytes -> prog) : prog :=
  match room with
  | O => k acc
  | S room =>
      let! r := Read 0 in
      match r with
      | None => k acc
      | Some c => if (c =? NL) || (c =? CR) then k (acc ++ [c]) else sh_gets room (acc ++ [c]) k
      end
  end.

(** [getcmd]: the buffer, zero behind what was read, or [None] at the end. *)
Definition getcmd (k : option bytes -> prog) : prog :=
  print 2 (bytes_of "$ ")
    (sh_gets (NBUF - 1) [] (fun l =>
       let buf := l ++ replicate (NBUF - length l) 0 in
       k (match buf with c :: _ => if c =? 0 then None else Some buf | [] => None end))).

(** A line [cd dir]: the last character of the line is cut off. *)
Definition cd (buf : bytes) (k : prog) : prog :=
  let buf := <[(length (Str.cstr buf) - 1)%nat := 0]> buf in
  let! r := Chdir (Str.cstr (drop 3 buf)) in
  if r <? 0 then print 2 (printf1 (bytes_of "cannot cd %s" ++ [NL]) (Str.cstr (drop 3 buf))) k else k.

(** The loop that reads and runs commands, [n] of them. *)
Fixpoint sh_loop (n : nat) : prog :=
  match n with
  | O => OutOfFuel
  | S n =>
      getcmd (fun r =>
        match r with
        | None => Exit
        | Some buf =>
            if bool_decide (take 3 buf = bytes_of "cd ") then cd buf (sh_loop n)
            else fork1 (run_line buf) (do! Wait; sh_loop n)
        end)
  end.

(** [main]: descriptors 0, 1 and 2 are opened first; [m] bounds the opens. *)
Fixpoint sh_open (m : nat) (k : prog) : prog :=
  match m with
  | O => OutOfFuel
  | S m =>
      let! fd := Open (bytes_of "console") O_RDWR in
      if fd <? 0 then k else if 3 <=? fd then do! Close fd; k else sh_open m k
  end.
Definition main (m n : nat) : prog := sh_open m (sh_loop n).

End Sh.
