(* ===== verification/ShLex.v ===== *)
(** * The tokens of a shell line

    A reference lexer that reads the line once, and the proof that [gettoken]
    and [peek] of sh.c walk along its tokens. *)

From S2P Require Import Prelude Memory Layout Cstring Ulib Printf Sh.
Import Sh.

(** ** Reference lexer *)

(** A token: a word, or the code [gettoken] gives a symbol. *)
Inductive token (W : Type) := TWord (w : W) | TSym (c : Z).
Arguments TWord {W} w.
Arguments TSym {W} c.

#[global] Instance token_fmap : FMap token := fun A B f t => match t with TWord w => TWord (f w) | TSym c => TSym c end.

Definition is_space (c : Z) : bool := bool_decide (c ∈ [32; 9; 13; 10; 11]).
Definition is_symbol (c : Z) : bool := bool_decide (c ∈ [60; 124; 62; 38; 59; 40; 41]).

(** The word from [start] to [i], if one is being read. *)
Definition flush (start : option nat) (i : nat) : list (token (nat * nat)) :=
  match start with Some a => [TWord (a, i)] | None => [] end.

(** The tokens of [l], whose first character is at [i]; a word is the range of
    its characters, and [start] is the start of the word being read. *)
Fixpoint lex (i : nat) (start : option nat) (l : bytes) : list (token (nat * nat)) :=
  match l with
  | [] => flush start i
  | c :: l1 =>
      if is_space c then flush start i ++ lex (S i) None l1
      else if is_symbol c then
        flush start i ++
        match l1 with
        | d :: l2 => if (c =? 62) && (d =? 62) then TSym 43 :: lex (S (S i)) None l2 else TSym c :: lex (S i) None l1
        | [] => [TSym c]
        end
      else lex (S i) (Some (default i start)) l1
  end.

(** ** Character classes *)

Lemma mem_of_spec l c : Forall (fun x => x <> 0) l -> mem_of (l ++ [0]) c = bool_decide (c ∈ l).
Proof.
  intros Hl. unfold mem_of, Ulib.strchr. generalize 0%nat. induction Hl as [|x l Hx Hl IH]; intros i; cbn [app Ulib.strchr_loop].
  - by rewrite bool_decide_false by apply not_elem_of_nil.
  - rewrite (proj2 (Str.truthy_true x)) by done. destruct (Z.eqb_spec x c) as [->|Hc].
    + by rewrite bool_decide_true by apply list_elem_of_here.
    + rewrite IH. apply bool_decide_ext. rewrite elem_of_cons. naive_solver.
Qed.

Lemma whitespace_spec c : mem_of whitespace c = is_space c.
Proof. apply (mem_of_spec [32; 9; 13; 10; 11]). by repeat constructor. Qed.

Lemma symbols_spec c : mem_of symbols c = is_symbol c.
Proof. apply (mem_of_spec [60; 124; 62; 38; 59; 40; 41]). by repeat constructor. Qed.

(** A character of a word. *)
Definition is_wordc (c : Z) : bool := negb (is_space c) && negb (is_symbol c).

Lemma lex_space i c l : is_space c = true -> lex i None (c :: l) = lex (S i) None l.
Proof. intros H. cbn. by rewrite H. Qed.

(** A word runs to the first character that is not one of a word's. *)
Lemma lex_in_word a i w r : Forall (fun c => is_wordc c = true) w -> (forall c, head r = Some c -> is_wordc c = false) ->
  lex i (Some a) (w ++ r) = TWord (a, i + length w)%nat :: lex (i + length w) None r.
Proof.
  revert i. induction w as [|c w IH]; intros i Hw Hr; cbn [app length].
  - rewrite Nat.add_0_r. destruct r as [|c r]; [done|]. specialize (Hr c eq_refl). unfold is_wordc in Hr. cbn.
    destruct (is_space c); [done|]. destruct (is_symbol c); [|done]. done.
  - inversion Hw as [|? ? Hc Hw']; subst. unfold is_wordc in Hc. cbn [lex]. apply andb_true_iff in Hc as [H1 H2].
    apply negb_true_iff in H1, H2. rewrite H1, H2. cbn [default]. rewrite IH by done. by rewrite Nat.add_succ_comm.
Qed.

Lemma lex_word i c w r : Forall (fun c => is_wordc c = true) (c :: w) -> (forall c, head r = Some c -> is_wordc c = false) ->
  lex i None ((c :: w) ++ r) = TWord (i, i + length (c :: w))%nat :: lex (i + length (c :: w)) None r.
Proof.
  intros Hw Hr. inversion Hw as [|? ? Hc Hw']; subst. unfold is_wordc in Hc. cbn [lex app]. apply andb_true_iff in Hc as [H1 H2].
  apply negb_true_iff in H1, H2. rewrite H1, H2. cbn [default]. rewrite lex_in_word by done. cbn [length]. by rewrite Nat.add_succ_comm.
Qed.

(** The codes of the symbols. *)
Definition sym_ok (t : token (nat * nat)) : Prop := match t with TSym c => c = 43 \/ is_symbol c = true | TWord _ => True end.

Lemma lex_sym_ok i start l : Forall sym_ok (lex i start l).
Proof.
  assert (forall n l i start, (length l <= n)%nat -> Forall sym_ok (lex i start l)) as H; [|by apply (H (length l))].
  assert (forall s j, Forall sym_ok (flush s j)) as Hfl by (intros [] j; by repeat constructor).
  clear i start l. intros n. induction n as [|n IH]; intros [|c l] i start Hl; cbn [length lex] in *; try lia; try apply Hfl.
  destruct (is_space c); [apply Forall_app; split; [apply Hfl|apply IH; lia]|].
  destruct (is_symbol c) eqn:Hs; [|apply IH; lia]. apply Forall_app. split; [apply Hfl|].
  destruct l as [|d l]; [constructor; [by right|constructor]|]. cbn [length] in Hl.
  destruct ((c =? 62) && (d =? 62)); (constructor; [cbn; auto|apply IH; cbn; lia]).
Qed.

(** The rest of a word. *)
Lemma word_split (l : bytes) : exists w r, l = w ++ r /\ Forall (fun c => is_wordc c = true) w /\ (forall c, head r = Some c -> is_wordc c = false).
Proof.
  induction l as [|c l (w & r & -> & Hw & Hr)]; [by exists [], []|]. destruct (is_wordc c) eqn:E.
  - exists (c :: w), r. split; [done|]. split; [by constructor|done].
  - exists [], (c :: w ++ r). split; [done|]. split; [done|]. by intros ? [= <-].
Qed.

(** A token takes at least a character. *)
Lemma length_lex i start l : (length (lex i start l) <= length l + length (flush start i))%nat.
Proof.
  assert (forall n l i start, (length l <= n)%nat -> (length (lex i start l) <= length l + length (flush start i))%nat) as H; [|by apply (H (length l))].
  clear. intros n. induction n as [|n IH]; intros [|c l] i start Hl; cbn [length lex] in *; try lia.
  assert (forall m, (length (lex m None l) <= length l)%nat) as IH0.
  { intros m. specialize (IH l m None ltac:(lia)). cbn in IH. lia. }
  destruct (is_space c); [rewrite length_app; specialize (IH0 (S i)); lia|]. destruct (is_symbol c).
  - rewrite length_app. destruct l as [|d l]; [cbn; lia|]. destruct ((c =? 62) && (d =? 62)); cbn [length].
    + specialize (IH l (S (S i)) None). cbn [length flush] in *. lia.
    + specialize (IH0 (S i)). cbn [length] in *. lia.
  - specialize (IH l (S i) (Some (default i start)) ltac:(lia)). destruct start; cbn [length flush] in *; lia.
Qed.

(** ** The line in the buffer *)

Section line.
Context (line junk : bytes).
Hypothesis Hline : Forall (fun c => c <> 0) line.
Local Abbreviation buf := (line ++ 0 :: junk).
Local Abbreviation es := (length line).

(** [skip] stops at the first character outside the class. *)
Lemma skip_spec p n s h : (s <= es)%nat -> (es - s <= n)%nat ->
  exists pre post, drop s line = pre ++ post /\ Forall (fun c => p c = true) pre /\
    (forall c, head post = Some c -> p c = false) /\ skip buf es p n s h = Ok (s + length pre)%nat h.
Proof.
  revert s. induction n as [|n IH]; intros s Hs Hn.
  - exists [], []. rewrite drop_ge by lia. cbn. rewrite Nat.add_0_r. done.
  - cbn [skip]. destruct (Nat.ltb_spec s es) as [Hlt|].
    + destruct (lookup_lt_is_Some_2 line s Hlt) as [c Hc]. unfold char. rewrite lookup_app_l, Hc by done.
      rewrite (bind_ok_l _ _ _ c h) by done. destruct (p c) eqn:Hp.
      * destruct (IH (S s)) as (pre & post & E & Hpre & Hpost & ->); [lia..|]. exists (c :: pre), post.
        rewrite (drop_S _ _ _ Hc), E. split; [done|]. split; [by constructor|]. split; [done|]. cbn. by rewrite Nat.add_succ_r.
      * exists [], (drop s line). split; [done|]. split; [done|]. rewrite (drop_S _ _ _ Hc), Nat.add_0_r. split; [|done].
        intros ? [= <-]. done.
    + exists [], []. rewrite drop_ge by lia. cbn. rewrite Nat.add_0_r. done.
Qed.

(** The tokens from position [s] on. *)
Definition cur (s : nat) (ts : list (token (nat * nat))) : Prop := (s <= es)%nat /\ lex s None (drop s line) = ts.

Lemma cur_length s ts : cur s ts -> (length ts <= es)%nat.
Proof. intros [Hs <-]. etransitivity; [apply length_lex|]. cbn [flush length]. len. Qed.

Lemma lex_spaces i pre post : Forall (fun c => is_space c = true) pre -> lex i None (pre ++ post) = lex (i + length pre) None post.
Proof.
  intros H. revert i. induction H as [|c pre Hc Hpre IH]; intros i; cbn [app length]; [by rewrite Nat.add_0_r|].
  by rewrite lex_space, IH, Nat.add_succ_comm.
Qed.

Lemma skipspace_cur s ts h : cur s ts -> exists s', skipspace buf es s h = Ok s' h /\ cur s' ts /\
  (forall c, head (drop s' line) = Some c -> is_space c = false).
Proof.
  intros [Hs Ht]. destruct (skip_spec (mem_of whitespace) (es - s) s h) as (pre & post & E & Hpre & Hpost & Hrun); [lia..|].
  assert (drop (s + length pre) line = post) as Ed by (rewrite <- drop_drop, E; by apply drop_app_length).
  exists (s + length pre)%nat. split; [exact Hrun|]. rewrite Ed. split; [|intros c Hc; rewrite <- whitespace_spec; by apply Hpost].
  split.
  - apply (f_equal length) in E. rewrite length_app, length_drop in E. lia.
  - rewrite Ed, <- Ht, E, lex_spaces; [done|]. eapply Forall_impl; [exact Hpre|]. intros c Hc. by rewrite <- whitespace_spec.
Qed.

(** The first character of a symbol, and whether [peek] finds it in [set]. *)
Definition first (c : Z) : Z := if c =? 43 then 62 else c.
Definition starts {W} (set : bytes) (ts : list (token W)) : bool :=
  match ts with TSym c :: _ => mem_of set (first c) | _ => false end.

(** What [gettoken] returns. *)
Definition code {W} (ts : list (token W)) : Z :=
  match ts with [] => 0 | TWord _ :: _ => 97 | TSym c :: _ => c end.

Lemma code_word s ts : cur s ts -> (code ts =? 97) = match head ts with Some (TWord _) => true | _ => false end.
Proof.
  intros [_ <-]. pose proof (lex_sym_ok s None (drop s line)) as H. destruct H as [|[w|c] l Hc _]; [done..|].
  cbn. apply Z.eqb_neq. intros ->. by destruct Hc.
Qed.

Lemma code_end s ts : cur s ts -> (code ts =? 0) = match head ts with None => true | _ => false end.
Proof.
  intros [_ <-]. pose proof (lex_sym_ok s None (drop s line)) as H. destruct H as [|[w|c] l Hc _]; [done..|].
  cbn. apply Z.eqb_neq. intros ->. by destruct Hc.
Qed.

(** The character at a position: NUL at the end. *)
Lemma char_head s h : (s <= es)%nat -> char buf s h = Ok (default 0 (head (drop s line))) h.
Proof.
  intros Hs. unfold char. destruct (drop s line) as [|c l] eqn:E.
  - assert (s = es) as -> by (apply (f_equal length) in E; rewrite length_drop in E; cbn in E; lia).
    by rewrite lookup_app_r, Nat.sub_diag by lia.
  - assert (line !! s = Some c) as H by by rewrite <- (Nat.add_0_r s), <- lookup_drop, E.
    rewrite lookup_app_l, H by by eapply lookup_lt_Some. done.
Qed.

Lemma lex_symbol i c l : is_space c = false -> is_symbol c = true ->
  (c = 62 /\ head l = Some 62 /\ lex i None (c :: l) = TSym 43 :: lex (S (S i)) None (tail l)) \/
  (~ (c = 62 /\ head l = Some 62) /\ lex i None (c :: l) = TSym c :: lex (S i) None l).
Proof.
  intros H1 H2. cbn [lex flush app]. rewrite H1, H2. destruct l as [|d l]; [right; split; [naive_solver|done]|].
  destruct (Z.eqb_spec c 62) as [->|], (Z.eqb_spec d 62) as [->|]; cbn [andb]; [by left|right..]; (split; [naive_solver|done]).
Qed.

Lemma line_nonzero s c l : drop s line = c :: l -> c <> 0.
Proof.
  intros E. apply (proj1 (Forall_forall _ _) Hline). rewrite <- (take_drop s line), E. apply elem_of_app. right. apply list_elem_of_here.
Qed.

Lemma peek_cur set s ts h : cur s ts -> (forall c, mem_of set c = true -> is_symbol c = true) ->
  exists s', peek buf es s set h = Ok (starts set ts, s') h /\ cur s' ts.
Proof.
  intros Hc Hset. destruct (skipspace_cur s ts h Hc) as (s' & Hrun & [Hs' Ht] & Hsp). exists s'. split; [|done].
  unfold peek. rewrite (bind_ok_l _ _ _ _ _ Hrun), (bind_ok_l _ _ _ _ _ (char_head s' h Hs')). unfold mret, M_ret. do 2 f_equal.
  rewrite <- Ht. destruct (drop s' line) as [|c l] eqn:E; [done|]. change (default 0 (head (c :: l))) with c. specialize (Hsp c eq_refl).
  pose proof (line_nonzero s' c l E) as Hc0.
  rewrite (proj2 (Str.truthy_true c)) by done. cbn [andb]. destruct (is_symbol c) eqn:Hsym.
  - destruct (lex_symbol s' c l Hsp Hsym) as [(-> & _ & ->)|(_ & ->)]; [done|]. cbn. unfold first.
    destruct (Z.eqb_spec c 43) as [->|]; [|done]. by vm_compute in Hsym.
  - cbn [lex]. rewrite Hsp, Hsym. assert (mem_of set c = false) as -> by (destruct (mem_of set c) eqn:Em; [|done]; apply Hset in Em; congruence).
    cbn [default]. destruct (word_split l) as (w & r & -> & Hw & Hr).
    by rewrite lex_in_word.
Qed.

Lemma cur_drop s n l ts : (s <= es)%nat -> drop s line = l -> (n <= length l)%nat -> lex (s + n) None (drop n l) = ts -> cur (s + n) ts.
Proof.
  intros Hs E Hn Ht. split; [|by rewrite <- Ht, <- E, drop_drop].
  apply (f_equal length) in E. rewrite length_drop in E. lia.
Qed.

(** The group of one-character symbols of the [switch]. *)
Lemma one_char c : is_symbol c = true -> c <> 62 ->
  (c =? 124) || (c =? 40) || (c =? 41) || (c =? 59) || (c =? 38) || (c =? 60) = true.
Proof.
  intros H Hc. apply bool_decide_eq_true in H. repeat (apply elem_of_cons in H as [->|H]; [done|]). by apply elem_of_nil in H.
Qed.

Lemma switch_symbol q c l h : drop q line = c :: l -> is_space c = false -> is_symbol c = true ->
  exists e, switch buf es c q h = Ok (code (lex q None (c :: l)), e) h /\ cur e (tail (lex q None (c :: l))).
Proof.
  intros E Hsp Hsym. pose proof (line_nonzero q c l E) as Hc0. unfold switch. rewrite (proj2 (Z.eqb_neq c 0)) by done.
  assert (q + 1 <= es)%nat as Hq by (apply (f_equal length) in E; rewrite length_drop in E; cbn in E; lia).
  assert (drop (S q) line = l) as El by (rewrite <- Nat.add_1_r, <- drop_drop, E; done).
  destruct (lex_symbol q c l Hsp Hsym) as [(-> & Hl & ->)|(Hn & ->)].
  - cbn [Z.eqb Pos.eqb orb]. rewrite (bind_ok_l _ _ _ _ _ (char_head (S q) h ltac:(lia))), El, Hl. exists (S (S q)). split; [done|].
    destruct l as [|d l]; [done|]. replace (S (S q)) with (q + 2)%nat by lia. eapply cur_drop; [lia|exact E|cbn; lia|done].
  - exists (S q). split; [|replace (S q) with (q + 1)%nat by lia; eapply cur_drop; [lia|exact E|cbn; lia|done]].
    destruct (Z.eqb_spec c 62) as [->|Hc]; [|by rewrite one_char].
    cbn [Z.eqb Pos.eqb orb]. rewrite (bind_ok_l _ _ _ _ _ (char_head (S q) h ltac:(lia))), El.
    destruct (head l) as [d|] eqn:Ed; [|done]. change (default 0 (Some d)) with d. by rewrite (proj2 (Z.eqb_neq d 62)) by naive_solver.
Qed.

Lemma switch_word q c l h : drop q line = c :: l -> is_space c = false -> is_symbol c = false ->
  exists e r, lex q None (c :: l) = TWord (q, e) :: r /\ switch buf es c q h = Ok (97, e) h /\ cur e r.
Proof.
  intros E Hsp Hsym. pose proof (line_nonzero q c l E) as Hc0. unfold switch. rewrite (proj2 (Z.eqb_neq c 0)) by done.
  assert (forall d, is_symbol d = true -> (c =? d) = false) as Hne by (intros d Hd; apply Z.eqb_neq; congruence).
  rewrite !Hne by done. cbn [orb].
  assert (q <= es)%nat as Hq by (apply (f_equal length) in E; rewrite length_drop in E; cbn in E; lia).
  destruct (skip_spec (fun c => negb (mem_of whitespace c) && negb (mem_of symbols c)) (es - q) q h) as (w & r & Ew & Hw & Hr & Hrun); [lia..|].
  rewrite (bind_ok_l _ _ _ _ _ Hrun). exists (q + length w)%nat, (lex (q + length w) None r).
  assert (forall c, negb (mem_of whitespace c) && negb (mem_of symbols c) = is_wordc c) as Hcl by (intros; by rewrite whitespace_spec, symbols_spec).
  rewrite E in Ew. destruct w as [|c' w].
  { cbn in Ew. subst r. specialize (Hr c eq_refl). rewrite Hcl in Hr. unfold is_wordc in Hr. rewrite Hsp, Hsym in Hr. done. }
  rewrite Ew, lex_word.
  - split; [done|]. split; [done|]. eapply cur_drop; [lia|exact E|rewrite Ew, length_app; lia|]. by rewrite Ew, drop_app_length.
  - eapply Forall_impl; [exact Hw|]. intros x Hx. by rewrite <- Hcl.
  - intros x Hx. rewrite <- Hcl. by apply Hr.
Qed.

Lemma gettoken_cur s ts h : cur s ts -> exists q e s', gettoken buf es s h = Ok (code ts, q, e, s') h /\ cur s' (tail ts) /\
  (forall w, head ts = Some (TWord w) -> w = (q, e)).
Proof.
  intros Hc. destruct (skipspace_cur s ts h Hc) as (q & Hrun & [Hq Ht] & Hsp).
  unfold gettoken. rewrite (bind_ok_l _ _ _ _ _ Hrun), (bind_ok_l _ _ _ _ _ (char_head q h Hq)).
  assert (exists e, switch buf es (default 0 (head (drop q line))) q h = Ok (code ts, e) h /\ cur e (tail ts) /\ (forall w, head ts = Some (TWord w) -> w = (q, e))) as (e & Htok & He & Hw).
  { destruct (drop q line) as [|c l] eqn:E.
    - subst ts. exists q. split; [done|]. split; [split; [done|by rewrite E]|done].
    - specialize (Hsp c eq_refl). subst ts. destruct (is_symbol c) eqn:Hsym.
      + destruct (switch_symbol q c l h E Hsp Hsym) as (e & ? & ?). exists e. split_and!; [done..|].
        by destruct (lex_symbol q c l Hsp Hsym) as [(_ & _ & ->)|(_ & ->)].
      + destruct (switch_word q c l h E Hsp Hsym) as (e & r & -> & ? & ?). exists e. split_and!; [done..|]. cbn. naive_solver. }
  rewrite (bind_ok_l _ _ _ _ _ Htok). destruct (skipspace_cur e _ h He) as (s' & Hs' & Hcur & _).
  rewrite (bind_ok_l _ _ _ _ _ Hs'). exists q, e, s'. done.
Qed.
End line.
