(* ===== verification/ShParse.v ===== *)
(** * The shell's parser and its grammar

    The grammar of command lines, a reference parser on tokens, the proof that
    it decides the grammar, and the proof that the parser of sh.c computes what
    it computes: the same tree in the heap, or the same error. *)

From S2P Require Import Prelude Memory Layout Cstring Ulib Printf Sh ShLex.
Import Sh.

(** ** Syntax trees *)

(** A redirection is the code of its symbol and its file. *)
Inductive tree (W : Type) :=
| TExec (argv : list W)
| TRedir (t : tree W) (sym : Z) (file : W)
| TPipe (l r : tree W)
| TList (l r : tree W)
| TBack (t : tree W).
Arguments TExec {W} argv.
Arguments TRedir {W} t sym file.
Arguments TPipe {W} l r.
Arguments TList {W} l r.
Arguments TBack {W} t.

#[global] Instance tree_fmap : FMap tree := fun A B f => fix go t :=
  match t with
  | TExec argv => TExec (f <$> argv)
  | TRedir t c w => TRedir (go t) c (f w)
  | TPipe l r => TPipe (go l) (go r)
  | TList l r => TList (go l) (go r)
  | TBack t => TBack (go t)
  end.

(** Redirections in the order of the line: the last is outermost. *)
Definition wrap {W} (t : tree W) (rs : list (Z * W)) : tree W := foldl (fun t r => TRedir t r.1 r.2) t rs.
Definition backs {W} (n : nat) (t : tree W) : tree W := Nat.iter n TBack t.

(** ** Grammar *)

Section grammar.
Context {W : Type}.

Definition is_redir (c : Z) : bool := bool_decide (c ∈ [60; 62; 43]).

(** [('<' | '>' | '>>') word ...] *)
Inductive Redirs : list (token W) -> list (Z * W) -> Prop :=
| Redirs_nil : Redirs [] []
| Redirs_cons c w l rs : is_redir c = true -> Redirs l rs -> Redirs (TSym c :: TWord w :: l) ((c, w) :: rs).

(** [(word redirs) ...], with the words and the redirections apart. *)
Inductive Args : list (token W) -> list W -> list (Z * W) -> Prop :=
| Args_nil : Args [] [] []
| Args_cons w l1 rs1 l2 ws rs2 : Redirs l1 rs1 -> Args l2 ws rs2 -> Args (TWord w :: l1 ++ l2) (w :: ws) (rs1 ++ rs2).

Inductive Line : list (token W) -> tree W -> Prop :=
| Line_one l t n : Pipeline l t -> Line (l ++ replicate n (TSym 38)) (backs n t)
| Line_seq l t n l' t' : Pipeline l t -> Line l' t' ->
    Line (l ++ replicate n (TSym 38) ++ TSym 59 :: l') (TList (backs n t) t')
with Pipeline : list (token W) -> tree W -> Prop :=
| Pipeline_one l t : Command l t -> Pipeline l t
| Pipeline_more l t l' t' : Command l t -> Pipeline l' t' -> Pipeline (l ++ TSym 124 :: l') (TPipe t t')
with Command : list (token W) -> tree W -> Prop :=
| Command_block l t l' rs : Line l t -> Redirs l' rs -> Command (TSym 40 :: l ++ TSym 41 :: l') (wrap t rs)
| Command_simple l rs l' ws rs' : Redirs l rs -> Args l' ws rs' -> (length ws < MAXARGS)%nat ->
    Command (l ++ l') (wrap (TExec ws) (rs ++ rs')).

(** ** Reference parser *)

Abbreviation P := (M (list (token W))).

(** Does the next token's symbol start with a character of [set]? *)
Definition look (set : string) : P bool := gets (starts (toks set)).
Definition next : P (option (token W)) := ts ← get; _ ← put (tail ts); mret (head ts).

Fixpoint redirs (n : nat) : P (list (Z * W)) :=
  match n with
  | O => nofuel
  | S n =>
      b ← look "<>";
      if (b : bool) then
        s ← next;
        f ← next;
        match s, f with
        | Some (TSym c), Some (TWord w) => rs ← redirs n; mret ((c, w) :: rs)
        | _, _ => panic "missing file for redirection"
        end
      else mret []
  end.

Fixpoint arguments (m n argc : nat) : P (list W * list (Z * W)) :=
  match n with
  | O => nofuel
  | S n =>
      b ← look "|)&;";
      if (b : bool) then mret ([], []) else
      t ← next;
      match t with
      | None => mret ([], [])
      | Some (TSym _) => panic "syntax"
      | Some (TWord w) =>
          if (MAXARGS <=? S argc)%nat then panic "too many args" else
          rs1 ← redirs m;
          '(ws, rs2) ← arguments m n (S argc);
          mret (w :: ws, rs1 ++ rs2)
      end
  end.

Fixpoint amps (n : nat) : P nat :=
  match n with
  | O => nofuel
  | S n => b ← look "&"; if (b : bool) then _ ← next; k ← amps n; mret (S k) else mret O
  end.

(** [m] bounds the loops, [fuel] the nesting of calls. *)
Fixpoint p_line (m fuel : nat) : P (tree W) :=
  match fuel with
  | O => nofuel
  | S fuel =>
      t ← p_pipe m fuel;
      k ← amps m;
      b ← look ";";
      if (b : bool) then _ ← next; r ← p_line m fuel; mret (TList (backs k t) r)
      else mret (backs k t)
  end
with p_pipe (m fuel : nat) : P (tree W) :=
  match fuel with
  | O => nofuel
  | S fuel =>
      t ← p_exec m fuel;
      b ← look "|";
      if (b : bool) then _ ← next; r ← p_pipe m fuel; mret (TPipe t r) else mret t
  end
with p_exec (m fuel : nat) : P (tree W) :=
  match fuel with
  | O => nofuel
  | S fuel =>
      b ← look "(";
      if (b : bool) then p_block m fuel else
      rs1 ← redirs m;
      '(ws, rs2) ← arguments m m 0;
      mret (wrap (TExec ws) (rs1 ++ rs2))
  end
with p_block (m fuel : nat) : P (tree W) :=
  match fuel with
  | O => nofuel
  | S fuel =>
      _ ← next;
      t ← p_line m fuel;
      b ← look ")";
      if negb b then panic "syntax - missing )" else
      _ ← next;
      rs ← redirs m;
      mret (wrap t rs)
  end.

(** ** Soundness *)

Lemma starts_spec set (ts : list (token W)) : Forall (fun c => c <> 0) (bytes_of set) ->
  starts (toks set) ts = match ts with TSym c :: _ => bool_decide (first c ∈ bytes_of set) | _ => false end.
Proof. intros H. destruct ts as [|[w|c] ts]; [done..|]. cbn [starts]. by apply mem_of_spec. Qed.

(** The tokens a [look] finds, set by set. *)
Lemma starts_one c d (ts : list (token W)) : bytes_of c = [d] -> d <> 0 -> d <> 62 -> starts (toks c) ts = true -> exists l, ts = TSym d :: l.
Proof.
  intros E Hd Hd' H. rewrite starts_spec in H by (rewrite E; by constructor). destruct ts as [|[w|k] ts]; [done..|].
  rewrite E in H. apply bool_decide_eq_true, list_elem_of_singleton in H. unfold first in H.
  destruct (Z.eqb_spec k 43); subst; [done|eauto].
Qed.

Lemma starts_redir (ts : list (token W)) : starts (toks "<>") ts = true -> exists c l, ts = TSym c :: l /\ is_redir c = true.
Proof.
  intros H. rewrite starts_spec in H by by repeat constructor. destruct ts as [|[w|k] ts]; [done..|]. exists k, ts. split; [done|].
  apply bool_decide_eq_true in H. apply bool_decide_eq_true. unfold first in H. destruct (Z.eqb_spec k 43) as [->|]; [set_solver|].
  cbn in H. set_solver.
Qed.

(** Run the monad away, leaving the calls of the parsers. *)
Ltac psimp := unfold look, next, mbind, M_bind, gets, get, put, mret, M_ret, panic, nofuel in *; cbn [head tail hd_error negb] in *.

Lemma redirs_sound n ts rs ts' : redirs n ts = Ok rs ts' -> exists l, ts = l ++ ts' /\ Redirs l rs.
Proof.
  revert ts rs. induction n as [|n IH]; intros ts rs H; [done|]. cbn [redirs] in H. psimp.
  destruct (starts (toks "<>") ts) eqn:Hb; [|simplify_eq; exists []; split; [done|constructor]].
  destruct (starts_redir _ Hb) as (c & l & -> & Hc). psimp.
  destruct l as [|[w|?] l]; psimp; [done| |done]. destruct (redirs n l) as [rs1 ts1| | | |] eqn:E; simplify_eq.
  destruct (IH _ _ E) as (l1 & -> & Hl1). exists (TSym c :: TWord w :: l1). split; [done|]. by constructor.
Qed.

Lemma arguments_sound m n argc ts ws rs ts' : arguments m n argc ts = Ok (ws, rs) ts' -> (argc < MAXARGS)%nat ->
  exists l, ts = l ++ ts' /\ Args l ws rs /\ (argc + length ws < MAXARGS)%nat.
Proof.
  revert argc ts ws rs. induction n as [|n IH]; intros argc ts ws rs H Ha; [done|]. cbn [arguments] in H. psimp.
  destruct (starts (toks "|)&;") ts); [simplify_eq; exists []; split; [done|]; split; [constructor|cbn; lia]|].
  destruct ts as [|[w|?] ts]; psimp; simplify_eq; [exists []; split; [done|]; split; [constructor|cbn; lia]|].
  destruct (Nat.leb_spec MAXARGS (S argc)); [done|]. destruct (redirs m ts) as [rs1 ts1| | | |] eqn:E1; simplify_eq.
  destruct (arguments m n (S argc) ts1) as [[ws2 rs2] ts2| | | |] eqn:E2; simplify_eq.
  apply redirs_sound in E1 as (l1 & -> & H1). apply IH in E2 as (l2 & -> & H2 & Hlen); [|done].
  exists (TWord w :: l1 ++ l2). split; [cbn; by rewrite <- app_assoc|]. split; [by constructor|]. cbn [length]. lia.
Qed.

Lemma amps_sound n ts k ts' : amps n ts = Ok k ts' -> ts = replicate k (TSym 38) ++ ts'.
Proof.
  revert ts k. induction n as [|n IH]; intros ts k H; [done|]. cbn [amps] in H. psimp.
  destruct (starts (toks "&") ts) eqn:Hb; simplify_eq; [|done].
  apply (starts_one _ 38) in Hb as [l ->]; [|done..]. psimp. destruct (amps n l) as [j ts1| | | |] eqn:E; simplify_eq.
  by rewrite (IH _ _ E).
Qed.

Lemma parser_sound m fuel :
  (forall ts t ts', p_line m fuel ts = Ok t ts' -> exists l, ts = l ++ ts' /\ Line l t) /\
  (forall ts t ts', p_pipe m fuel ts = Ok t ts' -> exists l, ts = l ++ ts' /\ Pipeline l t) /\
  (forall ts t ts', p_exec m fuel ts = Ok t ts' -> exists l, ts = l ++ ts' /\ Command l t) /\
  (forall ts t ts', starts (toks "(") ts = true -> p_block m fuel ts = Ok t ts' -> exists l, ts = l ++ ts' /\ Command l t).
Proof.
  induction fuel as [|fuel (IHl & IHp & IHe & IHb)]; [split_and!; by intros|]. split_and!; intros ts t ts'.
  - cbn [p_line]. psimp. intros H. destruct (p_pipe m fuel ts) as [t1 ts1| | | |] eqn:E1; simplify_eq.
    destruct (amps m ts1) as [k ts2| | | |] eqn:E2; simplify_eq.
    apply IHp in E1 as (l1 & -> & H1). apply amps_sound in E2 as ->.
    destruct (starts (toks ";") ts2) eqn:Hb; simplify_eq.
    + apply (starts_one _ 59) in Hb as [l ->]; [|done..]. psimp. destruct (p_line m fuel l) as [r ts3| | | |] eqn:E3; simplify_eq.
      apply IHl in E3 as (l3 & -> & H3). exists (l1 ++ replicate k (TSym 38) ++ TSym 59 :: l3).
      rewrite <- !app_assoc. split; [done|]. by constructor.
    + exists (l1 ++ replicate k (TSym 38)). rewrite <- app_assoc. split; [done|]. by constructor.
  - cbn [p_pipe]. psimp. intros H. destruct (p_exec m fuel ts) as [t1 ts1| | | |] eqn:E1; simplify_eq.
    apply IHe in E1 as (l1 & -> & H1). destruct (starts (toks "|") ts1) eqn:Hb; simplify_eq.
    + apply (starts_one _ 124) in Hb as [l ->]; [|done..]. psimp. destruct (p_pipe m fuel l) as [r ts3| | | |] eqn:E3; simplify_eq.
      apply IHp in E3 as (l3 & -> & H3). exists (l1 ++ TSym 124 :: l3). rewrite <- !app_assoc. split; [done|]. by constructor.
    + exists l1. split; [done|]. by constructor.
  - cbn [p_exec]. psimp. intros H. destruct (starts (toks "(") ts) eqn:Hb; [by apply IHb|].
    destruct (redirs m ts) as [rs1 ts1| | | |] eqn:E1; simplify_eq.
    destruct (arguments m m 0 ts1) as [[ws rs2] ts2| | | |] eqn:E2; simplify_eq.
    apply redirs_sound in E1 as (l1 & -> & H1). apply arguments_sound in E2 as (l2 & -> & H2 & Hlen); [|unfold MAXARGS; lia].
    exists (l1 ++ l2). rewrite <- app_assoc. split; [done|]. by constructor.
  - intros Hb. apply (starts_one _ 40) in Hb as [l ->]; [|done..]. cbn [p_block]. psimp. intros H.
    destruct (p_line m fuel l) as [t1 ts1| | | |] eqn:E1; simplify_eq. apply IHl in E1 as (l1 & -> & H1).
    destruct (starts (toks ")") ts1) eqn:Hb; [|done]. apply (starts_one _ 41) in Hb as [l ->]; [|done..]. psimp.
    destruct (redirs m l) as [rs1 ts2| | | |] eqn:E2; simplify_eq. apply redirs_sound in E2 as (l2 & -> & H2).
    exists (TSym 40 :: l1 ++ TSym 41 :: l2). split; [cbn; by rewrite <- app_assoc|]. by constructor.
Qed.

(** ** Completeness *)

Lemma starts_sub a b (ts : list (token W)) :
  Forall (fun c => c <> 0 /\ c ∈ bytes_of b) (bytes_of a) -> Forall (fun c => c <> 0) (bytes_of b) ->
  starts (toks a) ts = true -> starts (toks b) ts = true.
Proof.
  intros Ha Hb H. rewrite starts_spec in H |- * by (done || by eapply Forall_impl; [exact Ha|intros ? []]).
  destruct ts as [|[w|k] ts]; [done..|]. apply bool_decide_eq_true in H. apply bool_decide_eq_true.
  by apply (proj1 (Forall_forall _ _) Ha).
Qed.

Lemma starts_disjoint a b (ts : list (token W)) :
  Forall (fun c => c <> 0 /\ c ∉ bytes_of b) (bytes_of a) -> Forall (fun c => c <> 0) (bytes_of b) ->
  starts (toks a) ts = true -> starts (toks b) ts = false.
Proof.
  intros Ha Hb H. rewrite starts_spec in H |- * by (done || by eapply Forall_impl; [exact Ha|intros ? []]).
  destruct ts as [|[w|k] ts]; [done..|]. apply bool_decide_eq_true in H. apply bool_decide_eq_false.
  by apply (proj1 (Forall_forall _ _) Ha).
Qed.

(** What may follow a phrase: the end, or a symbol of [set]. *)
Definition follow (set : string) (ts : list (token W)) : Prop := ts = [] \/ starts (toks set) ts = true.

Ltac chars := apply (bool_decide_unpack _); by vm_compute.

Lemma follow_sub a b ts : Forall (fun c => c <> 0 /\ c ∈ bytes_of b) (bytes_of a) -> Forall (fun c => c <> 0) (bytes_of b) ->
  follow a ts -> follow b ts.
Proof. intros Ha Hb [->|H]; [by left|right]. by eapply starts_sub. Qed.

Lemma follow_not a b ts : Forall (fun c => c <> 0 /\ c ∉ bytes_of b) (bytes_of a) -> Forall (fun c => c <> 0) (bytes_of b) ->
  follow a ts -> starts (toks b) ts = false.
Proof. intros Ha Hb [->|H]; [done|]. by eapply starts_disjoint. Qed.

Lemma redirs_complete l rs n ts : Redirs l rs -> starts (toks "<>") ts = false -> (length l < n)%nat -> redirs n (l ++ ts) = Ok rs ts.
Proof.
  intros H Ht. revert n. induction H as [|c w l rs Hc Hl IH]; intros n Hn; (destruct n as [|n]; [cbn in *; lia|]); cbn [redirs app]; psimp.
  - by rewrite Ht.
  - assert (starts (toks "<>") (TSym c :: TWord w :: l ++ ts) = true) as ->.
    { apply bool_decide_eq_true in Hc. by repeat (apply elem_of_cons in Hc as [->|Hc]; [done|]); apply elem_of_nil in Hc. }
    psimp. rewrite IH; [done|]. cbn in Hn. lia.
Qed.

(** After its redirections, a simple command goes on with a word or ends. *)
Lemma args_not_redir l ws rs ts : Args l ws rs -> follow "|)&;" ts -> starts (toks "<>") (l ++ ts) = false /\ starts (toks "(") (l ++ ts) = false.
Proof. intros [] Hf; [|done]. split; (eapply follow_not; [| |exact Hf]; chars). Qed.

Lemma arguments_complete l ws rs m n argc ts : Args l ws rs -> follow "|)&;" ts -> (length l < n)%nat -> (length l <= m)%nat ->
  (argc + length ws < MAXARGS)%nat -> arguments m n argc (l ++ ts) = Ok (ws, rs) ts.
Proof.
  intros H Hf. revert n argc. induction H as [|w l1 rs1 l2 ws rs2 H1 H2 IH]; intros n argc Hn Hm Ha;
    (destruct n as [|n]; [cbn in *; lia|]); cbn [arguments app]; psimp.
  - destruct Hf as [->|Hf]; [done|]. by rewrite Hf.
  - change (starts (toks "|)&;") (TWord w :: (l1 ++ l2) ++ ts)) with false. cbn [length] in *. rewrite length_app in Hn, Hm.
    psimp. rewrite (proj2 (Nat.leb_gt _ _)) by lia. rewrite <- app_assoc, (redirs_complete l1 rs1) by (done || lia || by eapply args_not_redir).
    rewrite IH by lia. done.
Qed.

Lemma amps_complete k n ts : starts (toks "&") ts = false -> (k < n)%nat -> amps n (replicate k (TSym 38) ++ ts) = Ok k ts.
Proof.
  intros Ht. revert n. induction k as [|k IH]; intros n Hn; (destruct n as [|n]; [lia|]); cbn [amps replicate app]; psimp.
  - by rewrite Ht.
  - change (starts (toks "&") (TSym 38 :: replicate k (TSym 38) ++ ts)) with true. psimp. by rewrite IH by lia.
Qed.

Scheme Line_mut := Minimality for Line Sort Prop
  with Pipeline_mut := Minimality for Pipeline Sort Prop
  with Command_mut := Minimality for Command Sort Prop.
Combined Scheme grammar_ind from Line_mut, Pipeline_mut, Command_mut.

Lemma parser_complete m :
  (forall l t, Line l t -> forall fuel ts, follow ")" ts -> (length l < m)%nat -> (4 * length l + 4 <= fuel)%nat -> p_line m fuel (l ++ ts) = Ok t ts) /\
  (forall l t, Pipeline l t -> forall fuel ts, follow ")&;" ts -> (length l < m)%nat -> (4 * length l + 3 <= fuel)%nat -> p_pipe m fuel (l ++ ts) = Ok t ts) /\
  (forall l t, Command l t -> forall fuel ts, follow "|)&;" ts -> (length l < m)%nat -> (4 * length l + 2 <= fuel)%nat -> p_exec m fuel (l ++ ts) = Ok t ts).
Proof.
  apply grammar_ind.
  - intros l t n _ IH [|fuel] ts Hf Hm Hfu; [lia|]. rewrite length_app, length_replicate in *. cbn [p_line]. psimp.
    rewrite <- app_assoc, IH; [|destruct n; [eapply follow_sub; [..|exact Hf]; chars|by right]|lia..].
    rewrite amps_complete; [|eapply follow_not; [..|exact Hf]; chars|lia].
    rewrite (follow_not ")" ";" ts); [done|chars..|done].
  - intros l t n l' t' _ IH _ IH' [|fuel] ts Hf Hm Hfu; [lia|]. rewrite !length_app, length_replicate in *. cbn [length] in *. cbn [p_line]. psimp.
    rewrite <- !app_assoc, IH; [|destruct n; by right|lia..]. rewrite <- app_comm_cons, amps_complete; [|done|lia].
    change (starts (toks ";") (TSym 59 :: l' ++ ts)) with true. psimp. rewrite IH'; [done..|lia|lia].
  - intros l t _ IH [|fuel] ts Hf Hm Hfu; [lia|]. cbn [p_pipe]. psimp. rewrite IH; [|eapply follow_sub; [..|exact Hf]; chars|lia..].
    rewrite (follow_not ")&;" "|" ts); [done|chars..|done].
  - intros l t l' t' _ IH _ IH' [|fuel] ts Hf Hm Hfu; [lia|]. rewrite !length_app in *. cbn [length] in *. cbn [p_pipe]. psimp.
    rewrite <- app_assoc, IH; [|by right|lia..]. rewrite <- app_comm_cons.
    change (starts (toks "|") (TSym 124 :: l' ++ ts)) with true. psimp. rewrite IH'; [done..|lia|lia].
  - intros l t l' rs _ IH Hr [|[|fuel]] ts Hf Hm Hfu; [lia..|]. cbn [length] in *. rewrite length_app in *. cbn [length] in *.
    cbn [p_exec p_block app]. psimp. change (starts (toks "(") (TSym 40 :: (l ++ TSym 41 :: l') ++ ts)) with true. psimp.
    rewrite <- app_assoc, <- app_comm_cons, IH; [|by right|lia..]. change (starts (toks ")") (TSym 41 :: l' ++ ts)) with true. psimp.
    rewrite (redirs_complete l' rs); [done..|eapply follow_not; [..|exact Hf]; chars|lia].
  - intros l rs l' ws rs' Hr Ha Hlen [|fuel] ts Hf Hm Hfu; [lia|]. rewrite !length_app in *. cbn [p_exec]. psimp.
    destruct (args_not_redir _ _ _ ts Ha Hf) as [H1 H2]. rewrite <- app_assoc.
    assert (starts (toks "(") (l ++ l' ++ ts) = false) as ->.
    { destruct Hr as [|c w l rs Hc _]; [done|]. apply bool_decide_eq_true in Hc.
      by repeat (apply elem_of_cons in Hc as [->|Hc]; [done|]); apply elem_of_nil in Hc. }
    rewrite (redirs_complete l rs) by (done || lia). rewrite (arguments_complete l' ws rs') by (done || lia). done.
Qed.

(** ** Totality *)

Definition messages : list string := ["missing file for redirection"; "syntax"; "too many args"; "syntax - missing )"].

(** A parser that returns, or panics with one of the messages. *)
Definition total {A} (r : outcome (list (token W)) A) : Prop :=
  match r with Ok _ _ => True | Panic msg => msg ∈ messages | _ => False end.

Lemma redirs_total n ts : (length ts < n)%nat -> total (redirs n ts).
Proof.
  revert ts. induction n as [|n IH]; intros ts Hn; [lia|]. cbn [redirs]. psimp. destruct (starts (toks "<>") ts) eqn:Hb; [|done].
  apply starts_redir in Hb as (c & l & -> & _). psimp. destruct l as [|[w|?] l]; psimp; [set_solver| |set_solver].
  specialize (IH l ltac:(cbn in *; lia)). by destruct (redirs n l).
Qed.

Lemma arguments_total m n argc ts : (length ts < n)%nat -> (length ts <= m)%nat -> total (arguments m n argc ts).
Proof.
  revert argc ts. induction n as [|n IH]; intros argc ts Hn Hm; [lia|]. cbn [arguments]. psimp. destruct (starts (toks "|)&;") ts); [done|].
  destruct ts as [|[w|c] ts]; psimp; [done| |set_solver]. cbn [length] in *. destruct (MAXARGS <=? S argc)%nat; [set_solver|].
  pose proof (redirs_total m ts ltac:(lia)) as H1. destruct (redirs m ts) as [rs1 ts1| | | |] eqn:E1; [|done..].
  apply redirs_sound in E1 as (l & -> & _). rewrite length_app in *. specialize (IH (S argc) ts1 ltac:(lia) ltac:(lia)).
  by destruct (arguments m n (S argc) ts1) as [[]| | | |].
Qed.

Lemma amps_total n ts : (length ts < n)%nat -> total (amps n ts).
Proof.
  revert ts. induction n as [|n IH]; intros ts Hn; [lia|]. cbn [amps]. psimp. destruct (starts (toks "&") ts) eqn:Hb; [|done].
  apply (starts_one _ 38) in Hb as [l ->]; [|done..]. psimp. cbn [length] in *. specialize (IH l ltac:(lia)). by destruct (amps n l).
Qed.

Lemma parser_total m fuel :
  (forall ts, (length ts < m)%nat -> (4 * length ts + 4 <= fuel)%nat -> total (p_line m fuel ts)) /\
  (forall ts, (length ts < m)%nat -> (4 * length ts + 3 <= fuel)%nat -> total (p_pipe m fuel ts)) /\
  (forall ts, (length ts < m)%nat -> (4 * length ts + 2 <= fuel)%nat -> total (p_exec m fuel ts)) /\
  (forall ts, (length ts < m)%nat -> (4 * length ts + 1 <= fuel)%nat -> starts (toks "(") ts = true -> total (p_block m fuel ts)).
Proof.
  induction fuel as [|fuel (IHl & IHp & IHe & IHb)]; [split_and!; intros; lia|].
  pose proof (parser_sound m fuel) as (Sl & Sp & Se & _). split_and!; intros ts Hm Hf.
  - cbn [p_line]. psimp. specialize (IHp ts Hm ltac:(lia)). destruct (p_pipe m fuel ts) as [t1 ts1| | | |] eqn:E1; [|done..].
    apply Sp in E1 as (l1 & -> & _). rewrite length_app in *. pose proof (amps_total m ts1 ltac:(lia)) as H1.
    destruct (amps m ts1) as [k ts2| | | |] eqn:E2; [|done..]. apply amps_sound in E2 as ->. rewrite length_app in *.
    destruct (starts (toks ";") ts2) eqn:Hb; [|done]. apply (starts_one _ 59) in Hb as [l ->]; [|done..]. psimp. cbn [length] in *.
    specialize (IHl l ltac:(lia) ltac:(lia)). by destruct (p_line m fuel l).
  - cbn [p_pipe]. psimp. specialize (IHe ts Hm ltac:(lia)). destruct (p_exec m fuel ts) as [t1 ts1| | | |] eqn:E1; [|done..].
    apply Se in E1 as (l1 & -> & _). rewrite length_app in *.
    destruct (starts (toks "|") ts1) eqn:Hb; [|done]. apply (starts_one _ 124) in Hb as [l ->]; [|done..]. psimp. cbn [length] in *.
    specialize (IHp l ltac:(lia) ltac:(lia)). by destruct (p_pipe m fuel l).
  - cbn [p_exec]. psimp. destruct (starts (toks "(") ts) eqn:Hb; [by apply IHb; [|lia|]|].
    pose proof (redirs_total m ts Hm) as H1. destruct (redirs m ts) as [rs1 ts1| | | |] eqn:E1; [|done..].
    apply redirs_sound in E1 as (l1 & -> & _). rewrite length_app in *. pose proof (arguments_total m m 0 ts1 ltac:(lia) ltac:(lia)) as H2.
    by destruct (arguments m m 0 ts1) as [[]| | | |].
  - intros Hb. apply (starts_one _ 40) in Hb as [l ->]; [|done..]. cbn [p_block length] in *. psimp.
    specialize (IHl l ltac:(lia) ltac:(lia)). destruct (p_line m fuel l) as [t1 ts1| | | |] eqn:E1; [|done..].
    apply Sl in E1 as (l1 & -> & _). rewrite length_app in *. destruct (starts (toks ")") ts1) eqn:Hb; psimp; [|set_solver].
    apply (starts_one _ 41) in Hb as [l ->]; [|done..]. psimp. cbn [length] in *.
    pose proof (redirs_total m l ltac:(lia)) as H1. by destruct (redirs m l).
Qed.
End grammar.
