(* ===== verification/ShHeap.v ===== *)
(** * The parser of sh.c builds the reference parser's trees

    How a syntax tree lies in the heap of commands, the simulation of the
    reference parser by the code, and what [nulterminate] does to the line. *)

From S2P Require Import Prelude Memory Layout Cstring Ulib Printf Sh ShLex ShParse.
Import Sh.

Abbreviation span := (nat * nat)%type.

(** ** Trees in the heap *)

Definition redir_mode (c : Z) : Z := if c =? 60 then O_RDONLY else O_WRONLY .| O_CREATE.
Definition redir_fd (c : Z) : Z := if c =? 60 then 0 else 1.

(** An array of string pointers with a null pointer after the last. *)
Definition pad (ws : list nat) : list (option nat) := (Some <$> ws) ++ replicate (MAXARGS - length ws) None.

(** The tree at a pointer; the parts of a command are older than it. *)
Inductive rep (h : heap) : nat -> tree span -> Prop :=
| rep_exec a ws : h !! a = Some (EXEC (pad ws.*1) (pad ws.*2)) -> (length ws < MAXARGS)%nat -> rep h a (TExec ws)
| rep_redir a b t c q e : h !! a = Some (REDIR (Some b) q e (redir_mode c) (redir_fd c)) -> is_redir c = true -> (b < a)%nat ->
    rep h b t -> rep h a (TRedir t c (q, e))
| rep_pipe a b b' l r : h !! a = Some (PIPE (Some b) (Some b')) -> (b < a)%nat -> (b' < a)%nat -> rep h b l -> rep h b' r -> rep h a (TPipe l r)
| rep_list a b b' l r : h !! a = Some (LIST (Some b) (Some b')) -> (b < a)%nat -> (b' < a)%nat -> rep h b l -> rep h b' r -> rep h a (TList l r)
| rep_back a b t : h !! a = Some (BACK (Some b)) -> (b < a)%nat -> rep h b t -> rep h a (TBack t).

Lemma rep_mono h h' a t : h `prefix_of` h' -> rep h a t -> rep h' a t.
Proof.
  intros Hp. assert (forall i c, h !! i = Some c -> h' !! i = Some c) as Hl by (intros; by eapply prefix_lookup_Some).
  induction 1; [eapply rep_exec|eapply rep_redir|eapply rep_pipe|eapply rep_list|eapply rep_back]; eauto.
Qed.

(** Redirections around a command. *)
Inductive chain (h : heap) (a : nat) : list (Z * span) -> nat -> Prop :=
| chain_nil : chain h a [] a
| chain_snoc rs b c q e d : chain h a rs b -> h !! d = Some (REDIR (Some b) q e (redir_mode c) (redir_fd c)) -> is_redir c = true ->
    (b < d)%nat -> chain h a (rs ++ [(c, (q, e))]) d.

Lemma chain_rep h a rs b t : chain h a rs b -> rep h a t -> rep h b (wrap t rs).
Proof.
  induction 1 as [|rs b c q e d Hc IH Hd Hr Hlt]; intros Ht; [done|]. unfold wrap. rewrite foldl_app. cbn. eapply rep_redir; eauto.
Qed.

Lemma chain_mono h h' a rs b : h `prefix_of` h' -> chain h a rs b -> chain h' a rs b.
Proof. intros Hp. induction 1; [constructor|]. econstructor; eauto. by eapply prefix_lookup_Some. Qed.

Lemma redirs_app h a rs b rs' d : chain h a rs b -> chain h b rs' d -> chain h a (rs ++ rs') d.
Proof. intros H. induction 1; [by rewrite app_nil_r|]. rewrite app_assoc. econstructor; eauto. Qed.

(** An update of the [execcmd] at the bottom leaves the chain. *)
Lemma chain_update h a rs b i argv eargv argv' eargv' : h !! i = Some (EXEC argv eargv) -> chain h a rs b ->
  chain (<[i := EXEC argv' eargv']> h) a rs b.
Proof. intros Hi. induction 1; [constructor|]. econstructor; eauto. rewrite list_lookup_insert_ne by congruence. done. Qed.

(** ** Simulation *)

(** The code's run [m] against the reference parser's [r]. *)
Definition sim {A B} (r : outcome (list (token span)) A) (m : outcome heap B) (Q : A -> list (token span) -> B -> heap -> Prop) : Prop :=
  match r with
  | Ok a ts => exists b h, m = Ok b h /\ Q a ts b h
  | Panic msg => m = Panic msg
  | _ => True
  end.

Lemma psim_bind {A B A' B'} (r : M (list (token span)) A) (m : M heap B) ts h Q (f : A -> M (list (token span)) A') (g : B -> M heap B') R :
  sim (r ts) (m h) Q -> (forall a ts b h, Q a ts b h -> sim (f a ts) (g b h) R) -> sim ((r ≫= f) ts) ((m ≫= g) h) R.
Proof. unfold mbind, M_bind. destruct (r ts); cbn; try done; [|by intros ->]. intros (b & h' & -> & HQ) Hf. by apply Hf. Qed.

(** A call in tail position of the code. *)
Lemma psim_tail {A B A'} (r : M (list (token span)) A) (m : outcome heap B) ts Q (f : A -> M (list (token span)) A') R :
  sim (r ts) m Q -> (forall a ts b h, Q a ts b h -> sim (f a ts) (Ok b h) R) -> sim ((r ≫= f) ts) m R.
Proof. unfold mbind, M_bind. destruct (r ts); cbn; try done. intros (b & h' & -> & HQ) Hf. by apply Hf. Qed.

Lemma psim_ret {A B} (a : A) (b : B) ts h (Q : A -> list (token span) -> B -> heap -> Prop) : Q a ts b h -> sim (mret (M := M _) a ts) (mret (M := M _) b h) Q.
Proof. intros H. by exists b, h. Qed.

Section line.
Context (line junk : bytes).
Hypothesis Hline : Forall (fun c => c <> 0) line.
Local Abbreviation buf := (line ++ 0 :: junk).
Local Abbreviation es := (length line).
Local Abbreviation cur := (cur line).

Lemma peek_toks set s ts h : cur s ts -> Forall (fun c => c <> 0 /\ is_symbol c = true) (bytes_of set) ->
  exists s', peek buf es s (toks set) h = Ok (starts (toks set) ts, s') h /\ cur s' ts.
Proof.
  intros Hc Hset. apply peek_cur; [done..|]. intros c Hm. unfold toks in Hm. rewrite mem_of_spec in Hm by exact (Forall_impl _ _ _ Hset (fun c H => proj1 H)).
  apply bool_decide_eq_true in Hm. by apply (proj1 (Forall_forall _ _) Hset).
Qed.

(** A [peek] of the code beside a [look] of the reference. *)
Lemma psim_peek {A B} set s ts h (f : bool -> M (list (token span)) A) (g : bool * nat -> M heap B) R :
  cur s ts -> Forall (fun c => c <> 0 /\ is_symbol c = true) (bytes_of set) ->
  (forall s', cur s' ts -> sim (f (starts (toks set) ts) ts) (g (starts (toks set) ts, s') h) R) ->
  sim ((look set ≫= f) ts) ((peek buf es s (toks set) ≫= g) h) R.
Proof.
  intros Hc Hset H. destruct (peek_toks set s ts h Hc Hset) as (s' & Hrun & Hc').
  rewrite (bind_ok_l _ _ _ _ _ Hrun). by apply H.
Qed.

(** A [gettoken] beside a [next]. *)
Lemma psim_next {A B} s ts h (f : option (token span) -> M (list (token span)) A) (g : Z * nat * nat * nat -> M heap B) R :
  cur s ts ->
  (forall q e s', cur s' (tail ts) -> (forall w, head ts = Some (TWord w) -> w = (q, e)) -> sim (f (head ts) (tail ts)) (g (code ts, q, e, s') h) R) ->
  sim ((next ≫= f) ts) ((gettoken buf es s ≫= g) h) R.
Proof.
  intros Hc H. destruct (gettoken_cur line junk Hline s ts h Hc) as (q & e & s' & Hrun & Hc' & Hw).
  rewrite (bind_ok_l _ _ _ _ _ Hrun). by apply (H q e s').
Qed.

(** What a parser of the code does to the heap: it adds to it, and leaves the
    command at [b]. *)
Definition grown (h : heap) (b : nat) (h' : heap) : Prop := h `prefix_of` h' /\ (b < length h')%nat.

(** A constructor of the code. *)
Lemma new_run c h : new c h = Ok (Some (length h)) (h ++ [c]).
Proof. done. Qed.

Ltac chars := apply (bool_decide_unpack _); by vm_compute.

Lemma redir_run c a q e h : is_redir c = true -> redir c (Some a) q e h = Ok (Some (length h)) (h ++ [REDIR (Some a) q e (redir_mode c) (redir_fd c)]).
Proof. intros Hc. apply bool_decide_eq_true in Hc. by repeat (apply elem_of_cons in Hc as [->|Hc]; [done|]); apply elem_of_nil in Hc. Qed.

Lemma sim_redirs n a s ts h : cur s ts -> (a < length h)%nat ->
  sim (redirs n ts) (parseredirs_loop buf es n (Some a) s h)
    (fun rs ts' r h' => exists b s', r = (Some b, s') /\ cur s' ts' /\ grown h b h' /\ chain h' a rs b).
Proof.
  assert (forall rs0 b s ts h, cur s ts -> (a < length h)%nat -> (b < length h)%nat -> chain h a rs0 b ->
    sim (redirs n ts) (parseredirs_loop buf es n (Some b) s h)
      (fun rs ts' r h' => exists b s', r = (Some b, s') /\ cur s' ts' /\ grown h b h' /\ chain h' a (rs0 ++ rs) b)) as H.
  2: { intros Hc Ha. apply (H [] a s ts h); [done..|constructor]. }
  clear s ts h. induction n as [|n IH]; intros rs0 b s ts h Hc Ha Hb Hch; [done|]. cbn [redirs parseredirs_loop].
  apply psim_peek; [done|chars|]. intros s1 Hc1. destruct (starts (toks "<>") ts) eqn:Hs.
  2: { eexists _, _. split; [done|]. exists b, s1. rewrite app_nil_r. done. }
  apply starts_redir in Hs as (c & l & -> & Hr). apply psim_next; [done|]. intros q0 e0 s2 Hc2 _. apply psim_next; [done|]. intros q e s3 Hc3 Hw.
  cbn [head tail] in *. rewrite (code_word line _ _ Hc2). destruct l as [|[w|?] l]; cbn [head tail negb] in *; [done| |done].
  rewrite (Hw w eq_refl). rewrite (bind_ok_l _ _ _ _ _ (redir_run c b q e h Hr)).
  set (h1 := h ++ [REDIR (Some b) q e (redir_mode c) (redir_fd c)]). assert (length h1 = S (length h)) as Hh1 by (unfold h1; rewrite length_app; cbn; lia).
  assert (chain h1 a (rs0 ++ [(c, (q, e))]) (length h)) as Hch'.
  { econstructor; [eapply chain_mono; [by apply prefix_app_r|exact Hch]|unfold h1; by rewrite lookup_app_r, Nat.sub_diag|done|done]. }
  specialize (IH (rs0 ++ [(c, (q, e))]) (length h) s3 l h1 Hc3 ltac:(lia) ltac:(lia) Hch'). unfold mbind at 1, M_bind at 1.
  destruct (redirs n l) as [rs ts'| | | |]; cbn in *; try done. destruct IH as (r & h' & -> & b' & s' & -> & Hcs & [Hp Hb'] & Hch2).
  exists (Some b', s'), h'. split; [done|]. exists b', s'. split; [done|]. split; [done|]. rewrite <- app_assoc in Hch2.
  split; [split; [|done]|done]. etransitivity; [|exact Hp]. by apply prefix_app_r.
Qed.

Lemma sim_amps n a s ts h : cur s ts -> (a < length h)%nat ->
  sim (amps n ts) (parsebacks buf es n (Some a) s h)
    (fun k ts' r h' => exists b s', r = (Some b, s') /\ cur s' ts' /\ grown h b h' /\ (forall t, rep h a t -> rep h' b (backs k t))).
Proof.
  revert a s ts h. induction n as [|n IH]; intros a s ts h Hc Ha; [done|]. cbn [amps parsebacks].
  apply psim_peek; [done|chars|]. intros s1 Hc1. destruct (starts (toks "&") ts) eqn:Hs.
  2: { eexists _, _. split; [done|]. exists a, s1. done. }
  apply psim_next; [done|]. intros q e s2 Hc2 _. unfold backcmd. rewrite (bind_ok_l _ _ _ _ _ (new_run _ _)).
  assert (length (h ++ [BACK (Some a)]) = S (length h)) as Hlen by (rewrite length_app; cbn; lia).
  specialize (IH (length h) s2 (tail ts) (h ++ [BACK (Some a)]) Hc2 ltac:(lia)). unfold mbind at 1, M_bind at 1.
  destruct (amps n (tail ts)) as [k ts'| | | |]; cbn in *; try done. destruct IH as (r & h' & -> & b & s' & -> & Hcs & [Hp Hb] & Hrep).
  eexists _, h'. split; [done|]. exists b, s'. split; [done|]. split; [done|]. split; [split; [|done]; etransitivity; [|exact Hp]; by apply prefix_app_r|].
  intros t Ht. change (rep h' b (Nat.iter (S k) TBack t)). rewrite Nat.iter_succ_r. apply Hrep.
  eapply rep_back; [by rewrite lookup_app_r, Nat.sub_diag|done|]. eapply rep_mono; [by apply prefix_app_r|done].
Qed.

Lemma pad_insert ws q : (length ws < MAXARGS)%nat -> <[length ws := Some q]> (pad ws) = pad (ws ++ [q]).
Proof.
  intros H. unfold pad. rewrite insert_app_r_alt by (len). rewrite length_fmap, Nat.sub_diag, fmap_app, length_app. cbn [length].
  replace (MAXARGS - length ws)%nat with (S (MAXARGS - (length ws + 1))) by lia. cbn. by rewrite <- app_assoc.
Qed.

Lemma pad_end ws : (length ws < MAXARGS)%nat -> <[length ws := None]> (pad ws) = pad ws.
Proof.
  intros H. apply list_insert_id. unfold pad. rewrite lookup_app_r by (len). rewrite length_fmap, Nat.sub_diag. by apply lookup_replicate_2; lia.
Qed.

Lemma setarg_run a ws q e h : h !! a = Some (EXEC (pad ws.*1) (pad ws.*2)) -> (length ws < MAXARGS)%nat ->
  setarg (Some a) (length ws) (Some q) (Some e) h = Ok tt (<[a := EXEC (pad (ws ++ [(q, e)]).*1) (pad (ws ++ [(q, e)]).*2)]> h).
Proof.
  intros Ha Hw. unfold setarg, mbind, M_bind, get. cbv beta iota. rewrite Ha, (proj2 (Nat.ltb_lt _ _)) by done. unfold put. do 3 f_equal.
  all: rewrite fmap_app; cbn; rewrite <- pad_insert by len; by rewrite length_fmap.
Qed.

(** The arguments: the [execcmd] at [a] fills up while redirections gather
    around it; the commands before it stay. *)
Lemma sim_arguments n a b ws0 rs0 s ts h : cur s ts -> h !! a = Some (EXEC (pad ws0.*1) (pad ws0.*2)) -> (length ws0 < MAXARGS)%nat ->
  chain h a rs0 b -> (b < length h)%nat ->
  sim (arguments (S es) n (length ws0) ts) (parseargs buf es n (Some a) (Some b) (length ws0) s h)
    (fun x ts' r h' => exists b' s', r = (Some b', (length ws0 + length x.1)%nat, s') /\ cur s' ts' /\ (length h <= length h' /\ b' < length h')%nat /\ take a h' = take a h /\
       h' !! a = Some (EXEC (pad (ws0 ++ x.1).*1) (pad (ws0 ++ x.1).*2)) /\ (length (ws0 ++ x.1) < MAXARGS)%nat /\ chain h' a (rs0 ++ x.2) b').
Proof.
  revert b ws0 rs0 s ts h. induction n as [|n IH]; intros b ws0 rs0 s ts h Hc Ha Hw Hch Hb; [done|]. cbn [arguments parseargs].
  apply psim_peek; [done|chars|]. intros s1 Hc1. destruct (starts (toks "|)&;") ts).
  { eexists _, h. split; [done|]. exists b, s1. cbn. rewrite !app_nil_r, Nat.add_0_r. done. }
  apply psim_next; [done|]. intros q e s2 Hc2 Hq. rewrite (code_end line _ _ Hc1), (code_word line _ _ Hc1).
  destruct ts as [|[w|c] ts]; cbn [head tail negb] in *; [| |done].
  { eexists _, h. split; [done|]. exists b, s2. cbn. rewrite !app_nil_r, Nat.add_0_r. done. }
  rewrite (Hq w eq_refl), (bind_ok_l _ _ _ _ _ (setarg_run a ws0 q e h Ha Hw)). clear w Hq Hc Hc1.
  destruct (Nat.leb_spec MAXARGS (S (length ws0))) as [|Hw1]; [done|]. set (ws1 := ws0 ++ [(q, e)]). set (h1 := <[a := _]> h).
  assert (length ws1 = S (length ws0)) as Hl1 by (unfold ws1; rewrite length_app; cbn; lia).
  assert (a < length h)%nat as Hal by by eapply lookup_lt_Some. assert (length h1 = length h) as Hh1 by (unfold h1; len).
  eapply psim_bind; [apply sim_redirs; [exact Hc2|by rewrite Hh1]|].
  intros rs1 ts1 r h2 (b1 & s3 & -> & Hc3 & [Hp2 Hb1] & Hch1).
  assert (h2 !! a = Some (EXEC (pad ws1.*1) (pad ws1.*2))) as Ha2 by (eapply prefix_lookup_Some; [|exact Hp2]; by apply list_lookup_insert_eq).
  assert (chain h2 a (rs0 ++ rs1) b1) as Hch2.
  { eapply redirs_app; [|exact Hch1]. eapply chain_mono; [exact Hp2|]. by eapply chain_update. }
  specialize (IH b1 ws1 (rs0 ++ rs1) s3 ts1 h2 Hc3 Ha2 ltac:(lia) Hch2 Hb1). rewrite Hl1 in IH.
  eapply psim_tail; [exact IH|]. intros [ws rs2] ts2 r h3 (b2 & s4 & -> & Hc4 & Hlen & Ht & Ha3 & Hl3 & Hch3). cbn [fst snd] in *.
  apply psim_ret. exists b2, s4. cbn [fst snd length]. rewrite Nat.add_succ_comm. split; [done|]. split; [done|].
  pose proof (prefix_length _ _ Hp2). split; [lia|]. unfold ws1 in Ha3, Hl3. rewrite <- app_assoc in Ha3, Hl3, Hch3.
  split_and!; [|done..]. rewrite Ht. destruct Hp2 as [k ->]. rewrite take_app_le by lia. unfold h1. by rewrite take_insert_ge.
Qed.

(** A parser leaves its tree in the heap. *)
Definition built (h : heap) (t : tree span) (ts : list (token span)) (r : cmdp * nat) (h' : heap) : Prop :=
  exists b s, r = (Some b, s) /\ cur s ts /\ grown h b h' /\ rep h' b t.

(** The constructors of two parts. *)
Lemma built_two (mk : cmdp -> cmdp -> cmd) (T : tree span -> tree span -> tree span) h h1 b l r ts p h2 :
  (forall h a b b' l r, h !! a = Some (mk (Some b) (Some b')) -> (b < a)%nat -> (b' < a)%nat -> rep h b l -> rep h b' r -> rep h a (T l r)) ->
  grown h b h1 -> rep h1 b l -> built h1 r ts p h2 ->
  sim (mret (M := M _) (T l r) ts) (('(r, ps) ← mret (M := M _) p; cmd ← new (mk (Some b) r); mret (cmd, ps)) h2) (built h).
Proof.
  intros Hmk [Hp Hb] Hl (b' & s & -> & Hc & [Hp' Hb'] & Hr). eexists _, _. split; [done|]. exists (length h2), s.
  pose proof (prefix_length _ _ Hp'). assert (h2 `prefix_of` h2 ++ [mk (Some b) (Some b')]) as Hp2 by by apply prefix_app_r.
  split_and!; [done..| |]; [split; [|rewrite length_app; cbn; lia]|].
  - etransitivity; [exact Hp|]. by etransitivity.
  - eapply Hmk; [by rewrite lookup_app_r, Nat.sub_diag|lia|done| |by eapply rep_mono]. eapply rep_mono; [|exact Hl]. by etransitivity.
Qed.

Lemma setarg_end a ws h : h !! a = Some (EXEC (pad ws.*1) (pad ws.*2)) -> (length ws < MAXARGS)%nat -> setarg (Some a) (length ws) None None h = Ok tt h.
Proof.
  intros Ha Hw. unfold setarg, mbind, M_bind, get. cbv beta iota. rewrite Ha, (proj2 (Nat.ltb_lt _ _)) by done. unfold put. f_equal.
  rewrite <- (length_fmap fst ws) at 1. rewrite <- (length_fmap snd ws), !pad_end by len. by apply list_insert_id.
Qed.

Lemma sim_simple s ts h : cur s ts ->
  sim ((rs1 ← redirs (S es); '(ws, rs2) ← arguments (S es) (S es) 0; mret (wrap (TExec ws) (rs1 ++ rs2))) ts)
    ((cmd ← execcmd; '(ret, ps) ← parseredirs buf es cmd s; '(ret, argc, ps) ← parseargs buf es (S es) cmd ret 0 ps; _ ← setarg cmd argc None None; mret (ret, ps)) h)
    (built h).
Proof.
  intros Hc. unfold execcmd. rewrite (bind_ok_l _ _ _ _ _ (new_run _ _)). set (h1 := h ++ _).
  assert (length h1 = S (length h)) as Hh1 by (unfold h1; rewrite length_app; cbn; lia).
  assert (h1 !! length h = Some (EXEC (pad []) (pad []))) as Ha1 by (unfold h1; by rewrite lookup_app_r, Nat.sub_diag).
  eapply psim_bind; [apply sim_redirs; [exact Hc|lia]|]. intros rs1 ts1 r h2 (b & s2 & -> & Hc2 & [Hp2 Hb2] & Hch2).
  eapply psim_bind; [apply (sim_arguments _ _ _ [] rs1); [exact Hc2|by eapply prefix_lookup_Some|unfold MAXARGS; cbn; lia|exact Hch2|exact Hb2]|].
  intros [ws rs2] ts2 r h3 (b3 & s3 & -> & Hc3 & [Hl3 Hb3] & Ht & Ha3 & Hlen & Hch3). cbn [fst snd app length Nat.add] in *.
  rewrite (bind_ok_l _ _ _ _ _ (setarg_end _ ws h3 Ha3 Hlen)). apply psim_ret. exists b3, s3. split_and!; [done..| |].
  - split; [|done]. exists (drop (length h) h3). rewrite <- (take_drop (length h) h3) at 1. f_equal. rewrite Ht.
    destruct Hp2 as [k ->]. unfold h1. rewrite <- app_assoc. by apply take_app_length.
  - eapply chain_rep; [exact Hch3|]. by apply rep_exec.
Qed.

Lemma sim_parser fuel :
  (forall s ts h, cur s ts -> sim (p_line (S es) fuel ts) (parseline buf es fuel s h) (built h)) /\
  (forall s ts h, cur s ts -> sim (p_pipe (S es) fuel ts) (parsepipe buf es fuel s h) (built h)) /\
  (forall s ts h, cur s ts -> sim (p_exec (S es) fuel ts) (parseexec buf es fuel s h) (built h)) /\
  (forall s ts h, cur s ts -> starts (toks "(") ts = true -> sim (p_block (S es) fuel ts) (parseblock buf es fuel s h) (built h)).
Proof.
  induction fuel as [|fuel (IHl & IHp & IHe & IHb)]; [done|]. split_and!; intros s ts h Hc.
  - cbn [p_line parseline]. eapply psim_bind; [by apply IHp|]. intros t ts1 r h1 (b & s1 & -> & Hc1 & [Hp1 Hb1] & Hr1).
    eapply psim_bind; [by apply sim_amps|]. intros k ts2 r h2 (b2 & s2 & -> & Hc2 & [Hp2 Hb2] & Hr2).
    assert (grown h b2 h2) as Hg by (split; [by etransitivity|done]).
    apply psim_peek; [done|chars|]. intros s3 Hc3. destruct (starts (toks ";") ts2).
    + apply psim_next; [done|]. intros q e s4 Hc4 _. eapply psim_bind; [by apply IHl|]. intros t' ts5 r h5 Hb5.
      eapply (built_two LIST TList); [apply rep_list|done|by apply Hr2|done].
    + apply psim_ret. exists b2, s3. auto.
  - cbn [p_pipe parsepipe]. eapply psim_bind; [by apply IHe|]. intros t ts1 r h1 (b & s1 & -> & Hc1 & Hg & Hr1).
    apply psim_peek; [done|chars|]. intros s3 Hc3. destruct (starts (toks "|") ts1).
    + apply psim_next; [done|]. intros q e s4 Hc4 _. eapply psim_bind; [by apply IHp|]. intros t' ts5 r h5 Hb5.
      eapply (built_two PIPE TPipe); [apply rep_pipe|done..].
    + apply psim_ret. exists b, s3. auto.
  - cbn [p_exec parseexec]. apply psim_peek; [done|chars|]. intros s1 Hc1. destruct (starts (toks "(") ts) eqn:Hs; [by apply IHb|].
    by apply sim_simple.
  - intros Hs. cbn [p_block parseblock]. destruct (peek_toks "(" s ts h Hc) as (s1 & Hrun & Hc1); [chars|].
    rewrite (bind_ok_l _ _ _ _ _ Hrun), Hs. cbn [negb]. apply psim_next; [done|]. intros q e s2 Hc2 _.
    eapply psim_bind; [by apply IHl|]. intros t ts3 r h3 (b & s3 & -> & Hc3 & [Hp3 Hb3] & Hr3).
    apply psim_peek; [done|chars|]. intros s4 Hc4. destruct (starts (toks ")") ts3); [|done]. cbn [negb].
    apply psim_next; [done|]. intros q' e' s5 Hc5 _. eapply psim_tail; [by apply sim_redirs|].
    intros rs ts6 r h6 (b6 & s6 & -> & Hc6 & [Hp6 Hb6] & Hch6). apply psim_ret. exists b6, s6. split_and!; [done..| |].
    + split; [by etransitivity|done].
    + eapply chain_rep; [exact Hch6|]. by eapply rep_mono.
Qed.

(** ** Words *)

(** A word of the line: characters of words up to one that is not. *)
Definition is_word (w : span) : Prop :=
  (w.1 < w.2 <= es)%nat /\ (forall i, (w.1 <= i < w.2)%nat -> exists c, line !! i = Some c /\ is_wordc c = true) /\
  (forall c, line !! w.2 = Some c -> is_wordc c = false).

Definition word_token (t : token span) : Prop := match t with TWord w => is_word w | TSym _ => True end.

(** A word that starts at [a], if any, and has reached [i]. *)
Definition reading (start : option nat) (i : nat) : Prop :=
  forall a, start = Some a -> (a < i)%nat /\ (forall j, (a <= j < i)%nat -> exists c, line !! j = Some c /\ is_wordc c = true).

Lemma flush_word start i : (i <= es)%nat -> reading start i -> (forall c, line !! i = Some c -> is_wordc c = false) -> Forall word_token (flush start i).
Proof. intros Hi Hst Hc. destruct start as [a|]; [|constructor]. destruct (Hst a eq_refl). constructor; [|constructor]. repeat split; auto. Qed.

Lemma drop_cons i c l : drop i line = c :: l -> line !! i = Some c /\ drop (S i) line = l /\ (i < es)%nat.
Proof.
  intros E. assert (line !! i = Some c) as Hc by by rewrite <- (Nat.add_0_r i), <- lookup_drop, E.
  split; [done|]. split; [rewrite (drop_S _ _ _ Hc) in E; by injection E|by eapply lookup_lt_Some].
Qed.

Lemma lex_words i start : (i <= es)%nat -> reading start i -> Forall word_token (lex i start (drop i line)).
Proof.
  remember (es - i)%nat as n eqn:Hn. revert i start Hn. induction (lt_wf n) as [n _ IH]. intros i start -> Hi Hst.
  destruct (drop i line) as [|c l] eqn:E.
  { apply flush_word; [done..|]. intros c Hc. apply lookup_lt_Some in Hc. apply (f_equal length) in E. rewrite length_drop in E. cbn in E. lia. }
  apply drop_cons in E as (Hc & El & Hlt).
  assert (forall k start, (i < k <= es)%nat -> reading start k -> Forall word_token (lex k start (drop k line))) as IH' by (intros k st Hk; apply (IH (es - k)%nat); lia).
  assert (is_wordc c = false -> Forall word_token (flush start i)) as Hflush by (intros; apply flush_word; [done..|intros; by simplify_eq]).
  assert (forall k, reading None k) as Hnone by (intros k a Ha; discriminate Ha).
  cbn [lex]. destruct (is_space c) eqn:Hsp; [|destruct (is_symbol c) eqn:Hsy].
  - apply Forall_app. split; [apply Hflush; unfold is_wordc; by rewrite Hsp|]. rewrite <- El. apply IH'; [lia|done].
  - apply Forall_app. split; [apply Hflush; unfold is_wordc; by rewrite Hsy, andb_false_r|].
    destruct l as [|d l]; [by repeat constructor|]. apply drop_cons in El as (Hd & El2 & Hlt2).
    destruct ((c =? 62) && (d =? 62)); (constructor; [done|]); [rewrite <- El2; apply IH'; [lia|done]|].
    rewrite <- El2, <- (drop_S _ _ _ Hd). apply IH'; [lia|done].
  - rewrite <- El. apply IH'; [lia|]. intros a [= <-]. destruct start as [b|]; cbn.
    + destruct (Hst b eq_refl) as [Hb Hbs]. split; [lia|]. intros j Hj. destruct (decide (j = i)) as [->|]; [|apply Hbs; lia].
      exists c. split; [done|]. unfold is_wordc. by rewrite Hsp, Hsy.
    + split; [lia|]. intros j Hj. assert (j = i) as -> by lia. exists c. split; [done|]. unfold is_wordc. by rewrite Hsp, Hsy.
Qed.

Lemma line_words s ts : cur s ts -> Forall word_token ts.
Proof. intros [Hs <-]. apply lex_words; [done|]. intros a Ha. discriminate Ha. Qed.
End line.

(** The words of a tree satisfy [Q]. *)
Fixpoint tree_all {W} (Q : W -> Prop) (t : tree W) : Prop :=
  match t with
  | TExec ws => Forall Q ws
  | TRedir t _ w => tree_all Q t /\ Q w
  | TPipe l r | TList l r => tree_all Q l /\ tree_all Q r
  | TBack t => tree_all Q t
  end.

Lemma tree_all_wrap {W} (Q : W -> Prop) t rs : tree_all Q (wrap t rs) <-> tree_all Q t /\ Forall (fun r => Q r.2) rs.
Proof.
  unfold wrap. revert t. induction rs as [|[c w] rs IH]; intros t; cbn [foldl]; [split; [done|tauto]|].
  rewrite IH, Forall_cons. cbn. tauto.
Qed.

Lemma tree_all_backs {W} (Q : W -> Prop) n t : tree_all Q (backs n t) <-> tree_all Q t.
Proof. induction n as [|n IH]; [done|]. exact IH. Qed.

Section words.
Context {W : Type} (Q : W -> Prop).
Local Abbreviation QT := (fun t : token W => match t with TWord w => Q w | TSym _ => True end).

Lemma redirs_words l rs : Redirs l rs -> Forall QT l -> Forall (fun r => Q r.2) rs.
Proof. induction 1; [constructor|]. rewrite !Forall_cons. naive_solver. Qed.

Lemma args_words l ws rs : Args l ws rs -> Forall QT l -> Forall Q ws /\ Forall (fun r => Q r.2) rs.
Proof.
  induction 1 as [|w l1 rs1 l2 ws rs2 H1 H2 IH]; [done|]. rewrite Forall_cons, !Forall_app, Forall_cons. intros (Hw & Hl1 & Hl2).
  destruct (IH Hl2). split; [done|]. split; [|done]. by eapply redirs_words.
Qed.

Lemma grammar_words : (forall l t, Line l t -> Forall QT l -> tree_all Q t) /\ (forall l t, Pipeline l t -> Forall QT l -> tree_all Q t) /\
  (forall l t, Command l t -> Forall QT l -> tree_all Q t).
Proof.
  apply grammar_ind; intros; repeat match goal with
  | H : Forall _ (_ ++ _) |- _ => apply Forall_app in H as []
  | H : Forall _ (_ :: _) |- _ => apply Forall_cons in H as []
  end; rewrite ?tree_all_wrap, ?tree_all_backs; cbn [tree_all]; rewrite ?tree_all_backs, ?Forall_app; eauto using redirs_words.
  edestruct args_words; [eassumption..|]. eauto using redirs_words.
Qed.
End words.

(** ** NUL-termination *)

Fixpoint ends (t : tree span) : list nat :=
  match t with
  | TExec ws => ws.*2
  | TRedir t _ w => ends t ++ [w.2]
  | TPipe l r | TList l r => ends l ++ ends r
  | TBack t => ends t
  end.

(** [b'] is [b] with zeros at [E]. *)
Definition cut (E : list nat) (b b' : bytes) : Prop :=
  length b' = length b /\ (forall i, i ∈ E -> (i < length b)%nat -> b' !! i = Some 0) /\ (forall i, i ∉ E -> b' !! i = b !! i).

Lemma cut_nil b : cut [] b b.
Proof. split; [done|]. split; [|done]. intros i Hi. by apply elem_of_nil in Hi. Qed.

Lemma cut_app E1 E2 b b1 b2 : cut E1 b b1 -> cut E2 b1 b2 -> cut (E1 ++ E2) b b2.
Proof.
  intros (L1 & Z1 & N1) (L2 & Z2 & N2). split; [congruence|]. split; intros i Hi.
  - intros Hl. destruct (decide (i ∈ E2)) as [H2|H2]; [apply Z2; [done|lia]|]. rewrite N2 by done. apply Z1; [|done].
    by apply elem_of_app in Hi as [].
  - rewrite not_elem_of_app in Hi. destruct Hi. by rewrite N2, N1.
Qed.

Lemma cut_one e b : (e < length b)%nat -> cut [e] b (<[e := 0]> b).
Proof.
  intros He. split; [len|]. split; intros i Hi.
  - apply list_elem_of_singleton in Hi as ->. intros _. by apply list_lookup_insert_eq.
  - rewrite list_elem_of_singleton in Hi. by apply list_lookup_insert_ne.
Qed.

Lemma put_nul_run e b : (e < length b)%nat -> put_nul (Some e) b = Ok tt (<[e := 0]> b).
Proof. intros He. unfold put_nul, mbind, M_bind, get. cbv beta iota. by rewrite (proj2 (Nat.ltb_lt _ _)). Qed.

Lemma nulargs_run (ws : list span) k b : (0 < k)%nat -> Forall (fun w => (w.2 < length b)%nat) ws ->
  exists b', nulargs ((Some <$> ws.*1) ++ replicate k None) ((Some <$> ws.*2) ++ replicate k None) b = Ok tt b' /\ cut ws.*2 b b'.
Proof.
  intros Hk. revert b. induction ws as [|[q e] ws IH]; intros b Hw.
  - exists b. split; [|apply cut_nil]. destruct k; [lia|done].
  - apply Forall_cons in Hw as [He Hw]. cbn [fst snd] in He. cbn [fmap list_fmap app nulargs].
    rewrite (bind_ok_l _ _ _ _ _ (put_nul_run e b He)). destruct (IH (<[e := 0]> b)) as (b' & Hrun & Hcut); [by rewrite length_insert|].
    exists b'. split; [exact Hrun|]. change (cut ([e] ++ ws.*2) b b'). by eapply cut_app; [apply cut_one|].
Qed.

Lemma nulterminate_run h a t fuel b : rep h a t -> tree_all (fun w => (w.2 < length b)%nat) t -> (a < fuel)%nat ->
  exists b', nulterminate h fuel (Some a) b = Ok (Some a) b' /\ cut (ends t) b b'.
Proof.
  intros H. revert fuel b. induction H as [a ws Ha Hw|a c t k q e Ha Hr Hlt Ht IH|a c c' l r Ha Hl Hr Hrl IHl Hrr IHr|a c c' l r Ha Hl Hr Hrl IHl Hrr IHr|a c t Ha Hlt Ht IH];
    intros [|fuel] b Hall Hf; [lia| |lia| |lia| |lia| |lia|]; cbn [nulterminate]; rewrite Ha; cbn [tree_all ends] in *.
  3, 4: destruct Hall as [Hal Har]; destruct (IHl fuel b Hal ltac:(lia)) as (b1 & Hrun1 & Hcut1);
    destruct (IHr fuel b1) as (b2 & Hrun2 & Hcut2); [by rewrite (proj1 Hcut1)|lia|];
    rewrite (bind_ok_l _ _ _ _ _ Hrun1), (bind_ok_l _ _ _ _ _ Hrun2); eexists; split; [done|by eapply cut_app].
  - destruct (nulargs_run ws (MAXARGS - length ws) b) as (b' & Hrun & Hcut); [lia|done|]. exists b'. split; [|done].
    unfold pad. rewrite !length_fmap, (bind_ok_l _ _ _ _ _ Hrun). done.
  - destruct Hall as [Hall He]. destruct (IH fuel b Hall ltac:(lia)) as (b1 & Hrun & Hcut). pose proof (proj1 Hcut) as Hlen.
    rewrite (bind_ok_l _ _ _ _ _ Hrun), (bind_ok_l _ _ _ _ _ (put_nul_run e b1 ltac:(cbn in *; lia))). eexists. split; [done|].
    eapply cut_app; [exact Hcut|]. apply cut_one. cbn in *. lia.
  - destruct (IH fuel b Hall ltac:(lia)) as (b1 & Hrun & Hcut). rewrite (bind_ok_l _ _ _ _ _ Hrun). eauto.
Qed.

(** A word of the line, cut at the ends of the words, is a C string. *)
Lemma text_cut line junk E b' w : Forall (fun c => c <> 0) line -> cut E (line ++ 0 :: junk) b' ->
  Forall (fun e => exists w, e = w.2 /\ is_word line w) E -> is_word line w -> w.2 ∈ E ->
  text b' w.1 = take (w.2 - w.1) (drop w.1 line).
Proof.
  intros Hline (Hlen & Hz & Hn) HE (Hw & Hin & _) He. rewrite length_app in *. cbn [length] in *. unfold text.
  assert (drop w.1 b' = take (w.2 - w.1) (drop w.1 line) ++ 0 :: drop (S w.2) b') as ->.
  { apply list_eq. intros i. rewrite lookup_drop. destruct (decide (i < w.2 - w.1)%nat) as [Hi|Hi].
    - rewrite lookup_app_l by (len). rewrite lookup_take_lt, lookup_drop by done. rewrite Hn; [by rewrite lookup_app_l by lia|].
      intros H. apply (proj1 (Forall_forall _ _) HE) in H as (w' & Ei & (_ & _ & Hend)).
      destruct (Hin (w.1 + i)%nat ltac:(lia)) as (c & Hc & Hwc). rewrite Ei in Hc. apply Hend in Hc. congruence.
    - rewrite lookup_app_r by (len). rewrite length_take, length_drop. replace (i - _)%nat with (i - (w.2 - w.1))%nat by lia.
      destruct (i - (w.2 - w.1))%nat as [|j] eqn:Ej; [|rewrite lookup_cons, lookup_drop; f_equal; lia].
      replace (w.1 + i)%nat with w.2 by lia. apply Hz; [done|lia]. }
  apply Str.cstr_app_nul. by apply Forall_take, Forall_drop.
Qed.
