(* ===== verification/ShSpec.v ===== *)
(** * The shell parses its grammar and runs what it parsed

    The theorems about sh.c: [parsecmd] accepts exactly the lines of the
    grammar and builds their trees, and [runcmd] starts the programs of a tree
    with the descriptors the redirections and pipes ask for. *)

From S2P Require Import Prelude Memory Layout Cstring Ulib Printf Sh ShLex ShParse ShHeap.
Import Sh.

(** The characters of a word. *)
Definition word (l : bytes) (w : span) : bytes := take (w.2 - w.1) (drop w.1 l).

(** The tree [t] of the line [l] is at [p], its words as C strings. *)
Definition shows (l : bytes) (c : child) (p : cmdp) (t : tree span) : Prop :=
  exists b, p = Some b /\ rep (cmds c) b t /\ (b < length (cmds c))%nat /\ tree_all (fun w => text (line c) w.1 = word l w) t.

Lemma strlen_run l rest : Forall (fun c => c <> 0) l -> Z.of_nat (length l) < 2 ^ 31 -> Ulib.strlen (l ++ 0 :: rest) = Some (Z.of_nat (length l)).
Proof.
  intros Hl Hlen. unfold Ulib.strlen.
  assert (forall n, 0 <= n -> n + Z.of_nat (length l) < 2 ^ 31 -> Ulib.strlen_loop (l ++ 0 :: rest) n = Some (n + Z.of_nat (length l))) as H.
  { clear Hlen. induction Hl as [|c l Hc Hl IH]; intros n Hn Hlen; cbn [app Ulib.strlen_loop length]; [by rewrite Z.add_0_r|].
    rewrite (proj2 (Str.truthy_true c)) by done. cbn [length] in Hlen. rewrite s32_small, IH by lia. f_equal. lia. }
  rewrite H by lia. cbn. f_equal. apply u32_small. lia.
Qed.

Lemma tree_all_impl {W} (P Q : W -> Prop) t : (forall w, P w -> Q w) -> tree_all P t -> tree_all Q t.
Proof. intros H. induction t; cbn; try naive_solver. intros Hw. by eapply Forall_impl. Qed.

Lemma ends_of Q t : tree_all Q t -> Forall (fun e => exists w, e = w.2 /\ Q w) (ends t).
Proof.
  induction t; cbn; intros; rewrite ?Forall_app; try naive_solver.
  apply Forall_fmap. eapply Forall_impl; [eassumption|]. cbn. eauto.
Qed.

Lemma tree_ends t : tree_all (fun w => w.2 ∈ ends t) t.
Proof.
  induction t; cbn.
  - apply Forall_forall. intros w Hw. apply list_elem_of_fmap. eauto.
  - split; [|set_solver]. eapply tree_all_impl; [|eassumption]. set_solver.
  - split; (eapply tree_all_impl; [|eassumption]; set_solver).
  - split; (eapply tree_all_impl; [|eassumption]; set_solver).
  - done.
Qed.

Lemma tree_all_and {W} (P Q : W -> Prop) t : tree_all P t -> tree_all Q t -> tree_all (fun w => P w /\ Q w) t.
Proof. induction t; cbn; try naive_solver. intros. by apply Forall_and. Qed.

Section line.
Context (line junk : bytes).
Hypothesis Hline : Forall (fun c => c <> 0) line.
Local Abbreviation buf := (line ++ 0 :: junk).
Local Abbreviation es := (length line).

(** The last [peek] of [parsecmd] reaches the end when no token is left. *)
Lemma peek_end s ts h : cur line s ts -> exists s', peek buf es s (toks "") h = Ok (false, s') h /\ (s' = es <-> ts = []) /\ (s' <= es)%nat.
Proof.
  intros Hc. destruct (skipspace_cur line junk s ts h Hc) as (s' & Hrun & [Hs' Ht] & Hsp).
  exists s'. unfold peek. rewrite (bind_ok_l _ _ _ _ _ Hrun), (bind_ok_l _ _ _ _ _ (char_head line junk s' h Hs')). cbv beta.
  split; [unfold mret, M_ret; do 2 f_equal; apply andb_false_r|]. split; [|done]. rewrite <- Ht.
  destruct (drop s' line) as [|c l] eqn:E.
  - split; [done|]. intros _. apply (f_equal length) in E. rewrite length_drop in E. cbn in E. lia.
  - split; [intros ->; by rewrite drop_ge in E|]. specialize (Hsp c eq_refl). destruct (is_symbol c) eqn:Hsym.
    + by destruct (lex_symbol s' c l Hsp Hsym) as [(_ & _ & ->)|(_ & ->)].
    + cbn [lex]. rewrite Hsp, Hsym. destruct (word_split l) as (w & r & -> & Hw & Hr). by rewrite lex_in_word.
Qed.
End line.

(** The message for what is left of the line at [s]. *)
Definition leftovers (buf : bytes) (s : nat) : string :=
  to_string (printf1 (bytes_of "leftovers: %s" ++ [NL]) (Str.cstr (drop s buf))) +:+ "syntax".

Lemma parsecmd_run l junk : Forall (fun c => c <> 0) l -> Z.of_nat (length l) < 2 ^ 31 ->
  match p_line (S (length l)) (parse_fuel (length l)) (lex 0 None l) with
  | Ok t [] => exists p c, parsecmd (Child (l ++ 0 :: junk) []) = Ok p c /\ shows l c p t
  | Ok _ (_ :: _) => exists s, parsecmd (Child (l ++ 0 :: junk) []) = Panic (leftovers (l ++ 0 :: junk) s) /\ (s < length l)%nat
  | Panic msg => parsecmd (Child (l ++ 0 :: junk) []) = Panic msg
  | _ => True
  end.
Proof.
  intros Hl Hlen. assert (cur l 0 (lex 0 None l)) as Hc by (split; [lia|done]).
  pose proof (proj1 (sim_parser l junk Hl (parse_fuel (length l))) 0%nat _ [] Hc) as Hsim.
  unfold parsecmd. rewrite (bind_ok_l _ _ _ _ _ (eq_refl : get _ = Ok _ _)). cbn [line]. rewrite strlen_run by done. rewrite Nat2Z.id.
  destruct (p_line _ _ _) as [t ts| | | |] eqn:Ep; cbn [sim] in Hsim; try done; [|unfold mbind, M_bind, zoom; cbn [cmds]; by rewrite Hsim].
  destruct Hsim as ([p s] & h & Hrun & b & s0 & [= -> ->] & Hc1 & [_ Hb] & Hrep).
  destruct (peek_end l junk s0 ts h Hc1) as (s1 & Hpk & Hend & Hle).
  set (put_h := fun (h : heap) (c : child) => Child (line c) h).
  assert (zoom cmds put_h (parseline (l ++ 0 :: junk) (length l) (parse_fuel (length l)) 0) (Child (l ++ 0 :: junk) []) = Ok (Some b, s0) (Child (l ++ 0 :: junk) h)) as Hz
    by (unfold zoom; cbn [cmds]; by rewrite Hrun).
  assert (zoom cmds put_h (peek (l ++ 0 :: junk) (length l) s0 (toks "")) (Child (l ++ 0 :: junk) h) = Ok (false, s1) (Child (l ++ 0 :: junk) h)) as Hz1
    by (unfold zoom; cbn [cmds]; by rewrite Hpk).
  rewrite (bind_ok_l _ _ _ _ _ Hz), (bind_ok_l _ _ _ _ _ Hz1). clear Hz Hz1 Hpk Hrun.
  destruct ts as [|tk ts]; [rewrite (proj2 Hend eq_refl), Nat.eqb_refl; cbn [negb]|].
  2: { exists s1. assert (s1 <> length l) as Hne by (intros ->; by destruct Hend as [H _]; specialize (H eq_refl)).
       rewrite (proj2 (Nat.eqb_neq _ _)) by done. split; [done|lia]. }
  apply (proj1 (parser_sound _ _)) in Ep as (l1 & El & HL). rewrite app_nil_r in El. subst l1.
  pose proof (proj1 (grammar_words (is_word l)) _ _ HL (line_words l 0 _ Hc)) as Hw.
  rewrite (bind_ok_l _ _ _ _ _ (eq_refl : gets cmds _ = Ok _ _)). cbn [cmds].
  destruct (nulterminate_run h b t (S (length h)) (l ++ 0 :: junk) Hrep) as (b' & Hrun & Hcut); [|lia|].
  { eapply tree_all_impl; [|exact Hw]. intros w (Hw1 & _). rewrite length_app. cbn. lia. }
  exists (Some b), (Child b' h). split; [unfold mbind, M_bind, zoom; cbn [line]; by rewrite Hrun|].
  exists b. split; [done|]. split; [done|]. split; [done|]. cbn [line].
  eapply tree_all_impl; [|exact (tree_all_and _ _ _ Hw (tree_ends t))]. intros w [Hw1 Hw2].
  by eapply text_cut; [| |apply ends_of| |].
Qed.

(** ** The parser's theorems *)

(** The tokens of the line in a buffer. *)
Definition tokens (buf : bytes) : list (token span) := lex 0 None (Str.cstr buf).

Lemma tokens_total buf : total (p_line (S (length (Str.cstr buf))) (parse_fuel (length (Str.cstr buf))) (tokens buf)).
Proof.
  assert (length (tokens buf) <= length (Str.cstr buf))%nat by (etransitivity; [apply length_lex|cbn; lia]).
  apply (parser_total _ _); unfold parse_fuel; lia.
Qed.

Lemma tokens_complete buf t : Line (tokens buf) t -> p_line (S (length (Str.cstr buf))) (parse_fuel (length (Str.cstr buf))) (tokens buf) = Ok t [].
Proof.
  intros H. assert (length (tokens buf) <= length (Str.cstr buf))%nat by (etransitivity; [apply length_lex|cbn; lia]).
  rewrite <- (app_nil_r (tokens buf)). apply (parser_complete _); [done|by left|lia|unfold parse_fuel; lia].
Qed.

Section lines.
Context (buf : bytes).
Hypotheses (H0 : 0 ∈ buf) (Hlen : Z.of_nat (length buf) < 2 ^ 31).

(** [parsecmd] on a buffer beside the reference parser on its tokens. *)
Lemma parsecmd_ref :
  match p_line (S (length (Str.cstr buf))) (parse_fuel (length (Str.cstr buf))) (tokens buf) with
  | Ok t [] => exists p c, parsecmd (Child buf []) = Ok p c /\ shows (Str.cstr buf) c p t
  | Ok _ (_ :: _) => exists s, parsecmd (Child buf []) = Panic (leftovers buf s) /\ (s < length (Str.cstr buf))%nat
  | Panic msg => parsecmd (Child buf []) = Panic msg
  | _ => True
  end.
Proof.
  destruct (Str.cstr_split buf H0) as [junk E].
  assert (Z.of_nat (length (Str.cstr buf)) < 2 ^ 31) as Hl by (rewrite E, length_app in Hlen; lia).
  pose proof (parsecmd_run (Str.cstr buf) junk (Str.cstr_nonzero buf) Hl) as Hrun. by rewrite <- E in Hrun.
Qed.

Lemma parsecmd_accepts t : Line (tokens buf) t -> exists p c, parsecmd (Child buf []) = Ok p c /\ shows (Str.cstr buf) c p t.
Proof. intros H. pose proof parsecmd_ref as Hrun. by rewrite (tokens_complete _ _ H) in Hrun. Qed.

Lemma parsecmd_rejects : (forall t, ~ Line (tokens buf) t) -> exists msg, parsecmd (Child buf []) = Panic msg.
Proof.
  intros Hno. pose proof parsecmd_ref as Hrun. pose proof (tokens_total buf) as Ht. destruct (p_line _ _ _) as [t ts| msg| | |] eqn:Ep; try done; [|eauto].
  destruct ts as [|tk ts]; [|destruct Hrun as (s & -> & _); eauto].
  apply (proj1 (parser_sound _ _)) in Ep as (l1 & El & HL). rewrite app_nil_r in El. subst l1. by apply Hno in HL.
Qed.
End lines.

(** C34: [parsecmd] decides the shell's grammar.  The grammar is unambiguous;
    on a line of the grammar [parsecmd] returns the line's syntax tree, in the
    heap, with every word a NUL-terminated string; on every other line it
    panics.  It never reads or writes outside its objects. *)
Theorem parsecmd_correct (buf : bytes) : 0 ∈ buf -> Z.of_nat (length buf) < 2 ^ 31 ->
  (forall t t', Line (tokens buf) t -> Line (tokens buf) t' -> t = t') /\
  (forall t, Line (tokens buf) t -> exists p c, parsecmd (Child buf []) = Ok p c /\ shows (Str.cstr buf) c p t) /\
  ((forall t, ~ Line (tokens buf) t) -> exists msg, parsecmd (Child buf []) = Panic msg).
Proof.
  intros H0 Hlen. split; [|split].
  - intros t t' H H'. apply tokens_complete in H, H'. congruence.
  - by apply parsecmd_accepts.
  - by apply parsecmd_rejects.
Qed.

(** C35: the parser terminates: on every line [parsecmd] returns a command or
    exits with one of five messages, within four nested calls for each
    character. *)
Theorem parsecmd_terminates (buf : bytes) : 0 ∈ buf -> Z.of_nat (length buf) < 2 ^ 31 ->
  match parsecmd (Child buf []) with
  | Ok p _ => is_Some p
  | Panic msg => msg ∈ messages \/ exists s, (s < length (Str.cstr buf))%nat /\ msg = leftovers buf s
  | _ => False
  end.
Proof.
  intros H0 Hlen. pose proof (parsecmd_ref buf H0 Hlen) as Hrun.
  pose proof (tokens_total buf) as Ht. destruct (p_line _ _ _) as [t [|tk ts]| msg| | |]; try done.
  - destruct Hrun as (p & c & -> & b & -> & _). eauto.
  - destruct Hrun as (s & -> & Hs). eauto.
  - rewrite Hrun. by left.
Qed.

Module ShSpecEx.
(** A line of two commands in a block, and a line outside the grammar. *)
Definition good : bytes := bytes_of "(ls;cat f)>out" ++ [NL; 0].
Definition bad : bytes := bytes_of "ls > | wc" ++ [NL; 0].
End ShSpecEx.

Lemma parsecmd_correct_witness : exists t p c, parsecmd (Child ShSpecEx.good []) = Ok p c /\ shows (Str.cstr ShSpecEx.good) c p t.
Proof.
  destruct (proj1 (parser_sound 100 400) (tokens ShSpecEx.good)
    (TRedir (TList (TExec [(1, 3)%nat]) (TExec [(4, 7)%nat; (8, 9)%nat])) 62 (11, 14)%nat) [] ltac:(vm_compute; reflexivity)) as (l & El & HL).
  rewrite app_nil_r in El. rewrite <- El in HL.
  destruct (parsecmd_correct ShSpecEx.good) as (_ & H & _); [apply (bool_decide_unpack _); vm_compute; reflexivity|vm_compute; reflexivity|].
  destruct (H _ HL) as (p & c & Hp). exact (ex_intro _ _ (ex_intro _ p (ex_intro _ c Hp))).
Defined.

Lemma parsecmd_terminates_witness : exists msg, parsecmd (Child ShSpecEx.bad []) = Panic msg /\
  (msg ∈ messages \/ exists s, (s < length (Str.cstr ShSpecEx.bad))%nat /\ msg = leftovers ShSpecEx.bad s).
Proof.
  pose proof (parsecmd_terminates ShSpecEx.bad ltac:(apply (bool_decide_unpack _); vm_compute; reflexivity) ltac:(vm_compute; reflexivity)) as H.
  assert (parsecmd (Child ShSpecEx.bad []) = Panic "missing file for redirection") as E by (vm_compute; reflexivity).
  rewrite E in H. exists "missing file for redirection"%string. split; [exact E|exact H].
Defined.
