(* ===== verification/ShRun.v ===== *)
(** * The shell runs what it parsed

    The system calls of a process as the kernel answers them, and the proof
    that [runcmd] starts the programs of a syntax tree with the descriptors
    that the redirections and pipes of the tree ask for. *)

From S2P Require Import Prelude Memory Layout Cstring Ulib Printf Sh ShLex ShParse ShHeap ShSpec.
Import Sh.

(** ** Descriptors *)

(** What a descriptor refers to: a file opened by name, an end of a pipe, or a
    file the shell was started with. *)
Inductive ofile :=
| OFile (path : bytes) (mode : Z)
| OPipeR (pipe : nat)
| OPipeW (pipe : nat)
| OGiven (id : nat).

Abbreviation fdtable := (list (option ofile)).

(** The kernel gives out the lowest free descriptor. *)
Definition lowest (fds : fdtable) : option nat := fst <$> list_find (eq None) fds.

(** What running a command does: a program starts with a descriptor table, a
    character is written, or the process is stuck. *)
Inductive event :=
| Launch (argv : list bytes) (fds : fdtable)
| Say (to : option ofile) (c : Z)
| Stuck.

Section run.
(** Which programs and files there are. *)
Context (runnable : bytes -> bool) (can_open : bytes -> Z -> bool).

Definition close_fd (fd : Z) (fds : fdtable) : fdtable := if 0 <=? fd then <[Z.to_nat fd := None]> fds else fds.

(** The events of a process with descriptors [fds] and of its children, each
    child run when it is forked; [n] counts the pipes.  A command neither reads
    nor changes directory.  This is an ideal of the kernel, in which fork never
    fails, a child is done before its parent goes on, and a file can be opened
    or not whatever was done before. *)
Fixpoint run (p : prog) (fds : fdtable) (n : nat) : list event * nat :=
  match p with
  | Exit => ([], n)
  | Crash | OutOfFuel => ([Stuck], n)
  | Do c k =>
      match c in call X return (X -> prog) -> list event * nat with
      | Exec path argv => fun k => if runnable path then ([Launch argv fds], n) else run (k (-1)) fds n
      | Open path mode => fun k =>
          match lowest fds with
          | Some i => if can_open path mode then run (k (Z.of_nat i)) (<[i := Some (OFile path mode)]> fds) n else run (k (-1)) fds n
          | None => run (k (-1)) fds n
          end
      | Close fd => fun k => run (k 0) (close_fd fd fds) n
      | Dup fd => fun k =>
          match mjoin (fds !! Z.to_nat fd), lowest fds with
          | Some f, Some i => run (k (Z.of_nat i)) (<[i := Some f]> fds) n
          | _, _ => run (k (-1)) fds n
          end
      | Pipe => fun k =>
          match lowest fds with
          | Some i =>
              let fds1 := <[i := Some (OPipeR n)]> fds in
              match lowest fds1 with
              | Some j => run (k (Some (Z.of_nat i, Z.of_nat j))) (<[j := Some (OPipeW n)]> fds1) (S n)
              | None => run (k None) fds n
              end
          | None => run (k None) fds n
          end
      | Fork => fun k =>
          let '(child, n) := run (k 0) fds n in
          let '(parent, n) := run (k 1) fds n in
          (child ++ parent, n)
      | Wait => fun k => run (k 1) fds n
      | Chdir _ => fun _ => ([Stuck], n)
      | Read _ => fun _ => ([Stuck], n)
      | Write fd c => fun k => let '(evs, n) := run (k 1) fds n in (Say (mjoin (fds !! Z.to_nat fd)) c :: evs, n)
      end k
  end.

(** ** What a tree asks for *)

Definition says (fds : fdtable) (text : bytes) : list event := Say (mjoin (fds !! 2%nat)) <$> text.

Fixpoint launches (t : tree bytes) (fds : fdtable) (n : nat) : list event * nat :=
  match t with
  | TExec [] => ([], n)
  | TExec (a :: ws) =>
      if runnable a then ([Launch (a :: ws) fds], n)
      else (says fds (bytes_of "exec " ++ a ++ bytes_of " failed" ++ [NL]), n)
  | TRedir t c w =>
      if can_open w (redir_mode c) then launches t (<[Z.to_nat (redir_fd c) := Some (OFile w (redir_mode c))]> fds) n
      else (says fds (bytes_of "open " ++ w ++ bytes_of " failed" ++ [NL]), n)
  | TPipe l r =>
      let '(evs, n1) := launches l (<[1%nat := Some (OPipeW n)]> fds) (S n) in
      let '(evs', n2) := launches r (<[0%nat := Some (OPipeR n)]> fds) n1 in
      (evs ++ evs', n2)
  | TList l r =>
      let '(evs, n1) := launches l fds n in
      let '(evs', n2) := launches r fds n1 in
      (evs ++ evs', n2)
  | TBack t => launches t fds n
  end.

(** ** Lemmas on descriptors *)

(** Standard input, output and error are open, and a pipe still fits. *)
Definition std (fds : fdtable) : Prop :=
  (forall i, (i < 3)%nat -> exists f, fds !! i = Some (Some f)) /\ exists i j, i <> j /\ fds !! i = Some None /\ fds !! j = Some None.

Lemma lowest_Some fds i : lowest fds = Some i -> fds !! i = Some None /\ (forall j, (j < i)%nat -> fds !! j <> Some None).
Proof.
  unfold lowest. destruct (list_find (eq None) fds) as [[k x]|] eqn:E; cbn; [|done]. intros [= ->].
  apply list_find_Some in E as (Hk & <- & Hlt). split; [done|]. intros j Hj Hn. by apply (Hlt j None).
Qed.

Lemma lowest_at fds i : fds !! i = Some None -> (forall j, (j < i)%nat -> fds !! j <> Some None) -> lowest fds = Some i.
Proof.
  intros Hi Hlt. unfold lowest. rewrite (proj2 (list_find_Some _ _ i None)); [done|]. split; [done|]. split; [done|].
  intros j y Hy Hj <-. by apply (Hlt j).
Qed.

Lemma lowest_exists fds i : fds !! i = Some None -> exists k, lowest fds = Some k.
Proof.
  intros Hi. unfold lowest. destruct (list_find_elem_of (eq None) fds None) as [[k x] ->]; [by eapply list_elem_of_lookup_2|done|]. by exists k.
Qed.

Lemma std_insert fds i f : (i < 3)%nat -> std fds -> std (<[i := Some f]> fds).
Proof.
  intros Hi [Ho (a & b & Hab & Ha & Hb)]. split.
  - intros k Hk. rewrite list_lookup_insert. case_decide as Hc; [eauto|]. by apply Ho.
  - exists a, b. split; [done|]. rewrite !list_lookup_insert_ne; [done| |]; intros ->; destruct (Ho _ Hi); congruence.
Qed.

Lemma std_first fds i f : std fds -> (i < 2)%nat -> lowest (<[i := None]> fds) = Some i /\ <[i := Some f]> (<[i := None]> fds) = <[i := Some f]> fds.
Proof.
  intros [Ho _] Hi. split; [|apply list_insert_insert_eq]. destruct (Ho i ltac:(lia)) as [g Hg]. apply lowest_at.
  - apply list_lookup_insert_eq. by eapply lookup_lt_Some.
  - intros j Hj. rewrite list_lookup_insert_ne by lia. destruct (Ho j ltac:(lia)) as [x ->]. done.
Qed.

(** The two descriptors of a pipe. *)
Lemma std_pipe fds f : std fds -> exists i j, lowest fds = Some i /\ lowest (<[i := Some f]> fds) = Some j /\
  (3 <= i)%nat /\ (3 <= j)%nat /\ i <> j /\ fds !! i = Some None /\ fds !! j = Some None.
Proof.
  intros [Ho (a & b & Hab & Ha & Hb)]. destruct (lowest_exists fds a Ha) as [i Hi]. exists i. pose proof (lowest_Some _ _ Hi) as [Hi1 _].
  assert (exists c, <[i := Some f]> fds !! c = Some None) as [c Hc].
  { destruct (decide (i = a)) as [->|]; [exists b|exists a]; by rewrite list_lookup_insert_ne. }
  destruct (lowest_exists _ _ Hc) as [j Hj]. exists j. pose proof (lowest_Some _ _ Hj) as [Hj1 _].
  assert (forall k, fds !! k = Some None -> (3 <= k)%nat) as H3.
  { intros k Hk. destruct (decide (k < 3)%nat) as [Hlt|]; [|lia]. destruct (Ho k Hlt). congruence. }
  assert (i <> j) as Hij by (intros ->; rewrite list_lookup_insert_eq in Hj1 by (by eapply lookup_lt_Some); done).
  rewrite list_lookup_insert_ne in Hj1 by done. eauto 10.
Qed.

(** A child of a pipeline ends up with its end of the pipe alone. *)
Lemma pipe_child (fds : fdtable) i j k f f1 f2 : fds !! i = Some None -> fds !! j = Some None -> i <> j -> k <> i -> k <> j ->
  <[j := None]> (<[i := None]> (<[k := Some f]> (<[k := None]> (<[j := f2]> (<[i := f1]> fds))))) = <[k := Some f]> fds.
Proof.
  intros Hi Hj Hij Hki Hkj. pose proof (lookup_lt_Some _ _ _ Hi). pose proof (lookup_lt_Some _ _ _ Hj).
  apply list_eq. intros x. rewrite !list_lookup_insert, !length_insert. repeat case_decide; destruct_and?; simplify_eq; try done; tauto.
Qed.

(** The shell closes both. *)
Lemma pipe_parent (fds : fdtable) i j f1 f2 : fds !! i = Some None -> fds !! j = Some None -> i <> j ->
  <[j := None]> (<[i := None]> (<[j := f2]> (<[i := f1]> fds))) = fds.
Proof.
  intros Hi Hj Hij. pose proof (lookup_lt_Some _ _ _ Hi). pose proof (lookup_lt_Some _ _ _ Hj).
  apply list_eq. intros x. rewrite !list_lookup_insert, !length_insert. repeat case_decide; destruct_and?; simplify_eq; try done; tauto.
Qed.

(** ** The run of a command *)

Lemma run_print text k fds n : run (print 2 text k) fds n = (says fds text ++ (run k fds n).1, (run k fds n).2).
Proof. induction text as [|c text IH]; cbn [print]; [by destruct (run k fds n)|]. cbn [run]. by rewrite IH. Qed.

Lemma run_fork1 c p fds n : run (fork1 c p) fds n =
  ((run c fds n).1 ++ (run p fds (run c fds n).2).1, (run p fds (run c fds n).2).2).
Proof. unfold fork1. cbn. destruct (run c fds n) as [e1 n1]. cbn. by destruct (run p fds n1). Qed.

Lemma printf1_spec pre post s : literal pre -> literal post -> Forall (fun c => c <> 0) s ->
  printf1 (pre ++ [PERCENT; 115] ++ post) s = pre ++ s ++ post.
Proof. intros. unfold printf1. rewrite <- !app_assoc. by rewrite (printf_string _ pre post s []). Qed.

Ltac chars := apply (bool_decide_unpack _); by vm_compute.

(** A side of a pipeline: its end [x] of the pipe becomes descriptor [k]. *)
Lemma run_side fds i j k x f1 f2 p m n : std fds -> fds !! i = Some None -> fds !! j = Some None -> i <> j -> (3 <= i)%nat -> (3 <= j)%nat -> (k < 2)%nat ->
  x <> k -> <[j := f2]> (<[i := f1]> fds) !! x = Some (Some p) ->
  run (do! Close (Z.of_nat k); do! Dup (Z.of_nat x); do! Close (Z.of_nat i); do! Close (Z.of_nat j); m) (<[j := f2]> (<[i := f1]> fds)) n =
  run m (<[k := Some p]> fds) n.
Proof.
  intros Hs Hi Hj Hij Hi3 Hj3 Hk Hxk Hx. cbn [run]. unfold close_fd. rewrite !(proj2 (Z.leb_le _ _)), !Nat2Z.id by lia.
  rewrite (list_lookup_insert_ne _ k x) by done. rewrite Hx. cbn [mjoin option_join].
  assert (lowest (<[k := None]> (<[j := f2]> (<[i := f1]> fds))) = Some k) as ->.
  { destruct Hs as [Ho _]. apply lowest_at.
    - apply list_lookup_insert_eq. rewrite !length_insert. destruct (Ho k ltac:(lia)). by eapply lookup_lt_Some.
    - intros y Hy. rewrite !list_lookup_insert_ne by lia. by destruct (Ho y ltac:(lia)) as [z ->]. }
  by rewrite pipe_child by (done || lia).
Qed.

Section command.
Context (buf : bytes) (h : heap) (f : span -> bytes).

Lemma args_pad ws k : Forall (fun w => text buf w.1 = f w) ws -> (0 < k)%nat -> args buf ((Some <$> ws.*1) ++ replicate k None) = f <$> ws.
Proof. intros H Hk. induction H as [|w ws Hw _ IH]; [by destruct k; [lia|]|]. cbn. by rewrite Hw, IH. Qed.

Lemma run_exec ws fuel fds n a : h !! a = Some (EXEC (pad ws.*1) (pad ws.*2)) -> (length ws < MAXARGS)%nat -> Forall (fun w => text buf w.1 = f w) ws ->
  run (runcmd buf h (S fuel) (Some a)) fds n = launches (TExec (f <$> ws)) fds n.
Proof.
  intros Ha Hlen Hw. cbn [runcmd]. rewrite Ha. unfold pad. rewrite !length_fmap. pose proof (args_pad ws (MAXARGS - length ws) Hw ltac:(lia)) as Hargs.
  destruct ws as [|w ws]; [done|]. pose proof (Forall_inv Hw) as Hw1. cbn [fmap list_fmap app] in *. rewrite Hargs, Hw1. cbn [run launches].
  destruct (runnable (f w)); [done|]. rewrite run_print. cbn [run fst snd]. rewrite app_nil_r. do 2 f_equal.
  apply (printf1_spec (bytes_of "exec ") (bytes_of " failed" ++ [NL])); [chars..|]. rewrite <- Hw1. apply Str.cstr_nonzero.
Qed.

Lemma run_redir fuel fds n a b q e c t w : h !! a = Some (REDIR (Some b) q e (redir_mode c) (redir_fd c)) -> text buf q = w -> std fds ->
  (forall fds n, std fds -> run (runcmd buf h fuel (Some b)) fds n = launches t fds n) ->
  run (runcmd buf h (S fuel) (Some a)) fds n = launches (TRedir t c w) fds n.
Proof.
  intros Ha Hq Hs IH. cbn [runcmd]. rewrite Ha, Hq. cbn [run launches].
  assert (exists d, redir_fd c = Z.of_nat d /\ (d < 2)%nat) as (d & -> & Hd) by (unfold redir_fd; destruct (c =? 60); [exists 0%nat|exists 1%nat]; auto).
  unfold close_fd. rewrite (proj2 (Z.leb_le _ _)), Nat2Z.id by lia. destruct (std_first fds d (OFile w (redir_mode c)) Hs Hd) as [-> ->].
  destruct (can_open w (redir_mode c)).
  - rewrite (proj2 (Z.ltb_ge _ _)) by lia. apply IH, std_insert; [lia|done].
  - cbn [Z.ltb Z.compare]. rewrite run_print. cbn [run fst snd]. rewrite app_nil_r. unfold says. rewrite list_lookup_insert_ne by lia.
    do 2 f_equal. apply (printf1_spec (bytes_of "open ") (bytes_of " failed" ++ [NL])); [chars..|]. rewrite <- Hq. apply Str.cstr_nonzero.
Qed.

Lemma run_pipe fuel fds n a b b' l r : h !! a = Some (PIPE (Some b) (Some b')) -> std fds ->
  (forall fds n, std fds -> run (runcmd buf h fuel (Some b)) fds n = launches l fds n) ->
  (forall fds n, std fds -> run (runcmd buf h fuel (Some b')) fds n = launches r fds n) ->
  run (runcmd buf h (S fuel) (Some a)) fds n = launches (TPipe l r) fds n.
Proof.
  intros Ha Hs IHl IHr. cbn [runcmd]. rewrite Ha. destruct (std_pipe fds (OPipeR n) Hs) as (i & j & Hi & Hj & Hi3 & Hj3 & Hij & Ni & Nj).
  cbn [run]. rewrite Hi, Hj. pose proof (lookup_lt_Some _ _ _ Ni). pose proof (lookup_lt_Some _ _ _ Nj).
  rewrite run_fork1, run_fork1.
  rewrite (run_side fds i j 1 j _ _ (OPipeW n)) by (done || lia || (rewrite list_lookup_insert_eq; [done|len])).
  rewrite (run_side fds i j 0 i _ _ (OPipeR n)) by (done || lia || (rewrite list_lookup_insert_ne, list_lookup_insert_eq by done; done)).
  rewrite IHl, IHr by (apply std_insert; [lia|done]). cbn [run launches fst snd]. 
  destruct (launches l _ _) as [e1 n1]. cbn [fst snd]. destruct (launches r _ _) as [e2 n2]. cbn [fst snd]. by rewrite app_nil_r.
Qed.

Lemma run_command a t : rep h a t -> tree_all (fun w => text buf w.1 = f w) t -> forall fuel fds n, (a < fuel)%nat -> std fds ->
  run (runcmd buf h fuel (Some a)) fds n = launches (f <$> t) fds n.
Proof.
  induction 1 as [a ws Ha Hw|a c t k q e Ha Hr Hlt Ht IH|a c c' l r Ha Hl Hr Hrl IHl Hrr IHr|a c c' l r Ha Hl Hr Hrl IHl Hrr IHr|a c t Ha Hlt Ht IH];
    intros Hall [|fuel] fds n Hf Hs; try lia; cbn [tree_all] in Hall.
  - by apply run_exec.
  - destruct Hall as [Hall Hq]. eapply (run_redir fuel fds n a c q e k); [done|exact Hq|done|]. intros. apply IH; [done|lia|done].
  - destruct Hall. eapply run_pipe; [done..| |]; intros; [apply IHl|apply IHr]; (done || lia).
  - destruct Hall as [Hal Har]. cbn [runcmd]. rewrite Ha, run_fork1. cbn [run]. rewrite IHl by (done || lia). change (f <$> TList l r) with (TList (f <$> l) (f <$> r)). cbn [launches].
    destruct (launches (f <$> l) fds n) as [e1 n1]. cbn [fst snd]. rewrite IHr by (done || lia). by destruct (launches (f <$> r) fds n1).
  - cbn [runcmd]. rewrite Ha, run_fork1. cbn [run fst snd]. rewrite app_nil_r, IH by (done || lia).
    change (f <$> TBack t) with (TBack (f <$> t)). cbn [launches]. by destruct (launches (f <$> t) fds n).
Qed.
End command.
End run.

(** ** The theorem *)

(** C33: a line of the shell starts exactly the programs its syntax tree asks
    for, in order: each with its words as arguments, its standard input and
    output replaced by the files of its redirections and by its ends of its
    pipes, and every other descriptor as the shell has it (no pipe end is left
    open).  A line outside the grammar starts nothing and prints a message. *)
Theorem run_line_correct (runnable : bytes -> bool) (can_open : bytes -> Z -> bool) (buf : bytes) (fds : fdtable) (n : nat) :
  0 ∈ buf -> Z.of_nat (length buf) < 2 ^ 31 -> std fds ->
  (forall t, Line (tokens buf) t -> run runnable can_open (run_line buf) fds n = launches runnable can_open (word (Str.cstr buf) <$> t) fds n) /\
  ((forall t, ~ Line (tokens buf) t) -> exists msg, run runnable can_open (run_line buf) fds n = (says fds (bytes_of msg ++ [NL]), n)).
Proof.
  intros H0 Hlen Hs. split.
  - intros t Ht. destruct (parsecmd_accepts buf H0 Hlen t Ht) as (p & c & Hp & b & -> & Hrep & Hb & Hw). unfold run_line. rewrite Hp.
    apply run_command; [done|done|lia|done].
  - intros Hn. destruct (parsecmd_rejects buf H0 Hlen Hn) as [msg Hp]. exists msg. unfold run_line. rewrite Hp. unfold sh_panic. rewrite run_print. cbn [run fst snd].
    by rewrite app_nil_r.
Qed.

Module ShEx.
(** [cat < in | grep -x foo > out &] and a table with the console on 0, 1 and 2. *)
Definition buf : bytes := bytes_of "cat < in|grep -x foo >out &" ++ [NL; 0].
Definition fds : fdtable := [Some (OGiven 0); Some (OGiven 0); Some (OGiven 0); None; None].
Definition result : list event * nat := launches (fun _ => true) (fun _ _ => true)
  (TBack (TPipe (TRedir (TExec [bytes_of "cat"]) 60 (bytes_of "in"))
                (TRedir (TExec (bytes_of <$> ["grep"; "-x"; "foo"])) 62 (bytes_of "out")))) fds 0.
End ShEx.

Lemma run_line_correct_witness : run (fun _ => true) (fun _ _ => true) (run_line ShEx.buf) ShEx.fds 0 = ShEx.result.
Proof.
  assert (exists t, Line (tokens ShEx.buf) t /\ launches (fun _ => true) (fun _ _ => true) (word (Str.cstr ShEx.buf) <$> t) ShEx.fds 0 = ShEx.result) as (t & Ht & Hl).
  { destruct (p_line 100 400 (tokens ShEx.buf)) as [t ts| | | |] eqn:E; vm_compute in E; try discriminate E. injection E as <- <-.
    eexists. split.
    - pose proof (proj1 (parser_sound 100 400) (tokens ShEx.buf) _ [] ltac:(vm_compute; reflexivity)) as (l & El & HL).
      rewrite app_nil_r in El. rewrite <- El in HL. exact HL.
    - vm_compute. reflexivity. }
  rewrite <- Hl. apply (run_line_correct (fun _ => true) (fun _ _ => true) ShEx.buf ShEx.fds 0).
  - apply (bool_decide_unpack _). vm_compute. reflexivity.
  - vm_compute. reflexivity.
  - split.
    + intros [|[|[|i]]] Hi; try (eexists; reflexivity). lia.
    + exists 3%nat, 4%nat. done.
  - exact Ht.
Defined.
