(* ===== verification/Grep.v ===== *)
(** * grep.c: the regular expression matcher and the line filter

    The matcher of Kernighan and Pike on C strings, and its meaning: [match]
    searches the text for the language of the pattern.  [grep] reads a file
    through a buffer of 1024 bytes and writes the lines that match. *)

From S2P Require Import Prelude Memory Cstring Ulib.

Module Grep.

Abbreviation CARET := 94.
Abbreviation DOLLAR := 36.
Abbreviation DOT := 46.
Abbreviation STAR := 42.

(** [matchstar(c, re, text)], with [here] the function [matchhere(re, _)]. *)
Fixpoint matchstar (here : bytes -> option bool) (c : Z) (text : bytes) : option bool :=
  match here text with
  | None => None
  | Some true => Some true
  | Some false =>
      match text with
      | [] => None
      | t :: text' => if truthy t && ((t =? c) || (c =? DOT)) then matchstar here c text' else Some false
      end
  end.

Fixpoint matchhere (re text : bytes) : option bool :=
  match re with
  | [] => None
  | c :: re1 =>
      if c =? 0 then Some true
      else
        match re1 with
        | [] => None
        | d :: re2 =>
            if d =? STAR then matchstar (matchhere re2) c text
            else
              match text with
              | [] => None
              | t :: text' =>
                  if (c =? DOLLAR) && (d =? 0) then Some (t =? 0)
                  else if truthy t && ((c =? DOT) || (c =? t)) then matchhere re1 text'
                  else Some false
              end
        end
  end.

Fixpoint match_anywhere (re text : bytes) : option bool :=
  match matchhere re text with
  | None => None
  | Some true => Some true
  | Some false =>
      match text with
      | [] => None
      | t :: text' => if truthy t then match_anywhere re text' else Some false
      end
  end.

(** [match(re, text)] *)
Definition rmatch (re text : bytes) : option bool :=
  match re with
  | [] => None
  | c :: re' => if c =? CARET then matchhere re' text else match_anywhere re text
  end.

(** *** The line filter *)

(** [sizeof(buf) - 1] *)
Definition room : nat := 1023.

(** The loop over the lines of the buffer, from [p]; [out] is what has been
    written.  It gives the bytes after the last newline. *)
Fixpoint grep_lines (fuel : nat) (re p out : bytes) : option (bytes * bytes) :=
  match fuel with
  | O => None
  | S k =>
      match Ulib.strchr (p ++ [0]) NL with
      | None => None
      | Some None => Some (p, out)
      | Some (Some q) =>
          match rmatch re (take q p ++ 0 :: drop (S q) p ++ [0]) with
          | None => None
          | Some b => grep_lines k re (drop (S q) p) (if b then out ++ take (S q) p else out)
          end
      end
  end.

(** [grep(pattern, fd)], where [read] is the system call on the open file:
    the bytes it gives, none at the end of the file or on an error, and the new
    state of the file.  [buf] holds the bytes kept from the last round. *)
Fixpoint grep_loop {R} (read : R -> nat -> bytes * R) (fuel : nat) (re : bytes) (fd : R) (buf out : bytes) : option bytes :=
  match fuel with
  | O => None
  | S k =>
      let r := read fd (room - length buf)%nat in
      if (length r.1 =? 0)%nat then Some out
      else
        let buf := buf ++ r.1 in
        match grep_lines (S (length buf)) re buf out with
        | None => None
        | Some (p, out) =>
            grep_loop read k re r.2 (if (length p =? length buf)%nat then [] else p) out
        end
  end.

Definition grep {R} (read : R -> nat -> bytes * R) (fuel : nat) (re : bytes) (fd : R) : option bytes :=
  grep_loop read fuel re fd [] [].

(** ** The language of a pattern *)

(** A pattern is a list of pieces, anchored or not at either end; [One] and
    [Many] take a character, which [.] makes any character. *)
Inductive piece := One (c : Z) | Many (c : Z).
Record pattern := MkPattern { bol : bool; pieces : list piece; eol : bool }.

Fixpoint parse_here (re : bytes) : list piece * bool :=
  match re with
  | [] => ([], false)
  | c :: re1 =>
      match re1 with
      | [] => if c =? DOLLAR then ([], true) else ([One c], false)
      | d :: re2 =>
          if d =? STAR then let r := parse_here re2 in (Many c :: r.1, r.2)
          else let r := parse_here re1 in (One c :: r.1, r.2)
      end
  end.

Definition parse (re : bytes) : pattern :=
  match re with
  | [] => MkPattern false [] false
  | c :: re' =>
      let b := c =? CARET in
      let r := parse_here (if b then re' else re) in
      MkPattern b r.1 r.2
  end.

Definition accepts (c x : Z) : Prop := c = DOT \/ c = x.

Inductive lang : list piece -> bytes -> Prop :=
| lang_nil : lang [] []
| lang_one c x ps t : accepts c x -> lang ps t -> lang (One c :: ps) (x :: t)
| lang_many c s ps t : Forall (accepts c) s -> lang ps t -> lang (Many c :: ps) (s ++ t).

(** The text holds a string of the language where the anchors allow it. *)
Definition found (p : pattern) (text : bytes) : Prop :=
  exists before s after, text = before ++ s ++ after /\ lang (pieces p) s /\
    (bol p = true -> before = []) /\ (eol p = true -> after = []).

(** ** The matcher computes the language *)

Definition nonul (s : bytes) : Prop := Forall (fun c => c <> 0) s.

(** The function runs within its strings and decides [P]. *)
Definition decides (r : option bool) (P : Prop) : Prop := exists b, r = Some b /\ (b = true <-> P).

Lemma decides_iff r P Q : decides r P -> (P <-> Q) -> decides r Q.
Proof. intros (b & E & Hb) H. exists b. by rewrite <- H. Qed.

Definition here (ps : list piece * bool) (t : bytes) : Prop :=
  exists s after, t = s ++ after /\ lang ps.1 s /\ (ps.2 = true -> after = []).

Lemma truthy_eq c : c <> 0 -> truthy c = true.
Proof. by apply Str.truthy_true. Qed.

Lemma accepts_test c x : ((c =? DOT) || (c =? x)) = true <-> accepts c x.
Proof. unfold accepts. by rewrite orb_true_iff, !Z.eqb_eq. Qed.

Lemma matchstar_spec (h : bytes -> option bool) (P : bytes -> Prop) c y :
  (forall t, nonul t -> decides (h (t ++ 0 :: y)) (P t)) ->
  forall t, nonul t -> decides (matchstar h c (t ++ 0 :: y))
    (exists s u, t = s ++ u /\ Forall (accepts c) s /\ P u).
Proof.
  intros Hh t. induction t as [|x t IH]; intros Ht.
  - destruct (Hh [] Ht) as (b & E & Hb). exists b. cbn [app] in *. cbn [matchstar]. rewrite E. split; [by destruct b|].
    rewrite Hb. split; [intros HP; exists [], []; eauto|]. intros (s & u & Eq & _ & HP). symmetry in Eq. apply app_eq_nil in Eq as [-> ->]. done.
  - destruct (Hh (x :: t) Ht) as (b & E & Hb). inversion Ht as [|? ? Hx Ht']; subst. cbn [app matchstar] in *. rewrite E. destruct b.
    { exists true. split; [done|]. split; [|done]. intros _. exists [], (x :: t). split_and!; [done|constructor|by apply Hb]. }
    assert (~ P (x :: t)) as Hn by (intros HP; by apply Hb in HP).
    rewrite truthy_eq by done. rewrite (orb_comm (x =? c)), (Z.eqb_sym x c). cbn [andb]. destruct ((c =? DOT) || (c =? x)) eqn:Ea.
    + apply accepts_test in Ea. eapply decides_iff; [by apply IH|]. split.
      * intros (s & u & -> & Hs & HP). exists (x :: s), u. eauto.
      * intros ([|z s] & u & Eq & Hs & HP); [cbn in Eq; by subst|]. inversion Hs; subst. injection Eq as <- ->. eauto.
    + exists false. split; [done|]. split; [done|]. intros ([|z s] & u & Eq & Hs & HP); [cbn in Eq; by subst|].
      inversion Hs; subst. injection Eq as <- ->. apply accepts_test in H1. congruence.
Qed.

(** What the two kinds of pieces do at the start of the text. *)
Lemma here_many c ps e t : here (Many c :: ps, e) t <-> exists s u, t = s ++ u /\ Forall (accepts c) s /\ here (ps, e) u.
Proof.
  split.
  - intros (s & after & -> & Hl & He). inversion Hl; subst. exists s0, (t ++ after). rewrite app_assoc. split_and!; [done..|]. by exists t, after.
  - intros (s & u & -> & Hs & s' & after & -> & Hl & He). exists (s ++ s'), after. rewrite app_assoc. split_and!; [done| |done]. by constructor.
Qed.

Lemma here_one c ps e x t : here (One c :: ps, e) (x :: t) <-> accepts c x /\ here (ps, e) t.
Proof.
  split.
  - intros (s & after & Eq & Hl & He). inversion Hl; subst. injection Eq as <- ->. split; [done|]. by exists t0, after.
  - intros (Ha & s & after & -> & Hl & He). exists (x :: s), after. split_and!; [done| |done]. by constructor.
Qed.

Lemma here_one_nil c ps e : ~ here (One c :: ps, e) [].
Proof. intros (s & after & Eq & Hl & He). inversion Hl; subst. done. Qed.

Lemma here_pair ps t : here ps t <-> here (ps.1, ps.2) t.
Proof. by destruct ps. Qed.

Lemma matchhere_one c d re t y : c <> 0 -> (d =? STAR) = false -> (c =? DOLLAR) && (d =? 0) = false -> nonul t ->
  forall ps, (forall t, nonul t -> decides (matchhere (d :: re) (t ++ 0 :: y)) (here ps t)) ->
  decides (matchhere (c :: d :: re) (t ++ 0 :: y)) (here (One c :: ps.1, ps.2) t).
Proof.
  intros Hc Hd Hdol Ht ps IH. cbn [matchhere]. rewrite (proj2 (Z.eqb_neq c 0)), Hd by done. fold (matchhere (d :: re)).
  destruct t as [|x t]; cbn [app]; rewrite Hdol.
  - cbn. exists false. split; [done|]. split; [done|]. intros H. by apply here_one_nil in H.
  - inversion Ht; subst. rewrite truthy_eq by done. cbn [andb]. destruct ((c =? DOT) || (c =? x)) eqn:Ea.
    + eapply decides_iff; [by apply IH|]. apply accepts_test in Ea. rewrite here_one, <- here_pair. tauto.
    + exists false. split; [done|]. split; [done|]. rewrite here_one. intros [Ha _]. apply accepts_test in Ha. congruence.
Qed.

Lemma matchhere_spec x y : forall n r, (length r <= n)%nat -> nonul r -> forall t, nonul t ->
  decides (matchhere (r ++ 0 :: x) (t ++ 0 :: y)) (here (parse_here r) t).
Proof.
  induction n as [|n IH]; intros r Hlen Hr t Ht.
  { destruct r; [|simpl in Hlen; lia]. exists true. split; [done|]. split; [|done]. intros _. exists [], t. split_and!; [done|constructor|done]. }
  destruct r as [|c [|d r]].
  - exists true. split; [done|]. split; [|done]. intros _. exists [], t. split_and!; [done|constructor|done].
  - inversion Hr; subst. cbn [app parse_here]. destruct (Z.eqb_spec c DOLLAR) as [->|Hd].
    + exists (match t with [] => true | _ => false end). split.
      * destruct t as [|z t]; [done|]. inversion Ht; subst. cbn. by rewrite (proj2 (Z.eqb_neq z 0)).
      * split; [destruct t; [|done]; intros _; exists [], []; split_and!; [done|constructor|done]|].
        intros (s & after & -> & Hl & He). inversion Hl; subst. by rewrite (He eq_refl).
    + apply (matchhere_one c 0 x t y) with (ps := ([], false)); try done; [by rewrite (proj2 (Z.eqb_neq c DOLLAR))|].
      intros t' Ht'. exists true. split; [done|]. split; [|done]. intros _. exists [], t'. split_and!; [done|constructor|done].
  - inversion Hr as [|? ? Hc Hr']; subst. inversion Hr' as [|? ? Hd Hr'']; subst. cbn [app]. cbn [parse_here]. fold (parse_here (d :: r)).
    simpl in Hlen. destruct (d =? STAR) eqn:Es.
    + cbn [matchhere]. rewrite (proj2 (Z.eqb_neq c 0)), Es by done. eapply decides_iff.
      * apply (matchstar_spec _ (here (parse_here r))); [|done]. intros t' Ht'. apply IH; [lia|done..].
      * rewrite here_many. by setoid_rewrite <- here_pair.
    + apply matchhere_one with (ps := parse_here (d :: r)); try done; [by rewrite (proj2 (Z.eqb_neq d 0)), andb_false_r|].
      intros t' Ht'. apply (IH (d :: r)); [simpl; lia|done..].
Qed.

Lemma match_anywhere_spec (re y : bytes) (P : bytes -> Prop) :
  (forall t, nonul t -> decides (matchhere re (t ++ 0 :: y)) (P t)) ->
  forall t, nonul t -> decides (match_anywhere re (t ++ 0 :: y)) (exists s u, t = s ++ u /\ P u).
Proof.
  intros Hh t. induction t as [|x t IH]; intros Ht.
  - destruct (Hh [] Ht) as (b & E & Hb). exists b. cbn [app match_anywhere] in *. rewrite E. split; [by destruct b|].
    rewrite Hb. split; [intros HP; by exists [], []|]. intros (s & u & Eq & HP). symmetry in Eq. apply app_eq_nil in Eq as [-> ->]. done.
  - destruct (Hh (x :: t) Ht) as (b & E & Hb). inversion Ht as [|? ? Hx Ht']; subst. cbn [app match_anywhere] in *. rewrite E. destruct b.
    { exists true. split; [done|]. split; [|done]. intros _. exists [], (x :: t). split; [done|by apply Hb]. }
    rewrite truthy_eq by done. eapply decides_iff; [by apply IH|]. split.
    + intros (s & u & -> & HP). by exists (x :: s), u.
    + intros ([|z s] & u & Eq & HP); [cbn in Eq; subst; by apply Hb in HP|]. injection Eq as <- ->. eauto.
Qed.

Lemma rmatch_spec r t x y : nonul r -> nonul t -> decides (rmatch (r ++ 0 :: x) (t ++ 0 :: y)) (found (parse r) t).
Proof.
  intros Hr Ht. assert (decides (match_anywhere (r ++ 0 :: x) (t ++ 0 :: y)) (exists s u, t = s ++ u /\ here (parse_here r) u)) as Hany.
  { apply match_anywhere_spec; [|done]. intros t' Ht'. by eapply matchhere_spec. }
  unfold found. destruct r as [|c r].
  - cbn [app rmatch parse]. change (0 =? CARET) with false. cbv iota. eapply decides_iff; [exact Hany|]. cbn. split.
    + intros (s & u & -> & s' & after & -> & Hl & He). by exists s, s', after.
    + intros (b & s & after & -> & Hl & _ & He). exists b, (s ++ after). split; [done|]. by exists s, after.
  - inversion Hr; subst. cbn [app rmatch parse]. destruct (c =? CARET) eqn:Ec; cbn [bol pieces eol].
    + eapply decides_iff; [by eapply matchhere_spec|]. split.
      * intros (s & after & -> & Hl & He). by exists [], s, after.
      * intros (b & s & after & -> & Hl & Hb & He). rewrite (Hb eq_refl). by exists s, after.
    + eapply decides_iff; [exact Hany|]. split.
      * intros (s & u & -> & s' & after & -> & Hl & He). by exists s, s', after.
      * intros (b & s & after & -> & Hl & _ & He). exists b, (s ++ after). split; [done|]. by exists s, after.
Qed.

(** C30: [match(re, text)] reads only its two strings, always returns, and
    returns 1 exactly when the text holds a string of the language of the
    pattern: the pieces of [re] in sequence, a starred character any number of
    times, [.] any character, at the start of the text after [^] and up to its
    end before [$]. *)
Theorem match_correct re text : 0 ∈ re -> 0 ∈ text ->
  decides (rmatch re text) (found (parse (Str.cstr re)) (Str.cstr text)).
Proof.
  intros Hre Htext. destruct (Str.cstr_split re Hre) as [x Ex]. destruct (Str.cstr_split text Htext) as [y Ey].
  pose proof (rmatch_spec (Str.cstr re) (Str.cstr text) x y (Str.cstr_nonzero re) (Str.cstr_nonzero text)) as H.
  by rewrite <- Ex, <- Ey in H.
Qed.

(** ** The line filter *)

(** [grep] writes a line exactly when this test holds. *)
Definition matches (re line : bytes) : bool := match rmatch re (line ++ [0]) with Some true => true | _ => false end.

Section lines.
Context (r x : bytes).
Hypothesis Hr : nonul r.
Let re := r ++ 0 :: x.

Lemma rmatch_line l y : nonul l -> rmatch re (l ++ 0 :: y) = Some (matches re l).
Proof.
  intros Hl. destruct (rmatch_spec r l x y Hr Hl) as (b & E & Hb). destruct (rmatch_spec r l x [] Hr Hl) as (b' & E' & Hb').
  unfold matches. fold re in E, E'. rewrite E, E'. f_equal. destruct b, b'; try done; [symmetry; apply Hb', Hb|apply Hb, Hb']; done.
Qed.

Lemma matches_found l : nonul l -> matches re l = true <-> found (parse r) l.
Proof.
  intros Hl. destruct (rmatch_spec r l x [] Hr Hl) as (b & E & Hb). fold re in E. unfold matches. rewrite E. destruct b; by rewrite <- Hb.
Qed.

(** The terminated lines of a file, and those [grep] selects. *)
Definition terminated (ls : list bytes) : bytes := mjoin ((fun l => l ++ [NL]) <$> ls).

Lemma terminated_cons l ls : terminated (l :: ls) = l ++ NL :: terminated ls.
Proof. unfold terminated. cbn. by rewrite <- app_assoc. Qed.

Definition selected (ls : list bytes) : bytes := terminated (filter (fun l => matches re l = true) ls).

Definition line_ok (l : bytes) : Prop := nonul l /\ NL ∉ l.

#[global] Instance line_ok_dec l : Decision (line_ok l).
Proof. unfold line_ok, nonul. apply _. Defined.

Lemma grep_lines_spec ls tail : Forall line_ok ls -> line_ok tail -> forall fuel out, (length ls < fuel)%nat ->
  grep_lines fuel re (terminated ls ++ tail) out = Some (tail, out ++ selected ls).
Proof.
  intros Hls [Ht1 Ht2]. induction ls as [|l ls IH]; intros fuel out Hf; (destruct fuel as [|fuel]; [lia|]); cbn [grep_lines].
  - cbn [terminated mjoin list_join fmap list_fmap app]. rewrite Ulib.strchr_absent by done. by rewrite app_nil_r.
  - inversion Hls as [|? ? [Hl1 Hl2] Hls']; subst. rewrite terminated_cons, <- !app_assoc. cbn [app].
    rewrite Ulib.strchr_found by done.
    assert (drop (S (length l)) (l ++ NL :: terminated ls ++ tail) = terminated ls ++ tail) as ->.
    { change (S (length l)) with (1 + length l)%nat. rewrite Nat.add_comm, <- drop_drop, drop_app_length. done. }
    rewrite take_app_length, rmatch_line by done.
    assert (take (S (length l)) (l ++ NL :: terminated ls ++ tail) = l ++ [NL]) as ->.
    { rewrite take_app_ge by lia. by replace (S (length l) - length l)%nat with 1%nat by lia. }
    simpl in Hf. rewrite IH by (done || lia). unfold selected. rewrite filter_cons. destruct (matches re l).
    + rewrite decide_True by done. by rewrite terminated_cons, <- !app_assoc.
    + rewrite decide_False by done. done.
Qed.

Lemma notin_take (z : Z) n (l : bytes) : z ∉ l -> z ∉ take n l.
Proof. intros H (i & Hi & _)%elem_of_take. apply H. by eapply list_elem_of_lookup_2. Qed.

(** What the first [n] bytes of a file hold: some whole lines and the start of
    the next. *)
Lemma prefix_lines last n : NL ∉ last -> forall ls, Forall line_ok ls -> exists ls1 ls2 tail,
  ls = ls1 ++ ls2 /\ take n (terminated ls ++ last) = terminated ls1 ++ tail /\ (NL ∉ tail) /\
  tail ++ drop n (terminated ls ++ last) = terminated ls2 ++ last /\
  (ls1 = [] -> match ls with [] => True | l :: _ => (n <= length l)%nat end).
Proof.
  intros Hlast ls. revert n. induction ls as [|l ls IH]; intros n Hls.
  - exists [], [], (take n last). cbn. split_and!; try done; [|by rewrite take_drop]. eauto using notin_take.
  - inversion Hls as [|? ? [Hl1 Hl2] Hls']; subst. rewrite terminated_cons, <- app_assoc. cbn [app]. destruct (decide (n <= length l)%nat) as [Hn|Hn].
    + exists [], (l :: ls), (take n l). cbn [app]. split_and!; try done.
      * by rewrite take_app_le.
      * eauto using notin_take.
      * rewrite drop_app_le by lia. by rewrite app_assoc, take_drop, terminated_cons, <- app_assoc.
    + destruct (IH (n - length l - 1)%nat Hls') as (ls1 & ls2 & tail & -> & E1 & Ht & E2 & _).
      exists (l :: ls1), ls2, tail. rewrite take_app_ge, drop_app_ge by lia.
      replace (n - length l)%nat with (S (n - length l - 1)) by lia. cbn [take drop]. split_and!; try done. by rewrite E1, terminated_cons, <- !app_assoc.
Qed.

(** A file as [read] gives it: as many bytes as asked for, up to its end.  This
    is an ideal of the kernel: its reads neither fail nor stop early. *)
Definition from_file (f : bytes) (n : nat) : bytes * bytes := (take n f, drop n f).

Lemma terminated_NL ls tail : NL ∉ terminated ls ++ tail -> ls = [].
Proof.
  destruct ls as [|l ls]; [done|]. rewrite terminated_cons, <- app_assoc. intros H. exfalso. apply H.
  apply elem_of_app. right. apply list_elem_of_here.
Qed.

Lemma grep_loop_file fuel : forall ls last f buf out, Forall (fun l => line_ok l /\ (length l < room)%nat) ls -> line_ok last ->
  buf ++ f = terminated ls ++ last -> NL ∉ buf -> (length buf < room)%nat -> (length f < fuel)%nat ->
  grep_loop from_file fuel re f buf out = Some (out ++ selected ls).
Proof.
  induction fuel as [|fuel IH]; intros ls last f buf out Hls [Hlast1 Hlast2] Ef Hbuf Hlen Hf; [lia|]. cbn [grep_loop from_file fst snd].
  set (k := (room - length buf)%nat). assert (1 <= k)%nat as Hk by (unfold k; lia).
  assert (Forall line_ok ls) as Hok by (eapply Forall_impl; [exact Hls|]; by intros ? [? _]).
  destruct (Nat.eqb_spec (length (take k f)) 0) as [E0|E0].
  { destruct f; [|rewrite length_take in E0; simpl in E0; lia]. rewrite app_nil_r in Ef.
    rewrite Ef in Hbuf. apply terminated_NL in Hbuf as ->. unfold selected, terminated. cbn. by rewrite app_nil_r. }
  assert (nonul (buf ++ f)) as Hnn.
  { rewrite Ef. apply Forall_app. split; [|done]. clear -Hok. induction Hok as [|l ls [Hl _] _ IHl]; [constructor|].
    rewrite terminated_cons. apply Forall_app. split; [done|]. by constructor. }
  destruct (prefix_lines last (length buf + k) Hlast2 ls Hok) as (ls1 & ls2 & tail & -> & E1 & Ht & E2 & Hempty).
  rewrite <- Ef in E1, E2. rewrite take_app_ge in E1 by lia. rewrite drop_app_ge in E2 by lia.
  replace (length buf + k - length buf)%nat with k in * by lia. rewrite E1. apply Forall_app in Hok as [Hok1 Hok2].
  assert (line_ok tail) as Htail.
  { split; [|done]. assert (nonul (terminated ls1 ++ tail)) as Hn by (rewrite <- E1; apply Forall_app in Hnn as [? ?]; apply Forall_app; split; [done|by apply Forall_take]).
    by apply Forall_app in Hn as [_ ?]. }
  assert (length ls1 <= length (terminated ls1))%nat as Hl1.
  { clear. induction ls1 as [|l ls1 IHl]; [done|]. rewrite terminated_cons. len. simpl. lia. }
  rewrite grep_lines_spec by (done || (rewrite length_app; lia)).
  assert (length (drop k f) < fuel)%nat as Hf' by (rewrite length_drop; rewrite length_take in E0; lia).
  assert (selected (ls1 ++ ls2) = selected ls1 ++ selected ls2) as Hsel.
  { unfold selected, terminated. by rewrite list_basics.list.filter_app, fmap_app, join_app. }
  rewrite Hsel, app_assoc. apply Forall_app in Hls as [Hls1 Hls2]. rewrite length_app. destruct ls1 as [|l ls1].
  - cbn [terminated mjoin list_join fmap list_fmap length app] in *. rewrite Nat.eqb_refl.
    assert (ls2 = []) as ->.
    { destruct ls2 as [|l ls2]; [done|]. specialize (Hempty eq_refl). inversion Hls2 as [|? ? [_ ?] _]; subst. unfold k, room in *. lia. }
    change (tail ++ drop k f = last) in E2. apply (IH [] (drop k f)); try done; [|by apply not_elem_of_nil|unfold room; cbn; lia].
    split; [apply Forall_app in Hnn as [_ ?]; by apply Forall_drop|].
    intros Hin. apply Hlast2. rewrite <- E2. apply elem_of_app. by right.
  - assert (length (terminated (l :: ls1)) <> 0)%nat by (rewrite terminated_cons, length_app; simpl; lia).
    rewrite (proj2 (Nat.eqb_neq _ _)) by lia. apply (IH _ last); try done.
    apply (f_equal length) in E1. rewrite !length_app, length_take in E1. unfold k, room in *. lia.
Qed.
End lines.

(** C31: [grep] on a file without NUL bytes whose lines are shorter than its
    buffer, read as [from_file] reads it, writes exactly the newline-terminated
    lines that match, whole and in order, also where a buffer ends inside a
    line; a last line without a newline is not written.  Reads that return less
    than they could, as those of a pipe, are the subject of the next lemma. *)
Theorem grep_correct re ls last : 0 ∈ re -> Forall (fun l => line_ok l /\ (length l < room)%nat) ls -> line_ok last ->
  let f := terminated ls ++ last in
  grep from_file (S (length f)) re f = Some (terminated (filter (fun l => matches re l = true) ls)) /\
  forall l, l ∈ ls -> matches re l = true <-> found (parse (Str.cstr re)) l.
Proof.
  intros Hre Hls Hlast f. destruct (Str.cstr_split re Hre) as [x Ex]. split.
  - rewrite Ex at 1. unfold grep. rewrite (grep_loop_file _ x (Str.cstr_nonzero re) _ ls last f [] []); try done.
    + unfold selected. by rewrite <- Ex.
    + by apply not_elem_of_nil.
    + unfold room. cbn. lia.
    + lia.
  - intros l Hl. rewrite Forall_forall in Hls. destruct (Hls l Hl) as [[Hn _] _].
    rewrite Ex at 1. apply matches_found; [apply Str.cstr_nonzero|done].
Qed.

(** A read that ends inside a line, as from a pipe: the start of the line is
    thrown away, and the rest of it is matched as a line of its own. *)
Definition from_pipe (chunks : list bytes) (_ : nat) : bytes * list bytes :=
  match chunks with
  | [] => ([], [])
  | c :: rest => (c, rest)
  end.

(** [grep] drops a line that arrives in two reads: when a pipe gives [ab]
    and then [c] with a newline, the line [abc] is not found by the pattern
    [ab], and the pattern [^c] writes a line [c] that is not in the input. *)
Lemma grep_drops_partial_line :
  grep from_pipe 4 [97; 98; 0] [[97; 98]; [99; NL]] = Some [] /\
  matches [97; 98; 0] [97; 98; 99] = true /\
  grep from_pipe 4 [94; 99; 0] [[97; 98]; [99; NL]] = Some [99; NL] /\
  matches [94; 99; 0] [97; 98; 99] = false.
Proof. by vm_compute. Qed.
End Grep.

(** The pattern [^a.*b$] and the text [axxb]. *)
Lemma match_correct_witness : Grep.found (Grep.parse [94; 97; 46; 42; 98; 36]) [97; 120; 120; 98].
Proof.
  destruct (Grep.match_correct [94; 97; 46; 42; 98; 36; 0] [97; 120; 120; 98; 0]) as (b & E & Hb).
  - by apply (bool_decide_unpack _); vm_compute.
  - by apply (bool_decide_unpack _); vm_compute.
  - vm_compute in E. injection E as <-. by apply Hb.
Defined.

(** A file of two lines and an unfinished third. *)
Lemma grep_correct_witness :
  Grep.grep Grep.from_file 12 [98; 36; 0] [97; 98; 10; 98; 97; 10; 99; 99; 99; 98; 98] = Some [97; 98; 10].
Proof.
  pose proof (Grep.grep_correct [98; 36; 0] [[97; 98]; [98; 97]] [99; 99; 99; 98; 98]) as H.
  destruct H as [H _].
  - by apply (bool_decide_unpack _); vm_compute.
  - by apply (bool_decide_unpack _); vm_compute.
  - by apply (bool_decide_unpack _); vm_compute.
  - exact H.
Defined.
