(* ===== verification/User.v ===== *)
(** * User programs

    A user program is an interaction tree over the system calls of user.h: it
    returns, makes a call and goes on with its result, or runs on for ever.
    [wp] is a program logic for them: whatever the kernel answers, the program
    ends, and ends well.  Strings that are passed around are without their NUL. *)

From ITree Require Import Core.ITreeDefinition.
From S2P Require Import Prelude Memory Layout Cstring Ulib Printf.

Module User.

(** ** System calls *)

(** [struct stat] as a program sees it. *)
Record ustat := MkUstat { u_type : Z; u_dev : Z; u_ino : Z; u_nlink : Z; u_size : Z }.

(** The system calls of user.h, by the type of the result.  A call that gives
    an [int] gives -1 when it fails; [Read] also gives the bytes it put in the
    buffer, [Pipe] the two descriptors and [Fstat] the structure it filled in.
    Then what is no call but depends on the address space: a system call with a
    stack pointer, or a [link] with a name, at an address of the program's
    choice, a load and a store; [Trap] is an access that makes the kernel kill
    the process. *)
Inductive sysE : Type -> Type :=
| Fork : sysE Z
| Exit : sysE Empty_set
| Wait : sysE Z
| Pipe : sysE (option (Z * Z))
| Write (fd : Z) (b : bytes) (n : Z) : sysE Z
| Read (fd : Z) (n : Z) : sysE (Z * bytes)
| Close (fd : Z) : sysE Z
| Kill (pid : Z) : sysE Z
| Exec (path : bytes) (argv : list bytes) : sysE Z
| Open (path : bytes) (mode : Z) : sysE Z
| Mknod (path : bytes) (major minor : Z) : sysE Z
| Unlink (path : bytes) : sysE Z
| Fstat (fd : Z) : sysE (option ustat)
| Link (old new : bytes) : sysE Z
| Mkdir (path : bytes) : sysE Z
| Chdir (path : bytes) : sysE Z
| Dup (fd : Z) : sysE Z
| Getpid : sysE Z
| Sbrk (n : Z) : sysE Z
| Sleep (n : Z) : sysE Z
| Uptime : sysE Z
| Getpcount : sysE Z
| Int64 (num esp : Z) : sysE Z
| LinkAt (old : bytes) (new : Z) : sysE Z
| Load (a : Z) : sysE Z
| Store (a v : Z) : sysE unit
| Trap : sysE Empty_set.

Abbreviation prog := (itree sysE).

#[global] Instance prog_ret : MRet prog := fun A x => Ret x.
#[global] Instance prog_bind : MBind prog := fun A B k t => ITree.bind t k.

Definition call {X} (e : sysE X) : prog X := ITree.trigger e.

(** [exit()] and a bad access do not come back. *)
Definition exit {A} : prog A := x ← call Exit; match x : Empty_set with end.
Definition trap {A} : prog A := x ← call Trap; match x : Empty_set with end.

Definition fork : prog Z := call Fork.
Definition wait : prog Z := call Wait.
Definition pipe : prog (option (Z * Z)) := call Pipe.
Definition write (fd : Z) (b : bytes) (n : Z) : prog Z := call (Write fd b n).
Definition read (fd n : Z) : prog (Z * bytes) := call (Read fd n).
Definition close (fd : Z) : prog Z := call (Close fd).
Definition kill (pid : Z) : prog Z := call (Kill pid).
Definition exec (path : bytes) (argv : list bytes) : prog Z := call (Exec path argv).
Definition open (path : bytes) (mode : Z) : prog Z := call (Open path mode).
Definition mknod (path : bytes) (mj mn : Z) : prog Z := call (Mknod path mj mn).
Definition unlink (path : bytes) : prog Z := call (Unlink path).
Definition fstat (fd : Z) : prog (option ustat) := call (Fstat fd).
Definition link (old new : bytes) : prog Z := call (Link old new).
Definition mkdir (path : bytes) : prog Z := call (Mkdir path).
Definition chdir (path : bytes) : prog Z := call (Chdir path).
Definition dup (fd : Z) : prog Z := call (Dup fd).
Definition getpid : prog Z := call Getpid.
Definition sbrk (n : Z) : prog Z := call (Sbrk n).
Definition sleep (n : Z) : prog Z := call (Sleep n).
Definition uptime : prog Z := call Uptime.

(** ** Control *)

(** A loop over a state: the body says whether to go on ([inl]) or to leave. *)
Definition loop {I R} (body : I -> prog (I + R)) (i : I) : prog R := ITree.iter body i.

(** [for(...) body] over a list; the body says with [Some] to leave the loop. *)
Fixpoint for_each {A R} (l : list A) (body : A -> prog (option R)) : prog (option R) :=
  match l with
  | [] => mret None
  | a :: l => r ← body a; match r with None => for_each l body | Some r => mret (Some r) end
  end.

Definition when (b : bool) (t : prog unit) : prog unit := if b then t else mret tt.

(** ** printf *)

(** An argument of [printf]: a number, or a string. *)
Inductive parg := Num (n : Z) | Str (s : bytes).

(** The strings lie somewhere in the memory of the process; the [i]-th argument
    at [i + 1]. *)
Definition parg_at (args : list parg) (a : Z) : bytes :=
  match args !! Z.to_nat (a - 1) with Some (Str s) => s ++ [0] | _ => [] end.
Definition parg_val (i : nat) (a : parg) : Z := match a with Num n => n | Str _ => Z.of_nat i + 1 end.

Definition format (fmt : string) (args : list parg) : option bytes :=
  Printf.printf (parg_at args) (bytes_of fmt ++ [0]) (imap parg_val args).

(** [putc] for each character. *)
Fixpoint put (fd : Z) (text : bytes) : prog unit :=
  match text with
  | [] => mret tt
  | c :: text => write fd [c] 1;; put fd text
  end.

Definition printf (fd : Z) (fmt : string) (args : list parg) : prog unit :=
  match format fmt args with
  | Some text => put fd text
  | None => trap
  end.

(** ** The logic *)

Lemma observe_bind {A B} (t : prog A) (k : A -> prog B) :
  observe (t ≫= k) = match observe t with RetF r => observe (k r) | TauF t => TauF (t ≫= k) | VisF e h => VisF e (fun x => h x ≫= k) end.
Proof.
  transitivity (observe (match observe t with RetF r => k r | TauF t => Tau (t ≫= k) | VisF e h => Vis e (fun x => h x ≫= k) end)); [done|].
  by destruct (observe t).
Qed.

Section wp.
(** What the kernel may answer to a call, and the world afterwards. *)
Context {W : Type} (sys : W -> forall X, sysE X -> X -> W -> Prop).

(** Whatever the kernel answers, [t] ends in the world [w]: it returns with [Q]
    or calls [exit] with [E].  A call must have an answer. *)
Inductive wp {R} (Q : R -> W -> Prop) (E : W -> Prop) (w : W) (t : prog R) : Prop :=
| wp_ret_ r : observe t = RetF r -> Q r w -> wp Q E w t
| wp_tau_ t' : observe t = TauF t' -> wp Q E w t' -> wp Q E w t
| wp_vis_ X (e : sysE X) k : observe t = VisF e k -> (exists x w', sys w X e x w') ->
    (forall x w', sys w X e x w' -> wp Q E w' (k x)) -> wp Q E w t
| wp_exit_ k : observe t = VisF Exit k -> E w -> wp Q E w t.

Lemma wp_observe {R} Q E w (t t' : prog R) : observe t = observe t' -> wp Q E w t' -> wp Q E w t.
Proof.
  intros Ht H. destruct H as [r H|t1 H|X e k H|k H].
  - eapply wp_ret_; [by rewrite Ht|done].
  - eapply wp_tau_; [by rewrite Ht|done].
  - eapply wp_vis_; [by rewrite Ht|done..].
  - eapply wp_exit_; [by rewrite Ht|done].
Qed.

Lemma wp_ret {R} (Q : R -> W -> Prop) E w r : Q r w -> wp Q E w (mret r).
Proof. by apply wp_ret_. Qed.

Lemma wp_mono {R} (Q Q' : R -> W -> Prop) (E E' : W -> Prop) w t :
  (forall r w, Q r w -> Q' r w) -> (forall w, E w -> E' w) -> wp Q E w t -> wp Q' E' w t.
Proof.
  intros HQ HE H. induction H as [w t r Ht H|w t t' Ht H IH|w t X e k Ht Hx H IH|w t k Ht H].
  - eapply wp_ret_; [done|by apply HQ].
  - by eapply wp_tau_.
  - by eapply wp_vis_.
  - eapply wp_exit_; [done|by apply HE].
Qed.

Lemma wp_bind {A B} (Q : B -> W -> Prop) E w (t : prog A) (k : A -> prog B) :
  wp (fun a w' => wp Q E w' (k a)) E w t -> wp Q E w (t ≫= k).
Proof.
  intros H. remember (fun a w' => wp Q E w' (k a)) as QA eqn:EQ. induction H as [w t r Ht H|w t t' Ht H IH|w t X e k' Ht Hx H IH|w t k' Ht H]; subst QA.
  - eapply wp_observe, H. by rewrite observe_bind, Ht.
  - eapply wp_tau_, IH. by rewrite observe_bind, Ht.
  - eapply wp_vis_; [|exact Hx|intros x w' Hs; exact (IH x w' Hs)]. by rewrite observe_bind, Ht.
  - eapply wp_exit_, H. by rewrite observe_bind, Ht.
Qed.

Lemma wp_call {X} (e : sysE X) Q E w : (exists x w', sys w X e x w') -> (forall x w', sys w X e x w' -> Q x w') -> wp Q E w (call e).
Proof. intros Hx H. eapply wp_vis_; [done|done|]. intros x w' Hs. apply wp_ret, H, Hs. Qed.

Lemma wp_exit {A} (Q : A -> W -> Prop) (E : W -> Prop) w : E w -> wp Q E w exit.
Proof. intros H. apply wp_bind. by eapply wp_exit_. Qed.

Lemma wp_unfold {I R} (body : I -> prog (I + R)) Q E w i :
  wp (fun r w' => match r with inl i' => wp Q E w' (loop body i') | inr r => Q r w' end) E w (body i) -> wp Q E w (loop body i).
Proof.
  intros H. eapply (wp_observe _ _ _ _ (body i ≫= fun r => match r with inl i' => Tau (loop body i') | inr r => Ret r end)); [done|].
  apply wp_bind. eapply wp_mono, H; [|done]. intros [i'|r] w' H'; [by eapply wp_tau_|by eapply wp_ret_].
Qed.

(** A loop whose turns keep [J] and bring down [mu]. *)
Lemma wp_loop {I R} (body : I -> prog (I + R)) (mu : I -> W -> nat) (J : I -> W -> Prop) Q E :
  (forall i w, J i w -> wp (fun r w' => match r with inl i' => J i' w' /\ (mu i' w' < mu i w)%nat | inr r => Q r w' end) E w (body i)) ->
  forall i w, J i w -> wp Q E w (loop body i).
Proof.
  intros Hb i w. remember (mu i w) as n eqn:En. revert i w En. induction (lt_wf n) as [n _ IH]. intros i w -> HJ. apply wp_unfold.
  eapply wp_mono, Hb, HJ; [|done]. intros [i'|r] w'; [|done]. intros [HJ' Hlt]. by eapply IH.
Qed.

Lemma wp_for_each {A R} (l : list A) (body : A -> prog (option R)) (J : list A -> W -> Prop) Q E w :
  (forall a l w, J (a :: l) w -> wp (fun r w' => match r with None => J l w' | Some r => Q (Some r) w' end) E w (body a)) ->
  (forall w, J [] w -> Q None w) -> J l w -> wp Q E w (for_each l body).
Proof.
  intros Hb Hn. revert w. induction l as [|a l IH]; intros w HJ; cbn [for_each]; [by apply wp_ret, Hn|].
  apply wp_bind. eapply wp_mono, Hb, HJ; [|done]. intros [r|] w' H; [by apply wp_ret|by apply IH].
Qed.
End wp.

End User.
