(* ===== verification/Uprogs.v ===== *)
(** * The small user programs

    cat, wc, echo, grep, ls, rm, mkdir, ln, kill, init, zombie, forktest,
    stressfs and test_getpcount, one module each, as programs over the system calls.  [args] is [argv]
    without the name of the program. *)

From ITree Require Import Core.ITreeDefinition.
From S2P Require Import Prelude Memory Layout Cstring Block Log Fs Ulib Printf Grep User.
Import User.

(** A format that ends with a newline. *)
Definition ln (s : string) : string := String.append s (String (Ascii.ascii_of_nat 10) EmptyString).

(** [stat] of ulib.c; the type [stat] of Fs.v is the structure. *)
Module Stat.
Definition stat (n : bytes) : prog (option ustat) :=
  fd ← open n O_RDONLY;
  if fd <? 0 then mret None
  else
    r ← fstat fd;
    close fd;;
    mret r.
End Stat.

(** A program that works on each file it is given, or on its standard input. *)
Module Cat.

Definition cat (fd : Z) : prog unit :=
  n ← loop (fun _ : unit =>
        '(n, buf) ← read fd 512;
        if 0 <? n then write 1 buf n;; mret (inl tt) else mret (inr n)) tt;
  if n <? 0 then
    printf 1 (ln "cat: read error") [];;
    exit
  else mret tt.

Definition main (args : list bytes) : prog unit :=
  when (bool_decide (args = [])) (
    cat 0;;
    exit);;
  for_each args (fun a =>
    fd ← open a 0;
    if fd <? 0 then
      printf 1 (ln "cat: cannot open %s") [Str a];;
      exit
    else
      cat fd;;
      close fd;;
      mret (None (A := unit)));;
  exit.

End Cat.

Module Wc.

(** The blanks [wc] looks for. *)
Definition blanks : bytes := [32; 13; 9; 10; 11; 0].

Record counts := MkCounts { l : Z; w : Z; c : Z; inword : bool }.

(** The loop over [buf]; [strchr] on the constant does not leave it. *)
Definition count (s : counts) (x : Z) : counts :=
  let c' := s32 (c s + 1) in
  let l' := if x =? NL then s32 (l s + 1) else l s in
  match Ulib.strchr blanks x with
  | Some (Some _) => MkCounts l' (w s) c' false
  | _ => if negb (inword s) then MkCounts l' (s32 (w s + 1)) c' true else MkCounts l' (w s) c' (inword s)
  end.

Definition wc (fd : Z) (name : bytes) : prog unit :=
  r ← loop (fun s : counts =>
        '(n, buf) ← read fd 512;
        if 0 <? n then mret (inl (foldl count s (take (Z.to_nat n) buf))) else mret (inr (n, s))) (MkCounts 0 0 0 false);
  let '(n, s) := r in
  if n <? 0 then
    printf 1 (ln "wc: read error") [];;
    exit
  else printf 1 (ln "%d %d %d %s") [Num (l s); Num (w s); Num (c s); Str name].

Definition main (args : list bytes) : prog unit :=
  when (bool_decide (args = [])) (
    wc 0 [];;
    exit);;
  for_each args (fun a =>
    fd ← open a 0;
    if fd <? 0 then
      printf 1 (ln "wc: cannot open %s") [Str a];;
      exit
    else
      wc fd a;;
      close fd;;
      mret (None (A := unit)));;
  exit.

End Wc.

Module Echo.

Fixpoint words (args : list bytes) : prog unit :=
  match args with
  | [] => mret tt
  | a :: args =>
      printf 1 "%s%s" [Str a; Str (match args with [] => [NL] | _ => [32] end)];;
      words args
  end.

Definition main (args : list bytes) : prog unit := words args;; exit.

End Echo.

Module Rm.

Definition main (args : list bytes) : prog unit :=
  when (bool_decide (args = [])) (
    printf 2 (ln "Usage: rm files...") [];;
    exit);;
  for_each args (fun a =>
    r ← unlink a;
    if r <? 0 then
      printf 2 (ln "rm: %s failed to delete") [Str a];;
      mret (Some tt)
    else mret None);;
  exit.

End Rm.

Module MkdirProg.

Definition main (args : list bytes) : prog unit :=
  when (bool_decide (args = [])) (
    printf 2 (ln "Usage: mkdir files...") [];;
    exit);;
  for_each args (fun a =>
    r ← mkdir a;
    if r <? 0 then
      printf 2 (ln "mkdir: %s failed to create") [Str a];;
      mret (Some tt)
    else mret None);;
  exit.

End MkdirProg.

Module Ln.

Definition main (args : list bytes) : prog unit :=
  match args with
  | [old; new] =>
      r ← link old new;
      when (r <? 0) (printf 2 (ln "link %s %s: failed") [Str old; Str new]);;
      exit
  | _ =>
      printf 2 (ln "Usage: ln old new") [];;
      exit
  end.

End Ln.

Module KillProg.

(** [atoi] stops at the NUL at the latest. *)
Definition main (args : list bytes) : prog unit :=
  when (bool_decide (args = [])) (
    printf 2 (ln "usage: kill pid...") [];;
    exit);;
  for_each args (fun a =>
    match Ulib.atoi (a ++ [0]) with
    | Some n => kill n;; mret (None (A := unit))
    | None => trap
    end);;
  exit.

End KillProg.

Module Ls.

Abbreviation SLASH := 47.

(** The loop of [fmtname]: the index after the last slash at or below [p]. *)
Fixpoint scan (path : bytes) (p : nat) : nat :=
  if bool_decide (path !! p = Some SLASH) then S p
  else match p with O => O | S p => scan path p end.

Definition fmtname (path : bytes) : bytes :=
  let p := drop (scan path (length path)) path in
  if Z.of_nat (length p) >=? DIRSIZ then p
  else p ++ replicate (Z.to_nat DIRSIZ - length p) 32.

Definition line (name : bytes) (st : ustat) : prog unit :=
  printf 1 (ln "%s %d %d %d") [Str (fmtname name); Num (u_type st); Num (u_ino st); Num (u_size st)].

(** The entry of a directory [path] that [read] gave: [buf] is the path, a
    slash and the name. *)
Definition entry (path : bytes) (b : bytes) : prog unit :=
  let de := decode_dirent b in
  if de_inum de =? 0 then mret tt
  else
    let buf := path ++ SLASH :: Str.cstr (de_name de ++ [0]) in
    st ← Stat.stat buf;
    match st with
    | None => printf 1 (ln "ls: cannot stat %s") [Str buf]
    | Some st => line buf st
    end.

Definition ls (path : bytes) : prog unit :=
  fd ← open path 0;
  if fd <? 0 then printf 2 (ln "ls: cannot open %s") [Str path]
  else
    st ← fstat fd;
    match st with
    | None =>
        printf 2 (ln "ls: cannot stat %s") [Str path];;
        close fd;;
        mret tt
    | Some st =>
        (if u_type st =? T_FILE then line path st
         else if u_type st =? T_DIR then
           if Z.of_nat (length path) + 1 + DIRSIZ + 1 >? 512 then printf 1 (ln "ls: path too long") []
           else loop (fun _ : unit =>
                  '(n, b) ← read fd DIRENT_SIZE;
                  if n =? DIRENT_SIZE then entry path b;; mret (inl tt) else mret (inr tt)) tt
         else mret tt);;
        close fd;;
        mret tt
    end.

Definition main (args : list bytes) : prog unit :=
  when (bool_decide (args = [])) (
    ls [46];;
    exit);;
  for_each args (fun a => ls a;; mret (None (A := unit)));;
  exit.

End Ls.

Module Init.

(** Descriptors 0, 1 and 2 are the console. *)
Definition stdio : prog unit :=
  fd ← open (bytes_of "console") O_RDWR;
  when (fd <? 0) (
    mknod (bytes_of "console") 1 1;;
    open (bytes_of "console") O_RDWR;;
    mret tt);;
  dup 0;;
  dup 0;;
  mret tt.

Definition main : prog unit :=
  stdio;;
  loop (fun _ : unit =>
    printf 1 (ln "init: starting sh") [];;
    pid ← fork;
    when (pid <? 0) (
      printf 1 (ln "init: fork failed") [];;
      exit);;
    when (pid =? 0) (
      exec (bytes_of "sh") [bytes_of "sh"];;
      printf 1 (ln "init: exec sh failed") [];;
      exit);;
    loop (fun _ : unit =>
      wpid ← wait;
      if (0 <=? wpid) && negb (wpid =? pid) then printf 1 (ln "zombie!") [];; mret (inl tt)
      else mret (inr tt)) tt;;
    mret (inl tt)) tt.

End Init.

(** initcode.S, the code of the first process. *)
Module Initcode.

Definition init : bytes := bytes_of "/init".

Definition start : prog unit :=
  exec init [init];;
  loop (fun _ : unit => exit (A := unit);; mret (inl tt)) tt.

End Initcode.

Module Zombie.

Definition main : prog unit :=
  r ← fork;
  when (0 <? r) (sleep 5;; mret tt);;
  exit.

End Zombie.

Module Forktest.

Definition N : nat := 1000.

(** Its own [printf] writes the format in one call. *)
Definition printf (fd : Z) (s : string) : prog unit :=
  write fd (bytes_of s ++ [0]) (Z.of_nat (String.length s));; mret tt.

(** The first loop: how many children there are. *)
Fixpoint forks (n k : nat) : prog nat :=
  match k with
  | O => mret n
  | S k =>
      pid ← fork;
      if pid <? 0 then mret n
      else if pid =? 0 then exit
      else forks (S n) k
  end.

Fixpoint waits (n : nat) : prog unit :=
  match n with
  | O => mret tt
  | S n =>
      r ← wait;
      when (r <? 0) (
        printf 1 (ln "wait stopped early");;
        exit);;
      waits n
  end.

Definition forktest : prog unit :=
  printf 1 (ln "fork test");;
  n ← forks 0 N;
  when (n =? N)%nat (
    printf 1 (ln "fork claimed to work N times!");;
    exit);;
  waits n;;
  r ← wait;
  when (negb (r =? -1)) (
    printf 1 (ln "wait got too many");;
    exit);;
  printf 1 (ln "fork test OK").

Definition main : prog unit := forktest;; exit.

End Forktest.

Module Stressfs.

Definition data : bytes := replicate 512 97.

(** [for(i = 0; i < 4; i++) if(fork() > 0) break;]: the value of [i]. *)
Fixpoint spawn (i : Z) (k : nat) : prog Z :=
  match k with
  | O => mret i
  | S k =>
      r ← fork;
      if 0 <? r then mret i else spawn (i + 1) k
  end.

Fixpoint times (k : nat) (t : prog unit) : prog unit :=
  match k with
  | O => mret tt
  | S k => t;; times k t
  end.

Definition main : prog unit :=
  User.printf 1 (ln "stressfs starting") [];;
  i ← spawn 0 4;
  User.printf 1 (ln "write %d") [Num i];;
  let path := bytes_of "stressfs" ++ [48 + i] in
  fd ← open path (O_CREATE .| O_RDWR);
  times 20 (write fd data 512;; mret tt);;
  close fd;;
  User.printf 1 (ln "read") [];;
  fd ← open path O_RDONLY;
  times 20 (read fd 512;; mret tt);;
  close fd;;
  wait;;
  exit.

End Stressfs.

Module GrepProg.

(** The lines of the buffer from [p]: each one that matches is written. *)
Fixpoint lines (fuel : nat) (re p : bytes) : prog bytes :=
  match fuel with
  | O => trap
  | S k =>
      match Ulib.strchr (p ++ [0]) NL with
      | None => trap
      | Some None => mret p
      | Some (Some q) =>
          match Grep.rmatch re (take q p ++ 0 :: drop (S q) p ++ [0]) with
          | None => trap
          | Some b =>
              when b (write 1 (take (S q) p) (Z.of_nat (S q));; mret tt);;
              lines k re (drop (S q) p)
          end
      end
  end.

(** [grep(pattern, fd)]; [buf] holds the bytes kept from the last round. *)
Definition grep (re : bytes) (fd : Z) : prog unit :=
  loop (fun buf =>
    '(n, b) ← read fd (Z.of_nat (Grep.room - length buf));
    if 0 <? n then
      let buf := buf ++ b in
      p ← lines (S (length buf)) re buf;
      mret (inl (if (length p =? length buf)%nat then [] else p))
    else mret (inr tt)) [].

Definition main (args : list bytes) : prog unit :=
  match args with
  | [] =>
      printf 2 (ln "usage: grep pattern [file ...]") [];;
      exit
  | pattern :: files =>
      when (bool_decide (files = [])) (
        grep (pattern ++ [0]) 0;;
        exit);;
      for_each files (fun a =>
        fd ← open a 0;
        if fd <? 0 then
          printf 1 (ln "grep: cannot open %s") [Str a];;
          exit
        else
          grep (pattern ++ [0]) fd;;
          close fd;;
          mret (None (A := unit)));;
      exit
  end.

End GrepProg.

Module TestGetpcount.

Definition main : prog unit :=
  running_count ← call Getpcount;
  printf 1 (ln "Processes currently running: %d") [Num running_count];;
  exit.

End TestGetpcount.
