(* ===== verification/UprogSpec.v ===== *)
(** * What the small programs do

    [osys] is the kernel as a filter sees it: a read gives some of the bytes
    that are left, as many as it likes but at least one, until there are none;
    an [open] finds the file or fails.  Whatever the sizes of the reads, cat
    copies its files to its output, and wc counts their lines, words and bytes. *)

From ITree Require Import Core.ITreeDefinition.
From S2P Require Import Prelude Memory Layout Cstring Ulib Printf User Uprogs.
Import User.

(** ** The world of a filter *)

(** The files by name, what is left to read at each descriptor, and what was
    written: the descriptor and the byte. *)
Record world := MkWorld { files : bytes -> option bytes; fds : gmap Z bytes; out : list (Z * Z) }.

Definition say (fd : Z) (text : bytes) (w : world) : world := MkWorld (files w) (fds w) (out w ++ (pair fd <$> text)).
Definition set_fds (x : gmap Z bytes) (w : world) : world := MkWorld (files w) x (out w).

Definition osys (w : world) (X : Type) (e : sysE X) : X -> world -> Prop :=
  match e with
  | Read fd n => fun r w' =>
      match fds w !! fd with
      | Some l => exists k, 0 <= k <= n /\ k <= Z.of_nat (length l) /\ (k = 0 -> n = 0 \/ l = []) /\
          r = (k, take (Z.to_nat k) l) /\ w' = set_fds (<[fd := drop (Z.to_nat k) l]> (fds w)) w
      | None => r = (-1, []) /\ w' = w
      end
  | Write fd b n => fun r w' => 0 <= n <= Z.of_nat (length b) /\ r = n /\ w' = say fd (take (Z.to_nat n) b) w
  | Open p m => fun r w' =>
      match files w p with
      | Some l => 0 <= r /\ fds w !! r = None /\ w' = set_fds (<[r := l]> (fds w)) w
      | None => r = -1 /\ w' = w
      end
  | Close fd => fun r w' => r = (match fds w !! fd with Some _ => 0 | None => -1 end) /\ w' = set_fds (delete fd (fds w)) w
  | _ => fun _ _ => False
  end.

Abbreviation wp := (User.wp osys).

(** ** Output *)

Lemma set_fds_id w : set_fds (fds w) w = w.
Proof. by destruct w. Qed.

Lemma say_nil fd w : say fd [] w = w.
Proof. destruct w. unfold say. cbn. by rewrite app_nil_r. Qed.

Lemma say_app fd a b w : say fd (a ++ b) w = say fd b (say fd a w).
Proof. unfold say. cbn. by rewrite fmap_app, app_assoc. Qed.

Lemma wp_write {Q E} w fd b n : 0 <= n <= Z.of_nat (length b) -> (Q n (say fd (take (Z.to_nat n) b) w) : Prop) -> wp Q E w (write fd b n).
Proof. intros Hn HQ. apply wp_call; [by exists n, (say fd (take (Z.to_nat n) b) w)|]. by intros x w' (_ & -> & ->). Qed.

Lemma wp_put E w fd text (Q : unit -> world -> Prop) : Q tt (say fd text w) -> wp Q E w (put fd text).
Proof.
  revert w. induction text as [|c text IH]; intros w HQ; cbn [put]; [apply wp_ret; by rewrite say_nil in HQ|].
  apply wp_bind, wp_write; [cbn; lia|]. apply IH. by rewrite <- say_app.
Qed.

Lemma wp_printf E w fd fmt args text (Q : unit -> world -> Prop) : format fmt args = Some text -> Q tt (say fd text w) -> wp Q E w (printf fd fmt args).
Proof. intros Hf HQ. unfold printf. rewrite Hf. by apply wp_put. Qed.

(** ** Formats *)

(** A name: a string without a NUL. *)
Definition name_ok (a : bytes) : Prop := Forall (fun c => c <> 0) a.

(** The text of [%d]. *)
Definition dec (n : Z) : bytes := default [] (Printf.printint (s32 n) 10 true).

Lemma printint_dec n : Printf.printint (s32 n) 10 true = Some (dec n).
Proof.
  destruct (number_prints Printf.digits (s32 n)) as [(o & H & _) _]; [apply digit_tables|apply s32_range|].
  unfold dec. change (Printf.printint (s32 n) 10 true) with (number Printf.digits (s32 n) 10 true). by rewrite H.
Qed.

(** A format is characters, [%s] and [%d]. *)
Inductive piece := PChar (c : Z) | PStr | PDec.

Fixpoint pieces (fmt : bytes) : option (list piece) :=
  match fmt with
  | [] => None
  | c :: fmt =>
      if c =? 0 then Some []
      else if c =? PERCENT then
        match fmt with
        | d :: fmt => if d =? 115 then cons PStr <$> pieces fmt else if d =? 100 then cons PDec <$> pieces fmt else None
        | [] => None
        end
      else if (0 <? c) && (c <? 256) then cons (PChar c) <$> pieces fmt
      else None
  end.

Fixpoint render (ps : list piece) (args : list parg) : option bytes :=
  match ps, args with
  | [], _ => Some []
  | PChar c :: ps, args => cons c <$> render ps args
  | PStr :: ps, Str s :: args => app s <$> render ps args
  | PDec :: ps, Num n :: args => app (dec n) <$> render ps args
  | _, _ => None
  end.

Definition arg_ok (a : parg) : Prop := match a with Num _ => True | Str s => name_ok s end.

Lemma next_arg args i a rest : drop i args = a :: rest ->
  args !! i = Some a /\ rest = drop (S i) args /\ drop i (imap parg_val args) = parg_val i a :: drop (S i) (imap parg_val args).
Proof.
  intros H. assert (args !! i = Some a) as Hi by (by rewrite <- (Nat.add_0_r i), <- lookup_drop, H). split; [done|].
  rewrite (drop_S _ _ _ Hi) in H. injection H as <-. split; [done|]. apply drop_S. by rewrite list_lookup_imap, Hi.
Qed.

Lemma puts_arg args i s : Forall arg_ok args -> args !! i = Some (Str s) -> Printf.puts (parg_at args) (Z.of_nat i + 1) = Some s.
Proof.
  intros Ha Hi. unfold Printf.puts, parg_at. rewrite (proj2 (Z.eqb_neq _ _)) by lia. replace (Z.to_nat (Z.of_nat i + 1 - 1)) with i by lia. rewrite Hi.
  apply putstr_spec. exact (proj1 (Forall_lookup _ _) Ha _ _ Hi).
Qed.

Lemma render_loop args fmt : forall ps i text, Forall arg_ok args -> pieces fmt = Some ps -> render ps (drop i args) = Some text ->
  Printf.printf_loop (parg_at args) fmt 0 (drop i (imap parg_val args)) = Some text.
Proof.
  intros ps i text Ha. remember (length fmt) as n eqn:En. revert fmt En ps i text. induction (lt_wf n) as [n _ IH]. intros fmt -> ps i text.
  destruct fmt as [|c fmt]; [done|]. cbn [pieces]. destruct (Z.eqb_spec c 0) as [->|Hc]; [by intros [= <-] [= <-]|].
  destruct (Z.eqb_spec c PERCENT) as [->|Hp].
  - destruct fmt as [|d fmt]; [done|].
    change (Printf.printf_loop (parg_at args) (PERCENT :: d :: fmt) 0 (drop i (imap parg_val args))) with (Printf.printf_loop (parg_at args) (d :: fmt) PERCENT (drop i (imap parg_val args))).
    destruct (Z.eqb_spec d 115) as [->|]; [|destruct (Z.eqb_spec d 100) as [->|]; [|done]]; destruct (pieces fmt) as [ps'|] eqn:Ep; try done; intros [= <-] Hr;
      cbn [render] in Hr; destruct (drop i args) as [|a rest] eqn:Ed; try done; destruct a as [m|s]; try done;
      destruct (next_arg _ _ _ _ Ed) as (Hi & -> & Hk); destruct (render ps' _) as [o|] eqn:Er; try done; injection Hr as <-; rewrite Hk;
      cbn [parg_val]; apply (IH (length fmt) ltac:(cbn; lia) fmt eq_refl) in Er; [|done|..|done].
    + change (Printf.printf_loop (parg_at args) (115 :: fmt) PERCENT (Z.of_nat i + 1 :: drop (S i) (imap parg_val args)))
        with ('(d, ap) ← (o ← Printf.puts (parg_at args) (Z.of_nat i + 1); Some (o, drop (S i) (imap parg_val args))); o ← Printf.printf_loop (parg_at args) fmt 0 ap; Some (d ++ o)).
      rewrite (puts_arg _ _ _ Ha Hi). cbn [mbind option_bind]. by rewrite Er.
    + change (Printf.printf_loop (parg_at args) (100 :: fmt) PERCENT (m :: drop (S i) (imap parg_val args)))
        with ('(d, ap) ← (o ← Printf.printint (s32 m) 10 true; Some (o, drop (S i) (imap parg_val args))); o ← Printf.printf_loop (parg_at args) fmt 0 ap; Some (d ++ o)).
      rewrite printint_dec. cbn [mbind option_bind]. by rewrite Er.
  - destruct ((0 <? c) && (c <? 256)) eqn:Er; [|done]. apply andb_prop in Er as [H1%Z.ltb_lt H2%Z.ltb_lt]. destruct (pieces fmt) as [ps'|] eqn:Ep; [|done].
    intros [= <-] Hr. cbn [render] in Hr. destruct (render ps' _) as [o|] eqn:Eo; [|done]. injection Hr as <-.
    rewrite (printf_literal (parg_at args) [c] fmt) by (constructor; [lia|done]). rewrite (IH (length fmt) ltac:(cbn; lia) fmt eq_refl _ _ _ Ep Eo). done.
Qed.

Lemma format_render fmt args ps text : Forall arg_ok args -> pieces (bytes_of fmt ++ [0]) = Some ps -> render ps args = Some text -> format fmt args = Some text.
Proof. intros Ha Hp Hr. apply (render_loop args _ ps 0 text Ha Hp). by rewrite drop_0. Qed.

(** ** Programs that work file by file *)

(** What is written for the files [args]: [text] of each, up to one that cannot
    be opened. *)
Fixpoint all_text (fs : bytes -> option bytes) (text : bytes -> bytes -> bytes) (cannot : bytes -> bytes) (args : list bytes) : bytes :=
  match args with
  | [] => []
  | a :: args => match fs a with Some l => text a l ++ all_text fs text cannot args | None => cannot a end
  end.

Section filter.
(** The work on an open file, what it writes, and the message for a file that
    is not there. *)
Context (work : Z -> bytes -> prog unit) (text : bytes -> bytes -> bytes) (fmt : string) (cannot : bytes -> bytes).
Context (Hcannot : forall a, name_ok a -> format fmt [Str a] = Some (cannot a)).
Context (ok : bytes -> Prop).
Context (Hwork : forall Q E w fd a l, fds w !! fd = Some l -> name_ok a -> ok l ->
  Q tt (say 1 (text a l) (set_fds (<[fd := []]> (fds w)) w)) -> wp Q E w (work fd a)).

Definition filter_main (args : list bytes) : prog unit :=
  User.when (bool_decide (args = [])) (work 0 [];; exit);;
  for_each args (fun a =>
    fd ← open a 0;
    if fd <? 0 then printf 1 fmt [Str a];; exit
    else work fd a;; close fd;; mret (None (A := unit)));;
  exit.

Lemma wp_open w p m Q E :
  match files w p with
  | Some l => forall fd, 0 <= fd -> fds w !! fd = None -> (Q fd (set_fds (<[fd := l]> (fds w)) w) : Prop)
  | None => Q (-1) w
  end -> wp Q E w (open p m).
Proof.
  intros HQ. apply wp_call; cbn [osys]; destruct (files w p) as [l|]; [|by eexists _, _|..].
  - exists (Z.of_nat (fresh (set_map Z.to_nat (dom (fds w)) : gset nat))). eexists. split_and!; [lia| |done]. apply not_elem_of_dom. intros Hin.
    apply (is_fresh (set_map Z.to_nat (dom (fds w)) : gset nat)). apply elem_of_map. eexists. split; [|exact Hin]. lia.
  - intros fd w' (H1 & H2 & ->). by apply HQ.
  - by intros fd w' [-> ->].
Qed.

Lemma wp_close w fd Q E : (forall r, Q r (set_fds (delete fd (fds w)) w) : Prop) -> wp Q E w (close fd).
Proof. intros HQ. apply wp_call; [by eexists _, _|]. by intros r w' [-> ->]. Qed.

Lemma filter_files args w : Forall name_ok args -> (forall a l, a ∈ args -> files w a = Some l -> ok l) ->
  wp (fun (_ : unit) _ => False) (fun w' => w' = say 1 (all_text (files w) text cannot args) w) w
    (for_each args (fun a =>
      fd ← open a 0;
      if fd <? 0 then printf 1 fmt [Str a];; exit
      else work fd a;; close fd;; mret (None (A := unit)));; exit).
Proof.
  intros Hn Hok. apply wp_bind.
  apply (wp_for_each _ _ _ (fun rest w' => exists pre t, args = pre ++ rest /\ w' = say 1 t w /\ all_text (files w) text cannot args = t ++ all_text (files w) text cannot rest)).
  - intros a rest w' (pre & t & Ha & -> & Ht). assert (a ∈ args) as Hin by (rewrite Ha; set_solver). assert (name_ok a) as Hna by (by apply (proj1 (Forall_forall _ _) Hn)).
    apply wp_bind, wp_open. cbn [files say]. destruct (files w a) as [l|] eqn:Ef.
    + intros fd Hfd Hnone. rewrite (proj2 (Z.ltb_ge _ _) Hfd). apply wp_bind. eapply Hwork; [cbn; apply lookup_insert_eq|done|by eapply Hok|].
      apply wp_bind, wp_close. intros r. apply wp_ret. exists (pre ++ [a]), (t ++ text a l). rewrite <- app_assoc. split_and!; [done| |by cbn [all_text]; rewrite Ht; cbn; rewrite Ef, app_assoc].
      rewrite say_app. unfold say, set_fds. cbn. f_equal. rewrite insert_insert_eq, delete_insert_id by done. done.
    + cbn [Z.ltb Z.compare]. apply wp_bind. eapply wp_printf; [by apply Hcannot|]. apply wp_exit. rewrite Ht. cbn [all_text]. by rewrite Ef, say_app.
  - intros w' (pre & t & Ha & -> & Ht). apply wp_exit. rewrite Ht. cbn. by rewrite app_nil_r.
  - exists [], []. by rewrite say_nil.
Qed.
End filter.

(** ** cat *)

Lemma wp_read w fd n l Q E : fds w !! fd = Some l -> 0 <= n ->
  (forall k, 0 <= k <= n -> k <= Z.of_nat (length l) -> (k = 0 -> n = 0 \/ l = []) ->
     (Q (k, take (Z.to_nat k) l) (set_fds (<[fd := drop (Z.to_nat k) l]> (fds w)) w) : Prop)) -> wp Q E w (read fd n).
Proof.
  intros Hl Hn HQ. apply wp_call; cbn [osys]; rewrite Hl.
  - eexists _, _, (Z.min n (Z.of_nat (length l))). split_and!; [lia|lia|lia| |done|done]. intros Hk. destruct l; [by right|]. left. cbn in Hk. lia.
  - intros x w' (k & H1 & H2 & H3 & -> & ->). by apply HQ.
Qed.

(** A loop that reads a file to its end, with a state that the bytes drive. *)
Lemma wp_read_all {A R} (body : A -> Z -> bytes -> prog (A + R)) (fin : A -> R) (f : A -> bytes -> A) (txt : A -> bytes -> bytes) fd w l a Q E :
  fds w !! fd = Some l ->
  (forall a b w' Q', b <> [] -> Q' (inl (f a b)) (say 1 (txt a b) w') -> wp Q' E w' (body a (Z.of_nat (length b)) b)) ->
  (forall a w' Q', Q' (inr (fin a)) w' -> wp Q' E w' (body a 0 [])) ->
  (forall a, f a [] = a /\ txt a [] = []) -> (forall a b c, f a (b ++ c) = f (f a b) c /\ txt a (b ++ c) = txt a b ++ txt (f a b) c) ->
  Q (fin (f a l)) (say 1 (txt a l) (set_fds (<[fd := []]> (fds w)) w)) ->
  wp Q E w (loop (fun a => '(n, buf) ← read fd 512; body a n buf) a).
Proof.
  intros Hl Hturn Hend Hnil Happ HQ.
  apply (wp_loop _ _ (fun _ w' => length (default [] (fds w' !! fd)))
    (fun a' w' => exists pre post, l = pre ++ post /\ a' = f a pre /\ w' = say 1 (txt a pre) (set_fds (<[fd := post]> (fds w)) w))).
  - intros a' w' (pre & post & -> & -> & ->). apply wp_bind. eapply wp_read; [cbn; apply lookup_insert_eq|lia|]. intros k H1 H2 H3.
    assert (k = Z.of_nat (length (take (Z.to_nat k) post))) as Ek by (rewrite length_take; lia).
    destruct (decide (take (Z.to_nat k) post = [])) as [E0|E0].
    + rewrite E0 in Ek. cbn in Ek. subst k. destruct (H3 eq_refl) as [ | ->]; [lia|]. apply Hend. rewrite app_nil_r in HQ. cbn. unfold set_fds at 1. cbn.
      rewrite insert_insert_eq. exact HQ.
    + pose proof (Hturn (f a pre) (take (Z.to_nat k) post)) as Ht. rewrite <- Ek in Ht. apply Ht; [done|]. cbn. rewrite !lookup_insert_eq. cbn. rewrite length_drop.
      assert (0 < k) by (destruct (decide (k = 0)) as [->|]; [done|lia]). split; [|lia].
      exists (pre ++ take (Z.to_nat k) post), (drop (Z.to_nat k) post). destruct (Happ a pre (take (Z.to_nat k) post)) as [-> ->].
      rewrite <- app_assoc, take_drop. split_and!; [done..|]. rewrite say_app. unfold say, set_fds. cbn. by rewrite insert_insert_eq.
  - exists [], l. destruct (Hnil a) as [-> ->]. split_and!; [done..|]. rewrite say_nil. rewrite insert_id by done. by rewrite set_fds_id.
Qed.

Lemma wp_cat Q E w fd l : fds w !! fd = Some l -> Q tt (say 1 l (set_fds (<[fd := []]> (fds w)) w)) -> wp Q E w (Cat.cat fd).
Proof.
  intros Hl HQ. apply wp_bind.
  apply (wp_read_all (fun _ n buf => if 0 <? n then write 1 buf n;; mret (inl tt) else mret (inr n)) (fun _ => 0) (fun _ _ => tt) (fun _ b => b) fd w l tt); [done|..|by apply wp_ret].
  - intros [] b w' Q' Hb H'. rewrite (proj2 (Z.ltb_lt _ _)) by (destruct b; [done|cbn; lia]). apply wp_bind, wp_write; [lia|]. apply wp_ret. by rewrite Nat2Z.id, firstn_all.
  - intros [] w' Q' H'. by apply wp_ret.
  - by intros [].
  - done.
Qed.

(** What cat writes: the files, up to the first it cannot open. *)
Definition cat_text (fs : bytes -> option bytes) (args : list bytes) : bytes :=
  all_text fs (fun _ l => l) (fun a => bytes_of "cat: cannot open " ++ a ++ [NL]) args.

(** C32: whatever the sizes of the reads, cat ends; it has written exactly its
    files, one after the other, up to the first it cannot open, for which it
    writes a message, and without arguments its standard input; and it leaves no
    file open. *)
Theorem cat_correct w args : Forall name_ok args ->
  (args <> [] -> wp (fun _ _ => False) (fun w' => w' = say 1 (cat_text (files w) args) w) w (Cat.main args)) /\
  (forall l, fds w !! 0 = Some l -> wp (fun _ _ => False) (fun w' => w' = say 1 l (set_fds (<[0 := []]> (fds w)) w)) w (Cat.main [])).
Proof.
  intros Hn. split.
  - intros Ha. unfold Cat.main. rewrite bool_decide_false by done. apply wp_bind, wp_ret.
    apply (filter_files (fun fd _ => Cat.cat fd) _ _ _) with (ok := fun _ => True); [|by intros; eapply wp_cat|done|done].
    intros a Hna. eapply format_render; [by repeat constructor|vm_compute; reflexivity|reflexivity].
  - intros l Hl. apply wp_bind, wp_bind. eapply wp_cat; [done|]. by apply wp_exit.
Qed.

(** ** wc *)

Definition blank (x : Z) : bool := bool_decide (x ∈ [32; 13; 9; 10; 11]).

(** A word starts at [i]: there is no blank there and none before it. *)
Definition starts (l : bytes) (i : nat) : bool :=
  match l !! i with
  | Some x => negb (blank x) && match i with O => true | S j => match l !! j with Some y => blank y | None => false end end
  | None => false
  end.
Definition words (l : bytes) : nat := length (filter (fun i => starts l i = true) (seq 0 (length l))).
Definition lines (l : bytes) : nat := length (filter (fun x => x = NL) l).

Lemma strchr_blank x : (match Ulib.strchr Wc.blanks x with Some (Some _) => true | _ => false end) = blank x.
Proof.
  unfold blank. case_bool_decide as Hx.
  - repeat (apply elem_of_cons in Hx as [->|Hx]; [done|]). by apply elem_of_nil in Hx.
  - change Wc.blanks with ([32; 13; 9; 10; 11] ++ 0 :: []). rewrite Ulib.strchr_absent; [done|by repeat constructor|done].
Qed.

Lemma filter_in_ext {A} (P P' : A -> Prop) `{!forall x, Decision (P x), !forall x, Decision (P' x)} (l : list A) :
  (forall x, x ∈ l -> P x <-> P' x) -> filter P l = filter P' l.
Proof.
  induction l as [|x l IH]; intros HP; [done|]. rewrite !filter_cons, IH by set_solver. pose proof (HP x ltac:(set_solver)). repeat case_decide; tauto.
Qed.

Lemma words_snoc l x : words (l ++ [x]) = (words l + if negb (blank x) && match last l with Some y => blank y | None => true end then 1 else 0)%nat.
Proof.
  unfold words. rewrite length_app. cbn [length]. rewrite seq_app, filter_app, length_app. f_equal.
  - f_equal. apply filter_in_ext. intros i [_ Hi]%elem_of_seq. unfold starts. rewrite lookup_app_l by lia. destruct (l !! i); [|done]. destruct i as [|i]; [done|]. by rewrite lookup_app_l by lia.
  - cbn [seq Nat.add]. rewrite filter_cons, filter_nil. unfold starts. rewrite lookup_app_r, Nat.sub_diag by lia. cbn. rewrite last_lookup.
    destruct (length l) as [|n] eqn:El; [apply nil_length_inv in El as ->; cbn; by destruct (blank x)|]. cbn [Nat.pred]. rewrite lookup_app_l by lia.
    destruct (lookup_lt_is_Some_2 l n) as [y Hy]; [lia|]. rewrite Hy. by destruct (blank x), (blank y).
Qed.

Lemma lines_snoc l x : lines (l ++ [x]) = (lines l + if (x =? NL)%Z then 1 else 0)%nat.
Proof. unfold lines. rewrite filter_app, length_app. f_equal. rewrite filter_cons, filter_nil. destruct (Z.eqb_spec x NL); case_decide; done. Qed.

Lemma lines_le l : (lines l <= length l)%nat.
Proof. apply length_filter. Qed.

Lemma words_le l : (words l <= length l)%nat.
Proof. unfold words. etransitivity; [apply length_filter|]. by rewrite length_seq. Qed.

(** The counts after reading [l]. *)
Definition counted (l : bytes) : Wc.counts :=
  Wc.MkCounts (Z.of_nat (lines l)) (Z.of_nat (words l)) (Z.of_nat (length l)) (match last l with Some y => negb (blank y) | None => false end).

Lemma count_all l : Z.of_nat (length l) < 2 ^ 31 -> foldl Wc.count (Wc.MkCounts 0 0 0 false) l = counted l.
Proof.
  induction l as [|x l IH] using rev_ind; intros Hl; [done|]. rewrite length_app in Hl. cbn in Hl. rewrite foldl_snoc, IH by lia. unfold Wc.count, counted. cbn [Wc.l Wc.w Wc.c Wc.inword].
  pose proof (strchr_blank x) as Hb. pose proof (lines_le l). pose proof (words_le l). rewrite lines_snoc, words_snoc, length_app, last_snoc. cbn [length].
  assert ((if x =? NL then s32 (Z.of_nat (lines l) + 1) else Z.of_nat (lines l)) = Z.of_nat (lines l + if (x =? NL)%Z then 1 else 0)%nat) as ->
    by (destruct (x =? NL); [rewrite s32_small by lia|]; lia).
  rewrite s32_small by lia. rewrite <- Hb. replace (Z.of_nat (length l) + 1) with (Z.of_nat (length l + 1)) by lia.
  destruct (Ulib.strchr Wc.blanks x) as [[i|]|]; cbn; [by rewrite Nat.add_0_r|..]; destruct (last l) as [y|]; cbn; rewrite ?negb_involutive;
    try destruct (blank y); cbn; rewrite ?Nat.add_0_r, ?s32_small by lia; f_equal; lia.
Qed.

(** The line of wc for the file [a] with contents [l]. *)
Definition wc_text (a l : bytes) : bytes :=
  dec (Z.of_nat (lines l)) ++ [32] ++ dec (Z.of_nat (words l)) ++ [32] ++ dec (Z.of_nat (length l)) ++ [32] ++ a ++ [NL].

Lemma wp_wc Q E w fd a l : fds w !! fd = Some l -> name_ok a -> Z.of_nat (length l) < 2 ^ 31 ->
  Q tt (say 1 (wc_text a l) (set_fds (<[fd := []]> (fds w)) w)) -> wp Q E w (Wc.wc fd a).
Proof.
  intros Hl Ha Hlen HQ. apply wp_bind.
  apply (wp_read_all (fun s n buf => if 0 <? n then mret (inl (foldl Wc.count s (take (Z.to_nat n) buf))) else mret (inr (n, s)))
    (fun s => (0, s)) (fun s b => foldl Wc.count s b) (fun _ _ => []) fd w l); [done|..].
  - intros s b w' Q' Hb H'. rewrite (proj2 (Z.ltb_lt _ _)) by (destruct b; [done|cbn; lia]). apply wp_ret. rewrite Nat2Z.id, firstn_all. by rewrite say_nil in H'.
  - intros s w' Q' H'. by apply wp_ret.
  - done.
  - intros s b c. by rewrite foldl_app.
  - rewrite say_nil, count_all by done. cbn [Z.ltb Z.compare]. eapply wp_printf; [|exact HQ].
    eapply format_render; [by repeat constructor|vm_compute; reflexivity|]. reflexivity.
Qed.

(** What wc writes for its files. *)
Definition wc_all (fs : bytes -> option bytes) (args : list bytes) : bytes :=
  all_text fs wc_text (fun a => bytes_of "wc: cannot open " ++ a ++ [NL]) args.

(** whatever the sizes of the reads, wc ends; for each of its files, of
    less than 2 GB, it has written the number of newlines, of words and of
    bytes in it and its name, where a word is a longest run of bytes that are
    not blank. *)
Theorem wc_correct w args : Forall name_ok args -> (forall a l, a ∈ args -> files w a = Some l -> Z.of_nat (length l) < 2 ^ 31) ->
  (args <> [] -> wp (fun _ _ => False) (fun w' => w' = say 1 (wc_all (files w) args) w) w (Wc.main args)) /\
  (forall l, fds w !! 0 = Some l -> Z.of_nat (length l) < 2 ^ 31 ->
     wp (fun _ _ => False) (fun w' => w' = say 1 (wc_text [] l) (set_fds (<[0 := []]> (fds w)) w)) w (Wc.main [])).
Proof.
  intros Hn Hlen. split.
  - intros Ha. unfold Wc.main. rewrite bool_decide_false by done. apply wp_bind, wp_ret.
    apply (filter_files Wc.wc _ _ _) with (ok := fun l => Z.of_nat (length l) < 2 ^ 31); [|by intros; eapply wp_wc|done|done].
    intros a Hna. eapply format_render; [by repeat constructor|vm_compute; reflexivity|reflexivity].
  - intros l Hl Hlt. apply wp_bind, wp_bind. eapply wp_wc; [done|constructor|done|]. by apply wp_exit.
Qed.

(** ** A world *)

Module FilterEx.
Definition w : world := MkWorld (fun p => if bool_decide (p = [97]) then Some [104; 105; 10; 104] else None) {[ 0 := [120; 32; 121] ]} [].
End FilterEx.

Lemma cat_correct_witness :
  wp (fun _ _ => False) (fun w' => w' = say 1 (cat_text (files FilterEx.w) [[97]; [98]]) FilterEx.w) FilterEx.w (Cat.main [[97]; [98]]) /\
  cat_text (files FilterEx.w) [[97]; [98]] = [104; 105; 10; 104] ++ bytes_of "cat: cannot open b" ++ [NL].
Proof.
  destruct (cat_correct FilterEx.w [[97]; [98]]) as [H _]; [repeat constructor; discriminate|]. split; [apply H; discriminate|reflexivity].
Defined.

Lemma wc_correct_witness :
  wp (fun _ _ => False) (fun w' => w' = say 1 (wc_all (files FilterEx.w) [[97]]) FilterEx.w) FilterEx.w (Wc.main [[97]]) /\
  wc_all (files FilterEx.w) [[97]] = bytes_of "1 2 4 a" ++ [NL].
Proof.
  destruct (wc_correct FilterEx.w [[97]]) as [H _]; [repeat constructor; discriminate| |split; [apply H; discriminate|vm_compute; reflexivity]].
  intros a l Ha. apply list_elem_of_singleton in Ha as ->. intros [= <-]. vm_compute. reflexivity.
Defined.
