(* ===== verification/Usertests.v ===== *)
(** * usertests.c: the tests of the system calls

    Each test is a program over the system calls, as usertests.c has it.  The
    global [buf] is an argument and a result of the tests that use it. *)

From ITree Require Import Core.ITreeDefinition.
From S2P Require Import Prelude Memory Layout Cstring Block Log Fs Ulib Printf User Uprogs.
Import User.

Module Usertests.

#[local] Coercion bytes_of : string >-> list.

(** ** Helpers *)

Abbreviation stdout := 1.

(** A message, and a message before [exit]. *)
Definition say (s : string) : prog unit := printf stdout (ln s) [].
Definition sayf (s : string) (args : list parg) : prog unit := printf stdout (ln s) args.
Definition die {A} (s : string) : prog A := say s;; exit.
Definition dief {A} (s : string) (args : list parg) : prog A := sayf s args;; exit.
Definition die_if (b : bool) (s : string) : prog unit := if b then die s else mret tt.

(** [for(i = a; i < a + n; i++) body] *)
Fixpoint for_n (n : nat) (i : Z) (body : Z -> prog unit) : prog unit :=
  match n with
  | O => mret tt
  | S n => body i;; for_n n (i + 1) body
  end.

(** [for(;;) ;] *)
Definition spin {A} : prog A := loop (fun _ : unit => mret (inl tt)) tt.

(** [read(fd, buf, n)]: the count and [buf] afterwards. *)
Definition read_into (buf : bytes) (fd n : Z) : prog (Z * bytes) :=
  '(r, b) ← read fd n;
  mret (r, splice 0 b buf).

(** [buf[i]] as an unsigned byte. *)
Definition at_ (buf : bytes) (i : Z) : Z := default 0 (buf !! Z.to_nat i).

(** A [char] is signed. *)
Definition schar (x : Z) : Z := if x <? 128 then x else x - 256.

(** [memset(buf, c, n)] *)
Definition fill (buf : bytes) (c : Z) (n : nat) : bytes := splice 0 (replicate n (u8 c)) buf.

Definition close_ (fd : Z) : prog unit := close fd;; mret tt.
Definition unlink_ (p : bytes) : prog unit := unlink p;; mret tt.
Definition wait_ : prog unit := wait;; mret tt.

(** ** Directories in use *)

Definition iputtest : prog unit :=
  say "iput test";;
  r ← mkdir "iputdir"; die_if (r <? 0) "mkdir failed";;
  r ← chdir "iputdir"; die_if (r <? 0) "chdir iputdir failed";;
  r ← unlink "../iputdir"; die_if (r <? 0) "unlink ../iputdir failed";;
  r ← chdir "/"; die_if (r <? 0) "chdir / failed";;
  say "iput test ok".

Definition exitiputtest : prog unit :=
  say "exitiput test";;
  pid ← fork;
  die_if (pid <? 0) "fork failed";;
  when (pid =? 0) (
    r ← mkdir "iputdir"; die_if (r <? 0) "mkdir failed";;
    r ← chdir "iputdir"; die_if (r <? 0) "child chdir failed";;
    r ← unlink "../iputdir"; die_if (r <? 0) "unlink ../iputdir failed";;
    exit);;
  wait_;;
  say "exitiput test ok".

Definition openiputtest : prog unit :=
  say "openiput test";;
  r ← mkdir "oidir"; die_if (r <? 0) "mkdir oidir failed";;
  pid ← fork;
  die_if (pid <? 0) "fork failed";;
  when (pid =? 0) (
    fd ← open "oidir" O_RDWR;
    die_if (0 <=? fd) "open directory for write succeeded";;
    exit);;
  sleep 1;;
  r ← unlink "oidir"; die_if (negb (r =? 0)) "unlink failed";;
  wait_;;
  say "openiput test ok".

(** ** Simple file system tests *)

Definition opentest : prog unit :=
  say "open test";;
  fd ← open "echo" 0;
  die_if (fd <? 0) "open echo failed!";;
  close_ fd;;
  fd ← open "doesnotexist" 0;
  die_if (0 <=? fd) "open doesnotexist succeeded!";;
  say "open test ok".

Definition writetest (buf : bytes) : prog bytes :=
  say "small file test";;
  fd ← open "small" (O_CREATE .| O_RDWR);
  (if 0 <=? fd then say "creat small succeeded; ok" else die "error: creat small failed!");;
  for_n 100 0 (fun i =>
    r ← write fd "aaaaaaaaaa" 10;
    when (negb (r =? 10)) (dief "error: write aa %d new file failed" [Num i]);;
    r ← write fd "bbbbbbbbbb" 10;
    when (negb (r =? 10)) (dief "error: write bb %d new file failed" [Num i]));;
  say "writes ok";;
  close_ fd;;
  fd ← open "small" O_RDONLY;
  (if 0 <=? fd then say "open small succeeded ok" else die "error: open small failed!");;
  '(i, buf) ← read_into buf fd 2000;
  (if i =? 2000 then say "read succeeded ok" else die "read failed");;
  close_ fd;;
  r ← unlink "small"; die_if (r <? 0) "unlink small failed";;
  say "small file test ok";;
  mret buf.

(** [((int* )buf)[0] = i] *)
Definition put_int (i : Z) (buf : bytes) : bytes := splice 0 (le_enc 4 i) buf.
Definition get_int (buf : bytes) : Z := s32 (le_val (take 4 buf)).

Fixpoint write_blocks (fd : Z) (n : nat) (i : Z) (buf : bytes) : prog bytes :=
  match n with
  | O => mret buf
  | S n =>
      let buf := put_int i buf in
      r ← write fd buf 512;
      when (negb (r =? 512)) (dief "error: write big file failed" [Num i]);;
      write_blocks fd n (i + 1) buf
  end.

Definition writetest1 (buf : bytes) : prog bytes :=
  say "big files test";;
  fd ← open "big" (O_CREATE .| O_RDWR);
  die_if (fd <? 0) "error: creat big failed!";;
  buf ← write_blocks fd (Z.to_nat MAXFILE) 0 buf;
  close_ fd;;
  fd ← open "big" O_RDONLY;
  die_if (fd <? 0) "error: open big failed!";;
  buf ← loop (fun '(n, buf) =>
    '(i, buf) ← read_into buf fd 512;
    if i =? 0 then
      when (n =? MAXFILE - 1) (
        printf stdout "read only %d blocks from big" [Num n];;
        exit);;
      mret (inr buf)
    else
      when (negb (i =? 512)) (dief "read failed %d" [Num i]);;
      when (negb (get_int buf =? n)) (dief "read content of block %d is %d" [Num n; Num (get_int buf)]);;
      mret (inl (n + 1, buf))) (0, buf);
  close_ fd;;
  r ← unlink "big"; die_if (r <? 0) "unlink big failed";;
  say "big files ok";;
  mret buf.

(** The name ['a'] and a character. *)
Definition name2 (c d : Z) : bytes := [c; d].

Definition createtest : prog unit :=
  say "many creates, followed by unlink test";;
  for_n 52 0 (fun i =>
    fd ← open (name2 97 (48 + i)) (O_CREATE .| O_RDWR);
    close_ fd);;
  for_n 52 0 (fun i => unlink_ (name2 97 (48 + i)));;
  say "many creates, followed by unlink; ok".

Definition dirtest : prog unit :=
  say "mkdir test";;
  r ← mkdir "dir0"; die_if (r <? 0) "mkdir failed";;
  r ← chdir "dir0"; die_if (r <? 0) "chdir dir0 failed";;
  r ← chdir ".."; die_if (r <? 0) "chdir .. failed";;
  r ← unlink "dir0"; die_if (r <? 0) "unlink dir0 failed";;
  say "mkdir test ok".

Definition echoargv : list bytes := [bytes_of "echo"; bytes_of "ALL"; bytes_of "TESTS"; bytes_of "PASSED"].

Definition exectest : prog unit :=
  say "exec test";;
  r ← exec "echo" echoargv;
  die_if (r <? 0) "exec echo failed".

(** ** Pipes and processes *)

(** The child of [pipe1]: [seq] counts the bytes. *)
Fixpoint pipe1_write (fd : Z) (n : nat) (seq : Z) (buf : bytes) : prog unit :=
  match n with
  | O => mret tt
  | S n =>
      let buf := splice 0 ((fun i => u8 (seq + i)) <$> seqZ 0 1033) buf in
      r ← write fd buf 1033;
      die_if (negb (r =? 1033)) "pipe1 oops 1";;
      pipe1_write fd n (seq + 1033) buf
  end.

(** Its parent reads; [None] when the bytes are not those that were written. *)
Definition pipe1_read (fd : Z) (buf : bytes) : prog (option Z * bytes) :=
  loop (fun '(seq, total, cc, buf) =>
    '(n, buf) ← read_into buf fd cc;
    if 0 <? n then
      if forallb (fun i => at_ buf i =? u8 (seq + i)) (seqZ 0 n) then
        let cc := cc * 2 in
        mret (inl (seq + n, total + n, if 8192 <? cc then 8192 else cc, buf))
      else
        say "pipe1 oops 2";;
        mret (inr (None, buf))
    else mret (inr (Some total, buf))) (0, 0, 1, buf).

Definition pipe1 (buf : bytes) : prog bytes :=
  p ← pipe;
  match p with
  | None => die "pipe() failed"
  | Some (fd0, fd1) =>
      pid ← fork;
      if pid =? 0 then
        close_ fd0;;
        pipe1_write fd1 5 0 buf;;
        exit
      else if 0 <? pid then
        close_ fd1;;
        '(r, buf) ← pipe1_read fd0 buf;
        match r with
        | None => mret buf
        | Some total =>
            when (negb (total =? 5 * 1033)) (dief "pipe1 oops 3 total %d" [Num total]);;
            close_ fd0;;
            wait_;;
            say "pipe1 ok";;
            mret buf
        end
      else die "fork() failed"
  end.

(** The result of [pipe] is not looked at: without a pipe the descriptors are
    whatever was on the stack, [junk]. *)
Definition preempt (junk : Z * Z) (buf : bytes) : prog bytes :=
  printf 1 "preempt: " [];;
  pid1 ← fork;
  when (pid1 =? 0) spin;;
  pid2 ← fork;
  when (pid2 =? 0) spin;;
  p ← pipe;
  let '(pfd0, pfd1) := default junk p in
  pid3 ← fork;
  when (pid3 =? 0) (
    close_ pfd0;;
    r ← write pfd1 "x" 1;
    when (negb (r =? 1)) (printf 1 "preempt write error" []);;
    close_ pfd1;;
    spin);;
  close_ pfd1;;
  '(n, buf) ← read_into buf pfd0 8192;
  if negb (n =? 1) then printf 1 "preempt read error" [];; mret buf
  else
    close_ pfd0;;
    printf 1 "kill... " [];;
    kill pid1;;
    kill pid2;;
    kill pid3;;
    printf 1 "wait... " [];;
    wait_;;
    wait_;;
    wait_;;
    say "preempt ok";;
    mret buf.

Definition exitwait : prog unit :=
  r ← for_each (seqZ 0 100) (fun _ =>
    pid ← fork;
    if pid <? 0 then say "fork failed";; mret (Some tt)
    else if negb (pid =? 0) then
      w ← wait;
      if negb (w =? pid) then say "wait wrong pid";; mret (Some tt) else mret None
    else exit);
  match r with
  | Some _ => mret tt
  | None => say "exitwait ok"
  end.

Section mem.
(** umalloc.c, and a pointer in memory *)
Context (malloc : Z -> prog Z) (free : Z -> prog unit).
Context (load_ptr : Z -> prog Z) (store_ptr : Z -> Z -> prog unit).

Definition mem : prog unit :=
  say "mem test";;
  ppid ← getpid;
  pid ← fork;
  if pid =? 0 then
    m1 ← loop (fun m1 =>
      m2 ← malloc 10001;
      if negb (m2 =? 0) then store_ptr m2 m1;; mret (inl m2) else mret (inr m1)) 0;
    loop (fun m1 =>
      if negb (m1 =? 0) then
        m2 ← load_ptr m1;
        free m1;;
        mret (inl m2)
      else mret (inr tt)) m1;;
    m1 ← malloc (1024 * 20);
    when (m1 =? 0) (
      say "couldn't allocate mem?!!";;
      kill ppid;;
      exit);;
    free m1;;
    say "mem ok";;
    exit
  else wait_.
End mem.

(** ** More file system tests *)

(** The [buf] of [sharedfd] has 10 bytes, all of which are counted each time. *)
Definition count_of (c : Z) (buf : bytes) : Z := Z.of_nat (length (filter (fun x => x = c) buf)).

Definition sharedfd : prog unit :=
  say "sharedfd test";;
  unlink_ "sharedfd";;
  fd ← open "sharedfd" (O_CREATE .| O_RDWR);
  if fd <? 0 then printf 1 "fstests: cannot open sharedfd for writing" []
  else
    pid ← fork;
    let buf := replicate 10 (if pid =? 0 then 99 else 112) in
    for_each (seqZ 0 1000) (fun _ =>
      r ← write fd buf 10;
      if negb (r =? 10) then say "fstests: write sharedfd failed";; mret (Some tt) else mret None);;
    (if pid =? 0 then exit else wait_);;
    close_ fd;;
    fd ← open "sharedfd" 0;
    if fd <? 0 then say "fstests: cannot open sharedfd for reading"
    else
      '(nc, np) ← loop (fun '(nc, np, buf) =>
        '(n, buf) ← read_into buf fd 10;
        if 0 <? n then mret (inl (nc + count_of 99 buf, np + count_of 112 buf, buf)) else mret (inr (nc, np))) (0, 0, buf);
      close_ fd;;
      unlink_ "sharedfd";;
      if (nc =? 10000) && (np =? 10000) then say "sharedfd ok"
      else dief "sharedfd oops %d %d" [Num nc; Num np].

Definition f_name (pi : Z) : bytes := name2 102 (48 + pi).

(** A child of [fourfiles]. *)
Definition fourfiles_child (buf : bytes) (pi : Z) : prog unit :=
  fd ← open (f_name pi) (O_CREATE .| O_RDWR);
  die_if (fd <? 0) "create failed";;
  let buf := fill buf (48 + pi) 512 in
  for_n 12 0 (fun _ =>
    n ← write fd buf 500;
    when (negb (n =? 500)) (dief "write failed %d" [Num n]));;
  exit.

(** The check of file [i]. *)
Definition fourfiles_check (buf : bytes) (i : Z) : prog bytes :=
  fd ← open (f_name i) 0;
  '(total, buf) ← loop (fun '(total, buf) =>
    '(n, buf) ← read_into buf fd 8192;
    if 0 <? n then
      die_if (negb (forallb (fun j => at_ buf j =? 48 + i) (seqZ 0 n))) "wrong char";;
      mret (inl (total + n, buf))
    else mret (inr (total, buf))) (0, buf);
  close_ fd;;
  when (negb (total =? 12 * 500)) (dief "wrong length %d" [Num total]);;
  unlink_ (f_name i);;
  mret buf.

Definition fourfiles (buf : bytes) : prog bytes :=
  say "fourfiles test";;
  for_n 4 0 (fun pi =>
    unlink_ (f_name pi);;
    pid ← fork;
    die_if (pid <? 0) "fork failed";;
    when (pid =? 0) (fourfiles_child buf pi));;
  for_n 4 0 (fun _ => wait_);;
  buf ← fourfiles_check buf 0;
  buf ← fourfiles_check buf 1;
  say "fourfiles ok";;
  mret buf.

(** A child of [createdelete]. *)
Definition createdelete_child (pi : Z) : prog unit :=
  for_n 20 0 (fun i =>
    fd ← open (name2 (112 + pi) (48 + i)) (O_CREATE .| O_RDWR);
    die_if (fd <? 0) "create failed";;
    close_ fd;;
    when ((0 <? i) && (i mod 2 =? 0)) (
      r ← unlink (name2 (112 + pi) (48 + i / 2));
      die_if (r <? 0) "unlink failed"));;
  exit.

Definition createdelete_check (i pi : Z) : prog unit :=
  let name := name2 (112 + pi) (48 + i) in
  fd ← open name 0;
  if ((i =? 0) || (20 / 2 <=? i)) && (fd <? 0) then dief "oops createdelete %s didn't exist" [Str name]
  else if (1 <=? i) && (i <? 20 / 2) && (0 <=? fd) then dief "oops createdelete %s did exist" [Str name]
  else when (0 <=? fd) (close_ fd).

(** The last loop makes both characters of the name from [i]. *)
Definition createdelete : prog unit :=
  say "createdelete test";;
  for_n 4 0 (fun pi =>
    pid ← fork;
    die_if (pid <? 0) "fork failed";;
    when (pid =? 0) (createdelete_child pi));;
  for_n 4 0 (fun _ => wait_);;
  for_n 20 0 (fun i => for_n 4 0 (fun pi => createdelete_check i pi));;
  for_n 20 0 (fun i => for_n 4 0 (fun pi => unlink_ (name2 (112 + i) (48 + i))));;
  say "createdelete ok".

Definition unlinkread (buf : bytes) : prog bytes :=
  say "unlinkread test";;
  fd ← open "unlinkread" (O_CREATE .| O_RDWR);
  die_if (fd <? 0) "create unlinkread failed";;
  write fd "hello" 5;;
  close_ fd;;
  fd ← open "unlinkread" O_RDWR;
  die_if (fd <? 0) "open unlinkread failed";;
  r ← unlink "unlinkread"; die_if (negb (r =? 0)) "unlink unlinkread failed";;
  fd1 ← open "unlinkread" (O_CREATE .| O_RDWR);
  write fd1 "yyy" 3;;
  close_ fd1;;
  '(n, buf) ← read_into buf fd 8192;
  when (negb (n =? 5)) (printf 1 "unlinkread read failed" [];; exit);;
  die_if (negb (at_ buf 0 =? 104)) "unlinkread wrong data";;
  r ← write fd buf 10; die_if (negb (r =? 10)) "unlinkread write failed";;
  close_ fd;;
  unlink_ "unlinkread";;
  say "unlinkread ok";;
  mret buf.

Definition linktest (buf : bytes) : prog bytes :=
  say "linktest";;
  unlink_ "lf1";;
  unlink_ "lf2";;
  fd ← open "lf1" (O_CREATE .| O_RDWR);
  die_if (fd <? 0) "create lf1 failed";;
  r ← write fd "hello" 5; die_if (negb (r =? 5)) "write lf1 failed";;
  close_ fd;;
  r ← link "lf1" "lf2"; die_if (r <? 0) "link lf1 lf2 failed";;
  unlink_ "lf1";;
  r ← open "lf1" 0; die_if (0 <=? r) "unlinked lf1 but it is still there!";;
  fd ← open "lf2" 0;
  die_if (fd <? 0) "open lf2 failed";;
  '(n, buf) ← read_into buf fd 8192;
  die_if (negb (n =? 5)) "read lf2 failed";;
  close_ fd;;
  r ← link "lf2" "lf2"; die_if (0 <=? r) "link lf2 lf2 succeeded! oops";;
  unlink_ "lf2";;
  r ← link "lf2" "lf1"; die_if (0 <=? r) "link non-existant succeeded! oops";;
  r ← link "." "lf1"; die_if (0 <=? r) "link . lf1 succeeded! oops";;
  say "linktest ok";;
  mret buf.

Definition c_name (i : Z) : bytes := name2 67 (48 + i).

(** A round of the first loop of [concreate]. *)
Definition concreate_make (i : Z) : prog unit :=
  let file := c_name i in
  unlink_ file;;
  pid ← fork;
  (if negb (pid =? 0) && (i mod 3 =? 1) then link "C0" file;; mret tt
   else if (pid =? 0) && (i mod 5 =? 1) then link "C0" file;; mret tt
   else
     fd ← open file (O_CREATE .| O_RDWR);
     when (fd <? 0) (dief "concreate create %s failed" [Str file]);;
     close_ fd);;
  if pid =? 0 then exit else wait_.

(** An entry of the directory: the files found so far and their number. *)
Definition concreate_entry (de : dirent) (fa : list bool) (n : Z) : prog (list bool * Z) :=
  if de_inum de =? 0 then mret (fa, n)
  else if (at_ (de_name de) 0 =? 67) && (at_ (de_name de) 2 =? 0) then
    let i := schar (at_ (de_name de) 1) - 48 in
    let name := Str.cstr (de_name de ++ [0]) in
    if (i <? 0) || (40 <=? i) then dief "concreate weird file %s" [Str name]
    else if default false (fa !! Z.to_nat i) then dief "concreate duplicate file %s" [Str name]
    else mret (<[Z.to_nat i := true]> fa, n + 1)
  else mret (fa, n).

Definition concreate_drop (i : Z) : prog unit :=
  let file := c_name i in
  pid ← fork;
  die_if (pid <? 0) "fork failed";;
  (if ((i mod 3 =? 0) && (pid =? 0)) || ((i mod 3 =? 1) && negb (pid =? 0)) then
     for_n 4 0 (fun _ => fd ← open file 0; close_ fd)
   else for_n 4 0 (fun _ => unlink_ file));;
  if pid =? 0 then exit else wait_.

(** [de] keeps what it held where a read gives less than 16 bytes. *)
Definition concreate (de0 : bytes) : prog unit :=
  say "concreate test";;
  for_n 40 0 concreate_make;;
  fd ← open "." 0;
  n ← loop (fun '(fa, n, de) =>
    '(r, b) ← read fd 16;
    if 0 <? r then
      let de := splice 0 b de in
      '(fa, n) ← concreate_entry (decode_dirent de) fa n;
      mret (inl (fa, n, de))
    else mret (inr n)) (replicate 40 false, 0, de0);
  close_ fd;;
  die_if (negb (n =? 40)) "concreate not enough files in directory listing";;
  for_n 40 0 concreate_drop;;
  say "concreate ok".

Fixpoint linkunlink_loop (n : nat) (x : Z) : prog unit :=
  match n with
  | O => mret tt
  | S n =>
      let x := u32 (x * 1103515245 + 12345) in
      (if x mod 3 =? 0 then fd ← open "x" (O_RDWR .| O_CREATE); close_ fd
       else if x mod 3 =? 1 then link "cat" "x";; mret tt
       else unlink_ "x");;
      linkunlink_loop n x
  end.

Definition linkunlink : prog unit :=
  say "linkunlink test";;
  unlink_ "x";;
  pid ← fork;
  die_if (pid <? 0) "fork failed";;
  linkunlink_loop 100 (if negb (pid =? 0) then 1 else 97);;
  (if negb (pid =? 0) then wait_ else exit);;
  say "linkunlink ok".

Definition bigdir_name (i : Z) : bytes := [120; 48 + i / 64; 48 + i mod 64].

Definition bigdir : prog unit :=
  say "bigdir test";;
  unlink_ "bd";;
  fd ← open "bd" O_CREATE;
  die_if (fd <? 0) "bigdir create failed";;
  close_ fd;;
  for_n 500 0 (fun i =>
    r ← link "bd" (bigdir_name i);
    die_if (negb (r =? 0)) "bigdir link failed");;
  unlink_ "bd";;
  for_n 500 0 (fun i =>
    r ← unlink (bigdir_name i);
    when (negb (r =? 0)) (printf 1 "bigdir unlink failed" [];; exit));;
  say "bigdir ok".

(** ** Paths *)

(** [fd = open(path, mode); if(fd < 0) die; ...] *)
Definition must_open (p : bytes) (mode : Z) (s : string) : prog Z :=
  fd ← open p mode;
  die_if (fd <? 0) s;;
  mret fd.

(** A call that must give 0, one that must not give 0, and one that must give a
    negative number. *)
Definition must_zero (t : prog Z) (s : string) : prog unit := r ← t; die_if (negb (r =? 0)) s.
Definition must_fail (t : prog Z) (s : string) : prog unit := r ← t; die_if (r =? 0) s.
Definition must_neg (t : prog Z) (s : string) : prog unit := r ← t; die_if (0 <=? r) s.

Definition subdir (buf : bytes) : prog bytes :=
  say "subdir test";;
  unlink_ "ff";;
  must_zero (mkdir "dd") "subdir mkdir dd failed";;
  fd ← must_open "dd/ff" (O_CREATE .| O_RDWR) "create dd/ff failed";
  write fd "ff" 2;;
  close_ fd;;
  must_neg (unlink "dd") "unlink dd (non-empty dir) succeeded!";;
  must_zero (mkdir "/dd/dd") "subdir mkdir dd/dd failed";;
  fd ← must_open "dd/dd/ff" (O_CREATE .| O_RDWR) "create dd/dd/ff failed";
  write fd "FF" 2;;
  close_ fd;;
  fd ← must_open "dd/dd/../ff" 0 "open dd/dd/../ff failed";
  '(cc, buf) ← read_into buf fd 8192;
  die_if (negb (cc =? 2) || negb (at_ buf 0 =? 102)) "dd/dd/../ff wrong content";;
  close_ fd;;
  must_zero (link "dd/dd/ff" "dd/dd/ffff") "link dd/dd/ff dd/dd/ffff failed";;
  must_zero (unlink "dd/dd/ff") "unlink dd/dd/ff failed";;
  must_neg (open "dd/dd/ff" O_RDONLY) "open (unlinked) dd/dd/ff succeeded";;
  must_zero (chdir "dd") "chdir dd failed";;
  must_zero (chdir "dd/../../dd") "chdir dd/../../dd failed";;
  must_zero (chdir "dd/../../../dd") "chdir dd/../../dd failed";;
  must_zero (chdir "./..") "chdir ./.. failed";;
  fd ← must_open "dd/dd/ffff" 0 "open dd/dd/ffff failed";
  '(n, buf) ← read_into buf fd 8192;
  die_if (negb (n =? 2)) "read dd/dd/ffff wrong len";;
  close_ fd;;
  must_neg (open "dd/dd/ff" O_RDONLY) "open (unlinked) dd/dd/ff succeeded!";;
  must_neg (open "dd/ff/ff" (O_CREATE .| O_RDWR)) "create dd/ff/ff succeeded!";;
  must_neg (open "dd/xx/ff" (O_CREATE .| O_RDWR)) "create dd/xx/ff succeeded!";;
  must_neg (open "dd" O_CREATE) "create dd succeeded!";;
  must_neg (open "dd" O_RDWR) "open dd rdwr succeeded!";;
  must_neg (open "dd" O_WRONLY) "open dd wronly succeeded!";;
  must_fail (link "dd/ff/ff" "dd/dd/xx") "link dd/ff/ff dd/dd/xx succeeded!";;
  must_fail (link "dd/xx/ff" "dd/dd/xx") "link dd/xx/ff dd/dd/xx succeeded!";;
  must_fail (link "dd/ff" "dd/dd/ffff") "link dd/ff dd/dd/ffff succeeded!";;
  must_fail (mkdir "dd/ff/ff") "mkdir dd/ff/ff succeeded!";;
  must_fail (mkdir "dd/xx/ff") "mkdir dd/xx/ff succeeded!";;
  must_fail (mkdir "dd/dd/ffff") "mkdir dd/dd/ffff succeeded!";;
  must_fail (unlink "dd/xx/ff") "unlink dd/xx/ff succeeded!";;
  must_fail (unlink "dd/ff/ff") "unlink dd/ff/ff succeeded!";;
  must_fail (chdir "dd/ff") "chdir dd/ff succeeded!";;
  must_fail (chdir "dd/xx") "chdir dd/xx succeeded!";;
  must_zero (unlink "dd/dd/ffff") "unlink dd/dd/ff failed";;
  must_zero (unlink "dd/ff") "unlink dd/ff failed";;
  must_fail (unlink "dd") "unlink non-empty dd succeeded!";;
  r ← unlink "dd/dd"; die_if (r <? 0) "unlink dd/dd failed";;
  r ← unlink "dd"; die_if (r <? 0) "unlink dd failed";;
  say "subdir ok";;
  mret buf.

(** The sizes 499, 970, ..., below 12*512. *)
Definition bigwrite (buf : bytes) : prog unit :=
  say "bigwrite test";;
  unlink_ "bigwrite";;
  loop (fun sz =>
    if sz <? 12 * 512 then
      fd ← must_open "bigwrite" (O_CREATE .| O_RDWR) "cannot create bigwrite";
      for_n 2 0 (fun _ =>
        cc ← write fd buf sz;
        when (negb (cc =? sz)) (dief "write(%d) ret %d" [Num sz; Num cc]));;
      close_ fd;;
      unlink_ "bigwrite";;
      mret (inl (sz + 471))
    else mret (inr tt)) 499;;
  say "bigwrite ok".

Fixpoint bigfile_write (fd : Z) (n : nat) (i : Z) (buf : bytes) : prog bytes :=
  match n with
  | O => mret buf
  | S n =>
      let buf := fill buf i 600 in
      r ← write fd buf 600;
      die_if (negb (r =? 600)) "write bigfile failed";;
      bigfile_write fd n (i + 1) buf
  end.

Definition bigfile (buf : bytes) : prog bytes :=
  say "bigfile test";;
  unlink_ "bigfile";;
  fd ← open "bigfile" (O_CREATE .| O_RDWR);
  when (fd <? 0) (printf 1 "cannot create bigfile" [];; exit);;
  buf ← bigfile_write fd 20 0 buf;
  close_ fd;;
  fd ← must_open "bigfile" 0 "cannot open bigfile";
  '(total, buf) ← loop (fun '(i, total, buf) =>
    '(cc, buf) ← read_into buf fd 300;
    die_if (cc <? 0) "read bigfile failed";;
    if cc =? 0 then mret (inr (total, buf))
    else
      die_if (negb (cc =? 300)) "short read bigfile";;
      die_if (negb (schar (at_ buf 0) =? i / 2) || negb (schar (at_ buf 299) =? i / 2)) "read bigfile wrong data";;
      mret (inl (i + 1, total + cc, buf))) (0, 0, buf);
  close_ fd;;
  die_if (negb (total =? 20 * 600)) "read bigfile wrong total";;
  unlink_ "bigfile";;
  say "bigfile test ok";;
  mret buf.

Definition fourteen : prog unit :=
  say "fourteen test";;
  must_zero (mkdir "12345678901234") "mkdir 12345678901234 failed";;
  must_zero (mkdir "12345678901234/123456789012345") "mkdir 12345678901234/123456789012345 failed";;
  fd ← must_open "123456789012345/123456789012345/123456789012345" O_CREATE "create 123456789012345/123456789012345/123456789012345 failed";
  close_ fd;;
  fd ← must_open "12345678901234/12345678901234/12345678901234" 0 "open 12345678901234/12345678901234/12345678901234 failed";
  close_ fd;;
  must_fail (mkdir "12345678901234/12345678901234") "mkdir 12345678901234/12345678901234 succeeded!";;
  must_fail (mkdir "123456789012345/12345678901234") "mkdir 12345678901234/123456789012345 succeeded!";;
  say "fourteen ok".

Definition rmdot : prog unit :=
  say "rmdot test";;
  must_zero (mkdir "dots") "mkdir dots failed";;
  must_zero (chdir "dots") "chdir dots failed";;
  must_fail (unlink ".") "rm . worked!";;
  must_fail (unlink "..") "rm .. worked!";;
  must_zero (chdir "/") "chdir / failed";;
  must_fail (unlink "dots/.") "unlink dots/. worked!";;
  must_fail (unlink "dots/..") "unlink dots/.. worked!";;
  must_zero (unlink "dots") "unlink dots failed!";;
  say "rmdot ok".

Definition dirfile : prog unit :=
  say "dir vs file";;
  fd ← must_open "dirfile" O_CREATE "create dirfile failed";
  close_ fd;;
  must_fail (chdir "dirfile") "chdir dirfile succeeded!";;
  must_neg (open "dirfile/xx" 0) "create dirfile/xx succeeded!";;
  must_neg (open "dirfile/xx" O_CREATE) "create dirfile/xx succeeded!";;
  must_fail (mkdir "dirfile/xx") "mkdir dirfile/xx succeeded!";;
  must_fail (unlink "dirfile/xx") "unlink dirfile/xx succeeded!";;
  must_fail (link "README" "dirfile/xx") "link to dirfile/xx succeeded!";;
  must_zero (unlink "dirfile") "unlink dirfile failed!";;
  must_neg (open "." O_RDWR) "open . for writing succeeded!";;
  fd ← open "." 0;
  r ← write fd "x" 1; die_if (0 <? r) "write . succeeded!";;
  close_ fd;;
  say "dir vs file OK".

Definition iref : prog unit :=
  say "empty file name";;
  for_n 51 0 (fun _ =>
    must_zero (mkdir "irefd") "mkdir irefd failed";;
    must_zero (chdir "irefd") "chdir irefd failed";;
    mkdir [];;
    link "README" [];;
    fd ← open [] O_CREATE;
    when (0 <=? fd) (close_ fd);;
    fd ← open "xx" O_CREATE;
    when (0 <=? fd) (close_ fd);;
    unlink_ "xx");;
  chdir "/";;
  say "empty file name OK".

(** ** Memory *)

(** [forktest], as that of forktest.c but with the library's [printf]. *)
Definition forktest : prog unit :=
  say "fork test";;
  n ← Forktest.forks 0 1000;
  die_if (n =? 1000)%nat "fork claimed to work 1000 times!";;
  for_n n 0 (fun _ =>
    r ← wait;
    die_if (r <? 0) "wait stopped early");;
  r ← wait; die_if (negb (r =? -1)) "wait got too many";;
  say "fork test OK".

Definition BIG : Z := 100 * 1024 * 1024.
Definition NOMEM : Z := 0xffffffff.

(** [sbrk] as a pointer. *)
Definition sbrk_ (n : Z) : prog Z := r ← sbrk n; mret (u32 r).
Definition load (a : Z) : prog Z := call (Load a).
Definition store (a v : Z) : prog unit := call (Store a v).

(** [sbrk] byte by byte, from [a]. *)
Fixpoint sbrk_bytes (n : nat) (i a : Z) : prog Z :=
  match n with
  | O => mret a
  | S n =>
      b ← sbrk_ 1;
      when (negb (b =? a)) (dief "sbrk test failed %d %x %x" [Num i; Num a; Num b]);;
      store b 1;;
      sbrk_bytes n (i + 1) (u32 (b + 1))
  end.

(** Grow to [BIG], give a page back and take it again; [oldbrk] is where the
    program began. *)
Definition sbrk_big (oldbrk : Z) : prog unit :=
  a ← sbrk_ 0;
  p ← sbrk_ (s32 (BIG - a));
  die_if (negb (p =? a)) "sbrk test failed to grow big address space; enough phys mem?";;
  let lastaddr := BIG - 1 in
  store lastaddr 99;;
  a ← sbrk_ 0;
  c ← sbrk_ (-4096);
  die_if (c =? NOMEM) "sbrk could not deallocate";;
  c ← sbrk_ 0;
  when (negb (c =? u32 (a - 4096))) (dief "sbrk deallocation produced wrong address, a %x c %x" [Num a; Num c]);;
  a ← sbrk_ 0;
  c ← sbrk_ 4096;
  bad ← (if negb (c =? a) then mret true else b ← sbrk_ 0; mret (negb (b =? u32 (a + 4096))));
  when bad (dief "sbrk re-allocation failed, a %x c %x" [Num a; Num c]);;
  v ← load lastaddr;
  die_if (v =? 99) "sbrk de-allocation didn't really deallocate";;
  a ← sbrk_ 0;
  b ← sbrk_ 0;
  c ← sbrk_ (s32 (- (b - oldbrk)));
  when (negb (c =? a)) (dief "sbrk downsize failed, a %x c %x" [Num a; Num c]).

(** Children try to read the kernel's memory. *)
Definition sbrk_kernel : prog unit :=
  for_n 40 0 (fun i =>
    let a := KERNBASE + 50000 * i in
    ppid ← getpid;
    pid ← fork;
    die_if (pid <? 0) "fork failed";;
    when (pid =? 0) (
      v ← load a;
      sayf "oops could read %x = %x" [Num a; Num (schar v)];;
      kill ppid;;
      exit);;
    wait_).

(** Children take all the memory and sit around; their pids. *)
Fixpoint sbrk_hogs (fd0 fd1 : Z) (n : nat) : prog (list Z) :=
  match n with
  | O => mret []
  | S n =>
      pid ← fork;
      when (pid =? 0) (
        b ← sbrk_ 0;
        sbrk_ (s32 (BIG - b));;
        write fd1 "x" 1;;
        loop (fun _ : unit => sleep 1000;; mret (inl tt)) tt);;
      when (negb (pid =? -1)) (read fd0 1;; mret tt);;
      pids ← sbrk_hogs fd0 fd1 n;
      mret (pid :: pids)
  end.

Fixpoint kill_all (pids : list Z) : prog unit :=
  match pids with
  | [] => mret tt
  | p :: pids => when (negb (p =? -1)) (kill p;; wait_);; kill_all pids
  end.

Definition sbrktest : prog unit :=
  say "sbrk test";;
  oldbrk ← sbrk_ 0;
  a ← sbrk_ 0;
  a ← sbrk_bytes 5000 0 a;
  pid ← fork;
  die_if (pid <? 0) "sbrk test fork failed";;
  sbrk_ 1;;
  c ← sbrk_ 1;
  die_if (negb (c =? u32 (a + 1))) "sbrk test failed post-fork";;
  when (pid =? 0) exit;;
  wait_;;
  sbrk_big oldbrk;;
  sbrk_kernel;;
  p ← pipe;
  match p with
  | None => die "pipe() failed"
  | Some (fd0, fd1) =>
      pids ← sbrk_hogs fd0 fd1 10;
      c ← sbrk_ 4096;
      kill_all pids;;
      die_if (c =? NOMEM) "failed sbrk leaked memory";;
      b ← sbrk_ 0;
      when (oldbrk <? b) (
        b ← sbrk_ 0;
        sbrk_ (s32 (- (b - oldbrk)));;
        mret tt);;
      say "sbrk test OK"
  end.

(** ** Bad arguments *)

Definition validateint (p : Z) : prog unit := call (Int64 13 p);; mret tt.

Definition validatetest : prog unit :=
  say "validate test";;
  for_n 276 0 (fun i =>
    let p := 4096 * i in
    pid ← fork;
    when (pid =? 0) (
      validateint p;;
      exit);;
    sleep 0;;
    sleep 0;;
    kill pid;;
    wait_;;
    r ← call (LinkAt "nosuchfile" p); die_if (negb (r =? -1)) "link should not succeed");;
  say "validate ok".

(** [uninit] is in the part of the program that starts out zero. *)
Definition bsstest (uninit : bytes) : prog unit :=
  say "bss test";;
  die_if (negb (forallb (fun c => c =? 0) uninit)) "bss test failed";;
  say "bss test ok".

Definition bigarg : bytes := bytes_of "bigargs test: failed" ++ [NL] ++ replicate 199 32.

Definition bigargtest : prog unit :=
  unlink_ "bigarg-ok";;
  pid ← fork;
  (if pid =? 0 then
     say "bigarg test";;
     exec "echo" (replicate (MAXARG - 1) bigarg);;
     say "bigarg test ok";;
     fd ← open "bigarg-ok" O_CREATE;
     close_ fd;;
     exit
   else die_if (pid <? 0) "bigargtest: fork failed");;
  wait_;;
  fd ← must_open "bigarg-ok" 0 "bigarg test failed!";
  close_ fd;;
  unlink_ "bigarg-ok".

Definition fsfull_name (n : Z) : bytes := [102; 48 + n / 1000; 48 + n mod 1000 / 100; 48 + n mod 100 / 10; 48 + n mod 10].

(** Files until no more bytes fit; the number of the last. *)
Definition fsfull_fill (buf : bytes) : prog Z :=
  loop (fun nfiles =>
    let name := fsfull_name nfiles in
    sayf "writing %s" [Str name];;
    fd ← open name (O_CREATE .| O_RDWR);
    if fd <? 0 then
      sayf "open %s failed" [Str name];;
      mret (inr nfiles)
    else
      total ← loop (fun total =>
        cc ← write fd buf 512;
        if cc <? 512 then mret (inr total) else mret (inl (total + cc))) 0;
      sayf "wrote %d bytes" [Num total];;
      close_ fd;;
      if total =? 0 then mret (inr nfiles) else mret (inl (nfiles + 1))) 0.

Definition fsfull (buf : bytes) : prog unit :=
  say "fsfull test";;
  nfiles ← fsfull_fill buf;
  loop (fun n => if 0 <=? n then unlink_ (fsfull_name n);; mret (inl (n - 1)) else mret (inr tt)) nfiles;;
  say "fsfull test finished".

(** [rand], on [randstate] *)
Definition rand (randstate : Z) : Z := u32 (randstate * 1664525 + 1013904223).

(** ** All tests *)

Definition main (malloc : Z -> prog Z) (free : Z -> prog unit) (load_ptr : Z -> prog Z) (store_ptr : Z -> Z -> prog unit)
    (junk : Z * Z) (de0 : bytes) : prog unit :=
  let buf := replicate 8192 0 in
  say "usertests starting";;
  r ← open "usertests.ran" 0;
  die_if (0 <=? r) "already ran user tests -- rebuild fs.img";;
  fd ← open "usertests.ran" O_CREATE;
  close_ fd;;
  createdelete;;
  linkunlink;;
  concreate de0;;
  buf ← fourfiles buf;
  sharedfd;;
  bigargtest;;
  bigwrite buf;;
  bigargtest;;
  bsstest (replicate 10000 0);;
  sbrktest;;
  validatetest;;
  opentest;;
  buf ← writetest buf;
  buf ← writetest1 buf;
  createtest;;
  openiputtest;;
  exitiputtest;;
  iputtest;;
  mem malloc free load_ptr store_ptr;;
  buf ← pipe1 buf;
  buf ← preempt junk buf;
  exitwait;;
  rmdot;;
  fourteen;;
  buf ← bigfile buf;
  buf ← subdir buf;
  buf ← linktest buf;
  buf ← unlinkread buf;
  dirfile;;
  iref;;
  forktest;;
  bigdir;;
  exectest;;
  exit.
End Usertests.
