(* ===== verification/Usys.v ===== *)
(** * User programs on the kernel

    A system call of a program is what the stub of usys.S does with it: the
    arguments are on the stack of the process, the number in %eax, and the trap
    gate leads to [trap] of Kern.v.  [run] lets a program run on the model of
    the whole kernel: traps, arguments in user memory, page tables, files,
    directories, inodes, the log and a disk. *)

From ITree Require Import Core.ITreeDefinition.
From S2P Require Import Prelude Memory Layout Cstring Spinlock Kalloc Vm Proc Pipe Block Log Fs File Kern Ulib Printf User.
Import User.

(** ** syscall.h *)

Definition SYS_fork : Z := 1.
Definition SYS_exit : Z := 2.
Definition SYS_wait : Z := 3.
Definition SYS_pipe : Z := 4.
Definition SYS_read : Z := 5.
Definition SYS_kill : Z := 6.
Definition SYS_exec : Z := 7.
Definition SYS_fstat : Z := 8.
Definition SYS_chdir : Z := 9.
Definition SYS_dup : Z := 10.
Definition SYS_getpid : Z := 11.
Definition SYS_sbrk : Z := 12.
Definition SYS_sleep : Z := 13.
Definition SYS_uptime : Z := 14.
Definition SYS_open : Z := 15.
Definition SYS_write : Z := 16.
Definition SYS_mknod : Z := 17.
Definition SYS_unlink : Z := 18.
Definition SYS_link : Z := 19.
Definition SYS_mkdir : Z := 20.
Definition SYS_close : Z := 21.
Definition SYS_getpcount : Z := 22.

Section usys.
Context {S : Type} `{D : BlockDev S}.
Context (kend kdata trapret forkret_pc : Z) (dsw : Fs.devsw (S := S)) (h : Kern.handlers (S := S)) (junk : bytes).
#[local] Abbreviation kern := (Kern.kern (S := S)).

(** Where the program keeps its stack, its two strings, an [argv] and its buffer. *)
Definition STACK : Z := 16.
Definition STR1 : Z := 256.
Definition STR2 : Z := 768.
Definition ARGV : Z := 1280.
Definition BUF : Z := 4096.

(** A stub of usys.S, called with [args]: [None] when it does not come back. *)
Definition stub (num : Z) (args : list Z) : M kern (option Z) :=
  Kern.ust STACK (mjoin (le_enc 4 <$> (0 :: (u32 <$> args))));;
  Kern.set_tf_word Kern.TF_EAX num;;
  Kern.set_tf_word Kern.TF_ESP STACK;;
  p ← Kern.myproc;
  r ← Kern.trap kend kdata trapret forkret_pc dsw h junk 0 (tf p) Kern.T_SYSCALL 0x1b;
  match r with
  | Kern.TrapRet => v ← Kern.tf_word Kern.TF_EAX; mret (Some (s32 v))
  | _ => mret None
  end.

(** A call with one path, and one with two. *)
Definition stub1 (num : Z) (p : bytes) (args : list Z) : M kern (option Z) :=
  Kern.ust STR1 (p ++ [0]);;
  stub num (STR1 :: args).
Definition stub2 (num : Z) (p q : bytes) : M kern (option Z) :=
  Kern.ust STR1 (p ++ [0]);;
  Kern.ust STR2 (q ++ [0]);;
  stub num [STR1; STR2].

(** [argv] in memory: the strings behind the pointers. *)
Fixpoint put_argv (a p : Z) (argv : list bytes) : M kern unit :=
  match argv with
  | [] => Kern.ust a (le_enc 4 0)
  | s :: argv =>
      Kern.ust a (le_enc 4 p);;
      Kern.ust p (s ++ [0]);;
      put_argv (a + 4) (p + Z.of_nat (length s) + 1) argv
  end.

Definition ustat_at (a : Z) : M kern ustat :=
  b ← Kern.uld a 20;
  mret (MkUstat (half 0 b) (word 4 b) (word 8 b) (half 12 b) (word 16 b)).

(** What the kernel answers to a call. *)
Definition syscall {X} (e : sysE X) : M kern (option X) :=
  match e with
  | Fork => stub SYS_fork []
  | Exit => stub SYS_exit [];; mret None
  | Wait => stub SYS_wait []
  | User.Pipe =>
      r ← stub SYS_pipe [BUF];
      match r with
      | Some r => if r =? 0 then b ← Kern.uld BUF 8; mret (Some (Some (word 0 b, word 4 b))) else mret (Some None)
      | None => mret None
      end
  | Write fd b n => Kern.ust BUF (take (Z.to_nat n) b);; stub SYS_write [fd; BUF; n]
  | Read fd n =>
      r ← stub SYS_read [fd; BUF; n];
      match r with
      | Some r => b ← Kern.uld BUF (Z.to_nat r); mret (Some (r, b))
      | None => mret None
      end
  | Close fd => stub SYS_close [fd]
  | Kill pid => stub SYS_kill [pid]
  | Exec p argv => put_argv ARGV (ARGV + 4 * (Z.of_nat (length argv) + 1)) argv;; stub1 SYS_exec p [ARGV]
  | Open p m => stub1 SYS_open p [m]
  | Mknod p mj mn => stub1 SYS_mknod p [mj; mn]
  | Unlink p => stub1 SYS_unlink p []
  | Fstat fd =>
      r ← stub SYS_fstat [fd; BUF];
      match r with
      | Some r => if r <? 0 then mret (Some None) else st ← ustat_at BUF; mret (Some (Some st))
      | None => mret None
      end
  | Link p q => stub2 SYS_link p q
  | Mkdir p => stub1 SYS_mkdir p []
  | Chdir p => stub1 SYS_chdir p []
  | Dup fd => stub SYS_dup [fd]
  | Getpid => stub SYS_getpid []
  | Sbrk n => stub SYS_sbrk [n]
  | User.Sleep n => stub SYS_sleep [n]
  | Uptime => stub SYS_uptime []
  | Getpcount => stub SYS_getpcount []
  | Int64 num esp =>
      Kern.set_tf_word Kern.TF_EAX num;;
      Kern.set_tf_word Kern.TF_ESP esp;;
      p ← Kern.myproc;
      r ← Kern.trap kend kdata trapret forkret_pc dsw h junk 0 (tf p) Kern.T_SYSCALL 0x1b;
      match r with
      | Kern.TrapRet => v ← Kern.tf_word Kern.TF_EAX; mret (Some (s32 v))
      | _ => mret None
      end
  | LinkAt p q => stub1 SYS_link p [q]
  | Load a => v ← Kern.uld8 a; mret (Some v)
  | Store a v => Kern.ust8 a v;; mret (Some tt)
  | Trap => mret None
  end.

(** What a call writes to the standard output. *)
Definition written {X} (e : sysE X) : bytes :=
  match e with
  | Write fd b n => if fd =? 1 then take (Z.to_nat n) b else []
  | _ => []
  end.

(** The program until it returns, ends or has to wait: its result and its
    output. *)
Fixpoint run {R} (fuel : nat) (t : prog R) (out : bytes) : M kern (option R * bytes) :=
  match fuel with
  | O => nofuel
  | Datatypes.S fuel =>
      match observe t with
      | RetF r => mret (Some r, out)
      | TauF t => run fuel t out
      | VisF e k =>
          x ← syscall e;
          let out := out ++ written e in
          match x with
          | Some x => run fuel (k x) out
          | None => mret (None, out)
          end
      end
  end.
End usys.
