(* ===== verification/UsysSpec.v ===== *)
(** * Programs on the kernel

    No program, whatever it does, breaks the reference counts of the open
    files.  As a check of the model, tests of usertests.c are run on it, with a
    file system made by the model of mkfs. *)

From ITree Require Import Core.ITreeDefinition.
From S2P Require Import Prelude Memory Layout Cstring Spinlock Kalloc Vm Proc Pipe Block Log Fs FsTx FsSpec Mkfs File Kern KernRun KernRefs Ulib Printf User Uprogs Usertests Usys.
Import User.

(** ** Any program *)

Section programs.
Context {S : Type} `{D : BlockDev S}.
Context (kend kdata trapret forkret_pc : Z) (dsw : Fs.devsw (S := S)) (h : Kern.handlers (S := S)) (junk : bytes) (e : nat -> Z).
#[local] Abbreviation kern := (Kern.kern (S := S)).
Context (H1 : keep (Kern.ideintr h)) (H2 : keep (Kern.kbdintr h)) (H3 : keep (Kern.uartintr h)).

(** Code of a program that comes back keeps the counts and leaves a process;
    where it waits the counts are those of a call that waits. *)
Definition back {A} (m : M kern (option A)) : Prop := hoare (rdy e) m (fun r s => inv e s /\ (r <> None -> live s)) /\ naps e (rdy e) m.

Lemma back_keep {A B} (m : M kern A) (f : A -> M kern (option B)) : keep m -> (forall a, back (f a)) -> back (m ≫= f).
Proof.
  intros Hm Hf. split; [eapply hoare_step; [apply rdy_stable|done|apply Hf]|eapply naps_step; [apply rdy_stable|apply ready_rdy|done|apply Hf]].
Qed.

(** What follows a result. *)
Lemma naps_live {A B} (m : M kern A) (f : A -> M kern B) (Q : A -> Prop) : hoare (rdy e) m (fun r s => inv e s /\ (Q r -> live s)) -> naps e (rdy e) m ->
  (forall a, Q a /\ naps e (rdy e) (f a) \/ awake (f a)) -> naps e (rdy e) (m ≫= f).
Proof.
  intros Hm Hn Hf. eapply naps_bind; [exact Hn|exact Hm|]. intros a. destruct (Hf a) as [[HQ Ha]|Ha]; [|by apply naps_awake].
  eapply naps_pre, Ha. intros s [HI HL]. split; [done|by apply HL].
Qed.

Lemma back_bind {A B} (m : M kern (option A)) (f : A -> M kern (option B)) :
  back m -> (forall a, back (f a)) -> back (r ← m; match r with Some r => f r | None => mret None end).
Proof.
  intros [Hm Hn] Hf. split.
  - intros s b s' Hr H. apply bind_ok in H as (r & s1 & Hm1 & H). destruct (Hm _ _ _ Hr Hm1) as [HI HL]. destruct r as [r|]; [|by injection H as <- <-].
    eapply Hf, H. split; [done|by apply HL].
  - eapply naps_live; [exact Hm|exact Hn|]. intros [r|]; [left; split; [done|apply Hf]|right; awake].
Qed.

Lemma back_ret {A} (r : option A) : back (mret r).
Proof. split; [apply hoare_ret; by intros s [? ?]|apply naps_awake; awake]. Qed.

Lemma back_last {A} (m : M kern A) : keep m -> back (a ← m; mret (Some a)).
Proof. intros Hm. apply back_keep; [done|]. intros a. apply back_ret. Qed.

Lemma back_trap tfp (c : Z) : back (r ← Kern.trap kend kdata trapret forkret_pc dsw h junk 0 tfp Kern.T_SYSCALL c;
  match r with Kern.TrapRet => v ← Kern.tf_word Kern.TF_EAX; mret (Some (s32 v)) | _ => mret None end).
Proof.
  pose proof (hoare_trap kend kdata trapret forkret_pc dsw e h junk 0 tfp Kern.T_SYSCALL c H1 H2 H3) as Ht.
  pose proof (naps_trap kend kdata trapret forkret_pc dsw e h junk 0 tfp Kern.T_SYSCALL c H1 H2 H3) as Hn. split.
  - intros s b s' Hr H. apply bind_ok in H as (r & s1 & Hs & H). destruct (Ht _ _ _ Hr Hs) as [HI HL].
    destruct r; try (by injection H as <- <-). apply bind_ok in H as (v & s2 & Hv & [= <- <-]). destruct (rdy_keep e _ _ _ _ (keep_tf_word _) (conj HI (HL eq_refl)) Hv). by split.
  - eapply naps_live; [exact Ht|exact Hn|]. intros [| | |]; [left; split; [done|]|right; awake..]. apply naps_tail; [|intros v; awake].
    apply naps_keep; [apply rdy_stable|apply ready_rdy|apply keep_tf_word].
Qed.

Lemma back_stub num args : back (stub kend kdata trapret forkret_pc dsw h junk num args).
Proof.
  unfold stub. apply back_keep; [apply keep_ust|intros _]. do 2 (apply back_keep; [apply keep_set_tf_word|intros _]). apply back_keep; [apply keep_myproc|intros p]. apply back_trap.
Qed.

Lemma back_stub1 num p args : back (stub1 kend kdata trapret forkret_pc dsw h junk num p args).
Proof. apply back_keep; [apply keep_ust|intros _]. apply back_stub. Qed.

Lemma keep_put_argv argv : forall a p, keep (put_argv (S := S) a p argv).
Proof. induction argv as [|s argv IH]; intros a p; cbn [put_argv]; [apply keep_ust|]. do 2 (apply keep_bind; [apply keep_ust|intros _]). apply IH. Qed.

Lemma back_syscall {X} (ev : sysE X) : back (syscall kend kdata trapret forkret_pc dsw h junk ev).
Proof.
  destruct ev; cbn [syscall]; try apply back_stub; try apply back_stub1; try apply back_ret.
  - destruct (back_stub SYS_exit []) as [Hm Hn]. split; [eapply hoare_bind; [exact Hm|]; intros r; apply hoare_ret; by intros s [? _]|].
    apply naps_tail; [exact Hn|intros r; awake].
  - apply (back_bind (stub kend kdata trapret forkret_pc dsw h junk SYS_pipe [BUF])
      (fun r => if r =? 0 then b ← Kern.uld BUF 8; mret (Some (Some (word 0 b, word 4 b))) else mret (Some None))); [apply back_stub|].
    intros r. case_match; [|apply back_ret]. apply back_keep; [apply keep_uld|]. intros b. apply back_ret.
  - apply back_keep; [apply keep_ust|intros _]. apply back_stub.
  - apply (back_bind (stub kend kdata trapret forkret_pc dsw h junk SYS_read [fd; BUF; n]) (fun r => b ← Kern.uld BUF (Z.to_nat r); mret (Some (r, b)))); [apply back_stub|].
    intros r. apply back_keep; [apply keep_uld|]. intros b. apply back_ret.
  - apply back_keep; [apply keep_put_argv|intros _]. apply back_stub1.
  - apply (back_bind (stub kend kdata trapret forkret_pc dsw h junk SYS_fstat [fd; BUF])
      (fun r => if r <? 0 then mret (Some None) else st ← ustat_at BUF; mret (Some (Some st)))); [apply back_stub|].
    intros r. case_match; [apply back_ret|]. apply back_keep; [|intros st; apply back_ret]. apply keep_bind; [apply keep_uld|intros b]. apply keep_pure. by intros ? ? <-.
  - do 2 (apply back_keep; [apply keep_ust|intros _]). apply back_stub.
  - do 2 (apply back_keep; [apply keep_set_tf_word|intros _]). apply back_keep; [apply keep_myproc|intros p]. apply back_trap.
  - apply back_last, keep_uld8.
  - apply back_keep; [apply keep_ust8|intros _]. apply back_ret.
Qed.

Lemma run_keeps {R} fuel : forall (t : prog R) out, hoare (rdy e) (run kend kdata trapret forkret_pc dsw h junk fuel t out) (fun r s => inv e s /\ (r.1 <> None -> live s)).
Proof.
  induction fuel as [|fuel IH]; intros t out; cbn [run]; [by apply hoare_none|]. destruct (observe t) as [r|t'|X ev k].
  - apply hoare_ret. by intros s [? ?].
  - apply IH.
  - intros s b s' Hr H. apply bind_ok in H as (x & s1 & Hs & H). destruct (proj1 (back_syscall ev) _ _ _ Hr Hs) as [HI HL]. destruct x as [x|]; [|by injection H as <- <-].
    eapply IH, H. split; [done|by apply HL].
Qed.

Lemma run_naps {R} fuel : forall (t : prog R) out, naps e (rdy e) (run kend kdata trapret forkret_pc dsw h junk fuel t out).
Proof.
  induction fuel as [|fuel IH]; intros t out; cbn [run]; [by intros s c s'|]. destruct (observe t) as [r|t'|X ev k]; [apply naps_awake; awake|apply IH|].
  destruct (back_syscall ev) as [Hm Hn]. eapply naps_live; [exact Hm|exact Hn|]. intros [x|]; [left; split; [done|apply IH]|right; awake].
Qed.
End programs.

(** C8: traps keep the reference counts of open files.  When every entry of the
    file table has as many references as descriptors name it, and [e f] more for
    the calls that other processes wait in, then so it is after every trap,
    system call or not and on failing paths too, that returns, ends in the
    scheduler or kills its process; dead processes have no open descriptor,
    and, as long as no [e f] is negative, no entry that a descriptor names is
    free.  Where the trap has to wait for the log, an inode, a buffer or a
    pipe, the counts are off by at most one reference: one the waiting call
    holds outside the descriptors, or the one that [exit] has given up and
    whose descriptor it clears when it goes on.  The same holds for [userinit]
    and for the runs of any program.  The handlers of the disk, the keyboard
    and the serial port are parameters that are assumed to keep descriptors
    and counts; what a call does after it has waited is not covered. *)
Theorem file_references_kept {S} `{BlockDev S} kend kdata trapret forkret_pc dsw h junk e (s : Kern.kern (S := S)) :
  keep (Kern.ideintr h) -> keep (Kern.kbdintr h) -> keep (Kern.uartintr h) -> inv e s -> live s ->
  (forall c tfp n cs,
     (forall r s', Kern.trap kend kdata trapret forkret_pc dsw h junk c tfp n cs s = Ok r s' ->
        inv e s' /\ (r = Kern.TrapRet -> live s') /\
        ((forall f, 0 <= e f) -> forall i p k f, Proc.procs (Kern.kp s') !! i = Some p -> ofile p !! k = Some (Some f) -> 1 <= f_ref (File.ftab (Kern.kf s') f))) /\
     (forall ch s', Kern.trap kend kdata trapret forkret_pc dsw h junk c tfp n cs s = Prelude.Sleep ch s' -> asleep e s')) /\
  (forall ic n,
     (forall s', Kern.userinit kdata trapret forkret_pc dsw ic n s = Ok tt s' -> inv e s' /\ live s') /\
     (forall ch s', Kern.userinit kdata trapret forkret_pc dsw ic n s = Prelude.Sleep ch s' -> asleep e s')) /\
  (forall R (t : prog R) fuel out,
     (forall r s', run kend kdata trapret forkret_pc dsw h junk fuel t out s = Ok r s' -> inv e s' /\ (r.1 <> None -> live s')) /\
     (forall ch s', run kend kdata trapret forkret_pc dsw h junk fuel t out s = Prelude.Sleep ch s' -> asleep e s')).
Proof.
  intros H1 H2 H3 HI HL. split; [|split].
  - intros c tfp n cs. split; [|intros ch s' E; by eapply naps_trap, E]. intros r s' E.
    destruct (hoare_trap _ _ _ _ _ e h junk c tfp n cs H1 H2 H3 _ _ _ (conj HI HL) E) as [HI' HL']. split_and!; [done..|].
    intros He i p k f Hp Hk. rewrite (i_refs _ _ HI'). pose proof (named_ge _ _ _ _ _ Hp Hk). specialize (He f). lia.
  - intros ic n. split; [intros s' E; exact (hoare_userinit _ _ _ _ _ _ _ _ _ _ (conj HI HL) E)|intros ch s' E; by eapply naps_userinit, E].
  - intros R t fuel out. split; intros r s' E; [exact (run_keeps kend kdata trapret forkret_pc dsw h junk e H1 H2 H3 fuel t out _ _ _ (conj HI HL) E)|].
    exact (run_naps kend kdata trapret forkret_pc dsw h junk e H1 H2 H3 fuel t out _ _ _ (conj HI HL) E).
Qed.

Lemma file_references_kept_witness : exists s', RefsEx.run = Ok Kern.TrapRet s' /\ f_ref (File.ftab (Kern.kf s') 0%nat) = 2 /\ inv (fun _ => 0) s' /\ live s'.
Proof.
  destruct (ok_post RefsEx.run (fun r s => r = Kern.TrapRet /\ f_ref (File.ftab (Kern.kf s) 0%nat) = 2)) as (r & s' & E & -> & H2); [vm_compute; by split|].
  destruct (file_references_kept 0x80108000 0x80106000 0 0 FsEx.nodev RefsEx.hs [] (fun _ => 0) RefsEx.st) as [HT _];
    [apply keep_p, tkeep_wakeup|apply keep_pure; by intros ? ? <-|apply keep_pure; by intros ? ? <-|apply RefsEx.st_inv|apply RefsEx.st_live|].
  destruct (proj1 (HT _ _ _ _) _ _ E) as (HI & HL & _). exists s'. split_and!; [exact E|exact H2|exact HI|exact (HL eq_refl)].
Defined.

(** ** A machine *)

Module Boot.

(** The disk that mkfs makes of two files. *)
Definition readme : bytes := bytes_of "xv6 is a re-implementation of Dennis Ritchie's and Ken Thompson's Unix" ++ [NL].
Definition files (name : bytes) : option (list bytes) := if bool_decide (name = bytes_of "README") then Some [readme] else Some [].
Definition empty : Mkfs.mkfs := Mkfs.MkMkfs ∅ 0 FSSIZE (MkSb 0 0 0 0 0 0 0) 1 0.
Definition disk : gmap Z bytes :=
  Mkfs.image (match Mkfs.main files true [bytes_of "fs.img"; bytes_of "README"; bytes_of "_echo"] empty with Ok _ s => s | _ => empty end).

(** A process with four pages of memory; it has just been given the CPU. *)
Definition mm : mem :=
  foldl (fun m i => wr32 m (0x80201000 + 4 * i) (0x202007 + 4096 * i)) (wr32 ∅ 0x80200000 0x201007) (seqZ 0 4).
Definition me : proc :=
  MkProc (4 * PGSIZE) 0x80200000 0x80110000 RUNNING 1 None 0x80110fb4 0 None false (replicate NOFILE None) None (replicate 16 0).
Definition init : proc := set_state SLEEPING proc0.
Definition blank : inode := MkInode 0 0 0 0 0 0 0 0 0 [].
Definition fs0 : Fs.fs BlockSpec.st :=
  Fs.MkFs (Log.MkSt Log.log0 (BlockSpec.MkBs disk disk ∅ ∅ FSSIZE [])) (MkSb 0 0 0 0 0 0 0) false (fun _ => blank) [].
Definition st : Kern.kern (S := BlockSpec.st) :=
  Kern.MkKern (Proc.MkPt [me; init] true 2 (Some 1%nat) (Cli.MkCpu 1 true false) (Some 0%nat))
    (File.MkFstate (fun _ => file0) false ∅ fs0 (Kalloc.MkKst true false 0 mm)) 0 false true.

(** The console takes what is written to it. *)
Definition con : Fs.devsw (S := BlockSpec.st) := Fs.MkDevsw (fun _ => None) (fun mj => if mj =? 1 then Some (fun _ b n => mret n) else None).
Definition hs : Kern.handlers (S := BlockSpec.st) := Kern.MkHandlers (mret tt) (mret tt) (mret tt).
Definition go {R} (t : prog R) : M (Kern.kern (S := BlockSpec.st)) (option R * bytes) :=
  run 0x80108000 0x80106000 0 0 con hs [] (Z.to_nat 10000) t [].

(** The current directory of [userinit], [forkret], the beginning of init, and
    then the program. *)
Definition start {R} (t : prog R) : outcome (Kern.kern (S := BlockSpec.st)) (option R * bytes) :=
  (c ← Kern.on_fs (Fs.namei con 0 Kern.root_path);
   Kern.on_p (Proc.pupd 0 (set_cwd c));;
   Kern.forkret;;
   go Init.stdio;;
   go t) st.

(** A run to the end of a program, or to [exit], that writes [text]. *)
Definition wrote {K R} (ends : bool) (text : bytes) (o : outcome K (option R * bytes)) : bool :=
  match o with
  | Ok r _ => bool_decide (r.2 = text) && Bool.eqb ends (match r.1 with Some _ => true | None => false end)
  | _ => false
  end.

Lemma wrote_ok {K R} ends text (o : outcome K (option R * bytes)) : wrote ends text o = true -> exists r s', o = Ok (r, text) s' /\ (ends = true <-> r <> None).
Proof.
  destruct o as [[r out] s'| | | |]; try done. intros [H1%bool_decide_eq_true H2%Bool.eqb_prop]%andb_prop. cbn in *. subst. exists r, s'. split; [done|]. by destruct r.
Qed.

Definition buf : bytes := replicate (Z.to_nat 8192) 0.
Definition lines (l : list string) : bytes := mjoin ((fun s => bytes_of s ++ [NL]) <$> l).

(** Tests of usertests.c that need one process, and programs, with what they
    write and whether they return or call [exit]. *)
Definition sessions : list (prog unit * bool * bytes) :=
  [ (Usertests.opentest, true, lines ["open test"; "open test ok"]);
    (Usertests.iputtest, true, lines ["iput test"; "iput test ok"]);
    (Usertests.dirtest, true, lines ["mkdir test"; "mkdir test ok"]);
    (Usertests.unlinkread buf;; mret tt, true, lines ["unlinkread test"; "unlinkread ok"]);
    (Usertests.linktest buf;; mret tt, true, lines ["linktest"; "linktest ok"]);
    (Usertests.subdir buf;; mret tt, true, lines ["subdir test"; "subdir ok"]);
    (Usertests.fourteen, true, lines ["fourteen test"; "fourteen ok"]);
    (Usertests.rmdot, true, lines ["rmdot test"; "rmdot ok"]);
    (Usertests.dirfile, true, lines ["dir vs file"; "dir vs file OK"]);
    (Cat.main [bytes_of "README"; bytes_of "nofile"], false, readme ++ lines ["cat: cannot open nofile"]);
    (Wc.main [bytes_of "README"], false, lines ["1 11 71 README"]);
    (Ls.main [], false, lines [".              1 1 512"; "..             1 1 512"; "README         2 2 71"; "echo           2 3 0"; "console        3 4 0"]) ].
End Boot.

(** A run of the model: the tests of usertests.c succeed, and cat, wc and ls
    write what they should. *)
Example usertests_run : Forall (fun '(t, ends, text) => exists r s', Boot.start t = Ok (r, text) s' /\ (ends = true <-> r <> None)) Boot.sessions.
Proof.
  assert (forallb (fun '(t, ends, text) => Boot.wrote ends text (Boot.start t)) Boot.sessions = true) as H by (vm_compute; reflexivity).
  apply Forall_forall. intros [[t ends] text] Hin. exact (Boot.wrote_ok _ _ _ (proj1 (forallb_forall _ _) H _ (proj1 (list_elem_of_In _ _) Hin))).
Qed.
