(* ===== verification/Umalloc.v ===== *)
(** * umalloc.c: the memory allocator of user programs

    Kernighan and Ritchie's allocator on the memory of the process.  The free
    blocks are a circular list in address order through the headers of the
    blocks themselves, starting from the static header [base]; [sbrk] is the
    system call, which the kernel may refuse. *)

From S2P Require Import Prelude Memory.

Module Umalloc.

(** [sizeof(Header)], and the two fields of a header. *)
Abbreviation HDR := 8.
Definition ptr (m : mem) (p : Z) : Z := rd32 m p.
Definition size (m : mem) (p : Z) : Z := rd32 m (p + 4).
Definition set_ptr (p v : Z) (m : mem) : mem := wr32 m p v.
Definition set_size (p v : Z) (m : mem) : mem := wr32 m (p + 4) v.

(** The memory of the process, [freep], and the end of its memory. *)
Record heap := MkHeap { hmem : mem; freep : Z; brk : Z }.

Definition upd (f : mem -> mem) : M heap unit := modify (fun h => MkHeap (f (hmem h)) (freep h) (brk h)).
Definition set_freep (p : Z) : M heap unit := modify (fun h => MkHeap (hmem h) p (brk h)).

Section umalloc.
(** The address of the static [base], and whether the kernel lets a process
    that ends at [brk] grow by [n]. *)
Context (base : Z) (grow : Z -> Z -> bool).

Definition sbrk (n : Z) : M heap Z :=
  h ← get;
  if grow (brk h) n then
    modify (fun h => MkHeap (hmem h) (freep h) (u32 (brk h + n)));;
    mret (brk h)
  else mret (2 ^ 32 - 1).

(** The search of [free]: the block after which [bp] belongs. *)
Fixpoint free_search (fuel : nat) (m : mem) (bp p : Z) : option Z :=
  match fuel with
  | O => None
  | S k =>
      let q := ptr m p in
      if (p <? bp) && (bp <? q) then Some p
      else if (q <=? p) && ((p <? bp) || (bp <? q)) then Some p
      else free_search k m bp q
  end.

Definition free (fuel : nat) (ap : Z) : M heap unit :=
  let bp := u32 (ap - HDR) in
  h ← get;
  match free_search fuel (hmem h) bp (freep h) with
  | None => nofuel
  | Some p =>
      m ← gets hmem;
      (if u32 (bp + size m bp * HDR) =? ptr m p then
         upd (set_size bp (u32 (size m bp + size m (ptr m p))));;
         m ← gets hmem;
         upd (set_ptr bp (ptr m (ptr m p)))
       else upd (set_ptr bp (ptr m p)));;
      m ← gets hmem;
      (if u32 (p + size m p * HDR) =? bp then
         upd (set_size p (u32 (size m p + size m bp)));;
         m ← gets hmem;
         upd (set_ptr p (ptr m bp))
       else upd (set_ptr p bp));;
      set_freep p
  end.

Definition morecore (fuel : nat) (nu : Z) : M heap Z :=
  let nu := if nu <? 4096 then 4096 else nu in
  p ← sbrk (s32 (nu * HDR));
  if p =? 2 ^ 32 - 1 then mret 0
  else
    upd (set_size p nu);;
    free fuel (u32 (p + HDR));;
    gets freep.

(** [malloc] takes the block it wants from the node [p], which is large
    enough: the whole node, or the end of it. *)
Definition malloc_take (nunits prevp p : Z) : M heap Z :=
  m ← gets hmem;
  p ← (if size m p =? nunits then
         upd (set_ptr prevp (ptr m p));;
         mret p
       else
         upd (set_size p (u32 (size m p - nunits)));;
         m ← gets hmem;
         let p := u32 (p + size m p * HDR) in
         upd (set_size p nunits);;
         mret p);
  set_freep prevp;;
  mret (u32 (p + HDR)).

(** The loop of [malloc]. *)
Fixpoint malloc_loop (fuel : nat) (nunits prevp p : Z) : M heap Z :=
  match fuel with
  | O => nofuel
  | S k =>
      m ← gets hmem;
      if nunits <=? size m p then malloc_take nunits prevp p
      else
        h ← get;
        if p =? freep h then
          p ← morecore fuel nunits;
          if p =? 0 then mret 0
          else
            m ← gets hmem;
            malloc_loop k nunits p (ptr m p)
        else malloc_loop k nunits p (ptr m p)
  end.

Definition malloc (fuel : nat) (nbytes : Z) : M heap Z :=
  let nunits := u32 (nbytes + HDR - 1) / HDR + 1 in
  h ← get;
  when (freep h =? 0) (
    set_freep base;;
    upd (set_ptr base base);;
    upd (set_size base 0));;
  h ← get;
  malloc_loop fuel nunits (freep h) (ptr (hmem h) (freep h)).

End umalloc.
End Umalloc.
