(* ===== verification/UmallocSpec.v ===== *)
(** * The user memory allocator is correct

    The circular list of umalloc.c holds the free blocks in address order,
    apart from each other.  [free] adds a block to the free memory, joined with
    its neighbours; [malloc] takes one from it or from new memory; neither
    touches memory that is not free. *)

From S2P Require Import Prelude Memory Umalloc.
Import Umalloc.

(** ** The free list *)

(** A node is the address of a header and its size in units of 8 bytes. *)
Definition next_of (N : list (Z * Z)) (d : Z) : Z := match N with [] => d | (a, _) :: _ => a end.

(** Consecutive nodes are linked, and the last to [d]. *)
Fixpoint chain (m : mem) (N : list (Z * Z)) (d : Z) : Prop :=
  match N with
  | [] => True
  | (a, s) :: N' => ptr m a = next_of N' d /\ size m a = s /\ chain m N' d
  end.

(** The end of a node; the static header has size 0 and room for itself. *)
Definition fin (a s : Z) : Z := if s =? 0 then a + 7 else a + 8 * s.

(** The nodes are in order between [lo] and [hi], with a gap after each. *)
Fixpoint ordered (lo : Z) (N : list (Z * Z)) (hi : Z) : Prop :=
  match N with
  | [] => lo <= hi
  | (a, s) :: N' => lo < a /\ 0 <= s /\ ordered (fin a s) N' hi
  end.

Fixpoint end_of (lo : Z) (N : list (Z * Z)) : Z :=
  match N with [] => lo | (a, s) :: N' => end_of (fin a s) N' end.

(** Free memory. *)
Definition covered (N : list (Z * Z)) (x : Z) : Prop := exists a s, (a, s) ∈ N /\ a <= x < a + 8 * s.

Lemma fin_pos a s : 1 <= s -> fin a s = a + 8 * s.
Proof. unfold fin. destruct (Z.eqb_spec s 0); lia. Qed.

Lemma fin_lo a s : 0 <= s -> a + 7 <= fin a s /\ a + 8 * s <= Z.max (fin a s) (a + 7).
Proof. unfold fin. destruct (Z.eqb_spec s 0); lia. Qed.

Lemma next_app N1 N2 d : next_of (N1 ++ N2) d = next_of N1 (next_of N2 d).
Proof. by destruct N1 as [|[]]. Qed.

Lemma chain_app m N1 N2 d : chain m (N1 ++ N2) d <-> chain m N1 (next_of N2 d) /\ chain m N2 d.
Proof.
  induction N1 as [|[a s] N1 IH]; cbn [app chain]; [tauto|]. rewrite IH, next_app. tauto.
Qed.

Lemma ordered_app lo N1 N2 hi : ordered lo (N1 ++ N2) hi <-> ordered lo N1 (end_of lo N1) /\ ordered (end_of lo N1) N2 hi.
Proof.
  revert lo. induction N1 as [|[a s] N1 IH]; intros lo; cbn [app ordered end_of]; [split; [split; [lia|done]|tauto]|].
  rewrite IH. tauto.
Qed.

Lemma ordered_bounds lo N hi : ordered lo N hi -> lo <= end_of lo N <= hi.
Proof.
  revert lo. induction N as [|[a s] N IH]; intros lo; cbn [ordered end_of]; [lia|].
  intros (Ha & Hs & H). specialize (IH _ H). pose proof (fin_lo a s Hs). lia.
Qed.

Lemma ordered_in lo N hi a s : ordered lo N hi -> (a, s) ∈ N -> lo < a /\ 0 <= s /\ fin a s <= hi.
Proof.
  revert lo. induction N as [|[b t] N IH]; intros lo; [by intros _ ?%elem_of_nil|]. cbn [ordered].
  intros (Hb & Ht & H) Hin. pose proof (fin_lo b t Ht). apply elem_of_cons in Hin as [[= -> ->]|Hin].
  - pose proof (ordered_bounds _ _ _ H). lia.
  - specialize (IH _ H Hin). lia.
Qed.

Lemma ordered_weaken lo lo' N hi hi' : ordered lo N hi -> lo' <= lo -> hi <= hi' -> ordered lo' N hi'.
Proof.
  revert lo lo'. induction N as [|[a s] N IH]; intros lo lo'; cbn [ordered]; [lia|].
  intros (Ha & Hs & H) Hlo Hhi. split; [lia|]. split; [done|]. by eapply IH.
Qed.

Lemma next_range lo N hi d : ordered lo N hi -> 0 <= lo -> hi < 2 ^ 32 -> 0 <= d < 2 ^ 32 -> 0 <= next_of N d < 2 ^ 32.
Proof.
  destruct N as [|[a s] N]; [done|]. intros Ho Hlo Hhi _. cbn. pose proof (ordered_in _ _ _ a s Ho (list_elem_of_here _ _)) as (? & Hs & ?).
  pose proof (fin_lo a s Hs). lia.
Qed.

(** A list whose nodes keep their headers keeps its links. *)
Lemma chain_frame m m' N d : (forall a s, (a, s) ∈ N -> ptr m' a = ptr m a /\ size m' a = size m a) -> chain m N d -> chain m' N d.
Proof.
  induction N as [|[a s] N IH]; intros Hf; [done|]. cbn [chain]. intros (H1 & H2 & H3).
  destruct (Hf a s (list_elem_of_here _ _)) as [-> ->]. split_and!; [done..|]. apply IH; [|done].
  intros b t Hb. apply (Hf b t). by apply list_elem_of_further.
Qed.

(** Reading a header field through writes of header fields. *)
Ltac hdr :=
  unfold ptr, size, set_ptr, set_size in *;
  repeat first [rewrite rd32_wr32_eq by lia | rewrite rd32_wr32_ne by lia].

Lemma covered_cons a s N x : covered ((a, s) :: N) x <-> a <= x < a + 8 * s \/ covered N x.
Proof.
  unfold covered. split.
  - intros (b & t & Hin & Hx). apply elem_of_cons in Hin as [[= -> ->]|Hin]; eauto.
  - intros [Hx|(b & t & Hin & Hx)]; [exists a, s; split; [apply list_elem_of_here|done]|].
    exists b, t. split; [by apply list_elem_of_further|done].
Qed.

Lemma covered_app N1 N2 x : covered (N1 ++ N2) x <-> covered N1 x \/ covered N2 x.
Proof.
  unfold covered. setoid_rewrite elem_of_app. split.
  - intros (a & s & [Hin|Hin] & Hx); eauto 6.
  - intros [(a & s & Hin & Hx)|(a & s & Hin & Hx)]; eauto 8.
Qed.

Lemma covered_nil x : ~ covered [] x.
Proof. intros (a & s & Hin & _). by apply elem_of_nil in Hin. Qed.

(** ** The search of free *)

Section search.
Context (m : mem) (base bp hi : Z).

(** From a node below [bp], the search stops at the last node below it. *)
Lemma search_low p sp N2 : forall mid e se lo fuel,
  chain m ((e, se) :: mid ++ N2) base -> ordered lo ((e, se) :: mid ++ N2) hi ->
  (exists pre, (e, se) :: mid = pre ++ [(p, sp)]) -> p < bp -> (match N2 with [] => True | (q, _) :: _ => bp < q end) ->
  base <= e -> (length mid < fuel)%nat -> free_search fuel m bp e = Some p.
Proof.
  induction mid as [|[e' se'] mid IH]; intros e se lo fuel Hc Ho (pre & Hpre) Hp Hq Hb Hf; (destruct fuel as [|fuel]; [simpl in Hf; lia|]); cbn [free_search].
  - assert ((e, se) = (p, sp)) as [= -> ->] by (apply (f_equal last) in Hpre; rewrite last_snoc in Hpre; cbn in Hpre; congruence). cbn [app chain] in Hc. destruct Hc as (-> & _ & _).
    destruct N2 as [|[q sq] N2]; cbn [next_of].
    + replace ((p <? bp) && (bp <? base)) with false by (symmetry; apply andb_false_iff; right; lia).
      by rewrite (proj2 (Z.leb_le base p)), (proj2 (Z.ltb_lt p bp)).
    + by rewrite (proj2 (Z.ltb_lt p bp)), (proj2 (Z.ltb_lt bp q)).
  - assert (exists pre', (e', se') :: mid = pre' ++ [(p, sp)]) as Hpre'.
    { destruct pre as [|x pre]; [by simplify_eq|]. injection Hpre as <- Hpre. by exists pre. }
    cbn [app] in Hc, Ho. cbn [chain] in Hc. destruct Hc as (E & _ & Hc). cbn [next_of app] in E. rewrite E.
    cbn [ordered] in Ho. destruct Ho as (H1 & H2 & H3). pose proof (fin_lo e se H2).
    assert (e' <= p) as Hle.
    { destruct Hpre' as (pre' & E'). destruct pre' as [|x pre']; [injection E' as -> -> ->; lia|]. injection E' as _ E'. cbn [ordered] in H3. destruct H3 as (_ & Hse & H3).
      assert ((p, sp) ∈ mid ++ N2) as Hin by (rewrite E'; set_solver). pose proof (ordered_in _ _ _ _ _ H3 Hin). pose proof (fin_lo e' se' Hse). lia. }
    assert (e < e') by (cbn [ordered] in H3; lia).
    replace ((e <? bp) && (bp <? e')) with false by (symmetry; apply andb_false_iff; right; lia).
    rewrite (proj2 (Z.leb_gt e' e)) by lia. cbn [andb].
    eapply IH; try done; [lia|simpl in Hf; lia].
Qed.

(** From a node above [bp], it goes on to [base]. *)
Lemma search_high : forall y e se lo fuel,
  chain m ((e, se) :: y) base -> ordered lo ((e, se) :: y) hi -> bp < e -> base < bp -> (length y < fuel)%nat ->
  free_search fuel m bp e = free_search (fuel - S (length y)) m bp base.
Proof.
  induction y as [|[e' se'] y IH]; intros e se lo fuel Hc Ho He Hb Hf; (destruct fuel as [|fuel]; [simpl in Hf; lia|]); cbn [free_search].
  - cbn [chain next_of] in Hc. destruct Hc as (-> & _). rewrite (proj2 (Z.ltb_ge e bp)), (proj2 (Z.leb_le base e)), (proj2 (Z.ltb_ge bp base)) by lia.
    cbn [andb orb]. f_equal. simpl. lia.
  - cbn [chain] in Hc. destruct Hc as (E & _ & Hc). cbn [next_of] in E. rewrite E. cbn [ordered] in Ho. destruct Ho as (H1 & H2 & H3).
    pose proof (fin_lo e se H2). assert (e < e') by (cbn [ordered] in H3; lia).
    rewrite (proj2 (Z.ltb_ge e bp)), (proj2 (Z.leb_gt e' e)) by lia. cbn [andb].
    rewrite (IH e' se' (fin e se) fuel); try done; [lia|simpl in Hf; lia].
Qed.
End search.

(** ** The invariant of the heap *)

(** The free list is [base] followed by the free blocks [L]. *)
Record heap_ok (base : Z) (h : heap) (L : list (Z * Z)) : Prop := MkHeapOk {
  ho_chain : chain (hmem h) ((base, 0) :: L) base;
  ho_order : ordered (base + 7) L (brk h);
  ho_sizes : Forall (fun n => 1 <= n.2) L;
  ho_freep : freep h ∈ base :: L.*1;
  ho_base : 0 < base /\ base + 8 <= brk h;
  ho_brk : brk h < 2 ^ 31
}.

(** Where a block [bp] outside the free memory belongs. *)
Lemma split_at bp n : 1 <= n -> forall L lo hi, ordered lo L hi -> Forall (fun x => 1 <= x.2) L ->
  (forall a s, (a, s) ∈ L -> bp + 8 * n <= a \/ a + 8 * s <= bp) -> lo <= bp -> bp + 8 * n <= hi ->
  exists L1 L2, L = L1 ++ L2 /\ end_of lo L1 <= bp /\ ordered (bp + 8 * n - 1) L2 hi.
Proof.
  intros Hn. induction L as [|[a s] L IH]; intros lo hi Ho Hs Hd Hlo Hhi.
  - exists [], []. cbn. split_and!; (done || lia).
  - cbn [ordered] in Ho. destruct Ho as (H1 & H2 & H3). inversion Hs as [|? ? Hs1 Hs2]; subst. simpl in Hs1.
    destruct (Hd a s (list_elem_of_here _ _)) as [Ha|Ha].
    + exists [], ((a, s) :: L). cbn. split_and!; (done || lia).
    + destruct (IH (fin a s) hi) as (L1 & L2 & -> & Q1 & Q2); try done.
      * intros b t Hb. apply Hd. by apply list_elem_of_further.
      * rewrite fin_pos by lia. lia.
      * by exists ((a, s) :: L1), L2.
Qed.

(** The place of a block: the free list is [N1], the node [p] before the block,
    and [N2] after it. *)
Record place (base : Z) (h : heap) (bp n : Z) (N1 : list (Z * Z)) (p sp : Z) (N2 : list (Z * Z)) : Prop := MkPlace {
  pl_chain : chain (hmem h) (N1 ++ (p, sp) :: N2) base;
  pl_low : ordered (base - 1) (N1 ++ [(p, sp)]) (fin p sp);
  pl_p : fin p sp <= bp;
  pl_high : ordered (bp + 8 * n - 1) N2 (brk h);
  pl_base : match N1 with [] => p = base /\ sp = 0 | x :: N1' => x = (base, 0) /\ 1 <= sp /\ Forall (fun x => 1 <= x.2) N1' end;
  pl_sizes : Forall (fun x => 1 <= x.2) N2
}.

Lemma end_of_snoc lo N a s : end_of lo (N ++ [(a, s)]) = fin a s.
Proof. revert lo. induction N as [|[b t] N IH]; intros lo; cbn; [done|apply IH]. Qed.

Section free.
Context (base : Z) (h : heap) (L : list (Z * Z)) (bp n : Z).
Hypothesis (H : heap_ok base h L) (Hn : 1 <= n) (Hlo : base + 8 <= bp) (Hhi : bp + 8 * n <= brk h).
Hypothesis (Hd : forall a s, (a, s) ∈ L -> bp + 8 * n <= a \/ a + 8 * s <= bp).

Lemma place_exists : exists N1 p sp N2, (base, 0) :: L = N1 ++ (p, sp) :: N2 /\ place base h bp n N1 p sp N2.
Proof.
  destruct H as [H1 H2 H3 H4 H5 H6]. destruct (split_at bp n Hn L (base + 7) (brk h) H2 H3 Hd ltac:(lia) Hhi) as (L1 & L2 & -> & E1 & E2).
  apply Forall_app in H3 as [H3a H3b]. apply ordered_app in H2 as [H2a H2b].
  assert (ordered (base - 1) ((base, 0) :: L1) (end_of (base + 7) L1)) as Ho by (cbn; split_and!; (done || lia)).
  destruct L1 as [|y L1] using rev_ind.
  - exists [], base, 0, L2. split; [done|]. split; try done; cbn; lia.
  - clear IHL1. destruct y as [p sp]. exists ((base, 0) :: L1), p, sp, L2. rewrite end_of_snoc in *. apply Forall_app in H3a as [H3a Hy]. inversion Hy; subst.
    split; [by rewrite <- app_assoc|]. split; try done. by rewrite <- app_assoc in H1.
Qed.

(** The search finds the place, from wherever it starts. *)
Lemma search_place N1 p sp N2 fuel : (base, 0) :: L = N1 ++ (p, sp) :: N2 -> place base h bp n N1 p sp N2 -> (2 * length L + 2 <= fuel)%nat ->
  free_search fuel (hmem h) bp (freep h) = Some p.
Proof.
  intros EN P Hf. destruct H as [H1 H2 H3 H4 H5 H6]. destruct P as [P1 P2 P3 P4 P5 P6].
  assert (p < bp) as Hp.
  { apply ordered_app in P2 as [_ P2]. cbn in P2. pose proof (fin_lo p sp). lia. }
  assert (match N2 with [] => True | (q, _) :: _ => bp < q end) as Hq by (destruct N2 as [|[q sq] N2]; cbn in P4; [done|lia]).
  assert (ordered (base - 1) ((base, 0) :: L) (brk h)) as Ho by (cbn; split_and!; (done || lia)).
  assert (forall e se X mid, N1 ++ [(p, sp)] = X ++ (e, se) :: mid -> forall fuel, (length L < fuel)%nat -> free_search fuel (hmem h) bp e = Some p) as Hlow.
  { intros e se X mid E fuel' Hf'. assert ((base, 0) :: L = X ++ (e, se) :: mid ++ N2) as E'.
    { rewrite EN. change ((p, sp) :: N2) with ([(p, sp)] ++ N2). by rewrite app_assoc, E, <- app_assoc. }
    rewrite E' in H1, Ho. apply chain_app in H1 as [_ H1]. apply ordered_app in Ho as [Ho1 Ho2].
    eapply (search_low (hmem h) base bp (brk h) p sp N2 mid e se); try done.
    - destruct mid as [|y mid] using rev_ind; [exists []; apply (f_equal last) in E; rewrite !last_snoc in E; cbn; congruence|].
      exists ((e, se) :: mid). apply (f_equal last) in E. rewrite last_snoc, app_comm_cons, app_assoc, last_snoc in E. cbn. congruence.
    - pose proof (ordered_bounds _ _ _ Ho1). cbn in Ho2. lia.
    - apply (f_equal length) in E'. rewrite length_app in E'. simpl in E'. rewrite length_app in E'. lia. }
  apply elem_of_cons in H4 as [->|H4].
  - destruct N1 as [|x N1].
    + destruct P5 as [-> ->]. apply (Hlow base 0 [] []); [done|lia].
    + destruct P5 as [-> _]. apply (Hlow base 0 [] (N1 ++ [(p, sp)])); [done|lia].
  - apply list_elem_of_fmap in H4 as ([e se] & -> & He). cbn [fst].
    assert ((e, se) ∈ N1 ++ [(p, sp)] \/ (e, se) ∈ N2) as [Hin|Hin].
    { assert ((e, se) ∈ (N1 ++ [(p, sp)]) ++ N2) as Hin; [|by apply elem_of_app in Hin].
      rewrite <- app_assoc. cbn [app]. rewrite <- EN. by apply list_elem_of_further. }
    + apply list_elem_of_split in Hin as (X & mid & E). apply (Hlow _ _ _ _ E). lia.
    + apply list_elem_of_split in Hin as (X & Y & E). rewrite EN, E in H1, Ho.
      change ((p, sp) :: X ++ (e, se) :: Y) with ([(p, sp)] ++ X ++ (e, se) :: Y) in H1, Ho. rewrite !app_assoc in H1, Ho.
      apply chain_app in H1 as [_ H1]. apply ordered_app in Ho as [_ Ho].
      assert (bp < e) by (rewrite E in P4; pose proof (ordered_in _ _ _ e se P4 ltac:(set_solver)); lia).
      assert (length Y < length L)%nat by (apply (f_equal length) in EN; rewrite E in EN; simpl in EN; rewrite !length_app in EN; simpl in EN; rewrite length_app in EN; simpl in EN; lia).
      rewrite (search_high (hmem h) base bp (brk h) Y e se _ fuel H1 Ho) by lia.
      destruct N1 as [|x N1].
      * destruct P5 as [-> ->]. apply (Hlow base 0 [] []); [done|lia].
      * destruct P5 as [-> _]. apply (Hlow base 0 [] (N1 ++ [(p, sp)])); [done|lia].
Qed.

(** The block joined with the node after it. *)
Definition join_right (N2 : list (Z * Z)) : Z * list (Z * Z) :=
  match N2 with
  | (q, sq) :: R => if bp + 8 * n =? q then (n + sq, R) else (n, N2)
  | [] => (n, [])
  end.

(** And with the node before it. *)
Definition joined (p sp : Z) (N2 : list (Z * Z)) : list (Z * Z) :=
  let '(n', R) := join_right N2 in
  if p + 8 * sp =? bp then (p, sp + n') :: R else (p, sp) :: (bp, n') :: R.

Lemma join_right_ok N2 : ordered (bp + 8 * n - 1) N2 (brk h) -> Forall (fun x => 1 <= x.2) N2 ->
  let '(n', R) := join_right N2 in
  n <= n' /\ ordered (bp + 8 * n') R (brk h) /\ Forall (fun x => 1 <= x.2) R /\
  forall x, bp <= x < bp + 8 * n' \/ covered R x <-> bp <= x < bp + 8 * n \/ covered N2 x.
Proof.
  intros Ho Hs. unfold join_right. destruct N2 as [|[q sq] R].
  - split_and!; [lia|cbn in *; lia|done|done].
  - cbn [ordered] in Ho. destruct Ho as (H1 & H2 & H3). inversion Hs; subst. simpl in *. destruct (Z.eqb_spec (bp + 8 * n) q) as [<-|Hne].
    + rewrite fin_pos in H3 by lia. split_and!; [lia|by replace (bp + 8 * (n + sq)) with (bp + 8 * n + 8 * sq) by lia|done|].
      intros x. rewrite covered_cons. replace (bp + 8 * (n + sq)) with (bp + 8 * n + 8 * sq) by lia.
      split; [intros [Hx|Hx]|intros [Hx|[Hx|Hx]]]; [|auto|left; lia|left; lia|auto].
      destruct (decide (x < bp + 8 * n)); [left; lia|right; left; lia].
    + split_and!; [lia| |done|done]. cbn. split_and!; [lia|done..].
Qed.

(** The two halves of [free]'s work on the list. *)
Lemma free_right m N1 p sp N2 : place base h bp n N1 p sp N2 -> hmem h = m -> size m bp = n -> exists m',
  (if u32 (bp + size m bp * HDR) =? ptr m p then
     upd (set_size bp (u32 (size m bp + size m (ptr m p))));;
     m ← gets hmem;
     upd (set_ptr bp (ptr m (ptr m p)))
   else upd (set_ptr bp (ptr m p))) h = Ok tt (MkHeap m' (freep h) (brk h)) /\
  chain m' ((bp, (join_right N2).1) :: (join_right N2).2) base /\
  (forall x, x < bp \/ bp + 8 <= x -> rd8 m' x = rd8 m x).
Proof.
  intros [P1 P2 P3 P4 P5 P6] Hm Hsz. destruct H as [_ _ _ _ H5 H6].
  apply chain_app in P1 as [_ P1]. cbn [chain] in P1. destruct P1 as (Ep & _ & P1). rewrite Hm in Ep, P1. rewrite Ep, Hsz.
  apply ordered_app in P2 as [_ P2]. cbn in P2. pose proof (fin_lo p sp) as Hfin.
  rewrite u32_small by lia. replace (bp + n * 8) with (bp + 8 * n) by lia.
  assert (base < bp) by lia. destruct N2 as [|[q sq] R]; cbn [next_of join_right].
  - destruct (Z.eqb_spec (bp + 8 * n) base); [lia|]. eexists. split; [reflexivity|]. rewrite Hm. cbn [fst snd chain next_of]. split_and!; try done; hdr; try done.
    intros x Hx. unfold set_ptr. by rewrite rd8_wr32_ne by lia.
  - pose proof (next_range _ _ _ base P4) as Hq. cbn [chain ordered] in P1, P4. destruct P1 as (Eq & Es & P1). destruct P4 as (Q1 & Q2 & Q3).
    apply Forall_cons in P6 as [Hsq _]. simpl in Hsq. rewrite fin_pos in Q3 by lia. pose proof (ordered_bounds _ _ _ Q3).
    pose proof (next_range _ _ _ base Q3) as Hnx. cbn in Hq.
    assert (forall a s, (a, s) ∈ R -> bp + 8 <= a) as HR by (intros a s Ha; pose proof (ordered_in _ _ _ a s Q3 Ha); lia).
    destruct (Z.eqb_spec (bp + 8 * n) q) as [Eqq|Hne]; cbn [fst snd].
    + eexists. split; [unfold upd, modify, gets, mbind, M_bind; cbn; reflexivity|]. rewrite Hm, Es, u32_small by lia.
      assert (ptr (set_size bp (n + sq) m) p = q) as -> by (hdr; exact Ep).
      assert (ptr (set_size bp (n + sq) m) q = next_of R base) as -> by (hdr; exact Eq).
      cbn [chain]. split_and!; [hdr; done|hdr; done| |].
      * apply (chain_frame m); [|done]. intros a s Ha. specialize (HR a s Ha). hdr. done.
      * intros x Hx. unfold set_ptr, set_size. by rewrite !rd8_wr32_ne by lia.
    + eexists. split; [reflexivity|]. rewrite Hm. cbn [chain]. split_and!; [hdr; done|hdr; done|hdr; done|hdr; done| |].
      * apply (chain_frame m); [|done]. intros a s Ha. specialize (HR a s Ha). hdr. done.
      * intros x Hx. unfold set_ptr. by rewrite rd8_wr32_ne by lia.
Qed.

Lemma free_left m N1 p sp N2 f : place base h bp n N1 p sp N2 -> ptr m p = next_of N2 base -> size m p = sp ->
  chain m ((bp, (join_right N2).1) :: (join_right N2).2) base -> exists m',
  (if u32 (p + size m p * HDR) =? bp then
     upd (set_size p (u32 (size m p + size m bp)));;
     m ← gets hmem;
     upd (set_ptr p (ptr m bp))
   else upd (set_ptr p bp)) (MkHeap m f (brk h)) = Ok tt (MkHeap m' f (brk h)) /\
  chain m' (joined p sp N2) base /\
  (forall x, x < p \/ p + 8 <= x -> rd8 m' x = rd8 m x).
Proof.
  intros [P1 P2 P3 P4 P5 P6] Ep Es Hc. destruct H as [_ _ _ _ H5 H6].
  apply ordered_app in P2 as [P2 P2']. cbn in P2'. pose proof (fin_lo p sp) as Hfin. pose proof (ordered_bounds _ _ _ P2).
  pose proof (join_right_ok N2 P4 P6) as J. unfold joined. destruct (join_right N2) as [n' R]. cbn [fst snd] in Hc. destruct J as (J1 & J2 & J3 & _).
  cbn [chain] in Hc. destruct Hc as (E1 & E2 & Hc). rewrite Es, E2. pose proof (ordered_bounds _ _ _ J2).
  assert (0 <= next_of R base < 2 ^ 32) as Hnx by (apply (next_range (bp + 8 * n') _ (brk h)); (done || lia)).
  assert (forall a s, (a, s) ∈ R -> p + 8 <= a) as HR by (intros a s Ha; pose proof (ordered_in _ _ _ a s J2 Ha); lia).
  assert (p + 8 * sp <= bp) as Hpe by lia. rewrite u32_small by lia. replace (p + sp * 8) with (p + 8 * sp) by lia.
  assert (p + 8 <= bp) as Hpb by (unfold fin in *; destruct (Z.eqb_spec sp 0); [destruct N1 as [|x N1]; lia|lia]).
  destruct (Z.eqb_spec (p + 8 * sp) bp) as [Eb|Hne].
  - eexists. split; [unfold upd, modify, gets, mbind, M_bind; cbn; reflexivity|]. rewrite u32_small by lia.
    assert (ptr (set_size p (sp + n') m) bp = next_of R base) as -> by (hdr; exact E1).
    cbn [chain]. split_and!; [hdr; done|hdr; done| |].
    + apply (chain_frame m); [|done]. intros a s Ha. specialize (HR a s Ha). hdr. done.
    + intros x Hx. unfold set_ptr, set_size. by rewrite !rd8_wr32_ne by lia.
  - eexists. split; [reflexivity|]. cbn [chain next_of]. split_and!; [hdr; done|hdr; done|hdr; done|hdr; done| |].
    + apply (chain_frame m); [|done]. intros a s Ha. specialize (HR a s Ha). hdr. done.
    + intros x Hx. unfold set_ptr. by rewrite rd8_wr32_ne by lia.
Qed.

(** What the new list covers, and that it is in order. *)
Lemma joined_ok N1 p sp N2 : (base, 0) :: L = N1 ++ (p, sp) :: N2 -> place base h bp n N1 p sp N2 ->
  exists L', (base, 0) :: L' = N1 ++ joined p sp N2 /\ ordered (base + 7) L' (brk h) /\ Forall (fun x => 1 <= x.2) L' /\
    (forall x, covered L' x <-> covered L x \/ bp <= x < bp + 8 * n) /\ p ∈ base :: L'.*1.
Proof.
  intros EN [P1 P2 P3 P4 P5 P6]. pose proof (join_right_ok N2 P4 P6) as J. unfold joined. destruct (join_right N2) as [n' R].
  destruct J as (J1 & J2 & J3 & J4). apply ordered_app in P2 as [P2 P2']. cbn in P2'.
  destruct N1 as [|x N1].
  - destruct P5 as [-> ->]. injection EN as ->. destruct (Z.eqb_spec (base + 8 * 0) bp); [lia|].
    exists ((bp, n') :: R). split_and!; [done| |by constructor; [cbn; lia|]| |apply list_elem_of_here].
    + cbn. split_and!; [lia|lia|]. by rewrite fin_pos by lia.
    + intros x. rewrite covered_cons. specialize (J4 x). tauto.
  - destruct P5 as (-> & Hsp & HN1). injection EN as ->. cbn [ordered end_of] in P2, P2'. destruct P2 as (_ & _ & P2). change (fin base 0) with (base + 7) in *.
    rewrite (fin_pos p sp) in * by lia.
    destruct (Z.eqb_spec (p + 8 * sp) bp) as [Eb|Hne].
    + exists (N1 ++ (p, sp + n') :: R). split_and!; [done| |apply Forall_app; split; [done|by constructor; [cbn; lia|]]| |].
      * apply ordered_app. split; [done|]. cbn. rewrite fin_pos by lia. split_and!; [lia|lia|]. by replace (p + 8 * (sp + n')) with (bp + 8 * n') by lia.
      * intros x. rewrite !covered_app, !covered_cons. specialize (J4 x). replace (p + 8 * (sp + n')) with (bp + 8 * n') by lia.
        assert (p <= x < bp + 8 * n' <-> p <= x < p + 8 * sp \/ bp <= x < bp + 8 * n') as -> by lia. tauto.
      * apply list_elem_of_further, list_elem_of_fmap. exists (p, sp + n'). split; [done|]. apply elem_of_app. right. apply list_elem_of_here.
    + exists (N1 ++ (p, sp) :: (bp, n') :: R). split_and!; [done| |apply Forall_app; split; [done|by repeat constructor; cbn; (lia || done)]| |].
      * apply ordered_app. split; [done|]. cbn. rewrite !fin_pos by lia. split_and!; [lia|lia|lia|lia|done].
      * intros x. rewrite !covered_app, !covered_cons. specialize (J4 x). tauto.
      * apply list_elem_of_further, list_elem_of_fmap. exists (p, sp). split; [done|]. apply elem_of_app. right. apply list_elem_of_here.
Qed.

(** [free] gives the block back, and touches only free memory, the block and
    the static header. *)
Lemma free_run fuel : (2 * length L + 2 <= fuel)%nat -> size (hmem h) bp = n -> exists h' L',
  free fuel (bp + HDR) h = Ok tt h' /\ heap_ok base h' L' /\ brk h' = brk h /\
  (forall x, covered L' x <-> covered L x \/ bp <= x < bp + 8 * n) /\
  (forall x, ~ covered L x -> ~ bp <= x < bp + 8 * n -> ~ base <= x < base + 8 -> rd8 (hmem h') x = rd8 (hmem h) x) /\
  (length L' <= S (length L))%nat.
Proof.
  intros Hf Hsz. destruct place_exists as (N1 & p & sp & N2 & EN & P).
  pose proof (search_place N1 p sp N2 fuel EN P Hf) as Hs. pose proof P as [P1 P2 P3 P4 P5 P6]. destruct (joined_ok _ _ _ _ EN P) as (L' & EL & O1 & O2 & O3 & O4).
  destruct (free_right (hmem h) N1 p sp N2 P eq_refl Hsz) as (m1 & R1 & C1 & F1).
  pose proof H as [_ _ _ _ H5 H6]. apply chain_app in P1 as [P1a P1b]. cbn [chain next_of] in P1a, P1b. destruct P1b as (Ep & Es & _).
  apply ordered_app in P2 as [P2 P2']. cbn in P2'. pose proof (fin_lo p sp) as Hfin. pose proof (ordered_bounds _ _ _ P2).
  assert (p + 8 <= bp) as Hpb by (unfold fin in *; destruct (Z.eqb_spec sp 0); [destruct N1 as [|x N1]; lia|lia]).
  assert (forall a, a + 8 <= bp -> ptr m1 a = ptr (hmem h) a /\ size m1 a = size (hmem h) a) as Fw.
  { intros a Ha. unfold ptr, size. split; apply rd32_ext; intros; apply F1; lia. }
  destruct (Fw p Hpb) as [Fp Fs].
  destruct (free_left m1 N1 p sp N2 (freep h) P ltac:(congruence) ltac:(congruence) C1) as (m2 & R2 & C2 & F2).
  exists (MkHeap m2 p (brk h)), L'. split_and!; try done.
  - unfold free. rewrite (u32_small (bp + HDR - HDR)) by lia. replace (bp + HDR - HDR) with bp by lia.
    erewrite bind_ok_l by reflexivity. cbv beta. rewrite Hs. erewrite bind_ok_l by reflexivity. cbv beta.
    rewrite (bind_ok_l _ _ _ _ _ R1). cbv beta. erewrite bind_ok_l by reflexivity. cbv beta. cbn [hmem].
    rewrite (bind_ok_l _ _ _ _ _ R2). reflexivity.
  - split; try done. rewrite EL. cbn [hmem]. apply chain_app. split; [|done].
    replace (next_of (joined p sp N2) base) with p by (unfold joined; destruct (join_right N2) as [? ?]; by destruct (p + 8 * sp =? bp)).
    apply (chain_frame (hmem h)); [|done]. intros a s Ha. pose proof (ordered_in _ _ _ a s P2 Ha) as (Ha1 & Ha2 & Ha3).
    pose proof (fin_lo a s Ha2). assert (a + 8 <= p) as Hap by lia.
    destruct (Fw a ltac:(lia)) as [<- <-]. unfold ptr, size. split; apply rd32_ext; intros; apply F2; lia.
  - intros x Hx1 Hx2 Hx3. cbn [hmem]. rewrite F2, F1; [done|lia|].
    destruct (decide (p <= x < p + 8)) as [Hpx|]; [|lia]. exfalso. destruct N1 as [|y N1].
    + destruct P5 as [-> ->]. lia.
    + apply Hx1. exists p, sp. destruct P5 as (_ & Hsp & _). split; [|lia]. injection EN as _ ->. set_solver.
  - apply (f_equal length) in EN, EL. rewrite length_app in EN, EL. simpl in EN, EL.
    assert (length (joined p sp N2) <= S (S (length N2)))%nat; [|lia].
    clear. unfold joined, join_right. destruct N2 as [|[q sq] N2]; repeat (destruct (_ =? _)); simpl; lia.
Qed.
End free.

(** ** malloc *)

(** A node that is the successor of another, and not [base], comes after it in
    the list. *)
Lemma node_pred m base L pp sp p : chain m ((base, 0) :: L) base -> (pp, sp) ∈ (base, 0) :: L -> ptr m pp = p -> p <> base ->
  exists X s Y, (base, 0) :: L = X ++ (pp, sp) :: (p, s) :: Y.
Proof.
  intros Hc Hin Hp Hne. apply list_elem_of_split in Hin as (X & Z & E). rewrite E in Hc. apply chain_app in Hc as [_ Hc].
  cbn [chain] in Hc. destruct Hc as (Ep & _). destruct Z as [|[a s] Z]; cbn in Ep; [congruence|].
  exists X, s, Z. rewrite E. do 2 f_equal. congruence.
Qed.

(** What [malloc] promises when it returns the block at [b]. *)
Record taken (base : Z) (h : heap) (L : list (Z * Z)) (nu b : Z) (h' : heap) (L' : list (Z * Z)) : Prop := MkTaken {
  tk_ok : heap_ok base h' L';
  tk_size : size (hmem h') b = nu;
  tk_brk : brk h <= brk h';
  tk_free : forall x, b <= x < b + 8 * nu -> covered L x \/ brk h <= x < brk h';
  tk_left : forall x, covered L' x <-> (covered L x \/ brk h <= x < brk h') /\ ~ b <= x < b + 8 * nu;
  tk_frame : forall x, ~ covered L x -> ~ brk h <= x < brk h' -> ~ base <= x < base + 8 -> rd8 (hmem h') x = rd8 (hmem h) x
}.

Lemma chain_size m N d a s : chain m N d -> (a, s) ∈ N -> size m a = s.
Proof.
  induction N as [|[b t] N IH]; [by intros _ ?%elem_of_nil|]. cbn [chain]. intros (_ & Es & Hc) Hin.
  apply elem_of_cons in Hin as [[= -> ->]|Hin]; auto.
Qed.

Lemma chain_ptr m N1 a s N2 d : chain m (N1 ++ (a, s) :: N2) d -> ptr m a = next_of N2 d.
Proof. intros Hc. apply chain_app in Hc as [_ Hc]. cbn in Hc. tauto. Qed.

(** The list with the nodes from [pp] on replaced by [Z]. *)
Lemma list_tail base (L X : list (Z * Z)) pp sp p s Y : (base, 0) :: L = X ++ (pp, sp) :: (p, s) :: Y ->
  exists W, L = W ++ (p, s) :: Y /\ (forall Z, X ++ (pp, sp) :: Z = (base, 0) :: W ++ Z) /\
    (forall lo, ordered lo ((base, 0) :: W) (fin pp sp) <-> ordered lo (X ++ [(pp, sp)]) (fin pp sp)) /\
    end_of (base + 7) W = fin pp sp /\ pp ∈ base :: W.*1 /\ ((pp, sp) = (base, 0) \/ (pp, sp) ∈ W).
Proof.
  intros E. destruct X as [|x X].
  - injection E as <- <- ->. exists []. split_and!; try done; [|by left]. apply list_elem_of_here.
  - injection E as <- ->. exists (X ++ [(pp, sp)]). rewrite end_of_snoc. split_and!; try done; [by rewrite <- app_assoc|by intros; rewrite <- app_assoc| |].
    + apply list_elem_of_further. rewrite fmap_app. apply elem_of_app. right. apply list_elem_of_here.
    + right. apply elem_of_app. right. apply list_elem_of_here.
Qed.

Section take.
Context (base : Z) (h : heap) (L : list (Z * Z)) (nu pp sp p s : Z) (X W Y : list (Z * Z)).
Hypothesis (H : heap_ok base h L) (Hnu : 1 <= nu <= s).
Hypothesis (EN : (base, 0) :: L = X ++ (pp, sp) :: (p, s) :: Y) (EL : L = W ++ (p, s) :: Y).
Hypothesis (EW : forall Z, X ++ (pp, sp) :: Z = (base, 0) :: W ++ Z).
Hypothesis (Eend : end_of (base + 7) W = fin pp sp) (Hpp : pp ∈ base :: W.*1) (Hsp : (pp, sp) = (base, 0) \/ (pp, sp) ∈ W).

Lemma take_order : ordered (base + 7) W (fin pp sp) /\ 0 <= sp /\ base <= pp /\ pp + 8 <= p /\ fin pp sp < p /\ ordered (p + 8 * s) Y (brk h) /\
  (forall a t, (a, t) ∈ X -> a + 8 <= pp) /\ Forall (fun x => 1 <= x.2) W /\ Forall (fun x => 1 <= x.2) Y.
Proof.
  pose proof H as [H1 H2 H3 H4 H5 H6]. rewrite EL in H2, H3. apply ordered_app in H2 as [O1 O2]. rewrite Eend in O1, O2. cbn in O2.
  destruct O2 as (O2 & O3 & O4). rewrite fin_pos in O4 by lia. apply Forall_app in H3 as [F1 F2]. apply Forall_cons in F2 as [_ F2].
  assert (0 <= sp /\ base <= pp) as [Hs0 Hpb].
  { destruct Hsp as [[= -> ->]|Hin]; [lia|]. pose proof (ordered_in _ _ _ _ _ O1 Hin). lia. }
  pose proof (fin_lo pp sp Hs0). split_and!; try done; [lia|].
  assert (ordered (base - 1) (X ++ [(pp, sp)]) (fin pp sp)) as OX.
  { rewrite EW, app_nil_r. cbn. split_and!; [lia|lia|done]. }
  apply ordered_app in OX as [OX1 OX2]. cbn in OX2. intros a t Ha. pose proof (ordered_in _ _ _ _ _ OX1 Ha) as (? & Ht & ?).
  pose proof (fin_lo a t Ht). lia.
Qed.

Lemma take_exact : s = nu -> exists h', malloc_take nu pp p h = Ok (p + HDR) h' /\ taken base h L nu p h' (W ++ Y).
Proof.
  intros Hs. destruct take_order as (O1 & Hs0 & Hpb & O2 & O3 & O4 & OX & F1 & F2). pose proof H as [H1 H2 H3 H4 H5 H6].
  rewrite EN in H1. pose proof (chain_size _ _ _ p s H1 ltac:(set_solver)) as Es.
  assert (ptr (hmem h) p = next_of Y base) as Epy.
  { change ((pp, sp) :: (p, s) :: Y) with ([(pp, sp)] ++ (p, s) :: Y) in H1. rewrite app_assoc in H1. by eapply chain_ptr. }
  pose proof (ordered_bounds _ _ _ O4).
  assert (0 <= next_of Y base < 2 ^ 32) as Hnx by (apply (next_range (p + 8 * s) _ (brk h)); (done || lia)).
  eexists. split.
  - unfold malloc_take. erewrite bind_ok_l by reflexivity. cbv beta. rewrite Es, Hs, Z.eqb_refl. unfold upd, set_freep, modify, mbind, M_bind. cbn. rewrite u32_small by lia. reflexivity.
  - cbn [hmem]. rewrite Epy. split; cbn [hmem brk freep].
    + split; cbn [hmem brk freep]; try done.
      * rewrite <- EW. apply chain_app in H1 as [C1 C2]. cbn [chain] in C2. destruct C2 as (_ & Es' & _ & _ & C2). apply chain_app. cbn [next_of] in *. split.
        -- apply (chain_frame (hmem h)); [|done]. intros a t Ha. specialize (OX a t Ha). hdr. done.
        -- cbn [chain]. split_and!; [hdr; done|hdr; done|]. apply (chain_frame (hmem h)); [|done]. intros a t Ha.
           pose proof (ordered_in _ _ _ a t O4 Ha). hdr. done.
      * apply ordered_app. rewrite Eend. split; [done|]. eapply ordered_weaken; [exact O4|lia|lia].
      * by apply Forall_app.
      * rewrite fmap_app. apply elem_of_cons in Hpp as [->|Hin]; [apply list_elem_of_here|]. apply list_elem_of_further, elem_of_app. by left.
    + hdr. congruence.
    + lia.
    + intros x Hx. left. rewrite EL, covered_app, covered_cons, Hs. auto.
    + intros x. rewrite EL, !covered_app, covered_cons, Hs.
      assert (covered W x -> ~ p <= x < p + 8 * nu) by (intros (a & t & Ha & Hx); pose proof (ordered_in _ _ _ a t O1 Ha) as (? & Ht & ?); pose proof (fin_lo a t Ht); unfold fin in *; destruct (t =? 0) eqn:?; lia).
      assert (covered Y x -> ~ p <= x < p + 8 * nu) by (intros (a & t & Ha & Hx); pose proof (ordered_in _ _ _ a t O4 Ha); lia).
      assert (~ brk h <= x < brk h) by lia. tauto.
    + intros x Hx _ Hb. unfold set_ptr. rewrite rd8_wr32_ne; [done|]. destruct (decide (pp <= x < pp + 4)); [|lia]. exfalso.
      destruct Hsp as [[= -> ->]|Hin]; [lia|]. apply Hx. exists pp, sp. rewrite EL. split; [set_solver|]. rewrite Forall_forall in F1. specialize (F1 _ Hin). simpl in F1. lia.
Qed.

Lemma take_split : s <> nu -> exists h', malloc_take nu pp p h = Ok (p + 8 * (s - nu) + HDR) h' /\
  taken base h L nu (p + 8 * (s - nu)) h' (W ++ (p, s - nu) :: Y).
Proof.
  intros Hs. destruct take_order as (O1 & Hs0 & Hpb & O2 & O3 & O4 & OX & F1 & F2). pose proof H as [H1 H2 H3 H4 H5 H6].
  rewrite EN in H1. pose proof (chain_size _ _ _ p s H1 ltac:(set_solver)) as Es. pose proof (ordered_bounds _ _ _ O4).
  eexists. split.
  - unfold malloc_take. erewrite bind_ok_l by reflexivity. cbv beta. rewrite Es, (proj2 (Z.eqb_neq s nu)) by done.
    rewrite (u32_small (s - nu)) by lia. unfold upd, set_freep, modify, gets, mbind, M_bind. cbn.
    assert (size (set_size p (s - nu) (hmem h)) p = s - nu) as -> by (hdr; done). rewrite (u32_small (p + (s - nu) * 8)) by lia.
    replace (p + (s - nu) * 8) with (p + 8 * (s - nu)) by lia. rewrite u32_small by lia. reflexivity.
  - split; cbn [hmem brk freep].
    + split; cbn [hmem brk freep]; try done.
      * rewrite <- EW. apply chain_app in H1 as [C1 C2]. cbn [chain next_of] in C2. destruct C2 as (Ep & Es' & Epy & _ & C2). apply chain_app. cbn [next_of]. split.
        -- apply (chain_frame (hmem h)); [|done]. intros a t Ha. specialize (OX a t Ha). hdr. done.
        -- cbn [chain next_of]. split_and!; [hdr; done|hdr; done|hdr; done|hdr; done|]. apply (chain_frame (hmem h)); [|done]. intros a t Ha.
           pose proof (ordered_in _ _ _ a t O4 Ha). hdr. done.
      * apply ordered_app. rewrite Eend. split; [done|]. cbn. rewrite (fin_pos p (s - nu)) by lia. split_and!; [done|lia|]. eapply ordered_weaken; [exact O4|lia|lia].
      * apply Forall_app. split; [done|]. constructor; [cbn; lia|done].
      * rewrite fmap_app. apply elem_of_cons in Hpp as [->|Hin]; [apply list_elem_of_here|]. apply list_elem_of_further, elem_of_app. by left.
    + hdr. done.
    + lia.
    + intros x Hx. left. rewrite EL, covered_app, covered_cons. right. left. lia.
    + intros x. rewrite EL, !covered_app, !covered_cons.
      assert (covered W x -> ~ p <= x) by (intros (a & t & Ha & Hx); pose proof (ordered_in _ _ _ a t O1 Ha) as (? & Ht & ?); unfold fin in *; destruct (t =? 0) eqn:?; lia).
      assert (covered Y x -> p + 8 * s <= x) by (intros (a & t & Ha & Hx); pose proof (ordered_in _ _ _ a t O4 Ha); lia).
      assert (~ brk h <= x < brk h) by lia.
      assert (p <= x < p + 8 * s <-> p <= x < p + 8 * (s - nu) \/ p + 8 * (s - nu) <= x < p + 8 * (s - nu) + 8 * nu) as -> by lia.
      split; [intros [?|[?|?]]; (split; [tauto|]); [assert (~ p <= x) by tauto; lia|lia|assert (p + 8 * s <= x) by tauto; lia]|tauto].
    + intros x Hx _ Hb. unfold set_size. rewrite !rd8_wr32_ne; [done|..]; destruct (decide (p <= x < p + 8 * s)) as [Hin|]; try lia;
        exfalso; apply Hx; exists p, s; rewrite EL; (split; [set_solver|done]).
Qed.
End take.

(** [malloc] takes the block from a node that it reached from its
    predecessor. *)
Lemma take_run base h L nu pp sp p s : heap_ok base h L -> (pp, sp) ∈ (base, 0) :: L -> ptr (hmem h) pp = p -> (p, s) ∈ (base, 0) :: L ->
  1 <= nu <= s -> exists b h' L', malloc_take nu pp p h = Ok (b + HDR) h' /\ taken base h L nu b h' L'.
Proof.
  intros H Hin Ep Hp Hnu. pose proof H as [H1 H2 H3 H4 H5 H6].
  assert (p <> base) as Hne.
  { apply elem_of_cons in Hp as [[= -> ->]|Hp]; [lia|]. pose proof (ordered_in _ _ _ _ _ H2 Hp). lia. }
  destruct (node_pred _ _ _ _ _ _ H1 Hin Ep Hne) as (X & s' & Y & EN).
  assert (s' = s) as ->.
  { rewrite <- (chain_size _ _ _ _ _ H1 Hp). symmetry. apply (chain_size _ _ _ _ _ H1). rewrite EN. set_solver. }
  destruct (list_tail _ _ _ _ _ _ _ _ EN) as (W & EL & EW & _ & Eend & Q1 & Q2).
  destruct (decide (s = nu)) as [E|E].
  - destruct (take_exact base h L nu pp sp p s X W Y H Hnu EN EL EW Eend Q1 Q2 E) as (h' & R & T). eauto.
  - destruct (take_split base h L nu pp sp p s X W Y H Hnu EN EL EW Eend Q1 Q2 E) as (h' & R & T). eauto.
Qed.

(** *** The search of malloc *)

(** The nodes in the order in which the search visits them: from the one after
    [freep] round to [freep] itself. *)
Definition round (h : heap) (base : Z) (L V : list (Z * Z)) (d : Z) : Prop :=
  chain (hmem h) V d /\ ptr (hmem h) (freep h) = next_of V d /\ (forall n, n ∈ V <-> n ∈ (base, 0) :: L) /\
  length V = S (length L) /\ exists V' sf, V = V' ++ [(freep h, sf)] /\ freep h ∉ V'.*1.

Lemma round_exists base h L : heap_ok base h L -> exists V d, round h base L V d.
Proof.
  intros [H1 H2 H3 H4 H5 H6].
  assert (ordered (base - 1) ((base, 0) :: L) (brk h)) as Ho by (cbn; split_and!; [lia|lia|done]).
  assert (exists sf, (freep h, sf) ∈ (base, 0) :: L) as [sf Hin].
  { change (base :: L.*1) with (((base, 0) :: L).*1) in H4. apply list_elem_of_fmap in H4 as ([a t] & E & Hin). exists t. cbn in E. by rewrite E. }
  apply list_elem_of_split in Hin as (A & B & EN). exists (B ++ A ++ [(freep h, sf)]), (next_of B base).
  assert (next_of (A ++ [(freep h, sf)]) (next_of B base) = base) as Eb.
  { destruct A as [|[a t] A]; injection EN as E1 E2; cbn; [|done]. by rewrite E1. }
  rewrite EN in H1, Ho. apply chain_app in H1 as [C1 C2]. cbn [chain] in C2. destruct C2 as (C2 & C3 & C4).
  apply ordered_app in Ho as [O1 O2]. cbn [ordered] in O2. destruct O2 as (O2 & O3 & O4). pose proof (fin_lo (freep h) sf O3).
  split_and!.
  - apply chain_app. rewrite Eb. split; [done|]. apply chain_app. cbn. split_and!; done.
  - by rewrite C2, next_app, Eb.
  - intros n. rewrite EN, !elem_of_app, !elem_of_cons, elem_of_nil. tauto.
  - apply (f_equal length) in EN. rewrite length_app in EN. simpl in EN. rewrite !length_app. simpl. lia.
  - exists (B ++ A), sf. split; [by rewrite app_assoc|]. rewrite fmap_app. intros [Hin|Hin]%elem_of_app.
    + apply list_elem_of_fmap in Hin as ([a t] & E & Hin). cbn in E. pose proof (ordered_in _ _ _ _ _ O4 Hin). lia.
    + apply list_elem_of_fmap in Hin as ([a t] & E & Hin). cbn in E. pose proof (ordered_in _ _ _ _ _ O1 Hin) as (? & Ht & ?). pose proof (fin_lo a t Ht). lia.
Qed.

Lemma scan base grow h L nu : heap_ok base h L -> 1 <= nu -> forall V d pp sp k,
  chain (hmem h) V d -> (forall n, n ∈ V -> n ∈ (base, 0) :: L) -> (pp, sp) ∈ (base, 0) :: L -> ptr (hmem h) pp = next_of V d ->
  (exists V' sf, V = V' ++ [(freep h, sf)] /\ freep h ∉ V'.*1) ->
  (exists b h' L', malloc_loop grow (k + length V) nu pp (next_of V d) h = Ok (b + HDR) h' /\ taken base h L nu b h' L') \/
  (Forall (fun n => n.2 < nu) V /\
   malloc_loop grow (k + length V) nu pp (next_of V d) h =
     (p ← morecore grow (S k) nu; if p =? 0 then mret 0 else m ← gets hmem; malloc_loop grow k nu p (ptr m p)) h).
Proof.
  intros H Hnu. induction V as [|[p s] V IH]; intros d pp sp k Hc Hin Hpp Ep (V' & sf & EV & Hnf); [by destruct V'|].
  cbn [next_of chain length] in *. destruct Hc as (E1 & E2 & Hc). rewrite Nat.add_succ_r. cbn [malloc_loop].
  erewrite bind_ok_l by reflexivity. cbv beta. rewrite E2.
  destruct (Z.leb_spec nu s) as [Hs|Hs].
  { left. eapply take_run; try done. apply Hin, list_elem_of_here. }
  erewrite bind_ok_l by reflexivity. cbv beta. destruct V' as [|[p' s'] V'].
  - injection EV as -> -> ->. right. split; [by repeat constructor|]. rewrite Z.eqb_refl. cbn [length]. by rewrite Nat.add_0_r.
  - injection EV as <- <- ->. cbn [fmap list_fmap] in Hnf. apply not_elem_of_cons in Hnf as [Hne Hnf].
    cbn in Hne. rewrite (proj2 (Z.eqb_neq p (freep h))) by congruence. rewrite E1.
    destruct (IH d p s k) as [Hl|[Hs' E]]; try done.
    + intros n Hn. apply Hin. by apply list_elem_of_further.
    + apply Hin, list_elem_of_here.
    + by exists V', sf.
    + by left.
    + right. split; [by constructor|done].
Qed.

(** *** Growing the heap *)

Lemma ordered_two lo N hi a s b t : ordered lo N hi -> (a, s) ∈ N -> (b, t) ∈ N -> a < b -> fin a s < b.
Proof.
  revert lo. induction N as [|[c u] N IH]; intros lo; [by intros _ ?%elem_of_nil|]. cbn [ordered]. intros (H1 & H2 & H3) Ha Hb Hlt.
  pose proof (fin_lo c u H2). apply elem_of_cons in Ha as [[= -> ->]|Ha]; apply elem_of_cons in Hb as [[= -> ->]|Hb]; [lia| | |by eapply IH].
  - apply (ordered_in _ _ _ _ _ H3 Hb).
  - pose proof (ordered_in _ _ _ _ _ H3 Ha). lia.
Qed.

(** There is a gap after each node, so free memory in one piece is in one
    node. *)
Lemma covered_one lo N hi a b : ordered lo N hi -> a < b -> (forall x, a <= x < b -> covered N x) -> exists c s, (c, s) ∈ N /\ c <= a /\ b <= c + 8 * s.
Proof.
  intros Ho Hab Hc. destruct (Hc a ltac:(lia)) as (c & s & Hin & Hx). exists c, s. split_and!; [done|lia|].
  destruct (Z.le_gt_cases b (c + 8 * s)) as [|Hgt]; [done|]. exfalso.
  destruct (Hc (c + 8 * s) ltac:(lia)) as (c' & s' & Hin' & Hx').
  destruct (Z.lt_trichotomy c c') as [Hlt|[Heq|Hlt]].
  - pose proof (ordered_two _ _ _ _ _ _ _ Ho Hin Hin' Hlt) as Ht. rewrite fin_pos in Ht by lia. lia.
  - pose proof (ordered_in _ _ _ _ _ Ho Hin) as (_ & Hs & _). subst c'. assert (s < s') as Hss by lia. clear -Ho Hin Hin' Hss Hs.
    revert lo Ho. induction N as [|[d u] N IH]; intros lo; [by apply elem_of_nil in Hin|]. cbn [ordered]. intros (H1 & H2 & H3).
    pose proof (fin_lo d u H2). apply elem_of_cons in Hin as [E1|Hin]; apply elem_of_cons in Hin' as [E2|Hin']; [| | |by eauto].
    + injection E1. injection E2. lia.
    + injection E1 as -> ->. pose proof (ordered_in _ _ _ _ _ H3 Hin'). lia.
    + injection E2 as -> ->. pose proof (ordered_in _ _ _ _ _ H3 Hin). lia.
  - pose proof (ordered_two _ _ _ _ _ _ _ Ho Hin' Hin Hlt) as Ht. unfold fin in Ht. destruct (Z.eqb_spec s' 0); lia.
Qed.

Section malloc.
Context (base : Z) (grow : Z -> Z -> bool).
(** The kernel never lets a process grow to 2 GB, where the kernel begins. *)
Hypothesis Hgrow : forall b n, grow b n = true -> b + n < 2 ^ 31.

Lemma morecore_run h L nu fuel : heap_ok base h L -> 1 <= nu < 2 ^ 28 -> (2 * length L + 2 <= fuel)%nat ->
  let n := 8 * Z.max nu 4096 in
  (grow (brk h) n = false /\ morecore grow fuel nu h = Ok 0 h) \/
  (exists h' L', morecore grow fuel nu h = Ok (freep h') h' /\ heap_ok base h' L' /\ freep h' <> 0 /\ brk h' = brk h + n /\
    (forall x, covered L' x <-> covered L x \/ brk h <= x < brk h') /\
    (forall x, ~ covered L x -> ~ brk h <= x < brk h' -> ~ base <= x < base + 8 -> rd8 (hmem h') x = rd8 (hmem h) x) /\
    (length L' <= S (length L))%nat).
Proof.
  intros H Hnu Hf n. pose proof H as [H1 H2 H3 H4 H5 H6]. pose proof (ordered_bounds _ _ _ H2).
  unfold morecore. assert ((if nu <? 4096 then 4096 else nu) = Z.max nu 4096) as -> by (destruct (Z.ltb_spec nu 4096); lia).
  rewrite s32_small by lia. replace (Z.max nu 4096 * HDR) with n by (unfold n; lia).
  unfold sbrk. destruct (grow (brk h) n) eqn:Eg; [right|left; split; [done|]; unfold mbind, M_bind, get; cbn; rewrite Eg; done].
  specialize (Hgrow _ _ Eg).
  set (h1 := MkHeap (set_size (brk h) (Z.max nu 4096) (hmem h)) (freep h) (brk h + n)).
  assert (heap_ok base h1 L) as H1'.
  { unfold h1. split; cbn [hmem brk freep]; try done; [|by eapply ordered_weaken; [exact H2|lia|unfold n; lia]|unfold n; lia].
    apply (chain_frame (hmem h)); [|done]. intros a s Ha. apply elem_of_cons in Ha as [[= -> ->]|Ha].
    - hdr. done.
    - pose proof (ordered_in _ _ _ _ _ H2 Ha) as (? & Hs & ?). rewrite Forall_forall in H3. specialize (H3 _ Ha). simpl in H3. rewrite fin_pos in * by lia. hdr. done. }
  destruct (free_run base h1 L (brk h) (Z.max nu 4096) H1') with (fuel := fuel) as (h' & L' & E & H' & Eb & Hcov & Hfr & Hlen); try done; try lia.
  - intros a s Ha. right. pose proof (ordered_in _ _ _ _ _ H2 Ha). rewrite Forall_forall in H3. specialize (H3 _ Ha). simpl in H3. rewrite fin_pos in * by lia. lia.
  - unfold h1. cbn [hmem]. hdr. done.
  - exists h', L'. split_and!; try done.
    + unfold mbind, M_bind, get, modify, mret, M_ret. cbn. rewrite Eg. rewrite u32_small by lia. rewrite (proj2 (Z.eqb_neq (brk h) _)) by lia.
      rewrite (u32_small (brk h + n)) by lia. cbn [hmem freep brk]. fold h1. by rewrite E.
    + destruct H' as [_ O' _ Hf' Hb' _]. apply elem_of_cons in Hf' as [->|Hin]; [lia|]. apply list_elem_of_fmap in Hin as ([a t] & -> & Hin).
      pose proof (ordered_in _ _ _ _ _ O' Hin). cbn. lia.
    + intros x. rewrite Hcov, Eb. unfold h1, n. cbn [brk]. done.
    + intros x Hx1 Hx2 Hx3. rewrite Eb in Hx2. unfold h1 in Hx2. cbn [brk] in Hx2. rewrite Hfr; [|done|unfold n in Hx2; lia|done].
      unfold h1, set_size. cbn [hmem]. rewrite rd8_wr32_ne; [done|]. unfold n in Hx2. lia.
Qed.

(** [malloc] from a heap that is set up. *)
Lemma malloc_found h L nu fuel : heap_ok base h L -> 1 <= nu < 2 ^ 28 -> (4 * length L + 8 <= fuel)%nat ->
  (malloc_loop grow fuel nu (freep h) (ptr (hmem h) (freep h)) h = Ok 0 h /\ Forall (fun n => n.2 < nu) L /\ grow (brk h) (8 * Z.max nu 4096) = false) \/
  (exists b h' L', malloc_loop grow fuel nu (freep h) (ptr (hmem h) (freep h)) h = Ok (b + HDR) h' /\ taken base h L nu b h' L').
Proof.
  intros H Hnu Hf. destruct (round_exists base h L H) as (V & d & R1 & R2 & R3 & R4 & R5).
  assert (exists sf, (freep h, sf) ∈ (base, 0) :: L) as [sf Hin].
  { destruct R5 as (V' & sf & -> & _). exists sf. apply R3. apply elem_of_app. right. apply list_elem_of_here. }
  rewrite R2. replace fuel with ((fuel - length V) + length V)%nat by lia.
  destruct (scan base grow h L nu H ltac:(lia) V d (freep h) sf (fuel - length V) R1 ltac:(intros n Hn; by apply R3) Hin R2 R5) as [Hl|[Hs E]]; [by right|].
  rewrite E. destruct (morecore_run h L nu (S (fuel - length V)) H Hnu ltac:(lia)) as [[Eg Em]|(h1 & L1 & Em & H1 & Hf1 & Eb & Hcov & Hfr & Hlen)].
  - left. rewrite (bind_ok_l _ _ _ _ _ Em). split_and!; [done| |done].
    rewrite Forall_forall in Hs. apply Forall_forall. intros n Hn. apply Hs, R3. by apply list_elem_of_further.
  - right. rewrite (bind_ok_l _ _ _ _ _ Em). cbv beta. rewrite (proj2 (Z.eqb_neq _ _)) by done. erewrite bind_ok_l by reflexivity. cbv beta.
    destruct (round_exists base h1 L1 H1) as (V1 & d1 & Q1 & Q2 & Q3 & Q4 & Q5).
    assert (exists sf1, (freep h1, sf1) ∈ (base, 0) :: L1) as [sf1 Hin1].
    { destruct Q5 as (V' & sf1 & -> & _). exists sf1. apply Q3. apply elem_of_app. right. apply list_elem_of_here. }
    rewrite Q2. replace (fuel - length V)%nat with ((fuel - length V - length V1) + length V1)%nat by lia.
    destruct (scan base grow h1 L1 nu H1 ltac:(lia) V1 d1 (freep h1) sf1 (fuel - length V - length V1) Q1 ltac:(intros n Hn; by apply Q3) Hin1 Q2 Q5) as [(b & h' & L' & E' & T)|[Hs1 _]].
    + exists b, h', L'. split; [done|]. destruct T as [T1 T2 T3 T4 T5 T6]. split; try done; [lia|..].
      * intros x Hx. destruct (T4 x Hx) as [Hc|Hc]; [apply Hcov in Hc as [|]; [auto|right; lia]|right; lia].
      * intros x. rewrite T5, Hcov. assert (brk h <= x < brk h' <-> brk h <= x < brk h1 \/ brk h1 <= x < brk h') as -> by lia. tauto.
      * intros x Hx1 Hx2 Hx3. rewrite T6; [apply Hfr; [done|lia|done]| |lia|done]. rewrite Hcov. intros [|]; [done|lia].
    + exfalso. destruct (covered_one (base + 7) L1 (brk h1) (brk h) (brk h1)) as (c & s & Hc & Hc1 & Hc2); [apply H1|lia| |].
      * intros x Hx. apply Hcov. by right.
      * rewrite Forall_forall in Hs1. specialize (Hs1 (c, s) ltac:(apply Q3; by apply list_elem_of_further)). simpl in Hs1. lia.
Qed.
End malloc.

(** ** The allocator as its users see it *)

(** Before the first [malloc], [freep] is 0 and there is no free list. *)
Definition heap_state (base : Z) (h : heap) (L : list (Z * Z)) : Prop :=
  heap_ok base h L \/ (freep h = 0 /\ L = [] /\ 0 < base /\ base + 8 <= brk h < 2 ^ 31).

(** [A] are the blocks in use: the address of the header and the size with the
    header.  They have their sizes in their headers, and are apart from each
    other and from the free memory. *)
Record alloc_ok (base : Z) (h : heap) (L A : list (Z * Z)) : Prop := MkAllocOk {
  ao_heap : heap_state base h L;
  ao_init : heap_ok base h L \/ A = [];
  ao_block : forall b n, (b, n) ∈ A -> 1 <= n /\ base + 8 <= b /\ b + 8 * n <= brk h /\ size (hmem h) b = n;
  ao_free : forall b n x, (b, n) ∈ A -> b <= x < b + 8 * n -> ~ covered L x;
  ao_apart : forall i j b n c k, A !! i = Some (b, n) -> A !! j = Some (c, k) -> i <> j -> b + 8 * n <= c \/ c + 8 * k <= b
}.

(** The bytes of a block in use are as they were. *)
Definition kept (A : list (Z * Z)) (h h' : heap) : Prop :=
  forall b n x, (b, n) ∈ A -> b <= x < b + 8 * n -> rd8 (hmem h') x = rd8 (hmem h) x.

Lemma kept_size A h h' b n : kept A h h' -> (b, n) ∈ A -> 1 <= n -> size (hmem h') b = size (hmem h) b.
Proof. intros K Hin Hn. unfold size. apply rd32_ext. intros x Hx. eapply K; [done|lia]. Qed.

Lemma heap_state_brk base h L : heap_state base h L -> 0 < base /\ base + 8 <= brk h < 2 ^ 31.
Proof. intros [[_ _ _ _ H5 H6]|(_ & _ & H)]; lia. Qed.

Lemma covered_brk base h L x : heap_state base h L -> covered L x -> base + 8 <= x < brk h.
Proof.
  intros [H|(_ & -> & _)]; [|intros Hx; by apply covered_nil in Hx]. intros (a & s & Hin & Hx). destruct H as [_ H2 H3 _ _ _].
  pose proof (ordered_in _ _ _ _ _ H2 Hin). rewrite Forall_forall in H3. specialize (H3 _ Hin). simpl in H3. rewrite fin_pos in * by lia. lia.
Qed.

Section users.
Context (base : Z) (grow : Z -> Z -> bool).
Hypothesis Hgrow : forall b n, grow b n = true -> b + n < 2 ^ 31.

(** The start of [malloc] sets up the list if there is none. *)
Lemma malloc_start h L A fuel nbytes : alloc_ok base h L A -> 0 <= nbytes < 2 ^ 30 ->
  exists h0, heap_ok base h0 L /\ brk h0 = brk h /\ kept A h h0 /\
    malloc base grow fuel nbytes h = malloc_loop grow fuel ((nbytes + 7) / 8 + 1) (freep h0) (ptr (hmem h0) (freep h0)) h0.
Proof.
  intros [[H|(Hf & -> & Hb & Hbr)] _ A2 A3 A4] Hnb; unfold malloc.
  - exists h. split_and!; try done. erewrite bind_ok_l by reflexivity. cbv beta zeta.
    destruct H as [_ H2 _ H4 H5 _].
    assert (freep h <> 0) as Hf0.
    { apply elem_of_cons in H4 as [->|Hin]; [lia|]. apply list_elem_of_fmap in Hin as ([a t] & -> & Hin).
      pose proof (ordered_in _ _ _ _ _ H2 Hin). cbn. lia. }
    rewrite (proj2 (Z.eqb_neq _ _)) by done. unfold when. erewrite bind_ok_l by reflexivity. cbv beta. erewrite bind_ok_l by reflexivity. cbv beta.
    rewrite u32_small by lia. by replace (nbytes + HDR - 1) with (nbytes + 7) by lia.
  - exists (MkHeap (set_size base 0 (set_ptr base base (hmem h))) base (brk h)). split_and!; try done.
    + split; cbn [hmem brk freep]; [|cbn; lia|constructor|apply list_elem_of_here|lia|lia].
      cbn [chain next_of]. split_and!; [hdr; done|hdr; done|done].
    + intros b n x Hin Hx. destruct (A2 b n Hin) as (? & ? & _). cbn. unfold set_size, set_ptr. by rewrite !rd8_wr32_ne by lia.
    + erewrite bind_ok_l by reflexivity. cbv beta zeta. rewrite Hf, Z.eqb_refl. unfold when, set_freep, upd, modify, get, mbind, M_bind. cbn.
      rewrite u32_small by lia. by replace (nbytes + HDR - 1) with (nbytes + 7) by lia.
Qed.

(** C29: [malloc] of less than 2^30 bytes in any state of the heap with blocks
    in use, over any kernel ([grow]) that never grows the process to 2^31 bytes
    or beyond: either no free block is large enough and the kernel refuses to
    grow the process, and it returns 0; or it returns a block of at least
    [nbytes] bytes that is apart from every block in use, and the heap is as it
    should be with the new block in use.  In both cases the contents of all
    blocks in use are unchanged. *)
Theorem malloc_correct h L A nbytes fuel : alloc_ok base h L A -> 0 <= nbytes < 2 ^ 30 -> (4 * length L + 8 <= fuel)%nat ->
  let nunits := (nbytes + 7) / 8 + 1 in
  exists q h', malloc base grow fuel nbytes h = Ok q h' /\ kept A h h' /\
  ((q = 0 /\ alloc_ok base h' L A /\ Forall (fun n => n.2 < nunits) L /\ grow (brk h) (8 * Z.max nunits 4096) = false) \/
   (exists L', alloc_ok base h' L' ((q - 8, nunits) :: A) /\ nbytes <= 8 * nunits - 8)).
Proof.
  intros HA Hnb Hfuel nu. destruct (malloc_start h L A fuel nbytes HA Hnb) as (h0 & H0 & Eb & K0 & ->).
  assert (1 <= nu < 2 ^ 28 /\ nbytes <= 8 * nu - 8) as [Hnu Hsz].
  { unfold nu. pose proof (Z.div_mod (nbytes + 7) 8 ltac:(lia)). pose proof (Z.mod_pos_bound (nbytes + 7) 8 ltac:(lia)). lia. }
  pose proof HA as [A1 _ A2 A3 A4].
  destruct (malloc_found base grow Hgrow h0 L nu fuel H0 Hnu Hfuel) as [(E & Hs & Eg)|(b & h' & L' & E & [T1 T2 T3 T4 T5 T6])].
  - exists 0, h0. split_and!; [done..|]. left. rewrite Eb in Eg. split_and!; try done. split; [by left|by left| | |done].
    + intros b n Hin. destruct (A2 _ _ Hin) as (Q1 & Q2 & Q3 & Q4). rewrite Eb, (kept_size A h h0 b n) by done. done.
    + done.
  - assert (kept A h h') as K.
    { intros c n x Hin Hx. rewrite <- (K0 c n x Hin Hx). destruct (A2 _ _ Hin) as (Q1 & Q2 & Q3 & Q4). apply T6; [by eapply A3|lia|lia]. }
    assert (forall x, b <= x < b + 8 * nu -> base + 8 <= x < brk h') as Hb.
    { intros x Hx. pose proof (heap_state_brk _ _ _ (ao_heap _ _ _ _ HA)). destruct (T4 x Hx) as [Hc|Hc]; [|lia].
      pose proof (covered_brk base h0 L x (or_introl H0) Hc). lia. }
    pose proof (Hb b ltac:(lia)). pose proof (Hb (b + 8 * nu - 1) ltac:(lia)).
    assert (forall c n, (c, n) ∈ A -> b + 8 * nu <= c \/ c + 8 * n <= b) as Hap.
    { intros c n Hin. destruct (A2 _ _ Hin) as (Q1 & Q2 & Q3 & Q4). destruct (decide (b + 8 * nu <= c \/ c + 8 * n <= b)) as [|Hno]; [done|].
      exfalso. destruct (T4 (Z.max b c)) as [Hc|Hc]; [lia| |lia]. eapply A3; [exact Hin| |exact Hc]. lia. }
    exists (b + HDR), h'. split_and!; [done..|]. right. exists L'. replace (b + HDR - 8) with b by lia. split; [|done]. split.
    + by left.
    + by left.
    + intros c n Hin. apply elem_of_cons in Hin as [[= -> ->]|Hin]; [split_and!; (done || lia)|].
      destruct (A2 _ _ Hin) as (Q1 & Q2 & Q3 & Q4). rewrite (kept_size A h h' c n) by done. split_and!; (done || lia).
    + intros c n x Hin Hx. rewrite T5. apply elem_of_cons in Hin as [[= -> ->]|Hin]; [tauto|].
      destruct (A2 _ _ Hin) as (Q1 & Q2 & Q3 & Q4). intros [[Hc|Hc] _]; [by eapply A3|lia].
    + intros [|i] [|j] c n d k Hi Hj Hij; cbn in Hi, Hj; simplify_eq; try done.
      * apply (Hap d k). by eapply list_elem_of_lookup_2.
      * destruct (Hap c n); [by eapply list_elem_of_lookup_2|auto|auto].
      * eapply (A4 i j); eauto.
Qed.
End users.

(** [free] of a block in use gives exactly that block back to the free
    memory, joined with its free neighbours; the heap is as it should be
    without the block, and the contents of the other blocks in use are
    unchanged. *)
Theorem free_correct base h L A i b n fuel : alloc_ok base h L A -> A !! i = Some (b, n) -> (2 * length L + 2 <= fuel)%nat ->
  exists h' L', free fuel (b + HDR) h = Ok tt h' /\ alloc_ok base h' L' (delete i A) /\ brk h' = brk h /\
    (forall x, covered L' x <-> covered L x \/ b <= x < b + 8 * n) /\ kept (delete i A) h h'.
Proof.
  intros [A1 A1' A2 A3 A4] Hi Hf. assert ((b, n) ∈ A) as Hin by by eapply list_elem_of_lookup_2.
  destruct A1' as [H| ->]; [|done]. destruct (A2 _ _ Hin) as (Q1 & Q2 & Q3 & Q4). pose proof H as [_ H2 H3 _ _ _].
  destruct (free_run base h L b n H Q1 Q2 Q3) with (fuel := fuel) as (h' & L' & E & H' & Eb & Hcov & Hfr & _); try done.
  { intros a s Ha. destruct (decide (b + 8 * n <= a \/ a + 8 * s <= b)) as [|Hno]; [done|]. exfalso.
    rewrite Forall_forall in H3. specialize (H3 _ Ha). simpl in H3.
    apply (A3 b n (Z.max a b) Hin ltac:(lia)). exists a, s. split; [done|lia]. }
  assert (forall c k, (c, k) ∈ delete i A -> (c, k) ∈ A /\ (c + 8 * k <= b \/ b + 8 * n <= c)) as Hdel.
  { intros c k Hc. apply list_elem_of_lookup in Hc as [j Hj]. rewrite list_lookup_delete in Hj. destruct (decide (j < i)%nat) as [Hji|Hji].
    - split; [by eapply list_elem_of_lookup_2|]. apply (A4 j i c k b n Hj Hi). lia.
    - split; [by eapply list_elem_of_lookup_2|]. apply (A4 (S j) i c k b n Hj Hi). lia. }
  assert (kept (delete i A) h h') as K.
  { intros c k x Hc Hx. destruct (Hdel _ _ Hc) as [HcA Hca]. destruct (A2 _ _ HcA) as (R1 & R2 & R3 & R4). apply Hfr; [by eapply A3|lia|lia]. }
  exists h', L'. split_and!; try done. split; [by left|by left|..].
  - intros c k Hc. destruct (Hdel _ _ Hc) as [HcA Hca]. destruct (A2 _ _ HcA) as (R1 & R2 & R3 & R4). by rewrite (kept_size (delete i A) h h' c k), Eb.
  - intros c k x Hc Hx. destruct (Hdel _ _ Hc) as [HcA Hca]. rewrite Hcov. intros [Hl|Hl]; [by eapply A3|lia].
  - intros j1 j2 c k d l Hj1 Hj2 Hne. rewrite list_lookup_delete in Hj1, Hj2.
    destruct (decide (j1 < i)%nat), (decide (j2 < i)%nat); (eapply A4; [exact Hj1|exact Hj2|lia]).
Qed.

(** A program may write to the bytes of its blocks after the header. *)
Lemma alloc_ok_write base h L A b n x v : alloc_ok base h L A -> (b, n) ∈ A -> b + 8 <= x < b + 8 * n ->
  alloc_ok base (MkHeap (wr8 (hmem h) x v) (freep h) (brk h)) L A.
Proof.
  intros [A1 A1' A2 A3 A4] Hin Hx. destruct (A2 _ _ Hin) as (Q1 & Q2 & Q3 & Q4).
  assert (~ covered L x) as Hnc by (eapply A3; [exact Hin|lia]).
  assert (heap_ok base h L -> heap_ok base (MkHeap (wr8 (hmem h) x v) (freep h) (brk h)) L) as Hok.
  { intros [H1 H2 H3 H4 H5 H6]. split; try done. cbn [hmem]. apply (chain_frame (hmem h)); [|done].
    intros a s Ha. assert (x < a \/ a + 8 <= x) as Hax.
    { apply elem_of_cons in Ha as [[= -> ->]|Ha]; [lia|]. rewrite Forall_forall in H3. specialize (H3 _ Ha). simpl in H3.
      destruct (decide (a <= x < a + 8 * s)); [|lia]. exfalso. apply Hnc. by exists a, s. }
    unfold ptr, size. split; apply rd32_ext; intros; apply rd8_wr8_ne; lia. }
  split; try done.
  - destruct A1 as [H|H]; [left; auto|right; done].
  - destruct A1' as [H|H]; [left; auto|right; done].
  - intros c k Hc. destruct (A2 _ _ Hc) as (R1 & R2 & R3 & R4). split_and!; try done. cbn [hmem]. rewrite <- R4. unfold size. apply rd32_ext.
    intros y Hy. apply rd8_wr8_ne. intros ->. apply list_elem_of_lookup in Hc as [i Hi], Hin as [j Hj].
    destruct (decide (i = j)) as [->|Hne]; [simplify_eq; lia|]. destruct (A4 i j _ _ _ _ Hi Hj Hne); lia.
Qed.

(** ** A run *)

Module UmallocEx.

(** A process of two pages with [base] at 4096, and a kernel that lets it grow
    to 16 MB. *)
Definition grow (b n : Z) : bool := b + n <=? 2 ^ 24.
Definition start : heap := MkHeap ∅ 0 8192.

Lemma start_ok : alloc_ok 4096 start [] [].
Proof.
  split; [right; cbn; split_and!; (done || lia)|by right|by intros ? ? ?%elem_of_nil|by intros ? ? ? ?%elem_of_nil|done].
Qed.

Lemma grow_ok b n : grow b n = true -> b + n < 2 ^ 31.
Proof. unfold grow. intros H. apply Z.leb_le in H. lia. Qed.

(** A free block of 10 units, and a block of 2 units in use after it. *)
Definition used : heap :=
  MkHeap (set_size 8272 2 (set_size 8192 10 (set_ptr 8192 4096 (set_size 4096 0 (set_ptr 4096 8192 ∅))))) 4096 8288.

Lemma used_ok : alloc_ok 4096 used [(8192, 10)] [(8272, 2)].
Proof.
  assert (heap_ok 4096 used [(8192, 10)]) as H.
  { split; cbn [brk freep used]; try lia.
    - cbn. split_and!; by vm_compute.
    - cbn. lia.
    - by repeat constructor.
    - apply list_elem_of_here. }
  split; [by left|by left|..].
  - intros b n Hin. apply list_elem_of_singleton in Hin as [= -> ->]. split_and!; by vm_compute.
  - intros b n x Hin Hx. apply list_elem_of_singleton in Hin as [= -> ->]. intros (a & s & Ha & Hax). apply list_elem_of_singleton in Ha as [= -> ->]. lia.
  - intros [|i] [|j] b n c k Hi Hj Hne; simplify_eq/=; done.
Qed.
End UmallocEx.

Lemma malloc_correct_witness : exists h', malloc 4096 UmallocEx.grow 8 100 UmallocEx.start = Ok 40856 h' /\
  exists L, alloc_ok 4096 h' L [(40848, 14)].
Proof.
  destruct (malloc_correct 4096 UmallocEx.grow UmallocEx.grow_ok UmallocEx.start [] [] 100 8 UmallocEx.start_ok ltac:(lia) ltac:(simpl; lia)) as (q & h' & E & _ & [(-> & _)|(L' & H & _)]).
  - exfalso. vm_compute in E. discriminate E.
  - assert (q = 40856) as -> by (vm_compute in E; congruence). exists h'. split; [exact E|]. exists L'. exact H.
Defined.

(** Freeing the block of 2 units after the free block of 10 units. *)
Lemma free_correct_witness : exists h' L', free 4 8280 UmallocEx.used = Ok tt h' /\ alloc_ok 4096 h' L' [] /\
  forall x, covered L' x <-> covered [(8192, 10)] x \/ 8272 <= x < 8288.
Proof.
  destruct (free_correct 4096 UmallocEx.used [(8192, 10)] [(8272, 2)] 0 8272 2 4 UmallocEx.used_ok eq_refl ltac:(simpl; lia)) as (h' & L' & Ef & H' & _ & Hc & _).
  exists h', L'. exact (conj Ef (conj H' Hc)).
Defined.

(** A request of nearly 2^32 bytes overflows the number of units: [malloc]
    returns a block of no bytes. *)
Lemma malloc_overflow : exists h', malloc 4096 UmallocEx.grow 8 (2 ^ 32 - 1) UmallocEx.start = Ok 40960 h' /\ size (hmem h') (40960 - 8) = 1 /\ brk h' = 40960.
Proof. eexists. split; [vm_compute; reflexivity|]. by vm_compute. Qed.
